(* ===== verification/_CoqProject ===== *)
-Q . S2P
Prelude.v
StateM.v
Common.v
Utils.v
CppString.v
WorkerCodec.v
EnvCfg.v
Naming.v
Json.v
JsonGrammar.v
JsonSpec.v
JsonWrite.v
JsonRoundTrip.v
EasNaming.v
CopySpec.v
ParseCommon.v
TokenCopy.v
Bounds.v
ParseRagged.v
ParseFlash.v
ParseDpsk.v
ParseFlashInfer.v
ParseQwen3Next.v
ParseQwen3NextFlashInfer.v
ParseKda.v
ParseKimiK3.v
Planner.v
BlockSend.v
PlanEquiv.v
StatePages.v
Channel.v
DeviceKernel.v
CopyKernel.v
CopyFrame.v
Profile.v
CopyCtx.v
Fp8.v
TcpWire.v
Rdma.v
RdmaGroup.v
TcpChannel.v
StagedServer.v
StagedChannel.v
StagedTransfer.v
RpcTable.v
Calls.v
Async.v
CloseChannels.v
Teardown.v
Stats.v
Monitor.v
TxStub.v
Ranks.v
SendDone.v
NoticeRpc.v
ThreadPool.v
Step.v
Context.v
Gdr.v
Startup.v
TargetMgr.v
Client.v
Bindings.v
