(* ===== verification/Prelude.v ===== *)
(** * The prefill-to-decode KV transfer library

    This library models [src/kvtransfer], the C++ core of a library that moves the KV cache
    of a request from the workers of a prefill instance (P) to the workers of a decode
    instance (D) while the prefill is still running: the sending side from the client's
    requests to the copies, the receiving side of its three channels, and how a process
    starts, publishes itself and is found.

    ** The program

    A request is prefilled in steps.  The client ([src/client.cpp]) collects the tasks of a
    step (request, tokens already sent, new tokens, last step or not) from the engine's
    thread and from the disagg thread and hands them, one batch per destination worker, to
    the target manager, which keeps a least-recently-used table of send stubs and runs the
    batches on a thread pool.  While the model runs, the step ([src/step.cpp]) learns layer
    by layer that the cache is filled, and the stubs wait for each layer before sending it.
    The stub ([src/tx_stub.cpp], [KvSendStub]) binds the destination
    on first use, decides which prefill ranks send ([compute_valid_ranks_pd]) and selects
    one of some twenty parse functions by cache shape and by the relation of the two
    tensor-parallel (TP) sizes.  The parse function ([src/parse_block_*.cpp]) turns a task
    into copy records (source offset, destination offset, length), every one of them
    checked against the registered tensors ([append_ipc_block_checked]).  The stub
    registers the records with a channel ([src/channel.cpp]), sends layer by layer
    (gathered into a message over TCP, [src/tcp_channel.cpp] and [src/copy_kernels.cpp], as
    remote writes, [src/rdma_channel.cpp], or as remote writes into host buffers that the
    server scatters, [src/rdma_staged_channel.cpp] and [src/rdma_staged_server.cpp]),
    flushes, settles the request states and reports finished requests to the local scheduler
    ([rpc_send_done], read by [blade_kvt/hybrid_connector/utils.py]).  A declarative planner
    ([src/cache_transfer_spec.cpp]) is meant to replace the parse functions.

    A process starts through [kvtransfer_pybind.cpp]: it builds a context with its caches
    ([src/context.cpp]), registers them with a network card ([src/barex_protocol.cpp]), and
    starts a server or a client.  A server publishes its record through a naming service
    ([src/naming.cpp] and the clients beside it); the stub finds it there.  Calls between
    client and server go through a table of outstanding requests.

    ** Files

    - [Prelude]: results with C++ error classes, machine integers, vectors, loops with
      fuel, partial and total weakest preconditions and the loop rules used everywhere.
    - [StateM]: the state and error monad of the components that mutate shared objects, with
      exceptions, unwinding and scopes.
    - [Common]: [include/common.h], [include/envcfg.h] and the records of
      [include/channel.h]: workers, requests, tasks, copy records, switches ([Env], with
      the build flavour), and the well-typedness of these records.
    - [Utils]: iterators, base64 and the blocking queue of [include/utils].
    - [CppString], [WorkerCodec]: the parts of [std::string] the library uses, and the text
      form of a worker ([src/common.cpp]).
    - [EnvCfg]: the settings read from the environment ([src/envcfg.cpp]).
    - [Json], [JsonGrammar], [JsonSpec]: the JSON reader of [include/thrid_party/json.h], both
      passes with their option bits and every write into its allocation; the grammar it is
      meant to read; and the proof that it reads exactly that grammar.
    - [JsonWrite], [JsonRoundTrip]: the writers and the extraction of the same header, with the
      bounds of their allocations, and reading back what was written.
    - [Naming], [EasNaming]: publishing and finding workers.  [NamingStore] with [NamingLaws]
      is the interface the worker client is proved against; the file-system store, which writes
      byte by byte, and the TCP store are its instances, and the EAS client has its caches.
    - [CopySpec]: the abstract meaning of records, as byte copies on memories.
    - [ParseCommon]: the emitters of [include/parse_block_common.h] and
      [src/parse_block_common.cpp]; the contract [ParseBlockSpec] every parse function
      fulfils towards the stub, and the automation that proves it.
    - [TokenCopy]: closed forms of the token loops under allocation hypotheses.
    - [Bounds]: the range check and the zero fill against their specifications.
    - [ParseRagged], [ParseFlash], [ParseDpsk], [ParseFlashInfer], [ParseQwen3Next] (with
      TURBOQUANT), [ParseQwen3NextFlashInfer], [ParseKda], [ParseKimiK3]: one file per
      source file, every entry point and helper, with its [ParseBlockSpec] instance.
    - [BlockSend]: the block-aligned send over the steps of a chunked prefill, and the
      MLA loop that is meant to agree with it.
    - [Planner], [PlanEquiv]: the planner ([src/cache_transfer_spec.cpp],
      [include/attn_layout.h]), and its relation to the parse functions.
    - [StatePages]: recurrent-state pages cut into the slices of the TP ranks.
    - [Channel]: range validation, record merging, protocol sets, choice of a channel.
    - [DeviceKernel], [CopyKernel], [CopyFrame], [Profile], [CopyCtx], [Fp8]: the copy kernels
      of [src/copy_kernels.cu] thread by thread, the choice of a copy method and the batching
      of [src/copy_kernels.cpp], which bytes a copy can touch, the measurements behind the
      choice, the buffers and streams of a thread ([src/copy_utils.cpp]), and the conversion
      to fp8.
    - [TcpWire], [TcpChannel]: the message of a layer and its reception, and the whole TCP
      channel ([src/tcp_channel.cpp]).
    - [Rdma], [RdmaGroup]: the RDMA channel with its memory handles, write batches and CRC
      exchange, and the grouping of records by destination ([src/rdma_channel.cpp]).
    - [StagedServer], [StagedChannel], [StagedTransfer]: the two ends of the staged RDMA
      channel, and both running together.
    - [RpcTable], [Calls]: the outstanding calls of a client and their promises, and the thread
      of a blocking call.
    - [Async], [CloseChannels], [Teardown]: requests to the transport with their buffers,
      futures and callbacks, the tasks that close channels, each held by the pool and by the
      thread that handed it over, and the order in which a context is destroyed
      ([src/barex_protocol.cpp], [src/rdma_channel.cpp]).
    - [Stats]: [include/utils/timer.h] and the statistics of the flush functions.
    - [Monitor]: the commands of the heap profiler's port ([src/monitor.cpp]).
    - [TxStub]: the stub as a state machine over its context, the request states and the
      trace of calls to its collaborators, which are the fields of [Outside].
    - [Ranks]: which ranks send and what the effective rank means.
    - [SendDone], [NoticeRpc]: the completion notice, written by the stub and read by the
      server, and its delivery over sockets that fail ([src/socket_helper.cpp]).
    - [ThreadPool]: the pool of [include/utils/thread_pool.h] as a transition system.
    - [Step]: the semaphores of a step ([src/semaphore.cpp], [src/step.cpp]) as a transition
      system of the engine's thread, the waiting thread and the sending threads.
    - [Context], [Startup]: a process's context and its registration with the network, the
      three servers, the creation of a client and the process's init functions; the host, its
      devices and the transport answer through the class [Node].
    - [Gdr]: the GDRCopy library with its mappings and their destructors ([src/gdr.cpp]); the
      class [GdrLib] with [GdrLaws] is what the library answers and promises.
    - [TargetMgr]: the list of targets with its index, and the table it implements.
    - [Client]: the client's operations as a transition system of the engine's and the disagg
      thread, which share the coordination state and are split at their critical sections, and
      of requests started directly by any thread.
    - [Bindings]: the request functions of [kvtransfer_pybind.cpp] over the client.

    ** Conventions

    Unsigned integers are [Z] with the wrap-around written out ([u32], [u64]); operator[]
    out of range and division by zero are [Undefined], [at()] throws [OutOfRange], [assert]
    fails with [AssertFailed] in debug builds and is absent in release builds ([ndebug]).
    Vectors are lists; [reserve], logging, metrics and test-only fault injection are left
    out, except that the stub's log lines throw when the record they print cannot be
    written.  Signed counters, such as the turn of the round robin over the connections of a
    channel, are [Undefined] past [INT_MAX].  A parse function that throws leaves the
    records it appended in the vector; the stub drops that vector at the end of the batch
    without reading it, so the model does not keep them.

    Loops that are not structural take fuel: the number of tokens (or bytes, or
    positions) left, which bounds the iterations because every iteration consumes at least
    one; blocks left for the batch loops of [CopyKernel] and [Fp8], list length for the
    eviction loop of [TargetMgr], string length for the scanners of [WorkerCodec], [EnvCfg],
    [Context] and [Profile], threads per SM for the launch loop of [Profile], bytes left for
    the socket loops of [NoticeRpc], elements left for the filters of [Utils], and the
    twenty decimal digits a 64-bit number can have in [JsonWrite].  The JSON reader
    takes a loop budget above the length of the text and a nesting depth above it too: each
    round and each level consume a character.
    [OutOfFuel] marks exhaustion, and the contract [ParseBlockSpec] and the stub
    theorems show that it is never the result.

    ** What the theorems show

    - C1-C3, C5: for the RAGGED and FLASH layouts, the records of a step move exactly the
      bytes of the step's tokens to where the destination layout expects them, for equal
      TP and for every rank of a group under unequal TP; no byte is missed or written
      twice ([flash_p_eq_d_transfers] does the equal-TP case of FLASH).
    - C6: chunked prefill sends each block once ([mla_equal_tp_matches_aligned_send]: the two
      block-aligned loops agree).
    - C8: state pages are partitioned exactly among the ranks ([gdn_p_lt_d_group_complete] for
      P<D).
    - C10-C12, C14: the stub: registered records are in range in every reachable state,
      the outcome of a batch, OK only after a flush and termination of every parse function
      ([destination_stays_bound]: a binding is stable, [unsupported_shape_crashes_next_batch]
      for unsupported shapes).
    - C15: sender selection and effective ranks agree with the destination ranks.
    - C16, C40: the completion notice survives the wire; over sockets that break, what was
      acknowledged was read whole, and nothing is read that was not sent.
    - C17, C19: the range check decides the unbounded-integer condition, and record merging
      keeps the copies ([group_by_dst_keeps_records] for the grouping by destination).
    - C4, C22, C23, C29: a whole transfer over each of the three channels, from the sender's
      device to the receiver's, performs the copies of all layers, in whatever order messages
      and writes arrive and whatever copy methods the devices choose; the CRC check of RDMA
      passes.
    - C18: no message of a peer makes the TCP or the staged server write outside its tensors.
    - C7, C37: in every interleaving each call is answered exactly once, by the handler that
      was pushed for it and from what reached it, also when its caller has given up
      ([blocking_call_is_answered]: no caller waits in vain).
    - C9, C13: every request to the transport settles its future and releases its buffer exactly
      once, and the channels of each list handed over are closed in order and exactly once,
      whichever thread destroys them ([regions_given_back_once] and [teardown_order]: what is
      destroyed with a context).
    - C21: the GDRCopy library holds exactly what the live mappings own, wherever it fails
      ([serves_context_mapping]: such a mapping is what a context is given).
    - C20, C38: a client that reads the record of a started server learns the addresses,
      keys and sizes of its caches, the keys being those of the registered regions, and
      every context of a process is well typed ([started_server_exposes_caches]: the server
      exposes exactly the caller's caches).
    - C31, C33, C36: the JSON reader returns on every text, accepts exactly its grammar and
      builds the tree the grammar gives inside the allocation it measured; the values a
      worker publishes through EAS are read back by every other worker, if its versions are
      numbers; what the writer writes fits its allocation and is read back
      ([extracted_fills]: so does an extracted value).
    - C30, C34, C39: the text form of a worker; readers of the naming directory never see a
      partial value; the EAS cache follows the versions its service lists
      ([registered_worker_is_found]: a registered worker is found over any store).
    - C24, C25: no layer is sent before its event, in any interleaving, and a flushed step
      always ends with every layer sent once and in order by every sending thread.
    - C26: the client loses and duplicates no task, in any interleaving of its threads, and
      hands each over in the batch of its destination.
    - C27, C28: the target manager implements a least-recently-used table, and no job
      outlives its target.
    - C32: where the planner agrees with the parse functions ([flash_plan_matches_parse] does
      the FLASH layout).
    - C35: the thread pool runs every task once and ends.
    - Outside the numbered properties, among others: the copy method is the one measured to be
      faster ([layouts_use_the_faster_method]), a thread's metadata buffers fit a batch and are
      given back ([copy_buffers_fit]), the staged server's buffers are live and owned once
      ([known_buffers_are_live]), the series behind the statistics ([flush_stats_series]), the
      profiler follows the last command ([conn_main_ok]), a step driven through the Python
      functions ([engine_step_runs]), settings ([settings_are_positive_or_default]), and round
      trips of the utilities ([base64_roundtrip], [iterator_pipeline], [queue_is_fifo]).

    The data theorems (C1-C6, C8) are stated without bf16-to-fp8 conversion; the safety and
    termination theorems hold with either setting.  What goes wrong outside the hypotheses
    is recorded beside them, among others by [parsed_destination_aborts],
    [fp8_v_records_keep_full_length], [uneven_heads_have_no_destination],
    [flashinfer_plan_drops_v_heads], [aligned_plan_lacks_trailing_blocks],
    [fallback_saturates_from_248], [pad_last_attn_block_cannot_be_disabled],
    [second_transport_shares_card], [missing_affinity_file_ends_process] and the examples
    [early_substep_fails_flush], [oversized_count_ends_server],
    [mismatched_count_aborts_server], [failed_prealloc_leaks], [missing_data_is_copied],
    [restarted_instance_expires], [unversioned_pod_is_never_refreshed],
    [failed_start_blocks_retry], [next_protocol_is_not_tried], [lone_minus_is_a_number],
    [empty_global_object_reads_past_end], [unescaped_value_crashes_readers],
    [failed_info_locks_twice], [injected_fault_releases_twice], [thrown_close_leaks],
    [caller_may_destroy_out_of_order], [late_message_uses_dead_table],
    [late_clock_wraps_link_time], [joined_command_is_lost], [hexadecimal_zero_overwrites],
    [partial_infinity_overflows], [looked_ahead_element_is_lost] and
    [stream_stays_on_first_device].

    ** Not modelled

    The barex transport, CUDA, GDRCopy, the file system, the HTTP service and the torch store
    are not part of the repository: their answers, the delivery of messages and the order in
    which GPU threads run are arguments.  Of the repository, CUDA occupancy queries, HTTP,
    shared memory, the set-up of sockets, the text of log lines, the random choice of an
    injected fault, the generated part of the Python module and the
    Python connectors (but for the completion notice server) are left out.  The stub
    sees the naming service, the channel factory, the channel and the RPC through the outcome
    of each call, which is arbitrary in the theorems. *)

From stdpp Require Export prelude list strings.
From stdpp Require Import numbers.
From Stdlib Require Export ZArith Lia.

#[global] Open Scope Z_scope.

(** ** Results of C++ code

    A C++ computation either returns or fails.  Exceptions carry their class,
    [AssertFailed] is the abort of an [assert] (debug builds) or of the
    [RTASSERT] macros, [Undefined] is undefined behaviour (division by zero,
    an out-of-range [operator[]]), and [OutOfFuel] is the model's own marker
    for a loop that was given too few iterations; the termination theorems show
    that it never escapes. *)
Inductive cpp_err :=
| OutOfRange | OverflowError | InvalidArgument | LengthError | RuntimeError
| AssertFailed | Undefined | OutOfFuel.

#[export] Instance cpp_err_eq_dec : EqDecision cpp_err.
Proof. solve_decision. Defined.

(** C++ exceptions can be caught; a failed assertion or undefined behaviour takes the
    process down, and [OutOfFuel] is an artefact of the model. *)
Definition is_exception (e : cpp_err) : bool :=
  match e with
  | OutOfRange | OverflowError | InvalidArgument | LengthError | RuntimeError => true
  | AssertFailed | Undefined | OutOfFuel => false
  end.

Inductive res (A : Type) :=
| Ok (a : A)
| Err (e : cpp_err).
Arguments Ok {A} _.
Arguments Err {A} _.

#[export] Instance res_eq_dec {A} `{EqDecision A} : EqDecision (res A).
Proof. solve_decision. Defined.

Definition rbind {A B} (m : res A) (f : A -> res B) : res B :=
  match m with Ok a => f a | Err e => Err e end.

Notation "'let*' x := m 'in' k" := (rbind m (fun x => k))
  (at level 10, x name, m at level 100, k at level 200,
   format "'let*'  x  :=  m  'in' '//' k").
Notation "'let*' ' p := m 'in' k" := (rbind m (fun p => k))
  (at level 10, p strict pattern, m at level 100, k at level 200,
   format "'let*'  ' p  :=  m  'in' '//' k").

Definition is_ok {A} (r : res A) : bool :=
  match r with Ok _ => true | Err _ => false end.

(** ** Machine integers

    [size_t]/[uint64_t] and [uint32_t] values are integers in range; an
    unsigned expression over [+], [-] and [*] at one width is evaluated exactly
    and reduced once, which is what the hardware computes because reduction
    commutes with these operations ([u64_add], [u64_mul]). *)
Definition W64 : Z := 2 ^ 64.
Definition W32 : Z := 2 ^ 32.
Definition u64 (z : Z) : Z := z mod W64.
Definition u32 (z : Z) : Z := z mod W32.
Definition SIZE_MAX : Z := W64 - 1.

(** [static_cast<int>] of a [uint32_t] (two's complement). *)
Definition to_i32 (z : Z) : Z := if z <? 2 ^ 31 then z else z - W32.

(** Unsigned division and remainder trap on a zero divisor. *)
Definition udiv (a b : Z) : res Z := if b =? 0 then Err Undefined else Ok (a / b).
Definition umod (a b : Z) : res Z := if b =? 0 then Err Undefined else Ok (a mod b).

(** ** Containers *)

(** [std::vector::at]: throws [std::out_of_range]. *)
Definition vec_at {A} (v : list A) (i : Z) : res A :=
  if i <? 0 then Err OutOfRange else
  match v !! Z.to_nat i with Some a => Ok a | None => Err OutOfRange end.

(** [std::vector::operator[]]: out of range is undefined behaviour. *)
Definition vec_idx {A} (v : list A) (i : Z) : res A :=
  if i <? 0 then Err Undefined else
  match v !! Z.to_nat i with Some a => Ok a | None => Err Undefined end.

Definition vsize {A} (v : list A) : Z := Z.of_nat (length v).

(** [std::vector::resize(n)] with value-initialised new elements. *)
Definition vec_resize {A} (d : A) (n : Z) (v : list A) : list A :=
  resize (Z.to_nat n) d v.

(** ** Loops *)

(** [while (cond(s)) s = body(s);] with an explicit iteration budget. *)
Fixpoint while {S : Type} (fuel : nat) (cond : S -> bool) (body : S -> res S)
    (s : S) : res S :=
  if cond s then
    match fuel with
    | O => Err OutOfFuel
    | Datatypes.S n => let* s' := body s in while n cond body s'
    end
  else Ok s.

(** [for (auto x : l) s = body(x, s);] *)
Fixpoint forM {A S : Type} (l : list A) (body : A -> S -> res S) (s : S) : res S :=
  match l with
  | [] => Ok s
  | x :: l => let* s' := body x s in forM l body s'
  end.

(** [for (i = lo; i < hi; ++i) s = body(i, s);] *)
Definition for_range {S : Type} (lo hi : Z) (body : Z -> S -> res S) (s : S) : res S :=
  forM (seqZ lo (hi - lo)) body s.

(** ** Postconditions

    [wpr r Q]: the computation [r] does not run out of fuel, and when it returns
    its value satisfies [Q]. *)
Definition wpr {A} (r : res A) (Q : A -> Prop) : Prop :=
  match r with Ok a => Q a | Err e => e <> OutOfFuel end.

(** ** Machine-integer lemmas *)

Lemma vsize_nonneg {A} (v : list A) : 0 <= vsize v.
Proof. unfold vsize. lia. Qed.

Lemma vsize_app {A} (u v : list A) : vsize (u ++ v) = vsize u + vsize v.
Proof. unfold vsize. rewrite length_app. lia. Qed.

Lemma u64_small z : 0 <= z < W64 -> u64 z = z.
Proof. apply Z.mod_small. Qed.

Lemma u32_small z : 0 <= z < W32 -> u32 z = z.
Proof. apply Z.mod_small. Qed.

Lemma u64_range z : 0 <= u64 z < W64.
Proof. unfold u64, W64. apply Z.mod_pos_bound. lia. Qed.

Lemma u32_range z : 0 <= u32 z < W32.
Proof. unfold u32, W32. apply Z.mod_pos_bound. lia. Qed.

Lemma u64_add a b : u64 (u64 a + u64 b) = u64 (a + b).
Proof. unfold u64, W64. rewrite <- Zplus_mod. reflexivity. Qed.

Lemma u64_mul a b : u64 (u64 a * u64 b) = u64 (a * b).
Proof. unfold u64, W64. rewrite <- Zmult_mod. reflexivity. Qed.

Lemma W32_lt_W64 : 0 < W32 < W64.
Proof. unfold W32, W64. lia. Qed.

(** ** Postcondition rules *)

Lemma wpr_ok {A} (a : A) (Q : A -> Prop) : Q a -> wpr (Ok a) Q.
Proof. done. Qed.

Lemma wpr_bind {A B} (m : res A) (f : A -> res B) (Q : B -> Prop) :
  wpr m (fun a => wpr (f a) Q) -> wpr (rbind m f) Q.
Proof. destruct m; done. Qed.

Lemma wpr_mono {A} (m : res A) (P Q : A -> Prop) :
  wpr m P -> (forall a, P a -> Q a) -> wpr m Q.
Proof. destruct m; simpl; auto. Qed.

Lemma wpr_elim {A} (m : res A) (Q : A -> Prop) a : wpr m Q -> m = Ok a -> Q a.
Proof. intros H ->. exact H. Qed.

Lemma wpr_no_fuel {A} (m : res A) (Q : A -> Prop) : wpr m Q -> m <> Err OutOfFuel.
Proof. destruct m as [|e]; simpl; congruence. Qed.

Lemma wpr_udiv a b (Q : Z -> Prop) :
  (b <> 0 -> Q (a / b)) -> wpr (udiv a b) Q.
Proof. unfold udiv. destruct (Z.eqb_spec b 0); simpl; auto; congruence. Qed.

Lemma wpr_umod a b (Q : Z -> Prop) :
  (b <> 0 -> Q (a mod b)) -> wpr (umod a b) Q.
Proof. unfold umod. destruct (Z.eqb_spec b 0); simpl; auto; congruence. Qed.

Lemma vec_at_Some {A} (v : list A) i a :
  0 <= i -> v !! Z.to_nat i = Some a -> vec_at v i = Ok a.
Proof. intros Hi Hv. unfold vec_at. destruct (Z.ltb_spec i 0); [lia|]. by rewrite Hv. Qed.

Lemma vec_at_inv {A} (v : list A) i a :
  vec_at v i = Ok a -> 0 <= i /\ v !! Z.to_nat i = Some a.
Proof.
  unfold vec_at. destruct (Z.ltb_spec i 0); [done|].
  destruct (v !! Z.to_nat i) eqn:E; intros [= <-]. split; [lia|done].
Qed.

Lemma vec_idx_Some {A} (v : list A) i a :
  0 <= i -> v !! Z.to_nat i = Some a -> vec_idx v i = Ok a.
Proof. intros Hi Hv. unfold vec_idx. destruct (Z.ltb_spec i 0); [lia|]. by rewrite Hv. Qed.

Lemma wpr_vec_at {A} (v : list A) i (Q : A -> Prop) :
  (forall a, 0 <= i -> v !! Z.to_nat i = Some a -> Q a) -> wpr (vec_at v i) Q.
Proof.
  intros H. unfold vec_at. destruct (Z.ltb_spec i 0); [done|].
  destruct (v !! Z.to_nat i) eqn:E; simpl; [apply H; auto; lia|done].
Qed.

Lemma wpr_vec_idx {A} (v : list A) i (Q : A -> Prop) :
  (forall a, 0 <= i -> v !! Z.to_nat i = Some a -> Q a) -> wpr (vec_idx v i) Q.
Proof.
  intros H. unfold vec_idx. destruct (Z.ltb_spec i 0); [done|].
  destruct (v !! Z.to_nat i) eqn:E; simpl; [apply H; auto; lia|done].
Qed.

(** A loop whose measure decreases in every round keeps its invariant, and the
    measure's initial value bounds the rounds it needs. *)
Lemma wpr_while {S} (Inv : S -> Prop) (m : S -> Z) cond body fuel (s : S) :
  (forall s, Inv s -> cond s = true ->
     0 < m s /\ wpr (body s) (fun s' => Inv s' /\ m s' < m s)) ->
  Inv s -> m s <= Z.of_nat fuel ->
  wpr (while fuel cond body s) (fun s' => Inv s' /\ cond s' = false).
Proof.
  intros Hbody. revert s. induction fuel as [|n IH]; intros s HI Hm; simpl.
  - destruct (cond s) eqn:E; [|by split]. destruct (Hbody s HI E). lia.
  - destruct (cond s) eqn:E; [|by split].
    destruct (Hbody s HI E) as [_ Hb]. apply wpr_bind.
    eapply wpr_mono; [exact Hb|]. intros s' [HI' Hlt]. apply IH; [done|lia].
Qed.

Lemma wpr_forM {A S} (Inv : S -> Prop) (l : list A) body (s : S) :
  (forall x s, x ∈ l -> Inv s -> wpr (body x s) Inv) ->
  Inv s -> wpr (forM l body s) Inv.
Proof.
  revert s. induction l as [|x l IH]; intros s Hb HI; simpl; [done|].
  apply wpr_bind. eapply wpr_mono; [apply Hb; [set_solver|done]|].
  intros s' HI'. apply IH; [|done]. intros y s'' Hy. apply Hb. set_solver.
Qed.

Lemma wpr_post {A} (m : res A) (P Q : A -> Prop) :
  (forall a, P a -> Q a) -> wpr m P -> wpr m Q.
Proof. eauto using wpr_mono. Qed.

(** ** Automation

    [wpr_db] holds the specification of every modelled function; [wpr_step]
    advances a [wpr] goal by one statement of the program. *)
Create HintDb wpr_db discriminated.
Create HintDb mach_db discriminated.
#[export] Hint Resolve u32_range u64_range : mach_db.

Ltac wpr_step :=
  lazymatch goal with
  | |- wpr (rbind _ _) _ => apply wpr_bind
  | |- wpr (Ok _) _ => apply wpr_ok
  | |- wpr (Err _) _ => discriminate
  | |- wpr (udiv _ _) _ => apply wpr_udiv; intros ?
  | |- wpr (umod _ _) _ => apply wpr_umod; intros ?
  | |- wpr (vec_at _ _) _ => apply wpr_vec_at; intros ? ? ?
  | |- wpr (vec_idx _ _) _ => apply wpr_vec_idx; intros ? ? ?
  | |- wpr (if ?b then _ else _) _ => destruct b eqn:?
  | |- wpr (match ?p with pair _ _ => _ end) _ => destruct p as [? ?]; simpl in *
  end.

(** Token arithmetic shared by all copy loops: a chunk limited by the rest of the
    current block and by the tokens left makes progress. *)
Lemma chunk_progress left_ n i :
  0 < left_ < W32 -> 0 <= n < W32 -> n <> 0 ->
  0 <= u32 (left_ - Z.min (u32 (n - i mod n)) left_) < left_.
Proof.
  intros Hl Hn Hn0. pose proof (Z.mod_pos_bound i n ltac:(lia)).
  rewrite (u32_small (n - _)) by lia. rewrite u32_small; lia.
Qed.

Lemma chunk_progress2 left_ n i n' i' :
  0 < left_ < W32 -> 0 <= n < W32 -> n <> 0 -> 0 <= n' < W32 -> n' <> 0 ->
  0 <= u32 (left_ - Z.min (Z.min (u32 (n - i mod n)) (u32 (n' - i' mod n'))) left_) < left_.
Proof.
  intros. pose proof (Z.mod_pos_bound i n ltac:(lia)).
  pose proof (Z.mod_pos_bound i' n' ltac:(lia)).
  rewrite (u32_small (n - _)), (u32_small (n' - _)) by lia. rewrite u32_small; lia.
Qed.
#[export] Hint Resolve chunk_progress chunk_progress2 : mach_db.

Lemma pos_progress p end_ n i :
  0 <= p < end_ -> end_ < W32 -> 0 <= n < W32 -> n <> 0 ->
  p < u32 (p + Z.min (u32 (n - i mod n)) (u32 (end_ - p))) <= end_.
Proof.
  intros. pose proof (Z.mod_pos_bound i n ltac:(lia)).
  rewrite (u32_small (n - _)), (u32_small (end_ - _)) by lia. rewrite u32_small; lia.
Qed.

Lemma pos_progress64 p end_ n i :
  0 <= p < end_ -> end_ < W64 -> 0 <= n < W64 -> n <> 0 ->
  p < u64 (p + Z.min (u64 (n - i mod n)) (u64 (end_ - p))) <= end_.
Proof.
  intros. pose proof (Z.mod_pos_bound i n ltac:(lia)).
  rewrite (u64_small (n - _)), (u64_small (end_ - _)) by lia. rewrite u64_small; lia.
Qed.

(** The loop shape [while (left > 0)] over (position, left, output). *)
Lemma wpr_token_loop {P T} (R : T -> T -> Prop) `{!PreOrder R}
    (round : P * Z * T -> res (P * Z * T)) w l (t : T) :
  0 <= l < W32 ->
  (forall w l t, 0 < l < W32 ->
     wpr (round (w, l, t)) (fun s' => 0 <= s'.1.2 < l /\ R t s'.2)) ->
  wpr (while (Z.to_nat l) (fun s => 0 <? s.1.2) round (w, l, t)) (fun s' => R t s'.2).
Proof.
  intros Hl Hround.
  eapply wpr_mono.
  - apply (wpr_while (fun s => 0 <= s.1.2 < W32 /\ R t s.2) (fun s => s.1.2));
      [|split; [done|reflexivity]|simpl; lia].
    intros [[w' l'] t'] [Hr HR] Hc. simpl in *.
    split; [lia|]. eapply wpr_mono; [apply Hround; lia|].
    intros [[w2 l2] t2] [Hlt HR2]. simpl in *.
    split; [split; [lia|by transitivity t']|lia].
  - by intros [[? ?] ?] [[_ ?] _].
Qed.

(** The loop shape [while (pos < end)] over (position, output). *)
Lemma wpr_pos_loop {T} (R : T -> T -> Prop) `{!PreOrder R}
    (round : Z * T -> res (Z * T)) pos end_ (t : T) :
  (forall p t, pos <= p < end_ ->
     wpr (round (p, t)) (fun s' => p < s'.1 <= end_ /\ R t s'.2)) ->
  wpr (while (Z.to_nat (end_ - pos)) (fun s => s.1 <? end_) round (pos, t))
    (fun s' => R t s'.2).
Proof.
  intros Hround.
  eapply wpr_mono.
  - apply (wpr_while (fun s => pos <= s.1 /\ R t s.2) (fun s => end_ - s.1));
      [|split; [done|reflexivity]|simpl; lia].
    intros [p t'] [Hr HR] Hc. simpl in *.
    split; [lia|]. eapply wpr_mono; [apply Hround; lia|].
    intros [p2 t2] [Hlt HR2]. simpl in *.
    split; [split; [lia|by transitivity t']|lia].
  - by intros [? ?] [[_ ?] _].
Qed.

Lemma wpr_for_range {S} (R : S -> S -> Prop) `{!PreOrder R} lo hi body (s : S) :
  (forall x t, lo <= x < hi -> wpr (body x t) (R t)) ->
  wpr (for_range lo hi body s) (R s).
Proof.
  intros Hb. unfold for_range. apply wpr_forM; [|reflexivity].
  intros x t Hx Ht. apply elem_of_seqZ in Hx.
  eapply wpr_mono; [apply Hb; lia|]. intros; by transitivity t.
Qed.

Lemma wpr_forM_rel {A S} (R : S -> S -> Prop) `{!PreOrder R} (l : list A) body (s : S) :
  (forall x t, wpr (body x t) (R t)) -> wpr (forM l body s) (R s).
Proof.
  intros Hb. apply wpr_forM; [|reflexivity].
  intros x t _ Ht. eapply wpr_mono; [apply Hb|]. intros; by transitivity t.
Qed.

(** ** Total correctness

    [twp r Q]: the computation [r] returns, and its value satisfies [Q]. *)
Definition twp {A} (r : res A) (Q : A -> Prop) : Prop :=
  match r with Ok a => Q a | Err _ => False end.

Lemma twp_bind {A B} (m : res A) (f : A -> res B) (Q : B -> Prop) :
  twp m (fun a => twp (f a) Q) -> twp (rbind m f) Q.
Proof. destruct m; done. Qed.

Lemma twp_mono {A} (m : res A) (P Q : A -> Prop) :
  twp m P -> (forall a, P a -> Q a) -> twp m Q.
Proof. destruct m; simpl; auto. Qed.

Lemma twp_ex {A} (m : res A) (Q : A -> Prop) : twp m Q <-> exists a, m = Ok a /\ Q a.
Proof.
  destruct m; simpl; split; intros; eauto; try done; by destruct H as (? & [= ->] & ?).
Qed.

Lemma udiv_ok a b : b <> 0 -> udiv a b = Ok (a / b).
Proof. intros. unfold udiv. by destruct (Z.eqb_spec b 0). Qed.

Lemma umod_ok a b : b <> 0 -> umod a b = Ok (a mod b).
Proof. intros. unfold umod. by destruct (Z.eqb_spec b 0). Qed.

(** A token loop whose every round turns a prefix of the remaining work [G] into
    output, seen through the abstraction [F], completes the work; [R] holds of every
    output element. *)
Lemma token_loop_total {E X} (F : list E -> list X) (G : Z -> Z -> list X) (R : E -> Prop)
    (P : Z -> Z -> Prop) (round : Z * Z * list E -> res (Z * Z * list E)) :
  (forall u v, F (u ++ v) = F u ++ F v) -> (forall w, G w 0 = []) ->
  (forall w l out, P w l -> 0 < l -> exists c new,
     0 < c <= l /\ round (w, l, out) = Ok (w + c, l - c, out ++ new) /\
     G w l = F new ++ G (w + c) (l - c) /\ Forall R new /\ P (w + c) (l - c)) ->
  forall w l out, P w l -> 0 <= l ->
  exists new, while (Z.to_nat l) (fun s => 0 <? s.1.2) round (w, l, out)
                = Ok (w + l, 0, out ++ new) /\ F new = G w l /\ Forall R new.
Proof.
  intros HF HG Hround w l out HP Hl.
  assert (HF0 : F [] = []).
  { specialize (HF [] []). simpl in HF. destruct (F []); [done|].
    apply (f_equal length) in HF. rewrite length_app in HF. simpl in HF. lia. }
  assert (H : forall k w l out, P w l -> 0 <= l <= Z.of_nat k ->
    exists new, while k (fun s => 0 <? s.1.2) round (w, l, out)
                = Ok (w + l, 0, out ++ new) /\ F new = G w l /\ Forall R new).
  { clear w l out HP Hl. induction k as [|k IH]; intros w l out HP Hl.
    - replace l with 0 by lia. exists []. simpl. rewrite Z.add_0_r, app_nil_r, HG. auto.
    - destruct (decide (l = 0)) as [->|Hne].
      + exists []. simpl. rewrite Z.add_0_r, app_nil_r, HG. auto.
      + destruct (Hround w l out HP) as (c & new & Hc & Hr & HGs & HR & HP'); [lia|].
        destruct (IH (w + c) (l - c) (out ++ new) HP') as (new' & Hw & HF' & HR'); [lia|].
        exists (new ++ new'). simpl. destruct (Z.ltb_spec 0 l); [|lia].
        rewrite Hr. simpl. rewrite Hw, <- app_assoc, HF, HF', HGs.
        split; [do 3 f_equal; lia|]. split; [done|]. by apply Forall_app. }
  apply H; [done|lia].
Qed.

(** Positions of one block: [i] tokens further within the block of [w]. *)
Lemma div_run w n i : 0 < n -> 0 <= i -> w mod n + i < n -> (w + i) / n = w / n.
Proof.
  intros Hn Hi Hlt. pose proof (Z.mod_pos_bound w n Hn). symmetry.
  apply (Z.div_unique_pos (w + i) n (w / n) (w mod n + i)); [lia|].
  pose proof (Z.div_mod w n). lia.
Qed.

Lemma mod_run w n i : 0 < n -> 0 <= i -> w mod n + i < n -> (w + i) mod n = w mod n + i.
Proof.
  intros Hn Hi Hlt. pose proof (Z.mod_pos_bound w n Hn). symmetry.
  apply (Z.mod_unique_pos (w + i) n (w / n)); [lia|].
  pose proof (Z.div_mod w n). lia.
Qed.

Lemma vsize_lookup {A} (l : list A) i x :
  0 <= i -> l !! Z.to_nat i = Some x -> (i <? vsize l) = true.
Proof. intros Hi Hx. apply lookup_lt_Some in Hx. unfold vsize. lia. Qed.

(** A loop whose every iteration appends a known list. *)
Lemma forM_collect {A E} (f : A -> list E) (body : A -> list E -> res (list E)) l out :
  (forall x out, x ∈ l -> body x out = Ok (out ++ f x)) ->
  forM l body out = Ok (out ++ flat_map f l).
Proof.
  revert out. induction l as [|x l IH]; intros out Hb; simpl; [by rewrite app_nil_r|].
  rewrite Hb by set_solver. simpl. rewrite IH by (intros; apply Hb; set_solver).
  by rewrite <- app_assoc.
Qed.

Lemma for_range_collect {E} (f : Z -> list E) (body : Z -> list E -> res (list E)) lo hi out :
  (forall x out, lo <= x < hi -> body x out = Ok (out ++ f x)) ->
  for_range lo hi body out = Ok (out ++ flat_map f (seqZ lo (hi - lo))).
Proof.
  intros Hb. apply forM_collect. intros x o Hx. apply elem_of_seqZ in Hx. apply Hb. lia.
Qed.

Lemma flat_map_singleton {A B} (f : A -> B) l : flat_map (fun x => [f x]) l = f <$> l.
Proof. induction l as [|x l IH]; [done|]. simpl. by rewrite IH. Qed.

(** A loop over the positions of elements [ks] already in the output that appends one
    element derived from each. *)
Lemma for_range_replay {E} (f : E -> E) (g : E -> list E -> res (list E)) pre ks :
  (forall k out, k ∈ ks -> g k out = Ok (out ++ [f k])) ->
  for_range (vsize pre) (vsize (pre ++ ks))
    (fun i out => let* k := vec_at out i in g k out) (pre ++ ks)
  = Ok (pre ++ ks ++ (f <$> ks)).
Proof.
  intros Hg. unfold for_range, vsize. rewrite length_app.
  replace (Z.of_nat (length pre + length ks) - Z.of_nat (length pre))
    with (Z.of_nat (length ks)) by lia.
  assert (H : forall done_ rest, ks = done_ ++ rest ->
    forM (seqZ (Z.of_nat (length pre + length done_)) (Z.of_nat (length rest)))
      (fun i out => let* k := vec_at out i in g k out)
      (pre ++ ks ++ (f <$> done_)) = Ok (pre ++ ks ++ (f <$> ks))).
  { intros done_ rest. revert done_. induction rest as [|k rest IH]; intros done_ Hks.
    - simpl. by rewrite Hks, app_nil_r.
    - rewrite seqZ_cons by (simpl; lia). simpl forM.
      rewrite (vec_at_Some _ _ k); [|lia|]; simpl.
      2: { rewrite Nat2Z.id, lookup_app_r by lia.
           replace (length pre + length done_ - length pre)%nat with (length done_) by lia.
           rewrite Hks, lookup_app_l by (rewrite length_app; simpl; lia).
           by rewrite lookup_app_r, Nat.sub_diag by lia. }
      rewrite Hg by (rewrite Hks; set_solver). simpl.
      rewrite <- !app_assoc. replace (Z.succ _) with (Z.of_nat (length pre + length (done_ ++ [k])))
        by (rewrite length_app; simpl; lia).
      replace (Z.pred _) with (Z.of_nat (length rest)) by lia.
      replace ((f <$> done_) ++ [f k]) with (f <$> done_ ++ [k]) by (by rewrite fmap_app).
      apply IH. rewrite Hks, <- app_assoc. done. }
  specialize (H [] ks eq_refl). simpl in H. by rewrite Nat.add_0_r, app_nil_r in H.
Qed.

(** Reordering nested concatenations. *)
Lemma flat_map_app_perm {A B} (f g : A -> list B) l :
  flat_map (fun x => f x ++ g x) l ≡ₚ flat_map f l ++ flat_map g l.
Proof. induction l as [|x l IH]; simpl; [done|]. rewrite IH. solve_Permutation. Qed.

Lemma flat_map_nil {A B} (l : list A) : flat_map (fun _ => @nil B) l = [].
Proof. by induction l. Qed.

Lemma flat_map_swap {A B C} (f : A -> B -> list C) xs ys :
  flat_map (fun x => flat_map (f x) ys) xs ≡ₚ flat_map (fun y => flat_map (fun x => f x y) xs) ys.
Proof.
  induction ys as [|y ys IH]; simpl; [by rewrite flat_map_nil|].
  rewrite flat_map_app_perm, IH. done.
Qed.

Lemma flat_map_ext_elem {A B} (f g : A -> list B) l :
  (forall x, x ∈ l -> f x = g x) -> flat_map f l = flat_map g l.
Proof.
  induction l as [|x l IH]; intros H; simpl; [done|].
  rewrite H by set_solver. rewrite IH; [done|]. intros; apply H; set_solver.
Qed.

(** Remove reductions that are no-ops, innermost first. *)
Ltac u64_norm :=
  repeat match goal with
  | |- context [u64 ?x] =>
      match x with context [u64 _] => fail 1 | _ => idtac end;
      rewrite (u64_small x) by lia
  end.

(** The same for loops of the form [while (pos < end)]; [R] holds of every output
    element. *)
Lemma pos_loop_total {E X} (F : list E -> list X) (G : Z -> list X) (R : E -> Prop)
    (P : Z -> Prop) end_ (round : Z * list E -> res (Z * list E)) :
  (forall u v, F (u ++ v) = F u ++ F v) -> F [] = [] -> G end_ = [] ->
  (forall p out, P p -> p < end_ -> exists p' new,
     p < p' <= end_ /\ round (p, out) = Ok (p', out ++ new) /\
     G p = F new ++ G p' /\ Forall R new /\ P p') ->
  forall k p out, P p -> p <= end_ <= p + Z.of_nat k ->
  exists new, while k (fun s => s.1 <? end_) round (p, out) = Ok (end_, out ++ new) /\
              F new = G p /\ Forall R new.
Proof.
  intros HF HF0 HG Hround k. induction k as [|k IH]; intros p out HP Hp.
  - assert (p = end_) as -> by lia. exists []. simpl. rewrite app_nil_r, Z.ltb_irrefl, HG. auto.
  - destruct (decide (p = end_)) as [->|Hne].
    + exists []. simpl. rewrite app_nil_r, Z.ltb_irrefl, HG. auto.
    + destruct (Hround p out HP) as (p' & new & Hlt & Hr & HGs & HR & HP'); [lia|].
      destruct (IH p' (out ++ new) HP') as (new' & Hw & HF' & HR'); [lia|].
      exists (new ++ new'). simpl. destruct (Z.ltb_spec p end_); [|lia].
      rewrite Hr. simpl. rewrite Hw, <- app_assoc, HF, HF', HGs.
      split; [done|]. split; [done|]. by apply Forall_app.
Qed.

Lemma flat_map_fmap {A B C} (g : B -> C) (f : A -> list B) l :
  flat_map (fun x => g <$> f x) l = g <$> flat_map f l.
Proof.
  induction l as [|x l IH]; [done|]. cbn [flat_map]. by rewrite fmap_app, <- IH.
Qed.

(** The position right after the block of [w]. *)
Lemma div_next w n : 0 < n -> (w + (n - w mod n)) / n = w / n + 1.
Proof.
  intros Hn. pose proof (Z.div_mod w n ltac:(lia)).
  replace (w + (n - w mod n)) with ((w / n + 1) * n) by lia. apply Z.div_mul. lia.
Qed.

Lemma mod_next w n : 0 < n -> (w + (n - w mod n)) mod n = 0.
Proof.
  intros Hn. pose proof (Z.div_mod w n ltac:(lia)).
  replace (w + (n - w mod n)) with ((w / n + 1) * n) by lia. apply Z.mod_mul. lia.
Qed.

(** Number of blocks touched by the first [x] tokens. *)
Definition cdiv (x n : Z) : Z := (x + n - 1) / n.

Lemma cdiv_mul x n : 0 < n -> x mod n = 0 -> cdiv x n = x / n.
Proof.
  intros Hn Hx. unfold cdiv. pose proof (Z.div_mod x n ltac:(lia)).
  symmetry. apply (Z.div_unique_pos _ _ _ (n - 1)); lia.
Qed.

Lemma cdiv_partial x n : 0 < n -> x mod n <> 0 -> cdiv x n = x / n + 1.
Proof.
  intros Hn Hx. unfold cdiv. pose proof (Z.div_mod x n ltac:(lia)).
  pose proof (Z.mod_pos_bound x n Hn).
  symmetry. apply (Z.div_unique_pos _ _ _ (x mod n - 1)); lia.
Qed.

(** ** Choice and loops over lists *)
Lemma forall2_choice {A B} (R : A -> B -> Prop) l :
  (forall x, x ∈ l -> exists y, R x y) -> exists l', Forall2 R l l'.
Proof.
  induction l as [|x l IH]; intros Hl; [by exists []|].
  destruct (Hl x) as [y Hy]; [set_solver|]. destruct IH as [l' Hl']; [set_solver|].
  exists (y :: l'). by constructor.
Qed.

Lemma foldl_eq {A B} (f g : A -> B -> A) l a :
  (forall a x, x ∈ l -> f a x = g a x) -> foldl f a l = foldl g a l.
Proof.
  revert a. induction l as [|x l IH]; intros a Hl; [done|]. cbn [foldl].
  rewrite Hl by set_solver. apply IH. intros. apply Hl. set_solver.
Qed.

(** A loop that appends one item per round and moves a second component along [step]. *)
Lemma forM_turns {A B C} (P : A -> B -> Prop) (step : nat -> C) (body : A -> list B * C -> res (list B * C)) l bs j acc :
  Forall2 P l bs ->
  (forall k i b acc, (j <= k < j + length l)%nat -> P i b -> body i (acc, step k) = Ok (acc ++ [b], step (S k))) ->
  forM l body (acc, step j) = Ok (acc ++ bs, step (j + length l)%nat).
Proof.
  intros Hl. revert j acc. induction Hl as [|i b l bs Hb _ IH]; intros j acc Hbody; cbn [forM length].
  { by rewrite app_nil_r, Nat.add_0_r. }
  rewrite (Hbody j i b acc) by (done || cbn [length]; lia). cbn [rbind]. rewrite IH.
  - rewrite <- app_assoc. by replace (S j + length l)%nat with (j + S (length l))%nat by lia.
  - intros k i' b' acc' Hk. apply Hbody. cbn [length]. lia.
Qed.

Lemma forM_app {A S} (body : A -> S -> res S) l l' s : forM (l ++ l') body s = rbind (forM l body s) (forM l' body).
Proof. revert s. induction l as [|y l IH]; intros s; cbn; [done|]. destruct (body y s); [apply IH|done]. Qed.

Lemma forM_unit {A} (f : A -> unit -> res unit) l :
  Forall (fun x => f x tt = Ok tt) l -> forM l f tt = Ok tt.
Proof. induction 1 as [|x l Hx _ IH]; [done|]. cbn [forM]. by rewrite Hx. Qed.

Lemma forM_snoc {A B} (body : A -> list B -> res (list B)) l bs acc :
  Forall2 (fun i b => forall acc, body i acc = Ok (acc ++ [b])) l bs -> forM l body acc = Ok (acc ++ bs).
Proof.
  intros Hl. revert acc. induction Hl as [|i b l bs Hb _ IH]; intros acc; cbn [forM]; [by rewrite app_nil_r|].
  rewrite Hb. cbn [rbind]. by rewrite IH, <- app_assoc.
Qed.
