(* ===== verification/StateM.v ===== *)
(** Computations with state and errors: a step that fails leaves behind what was changed before
    it.  The scope rules of C++ (objects destroyed when an exception passes, [try]) and how such
    computations are taken apart. *)

From S2P Require Import Prelude.

Definition ST (S A : Type) : Type := S -> res A * S.

Section Monad.
Context {S : Type}.

Definition sret {A} (a : A) : ST S A := fun w => (Ok a, w).
Definition sbind {A B} (m : ST S A) (f : A -> ST S B) : ST S B := fun w =>
  match m w with
  | (Ok a, w) => f a w
  | (Err e, w) => (Err e, w)
  end.
Definition lift {A} (r : res A) : ST S A := fun w => (r, w).
Definition gets {A} (f : S -> A) : ST S A := fun w => (Ok (f w), w).
Definition modify (f : S -> S) : ST S unit := fun w => (Ok tt, f w).

(** [for (auto x : l) out.push_back(f(x))]. *)
Fixpoint smap {A B} (f : A -> ST S B) (l : list A) : ST S (list B) :=
  match l with
  | [] => sret []
  | x :: l => sbind (f x) (fun y => sbind (smap f l) (fun ys => sret (y :: ys)))
  end.

(** [for (auto x : l) f(x);] *)
Fixpoint siter {A} (f : A -> ST S unit) (l : list A) : ST S unit :=
  match l with
  | [] => sret tt
  | x :: l => sbind (f x) (fun _ => siter f l)
  end.

(** [try { m } catch (std::exception &) { throw std::runtime_error }]. *)
Definition rethrow {A} (m : ST S A) : ST S A := fun w =>
  match m w with
  | (Err e, w) => (Err (if is_exception e then RuntimeError else e), w)
  | r => r
  end.

(** [try { m } catch (std::exception &) { h }]. *)
Definition scatch {A} (m h : ST S A) : ST S A := fun w =>
  match m w with
  | (Err e, w) => if is_exception e then h w else (Err e, w)
  | r => r
  end.

(** The destructor [d] of an object that is alive while [m] runs: run when an exception leaves
    [m]. *)
Definition on_unwind {A} (m : ST S A) (d : ST S unit) : ST S A := fun w =>
  match m w with
  | (Err e, w) => if is_exception e then sbind d (fun _ => lift (Err e)) w else (Err e, w)
  | r => r
  end.

(** The same for an object that dies at the end of [m] in any case. *)
Definition scoped {A} (m : ST S A) (d : ST S unit) : ST S A :=
  sbind (on_unwind m d) (fun a => sbind d (fun _ => sret a)).

(** ** Rules *)

Lemma sbind_ok {A B} (m : ST S A) (f : A -> ST S B) w a w' : m w = (Ok a, w') -> sbind m f w = f a w'.
Proof. unfold sbind. by intros ->. Qed.

Lemma sbind_inv {A B} (m : ST S A) (f : A -> ST S B) w b w' :
  sbind m f w = (Ok b, w') -> exists a w1, m w = (Ok a, w1) /\ f a w1 = (Ok b, w').
Proof. unfold sbind. destruct (m w) as [[a|e] w1]; [eauto|done]. Qed.

Lemma smap_inv {A B} (f : A -> ST S B) (P : A -> B -> Prop) l w ys w' :
  (forall x w y w', f x w = (Ok y, w') -> P x y) -> smap f l w = (Ok ys, w') -> Forall2 P l ys.
Proof.
  intros Hf. revert w ys. induction l as [|x l IH]; intros w ys; cbn [smap]; [by intros [= <- <-]|].
  intros (y & w1 & Hy & (ys' & w2 & Hys & [= <- <-])%sbind_inv)%sbind_inv. constructor; eauto.
Qed.
End Monad.

Notation "'let!' x := m 'in' k" := (sbind m (fun x => k))
  (at level 10, x name, m at level 100, k at level 200,
   format "'let!'  x  :=  m  'in' '//' k").
Notation "'let!' ' p := m 'in' k" := (sbind m (fun p => k))
  (at level 10, p strict pattern, m at level 100, k at level 200,
   format "'let!'  ' p  :=  m  'in' '//' k").
