(* ===== verification/Common.v ===== *)
(** Shared data of the transfer library: [include/common.h],
    [include/channel.h] and the environment switches of [src/envcfg.cpp] that
    the sending side reads. *)

From S2P Require Import Prelude.

(** ** Environment

    The process-wide switches, read once and constant afterwards.  [ndebug] is
    the build flavour: with it the [assert] macro is compiled out. *)
Class Env := {
  ndebug : bool;
  env_bf162fp8_conversion : bool;
  env_pad_last_attn_block : bool;
  env_cache_shape : Z;
}.

(** [env2posint] after [getenv] and [atoi]: [None] is an unset variable. *)
Definition env2posint (val : option Z) (def : Z) : Z :=
  match val with
  | None => def
  | Some ret => if ret <=? 0 then def else ret
  end.

(** [env_pad_last_attn_block()] as a function of its environment variable. *)
Definition pad_last_attn_block_of (val : option Z) : bool := negb (env2posint val 1 =? 0).

(** The header documents 0 as "disabled"; no value disables the padding. *)
Lemma pad_last_attn_block_cannot_be_disabled val : pad_last_attn_block_of val = true.
Proof.
  unfold pad_last_attn_block_of, env2posint. destruct val as [r|]; [|done].
  destruct (Z.leb_spec r 0); [done|]. by destruct (Z.eqb_spec r 0); [lia|].
Qed.

(** A debug build with every switch at its default. *)
Definition debug_env : Env := {|
  ndebug := false; env_bf162fp8_conversion := false; env_pad_last_attn_block := true;
  env_cache_shape := 1 |}.

(** [assert(b)]. *)
Definition cassert `{Env} (b : bool) : res unit :=
  if ndebug then Ok tt else if b then Ok tt else Err AssertFailed.

(** [assert(e)] where evaluating [e] can itself fail (a division). *)
Definition cassertM `{Env} (e : res bool) : res unit :=
  if ndebug then Ok tt else let* b := e in if b then Ok tt else Err AssertFailed.

(** [RTASSERT(b)]: aborts in every build. *)
Definition rtassert (b : bool) : res unit := if b then Ok tt else Err AssertFailed.

Notation "'assert:' b ; k" := (rbind (cassert b) (fun _ : unit => k))
  (at level 10, b at level 100, k at level 200,
   format "'[v' 'assert:'  b ; '/' k ']'").
Notation "'assertM:' b ; k" := (rbind (cassertM b) (fun _ : unit => k))
  (at level 10, b at level 100, k at level 200,
   format "'[v' 'assertM:'  b ; '/' k ']'").

(** [e % d == 0] inside an assertion. *)
Definition divides_b (d e : Z) : res bool := let* r := umod e d in Ok (r =? 0).

(** ** Cache shapes ([envcfg.h]) and ranks *)
Definition RAGGED_FLASH_CACHE_SHAPE : Z := 1.
Definition FLASH_CACHE_SHAPE : Z := 2.
Definition QWEN3_NEXT_FLASH_CACHE_SHAPE : Z := 3.
Definition DPSK_V32_SPARSE_MLA_SHAPE : Z := 4.
Definition FLASHINFER_CACHE_SHAPE : Z := 5.
Definition TURBOQUANT_CACHE_SHAPE : Z := 6.
Definition QWEN3_NEXT_FLASHINFER_CACHE_SHAPE : Z := 7.
Definition KIMI_K3_MLA_CACHE_SHAPE : Z := 8.
Definition MAX_TP_SIZE : Z := 16.

(** [std::bitset<MAX_TP_SIZE>] as a bit mask. *)
Definition bitset := Z.

(** [bitset::operator[]]: undefined out of range. *)
Definition bit_idx (b : bitset) (i : Z) : res bool :=
  if (0 <=? i) && (i <? MAX_TP_SIZE) then Ok (Z.testbit b i) else Err Undefined.

(** [bitset::test]: throws [std::out_of_range]. *)
Definition bit_test (b : bitset) (i : Z) : res bool :=
  if (0 <=? i) && (i <? MAX_TP_SIZE) then Ok (Z.testbit b i) else Err OutOfRange.

(** [bitset::set]: throws [std::out_of_range]. *)
Definition bit_set (b : bitset) (i : Z) : res bitset :=
  if (0 <=? i) && (i <? MAX_TP_SIZE) then Ok (Z.setbit b i) else Err OutOfRange.

(** [bitset::count]. *)
Definition bit_count (b : bitset) : Z :=
  vsize (filter (fun i => Z.testbit b i = true) (seqZ 0 MAX_TP_SIZE)).

(** [bitset::operator<<]. *)
Definition bit_shl (b : bitset) (n : Z) : bitset :=
  if n <? MAX_TP_SIZE then Z.land (Z.shiftl b n) (Z.ones MAX_TP_SIZE) else 0.

(** ** Workers *)
Definition BlockIds := list (list Z).

Definition INVALID_INST_WORKER_ID : Z := W32 - 1.
Definition MAX_ADDRESS_LEN : Z := 64.
Definition MAX_INSTANCE_NAME_LEN : Z := 256.
Definition KB : Z := 1024.

Record WorkerInfo := mkWorkerInfo {
  inst_id : string;
  worker_id : Z;
  engine_tp_size : Z;
  worker_tp_rank : Z;
  block_sizes : list Z;
  token_sizes : list Z;
  layer_num_blocks : Z;
  num_layers : Z;
  transfer_protocols : Z;
  attn_kernel_blk_ntpb : Z;
  indexer_blk_ntpb : Z;
  attn_pack_size : Z;
  addr : string;
  (* local-only, not serialized *)
  num_kv_heads : Z;
  num_gdn_layers : Z;
  hybrid_indexer_token_size : Z;
  gdn_conv_elem_size : Z;
  gdn_ssm_elem_size : Z;
  conv_state_shape : list Z;
  ssm_state_shape : list Z;
  gdn_conv_channel_dims : list Z;
  num_ple_layers : Z;
  ple_block_group : Z;
  ple_conv_elem_size : Z;
  ple_conv_state_shape : list Z;
  ple_conv_channel_dims : list Z;
  kda_conv_dim_first : bool;
  hybrid_attn_token_size : Z;
  kda_page_stride : Z;
}.

(** [WorkerInfo::WorkerInfo()]. *)
Definition default_WorkerInfo : WorkerInfo := {|
  inst_id := ""; worker_id := INVALID_INST_WORKER_ID; engine_tp_size := 0;
  worker_tp_rank := 0; block_sizes := []; token_sizes := [];
  layer_num_blocks := 1; num_layers := 1; transfer_protocols := 0;
  attn_kernel_blk_ntpb := 0; indexer_blk_ntpb := 0; attn_pack_size := 1;
  addr := ""; num_kv_heads := -1; num_gdn_layers := 3;
  hybrid_indexer_token_size := 0; gdn_conv_elem_size := 1;
  gdn_ssm_elem_size := 1; conv_state_shape := []; ssm_state_shape := [];
  gdn_conv_channel_dims := []; num_ple_layers := 0; ple_block_group := 0;
  ple_conv_elem_size := 1; ple_conv_state_shape := [];
  ple_conv_channel_dims := []; kda_conv_dim_first := false;
  hybrid_attn_token_size := 0; kda_page_stride := 0 |}.

(** A worker of one tensor per layer, for examples. *)
Definition one_tensor_worker (tp rank bs ts nb : Z) : WorkerInfo := {|
  inst_id := "w"; worker_id := rank; engine_tp_size := tp; worker_tp_rank := rank;
  block_sizes := [bs]; token_sizes := [ts]; layer_num_blocks := nb; num_layers := 1;
  transfer_protocols := 1; attn_kernel_blk_ntpb := 0; indexer_blk_ntpb := 0;
  attn_pack_size := 1; addr := "127.0.0.1"; num_kv_heads := -1; num_gdn_layers := 3;
  hybrid_indexer_token_size := 0; gdn_conv_elem_size := 1;
  gdn_ssm_elem_size := 1; conv_state_shape := []; ssm_state_shape := [];
  gdn_conv_channel_dims := []; num_ple_layers := 0; ple_block_group := 0;
  ple_conv_elem_size := 1; ple_conv_state_shape := [];
  ple_conv_channel_dims := []; kda_conv_dim_first := false;
  hybrid_attn_token_size := 0; kda_page_stride := 0 |}.

(** ** Requests *)

(** The constant part of a request; the mutable [state_] lives in the sender's
    store, keyed by the request's identity. *)
Record RequestInfo := mkRequestInfo {
  dst_inst_id : string;
  dst_worker_id : Z;
  dst_worker_info : option WorkerInfo;
  req_id : string;
  req_src_blocks : BlockIds;
  req_dst_blocks : BlockIds;
}.

Inductive ReqState := INPROCESS | OK | FAILED.

#[export] Instance ReqState_eq_dec : EqDecision ReqState.
Proof. solve_decision. Defined.

(** [req_ptr] is the [shared_ptr<RequestInfo>]: tasks of one request share it. *)
Record ReqSendTask := mkReqSendTask {
  req_ptr : nat;
  req : RequestInfo;
  seen_tokens : Z;
  new_tokens : Z;
  reach_last_token : bool;
}.

(** A request of one block group and a step of it, for examples. *)
Definition example_task (sblks dblks : BlockIds) (seen new : Z) (last : bool) : ReqSendTask :=
  mkReqSendTask 0 (mkRequestInfo "d" 0 None "r" sblks dblks) seen new last.

Definition src_blocks (t : ReqSendTask) : BlockIds := req_src_blocks (req t).
Definition dst_blocks (t : ReqSendTask) : BlockIds := req_dst_blocks (req t).
Definition end_tokens (t : ReqSendTask) : Z := u32 (seen_tokens t + new_tokens t).

(** ** Copy records ([channel.h]) *)
Record IpcBlock := mkIpcBlock {
  src_offset : Z;
  dst_offset : Z;
  length_ : Z;
}.

#[export] Instance IpcBlock_eq_dec : EqDecision IpcBlock.
Proof. solve_decision. Defined.

Inductive TPKind := PEQD | PLTD | PGTD | UNKNOWN.

#[export] Instance TPKind_eq_dec : EqDecision TPKind.
Proof. solve_decision. Defined.

Lemma wpr_cassert `{Env} b (Q : unit -> Prop) :
  ((ndebug = false -> b = true) -> Q tt) -> wpr (cassert b) Q.
Proof. unfold cassert. destruct ndebug, b; simpl; auto; congruence. Qed.

Lemma wpr_cassertM `{Env} (e : res bool) (Q : unit -> Prop) :
  wpr e (fun b => (ndebug = false -> b = true) -> Q tt) ->
  (ndebug = true -> Q tt) -> wpr (cassertM e) Q.
Proof.
  unfold cassertM. destruct ndebug; simpl; [auto|].
  destruct e as [[]|]; simpl; auto; congruence.
Qed.

(** An assertion whose value does not matter to the claim. *)
Lemma wpr_assertM `{Env} (e : res bool) (Q : unit -> Prop) :
  wpr e (fun _ => True) -> Q tt -> wpr (cassertM e) Q.
Proof.
  intros He HQ. apply wpr_cassertM; [|done]. eapply wpr_mono; [exact He|]. auto.
Qed.

Lemma wpr_assert `{Env} b (Q : unit -> Prop) : Q tt -> wpr (cassert b) Q.
Proof. intros. by apply wpr_cassert. Qed.

Lemma wpr_divides_b d e (Q : bool -> Prop) :
  (d <> 0 -> Q (e mod d =? 0)) -> wpr (divides_b d e) Q.
Proof. intros. unfold divides_b. apply wpr_bind, wpr_umod. intros. simpl. auto. Qed.

Lemma wpr_bit_idx bs i (Q : bool -> Prop) :
  (forall x, Q x) -> wpr (bit_idx bs i) Q.
Proof. intros. unfold bit_idx. destruct (_ && _); simpl; auto. Qed.

Lemma wpr_bit_test bs i (Q : bool -> Prop) :
  (forall x, Q x) -> wpr (bit_test bs i) Q.
Proof. intros. unfold bit_test. destruct (_ && _); simpl; auto. Qed.

(** ** Machine-width invariants of the records *)
Definition in32 (z : Z) : Prop := 0 <= z < W32.
Definition in64 (z : Z) : Prop := 0 <= z < W64.

(** Every field holds a value of its C++ type. *)
Record wf_worker (w : WorkerInfo) : Prop := {
  wf_engine_tp_size : in32 (engine_tp_size w);
  wf_worker_tp_rank : in32 (worker_tp_rank w);
  wf_block_sizes : Forall in64 (block_sizes w);
  wf_token_sizes : Forall in64 (token_sizes w);
  wf_layer_num_blocks : in32 (layer_num_blocks w);
  wf_num_layers : in32 (num_layers w);
  wf_attn_kernel_blk_ntpb : in32 (attn_kernel_blk_ntpb w);
  wf_indexer_blk_ntpb : in32 (indexer_blk_ntpb w);
  wf_attn_pack_size : in32 (attn_pack_size w);
  wf_num_kv_heads : - 2 ^ 31 <= num_kv_heads w < 2 ^ 31;
  wf_num_gdn_layers : in32 (num_gdn_layers w);
  wf_hybrid_indexer_token_size : in32 (hybrid_indexer_token_size w);
  wf_gdn_conv_elem_size : in32 (gdn_conv_elem_size w);
  wf_gdn_ssm_elem_size : in32 (gdn_ssm_elem_size w);
  wf_conv_state_shape : Forall in64 (conv_state_shape w);
  wf_ssm_state_shape : Forall in64 (ssm_state_shape w);
  wf_gdn_conv_channel_dims : Forall in64 (gdn_conv_channel_dims w);
  wf_num_ple_layers : in32 (num_ple_layers w);
  wf_ple_block_group : in32 (ple_block_group w);
  wf_ple_conv_elem_size : in32 (ple_conv_elem_size w);
  wf_ple_conv_state_shape : Forall in64 (ple_conv_state_shape w);
  wf_ple_conv_channel_dims : Forall in64 (ple_conv_channel_dims w);
  wf_hybrid_attn_token_size : in32 (hybrid_attn_token_size w);
  wf_kda_page_stride : in64 (kda_page_stride w);
}.

Record wf_task (t : ReqSendTask) : Prop := {
  wf_seen_tokens : in32 (seen_tokens t);
  wf_new_tokens : in32 (new_tokens t);
  wf_src_blocks : Forall (Forall in32) (src_blocks t);
  wf_dst_blocks : Forall (Forall in32) (dst_blocks t);
}.

Lemma wf_block_size w i a : wf_worker w -> block_sizes w !! i = Some a -> 0 <= a < W64.
Proof. intros Hw Hi. exact (Forall_lookup_1 _ _ _ _ (wf_block_sizes _ Hw) Hi). Qed.

Lemma wf_token_size w i a : wf_worker w -> token_sizes w !! i = Some a -> 0 <= a < W64.
Proof. intros Hw Hi. exact (Forall_lookup_1 _ _ _ _ (wf_token_sizes _ Hw) Hi). Qed.

(** The ranges in the form the automation looks for. *)
Lemma new_tokens_range t : wf_task t -> 0 <= new_tokens t < W32.
Proof. apply wf_new_tokens. Qed.
Lemma seen_tokens_range t : wf_task t -> 0 <= seen_tokens t < W32.
Proof. apply wf_seen_tokens. Qed.
Lemma attn_kernel_blk_ntpb_range w : wf_worker w -> 0 <= attn_kernel_blk_ntpb w < W32.
Proof. apply wf_attn_kernel_blk_ntpb. Qed.
Lemma indexer_blk_ntpb_range w : wf_worker w -> 0 <= indexer_blk_ntpb w < W32.
Proof. apply wf_indexer_blk_ntpb. Qed.
Lemma kda_page_stride_range w : wf_worker w -> 0 <= kda_page_stride w < W64.
Proof. apply wf_kda_page_stride. Qed.

#[export] Hint Resolve new_tokens_range seen_tokens_range attn_kernel_blk_ntpb_range
  indexer_blk_ntpb_range kda_page_stride_range wf_block_size wf_token_size : mach_db.

(** Solve the well-formedness of a concrete record. *)
Ltac wf_concrete :=
  constructor; cbn; repeat constructor; unfold in32, in64, W32, W64; cbn; try lia.

Lemma cassert_true `{Env} b : b = true -> cassert b = Ok tt.
Proof. unfold cassert. intros ->. by destruct ndebug. Qed.

Lemma cassertM_true `{Env} e : e = Ok true -> cassertM e = Ok tt.
Proof. unfold cassertM. intros ->. by destruct ndebug. Qed.

(** Evaluate one statement at the head of an equation [m = _], discharging its
    side condition arithmetically. *)
Ltac eval_step :=
  lazymatch goal with
  | |- rbind (udiv ?a ?b) _ = _ => rewrite (udiv_ok a b) by lia
  | |- rbind (umod ?a ?b) _ = _ => rewrite (umod_ok a b) by lia
  | |- rbind (cassert _) _ = _ =>
      rewrite cassert_true by first [lia | eauto using vsize_lookup, Z.div_pos with lia]
  | H : ?v !! Z.to_nat ?i = Some ?x |- rbind (vec_at ?v ?i) _ = _ =>
      rewrite (vec_at_Some v i x) by first [lia | assumption | apply Z.div_pos; lia]
  | H : ?v !! Z.to_nat ?i = Some ?x |- rbind (vec_idx ?v ?i) _ = _ =>
      rewrite (vec_idx_Some v i x) by first [lia | assumption | apply Z.div_pos; lia]
  end; cbn [rbind].
