(* ===== verification/Utils.v ===== *)
(** Small utilities: the lazy iterators of [include/utils/iterator.h], the base64 codec of
    [include/utils/base64.h] and the blocking queue of [include/utils/block_queue.h]. *)

From Stdlib Require Import Ascii.
From S2P Require Import Prelude.
From S2P Require Import Common.

(** * Iterators *)

(** [IIterator<T>]: [next] returns an element or the end.  [bound] is of the model: an upper
    bound of the elements to come, the fuel of the loop of [Filter]. *)
Class IIterator (I T : Type) := {
  next : I -> res (option T * I);
  bound : I -> nat;
}.

(** [CopySource]; a [Source] yields the addresses of the elements instead. *)
Record CopySource (T : Type) := mkSource { src_ : list T; cursor : Z }.
Arguments mkSource {T} _ _.
Arguments src_ {T} _.
Arguments cursor {T} _.

#[export] Instance source_iterator T : IIterator (CopySource T) T := {|
  next s :=
    if cursor s <? vsize (src_ s) then
      let* x := vec_idx (src_ s) (cursor s) in Ok (Some x, mkSource (src_ s) (u64 (cursor s + 1)))
    else Ok (None, s);
  bound s := Z.to_nat (vsize (src_ s) - cursor s);
|}.

(** [Filter] and [Map] own the iterator they read; [None] is a null pointer. *)
Record Filter (I T : Type) := mkFilter { f_src : option I; filter_ : T -> bool }.
Arguments mkFilter {I T} _ _.
Arguments f_src {I T} _.
Arguments filter_ {I T} _.

Record Map (I T R : Type) := mkMap { m_src : option I; map_ : T -> R }.
Arguments mkMap {I T R} _ _.
Arguments m_src {I T R} _.
Arguments map_ {I T R} _.

Section Adaptors.
Context {I T : Type} `{IIterator I T}.

Fixpoint filter_from (fuel : nat) (f : T -> bool) (i : I) : res (option T * I) :=
  match fuel with
  | O => Err OutOfFuel
  | S fuel =>
      let* '(src_next, i) := next i in
      match src_next with
      | Some x => if f x then Ok (Some x, i) else filter_from fuel f i
      | None => Ok (None, i)
      end
  end.

#[export] Instance filter_iterator : IIterator (Filter I T) T := {|
  next s :=
    match f_src s with
    | None => Err Undefined
    | Some i => let* '(x, i) := filter_from (S (bound i)) (filter_ s) i in Ok (x, mkFilter (Some i) (filter_ s))
    end;
  bound s := match f_src s with Some i => bound i | None => O end;
|}.

#[export] Instance map_iterator (R : Type) : IIterator (Map I T R) R := {|
  next s :=
    match m_src s with
    | None => Err Undefined
    | Some i => let* '(x, i) := next i in Ok (map_ s <$> x, mkMap (Some i) (map_ s))
    end;
  bound s := match m_src s with Some i => bound i | None => O end;
|}.
End Adaptors.

(** [Iterator<T>]: an element looked at by [has_next], and the iterator behind it. *)
Record Iterator (I T : Type) := mkIterator { next_value_ : option T; iter_ : option I }.
Arguments mkIterator {I T} _ _.
Arguments next_value_ {I T} _.
Arguments iter_ {I T} _.

Section Iterators.
Context {I T : Type} `{IIterator I T}.

Definition has_next (it : Iterator I T) : res (bool * Iterator I T) :=
  match next_value_ it, iter_ it with
  | Some _, _ => Ok (true, it)
  | None, None => Ok (false, it)
  | None, Some i => let* '(x, i) := next i in Ok (bool_decide (is_Some x), mkIterator x (Some i))
  end.

Definition iterator_next (it : Iterator I T) : res (option T * Iterator I T) :=
  match next_value_ it, iter_ it with
  | Some x, _ => Ok (Some x, mkIterator None (iter_ it))
  | None, None => Ok (None, it)
  | None, Some i => let* '(x, i) := next i in Ok (x, mkIterator None (Some i))
  end.

(** [filter] and [map] move the iterator out of this one. *)
Definition iterator_filter (f : T -> bool) (it : Iterator I T) : Iterator (Filter I T) T * Iterator I T :=
  (mkIterator None (Some (mkFilter (iter_ it) f)), mkIterator (next_value_ it) None).

Definition iterator_map {R} (f : T -> R) (it : Iterator I T) : Map I T R * Iterator I T :=
  (mkMap (iter_ it) f, mkIterator (next_value_ it) None).

#[export] Instance iterator_iterator : IIterator (Iterator I T) T := {|
  next := iterator_next;
  bound it := match iter_ it with Some i => S (bound i) | None => 1%nat end;
|}.
End Iterators.

Definition copy_from {T} (src : list T) : Iterator (CopySource T) T := mkIterator None (Some (mkSource src 0)).

(** ** What an iterator yields *)

(** [yields i l]: from [i] on, exactly the elements [l], and then the end again and again. *)
Class Yields (I T : Type) `{IIterator I T} := {
  yields : I -> list T -> Prop;
  yields_next i l : yields i l -> exists i', next i = Ok (head l, i') /\ yields i' (tail l);
  yields_bound i l : yields i l -> (length l <= bound i)%nat;
}.

#[export] Program Instance source_yields T : Yields (CopySource T) T := {|
  yields s l := 0 <= cursor s /\ vsize (src_ s) < W64 /\ l = drop (Z.to_nat (cursor s)) (src_ s);
|}.
Next Obligation.
  intros T [v c] l (Hc & Hv & ->). cbn in *. destruct (Z.ltb_spec c (vsize v)) as [Hlt|Hge].
  - destruct (lookup_lt_is_Some_2 v (Z.to_nat c)) as [x Hx]; [unfold vsize in Hlt; lia|].
    rewrite (vec_idx_Some v c x Hc Hx). cbn [rbind]. eexists. split.
    + rewrite (drop_S v x (Z.to_nat c)) by done. done.
    + cbn. rewrite u64_small by lia. split_and!; [lia|done|]. rewrite (drop_S v x (Z.to_nat c)) by done. cbn.
      f_equal. lia.
  - exists (mkSource v c). cbn. rewrite drop_ge by (unfold vsize in Hge; lia). done.
Qed.
Next Obligation. intros T [v c] l (Hc & Hv & ->). cbn. rewrite length_drop. unfold vsize. lia. Qed.

Section YieldsAdaptors.
Context {I T : Type} `{Yields I T}.

Lemma filter_from_yields f fuel i l :
  yields i l -> (length l < fuel)%nat ->
  exists i' l', filter_from fuel f i = Ok (head (filter f l), i') /\ yields i' l' /\ filter f l' = tail (filter f l).
Proof.
  revert i l. induction fuel as [|fuel IH]; intros i l Hi Hl; [lia|]. cbn [filter_from].
  destruct (yields_next i l Hi) as (i' & -> & Hi'). cbn [rbind]. destruct l as [|x l]; [by exists i', []|].
  cbn [head tail] in *. destruct (f x) eqn:Hx.
  - exists i', l. rewrite filter_cons_True by (by rewrite Hx). done.
  - destruct (IH i' l Hi') as (i2 & l2 & -> & Hi2 & Hl2); [cbn in Hl; lia|].
    exists i2, l2. rewrite filter_cons_False by (rewrite Hx; intros []). done.
Qed.

#[export] Program Instance filter_yields : Yields (Filter I T) T := {|
  yields s l := exists i l0, f_src s = Some i /\ yields i l0 /\ l = filter (filter_ s) l0;
|}.
Next Obligation.
  intros [o f] l (i & l0 & Ho & Hi & ->). cbn in Ho. subst o. cbn [next filter_iterator f_src filter_].
  destruct (filter_from_yields f (S (bound i)) i l0 Hi) as (i' & l' & -> & Hi' & Hl');
    [pose proof (yields_bound i l0 Hi); lia|].
  cbn [rbind]. eexists. split; [done|]. by exists i', l'.
Qed.
Next Obligation.
  intros [o f] l (i & l0 & Ho & Hi & ->). cbn in Ho. subst o. cbn. etransitivity; [apply length_filter|by apply yields_bound].
Qed.

#[export] Program Instance map_yields (R : Type) : Yields (Map I T R) R := {|
  yields s l := exists i l0, m_src s = Some i /\ yields i l0 /\ l = map_ s <$> l0;
|}.
Next Obligation.
  intros R [o f] l (i & l0 & Ho & Hi & ->). cbn in Ho. subst o. cbn. destruct (yields_next i l0 Hi) as (i' & -> & Hi'). cbn [rbind].
  eexists. split; [by destruct l0|]. exists i', (tail l0). by destruct l0.
Qed.
Next Obligation. intros R [o f] l (i & l0 & Ho & Hi & ->). cbn in Ho. subst o. cbn. rewrite length_fmap. by apply yields_bound. Qed.

#[export] Program Instance iterator_yields : Yields (Iterator I T) T := {|
  yields it l := exists l0, l = option_list (next_value_ it) ++ l0 /\
    match iter_ it with Some i => yields i l0 | None => l0 = [] end;
|}.
Next Obligation.
  intros [[x|] [i|]] l (l0 & -> & Hi); cbn in *.
  - eexists. split; [done|]. by exists l0.
  - eexists. split; [done|]. by exists l0.
  - destruct (yields_next i l0 Hi) as (i' & -> & Hi'). cbn [rbind]. eexists. split; [done|]. by exists (tail l0).
  - subst l0. eexists. split; [done|]. by exists [].
Qed.
Next Obligation.
  intros [[x|] [i|]] l (l0 & -> & Hi); cbn in *; try (subst l0; cbn; lia).
  - pose proof (yields_bound i l0 Hi). lia.
  - pose proof (yields_bound i l0 Hi). lia.
Qed.

(** [has_next] looks ahead and leaves the elements to come as they are. *)
Lemma has_next_yields it l :
  yields it l -> exists it', has_next it = Ok (bool_decide (l <> []), it') /\ yields it' l.
Proof.
  destruct it as [[x|] [i|]]; intros (l0 & -> & Hi); cbn in *.
  - eexists. split; [done|]. by exists l0.
  - eexists. split; [done|]. by exists l0.
  - destruct (yields_next i l0 Hi) as (i' & -> & Hi'). cbn [rbind]. eexists. split.
    + destruct l0; done.
    + exists (tail l0). split; [by destruct l0|done].
  - subst l0. eexists. split; [done|]. by exists [].
Qed.
End YieldsAdaptors.

(** Reading an iterator to its end. *)
Fixpoint drain {I T} `{IIterator I T} (fuel : nat) (i : I) : res (list T) :=
  match fuel with
  | O => Err OutOfFuel
  | S fuel =>
      let* '(x, i) := next i in
      match x with Some x => let* l := drain fuel i in Ok (x :: l) | None => Ok [] end
  end.

Lemma drain_yields {I T} `{Yields I T} i l : yields i l -> drain (S (bound i)) i = Ok l.
Proof.
  intros Hi. assert (Hgen : forall fuel i l, yields i l -> (length l < fuel)%nat -> drain fuel i = Ok l).
  { clear i l Hi. induction fuel as [|fuel IH]; intros i l Hi Hl; [lia|]. cbn [drain].
    destruct (yields_next i l Hi) as (i' & -> & Hi'). cbn [rbind]. destruct l as [|x l]; [done|]. cbn in *.
    rewrite (IH i' l) by (done || lia). done. }
  apply Hgen; [done|]. pose proof (yields_bound i l Hi). lia.
Qed.

(** A pipeline over a vector yields what the list functions give, whatever is looked ahead on
    the way. *)
Theorem iterator_pipeline {T R} (v : list T) (p : T -> bool) (f : T -> R) :
  vsize v < W64 ->
  let filtered := (iterator_filter p (copy_from v)).1 in
  let mapped := (iterator_map f filtered).1 in
  (exists it, has_next filtered = Ok (bool_decide (filter p v <> []), it) /\ drain (S (bound it)) it = Ok (filter p v)) /\
  drain (S (bound mapped)) mapped = Ok (f <$> filter p v).
Proof.
  intros Hv. cbv zeta.
  assert (Hf : yields (mkFilter (Some (mkSource v 0)) p) (filter p v)).
  { exists (mkSource v 0), v. split_and!; [done|cbn; by split_and!|done]. }
  split.
  - destruct (has_next_yields (iterator_filter p (copy_from v)).1 (filter p v)) as (it & -> & Hit);
      [by exists (filter p v)|]. exists it. split; [done|]. by apply drain_yields.
  - apply drain_yields. by eexists _, _.
Qed.

(** An element that [has_next] has looked at is lost to [filter] and [map]. *)
Example looked_ahead_element_is_lost :
  exists it, has_next (copy_from [1; 2; 3]) = Ok (true, it) /\
    drain 10 (iterator_filter (fun _ => true) it).1 = Ok [2; 3].
Proof. eexists. split; reflexivity. Qed.

(** * Base64 *)

(** Texts as character codes. *)
Definition codes (s : string) : list Z := (fun c => Z.of_N (N_of_ascii c)) <$> String.list_ascii_of_string s.
Definition kEncodeLookup : list Z := codes "ABCDEFGHIJKLMNOPQRSTUVWXYZabcdefghijklmnopqrstuvwxyz0123456789+/".
Definition kPadCharacter : Z := 61.

(** The character of six bits of [temp]. *)
Definition sextet (temp mask shift : Z) : Z := nth (Z.to_nat (Z.shiftr (Z.land temp mask) shift)) kEncodeLookup 0.

(** [base64_encode]: the loop over whole triples, then the [switch] over what is left. *)
Fixpoint base64_encode (input : list Z) : list Z :=
  match input with
  | a :: b :: c :: input =>
      let temp := u32 (u32 (u32 (Z.shiftl a 16) + Z.shiftl b 8) + c) in
      sextet temp 0x00FC0000 18 :: sextet temp 0x0003F000 12 :: sextet temp 0x00000FC0 6 ::
      sextet temp 0x0000003F 0 :: base64_encode input
  | [a; b] =>
      let temp := u32 (u32 (Z.shiftl a 16) + Z.shiftl b 8) in
      [sextet temp 0x00FC0000 18; sextet temp 0x0003F000 12; sextet temp 0x00000FC0 6; kPadCharacter]
  | [a] =>
      let temp := u32 (Z.shiftl a 16) in
      [sextet temp 0x00FC0000 18; sextet temp 0x0003F000 12; kPadCharacter; kPadCharacter]
  | [] => []
  end.

(** The value of a character, if it is one of the alphabet. *)
Definition char_value (c : Z) : option Z :=
  if (0x41 <=? c) && (c <=? 0x5A) then Some (c - 0x41)
  else if (0x61 <=? c) && (c <=? 0x7A) then Some (c - 0x47)
  else if (0x30 <=? c) && (c <=? 0x39) then Some (c + 0x04)
  else if c =? 0x2B then Some 0x3E
  else if c =? 0x2F then Some 0x3F
  else None.

Definition byte_at (temp shift : Z) : Z := Z.land (Z.shiftr temp shift) 0xFF.

(** The loops of [base64_decode]: [i] counts the characters of a group. *)
Fixpoint decode_from (i : nat) (temp : Z) (it decoded : list Z) : res (list Z) :=
  match it with
  | [] => if bool_decide (i = 0%nat) then Ok decoded else Err Undefined
  | c :: it' =>
      let temp := u32 (Z.shiftl temp 6) in
      match char_value c with
      | Some v =>
          let temp := Z.lor temp v in
          if bool_decide (i = 3%nat)
          then decode_from 0 temp it' (decoded ++ [byte_at temp 16; byte_at temp 8; byte_at temp 0])
          else decode_from (S i) temp it' decoded
      | None =>
          if c =? kPadCharacter then
            match vsize it with
            | 1 => Ok (decoded ++ [byte_at temp 16; byte_at temp 8])
            | 2 => Ok (decoded ++ [byte_at temp 10])
            | _ => Err RuntimeError
            end
          else Err RuntimeError
      end
  end.

Definition base64_decode (input : list Z) : res (list Z) :=
  if negb (vsize input mod 4 =? 0) then Err RuntimeError else decode_from 0 0 input [].

(** ** Round trip *)

Lemma sextet_value temp k :
  0 <= k -> char_value (sextet temp (Z.shiftl 0x3F k) k) = Some ((temp / 2 ^ k) mod 64).
Proof.
  intros Hk. unfold sextet. rewrite Z.shiftr_land, Z.shiftr_shiftl_l by lia.
  replace (k - k) with 0 by lia. rewrite Z.shiftl_0_r. change 0x3F with (Z.ones 6).
  rewrite Z.land_ones, Z.shiftr_div_pow2 by lia. change (2 ^ 6) with 64.
  assert (Hall : forallb (fun v => bool_decide (char_value (nth (Z.to_nat v) kEncodeLookup 0) = Some v)) (seqZ 0 64) = true)
    by (vm_compute; reflexivity).
  rewrite forallb_forall in Hall. specialize (Hall ((temp / 2 ^ k) mod 64)).
  apply bool_decide_eq_true in Hall; [done|]. apply list_elem_of_In, elem_of_seqZ.
  pose proof (Z.mod_pos_bound (temp / 2 ^ k) 64). lia.
Qed.

(** A character more: [temp] as a number. *)
Lemma push_sextet temp v : 0 <= v < 64 -> Z.lor (u32 (Z.shiftl temp 6)) v = u32 (temp * 64) + v.
Proof.
  intros Hv. rewrite Z.shiftl_mul_pow2 by lia. change (2 ^ 6) with 64.
  pose proof (Z.add_lor_land (u32 (temp * 64)) v) as Ha.
  assert (Z.land (u32 (temp * 64)) v = 0) as Hl; [|lia].
  apply Z.bits_inj'. intros k Hk. rewrite Z.land_spec, Z.bits_0.
  destruct (Z.lt_ge_cases k 6) as [Hlt|Hge].
  - unfold u32, W32. rewrite <- (Z.mod_small v 64) by lia. change (2 ^ 32) with (2 ^ 32).
    rewrite Z.mod_pow2_bits_low by lia. change 64 with (2 ^ 6) at 1. rewrite Z.mul_pow2_bits_low by lia. done.
  - replace (Z.testbit v k) with false; [by rewrite andb_false_r|].
    symmetry. rewrite <- (Z.mod_small v (2 ^ 6)) by lia. apply Z.mod_pow2_bits_high. lia.
Qed.

Lemma byte_at_spec temp k : 0 <= k -> byte_at temp k = (temp / 2 ^ k) mod 256.
Proof.
  intros Hk. unfold byte_at. change 0xFF with (Z.ones 8). by rewrite Z.land_ones, Z.shiftr_div_pow2 by lia.
Qed.

Lemma push_value temp c v i it out :
  char_value c = Some v -> 0 <= v < 64 -> (i < 3)%nat ->
  exists k, decode_from i temp (c :: it) out = decode_from (S i) (temp * 64 + v - k * 2 ^ 32) it out.
Proof.
  intros Hc Hv Hi. exists (temp * 64 / 2 ^ 32). cbn [decode_from]. rewrite Hc, bool_decide_eq_false_2 by lia.
  rewrite push_sextet by done. f_equal. unfold u32, W32. pose proof (Z.div_mod (temp * 64) (2 ^ 32)). lia.
Qed.

Lemma sextet_range temp k : 0 <= (temp / 2 ^ k) mod 64 < 64.
Proof. apply Z.mod_pos_bound. lia. Qed.

Definition is_byte (b : Z) : Prop := 0 <= b < 256.

(** The three values in [temp], or the bits of a shorter group. *)
Ltac push_next k :=
  match goal with |- context [decode_from ?i ?t (sextet ?T ?m k :: ?it) ?out] =>
    change m with (Z.shiftl 0x3F k);
    let n := fresh "n" in let Hn := fresh "Hn" in
    destruct (push_value t (sextet T (Z.shiftl 0x3F k) k) _ i it out (sextet_value T k ltac:(lia)) (sextet_range T k))
      as [n Hn]; [lia|rewrite Hn; clear Hn]
  end.

Lemma u32_bits a b c :
  is_byte a -> is_byte b -> is_byte c -> u32 (u32 (u32 (Z.shiftl a 16) + Z.shiftl b 8) + c) = a * 65536 + b * 256 + c.
Proof.
  unfold is_byte. intros Ha Hb Hc. rewrite !Z.shiftl_mul_pow2 by lia. change (2 ^ 16) with 65536. change (2 ^ 8) with 256.
  rewrite (u32_small (a * 65536)), (u32_small (_ + _ * _)), u32_small by (unfold W32; lia). done.
Qed.

(** Numbers from sextets, and bytes from numbers. *)
Lemma sextets_sum T :
  0 <= T < 2 ^ 24 ->
  (T / 2 ^ 18) mod 64 * 2 ^ 18 + (T / 2 ^ 12) mod 64 * 2 ^ 12 + (T / 2 ^ 6) mod 64 * 2 ^ 6 + (T / 2 ^ 0) mod 64 = T.
Proof.
  intros HT. change (2 ^ 24) with 16777216 in HT. change (2 ^ 18) with (64 * 64 * 64). change (2 ^ 12) with (64 * 64). change (2 ^ 6) with 64.
  change (2 ^ 0) with 1. rewrite <- !Z.div_div, Z.div_1_r by lia.
  pose proof (Z.div_mod T 64 ltac:(lia)). pose proof (Z.div_mod (T / 64) 64 ltac:(lia)).
  pose proof (Z.div_mod (T / 64 / 64) 64 ltac:(lia)). rewrite (Z.mod_small (T / 64 / 64 / 64)); [lia|].
  rewrite !Z.div_div by lia. split; [apply Z.div_pos; lia|]. apply Z.div_lt_upper_bound; lia.
Qed.

Lemma digit_of h l b r : 0 < b -> 0 <= r < b -> 0 <= l < 256 -> (((h * 256 + l) * b + r) / b) mod 256 = l.
Proof.
  intros Hb Hr Hl. rewrite Z.div_add_l, (Z.div_small r b) by lia.
  rewrite Z.add_0_r, Z.add_comm, Z.mod_add by lia. apply Z.mod_small. lia.
Qed.

Lemma bytes_of_sum q a b c :
  is_byte a -> is_byte b -> is_byte c ->
  let x := q * 2 ^ 24 + (a * 65536 + b * 256 + c) in
  byte_at x 16 = a /\ byte_at x 8 = b /\ byte_at x 0 = c.
Proof.
  intros Ha Hb Hc x. unfold is_byte in *. rewrite !byte_at_spec by lia. split_and!.
  - replace x with ((q * 256 + a) * 2 ^ 16 + (b * 256 + c)) by (unfold x; lia). apply digit_of; lia.
  - replace x with (((q * 256 + a) * 256 + b) * 2 ^ 8 + c) by (unfold x; lia). apply digit_of; lia.
  - replace x with ((((q * 256 + a) * 256 + b) * 256 + c) * 2 ^ 0 + 0) by (unfold x; lia). apply digit_of; lia.
Qed.

Lemma decode_triple a b c temp it out :
  is_byte a -> is_byte b -> is_byte c ->
  exists temp', decode_from 0 temp (base64_encode [a; b; c] ++ it) out = decode_from 0 temp' it (out ++ [a; b; c]).
Proof.
  intros Ha Hb Hc. cbn [base64_encode app]. rewrite u32_bits by done. set (T := a * 65536 + b * 256 + c).
  push_next 18. push_next 12. push_next 6. change 0x3F with (Z.shiftl 0x3F 0). cbn [decode_from].
  rewrite sextet_value by lia. cbn [bool_decide]. rewrite push_sextet by apply sextet_range.
  rewrite bool_decide_eq_true_2 by done.
  match goal with |- context [u32 ?x + ?v] => set (X := x); assert (exists q, u32 X + v = q * 2 ^ 24 + T) as [q Hq] end.
  { pose proof (sextets_sum T ltac:(unfold T, is_byte in *; lia)) as HT.
    exists (temp - 256 * (n * 262144 + n0 * 4096 + n1 * 64 + X / W32)).
    pose proof (Z.div_mod X W32 ltac:(done)) as HX. unfold u32. unfold X in *. unfold W32 in *. lia. }
  rewrite Hq. unfold T. destruct (bytes_of_sum q a b c) as (-> & -> & ->); [done..|]. by eexists.
Qed.

Lemma shifted_temp temp : exists k, u32 (Z.shiftl temp 6) = temp * 64 - k * 2 ^ 32.
Proof.
  exists (temp * 64 / W32). rewrite Z.shiftl_mul_pow2 by lia. change (2 ^ 6) with 64. unfold u32.
  pose proof (Z.div_mod (temp * 64) W32 ltac:(done)).   unfold W32 in *. lia.
Qed.

(** The two shorter groups end the text. *)
Lemma decode_pair a b temp out :
  is_byte a -> is_byte b -> decode_from 0 temp (base64_encode [a; b]) out = Ok (out ++ [a; b]).
Proof.
  intros Ha Hb. assert (Hc : is_byte 0) by done. cbn [base64_encode]. pose proof (u32_bits a b 0 Ha Hb Hc) as HT.
  rewrite !Z.add_0_r in HT. rewrite (u32_small (u32 _)) in HT by apply u32_range. rewrite HT. clear HT.
  set (T := a * 65536 + b * 256). push_next 18. push_next 12. push_next 6. cbn [decode_from].
  change (char_value kPadCharacter) with (@None Z). cbn [Z.eqb kPadCharacter Pos.eqb]. change (vsize [kPadCharacter]) with 1.
  match goal with |- context [u32 (Z.shiftl ?t 6)] => destruct (shifted_temp t) as [k Hk] end.
  pose proof (sextets_sum T ltac:(unfold T, is_byte in *; lia)) as HT.
  assert ((T / 2 ^ 0) mod 64 = 0) as Hz.
  { change (2 ^ 0) with 1. rewrite Z.div_1_r. replace T with ((a * 1024 + b * 4) * 64) by (unfold T; lia).
    apply Z_mod_mult. }
  match type of Hk with _ = ?r => assert (r = (temp - 256 * (n * 262144 + n0 * 4096 + n1 * 64 + k)) * 2 ^ 24 + (a * 65536 + b * 256 + 0))
    as Hr by (unfold T in *; lia) end.
  rewrite Hk, Hr. by destruct (bytes_of_sum (temp - 256 * (n * 262144 + n0 * 4096 + n1 * 64 + k)) a b 0) as (-> & -> & _).
Qed.

Lemma decode_single a temp out : is_byte a -> decode_from 0 temp (base64_encode [a]) out = Ok (out ++ [a]).
Proof.
  intros Ha. cbn [base64_encode]. assert (HT : u32 (Z.shiftl a 16) = a * 65536).
  { rewrite Z.shiftl_mul_pow2 by lia. apply u32_small. unfold is_byte, W32 in *. lia. }
  rewrite HT. clear HT. set (T := a * 65536). push_next 18. push_next 12. cbn [decode_from].
  change (char_value kPadCharacter) with (@None Z). cbn [Z.eqb kPadCharacter Pos.eqb].
  change (vsize [kPadCharacter; kPadCharacter]) with 2.
  match goal with |- context [u32 (Z.shiftl ?t 6)] => destruct (shifted_temp t) as [k Hk] end.
  assert (T / 2 ^ 18 mod 64 * 64 + T / 2 ^ 12 mod 64 = a * 16) as Hv.
  { unfold T, is_byte in *. change (2 ^ 18) with 262144. change (2 ^ 12) with 4096.
    replace (a * 65536 / 4096) with (a * 16) by (replace (a * 65536) with (a * 16 * 4096) by lia; by rewrite Z.div_mul).
    replace (a * 65536 / 262144) with (a / 4)
      by (replace (a * 65536) with (a * 65536) by lia; change 262144 with (4 * 65536); by rewrite Z.div_mul_cancel_r).
    rewrite (Z.mod_small (a / 4)) by (split; [apply Z.div_pos; lia|apply Z.div_lt_upper_bound; lia]).
    replace (a * 16 mod 64) with (a mod 4 * 16) by (change 64 with (4 * 16); by rewrite Z.mul_mod_distr_r).
    pose proof (Z.div_mod a 4 ltac:(lia)). lia. }
  set (q := temp - 16384 * (n * 4096 + n0 * 64 + k)).
  match type of Hk with _ = ?r => assert (r = (q * 256 + a) * 2 ^ 10 + 0) as Hr by (unfold q; lia) end.
  rewrite Hk, Hr, byte_at_spec, digit_of by (unfold is_byte in Ha; lia). done.
Qed.

Lemma decode_encode l temp out :
  Forall is_byte l -> decode_from 0 temp (base64_encode l) out = Ok (out ++ l).
Proof.
  remember (length l) as n eqn:Hn. revert l temp out Hn.
  induction (lt_wf n) as [n _ IH]. intros l temp out -> Hl.
  destruct l as [|a [|b [|c l]]]; [by rewrite app_nil_r|..]; repeat (apply Forall_cons in Hl as [? Hl]).
  - by apply decode_single.
  - by apply decode_pair.
  - change (base64_encode (a :: b :: c :: l)) with (base64_encode [a; b; c] ++ base64_encode l).
    destruct (decode_triple a b c temp (base64_encode l) out) as [temp' ->]; [done..|].
    rewrite (IH (length l)) by (cbn; lia || done). by rewrite <- app_assoc.
Qed.

Lemma encode_length l : vsize (base64_encode l) mod 4 = 0.
Proof.
  remember (length l) as n eqn:Hn. revert l Hn. induction (lt_wf n) as [n _ IH]. intros l ->.
  destruct l as [|a [|b [|c l]]]; [done..|].
  change (base64_encode (a :: b :: c :: l)) with (base64_encode [a; b; c] ++ base64_encode l).
  rewrite vsize_app, Z.add_comm. change (vsize (base64_encode [a; b; c])) with (1 * 4).
  rewrite Z.mod_add by lia. apply (IH (length l)); cbn; lia.
Qed.

(** What is encoded is decoded, for every sequence of bytes. *)
Theorem base64_roundtrip l : Forall is_byte l -> base64_decode (base64_encode l) = Ok l.
Proof. intros Hl. unfold base64_decode. rewrite encode_length. by apply decode_encode. Qed.

(** * The blocking queue *)
Section BlockingQueue.
Context {T : Type}.

Record BlockingQueue := mkQueue { queue_ : list T; closed_ : bool }.

Definition queue_push (t : T) (q : BlockingQueue) : BlockingQueue := mkQueue (queue_ q ++ [t]) (closed_ q).
Definition queue_close (q : BlockingQueue) : BlockingQueue := mkQueue (queue_ q) true.

(** [pop(t)]: [None] while it has to wait; a closed and empty queue leaves [t] as it was. *)
Definition queue_pop (t : T) (q : BlockingQueue) : option (T * BlockingQueue) :=
  match queue_ q with
  | x :: l => Some (x, mkQueue l (closed_ q))
  | [] => if closed_ q then Some (t, q) else None
  end.

(** Calls of any threads, in the order of the lock, with what was pushed and popped. *)
Inductive queue_step : BlockingQueue * list T * list T -> BlockingQueue * list T * list T -> Prop :=
| queue_push_step t q ins outs : queue_step (q, ins, outs) (queue_push t q, ins ++ [t], outs)
| queue_close_step q ins outs : queue_step (q, ins, outs) (queue_close q, ins, outs)
| queue_pop_step t x q q' ins outs :
    queue_ q <> [] -> queue_pop t q = Some (x, q') -> queue_step (q, ins, outs) (q', ins, outs ++ [x])
| queue_empty_step t q q' ins outs :
    queue_ q = [] -> queue_pop t q = Some (t, q') -> queue_step (q, ins, outs) (q', ins, outs).

(** Elements come out once and in order, and after [close] no caller waits. *)
Theorem queue_is_fifo q ins outs :
  rtc queue_step (mkQueue [] false, [], []) (q, ins, outs) ->
  ins = outs ++ queue_ q /\ (closed_ q = true -> forall t, is_Some (queue_pop t q)).
Proof.
  intros Hr. split.
  - apply (rtc_ind_r (fun s => s.1.2 = s.2 ++ queue_ s.1.1) _) in Hr; [done|done|].
    intros s s' _ Hstep IH. destruct Hstep as [t q0 i o|q0 i o|t x q0 q' i o Hne Hp|t q0 q' i o He Hp]; cbn in *.
    + by rewrite IH, app_assoc.
    + done.
    + unfold queue_pop in Hp. destruct (queue_ q0) as [|y l] eqn:E; [done|]. injection Hp as -> <-. cbn.
      by rewrite IH, <- app_assoc.
    + unfold queue_pop in Hp. rewrite He in *. destruct (closed_ q0); [|done]. injection Hp as <-. by rewrite He.
  - intros Hc t. unfold queue_pop. rewrite Hc. destruct (queue_ q); eauto.
Qed.
End BlockingQueue.
