(* ===== verification/CppString.v ===== *)
(** The parts of [std::string] and of the numeric conversions the library uses: [find],
    [substr], [std::stoul], [atoi]-style scanning and stream output of unsigned numbers,
    with the lemmas that relate printing and splitting to scanning. *)

From Stdlib Require Import Ascii.
From stdpp Require Import pretty.
From S2P Require Import Prelude.

#[local] Arguments String.append !_ _ / : simpl nomatch.

(** ** Characters *)
Definition is_digit (c : Ascii.ascii) : bool :=
  let n := Ascii.N_of_ascii c in (48 <=? n)%N && (n <=? 57)%N.

Definition digit_val (c : Ascii.ascii) : Z := Z.of_N (Ascii.N_of_ascii c) - 48.

(** [isspace] in the "C" locale. *)
Definition is_space (c : Ascii.ascii) : bool :=
  let n := Ascii.N_of_ascii c in (n =? 32)%N || ((9 <=? n)%N && (n <=? 13)%N).

(** ** Strings *)
Definition slen (s : string) : Z := Z.of_nat (String.length s).

(** [std::string::find(c, pos)]; [None] is [npos]. *)
Fixpoint find (c : Ascii.ascii) (s : string) (pos : nat) : option nat :=
  match s with
  | EmptyString => None
  | String a s' =>
      match pos with
      | O => if Ascii.eqb a c then Some O else S <$> find c s' O
      | S p => S <$> find c s' p
      end
  end.

(** [std::string::substr(pos, n)]: throws when [pos] is past the end. *)
Definition substr (s : string) (pos n : nat) : res string :=
  if (String.length s <? pos)%nat then Err OutOfRange else Ok (String.substring pos n s).

(** [std::string::substr(pos)]. *)
Definition substr_from (s : string) (pos : nat) : res string :=
  substr s pos (String.length s - pos).

Fixpoint no_char (c : Ascii.ascii) (s : string) : bool :=
  match s with
  | EmptyString => true
  | String a s' => negb (Ascii.eqb a c) && no_char c s'
  end.

(** ** Scanning numbers *)

(** The value of the longest prefix of digits, on top of [acc]. *)
Fixpoint scan_digits (s : string) (acc : Z) : Z :=
  match s with
  | String c s' => if is_digit c then scan_digits s' (10 * acc + digit_val c) else acc
  | EmptyString => acc
  end.

Fixpoint skip_space (s : string) : string :=
  match s with
  | String c s' => if is_space c then skip_space s' else s
  | EmptyString => s
  end.

(** Sign and the rest. *)
Definition scan_sign (s : string) : bool * string :=
  match s with
  | String c s' =>
      if Ascii.eqb c "-"%char then (true, s') else if Ascii.eqb c "+"%char then (false, s') else (false, s)
  | EmptyString => (false, s)
  end.

Definition starts_with_digit (s : string) : bool :=
  match s with String c _ => is_digit c | EmptyString => false end.

(** [std::stoul(s)] and [std::stoull(s)], base 10, with a 64-bit [unsigned long]: leading
    blanks and a sign are accepted, scanning stops at the first other character, a negative
    number is negated modulo 2^64. *)
Definition stoul (s : string) : res Z :=
  let '(neg, s') := scan_sign (skip_space s) in
  if negb (starts_with_digit s') then Err InvalidArgument else
  let v := scan_digits s' 0 in
  if v <=? SIZE_MAX then Ok (if neg then u64 (- v) else v) else Err OutOfRange.

(** [std::stoi(s)]. *)
Definition stoi (s : string) : res Z :=
  let '(neg, s') := scan_sign (skip_space s) in
  if negb (starts_with_digit s') then Err InvalidArgument else
  let v := if neg then - scan_digits s' 0 else scan_digits s' 0 in
  if (- 2 ^ 31 <=? v) && (v <? 2 ^ 31) then Ok v else Err OutOfRange.

(** [std::stol(s)]. *)
Definition stol (s : string) : res Z :=
  let '(neg, s') := scan_sign (skip_space s) in
  if negb (starts_with_digit s') then Err InvalidArgument else
  let v := if neg then - scan_digits s' 0 else scan_digits s' 0 in
  if (- 2 ^ 63 <=? v) && (v <? 2 ^ 63) then Ok v else Err OutOfRange.

(** [out << v] for an unsigned [v]. *)
Definition dec (v : Z) : string := pretty (Z.to_N v).

(** ** Lemmas *)
Lemma is_digit_range c :
  is_digit c = true <-> (48 <= Ascii.N_of_ascii c <= 57)%N.
Proof. unfold is_digit. rewrite andb_true_iff, !N.leb_le. done. Qed.

Lemma sapp_assoc (a b c : string) : (a +:+ b) +:+ c = a +:+ (b +:+ c).
Proof. induction a as [|x a IH]; simpl; [done|]. by rewrite IH. Qed.

Lemma sapp_nil (a : string) : a +:+ "" = a.
Proof. induction a as [|x a IH]; simpl; [done|]. by rewrite IH. Qed.

Lemma slength_app (a b : string) :
  String.length (a +:+ b) = (String.length a + String.length b)%nat.
Proof. induction a as [|x a IH]; simpl; [done|]. by rewrite IH. Qed.

Lemma no_char_app c a b : no_char c (a +:+ b) = no_char c a && no_char c b.
Proof. induction a as [|x a IH]; simpl; [done|]. by rewrite IH, andb_assoc. Qed.

Lemma find_skip c pre s : find c (pre +:+ s) (String.length pre) =
  (fun p => String.length pre + p)%nat <$> find c s O.
Proof.
  induction pre as [|x pre IH]; simpl; [by destruct (find c s O)|].
  rewrite IH. by destruct (find c s O).
Qed.

Lemma find_none c s : no_char c s = true -> find c s O = None.
Proof.
  induction s as [|x s IH]; simpl; [done|]. intros [Hx Hs]%andb_prop.
  apply negb_true_iff in Hx. by rewrite Hx, IH.
Qed.

Lemma find_hit c s rest :
  no_char c s = true -> find c (s +:+ String c rest) O = Some (String.length s).
Proof.
  induction s as [|x s IH]; simpl; [by rewrite Ascii.eqb_refl|]. intros [Hx Hs]%andb_prop.
  apply negb_true_iff in Hx. by rewrite Hx, IH.
Qed.

Lemma substring_prefix s rest : String.substring 0 (String.length s) (s +:+ rest) = s.
Proof. induction s as [|x s IH]; simpl; [by destruct rest|]. by rewrite IH. Qed.

Lemma substring_skip pre s n :
  String.substring (String.length pre) n (pre +:+ s) = String.substring 0 n s.
Proof. induction pre as [|x pre IH]; simpl; done. Qed.

Lemma substr_mid pre s rest :
  substr (pre +:+ s +:+ rest) (String.length pre) (String.length s) = Ok s.
Proof.
  unfold substr. rewrite !slength_app. destruct (Nat.ltb_spec (String.length pre + (String.length s + String.length rest)) (String.length pre)); [lia|].
  by rewrite substring_skip, substring_prefix.
Qed.

Lemma substring_all s n : (String.length s <= n)%nat -> String.substring 0 n s = s.
Proof.
  revert n. induction s as [|x s IH]; intros [|n] Hn; simpl in *; [done|done|lia|]. by rewrite IH by lia.
Qed.

Lemma substr_rest pre s n : (String.length s <= n)%nat -> substr (pre +:+ s) (String.length pre) n = Ok s.
Proof.
  intros Hn. unfold substr. rewrite slength_app.
  destruct (Nat.ltb_spec (String.length pre + String.length s) (String.length pre)); [lia|].
  by rewrite substring_skip, substring_all.
Qed.

Lemma substr_from_tail pre s : substr_from (pre +:+ s) (String.length pre) = Ok s.
Proof.
  unfold substr_from. rewrite slength_app.
  replace (String.length pre + String.length s - String.length pre)%nat
    with (String.length s) by lia.
  rewrite <- (sapp_nil s) at 1. apply substr_mid.
Qed.

(** A position found is at or after the start and inside the string. *)
Lemma find_range c s pos p : find c s pos = Some p -> (pos <= p < String.length s)%nat.
Proof.
  revert pos p. induction s as [|x s IH]; intros pos p; simpl; [done|].
  destruct pos as [|pos].
  - destruct (Ascii.eqb x c); [intros [= <-]; lia|].
    destruct (find c s 0) eqn:E; simpl; [|done]. intros [= <-]. apply IH in E. lia.
  - destruct (find c s pos) eqn:E; simpl; [|done]. intros [= <-]. apply IH in E. lia.
Qed.

Lemma wpr_substr s pos n (Q : string -> Prop) : (forall t, Q t) -> wpr (substr s pos n) Q.
Proof. intros. unfold substr. destruct (_ <? _)%nat; simpl; auto. Qed.

Lemma wpr_substr_from s pos (Q : string -> Prop) : (forall t, Q t) -> wpr (substr_from s pos) Q.
Proof. apply wpr_substr. Qed.

Lemma wpr_stoul s (Q : Z -> Prop) : (forall v, Q v) -> wpr (stoul s) Q.
Proof.
  intros. unfold stoul. destruct (scan_sign _) as [neg s'].
  destruct (negb _); [done|]. destruct (_ <=? _); simpl; [auto|done].
Qed.

Lemma stoul_range s v : stoul s = Ok v -> 0 <= v < W64.
Proof.
  assert (Hsc : forall t acc, 0 <= acc -> 0 <= scan_digits t acc).
  { intros t. induction t as [|c t IH]; intros acc Hacc; simpl; [done|].
    destruct (is_digit c) eqn:E; [|done]. apply IH. apply is_digit_range in E. unfold digit_val. lia. }
  unfold stoul. destruct (scan_sign _) as [neg s']. destruct (negb _); [done|].
  destruct (Z.leb_spec (scan_digits s' 0) SIZE_MAX); [|done].
  intros [= <-]. destruct neg; [apply u64_range|].
  pose proof (Hsc s' 0). unfold SIZE_MAX in *. lia.
Qed.

(** *** Decimal output *)
Lemma pretty_char_spec x :
  (x < 10)%N ->
  is_digit (pretty_N_char x) = true /\ digit_val (pretty_N_char x) = Z.of_N x.
Proof.
  intros Hx.
  assert (x = 0 ∨ x = 1 ∨ x = 2 ∨ x = 3 ∨ x = 4 ∨ x = 5 ∨ x = 6 ∨ x = 7 ∨ x = 8 ∨ x = 9)%N
    as H by lia.
  repeat destruct H as [->|H]; subst; done.
Qed.

(** What [pretty_N_go] puts in front of [s] is a run of digits whose value, read on top of
    0, is the number printed. *)
Lemma scan_pretty_go x s : scan_digits (pretty_N_go x s) 0 = scan_digits s (Z.of_N x).
Proof.
  revert s. induction (N.lt_wf_0 x) as [x _ IH]; intros s.
  destruct (decide (x = 0)%N) as [->|Hx]; [by rewrite pretty_N_go_0|].
  rewrite pretty_N_go_step by lia. rewrite IH by (apply N.div_lt; lia).
  destruct (pretty_char_spec (x mod 10)) as [Hd Hv]; [apply N.mod_lt; lia|].
  cbn [scan_digits]. rewrite Hd, Hv. f_equal.
  pose proof (N.div_mod x 10 ltac:(lia)). lia.
Qed.

Fixpoint all_digits (s : string) : bool :=
  match s with String c s' => is_digit c && all_digits s' | EmptyString => true end.

Lemma all_digits_pretty_go x s : all_digits s = true -> all_digits (pretty_N_go x s) = true.
Proof.
  revert s. induction (N.lt_wf_0 x) as [x _ IH]; intros s Hs.
  destruct (decide (x = 0)%N) as [->|Hx]; [by rewrite pretty_N_go_0|].
  rewrite pretty_N_go_step by lia. apply IH; [apply N.div_lt; lia|].
  destruct (pretty_char_spec (x mod 10)) as [Hd _]; [apply N.mod_lt; lia|].
  cbn [all_digits]. by rewrite Hd.
Qed.

Lemma pretty_go_nonempty x s : (0 < x)%N \/ s <> "" -> pretty_N_go x s <> "".
Proof.
  revert s. induction (N.lt_wf_0 x) as [x _ IH]; intros s Hs.
  destruct (decide (x = 0)%N) as [->|Hx]; [rewrite pretty_N_go_0; destruct Hs; [lia|done]|].
  rewrite pretty_N_go_step by lia. apply IH; [apply N.div_lt; lia|by right].
Qed.

Lemma dec_digits v : all_digits (dec v) = true.
Proof.
  unfold dec, pretty, pretty_N. case_decide; [done|]. by apply all_digits_pretty_go.
Qed.

Lemma dec_nonempty v : dec v <> "".
Proof.
  unfold dec, pretty, pretty_N. case_decide; [done|]. apply pretty_go_nonempty. lia.
Qed.

Lemma scan_dec v : 0 <= v -> scan_digits (dec v) 0 = v.
Proof.
  intros Hv. unfold dec, pretty, pretty_N. case_decide as E; [transitivity 0; [done|lia]|].
  rewrite scan_pretty_go. cbn [scan_digits]. lia.
Qed.

Lemma all_digits_no_char c s : is_digit c = false -> all_digits s = true -> no_char c s = true.
Proof.
  intros Hc. induction s as [|x s IH]; simpl; [done|]. intros [Hx Hs]%andb_prop.
  rewrite IH by done. rewrite andb_true_r. apply negb_true_iff.
  destruct (Ascii.eqb_spec x c) as [->|]; congruence.
Qed.

Lemma digit_not_blank c : is_digit c = true ->
  is_space c = false /\ Ascii.eqb c "-"%char = false /\ Ascii.eqb c "+"%char = false.
Proof.
  intros Hd. assert (Hne : forall x, is_digit x = false -> Ascii.eqb c x = false).
  { intros x Hx. destruct (Ascii.eqb_spec c x) as [->|]; congruence. }
  split; [|by split; apply Hne].
  apply is_digit_range in Hd. unfold is_space.
  destruct (N.eqb_spec (N_of_ascii c) 32); [lia|]. simpl.
  destruct (N.leb_spec (N_of_ascii c) 13); [lia|]. apply andb_false_r.
Qed.

(** A run of digits is scanned whole. *)
Lemma stoul_digits s v :
  all_digits s = true -> s <> "" -> scan_digits s 0 = v -> v < W64 -> stoul s = Ok v.
Proof.
  intros Hd Hne Hv Hlt. destruct s as [|c s]; [done|].
  pose proof Hd as Hd'. simpl in Hd'. apply andb_prop in Hd' as [Hc _].
  destruct (digit_not_blank c Hc) as (Hsp & Hm & Hp).
  unfold stoul. cbn [skip_space]. rewrite Hsp. cbn [scan_sign]. rewrite Hm, Hp.
  cbn [starts_with_digit]. rewrite Hc. cbn [negb]. rewrite Hv.
  destruct (Z.leb_spec v SIZE_MAX); [done|]. unfold SIZE_MAX in *. lia.
Qed.

(** Printing and reading back. *)
Lemma stoul_dec v : 0 <= v < W64 -> stoul (dec v) = Ok v.
Proof.
  intros Hv. apply stoul_digits; [apply dec_digits|apply dec_nonempty| |lia].
  apply scan_dec. lia.
Qed.

Lemma stol_dec v : 0 <= v < 2 ^ 63 -> stol (dec v) = Ok v.
Proof.
  intros Hv. pose proof (dec_digits v) as Hd. pose proof (dec_nonempty v) as Hne.
  pose proof (scan_dec v (proj1 Hv)) as Hs. destruct (dec v) as [|c s] eqn:E; [done|].
  unfold stol. simpl in Hd. apply andb_true_iff in Hd as [Hc Hd].
  destruct (digit_not_blank c Hc) as (Hsp & Hm & Hp). cbn [skip_space]. rewrite Hsp. cbn [scan_sign].
  rewrite Hm, Hp. cbn [starts_with_digit]. rewrite Hc. cbn [negb]. rewrite Hs.
  by rewrite (proj2 (Z.leb_le _ _)), (proj2 (Z.ltb_lt _ _)) by lia.
Qed.

Lemma dec_inj v w : 0 <= v < 2 ^ 63 -> 0 <= w < 2 ^ 63 -> dec v = dec w -> v = w.
Proof. intros Hv Hw E. pose proof (stol_dec v Hv) as H1. rewrite E, stol_dec in H1 by done. by injection H1. Qed.

Lemma no_char_dec c v : is_digit c = false -> no_char c (dec v) = true.
Proof. intros. apply all_digits_no_char; [done|apply dec_digits]. Qed.

Create HintDb str_db discriminated.
#[export] Hint Resolve wpr_substr wpr_substr_from wpr_stoul : str_db.
