(* ===== verification/WorkerCodec.v ===== *)
(** The text form of a worker record ([src/common.cpp]): what a decode worker publishes
    through naming (or a request carries along) and what the sender reads back. *)

From Stdlib Require Import Ascii.
From S2P Require Import Prelude.
From S2P Require Import Common.
From S2P Require Import CppString.

#[local] Arguments String.append !_ _ / : simpl nomatch.

(** ** Writing *)

(** The loop of [join_sizes] from element [i] on. *)
Fixpoint join_from (i : nat) (v : list Z) : string :=
  match v with
  | [] => ""
  | x :: v' => (if (0 <? i)%nat then "|" else "") +:+ dec x +:+ join_from (S i) v'
  end.

Definition join_sizes (v : list Z) : string := join_from 0 v.

(** [WorkerInfo::to_string]. *)
Definition to_string (w : WorkerInfo) : res string :=
  if MAX_INSTANCE_NAME_LEN <? slen (inst_id w) then Err RuntimeError else
  let ss :=
    inst_id w +:+ "," +:+
    dec (worker_id w) +:+ "," +:+
    dec (engine_tp_size w) +:+ "," +:+
    dec (worker_tp_rank w) +:+ "," +:+
    join_sizes (block_sizes w) +:+ "," +:+
    join_sizes (token_sizes w) +:+ "," +:+
    dec (layer_num_blocks w) +:+ "," +:+
    dec (num_layers w) +:+ "," +:+
    dec (transfer_protocols w) +:+ "," +:+
    dec (attn_kernel_blk_ntpb w) +:+ "," +:+
    dec (indexer_blk_ntpb w) +:+ "," +:+
    dec (attn_pack_size w) +:+ "," +:+
    dec (kda_page_stride w) in
  if negb (slen (addr w) =? 0) then
    if MAX_ADDRESS_LEN <? slen (addr w) then Err RuntimeError else
    Ok (ss +:+ "," +:+ addr w)
  else Ok ss.

(** ** Reading *)

(** The loop of [parse_sizes]: [start] is the position of the next token. *)
Fixpoint parse_sizes_from (fuel : nat) (s : string) (start : nat) (out : list Z) : res (list Z) :=
  match fuel with
  | O => Err OutOfFuel
  | S k =>
      let pos := find "|"%char s start in
      let* token := match pos with
                    | None => substr_from s start
                    | Some p => substr s start (p - start)
                    end in
      let* out := if slen token =? 0 then Ok out else let* v := stoul token in Ok (out ++ [v]) in
      match pos with
      | None => Ok out
      | Some p => parse_sizes_from k s (p + 1) out
      end
  end.

Definition parse_sizes (s : string) : res (list Z) :=
  parse_sizes_from (S (String.length s)) s 0 [].

Definition is_numeric_token (s : string) : bool :=
  if slen s =? 0 then false else all_digits s.

(** One round of the loop that cuts [src] at the commas; the state is ([tmp], [start],
    [end]). *)
Definition split_round (src : string) (st : list string * nat * option nat)
    : res (list string * nat * option nat) :=
  let '(tmp, start, end_) := st in
  match end_ with
  | None => Ok st
  | Some e =>
      let* t := substr src start (e - start) in
      Ok (tmp ++ [t], (e + 1)%nat, find ","%char src (e + 1))
  end.

Definition split_fields (src : string) : res (list string) :=
  let* '(tmp, start, _) :=
    while (String.length src) (fun st => bool_decide (is_Some st.2)) (split_round src)
      ([], 0%nat, find ","%char src 0) in
  let* t := substr_from src start in
  Ok (tmp ++ [t]).

(** [w.f = stoul(tmp[i])] for a [uint32_t] field. *)
Definition field32 (tmp : list string) (i : Z) : res Z :=
  let* s := vec_idx tmp i in let* v := stoul s in Ok (u32 v).

(** A default-constructed record with the fields the text carries. *)
Definition wire_worker (id : string) (wid tp rank : Z) (bs ts : list Z)
    (lnb nl protos akb ib pack kda : Z) (a : string) : WorkerInfo := {|
  inst_id := id; worker_id := wid; engine_tp_size := tp; worker_tp_rank := rank;
  block_sizes := bs; token_sizes := ts; layer_num_blocks := lnb; num_layers := nl;
  transfer_protocols := protos; attn_kernel_blk_ntpb := akb; indexer_blk_ntpb := ib;
  attn_pack_size := pack; addr := a;
  num_kv_heads := num_kv_heads default_WorkerInfo;
  num_gdn_layers := num_gdn_layers default_WorkerInfo;
  hybrid_indexer_token_size := hybrid_indexer_token_size default_WorkerInfo;
  gdn_conv_elem_size := gdn_conv_elem_size default_WorkerInfo;
  gdn_ssm_elem_size := gdn_ssm_elem_size default_WorkerInfo;
  conv_state_shape := conv_state_shape default_WorkerInfo;
  ssm_state_shape := ssm_state_shape default_WorkerInfo;
  gdn_conv_channel_dims := gdn_conv_channel_dims default_WorkerInfo;
  num_ple_layers := num_ple_layers default_WorkerInfo;
  ple_block_group := ple_block_group default_WorkerInfo;
  ple_conv_elem_size := ple_conv_elem_size default_WorkerInfo;
  ple_conv_state_shape := ple_conv_state_shape default_WorkerInfo;
  ple_conv_channel_dims := ple_conv_channel_dims default_WorkerInfo;
  kda_conv_dim_first := kda_conv_dim_first default_WorkerInfo;
  hybrid_attn_token_size := hybrid_attn_token_size default_WorkerInfo;
  kda_page_stride := kda |}.

(** The optional trailing fields: ([attn_pack_size], [kda_page_stride], [addr]). *)
Definition trailing_fields (tmp : list string) : res (Z * Z * string) :=
  let n := vsize tmp in
  if n =? 11 then Ok (1, 0, "") else
  if n =? 12 then
    let* s := vec_idx tmp 11 in
    if is_numeric_token s then let* p := field32 tmp 11 in Ok (p, 0, "") else Ok (1, 0, s)
  else if n =? 13 then
    let* p := field32 tmp 11 in
    let* s := vec_idx tmp 12 in
    if is_numeric_token s then let* k := stoul s in Ok (p, k, "") else Ok (p, 0, s)
  else
    let* p := field32 tmp 11 in
    let* ks := vec_idx tmp 12 in
    let* k := stoul ks in
    let* a := vec_idx tmp 13 in
    Ok (p, k, a).

(** [WorkerInfo::from_string]; [transfer_protocols] is a [uint8_t]. *)
Definition from_string (src : string) : res WorkerInfo :=
  let* tmp := split_fields src in
  if (vsize tmp <? 11) || (14 <? vsize tmp) then Err RuntimeError else
  let* id := vec_idx tmp 0 in
  let* wid := field32 tmp 1 in
  let* tp := field32 tmp 2 in
  let* rank := field32 tmp 3 in
  let* bss := vec_idx tmp 4 in let* bs := parse_sizes bss in
  let* tss := vec_idx tmp 5 in let* ts := parse_sizes tss in
  let* lnb := field32 tmp 6 in
  let* nl := field32 tmp 7 in
  let* ps := vec_idx tmp 8 in let* protos := stoul ps in
  let* akb := field32 tmp 9 in
  let* ib := field32 tmp 10 in
  let* '(pack, kda, a) := trailing_fields tmp in
  let pack := if pack =? 0 then 1 else pack in
  Ok (wire_worker id wid tp rank bs ts lnb nl (protos mod 256) akb ib pack kda a).

(** ** Specification *)

(** The first eleven fields of [w], the given trailing ones, the local-only ones at their
    defaults, and a pack size of at least one. *)
Definition view_with (w : WorkerInfo) (pack kda : Z) (a : string) : WorkerInfo :=
  wire_worker (inst_id w) (worker_id w) (engine_tp_size w) (worker_tp_rank w)
    (block_sizes w) (token_sizes w) (layer_num_blocks w) (num_layers w)
    (transfer_protocols w) (attn_kernel_blk_ntpb w) (indexer_blk_ntpb w)
    (if pack =? 0 then 1 else pack) kda a.

(** What a reader can know of a worker. *)
Definition wire_view (w : WorkerInfo) : WorkerInfo :=
  view_with w (attn_pack_size w) (kda_page_stride w) (addr w).

(** The fields that [wf_worker] does not bound, and the separators kept out of names. *)
Record wf_wire (w : WorkerInfo) : Prop := {
  ww_worker : wf_worker w;
  ww_worker_id : in32 (worker_id w);
  ww_protocols : 0 <= transfer_protocols w < 256;
  ww_inst_id : no_char ","%char (inst_id w) = true;
  ww_addr : no_char ","%char (addr w) = true;
}.

(** The first eleven fields, which every generation of the format has. *)
Definition base_fields (w : WorkerInfo) : list string :=
  [inst_id w; dec (worker_id w); dec (engine_tp_size w); dec (worker_tp_rank w);
   join_sizes (block_sizes w); join_sizes (token_sizes w); dec (layer_num_blocks w);
   dec (num_layers w); dec (transfer_protocols w); dec (attn_kernel_blk_ntpb w);
   dec (indexer_blk_ntpb w)].

(** Comma-separated text. *)
Fixpoint commas (l : list string) : string :=
  match l with
  | [] => ""
  | [s] => s
  | s :: l' => s +:+ "," +:+ commas l'
  end.

(** ** Splitting *)
Lemma commas_cons s l : l <> [] -> commas (s :: l) = s +:+ "," +:+ commas l.
Proof. by destruct l. Qed.

Lemma sapp_comma s t : s +:+ "," +:+ t = s +:+ String ","%char t.
Proof. done. Qed.

(** The loop cuts at exactly the separators. *)
Lemma split_loop pre fs tmp fuel :
  fs <> [] -> Forall (fun f => no_char ","%char f = true) fs ->
  (length fs <= S fuel)%nat ->
  exists p, while fuel (fun st => bool_decide (is_Some st.2)) (split_round (pre +:+ commas fs))
     (tmp, String.length pre, find ","%char (pre +:+ commas fs) (String.length pre))
   = Ok (tmp ++ removelast fs, String.length p, None) /\
   exists t, last fs = Some t /\ pre +:+ commas fs = p +:+ t.
Proof.
  revert pre tmp fuel. induction fs as [|f fs IH]; intros pre tmp fuel Hne Hc Hf; [done|].
  apply Forall_cons in Hc as [Hf0 Hc].
  destruct (decide (fs = [])) as [->|Hfs].
  - exists pre. cbn [commas]. rewrite find_skip, find_none by done. simpl.
    destruct fuel; simpl; rewrite app_nil_r; eauto.
  - rewrite commas_cons, sapp_comma by done. rewrite find_skip, find_hit by done. cbn.
    destruct fuel as [|fuel]; [destruct fs; [done|simpl in Hf; lia]|]. cbn [while].
    cbn [snd]. rewrite bool_decide_true by eauto. cbn [split_round].
    replace (String.length pre + String.length f - String.length pre)%nat
      with (String.length f) by lia.
    rewrite substr_mid. cbn [rbind].
    destruct (IH (pre +:+ f +:+ ",") (tmp ++ [f]) fuel) as (p & Hw & t & Ht & Hp); [done|done|simpl in Hf; lia|].
    assert (Heq : (pre +:+ f +:+ ",") +:+ commas fs = pre +:+ f +:+ String ","%char (commas fs)).
    { by rewrite !sapp_assoc. }
    rewrite Heq in Hw, Hp. rewrite !slength_app in Hw.
    replace (String.length pre + String.length f + 1)%nat
      with (String.length pre + (String.length f + String.length ","))%nat by (simpl; lia).
    exists p. rewrite Hw. split.
    + rewrite <- app_assoc. destruct fs; done.
    + exists t. split; [|done]. by destruct fs.
Qed.

Lemma commas_length fs : (length fs <= S (String.length (commas fs)))%nat.
Proof.
  induction fs as [|f fs IH]; [simpl; lia|].
  destruct (decide (fs = [])) as [->|Hfs]; [simpl; lia|].
  rewrite commas_cons, !slength_app by done. simpl in *. lia.
Qed.

Lemma split_fields_commas fs :
  fs <> [] -> Forall (fun f => no_char ","%char f = true) fs -> split_fields (commas fs) = Ok fs.
Proof.
  intros Hne Hc. unfold split_fields.
  destruct (split_loop "" fs [] (String.length (commas fs)) Hne Hc (commas_length fs))
    as (p & Hw & t & Ht & Hp).
  change ("" +:+ commas fs) with (commas fs) in *. change (String.length "") with 0%nat in *.
  rewrite Hw. cbn [rbind]. rewrite Hp, substr_from_tail. cbn [rbind app].
  apply last_Some in Ht as [l' ->]. by rewrite removelast_last.
Qed.

(** ** Size lists *)
Lemma join_from_S i x v : join_from (S i) (x :: v) = "|" +:+ join_sizes (x :: v).
Proof.
  cbn [join_from Nat.ltb Nat.leb]. unfold join_sizes. cbn [join_from Nat.ltb Nat.leb].
  assert (H : forall i j v, join_from (S i) v = join_from (S j) v).
  { clear. intros i j v. revert i j. induction v as [|y v IH]; intros i j; [done|].
    cbn [join_from Nat.ltb Nat.leb]. by rewrite (IH (S i) (S j)). }
  by rewrite (H (S i) 0%nat).
Qed.

Lemma join_sizes_cons x y v : join_sizes (x :: y :: v) = dec x +:+ "|" +:+ join_sizes (y :: v).
Proof. unfold join_sizes at 1. cbn [join_from Nat.ltb Nat.leb]. by rewrite <- (join_from_S 0). Qed.

Lemma slen_dec v : (slen (dec v) =? 0) = false.
Proof. pose proof (dec_nonempty v). unfold slen. by destruct (dec v). Qed.

Lemma parse_sizes_loop pre v out fuel :
  v <> [] -> Forall in64 v -> (length v <= fuel)%nat ->
  parse_sizes_from fuel (pre +:+ join_sizes v) (String.length pre) out = Ok (out ++ v).
Proof.
  revert pre out fuel. induction v as [|x v IH]; intros pre out fuel Hne Hv Hf; [done|].
  apply Forall_cons in Hv as [Hx Hv]. destruct fuel as [|fuel]; [simpl in Hf; lia|].
  cbn [parse_sizes_from].
  destruct v as [|y v].
  - change (join_sizes [x]) with (dec x +:+ ""). rewrite sapp_nil.
    rewrite find_skip, find_none by (by apply no_char_dec). cbn.
    rewrite substr_from_tail. cbn [rbind]. rewrite slen_dec, stoul_dec by exact Hx. done.
  - rewrite join_sizes_cons.
    change ("|" +:+ join_sizes (y :: v)) with (String "|"%char (join_sizes (y :: v))).
    rewrite find_skip, find_hit by (by apply no_char_dec). cbn [fmap option_fmap option_map].
    replace (String.length pre + String.length (dec x) - String.length pre)%nat
      with (String.length (dec x)) by lia.
    rewrite substr_mid. cbn [rbind]. rewrite slen_dec, stoul_dec by exact Hx. cbn [rbind].
    specialize (IH (pre +:+ dec x +:+ "|") (out ++ [x]) fuel).
    rewrite !slength_app, !sapp_assoc in IH. simpl in IH.
    replace (String.length pre + String.length (dec x) + 1)%nat
      with (String.length pre + (String.length (dec x) + 1))%nat by lia.
    rewrite IH; [by rewrite <- app_assoc|done|done|simpl in Hf; lia].
Qed.

Lemma join_sizes_length v : (length v <= String.length (join_sizes v))%nat.
Proof.
  induction v as [|x v IH]; [simpl; lia|]. destruct v as [|y v].
  - pose proof (dec_nonempty x). change (join_sizes [x]) with (dec x +:+ "").
    rewrite sapp_nil. destruct (dec x); [done|]. simpl. lia.
  - rewrite join_sizes_cons, !slength_app. simpl in *. lia.
Qed.

(** Lists of sizes survive printing. *)
Lemma parse_join_sizes v : Forall in64 v -> parse_sizes (join_sizes v) = Ok v.
Proof.
  intros Hv. unfold parse_sizes. destruct (decide (v = [])) as [->|Hne]; [done|].
  pose proof (join_sizes_length v).
  exact (parse_sizes_loop "" v [] (S (String.length (join_sizes v))) Hne Hv ltac:(lia)).
Qed.

Lemma no_char_join_sizes c v : is_digit c = false -> c <> "|"%char -> no_char c (join_sizes v) = true.
Proof.
  intros Hd Hc. induction v as [|x v IH]; [done|]. destruct v as [|y v].
  - change (join_sizes [x]) with (dec x +:+ ""). rewrite sapp_nil. by apply no_char_dec.
  - rewrite join_sizes_cons, !no_char_app, IH, no_char_dec by done. cbn [no_char].
    destruct (Ascii.eqb_spec "|"%char c); [congruence|done].
Qed.

Lemma no_comma_join_sizes v : no_char ","%char (join_sizes v) = true.
Proof. by apply no_char_join_sizes. Qed.

(** ** Fields *)
Lemma field32_dec tmp i v :
  0 <= i -> tmp !! Z.to_nat i = Some (dec v) -> in32 v -> field32 tmp i = Ok v.
Proof.
  intros Hi Hl Hv. unfold field32. rewrite (vec_idx_Some _ _ _ Hi Hl). cbn [rbind].
  pose proof W32_lt_W64. unfold in32 in Hv. rewrite stoul_dec by lia. cbn [rbind].
  by rewrite u32_small.
Qed.

Lemma is_numeric_dec v : is_numeric_token (dec v) = true.
Proof. unfold is_numeric_token. rewrite slen_dec. apply dec_digits. Qed.

Lemma commas_app l l' : l <> [] -> l' <> [] -> commas (l ++ l') = commas l +:+ "," +:+ commas l'.
Proof.
  intros Hl Hl'. induction l as [|s l IH]; [done|]. destruct (decide (l = [])) as [->|Hne].
  - simpl app. by rewrite commas_cons.
  - simpl app. rewrite !commas_cons by (destruct l; done). rewrite IH by done.
    by rewrite !sapp_assoc.
Qed.

(** The text is the comma-separated list of its fields. *)
Lemma to_string_commas w :
  slen (inst_id w) <= MAX_INSTANCE_NAME_LEN -> slen (addr w) <= MAX_ADDRESS_LEN ->
  to_string w = Ok (commas (base_fields w ++ [dec (attn_pack_size w); dec (kda_page_stride w)]
                            ++ (if decide (addr w = "") then [] else [addr w]))).
Proof.
  intros Hi Ha. unfold to_string. destruct (Z.ltb_spec MAX_INSTANCE_NAME_LEN (slen (inst_id w))); [lia|].
  case_decide as E.
  - rewrite E. cbn [slen String.length Z.of_nat Z.eqb negb]. simpl. done.
  - destruct (Z.eqb_spec (slen (addr w)) 0) as [E0|_].
    { unfold slen in E0. by destruct (addr w). }
    destruct (Z.ltb_spec MAX_ADDRESS_LEN (slen (addr w))); [lia|]. simpl negb. cbv iota.
    f_equal. cbn [base_fields app commas]. by rewrite !sapp_assoc.
Qed.

(** One read at the head of [from_string]. *)
Ltac read_field :=
  lazymatch goal with
  | |- rbind (vec_idx ?t ?i) _ = _ => rewrite (vec_idx_Some t i _ ltac:(lia) eq_refl)
  | |- rbind (field32 ?t ?i) _ = _ =>
      erewrite (field32_dec t i _ ltac:(lia) eq_refl) by (first [eassumption | eauto using wf_engine_tp_size, wf_worker_tp_rank, wf_layer_num_blocks, wf_num_layers, wf_attn_kernel_blk_ntpb, wf_indexer_blk_ntpb])
  | |- rbind (parse_sizes (join_sizes _)) _ = _ => rewrite parse_join_sizes by (eauto using wf_block_sizes, wf_token_sizes)
  | |- rbind (stoul (dec _)) _ = _ => rewrite stoul_dec by (unfold W64; lia)
  end.

(** Reading a record whose first eleven fields are those of [w]. *)
Lemma from_string_base w rest pack kda a :
  wf_wire w -> Forall (fun f => no_char ","%char f = true) rest -> vsize rest <= 3 ->
  trailing_fields (base_fields w ++ rest) = Ok (pack, kda, a) ->
  from_string (commas (base_fields w ++ rest)) = Ok (view_with w pack kda a).
Proof.
  intros Hw Hr Hn Ht. pose proof (ww_worker _ Hw) as Hwf. unfold from_string.
  rewrite split_fields_commas; [|done|].
  2: { apply Forall_app. split; [|done]. unfold base_fields.
       repeat constructor; try apply no_comma_join_sizes; try (by apply no_char_dec).
       apply (ww_inst_id _ Hw). }
  cbn [rbind]. unfold vsize in *. rewrite length_app. cbn [base_fields length].
  destruct (Z.ltb_spec (Z.of_nat (11 + length rest)) 11); [lia|].
  destruct (Z.ltb_spec 14 (Z.of_nat (11 + length rest))); [lia|]. cbn [orb].
  rewrite Ht. unfold base_fields.
  pose proof (ww_protocols _ Hw). pose proof (ww_worker_id _ Hw).
  repeat (read_field; cbn [rbind]).
  rewrite Z.mod_small by lia. done.
Qed.

(** *** The generations of the trailing fields *)
Section Trailing.
Context (w : WorkerInfo) (Hw : wf_wire w).

Ltac trailing n :=
  pose proof (wf_attn_pack_size _ (ww_worker _ Hw)); pose proof (wf_kda_page_stride _ (ww_worker _ Hw));
  unfold trailing_fields;
  match goal with |- context [vsize ?l] => change (vsize l) with n end;
  cbn [Z.eqb Pos.eqb base_fields app];
  repeat (first [read_field | rewrite is_numeric_dec | rewrite stoul_dec by assumption
                 | match goal with H : is_numeric_token _ = false |- _ => rewrite H end]; cbn [rbind]);
  reflexivity.

Lemma trailing_none : trailing_fields (base_fields w ++ []) = Ok (1, 0, "").
Proof. done. Qed.

Lemma trailing_pack :
  trailing_fields (base_fields w ++ [dec (attn_pack_size w)]) = Ok (attn_pack_size w, 0, "").
Proof. trailing 12. Qed.

Lemma trailing_addr a :
  is_numeric_token a = false -> trailing_fields (base_fields w ++ [a]) = Ok (1, 0, a).
Proof. intros. trailing 12. Qed.

Lemma trailing_pack_addr a :
  is_numeric_token a = false ->
  trailing_fields (base_fields w ++ [dec (attn_pack_size w); a]) = Ok (attn_pack_size w, 0, a).
Proof. intros. trailing 13. Qed.

Lemma trailing_pack_kda :
  trailing_fields (base_fields w ++ [dec (attn_pack_size w); dec (kda_page_stride w)])
  = Ok (attn_pack_size w, kda_page_stride w, "").
Proof. trailing 13. Qed.

Lemma trailing_all a :
  trailing_fields (base_fields w ++ [dec (attn_pack_size w); dec (kda_page_stride w); a])
  = Ok (attn_pack_size w, kda_page_stride w, a).
Proof. trailing 14. Qed.

End Trailing.

(** ** Termination *)
Lemma wpr_parse_sizes_from fuel s start out :
  (start <= String.length s < start + fuel)%nat ->
  wpr (parse_sizes_from fuel s start out) (fun _ => True).
Proof.
  revert start out. induction fuel as [|fuel IH]; intros start out Hf; [lia|].
  cbn [parse_sizes_from]. apply wpr_bind.
  destruct (find _ s start) as [p|] eqn:E;
    [apply wpr_substr|apply wpr_substr_from]; intros t; apply wpr_bind.
  - apply find_range in E.
    destruct (slen t =? 0); [|apply wpr_bind, wpr_stoul; intros v]; cbn; apply IH; lia.
  - by destruct (slen t =? 0); [|apply wpr_bind, wpr_stoul].
Qed.

Lemma wpr_parse_sizes s : wpr (parse_sizes s) (fun _ => True).
Proof. apply wpr_parse_sizes_from. lia. Qed.

Lemma wpr_split_fields src : wpr (split_fields src) (fun _ => True).
Proof.
  unfold split_fields. apply wpr_bind. eapply wpr_mono.
  - apply (wpr_while (fun st => match st.2 with Some e => (e < String.length src)%nat | None => True end)
      (fun st => match st.2 with Some e => Z.of_nat (String.length src - e) | None => 0 end)).
    + intros [[tmp start] e] HI Hc. apply bool_decide_eq_true in Hc as [e' He]. simpl in *. subst e.
      split; [lia|]. apply wpr_bind, wpr_substr. intros t. simpl.
      destruct (find _ src (e' + 1)) as [p|] eqn:E; [apply find_range in E|]; lia.
    + simpl. destruct (find _ src 0) as [p|] eqn:E; [apply find_range in E; lia|done].
    + simpl. destruct (find _ src 0) as [p|] eqn:E; lia.
  - intros [[tmp start] e] _. apply wpr_bind, wpr_substr_from. done.
Qed.

Lemma wpr_field32 tmp i (Q : Z -> Prop) : (forall v, Q v) -> wpr (field32 tmp i) Q.
Proof.
  intros. unfold field32. apply wpr_bind, wpr_vec_idx. intros ? ? ?.
  apply wpr_bind, wpr_stoul. intros; simpl; auto.
Qed.

Ltac read_step :=
  lazymatch goal with
  | |- wpr (rbind _ _) _ => apply wpr_bind
  | |- wpr (field32 _ _) _ => apply wpr_field32; intros ?
  | |- wpr (stoul _) _ => apply wpr_stoul; intros ?
  | |- wpr (parse_sizes _) _ => eapply wpr_mono; [apply wpr_parse_sizes|]; intros ? _
  | |- _ => wpr_step
  end.

Lemma wpr_trailing_fields tmp : wpr (trailing_fields tmp) (fun _ => True).
Proof. unfold trailing_fields. by repeat read_step. Qed.

(** The reader terminates on every input. *)
Lemma from_string_terminates src : from_string src <> Err OutOfFuel.
Proof.
  apply (wpr_no_fuel _ (fun _ => True)). unfold from_string.
  apply wpr_bind. eapply wpr_mono; [apply wpr_split_fields|]. intros tmp _.
  destruct (_ || _); [done|]. do 40 try read_step.
  eapply wpr_mono; [apply wpr_trailing_fields|]. by intros [[? ?] ?] _.
Qed.

Lemma no_char_commas c l :
  c <> ","%char -> Forall (fun s => no_char c s = true) l -> no_char c (commas l) = true.
Proof.
  intros Hc. induction 1 as [|s l Hs Hl IH]; [done|]. destruct l as [|s' l]; [done|].
  rewrite commas_cons by done. rewrite !no_char_app, Hs, IH. cbn [no_char].
  destruct (Ascii.eqb_spec ","%char c); [congruence|done].
Qed.

Lemma worker_text w :
  wf_wire w -> slen (inst_id w) <= MAX_INSTANCE_NAME_LEN -> slen (addr w) <= MAX_ADDRESS_LEN ->
  exists s, to_string w = Ok s /\ from_string s = Ok (wire_view w) /\ s <> "" /\
    forall c, is_digit c = false -> c <> ","%char -> c <> "|"%char ->
      no_char c (inst_id w) = true -> no_char c (addr w) = true -> no_char c s = true.
Proof.
  intros Hw Hi Ha. rewrite to_string_commas by done. eexists. split; [done|].
  pose proof (ww_worker _ Hw) as Hwf. split_and!.
  - apply from_string_base; [done| | |].
    + apply Forall_app. split; [repeat constructor; by apply no_char_dec|].
      case_decide; repeat constructor. apply (ww_addr _ Hw).
    + case_decide; simpl; unfold vsize; simpl; lia.
    + case_decide as E; [|by apply trailing_all]. rewrite E. by apply trailing_pack_kda.
  - cbn [base_fields app]. rewrite commas_cons by done. by destruct (inst_id w).
  - intros c Hd Hc Hb Hci Hca. apply no_char_commas; [done|]. rewrite !Forall_app. split_and!.
    + repeat constructor; try (by apply no_char_dec); try (by apply no_char_join_sizes); done.
    + repeat constructor; by apply no_char_dec.
    + case_decide; repeat constructor. done.
Qed.

Lemma to_string_lengths w s :
  to_string w = Ok s -> slen (inst_id w) <= MAX_INSTANCE_NAME_LEN /\ slen (addr w) <= MAX_ADDRESS_LEN.
Proof.
  unfold to_string. destruct (Z.ltb_spec MAX_INSTANCE_NAME_LEN (slen (inst_id w))); [done|].
  destruct (Z.eqb_spec (slen (addr w)) 0) as [E|E]; cbn [negb]; [intros _; rewrite E; by split|].
  by destruct (Z.ltb_spec MAX_ADDRESS_LEN (slen (addr w))).
Qed.

(** ** Theorems *)

(** C30: The text form of a worker: for a worker whose fields hold values of their C++ types
    and whose names contain no comma, to_string returns exactly when the instance name and
    the address respect their length limits, and from_string of the text gives back the
    serialized fields, with the local-only fields at their defaults and a zero pack size
    read as one; from_string terminates on every input. *)
Theorem worker_info_roundtrip (w : WorkerInfo) :
  wf_wire w ->
  (slen (inst_id w) <= MAX_INSTANCE_NAME_LEN -> slen (addr w) <= MAX_ADDRESS_LEN ->
     exists s, to_string w = Ok s /\ from_string s = Ok (wire_view w)) /\
  (MAX_INSTANCE_NAME_LEN < slen (inst_id w) \/ MAX_ADDRESS_LEN < slen (addr w) ->
     to_string w = Err RuntimeError) /\
  (forall src, from_string src <> Err OutOfFuel).
Proof.
  intros Hw. split_and!; [| |apply from_string_terminates].
  - intros Hi Ha. destruct (worker_text w Hw Hi Ha) as (s & Hs & Hr & _). by exists s.
  - intros Hlong. unfold to_string.
    destruct (Z.ltb_spec MAX_INSTANCE_NAME_LEN (slen (inst_id w))); [done|].
    destruct Hlong as [|Ha]; [lia|].
    destruct (Z.eqb_spec (slen (addr w)) 0) as [E|_]; [unfold MAX_ADDRESS_LEN in Ha; lia|].
    simpl. by destruct (Z.ltb_spec MAX_ADDRESS_LEN (slen (addr w))); [|lia].
Qed.

Definition wire_example : WorkerInfo :=
  wire_worker "decode-0" 3 8 3 [65536; 4096] [1024; 64] 2048 61 3 64 0 0 139264 "10.0.0.7:31221".

Lemma wf_wire_example : wf_wire wire_example.
Proof.
  constructor; [wf_concrete|unfold in32, W32; cbn; lia|cbn; lia|reflexivity|reflexivity].
Qed.

Lemma worker_info_roundtrip_witness :
  (exists s, to_string wire_example = Ok s /\ from_string s = Ok (wire_view wire_example)) /\
  to_string wire_example
    = Ok "decode-0,3,8,3,65536|4096,1024|64,2048,61,3,64,0,0,139264,10.0.0.7:31221".
Proof.
  split; [|vm_compute; reflexivity].
  apply (proj1 (worker_info_roundtrip wire_example wf_wire_example)); vm_compute; discriminate.
Defined.

(** Payloads of every earlier generation of the worker format are read as documented: with
    eleven fields, with an address only, with a pack size only, with a pack size and an
    address, the missing fields get their defaults. An address that consists of digits only
    is not recognised as one in the twelve-field form: it is read as a pack size. *)
Theorem older_payloads_are_read (w : WorkerInfo) (a : string) :
  wf_wire w -> no_char ","%char a = true -> is_numeric_token a = false ->
  from_string (commas (base_fields w)) = Ok (view_with w 1 0 "") /\
  from_string (commas (base_fields w ++ [a])) = Ok (view_with w 1 0 a) /\
  from_string (commas (base_fields w ++ [dec (attn_pack_size w)]))
    = Ok (view_with w (attn_pack_size w) 0 "") /\
  from_string (commas (base_fields w ++ [dec (attn_pack_size w); a]))
    = Ok (view_with w (attn_pack_size w) 0 a) /\
  (forall n, 0 <= n < W64 ->
     from_string (commas (base_fields w ++ [dec n])) = Ok (view_with w (u32 n) 0 "")).
Proof.
  intros Hw Ha Hn.
  assert (Hd : forall v, no_char ","%char (dec v) = true) by (intros; by apply no_char_dec).
  split_and!.
  - rewrite <- (app_nil_r (base_fields w)). by apply from_string_base.
  - apply from_string_base; eauto using trailing_addr. vm_compute. discriminate.
  - apply from_string_base; eauto using trailing_pack. vm_compute. discriminate.
  - apply from_string_base; eauto using trailing_pack_addr. vm_compute. discriminate.
  - intros n Hrange. apply from_string_base; eauto; [vm_compute; discriminate|].
    unfold trailing_fields, field32. change (vsize _) with 12. cbn [Z.eqb Pos.eqb base_fields app].
    rewrite (vec_idx_Some _ 11 (dec n)) by done. cbn [rbind].
    by rewrite is_numeric_dec, stoul_dec.
Qed.

Lemma older_payloads_are_read_witness :
  from_string (commas (base_fields wire_example ++ ["10.0.0.7:31221"]))
    = Ok (view_with wire_example 1 0 "10.0.0.7:31221").
Proof.
  exact (proj1 (proj2 (older_payloads_are_read wire_example "10.0.0.7:31221"
    wf_wire_example eq_refl eq_refl))).
Defined.
