(* ===== verification/EnvCfg.v ===== *)
(** The settings of [src/envcfg.cpp]: each getter reads its environment variable once and
    keeps the value.  The environment is a function from names to texts.  The getter of the
    share of SMs, a floating-point number, is not modelled. *)

From Stdlib Require Import Ascii.
From S2P Require Import Prelude.
From S2P Require Import Common.
From S2P Require Import CppString.

#[local] Arguments String.append !_ _ / : simpl nomatch.

(** ** Numbers *)

(** [atoi]: a text without digits is 0, a number that does not fit is undefined. *)
Definition atoi (s : string) : res Z :=
  let '(neg, s') := scan_sign (skip_space s) in
  if negb (starts_with_digit s') then Ok 0 else
  let v := if neg then - scan_digits s' 0 else scan_digits s' 0 in
  if (- 2 ^ 31 <=? v) && (v <? 2 ^ 31) then Ok v else Err Undefined.

(** [std::call_once] around an initialiser: the value kept, and the value returned. *)
Definition call_once {A} (init : A) (cell : option A) : option A * A :=
  match cell with Some v => (cell, v) | None => (Some init, init) end.

Section Getters.
Context (getenv : string -> option string).

(** [env2posint]. *)
Definition env_posint (env : string) (def : Z) : res Z :=
  match getenv env with
  | None => Ok (env2posint None def)
  | Some valstr => let* ret := atoi valstr in Ok (env2posint (Some ret) def)
  end.

Definition env_flag (env : string) (def : bool) : res bool :=
  let* v := env_posint env (if def then 1 else 0) in Ok (negb (v =? 0)).

Definition env_heap_prof : res Z := env_posint "BLLM_KVTRANS_HEAP_PROF" 0.
Definition env_send_parallel : res Z := env_posint "BLLM_KVTRANS_RDMA_SP" 1.
Definition env_ctx_tpsize : res Z := env_posint "BLLM_KVTRANS_CTX_TPSIZE" 4.
Definition env_conn_tpsize : res Z := env_posint "BLLM_KVTRANS_CONN_TPSIZE" 4.
Definition env_h2d_sync_tpsize : res Z := env_posint "BLLM_KVTRANS_H2D_SYNC_TPSIZE" 4.
Definition env_fsnaming_keepalive_interval_s : res Z := env_posint "BLLM_KVTRANS_FSNAMING_KEEPALIVE_S" 3.
Definition env_fsnaming_tolerate_interval_s : res Z := env_posint "BLLM_KVTRANS_FSNAMING_TOLERATE_S" 9.
Definition env_debug_tx_failrate : res Z := env_posint "BLLM_KVTRANS_DEBUG_TX_FAILRATE" 1.
Definition env_debug_tx_delay_ms : res Z := env_posint "BLLM_KVTRANS_DEBUG_TX_DELAYMS" 1.
Definition env_cache_shape_setting : res Z := env_posint "BLLM_KVTRANS_CACHE_SHAPE" 1.
Definition env_send_done_head_kind : res Z := env_posint "BLLM_KVTRANS_SDH_KIND" 2.
Definition env_rpc_timeout_s : res Z := env_posint "BLLM_KVTRANS_RPC_TIMEOUT_S" 7.
Definition env_crc : res Z := env_posint "BLLM_KVTRANS_CRC" 0.
Definition env_port_base : res Z := env_posint "BLLM_KVTRANS_PORT_BASE" 31218.
Definition env_send_tpsize : res Z := env_posint "BLLM_KVTRANS_SEND_TPSIZE" 16.
Definition env_txstub_cap : res Z := env_posint "BLLM_KVTRANS_TXSTUB_CAP" 640.
Definition env_waitlayer_tpsize : res Z := env_posint "BLLM_KVTRANS_WAITLAYER_TPSIZE" 2.
Definition env_shrink_tpsize : res Z := env_posint "BLLM_KVTRANS_SHRINK_TPSIZE" 1.
Definition env_attn_kernel_blk_size : res Z := env_posint "BLLM_KVTRANS_ATTN_KERNEL_BLK_SIZE" (-1).
Definition env_kernel_copy_max_block_num : res Z :=
  let* v := env_posint "BLLM_KVTRANS_KERNEL_COPY_MAX_BLOCK_NUM" 8192 in Ok (u64 v).
Definition env_bf162fp8_setting : res bool := env_flag "BLLM_KVTRANS_BF162FP8_CONV" false.
Definition env_pad_setting : res bool := env_flag "BLLM_KVTRANS_PAD_LAST_ATTN_BLOCK" true.
Definition env_rdma_staged : res bool := env_flag "BLLM_KVTRANS_RDMA_STAGED" false.

(** [env_nic_name]: an empty name counts as unset. *)
Definition env_nic_name : option string :=
  match getenv "BLADE_KVT_NIC_NAME" with
  | Some "" => None
  | v => v
  end.

(** ** Addresses *)
Record sockaddr_in := mkSockaddr { sin_port : Z; sin_addr : Z }.

(** [parse_addr] of "IP:PORT".  The port is converted to 16 bits; [inet_pton] reads the
    address. *)
Definition parse_addr (inet_pton : string -> option Z) (input : string) : res sockaddr_in :=
  match find ":"%char input 0 with
  | None => Err AssertFailed
  | Some colon_pos =>
      let* ip_str := substr input 0 colon_pos in
      let* port_str := substr_from input (S colon_pos) in
      let* port := stoi port_str in
      match inet_pton ip_str with
      | None => Err AssertFailed
      | Some a => Ok (mkSockaddr (port mod 2 ^ 16) a)
      end
  end.

Definition env_send_done_addr (inet_pton : string -> option Z) : res (option sockaddr_in) :=
  match getenv "BLLM_KVTRANS_SEND_DONE_ADDR" with
  | None => Ok None
  | Some addr_env => let* a := parse_addr inet_pton addr_env in Ok (Some a)
  end.

(** ** Reserved buffers *)

(** The loop of [parse_reserve] from [start]: what was found so far stays when a number is
    malformed. *)
Fixpoint parse_reserve_from (fuel : nat) (input : string) (start : nat) (out : list (Z * Z))
    : list (Z * Z) * res unit :=
  match fuel with
  | O => (out, Err OutOfFuel)
  | S fuel =>
      match find ";"%char input start with
      | None => (out, Ok tt)
      | Some stop =>
          match substr input start (stop - start) with
          | Err e => (out, Err e)
          | Ok part =>
              match find ","%char part 0 with
              | None => parse_reserve_from fuel input (S stop) out
              | Some idx =>
                  match (let* a := substr part 0 idx in let* mrsize := stoul a in
                         let* b := substr_from part (S idx) in let* mrcnt := stoi b in
                         Ok (mrsize, mrcnt)) with
                  | Err e => (out, Err e)
                  | Ok entry => parse_reserve_from fuel input (S stop) (out ++ [entry])
                  end
              end
          end
      end
  end.

Definition parse_reserve (input : string) : list (Z * Z) * res unit :=
  parse_reserve_from (S (String.length input)) input 0 [].

(** [env_reserve]: an exception is reported, and the entries before it are kept. *)
Definition env_reserve : res (list (Z * Z)) :=
  match getenv "BLLM_KVTRANS_RESERVE" with
  | None => Ok []
  | Some valenv =>
      let '(val, r) := parse_reserve valenv in
      match r with
      | Ok _ => Ok val
      | Err e => if is_exception e then Ok val else Err e
      end
  end.
End Getters.

(** ** Settings *)
Lemma atoi_digits s v :
  all_digits s = true -> s <> "" -> scan_digits s 0 = v -> 0 <= v < 2 ^ 31 -> atoi s = Ok v.
Proof.
  intros Hd Hne Hs Hv. destruct s as [|c s]; [done|]. unfold atoi. simpl in Hd. apply andb_true_iff in Hd as [Hc Hd].
  destruct (digit_not_blank c Hc) as (Hsp & Hm & Hp). cbn [skip_space]. rewrite Hsp. cbn [scan_sign].
  rewrite Hm, Hp. cbn [starts_with_digit]. rewrite Hc. cbn [negb]. rewrite Hs.
  by rewrite (proj2 (Z.leb_le _ _)), (proj2 (Z.ltb_lt _ _)) by lia.
Qed.

Lemma atoi_dec v : 0 <= v < 2 ^ 31 -> atoi (dec v) = Ok v.
Proof. intros Hv. apply atoi_digits; [apply dec_digits|apply dec_nonempty|apply scan_dec; lia|done]. Qed.

Lemma stoi_dec v : 0 <= v < 2 ^ 31 -> stoi (dec v) = Ok v.
Proof.
  intros Hv. pose proof (dec_digits v) as Hd. pose proof (dec_nonempty v) as Hne.
  pose proof (scan_dec v (proj1 Hv)) as Hs. destruct (dec v) as [|c s] eqn:E; [done|].
  unfold stoi. simpl in Hd. apply andb_true_iff in Hd as [Hc Hd].
  destruct (digit_not_blank c Hc) as (Hsp & Hm & Hp). cbn [skip_space]. rewrite Hsp. cbn [scan_sign].
  rewrite Hm, Hp. cbn [starts_with_digit]. rewrite Hc. cbn [negb]. rewrite Hs.
  by rewrite (proj2 (Z.leb_le _ _)), (proj2 (Z.ltb_lt _ _)) by lia.
Qed.

Lemma atoi_range s v : atoi s = Ok v -> - 2 ^ 31 <= v < 2 ^ 31.
Proof.
  unfold atoi. destruct (scan_sign _) as [neg s']. destruct (negb _); [intros [= <-]; lia|].
  destruct (_ && _) eqn:Hb; [|done]. intros [= <-]. apply andb_true_iff in Hb as [?%Z.leb_le ?%Z.ltb_lt]. done.
Qed.

Lemma env_posint_range getenv env def v : env_posint getenv env def = Ok v -> v = def \/ 0 < v < 2 ^ 31.
Proof.
  unfold env_posint. destruct (getenv env) as [s|]; [|intros [= <-]; by left].
  destruct (atoi s) as [r|] eqn:Ha; [|done]. cbn [rbind env2posint]. apply atoi_range in Ha.
  destruct (Z.leb_spec r 0); intros [= <-]; [by left|right; lia].
Qed.

(** Every integer setting is its default or a positive 32-bit number, whatever the variable
    holds; a flag that defaults to true cannot be switched off. *)
Theorem settings_are_positive_or_default getenv env def :
  (getenv env = None -> env_posint getenv env def = Ok def) /\
  (forall v, 0 < v < 2 ^ 31 -> getenv env = Some (dec v) -> env_posint getenv env def = Ok v) /\
  (forall s r, getenv env = Some s -> atoi s = Ok r -> r <= 0 -> env_posint getenv env def = Ok def) /\
  (forall v, env_posint getenv env def = Ok v -> v = def \/ 0 < v < 2 ^ 31) /\
  env_flag getenv env true <> Ok false.
Proof.
  split_and!; [| | |apply env_posint_range|].
  - intros E. unfold env_posint. by rewrite E.
  - intros v Hlt E. unfold env_posint. rewrite E, atoi_dec by lia. cbn [rbind env2posint].
    by destruct (Z.leb_spec v 0); [lia|].
  - intros s r E Ha Hr. unfold env_posint. rewrite E, Ha. cbn [rbind env2posint]. by destruct (Z.leb_spec r 0); [|lia].
  - unfold env_flag. destruct (env_posint getenv env 1) as [v|] eqn:E; [|done]. cbn [rbind].
    apply env_posint_range in E. intros [= Hf]. destruct (Z.eqb_spec v 0); [lia|done].
Qed.

Lemma settings_are_positive_or_default_witness :
  env_port_base (fun n => if String.eqb n "BLLM_KVTRANS_PORT_BASE" then Some "40000" else None) = Ok 40000 /\
  env_port_base (fun _ => None) = Ok 31218 /\ env_pad_setting (fun _ => Some "0") = Ok true.
Proof.
  split_and!; [|apply (proj1 (settings_are_positive_or_default (fun _ => None) "BLLM_KVTRANS_PORT_BASE" 31218)); reflexivity|reflexivity].
  apply (settings_are_positive_or_default
    (fun n => if String.eqb n "BLLM_KVTRANS_PORT_BASE" then Some "40000" else None) "BLLM_KVTRANS_PORT_BASE" 31218);
    [lia|reflexivity].
Defined.

(** ** Reserved buffers, printed and read back *)
Definition reserve_text (entries : list (Z * Z)) : string :=
  foldr (fun e s => dec e.1 +:+ "," +:+ dec e.2 +:+ ";" +:+ s) "" entries.

Lemma reserve_text_length entries : (length entries <= String.length (reserve_text entries))%nat.
Proof.
  induction entries as [|e l IH]; [simpl; lia|]. cbn [reserve_text foldr length]. fold (reserve_text l).
  rewrite !slength_app. simpl String.length. lia.
Qed.

Definition entry_in_range (e : Z * Z) : Prop := 0 <= e.1 < W64 /\ 0 <= e.2 < 2 ^ 31.

Lemma parse_reserve_loop pre entries rest out fuel :
  Forall entry_in_range entries -> no_char ";"%char rest = true -> (length entries < fuel)%nat ->
  parse_reserve_from fuel (pre +:+ reserve_text entries +:+ rest) (String.length pre) out = (out ++ entries, Ok tt).
Proof.
  intros He Hr. revert pre out fuel. induction He as [|[size cnt] l [Hs Hc] He IH]; intros pre out fuel Hf.
  - destruct fuel as [|fuel]; [simpl in Hf; lia|]. cbn [parse_reserve_from reserve_text foldr].
    rewrite find_skip. change ("" +:+ rest) with rest. rewrite find_none by done. by rewrite app_nil_r.
  - destruct fuel as [|fuel]; [simpl in Hf; lia|]. cbn [reserve_text foldr fst snd]. fold (reserve_text l).
    cbn [fst snd] in Hs, Hc. set (part := dec size +:+ "," +:+ dec cnt).
    replace (pre +:+ (dec size +:+ "," +:+ dec cnt +:+ ";" +:+ reserve_text l) +:+ rest)
      with (pre +:+ part +:+ String ";"%char (reserve_text l +:+ rest))
      by (unfold part; rewrite !sapp_assoc; done).
    cbn [parse_reserve_from].
    assert (no_char ";"%char part = true) as Hnp.
    { unfold part. rewrite !no_char_app, !no_char_dec by done. done. }
    rewrite find_skip, find_hit by done. cbn [fmap option_fmap option_map].
    replace (String.length pre + String.length part - String.length pre)%nat with (String.length part) by lia.
    rewrite substr_mid.
    unfold part at 1. change ("," +:+ dec cnt) with (String ","%char (dec cnt)). rewrite find_hit by (by apply no_char_dec).
    assert (substr part 0 (String.length (dec size)) = Ok (dec size)) as ->
      by (unfold part; apply (substr_mid "" (dec size))).
    cbn [rbind]. rewrite stoul_dec by done. cbn [rbind].
    assert (substr_from part (S (String.length (dec size))) = Ok (dec cnt)) as ->.
    { unfold part. rewrite <- sapp_assoc. replace (S (String.length (dec size))) with (String.length (dec size +:+ ","));
        [apply substr_from_tail|rewrite slength_app; simpl; lia]. }
    cbn [rbind]. rewrite stoi_dec by done. cbn [rbind].
    replace (pre +:+ part +:+ String ";"%char (reserve_text l +:+ rest))
      with ((pre +:+ part +:+ ";") +:+ reserve_text l +:+ rest) by (rewrite !sapp_assoc; done).
    replace (S (String.length pre + String.length part)) with (String.length (pre +:+ part +:+ ";"))
      by (rewrite !slength_app; simpl; lia).
    rewrite IH by (simpl in Hf; lia). by rewrite <- app_assoc.
Qed.

(** The reservation list is read back from the text it is documented to have, entry by
    entry. *)
Theorem reserve_setting_roundtrip entries rest :
  Forall entry_in_range entries -> no_char ";"%char rest = true ->
  parse_reserve (reserve_text entries +:+ rest) = (entries, Ok tt).
Proof.
  intros He Hr. unfold parse_reserve. apply (parse_reserve_loop "" entries rest []); [done..|].
  rewrite slength_app. pose proof (reserve_text_length entries). lia.
Qed.

Lemma reserve_setting_roundtrip_witness :
  parse_reserve ("4096,8000;8192,1000;" +:+ "16384,10") = ([(4096, 8000); (8192, 1000)], Ok tt).
Proof.
  apply (reserve_setting_roundtrip [(4096, 8000); (8192, 1000)] "16384,10"); [|reflexivity].
  repeat constructor; cbn; unfold W64; lia.
Defined.
