(* ===== verification/Naming.v ===== *)
(** Worker naming ([include/naming.h], [src/naming.cpp], [src/filesys_naming.cpp],
    [src/tcpstore_naming.cpp]): how a worker publishes its [WorkerInfo] and how the sending
    side finds it.

    [NamingStore] is what the client of the workers needs of a naming service; the directory
    tree of [FileSysNaming] and a TCP store implement it.  Names of instances and files are
    single path components; other entries of the naming directory, and I/O errors other than
    a missing directory or file, are left out.  The client of the EAS service is in
    [EasNaming]. *)

From Stdlib Require Import Ascii.
From stdpp Require Import gmap strings.
From S2P Require Import Prelude.
From S2P Require Import Common.
From S2P Require Import CppString.
From S2P Require Import WorkerCodec.

#[local] Arguments String.append !_ _ / : simpl nomatch.

(** ** The interface *)

(** [store] of the client of an instance, and [get] of anybody's. *)
Class NamingStore (W : Type) := {
  naming_store : string -> string -> string -> W -> res W;
  naming_get : string -> string -> W -> res (option string);
}.

Class NamingLaws (W : Type) `{NamingStore W} := {
  key_ok : string -> Prop;
  value_ok : string -> Prop;
  naming_store_get : forall inst k v w w', key_ok k -> value_ok v ->
    naming_store inst k v w = Ok w' -> naming_get inst k w' = Ok (Some v);
  naming_store_frame : forall inst k v inst' k' w w', key_ok k -> key_ok k' ->
    (inst, k) <> (inst', k') -> naming_store inst k v w = Ok w' -> naming_get inst' k' w' = naming_get inst' k' w;
}.

(** ** [WorkerNamingClient] *)
Section Workers.
Context {W : Type} `{NamingStore W}.

Definition worker_key (wid : Z) : string := "worker_" +:+ dec wid.

Definition register_worker (inst : string) (worker_info : WorkerInfo) (w : W) : res W :=
  let* v := to_string worker_info in
  naming_store inst (worker_key (worker_id worker_info)) v w.

Definition get_worker_info (name : string) (wid : Z) (w : W) : res (option WorkerInfo) :=
  let* worker_value := naming_get name (worker_key wid) w in
  match worker_value with
  | Some s => let* info := from_string s in Ok (Some info)
  | None => Ok None
  end.

Lemma worker_key_inj i j : in32 i -> in32 j -> worker_key i = worker_key j -> i = j.
Proof.
  unfold in32, W32, worker_key. intros Hi Hj E. apply (dec_inj i j); [lia..|].
  cbn in E. by repeat (injection E as E).
Qed.

(** Worker naming over any store that keeps its interface's laws: after register_worker,
    get_worker_info of that worker returns the serialized view of the record, and every
    other worker of every instance is found as before. The laws are proved for the
    file-system store and the TCP store. *)
Theorem registered_worker_is_found `{!NamingLaws W} inst info w w' :
  wf_wire info -> slen (inst_id info) <= MAX_INSTANCE_NAME_LEN -> slen (addr info) <= MAX_ADDRESS_LEN ->
  (forall wid, in32 wid -> key_ok (worker_key wid)) -> (forall s, to_string info = Ok s -> value_ok s) ->
  register_worker inst info w = Ok w' ->
  get_worker_info inst (worker_id info) w' = Ok (Some (wire_view info)) /\
  forall inst' wid, in32 wid -> (inst', wid) <> (inst, worker_id info) ->
    get_worker_info inst' wid w' = get_worker_info inst' wid w.
Proof.
  intros Hw Hi Ha Hk Hv. unfold register_worker. destruct (worker_text info Hw Hi Ha) as (s & Hs & Hr & _).
  rewrite Hs. cbn [rbind]. intros Hst. pose proof (ww_worker_id _ Hw) as Hid. split.
  - unfold get_worker_info. rewrite (naming_store_get _ _ _ _ _ (Hk _ Hid) (Hv _ Hs) Hst). cbn [rbind]. by rewrite Hr.
  - intros inst' wid Hwid Hne. unfold get_worker_info.
    rewrite (naming_store_frame inst (worker_key (worker_id info)) s inst' (worker_key wid) w w'); try done; auto.
    intros [<- E%worker_key_inj]%pair_equal_spec; [|done..]. apply Hne. by rewrite E.
Qed.
End Workers.

(** ** [FileSysNaming] *)

(** The directories of the instances, with the contents of their files. *)
Abbreviation FS := (gmap string (gmap string string)).

Inductive fs_op :=
| FsCreate (dir name : string)                  (* mkstemp *)
| FsOpen (dir name : string)                    (* ofstream, truncating *)
| FsAppend (dir name : string) (c : Ascii.ascii) (* a byte the stream writes *)
| FsRename (dir from to : string)
| FsRemove (dir name : string).

Definition exec_op (op : fs_op) (fs : FS) : res FS :=
  match op with
  | FsCreate dir name =>
      match fs !! dir with
      | Some d => if bool_decide (d !! name = None) then Ok (<[dir := <[name := ""]> d]> fs) else Err RuntimeError
      | None => Err RuntimeError
      end
  | FsOpen dir name =>
      match fs !! dir with
      | Some d => Ok (<[dir := <[name := ""]> d]> fs)
      | None => Err RuntimeError
      end
  | FsAppend dir name c =>
      match fs !! dir with
      | Some d => match d !! name with
                  | Some old => Ok (<[dir := <[name := old +:+ String c ""]> d]> fs)
                  | None => Err RuntimeError
                  end
      | None => Err RuntimeError
      end
  | FsRename dir from to =>
      match fs !! dir with
      | Some d => match d !! from with
                  | Some c => Ok (<[dir := <[to := c]> (delete from d)]> fs)
                  | None => Err RuntimeError
                  end
      | None => Err RuntimeError
      end
  | FsRemove dir name =>
      match fs !! dir with
      | Some d => if bool_decide (d !! name = None) then Err RuntimeError else Ok (<[dir := delete name d]> fs)
      | None => Err RuntimeError
      end
  end.

Definition newline : Ascii.ascii := Ascii.ascii_of_nat 10.

(** [std::getline]. *)
Fixpoint first_line (s : string) : string :=
  match s with
  | EmptyString => ""
  | String c s => if Ascii.eqb c newline then "" else String c (first_line s)
  end.

Definition TIMESTAMP : string := "_timestamp_".
Definition temp_path (path sfx : string) : string := path +:+ ".tmp" +:+ sfx.

(** [tmp_out << content << std::endl], and what it puts into the file: the stream may write
    the text in any pieces, so it is taken byte by byte, which passes through every state
    that a larger piece would. *)
Definition stream_ops (inst name text : string) : list fs_op :=
  FsOpen inst name :: (FsAppend inst name <$> String.list_ascii_of_string text).

(** [write_file], as the file operations it performs in turn. *)
Definition write_file_ops (inst sfx path content : string) : list fs_op :=
  FsCreate inst (temp_path path sfx) ::
  stream_ops inst (temp_path path sfx) (content +:+ String newline "") ++
  [FsRename inst (temp_path path sfx) path].

Definition exec_ops (ops : list fs_op) (fs : FS) : res FS := forM ops exec_op fs.

Section FileSys.
(** The name [mkstemp] finds, if it finds one. *)
Context (mkstemp : FS -> string -> string -> option string).

Definition write_file (inst path content : string) (fs : FS) : res FS :=
  match mkstemp fs inst path with
  | None => Err RuntimeError
  | Some sfx => exec_ops (write_file_ops inst sfx path content) fs
  end.

Definition fs_store (inst k v : string) (fs : FS) : res FS :=
  match find "/"%char k 0 with
  | Some _ => Err RuntimeError
  | None => write_file inst k v fs
  end.

Definition fs_get (inst_n k : string) (fs : FS) : res (option string) :=
  Ok (d ← fs !! inst_n; c ← d !! k; if String.eqb (first_line c) "" then None else Some (first_line c)).

(** [search]: the order of a directory is unspecified. *)
Definition fs_search (inst_n pre : string) (fs : FS) : list string :=
  match fs !! inst_n with
  | None => []
  | Some d => omap (fun kc : string * string =>
      if String.prefix pre kc.1 && negb (String.eqb (first_line kc.2) "") then Some (first_line kc.2) else None)
      (map_to_list d)
  end.

Definition fs_remove (inst key : string) (fs : FS) : res FS := exec_op (FsRemove inst key) fs.

(** [connect] under an existing naming directory: the tree, and whether the keep-alive thread
    was started. *)
Definition fs_connect (path_exists : bool) (inst : string) (now : Z) (fs : FS) : res (FS * bool) :=
  if negb path_exists then Err RuntimeError else
  match fs !! inst with
  | Some _ => Ok (fs, false)
  | None => let* fs := write_file inst TIMESTAMP (dec now) (<[inst := ∅]> fs) in Ok (fs, true)
  end.

(** One round of the keep-alive thread. *)
Definition keep_alive (inst : string) (now : Z) (fs : FS) : res FS := write_file inst TIMESTAMP (dec now) fs.

(** The instance of a directory in a refreshed [list]. *)
Definition listed (now tolerate_s : Z) (fs : FS) (inst_name : string) : res bool :=
  let* opt := fs_get inst_name TIMESTAMP fs in
  match opt with
  | None => Ok false
  | Some text =>
      match stol text with
      | Err e => if is_exception e then Ok false else Err e
      | Ok last_report =>
          if last_report >=? now then Ok true else
          if 2 ^ 63 <=? now - last_report then Err Undefined else
          Ok (now - last_report <? tolerate_s)
      end
  end.

Record FileSysNaming := mkFileSysNaming { list_cache_ : list string; timer_ms : Z }.

Definition refreshed_list (now tolerate_s : Z) (fs : FS) : res (list string) :=
  forM (map_to_list fs).*1 (fun inst_name out =>
    let* good := listed now tolerate_s fs inst_name in
    Ok (if good then out ++ [inst_name] else out)) [].

(** [list]: at the steady time [clock_ms] and the Unix time [now]. *)
Definition fs_list (clock_ms now tolerate_s : Z) (fs : FS) (c : FileSysNaming) : res (FileSysNaming * list string) :=
  let elapse := clock_ms - timer_ms c in
  if (vsize (list_cache_ c) =? 0) || (2000 <? elapse) then
    let* l := refreshed_list now tolerate_s fs in Ok (mkFileSysNaming l clock_ms, l)
  else Ok (c, list_cache_ c).
End FileSys.

(** ** Files *)
Definition contents (fs : FS) (inst k : string) : option string := d ← fs !! inst; d !! k.

Lemma fs_get_contents inst k fs :
  fs_get inst k fs = Ok (c ← contents fs inst k; if String.eqb (first_line c) "" then None else Some (first_line c)).
Proof. unfold fs_get, contents. by destruct (fs !! inst). Qed.

Lemma contents_insert fs inst d inst' k :
  contents (<[inst := d]> fs) inst' k = if bool_decide (inst = inst') then d !! k else contents fs inst' k.
Proof.
  unfold contents. case_bool_decide as E; [subst; by rewrite lookup_insert_eq|by rewrite lookup_insert_ne].
Qed.

(** What an operation leaves at a name. *)
Definition after_op (op : fs_op) (fs : FS) (inst k : string) : option string :=
  match op with
  | FsCreate dir name => if decide (dir = inst /\ name = k) then Some "" else contents fs inst k
  | FsOpen dir name => if decide (dir = inst /\ name = k) then Some "" else contents fs inst k
  | FsAppend dir name c =>
      if decide (dir = inst /\ name = k) then (fun old => old +:+ String c "") <$> contents fs inst k
      else contents fs inst k
  | FsRename dir from to =>
      if decide (dir = inst /\ to = k) then contents fs inst from
      else if decide (dir = inst /\ from = k) then None else contents fs inst k
  | FsRemove dir name => if decide (dir = inst /\ name = k) then None else contents fs inst k
  end.

Lemma exec_op_contents op fs fs' inst k :
  exec_op op fs = Ok fs' -> contents fs' inst k = after_op op fs inst k.
Proof.
  destruct op as [dir name|dir name|dir name c|dir from to|dir name]; cbn [exec_op after_op];
    (destruct (fs !! dir) as [d|] eqn:Hd; [|done]).
  - case_bool_decide; [|done]. intros [= <-]. rewrite contents_insert. case_bool_decide as E; [subst|by rewrite decide_False by tauto].
    destruct (decide (name = k)) as [->|Hne]; [by rewrite lookup_insert_eq, decide_True|].
    rewrite lookup_insert_ne, decide_False by tauto. unfold contents. by rewrite Hd.
  - intros [= <-]. rewrite contents_insert. case_bool_decide as E; [subst|by rewrite decide_False by tauto].
    destruct (decide (name = k)) as [->|Hne]; [by rewrite lookup_insert_eq, decide_True|].
    rewrite lookup_insert_ne, decide_False by tauto. unfold contents. by rewrite Hd.
  - destruct (d !! name) as [old|] eqn:Hn; [|done]. intros [= <-]. rewrite contents_insert.
    case_bool_decide as E; [subst|by rewrite decide_False by tauto]. unfold contents. rewrite Hd. cbn.
    destruct (decide (name = k)) as [->|Hne]; [by rewrite lookup_insert_eq, decide_True, Hn|].
    by rewrite lookup_insert_ne, decide_False by tauto.
  - destruct (d !! from) as [c|] eqn:Hf; [|done]. intros [= <-]. rewrite contents_insert.
    case_bool_decide as E; [subst|by rewrite !decide_False by tauto].
    destruct (decide (to = k)) as [->|Hne].
    + rewrite decide_True, lookup_insert_eq by done. unfold contents. rewrite Hd. cbn. by rewrite Hf.
    + rewrite (decide_False (P := inst = inst /\ to = k)), lookup_insert_ne by tauto. unfold contents. rewrite Hd. cbn.
      destruct (decide (from = k)) as [->|Hfk]; [by rewrite lookup_delete_eq, decide_True|].
      by rewrite lookup_delete_ne, decide_False by tauto.
  - case_bool_decide; [done|]. intros [= <-]. rewrite contents_insert.
    case_bool_decide as E; [subst|by rewrite decide_False by tauto].
    destruct (decide (name = k)) as [->|Hne]; [by rewrite lookup_delete_eq, decide_True|].
    rewrite lookup_delete_ne, decide_False by tauto. unfold contents. by rewrite Hd.
Qed.

Lemma temp_path_ne path sfx : temp_path path sfx <> path.
Proof.
  intros E. apply (f_equal String.length) in E. unfold temp_path in E. rewrite !slength_app in E. simpl in E. lia.
Qed.

Lemma first_line_all s : no_char newline s = true -> first_line (s +:+ String newline "") = s.
Proof.
  induction s as [|c s IH]; [done|]. cbn [no_char]. intros [Hc Hs]%andb_prop. apply negb_true_iff in Hc.
  cbn [String.append first_line]. by rewrite Hc, IH.
Qed.

(** The text of the first [n] bytes. *)
Definition text_prefix (n : nat) (s : string) : string :=
  String.string_of_list_ascii (take n (String.list_ascii_of_string s)).

Lemma string_of_snoc l c : String.string_of_list_ascii (l ++ [c]) = String.string_of_list_ascii l +:+ String c "".
Proof. induction l as [|a l IH]; [done|]. cbn. by rewrite IH. Qed.

Lemma text_prefix_S n s c :
  String.list_ascii_of_string s !! n = Some c -> text_prefix (S n) s = text_prefix n s +:+ String c "".
Proof. intros Hc. unfold text_prefix. by rewrite (take_S_r _ _ _ Hc), string_of_snoc. Qed.

Lemma text_prefix_all n s : (length (String.list_ascii_of_string s) <= n)%nat -> text_prefix n s = s.
Proof. intros Hn. unfold text_prefix. rewrite take_ge by done. apply String.string_of_list_ascii_of_string. Qed.

(** Writing bytes to a file that is there. *)
Lemma append_contents dir name l fs fs' :
  forM (FsAppend dir name <$> l) exec_op fs = Ok fs' ->
  forall inst k, contents fs' inst k =
    if decide (dir = inst /\ name = k) then (fun old => old +:+ String.string_of_list_ascii l) <$> contents fs inst k
    else contents fs inst k.
Proof.
  revert fs. induction l as [|c l IH]; intros fs Hf inst k; cbn [fmap list_fmap forM] in Hf.
  { injection Hf as <-. case_decide; [|done]. destruct (contents fs inst k) as [old|]; [|done]. cbn. by rewrite sapp_nil. }
  destruct (exec_op _ fs) as [f1|] eqn:E1; [|done]. cbn [rbind] in Hf. rewrite (IH f1 Hf), (exec_op_contents _ _ _ _ _ E1).
  cbn [after_op]. case_decide; [|done]. destruct (contents fs inst k) as [old|]; [|done]. cbn. by rewrite sapp_assoc.
Qed.

Lemma stream_contents dir name text fs fs' :
  forM (stream_ops dir name text) exec_op fs = Ok fs' ->
  forall inst k, contents fs' inst k = if decide (dir = inst /\ name = k) then Some text else contents fs inst k.
Proof.
  unfold stream_ops. cbn [forM]. destruct (exec_op _ fs) as [f1|] eqn:E1; [|done]. cbn [rbind]. intros Hf inst k.
  rewrite (append_contents _ _ _ _ _ Hf), (exec_op_contents _ _ _ _ _ E1). cbn [after_op]. case_decide; [|done].
  cbn. by rewrite String.string_of_list_ascii_of_string.
Qed.

(** ** The directory tree is a naming store *)
Section FileSysLaws.
Context (mkstemp : FS -> string -> string -> option string).

#[export] Instance fs_naming_store : NamingStore FS := {|
  naming_store := fs_store mkstemp;
  naming_get := fs_get;
|}.

Lemma write_file_contents inst path content fs fs' inst' k :
  write_file mkstemp inst path content fs = Ok fs' ->
  contents fs' inst' k =
  if decide (inst = inst' /\ path = k) then Some (content +:+ String newline "") else contents fs inst' k.
Proof.
  unfold write_file. destruct (mkstemp fs inst path) as [sfx|]; [|done]. unfold exec_ops, write_file_ops.
  set (tmp := temp_path path sfx). assert (tmp <> path) as Htp by apply temp_path_ne. cbn [forM].
  destruct (exec_op (FsCreate inst tmp) fs) as [f1|] eqn:E1; [|done]. cbn [rbind]. rewrite forM_app.
  destruct (forM (stream_ops inst tmp _) exec_op f1) as [f2|] eqn:E2; [|done]. cbn [rbind forM].
  destruct (exec_op (FsRename inst tmp path) f2) as [f3|] eqn:E3; [|done]. cbn [rbind]. intros [= <-].
  assert (contents fs inst tmp = None) as Hnew.
  { unfold exec_op, contents in *. destruct (fs !! inst) as [d|]; [|done]. cbn. by case_bool_decide. }
  rewrite (exec_op_contents _ _ _ _ _ E3). cbn [after_op]. rewrite !(stream_contents _ _ _ _ _ E2).
  rewrite !(exec_op_contents _ _ _ _ _ E1). cbn [after_op].
  destruct (decide (inst = inst' /\ path = k)) as [[<- <-]|Hne].
  - by rewrite (decide_True (P := inst = inst /\ tmp = tmp)).
  - destruct (decide (inst = inst' /\ tmp = k)) as [[<- <-]|]; [by rewrite Hnew|done].
Qed.

#[export] Instance fs_naming_laws : NamingLaws FS.
Proof.
  refine {| key_ok k := no_char "/"%char k = true; value_ok v := v <> "" /\ no_char newline v = true |}.
  - intros inst k v w w' Hk [Hv Hn] Hs. cbn in *. unfold fs_store in Hs. rewrite find_none in Hs by done.
    rewrite fs_get_contents, (write_file_contents _ _ _ _ _ _ _ Hs), decide_True by done. cbn.
    rewrite first_line_all by done. by destruct (String.eqb_spec v "").
  - intros inst k v inst' k' w w' Hk Hk' Hne Hs. cbn in *. unfold fs_store in Hs. rewrite find_none in Hs by done.
    rewrite !fs_get_contents, (write_file_contents _ _ _ _ _ _ _ Hs), decide_False; [done|]. intros [-> ->]. done.
Defined.

Lemma worker_key_fs wid : key_ok (worker_key wid).
Proof.
  change (no_char "/"%char ("worker_" +:+ dec wid) = true). by rewrite no_char_app, no_char_dec.
Qed.
End FileSysLaws.

(** ** Several writers at once

    The keep-alive thread and the callers of [store], in this and in other processes: each
    performs the operations of its [write_file] one by one, in any interleaving. *)
Record Writer := mkWriter {
  wr_inst : string;
  wr_sfx : string;
  wr_path : string;
  wr_content : string;
  wr_pc : nat;
}.

Definition wr_tmp (w : Writer) : string := temp_path (wr_path w) (wr_sfx w).
Definition wr_text (w : Writer) : string := wr_content w +:+ String newline "".
Definition wr_ops (w : Writer) : list fs_op := write_file_ops (wr_inst w) (wr_sfx w) (wr_path w) (wr_content w).
Definition advance (w : Writer) : Writer := mkWriter (wr_inst w) (wr_sfx w) (wr_path w) (wr_content w) (S (wr_pc w)).

Inductive writers_step : FS * list Writer -> FS * list Writer -> Prop :=
| writer_step fs ws i w op fs' :
    ws !! i = Some w -> wr_ops w !! wr_pc w = Some op -> exec_op op fs = Ok fs' ->
    writers_step (fs, ws) (fs', <[i := advance w]> ws).

(** No writer's temporary file is some writer's target. *)
Definition names_apart (ws : list Writer) : Prop :=
  forall i j w v, ws !! i = Some w -> ws !! j = Some v -> wr_inst w = wr_inst v -> wr_tmp w <> wr_path v.

Definition is_temp (ws : list Writer) (inst k : string) : Prop :=
  exists w, w ∈ ws /\ wr_inst w = inst /\ wr_tmp w = k.

(** Its temporary file is there: between creating and renaming it. *)
Definition wr_len (w : Writer) : nat := length (String.list_ascii_of_string (wr_text w)).
Definition active (w : Writer) : Prop := (1 <= wr_pc w <= S (S (wr_len w)))%nat.

Record writers_ok (fs0 : FS) (fs : FS) (ws : list Writer) : Prop := {
  wo_apart : names_apart ws;
  wo_temp : forall i w, ws !! i = Some w -> active w ->
    contents fs (wr_inst w) (wr_tmp w) = Some (text_prefix (wr_pc w - 2) (wr_text w));
  wo_distinct : forall i j w v, ws !! i = Some w -> ws !! j = Some v -> i <> j -> active w -> active v ->
    wr_inst w = wr_inst v -> wr_tmp w <> wr_tmp v;
  wo_files : forall inst k, ~ is_temp ws inst k ->
    contents fs inst k = contents fs0 inst k \/
    exists w, w ∈ ws /\ wr_inst w = inst /\ wr_path w = k /\ contents fs inst k = Some (wr_text w);
}.

(** Advancing a writer changes nothing but its counter. *)
Lemma advance_lookup (ws : list Writer) i w j v :
  ws !! i = Some w -> <[i := advance w]> ws !! j = Some v ->
  (j = i /\ v = advance w) \/ (j <> i /\ ws !! j = Some v).
Proof.
  intros Hi Hj. destruct (decide (j = i)) as [->|Hne].
  - left. rewrite list_lookup_insert_eq in Hj by (by eapply lookup_lt_Some). by injection Hj as <-.
  - right. rewrite list_lookup_insert_ne in Hj by done. done.
Qed.

Lemma advance_elem (ws : list Writer) i w v :
  ws !! i = Some w -> v ∈ ws ->
  exists v', v' ∈ <[i := advance w]> ws /\ wr_inst v' = wr_inst v /\ wr_tmp v' = wr_tmp v /\
    wr_path v' = wr_path v /\ wr_text v' = wr_text v.
Proof.
  intros Hi [j Hj]%list_elem_of_lookup. destruct (decide (j = i)) as [->|Hne].
  - exists (advance w). rewrite Hi in Hj. injection Hj as <-. split; [|done].
    eapply list_elem_of_lookup_2. apply list_lookup_insert_eq. by eapply lookup_lt_Some.
  - exists v. split; [|done]. eapply (list_elem_of_lookup_2 _ j). by rewrite list_lookup_insert_ne.
Qed.

Lemma advance_from (ws : list Writer) i w j v :
  ws !! i = Some w -> <[i := advance w]> ws !! j = Some v ->
  exists v0, ws !! j = Some v0 /\ wr_inst v0 = wr_inst v /\ wr_tmp v0 = wr_tmp v /\
    wr_path v0 = wr_path v /\ wr_text v0 = wr_text v.
Proof.
  intros Hi Hj. destruct (advance_lookup _ _ _ _ _ Hi Hj) as [[-> ->]|[_ Hv]]; [by exists w|by exists v].
Qed.

Lemma advance_apart (ws : list Writer) i w :
  ws !! i = Some w -> names_apart ws -> names_apart (<[i := advance w]> ws).
Proof.
  intros Hi Ha j k v u Hv Hu E.
  destruct (advance_from _ _ _ _ _ Hi Hv) as (v0 & Hv0 & Ei & Et & _).
  destruct (advance_from _ _ _ _ _ Hi Hu) as (u0 & Hu0 & Ei' & _ & Ep & _).
  rewrite <- Et, <- Ep. apply (Ha j k); [done..|congruence].
Qed.

Lemma advance_not_temp (ws : list Writer) i w inst k :
  ws !! i = Some w -> ~ is_temp (<[i := advance w]> ws) inst k -> ~ is_temp ws inst k.
Proof.
  intros Hi Hn (v & Hv & E1 & E2). destruct (advance_elem _ _ _ _ Hi Hv) as (v' & Hv' & Ei & Et & _).
  apply Hn. exists v'. split_and!; congruence.
Qed.

(** The next operation of a writer. *)
Lemma writer_op w op :
  wr_ops w !! wr_pc w = Some op ->
  (wr_pc w = 0%nat /\ op = FsCreate (wr_inst w) (wr_tmp w)) \/
  (wr_pc w = 1%nat /\ op = FsOpen (wr_inst w) (wr_tmp w)) \/
  (exists k c, wr_pc w = S (S k) /\ String.list_ascii_of_string (wr_text w) !! k = Some c /\
     op = FsAppend (wr_inst w) (wr_tmp w) c) \/
  (wr_pc w = S (S (wr_len w)) /\ op = FsRename (wr_inst w) (wr_tmp w) (wr_path w)).
Proof.
  unfold wr_ops, write_file_ops, stream_ops. fold (wr_text w). fold (wr_tmp w).
  destruct (wr_pc w) as [|[|k]]; [intros [= <-]; by left|intros [= <-]; right; by left|].
  cbn. intros [Hk|[Hk Hop]]%lookup_app_Some.
  - rewrite list_lookup_fmap in Hk. destruct (_ !! k) as [c|] eqn:Hc; [|done]. injection Hk as <-.
    right; right; left. by exists k, c.
  - rewrite length_fmap in Hk, Hop. fold (wr_len w) in Hk, Hop. apply list_lookup_singleton_Some in Hop as [Hz <-].
    do 3 right. split; [lia|done].
Qed.

(** A file that [mkstemp] creates was not there. *)
Lemma create_fresh dir name fs fs' : exec_op (FsCreate dir name) fs = Ok fs' -> contents fs dir name = None.
Proof. unfold exec_op, contents. destruct (fs !! dir) as [d|]; [|done]. cbn. by case_bool_decide. Qed.

(** Other writers' temporary files are left alone. *)
Lemma other_temp_kept fs0 fs ws i w j v op fs' :
  writers_ok fs0 fs ws -> ws !! i = Some w -> wr_ops w !! wr_pc w = Some op -> exec_op op fs = Ok fs' ->
  ws !! j = Some v -> j <> i -> active v ->
  contents fs' (wr_inst v) (wr_tmp v) = contents fs (wr_inst v) (wr_tmp v) /\
  (wr_inst w = wr_inst v -> wr_tmp w <> wr_tmp v).
Proof.
  intros [Ha Ht Hd _] Hi Hop He Hj Hji Hv. rewrite (exec_op_contents _ _ _ _ _ He).
  assert (wr_inst w = wr_inst v -> wr_tmp w <> wr_tmp v) as Hne.
  { destruct (decide (wr_pc w = 0%nat)) as [Hz|Hnz].
    - destruct (writer_op _ _ Hop) as [[_ ->]|[[? _]|[(? & ? & ? & _)|[? _]]]]; [|lia..].
      apply create_fresh in He. intros Ei Et. pose proof (Ht j v Hj Hv) as Hc. rewrite <- Ei, <- Et in Hc. congruence.
    - apply (Hd i j w v Hi Hj (not_eq_sym Hji)); [|done]. unfold active.
      destruct (writer_op _ _ Hop) as [[? _]|[[? _]|[(k & c & ? & Hk%lookup_lt_Some & _)|[? _]]]]; fold (wr_len w) in *; lia. }
  split; [|done].
  destruct (writer_op _ _ Hop) as [[Hpc ->]|[[Hpc ->]|[(k & c & Hpc & Hk & ->)|[Hpc ->]]]]; cbn [after_op];
    try by rewrite decide_False by tauto.
  rewrite !decide_False; [done|tauto|]. intros [Ei Ep]. by apply (Ha j i v w Hj Hi).
Qed.

Lemma writers_step_ok fs0 fs ws fs' ws' :
  writers_ok fs0 fs ws -> writers_step (fs, ws) (fs', ws') -> writers_ok fs0 fs' ws'.
Proof.
  intros Hok Hstep. inversion Hstep as [? ? i w op ? Hi Hop He E1 E2]. subst. clear Hstep.
  pose proof Hok as [Ha Ht Hd Hf]. split.
  - by apply advance_apart.
  - intros j v Hj Hv. destruct (advance_lookup _ _ _ _ _ Hi Hj) as [[-> ->]|[Hji Hj']].
    + change (wr_inst (advance w)) with (wr_inst w). change (wr_tmp (advance w)) with (wr_tmp w).
      change (wr_text (advance w)) with (wr_text w). change (wr_pc (advance w)) with (S (wr_pc w)) in *.
      rewrite (exec_op_contents _ _ _ _ _ He).
      unfold active in Hv. change (wr_pc (advance w)) with (S (wr_pc w)) in Hv. change (wr_len (advance w)) with (wr_len w) in Hv.
      destruct (writer_op _ _ Hop) as [[Hpc ->]|[[Hpc ->]|[(k & c & Hpc & Hk & ->)|[Hpc ->]]]]; cbn [after_op]; [| | |lia].
      * by rewrite decide_True, Hpc.
      * by rewrite decide_True, Hpc.
      * rewrite decide_True, (Ht i w Hi) by (done || unfold active; lia). rewrite Hpc.
        replace (S (S k) - 2)%nat with k by lia. replace (S (S (S k)) - 2)%nat with (S k) by lia.
        cbn [fmap option_fmap option_map]. by rewrite (text_prefix_S _ _ _ Hk).
    + destruct (other_temp_kept fs0 fs ws i w j v op fs') as [-> _]; try done. by apply (Ht j).
  - intros j k v u Hj Hk Hjk Hv Hu E. destruct (advance_lookup _ _ _ _ _ Hi Hj) as [[-> ->]|[Hji Hj']].
    + destruct (advance_lookup _ _ _ _ _ Hi Hk) as [[-> _]|[Hki Hk']]; [done|].
      by apply (other_temp_kept fs0 fs ws i w k u op fs').
    + destruct (advance_lookup _ _ _ _ _ Hi Hk) as [[-> ->]|[Hki Hk']]; [|by apply (Hd j k)].
      apply not_eq_sym. by apply (other_temp_kept fs0 fs ws i w j v op fs').
  - intros inst k Hn. apply (advance_not_temp _ _ _ _ _ Hi) in Hn as Hn'.
    assert (wr_inst w = inst -> wr_tmp w <> k) as Hwt.
    { intros Ei Et. apply Hn'. exists w. split; [by eapply list_elem_of_lookup_2|done]. }
    assert (contents fs inst k = contents fs0 inst k \/ exists v, v ∈ <[i := advance w]> ws /\ wr_inst v = inst /\
      wr_path v = k /\ contents fs inst k = Some (wr_text v)) as Hold.
    { destruct (Hf inst k Hn') as [?|(v & Hv & E1 & E2 & Hc)]; [by left|right].
      destruct (advance_elem _ _ _ _ Hi Hv) as (v' & Hv' & Ei & _ & Ep & Et). exists v'. split_and!; congruence. }
    rewrite (exec_op_contents _ _ _ _ _ He).
    destruct (writer_op _ _ Hop) as [[Hpc ->]|[[Hpc ->]|[(n & c & Hpc & Hn0 & ->)|[Hpc ->]]]]; cbn [after_op].
    + by rewrite decide_False by tauto.
    + by rewrite decide_False by tauto.
    + by rewrite decide_False by tauto.
    + case_decide as Hk; [|by rewrite decide_False by tauto]. destruct Hk as [<- <-]. right. exists (advance w). split_and!; try done.
      * eapply list_elem_of_lookup_2. apply list_lookup_insert_eq. by eapply lookup_lt_Some.
      * rewrite (Ht i w Hi) by (unfold active; lia). by rewrite text_prefix_all by (fold (wr_len w); lia).
Qed.


(** ** Listing *)
Lemma refreshed_list_spec now tolerate_s fs l :
  refreshed_list now tolerate_s fs = Ok l ->
  forall inst, inst ∈ l <-> is_Some (fs !! inst) /\ listed now tolerate_s fs inst = Ok true.
Proof.
  unfold refreshed_list. intros Hl inst.
  assert (is_Some (fs !! inst) <-> inst ∈ (map_to_list fs).*1) as ->.
  { split.
    - intros [d Hd]. apply list_elem_of_fmap. exists (inst, d). split; [done|]. by apply elem_of_map_to_list.
    - intros ([i d] & -> & Hd%elem_of_map_to_list)%list_elem_of_fmap. by exists d. }
  assert (forall names out, forM names (fun inst_name out =>
      let* good := listed now tolerate_s fs inst_name in Ok (if good then out ++ [inst_name] else out)) out = Ok l ->
    (inst ∈ l <-> inst ∈ out \/ (inst ∈ names /\ listed now tolerate_s fs inst = Ok true))) as Hgen.
  { induction names as [|n names IH]; intros out Hf; cbn [forM] in Hf; [injection Hf as <-; set_solver|].
    destruct (listed now tolerate_s fs n) as [good|] eqn:Hn; [|done]. cbn [rbind] in Hf. rewrite (IH _ Hf).
    destruct good; [set_solver|]. rewrite elem_of_cons. split; [tauto|].
    intros [?|[[->|?] Hx]]; [by left|congruence|by right]. }
  rewrite (Hgen _ _ Hl). set_solver.
Qed.

Section Connect.
Context (mkstemp : FS -> string -> string -> option string).

Lemma written_timestamp inst now fs fs' :
  write_file mkstemp inst TIMESTAMP (dec now) fs = Ok fs' -> fs_get inst TIMESTAMP fs' = Ok (Some (dec now)).
Proof.
  intros Hw. rewrite fs_get_contents, (write_file_contents _ _ _ _ _ _ _ _ Hw), decide_True by done. cbn.
  rewrite first_line_all by (by apply no_char_dec). pose proof (dec_nonempty now). by destruct (String.eqb_spec (dec now) "").
Qed.

Lemma listed_since t now tolerate_s inst fs :
  0 <= t < 2 ^ 63 -> 0 <= now < 2 ^ 63 -> fs_get inst TIMESTAMP fs = Ok (Some (dec t)) ->
  listed now tolerate_s fs inst = Ok ((now <=? t) || (now - t <? tolerate_s)).
Proof.
  intros Ht Hn Hg. unfold listed. rewrite Hg. cbn [rbind]. rewrite stol_dec by done. rewrite Z.geb_leb.
  destruct (Z.leb_spec now t); [done|]. cbn [orb]. by destruct (Z.leb_spec (2 ^ 63) (now - t)); [lia|].
Qed.

(** An instance that connects with a new directory is listed exactly while its last time
    stamp is younger than the tolerance, and each keep-alive renews it; an instance whose
    directory exists already writes no time stamp and starts no keep-alive. *)
Theorem instances_are_listed_while_fresh inst t now tolerate_s fs fs' started l :
  0 <= t < 2 ^ 63 -> 0 <= now < 2 ^ 63 -> 0 < tolerate_s ->
  fs_connect mkstemp true inst t fs = Ok (fs', started) ->
  (fs !! inst = None -> started = true /\
     (refreshed_list now tolerate_s fs' = Ok l -> inst ∈ l <-> now - t < tolerate_s) /\
     (forall t' fs'', 0 <= t' < 2 ^ 63 -> keep_alive mkstemp inst t' fs' = Ok fs'' ->
        refreshed_list now tolerate_s fs'' = Ok l -> inst ∈ l <-> now - t' < tolerate_s)) /\
  (is_Some (fs !! inst) -> started = false /\ fs' = fs).
Proof.
  intros Ht Hn Htol. unfold fs_connect. cbn [negb]. destruct (fs !! inst) as [d|] eqn:Hi.
  { intros [= <- <-]. split; [done|]. done. }
  destruct (write_file mkstemp inst TIMESTAMP (dec t) _) as [f1|] eqn:Hw; [|done]. cbn [rbind]. intros [= <- <-].
  split; [|by intros []]. intros _. split; [done|].
  assert (forall t' f g, 0 <= t' < 2 ^ 63 -> write_file mkstemp inst TIMESTAMP (dec t') f = Ok g ->
    refreshed_list now tolerate_s g = Ok l -> inst ∈ l <-> now - t' < tolerate_s) as Hgen.
  { intros t' f g Ht' Hw' Hl. rewrite (refreshed_list_spec _ _ _ _ Hl), (listed_since t') by (try done; by eapply written_timestamp).
    assert (is_Some (g !! inst)) as Hs.
    { pose proof (written_timestamp _ _ _ _ Hw') as Hg. unfold fs_get in Hg. destruct (g !! inst); [done|]. done. }
    destruct (Z.leb_spec now t'), (Z.ltb_spec (now - t') tolerate_s); cbn [orb]; split; try (intros; split; [done|done]); try lia.
    all: intros [_ [=]]. }
  split; [intros Hl; by eapply Hgen|]. intros t' fs'' Ht' Hk Hl. by eapply Hgen.
Qed.

(** An instance that is started again finds its directory: nobody renews its time stamp. *)
Lemma restarted_instance_expires inst t now tolerate_s fs fs' started l :
  0 <= t < 2 ^ 63 -> 0 <= now < 2 ^ 63 -> fs_get inst TIMESTAMP fs = Ok (Some (dec t)) ->
  fs_connect mkstemp true inst now fs = Ok (fs', started) -> 0 < tolerate_s <= now - t ->
  refreshed_list now tolerate_s fs' = Ok l -> started = false /\ inst ∉ l.
Proof.
  intros Ht Hn Hg. unfold fs_connect. cbn [negb]. destruct (fs !! inst) eqn:Hi.
  2: { unfold fs_get in Hg. rewrite Hi in Hg. done. }
  intros [= <- <-] Htol Hl. split; [done|]. rewrite (refreshed_list_spec _ _ _ _ Hl), (listed_since t) by done.
  destruct (Z.leb_spec now t); [lia|]. destruct (Z.ltb_spec (now - t) tolerate_s); [lia|]. by intros [_ [=]].
Qed.
End Connect.

(** ** [TCPStoreNaming] *)
Section TcpStore.
(** [c10d::TCPStore]: [get] of a missing key waits and then throws. *)
Context {S : Type} (tcp_set : string -> string -> S -> S) (tcp_get : string -> S -> res string)
  (tcp_delete : string -> S -> S).

Definition real_key (inst key : string) : string := inst +:+ "/" +:+ key.

Definition tcp_store (inst key v : string) (s : S) : res S := Ok (tcp_set (real_key inst key) v s).

Definition tcp_naming_get (inst k : string) (s : S) : res (option string) :=
  let* val := tcp_get (real_key inst k) s in
  Ok (if String.eqb val "" then None else Some val).

Definition tcp_remove (inst key : string) (s : S) : S := tcp_delete (real_key inst key) s.

(** [parse_url] of "//ip:port", with [atoi] of [EnvCfg]'s kind for the port. *)
Definition parse_url (atoi : string -> res Z) (url : string) : res (string * Z) :=
  match find ":"%char url 2 with
  | None => Err RuntimeError
  | Some pos =>
      let* ip := substr url 2 (pos - 2) in
      let* port_str := substr_from url (pos + 1) in
      let* port := atoi port_str in
      if port <=? 0 then Err RuntimeError else Ok (ip, port)
  end.

Definition tcp_naming_store : NamingStore S := {| naming_store := tcp_store; naming_get := tcp_naming_get |}.

Context (tcp_get_set : forall k v s, tcp_get k (tcp_set k v s) = Ok v)
  (tcp_get_other : forall k k' v s, k <> k' -> tcp_get k' (tcp_set k v s) = tcp_get k' s).

Lemma real_key_inj inst k inst' k' :
  no_char "/"%char k = true -> no_char "/"%char k' = true -> real_key inst k = real_key inst' k' -> inst = inst' /\ k = k'.
Proof.
  intros Hk Hk'. unfold real_key. revert inst'. induction inst as [|c inst IH]; intros [|c' inst'] E; cbn in E.
  - by injection E.
  - injection E as <- E. exfalso. rewrite E, no_char_app in Hk. cbn in Hk. by rewrite andb_false_r in Hk.
  - injection E as -> E. exfalso. rewrite <- E, no_char_app in Hk'. cbn in Hk'. by rewrite andb_false_r in Hk'.
  - injection E as -> E. destruct (IH _ E) as [-> ->]. done.
Qed.

Definition tcp_naming_laws : @NamingLaws S tcp_naming_store.
Proof.
  refine (@Build_NamingLaws S tcp_naming_store (fun k => no_char "/"%char k = true) (fun v => v <> "") _ _).
  - intros inst k v w w' Hk Hv [= <-]. cbn. unfold tcp_naming_get. rewrite tcp_get_set. cbn [rbind].
    by destruct (String.eqb_spec v "").
  - intros inst k v inst' k' w w' Hk Hk' Hne [= <-]. cbn. unfold tcp_naming_get.
    rewrite tcp_get_other; [done|]. intros [-> ->]%real_key_inj; done.
Defined.
End TcpStore.

(** ** [NamingManager] *)
Section Manager.
(** Creating and connecting a client for a schema. *)
Context {C : Type} (create : string -> string -> string -> res C).

Definition EAS_NAMING_SCHEMA : string := "eas".
Definition FILESYS_NAMING_SCHEMA : string := "file".
Definition factories_ : list string := [EAS_NAMING_SCHEMA; FILESYS_NAMING_SCHEMA].

(** [connect_naming]: the clients by url, and the client.  An unknown schema yields a client
    without an implementation. *)
Definition connect_naming (myname url : string) (clients : gmap string C) : gmap string C * res (option C) :=
  match clients !! url with
  | Some c => (clients, Ok (Some c))
  | None =>
      match find ":"%char url 0 with
      | None => (clients, Err RuntimeError)
      | Some pos =>
          match (let* schema := substr url 0 pos in
                 let* content := substr url (pos + 1) (String.length url) in Ok (schema, content)) with
          | Err e => (clients, Err e)
          | Ok (schema, content) =>
              if bool_decide (schema ∈ factories_) then
                match create schema myname content with
                | Err e => (clients, Err e)
                | Ok c => (<[url := c]> clients, Ok (Some c))
                end
              else (clients, Ok None)
          end
      end
  end.

(** A url has one client, whoever asks; a failure is not remembered. *)
Lemma connect_naming_once myname url m m' r :
  connect_naming myname url m = (m', r) ->
  match r with
  | Ok (Some c) => forall name', connect_naming name' url m' = (m', Ok (Some c))
  | _ => m' = m
  end.
Proof.
  unfold connect_naming. destruct (m !! url) as [c|] eqn:Hm.
  { intros [= <- <-]. intros ?. by rewrite Hm. }
  destruct (find _ _ _) as [pos|]; [|by intros [= <- <-]]. destruct (let* _ := _ in _) as [[schema content]|e]; [|by intros [= <- <-]].
  case_bool_decide; [|by intros [= <- <-]]. destruct (create _ _ _) as [c|e]; intros [= <- <-]; [|done].
  intros ?. by rewrite lookup_insert_eq.
Qed.
End Manager.

(** ** Examples *)
Definition sample_mkstemp (fs : FS) (inst path : string) : option string :=
  match fs !! inst with
  | Some d => if bool_decide (d !! temp_path path "aaaaaa" = None) then Some "aaaaaa" else None
  | None => None
  end.

Definition sample_tree : FS := {["decode-0" := ∅]}.

Definition sample_registered : FS :=
  match @register_worker FS (fs_naming_store sample_mkstemp) "decode-0" wire_example sample_tree with
  | Ok fs => fs
  | Err _ => ∅
  end.

Example sample_register_succeeds :
  @register_worker FS (fs_naming_store sample_mkstemp) "decode-0" wire_example sample_tree = Ok sample_registered.
Proof. vm_compute. reflexivity. Qed.

Lemma registered_worker_is_found_witness :
  @get_worker_info FS (fs_naming_store sample_mkstemp) "decode-0" 3 sample_registered = Ok (Some (wire_view wire_example)).
Proof.
  apply (@registered_worker_is_found FS (fs_naming_store sample_mkstemp) (fs_naming_laws sample_mkstemp)
    "decode-0" wire_example sample_tree sample_registered);
    [apply wf_wire_example|done|done|..|exact sample_register_succeeds].
  - intros wid _. apply worker_key_fs.
  - intros s Hs. vm_compute in Hs. injection Hs as <-. split; [done|reflexivity].
Defined.

Definition sample_writers : list Writer :=
  [mkWriter "decode-0" "aaaaaa" "worker_3" "new" 0; mkWriter "decode-0" "bbbbbb" TIMESTAMP "100" 0].

Definition half_written : FS := {["decode-0" := {["worker_3" := "old"; "worker_3.tmpaaaaaa" := "n"]}]}.


Definition sample_connected : FS :=
  match fs_connect sample_mkstemp true "prefill-1" 100 sample_tree with Ok (fs, _) => fs | Err _ => ∅ end.

Example new_instance_is_listed :
  fs_connect sample_mkstemp true "prefill-1" 100 sample_tree = Ok (sample_connected, true) /\
  refreshed_list 105 9 sample_connected = Ok ["prefill-1"] /\ refreshed_list 109 9 sample_connected = Ok [].
Proof. vm_compute. split_and!; reflexivity. Qed.

(** [search] for the workers of an instance also reads a file that is being written. *)
Example search_sees_temporary_file :
  length (fs_search "decode-0" "worker_" half_written) = 2%nat.
Proof. vm_compute. reflexivity. Qed.
