(* ===== verification/Json.v ===== *)
(** The JSON reader of the naming client ([include/thrid_party/json.h], functions [json_parse*],
    [json_get_*_size], [json_skip_*]).

    The reader makes two passes over the text.  The first one checks it and adds up how many
    bytes the structures ([dom_size]) and the characters ([data_size]) of the result take; the
    second one fills a single allocation of that size with two moving pointers, without any
    check of its own.  The text is a list of characters and a position is a [nat]; reading
    [src[i]] outside of the text, moving a pointer past the end of its part of the allocation,
    or leaving a field of the result unset is [Undefined].  The option bits ([flags_bitset])
    are an argument; the library's clients read with [json_parse], which passes none.

    Loops whose length depends on the text have an iteration budget above the length of the
    text, and the recursion through nested values a depth above it: every round and every
    level consumes a character. *)

From Stdlib Require Import Ascii String.
From stdpp Require Import gmap strings.
From S2P Require Import Prelude.
From S2P Require Import CppString.

Declare Scope json_scope.
Delimit Scope json_scope with json.
Infix "=c" := Ascii.eqb (at level 70, no associativity) : json_scope.
Local Open Scope json_scope.

(** ** Options and errors *)
Definition json_parse_flags_default : Z := 0.
Definition json_parse_flags_allow_trailing_comma : Z := 0x1.
Definition json_parse_flags_allow_unquoted_keys : Z := 0x2.
Definition json_parse_flags_allow_global_object : Z := 0x4.
Definition json_parse_flags_allow_equals_in_object : Z := 0x8.
Definition json_parse_flags_allow_no_commas : Z := 0x10.
Definition json_parse_flags_allow_c_style_comments : Z := 0x20.
Definition json_parse_flags_allow_location_information : Z := 0x80.
Definition json_parse_flags_allow_single_quoted_strings : Z := 0x100.
Definition json_parse_flags_allow_hexadecimal_numbers : Z := 0x200.
Definition json_parse_flags_allow_leading_plus_sign : Z := 0x400.
Definition json_parse_flags_allow_leading_or_trailing_decimal_point : Z := 0x800.
Definition json_parse_flags_allow_inf_and_nan : Z := 0x1000.
Definition json_parse_flags_allow_multi_line_strings : Z := 0x2000.

Definition has (flags f : Z) : bool := negb (Z.land f flags =? 0).

#[warnings="-register-all"]
Inductive json_parse_error_e :=
| json_parse_error_none
| json_parse_error_expected_comma_or_closing_bracket
| json_parse_error_expected_colon
| json_parse_error_expected_opening_quote
| json_parse_error_invalid_string_escape_sequence
| json_parse_error_invalid_number_format
| json_parse_error_invalid_value
| json_parse_error_premature_end_of_buffer
| json_parse_error_invalid_string
| json_parse_error_allocator_failed
| json_parse_error_unexpected_trailing_characters
| json_parse_error_unknown.

(** ** Results

    Where an element or a value stood in the text, recorded on request. *)
Record location := mkLoc { loc_offset : nat; loc_line_no : Z; loc_row_no : Z }.

#[warnings="-register-all"]
Inductive json_value_s :=
| json_string (s : string)
| json_number (s : string)
| json_object (l : list (option location * string * (option location * json_value_s)))
| json_array (l : list (option location * json_value_s))
| json_true
| json_false
| json_null.

(** Sizes of the structures on a 64-bit machine. *)
Definition sizeof_json_string_s : Z := 16.
Definition sizeof_json_string_ex_s : Z := 40.
Definition sizeof_json_number_s : Z := 16.
Definition sizeof_json_object_element_s : Z := 24.
Definition sizeof_json_object_s : Z := 16.
Definition sizeof_json_array_element_s : Z := 16.
Definition sizeof_json_array_s : Z := 16.
Definition sizeof_json_value_s : Z := 16.
Definition sizeof_json_value_ex_s : Z := 40.

(** ** The state of a pass: [dom] and [data] are offsets into the allocation. *)
Record json_parse_state_s := mkPS {
  offset : nat;
  data : Z;
  dom : Z;
  dom_size : Z;
  data_size : Z;
  line_no : Z;
  line_offset : nat;
  error : json_parse_error_e;
}.

Definition set_offset (o : nat) (st : json_parse_state_s) : json_parse_state_s :=
  mkPS o (data st) (dom st) (dom_size st) (data_size st) (line_no st) (line_offset st) (error st).
Definition set_error (e : json_parse_error_e) (st : json_parse_state_s) : json_parse_state_s :=
  mkPS (offset st) (data st) (dom st) (dom_size st) (data_size st) (line_no st) (line_offset st) e.
Definition set_line (o : nat) (st : json_parse_state_s) : json_parse_state_s :=
  mkPS (offset st) (data st) (dom st) (dom_size st) (data_size st) (line_no st + 1) o (error st).
Definition add_dom_size (n : Z) (st : json_parse_state_s) : json_parse_state_s :=
  mkPS (offset st) (data st) (dom st) (dom_size st + n) (data_size st) (line_no st) (line_offset st) (error st).
Definition add_data_size (n : Z) (st : json_parse_state_s) : json_parse_state_s :=
  mkPS (offset st) (data st) (dom st) (dom_size st) (data_size st + n) (line_no st) (line_offset st) (error st).
Definition set_dom (d : Z) (st : json_parse_state_s) : json_parse_state_s :=
  mkPS (offset st) (data st) d (dom_size st) (data_size st) (line_no st) (line_offset st) (error st).
Definition set_data (d : Z) (st : json_parse_state_s) : json_parse_state_s :=
  mkPS (offset st) d (dom st) (dom_size st) (data_size st) (line_no st) (line_offset st) (error st).

(** [state->offset += n]. *)
Definition advance (n : nat) (st : json_parse_state_s) : json_parse_state_s := set_offset (offset st + n) st.

(** [state->error = e; state->offset = o;] *)
Definition fail_at (e : json_parse_error_e) (o : nat) (st : json_parse_state_s) : json_parse_state_s :=
  set_offset o (set_error e st).

(** ** Characters *)
Definition json_hexadecimal_digit (c : ascii) : Z :=
  let n := Z.of_N (N_of_ascii c) in
  if (48 <=? n) && (n <=? 57) then n - 48
  else if (97 <=? n) && (n <=? 102) then n - 97 + 10
  else if (65 <=? n) && (n <=? 70) then n - 65 + 10
  else -1.

Definition is_xdigit (c : ascii) : bool := 0 <=? json_hexadecimal_digit c.

Definition is_valid_unquoted_key_char (c : ascii) : bool :=
  let n := N_of_ascii c in
  is_digit c || ((97 <=? n) && (n <=? 122))%N || ((65 <=? n) && (n <=? 90))%N || (c =c "_").

(** The whitespace of ECMA-404. *)
Definition is_json_space (c : ascii) : bool :=
  (c =c " ") || (c =c "013") || (c =c "009") || (c =c "010").

(** [(char) z]. *)
Definition chr (z : Z) : ascii := ascii_of_N (Z.to_N (z mod 256)).

Section Text.
Context (flags : Z) (src : list ascii).

Definition size : nat := length src.

(** [src[i]]. *)
Definition rd (i : nat) : res ascii :=
  match src !! i with Some c => Ok c | None => Err Undefined end.

(** [offset < size && p(src[offset])]. *)
Definition at_ (o : nat) (p : ascii -> bool) : bool :=
  match src !! o with Some c => p c | None => false end.

(** [while (offset < size && p(src[offset])) offset++;] *)
Fixpoint span (p : ascii -> bool) (l : list ascii) : nat :=
  match l with
  | c :: l => if p c then S (span p l) else O
  | [] => O
  end.
Definition scan_while (p : ascii -> bool) (o : nat) : nat := (o + span p (drop o src))%nat.

(** [k] characters of [word] at [o], within the text. *)
Fixpoint match_word (o : nat) (word : list ascii) : bool :=
  match word with
  | [] => true
  | c :: word => at_ o (fun d => d =c c) && match_word (S o) word
  end.

(** The digits of [json_hexadecimal_value]. *)
Fixpoint hexadecimal_loop (p : nat) (n : nat) (result : Z) : res (option Z) :=
  match n with
  | O => Ok (Some result)
  | S n =>
      let result := u64 (Z.shiftl result 4) in
      let* c := rd p in
      let digit := json_hexadecimal_digit c in
      if (digit <? 0) || (15 <? digit) then Ok None
      else hexadecimal_loop (S p) n (Z.lor result digit)
  end.

Definition json_hexadecimal_value (c : nat) (n : nat) : res (option Z) :=
  if (16 <? n)%nat then Ok None else hexadecimal_loop c n 0.

(** ** Whitespace and comments *)
Fixpoint skip_whitespace_loop (n : nat) (o : nat) (st : json_parse_state_s) : res json_parse_state_s :=
  match n with
  | O => Err OutOfFuel
  | S n =>
      let* c := rd o in
      if is_json_space c then
        let st := if c =c "010" then set_line o st else st in
        let o := S o in
        if (o <? size)%nat then skip_whitespace_loop n o st else Ok (set_offset o st)
      else Ok (set_offset o st)
  end.

Definition json_skip_whitespace (st : json_parse_state_s) : res (json_parse_state_s * bool) :=
  if (size <=? offset st)%nat then Ok (st, false) else
  let* c := rd (offset st) in
  if negb (is_json_space c) then Ok (st, false) else
  let* st := skip_whitespace_loop (S size) (offset st) st in
  Ok (st, true).

(** A comment up to the end of its line. *)
Fixpoint line_comment_loop (n : nat) (st : json_parse_state_s) : res json_parse_state_s :=
  match n with
  | O => Err OutOfFuel
  | S n =>
      if (offset st <? size)%nat then
        let* c := rd (offset st) in
        let st := advance 1 st in
        if c =c "010" then Ok (set_line (offset st) st) else line_comment_loop n st
      else Ok st
  end.

(** A comment up to its closing mark. *)
Fixpoint long_comment_loop (n : nat) (st : json_parse_state_s) : res json_parse_state_s :=
  match n with
  | O => Err OutOfFuel
  | S n =>
      if (S (offset st) <? size)%nat then
        let* c := rd (offset st) in
        let* d := rd (S (offset st)) in
        if (c =c "*") && (d =c "/") then Ok (advance 2 st)
        else
          let st := if c =c "010" then set_line (offset st) st else st in
          long_comment_loop n (advance 1 st)
      else Ok st
  end.

Definition json_skip_c_style_comments (st : json_parse_state_s) : res (json_parse_state_s * bool) :=
  if (size <? offset st + 2)%nat then Ok (st, false) else
  let* c := rd (offset st) in
  if c =c "/" then
    let* d := rd (S (offset st)) in
    if d =c "/" then
      let* st := line_comment_loop (S size) (advance 2 st) in Ok (st, true)
    else if d =c "*" then
      let* st := long_comment_loop (S size) (advance 2 st) in Ok (st, true)
    else Ok (st, false)
  else Ok (st, false).

Definition at_end (st : json_parse_state_s) : bool := (offset st =? size)%nat.
Definition premature (st : json_parse_state_s) : json_parse_state_s :=
  set_error json_parse_error_premature_end_of_buffer st.

Fixpoint skippables_loop (n : nat) (st : json_parse_state_s) : res (json_parse_state_s * bool) :=
  match n with
  | O => Err OutOfFuel
  | S n =>
      if at_end st then Ok (premature st, true) else
      let* '(st, did_consume) := json_skip_whitespace st in
      if has flags json_parse_flags_allow_c_style_comments then
        if (size <=? offset st)%nat then Ok (premature st, true) else
        let* '(st, did) := json_skip_c_style_comments st in
        if did_consume || did then skippables_loop n st
        else if at_end st then Ok (premature st, true) else Ok (st, false)
      else if did_consume then skippables_loop n st
      else if at_end st then Ok (premature st, true) else Ok (st, false)
  end.

Definition json_skip_all_skippables (st : json_parse_state_s) : res (json_parse_state_s * bool) :=
  skippables_loop (S (S size)) st.

(** ** First pass *)

(** The result of a part of a function: it returns 1 in a state, or goes on with a value. *)
Definition step_to (A : Type) : Type := json_parse_state_s + A.

Definition escape_error : json_parse_error_e := json_parse_error_invalid_string_escape_sequence.

(** The code point of [\uXXXX] with [o] at the [u]: the new offset, the bytes besides the
    first and the pending high surrogate. *)
Definition get_unicode_size (st : json_parse_state_s) (o : nat) (high_surrogate : Z) : res (step_to (nat * Z * Z)) :=
  if negb (o + 5 <? size)%nat then Ok (inl (fail_at escape_error o st)) else
  let* v := json_hexadecimal_value (o + 1) 4 in
  match v with
  | None => Ok (inl (fail_at escape_error o st))
  | Some codepoint =>
      if negb (high_surrogate =? 0) then
        if (0xdc00 <=? codepoint) && (codepoint <=? 0xdfff) then Ok (inr ((o + 5)%nat, 3, 0))
        else Ok (inl (fail_at escape_error o st))
      else if codepoint <=? 0x7f then Ok (inr ((o + 5)%nat, 0, high_surrogate))
      else if codepoint <=? 0x7ff then Ok (inr ((o + 5)%nat, 1, high_surrogate))
      else if (0xd800 <=? codepoint) && (codepoint <=? 0xdbff) then
        if (size <? o + 11)%nat then Ok (inl (fail_at escape_error o st)) else
        let* c := rd (o + 5) in
        if negb (c =c "\") then Ok (inl (fail_at escape_error o st)) else
        let* c := rd (o + 6) in
        if negb (c =c "u") then Ok (inl (fail_at escape_error o st)) else
        Ok (inr ((o + 5)%nat, 0, codepoint))
      else if (0xd800 <=? codepoint) && (codepoint <=? 0xdfff) then Ok (inl (fail_at escape_error o st))
      else Ok (inr ((o + 5)%nat, 2, high_surrogate))
  end.

Definition is_escape_char (c : ascii) : bool :=
  (c =c "034") || (c =c "\") || (c =c "/") || (c =c "b") || (c =c "f") || (c =c "n") || (c =c "r") || (c =c "t").

(** The character [c] at [o], not the closing quote. *)
Definition get_char_size (st : json_parse_state_s) (o : nat) (high_surrogate : Z) (c : ascii) : res (step_to (nat * Z * Z)) :=
  if (c =c "000") || (c =c "009") then Ok (inl (fail_at json_parse_error_invalid_string o st)) else
  if c =c "\" then
    let o := S o in
    if (o =? size)%nat then Ok (inl (fail_at json_parse_error_premature_end_of_buffer o st)) else
    let* c := rd o in
    if is_escape_char c then Ok (inr (S o, 0, high_surrogate))
    else if c =c "u" then get_unicode_size st o high_surrogate
    else Ok (inl (fail_at escape_error o st))
  else if (c =c "013") || (c =c "010") then
    if negb (has flags json_parse_flags_allow_multi_line_strings) then Ok (inl (fail_at escape_error o st))
    else Ok (inr (S o, 0, high_surrogate))
  else Ok (inr (S o, 0, high_surrogate)).

Fixpoint get_string_loop (n : nat) (quote_to_use : ascii) (st : json_parse_state_s) (o : nat) (size_ high_surrogate : Z)
    : res (step_to (nat * Z)) :=
  match n with
  | O => Err OutOfFuel
  | S n =>
      if (o <? size)%nat then
        let* c := rd o in
        if quote_to_use =c c then Ok (inr (o, size_)) else
        let* r := get_char_size st o high_surrogate c in
        match r with
        | inl st => Ok (inl st)
        | inr (o, more, high_surrogate) => get_string_loop n quote_to_use st o (size_ + 1 + more) high_surrogate
        end
      else Ok (inr (o, size_))
  end.

Definition json_get_string_size (is_key : bool) (st : json_parse_state_s) : res (json_parse_state_s * bool) :=
  let o := offset st in
  let* c := rd o in
  let is_single_quote := c =c "'" in
  let quote_to_use := if is_single_quote then "'"%char else "034"%char in
  let st :=
    if has flags json_parse_flags_allow_location_information && is_key
    then add_dom_size sizeof_json_string_ex_s st else add_dom_size sizeof_json_string_s st in
  if negb (c =c "034") && negb (has flags json_parse_flags_allow_single_quoted_strings && is_single_quote) then
    Ok (fail_at json_parse_error_expected_opening_quote o st, true) else
  let* r := get_string_loop (S size) quote_to_use st (S o) 0 0 in
  match r with
  | inl st => Ok (st, true)
  | inr (o, n) =>
      if (o =? size)%nat then Ok (fail_at json_parse_error_premature_end_of_buffer (o - 1) st, true)
      else Ok (set_offset (S o) (add_data_size 1 (add_data_size n st)), false)
  end.

Definition json_get_key_size (st : json_parse_state_s) : res (json_parse_state_s * bool) :=
  if has flags json_parse_flags_allow_unquoted_keys then
    let* c := rd (offset st) in
    if c =c "034" then json_get_string_size true st
    else if has flags json_parse_flags_allow_single_quoted_strings && (c =c "'") then json_get_string_size true st
    else
      let o := scan_while is_valid_unquoted_key_char (offset st) in
      let n := Z.of_nat (o - offset st) + 1 in
      let st :=
        if has flags json_parse_flags_allow_location_information
        then add_dom_size sizeof_json_string_ex_s st else add_dom_size sizeof_json_string_s st in
      Ok (add_data_size n (set_offset o st), false)
  else json_get_string_size true st.

(** A name, a colon and a value of an object. *)
Definition get_object_element (get_value : json_parse_state_s -> res (json_parse_state_s * bool))
    (st : json_parse_state_s) : res (json_parse_state_s * bool) :=
  let* '(st, bad) := json_get_key_size st in
  if bad : bool then Ok (set_error json_parse_error_invalid_string st, true) else
  let* '(st, ended) := json_skip_all_skippables st in
  if ended : bool then Ok (premature st, true) else
  let* current := rd (offset st) in
  if negb (current =c ":") && negb (has flags json_parse_flags_allow_equals_in_object && (current =c "=")) then
    Ok (set_error json_parse_error_expected_colon st, true) else
  let st := advance 1 st in
  let* '(st, ended) := json_skip_all_skippables st in
  if ended : bool then Ok (premature st, true) else
  get_value st.

(** The elements of an object: [None] is a return of 1, [Some] the number of elements and
    whether the closing brace was found. *)
Fixpoint get_object_loop (get_value : json_parse_state_s -> res (json_parse_state_s * bool)) (is_global_object : bool)
    (n : nat) (st : json_parse_state_s) (elements : Z) (allow_comma : bool)
    : res (json_parse_state_s * option (Z * bool)) :=
  match n with
  | O => Err OutOfFuel
  | S n =>
      let next st elements allow_comma :=
        if (offset st <? size)%nat then get_object_loop get_value is_global_object n st elements allow_comma
        else Ok (st, Some (elements, false)) in
      let element st :=
        let* '(st, bad) := get_object_element get_value st in
        if bad : bool then Ok (st, None) else next st (elements + 1) true in
      let after_comma st :=
        if has flags json_parse_flags_allow_trailing_comma then next st elements false else
        let* '(st, ended) := json_skip_all_skippables st in
        if ended : bool then Ok (premature st, None) else element st in
      let* '(st, ended) := json_skip_all_skippables st in
      if ended : bool then
        if is_global_object then Ok (st, Some (elements, false)) else Ok (premature st, None)
      else
      let* c := rd (offset st) in
      if negb is_global_object && (c =c "}") then Ok (advance 1 st, Some (elements, true))
      else if allow_comma then
        if c =c "," then after_comma (advance 1 st)
        else if has flags json_parse_flags_allow_no_commas then after_comma st
        else Ok (set_error json_parse_error_expected_comma_or_closing_bracket st, None)
      else element st
  end.

Definition json_get_object_size (get_value : json_parse_state_s -> res (json_parse_state_s * bool))
    (is_global_object : bool) (st : json_parse_state_s) : res (json_parse_state_s * bool) :=
  let* '(st, is_global_object) :=
    (if is_global_object then
       let* '(st, ended) := json_skip_all_skippables st in
       if ended : bool then Ok (st, true) else
       let* c := rd (offset st) in Ok (st, negb (c =c "{"))
     else Ok (st, false)) in
  let* '(st, bad) :=
    (if is_global_object : bool then Ok (st, false) else
     let* c := rd (offset st) in
     if negb (c =c "{") then Ok (set_error json_parse_error_unknown st, true) else Ok (advance 1 st, false)) in
  if bad : bool then Ok (st, true) else
  let st := add_dom_size sizeof_json_object_s st in
  if at_end st && negb is_global_object then Ok (premature st, true) else
  let* '(st, r) := get_object_loop get_value is_global_object (S size) st 0 false in
  match r with
  | None => Ok (st, true)
  | Some (elements, found_closing_brace) =>
      if at_end st && negb is_global_object && negb found_closing_brace then Ok (premature st, true)
      else Ok (add_dom_size (sizeof_json_object_element_s * elements) st, false)
  end.

Fixpoint get_array_loop (get_value : json_parse_state_s -> res (json_parse_state_s * bool))
    (n : nat) (st : json_parse_state_s) (elements : Z) (allow_comma : bool) : res (json_parse_state_s * bool) :=
  match n with
  | O => Err OutOfFuel
  | S n =>
      if (offset st <? size)%nat then
        let element st :=
          let* '(st, bad) := get_value st in
          if bad : bool then Ok (st, true) else get_array_loop get_value n st (elements + 1) true in
        let after_comma st :=
          if has flags json_parse_flags_allow_trailing_comma then get_array_loop get_value n st elements false else
          let* '(st, ended) := json_skip_all_skippables st in
          if ended : bool then Ok (premature st, true) else element st in
        let* '(st, ended) := json_skip_all_skippables st in
        if ended : bool then Ok (premature st, true) else
        let* c := rd (offset st) in
        if c =c "]" then Ok (add_dom_size (sizeof_json_array_element_s * elements) (advance 1 st), false)
        else if allow_comma then
          if c =c "," then after_comma (advance 1 st)
          else if negb (has flags json_parse_flags_allow_no_commas) then
            Ok (set_error json_parse_error_expected_comma_or_closing_bracket st, true)
          else after_comma st
        else element st
      else Ok (premature st, true)
  end.

Definition json_get_array_size (get_value : json_parse_state_s -> res (json_parse_state_s * bool))
    (st : json_parse_state_s) : res (json_parse_state_s * bool) :=
  let* c := rd (offset st) in
  if negb (c =c "[") then Ok (set_error json_parse_error_unknown st, true) else
  let st := add_dom_size sizeof_json_array_s (advance 1 st) in
  get_array_loop get_value (S (S size)) st 0 false.

(** *** Numbers *)
Definition number_error (o : nat) (st : json_parse_state_s) : json_parse_state_s :=
  fail_at json_parse_error_invalid_number_format o st.

Definition infinity_word : list ascii := list_ascii_of_string "Infinity".
Definition nan_word : list ascii := list_ascii_of_string "NaN".

(** [Infinity] and [NaN] where they are allowed; a word that ends the text is not seen. *)
Definition get_inf_or_nan (o : nat) : nat * bool :=
  if has flags json_parse_flags_allow_inf_and_nan then
    let '(o, inf_or_nan) :=
      if (o + 8 <? size)%nat && match_word o infinity_word then ((o + 8)%nat, true) else (o, false) in
    if (o + 3 <? size)%nat && match_word o nan_word then ((o + 3)%nat, true) else (o, inf_or_nan)
  else (o, false).

(** The fraction of a number. *)
Definition get_fraction_size (had_leading_digits : bool) (o : nat) (st : json_parse_state_s) : step_to nat :=
  if at_ o (fun c => c =c ".") then
    let o := S o in
    if negb (at_ o is_digit) &&
       (negb (has flags json_parse_flags_allow_leading_or_trailing_decimal_point) || negb had_leading_digits)
    then inl (number_error o st)
    else inr (scan_while is_digit o)
  else inr o.

(** The exponent of a number. *)
Definition get_exponent_size (o : nat) (st : json_parse_state_s) : step_to nat :=
  if at_ o (fun c => (c =c "e") || (c =c "E")) then
    let o := S o in
    let o := if at_ o (fun c => (c =c "-") || (c =c "+")) then S o else o in
    if at_ o (fun c => negb (is_digit c)) then inl (number_error o st)
    else inr (scan_while is_digit (S o))
  else inr o.

(** A number that is not hexadecimal. *)
Definition get_decimal_size (o : nat) (st : json_parse_state_s) : step_to nat :=
  let found_sign := at_ o (fun c => (c =c "-") || (has flags json_parse_flags_allow_leading_plus_sign && (c =c "+"))) in
  let o := if found_sign then S o else o in
  let '(o, inf_or_nan) := get_inf_or_nan o in
  if inf_or_nan && at_ o (fun c => is_digit c || (c =c "e") || (c =c "E")) then inl (number_error o st) else
  if found_sign && negb inf_or_nan && at_ o (fun c => negb (is_digit c) &&
       (negb (has flags json_parse_flags_allow_leading_or_trailing_decimal_point) || negb (c =c ".")))
  then inl (number_error o st) else
  let zero := at_ o (fun c => c =c "0") in
  let o := if zero then S o else o in
  if zero && at_ o is_digit then inl (number_error o st) else
  let had_leading_digits := zero || at_ o is_digit in
  let o := scan_while is_digit o in
  match get_fraction_size had_leading_digits o st with
  | inl st => inl st
  | inr o => get_exponent_size o st
  end.

Definition ends_number (c : ascii) : bool :=
  is_json_space c || (c =c "}") || (c =c ",") || (c =c "]") ||
  ((c =c "=") && has flags json_parse_flags_allow_equals_in_object).

Definition json_get_number_size (st : json_parse_state_s) : res (json_parse_state_s * bool) :=
  let st := add_dom_size sizeof_json_number_s st in
  let o := offset st in
  let r :=
    if has flags json_parse_flags_allow_hexadecimal_numbers &&
       at_ o (fun c => c =c "0") && at_ (S o) (fun c => (c =c "x") || (c =c "X"))
    then inr (scan_while is_xdigit (o + 2))
    else get_decimal_size o st in
  match r with
  | inl st => Ok (st, true)
  | inr e =>
      if at_ e (fun c => negb (ends_number c)) then Ok (number_error e st, true)
      else Ok (set_offset e (add_data_size 1 (add_data_size (Z.of_nat (e - o)) st)), false)
  end.

(** *** Values *)
Definition word_true : list ascii := list_ascii_of_string "true".
Definition word_false : list ascii := list_ascii_of_string "false".
Definition word_null : list ascii := list_ascii_of_string "null".

Definition invalid_value (st : json_parse_state_s) : json_parse_state_s := set_error json_parse_error_invalid_value st.
Definition invalid_number (st : json_parse_state_s) : json_parse_state_s :=
  set_error json_parse_error_invalid_number_format st.

Fixpoint json_get_value_size (depth : nat) (is_global_object : bool) (st : json_parse_state_s)
    : res (json_parse_state_s * bool) :=
  match depth with
  | O => Err OutOfFuel
  | S depth =>
      let get_value := json_get_value_size depth false in
      let st :=
        if has flags json_parse_flags_allow_location_information
        then add_dom_size sizeof_json_value_ex_s st else add_dom_size sizeof_json_value_s st in
      if is_global_object then json_get_object_size get_value true st else
      let* '(st, ended) := json_skip_all_skippables st in
      if ended : bool then Ok (premature st, true) else
      let o := offset st in
      let* c := rd o in
      if c =c "034" then json_get_string_size false st
      else if c =c "'" then
        if has flags json_parse_flags_allow_single_quoted_strings then json_get_string_size false st
        else Ok (invalid_value st, true)
      else if c =c "{" then json_get_object_size get_value false st
      else if c =c "[" then json_get_array_size get_value st
      else if (c =c "-") || is_digit c then json_get_number_size st
      else if c =c "+" then
        if has flags json_parse_flags_allow_leading_plus_sign then json_get_number_size st
        else Ok (invalid_number st, true)
      else if c =c "." then
        if has flags json_parse_flags_allow_leading_or_trailing_decimal_point then json_get_number_size st
        else Ok (invalid_number st, true)
      else if match_word o word_true then Ok (advance 4 st, false)
      else if match_word o word_false then Ok (advance 5 st, false)
      else if match_word o word_null then Ok (advance 4 st, false)
      else if has flags json_parse_flags_allow_inf_and_nan && match_word o nan_word then json_get_number_size st
      else if has flags json_parse_flags_allow_inf_and_nan && match_word o infinity_word then json_get_number_size st
      else Ok (invalid_value st, true)
  end.

(** ** Second pass

    [dom_end] and [data_end] are the ends of the two parts of the allocation. *)
Section Fill.
Context (dom_end data_end : Z).

(** [data[bytes_written++] = c], where [out] holds the bytes written so far. *)
Definition put (st : json_parse_state_s) (c : ascii) (out : list ascii) : res (list ascii) :=
  if data st + Z.of_nat (length out) <? data_end then Ok (out ++ [c]) else Err Undefined.

Fixpoint puts (st : json_parse_state_s) (cs : list ascii) (out : list ascii) : res (list ascii) :=
  match cs with
  | [] => Ok out
  | c :: cs => let* out := put st c out in puts st cs out
  end.

(** [state->dom += n] for a structure that is then filled. *)
Definition take_dom (n : Z) (st : json_parse_state_s) : res json_parse_state_s :=
  if dom st + n <=? dom_end then Ok (set_dom (dom st + n) st) else Err Undefined.

(** [const unsigned long surrogate_offset = 0x10000u - (0xD800u << 10) - 0xDC00u], computed in
    32 bits. *)
Definition surrogate_offset : Z := u32 (0x10000 - u32 (Z.shiftl 0xD800 10) - 0xDC00).

(** The bytes of [\uXXXX], and the pending high surrogate. *)
Definition parse_unicode (codepoint high_surrogate : Z) : list ascii * Z :=
  if codepoint <=? 0x7f then ([chr codepoint], high_surrogate)
  else if codepoint <=? 0x7ff then
    ([chr (Z.lor 0xc0 (Z.shiftr codepoint 6)); chr (Z.lor 0x80 (Z.land codepoint 0x3f))], high_surrogate)
  else if (0xd800 <=? codepoint) && (codepoint <=? 0xdbff) then ([], codepoint)
  else if (0xdc00 <=? codepoint) && (codepoint <=? 0xdfff) then
    let codepoint := u64 (u64 (Z.shiftl high_surrogate 10) + codepoint + surrogate_offset) in
    ([chr (Z.lor 0xF0 (Z.shiftr codepoint 18)); chr (Z.lor 0x80 (Z.land (Z.shiftr codepoint 12) 0x3f));
      chr (Z.lor 0x80 (Z.land (Z.shiftr codepoint 6) 0x3f)); chr (Z.lor 0x80 (Z.land codepoint 0x3f))], 0)
  else
    ([chr (Z.lor 0xe0 (Z.shiftr codepoint 12)); chr (Z.lor 0x80 (Z.land (Z.shiftr codepoint 6) 0x3f));
      chr (Z.lor 0x80 (Z.land codepoint 0x3f))], high_surrogate).

(** The escape with [o] behind the backslash: the bytes, the next offset and the pending
    high surrogate. *)
Definition parse_escape (o : nat) (high_surrogate : Z) : res (list ascii * nat * Z) :=
  let* c := rd o in
  let o := S o in
  if c =c "u" then
    let* v := json_hexadecimal_value o 4 in
    match v with
    | None => Err Undefined
    | Some codepoint =>
        let '(bytes, high_surrogate) := parse_unicode codepoint high_surrogate in
        Ok (bytes, (o + 4)%nat, high_surrogate)
    end
  else if c =c "034" then Ok (["034"%char], o, high_surrogate)
  else if c =c "\" then Ok (["\"%char], o, high_surrogate)
  else if c =c "/" then Ok (["/"%char], o, high_surrogate)
  else if c =c "b" then Ok (["008"%char], o, high_surrogate)
  else if c =c "f" then Ok (["012"%char], o, high_surrogate)
  else if c =c "n" then Ok (["010"%char], o, high_surrogate)
  else if c =c "r" then Ok (["013"%char], o, high_surrogate)
  else if c =c "t" then Ok (["009"%char], o, high_surrogate)
  else if c =c "013" then
    let* d := rd o in
    if d =c "010" then Ok (["013"%char; "010"%char], S o, high_surrogate) else Ok (["013"%char], o, high_surrogate)
  else if c =c "010" then Ok (["010"%char], o, high_surrogate)
  else Err Undefined.

Fixpoint parse_string_loop (n : nat) (quote_to_use : ascii) (st : json_parse_state_s) (o : nat)
    (out : list ascii) (high_surrogate : Z) : res (nat * list ascii) :=
  match n with
  | O => Err OutOfFuel
  | S n =>
      let* c := rd o in
      if quote_to_use =c c then Ok (o, out)
      else if c =c "\" then
        let* '(bytes, o, high_surrogate) := parse_escape (S o) high_surrogate in
        let* out := puts st bytes out in
        parse_string_loop n quote_to_use st o out high_surrogate
      else
        let* out := put st c out in
        parse_string_loop n quote_to_use st (S o) out high_surrogate
  end.

(** The end of a string or number: the terminator is written and the pointer moves on. *)
Definition finish_text (o : nat) (out : list ascii) (st : json_parse_state_s) : res (json_parse_state_s * string) :=
  let* written := put st "000"%char out in
  Ok (set_offset o (set_data (data st + Z.of_nat (length written)) st), string_of_list_ascii out).

Definition json_parse_string (st : json_parse_state_s) : res (json_parse_state_s * string) :=
  let* c := rd (offset st) in
  let quote_to_use := if c =c "'" then "'"%char else "034"%char in
  let* '(o, out) := parse_string_loop (S size) quote_to_use st (S (offset st)) [] 0 in
  finish_text (S o) out st.

(** [while (p(src[offset])) data[n++] = src[offset++];], with the bound on [offset] left to
    the caller. *)
Fixpoint copy_while (n : nat) (p : ascii -> bool) (st : json_parse_state_s) (bounded : bool) (o : nat) (out : list ascii)
    : res (nat * list ascii) :=
  match n with
  | O => Err OutOfFuel
  | S n =>
      if bounded && negb (o <? size)%nat then Ok (o, out) else
      let* c := rd o in
      if p c then let* out := put st c out in copy_while n p st bounded (S o) out
      else Ok (o, out)
  end.

Definition json_parse_key (st : json_parse_state_s) : res (json_parse_state_s * string) :=
  if has flags json_parse_flags_allow_unquoted_keys then
    let* c := rd (offset st) in
    if (c =c "034") || (c =c "'") then json_parse_string st
    else
      let* '(o, out) := copy_while (S size) is_valid_unquoted_key_char st false (offset st) [] in
      finish_text o out st
  else json_parse_string st.

(** The location of a structure that records one. *)
Definition here (st : json_parse_state_s) : location :=
  mkLoc (offset st) (line_no st) (u64 (Z.of_nat (offset st) - Z.of_nat (line_offset st))).

(** Taking a string or a value structure. *)
Definition take_string (st : json_parse_state_s) : res (json_parse_state_s * option location) :=
  if has flags json_parse_flags_allow_location_information then
    let* st' := take_dom sizeof_json_string_ex_s st in Ok (st', Some (here st))
  else let* st := take_dom sizeof_json_string_s st in Ok (st, None).

Definition take_value (st : json_parse_state_s) : res (json_parse_state_s * option location) :=
  if has flags json_parse_flags_allow_location_information then
    let* st' := take_dom sizeof_json_value_ex_s st in Ok (st', Some (here st))
  else let* st := take_dom sizeof_json_value_s st in Ok (st, None).

Definition parse_object_element (parse_value : json_parse_state_s -> res (json_parse_state_s * json_value_s))
    (st : json_parse_state_s)
    : res (json_parse_state_s * (option location * string * (option location * json_value_s))) :=
  let* st := take_dom sizeof_json_object_element_s st in
  let* '(st, name_loc) := take_string st in
  let* '(st, name) := json_parse_key st in
  let* '(st, _) := json_skip_all_skippables st in
  let st := advance 1 st in
  let* '(st, _) := json_skip_all_skippables st in
  let* '(st, value_loc) := take_value st in
  let* '(st, value) := parse_value st in
  Ok (st, (name_loc, name, (value_loc, value))).

Fixpoint parse_object_loop (parse_value : json_parse_state_s -> res (json_parse_state_s * json_value_s))
    (is_global_object : bool) (n : nat) (st : json_parse_state_s) (allow_comma : bool)
    (elements : list (option location * string * (option location * json_value_s)))
    : res (json_parse_state_s * json_value_s) :=
  match n with
  | O => Err OutOfFuel
  | S n =>
      if (offset st <? size)%nat then
        let* '(st, ended) := json_skip_all_skippables st in
        if is_global_object && ended then Ok (st, json_object elements) else
        let* closing := (if is_global_object then Ok false else let* c := rd (offset st) in Ok (c =c "}")) in
        if closing : bool then Ok (advance 1 st, json_object elements) else
        let* comma := (if allow_comma then let* c := rd (offset st) in Ok (c =c ",") else Ok false) in
        if comma : bool then parse_object_loop parse_value is_global_object n (advance 1 st) false elements else
        let* '(st, e) := parse_object_element parse_value st in
        parse_object_loop parse_value is_global_object n st true (elements ++ [e])
      else Ok (st, json_object elements)
  end.

Definition json_parse_object (parse_value : json_parse_state_s -> res (json_parse_state_s * json_value_s))
    (is_global_object : bool) (st : json_parse_state_s) : res (json_parse_state_s * json_value_s) :=
  let* is_global_object :=
    (if is_global_object then let* c := rd (offset st) in Ok (negb (c =c "{")) else Ok false) in
  let st := if is_global_object : bool then st else advance 1 st in
  let* '(st, _) := json_skip_all_skippables st in
  parse_object_loop parse_value is_global_object (2 * S size) st false [].

Fixpoint parse_array_loop (parse_value : json_parse_state_s -> res (json_parse_state_s * json_value_s))
    (n : nat) (st : json_parse_state_s) (allow_comma : bool) (elements : list (option location * json_value_s))
    : res (json_parse_state_s * json_value_s) :=
  match n with
  | O => Err OutOfFuel
  | S n =>
      let next st allow_comma elements :=
        if (offset st <? size)%nat then parse_array_loop parse_value n st allow_comma elements
        else Ok (st, json_array elements) in
      let* '(st, _) := json_skip_all_skippables st in
      let* c := rd (offset st) in
      if c =c "]" then Ok (advance 1 st, json_array elements)
      else if allow_comma && (c =c ",") then next (advance 1 st) false elements
      else
        let* st := take_dom sizeof_json_array_element_s st in
        let* '(st, loc) := take_value st in
        let* '(st, value) := parse_value st in
        next st true (elements ++ [(loc, value)])
  end.

Definition json_parse_array (parse_value : json_parse_state_s -> res (json_parse_state_s * json_value_s))
    (st : json_parse_state_s) : res (json_parse_state_s * json_value_s) :=
  let* '(st, _) := json_skip_all_skippables (advance 1 st) in
  parse_array_loop parse_value (2 * S size) st false [].

Definition is_number_char (c : ascii) : bool :=
  is_digit c || (c =c ".") || (c =c "e") || (c =c "E") || (c =c "+") || (c =c "-").

(** A word of [k] characters that starts with [first], copied when more text follows it. *)
Definition copy_word (first : ascii) (k : nat) (st : json_parse_state_s) (o : nat) (out : list ascii)
    : res (nat * list ascii) :=
  if (o + k <? size)%nat && at_ o (fun c => c =c first) then
    let* out := puts st (firstn k (skipn o src)) out in Ok ((o + k)%nat, out)
  else Ok (o, out).

Definition json_parse_number (st : json_parse_state_s) : res (json_parse_state_s * string) :=
  let o := offset st in
  let* '(o, out) :=
    (if has flags json_parse_flags_allow_hexadecimal_numbers then
       let* c := rd o in
       let* hex := (if c =c "0" then let* d := rd (S o) in Ok ((d =c "x") || (d =c "X")) else Ok false) in
       if hex : bool then copy_while (S size) (fun c => is_xdigit c || (c =c "x") || (c =c "X")) st true o []
       else Ok (o, [])
     else Ok (o, [])) in
  let* '(o, out) := copy_while (S size) is_number_char st true o out in
  let* '(o, out) :=
    (if has flags json_parse_flags_allow_inf_and_nan then
       let* '(o, out) := copy_word "I" 8 st o out in copy_word "N" 3 st o out
     else Ok (o, out)) in
  finish_text o out st.

(** Taking a structure and filling it. *)
Definition parse_text (n : Z) (kind : string -> json_value_s)
    (parse : json_parse_state_s -> res (json_parse_state_s * string)) (st : json_parse_state_s)
    : res (json_parse_state_s * json_value_s) :=
  let* st := take_dom n st in
  let* '(st, s) := parse st in Ok (st, kind s).

Fixpoint json_parse_value (depth : nat) (is_global_object : bool) (st : json_parse_state_s)
    : res (json_parse_state_s * json_value_s) :=
  match depth with
  | O => Err OutOfFuel
  | S depth =>
      let parse_value := json_parse_value depth false in
      let number := parse_text sizeof_json_number_s json_number json_parse_number in
      let* '(st, _) := json_skip_all_skippables st in
      let o := offset st in
      if is_global_object then
        let* st := take_dom sizeof_json_object_s st in json_parse_object parse_value true st
      else
      let* c := rd o in
      if (c =c "034") || (c =c "'") then parse_text sizeof_json_string_s json_string json_parse_string st
      else if c =c "{" then let* st := take_dom sizeof_json_object_s st in json_parse_object parse_value false st
      else if c =c "[" then let* st := take_dom sizeof_json_array_s st in json_parse_array parse_value st
      else if (c =c "-") || (c =c "+") || is_digit c || (c =c ".") then number st
      else if match_word o word_true then Ok (advance 4 st, json_true)
      else if match_word o word_false then Ok (advance 5 st, json_false)
      else if match_word o word_null then Ok (advance 4 st, json_null)
      else if has flags json_parse_flags_allow_inf_and_nan && match_word o nan_word then number st
      else if has flags json_parse_flags_allow_inf_and_nan && match_word o infinity_word then number st
      else Err Undefined
  end.
End Fill.

(** ** [json_parse_ex]: the value with its location, or the error report. *)
Record json_parse_result_s := mkPR {
  result_error : json_parse_error_e;
  error_offset : nat;
  error_line_no : Z;
  error_row_no : Z;
}.

Definition report (st : json_parse_state_s) : json_parse_result_s :=
  mkPR (error st) (offset st) (line_no st) (u64 (Z.of_nat (offset st) - Z.of_nat (line_offset st))).

Definition start_state (dom data dom_size data_size : Z) : json_parse_state_s :=
  mkPS 0 data dom dom_size data_size 1 0 json_parse_error_none.

(** The first pass over the whole text. *)
Definition check_text : res (json_parse_state_s * bool) :=
  let is_global := has flags json_parse_flags_allow_global_object in
  let* '(st, input_error) := json_get_value_size (S (S size)) is_global (start_state 0 0 0 0) in
  if input_error : bool then Ok (st, true) else
  let* '(st, _) := json_skip_all_skippables st in
  if negb (at_end st) then Ok (set_error json_parse_error_unexpected_trailing_characters st, true)
  else Ok (st, false).

(** [alloc] says whether the allocator gives that many bytes. *)
Definition json_parse_ex (alloc : Z -> bool)
    : res (json_parse_result_s + option location * json_value_s) :=
  let* '(st, input_error) := check_text in
  if input_error : bool then Ok (inl (report st)) else
  let total_size := u64 (dom_size st + data_size st) in
  if negb (alloc total_size) then Ok (inl (mkPR json_parse_error_allocator_failed 0 0 0)) else
  let st := mkPS 0 (dom_size st) 0 (dom_size st) (data_size st) 1 0 (error st) in
  let* '(st', loc) := take_value (dom_size st) st in
  let* '(_, value) :=
    json_parse_value (dom_size st) total_size (S (S size)) (has flags json_parse_flags_allow_global_object) st' in
  Ok (inr (loc, value)).
End Text.

(** ** [json_parse]: a null pointer is [None]. *)
Definition json_parse (malloc : Z -> bool) (text : string) : res (option json_value_s) :=
  let* r := json_parse_ex json_parse_flags_default (list_ascii_of_string text) malloc in
  Ok (match r with inl _ => None | inr (_, v) => Some v end).

(** ** Accessors: the payload when the value has the type. *)
Definition json_value_as_string (v : json_value_s) : option string :=
  match v with json_string s => Some s | _ => None end.
Definition json_value_as_object (v : json_value_s)
    : option (list (option location * string * (option location * json_value_s))) :=
  match v with json_object l => Some l | _ => None end.
