(* ===== verification/JsonGrammar.v ===== *)
(** The language of the JSON reader ([include/thrid_party/json.h], with the default options):
    a grammar of JSON texts with the value each one stands for and the bytes its characters
    take, and the proofs that both passes of [Json] over strings and numbers agree with it. *)

From Stdlib Require Import Ascii String.
From stdpp Require Import gmap strings.
From S2P Require Import Prelude.
From S2P Require Import CppString.
From S2P Require Import Json.

Local Open Scope json_scope.
#[local] Arguments Ascii.eqb : simpl nomatch.

(** ** The grammar *)
Abbreviation quote := "034"%char.

Definition spaces (w : list ascii) : Prop := Forall (fun c => is_json_space c = true) w.

(** Characters that stand for themselves in a string. *)
Definition plain (c : ascii) : bool :=
  negb (c =c quote) && negb (c =c "\") && negb (c =c "000") && negb (c =c "009") && negb (c =c "013") && negb (c =c "010").

Definition escaped (c : ascii) : option ascii :=
  if c =c quote then Some quote else if c =c "\" then Some "\"%char else if c =c "/" then Some "/"%char
  else if c =c "b" then Some "008"%char else if c =c "f" then Some "012"%char else if c =c "n" then Some "010"%char
  else if c =c "r" then Some "013"%char else if c =c "t" then Some "009"%char else None.

(** The UTF-8 encoding of a code point. *)
Definition utf8 (cp : Z) : list ascii :=
  if cp <? 0x80 then [chr cp]
  else if cp <? 0x800 then [chr (192 + cp / 64); chr (128 + cp mod 64)]
  else if cp <? 0x10000 then [chr (224 + cp / 4096); chr (128 + cp / 64 mod 64); chr (128 + cp mod 64)]
  else [chr (240 + cp / 262144); chr (128 + cp / 4096 mod 64); chr (128 + cp / 64 mod 64); chr (128 + cp mod 64)].

(** The value of four hexadecimal digits. *)
Definition hex4 (a b c d : ascii) : option Z :=
  if is_xdigit a && is_xdigit b && is_xdigit c && is_xdigit d then
    Some (4096 * json_hexadecimal_digit a + 256 * json_hexadecimal_digit b + 16 * json_hexadecimal_digit c
          + json_hexadecimal_digit d)
  else None.

Definition is_high (cp : Z) : Prop := 0xd800 <= cp <= 0xdbff.
Definition is_low (cp : Z) : Prop := 0xdc00 <= cp <= 0xdfff.
Definition combine (high low : Z) : Z := 0x10000 + 1024 * (high - 0xd800) + (low - 0xdc00).

(** [jchars hs t out n]: [t] is the inside of a string that denotes the bytes [out] and is given
    [n] bytes; [hs] is the first half of a surrogate pair that [t] completes, or 0. *)
Inductive jchars : Z -> list ascii -> list ascii -> Z -> Prop :=
| chars_end : jchars 0 [] [] 0
| chars_plain c t out n : plain c = true -> jchars 0 t out n -> jchars 0 (c :: t) (c :: out) (1 + n)
| chars_escape c e t out n :
    escaped c = Some e -> jchars 0 t out n -> jchars 0 ("\"%char :: c :: t) (e :: out) (1 + n)
| chars_unicode a b c d cp t out n :
    hex4 a b c d = Some cp -> ~ is_high cp -> ~ is_low cp -> jchars 0 t out n ->
    jchars 0 ("\"%char :: "u"%char :: a :: b :: c :: d :: t) (utf8 cp ++ out) (Z.of_nat (length (utf8 cp)) + n)
| chars_high a b c d cp t out n :
    hex4 a b c d = Some cp -> is_high cp -> jchars cp t out n ->
    jchars 0 ("\"%char :: "u"%char :: a :: b :: c :: d :: t) out (1 + n)
| chars_low hs a b c d cp t out n :
    is_high hs -> hex4 a b c d = Some cp -> is_low cp -> jchars 0 t out n ->
    jchars hs ("\"%char :: "u"%char :: a :: b :: c :: d :: t) (utf8 (combine hs cp) ++ out) (4 + n).

Definition digits (l : list ascii) : Prop := Forall (fun c => is_digit c = true) l.

Definition jint (l : list ascii) : Prop :=
  l = ["0"%char] \/ (l <> [] /\ digits l /\ head l <> Some "0"%char).
Definition jfraction (l : list ascii) : Prop := l = [] \/ exists ds, l = "."%char :: ds /\ ds <> [] /\ digits ds.
Definition jexponent (l : list ascii) : Prop :=
  l = [] \/ exists e sign ds, l = e :: sign ++ ds /\ (e = "e"%char \/ e = "E"%char) /\
    (sign = [] \/ sign = ["-"%char] \/ sign = ["+"%char]) /\ ds <> [] /\ digits ds.
Definition jnumber (t : list ascii) : Prop :=
  exists sign i f e, t = sign ++ i ++ f ++ e /\ (sign = [] \/ sign = ["-"%char]) /\ jint i /\ jfraction f /\ jexponent e.

Definition jmember (k : list ascii) (v : json_value_s) : option location * string * (option location * json_value_s) :=
  (None, string_of_list_ascii k, (None, v)).

(** [jvalue t v n]: [t] is the text of [v], whose characters take [n] bytes.
    [jmembers b t l n] and [jitems b t l n]: [t] is the rest of an object or array with the
    members or items [l], after the opening bracket or ([b]) after an element. *)
Inductive jvalue : list ascii -> json_value_s -> Z -> Prop :=
| value_string t out n :
    jchars 0 t out n -> jvalue (quote :: t ++ [quote]) (json_string (string_of_list_ascii out)) (n + 1)
| value_number t : jnumber t -> jvalue t (json_number (string_of_list_ascii t)) (Z.of_nat (length t) + 1)
| value_true : jvalue word_true json_true 0
| value_false : jvalue word_false json_false 0
| value_null : jvalue word_null json_null 0
| value_object t l n : jmembers false t l n -> jvalue ("{"%char :: t) (json_object l) n
| value_array t l n : jitems false t l n -> jvalue ("["%char :: t) (json_array l) n
with jmembers : bool -> list ascii -> list (option location * string * (option location * json_value_s)) -> Z -> Prop :=
| members_end b w : spaces w -> jmembers b (w ++ ["}"%char]) [] 0
| members_first w kt k w1 w2 vt v rest l n1 n2 n3 :
    spaces w -> jchars 0 kt k n1 -> spaces w1 -> spaces w2 -> jvalue vt v n2 -> jmembers true rest l n3 ->
    jmembers false (w ++ quote :: kt ++ quote :: w1 ++ ":"%char :: w2 ++ vt ++ rest) (jmember k v :: l) (n1 + 1 + n2 + n3)
| members_next w0 w kt k w1 w2 vt v rest l n1 n2 n3 :
    spaces w0 -> spaces w -> jchars 0 kt k n1 -> spaces w1 -> spaces w2 -> jvalue vt v n2 -> jmembers true rest l n3 ->
    jmembers true (w0 ++ ","%char :: w ++ quote :: kt ++ quote :: w1 ++ ":"%char :: w2 ++ vt ++ rest)
      (jmember k v :: l) (n1 + 1 + n2 + n3)
with jitems : bool -> list ascii -> list (option location * json_value_s) -> Z -> Prop :=
| items_end b w : spaces w -> jitems b (w ++ ["]"%char]) [] 0
| items_first w vt v rest l n1 n2 :
    spaces w -> jvalue vt v n1 -> jitems true rest l n2 -> jitems false (w ++ vt ++ rest) ((None, v) :: l) (n1 + n2)
| items_next w0 w vt v rest l n1 n2 :
    spaces w0 -> spaces w -> jvalue vt v n1 -> jitems true rest l n2 ->
    jitems true (w0 ++ ","%char :: w ++ vt ++ rest) ((None, v) :: l) (n1 + n2).

Scheme jvalue_mind := Minimality for jvalue Sort Prop
  with jmembers_mind := Minimality for jmembers Sort Prop
  with jitems_mind := Minimality for jitems Sort Prop.
Combined Scheme json_mind from jvalue_mind, jmembers_mind, jitems_mind.

(** The rest of an object after a member and a comma is also one after the opening brace. *)
Lemma members_tail_first t l n : jmembers true (","%char :: t) l n -> jmembers false t l n.
Proof.
  intros H. inversion H as [b w Hw Ht| |w0 w kt k w1 w2 vt v rest l' n1 n2 n3 Hw0 Hw Hj Hw1 Hw2 Hv Hm Hx Ht]; subst.
  - destruct w as [|c w]; [done|]. cbn in *. simplify_eq. by inversion Hw.
  - destruct w0 as [|c w0]; [|cbn in *; simplify_eq; by inversion Hw0]. cbn in *. simplify_eq. by apply members_first.
Qed.

(** A whole text; a minus sign alone at the very end is taken for a number too. *)
Definition jtext (t : list ascii) (v : json_value_s) (n : Z) : Prop :=
  exists w t' w', t = w ++ t' ++ w' /\ spaces w /\ spaces w' /\
    (jvalue t' v n \/ (t' = ["-"%char] /\ w' = [] /\ v = json_number "-" /\ n = 2)).

(** The bytes of the structures below a value. *)
Fixpoint dom_of (v : json_value_s) : Z :=
  match v with
  | json_string _ => sizeof_json_string_s
  | json_number _ => sizeof_json_number_s
  | json_object l => sizeof_json_object_s + foldr (fun e n =>
      sizeof_json_object_element_s + sizeof_json_string_s + sizeof_json_value_s + dom_of e.2.2 + n) 0 l
  | json_array l => sizeof_json_array_s + foldr (fun e n =>
      sizeof_json_array_element_s + sizeof_json_value_s + dom_of e.2 + n) 0 l
  | _ => 0
  end.

(** ** Characters *)
Lemma ceq c d : (c =c d) = true <-> c = d.
Proof. apply Ascii.eqb_eq. Qed.

Lemma cneq c d : (c =c d) = false <-> c <> d.
Proof. apply Ascii.eqb_neq. Qed.

Lemma xdigit_range c : is_xdigit c = true -> 0 <= json_hexadecimal_digit c < 16.
Proof.
  unfold is_xdigit. intros ?%Z.leb_le. split; [done|]. unfold json_hexadecimal_digit in *.
  repeat case_match; rewrite ?andb_true_iff in *; lia.
Qed.

Lemma lor_nibble r d : 0 <= r < 2 ^ 56 -> 0 <= d < 16 -> Z.lor (u64 (Z.shiftl r 4)) d = 16 * r + d.
Proof.
  intros Hr Hd. rewrite u64_small by (unfold W64; rewrite Z.shiftl_mul_pow2 by lia; lia).
  rewrite Z.lor_comm, Z.shiftl_mul_pow2 by lia. change (2 ^ 4) with 16.
  assert (Z.land d (r * 16) = 0) as Hl.
  { apply Z.bits_inj'. intros i Hi. rewrite Z.land_spec, Z.bits_0. change 16 with (2 ^ 4).
    destruct (Z.lt_ge_cases i 4).
    - rewrite Z.mul_pow2_bits_low by lia. apply andb_false_r.
    - destruct (Z.eq_dec d 0) as [->|]; [by rewrite Z.bits_0|].
      assert (Z.log2 d < 4) by (apply Z.log2_lt_pow2; lia). by rewrite Z.bits_above_log2 by lia. }
  pose proof (Z.add_lor_land d (r * 16)). lia.
Qed.

Lemma is_high_dec cp : is_high cp -> (0xd800 <=? cp) && (cp <=? 0xdbff) = true.
Proof. unfold is_high. intros. apply andb_true_iff. lia. Qed.

Lemma chr_eq a b : a mod 256 = b mod 256 -> chr a = chr b.
Proof. unfold chr. by intros ->. Qed.

(** [b | x] where [x] fits below the bits of [b]. *)
Lemma lor_add b x k : 0 <= k -> 0 <= x < 2 ^ k -> Z.lor (b * 2 ^ k) x = b * 2 ^ k + x.
Proof.
  intros Hk Hx. assert (Z.land (b * 2 ^ k) x = 0) as Hl.
  { apply Z.bits_inj'. intros i Hi. rewrite Z.land_spec, Z.bits_0.
    destruct (Z.lt_ge_cases i k); [by rewrite Z.mul_pow2_bits_low by lia|].
    destruct (Z.eq_dec x 0) as [->|]; [by rewrite Z.bits_0, andb_false_r|].
    assert (Z.log2 x < k) by (apply Z.log2_lt_pow2; lia). by rewrite (Z.bits_above_log2 x), andb_false_r by lia. }
  pose proof (Z.add_lor_land (b * 2 ^ k) x). lia.
Qed.

Lemma land63 x : Z.land x 0x3f = x mod 64.
Proof. change 0x3f with (Z.ones 6). by rewrite Z.land_ones by lia. Qed.

Lemma cont_byte x : chr (Z.lor 0x80 (Z.land x 0x3f)) = chr (128 + x mod 64).
Proof.
  rewrite land63. pose proof (Z.mod_pos_bound x 64 ltac:(lia)). change 0x80 with (2 * 2 ^ 6). by rewrite lor_add by lia.
Qed.

Lemma surrogate_offset_value : surrogate_offset = 2 ^ 32 + 0x10000 - 0xd800 * 1024 - 0xdc00.
Proof. reflexivity. Qed.

(** The bytes of the second pass are the UTF-8 encoding. *)
Lemma parse_unicode_bmp cp hs :
  0 <= cp < 0x10000 -> ~ is_high cp -> ~ is_low cp -> parse_unicode cp hs = (utf8 cp, hs).
Proof.
  unfold is_high, is_low. intros Hcp Hh Hl. unfold parse_unicode, utf8.
  assert (((0xd800 <=? cp) && (cp <=? 0xdbff)) = false) as -> by (apply andb_false_iff; lia).
  assert (((0xdc00 <=? cp) && (cp <=? 0xdfff)) = false) as -> by (apply andb_false_iff; lia).
  rewrite !cont_byte, !Z.shiftr_div_pow2 by lia.
  destruct (Z.leb_spec cp 0x7f), (Z.ltb_spec cp 0x80); try lia; [done|].
  destruct (Z.leb_spec cp 0x7ff), (Z.ltb_spec cp 0x800); try lia.
  - change 0xc0 with (6 * 2 ^ 5). change (2 ^ 6) with 64. rewrite lor_add by (lia || (split; [apply Z.div_pos; lia|apply Z.div_lt_upper_bound; lia])).
    done.
  - destruct (Z.ltb_spec cp 0x10000); [|lia]. change 0xe0 with (14 * 2 ^ 4). change (2 ^ 12) with 4096.
    rewrite lor_add by (lia || (split; [apply Z.div_pos; lia|apply Z.div_lt_upper_bound; lia])). done.
Qed.

Lemma parse_unicode_high cp hs : is_high cp -> parse_unicode cp hs = ([], cp).
Proof.
  intros Hh. unfold parse_unicode. unfold is_high in Hh. destruct (Z.leb_spec cp 0x7f), (Z.leb_spec cp 0x7ff); try lia.
  by rewrite (is_high_dec cp).
Qed.

Lemma parse_unicode_low cp hs : is_high hs -> is_low cp -> parse_unicode cp hs = (utf8 (combine hs cp), 0).
Proof.
  unfold is_high, is_low. intros Hh Hl. unfold parse_unicode.
  destruct (Z.leb_spec cp 0x7f), (Z.leb_spec cp 0x7ff); try lia.
  assert (((0xd800 <=? cp) && (cp <=? 0xdbff)) = false) as -> by (apply andb_false_iff; lia).
  assert (((0xdc00 <=? cp) && (cp <=? 0xdfff)) = true) as -> by (apply andb_true_iff; lia).
  rewrite surrogate_offset_value, Z.shiftl_mul_pow2 by lia. change (2 ^ 10) with 1024.
  rewrite (u64_small (hs * 1024)) by (unfold W64; lia). rewrite u64_small by (unfold W64; lia).
  set (x := combine hs cp). assert (0x10000 <= x < 0x110000) as Hx by (unfold x, combine; lia).
  replace (hs * 1024 + cp + _) with (2 ^ 32 + x) by (unfold x, combine; lia). clearbody x.
  rewrite !cont_byte, !Z.shiftr_div_pow2 by lia. unfold utf8.
  destruct (Z.ltb_spec x 0x80), (Z.ltb_spec x 0x800), (Z.ltb_spec x 0x10000); try lia. cbn [fst].
  change (2 ^ 18) with 262144. change (2 ^ 12) with 4096. change (2 ^ 6) with 64.
  assert (0 <= x / 262144 < 8) by (split; [apply Z.div_pos; lia|apply Z.div_lt_upper_bound; lia]).
  replace ((2 ^ 32 + x) / 262144) with (64 * 2 ^ 8 + x / 262144)
    by (replace (2 ^ 32 + x) with (x + (64 * 2 ^ 8) * 262144) by lia; rewrite Z.div_add by lia; lia).
  f_equal. f_equal; [|f_equal; [|f_equal; [|f_equal]]].
  - apply chr_eq. rewrite <- (lor_add 64) by lia. rewrite Z.lor_assoc, (Z.lor_comm 0xF0), <- Z.lor_assoc.
    change 0xF0 with (15 * 2 ^ 4). rewrite (lor_add 15) by lia. rewrite lor_add by lia.
    rewrite Z.add_comm, Z.mod_add by lia. done.
  - apply chr_eq. f_equal. f_equal. replace (2 ^ 32 + x) with (x + (2 ^ 20) * 4096) by lia. rewrite Z.div_add by lia.
    change (2 ^ 20) with (2 ^ 14 * 64). by rewrite Z.mod_add by lia.
  - apply chr_eq. f_equal. f_equal. replace (2 ^ 32 + x) with (x + (2 ^ 26) * 64) by lia. rewrite Z.div_add by lia.
    change (2 ^ 26) with (2 ^ 20 * 64). by rewrite Z.mod_add by lia.
  - apply chr_eq. f_equal. f_equal. change (2 ^ 32) with (2 ^ 26 * 64). rewrite Z.add_comm. by rewrite Z.mod_add by lia.
Qed.

Lemma utf8_length cp : (1 <= length (utf8 cp) <= 4)%nat.
Proof. unfold utf8. repeat case_match; cbn; lia. Qed.

Lemma hex4_range a b c d cp : hex4 a b c d = Some cp -> 0 <= cp < 0x10000.
Proof.
  unfold hex4. destruct (_ && _) eqn:H; [|done]. rewrite !andb_true_iff in H. destruct H as [[[Ha Hb] Hc] Hd].
  apply xdigit_range in Ha, Hb, Hc, Hd. intros [= <-]. lia.
Qed.

(** ** Positions in a text *)
Section Reader.
Context {src : list ascii}.

Abbreviation F0 := json_parse_flags_default.

(** [l] is what is left of the text at position [o]. *)
Definition left_at (o : nat) (l : list ascii) : Prop := (o <= size src)%nat /\ drop o src = l.

Lemma left_at_size o l : left_at o l -> (o + length l = size src)%nat.
Proof. intros [Ho <-]. unfold size in *. rewrite length_drop. lia. Qed.

Lemma left_at_cons o c l : left_at o (c :: l) -> (o < size src)%nat /\ rd src o = Ok c /\ left_at (S o) l.
Proof.
  intros H. pose proof (left_at_size _ _ H) as Hs. cbn in Hs. destruct H as [Ho Hd].
  split; [lia|]. split.
  - unfold rd. replace (src !! o) with (Some c); [done|]. rewrite <- (take_drop o src) at 1.
    rewrite lookup_app_r by (rewrite length_take; unfold size in *; lia). rewrite Hd, length_take.
    replace (o - _)%nat with O by (unfold size in *; lia). done.
  - split; [lia|]. replace (S o) with (o + 1)%nat by lia. by rewrite <- drop_drop, Hd.
Qed.

Lemma left_at_lt o c l : left_at o (c :: l) -> (o <? size src)%nat = true.
Proof. intros H. apply Nat.ltb_lt. by apply left_at_cons in H as (? & ? & ?). Qed.

Lemma left_at_nlt o : left_at o [] -> o = size src.
Proof. intros H%left_at_size. cbn in H. lia. Qed.

Lemma left_at_rd o c l : left_at o (c :: l) -> rd src o = Ok c.
Proof. intros H. by apply left_at_cons in H as (? & ? & ?). Qed.

Lemma left_at_app o t l : left_at o (t ++ l) -> left_at (o + length t) l.
Proof.
  revert o. induction t as [|c t IH]; intros o; cbn; [by rewrite Nat.add_0_r|]. intros (_ & _ & H)%left_at_cons.
  apply IH in H. by replace (o + S (length t))%nat with (S o + length t)%nat by lia.
Qed.

Lemma left_at_lookup o l : left_at o l -> src !! o = head l.
Proof.
  destruct l as [|c l]; intros H.
  - apply left_at_nlt in H as ->. apply lookup_ge_None_2. unfold size. lia.
  - apply left_at_rd in H. unfold rd in H. destruct (src !! o); by simplify_eq.
Qed.

Lemma at_left o l p : left_at o l -> at_ src o p = match l with c :: _ => p c | [] => false end.
Proof. intros H%left_at_lookup. unfold at_. rewrite H. by destruct l. Qed.

Lemma at_end_left st l : left_at (offset st) l -> at_end src st = match l with [] => true | _ => false end.
Proof.
  intros H%left_at_size. unfold at_end. destruct l; cbn in H; [apply Nat.eqb_eq|apply Nat.eqb_neq]; lia.
Qed.

Lemma hexadecimal_value o a b c d l :
  left_at o (a :: b :: c :: d :: l) -> json_hexadecimal_value src o 4 = Ok (hex4 a b c d).
Proof.
  intros (_ & Ra & (_ & Rb & (_ & Rc & (_ & Rd & _)%left_at_cons)%left_at_cons)%left_at_cons)%left_at_cons.
  unfold json_hexadecimal_value. cbn [Nat.ltb Nat.leb hexadecimal_loop]. unfold hex4.
  assert (forall x, (json_hexadecimal_digit x <? 0) || (15 <? json_hexadecimal_digit x) = negb (is_xdigit x)) as Hx.
  { intros x. destruct (is_xdigit x) eqn:Hx; [apply xdigit_range in Hx; apply orb_false_iff; lia|].
    unfold is_xdigit in Hx. apply orb_true_iff. lia. }
  rewrite Ra. cbn [rbind]. rewrite Hx. destruct (is_xdigit a) eqn:Ha; [|done]. apply xdigit_range in Ha. cbn [negb andb].
  rewrite lor_nibble by lia. rewrite Rb. cbn [rbind]. rewrite Hx. destruct (is_xdigit b) eqn:Hb; [|done].
  apply xdigit_range in Hb. cbn [negb andb]. rewrite lor_nibble by lia. rewrite Rc. cbn [rbind]. rewrite Hx.
  destruct (is_xdigit c) eqn:Hc; [|done]. apply xdigit_range in Hc. cbn [negb andb]. rewrite lor_nibble by lia.
  rewrite Rd. cbn [rbind]. rewrite Hx. destruct (is_xdigit d) eqn:Hd; [|done]. apply xdigit_range in Hd. cbn [negb andb].
  rewrite lor_nibble by lia. do 2 f_equal. lia.
Qed.

(** ** Whitespace *)
Fixpoint ws (l : list ascii) : list ascii :=
  match l with c :: l' => if is_json_space c then ws l' else l | [] => [] end.

Lemma ws_split l : exists w, l = w ++ ws l /\ spaces w.
Proof.
  induction l as [|c l (w & IH & Hw)]; [by exists []; split; [|constructor]|]. cbn.
  destruct (is_json_space c) eqn:Hc; [|by exists []; split; [|constructor]].
  exists (c :: w). split; [by rewrite IH at 1|by constructor].
Qed.

Lemma ws_length l : (length (ws l) <= length l)%nat.
Proof. induction l as [|c l IH]; cbn; [done|]. destruct (is_json_space c); cbn; lia. Qed.

Lemma ws_idem l : ws (ws l) = ws l.
Proof. induction l as [|c l IH]; cbn; [done|]. destruct (is_json_space c) eqn:Hc; [done|]. cbn. by rewrite Hc. Qed.

Lemma ws_app w l : spaces w -> ws (w ++ l) = ws l.
Proof. induction 1 as [|c w Hc _ IH]; cbn; [done|]. by rewrite Hc. Qed.

Lemma ws_nonspace c l : is_json_space c = false -> ws (c :: l) = c :: l.
Proof. cbn. by intros ->. Qed.

(** The sizes and pointers of two states agree. *)
Definition keeps (st st' : json_parse_state_s) : Prop :=
  dom_size st' = dom_size st /\ data_size st' = data_size st /\ dom st' = dom st /\ data st' = data st.

Lemma skip_whitespace_loop_ok n o st l :
  left_at o l -> l <> [] -> (length l < n)%nat ->
  exists st', skip_whitespace_loop src n o st = Ok st' /\ left_at (offset st') (ws l) /\ keeps st st'.
Proof.
  revert o st l. induction n as [|n IH]; intros o st l Hl Hne Hn; [lia|]. destruct l as [|c l]; [done|].
  destruct (left_at_cons _ _ _ Hl) as (_ & Hrd & Hl'). cbn [skip_whitespace_loop]. rewrite Hrd. cbn [rbind ws].
  destruct (is_json_space c); [|by eexists].
  destruct l as [|d l].
  - replace (S o <? size src)%nat with false; [destruct (c =c "010"); by eexists|].
    symmetry. apply Nat.ltb_ge. apply left_at_nlt in Hl'. lia.
  - rewrite (left_at_lt _ _ _ Hl'). cbn [length] in Hn.
    destruct (IH (S o) (if c =c "010" then set_line o st else st) (d :: l)) as (st' & Hst & Hleft & Hk);
      [done|done|cbn [length]; lia|].
    exists st'. split; [done|]. split; [done|]. destruct (c =c "010"); done.
Qed.

Lemma skip_whitespace_ok st l :
  left_at (offset st) l ->
  exists st' b, json_skip_whitespace src st = Ok (st', b) /\ left_at (offset st') (ws l) /\ keeps st st' /\
    (b = false -> ws l = l).
Proof.
  intros Hl. unfold json_skip_whitespace. destruct l as [|c l].
  - replace (size src <=? offset st)%nat with true by (symmetry; apply Nat.leb_le; apply left_at_nlt in Hl; lia).
    by exists st, false.
  - destruct (left_at_cons _ _ _ Hl) as (Hlt & Hrd & _).
    replace (size src <=? offset st)%nat with false by (symmetry; apply Nat.leb_gt; lia). rewrite Hrd. cbn [rbind ws].
    destruct (is_json_space c) eqn:Hc; cbn [negb]; [|by exists st, false].
    edestruct (skip_whitespace_loop_ok (S (size src)) (offset st) st (c :: l)) as (st' & -> & Hleft & Hk);
      [done|done|pose proof (left_at_size _ _ Hl); lia|].
    cbn [rbind]. exists st', true. split; [done|]. cbn [ws] in Hleft. rewrite Hc in Hleft. done.
Qed.

(** Skipping: at the end of the text it reports so, otherwise it stands at the next
    character that is not a space. *)
Lemma skippables_ok st l :
  left_at (offset st) l ->
  exists st', json_skip_all_skippables F0 src st = Ok (st', match ws l with [] => true | _ => false end) /\
    left_at (offset st') (ws l) /\ keeps st st'.
Proof.
  intros Hl. unfold json_skip_all_skippables. cbn [skippables_loop]. rewrite (at_end_left _ _ Hl).
  destruct l as [|c l]; [by eexists|].
  destruct (skip_whitespace_ok st _ Hl) as (st1 & b & -> & Hl1 & Hk1 & Hb). cbn [rbind].
  change (has F0 json_parse_flags_allow_c_style_comments) with false. cbv iota. destruct b.
  - rewrite (at_end_left _ _ Hl1). destruct (ws (c :: l)) as [|d l'] eqn:Hw; [by eexists|].
    destruct (skip_whitespace_ok st1 _ Hl1) as (st2 & b & Hsk & Hl2 & Hk2 & Hb2).
    assert (ws (d :: l') = d :: l') as Hd by (by rewrite <- Hw, ws_idem).
    assert (json_skip_whitespace src st1 = Ok (st1, false)) as ->.
    { unfold json_skip_whitespace. destruct (left_at_cons _ _ _ Hl1) as (Hlt & -> & _).
      replace (size src <=? offset st1)%nat with false by (symmetry; apply Nat.leb_gt; lia). cbn [rbind].
      cbn in Hd. destruct (is_json_space d); [|done]. exfalso. apply (f_equal length) in Hd.
      pose proof (ws_length l'). cbn in Hd. lia. }
    cbn [rbind]. rewrite (at_end_left _ _ Hl1). by exists st1.
  - rewrite (at_end_left _ _ Hl1). rewrite Hb by done. exists st1. by rewrite Hb in Hl1 by done.
Qed.

(** ** Strings, first pass *)

(** After the first half of a surrogate pair the text goes on with another escape. *)
Definition hs_ok (hs : Z) (l : list ascii) : Prop :=
  hs = 0 \/ (is_high hs /\ exists l', l = "\"%char :: "u"%char :: l').

(** A piece of a string that is accepted continues any inside of a string. *)
Definition piece_ok (hs : Z) (l : list ascii) (o' : nat) (more hs' : Z) : Prop :=
  exists p l', l = p ++ l' /\ p <> [] /\ left_at o' l' /\ hs_ok hs' l' /\
    forall t out n, jchars hs' t out n -> exists out', jchars hs (p ++ t) out' (1 + more + n).

Lemma unicode_size_ok st o hs l :
  left_at o ("u"%char :: l) -> hs_ok hs ("\"%char :: "u"%char :: l) ->
  exists r, get_unicode_size src st o hs = Ok r /\
    match r with inl _ => True | inr (o', more, hs') => piece_ok hs ("\"%char :: "u"%char :: l) o' more hs' end.
Proof.
  intros Hl Hhs. pose proof (left_at_size _ _ Hl) as Hsz. cbn in Hsz. unfold get_unicode_size.
  destruct (Nat.ltb_spec (o + 5) (size src)) as [Hlt|Hge]; cbn [negb]; [|by eexists].
  destruct l as [|a [|b [|c [|d [|e l]]]]]; cbn in Hsz; try lia.
  destruct (left_at_cons _ _ _ Hl) as (_ & _ & Ha). replace (o + 1)%nat with (S o) by lia.
  rewrite (hexadecimal_value _ _ _ _ _ _ Ha). cbn [rbind].
  assert (left_at (o + 5) (e :: l)) as H5 by apply (left_at_app o ["u"%char; a; b; c; d] (e :: l) Hl).
  destruct (hex4 a b c d) as [cp|] eqn:Hx; [|by eexists]. pose proof (hex4_range _ _ _ _ _ Hx) as Hcp.
  assert (forall more hs' , hs_ok hs' (e :: l) ->
    (forall t out n, jchars hs' t out n -> exists out', jchars hs ("\"%char :: "u"%char :: a :: b :: c :: d :: t) out' (1 + more + n)) ->
    piece_ok hs ("\"%char :: "u"%char :: a :: b :: c :: d :: e :: l) (o + 5) more hs') as Hpiece.
  { intros more hs' Hok Hj. exists ("\"%char :: "u"%char :: [a; b; c; d]), (e :: l). by split_and!. }
  destruct Hhs as [->|[Hh _]]; cbn [Z.eqb negb].
  2: { unfold is_high in Hh. rewrite (proj2 (Z.eqb_neq hs 0)) by lia. cbn [negb].
    destruct (_ && _) eqn:Hlow; [|by eexists]. apply andb_true_iff in Hlow. eexists. split; [done|].
    apply Hpiece; [by left|]. intros t out n Hj. eexists. replace (1 + 3 + n) with (4 + n) by lia.
    eapply chars_low; [done|done| |done]. unfold is_low. lia. }
  assert (forall k, Z.of_nat (length (utf8 cp)) = 1 + k -> ~ is_high cp -> ~ is_low cp -> forall t out n, jchars 0 t out n ->
    exists out', jchars 0 ("\"%char :: "u"%char :: a :: b :: c :: d :: t) out' (1 + k + n)) as Hbmp.
  { intros k Hk Hnh Hnl t out n Hj. eexists. rewrite <- Hk. by apply chars_unicode. }
  unfold is_high, is_low, utf8 in Hbmp.
  destruct (Z.leb_spec cp 0x7f).
  { eexists. split; [done|]. apply Hpiece; [by left|]. apply Hbmp; [|lia..]. by destruct (Z.ltb_spec cp 0x80); [|lia]. }
  destruct (Z.leb_spec cp 0x7ff).
  { eexists. split; [done|]. apply Hpiece; [by left|]. apply Hbmp; [|lia..].
    destruct (Z.ltb_spec cp 0x80), (Z.ltb_spec cp 0x800); done || lia. }
  destruct (_ && _) eqn:Hhigh.
  { apply andb_true_iff in Hhigh. destruct (Nat.ltb_spec (size src) (o + 11)); [by eexists|].
    destruct l as [|f l]; [cbn in Hsz; lia|].
    rewrite (left_at_rd _ _ _ H5). cbn [rbind]. destruct (e =c "\") eqn:He; cbn [negb]; [|by eexists].
    assert (left_at (o + 6) (f :: l)) as H6 by apply (left_at_app o ["u"%char; a; b; c; d; e] (f :: l) Hl).
    rewrite (left_at_rd _ _ _ H6). cbn [rbind]. destruct (f =c "u") eqn:Hf; cbn [negb]; [|by eexists].
    apply ceq in He, Hf. subst. eexists. split; [done|]. apply Hpiece.
    - right. unfold is_high. split; [lia|]. by eexists.
    - intros t out n Hj. eexists. replace (1 + 0 + n) with (1 + n) by lia. eapply chars_high; [done| |done]. unfold is_high. lia. }
  clear Hhigh. destruct (_ && _) eqn:Hlow; [by eexists|]. apply andb_false_iff in Hlow.
  eexists. split; [done|]. apply Hpiece; [by left|]. apply Hbmp; [|lia..].
  destruct (Z.ltb_spec cp 0x80), (Z.ltb_spec cp 0x800), (Z.ltb_spec cp 0x10000); done || lia.
Qed.

Lemma char_size_ok st o hs c l :
  left_at o (c :: l) -> hs_ok hs (c :: l) -> c <> quote ->
  exists r, get_char_size F0 src st o hs c = Ok r /\
    match r with inl _ => True | inr (o', more, hs') => piece_ok hs (c :: l) o' more hs' end.
Proof.
  intros Hl Hhs Hq. destruct (left_at_cons _ _ _ Hl) as (Hlt & _ & Hl1). unfold get_char_size.
  destruct (_ || _) eqn:Hbad; [by eexists|]. apply orb_false_iff in Hbad as [Hnul Htab].
  destruct (c =c "\") eqn:Hbs.
  { apply ceq in Hbs. subst c. destruct l as [|c l].
    { apply left_at_nlt in Hl1. rewrite (proj2 (Nat.eqb_eq _ _) Hl1). by eexists. }
    destruct (left_at_cons _ _ _ Hl1) as (Hlt1 & -> & Hl2). rewrite (proj2 (Nat.eqb_neq _ _)) by lia. cbn [rbind].
    destruct (is_escape_char c) eqn:He.
    - eexists. split; [done|]. exists ["\"%char; c], l. split_and!; [done|done|done|..].
      + destruct Hhs as [->|[_ (l' & [= -> ->])]]; [by left|done].
      + destruct Hhs as [->|[_ (l' & [= -> ->])]]; [|done]. intros t out n Hj.
        assert (exists e, escaped c = Some e) as [e Hesc].
        { unfold is_escape_char in He. unfold escaped. rewrite !orb_true_iff in He. repeat case_match; eauto. intuition congruence. }
        exists (e :: out). replace (1 + 0 + n) with (1 + n) by lia. by apply chars_escape.
    - destruct (c =c "u") eqn:Hu; [|by eexists]. apply ceq in Hu. subst c. by apply unicode_size_ok. }
  assert (hs = 0) as ->. { destruct Hhs as [|[_ (l' & [= -> ->])]]; [done|]. by apply cneq in Hbs. }
  destruct (_ || _) eqn:Hnl; [by eexists|]. apply orb_false_iff in Hnl as [Hcr Hlf].
  eexists. split; [done|]. exists [c], l. split_and!; [done|done|done|by left|]. intros t out n Hj.
  exists (c :: out). replace (1 + 0 + n) with (1 + n) by lia. apply chars_plain; [|done].
  apply cneq in Hq. unfold plain. by rewrite Hq, Hbs, Hnul, Htab, Hcr, Hlf.
Qed.

Lemma string_loop_ok n st o sz hs l :
  left_at o l -> hs_ok hs l -> (length l < n)%nat ->
  exists r, get_string_loop F0 src n quote st o sz hs = Ok r /\
    match r with
    | inl _ => True
    | inr (o', sz') => o' = size src \/
        exists t out r k, l = t ++ quote :: r /\ jchars hs t out k /\ left_at o' (quote :: r) /\ sz' = sz + k
    end.
Proof.
  revert o sz hs l. induction n as [|n IH]; intros o sz hs l Hl Hhs Hn; [lia|]. cbn [get_string_loop].
  destruct l as [|c l].
  { pose proof (left_at_nlt _ Hl). replace (o <? size src)%nat with false by (symmetry; apply Nat.ltb_ge; lia).
    eexists. split; [done|]. by left. }
  rewrite (left_at_lt _ _ _ Hl), (left_at_rd _ _ _ Hl). cbn [rbind]. destruct (quote =c c) eqn:Hq.
  { apply ceq in Hq. subst c. eexists. split; [done|]. right. exists [], [], l, 0. destruct Hhs as [->|[_ (? & ?)]]; [|done].
    split_and!; [done|constructor|done|lia]. }
  apply cneq in Hq. destruct (char_size_ok st o hs c l) as (r & -> & Hr); [done|done|congruence|]. cbn [rbind].
  destruct r as [st'|[[o' more] hs']]; [by eexists|]. destruct Hr as (p & l' & Hp & Hne & Hl' & Hhs' & Hj).
  destruct (IH o' (sz + 1 + more) hs' l') as (r & -> & Hr); [done|done| |].
  { rewrite Hp in Hn. rewrite length_app in Hn. destruct p; [done|]. cbn in Hn. lia. }
  exists r. split; [done|]. destruct r as [|[o2 sz2]]; [done|]. destruct Hr as [|(t & out & r & k & -> & Hc & Hl2 & ->)]; [by left|].
  right. destruct (Hj _ _ _ Hc) as [out' Hc']. exists (p ++ t), out', r, (1 + more + k). rewrite Hp.
  split_and!; [by rewrite <- app_assoc|done|done|lia].
Qed.

(** Where a first pass leaves the state: it moved over text to [r], adding [dd] to the
    structures and [da] to the characters. *)
Definition adds (st st' : json_parse_state_s) (r : list ascii) (dd da : Z) : Prop :=
  left_at (offset st') r /\ dom_size st' = dom_size st + dd /\ data_size st' = data_size st + da.

Lemma get_string_size_ok st l is_key :
  left_at (offset st) l -> l <> [] ->
  exists st' b, json_get_string_size F0 src is_key st = Ok (st', b) /\
    (b = false -> exists t out r k, l = quote :: t ++ quote :: r /\ jchars 0 t out k /\
       adds st st' r sizeof_json_string_s (k + 1)).
Proof.
  intros Hl Hne. destruct l as [|c l]; [done|]. destruct (left_at_cons _ _ _ Hl) as (_ & Hrd & Hl1).
  unfold json_get_string_size. rewrite Hrd. cbn [rbind].
  change (has F0 json_parse_flags_allow_location_information) with false.
  change (has F0 json_parse_flags_allow_single_quoted_strings) with false. cbn [andb negb].
  rewrite andb_true_r. destruct (c =c quote) eqn:Hc; cbn [negb]; [|by do 2 eexists].
  apply ceq in Hc. subst c. change (quote =c "'") with false. cbv iota.
  edestruct (string_loop_ok (S (size src))) as (r & -> & Hr); [exact Hl1|by left|pose proof (left_at_size _ _ Hl1); lia|].
  cbn [rbind]. destruct r as [st'|[o' sz']]; [by do 2 eexists|].
  destruct (Nat.eqb_spec o' (size src)) as [He|Hne']; [by do 2 eexists|].
  destruct Hr as [|(t & out & r & k & -> & Hj & Hl2 & ->)]; [done|]. do 2 eexists. split; [done|]. intros _.
  exists t, out, r, k. split_and!; [done|done|]. apply left_at_cons in Hl2 as (_ & _ & Hl3).
  split; [done|]. cbn. lia.
Qed.

(** ** Strings of the grammar, both passes *)
Lemma jchars_count hs t out n : jchars hs t out n -> Z.of_nat (length out) <= n.
Proof.
  induction 1; cbn [length]; rewrite ?length_app; try lia. pose proof (utf8_length (combine hs cp)). lia.
Qed.

Lemma escaped_escape c e : escaped c = Some e -> is_escape_char c = true /\ (c =c "u") = false.
Proof.
  unfold escaped, is_escape_char. intros H. split.
  - rewrite !orb_true_iff. repeat case_match; intuition congruence.
  - apply cneq. intros ->. cbn in H. done.
Qed.

Lemma jchars_head hs t out n : jchars hs t out n -> hs <> 0 -> hs_ok hs t.
Proof. inversion 1; subst; intros; try done. right. split; [done|]. by eexists. Qed.

(** One character of the first pass. *)
Lemma char_size_plain st o c :
  plain c = true -> get_char_size F0 src st o 0 c = Ok (inr (S o, 0, 0)).
Proof.
  unfold plain, get_char_size. rewrite !andb_true_iff, !negb_true_iff. intros [[[[[_ ->] ->] ->] ->] ->]. done.
Qed.

Lemma char_size_escape st o c e l :
  left_at o ("\"%char :: c :: l) -> escaped c = Some e -> get_char_size F0 src st o 0 "\" = Ok (inr (S (S o), 0, 0)).
Proof.
  intros (_ & _ & Hl)%left_at_cons [He _]%escaped_escape. unfold get_char_size. cbn [orb].
  destruct (left_at_cons _ _ _ Hl) as (Hlt & -> & _). rewrite (proj2 (Nat.eqb_neq _ _)) by lia. cbn [rbind]. by rewrite He.
Qed.

(** An escape of the first pass, at its backslash. *)
Lemma char_size_unicode st o hs a b c d cp e l :
  left_at o ("\"%char :: "u"%char :: a :: b :: c :: d :: e :: l) -> hex4 a b c d = Some cp ->
  get_char_size F0 src st o hs "\" =
    if negb (hs =? 0) then
      if (0xdc00 <=? cp) && (cp <=? 0xdfff) then Ok (inr ((o + 6)%nat, 3, 0)) else Ok (inl (fail_at escape_error (S o) st))
    else if (0xd800 <=? cp) && (cp <=? 0xdbff) then
      if (length (e :: l) <? 6)%nat || negb (e =c "\") || negb (at_ src (o + 7) (fun f => f =c "u"))
      then Ok (inl (fail_at escape_error (S o) st)) else Ok (inr ((o + 6)%nat, 0, cp))
    else if (0xdc00 <=? cp) && (cp <=? 0xdfff) then Ok (inl (fail_at escape_error (S o) st))
    else Ok (inr ((o + 6)%nat, Z.of_nat (length (utf8 cp)) - 1, 0)).
Proof.
  intros Hl Hx. pose proof (left_at_size _ _ Hl) as Hsz. cbn [length] in Hsz. pose proof (hex4_range _ _ _ _ _ Hx) as Hcp.
  destruct (left_at_cons _ _ _ Hl) as (_ & _ & Hl1). destruct (left_at_cons _ _ _ Hl1) as (Hlt & Hrd & Hl2).
  unfold get_char_size. cbn [orb]. rewrite (proj2 (Nat.eqb_neq _ _)) by lia. change ("\" =c "\") with true. cbv iota.
  rewrite Hrd. cbn [rbind]. change (is_escape_char "u") with false. change ("u" =c "u") with true. cbv iota.
  unfold get_unicode_size. replace (S o + 5 <? size src)%nat with true by (symmetry; apply Nat.ltb_lt; lia).
  cbn [negb]. replace (S o + 1)%nat with (S (S o)) by lia. rewrite (hexadecimal_value _ _ _ _ _ _ Hl2), Hx. cbn [rbind].
  replace (S o + 5)%nat with (o + 6)%nat by lia. destruct (negb (hs =? 0)) eqn:Hhs; [done|].
  apply negb_false_iff, Z.eqb_eq in Hhs. subst hs.
  unfold utf8. destruct (Z.leb_spec cp 0x7f), (Z.ltb_spec cp 0x80); try lia.
  { rewrite !(proj2 (andb_false_iff _ _)) by lia. done. }
  destruct (Z.leb_spec cp 0x7ff), (Z.ltb_spec cp 0x800); try lia.
  { rewrite !(proj2 (andb_false_iff _ _)) by lia. done. }
  destruct ((0xd800 <=? cp) && (cp <=? 0xdbff)) eqn:Hh.
  { assert (left_at (o + 6) (e :: l)) as H6 by apply (left_at_app o ["\"%char; "u"%char; a; b; c; d] (e :: l) Hl).
    cbn [length]. destruct (Nat.ltb_spec (size src) (S o + 11)), (Nat.ltb_spec (S (length l)) 6); try lia; [done|].
    cbn [orb]. rewrite (left_at_rd _ _ _ H6). cbn [rbind]. destruct (e =c "\"); cbn [negb orb]; [|done].
    destruct l as [|f l]; [cbn in *; lia|].
    assert (left_at (o + 7) (f :: l)) as H7 by apply (left_at_app o ["\"%char; "u"%char; a; b; c; d; e] (f :: l) Hl).
    replace (S o + 6)%nat with (o + 7)%nat by lia. rewrite (left_at_rd _ _ _ H7), (at_left _ _ _ H7). cbn [rbind].
    by destruct (f =c "u"). }
  apply andb_false_iff in Hh. destruct (Z.ltb_spec cp 0x10000); [|lia].
  replace ((0xd800 <=? cp) && (cp <=? 0xdfff)) with ((0xdc00 <=? cp) && (cp <=? 0xdfff)); [done|].
  destruct (Z.leb_spec 0xdc00 cp), (Z.leb_spec 0xd800 cp), (Z.leb_spec cp 0xdfff); cbn; lia || done.
Qed.

Lemma string_loop_grammar hs t out k n st o sz r :
  jchars hs t out k -> left_at o (t ++ quote :: r) -> (length t < n)%nat ->
  get_string_loop F0 src n quote st o sz hs = Ok (inr ((o + length t)%nat, sz + k)).
Proof.
  intros Hj. revert n o sz. induction Hj as [|c t out k Hp Hj IH|c e t out k He Hj IH|a b c d cp t out k Hx Hnh Hnl Hj IH
    |a b c d cp t out k Hx Hh Hj IH|hs a b c d cp t out k Hh Hx Hlow Hj IH]; intros n o sz Hl Hn;
    (destruct n as [|n]; [cbn in Hn; lia|]); cbn [get_string_loop app length] in *;
    rewrite (left_at_lt _ _ _ Hl), (left_at_rd _ _ _ Hl); cbn [rbind].
  - change (quote =c quote) with true. cbv iota. do 3 f_equal; lia.
  - replace (quote =c c) with false.
    2: { symmetry. apply cneq. intros <-. done. }
    rewrite char_size_plain by done. cbn [rbind]. apply left_at_cons in Hl as (_ & _ & Hl).
    rewrite IH by (done || lia). do 3 f_equal; lia.
  - change (quote =c "\") with false. cbv iota. rewrite (char_size_escape _ _ _ _ _ Hl He). cbn [rbind].
    apply left_at_cons in Hl as (_ & _ & Hl). apply left_at_cons in Hl as (_ & _ & Hl).
    rewrite IH by (done || lia). do 3 f_equal; lia.
  - change (quote =c "\") with false. cbv iota. unfold is_high, is_low in *.
    destruct (t ++ quote :: r) as [|e l] eqn:Ht; [by destruct t|]. rewrite (char_size_unicode _ _ _ _ _ _ _ _ _ _ Hl Hx).
    rewrite !(proj2 (andb_false_iff _ _)) by lia. cbn [Z.eqb negb rbind].
    apply (left_at_app o ["\"%char; "u"%char; a; b; c; d]) in Hl. cbn [length] in Hl.
    rewrite IH by (done || lia). do 3 f_equal; lia.
  - change (quote =c "\") with false. cbv iota. pose proof Hh as Hh'. unfold is_high in Hh'.
    destruct (jchars_head _ _ _ _ Hj ltac:(lia)) as [|[_ (l' & ->)]]; [lia|].
    rewrite (char_size_unicode _ _ _ _ _ _ _ _ _ _ Hl Hx). rewrite (is_high_dec cp) by done. cbn [Z.eqb negb].
    apply (left_at_app o ["\"%char; "u"%char; a; b; c; d]) in Hl. cbn [length] in Hl.
    destruct (left_at_cons _ _ _ Hl) as (_ & _ & Hl7). replace (S (o + 6)) with (o + 7)%nat in Hl7 by lia.
    rewrite (at_left _ _ _ Hl7). inversion Hj; subst; [unfold is_high in Hh; lia..|].
    replace (_ <? 6)%nat with false by (symmetry; apply Nat.ltb_ge; cbn [length app]; rewrite length_app; cbn [length]; lia).
    change ("\" =c "\") with true. change ("u" =c "u") with true. cbn [orb negb rbind].
    rewrite IH by (done || lia). do 3 f_equal; lia.
  - change (quote =c "\") with false. cbv iota. unfold is_high, is_low in *.
    destruct (t ++ quote :: r) as [|e l] eqn:Ht; [by destruct t|]. rewrite (char_size_unicode _ _ _ _ _ _ _ _ _ _ Hl Hx).
    rewrite (proj2 (Z.eqb_neq hs 0)) by lia. rewrite (proj2 (andb_true_iff _ _)) by lia. cbn [negb rbind].
    apply (left_at_app o ["\"%char; "u"%char; a; b; c; d]) in Hl. cbn [length] in Hl.
    rewrite IH by (done || lia). do 3 f_equal; lia.
Qed.

Lemma get_string_size_grammar st is_key t out k r :
  jchars 0 t out k -> left_at (offset st) (quote :: t ++ quote :: r) ->
  exists st', json_get_string_size F0 src is_key st = Ok (st', false) /\ adds st st' r sizeof_json_string_s (k + 1).
Proof.
  intros Hj Hl. destruct (left_at_cons _ _ _ Hl) as (_ & Hrd & Hl1). pose proof (left_at_size _ _ Hl1) as Hsz.
  rewrite length_app in Hsz. unfold json_get_string_size. rewrite Hrd. cbn [rbind].
  change (has F0 json_parse_flags_allow_location_information) with false. cbn [andb negb].
  change (quote =c quote) with true. change (quote =c "'") with false. cbn [andb negb].
  rewrite (string_loop_grammar _ _ _ _ _ _ _ _ _ Hj Hl1) by (cbn in Hsz; lia). cbn [rbind]. apply left_at_app in Hl1.
  destruct (left_at_cons _ _ _ Hl1) as (Hlt & _ & Hl2). rewrite (proj2 (Nat.eqb_neq _ _)) by lia.
  eexists. split; [done|]. split; [done|]. cbn. lia.
Qed.

(** ** Numbers *)
Definition stops (r : list ascii) : Prop := match r with [] => True | c :: _ => ends_number F0 c = true end.

Definition head_not (p : ascii -> bool) (l : list ascii) : Prop := match l with c :: _ => p c = false | [] => True end.

Lemma span_split (p : ascii -> bool) l :
  exists a b, l = a ++ b /\ Forall (fun c => p c = true) a /\ head_not p b /\ span p l = length a.
Proof.
  induction l as [|c l (a & b & -> & Ha & Hb & Hs)]; [exists [], []; by split_and!; try constructor|]. cbn.
  destruct (p c) eqn:Hc.
  - exists (c :: a), b. split_and!; [done|by constructor|done|cbn; lia].
  - exists [], (c :: a ++ b). split_and!; [done|constructor|done|done].
Qed.

Lemma span_app (p : ascii -> bool) a b :
  Forall (fun c => p c = true) a -> head_not p b -> span p (a ++ b) = length a.
Proof.
  induction 1 as [|c a Hc _ IH]; cbn; [|rewrite Hc; intros; by rewrite IH].
  destruct b as [|c b]; cbn; [done|by intros ->].
Qed.

Lemma scan_while_ok p o l :
  left_at o l -> exists a b, l = a ++ b /\ Forall (fun c => p c = true) a /\ head_not p b /\
    scan_while src p o = (o + length a)%nat /\ left_at (scan_while src p o) b.
Proof.
  intros Hl. destruct (span_split p l) as (a & b & Hab & Ha & Hb & Hs). exists a, b.
  assert (scan_while src p o = (o + length a)%nat) as Hsc. { unfold scan_while. by rewrite (proj2 Hl), Hs. }
  split_and!; [done..|]. rewrite Hsc. apply left_at_app. by rewrite <- Hab.
Qed.

Lemma scan_while_app p o a b :
  left_at o (a ++ b) -> Forall (fun c => p c = true) a -> head_not p b -> scan_while src p o = (o + length a)%nat.
Proof. intros Hl Ha Hb. unfold scan_while. by rewrite (proj2 Hl), span_app. Qed.

(** Past the end of the text nothing is scanned. *)
Lemma scan_while_end p o : (size src <= o)%nat -> scan_while src p o = o.
Proof. intros. unfold scan_while. rewrite drop_ge by done. cbn. lia. Qed.

Lemma fraction_ok o st l had :
  left_at o l ->
  match get_fraction_size F0 src had o st with
  | inl _ => True
  | inr o' => exists f r, l = f ++ r /\ jfraction f /\ left_at o' r /\ (f <> [] -> head_not is_digit r)
              /\ (f = [] -> head_not (fun c => c =c ".") r)
  end.
Proof.
  intros Hl. unfold get_fraction_size. rewrite (at_left _ _ _ Hl). destruct l as [|c l]; [by exists [], []; split_and!; try left|].
  destruct (c =c ".") eqn:Hc; [|by exists [], (c :: l); split_and!; try left]. apply ceq in Hc. subst c.
  apply left_at_cons in Hl as (_ & _ & Hl). rewrite (at_left _ _ _ Hl).
  change (has F0 json_parse_flags_allow_leading_or_trailing_decimal_point) with false. cbn [negb orb]. rewrite andb_true_r.
  destruct (match l with [] => false | c :: _ => is_digit c end) eqn:Hd; cbn [negb]; [|done].
  destruct (scan_while_ok is_digit _ _ Hl) as (a & b & -> & Ha & Hb & _ & Hl').
  exists ("."%char :: a), b. split_and!; [done| |done|done|done]. right. exists a. split_and!; [done| |done].
  intros ->. destruct b; cbn in Hd; [done|]. cbn in Hb. congruence.
Qed.

Lemma exponent_ok o st l :
  left_at o l -> head_not is_digit l ->
  match get_exponent_size src o st with
  | inl _ => True
  | inr o' => o' = S (size src) \/ exists e r, l = e ++ r /\ jexponent e /\ left_at o' r
  end.
Proof.
  intros Hl _. unfold get_exponent_size. rewrite (at_left _ _ _ Hl).
  destruct l as [|c l]; [by right; exists [], []; split_and!; try left|].
  destruct (_ || _) eqn:Hc; [|by right; exists [], (c :: l); split_and!; try left].
  assert (c = "e"%char \/ c = "E"%char) as He by (rewrite orb_true_iff, !ceq in Hc; done).
  apply left_at_cons in Hl as (_ & _ & Hl). rewrite (at_left _ _ _ Hl).
  set (sg := match l with [] => false | c :: _ => (c =c "-") || (c =c "+") end).
  assert (exists sign l', l = sign ++ l' /\ (sign = [] \/ sign = ["-"%char] \/ sign = ["+"%char]) /\
    left_at (if sg then S (S o) else S o) l') as (sign & l' & -> & Hsign & Hl').
  { subst sg. destruct l as [|d l]; [exists [], []; by split_and!; try left|].
    destruct ((d =c "-") || (d =c "+")) eqn:Hd.
    - exists [d], l. apply left_at_cons in Hl as (_ & _ & Hl). split_and!; [done| |done].
      rewrite orb_true_iff, !ceq in Hd. destruct Hd as [-> | ->]; auto.
    - exists [], (d :: l). by split_and!; try left. }
  rewrite (at_left _ _ _ Hl'). destruct l' as [|d l'].
  - left. pose proof (left_at_nlt _ Hl'). rewrite scan_while_end; lia.
  - destruct (is_digit d) eqn:Hd; cbn [negb]; [|done]. right. apply left_at_cons in Hl' as (_ & _ & Hl').
    destruct (scan_while_ok is_digit _ _ Hl') as (a & b & -> & Ha & Hb & _ & Hl2).
    exists (c :: sign ++ d :: a), b. split_and!; [cbn; by rewrite <- app_assoc| |done].
    right. exists c, sign, (d :: a). split_and!; [done|done|done|done|by constructor].
Qed.

(** The accepted numbers. *)
(** What follows the digits of a number: a fraction and an exponent. *)
Lemma number_rest_ok text sign i r' had o' st :
  text = sign ++ i ++ r' -> sign = [] \/ sign = ["-"%char] -> jint i -> head_not is_digit r' -> left_at o' r' ->
  match (match get_fraction_size F0 src had o' st with inl st => inl st | inr o => get_exponent_size src o st end) with
  | inl _ => True
  | inr e => e = S (size src) \/ exists t r, text = t ++ r /\ jnumber t /\ left_at e r
  end.
Proof.
  intros -> Hsign Hint Hhead Ho'. pose proof (fraction_ok o' st r' had Ho') as Hf.
  destruct (get_fraction_size _ _ _ _ _) as [|o2]; [done|]. destruct Hf as (f & r2 & -> & Hjf & Hl2 & Hf1 & Hf2).
  assert (head_not is_digit r2) as Hr2. { destruct f; [done|by apply Hf1]. }
  pose proof (exponent_ok o2 st r2 Hl2 Hr2) as He. destruct (get_exponent_size _ _ _) as [|o3]; [done|].
  destruct He as [->|(e & r3 & -> & Hje & Hl3)]; [by left|]. right.
  exists (sign ++ i ++ f ++ e), r3. split_and!; [by rewrite <- !app_assoc|by exists sign, i, f, e|done].
Qed.

Lemma decimal_ok o st c l :
  left_at o (c :: l) -> (c =c "-") || is_digit c = true ->
  match get_decimal_size F0 src o st with
  | inl _ => True
  | inr e => e = S (size src) \/ (c = "-"%char /\ l = [] /\ e = size src) \/
             exists t r, c :: l = t ++ r /\ jnumber t /\ left_at e r
  end.
Proof.
  intros Hl Hc. unfold get_decimal_size. change (has F0 json_parse_flags_allow_leading_plus_sign) with false.
  rewrite (at_left _ _ _ Hl), orb_false_r. unfold get_inf_or_nan.
  change (has F0 json_parse_flags_allow_inf_and_nan) with false. cbn [andb negb].
  change (has F0 json_parse_flags_allow_leading_or_trailing_decimal_point) with false.
  assert (exists sign l', c :: l = sign ++ l' /\ (sign = [] \/ sign = ["-"%char]) /\ (sign = [] -> l' = c :: l /\ is_digit c = true) /\
    ((c =c "-") = true -> c = "-"%char /\ l' = l) /\
    left_at (if c =c "-" then S o else o) l') as (sign & l' & Hcl & Hsign & Hs0 & Hs1 & Hl').
  { destruct (c =c "-") eqn:Hm.
    - apply ceq in Hm. subst c. exists ["-"%char], l. apply left_at_cons in Hl as (_ & _ & Hl). split_and!; auto. done.
    - exists [], (c :: l). split_and!; auto. done. }
  rewrite !(at_left _ _ _ Hl'). rewrite andb_true_r.
  set (neg := c =c "-") in *. destruct l' as [|d l'].
  { cbn [andb]. rewrite andb_false_r. rewrite scan_while_end by (apply left_at_nlt in Hl'; lia).
    pose proof (fraction_ok (if neg then S o else o) st [] false Hl') as Hf.
    rewrite (at_left _ _ _ Hl'). cbn [orb]. destruct (get_fraction_size _ _ _ _ _) as [|o'] eqn:Hfr; [done|].
    unfold get_fraction_size in Hfr. rewrite (at_left _ _ _ Hl') in Hfr. simplify_eq.
    unfold get_exponent_size. rewrite (at_left _ _ _ Hl'). right. left. destruct neg eqn:Hneg.
    - destruct Hs1 as [-> <-]; [done|]. split_and!; [done|done|]. by apply left_at_nlt.
    - exfalso. destruct Hsign as [->| ->]; [by destruct Hs0|]. cbn in Hcl. simplify_eq. }
  cbn [orb negb]. rewrite (andb_true_r (negb (is_digit d))).
  destruct (neg && negb (is_digit d)) eqn:Hnd; [done|].
  assert (is_digit d = true) as Hd.
  { destruct (is_digit d) eqn:Hd; [done|]. rewrite andb_true_r in Hnd. destruct Hsign as [->| ->].
    - destruct Hs0 as [[= -> ->] ?]; [done|]. congruence.
    - cbn in Hcl. subst neg. simplify_eq. }
  assert (forall i had r', d :: l' = i ++ r' -> jint i -> head_not is_digit r' -> forall o', left_at o' r' ->
    match (match get_fraction_size F0 src had o' st with inl st => inl st | inr o => get_exponent_size src o st end) with
    | inl _ => True
    | inr e => e = S (size src) \/ (c = "-"%char /\ l = [] /\ e = size src) \/
               exists t r, c :: l = t ++ r /\ jnumber t /\ left_at e r
    end) as Hrest.
  { intros i had r' Hi Hint Hhead o' Ho'. rewrite Hi in Hcl. pose proof (number_rest_ok _ sign i r' had o' st Hcl Hsign Hint Hhead Ho') as Hr.
    destruct (match get_fraction_size _ _ _ _ _ with inl st => inl st | inr o => _ end); [done|]. destruct Hr; auto. }
  destruct (d =c "0") eqn:H0; cbn [andb orb].
  - apply ceq in H0. subst d. destruct (left_at_cons _ _ _ Hl') as (_ & _ & Hl2).
    rewrite (at_left _ _ _ Hl2). destruct (match l' with [] => false | c :: _ => is_digit c end) eqn:Hd2; [done|].
    assert (head_not is_digit l') as Hh by (by destruct l').
    rewrite (scan_while_app is_digit _ [] l') by (done || constructor). cbn [length]. rewrite Nat.add_0_r.
    apply (Hrest ["0"%char] _ l'); [done|by left|done|done].
  - destruct (scan_while_ok is_digit _ _ Hl') as (a & b & Hab & Ha & Hb & _ & Hl2).
    apply (Hrest a _ b); [done| |done|done]. right. destruct a as [|d' a]; [cbn in Hab; subst b; cbn in Hb; congruence|].
    cbn in Hab. simplify_eq. split_and!; [done|done|]. cbn. apply cneq in H0. congruence.
Qed.

Lemma get_number_size_ok st c l :
  left_at (offset st) (c :: l) -> (c =c "-") || is_digit c = true ->
  exists st' b, json_get_number_size F0 src st = Ok (st', b) /\
    (b = false -> offset st' = S (size src) \/
       (c = "-"%char /\ l = [] /\ adds st st' [] sizeof_json_number_s 2) \/
       exists t r, c :: l = t ++ r /\ jnumber t /\ stops r /\ adds st st' r sizeof_json_number_s (Z.of_nat (length t) + 1)).
Proof.
  intros Hl Hc. unfold json_get_number_size.
  change (has F0 json_parse_flags_allow_hexadecimal_numbers) with false. cbn [andb].
  pose proof (decimal_ok (offset st) (add_dom_size sizeof_json_number_s st) c l Hl Hc) as Hdec.
  cbn [offset add_dom_size] in *. destruct (get_decimal_size _ _ _ _) as [st'|e]; [by do 2 eexists|].
  destruct (at_ src e _) eqn:Hat; [by do 2 eexists|]. do 2 eexists. split; [done|]. intros _.
  pose proof (left_at_size _ _ Hl) as Hsz. cbn [length] in Hsz.
  destruct Hdec as [->|[(-> & -> & ->)|(t & r & Htr & Hj & Hl')]]; [by left|right; left|right; right].
  - split_and!; [done|done|]. split; [|cbn; cbn in Hsz; lia]. cbn. split; [done|]. apply drop_ge. done.
  - exists t, r. split_and!; [done|done| |].
    + rewrite (at_left _ _ _ Hl') in Hat. destruct r; [done|]. cbn. by apply negb_false_iff.
    + split; [done|]. cbn. pose proof (left_at_size _ _ Hl'). apply (f_equal length) in Htr. rewrite length_app in Htr.
      cbn in Htr. lia.
Qed.

(** Numbers of the grammar, first pass. *)
Definition exp_head (l : list ascii) : Prop := head_not (fun c => is_digit c || (c =c ".")) l.

Lemma ends_number_not c : ends_number F0 c = true -> is_number_char c = false.
Proof.
  unfold ends_number. change (has F0 json_parse_flags_allow_equals_in_object) with false. rewrite andb_false_r, orb_false_r.
  unfold is_json_space. rewrite !orb_true_iff, !ceq. intros H. repeat destruct H as [H|H]; by subst c.
Qed.

Lemma number_char_not c : is_number_char c = false ->
  is_digit c = false /\ (c =c ".") = false /\ (c =c "e") = false /\ (c =c "E") = false /\ (c =c "+") = false /\ (c =c "-") = false.
Proof. unfold is_number_char. rewrite !orb_false_iff. tauto. Qed.

Lemma stops_head r p : (forall c, is_number_char c = false -> p c = false) -> stops r -> head_not p r.
Proof. destruct r as [|c r]; cbn; [done|]. intros Hp H%ends_number_not. by apply Hp. Qed.

Lemma jexponent_head e r : jexponent e -> stops r -> exp_head (e ++ r).
Proof.
  intros [->|(c & sign & ds & -> & [-> | ->] & _)] Hr; [|done..]. apply stops_head; [|done].
  intros c (-> & -> & _)%number_char_not. done.
Qed.

Lemma exp_head_digit l : exp_head l -> head_not is_digit l.
Proof. destruct l; cbn; [done|]. rewrite orb_false_iff. tauto. Qed.

Lemma jfraction_head f l : jfraction f -> exp_head l -> head_not is_digit (f ++ l).
Proof. intros [->|(ds & -> & _)] Hl; [by apply exp_head_digit|done]. Qed.

Lemma fraction_grammar o st f l had :
  jfraction f -> exp_head l -> left_at o (f ++ l) -> get_fraction_size F0 src had o st = inr (o + length f)%nat.
Proof.
  intros Hf Hh Hl. unfold get_fraction_size. rewrite (at_left _ _ _ Hl). destruct Hf as [->|(ds & -> & Hne & Hds)]; cbn [app].
  - cbn [length]. rewrite Nat.add_0_r. destruct l as [|c l]; [done|]. cbn in Hh. apply orb_false_iff in Hh as [_ ->]. done.
  - change ("." =c ".") with true. cbv iota. cbn [app] in Hl. apply left_at_cons in Hl as (_ & _ & Hl).
    rewrite (at_left _ _ _ Hl). replace (match ds ++ l with [] => false | c :: _ => is_digit c end) with true.
    2: { destruct ds as [|c ds]; [done|]. cbn. by inversion Hds. }
    cbn [negb andb]. rewrite (scan_while_app _ _ _ _ Hl Hds) by (by apply exp_head_digit). f_equal. cbn. lia.
Qed.

Lemma exponent_grammar o st e r :
  jexponent e -> stops r -> left_at o (e ++ r) -> get_exponent_size src o st = inr (o + length e)%nat.
Proof.
  intros He Hr Hl. assert (head_not is_digit r) as Hd by (apply stops_head; [|done]; by intros c (? & _)%number_char_not).
  unfold get_exponent_size. rewrite (at_left _ _ _ Hl). destruct He as [->|(c & sign & ds & -> & Hc & Hsign & Hne & Hds)]; cbn [app].
  - cbn [length]. rewrite Nat.add_0_r. destruct r as [|c r]; [done|].
    destruct (number_char_not c) as (_ & _ & -> & -> & _); [by apply ends_number_not|]. done.
  - replace ((c =c "e") || (c =c "E")) with true by (by destruct Hc as [-> | ->]). cbn [app] in Hl.
    apply left_at_cons in Hl as (_ & _ & Hl). rewrite <- app_assoc in Hl. rewrite (at_left _ _ _ Hl).
    destruct ds as [|d ds]; [done|]. inversion Hds as [|? ? Hdd Hds']; subst.
    assert (((d =c "-") || (d =c "+")) = false) as Hnd.
    { apply orb_false_iff. split; apply cneq; intros ->; done. }
    set (b := match sign ++ (d :: ds) ++ r with [] => false | c :: _ => _ end).
    assert ((if b then S (S o) else S o) = (S o + length sign)%nat) as ->.
    { subst b. destruct Hsign as [->|[->| ->]]; cbn [app length]; [|change (("-" =c "-") || ("-" =c "+")) with true; cbv iota; lia
        |change (("+" =c "-") || ("+" =c "+")) with true; cbv iota; lia]. rewrite Hnd. lia. }
    apply left_at_app in Hl. rewrite (at_left _ _ _ Hl). cbn [app]. rewrite Hdd. cbn [negb].
    apply left_at_cons in Hl as (_ & _ & Hl). rewrite (scan_while_app _ _ _ _ Hl Hds' Hd). f_equal. cbn. rewrite length_app. cbn. lia.
Qed.

Lemma decimal_grammar o st t r :
  jnumber t -> stops r -> left_at o (t ++ r) -> get_decimal_size F0 src o st = inr (o + length t)%nat.
Proof.
  intros (sign & i & f & e & -> & Hsign & Hi & Hf & He) Hr Hl. rewrite <- !app_assoc in Hl.
  pose proof (jexponent_head _ _ He Hr) as Heh. pose proof (jfraction_head _ _ Hf Heh) as Hfh.
  assert (exists d i', i = d :: i' /\ is_digit d = true) as (d & i' & Hdi & Hd).
  { destruct Hi as [->|(Hne & Hds & _)]; [by eexists _, _|]. destruct i as [|d i']; [done|]. inversion Hds; subst. by eexists _, _. }
  unfold get_decimal_size. change (has F0 json_parse_flags_allow_leading_plus_sign) with false. unfold get_inf_or_nan.
  change (has F0 json_parse_flags_allow_inf_and_nan) with false. rewrite (at_left _ _ _ Hl). cbn [andb negb].
  set (b := match sign ++ _ with [] => false | c :: _ => _ end).
  assert ((if b then S o else o) = (o + length sign)%nat) as ->.
  { subst b. subst i. destruct Hsign as [->| ->]; cbn [app length]; [|change ("-" =c "-") with true; cbn [orb]; lia].
    replace (d =c "-") with false by (symmetry; apply cneq; intros ->; done). cbn [orb]. lia. }
  apply left_at_app in Hl. rewrite !(at_left _ _ _ Hl). subst i. cbn [app]. rewrite Hd. cbn [andb negb].
  rewrite andb_false_r. cbn [app] in Hl.
  assert ((d =c "0") && at_ src (if d =c "0" then S (o + length sign) else o + length sign) is_digit = false /\
    scan_while src is_digit (if d =c "0" then S (o + length sign) else o + length sign) = (o + length sign + S (length i'))%nat)
    as [-> ->].
  { destruct Hi as [[= -> ->]|(_ & Hds & Hh)].
    - change ("0" =c "0") with true. cbv iota. apply left_at_cons in Hl as (_ & _ & Hl). cbn [app] in Hl.
      rewrite (at_left _ _ _ Hl). split; [cbn [andb]; destruct (f ++ e ++ r); done|].
      rewrite (scan_while_app is_digit _ [] _ Hl) by (done || constructor). cbn. lia.
    - replace (d =c "0") with false by (symmetry; apply cneq; intros ->; done). split; [done|].
      rewrite (scan_while_app is_digit _ (d :: i') _ Hl Hds) by done. done. }
  apply (left_at_app _ (d :: i')) in Hl. cbn [length] in Hl.
  rewrite (fraction_grammar _ _ _ _ _ Hf Heh Hl). apply left_at_app in Hl.
  rewrite (exponent_grammar _ _ _ _ He Hr Hl). f_equal. rewrite !length_app. cbn. rewrite !length_app. lia.
Qed.

Lemma get_number_size_grammar st t r :
  jnumber t -> stops r -> left_at (offset st) (t ++ r) ->
  exists st', json_get_number_size F0 src st = Ok (st', false) /\
    adds st st' r sizeof_json_number_s (Z.of_nat (length t) + 1).
Proof.
  intros Hj Hr Hl. unfold json_get_number_size.
  change (has F0 json_parse_flags_allow_hexadecimal_numbers) with false. cbn [andb offset add_dom_size].
  rewrite (decimal_grammar _ _ _ _ Hj Hr Hl). apply left_at_app in Hl. rewrite (at_left _ _ _ Hl).
  replace (match r with [] => false | c :: _ => _ end) with false.
  2: { destruct r as [|c r]; [done|]. cbn in Hr. by rewrite Hr. }
  eexists. split; [done|]. split; [done|]. cbn. lia.
Qed.

(** ** The second pass over strings and numbers *)
Section Fill.
Context (dom_end data_end : Z).

(** Where a second pass leaves the state: it moved over text to [r], took [dd] bytes of
    structures and at most [da] bytes of characters. *)
Definition fills (st st' : json_parse_state_s) (r : list ascii) (dd da : Z) : Prop :=
  left_at (offset st') r /\ dom st' = dom st + dd /\ data st <= data st' <= data st + da.

Lemma puts_ok st cs out :
  data st + Z.of_nat (length out) + Z.of_nat (length cs) <= data_end -> puts data_end st cs out = Ok (out ++ cs).
Proof.
  revert out. induction cs as [|c cs IH]; intros out H; cbn [puts length] in *; [by rewrite app_nil_r|].
  unfold put. rewrite (proj2 (Z.ltb_lt _ _)) by lia. cbn [rbind]. rewrite IH by (rewrite length_app; cbn; lia).
  by rewrite <- app_assoc.
Qed.

Lemma put_ok st c out :
  data st + Z.of_nat (length out) < data_end -> put data_end st c out = Ok (out ++ [c]).
Proof. intros H. unfold put. by rewrite (proj2 (Z.ltb_lt _ _)) by lia. Qed.

Lemma parse_escape_escaped o hs c e l :
  left_at o (c :: l) -> escaped c = Some e -> parse_escape src o hs = Ok ([e], S o, hs).
Proof.
  intros (_ & Hrd & _)%left_at_cons He. destruct (escaped_escape _ _ He) as [_ Hu]. unfold parse_escape. rewrite Hrd. cbn [rbind].
  rewrite Hu. unfold escaped in He. repeat case_match; by simplify_eq.
Qed.

Lemma parse_escape_unicode o hs a b c d cp l :
  left_at o ("u"%char :: a :: b :: c :: d :: l) -> hex4 a b c d = Some cp ->
  parse_escape src o hs = Ok ((parse_unicode cp hs).1, (o + 5)%nat, (parse_unicode cp hs).2).
Proof.
  intros (_ & Hrd & Hl)%left_at_cons Hx. unfold parse_escape. rewrite Hrd. cbn [rbind].
  change ("u" =c "u") with true. cbv iota. rewrite (hexadecimal_value _ _ _ _ _ _ Hl), Hx. cbn [rbind].
  destruct (parse_unicode cp hs). do 3 f_equal. lia.
Qed.

Lemma parse_string_loop_grammar hs t out k n st o acc r :
  jchars hs t out k -> left_at o (t ++ quote :: r) -> (length t < n)%nat ->
  data st + Z.of_nat (length acc) + k <= data_end ->
  parse_string_loop src data_end n quote st o acc hs = Ok ((o + length t)%nat, acc ++ out).
Proof.
  intros Hj. revert n o acc. induction Hj as [|c t out k Hp Hj IH|c e t out k He Hj IH|a b c d cp t out k Hx Hnh Hnl Hj IH
    |a b c d cp t out k Hx Hh Hj IH|hs a b c d cp t out k Hh Hx Hlow Hj IH]; intros n o acc Hl Hn Hd;
    (destruct n as [|n]; [cbn in Hn; lia|]); cbn [parse_string_loop app length] in *;
    try pose proof (jchars_count _ _ _ _ Hj) as Hk; rewrite (left_at_rd _ _ _ Hl); cbn [rbind].
  1: { change (quote =c quote) with true. cbv iota. rewrite app_nil_r, Nat.add_0_r. done. }
  1: { assert ((c =c "\") = false) as Hb by (apply cneq; by intros ->).
    replace (quote =c c) with false by (symmetry; apply cneq; by intros <-). rewrite Hb.
    rewrite put_ok by lia. cbn [rbind]. apply left_at_cons in Hl as (_ & _ & Hl).
    rewrite IH by (done || lia || (rewrite length_app; cbn; lia)). do 2 f_equal; [lia|by rewrite <- app_assoc]. }
  all: change (quote =c "\") with false; change ("\" =c "\") with true; cbv iota; apply left_at_cons in Hl as (_ & _ & Hl).
  - rewrite (parse_escape_escaped _ _ _ _ _ Hl He). cbn [rbind puts]. rewrite put_ok by lia. cbn [rbind].
    apply left_at_cons in Hl as (_ & _ & Hl).
    rewrite IH by (done || lia || (rewrite length_app; cbn; lia)). do 2 f_equal; [lia|by rewrite <- app_assoc].
  - rewrite (parse_escape_unicode _ _ _ _ _ _ _ _ Hl Hx). rewrite parse_unicode_bmp by (done || by eapply hex4_range).
    cbn [rbind fst snd]. rewrite puts_ok by lia. cbn [rbind].
    apply (left_at_app _ ["u"%char; a; b; c; d]) in Hl. cbn [length] in Hl.
    rewrite IH by (done || lia || (rewrite length_app; cbn; lia)). do 2 f_equal; [lia|by rewrite <- app_assoc].
  - rewrite (parse_escape_unicode _ _ _ _ _ _ _ _ Hl Hx). rewrite parse_unicode_high by done. cbn [rbind fst snd puts].
    apply (left_at_app _ ["u"%char; a; b; c; d]) in Hl. cbn [length] in Hl.
    rewrite IH by (done || lia). do 2 f_equal. lia.
  - rewrite (parse_escape_unicode _ _ _ _ _ _ _ _ Hl Hx). rewrite parse_unicode_low by done. cbn [rbind fst snd].
    pose proof (utf8_length (combine hs cp)). rewrite puts_ok by lia. cbn [rbind].
    apply (left_at_app _ ["u"%char; a; b; c; d]) in Hl. cbn [length] in Hl.
    rewrite IH by (done || lia || (rewrite length_app; cbn; lia)). do 2 f_equal; [lia|by rewrite <- app_assoc].
Qed.

Lemma finish_text_ok st o out r :
  left_at o r -> data st + Z.of_nat (length out) + 1 <= data_end ->
  exists st', finish_text data_end o out st = Ok (st', string_of_list_ascii out) /\
    fills st st' r 0 (Z.of_nat (length out) + 1).
Proof.
  intros Hl Hd. unfold finish_text. rewrite put_ok by lia. cbn [rbind]. eexists. split; [done|].
  split; [done|]. cbn. rewrite length_app. cbn. lia.
Qed.

Lemma parse_string_grammar st t out k r :
  jchars 0 t out k -> left_at (offset st) (quote :: t ++ quote :: r) -> data st + k + 1 <= data_end ->
  exists st', json_parse_string src data_end st = Ok (st', string_of_list_ascii out) /\ fills st st' r 0 (k + 1).
Proof.
  intros Hj Hl Hd. destruct (left_at_cons _ _ _ Hl) as (_ & Hrd & Hl1). pose proof (left_at_size _ _ Hl1) as Hsz.
  rewrite length_app in Hsz. pose proof (jchars_count _ _ _ _ Hj). unfold json_parse_string. rewrite Hrd. cbn [rbind].
  change (quote =c "'") with false. cbv iota.
  rewrite (parse_string_loop_grammar _ _ _ _ _ _ _ _ _ Hj Hl1) by (cbn in *; lia). cbn [rbind app].
  apply left_at_app in Hl1. apply left_at_cons in Hl1 as (_ & _ & Hl2).
  destruct (finish_text_ok st _ out _ Hl2) as (st' & -> & Hf & Hdom & Hdata); [lia|]. exists st'. split; [done|].
  split; [done|]. lia.
Qed.

Lemma copy_while_ok n p st o a b acc :
  left_at o (a ++ b) -> Forall (fun c => p c = true) a -> head_not p b -> (length a < n)%nat ->
  data st + Z.of_nat (length acc) + Z.of_nat (length a) <= data_end ->
  copy_while src data_end n p st true o acc = Ok ((o + length a)%nat, acc ++ a).
Proof.
  intros Hl Ha. revert n o acc Hl. induction Ha as [|c a Hc Ha IH]; intros n o acc Hl Hb Hn Hd;
    (destruct n as [|n]; [cbn in Hn; lia|]); cbn [copy_while app length andb] in *.
  - rewrite Nat.add_0_r, app_nil_r. destruct b as [|c b].
    + apply left_at_nlt in Hl. by rewrite (proj2 (Nat.ltb_ge _ _)) by lia.
    + rewrite (left_at_lt _ _ _ Hl), (left_at_rd _ _ _ Hl). cbn [negb rbind]. cbn in Hb. by rewrite Hb.
  - rewrite (left_at_lt _ _ _ Hl), (left_at_rd _ _ _ Hl). cbn [negb rbind]. rewrite Hc, put_ok by lia. cbn [rbind].
    apply left_at_cons in Hl as (_ & _ & Hl). rewrite IH by (done || lia || (rewrite length_app; cbn; lia)).
    do 2 f_equal; [lia|by rewrite <- app_assoc].
Qed.

Lemma digit_number c : is_digit c = true -> is_number_char c = true.
Proof. unfold is_number_char. by intros ->. Qed.

Lemma digits_number l : digits l -> Forall (fun c => is_number_char c = true) l.
Proof. intros H. eapply Forall_impl; [exact H|]. apply digit_number. Qed.

Lemma jnumber_chars t : jnumber t -> Forall (fun c => is_number_char c = true) t /\ (1 <= length t)%nat.
Proof.
  intros (sign & i & f & e & -> & Hsign & Hi & Hf & He). split.
  - rewrite !Forall_app. split_and!.
    + destruct Hsign as [->| ->]; by repeat constructor.
    + destruct Hi as [->|(_ & Hi & _)]; [by repeat constructor|by apply digits_number].
    + destruct Hf as [->|(ds & -> & _ & Hds)]; [constructor|]. constructor; [done|by apply digits_number].
    + destruct He as [->|(c & sg & ds & -> & Hc & Hsg & _ & Hds)]; [constructor|]. constructor; [by destruct Hc as [-> | ->]|].
      apply Forall_app. split; [|by apply digits_number]. destruct Hsg as [->|[->| ->]]; by repeat constructor.
  - destruct i; [by destruct Hi as [|[? _]]|]. rewrite length_app. cbn. lia.
Qed.

Lemma parse_number_grammar st t r :
  Forall (fun c => is_number_char c = true) t -> stops r -> left_at (offset st) (t ++ r) ->
  data st + Z.of_nat (length t) + 1 <= data_end ->
  exists st', json_parse_number F0 src data_end st = Ok (st', string_of_list_ascii t) /\
    fills st st' r 0 (Z.of_nat (length t) + 1).
Proof.
  intros Ht Hr Hl Hd. unfold json_parse_number.
  change (has F0 json_parse_flags_allow_hexadecimal_numbers) with false.
  change (has F0 json_parse_flags_allow_inf_and_nan) with false. cbn [rbind].
  pose proof (left_at_size _ _ Hl) as Hsz. rewrite length_app in Hsz.
  rewrite (copy_while_ok _ _ _ _ t r) by (done || lia || (cbn; lia) || by apply stops_head). cbn [rbind app].
  apply left_at_app in Hl. by apply finish_text_ok.
Qed.
End Fill.
End Reader.

Arguments left_at src o l : clear implicits.
Arguments adds src st st' r dd da : clear implicits.
Arguments fills src st st' r dd da : clear implicits.
