(* ===== verification/JsonSpec.v ===== *)
(** The JSON reader is correct ([include/thrid_party/json.h], [json_parse]): the first pass accepts
    exactly the texts of the grammar and counts the bytes their values take, the second pass
    builds the value in that many bytes; neither reads outside of the text. *)

From Stdlib Require Import Ascii String.
From stdpp Require Import gmap strings.
From S2P Require Import Prelude.
From S2P Require Import CppString.
From S2P Require Import Json.
From S2P Require Import JsonGrammar.

Local Open Scope json_scope.
#[local] Arguments Ascii.eqb : simpl nomatch.

Section Reader.
Context (src : list ascii).

Abbreviation F0 := json_parse_flags_default.
Abbreviation left_at := (JsonGrammar.left_at src).
Abbreviation adds := (JsonGrammar.adds src).
Abbreviation fills := (JsonGrammar.fills src).

(** ** Values, first pass *)
Lemma match_word_true o l word : left_at o l -> match_word src o word = true -> exists r, l = word ++ r.
Proof.
  revert o l. induction word as [|c word IH]; intros o l Hl; cbn; [by exists l|]. rewrite (at_left _ _ _ Hl).
  destruct l as [|d l]; [done|]. intros [Hd%ceq Hw]%andb_true_iff. subst d. apply left_at_cons in Hl as (_ & _ & Hl).
  destruct (IH _ _ Hl Hw) as [r ->]. by exists r.
Qed.

Lemma match_word_app o r word : left_at o (word ++ r) -> match_word src o word = true.
Proof.
  revert o. induction word as [|c word IH]; intros o Hl; cbn; [done|]. rewrite (at_left _ _ _ Hl). cbn.
  apply left_at_cons in Hl as (_ & _ & Hl). rewrite (IH _ Hl), andb_true_r. by apply ceq.
Qed.

Lemma adds_trans st st1 st2 r1 r2 d1 d2 a1 a2 d a :
  adds st st1 r1 d1 a1 -> adds st1 st2 r2 d2 a2 -> d = d1 + d2 -> a = a1 + a2 -> adds st st2 r2 d a.
Proof. intros (_ & H1 & H2) (Hl & H3 & H4) -> ->. split; [done|]. lia. Qed.

Lemma keeps_adds st st' r : left_at (offset st') r -> keeps st st' -> adds st st' r 0 0.
Proof. intros Hl (H1 & H2 & _). split; [done|]. lia. Qed.

Lemma advance_adds st c l : left_at (offset st) (c :: l) -> adds st (advance 1 st) l 0 0.
Proof. intros (_ & _ & Hl)%left_at_cons. split; [|cbn; lia]. cbn. by replace (offset st + 1)%nat with (S (offset st)) by lia. Qed.

Lemma advance_word_adds st w r : left_at (offset st) (w ++ r) -> adds st (advance (length w) st) r 0 0.
Proof. intros Hl%left_at_app. split; [done|]. cbn. lia. Qed.

(** Where a value can end: past the text after an unfinished exponent, at the end of the text
    after a lone minus sign, or after a value of the grammar. *)
Definition value_post (st : json_parse_state_s) (l : list ascii) (st' : json_parse_state_s) : Prop :=
  offset st' = S (size src) \/
  (ws l = ["-"%char] /\ adds st st' [] (sizeof_json_value_s + sizeof_json_number_s) 2) \/
  exists w t v n r, l = w ++ t ++ r /\ spaces w /\ jvalue t v n /\ adds st st' r (sizeof_json_value_s + dom_of v) n.

Definition gv_ok (bound : nat) (gv : json_parse_state_s -> res (json_parse_state_s * bool)) : Prop :=
  forall st l, left_at (offset st) l -> (length l < bound)%nat ->
    exists st' b, gv st = Ok (st', b) /\ (b = false -> value_post st l st').

Lemma skip_nonempty st l :
  left_at (offset st) l -> 
  (exists st', json_skip_all_skippables F0 src st = Ok (st', true)) \/
  (exists st' w c r, json_skip_all_skippables F0 src st = Ok (st', false) /\ l = w ++ c :: r /\ spaces w /\
     is_json_space c = false /\ adds st st' (c :: r) 0 0).
Proof.
  intros Hl. destruct (skippables_ok st l Hl) as (st' & Hs & Hl' & Hk). destruct (ws_split l) as (w & Hw & Hsp).
  destruct (ws l) as [|c r] eqn:Hr; [left; by eexists|]. right. exists st', w, c, r. split_and!; [done|done|done| |by apply keeps_adds].
  destruct (is_json_space c) eqn:Hc; [|done]. exfalso. pose proof (ws_idem l) as Hi. rewrite Hr in Hi. cbn in Hi. rewrite Hc in Hi.
  pose proof (ws_length r). apply (f_equal length) in Hi. cbn in Hi. lia.
Qed.

Lemma spaces_app w1 w2 : spaces w1 -> spaces w2 -> spaces (w1 ++ w2).
Proof. intros. by apply Forall_app. Qed.

Lemma object_element_ok bound gv st l :
  gv_ok bound gv -> left_at (offset st) l -> l <> [] -> (length l <= bound)%nat ->
  exists st' b, get_object_element F0 src gv st = Ok (st', b) /\
    (b = false -> offset st' = S (size src) \/ offset st' = size src \/
       exists kt k n1 w1 w2 vt v n2 r, l = quote :: kt ++ quote :: w1 ++ ":"%char :: w2 ++ vt ++ r /\
         jchars 0 kt k n1 /\ spaces w1 /\ spaces w2 /\ jvalue vt v n2 /\
         adds st st' r (sizeof_json_string_s + sizeof_json_value_s + dom_of v) (n1 + 1 + n2)).
Proof.
  intros Hgv Hl Hne Hb. unfold get_object_element, json_get_key_size.
  change (has F0 json_parse_flags_allow_unquoted_keys) with false. cbv iota.
  change (has F0 json_parse_flags_allow_equals_in_object) with false.
  destruct (get_string_size_ok st l true Hl Hne) as (st1 & [|] & -> & Hk); cbn [rbind]; [by do 2 eexists|].
  destruct Hk as (kt & k & r1 & n1 & -> & Hj & A1); [done|].
  destruct (skip_nonempty st1 r1 (proj1 A1)) as [[st2 ->]|(st2 & w1 & c & r2 & -> & -> & Hw1 & _ & A2)]; cbn [rbind]; [by do 2 eexists|].
  rewrite (left_at_rd _ _ _ (proj1 A2)). cbn [rbind andb negb]. rewrite andb_true_r.
  destruct (c =c ":") eqn:Hc; cbn [negb]; [|by do 2 eexists]. apply ceq in Hc. subst c.
  pose proof (advance_adds _ _ _ (proj1 A2)) as A3.
  destruct (skip_nonempty _ r2 (proj1 A3)) as [[st4 ->]|(st4 & w2 & c & r3 & -> & -> & Hw2 & _ & A4)]; cbn [rbind]; [by do 2 eexists|].
  destruct (Hgv st4 (c :: r3) (proj1 A4)) as (st5 & b & Hg & Hv).
  { revert Hb. cbn [length]. rewrite !length_app. cbn [length]. rewrite !length_app. cbn [length]. rewrite !length_app. cbn [length]. lia. }
  exists st5, b. split; [done|]. intros Hbf. destruct (Hv Hbf) as [|[(_ & A5)|(w & t & v & n & r & Hr & Hw & Hjv & A5)]];
    [by left|right; left; by apply left_at_nlt, A5|].
  right. right. exists kt, k, n1, w1, (w2 ++ w), t, v, n, r. split_and!; [|done|done|by apply spaces_app|done|].
  - rewrite Hr. by rewrite <- !app_assoc.
  - eapply adds_trans; [exact A1|eapply adds_trans; [exact A2|eapply adds_trans; [exact A3|eapply adds_trans;
      [exact A4|exact A5|reflexivity..]|reflexivity..]|reflexivity..]|lia|lia].
Qed.

Definition msum (l : list (option location * string * (option location * json_value_s))) : Z :=
  foldr (fun e n => sizeof_json_string_s + sizeof_json_value_s + dom_of e.2.2 + n) 0 l.

Definition isum (l : list (option location * json_value_s)) : Z :=
  foldr (fun e n => sizeof_json_value_s + dom_of e.2 + n) 0 l.

Lemma dom_of_object l :
  dom_of (json_object l) = sizeof_json_object_s + msum l + sizeof_json_object_element_s * Z.of_nat (length l).
Proof. cbn [dom_of]. unfold msum. induction l as [|e l IH]; cbn [foldr length]; lia. Qed.

Lemma dom_of_array l :
  dom_of (json_array l) = sizeof_json_array_s + isum l + sizeof_json_array_element_s * Z.of_nat (length l).
Proof. cbn [dom_of]. unfold isum. induction l as [|e l IH]; cbn [foldr length]; lia. Qed.

(** The end of the loop over the elements of an object. *)
Definition object_post (st : json_parse_state_s) (l : list ascii) (allow : bool) (k : Z)
    (st' : json_parse_state_s) (k' : Z) (closed : bool) : Prop :=
  offset st' = S (size src) \/ (offset st' = size src /\ closed = false) \/
  (closed = true /\ exists t ms n r, l = t ++ r /\ jmembers allow t ms n /\ adds st st' r (msum ms) n /\
     k' = k + Z.of_nat (length ms)).

(** What is promised of the loop of an object by induction on its budget. *)
Definition object_loop_spec (bound : nat) (gv : json_parse_state_s -> res (json_parse_state_s * bool)) (n : nat) : Prop :=
  forall st k allow l, left_at (offset st) l -> (length l <= bound)%nat -> (length l < n)%nat ->
  exists st' o, get_object_loop F0 src gv false n st k allow = Ok (st', o) /\
    match o with None => True | Some (k', closed) => object_post st l allow k st' k' closed end.

(** An element, and the rest of the object behind it. *)
Lemma object_rest_ok bound gv n k st0 l0 :
  gv_ok bound gv -> object_loop_spec bound gv n -> left_at (offset st0) l0 -> (length l0 <= bound)%nat -> (length l0 <= n)%nat -> l0 <> [] ->
  exists st' o, (let* '(st, bad) := get_object_element F0 src gv st0 in
    if bad : bool then Ok (st, None) else
    if (offset st <? size src)%nat then get_object_loop F0 src gv false n st (k + 1) true else Ok (st, Some (k + 1, false)))
      = Ok (st', o) /\
  match o with None => True | Some (k', closed) =>
    offset st' = S (size src) \/ (offset st' = size src /\ closed = false) \/
    (closed = true /\ exists kt x n1 w1 w2 vt v n2 t ms n3 r,
      l0 = quote :: kt ++ quote :: w1 ++ ":"%char :: w2 ++ vt ++ t ++ r /\ jchars 0 kt x n1 /\ spaces w1 /\ spaces w2 /\
      jvalue vt v n2 /\ jmembers true t ms n3 /\ adds st0 st' r (msum (jmember x v :: ms)) (n1 + 1 + n2 + n3) /\
      k' = k + Z.of_nat (length (jmember x v :: ms))) end.
Proof.
  intros Hgv IH Hl0 Hb Hlen Hne. destruct (object_element_ok bound gv st0 l0 Hgv Hl0 Hne) as (st1 & [|] & -> & He); [lia|by do 2 eexists|].
  cbn [rbind]. destruct He as [Ho|[Ho|(kt & x & n1 & w1 & w2 & vt & v & n2 & r & -> & Hj & Hw1 & Hw2 & Hv & A1)]]; [done|..].
  1,2: rewrite (proj2 (Nat.ltb_ge _ _)) by lia; do 2 eexists; (split; [done|]); cbn; rewrite Ho; auto.
  pose proof (left_at_size _ _ (proj1 A1)) as Hs1. pose proof (left_at_size _ _ Hl0) as Hs0.
  cbn [length] in Hs0, Hlen, Hb. rewrite !length_app in Hs0, Hlen, Hb. cbn [length] in Hs0, Hlen, Hb. rewrite !length_app in Hs0, Hlen, Hb.
  cbn [length] in Hs0, Hlen, Hb. rewrite !length_app in Hs0, Hlen, Hb.
  destruct (Nat.ltb_spec (offset st1) (size src)).
  - destruct (IH st1 (k + 1) true r) as (st2 & o & -> & Hp); [by apply A1|lia|lia|]. do 2 eexists. split; [done|].
    destruct o as [[k' closed]|]; [|done]. destruct Hp as [?|[?|(-> & t & ms & n3 & r' & -> & Hms & A2 & ->)]]; [auto..|].
    right. right. split; [done|]. exists kt, x, n1, w1, w2, vt, v, n2, t, ms, n3, r'. split_and!; [done..| |].
    + eapply adds_trans; [exact A1|exact A2| |lia]. cbn. fold (msum ms). lia.
    + cbn [length]. lia.
  - do 2 eexists. split; [done|]. right. left. split; [lia|done].
Qed.

Lemma object_loop_ok bound gv n st k allow l :
  gv_ok bound gv -> left_at (offset st) l -> (length l <= bound)%nat -> (length l < n)%nat ->
  exists st' o, get_object_loop F0 src gv false n st k allow = Ok (st', o) /\
    match o with None => True | Some (k', closed) => object_post st l allow k st' k' closed end.
Proof.
  intros Hgv. revert st k allow l. induction n as [|n IH]; intros st k allow l Hl Hb Hn; [lia|]. cbn [get_object_loop].
  destruct (skip_nonempty st l Hl) as [[st1 ->]|(st1 & w & c & r & -> & -> & Hw & Hsp & A1)]; cbn [rbind]; [by do 2 eexists|].
  rewrite (left_at_rd _ _ _ (proj1 A1)). cbn [rbind negb andb]. rewrite length_app in Hn, Hb. cbn [length] in Hn, Hb.
  destruct (c =c "}") eqn:Hc.
  { apply ceq in Hc. subst c. do 2 eexists. split; [done|]. right. right. split; [done|].
    exists (w ++ ["}"%char]), [], 0, r. split_and!; [by rewrite <- app_assoc|by constructor| |cbn; lia].
    eapply adds_trans; [exact A1|by eapply advance_adds, A1|reflexivity..]. }
  destruct allow.
  - destruct (c =c ",") eqn:Hcm; [|by do 2 eexists]. apply ceq in Hcm. subst c.
    change (has F0 json_parse_flags_allow_trailing_comma) with false. cbv iota.
    pose proof (advance_adds _ _ _ (proj1 A1)) as A2.
    destruct (skip_nonempty _ r (proj1 A2)) as [[st3 ->]|(st3 & w2 & c & r2 & -> & -> & Hw2 & _ & A3)]; cbn [rbind]; [by do 2 eexists|].
    destruct (object_rest_ok bound gv n k st3 (c :: r2) Hgv IH (proj1 A3)) as (st4 & o & -> & Hp); [rewrite length_app in *; cbn [length] in *; lia..|done|].
    do 2 eexists. split; [done|]. destruct o as [[k' closed]|]; [|done].
    destruct Hp as [?|[?|(-> & kt & x & n1 & w3 & w4 & vt & v & n2 & t & ms & n3 & r' & Heq & Hj & Hw3 & Hw4 & Hv & Hms & A4 & ->)]];
      [by left|by right; left|]. right. right. split; [done|].
    exists (w ++ ","%char :: w2 ++ quote :: kt ++ quote :: w3 ++ ":"%char :: w4 ++ vt ++ t), (jmember x v :: ms), (n1 + 1 + n2 + n3), r'.
    split_and!; [|by apply members_next| |done].
    + rewrite Heq. repeat (rewrite <- ?app_assoc, <- ?app_comm_cons). done.
    + eapply adds_trans; [exact A1|eapply adds_trans; [exact A2|eapply adds_trans; [exact A3|exact A4|reflexivity..]|reflexivity..]|lia|lia].
  - destruct (object_rest_ok bound gv n k st1 (c :: r) Hgv IH (proj1 A1)) as (st4 & o & -> & Hp); [cbn [length]; lia..|done|].
    do 2 eexists. split; [done|]. destruct o as [[k' closed]|]; [|done].
    destruct Hp as [?|[?|(-> & kt & x & n1 & w3 & w4 & vt & v & n2 & t & ms & n3 & r' & Heq & Hj & Hw3 & Hw4 & Hv & Hms & A4 & ->)]];
      [by left|by right; left|]. right. right. split; [done|].
    exists (w ++ quote :: kt ++ quote :: w3 ++ ":"%char :: w4 ++ vt ++ t), (jmember x v :: ms), (n1 + 1 + n2 + n3), r'.
    split_and!; [|by apply members_first| |done].
    + rewrite Heq. repeat (rewrite <- ?app_assoc, <- ?app_comm_cons). done.
    + eapply adds_trans; [exact A1|exact A4|lia|lia].
Qed.

Lemma get_object_size_ok bound gv st l :
  gv_ok bound gv -> left_at (offset st) ("{"%char :: l) -> (length l <= bound)%nat ->
  exists st' b, json_get_object_size F0 src gv false st = Ok (st', b) /\
    (b = false -> offset st' = S (size src) \/
       exists t ms n r, l = t ++ r /\ jmembers false t ms n /\ adds st st' r (dom_of (json_object ms)) n).
Proof.
  intros Hgv Hl Hb. unfold json_get_object_size. cbn [rbind]. rewrite (left_at_rd _ _ _ Hl). cbn [rbind].
  change ("{" =c "{") with true. cbn [negb rbind]. pose proof (advance_adds _ _ _ Hl) as A1.
  set (st1 := add_dom_size sizeof_json_object_s (advance 1 st)).
  assert (adds st st1 l sizeof_json_object_s 0) as A2 by (split; [by apply A1|cbn; lia]).
  destruct (at_end src st1 && true) eqn:He; [by do 2 eexists|].
  destruct (object_loop_ok bound gv (S (size src)) st1 0 false l Hgv) as (st2 & o & -> & Hp);
    [by apply A2|done|pose proof (left_at_size _ _ (proj1 A2)); lia|]. cbn [rbind].
  destruct o as [[k closed]|]; [|by do 2 eexists]. destruct (at_end src st2 && true && negb closed) eqn:Hend; [by do 2 eexists|].
  do 2 eexists. split; [done|]. intros _. destruct Hp as [?|[[Ho ->]|(-> & t & ms & n & r & -> & Hms & A3 & ->)]]; [by left|..].
  { unfold at_end in Hend. by rewrite (proj2 (Nat.eqb_eq _ _) Ho) in Hend. }
  right. exists t, ms, n, r. split_and!; [done|done|]. rewrite dom_of_object. destruct A2 as (_ & D2 & E2), A3 as (L3 & D3 & E3).
  split; [done|]. cbn. lia.
Qed.

Lemma jvalue_length t v n : jvalue t v n -> (1 <= length t)%nat.
Proof. inversion 1; subst; cbn; try lia. by apply jnumber_chars. Qed.

(** The same for the loop of an array. *)
Definition array_loop_spec (bound : nat) (gv : json_parse_state_s -> res (json_parse_state_s * bool)) (n : nat) : Prop :=
  forall st k allow l, left_at (offset st) l -> (length l < bound)%nat -> (length l < n)%nat ->
  exists st' b, get_array_loop F0 src gv n st k allow = Ok (st', b) /\
    (b = false -> exists t vs c r, l = t ++ r /\ jitems allow t vs c /\
       adds st st' r (isum vs + sizeof_json_array_element_s * (k + Z.of_nat (length vs))) c).

Lemma array_rest_ok bound gv n k st0 l0 :
  gv_ok bound gv -> array_loop_spec bound gv n -> (1 <= n)%nat -> left_at (offset st0) l0 -> (length l0 < bound)%nat -> (length l0 <= n)%nat ->
  exists st' b, (let* '(st, bad) := gv st0 in
    if bad : bool then Ok (st, true) else get_array_loop F0 src gv n st (k + 1) true) = Ok (st', b) /\
  (b = false -> exists w vt v n1 t vs n2 r, l0 = w ++ vt ++ t ++ r /\ spaces w /\ jvalue vt v n1 /\ jitems true t vs n2 /\
     adds st0 st' r (isum ((None, v) :: vs) + sizeof_json_array_element_s * (k + 1 + Z.of_nat (length vs))) (n1 + n2)).
Proof.
  intros Hgv IH Hn Hl0 Hb Hlen. destruct (Hgv st0 l0 Hl0) as (st1 & [|] & -> & Hv); [lia|by do 2 eexists|]. cbn [rbind].
  assert (forall st k b, (size src <= offset st)%nat -> (exists st', get_array_loop F0 src gv n st k b = Ok (st', true))) as Hstop.
  { intros st' k' b Ho. destruct n as [|n']; [lia|]. cbn [get_array_loop].
    rewrite (proj2 (Nat.ltb_ge _ _)) by lia. by eexists. }
  destruct Hv as [Ho|[[_ A]|(w & vt & v & n1 & r & -> & Hw & Hv & A1)]]; [done| | |].
  - destruct (Hstop st1 (k + 1) true) as [st2 ->]; [lia|]. by do 2 eexists.
  - destruct (Hstop st1 (k + 1) true) as [st2 ->]; [apply proj1, left_at_nlt in A; lia|]. by do 2 eexists.
  - assert (1 <= length vt)%nat as Hvt by (by eapply jvalue_length).
    rewrite !length_app in Hlen, Hb. destruct (IH st1 (k + 1) true r) as (st2 & b & -> & Hp); [by apply A1|lia|lia|].
    do 2 eexists. split; [done|]. intros Hbf. destruct (Hp Hbf) as (t & vs & n2 & r' & -> & Hi & A2).
    exists w, vt, v, n1, t, vs, n2, r'. split_and!; [done..|]. eapply adds_trans; [exact A1|exact A2| |lia].
    cbn. fold (isum vs). lia.
Qed.

Lemma array_loop_ok bound gv n st k allow l :
  gv_ok bound gv -> left_at (offset st) l -> (length l < bound)%nat -> (length l < n)%nat ->
  exists st' b, get_array_loop F0 src gv n st k allow = Ok (st', b) /\
    (b = false -> exists t vs c r, l = t ++ r /\ jitems allow t vs c /\
       adds st st' r (isum vs + sizeof_json_array_element_s * (k + Z.of_nat (length vs))) c).
Proof.
  intros Hgv. revert st k allow l. induction n as [|n IH]; intros st k allow l Hl Hb Hn; [lia|]. cbn [get_array_loop].
  destruct (offset st <? size src)%nat eqn:Hlt; [|by do 2 eexists].
  destruct (skip_nonempty st l Hl) as [[st1 ->]|(st1 & w & c & r & -> & -> & Hw & Hsp & A1)]; cbn [rbind]; [by do 2 eexists|].
  rewrite (left_at_rd _ _ _ (proj1 A1)). cbn [rbind]. rewrite length_app in Hn, Hb. cbn [length] in Hn, Hb.
  destruct (c =c "]") eqn:Hc.
  { apply ceq in Hc. subst c. do 2 eexists. split; [done|]. intros _.
    exists (w ++ ["]"%char]), [], 0, r. split_and!; [by rewrite <- app_assoc|by constructor|].
    pose proof (advance_adds _ _ _ (proj1 A1)) as (L2 & D2 & E2). destruct A1 as (_ & D1 & E1). split; [done|]. cbn in *. lia. }
  destruct allow.
  - destruct (c =c ",") eqn:Hcm; [|by do 2 eexists]. apply ceq in Hcm. subst c.
    change (has F0 json_parse_flags_allow_trailing_comma) with false. cbv iota.
    pose proof (advance_adds _ _ _ (proj1 A1)) as A2.
    destruct (skip_nonempty _ r (proj1 A2)) as [[st3 ->]|(st3 & w2 & c & r2 & -> & -> & Hw2 & _ & A3)]; cbn [rbind]; [by do 2 eexists|].
    destruct (array_rest_ok bound gv n k st3 (c :: r2) Hgv IH ltac:(lia) (proj1 A3)) as (st4 & b & -> & Hp); [rewrite length_app in *; cbn [length] in *; lia..|].
    do 2 eexists. split; [done|]. intros Hbf. destruct (Hp Hbf) as (w3 & vt & v & n1 & t & vs & n2 & r' & Heq & Hw3 & Hv & Hi & A4).
    exists (w ++ ","%char :: (w2 ++ w3) ++ vt ++ t), ((None, v) :: vs), (n1 + n2), r'.
    split_and!; [|apply items_next; auto using spaces_app|].
    + rewrite Heq. repeat (rewrite <- ?app_assoc, <- ?app_comm_cons). done.
    + eapply adds_trans; [exact A1|eapply adds_trans; [exact A2|eapply adds_trans; [exact A3|exact A4|reflexivity..]|reflexivity..]
        |cbn [length]; lia|lia].
  - destruct (array_rest_ok bound gv n k st1 (c :: r) Hgv IH ltac:(lia) (proj1 A1)) as (st4 & b & -> & Hp); [cbn [length]; lia..|].
    do 2 eexists. split; [done|]. intros Hbf. destruct (Hp Hbf) as (w3 & vt & v & n1 & t & vs & n2 & r' & Heq & Hw3 & Hv & Hi & A4).
    exists ((w ++ w3) ++ vt ++ t), ((None, v) :: vs), (n1 + n2), r'.
    split_and!; [|apply items_first; auto using spaces_app|].
    + rewrite Heq. by rewrite <- !app_assoc.
    + eapply adds_trans; [exact A1|exact A4|cbn [length]; lia|lia].
Qed.

Lemma get_array_size_ok bound gv st l :
  gv_ok bound gv -> left_at (offset st) ("["%char :: l) -> (length l < bound)%nat ->
  exists st' b, json_get_array_size F0 src gv st = Ok (st', b) /\
    (b = false -> exists t vs n r, l = t ++ r /\ jitems false t vs n /\ adds st st' r (dom_of (json_array vs)) n).
Proof.
  intros Hgv Hl Hb. unfold json_get_array_size. rewrite (left_at_rd _ _ _ Hl). cbn [rbind].
  change ("[" =c "[") with true. cbn [negb]. pose proof (advance_adds _ _ _ Hl) as A1.
  set (st1 := add_dom_size sizeof_json_array_s (advance 1 st)).
  assert (adds st st1 l sizeof_json_array_s 0) as A2 by (split; [by apply A1|cbn; lia]).
  destruct (array_loop_ok bound gv (S (S (size src))) st1 0 false l Hgv) as (st2 & b & -> & Hp);
    [by apply A2|done|pose proof (left_at_size _ _ (proj1 A2)); lia|].
  do 2 eexists. split; [done|]. intros Hbf. destruct (Hp Hbf) as (t & vs & n & r & -> & Hi & A3).
  exists t, vs, n, r. split_and!; [done|done|]. rewrite dom_of_array. eapply adds_trans; [exact A2|exact A3|lia|lia].
Qed.

(** The three words, or no value at all. *)
Lemma literal_sized st c r bad :
  left_at (offset st) (c :: r) ->
  exists st' b,
    (if match_word src (offset st) word_true then Ok (advance 4 st, false)
     else if match_word src (offset st) word_false then Ok (advance 5 st, false)
     else if match_word src (offset st) word_null then Ok (advance 4 st, false)
     else Ok (bad, true)) = Ok (st', b) /\
    (b = false -> exists t v r', c :: r = t ++ r' /\ jvalue t v 0 /\ adds st st' r' (dom_of v) 0).
Proof.
  intros Hl. assert (forall word v, jvalue word v 0 -> dom_of v = 0 -> match_word src (offset st) word = true ->
    exists t v r', c :: r = t ++ r' /\ jvalue t v 0 /\ adds st (advance (length word) st) r' (dom_of v) 0) as Hword.
  { intros word v Hv Hd Hm. destruct (match_word_true _ _ _ Hl Hm) as [r' Heq]. exists word, v, r'. split_and!; [done..|].
    rewrite Heq in Hl. rewrite Hd. by apply advance_word_adds. }
  destruct (match_word _ _ word_true) eqn:Ht; [do 2 eexists; split; [done|]; intros _; by apply (Hword word_true json_true (value_true))|].
  destruct (match_word _ _ word_false) eqn:Hf; [do 2 eexists; split; [done|]; intros _; by apply (Hword word_false json_false (value_false))|].
  destruct (match_word _ _ word_null) eqn:Hn; [do 2 eexists; split; [done|]; intros _; by apply (Hword word_null json_null (value_null))|by do 2 eexists].
Qed.

Lemma get_value_size_ok depth : gv_ok depth (json_get_value_size F0 src depth false).
Proof.
  induction depth as [|depth IH]; intros st l Hl Hb; [lia|]. cbn [json_get_value_size].
  change (has F0 json_parse_flags_allow_location_information) with false. cbv iota.
  set (st0 := add_dom_size sizeof_json_value_s st).
  assert (adds st st0 l sizeof_json_value_s 0) as A0 by (split; [done|cbn; lia]).
  destruct (skippables_ok st0 l (proj1 A0)) as (st1 & -> & Hl1 & Hk1). cbn [rbind].
  destruct (ws_split l) as (w & Hwl & Hw). destruct (ws l) as [|c r] eqn:Hws; [by do 2 eexists|].
  assert (adds st st1 (c :: r) sizeof_json_value_s 0) as A1.
  { eapply adds_trans; [exact A0|by apply keeps_adds|lia|lia]. }
  rewrite (left_at_rd _ _ _ Hl1). cbn [rbind].
  assert (length (c :: r) <= length l)%nat as Hlen by (rewrite Hwl, length_app; lia). cbn [length] in Hlen.
  assert (forall st' t v n r', c :: r = t ++ r' -> jvalue t v n -> adds st1 st' r' (dom_of v) n -> value_post st l st') as Hdone.
  { intros st' t v n r' Heq Hv A2. right. right. exists w, t, v, n, r'. split_and!; [by rewrite Hwl, Heq|done|done|].
    eapply adds_trans; [exact A1|exact A2|lia|lia]. }
  destruct (c =c quote) eqn:Hq.
  { destruct (get_string_size_ok st1 (c :: r) false Hl1) as (st2 & b & -> & Hs); [done|]. do 2 eexists. split; [done|].
    intros Hbf. destruct (Hs Hbf) as (t & out & r' & k & Heq & Hj & A2).
    eapply (Hdone st2 (quote :: t ++ [quote]) (json_string _)); [|by apply value_string|exact A2].
    rewrite Heq. cbn. by rewrite <- app_assoc. }
  change (has F0 json_parse_flags_allow_single_quoted_strings) with false.
  change (has F0 json_parse_flags_allow_leading_plus_sign) with false.
  change (has F0 json_parse_flags_allow_leading_or_trailing_decimal_point) with false.
  change (has F0 json_parse_flags_allow_inf_and_nan) with false. cbv iota. cbn [andb].
  destruct (c =c "'"); [by do 2 eexists|].
  destruct (c =c "{") eqn:Hbr.
  { apply ceq in Hbr. subst c. destruct (get_object_size_ok depth _ st1 r IH Hl1) as (st2 & b & -> & Hs); [lia|].
    do 2 eexists. split; [done|]. intros Hbf. destruct (Hs Hbf) as [|(t & ms & n & r' & -> & Hm & A2)]; [by left|].
    by eapply (Hdone st2 ("{"%char :: t)); [|by apply value_object|]. }
  destruct (c =c "[") eqn:Hsq.
  { apply ceq in Hsq. subst c. destruct (get_array_size_ok depth _ st1 r IH Hl1) as (st2 & b & -> & Hs); [lia|].
    do 2 eexists. split; [done|]. intros Hbf. destruct (Hs Hbf) as (t & vs & n & r' & -> & Hi & A2).
    by eapply (Hdone st2 ("["%char :: t)); [|by apply value_array|]. }
  destruct ((c =c "-") || is_digit c) eqn:Hnum.
  { destruct (get_number_size_ok st1 c r Hl1 Hnum) as (st2 & b & -> & Hs). do 2 eexists. split; [done|]. intros Hbf.
    destruct (Hs Hbf) as [|[(-> & -> & A2)|(t & r' & Heq & Hj & _ & A2)]]; [by left| |].
    - right. left. split; [done|]. eapply adds_trans; [exact A1|exact A2|lia|lia].
    - by eapply (Hdone st2 t (json_number _)); [|by apply value_number|exact A2]. }
  destruct (c =c "+"); [by do 2 eexists|]. destruct (c =c "."); [by do 2 eexists|].
  destruct (literal_sized st1 c r (set_error json_parse_error_invalid_value st1) Hl1) as (st2 & b & Heq & Hs).
  exists st2, b. split; [exact Heq|]. intros Hbf. destruct (Hs Hbf) as (t & v & r' & Ht & Hv & A2). by eapply Hdone.
Qed.

(** The first pass: it returns, and accepts only texts of the grammar, with their sizes. *)
Lemma check_text_ok :
  exists st b, check_text F0 src = Ok (st, b) /\
    (b = false -> exists v n, jtext src v n /\ dom_size st = sizeof_json_value_s + dom_of v /\ data_size st = n).
Proof.
  unfold check_text. change (has F0 json_parse_flags_allow_global_object) with false.
  set (st0 := start_state 0 0 0 0). assert (left_at (offset st0) src) as Hl by (split; [cbn; lia|done]).
  destruct (get_value_size_ok (S (S (size src))) st0 src Hl) as (st1 & [|] & -> & Hv); [unfold size; lia|by do 2 eexists|].
  cbn [rbind]. specialize (Hv eq_refl).
  assert (forall st, offset st = S (size src) -> exists st', json_skip_all_skippables F0 src st = Ok (st', false) /\ at_end src st' = false) as Hpast.
  { intros st Ho. assert (at_end src st = false) as He by (apply Nat.eqb_neq; lia).
    assert (json_skip_whitespace src st = Ok (st, false)) as Hs.
    { unfold json_skip_whitespace. by rewrite (proj2 (Nat.leb_le _ _)) by lia. }
    exists st. split; [|done]. unfold json_skip_all_skippables. cbn [skippables_loop]. rewrite He, Hs. cbn [rbind].
    change (has F0 json_parse_flags_allow_c_style_comments) with false. cbv iota. by rewrite He. }
  destruct Hv as [Ho|[(Hm & A1)|(w & t & v & n & r & Hsrc & Hw & Hv & A1)]].
  - destruct (Hpast st1 Ho) as (st2 & -> & He). cbn [rbind]. rewrite He. by do 2 eexists.
  - destruct (skippables_ok st1 [] (proj1 A1)) as (st2 & -> & Hl2 & Hk). cbn [rbind ws].
    rewrite (at_end_left _ _ Hl2). cbn. do 2 eexists. split; [done|]. intros _. exists (json_number "-"), 2.
    destruct (ws_split src) as (w & Hsrc & Hw). rewrite Hm in Hsrc. split.
    + exists w, ["-"%char], []. split_and!; [by rewrite app_nil_r|done|constructor|]. by right.
    + destruct Hk as (D & E & _), A1 as (_ & D1 & E1). cbn in *. lia.
  - destruct (skippables_ok st1 r (proj1 A1)) as (st2 & -> & Hl2 & Hk). cbn [rbind].
    rewrite (at_end_left _ _ Hl2). destruct (ws_split r) as (w' & Hr & Hw'). destruct (ws r) as [|c r'] eqn:Hws.
    + cbn. do 2 eexists. split; [done|]. intros _. exists v, n. rewrite app_nil_r in Hr. subst w'. split.
      * exists w, t, r. split_and!; [done..|]. by left.
      * destruct Hk as (D & E & _), A1 as (_ & D1 & E1). cbn in *. lia.
    + cbn. by do 2 eexists.
Qed.

(** ** Values of the grammar, first pass *)
Lemma skip_to st w c r :
  left_at (offset st) (w ++ c :: r) -> spaces w -> is_json_space c = false ->
  exists st', json_skip_all_skippables F0 src st = Ok (st', false) /\ left_at (offset st') (c :: r) /\ keeps st st'.
Proof.
  intros Hl Hw Hc. destruct (skippables_ok st _ Hl) as (st' & Hs & Hl' & Hk). rewrite ws_app, ws_nonspace in Hs, Hl' by done.
  by exists st'.
Qed.

Lemma jint_head i : jint i -> exists d i', i = d :: i' /\ is_digit d = true.
Proof.
  intros [->|(Hne & Hds & _)]; [by eexists _, _|]. destruct i as [|d i']; [done|]. inversion Hds; subst. by eexists _, _.
Qed.

Lemma jnumber_head t : jnumber t -> exists c t', t = c :: t' /\ (c =c "-") || is_digit c = true.
Proof.
  intros (sign & i & f & e & -> & [->| ->] & Hi & _); cbn [app]; [|by do 2 eexists].
  destruct (jint_head i Hi) as (d & i' & -> & Hd). do 2 eexists. split; [done|]. by rewrite Hd, orb_true_r.
Qed.

Lemma number_start c : (c =c "-") || is_digit c = true ->
  is_json_space c = false /\ (c =c quote) = false /\ (c =c "'") = false /\ (c =c "{") = false /\ (c =c "[") = false.
Proof.
  intros H. assert (forall x, ((x =c "-") || is_digit x) = false -> (c =c x) = false) as Hx.
  { intros x Hx. apply cneq. intros ->. congruence. }
  unfold is_json_space. by rewrite !Hx.
Qed.

Lemma jvalue_head t v n : jvalue t v n -> exists c t', t = c :: t' /\ is_json_space c = false.
Proof.
  inversion 1; subst; try by do 2 eexists. destruct (jnumber_head t) as (c & t' & -> & Hc); [done|].
  exists c, t'. split; [done|]. by apply number_start.
Qed.

Lemma spaces_stops w c r : spaces w -> ends_number F0 c = true -> stops (w ++ c :: r).
Proof. intros [|d w' Hd _] Hc; cbn; [done|]. unfold ends_number. by rewrite Hd. Qed.

Lemma jmembers_stops t l n r : jmembers true t l n -> stops (t ++ r).
Proof. inversion 1; subst; rewrite <- app_assoc; (apply spaces_stops; [done|reflexivity]). Qed.

Lemma jitems_stops t l n r : jitems true t l n -> stops (t ++ r).
Proof. inversion 1; subst; rewrite <- app_assoc; (apply spaces_stops; [done|reflexivity]). Qed.

Lemma jmembers_length b t l n : jmembers b t l n -> (1 <= length t)%nat.
Proof. inversion 1; subst; rewrite length_app; cbn; lia. Qed.

Lemma jitems_length b t l n : jitems b t l n -> (1 <= length t)%nat.
Proof.
  inversion 1; subst; rewrite length_app; cbn; try lia.
  match goal with H : jvalue ?vt _ _ |- _ => pose proof (jvalue_length _ _ _ H) end. rewrite length_app. lia.
Qed.

(** What the first pass does on a text of the grammar. *)
Definition sized (t : list ascii) (v : json_value_s) (n : Z) : Prop :=
  forall depth st w r, left_at (offset st) (w ++ t ++ r) -> spaces w -> stops r -> (length (w ++ t ++ r) < depth)%nat ->
  exists st', json_get_value_size F0 src depth false st = Ok (st', false) /\ adds st st' r (sizeof_json_value_s + dom_of v) n.

Definition members_sized (b : bool) (t : list ascii) (l : list (option location * string * (option location * json_value_s))) (n : Z) : Prop :=
  forall depth fuel st k r, left_at (offset st) (t ++ r) -> (length (t ++ r) <= depth)%nat -> (length (t ++ r) < fuel)%nat ->
  exists st', get_object_loop F0 src (json_get_value_size F0 src depth false) false fuel st k b
    = Ok (st', Some (k + Z.of_nat (length l), true)) /\ adds st st' r (msum l) n.

Definition items_sized (b : bool) (t : list ascii) (l : list (option location * json_value_s)) (n : Z) : Prop :=
  forall depth fuel st k r, left_at (offset st) (t ++ r) -> (length (t ++ r) < depth)%nat -> (length (t ++ r) < fuel)%nat ->
  exists st', get_array_loop F0 src (json_get_value_size F0 src depth false) fuel st k b = Ok (st', false) /\
    adds st st' r (isum l + sizeof_json_array_element_s * (k + Z.of_nat (length l))) n.

Lemma element_sized depth st kt k n1 w1 w2 vt v n2 r :
  sized vt v n2 -> (exists c t', vt = c :: t' /\ is_json_space c = false) ->
  jchars 0 kt k n1 -> spaces w1 -> spaces w2 -> stops r ->
  left_at (offset st) (quote :: kt ++ quote :: w1 ++ ":"%char :: w2 ++ vt ++ r) ->
  (length (quote :: kt ++ quote :: w1 ++ ":"%char :: w2 ++ vt ++ r) <= depth)%nat ->
  exists st', get_object_element F0 src (json_get_value_size F0 src depth false) st = Ok (st', false) /\
    adds st st' r (sizeof_json_string_s + sizeof_json_value_s + dom_of v) (n1 + 1 + n2).
Proof.
  intros IHv (c & t' & Hvt & Hc) Hj Hw1 Hw2 Hr Hl Hd. unfold get_object_element, json_get_key_size.
  change (has F0 json_parse_flags_allow_unquoted_keys) with false. cbv iota.
  change (has F0 json_parse_flags_allow_equals_in_object) with false.
  destruct (get_string_size_grammar st true _ _ _ _ Hj Hl) as (st1 & -> & A1). cbn [rbind].
  destruct (skip_to st1 _ _ _ (proj1 A1) Hw1) as (st2 & -> & Hl2 & Hk2); [done|]. cbn [rbind].
  rewrite (left_at_rd _ _ _ Hl2). cbn [rbind]. change (":" =c ":") with true. cbn [negb andb].
  pose proof (advance_adds _ _ _ Hl2) as A3. pose proof (proj1 A3) as Hl3. rewrite Hvt in Hl3. cbn [app] in Hl3.
  destruct (skip_to _ _ _ _ Hl3 Hw2 Hc) as (st4 & -> & Hl4 & Hk4). cbn [rbind].
  destruct (IHv depth st4 [] r) as (st5 & -> & A5); [cbn [app]; by rewrite Hvt|constructor|done| |].
  { revert Hd. cbn [length app]. rewrite !length_app. cbn [length]. rewrite !length_app. cbn [length]. rewrite !length_app. lia. }
  exists st5. split; [done|]. eapply adds_trans; [exact A1|eapply adds_trans; [exact (keeps_adds _ _ _ Hl2 Hk2)|eapply adds_trans;
    [exact A3|eapply adds_trans; [exact (keeps_adds _ _ _ Hl4 Hk4)|exact A5|reflexivity..]|reflexivity..]|reflexivity..]|lia|lia].
Qed.

Lemma sized_first w kt k n1 w1 w2 vt v n2 rest l n3 :
  spaces w -> jchars 0 kt k n1 -> spaces w1 -> spaces w2 -> jvalue vt v n2 -> sized vt v n2 ->
  jmembers true rest l n3 -> members_sized true rest l n3 ->
  forall depth fuel st k0 r,
  left_at (offset st) (quote :: kt ++ quote :: w1 ++ ":"%char :: w2 ++ vt ++ rest ++ r) ->
  (length (quote :: kt ++ quote :: w1 ++ ":"%char :: w2 ++ vt ++ rest ++ r) <= depth)%nat ->
  (length (rest ++ r) < fuel)%nat ->
  exists st', (let* '(st, bad) := get_object_element F0 src (json_get_value_size F0 src depth false) st in
      if bad : bool then Ok (st, None) else
      if (offset st <? size src)%nat
      then get_object_loop F0 src (json_get_value_size F0 src depth false) false fuel st (k0 + 1) true
      else Ok (st, Some (k0 + 1, false))) = Ok (st', Some (k0 + Z.of_nat (length (jmember k v :: l)), true)) /\
    adds st st' r (msum (jmember k v :: l)) (n1 + 1 + n2 + n3).
Proof.
  intros Hw Hj Hw1 Hw2 Hv IHv Hm IHm depth fuel st k0 r Hl Hd Hf.
  destruct (element_sized depth st _ _ _ _ _ _ _ _ _ IHv (jvalue_head _ _ _ Hv) Hj Hw1 Hw2 (jmembers_stops _ _ _ r Hm) Hl Hd)
    as (st1 & -> & A1). cbn [rbind].
  pose proof (jmembers_length _ _ _ _ Hm) as Hlen. pose proof (left_at_size _ _ (proj1 A1)) as Hsz. rewrite length_app in Hsz.
  rewrite (proj2 (Nat.ltb_lt _ _)) by lia. destruct (IHm depth fuel st1 (k0 + 1) r (proj1 A1)) as (st2 & -> & A2); [|done|].
  { revert Hd. cbn [length]. rewrite !length_app. cbn [length]. rewrite !length_app. cbn [length]. rewrite !length_app. lia. }
  exists st2. split; [cbn [length]; do 4 f_equal; lia|]. eapply adds_trans; [exact A1|exact A2| |lia]. cbn. fold (msum l). lia.
Qed.

(** The start of a value: the blanks are skipped and its first character read. *)
Lemma value_start depth st w c l :
  left_at (offset st) (w ++ c :: l) -> spaces w -> is_json_space c = false ->
  exists st1, json_skip_all_skippables F0 src (add_dom_size sizeof_json_value_s st) = Ok (st1, false) /\
    adds st st1 (c :: l) sizeof_json_value_s 0 /\ rd src (offset st1) = Ok c /\
    forall get, json_get_value_size F0 src (S depth) false st = get ->
      get = (let get_value := json_get_value_size F0 src depth false in
        if c =c quote then json_get_string_size F0 src false st1
        else if c =c "'" then Ok (invalid_value st1, true)
        else if c =c "{" then json_get_object_size F0 src get_value false st1
        else if c =c "[" then json_get_array_size F0 src get_value st1
        else if (c =c "-") || is_digit c then json_get_number_size F0 src st1
        else if c =c "+" then Ok (invalid_number st1, true)
        else if c =c "." then Ok (invalid_number st1, true)
        else if match_word src (offset st1) word_true then Ok (advance 4 st1, false)
        else if match_word src (offset st1) word_false then Ok (advance 5 st1, false)
        else if match_word src (offset st1) word_null then Ok (advance 4 st1, false)
        else Ok (invalid_value st1, true)).
Proof.
  intros Hl Hw Hc. set (st0 := add_dom_size sizeof_json_value_s st).
  destruct (skip_to st0 w c l Hl Hw Hc) as (st1 & Hs & Hl1 & Hk). exists st1. split_and!; [done| |by eapply left_at_rd|].
  - destruct Hk as (D & E & _). split; [done|]. cbn in *. lia.
  - intros get <-. cbn [json_get_value_size]. change (has F0 json_parse_flags_allow_location_information) with false. cbv iota.
    fold st0. rewrite Hs. cbn [rbind]. rewrite (left_at_rd _ _ _ Hl1). cbn [rbind].
    change (has F0 json_parse_flags_allow_single_quoted_strings) with false.
    change (has F0 json_parse_flags_allow_leading_plus_sign) with false.
    change (has F0 json_parse_flags_allow_leading_or_trailing_decimal_point) with false.
    change (has F0 json_parse_flags_allow_inf_and_nan) with false. done.
Qed.

Lemma word_sized word v k :
  In (word, v, k) [(word_true, json_true, 4%nat); (word_false, json_false, 5%nat); (word_null, json_null, 4%nat)] ->
  sized word v 0.
Proof.
  intros Hin depth st w r Hl Hw Hr Hd. destruct depth as [|depth]; [lia|].
  assert (length word = k /\ dom_of v = 0) as [Hk Hdom] by (cbn in Hin; intuition (by simplify_eq)).
  assert (exists c t', word = c :: t' /\ is_json_space c = false) as (c & t' & Hwd & Hc).
  { cbn in Hin; intuition (simplify_eq; by do 2 eexists). }
  rewrite Hwd in Hl. cbn [app] in Hl. destruct (value_start depth st w c (t' ++ r) Hl Hw Hc) as (st1 & _ & A1 & _ & Hv).
  rewrite (Hv _ eq_refl). assert (left_at (offset st1) (word ++ r)) as Hl1 by (rewrite Hwd; apply A1).
  pose proof (match_word_app _ _ _ Hl1) as Hm. pose proof (advance_word_adds _ _ _ Hl1) as A2.
  rewrite Hk in A2. exists (advance k st1). split; [|eapply adds_trans; [exact A1|exact A2|lia|lia]].
  destruct Hin as [Hin|[Hin|[Hin|[]]]]; injection Hin as <- <- <-; injection Hwd as <- <-; cbv zeta; cbn [orb].
  - cbn [Ascii.eqb Bool.eqb orb]. by rewrite Hm.
  - assert (match_word src (offset st1) word_true = false) as ->; [|by rewrite Hm].
    cbn. by rewrite (at_left _ _ _ Hl1).
  - assert (match_word src (offset st1) word_true = false) as -> by (cbn; by rewrite (at_left _ _ _ Hl1)).
    assert (match_word src (offset st1) word_false = false) as -> by (cbn; by rewrite (at_left _ _ _ Hl1)). by rewrite Hm.
Qed.

Lemma string_sized t out n : jchars 0 t out n -> sized (quote :: t ++ [quote]) (json_string (string_of_list_ascii out)) (n + 1).
Proof.
  intros Hj.
  intros depth st w r Hl Hw Hr Hd. destruct depth as [|depth]; [lia|].
  cbn [app] in Hl. destruct (value_start depth st w _ _ Hl Hw eq_refl) as (st1 & _ & A1 & _ & Hv). rewrite (Hv _ eq_refl).
  change (quote =c quote) with true. cbv iota. pose proof (proj1 A1) as Hl1. rewrite <- app_assoc in Hl1.
  destruct (get_string_size_grammar st1 false _ _ _ _ Hj Hl1) as (st2 & -> & A2). exists st2. split; [done|].
  eapply adds_trans; [exact A1|exact A2|done|lia].
Qed.

Lemma number_sized t : jnumber t -> sized t (json_number (string_of_list_ascii t)) (Z.of_nat (length t) + 1).
Proof.
  intros Hj.
  intros depth st w r Hl Hw Hr Hd. destruct depth as [|depth]; [lia|].
  destruct (jnumber_head t Hj) as (c & t' & Ht & Hc). destruct (number_start c Hc) as (Hsp & N1 & N2 & N3 & N4).
  rewrite Ht in Hl. cbn [app] in Hl. destruct (value_start depth st w _ _ Hl Hw Hsp) as (st1 & _ & A1 & _ & Hv).
  rewrite (Hv _ eq_refl). cbv zeta. rewrite N1, N2, N3, N4, Hc. pose proof (proj1 A1) as Hl1.
  change (c :: t' ++ r) with ((c :: t') ++ r) in Hl1. rewrite <- Ht in Hl1.
  destruct (get_number_size_grammar st1 t r Hj Hr Hl1) as (st2 & -> & A2). exists st2. split; [done|].
  eapply adds_trans; [exact A1|exact A2|done|lia].
Qed.

Lemma object_sized t l n : jmembers false t l n -> members_sized false t l n -> sized ("{"%char :: t) (json_object l) n.
Proof.
  intros Hm IH.
  intros depth st w r Hl Hw Hr Hd. destruct depth as [|depth]; [lia|].
  cbn [app] in Hl. destruct (value_start depth st w _ _ Hl Hw eq_refl) as (st1 & _ & A1 & _ & Hv). rewrite (Hv _ eq_refl).
  cbv zeta. change ("{" =c quote) with false. change ("{" =c "'") with false. change ("{" =c "{") with true. cbv iota.
  unfold json_get_object_size. cbn [rbind]. rewrite (left_at_rd _ _ _ (proj1 A1)). cbn [rbind].
  change ("{" =c "{") with true. cbn [negb rbind]. pose proof (advance_adds _ _ _ (proj1 A1)) as A2.
  set (st2 := add_dom_size sizeof_json_object_s (advance 1 st1)).
  assert (adds st1 st2 (t ++ r) sizeof_json_object_s 0) as A3 by (split; [by apply A2|cbn; lia]).
  rewrite (at_end_left _ _ (proj1 A3)). pose proof (jmembers_length _ _ _ _ Hm) as Hlen.
  replace (match t ++ r with [] => true | _ :: _ => false end) with false by (destruct t; [cbn in Hlen; lia|done]). cbn [andb].
  pose proof (left_at_size _ _ (proj1 A3)).
  destruct (IH depth (S (size src)) st2 0 r (proj1 A3)) as (st3 & -> & A4);
    [rewrite length_app in Hd; cbn [length app] in Hd; lia|lia|]. cbn [rbind negb].
  rewrite andb_false_r. eexists. split; [done|]. destruct A1 as (_ & D1 & E1), A3 as (_ & D3 & E3), A4 as (L4 & D4 & E4).
  split; [done|]. rewrite dom_of_object. cbn. lia.
Qed.

Lemma array_sized t l n : jitems false t l n -> items_sized false t l n -> sized ("["%char :: t) (json_array l) n.
Proof.
  intros Hi IH.
  intros depth st w r Hl Hw Hr Hd. destruct depth as [|depth]; [lia|].
  cbn [app] in Hl. destruct (value_start depth st w _ _ Hl Hw eq_refl) as (st1 & _ & A1 & _ & Hv). rewrite (Hv _ eq_refl).
  cbv zeta. change ("[" =c quote) with false. change ("[" =c "'") with false. change ("[" =c "{") with false.
  change ("[" =c "[") with true. cbv iota. unfold json_get_array_size. rewrite (left_at_rd _ _ _ (proj1 A1)). cbn [rbind].
  change ("[" =c "[") with true. cbn [negb]. pose proof (advance_adds _ _ _ (proj1 A1)) as A2.
  set (st2 := add_dom_size sizeof_json_array_s (advance 1 st1)).
  assert (adds st1 st2 (t ++ r) sizeof_json_array_s 0) as A3 by (split; [by apply A2|cbn; lia]).
  pose proof (left_at_size _ _ (proj1 A3)).
  destruct (IH depth (S (S (size src))) st2 0 r (proj1 A3)) as (st3 & -> & A4);
    [rewrite length_app in Hd; cbn [length app] in Hd; lia|lia|].
  exists st3. split; [done|]. eapply adds_trans; [exact A1|eapply adds_trans; [exact A3|exact A4|reflexivity..]| |lia].
  rewrite dom_of_array. lia.
Qed.

Lemma members_end_sized b w : spaces w -> members_sized b (w ++ ["}"%char]) [] 0.
Proof.
  intros Hw.
  intros depth fuel st k r Hl Hd Hf. rewrite <- app_assoc in Hl. cbn [app] in Hl.
  destruct fuel as [|fuel]; [lia|]. cbn [get_object_loop].
  destruct (skip_to st w _ _ Hl Hw eq_refl) as (st1 & -> & Hl1 & Hk). cbn [rbind]. rewrite (left_at_rd _ _ _ Hl1). cbn [rbind].
  change ("}" =c "}") with true. cbn [negb andb]. eexists. split; [cbn [length]; do 4 f_equal; lia|].
  eapply adds_trans; [exact (keeps_adds _ _ _ Hl1 Hk)|exact (advance_adds _ _ _ Hl1)|done|done].
Qed.

Lemma members_first_sized w kt k w1 w2 vt v rest l n1 n2 n3 :
  spaces w -> jchars 0 kt k n1 -> spaces w1 -> spaces w2 -> jvalue vt v n2 -> sized vt v n2 ->
  jmembers true rest l n3 -> members_sized true rest l n3 ->
  members_sized false (w ++ quote :: kt ++ quote :: w1 ++ ":"%char :: w2 ++ vt ++ rest) (jmember k v :: l) (n1 + 1 + n2 + n3).
Proof.
  intros Hw Hj Hw1 Hw2 Hv IHv Hm IHm.
  intros depth fuel st k0 r Hl Hd Hf. destruct fuel as [|fuel]; [lia|]. cbn [get_object_loop].
  repeat (rewrite <- ?app_assoc, <- ?app_comm_cons in Hl, Hd, Hf).
  destruct (skip_to st w _ _ Hl Hw eq_refl) as (st1 & -> & Hl1 & Hk). cbn [rbind]. rewrite (left_at_rd _ _ _ Hl1). cbn [rbind].
  change (quote =c "}") with false. cbn [negb andb].
  destruct (sized_first w kt k n1 w1 w2 vt v n2 rest l n3 Hw Hj Hw1 Hw2 Hv IHv Hm IHm depth fuel st1 k0 r Hl1)
    as (st2 & Hs & A2).
  { rewrite length_app in Hd. lia. }
  { revert Hf. rewrite length_app. cbn [length]. rewrite !length_app. cbn [length]. rewrite !length_app. cbn [length]. rewrite !length_app. lia. }
  rewrite Hs. exists st2. split; [done|]. eapply adds_trans; [exact (keeps_adds _ _ _ Hl1 Hk)|exact A2|lia|lia].
Qed.

Lemma members_next_sized w0 w kt k w1 w2 vt v rest l n1 n2 n3 :
  spaces w0 -> spaces w -> jchars 0 kt k n1 -> spaces w1 -> spaces w2 -> jvalue vt v n2 -> sized vt v n2 ->
  jmembers true rest l n3 -> members_sized true rest l n3 ->
  members_sized true (w0 ++ ","%char :: w ++ quote :: kt ++ quote :: w1 ++ ":"%char :: w2 ++ vt ++ rest)
    (jmember k v :: l) (n1 + 1 + n2 + n3).
Proof.
  intros Hw0 Hw Hj Hw1 Hw2 Hv IHv Hm IHm.
  intros depth fuel st k0 r Hl Hd Hf. destruct fuel as [|fuel]; [lia|]. cbn [get_object_loop].
  repeat (rewrite <- ?app_assoc, <- ?app_comm_cons in Hl, Hd, Hf).
  destruct (skip_to st w0 _ _ Hl Hw0 eq_refl) as (st1 & -> & Hl1 & Hk). cbn [rbind]. rewrite (left_at_rd _ _ _ Hl1). cbn [rbind].
  change ("," =c "}") with false. change ("," =c ",") with true. cbn [negb andb].
  change (has F0 json_parse_flags_allow_trailing_comma) with false. cbv iota.
  pose proof (advance_adds _ _ _ Hl1) as A1. destruct (skip_to _ w _ _ (proj1 A1) Hw eq_refl) as (st3 & -> & Hl3 & Hk3). cbn [rbind].
  destruct (sized_first w kt k n1 w1 w2 vt v n2 rest l n3 Hw Hj Hw1 Hw2 Hv IHv Hm IHm depth fuel st3 k0 r Hl3)
    as (st4 & Hs & A4).
  { rewrite length_app in Hd. cbn [length] in Hd. rewrite length_app in Hd. lia. }
  { revert Hf. rewrite length_app. cbn [length]. rewrite !length_app. cbn [length]. rewrite !length_app. cbn [length]. rewrite !length_app.
    cbn [length]. rewrite !length_app. lia. }
  rewrite Hs. exists st4. split; [done|]. eapply adds_trans; [exact (keeps_adds _ _ _ Hl1 Hk)|eapply adds_trans; [exact A1|
    eapply adds_trans; [exact (keeps_adds _ _ _ Hl3 Hk3)|exact A4|reflexivity..]|reflexivity..]|lia|lia].
Qed.

Lemma items_end_sized b w : spaces w -> items_sized b (w ++ ["]"%char]) [] 0.
Proof.
  intros Hw.
  intros depth fuel st k r Hl Hd Hf. rewrite <- app_assoc in Hl. cbn [app] in Hl.
  destruct fuel as [|fuel]; [lia|]. cbn [get_array_loop]. pose proof (left_at_size _ _ Hl) as Hsz. rewrite length_app in Hsz.
  cbn [length] in Hsz. rewrite (proj2 (Nat.ltb_lt _ _)) by lia.
  destruct (skip_to st w _ _ Hl Hw eq_refl) as (st1 & -> & Hl1 & Hk). cbn [rbind]. rewrite (left_at_rd _ _ _ Hl1). cbn [rbind].
  change ("]" =c "]") with true. cbv iota. eexists. split; [done|]. destruct Hk as (D & E & _).
  pose proof (advance_adds _ _ _ Hl1) as (L2 & D2 & E2). split; [done|]. cbn in *. lia.
Qed.

(** A value inside an array and the rest of the loop. *)
Lemma item_sized vt v n1 rest l n2 depth fuel st k r :
  jvalue vt v n1 -> sized vt v n1 -> jitems true rest l n2 -> items_sized true rest l n2 ->
  left_at (offset st) (vt ++ rest ++ r) -> (length (vt ++ rest ++ r) < depth)%nat -> (length (vt ++ rest ++ r) <= fuel)%nat ->
  exists st', (let* '(st, bad) := json_get_value_size F0 src depth false st in
      if bad : bool then Ok (st, true)
      else get_array_loop F0 src (json_get_value_size F0 src depth false) fuel st (k + 1) true) = Ok (st', false) /\
    adds st st' r (isum ((None, v) :: l) + sizeof_json_array_element_s * (k + Z.of_nat (length ((None (A := location), v) :: l)))) (n1 + n2).
Proof.
  intros Hv IHv Hi IHi Hl Hd Hf. pose proof (jvalue_length _ _ _ Hv). rewrite !length_app in Hf, Hd.
  destruct (IHv depth st [] (rest ++ r) Hl) as (st1 & -> & A1);
    [constructor|by eapply jitems_stops|cbn [app]; rewrite !length_app; lia|]. cbn [rbind].
  destruct (IHi depth fuel st1 (k + 1) r (proj1 A1)) as (st2 & -> & A2); [rewrite length_app; lia..|].
  exists st2. split; [done|]. eapply adds_trans; [exact A1|exact A2| |lia]. cbn [length isum foldr snd]. fold (isum l). lia.
Qed.

Lemma jvalue_not_closing t v n c r : jvalue t v n -> t = c :: r -> (c =c "]") = false.
Proof.
  intros Hv ->. apply cneq. intros ->. inversion Hv as [| ? Hn | | | | |]; subst.
  by destruct (jnumber_head _ Hn) as (? & ? & [= <- <-] & ?).
Qed.

Lemma items_first_sized w vt v rest l n1 n2 :
  spaces w -> jvalue vt v n1 -> sized vt v n1 -> jitems true rest l n2 -> items_sized true rest l n2 ->
  items_sized false (w ++ vt ++ rest) ((None, v) :: l) (n1 + n2).
Proof.
  intros Hw Hv IHv Hi IHi depth fuel st k r Hl Hd Hf. destruct fuel as [|fuel]; [lia|]. cbn [get_array_loop].
  rewrite <- !app_assoc in Hl, Hd, Hf. destruct (jvalue_head _ _ _ Hv) as (c & t' & Hvt & Hc).
  pose proof (left_at_size _ _ Hl) as Hsz. pose proof (jvalue_length _ _ _ Hv). rewrite !length_app in Hsz, Hd, Hf.
  rewrite (proj2 (Nat.ltb_lt _ _)) by lia. pose proof Hl as Hl'. rewrite Hvt in Hl'. cbn [app] in Hl'.
  destruct (skip_to st w _ _ Hl' Hw Hc) as (st1 & -> & Hl1 & Hk). cbn [rbind]. rewrite (left_at_rd _ _ _ Hl1). cbn [rbind].
  rewrite (jvalue_not_closing _ _ _ _ _ Hv Hvt).
  change (c :: t' ++ rest ++ r) with ((c :: t') ++ rest ++ r) in Hl1. rewrite <- Hvt in Hl1.
  destruct (item_sized vt v n1 rest l n2 depth fuel st1 k r Hv IHv Hi IHi Hl1) as (st2 & -> & A2); [rewrite !length_app; lia..|].
  exists st2. split; [done|]. eapply adds_trans; [exact (keeps_adds _ _ _ Hl1 Hk)|exact A2|lia|lia].
Qed.

Lemma items_next_sized w0 w vt v rest l n1 n2 :
  spaces w0 -> spaces w -> jvalue vt v n1 -> sized vt v n1 -> jitems true rest l n2 -> items_sized true rest l n2 ->
  items_sized true (w0 ++ ","%char :: w ++ vt ++ rest) ((None, v) :: l) (n1 + n2).
Proof.
  intros Hw0 Hw Hv IHv Hi IHi depth fuel st k r Hl Hd Hf. destruct fuel as [|fuel]; [lia|]. cbn [get_array_loop].
  repeat (rewrite <- ?app_assoc, <- ?app_comm_cons in Hl, Hd, Hf). destruct (jvalue_head _ _ _ Hv) as (c & t' & Hvt & Hc).
  pose proof (left_at_size _ _ Hl) as Hsz. pose proof (jvalue_length _ _ _ Hv). rewrite !length_app in Hsz, Hd, Hf.
  cbn [length] in Hsz, Hd, Hf. rewrite !length_app in Hsz, Hd, Hf. rewrite (proj2 (Nat.ltb_lt _ _)) by lia.
  destruct (skip_to st w0 _ _ Hl Hw0 eq_refl) as (st1 & -> & Hl1 & Hk). cbn [rbind]. rewrite (left_at_rd _ _ _ Hl1). cbn [rbind].
  change ("," =c "]") with false. change ("," =c ",") with true. cbv iota.
  change (has F0 json_parse_flags_allow_trailing_comma) with false. cbv iota. pose proof (advance_adds _ _ _ Hl1) as A1.
  pose proof (proj1 A1) as Hl2. rewrite Hvt in Hl2. cbn [app] in Hl2.
  destruct (skip_to _ w _ _ Hl2 Hw Hc) as (st3 & -> & Hl3 & Hk3). cbn [rbind].
  change (c :: t' ++ rest ++ r) with ((c :: t') ++ rest ++ r) in Hl3. rewrite <- Hvt in Hl3.
  destruct (item_sized vt v n1 rest l n2 depth fuel st3 k r Hv IHv Hi IHi Hl3) as (st4 & -> & A4); [rewrite !length_app; lia..|].
  exists st4. split; [done|]. eapply adds_trans; [exact (keeps_adds _ _ _ Hl1 Hk)|eapply adds_trans; [exact A1|
    eapply adds_trans; [exact (keeps_adds _ _ _ Hl3 Hk3)|exact A4|reflexivity..]|reflexivity..]|lia|lia].
Qed.

(** The first pass accepts every text of the grammar, with its sizes. *)
Lemma grammar_sized :
  (forall t v n, jvalue t v n -> jvalue t v n /\ sized t v n) /\
  (forall b t l n, jmembers b t l n -> jmembers b t l n /\ members_sized b t l n) /\
  (forall b t l n, jitems b t l n -> jitems b t l n /\ items_sized b t l n).
Proof.
  apply json_mind; intros; destruct_and?; (split; [by constructor|]).
  - by apply string_sized.
  - by apply number_sized.
  - by eapply word_sized; left.
  - by eapply word_sized; right; left.
  - by eapply word_sized; right; right; left.
  - by apply object_sized.
  - by apply array_sized.
  - by apply members_end_sized.
  - by apply members_first_sized.
  - by apply members_next_sized.
  - by apply items_end_sized.
  - by apply items_first_sized.
  - by apply items_next_sized.
Qed.

(** ** Sizes: linear in the text *)
Lemma jchars_bound hs t out n : jchars hs t out n -> 0 <= n <= Z.of_nat (length t).
Proof.
  induction 1; cbn [length] in *; try lia. pose proof (utf8_length cp) as Hu.
  assert (Z.of_nat (length (utf8 cp)) <= 4) by lia. lia.
Qed.

Lemma grammar_bound :
  (forall t v n, jvalue t v n -> 0 <= dom_of v /\ 0 <= n /\ sizeof_json_value_s + dom_of v + n <= 64 * Z.of_nat (length t)) /\
  (forall b t l n, jmembers b t l n -> 0 <= msum l /\ 0 <= n /\
     msum l + sizeof_json_object_element_s * Z.of_nat (length l) + n + (if b then 64 else 16) <= 64 * Z.of_nat (length t)) /\
  (forall b t l n, jitems b t l n -> 0 <= isum l /\ 0 <= n /\
     isum l + sizeof_json_array_element_s * Z.of_nat (length l) + n + (if b then 64 else 16) <= 64 * Z.of_nat (length t)).
Proof.
  assert (sizeof_json_string_s = 16 /\ sizeof_json_value_s = 16 /\ sizeof_json_object_element_s = 24 /\ sizeof_json_array_s = 16
    /\ sizeof_json_object_s = 16 /\ sizeof_json_array_element_s = 16 /\ sizeof_json_number_s = 16) as (S1 & S2 & S3 & S4 & S5 & S6 & S7) by done.
  apply json_mind; intros; destruct_and?; rewrite ?dom_of_object, ?dom_of_array;
    repeat match goal with H : jchars _ _ _ _ |- _ => apply jchars_bound in H end;
    repeat match goal with H : jvalue _ _ _ |- _ => apply jvalue_length in H end;
    repeat match goal with H : jnumber _ |- _ => apply jnumber_chars in H end; destruct_and?;
    unfold msum, isum in *; cbn [dom_of foldr length snd fst jmember] in *;
    repeat (rewrite ?length_app; cbn [length]); rewrite ?S1, ?S2, ?S3, ?S4, ?S5, ?S6, ?S7 in *; split_and!;
    try destruct b; try (cbn; lia).
Qed.

(** ** Values of the grammar, second pass *)
Section FillValues.
Context (dom_end data_end : Z).

Lemma take_dom_ok k st : dom st + k <= dom_end -> take_dom dom_end k st = Ok (set_dom (dom st + k) st).
Proof. intros H. unfold take_dom. by rewrite (proj2 (Z.leb_le _ _) H). Qed.

Lemma take_value_ok st :
  dom st + sizeof_json_value_s <= dom_end -> take_value F0 dom_end st = Ok (set_dom (dom st + sizeof_json_value_s) st, None).
Proof.
  intros H. unfold take_value. change (has F0 json_parse_flags_allow_location_information) with false. cbv iota.
  by rewrite take_dom_ok.
Qed.

Lemma take_string_ok st :
  dom st + sizeof_json_string_s <= dom_end -> take_string F0 dom_end st = Ok (set_dom (dom st + sizeof_json_string_s) st, None).
Proof.
  intros H. unfold take_string. change (has F0 json_parse_flags_allow_location_information) with false. cbv iota.
  by rewrite take_dom_ok.
Qed.

(** What the second pass does on a text of the grammar, given the room the first pass counted. *)
Definition filled (t : list ascii) (v : json_value_s) (n : Z) : Prop :=
  forall depth st w r, left_at (offset st) (w ++ t ++ r) -> spaces w -> stops r -> (length (w ++ t ++ r) < depth)%nat ->
  dom st + dom_of v <= dom_end -> data st + n <= data_end ->
  exists st', json_parse_value F0 src dom_end data_end depth false st = Ok (st', v) /\ fills st st' r (dom_of v) n.

Definition members_filled (b : bool) (t : list ascii) (l : list (option location * string * (option location * json_value_s))) (n : Z) : Prop :=
  forall depth fuel st acc l0 r, left_at (offset st) l0 -> ws l0 = ws (t ++ r) -> (length l0 <= depth)%nat -> (length l0 < fuel)%nat ->
  let d := msum l + sizeof_json_object_element_s * Z.of_nat (length l) in
  dom st + d <= dom_end -> data st + n <= data_end ->
  exists st', parse_object_loop F0 src dom_end data_end (json_parse_value F0 src dom_end data_end depth false) false fuel st b acc
    = Ok (st', json_object (acc ++ l)) /\ fills st st' r d n.

Definition items_filled (b : bool) (t : list ascii) (l : list (option location * json_value_s)) (n : Z) : Prop :=
  forall depth fuel st acc l0 r, left_at (offset st) l0 -> ws l0 = ws (t ++ r) -> (length l0 < depth)%nat -> (length l0 < fuel)%nat ->
  let d := isum l + sizeof_json_array_element_s * Z.of_nat (length l) in
  dom st + d <= dom_end -> data st + n <= data_end ->
  exists st', parse_array_loop F0 src dom_end (json_parse_value F0 src dom_end data_end depth false) fuel st b acc
    = Ok (st', json_array (acc ++ l)) /\ fills st st' r d n.

Lemma keeps_fills st st' r : left_at (offset st') r -> keeps st st' -> fills st st' r 0 0.
Proof. intros Hl (_ & _ & H1 & H2). split; [done|]. lia. Qed.

Lemma advance_fills st c l : left_at (offset st) (c :: l) -> fills st (advance 1 st) l 0 0.
Proof. intros (_ & _ & Hl)%left_at_cons. split; [|cbn; lia]. cbn. by replace (offset st + 1)%nat with (S (offset st)) by lia. Qed.

Lemma fills_trans st st1 st2 r1 r2 d1 d2 a1 a2 d a :
  fills st st1 r1 d1 a1 -> fills st1 st2 r2 d2 a2 -> d = d1 + d2 -> a = a1 + a2 -> fills st st2 r2 d a.
Proof. intros (_ & H1 & H2) (Hl & H3 & H4) -> ->. split; [done|]. lia. Qed.

(** Skipping depends on what is left without the leading blanks only. *)
Lemma skip_from st l0 w c r :
  left_at (offset st) l0 -> ws l0 = ws (w ++ c :: r) -> spaces w -> is_json_space c = false ->
  exists st', json_skip_all_skippables F0 src st = Ok (st', false) /\ fills st st' (c :: r) 0 0 /\
    rd src (offset st') = Ok c /\ (length (c :: r) <= length l0)%nat /\ (offset st <? size src)%nat = true.
Proof.
  intros Hl Hws Hw Hc. rewrite ws_app, ws_nonspace in Hws by done.
  destruct (skippables_ok st l0 Hl) as (st' & Hs & Hl' & Hk). rewrite Hws in *. exists st'. pose proof (ws_length l0) as Hlen.
  rewrite Hws in Hlen. split_and!; [done|by apply keeps_fills|by eapply left_at_rd|done|].
  apply Nat.ltb_lt. apply left_at_size in Hl. cbn in Hlen. lia.
Qed.

(** The start of a value. *)
Lemma parse_start depth st w c l :
  left_at (offset st) (w ++ c :: l) -> spaces w -> is_json_space c = false ->
  exists st1, fills st st1 (c :: l) 0 0 /\
    json_parse_value F0 src dom_end data_end (S depth) false st =
      (let parse_value := json_parse_value F0 src dom_end data_end depth false in
      if (c =c quote) || (c =c "'") then parse_text dom_end sizeof_json_string_s json_string (json_parse_string src data_end) st1
      else if c =c "{" then let* st := take_dom dom_end sizeof_json_object_s st1 in
        json_parse_object F0 src dom_end data_end parse_value false st
      else if c =c "[" then let* st := take_dom dom_end sizeof_json_array_s st1 in
        json_parse_array F0 src dom_end parse_value st
      else if (c =c "-") || (c =c "+") || is_digit c || (c =c ".") then
        parse_text dom_end sizeof_json_number_s json_number (json_parse_number F0 src data_end) st1
      else if match_word src (offset st1) word_true then Ok (advance 4 st1, json_true)
      else if match_word src (offset st1) word_false then Ok (advance 5 st1, json_false)
      else if match_word src (offset st1) word_null then Ok (advance 4 st1, json_null)
      else Err Undefined).
Proof.
  intros Hl Hw Hc. destruct (skip_to st w c l Hl Hw Hc) as (st1 & Hs & Hl1 & Hk). exists st1. split; [by apply keeps_fills|].
  cbn [json_parse_value]. rewrite Hs. cbn [rbind]. rewrite (left_at_rd _ _ _ Hl1). cbn [rbind].
  change (has F0 json_parse_flags_allow_inf_and_nan) with false. done.
Qed.

Lemma string_filled t out n :
  jchars 0 t out n -> filled (quote :: t ++ [quote]) (json_string (string_of_list_ascii out)) (n + 1).
Proof.
  intros Hj depth st w r Hl Hw Hr Hd Hdom Hdata. destruct depth as [|depth]; [lia|]. cbn [app] in Hl.
  destruct (parse_start depth st w _ _ Hl Hw eq_refl) as (st1 & A1 & ->). change (quote =c quote) with true. cbn [orb].
  cbn [dom_of] in *. destruct A1 as (L1 & D1 & E1). unfold parse_text. rewrite take_dom_ok by lia. cbn [rbind].
  rewrite <- app_assoc in L1.
  destruct (parse_string_grammar data_end (set_dom (dom st1 + sizeof_json_string_s) st1) _ _ _ _ Hj L1) as (st2 & -> & L2 & D2 & E2);
    [cbn; lia|]. exists st2. split; [done|]. split; [done|]. cbn in *. lia.
Qed.

Lemma number_text_filled t :
  Forall (fun c => is_number_char c = true) t -> (exists c t', t = c :: t' /\ (c =c "-") || is_digit c = true) ->
  filled t (json_number (string_of_list_ascii t)) (Z.of_nat (length t) + 1).
Proof.
  intros Hj (c & t' & Ht & Hc) depth st w r Hl Hw Hr Hd Hdom Hdata. destruct depth as [|depth]; [lia|].
  destruct (number_start c Hc) as (Hsp & N1 & N2 & N3 & N4).
  rewrite Ht in Hl. cbn [app] in Hl. destruct (parse_start depth st w _ _ Hl Hw Hsp) as (st1 & A1 & ->).
  cbv zeta. rewrite N1, N2, N3, N4. cbn [orb].
  replace ((c =c "-") || (c =c "+") || is_digit c || (c =c ".")) with true.
  2: { symmetry. rewrite !orb_true_iff. rewrite orb_true_iff in Hc. tauto. }
  change (c :: t' ++ r) with ((c :: t') ++ r) in A1. rewrite <- Ht in A1. cbn [dom_of] in *. destruct A1 as (L1 & D1 & E1).
  unfold parse_text. rewrite take_dom_ok by lia. cbn [rbind].
  destruct (parse_number_grammar data_end (set_dom (dom st1 + sizeof_json_number_s) st1) t r Hj Hr L1) as (st2 & -> & L2 & D2 & E2);
    [cbn; lia|]. exists st2. split; [done|]. split; [done|]. cbn in *. lia.
Qed.

Lemma word_filled word v k :
  In (word, v, k) [(word_true, json_true, 4%nat); (word_false, json_false, 5%nat); (word_null, json_null, 4%nat)] ->
  filled word v 0.
Proof.
  intros Hin depth st w r Hl Hw Hr Hd Hdom Hdata. destruct depth as [|depth]; [lia|].
  assert (length word = k /\ dom_of v = 0) as [Hk Hdv] by (cbn in Hin; intuition (by simplify_eq)).
  assert (exists c t', word = c :: t' /\ is_json_space c = false) as (c & t' & Hwd & Hc).
  { cbn in Hin; intuition (simplify_eq; by do 2 eexists). }
  rewrite Hwd in Hl. cbn [app] in Hl. destruct (parse_start depth st w c (t' ++ r) Hl Hw Hc) as (st1 & A1 & ->).
  assert (left_at (offset st1) (word ++ r)) as Hl1 by (rewrite Hwd; apply A1).
  pose proof (match_word_app _ _ _ Hl1) as Hm. exists (advance k st1). split.
  - destruct Hin as [Hin|[Hin|[Hin|[]]]]; injection Hin as <- <- <-; injection Hwd as <- <-; cbv zeta; cbn [Ascii.eqb Bool.eqb orb].
    + by rewrite Hm.
    + assert (match_word src (offset st1) word_true = false) as ->; [|by rewrite Hm]. cbn. by rewrite (at_left _ _ _ Hl1).
    + assert (match_word src (offset st1) word_true = false) as -> by (cbn; by rewrite (at_left _ _ _ Hl1)).
      assert (match_word src (offset st1) word_false = false) as -> by (cbn; by rewrite (at_left _ _ _ Hl1)). by rewrite Hm.
  - apply left_at_app in Hl1. rewrite Hk in Hl1. destruct A1 as (_ & D1 & E1). split; [done|]. rewrite Hdv. cbn. lia.
Qed.

Lemma object_filled t l n : jmembers false t l n -> members_filled false t l n -> filled ("{"%char :: t) (json_object l) n.
Proof.
  intros Hm IH depth st w r Hl Hw Hr Hd Hdom Hdata. destruct depth as [|depth]; [lia|]. cbn [app] in Hl.
  destruct (proj1 (proj2 grammar_bound) _ _ _ _ Hm) as (Hm0 & Hn0 & _).
  destruct (parse_start depth st w _ _ Hl Hw eq_refl) as (st1 & A1 & ->). cbv zeta. cbn [Ascii.eqb Bool.eqb orb].
  assert (0 <= sizeof_json_object_element_s * Z.of_nat (length l)) by (unfold sizeof_json_object_element_s; lia).
  rewrite dom_of_object in *. destruct A1 as (L1 & D1 & E1). rewrite take_dom_ok by lia. cbn [rbind].
  unfold json_parse_object. cbn [rbind]. set (st2 := set_dom _ st1).
  assert (fills st1 (advance 1 st2) (t ++ r) sizeof_json_object_s 0) as A2.
  { split; [by apply (advance_fills _ _ _ L1)|cbn; lia]. }
  destruct (skippables_ok _ _ (proj1 A2)) as (st3 & -> & L3 & K3). cbn [rbind]. pose proof (keeps_fills _ _ _ L3 K3) as A3.
  assert (fills st st3 (ws (t ++ r)) sizeof_json_object_s 0) as (L4 & D4 & E4).
  { eapply fills_trans; [split; [exact L1|split; [exact D1|exact E1]]|eapply fills_trans; [exact A2|exact A3|done|done]|done|done]. }
  pose proof (ws_length (t ++ r)) as Hws. pose proof (left_at_size _ _ L4) as Hsz. rewrite !length_app in Hd. cbn [length] in Hd.
  rewrite length_app in Hws.
  destruct (IH depth (2 * S (size src))%nat st3 [] _ r L4) as (st4 & -> & A4); [apply ws_idem|lia|lia|lia|lia|].
  exists st4. split; [done|]. eapply fills_trans; [split; [exact L4|split; [exact D4|exact E4]]|exact A4|lia|lia].
Qed.

Lemma array_filled t l n : jitems false t l n -> items_filled false t l n -> filled ("["%char :: t) (json_array l) n.
Proof.
  intros Hi IH depth st w r Hl Hw Hr Hd Hdom Hdata. destruct depth as [|depth]; [lia|]. cbn [app] in Hl.
  destruct (proj2 (proj2 grammar_bound) _ _ _ _ Hi) as (Hi0 & Hn0 & _).
  destruct (parse_start depth st w _ _ Hl Hw eq_refl) as (st1 & A1 & ->). cbv zeta. cbn [Ascii.eqb Bool.eqb orb].
  assert (0 <= sizeof_json_array_element_s * Z.of_nat (length l)) by (unfold sizeof_json_array_element_s; lia).
  rewrite dom_of_array in *. destruct A1 as (L1 & D1 & E1). rewrite take_dom_ok by lia. cbn [rbind].
  unfold json_parse_array. set (st2 := set_dom _ st1).
  assert (fills st1 (advance 1 st2) (t ++ r) sizeof_json_array_s 0) as A2.
  { split; [by apply (advance_fills _ _ _ L1)|cbn; lia]. }
  destruct (skippables_ok _ _ (proj1 A2)) as (st3 & -> & L3 & K3). cbn [rbind]. pose proof (keeps_fills _ _ _ L3 K3) as A3.
  assert (fills st st3 (ws (t ++ r)) sizeof_json_array_s 0) as (L4 & D4 & E4).
  { eapply fills_trans; [split; [exact L1|split; [exact D1|exact E1]]|eapply fills_trans; [exact A2|exact A3|done|done]|done|done]. }
  pose proof (ws_length (t ++ r)) as Hws. pose proof (left_at_size _ _ L4) as Hsz. rewrite !length_app in Hd. cbn [length] in Hd.
  rewrite length_app in Hws.
  destruct (IH depth (2 * S (size src))%nat st3 [] _ r L4) as (st4 & -> & A4); [apply ws_idem|lia|lia|lia|lia|].
  exists st4. split; [done|]. eapply fills_trans; [split; [exact L4|split; [exact D4|exact E4]]|exact A4|lia|lia].
Qed.

Lemma members_end_filled b w : spaces w -> members_filled b (w ++ ["}"%char]) [] 0.
Proof.
  intros Hw depth fuel st acc l0 r Hl Hws Hd Hf d Hdom Hdata. destruct fuel as [|fuel]; [lia|]. cbn [parse_object_loop].
  rewrite <- app_assoc in Hws. destruct (skip_from st l0 w "}" r Hl Hws Hw eq_refl) as (st1 & -> & A1 & Hrd & Hlen & ->).
  cbn [rbind andb]. rewrite Hrd. cbn [rbind]. change ("}" =c "}") with true. cbv iota. rewrite app_nil_r. eexists. split; [done|].
  eapply fills_trans; [exact A1|exact (advance_fills _ _ _ (proj1 A1))|done|done].
Qed.

(** One member and the rest of the loop. *)
Lemma element_filled depth st kt k n1 w1 w2 vt v n2 r :
  filled vt v n2 -> (exists c t', vt = c :: t' /\ is_json_space c = false) ->
  jchars 0 kt k n1 -> spaces w1 -> spaces w2 -> stops r ->
  left_at (offset st) (quote :: kt ++ quote :: w1 ++ ":"%char :: w2 ++ vt ++ r) ->
  (length (quote :: kt ++ quote :: w1 ++ ":"%char :: w2 ++ vt ++ r) <= depth)%nat ->
  let d := sizeof_json_object_element_s + sizeof_json_string_s + sizeof_json_value_s + dom_of v in
  dom st + d <= dom_end -> data st + (n1 + 1 + n2) <= data_end -> 0 <= dom_of v -> 0 <= n2 ->
  exists st', parse_object_element F0 src dom_end data_end (json_parse_value F0 src dom_end data_end depth false) st
    = Ok (st', jmember k v) /\ fills st st' r d (n1 + 1 + n2).
Proof.
  intros IHv (c & t' & Hvt & Hc) Hj Hw1 Hw2 Hr Hl Hd d Hdom Hdata Hdv Hn2. unfold parse_object_element. subst d.
  assert (sizeof_json_string_s = 16 /\ sizeof_json_value_s = 16 /\ sizeof_json_object_element_s = 24) as (S1 & S2 & S3) by done.
  rewrite take_dom_ok by lia. cbn [rbind]. rewrite take_string_ok by (cbn; lia). cbn [rbind].
  set (st1 := set_dom _ (set_dom _ st)). assert (fills st st1 (quote :: kt ++ quote :: w1 ++ ":"%char :: w2 ++ vt ++ r) 40 0) as A1.
  { split; [done|]. cbn. lia. }
  unfold json_parse_key. change (has F0 json_parse_flags_allow_unquoted_keys) with false. cbv iota.
  destruct (parse_string_grammar data_end st1 _ _ _ _ Hj (proj1 A1)) as (st2 & -> & A2); [cbn; lia|]. cbn [rbind].
  destruct (skip_to st2 _ _ _ (proj1 A2) Hw1 eq_refl) as (st3 & -> & L3 & K3). cbn [rbind].
  pose proof (keeps_fills _ _ _ L3 K3) as A3. pose proof (advance_fills _ _ _ L3) as A4.
  pose proof (proj1 A4) as L4. rewrite Hvt in L4. cbn [app] in L4.
  destruct (skip_to _ _ _ _ L4 Hw2 Hc) as (st5 & -> & L5 & K5). cbn [rbind]. pose proof (keeps_fills _ _ _ L5 K5) as A5.
  assert (fills st st5 (vt ++ r) 40 (n1 + 1)) as A6.
  { rewrite Hvt. eapply fills_trans; [exact A1|eapply fills_trans; [exact A2|eapply fills_trans; [exact A3|eapply fills_trans;
      [exact A4|exact A5|reflexivity..]|reflexivity..]|reflexivity..]|lia|lia]. }
  destruct A6 as (L6 & D6 & E6). rewrite take_value_ok by lia. cbn [rbind].
  set (st6 := set_dom _ st5). destruct (IHv depth st6 [] r L6) as (st7 & -> & L7 & D7 & E7); [constructor|done| |cbn; lia|cbn; lia|].
  { revert Hd. cbn [length app]. rewrite !length_app. cbn [length]. rewrite !length_app. cbn [length]. rewrite !length_app. lia. }
  exists st7. split; [done|]. split; [done|]. cbn in D7, E7. lia.
Qed.

(** The loop at a member, after a comma or the opening brace. *)
Lemma members_first_filled w kt k w1 w2 vt v rest l n1 n2 n3 :
  spaces w -> jchars 0 kt k n1 -> spaces w1 -> spaces w2 -> jvalue vt v n2 -> filled vt v n2 ->
  jmembers true rest l n3 -> members_filled true rest l n3 ->
  members_filled false (w ++ quote :: kt ++ quote :: w1 ++ ":"%char :: w2 ++ vt ++ rest) (jmember k v :: l) (n1 + 1 + n2 + n3).
Proof.
  intros Hw Hj Hw1 Hw2 Hv IHv Hm IHm depth fuel st acc l0 r Hl Hws Hd Hf d Hdom Hdata.
  destruct (proj1 grammar_bound _ _ _ Hv) as (B1 & B2 & _). destruct (proj1 (proj2 grammar_bound) _ _ _ _ Hm) as (B3 & B4 & _).
  assert (d = (sizeof_json_object_element_s + sizeof_json_string_s + sizeof_json_value_s + dom_of v)
    + (msum l + sizeof_json_object_element_s * Z.of_nat (length l))) as Hd0 by (subst d; cbn [msum foldr length snd jmember]; fold (msum l); lia).
  clearbody d. assert (0 <= sizeof_json_object_element_s * Z.of_nat (length l)) by (unfold sizeof_json_object_element_s; lia).
  destruct fuel as [|fuel]; [lia|]. cbn [parse_object_loop]. repeat (rewrite <- ?app_assoc, <- ?app_comm_cons in Hws).
  destruct (skip_from st l0 w _ _ Hl Hws Hw eq_refl) as (st1 & -> & A1 & Hrd & Hlen & ->). cbn [rbind andb]. rewrite Hrd. cbn [rbind].
  change (quote =c "}") with false. cbv iota. destruct A1 as (L1 & D1 & E1).
  destruct (element_filled depth st1 kt k n1 w1 w2 vt v n2 (rest ++ r) IHv (jvalue_head _ _ _ Hv) Hj Hw1 Hw2 (jmembers_stops _ _ _ r Hm) L1)
    as (st2 & -> & A2); [lia..|]. cbn [rbind]. pose proof A2 as (L2 & D2 & E2).
  cbn [length] in Hlen. rewrite !length_app in Hlen. cbn [length] in Hlen. rewrite !length_app in Hlen. cbn [length] in Hlen. rewrite !length_app in Hlen.
  destruct (IHm depth fuel st2 (acc ++ [jmember k v]) (rest ++ r) r L2 eq_refl) as (st3 & -> & A3); [rewrite length_app; lia..|lia|lia|].
  exists st3. split; [by rewrite <- app_assoc|]. eapply fills_trans; [split; [exact L1|split; [exact D1|exact E1]]|
    eapply fills_trans; [exact A2|exact A3|reflexivity..]|lia|lia].
Qed.

Lemma members_next_filled w0 w kt k w1 w2 vt v rest l n1 n2 n3 :
  spaces w0 -> spaces w -> jchars 0 kt k n1 -> spaces w1 -> spaces w2 -> jvalue vt v n2 -> filled vt v n2 ->
  jmembers true rest l n3 -> members_filled true rest l n3 ->
  members_filled true (w0 ++ ","%char :: w ++ quote :: kt ++ quote :: w1 ++ ":"%char :: w2 ++ vt ++ rest)
    (jmember k v :: l) (n1 + 1 + n2 + n3).
Proof.
  intros Hw0 Hw Hj Hw1 Hw2 Hv IHv Hm IHm depth fuel st acc l0 r Hl Hws Hd Hf d Hdom Hdata.
  destruct fuel as [|fuel]; [lia|]. cbn [parse_object_loop]. repeat (rewrite <- ?app_assoc, <- ?app_comm_cons in Hws).
  destruct (skip_from st l0 w0 _ _ Hl Hws Hw0 eq_refl) as (st1 & -> & A1 & Hrd & Hlen & ->). cbn [rbind andb]. rewrite Hrd. cbn [rbind].
  change ("," =c "}") with false. change ("," =c ",") with true. cbv iota. pose proof (advance_fills _ _ _ (proj1 A1)) as A2.
  assert (fills st (advance 1 st1) (w ++ quote :: kt ++ quote :: w1 ++ ":"%char :: w2 ++ vt ++ rest ++ r) 0 0) as A3
    by (eapply fills_trans; [exact A1|exact A2|done|done]).
  pose proof A3 as (L3 & D3 & E3). cbn [length] in Hlen.
  destruct (members_first_filled w kt k w1 w2 vt v rest l n1 n2 n3 Hw Hj Hw1 Hw2 Hv IHv Hm IHm depth fuel (advance 1 st1) acc _ r L3)
    as (st4 & -> & A4); [by repeat (rewrite <- ?app_assoc, <- ?app_comm_cons)|lia|lia|fold d; lia|lia|].
  exists st4. split; [done|]. eapply fills_trans; [exact A3|exact A4|lia|lia].
Qed.

Lemma items_end_filled b w : spaces w -> items_filled b (w ++ ["]"%char]) [] 0.
Proof.
  intros Hw depth fuel st acc l0 r Hl Hws Hd Hf d Hdom Hdata. destruct fuel as [|fuel]; [lia|]. cbn [parse_array_loop].
  rewrite <- app_assoc in Hws. destruct (skip_from st l0 w "]" r Hl Hws Hw eq_refl) as (st1 & -> & A1 & Hrd & Hlen & _).
  cbn [rbind]. rewrite Hrd. cbn [rbind]. change ("]" =c "]") with true. cbv iota. rewrite app_nil_r. eexists. split; [done|].
  eapply fills_trans; [exact A1|exact (advance_fills _ _ _ (proj1 A1))|done|done].
Qed.

Lemma items_first_filled w vt v rest l n1 n2 :
  spaces w -> jvalue vt v n1 -> filled vt v n1 -> jitems true rest l n2 -> items_filled true rest l n2 ->
  items_filled false (w ++ vt ++ rest) ((None, v) :: l) (n1 + n2).
Proof.
  intros Hw Hv IHv Hi IHi depth fuel st acc l0 r Hl Hws Hd Hf d Hdom Hdata.
  destruct (proj1 grammar_bound _ _ _ Hv) as (B1 & B2 & _). destruct (proj2 (proj2 grammar_bound) _ _ _ _ Hi) as (B3 & B4 & _).
  assert (d = sizeof_json_array_element_s + sizeof_json_value_s + dom_of v
    + (isum l + sizeof_json_array_element_s * Z.of_nat (length l))) as Hd0 by (subst d; cbn [isum foldr length snd]; fold (isum l); lia).
  clearbody d. assert (sizeof_json_value_s = 16 /\ sizeof_json_array_element_s = 16) as [S1 S2] by done.
  destruct fuel as [|fuel]; [lia|]. cbn [parse_array_loop]. rewrite <- !app_assoc in Hws.
  destruct (jvalue_head _ _ _ Hv) as (c & t' & Hvt & Hc). rewrite Hvt in Hws. cbn [app] in Hws.
  destruct (skip_from st l0 w _ _ Hl Hws Hw Hc) as (st1 & -> & A1 & Hrd & Hlen & _). cbn [rbind]. rewrite Hrd. cbn [rbind].
  rewrite (jvalue_not_closing _ _ _ _ _ Hv Hvt). cbn [andb]. change (c :: t' ++ rest ++ r) with ((c :: t') ++ rest ++ r) in *.
  rewrite <- Hvt in *. destruct A1 as (L1 & D1 & E1). rewrite take_dom_ok by lia. cbn [rbind].
  rewrite take_value_ok by (cbn; lia). cbn [rbind]. set (st2 := set_dom _ (set_dom _ st1)).
  rewrite !length_app in Hlen. pose proof (jvalue_length _ _ _ Hv) as Hvl. pose proof (jitems_length _ _ _ _ Hi) as Hil.
  destruct (IHv depth st2 [] (rest ++ r) L1) as (st3 & -> & A3);
    [constructor|by eapply jitems_stops|cbn [app]; rewrite !length_app; lia|cbn; lia|cbn; lia|].
  cbn [rbind]. destruct A3 as (L3 & D3 & E3). cbn in D3, E3. pose proof (left_at_size _ _ L3) as Hsz. rewrite length_app in Hsz.
  rewrite (proj2 (Nat.ltb_lt _ _)) by lia.
  destruct (IHi depth fuel st3 (acc ++ [(None, v)]) (rest ++ r) r L3 eq_refl) as (st4 & -> & L4 & D4 & E4);
    [rewrite length_app; lia..|lia|lia|].
  exists st4. split; [by rewrite <- app_assoc|]. split; [done|]. lia.
Qed.

Lemma items_next_filled w0 w vt v rest l n1 n2 :
  spaces w0 -> spaces w -> jvalue vt v n1 -> filled vt v n1 -> jitems true rest l n2 -> items_filled true rest l n2 ->
  items_filled true (w0 ++ ","%char :: w ++ vt ++ rest) ((None, v) :: l) (n1 + n2).
Proof.
  intros Hw0 Hw Hv IHv Hi IHi depth fuel st acc l0 r Hl Hws Hd Hf d Hdom Hdata.
  destruct fuel as [|fuel]; [lia|]. cbn [parse_array_loop]. repeat (rewrite <- ?app_assoc, <- ?app_comm_cons in Hws).
  destruct (skip_from st l0 w0 _ _ Hl Hws Hw0 eq_refl) as (st1 & -> & A1 & Hrd & Hlen & _). cbn [rbind]. rewrite Hrd. cbn [rbind].
  change ("," =c "]") with false. change ("," =c ",") with true. cbn [andb]. pose proof (advance_fills _ _ _ (proj1 A1)) as A2.
  assert (fills st (advance 1 st1) (w ++ vt ++ rest ++ r) 0 0) as A3 by (eapply fills_trans; [exact A1|exact A2|done|done]).
  pose proof A3 as (L3 & D3 & E3). cbn [length] in Hlen. pose proof (jvalue_length _ _ _ Hv) as Hvl.
  pose proof (left_at_size _ _ L3) as Hsz. rewrite !length_app in Hsz. rewrite (proj2 (Nat.ltb_lt _ _)) by lia.
  destruct (items_first_filled w vt v rest l n1 n2 Hw Hv IHv Hi IHi depth fuel (advance 1 st1) acc _ r L3)
    as (st4 & -> & A4); [by rewrite <- !app_assoc|lia|lia|fold d; lia|lia|].
  exists st4. split; [done|]. eapply fills_trans; [exact A3|exact A4|lia|lia].
Qed.

(** The second pass builds the value of every text of the grammar. *)
Lemma grammar_filled :
  (forall t v n, jvalue t v n -> jvalue t v n /\ filled t v n) /\
  (forall b t l n, jmembers b t l n -> jmembers b t l n /\ members_filled b t l n) /\
  (forall b t l n, jitems b t l n -> jitems b t l n /\ items_filled b t l n).
Proof.
  apply json_mind; intros; destruct_and?; (split; [by constructor|]).
  - by apply string_filled.
  - apply number_text_filled; [by apply jnumber_chars|by apply jnumber_head].
  - by eapply word_filled; left.
  - by eapply word_filled; right; left.
  - by eapply word_filled; right; right; left.
  - by apply object_filled.
  - by apply array_filled.
  - by apply members_end_filled.
  - by apply members_first_filled.
  - by apply members_next_filled.
  - by apply items_end_filled.
  - by apply items_first_filled.
  - by apply items_next_filled.
Qed.
End FillValues.

(** A whole text, second pass. *)
Lemma text_filled v n dom_end data_end st :
  jtext src v n -> offset st = O -> dom st + dom_of v <= dom_end -> data st + n <= data_end ->
  exists st', json_parse_value F0 src dom_end data_end (S (S (size src))) false st = Ok (st', v).
Proof.
  intros (w & t & w' & Hsrc & Hw & Hw' & Hv) Ho Hdom Hdata.
  assert (left_at (offset st) (w ++ t ++ w')) as Hl by (rewrite Ho, <- Hsrc; split; [lia|done]).
  assert (length (w ++ t ++ w') < S (S (size src)))%nat as Hlen by (rewrite <- Hsrc; unfold size; lia).
  assert (stops w') as Hs. { destruct Hw' as [|c w' Hc _]; cbn; [done|]. unfold ends_number. by rewrite Hc. }
  assert (filled dom_end data_end t v n) as Hf.
  { destruct Hv as [Hv|(-> & -> & -> & ->)]; [by apply (proj1 (grammar_filled dom_end data_end) _ _ _ Hv)|].
    apply (number_text_filled dom_end data_end ["-"%char]); [by repeat constructor|by do 2 eexists]. }
  destruct (Hf (S (S (size src))) st w w' Hl Hw Hs Hlen Hdom Hdata) as (st' & Hp & _). by exists st'.
Qed.

Lemma minus_sized st :
  left_at (offset st) ["-"%char] ->
  exists st', json_get_number_size F0 src st = Ok (st', false) /\ adds st st' [] sizeof_json_number_s 2.
Proof.
  intros Hl. destruct (left_at_cons _ _ _ Hl) as (_ & _ & Hl1). pose proof (left_at_nlt _ Hl1) as Hsz.
  unfold json_get_number_size. change (has F0 json_parse_flags_allow_hexadecimal_numbers) with false. cbn [andb offset add_dom_size].
  assert (get_decimal_size F0 src (offset st) (add_dom_size sizeof_json_number_s st) = inr (S (offset st))) as ->.
  { unfold get_decimal_size. rewrite (at_left _ _ _ Hl). change ("-" =c "-") with true. cbn [orb]. unfold get_inf_or_nan.
    change (has F0 json_parse_flags_allow_inf_and_nan) with false. cbn [andb negb]. rewrite !(at_left _ _ _ Hl1). cbn [andb orb].
    rewrite scan_while_end by lia. unfold get_fraction_size. rewrite (at_left _ _ _ Hl1). unfold get_exponent_size.
    by rewrite (at_left _ _ _ Hl1). }
  rewrite (at_left _ _ _ Hl1). eexists. split; [done|]. split; [done|]. cbn -[Nat.sub]. lia.
Qed.

(** A whole text, first pass. *)
Lemma text_sized v n :
  jtext src v n -> exists st, check_text F0 src = Ok (st, false) /\ dom_size st = sizeof_json_value_s + dom_of v /\ data_size st = n.
Proof.
  intros (w & t & w' & Hsrc & Hw & Hw' & Hv). unfold check_text.
  change (has F0 json_parse_flags_allow_global_object) with false. set (st0 := start_state 0 0 0 0).
  assert (left_at (offset st0) (w ++ t ++ w')) as Hl by (rewrite <- Hsrc; split; [cbn; lia|done]).
  assert (length (w ++ t ++ w') < S (S (size src)))%nat as Hlen by (rewrite <- Hsrc; unfold size; lia).
  assert (stops w') as Hs. { destruct Hw' as [|c w2 Hc _]; cbn; [done|]. unfold ends_number. by rewrite Hc. }
  assert (exists st1, json_get_value_size F0 src (S (S (size src))) false st0 = Ok (st1, false) /\
    adds st0 st1 w' (sizeof_json_value_s + dom_of v) n) as (st1 & -> & A1).
  { destruct Hv as [Hv|(-> & -> & -> & ->)]; [by apply (proj2 (proj1 grammar_sized _ _ _ Hv) _ _ _ _ Hl)|].
    destruct (value_start (S (size src)) st0 w "-" [] Hl Hw eq_refl) as (st1 & _ & A1 & _ & Hst). rewrite (Hst _ eq_refl).
    cbv zeta. cbn [Ascii.eqb Bool.eqb orb]. destruct (minus_sized st1 (proj1 A1)) as (st2 & -> & A2). exists st2. split; [done|].
    eapply adds_trans; [exact A1|exact A2|done|done]. }
  cbn [rbind]. destruct (skippables_ok st1 w' (proj1 A1)) as (st2 & -> & Hl2 & Hk). cbn [rbind].
  assert (ws w' = []) as Hws by (rewrite <- (app_nil_r w'), ws_app by done; done). rewrite Hws in Hl2.
  rewrite (at_end_left _ _ Hl2). cbn. eexists. split; [done|]. destruct Hk as (D & E & _), A1 as (_ & D1 & E1). cbn in *. lia.
Qed.

Lemma jtext_bound v n : jtext src v n -> 0 <= dom_of v /\ 0 <= n /\ sizeof_json_value_s + dom_of v + n <= 64 * Z.of_nat (length src).
Proof.
  intros (w & t & w' & -> & _ & _ & [Hv|(-> & -> & -> & ->)]); rewrite !length_app; [|cbn [length dom_of]; unfold sizeof_json_value_s, sizeof_json_number_s; lia].
  destruct (proj1 grammar_bound _ _ _ Hv) as (H1 & H2 & H3). lia.
Qed.

(** Both passes on a text of the grammar. *)
Lemma parse_ex_text alloc v n :
  Z.of_nat (length src) < 2 ^ 58 -> jtext src v n ->
  json_parse_ex F0 src alloc =
  Ok (if alloc (sizeof_json_value_s + dom_of v + n) then inr (None, v) else inl (mkPR json_parse_error_allocator_failed 0 0 0)).
Proof.
  intros Hlen Ht. destruct (jtext_bound v n Ht) as (B1 & B2 & B3). destruct (text_sized v n Ht) as (st & Hc & D & E).
  unfold json_parse_ex. rewrite Hc. cbn [rbind]. rewrite D, E. rewrite u64_small by (unfold W64, sizeof_json_value_s in *; lia).
  destruct (alloc _); [|done]. cbn [negb]. set (st1 := mkPS _ _ _ _ _ _ _ _).
  rewrite take_value_ok by (cbn; lia). cbn [rbind]. change (has F0 json_parse_flags_allow_global_object) with false.
  destruct (text_filled v n (dom_size st1) (sizeof_json_value_s + dom_of v + n) (set_dom (dom st1 + sizeof_json_value_s) st1) Ht)
    as (st2 & Hp); [done|cbn; lia|cbn; lia|]. rewrite Hp. done.
Qed.
End Reader.

Lemma length_list_ascii s : length (list_ascii_of_string s) = String.length s.
Proof. induction s as [|c s IH]; cbn; [done|]. by rewrite IH. Qed.

(** The statement of [json_parse_reads_grammar], for its clients. *)
Lemma json_parse_total malloc text :
  slen text < 2 ^ 58 ->
  exists r, json_parse malloc text = Ok r /\
    forall v, r = Some v <-> exists n, jtext (list_ascii_of_string text) v n /\ malloc (sizeof_json_value_s + dom_of v + n) = true.
Proof.
  intros Hlen. set (src := list_ascii_of_string text).
  assert (Z.of_nat (length src) < 2 ^ 58) as Hlen' by (unfold src; rewrite length_list_ascii; exact Hlen).
  unfold json_parse. fold src. destruct (check_text_ok src) as (st & b & Hc & Ht). destruct b.
  - unfold json_parse_ex. rewrite Hc. cbn [rbind]. exists None. split; [done|]. intros v. split; [done|].
    intros (n & Htx & _). destruct (text_sized src v n Htx) as (st' & Hc' & _). rewrite Hc in Hc'. simplify_eq.
  - destruct (Ht eq_refl) as (v & n & Htx & D & E). rewrite (parse_ex_text src malloc v n Hlen' Htx). cbn [rbind].
    eexists. split; [done|]. intros v'. split.
    + destruct (malloc _) eqn:Hm; [|done]. intros [= <-]. by exists n.
    + intros (n' & Htx' & Hm). pose proof (parse_ex_text src malloc v n Hlen' Htx) as H1.
      rewrite (parse_ex_text src malloc v' n' Hlen' Htx'), Hm in H1. destruct (malloc (sizeof_json_value_s + dom_of v + n)); by simplify_eq.
Qed.

(** C36: The JSON reader, on any text shorter than 2^58 bytes: json_parse always returns -
    it terminates, neither pass reads outside of the text, the second pass never writes
    outside of the bytes the first one counted and leaves no field unset - and it returns a
    value exactly when the text denotes that value in a JSON grammar (with escapes decoded
    to UTF-8, surrogate pairs included; control characters other than NUL, tab and line
    breaks and a lone minus sign at the end of the text are accepted too) and malloc gives
    the bytes of the value. *)
Theorem json_parse_reads_grammar malloc text :
  slen text < 2 ^ 58 ->
  exists r, json_parse malloc text = Ok r /\
    forall v, r = Some v <-> exists n, jtext (list_ascii_of_string text) v n /\ malloc (sizeof_json_value_s + dom_of v + n) = true.
Proof. apply json_parse_total. Qed.

Lemma json_parse_reads_grammar_witness :
  exists n, jtext (list_ascii_of_string "[ -1.5e3, true ]")
    (json_array [(None, json_number "-1.5e3"); (None, json_true)]) n.
Proof.
  destruct (json_parse_reads_grammar (fun _ => true) "[ -1.5e3, true ]") as (r & Hr & Hv); [vm_compute; reflexivity|].
  vm_compute in Hr. injection Hr as <-. destruct (proj1 (Hv _) eq_refl) as (n & Hn & _). exists n. exact Hn.
Defined.

(** A text that ends in a lone minus sign is read as a number. *)
Example lone_minus_is_a_number : json_parse (fun _ => true) " -" = Ok (Some (json_number "-")).
Proof. reflexivity. Qed.

(** With the option for a global object, the second pass reads behind the end of an empty text. *)
Example empty_global_object_reads_past_end :
  json_parse_ex json_parse_flags_allow_global_object [] (fun _ => true) = Err Undefined.
Proof. reflexivity. Qed.
