(* ===== verification/JsonWrite.v ===== *)
(** The writers of the JSON library ([include/thrid_party/json.h]): [json_write_minified] and
    [json_write_pretty], which count the bytes of a value, allocate them and write the text, and
    [json_extract_value], which copies a value into an allocation of its own.

    What is written so far is a list of characters; writing behind the allocation is undefined.
    The text of a number ends in a zero byte in memory, as the reader leaves it. *)

From Stdlib Require Import Ascii String.
From stdpp Require Import strings.
From S2P Require Import Prelude.
From S2P Require Import CppString.
From S2P Require Import Json.

Local Open Scope json_scope.

Abbreviation members := (list (option location * string * (option location * json_value_s))).
Abbreviation items := (list (option location * json_value_s)).

(** ** Numbers *)

(** [strtoumax(s, NULL, 0)]: a sign, then the base by the prefix; too large a value saturates. *)
Definition digit_in (base : Z) (c : ascii) : option Z :=
  let d := json_hexadecimal_digit c in if (0 <=? d) && (d <? base) then Some d else None.
Fixpoint strtoumax_from (base : Z) (l : list ascii) (n : Z) : Z :=
  match l with
  | [] => n
  | c :: l => match digit_in base c with Some d => strtoumax_from base l (n * base + d) | None => n end
  end.
Definition strtoumax0 (l : list ascii) : Z :=
  let '(neg, l) :=
    match l with
    | c :: l' => if c =c "-" then (true, l') else if c =c "+" then (false, l') else (false, l)
    | [] => (false, [])
    end in
  let magnitude :=
    match l with
    | z :: x :: d :: l' =>
        if (z =c "0") && ((x =c "x") || (x =c "X")) && is_xdigit d then strtoumax_from 16 (d :: l') 0
        else if z =c "0" then strtoumax_from 8 l 0 else strtoumax_from 10 l 0
    | z :: _ => if z =c "0" then strtoumax_from 8 l 0 else strtoumax_from 10 l 0
    | [] => 0
    end in
  if SIZE_MAX <? magnitude then SIZE_MAX else if neg then u64 (- magnitude) else magnitude.

(** The decimal digits of a value below 2^64, the last one first; 0 has none. *)
Fixpoint decimal_digits (fuel : nat) (n : Z) : list ascii :=
  match fuel with
  | O => []
  | S fuel => if n =? 0 then [] else chr (48 + n mod 10) :: decimal_digits fuel (n / 10)
  end.
Definition UINTMAX_DIGITS : nat := 20.

(** The scan for a word: [inf] has moved past every character it was compared with. *)
Fixpoint match_number_word (word l : list ascii) : res bool :=
  match l, word with
  | [], _ => Ok (bool_decide (word = []))
  | _, [] => Err Undefined
  | d :: l, c :: word => if c =c d then match_number_word word l else Ok (bool_decide (word = []))
  end.
Definition word_Infinity : list ascii := list_ascii_of_string "Infinity".
Definition word_NaN : list ascii := list_ascii_of_string "NaN".
Definition dbl_max_text : list ascii := list_ascii_of_string "1.7976931348623158e308".

(** [number[1]] is an x. *)
Definition is_hexadecimal (num : list ascii) : bool :=
  match num with _ :: c :: _ => (c =c "x") || (c =c "X") | _ => false end.

(** The number after a sign, and after its leading digits. *)
Definition after_sign (num : list ascii) : list ascii :=
  match num with c :: l => if (c =c "+") || (c =c "-") then l else num | [] => [] end.
Fixpoint after_digits (l : list ascii) : list ascii :=
  match l with c :: l' => if is_digit c then after_digits l' else l | [] => [] end.
Definition starts_with (c : ascii) (l : list ascii) : bool := match l with d :: _ => c =c d | [] => false end.

Definition len (l : list ascii) : Z := Z.of_nat (length l).

(** The size of the number as it stands, without a leading plus. *)
Definition plain_size (num : list ascii) (size : Z) : Z :=
  let size := u64 (size + len num) in if starts_with "+" num then u64 (size - 1) else size.

Definition json_write_get_number_size (num : list ascii) (size : Z) : res Z :=
  if is_hexadecimal num then Ok (u64 (size + len (decimal_digits UINTMAX_DIGITS (strtoumax0 num)))) else
  let l := after_sign num in
  if starts_with "I" l then
    let* found := match_number_word word_Infinity l in
    if found : bool then
      let size := u64 (size + 22) in Ok (if starts_with "-" num then u64 (size + 1) else size)
    else Ok size
  else
    let* nan := if starts_with "N" l then match_number_word word_NaN l else Ok false in
    if nan : bool then Ok (u64 (size + 1))
    else if starts_with "." l then Ok (plain_size num (u64 (size + 1)))
    else if bool_decide (after_digits l = ["."%char]) then Ok (plain_size num (u64 (size + 1)))
    else Ok (plain_size num size).

Section Writing.
Context (cap : Z).

(** [*data++ = c]. *)
Definition wput (c : ascii) (out : list ascii) : res (list ascii) :=
  if len out <? cap then Ok (out ++ [c]) else Err Undefined.
Fixpoint wputs (cs out : list ascii) : res (list ascii) :=
  match cs with
  | [] => Ok out
  | c :: cs => let* out := wput c out in wputs cs out
  end.

(** The digits of a hexadecimal number are written from the last to the first; the loop runs
    once for 0, although 0 was given no room, and hits the byte before. *)
Definition write_decimal (n : Z) (out : list ascii) : res (list ascii) :=
  match decimal_digits UINTMAX_DIGITS n with
  | [] => match reverse out with [] => Err Undefined | _ :: r => Ok (reverse ("0"%char :: r)) end
  | ds => wputs (reverse ds) out
  end.

(** A leading plus is skipped, a leading minus written first. *)
Definition write_signed (num : list ascii) (k : list ascii -> list ascii -> res (list ascii)) (out : list ascii) : res (list ascii) :=
  let num := if starts_with "+" num then drop 1 num else num in
  if starts_with "-" num then let* out := wput "-" out in k (drop 1 num) out else k num out.

Definition json_write_number (num : list ascii) (out : list ascii) : res (list ascii) :=
  if is_hexadecimal num then write_decimal (strtoumax0 num) out else
  let l := after_sign num in
  let* inf := if starts_with "I" l then match_number_word word_Infinity l else Ok false in
  if inf : bool then
    let* out := if starts_with "-" num then wput "-" out else Ok out in
    wputs dbl_max_text out
  else
    let* nan := if starts_with "N" l then match_number_word word_NaN l else Ok false in
    if nan : bool then wput "0" out
    else if starts_with "." l then write_signed num (fun rest out => let* out := wput "0" out in wputs rest out) out
    else if bool_decide (after_digits l = ["."%char]) then
      write_signed num (fun rest out => let* out := wputs rest out in wput "0" out) out
    else wputs (if starts_with "+" num then drop 1 num else num) out.

(** ** Strings *)
Definition escape_of (c : ascii) : option ascii :=
  if c =c "034" then Some "034"%char else if c =c "\" then Some "\"%char
  else if c =c "008" then Some "b"%char else if c =c "012" then Some "f"%char else if c =c "010" then Some "n"%char
  else if c =c "013" then Some "r"%char else if c =c "009" then Some "t"%char else None.

Fixpoint write_chars (l out : list ascii) : res (list ascii) :=
  match l with
  | [] => Ok out
  | c :: l =>
      let* out := match escape_of c with
                  | Some e => let* out := wput "\" out in wput e out
                  | None => wput c out
                  end in
      write_chars l out
  end.

Definition json_write_string (s : string) (out : list ascii) : res (list ascii) :=
  let* out := wput "034" out in
  let* out := write_chars (list_ascii_of_string s) out in
  wput "034" out.

(** ** Values without blanks *)
Definition value_writer : Type := json_value_s -> list ascii -> res (list ascii).

Definition write_items (write : value_writer) : bool -> items -> list ascii -> res (list ascii) :=
  fix go (first : bool) (l : items) (out : list ascii) : res (list ascii) :=
    match l with
    | [] => Ok out
    | (_, v) :: l =>
        let* out := if first then Ok out else wput "," out in
        let* out := write v out in
        go false l out
    end.
Definition json_write_minified_array (write : value_writer) (l : items) (out : list ascii) : res (list ascii) :=
  let* out := wput "[" out in
  let* out := write_items write true l out in
  wput "]" out.

Definition write_members (write : value_writer) : bool -> members -> list ascii -> res (list ascii) :=
  fix go (first : bool) (l : members) (out : list ascii) : res (list ascii) :=
    match l with
    | [] => Ok out
    | (_, name, (_, v)) :: l =>
        let* out := if first then Ok out else wput "," out in
        let* out := json_write_string name out in
        let* out := wput ":" out in
        let* out := write v out in
        go false l out
    end.
Definition json_write_minified_object (write : value_writer) (l : members) (out : list ascii) : res (list ascii) :=
  let* out := wput "{" out in
  let* out := write_members write true l out in
  wput "}" out.

Fixpoint json_write_minified_value (v : json_value_s) (out : list ascii) {struct v} : res (list ascii) :=
  match v with
  | json_number s => json_write_number (list_ascii_of_string s) out
  | json_string s => json_write_string s out
  | json_array l => json_write_minified_array json_write_minified_value l out
  | json_object l => json_write_minified_object json_write_minified_value l out
  | json_true => wputs word_true out
  | json_false => wputs word_false out
  | json_null => wputs word_null out
  end.

(** ** Values with line breaks and indentation *)
Context (indent newline : list ascii).

Definition indents (k : nat) : list ascii := concat (replicate k indent).

Definition write_pretty_items (write : value_writer) (depth : nat) : bool -> items -> list ascii -> res (list ascii) :=
  fix go (first : bool) (l : items) (out : list ascii) : res (list ascii) :=
    match l with
    | [] => Ok out
    | (_, v) :: l =>
        let* out := if first then Ok out else let* out := wput "," out in wputs newline out in
        let* out := wputs (indents (depth + 1)) out in
        let* out := write v out in
        go false l out
    end.
Definition json_write_pretty_array (write : value_writer) (depth : nat) (l : items) (out : list ascii) : res (list ascii) :=
  let* out := wput "[" out in
  let* out :=
    match l with
    | [] => Ok out
    | _ =>
        let* out := wputs newline out in
        let* out := write_pretty_items write depth true l out in
        let* out := wputs newline out in
        wputs (indents depth) out
    end in
  wput "]" out.

Definition write_pretty_members (write : value_writer) (depth : nat) : bool -> members -> list ascii -> res (list ascii) :=
  fix go (first : bool) (l : members) (out : list ascii) : res (list ascii) :=
    match l with
    | [] => Ok out
    | (_, name, (_, v)) :: l =>
        let* out := if first then Ok out else let* out := wput "," out in wputs newline out in
        let* out := wputs (indents (depth + 1)) out in
        let* out := json_write_string name out in
        let* out := wputs [" "; ":"; " "]%char out in
        let* out := write v out in
        go false l out
    end.
Definition json_write_pretty_object (write : value_writer) (depth : nat) (l : members) (out : list ascii) : res (list ascii) :=
  let* out := wput "{" out in
  let* out :=
    match l with
    | [] => Ok out
    | _ =>
        let* out := wputs newline out in
        let* out := write_pretty_members write depth true l out in
        let* out := wputs newline out in
        wputs (indents depth) out
    end in
  wput "}" out.

Fixpoint json_write_pretty_value (v : json_value_s) (depth : nat) (out : list ascii) {struct v} : res (list ascii) :=
  match v with
  | json_number s => json_write_number (list_ascii_of_string s) out
  | json_string s => json_write_string s out
  | json_array l => json_write_pretty_array (fun v => json_write_pretty_value v (depth + 1)) depth l out
  | json_object l => json_write_pretty_object (fun v => json_write_pretty_value v (depth + 1)) depth l out
  | json_true => wputs word_true out
  | json_false => wputs word_false out
  | json_null => wputs word_null out
  end.
End Writing.

(** ** Counting *)
Fixpoint string_size_loop (l : list ascii) (size : Z) : Z :=
  match l with
  | [] => size
  | c :: l => string_size_loop l (u64 (size + match escape_of c with Some _ => 2 | None => 1 end))
  end.
Definition json_write_get_string_size (s : string) (size : Z) : Z :=
  u64 (string_size_loop (list_ascii_of_string s) size + 2).

Definition value_sizer : Type := json_value_s -> Z -> res Z.

Definition size_items (sz : value_sizer) : items -> Z -> res Z :=
  fix go (l : items) (size : Z) : res Z :=
    match l with
    | [] => Ok size
    | (_, v) :: l => let* size := sz v size in go l size
    end.
Definition json_write_minified_get_array_size (sz : value_sizer) (l : items) (size : Z) : res Z :=
  let size := u64 (size + 2) in
  let size := if 1 <? vsize l then u64 (size + (vsize l - 1)) else size in
  size_items sz l size.

Definition size_members (sz : value_sizer) : members -> Z -> res Z :=
  fix go (l : members) (size : Z) : res Z :=
    match l with
    | [] => Ok size
    | (_, name, (_, v)) :: l =>
        let size := json_write_get_string_size name size in
        let* size := sz v size in
        go l size
    end.
Definition json_write_minified_get_object_size (sz : value_sizer) (l : members) (size : Z) : res Z :=
  let size := u64 (size + 2) in
  let size := u64 (size + vsize l) in
  let size := if 1 <? vsize l then u64 (size + (vsize l - 1)) else size in
  size_members sz l size.

Fixpoint json_write_minified_get_value_size (v : json_value_s) (size : Z) {struct v} : res Z :=
  match v with
  | json_number s => json_write_get_number_size (list_ascii_of_string s) size
  | json_string s => Ok (json_write_get_string_size s size)
  | json_array l => json_write_minified_get_array_size json_write_minified_get_value_size l size
  | json_object l => json_write_minified_get_object_size json_write_minified_get_value_size l size
  | json_true => Ok (u64 (size + 4))
  | json_false => Ok (u64 (size + 5))
  | json_null => Ok (u64 (size + 4))
  end.

Section PrettySize.
Context (indent_size newline_size : Z).

Definition size_pretty_items (sz : value_sizer) (depth : Z) : items -> Z -> res Z :=
  fix go (l : items) (size : Z) : res Z :=
    match l with
    | [] => Ok size
    | (_, v) :: l =>
        let size := u64 (size + (depth + 1) * indent_size) in
        let* size := sz v size in
        go l (u64 (size + newline_size))
    end.
Definition json_write_pretty_get_array_size (sz : value_sizer) (depth : Z) (l : items) (size : Z) : res Z :=
  let size := u64 (size + 1) in
  let* size :=
    if 0 <? vsize l then
      let size := u64 (size + newline_size) in
      let size := u64 (size + (vsize l - 1)) in
      let* size := size_pretty_items sz depth l size in
      Ok (u64 (size + depth * indent_size))
    else Ok size in
  Ok (u64 (size + 1)).

Definition size_pretty_members (sz : value_sizer) (depth : Z) : members -> Z -> res Z :=
  fix go (l : members) (size : Z) : res Z :=
    match l with
    | [] => Ok size
    | (_, name, (_, v)) :: l =>
        let size := u64 (size + (depth + 1) * indent_size) in
        let size := u64 (size + newline_size) in
        let size := json_write_get_string_size name size in
        let size := u64 (size + 3) in
        let* size := sz v size in
        go l size
    end.
Definition json_write_pretty_get_object_size (sz : value_sizer) (depth : Z) (l : members) (size : Z) : res Z :=
  let size := u64 (size + 1) in
  let* size :=
    if 0 <? vsize l then
      let size := u64 (size + newline_size) in
      let size := u64 (size + (vsize l - 1)) in
      let* size := size_pretty_members sz depth l size in
      Ok (u64 (size + depth * indent_size))
    else Ok size in
  Ok (u64 (size + 1)).

Fixpoint json_write_pretty_get_value_size (v : json_value_s) (depth : Z) (size : Z) {struct v} : res Z :=
  match v with
  | json_number s => json_write_get_number_size (list_ascii_of_string s) size
  | json_string s => Ok (json_write_get_string_size s size)
  | json_array l => json_write_pretty_get_array_size (fun v => json_write_pretty_get_value_size v (depth + 1)) depth l size
  | json_object l => json_write_pretty_get_object_size (fun v => json_write_pretty_get_value_size v (depth + 1)) depth l size
  | json_true => Ok (u64 (size + 4))
  | json_false => Ok (u64 (size + 5))
  | json_null => Ok (u64 (size + 4))
  end.
End PrettySize.

(** ** The entry points

    The result is the bytes with the zero at the end, and the size that was counted. *)
Section Entry.
Context (malloc : Z -> bool).

Definition write_out (size : Z) (write : list ascii -> res (list ascii)) : res (option (list ascii * Z)) :=
  let size := u64 (size + 1) in
  if malloc size then
    let* out := write [] in
    let* out := wput size "000" out in
    Ok (Some (out, size))
  else Ok None.

Definition json_write_minified (value : option json_value_s) : res (option (list ascii * Z)) :=
  match value with
  | None => Ok None
  | Some v =>
      let* size := json_write_minified_get_value_size v 0 in
      write_out size (json_write_minified_value (u64 (size + 1)) v)
  end.

(** [indent] and [newline] are zero-terminated; null pointers stand for the defaults. *)
Definition json_write_pretty (value : option json_value_s) (indent newline : option string) : res (option (list ascii * Z)) :=
  match value with
  | None => Ok None
  | Some v =>
      let indent := list_ascii_of_string (default "  " indent) in
      let newline := list_ascii_of_string (default (String "010" "") newline) in
      let* size := json_write_pretty_get_value_size (len indent) (len newline) v 0 0 in
      write_out size (json_write_pretty_value (u64 (size + 1)) indent newline v 0)
  end.
End Entry.

(** ** Extraction *)
Definition json_extract_get_number_size (num : string) : Z * Z := (sizeof_json_number_s, slen num).
Definition json_extract_get_string_size (s : string) : Z * Z := (sizeof_json_string_s, slen s + 1).

Definition json_extract_get_object_size (sz : json_value_s -> Z * Z) (l : members) : Z * Z :=
  foldl (fun s e =>
    let string_result := json_extract_get_string_size e.1.2 in
    let value_result := sz e.2.2 in
    (u64 (u64 (s.1 + string_result.1) + value_result.1), u64 (u64 (s.2 + string_result.2) + value_result.2)))
    (u64 (sizeof_json_object_s + sizeof_json_object_element_s * vsize l), 0) l.

Definition json_extract_get_array_size (sz : json_value_s -> Z * Z) (l : items) : Z * Z :=
  foldl (fun s e => let value_result := sz e.2 in (u64 (s.1 + value_result.1), u64 (s.2 + value_result.2)))
    (u64 (sizeof_json_array_s + sizeof_json_array_element_s * vsize l), 0) l.

Fixpoint json_extract_get_value_size (v : json_value_s) : Z * Z :=
  let result :=
    match v with
    | json_object l => json_extract_get_object_size json_extract_get_value_size l
    | json_array l => json_extract_get_array_size json_extract_get_value_size l
    | json_number s => json_extract_get_number_size s
    | json_string s => json_extract_get_string_size s
    | _ => (0, 0)
    end in
  (u64 (result.1 + sizeof_json_value_s), result.2).

Section Copying.
Context (dom_end data_end : Z).

(** [state->dom] and [state->data], as offsets into the allocation. *)
Record json_extract_state_s := mkES { es_dom : Z; es_data : Z }.

Definition copy_dom (n : Z) (st : json_extract_state_s) : res json_extract_state_s :=
  if es_dom st + n <=? dom_end then Ok (mkES (es_dom st + n) (es_data st)) else Err Undefined.
Definition copy_data (n : Z) (st : json_extract_state_s) : res json_extract_state_s :=
  if es_data st + n <=? data_end then Ok (mkES (es_dom st) (es_data st + n)) else Err Undefined.

Definition value_copier : Type := json_value_s -> json_extract_state_s -> res (json_value_s * json_extract_state_s).

Definition copy_members (copy : value_copier) : members -> json_extract_state_s -> res (members * json_extract_state_s) :=
  fix go (l : members) (st : json_extract_state_s) : res (members * json_extract_state_s) :=
    match l with
    | [] => Ok ([], st)
    | (_, name, (_, v)) :: l =>
        let* st := copy_dom sizeof_json_object_element_s st in
        let* st := copy_dom sizeof_json_string_s st in
        let* st := copy_data (slen name + 1) st in
        let* '(v, st) := copy v st in
        let* '(l, st) := go l st in
        Ok ((None, name, (None, v)) :: l, st)
    end.

Definition copy_items (copy : value_copier) : items -> json_extract_state_s -> res (items * json_extract_state_s) :=
  fix go (l : items) (st : json_extract_state_s) : res (items * json_extract_state_s) :=
    match l with
    | [] => Ok ([], st)
    | (_, v) :: l =>
        let* st := copy_dom sizeof_json_array_element_s st in
        let* '(v, st) := copy v st in
        let* '(l, st) := go l st in
        Ok ((None, v) :: l, st)
    end.

(** Only the structures without locations are copied. *)
Fixpoint json_extract_copy_value (v : json_value_s) (st : json_extract_state_s) {struct v}
    : res (json_value_s * json_extract_state_s) :=
  let* st := copy_dom sizeof_json_value_s st in
  match v with
  | json_string s =>
      let* st := copy_dom sizeof_json_string_s st in
      let* st := copy_data (slen s + 1) st in
      Ok (json_string s, st)
  | json_number s =>
      let* st := copy_dom sizeof_json_number_s st in
      let* st := copy_data (slen s) st in
      Ok (json_number s, st)
  | json_object l =>
      let* st := copy_dom sizeof_json_object_s st in
      let* '(l, st) := copy_members json_extract_copy_value l st in
      Ok (json_object l, st)
  | json_array l =>
      let* st := copy_dom sizeof_json_array_s st in
      let* '(l, st) := copy_items json_extract_copy_value l st in
      Ok (json_array l, st)
  | v => Ok (v, st)
  end.
End Copying.

(** The allocation is used without a look at whether it is null. *)
Definition json_extract_value (malloc : Z -> bool) (value : option json_value_s) : res (option json_value_s) :=
  match value with
  | None => Ok None
  | Some v =>
      let result := json_extract_get_value_size v in
      let total_size := u64 (result.1 + result.2) in
      if negb (malloc total_size) then Err Undefined else
      let* '(v, _) := json_extract_copy_value result.1 total_size v (mkES 0 result.1) in
      Ok (Some v)
  end.

(** ** Accessors *)
Definition json_value_as_number (v : json_value_s) : option string := match v with json_number s => Some s | _ => None end.
Definition json_value_as_array (v : json_value_s) : option items := match v with json_array l => Some l | _ => None end.
Definition json_value_is_true (v : json_value_s) : bool := match v with json_true => true | _ => false end.
Definition json_value_is_false (v : json_value_s) : bool := match v with json_false => true | _ => false end.
Definition json_value_is_null (v : json_value_s) : bool := match v with json_null => true | _ => false end.

(** A hexadecimal zero is given no byte and overwrites the character before it. *)
Example hexadecimal_zero_overwrites :
  json_write_minified (fun _ => true) (Some (json_array [(None, json_number "0x0")])) =
    Ok (Some (list_ascii_of_string "0]" ++ ["000"%char], 3)).
Proof. reflexivity. Qed.

(** A number that only starts like Infinity is not counted but written. *)
Example partial_infinity_overflows :
  json_write_minified (fun _ => true) (Some (json_number "Inf")) = Err Undefined.
Proof. reflexivity. Qed.
