(* ===== verification/JsonRoundTrip.v ===== *)
(** Writing and reading JSON: what [JsonWrite] writes for a value is a text of the value in the
    grammar of the reader, of exactly the size that was counted, so that [json_parse] gives the
    value back; and a value that is extracted fills its allocation exactly. *)

From Stdlib Require Import Ascii String.
From stdpp Require Import gmap strings.
From S2P Require Import Prelude.
From S2P Require Import CppString.
From S2P Require Import Json.
From S2P Require Import JsonGrammar.
From S2P Require Import JsonSpec.
From S2P Require Import JsonWrite.

Local Open Scope json_scope.
#[local] Arguments Ascii.eqb : simpl nomatch.

(** ** Induction on values *)
Section Induction.
Context (P : json_value_s -> Prop).
Context (Hs : forall s, P (json_string s)) (Hn : forall s, P (json_number s)).
Context (Ho : forall l : members, Forall (fun e => P e.2.2) l -> P (json_object l)).
Context (Ha : forall l : items, Forall (fun e => P e.2) l -> P (json_array l)).
Context (Ht : P json_true) (Hf : P json_false) (Hz : P json_null).

Fixpoint json_value_nested_ind (v : json_value_s) : P v :=
  match v with
  | json_string s => Hs s
  | json_number s => Hn s
  | json_object l => Ho l ((fix go (l : members) : Forall (fun e => P e.2.2) l :=
      match l with
      | [] => List.Forall_nil _
      | e :: l => List.Forall_cons _ _ _ (json_value_nested_ind e.2.2) (go l)
      end) l)
  | json_array l => Ha l ((fix go (l : items) : Forall (fun e => P e.2) l :=
      match l with
      | [] => List.Forall_nil _
      | e :: l => List.Forall_cons _ _ _ (json_value_nested_ind e.2) (go l)
      end) l)
  | json_true => Ht
  | json_false => Hf
  | json_null => Hz
  end.
End Induction.

(** ** Values that can be written and read back

    Strings without zero bytes, numbers of the grammar, no locations. *)
Definition no_zero (s : string) : Prop := Forall (fun c => c <> "000"%char) (list_ascii_of_string s).

Fixpoint readable (v : json_value_s) : Prop :=
  match v with
  | json_string s => no_zero s
  | json_number s => jnumber (list_ascii_of_string s)
  | json_object l => foldr (fun e P => e.1.1 = None /\ no_zero e.1.2 /\ e.2.1 = None /\ readable e.2.2 /\ P) True l
  | json_array l => foldr (fun e P => e.1 = None /\ readable e.2 /\ P) True l
  | _ => True
  end.

(** ** The text of a value

    With line breaks [nl], the blanks [ind d] before an element at depth [d], and the characters
    [colon] between a name and its value. *)
Definition chars_text (l : list ascii) : list ascii :=
  l ≫= (fun c => match escape_of c with Some e => ["\"%char; e] | None => [c] end).
Definition string_text (s : string) : list ascii := quote :: chars_text (list_ascii_of_string s) ++ [quote].

Section Text.
Context (nl : list ascii) (ind : nat -> list ascii) (colon : list ascii).

Definition items_text (text : json_value_s -> list ascii) (d : nat) : bool -> items -> list ascii :=
  fix go (first : bool) (l : items) : list ascii :=
    match l with
    | [] => []
    | e :: l => (if first then [] else ","%char :: nl) ++ ind (d + 1) ++ text e.2 ++ go false l
    end.
Definition members_text (text : json_value_s -> list ascii) (d : nat) : bool -> members -> list ascii :=
  fix go (first : bool) (l : members) : list ascii :=
    match l with
    | [] => []
    | e :: l => (if first then [] else ","%char :: nl) ++ ind (d + 1) ++ string_text e.1.2 ++ colon ++ text e.2.2 ++ go false l
    end.
(** What stands between the brackets. *)
Definition bracketed {A} (d : nat) (l : list A) (inner : list ascii) : list ascii :=
  match l with [] => [] | _ => nl ++ inner ++ nl ++ ind d end.

Fixpoint value_text (v : json_value_s) (d : nat) {struct v} : list ascii :=
  match v with
  | json_string s => string_text s
  | json_number s => list_ascii_of_string s
  | json_object l => "{"%char :: bracketed d l (members_text (fun v => value_text v (d + 1)) d true l) ++ ["}"%char]
  | json_array l => "["%char :: bracketed d l (items_text (fun v => value_text v (d + 1)) d true l) ++ ["]"%char]
  | json_true => word_true
  | json_false => word_false
  | json_null => word_null
  end.

(** ** It is a text of the grammar *)
Lemma escape_cases c : c <> "000"%char ->
  match escape_of c with Some e => escaped e = Some c | None => plain c = true end.
Proof.
  intros Hc. unfold escape_of, plain.
  destruct (c =c "034") eqn:E1; [by apply ceq in E1 as ->|].
  destruct (c =c "\") eqn:E2; [by apply ceq in E2 as ->|].
  destruct (c =c "008") eqn:E3; [by apply ceq in E3 as ->|].
  destruct (c =c "012") eqn:E4; [by apply ceq in E4 as ->|].
  destruct (c =c "010") eqn:E5; [by apply ceq in E5 as ->|].
  destruct (c =c "013") eqn:E6; [by apply ceq in E6 as ->|].
  destruct (c =c "009") eqn:E7; [by apply ceq in E7 as ->|].
  apply cneq in Hc. by rewrite Hc.
Qed.

Lemma chars_text_chars l : Forall (fun c => c <> "000"%char) l -> jchars 0 (chars_text l) l (Z.of_nat (length l)).
Proof.
  induction 1 as [|c l Hc _ IH]; [constructor|]. cbn [length]. rewrite Nat2Z.inj_succ, <- Z.add_1_l. cbn.
  pose proof (escape_cases c Hc) as He. destruct (escape_of c) as [e|]; cbn; [by apply chars_escape|by apply chars_plain].
Qed.

Context (Hnl : spaces nl) (Hind : forall d, spaces (ind d)).
Context (c1 c2 : list ascii) (Hcolon : colon = c1 ++ ":"%char :: c2) (Hc1 : spaces c1) (Hc2 : spaces c2).

Lemma items_text_items text (d : nat) (first : bool) (l : items) w :
  spaces w -> Forall (fun e => e.1 = None /\ exists n, jvalue (text e.2) e.2 n) l ->
  exists n, jitems (negb first)
    (match l with [] => w | _ => (if first then nl else []) ++ items_text text d first l ++ w end ++ ["]"%char]) l n.
Proof.
  intros Hw Hl. revert first. induction Hl as [|[loc v] l [Hloc [n1 Hv]] _ IH]; intros first; [exists 0; by constructor|].
  cbn in Hloc. subst loc. destruct (IH false) as [n2 Hrest]. cbn [negb] in Hrest. exists (n1 + n2).
  set (rest := match l with [] => w | _ => [] ++ items_text text d false l ++ w end ++ ["]"%char]) in *.
  assert (Heq : (if first then nl else []) ++ items_text text d first ((None, v) :: l) ++ w ++ ["]"%char] =
    (if first then [] else [","%char]) ++ (nl ++ ind (d + 1)) ++ text v ++ rest).
  { cbn [items_text]. cbn [snd]. assert (items_text text d false l ++ w ++ ["]"%char] = rest) as <-.
    { unfold rest. destruct l; [done|]. by rewrite app_assoc. }
    destruct first; cbn [app]; rewrite <- ?app_assoc; cbn [app]; rewrite <- ?app_assoc; done. }
  rewrite <- !app_assoc. rewrite Heq. destruct first; cbn [negb app].
  - apply items_first; [by apply spaces_app|done|done].
  - apply (items_next []); [constructor|by apply spaces_app|done|done].
Qed.

Lemma members_text_members text (d : nat) (first : bool) (l : members) w :
  spaces w -> Forall (fun e => e.1.1 = None /\ no_zero e.1.2 /\ e.2.1 = None /\ exists n, jvalue (text e.2.2) e.2.2 n) l ->
  exists n, jmembers (negb first)
    (match l with [] => w | _ => (if first then nl else []) ++ members_text text d first l ++ w end ++ ["}"%char]) l n.
Proof.
  intros Hw Hl. revert first. induction Hl as [|[[loc k] [loc' v]] l (Hloc & Hk & Hloc' & [n1 Hv]) _ IH]; intros first; [exists 0; by constructor|].
  cbn [fst snd] in *. subst loc loc'. destruct (IH false) as [n2 Hrest]. cbn [negb] in Hrest. apply chars_text_chars in Hk. eexists.
  set (rest := match l with [] => w | _ => [] ++ members_text text d false l ++ w end ++ ["}"%char]) in *.
  assert (Heq : (if first then nl else []) ++ members_text text d first ((None, k, (None, v)) :: l) ++ w ++ ["}"%char] =
    (if first then [] else [","%char]) ++ (nl ++ ind (d + 1)) ++ quote :: chars_text (list_ascii_of_string k) ++ quote :: c1 ++ ":"%char :: c2 ++ text v ++ rest).
  { cbn [members_text]. cbn [fst snd]. assert (members_text text d false l ++ w ++ ["}"%char] = rest) as <-.
    { unfold rest. destruct l; [done|]. by rewrite app_assoc. }
    rewrite Hcolon. unfold string_text. destruct first; cbn [app]; repeat (rewrite <- ?app_assoc; cbn [app]); done. }
  rewrite <- !app_assoc. rewrite Heq.
  replace (None, k, (None, v)) with (jmember (list_ascii_of_string k) v) by (unfold jmember; by rewrite string_of_list_ascii_of_string).
  destruct first; cbn [negb app].
  - apply members_first; [by apply spaces_app|done|done|done|done|done].
  - apply (members_next []); [constructor|by apply spaces_app|done|done|done|done|done].
Qed.

Lemma readable_items l : readable (json_array l) <-> Forall (fun e => e.1 = None /\ readable e.2) l.
Proof. cbn. induction l as [|e l IH]; cbn; [by split; [constructor|]|]. rewrite Forall_cons, <- IH. tauto. Qed.
Lemma readable_members l :
  readable (json_object l) <-> Forall (fun e => e.1.1 = None /\ no_zero e.1.2 /\ e.2.1 = None /\ readable e.2.2) l.
Proof. cbn. induction l as [|e l IH]; cbn; [by split; [constructor|]|]. rewrite Forall_cons, <- IH. tauto. Qed.

Lemma bracketed_eq {A} (d : nat) (l : list A) (inner : list ascii) (c : ascii) :
  bracketed d l inner ++ [c] = match l with [] => [] | _ => nl ++ inner ++ (nl ++ ind d) end ++ [c].
Proof. by destruct l. Qed.

Lemma value_text_value v : readable v -> forall d, exists n, jvalue (value_text v d) v n.
Proof.
  induction v as [s|s|l IH|l IH| | |] using json_value_nested_ind; intros Hr d.
  - eexists. pose proof (value_string _ _ _ (chars_text_chars _ Hr)) as H. rewrite string_of_list_ascii_of_string in H. exact H.
  - eexists. pose proof (value_number _ Hr) as H. rewrite string_of_list_ascii_of_string in H. exact H.
  - apply readable_members in Hr. cbn [value_text].
    destruct (members_text_members (fun v => value_text v (d + 1)) d true l (nl ++ ind d)) as [n Hn]; [by apply spaces_app| |].
    { apply Forall_forall. intros e He. rewrite Forall_forall in IH, Hr. destruct (Hr e He) as (H1 & H2 & H3 & H4). split_and!; try done. by apply IH. }
    cbn [negb] in Hn. destruct l; [exists 0; apply value_object, (members_end false []); constructor|].
    exists n. apply value_object. rewrite bracketed_eq. exact Hn.
  - apply readable_items in Hr. cbn [value_text].
    destruct (items_text_items (fun v => value_text v (d + 1)) d true l (nl ++ ind d)) as [n Hn]; [by apply spaces_app| |].
    { apply Forall_forall. intros e He. rewrite Forall_forall in IH, Hr. destruct (Hr e He) as (H1 & H2). split; [done|]. by apply IH. }
    cbn [negb] in Hn. destruct l; [exists 0; apply value_array, (items_end false []); constructor|].
    exists n. apply value_array. rewrite bracketed_eq. exact Hn.
  - eexists. constructor.
  - eexists. constructor.
  - eexists. constructor.
Qed.
End Text.

(** ** Numbers of the grammar are written as they are *)
Lemma is_digit_not c x : is_digit c = true -> is_digit x = false -> (x =c c) = false.
Proof. intros Hc Hx. apply cneq. intros ->. congruence. Qed.

Lemma after_digits_app ds l : digits ds -> after_digits (ds ++ l) = after_digits l.
Proof. induction 1 as [|c ds Hc _ IH]; cbn; [done|]. by rewrite Hc. Qed.

Lemma jint_digits i : jint i -> exists d ds, i = d :: ds /\ is_digit d = true /\ digits ds.
Proof.
  intros [->|(Hne & Hd & _)]; [exists "0"%char, []; split_and!; [done|done|constructor]|].
  destruct i as [|d ds]; [done|]. inversion Hd. by exists d, ds.
Qed.

Lemma jnumber_plain num : jnumber num ->
  is_hexadecimal num = false /\ starts_with "+" num = false /\
  (forall c, is_digit c = false -> starts_with c (after_sign num) = false) /\ after_digits (after_sign num) <> ["."%char].
Proof.
  intros (sign & i & f & e & -> & Hsign & Hi & Hf & He). destruct (jint_digits i Hi) as (d & ds & -> & Hd & Hds).
  assert (Hafter : after_sign (sign ++ (d :: ds) ++ f ++ e) = d :: ds ++ f ++ e).
  { destruct Hsign as [-> | ->]; cbn; [|done].
    rewrite (Ascii.eqb_sym d "+"), (Ascii.eqb_sym d "-"), !(is_digit_not d) by done. done. }
  assert (Htail : forall x, is_digit x = false -> x <> "."%char -> x <> "e"%char -> x <> "E"%char ->
    match ds ++ f ++ e with c :: _ => (c =c x) = false | [] => True end).
  { intros x Hx H1 H2 H3. destruct ds as [|c ds]; cbn; [|inversion Hds; subst; rewrite Ascii.eqb_sym; by apply is_digit_not].
    destruct Hf as [->|(fs & -> & _)]; cbn; [|by apply cneq]. destruct He as [->|(c & sg & es & -> & Hc & _)]; cbn; [done|].
    apply cneq. destruct Hc as [-> | ->]; congruence. }
  rewrite Hafter. split_and!.
  - destruct Hsign as [-> | ->]; cbn.
    + pose proof (Htail "x"%char ltac:(done) ltac:(done) ltac:(done) ltac:(done)) as Hx.
      pose proof (Htail "X"%char ltac:(done) ltac:(done) ltac:(done) ltac:(done)) as HX.
      destruct (ds ++ f ++ e); [done|]. by rewrite Hx, HX.
    + by rewrite (Ascii.eqb_sym d "x"), (Ascii.eqb_sym d "X"), !(is_digit_not d) by done.
  - destruct Hsign as [-> | ->]; cbn; [by apply is_digit_not|done].
  - intros c Hc. cbn. by apply is_digit_not.
  - cbn. rewrite Hd, after_digits_app by done. destruct Hf as [->|(fs & -> & Hne & _)]; cbn.
    + destruct He as [->|(c & sg & es & -> & Hc & _)]; cbn; [done|]. destruct Hc as [-> | ->]; cbn; done.
    + destruct fs; [done|]. cbn. done.
Qed.

Lemma len_app a b : len (a ++ b) = len a + len b.
Proof. unfold len. rewrite length_app. lia. Qed.
Lemma len_nonneg a : 0 <= len a.
Proof. unfold len. lia. Qed.
Lemma len_cons c l : len (c :: l) = 1 + len l.
Proof. unfold len. cbn [length]. lia. Qed.
Lemma len_nil : len [] = 0.
Proof. done. Qed.

Section Write.
Context (cap : Z).

Lemma wputs_ok cs out : len out + len cs <= cap -> wputs cap cs out = Ok (out ++ cs).
Proof.
  revert out. induction cs as [|c cs IH]; intros out Hc; cbn [wputs]; [by rewrite app_nil_r|]. rewrite len_cons in Hc. pose proof (len_nonneg cs).
  unfold wput. rewrite (proj2 (Z.ltb_lt _ _)) by lia. cbn [rbind]. rewrite IH; [by rewrite <- app_assoc|]. rewrite len_app, len_cons, len_nil. lia.
Qed.

Lemma wput_ok c out : len out + 1 <= cap -> wput cap c out = Ok (out ++ [c]).
Proof. intros Hc. unfold wput. by rewrite (proj2 (Z.ltb_lt _ _)) by lia. Qed.

Lemma write_chars_ok l out : len out + len (chars_text l) <= cap -> write_chars cap l out = Ok (out ++ chars_text l).
Proof.
  revert out. induction l as [|c l IH]; intros out Hc; cbn [write_chars]; [by rewrite app_nil_r|].
  change (chars_text (c :: l)) with (match escape_of c with Some e => ["\"%char; e] | None => [c] end ++ chars_text l) in *.
  rewrite len_app in Hc. pose proof (len_nonneg (chars_text l)). rewrite app_assoc. destruct (escape_of c) as [e|].
  - rewrite !len_cons, len_nil in Hc. rewrite wput_ok by lia. cbn [rbind]. rewrite wput_ok by (rewrite len_app, len_cons, len_nil; lia).
    cbn [rbind]. rewrite IH by (rewrite !len_app, !len_cons, !len_nil; lia). by rewrite <- (app_assoc out).
  - rewrite len_cons, len_nil in Hc. rewrite wput_ok by lia. cbn [rbind]. apply IH. rewrite len_app, len_cons, len_nil. lia.
Qed.

Lemma string_text_len s : len (string_text s) = 2 + len (chars_text (list_ascii_of_string s)).
Proof. unfold string_text. rewrite len_cons, len_app, len_cons, len_nil. lia. Qed.

Lemma write_string_ok s out : len out + len (string_text s) <= cap -> json_write_string cap s out = Ok (out ++ string_text s).
Proof.
  rewrite string_text_len. intros Hc. pose proof (len_nonneg (chars_text (list_ascii_of_string s))). unfold json_write_string.
  rewrite wput_ok by lia. cbn [rbind]. rewrite write_chars_ok by (rewrite len_app, len_cons, len_nil; lia). cbn [rbind].
  rewrite wput_ok by (rewrite !len_app, !len_cons, !len_nil; lia). unfold string_text. by rewrite <- !app_assoc.
Qed.

Lemma write_number_ok num out : jnumber num -> len out + len num <= cap -> json_write_number cap num out = Ok (out ++ num).
Proof.
  intros Hn Hc. destruct (jnumber_plain num Hn) as (H1 & H2 & H3 & H4). unfold json_write_number. rewrite H1, H2.
  rewrite (H3 "I"%char), (H3 "N"%char), (H3 "."%char) by done. cbn [rbind]. rewrite bool_decide_eq_false_2 by done. by apply wputs_ok.
Qed.

(** *** Without blanks *)
Abbreviation text0 := (value_text [] (fun _ => []) [":"%char]).

Lemma bracketed0 {A} d (l : list A) inner : (l = [] -> inner = []) -> bracketed [] (fun _ => []) d l inner = inner.
Proof. intros Hl. destruct l; cbn; [by rewrite Hl|by rewrite app_nil_r]. Qed.

Lemma write_items_ok write text d first l out :
  Forall (fun e => forall out, len out + len (text e.2) <= cap -> write e.2 out = Ok (out ++ text e.2)) l ->
  len out + len (items_text [] (fun _ => []) text d first l) <= cap ->
  write_items cap write first l out = Ok (out ++ items_text [] (fun _ => []) text d first l).
Proof.
  intros Hl. revert first out. induction Hl as [|[loc v] l Hv _ IH]; intros first out Hc; cbn [write_items items_text]; [by rewrite app_nil_r|].
  cbn [items_text app snd] in *. rewrite !len_app in Hc. pose proof (len_nonneg (items_text [] (fun _ => []) text d false l)). pose proof (len_nonneg (text v)).
  assert (Hsep : (if first then Ok out else wput cap "," out) = Ok (out ++ (if first then [] else [","%char]))).
  { destruct first; [by rewrite app_nil_r|]. apply wput_ok. rewrite len_cons, len_nil in Hc. lia. }
  rewrite Hsep. cbn [rbind]. rewrite Hv by (rewrite len_app; lia). cbn [rbind]. rewrite IH by (rewrite !len_app; lia). by rewrite <- !app_assoc.
Qed.

Lemma write_members_ok write text d first l out :
  Forall (fun e => forall out, len out + len (text e.2.2) <= cap -> write e.2.2 out = Ok (out ++ text e.2.2)) l ->
  len out + len (members_text [] (fun _ => []) [":"%char] text d first l) <= cap ->
  write_members cap write first l out = Ok (out ++ members_text [] (fun _ => []) [":"%char] text d first l).
Proof.
  intros Hl. revert first out. induction Hl as [|[[loc k] [loc' v]] l Hv _ IH]; intros first out Hc; cbn [write_members members_text]; [by rewrite app_nil_r|].
  cbn [members_text app fst snd] in *. rewrite !len_app, !len_cons, !len_app in Hc.
  pose proof (len_nonneg (members_text [] (fun _ => []) [":"%char] text d false l)). pose proof (len_nonneg (text v)). pose proof (len_nonneg (string_text k)).
  assert (Hsep : (if first then Ok out else wput cap "," out) = Ok (out ++ (if first then [] else [","%char]))).
  { destruct first; [by rewrite app_nil_r|]. apply wput_ok. rewrite len_cons, len_nil in Hc. lia. }
  rewrite Hsep. cbn [rbind]. rewrite write_string_ok by (rewrite len_app; lia). cbn [rbind]. rewrite wput_ok by (rewrite !len_app; lia). cbn [rbind].
  rewrite Hv by (rewrite !len_app, len_cons, len_nil; lia). cbn [rbind]. rewrite IH by (rewrite !len_app, len_cons, len_nil; lia).
  by rewrite <- !app_assoc.
Qed.

Lemma write_minified_ok v : readable v -> forall d out,
  len out + len (text0 v d) <= cap -> json_write_minified_value cap v out = Ok (out ++ text0 v d).
Proof.
  induction v as [s|s|l IH|l IH| | |] using json_value_nested_ind; intros Hr d out Hc; cbn [json_write_minified_value value_text] in *.
  - by apply write_string_ok.
  - by apply write_number_ok.
  - apply readable_members in Hr. rewrite bracketed0 in * by (by intros ->). set (inner := members_text _ _ _ _ _ _ _) in *.
    rewrite len_cons, len_app, len_cons, len_nil in Hc. pose proof (len_nonneg inner). unfold json_write_minified_object. rewrite wput_ok by lia. cbn [rbind].
    rewrite (write_members_ok _ (fun v => text0 v (d + 1)) d).
    + cbn [rbind]. fold inner. rewrite wput_ok by (rewrite !len_app, len_cons, len_nil; lia). by rewrite <- !app_assoc.
    + rewrite Forall_forall in *. intros e He out' Ho. destruct (Hr e He) as (_ & _ & _ & Hre). by apply IH.
    + fold inner. rewrite len_app, len_cons, len_nil. lia.
  - apply readable_items in Hr. rewrite bracketed0 in * by (by intros ->). set (inner := items_text _ _ _ _ _ _) in *.
    rewrite len_cons, len_app, len_cons, len_nil in Hc. pose proof (len_nonneg inner). unfold json_write_minified_array. rewrite wput_ok by lia. cbn [rbind].
    rewrite (write_items_ok _ (fun v => text0 v (d + 1)) d).
    + cbn [rbind]. fold inner. rewrite wput_ok by (rewrite !len_app, len_cons, len_nil; lia). by rewrite <- !app_assoc.
    + rewrite Forall_forall in *. intros e He out' Ho. destruct (Hr e He) as (_ & Hre). by apply IH.
    + fold inner. rewrite len_app, len_cons, len_nil. lia.
  - by apply wputs_ok.
  - by apply wputs_ok.
  - by apply wputs_ok.
Qed.

(** *** With line breaks and indentation *)
Context (indent newline : list ascii).
Abbreviation text1 := (value_text newline (indents indent) [" "; ":"; " "]%char).

Lemma separator_ok (first : bool) out :
  len out + len (if first then [] else ","%char :: newline) <= cap ->
  (if first then Ok out else let* out := wput cap "," out in wputs cap newline out) = Ok (out ++ (if first then [] else ","%char :: newline)).
Proof.
  intros Hc. destruct first; [by rewrite app_nil_r|]. rewrite len_cons in Hc. pose proof (len_nonneg newline). rewrite wput_ok by lia. cbn [rbind].
  rewrite wputs_ok by (rewrite len_app, len_cons, len_nil; lia). by rewrite <- app_assoc.
Qed.

Lemma write_pretty_items_ok write text d first l out :
  Forall (fun e => forall out, len out + len (text e.2) <= cap -> write e.2 out = Ok (out ++ text e.2)) l ->
  len out + len (items_text newline (indents indent) text d first l) <= cap ->
  write_pretty_items cap indent newline write d first l out = Ok (out ++ items_text newline (indents indent) text d first l).
Proof.
  intros Hl. revert first out. induction Hl as [|[loc v] l Hv _ IH]; intros first out Hc; cbn [write_pretty_items items_text]; [by rewrite app_nil_r|].
  cbn [items_text snd] in *. rewrite !len_app in Hc.
  pose proof (len_nonneg (items_text newline (indents indent) text d false l)). pose proof (len_nonneg (text v)). pose proof (len_nonneg (indents indent (d + 1))).
  rewrite separator_ok by lia. cbn [rbind]. rewrite wputs_ok by (rewrite len_app; lia). cbn [rbind]. rewrite Hv by (rewrite !len_app; lia).
  cbn [rbind]. rewrite IH by (rewrite !len_app; lia). by rewrite <- !app_assoc.
Qed.

Lemma write_pretty_members_ok write text d first l out :
  Forall (fun e => forall out, len out + len (text e.2.2) <= cap -> write e.2.2 out = Ok (out ++ text e.2.2)) l ->
  len out + len (members_text newline (indents indent) [" "; ":"; " "]%char text d first l) <= cap ->
  write_pretty_members cap indent newline write d first l out
    = Ok (out ++ members_text newline (indents indent) [" "; ":"; " "]%char text d first l).
Proof.
  intros Hl. revert first out. induction Hl as [|[[loc k] [loc' v]] l Hv _ IH]; intros first out Hc; cbn [write_pretty_members members_text]; [by rewrite app_nil_r|].
  cbn [members_text fst snd] in *. rewrite !len_app in Hc. set (rest := members_text _ _ _ _ _ _ _) in *.
  pose proof (len_nonneg rest). pose proof (len_nonneg (text v)). pose proof (len_nonneg (indents indent (d + 1))).
  pose proof (len_nonneg (string_text k)). pose proof (len_nonneg [" "; ":"; " "]%char).
  rewrite separator_ok by lia. cbn [rbind]. rewrite wputs_ok by (rewrite len_app; lia). cbn [rbind].
  rewrite write_string_ok by (rewrite !len_app; lia). cbn [rbind]. rewrite wputs_ok by (rewrite !len_app; lia). cbn [rbind].
  rewrite Hv by (rewrite !len_app; lia). cbn [rbind]. rewrite IH by (rewrite !len_app; fold rest; lia). fold rest. by rewrite <- !app_assoc.
Qed.

(** What a pretty writer puts between the brackets. *)
Lemma write_bracketed {A} (l : list A) d inner w out :
  (forall out, len out + len inner <= cap -> w out = Ok (out ++ inner)) ->
  len out + len (bracketed newline (indents indent) d l inner) <= cap ->
  match l with
  | [] => Ok out
  | _ => let* out := wputs cap newline out in let* out := w out in let* out := wputs cap newline out in wputs cap (indents indent d) out
  end = Ok (out ++ bracketed newline (indents indent) d l inner).
Proof.
  intros Hw Hc. destruct l as [|x l]; cbn [bracketed] in *; [by rewrite app_nil_r|]. rewrite !len_app in Hc.
  pose proof (len_nonneg inner). pose proof (len_nonneg newline). pose proof (len_nonneg (indents indent d)).
  rewrite wputs_ok by lia. cbn [rbind]. rewrite Hw by (rewrite len_app; lia). cbn [rbind]. rewrite wputs_ok by (rewrite !len_app; lia). cbn [rbind].
  rewrite wputs_ok by (rewrite !len_app; lia). by rewrite <- !app_assoc.
Qed.

Lemma write_pretty_ok v : readable v -> forall d out,
  len out + len (text1 v d) <= cap -> json_write_pretty_value cap indent newline v d out = Ok (out ++ text1 v d).
Proof.
  induction v as [s|s|l IH|l IH| | |] using json_value_nested_ind; intros Hr d out Hc; cbn [json_write_pretty_value value_text] in *.
  - by apply write_string_ok.
  - by apply write_number_ok.
  - apply readable_members in Hr. rewrite len_cons, len_app, len_cons, len_nil in Hc.
    set (inner := members_text newline (indents indent) _ _ d true l) in *. pose proof (len_nonneg (bracketed newline (indents indent) d l inner)).
    unfold json_write_pretty_object. rewrite wput_ok by lia. cbn [rbind].
    rewrite (write_bracketed l d inner (write_pretty_members cap indent newline (fun v => json_write_pretty_value cap indent newline v (d + 1)) d true l)).
    + cbn [rbind]. rewrite wput_ok by (rewrite !len_app, len_cons, len_nil; lia). by rewrite <- !app_assoc.
    + intros out' Ho. apply write_pretty_members_ok; [|done]. rewrite Forall_forall in *. intros e He out'' Ho'. destruct (Hr e He) as (_ & _ & _ & Hre). by apply IH.
    + rewrite len_app, len_cons, len_nil. lia.
  - apply readable_items in Hr. rewrite len_cons, len_app, len_cons, len_nil in Hc.
    set (inner := items_text newline (indents indent) _ d true l) in *. pose proof (len_nonneg (bracketed newline (indents indent) d l inner)).
    unfold json_write_pretty_array. rewrite wput_ok by lia. cbn [rbind].
    rewrite (write_bracketed l d inner (write_pretty_items cap indent newline (fun v => json_write_pretty_value cap indent newline v (d + 1)) d true l)).
    + cbn [rbind]. rewrite wput_ok by (rewrite !len_app, len_cons, len_nil; lia). by rewrite <- !app_assoc.
    + intros out' Ho. apply write_pretty_items_ok; [|done]. rewrite Forall_forall in *. intros e He out'' Ho'. destruct (Hr e He) as (_ & Hre). by apply IH.
    + rewrite len_app, len_cons, len_nil. lia.
  - by apply wputs_ok.
  - by apply wputs_ok.
  - by apply wputs_ok.
Qed.
End Write.

(** ** What was counted is what is written *)
Lemma string_size_loop_ok l size :
  0 <= size -> size + len (chars_text l) < W64 -> string_size_loop l size = size + len (chars_text l).
Proof.
  revert size. induction l as [|c l IH]; intros size H0 H1; cbn [string_size_loop]; [change (len (chars_text [])) with 0; lia|].
  change (chars_text (c :: l)) with (match escape_of c with Some e => ["\"%char; e] | None => [c] end ++ chars_text l) in *.
  rewrite len_app in *. pose proof (len_nonneg (chars_text l)).
  destruct (escape_of c); rewrite !len_cons, len_nil in *; rewrite u64_small by lia; rewrite IH by lia; lia.
Qed.

Lemma string_size_ok s size :
  0 <= size -> size + len (string_text s) < W64 -> json_write_get_string_size s size = size + len (string_text s).
Proof.
  rewrite string_text_len. intros H0 H1. pose proof (len_nonneg (chars_text (list_ascii_of_string s))). unfold json_write_get_string_size.
  rewrite string_size_loop_ok by lia. rewrite u64_small by lia. lia.
Qed.

Lemma number_size_ok num size :
  jnumber num -> 0 <= size -> size + len num < W64 -> json_write_get_number_size num size = Ok (size + len num).
Proof.
  intros Hn H0 H1. destruct (jnumber_plain num Hn) as (E1 & E2 & E3 & E4). unfold json_write_get_number_size. rewrite E1.
  rewrite (E3 "I"%char), (E3 "N"%char), (E3 "."%char) by done. cbn [rbind]. rewrite bool_decide_eq_false_2 by done.
  unfold plain_size. rewrite E2. pose proof (len_nonneg num). by rewrite u64_small by lia.
Qed.

(** The counts of a list of texts. *)
Definition total {A} (f : A -> list ascii) (l : list A) : Z := foldr (fun e n => len (f e) + n) 0 l.

Lemma text_total_nonneg {A} (f : A -> list ascii) l : 0 <= total f l.
Proof. unfold total. induction l as [|e l IH]; cbn [foldr]; [lia|]. pose proof (len_nonneg (f e)). lia. Qed.

Lemma size_items_ok sz text l size :
  Forall (fun e => forall size, 0 <= size -> size + len (text e.2) < W64 -> sz e.2 size = Ok (size + len (text e.2))) l ->
  0 <= size -> size + total (fun e => text e.2) l < W64 -> size_items sz l size = Ok (size + total (fun e => text e.2) l).
Proof.
  intros Hl. revert size. induction Hl as [|[loc v] l Hv _ IH]; intros size H0 H1; cbn [size_items]; [cbn; by rewrite Z.add_0_r|].
  cbn [total foldr snd] in *. fold (total (fun e : option location * json_value_s => text e.2) l) in *. pose proof (text_total_nonneg (fun e => text e.2) l).
  pose proof (len_nonneg (text v)). rewrite Hv by lia. cbn [rbind]. rewrite IH by lia. f_equal. lia.
Qed.

Lemma size_members_ok sz text l size :
  Forall (fun e => forall size, 0 <= size -> size + len (text e.2.2) < W64 -> sz e.2.2 size = Ok (size + len (text e.2.2))) l ->
  0 <= size -> size + total (fun e => string_text e.1.2 ++ text e.2.2) l < W64 ->
  size_members sz l size = Ok (size + total (fun e => string_text e.1.2 ++ text e.2.2) l).
Proof.
  intros Hl. revert size. induction Hl as [|[[loc k] [loc' v]] l Hv _ IH]; intros size H0 H1; cbn [size_members]; [cbn; by rewrite Z.add_0_r|].
  cbn [total foldr fst snd] in *. fold (total (fun e : option location * string * (option location * json_value_s) => string_text e.1.2 ++ text e.2.2) l) in *.
  set (t := total _ l) in *. assert (0 <= t) by apply text_total_nonneg. rewrite len_app in *. pose proof (len_nonneg (text v)). pose proof (len_nonneg (string_text k)).
  rewrite string_size_ok by lia. rewrite Hv by lia. cbn [rbind]. rewrite IH by (fold t; lia). fold t. f_equal. lia.
Qed.

Section Sizes.
Context (nl : list ascii) (ind : nat -> list ascii) (colon : list ascii).

Lemma items_text_len text d first l :
  len (items_text nl ind text d first l) =
    total (fun e => text e.2) l + vsize l * len (ind (d + 1)%nat) +
    (if first then Z.max 0 (vsize l - 1) else vsize l) * (1 + len nl).
Proof.
  revert first. induction l as [|e l IH]; intros first; cbn [items_text]; [by destruct first|].
  rewrite !len_app, IH. unfold total, vsize. cbn [foldr length]. rewrite Nat2Z.inj_succ.
  replace (Z.max 0 (Z.succ (Z.of_nat (length l)) - 1)) with (Z.of_nat (length l)) by lia.
  destruct first; rewrite ?len_nil, ?len_cons; lia.
Qed.

Lemma members_text_len text d first l :
  len (members_text nl ind colon text d first l) =
    total (fun e => string_text e.1.2 ++ text e.2.2) l + vsize l * (len (ind (d + 1)%nat) + len colon) +
    (if first then Z.max 0 (vsize l - 1) else vsize l) * (1 + len nl).
Proof.
  revert first. induction l as [|e l IH]; intros first; cbn [members_text]; [by destruct first|].
  rewrite !len_app, IH. unfold total, vsize. cbn [foldr length]. rewrite Nat2Z.inj_succ, len_app.
  replace (Z.max 0 (Z.succ (Z.of_nat (length l)) - 1)) with (Z.of_nat (length l)) by lia.
  destruct first; rewrite ?len_nil, ?len_cons; lia.
Qed.
End Sizes.

Abbreviation text0 := (value_text [] (fun _ => []) [":"%char]).

Lemma minified_size_ok v : readable v -> forall d size,
  0 <= size -> size + len (text0 v d) < W64 -> json_write_minified_get_value_size v size = Ok (size + len (text0 v d)).
Proof.
  induction v as [s|s|l IH|l IH| | |] using json_value_nested_ind; intros Hr d size H0 H1;
    cbn [json_write_minified_get_value_size value_text] in *.
  - by rewrite string_size_ok.
  - by apply number_size_ok.
  - apply readable_members in Hr. rewrite bracketed0 in * by (by intros ->). rewrite len_cons, len_app, len_cons, len_nil, members_text_len in *.
    rewrite !len_nil, len_cons, len_nil in *. set (f := fun e : option location * string * (option location * json_value_s) => string_text e.1.2 ++ text0 e.2.2 (d + 1)%nat) in *.
    pose proof (text_total_nonneg f l). pose proof (vsize_nonneg l). unfold json_write_minified_get_object_size.
    rewrite !u64_small by (repeat rewrite u64_small; lia).
    assert (Hs : (if 1 <? vsize l then size + 2 + vsize l + (vsize l - 1) else size + 2 + vsize l) = size + 2 + vsize l + Z.max 0 (vsize l - 1)).
    { destruct (Z.ltb_spec 1 (vsize l)); lia. }
    rewrite Hs. rewrite (size_members_ok _ (fun v => text0 v (d + 1)%nat)); [fold f; f_equal; lia| |lia|fold f; lia].
    rewrite Forall_forall in *. intros e He sz' Hs0 Hs1. destruct (Hr e He) as (_ & _ & _ & Hre). by apply IH.
  - apply readable_items in Hr. rewrite bracketed0 in * by (by intros ->). rewrite len_cons, len_app, len_cons, len_nil, items_text_len in *.
    rewrite !len_nil in *. set (f := fun e : option location * json_value_s => text0 e.2 (d + 1)%nat) in *.
    pose proof (text_total_nonneg f l). pose proof (vsize_nonneg l). unfold json_write_minified_get_array_size. rewrite (u64_small (size + 2)) by lia.
    assert (Hs : (if 1 <? vsize l then u64 (size + 2 + (vsize l - 1)) else size + 2) = size + 2 + Z.max 0 (vsize l - 1)).
    { destruct (Z.ltb_spec 1 (vsize l)); [rewrite u64_small by lia|]; lia. }
    rewrite Hs. rewrite (size_items_ok _ (fun v => text0 v (d + 1)%nat)); [fold f; f_equal; lia| |lia|fold f; lia].
    rewrite Forall_forall in *. intros e He sz' Hs0 Hs1. destruct (Hr e He) as (_ & Hre). by apply IH.
  - rewrite u64_small; [done|]. by split; [lia|].
  - rewrite u64_small; [done|]. by split; [lia|].
  - rewrite u64_small; [done|]. by split; [lia|].
Qed.

Lemma indents_len indent k : len (indents indent k) = Z.of_nat k * len indent.
Proof. unfold indents. induction k as [|k IH]; cbn [replicate concat]; [done|]. rewrite len_app, IH. lia. Qed.

Section PrettySizes.
Context (indent newline : list ascii).
Abbreviation text1 := (value_text newline (indents indent) [" "; ":"; " "]%char).

(** Blanks before and behind each element of a list at depth [d]. *)
Definition blanks_at (d : nat) : Z := (Z.of_nat d + 1) * len indent + len newline.

Lemma blanks_nonneg d : 0 <= blanks_at d.
Proof. unfold blanks_at. pose proof (len_nonneg indent). pose proof (len_nonneg newline). nia. Qed.

Lemma size_pretty_items_ok sz text d l size :
  Forall (fun e => forall size, 0 <= size -> size + len (text e.2) < W64 -> sz e.2 size = Ok (size + len (text e.2))) l ->
  0 <= size -> size + total (fun e => text e.2) l + vsize l * blanks_at d < W64 ->
  size_pretty_items (len indent) (len newline) sz (Z.of_nat d) l size = Ok (size + total (fun e => text e.2) l + vsize l * blanks_at d).
Proof.
  intros Hl. revert size. induction Hl as [|[loc v] l Hv _ IH]; intros size H0 H1; cbn [size_pretty_items]; [unfold total, vsize; cbn [length foldr]; f_equal; lia|].
  cbn [total foldr snd] in *. fold (total (fun e : option location * json_value_s => text e.2) l) in *. set (t := total _ l) in *.
  assert (0 <= t) by apply text_total_nonneg. unfold vsize in *. cbn [length] in *. rewrite Nat2Z.inj_succ, Z.mul_succ_l in *.
  assert (0 <= Z.of_nat (length l) * blanks_at d) by (pose proof (blanks_nonneg d); nia). set (b := Z.of_nat (length l) * blanks_at d) in *.
  pose proof (len_nonneg (text v)). pose proof (len_nonneg indent). pose proof (len_nonneg newline).
  assert (0 <= (Z.of_nat d + 1) * len indent) by nia. unfold blanks_at in H1 |- *.
  rewrite u64_small by lia. rewrite Hv by lia. cbn [rbind]. rewrite u64_small by lia. rewrite IH by lia. f_equal. lia.
Qed.

Lemma size_pretty_members_ok sz text d l size :
  Forall (fun e => forall size, 0 <= size -> size + len (text e.2.2) < W64 -> sz e.2.2 size = Ok (size + len (text e.2.2))) l ->
  0 <= size -> size + total (fun e => string_text e.1.2 ++ text e.2.2) l + vsize l * (blanks_at d + 3) < W64 ->
  size_pretty_members (len indent) (len newline) sz (Z.of_nat d) l size =
    Ok (size + total (fun e => string_text e.1.2 ++ text e.2.2) l + vsize l * (blanks_at d + 3)).
Proof.
  intros Hl. revert size. induction Hl as [|[[loc k] [loc' v]] l Hv _ IH]; intros size H0 H1; cbn [size_pretty_members]; [unfold total, vsize; cbn [length foldr]; f_equal; lia|].
  cbn [total foldr fst snd] in *. fold (total (fun e : option location * string * (option location * json_value_s) => string_text e.1.2 ++ text e.2.2) l) in *.
  set (t := total _ l) in *. assert (0 <= t) by apply text_total_nonneg. unfold vsize in *. cbn [length] in *. rewrite Nat2Z.inj_succ, Z.mul_succ_l in *.
  rewrite len_app in *. assert (0 <= Z.of_nat (length l) * (blanks_at d + 3)) by (pose proof (blanks_nonneg d); nia). set (b := Z.of_nat (length l) * (blanks_at d + 3)) in *.
  pose proof (len_nonneg (text v)). pose proof (len_nonneg (string_text k)). pose proof (len_nonneg indent). pose proof (len_nonneg newline).
  assert (0 <= (Z.of_nat d + 1) * len indent) by nia. unfold blanks_at in H1 |- *.
  rewrite (u64_small (size + _)) by lia. rewrite (u64_small (size + _ + _)) by lia. rewrite string_size_ok by lia. rewrite u64_small by lia.
  rewrite Hv by lia. cbn [rbind]. rewrite IH by (fold t; fold b; lia). fold t. fold b. f_equal. lia.
Qed.

Lemma bracketed_len {A} d (l : list A) inner :
  len (bracketed newline (indents indent) d l inner) =
    if 0 <? vsize l then 2 * len newline + len inner + Z.of_nat d * len indent else 0.
Proof.
  destruct l as [|x l]; [done|]. cbn [bracketed]. rewrite !len_app, indents_len. unfold vsize. cbn [length].
  rewrite (proj2 (Z.ltb_lt _ _)) by lia. lia.
Qed.

Lemma pretty_size_ok v : readable v -> forall d size,
  0 <= size -> size + len (text1 v d) < W64 ->
  json_write_pretty_get_value_size (len indent) (len newline) v (Z.of_nat d) size = Ok (size + len (text1 v d)).
Proof.
  pose proof (len_nonneg indent) as Hi. pose proof (len_nonneg newline) as Hn.
  assert (Hsucc : forall d : nat, Z.of_nat d + 1 = Z.of_nat (d + 1)) by (intros; lia).
  induction v as [s|s|l IH|l IH| | |] using json_value_nested_ind; intros Hr d size H0 H1;
    cbn [json_write_pretty_get_value_size value_text] in *.
  - by rewrite string_size_ok.
  - by apply number_size_ok.
  - apply readable_members in Hr. rewrite len_cons, len_app, len_cons, len_nil, bracketed_len, members_text_len, indents_len in *.
    set (f := fun e : option location * string * (option location * json_value_s) => string_text e.1.2 ++ text1 e.2.2 (d + 1)%nat) in *.
    pose proof (text_total_nonneg f l). pose proof (vsize_nonneg l). assert (0 <= Z.of_nat d * len indent) by nia. unfold json_write_pretty_get_object_size.
    change (len [" "; ":"; " "]%char) with 3 in *. destruct (Z.ltb_spec 0 (vsize l)) as [Hl|Hl].
    2: { cbn [rbind]. rewrite !u64_small by (rewrite ?u64_small; lia). f_equal. lia. }
    rewrite Z.max_r in * by lia. assert (Hb : 0 <= vsize l * (blanks_at d + 3)) by (pose proof (blanks_nonneg d); nia).
    assert (Heq : vsize l * (blanks_at d + 3) = vsize l * (Z.of_nat (d + 1) * len indent + 3) + (vsize l - 1) * len newline + len newline) by (unfold blanks_at; lia).
    assert (0 <= (vsize l - 1) * len newline) by nia. assert (0 <= vsize l * (Z.of_nat (d + 1) * len indent + 3)) by (apply Z.mul_nonneg_nonneg; lia).
    rewrite (u64_small (size + 1)), (u64_small (size + 1 + _)), (u64_small (size + 1 + _ + _)) by lia.
    rewrite (size_pretty_members_ok _ (fun v => text1 v (d + 1)%nat)); [| |lia|fold f; lia].
    + cbn [rbind]. fold f. rewrite (u64_small (_ + Z.of_nat d * len indent)) by lia. rewrite u64_small by lia. f_equal. lia.
    + rewrite Forall_forall in *. intros e He sz' Hs0 Hs1. destruct (Hr e He) as (_ & _ & _ & Hre). rewrite Hsucc. by apply IH.
  - apply readable_items in Hr. rewrite len_cons, len_app, len_cons, len_nil, bracketed_len, items_text_len, indents_len in *.
    set (f := fun e : option location * json_value_s => text1 e.2 (d + 1)%nat) in *.
    pose proof (text_total_nonneg f l). pose proof (vsize_nonneg l). assert (0 <= Z.of_nat d * len indent) by nia. unfold json_write_pretty_get_array_size.
    destruct (Z.ltb_spec 0 (vsize l)) as [Hl|Hl].
    2: { cbn [rbind]. rewrite !u64_small by (rewrite ?u64_small; lia). f_equal. lia. }
    rewrite Z.max_r in * by lia. assert (Hb : 0 <= vsize l * blanks_at d) by (pose proof (blanks_nonneg d); nia).
    assert (Heq : vsize l * blanks_at d = vsize l * (Z.of_nat (d + 1) * len indent) + (vsize l - 1) * len newline + len newline) by (unfold blanks_at; lia).
    assert (0 <= (vsize l - 1) * len newline) by nia. assert (0 <= vsize l * (Z.of_nat (d + 1) * len indent)) by (apply Z.mul_nonneg_nonneg; lia).
    rewrite (u64_small (size + 1)), (u64_small (size + 1 + _)), (u64_small (size + 1 + _ + _)) by lia.
    rewrite (size_pretty_items_ok _ (fun v => text1 v (d + 1)%nat)); [| |lia|fold f; lia].
    + cbn [rbind]. fold f. rewrite (u64_small (_ + Z.of_nat d * len indent)) by lia. rewrite u64_small by lia. f_equal. lia.
    + rewrite Forall_forall in *. intros e He sz' Hs0 Hs1. destruct (Hr e He) as (_ & Hre). rewrite Hsucc. by apply IH.
  - rewrite u64_small; [done|]. by split; [lia|].
  - rewrite u64_small; [done|]. by split; [lia|].
  - rewrite u64_small; [done|]. by split; [lia|].
Qed.
End PrettySizes.

(** ** What is written is read back *)
Lemma write_out_ok malloc n write t :
  malloc (n + 1) = true -> n = len t -> n + 1 < W64 -> write [] = Ok t ->
  write_out malloc n write = Ok (Some (t ++ ["000"%char], len t + 1)).
Proof.
  intros Hm -> Hn Hw. pose proof (len_nonneg t). unfold write_out. rewrite u64_small by lia. rewrite Hm, Hw. cbn [rbind].
  rewrite wput_ok by lia. done.
Qed.

(** The text is the value's in the grammar, hence the reader gives the value. *)
Lemma text_read malloc nl ind colon v :
  (forall n, malloc n = true) -> spaces nl -> (forall d, spaces (ind d)) ->
  (exists c1 c2, colon = c1 ++ ":"%char :: c2 /\ spaces c1 /\ spaces c2) ->
  readable v -> len (value_text nl ind colon v 0) < 2 ^ 58 ->
  json_parse malloc (string_of_list_ascii (value_text nl ind colon v 0)) = Ok (Some v).
Proof.
  intros Hm Hnl Hind (c1 & c2 & -> & Hc1 & Hc2) Hr Hlen.
  destruct (value_text_value nl ind _ Hnl Hind c1 c2 eq_refl Hc1 Hc2 v Hr 0) as [n Hn]. set (t := value_text _ _ _ v 0) in *.
  destruct (json_parse_total malloc (string_of_list_ascii t)) as (r & Hp & Hv).
  { unfold slen. rewrite <- length_list_ascii, list_ascii_of_string_of_list_ascii. exact Hlen. }
  rewrite Hp. f_equal. apply Hv. exists n. split; [|apply Hm]. rewrite list_ascii_of_string_of_list_ascii.
  exists [], t, []. rewrite app_nil_r. split_and!; [done|constructor|constructor|]. by left.
Qed.

Lemma indents_spaces indent k : spaces indent -> spaces (indents indent k).
Proof. intros H. unfold indents. induction k as [|k IH]; cbn [replicate concat]; [constructor|]. by apply spaces_app. Qed.

(** What json_write_minified and json_write_pretty are to write. *)
Definition minified_text (v : json_value_s) : list ascii := value_text [] (fun _ => []) [":"%char] v 0.
Definition pretty_text (indent newline : string) (v : json_value_s) : list ascii :=
  value_text (list_ascii_of_string newline) (indents (list_ascii_of_string indent)) [" "; ":"; " "]%char v 0.

(** The bytes [t] were written with a zero behind them, and are read as [v]. *)
Definition writes_and_reads_back (malloc : Z -> bool) (result : res (option (list ascii * Z))) (t : list ascii) (v : json_value_s) : Prop :=
  result = Ok (Some (t ++ ["000"%char], len t + 1)) /\ json_parse malloc (string_of_list_ascii t) = Ok (Some v).

(** C31: What the JSON writer writes, minified or pretty with any white space for
    indentation and line breaks, is exactly as long as the first pass counted, stays within
    the allocation, ends in a zero, and is read back by json_parse as the value that was
    written. For values as the reader gives them: strings without NUL, numbers of the
    grammar, no locations. Texts are shorter than 2^58 bytes and the allocations succeed. *)
Theorem json_roundtrip malloc v indent newline :
  (forall n, malloc n = true) -> readable v ->
  spaces (list_ascii_of_string (default "  " indent)) -> spaces (list_ascii_of_string (default (String "010" "") newline)) ->
  len (minified_text v) < 2 ^ 58 -> len (pretty_text (default "  " indent) (default (String "010" "") newline) v) < 2 ^ 58 ->
  writes_and_reads_back malloc (json_write_minified malloc (Some v)) (minified_text v) v /\
  writes_and_reads_back malloc (json_write_pretty malloc (Some v) indent newline)
    (pretty_text (default "  " indent) (default (String "010" "") newline) v) v.
Proof.
  intros Hm Hr Hi Hn H0 H1. assert (2 ^ 58 < W64) by done. split; split.
  - unfold json_write_minified. rewrite (minified_size_ok v Hr 0 0) by (fold (minified_text v); lia). cbn [rbind]. fold (minified_text v).
    apply write_out_ok; [apply Hm|lia|lia|]. pose proof (len_nonneg (minified_text v)). rewrite u64_small by lia.
    apply (write_minified_ok _ v Hr 0 []). fold (minified_text v). rewrite len_nil. lia.
  - apply text_read; try done; [constructor|by constructor|]. exists [], []. split; [done|]. split; constructor.
  - unfold json_write_pretty. set (i := default _ indent) in *. set (n := default _ newline) in *.
    pose proof (pretty_size_ok (list_ascii_of_string i) (list_ascii_of_string n) v Hr 0 0) as Hs. fold (pretty_text i n v) in Hs. change (Z.of_nat 0) with 0 in Hs.
    rewrite Hs by lia. cbn [rbind].
    fold (pretty_text i n v). apply write_out_ok; [apply Hm|lia|lia|]. pose proof (len_nonneg (pretty_text i n v)). rewrite u64_small by lia.
    apply (write_pretty_ok _ _ _ v Hr 0 []). fold (pretty_text i n v). rewrite len_nil. lia.
  - apply text_read; try done; [intros d; by apply indents_spaces|]. exists [" "%char], [" "%char]. split; [done|]. split; by constructor.
Qed.

Lemma json_roundtrip_witness :
  let v := json_object [(None, "a"%string, (None, json_array [(None, json_number "-1.5e3"); (None, json_string (String "034" "b"))]))] in
  writes_and_reads_back (fun _ => true) (json_write_minified (fun _ => true) (Some v)) (minified_text v) v /\
  writes_and_reads_back (fun _ => true) (json_write_pretty (fun _ => true) (Some v) None (Some "")%string) (pretty_text "  " "" v) v.
Proof.
  cbv zeta.
  apply (json_roundtrip (fun _ => true) (json_object [(None, "a"%string, (None, json_array [(None, json_number "-1.5e3"); (None, json_string (String "034" "b"))]))]) None (Some "")%string).
  - done.
  - cbn. unfold no_zero. split_and!; try done; try (by repeat constructor).
    exists ["-"%char], ["1"%char], [".";"5"]%char, ["e";"3"]%char. split_and!; [done|by right| | |].
    + right. split_and!; [done|by repeat constructor|done].
    + right. exists ["5"%char]. split_and!; [done|done|by repeat constructor].
    + right. exists "e"%char, [], ["3"%char]. split_and!; [done|by left|by left|done|by repeat constructor].
  - by repeat constructor.
  - constructor.
  - vm_compute. reflexivity.
  - vm_compute. reflexivity.
Defined.

(** ** Extraction fills its allocation

    The bytes of the characters below a value, and the value without locations. *)
Fixpoint data_of (v : json_value_s) : Z :=
  match v with
  | json_string s => slen s + 1
  | json_number s => slen s
  | json_object l => foldr (fun e n => slen e.1.2 + 1 + data_of e.2.2 + n) 0 l
  | json_array l => foldr (fun e n => data_of e.2 + n) 0 l
  | _ => 0
  end.
Fixpoint without_locations (v : json_value_s) : json_value_s :=
  match v with
  | json_object l => json_object ((fun e => (None, e.1.2, (None, without_locations e.2.2))) <$> l)
  | json_array l => json_array ((fun e => (None, without_locations e.2)) <$> l)
  | v => v
  end.

Abbreviation member_data l := (foldr (fun (e : option location * string * (option location * json_value_s)) n => slen e.1.2 + 1 + data_of e.2.2 + n) 0 l).
Abbreviation item_data l := (foldr (fun (e : option location * json_value_s) n => data_of e.2 + n) 0 l).

Lemma slen_nonneg s : 0 <= slen s.
Proof. unfold slen. lia. Qed.

Lemma sizes_nonneg v : 0 <= dom_of v /\ 0 <= data_of v.
Proof.
  induction v as [s|s|l IH|l IH| | |] using json_value_nested_ind; cbn [dom_of data_of]; try (pose proof (slen_nonneg s)); try (by split).
  - split; [done|lia].
  - induction IH as [|e l He _ IH]; cbn [foldr] in *; [by split|]. pose proof (slen_nonneg e.1.2). change sizeof_json_object_element_s with 24 in *. change sizeof_json_string_s with 16 in *. change sizeof_json_value_s with 16 in *. lia.
  - induction IH as [|e l He _ IH]; cbn [foldr] in *; [by split|]. change sizeof_json_array_element_s with 16 in *. change sizeof_json_value_s with 16 in *. lia.
Qed.

Lemma members_nonneg l : 0 <= msum l /\ 0 <= member_data l.
Proof.
  unfold msum. induction l as [|e l IH]; cbn [foldr]; [by split|]. pose proof (sizes_nonneg e.2.2). pose proof (slen_nonneg e.1.2).
  change sizeof_json_string_s with 16 in *. change sizeof_json_value_s with 16 in *. lia.
Qed.
Lemma items_nonneg l : 0 <= isum l /\ 0 <= item_data l.
Proof.
  unfold isum. induction l as [|e l IH]; cbn [foldr]; [by split|]. pose proof (sizes_nonneg e.2). change sizeof_json_value_s with 16 in *. lia.
Qed.

Lemma member_sizes_ok sz l a b :
  Forall (fun e => sizeof_json_value_s + dom_of e.2.2 < W64 -> data_of e.2.2 < W64 -> sz e.2.2 = (sizeof_json_value_s + dom_of e.2.2, data_of e.2.2)) l ->
  0 <= a -> 0 <= b -> a + msum l < W64 -> b + member_data l < W64 ->
  foldl (fun s (e : option location * string * (option location * json_value_s)) =>
    let string_result := json_extract_get_string_size e.1.2 in
    let value_result := sz e.2.2 in
    (u64 (u64 (s.1 + string_result.1) + value_result.1), u64 (u64 (s.2 + string_result.2) + value_result.2))) (a, b) l =
  (a + msum l, b + member_data l).
Proof.
  intros Hl. revert a b. induction Hl as [|e l He _ IH]; intros a b Ha Hb H0 H1; [unfold msum; cbn; f_equal; lia|].
  cbn [foldl]. unfold msum in *. cbn [foldr] in *. fold (msum l) in *. pose proof (members_nonneg l). pose proof (sizes_nonneg e.2.2). pose proof (slen_nonneg e.1.2).
  change sizeof_json_string_s with 16 in *. change sizeof_json_value_s with 16 in *.
  rewrite He by lia. cbn [json_extract_get_string_size fst snd]. change sizeof_json_string_s with 16.
  rewrite (u64_small (a + 16)), (u64_small (b + _)) by lia. rewrite !u64_small by lia. rewrite IH by lia. f_equal; lia.
Qed.

Lemma item_sizes_ok sz l a b :
  Forall (fun e => sizeof_json_value_s + dom_of e.2 < W64 -> data_of e.2 < W64 -> sz e.2 = (sizeof_json_value_s + dom_of e.2, data_of e.2)) l ->
  0 <= a -> 0 <= b -> a + isum l < W64 -> b + item_data l < W64 ->
  foldl (fun s (e : option location * json_value_s) => let value_result := sz e.2 in (u64 (s.1 + value_result.1), u64 (s.2 + value_result.2))) (a, b) l =
  (a + isum l, b + item_data l).
Proof.
  intros Hl. revert a b. induction Hl as [|e l He _ IH]; intros a b Ha Hb H0 H1; [unfold isum; cbn; f_equal; lia|].
  cbn [foldl]. unfold isum in *. cbn [foldr] in *. fold (isum l) in *. pose proof (items_nonneg l). pose proof (sizes_nonneg e.2).
  change sizeof_json_value_s with 16 in *. rewrite He by lia. cbn [fst snd]. rewrite !u64_small by lia. rewrite IH by lia. f_equal; lia.
Qed.

Lemma extract_size_ok v :
  sizeof_json_value_s + dom_of v < W64 -> data_of v < W64 ->
  json_extract_get_value_size v = (sizeof_json_value_s + dom_of v, data_of v).
Proof.
  induction v as [s|s|l IH|l IH| | |] using json_value_nested_ind; intros H0 H1; try done.
  - rewrite dom_of_object in *. cbn [json_extract_get_value_size data_of] in *. unfold json_extract_get_object_size. pose proof (members_nonneg l).
    change sizeof_json_value_s with 16 in *. change sizeof_json_object_s with 16 in *. change sizeof_json_object_element_s with 24 in *. fold (vsize l) in *.
    assert (0 <= vsize l) by (unfold vsize; lia). rewrite (u64_small (16 + 24 * vsize l)) by lia. rewrite member_sizes_ok; [|done|lia|lia|lia|lia]. cbn [fst snd]. rewrite u64_small by lia. f_equal; lia.
  - rewrite dom_of_array in *. cbn [json_extract_get_value_size data_of] in *. unfold json_extract_get_array_size. pose proof (items_nonneg l).
    change sizeof_json_value_s with 16 in *. change sizeof_json_array_s with 16 in *. change sizeof_json_array_element_s with 16 in *. fold (vsize l) in *.
    assert (0 <= vsize l) by (unfold vsize; lia). rewrite (u64_small (16 + 16 * vsize l)) by lia. rewrite item_sizes_ok; [|done|lia|lia|lia|lia]. cbn [fst snd]. rewrite u64_small by lia. f_equal; lia.
Qed.

Section Fill.
Context (dom_end data_end : Z).
Abbreviation copies copy v := (forall st,
  es_dom st + sizeof_json_value_s + dom_of v <= dom_end -> es_data st + data_of v <= data_end ->
  copy v st = Ok (without_locations v, mkES (es_dom st + sizeof_json_value_s + dom_of v) (es_data st + data_of v))).

Lemma copy_dom_ok n st : es_dom st + n <= dom_end -> copy_dom dom_end n st = Ok (mkES (es_dom st + n) (es_data st)).
Proof. intros H. unfold copy_dom. by rewrite (proj2 (Z.leb_le _ _) H). Qed.
Lemma copy_data_ok n st : es_data st + n <= data_end -> copy_data data_end n st = Ok (mkES (es_dom st) (es_data st + n)).
Proof. intros H. unfold copy_data. by rewrite (proj2 (Z.leb_le _ _) H). Qed.

Lemma copy_members_ok copy l st :
  Forall (fun e => copies copy e.2.2) l ->
  es_dom st + msum l + sizeof_json_object_element_s * Z.of_nat (length l) <= dom_end -> es_data st + member_data l <= data_end ->
  copy_members dom_end data_end copy l st =
    Ok ((fun e => (None, e.1.2, (None, without_locations e.2.2))) <$> l,
        mkES (es_dom st + msum l + sizeof_json_object_element_s * Z.of_nat (length l)) (es_data st + member_data l)).
Proof.
  intros Hl. revert st. induction Hl as [|[[loc k] [loc' v]] l He _ IH]; intros st H0 H1; cbn [copy_members].
  { unfold msum. destruct st. cbn. repeat f_equal; lia. }
  unfold msum in *. cbn [foldr length fst snd] in *. fold (msum l) in *. pose proof (members_nonneg l). pose proof (sizes_nonneg v). pose proof (slen_nonneg k).
  change sizeof_json_string_s with 16 in *. change sizeof_json_value_s with 16 in *. change sizeof_json_object_element_s with 24 in *.
  rewrite copy_dom_ok by lia. cbn [rbind]. rewrite copy_dom_ok by (cbn [es_dom]; lia). cbn [rbind]. rewrite copy_data_ok by (cbn [es_data]; lia). cbn [rbind es_dom es_data].
  rewrite He by (cbn [es_dom es_data]; lia). cbn [rbind es_dom es_data]. rewrite IH by (cbn [es_dom es_data]; lia). cbn [rbind es_dom es_data fmap list_fmap fst snd].
  do 2 f_equal. f_equal; lia.
Qed.

Lemma copy_items_ok copy l st :
  Forall (fun e => copies copy e.2) l ->
  es_dom st + isum l + sizeof_json_array_element_s * Z.of_nat (length l) <= dom_end -> es_data st + item_data l <= data_end ->
  copy_items dom_end copy l st =
    Ok ((fun e => (None, without_locations e.2)) <$> l,
        mkES (es_dom st + isum l + sizeof_json_array_element_s * Z.of_nat (length l)) (es_data st + item_data l)).
Proof.
  intros Hl. revert st. induction Hl as [|[loc v] l He _ IH]; intros st H0 H1; cbn [copy_items].
  { unfold isum. destruct st. cbn. repeat f_equal; lia. }
  unfold isum in *. cbn [foldr length fst snd] in *. fold (isum l) in *. pose proof (items_nonneg l). pose proof (sizes_nonneg v).
  change sizeof_json_value_s with 16 in *. change sizeof_json_array_element_s with 16 in *.
  rewrite copy_dom_ok by lia. cbn [rbind]. rewrite He by (cbn [es_dom es_data]; lia). cbn [rbind es_dom es_data].
  rewrite IH by (cbn [es_dom es_data]; lia). cbn [rbind es_dom es_data fmap list_fmap fst snd]. do 2 f_equal. f_equal; lia.
Qed.

Lemma copy_value_ok v : copies (json_extract_copy_value dom_end data_end) v.
Proof.
  induction v as [s|s|l IH|l IH| | |] using json_value_nested_ind; intros st H0 H1; cbn [json_extract_copy_value].
  4: rewrite dom_of_array in *. 3: rewrite dom_of_object in *. all: cbn [dom_of data_of] in *.
  all: change sizeof_json_string_s with 16 in *; change sizeof_json_number_s with 16 in *; change sizeof_json_value_s with 16 in *;
    change sizeof_json_object_s with 16 in *; change sizeof_json_array_s with 16 in *;
    change sizeof_json_object_element_s with 24 in *; change sizeof_json_array_element_s with 16 in *.
  3: pose proof (members_nonneg l). 4: pose proof (items_nonneg l).
  all: rewrite copy_dom_ok by lia; cbn [rbind].
  5-7: rewrite !Z.add_0_r; reflexivity.
  1,2: rewrite copy_dom_ok by (cbn [es_dom]; lia); cbn [rbind]; rewrite copy_data_ok by (cbn [es_data]; lia); reflexivity.
  all: rewrite copy_dom_ok by (cbn [es_dom]; lia); cbn [rbind].
  - rewrite copy_members_ok; [|done|cbn [es_dom]; change sizeof_json_object_element_s with 24; lia|done]. cbn [rbind es_dom es_data without_locations].
    do 2 f_equal. f_equal. change sizeof_json_object_element_s with 24. lia.
  - rewrite copy_items_ok; [|done|cbn [es_dom]; change sizeof_json_array_element_s with 16; lia|done]. cbn [rbind es_dom es_data without_locations].
    do 2 f_equal. f_equal. change sizeof_json_array_element_s with 16. lia.
Qed.
End Fill.

(** An extracted value is the value without its locations, and fills the allocation exactly:
    the structures end where the characters start, and the characters where the allocation ends. *)
Lemma extracted_fills malloc v :
  sizeof_json_value_s + dom_of v + data_of v < W64 -> malloc (sizeof_json_value_s + dom_of v + data_of v) = true ->
  json_extract_value malloc (Some v) = Ok (Some (without_locations v)) /\
  let (dom, data) := json_extract_get_value_size v in
  json_extract_copy_value dom (dom + data) v (mkES 0 dom) = Ok (without_locations v, mkES dom (dom + data)).
Proof.
  intros H0 Hm. pose proof (sizes_nonneg v) as [? ?]. change sizeof_json_value_s with 16 in *.
  unfold json_extract_value. rewrite extract_size_ok; change sizeof_json_value_s with 16; [|lia|lia]. cbn [fst snd].
  rewrite u64_small by lia. rewrite Hm. cbn [negb]. rewrite copy_value_ok; change sizeof_json_value_s with 16; cbn [es_dom es_data]; [|lia|lia].
  split; [done|]. repeat f_equal; lia.
Qed.
