(* ===== verification/EasNaming.v ===== *)
(** The client of the EAS naming service ([src/eas_naming.cpp], [include/naming/eas_naming.h]):
    a cache of the published keys of every pod, refreshed from a listing of the pods and
    their versions.

    HTTP responses, the clock and the outcome of [malloc] are arguments; an operation returns the
    state it leaves also when it throws.  The texts are read by [Json.json_parse]; reading a
    value that is not of the expected JSON type, or the result for a text that is not JSON,
    follows a null pointer.  Locks are left out: an operation runs to its end. *)

From Stdlib Require Import Ascii String.
From stdpp Require Import gmap strings.
From S2P Require Import Prelude.
From S2P Require Import Common.
From S2P Require Import CppString.
From S2P Require Import Json.
From S2P Require Import JsonGrammar.
From S2P Require Import JsonSpec.

#[local] Arguments String.append !_ _ / : simpl nomatch.

(** ** JSON

    [json_value_as_object] and the walk over the linked elements of its result; [None] is a
    text that does not parse. *)
Definition fields (l : list (option location * string * (option location * json_value_s))) : list (string * json_value_s) :=
  (fun e => (e.1.2, e.2.2)) <$> l.

Definition as_object (v : option json_value_s) : res (list (string * json_value_s)) :=
  match v with
  | None => Err Undefined
  | Some v => match json_value_as_object v with Some l => Ok (fields l) | None => Err Undefined end
  end.

Definition as_string (v : json_value_s) : res string :=
  match json_value_as_string v with Some s => Ok s | None => Err Undefined end.

Definition EAS_VERSION_KEY : string := "__timestamp__".
Definition EAS_MAX_VALUE_LENGTH : Z := 2048.

(** ** [EASNamingCache] *)
Record EASNamingCache := mkCache {
  is_outdated_ : bool;
  version_ : Z;
  kv_ : gmap string string;
}.

Definition new_cache : EASNamingCache := mkCache false (-1) ∅.
Definition set_outdated (c : EASNamingCache) : EASNamingCache := mkCache true (version_ c) (kv_ c).
Definition get_value (key : string) (c : EASNamingCache) : option string := kv_ c !! key.
Definition search_value (pre : string) (c : EASNamingCache) : list string :=
  omap (fun kv : string * string => if String.prefix pre kv.1 then Some kv.2 else None) (map_to_list (kv_ c)).

(** The [long] version as a [uint32_t]. *)
Definition get_version (c : EASNamingCache) : Z := u32 (version_ c).

(** The members of a pod's object, one by one. *)
Fixpoint update_members (kvs : list (string * json_value_s)) (c : EASNamingCache) : EASNamingCache * res unit :=
  match kvs with
  | [] => (c, Ok tt)
  | (key, v) :: kvs =>
      match as_string v with
      | Err e => (c, Err e)
      | Ok value =>
          if String.eqb key EAS_VERSION_KEY then
            match stoi value with
            | Err e => (c, Err e)
            | Ok latest => update_members kvs (mkCache (is_outdated_ c) latest (kv_ c))
            end
          else update_members kvs (mkCache (is_outdated_ c) (version_ c) (<[key := value]> (kv_ c)))
      end
  end.

Section Eas.
Context (malloc : Z -> bool).

Definition update (str : string) (c : EASNamingCache) : EASNamingCache * res unit :=
  if is_outdated_ c then
    let c := mkCache false (version_ c) ∅ in
    match (let* inst := json_parse malloc str in as_object inst) with
    | Err e => (c, Err e)
    | Ok kvs => update_members kvs c
    end
  else (c, Ok tt).

(** ** [EASNamingClient] *)
Record EASNamingClient := mkEAS {
  cache_expire_ : Z;
  pods_ : gmap string EASNamingCache;
  instance_list_ : list string;
  watch_ms_ : Z;
}.

(** [connect]: [expire] is EAS_NAMING_CACHE_EXPIRE_TIME. *)
Definition eas_connect (schema : string) (expire : option string) (cl : EASNamingClient) : EASNamingClient * res unit :=
  if negb (String.eqb schema "eas") then (cl, Err RuntimeError) else
  match expire with
  | None => (cl, Ok tt)
  | Some t =>
      match stoi t with
      | Err e => (cl, Err e)
      | Ok time => (if 0 <? time then mkEAS (u32 time) (pods_ cl) (instance_list_ cl) (watch_ms_ cl) else cl, Ok tt)
      end
  end.

(** [store]: the body that is posted. *)
Definition eas_store (k v : string) : res string :=
  if EAS_MAX_VALUE_LENGTH <=? slen v then Err RuntimeError
  else let q := String (Ascii.ascii_of_nat 34) "" in
       Ok ("{" +:+ q +:+ k +:+ q +:+ ":" +:+ q +:+ v +:+ q +:+ "}").

(** The first member named [__timestamp__]. *)
Fixpoint find_version (kvs : list (string * json_value_s)) : option json_value_s :=
  match kvs with
  | [] => None
  | (key, v) :: kvs => if String.eqb key EAS_VERSION_KEY then Some v else find_version kvs
  end.

(** The versions of a listing. *)
Definition instance_latest (entries : list (string * json_value_s)) : res (gmap string Z) :=
  forM entries (fun entry latest =>
    let* pod_info := as_object (Some entry.2) in
    match find_version pod_info with
    | None => Ok latest
    | Some v =>
        let* text := as_string v in
        let* version := stoi text in
        Ok (<[entry.1 := u32 version]> latest)
    end) ∅.

(** Pods that are gone are dropped, new ones and those with a newer version are outdated. *)
Definition refresh_pods (latest : gmap string Z) (listed : list string) (pods : gmap string EASNamingCache)
    : gmap string EASNamingCache :=
  let pods := foldl (fun pods pod_name =>
    match latest !! pod_name with None => delete pod_name pods | Some _ => pods end) pods listed in
  foldl (fun pods pv =>
    match pods !! pv.1 with
    | None => <[pv.1 := set_outdated new_cache]> pods
    | Some c => if get_version c <? pv.2 then <[pv.1 := set_outdated c]> pods else pods
    end) pods (map_to_list latest).

(** [load]: at [clock1] and, under the lock, [clock2], with the answer to a listing. *)
Definition load (clock1 clock2 : Z) (resp : res (option string)) (cl : EASNamingClient) : EASNamingClient * res unit :=
  if negb (bool_decide (pods_ cl = ∅)) && (clock1 - watch_ms_ cl <? cache_expire_ cl) then (cl, Ok tt) else
  if (vsize (instance_list_ cl) =? 0) || (cache_expire_ cl <? clock2 - watch_ms_ cl) then
    match resp with
    | Err e => (cl, Err e)
    | Ok None => (cl, Ok tt)
    | Ok (Some body) =>
        let cl := mkEAS (cache_expire_ cl) (pods_ cl) (instance_list_ cl) clock2 in
        match (let* root := json_parse malloc body in let* entries := as_object root in instance_latest entries) with
        | Err e => (cl, Err e)
        | Ok latest =>
            let pods := refresh_pods latest (instance_list_ cl) (pods_ cl) in
            (mkEAS (cache_expire_ cl) pods (map_to_list pods).*1 (watch_ms_ cl), Ok tt)
        end
    end
  else (cl, Ok tt).

(** [get_pod_kv]: the cache of a pod, fetched when it is outdated. *)
Definition get_pod_kv (pod_name : string) (resp : res (option string)) (cl : EASNamingClient)
    : EASNamingClient * res (option EASNamingCache) :=
  match pods_ cl !! pod_name with
  | None => (cl, Ok None)
  | Some c =>
      if is_outdated_ c then
        match resp with
        | Err e => (cl, Err e)
        | Ok None => (cl, Ok None)
        | Ok (Some body) =>
            let '(c, r) := update body c in
            (mkEAS (cache_expire_ cl) (<[pod_name := c]> (pods_ cl)) (instance_list_ cl) (watch_ms_ cl),
             let* _ := r in Ok (Some c))
        end
      else (cl, Ok (Some c))
  end.

Definition eas_get (clock1 clock2 : Z) (listing pod : res (option string)) (inst k : string) (cl : EASNamingClient)
    : EASNamingClient * res (option string) :=
  let '(cl, r) := load clock1 clock2 listing cl in
  match r with
  | Err e => (cl, Err e)
  | Ok _ =>
      let '(cl, r) := get_pod_kv inst pod cl in
      (cl, let* c := r in Ok (match c with Some c => get_value k c | None => None end))
  end.

Definition eas_search (clock1 clock2 : Z) (listing pod : res (option string)) (inst pre : string) (cl : EASNamingClient)
    : EASNamingClient * res (list string) :=
  let '(cl, r) := load clock1 clock2 listing cl in
  match r with
  | Err e => (cl, Err e)
  | Ok _ =>
      let '(cl, r) := get_pod_kv inst pod cl in
      (cl, let* c := r in Ok (match c with Some c => search_value pre c | None => [] end))
  end.

Definition eas_list (clock1 clock2 : Z) (listing : res (option string)) (cl : EASNamingClient)
    : EASNamingClient * res (list string) :=
  let '(cl, r) := load clock1 clock2 listing cl in (cl, let* _ := r in Ok (instance_list_ cl)).

(** [remove] is not supported. *)
Definition eas_remove (key : string) : res unit := Err RuntimeError.

(** ** What a refresh leaves *)
Definition refreshed (v : Z) (c : option EASNamingCache) : option EASNamingCache :=
  match c with
  | None => Some (set_outdated new_cache)
  | Some c => Some (if get_version c <? v then set_outdated c else c)
  end.

Lemma drop_pods_lookup (latest : gmap string Z) listed (pods : gmap string EASNamingCache) p :
  foldl (fun pods pod_name => match latest !! pod_name with None => delete pod_name pods | Some _ => pods end) pods listed !! p
  = if bool_decide (p ∈ listed /\ latest !! p = None) then None else pods !! p.
Proof.
  revert pods. induction listed as [|q listed IH]; intros pods; cbn [foldl].
  { rewrite bool_decide_eq_false_2; [done|]. intros [Hin _]. set_solver. }
  rewrite IH. destruct (decide (p = q)) as [->|Hne].
  - destruct (latest !! q) eqn:Hq.
    + rewrite !bool_decide_eq_false_2; [done|by intros [_ ?]..].
    + rewrite (bool_decide_eq_true_2 (q ∈ q :: listed /\ _)) by (split; [set_solver|done]).
      case_bool_decide; [done|]. apply lookup_delete_eq.
  - assert ((p ∈ q :: listed /\ latest !! p = None) <-> (p ∈ listed /\ latest !! p = None)) as Hiff by set_solver.
    rewrite (bool_decide_ext _ _ Hiff). case_bool_decide; [done|].
    destruct (latest !! q); [done|]. by rewrite lookup_delete_ne.
Qed.

Lemma mark_pods_lookup (l : list (string * Z)) (pods : gmap string EASNamingCache) p :
  NoDup l.*1 ->
  foldl (fun pods pv =>
    match pods !! pv.1 with
    | None => <[pv.1 := set_outdated new_cache]> pods
    | Some c => if get_version c <? pv.2 then <[pv.1 := set_outdated c]> pods else pods
    end) pods l !! p
  = match (list_to_map l : gmap string Z) !! p with Some v => refreshed v (pods !! p) | None => pods !! p end.
Proof.
  revert pods. induction l as [|[q v] l IH]; intros pods Hnd; cbn [foldl fst snd fmap list_fmap] in *.
  { by rewrite list_to_map_nil, lookup_empty. }
  apply NoDup_cons in Hnd as [Hq Hnd]. rewrite IH, list_to_map_cons by done.
  destruct (decide (p = q)) as [->|Hne].
  - rewrite lookup_insert_eq, (not_elem_of_list_to_map_1 l q) by done. unfold refreshed.
    destruct (pods !! q) as [c|] eqn:Hc; [|by rewrite lookup_insert_eq].
    destruct (_ <? _); [by rewrite lookup_insert_eq|done].
  - rewrite lookup_insert_ne by done.
    assert (forall x, (match pods !! q with
      | None => <[q := set_outdated new_cache]> pods
      | Some c => if get_version c <? v then <[q := set_outdated c]> pods else pods
      end) !! p = x <-> pods !! p = x) as Hp.
    { intros x. destruct (pods !! q); [destruct (_ <? _)|]; by rewrite ?lookup_insert_ne. }
    destruct (list_to_map l !! p); [f_equal|]; by apply Hp.
Qed.

Lemma refresh_pods_lookup latest listed pods p :
  refresh_pods latest listed pods !! p =
  match latest !! p with
  | Some v => refreshed v (pods !! p)
  | None => if bool_decide (p ∈ listed) then None else pods !! p
  end.
Proof.
  unfold refresh_pods. rewrite mark_pods_lookup by apply NoDup_fst_map_to_list. rewrite list_to_map_to_list, drop_pods_lookup.
  destruct (latest !! p) as [v|]; [by rewrite bool_decide_eq_false_2 by (by intros [_ ?])|].
  do 2 case_bool_decide; tauto.
Qed.

(** ** The client's invariant *)
Definition eas_ok (cl : EASNamingClient) : Prop :=
  forall p, p ∈ instance_list_ cl <-> is_Some (pods_ cl !! p).

Lemma keys_of {A} (m : gmap string A) p : p ∈ (map_to_list m).*1 <-> is_Some (m !! p).
Proof.
  split.
  - intros ([i d] & -> & Hd%elem_of_map_to_list)%list_elem_of_fmap. by exists d.
  - intros [d Hd]. apply list_elem_of_fmap. exists (p, d). split; [done|]. by apply elem_of_map_to_list.
Qed.

Lemma load_ok c1 c2 resp cl : eas_ok cl -> eas_ok (load c1 c2 resp cl).1.
Proof.
  intros Hok. unfold load. destruct (_ && _); [done|]. destruct (_ || _); [|done].
  destruct resp as [[body|]|e]; [|done..]. destruct (let* _ := _ in _); [|done]. intros p. apply keys_of.
Qed.

Lemma get_pod_kv_ok p resp cl : eas_ok cl -> eas_ok (get_pod_kv p resp cl).1.
Proof.
  intros Hok. unfold get_pod_kv. destruct (pods_ cl !! p) as [c|] eqn:Hp; [|done]. destruct (is_outdated_ c); [|done].
  destruct resp as [[body|]|e]; [|done..]. destruct (update body c) as [c' r]. intros q. cbn.
  rewrite (Hok q). destruct (decide (q = p)) as [->|Hne]; [rewrite lookup_insert_eq, Hp; split; intros; by eexists|].
  by rewrite lookup_insert_ne.
Qed.

(** Any sequence of the client's operations. *)
Inductive eas_reachable : EASNamingClient -> Prop :=
| eas_start expire : eas_reachable (mkEAS expire ∅ [] 0)
| eas_after_load c1 c2 resp cl : eas_reachable cl -> eas_reachable (load c1 c2 resp cl).1
| eas_after_get p resp cl : eas_reachable cl -> eas_reachable (get_pod_kv p resp cl).1.

Lemma eas_reachable_ok cl : eas_reachable cl -> eas_ok cl.
Proof.
  induction 1 as [expire|c1 c2 resp cl _ IH|p resp cl _ IH]; [|by apply load_ok|by apply get_pod_kv_ok].
  intros p. cbn. rewrite lookup_empty. split; [set_solver|by intros []].
Qed.

(** ** Fetched values *)
Definition members_ok (kvs : list (string * json_value_s)) : Prop :=
  Forall (fun kv => exists s, kv.2 = json_string s /\ (kv.1 = EAS_VERSION_KEY -> exists n, stoi s = Ok n)) kvs.

(** The value of a member; the last one of a name counts. *)
Fixpoint member (kvs : list (string * json_value_s)) (k : string) (d : option string) : option string :=
  match kvs with
  | [] => d
  | (key, v) :: kvs => member kvs k (if String.eqb key k then match json_value_as_string v with Some s => Some s | None => d end else d)
  end.

Lemma member_numeric kvs d t :
  members_ok kvs -> (forall t', d = Some t' -> exists n, stoi t' = Ok n) ->
  member kvs EAS_VERSION_KEY d = Some t -> exists n, stoi t = Ok n.
Proof.
  intros Hk. revert d. induction Hk as [|[key v] kvs (s & Hs & Hver) Hk IH]; intros d Hd; cbn [member]; [by apply Hd|].
  cbn in Hs. subst v. cbn [json_value_as_string]. apply IH. destruct (String.eqb_spec key EAS_VERSION_KEY); [|done].
  intros ? [= <-]. by apply Hver.
Qed.

Lemma member_some kvs k s : member kvs k (Some s) <> None.
Proof.
  revert s. induction kvs as [|[key v] kvs IH]; intros s; cbn [member]; [done|].
  destruct (String.eqb key k); [destruct (json_value_as_string v)|]; apply IH.
Qed.

Lemma update_members_spec kvs c :
  members_ok kvs ->
  exists c', update_members kvs c = (c', Ok tt) /\ is_outdated_ c' = is_outdated_ c /\
    forall k, k <> EAS_VERSION_KEY -> get_value k c' = member kvs k (get_value k c).
Proof.
  intros Hk. revert c. induction Hk as [|[key v] kvs (s & Hs & Hver) Hk IH]; intros c; [by exists c|].
  cbn in Hs. subst v. cbn [update_members as_string json_value_as_string member]. destruct (String.eqb_spec key EAS_VERSION_KEY) as [->|Hne].
  - destruct Hver as [n Hn]; [done|]. rewrite Hn. destruct (IH (mkCache (is_outdated_ c) n (kv_ c))) as (c' & Hu & Ho & Hg).
    exists c'. split_and!; [done|done|]. intros k Hkv. rewrite Hg by done.
    destruct (String.eqb_spec EAS_VERSION_KEY k); [congruence|done].
  - destruct (IH (mkCache (is_outdated_ c) (version_ c) (<[key := s]> (kv_ c)))) as (c' & Hu & Ho & Hg).
    exists c'. split_and!; [done|done|]. intros k Hkv. rewrite Hg by done. f_equal. unfold get_value. cbn.
    destruct (String.eqb_spec key k) as [->|]; [apply lookup_insert_eq|by apply lookup_insert_ne].
Qed.

Lemma update_members_version kvs c :
  members_ok kvs ->
  version_ (update_members kvs c).1 =
  match member kvs EAS_VERSION_KEY None with
  | Some t => match stoi t with Ok n => n | Err _ => version_ c end
  | None => version_ c
  end.
Proof.
  intros Hk.
  assert (forall d c, match d with Some t => stoi t = Ok (version_ c) | None => True end ->
    version_ (update_members kvs c).1 =
      match member kvs EAS_VERSION_KEY d with Some t => match stoi t with Ok n => n | Err _ => version_ c end | None => version_ c end)
    as Hg; [|by apply (Hg None)].
  induction Hk as [|[key v] kvs (s & Hs & Hver) Hk IH]; intros d c' Hd; cbn [update_members member].
  { destruct d as [t|]; [|done]. by rewrite Hd. }
  cbn in Hs. subst v. cbn [as_string json_value_as_string]. destruct (String.eqb_spec key EAS_VERSION_KEY) as [->|Hne].
  - destruct Hver as [n Hn]; [done|]. rewrite Hn, (IH (Some s)) by done.
    destruct (member kvs EAS_VERSION_KEY (Some s)) as [t|] eqn:Em; [|by apply member_some in Em].
    destruct (member_numeric kvs (Some s) t Hk) as [m Hm]; [|done|by rewrite Hm]. by intros ? [= <-]; exists n.
  - rewrite (IH d) by done. done.
Qed.

(** [load] goes to the service. *)
Definition refreshes (c1 c2 : Z) (cl : EASNamingClient) : Prop :=
  negb (bool_decide (pods_ cl = ∅)) && (c1 - watch_ms_ cl <? cache_expire_ cl) = false /\
  (vsize (instance_list_ cl) =? 0) || (cache_expire_ cl <? c2 - watch_ms_ cl) = true.

(** ** What a listing says

    The version of a pod's object: its first member of that name. *)
Definition pod_version (kvs : list (string * json_value_s)) (n : Z) : Prop :=
  exists before t after, kvs = before ++ (EAS_VERSION_KEY, json_string t) :: after /\
    (EAS_VERSION_KEY ∉ before.*1) /\ stoi t = Ok n.

Definition unversioned (kvs : list (string * json_value_s)) : Prop := EAS_VERSION_KEY ∉ kvs.*1.

(** Every pod has an object, whose version is a number if it has one. *)
Definition listing_ok (entries : list (string * json_value_s)) : Prop :=
  Forall (fun e => exists kvs, e.2 = json_object kvs /\ (unversioned (fields kvs) \/ exists n, pod_version (fields kvs) n)) entries.

(** The listing has the pod [p] with version [v], and no later entry of that name has one. *)
Definition lists_pod (entries : list (string * json_value_s)) (p : string) (v : Z) : Prop :=
  exists before kvs after n, entries = before ++ (p, json_object kvs) :: after /\ pod_version (fields kvs) n /\ v = u32 n /\
    Forall (fun e => e.1 = p -> exists kvs', e.2 = json_object kvs' /\ unversioned (fields kvs')) after.

Lemma find_version_none kvs : unversioned kvs -> find_version kvs = None.
Proof.
  unfold unversioned. induction kvs as [|[key v] kvs IH]; [done|]. rewrite fmap_cons, not_elem_of_cons. intros [Hne Hn]. cbn in *.
  destruct (String.eqb_spec key EAS_VERSION_KEY); [congruence|by apply IH].
Qed.

Lemma find_version_some kvs n :
  pod_version kvs n -> exists t, find_version kvs = Some (json_string t) /\ stoi t = Ok n.
Proof.
  intros (before & t & after & -> & Hn & Ht). exists t. split; [|done]. induction before as [|[key v] before IH]; cbn.
  - done.
  - rewrite fmap_cons, not_elem_of_cons in Hn. destruct Hn as [Hne Hn]. cbn in Hne.
    destruct (String.eqb_spec key EAS_VERSION_KEY); [congruence|by apply IH].
Qed.

Lemma lists_pod_snoc entries e p v :
  lists_pod (entries ++ [e]) p v <->
  (e.1 = p /\ exists kvs n, e.2 = json_object kvs /\ pod_version (fields kvs) n /\ v = u32 n) \/
  (lists_pod entries p v /\ (e.1 = p -> exists kvs, e.2 = json_object kvs /\ unversioned (fields kvs))).
Proof.
  split.
  - intros (b & kvs & a & n & He & Hv & -> & Ha). destruct a as [|x a _] using rev_ind.
    + apply app_inj_tail in He as [-> ->]. left. split; [done|]. by exists kvs, n.
    + rewrite app_comm_cons, app_assoc in He. apply app_inj_tail in He as [-> ->]. apply Forall_app in Ha as [Ha Hx].
      rewrite Forall_singleton in Hx. right. split; [|done]. by exists b, kvs, a, n.
  - intros [(<- & kvs & n & He & Hv & ->)|((b & kvs & a & n & -> & Hv & -> & Ha) & Hx)].
    + exists entries, kvs, [], n. destruct e as [q w]. cbn in *. subst w. by split_and!; [|done|done|constructor].
    + exists b, kvs, (a ++ [e]), n. rewrite app_comm_cons, app_assoc. split_and!; try done.
      apply Forall_app. split; [done|by apply Forall_singleton].
Qed.

(** The versions [load] computes are those the listing says. *)
Lemma instance_latest_spec entries :
  listing_ok entries ->
  exists latest, instance_latest entries = Ok latest /\ forall p v, latest !! p = Some v <-> lists_pod entries p v.
Proof.
  unfold instance_latest. induction entries as [|e entries IH] using rev_ind; intros Hok.
  { exists ∅. split; [done|]. intros p v. rewrite lookup_empty. split; [done|]. by intros (b & ? & ? & ? & He & _); destruct b. }
  apply Forall_app in Hok as [Hok (kvs & He & Hver)%Forall_singleton]. destruct (IH Hok) as (latest & Hl & Hspec).
  rewrite forM_app, Hl. cbn [rbind forM]. rewrite He. cbn [as_object json_value_as_object rbind].
  assert (Hex : unversioned (fields kvs) -> forall n, ~ pod_version (fields kvs) n).
  { intros Hu n (b & t & a & Hk & _). apply Hu. rewrite Hk, fmap_app, elem_of_app. right. by left. }
  destruct Hver as [Hu|[n Hn]].
  - rewrite (find_version_none _ Hu). cbn [rbind]. exists latest. split; [done|]. intros p v. rewrite lists_pod_snoc, Hspec. split.
    + intros Hp. right. split; [done|]. intros _. by exists kvs.
    + intros [(_ & kvs' & n & Hk & Hv & _)|[Hp _]]; [|done]. rewrite He in Hk. injection Hk as <-. by destruct (Hex Hu n).
  - destruct (find_version_some _ _ Hn) as (t & Hf & Ht). rewrite Hf. cbn [as_string json_value_as_string rbind]. rewrite Ht. cbn [rbind].
    exists (<[e.1 := u32 n]> latest). split; [done|]. intros p v. rewrite lists_pod_snoc, lookup_insert_Some, Hspec. split.
    + intros [[<- <-]|[Hne Hp]]; [left; split; [done|]; by exists kvs, n|right; split; [done|congruence]].
    + intros [(<- & kvs' & n' & Hk & Hv & ->)|[Hp Hx]].
      * left. split; [done|]. rewrite He in Hk. injection Hk as <-.
        destruct (find_version_some _ _ Hv) as (t' & Hf' & Ht'). congruence.
      * right. split; [|done]. intros E. destruct (Hx E) as (kvs' & Hk & Hu). rewrite He in Hk. injection Hk as <-. by destruct (Hex Hu n).
Qed.

Lemma load_refreshed c1 c2 body entries latest cl :
  refreshes c1 c2 cl -> json_parse malloc body = Ok (Some (json_object entries)) -> instance_latest (fields entries) = Ok latest ->
  load c1 c2 (Ok (Some body)) cl =
  (let pods := refresh_pods latest (instance_list_ cl) (pods_ cl) in
   mkEAS (cache_expire_ cl) pods (map_to_list pods).*1 c2, Ok tt).
Proof.
  intros [H1 H2] Hp Hl. unfold load. rewrite H1, H2, Hp. cbn [as_object json_value_as_object rbind instance_list_ pods_ cache_expire_ watch_ms_].
  by rewrite Hl.
Qed.

(** C39: EAS naming: in every reachable state of the client, when the refresh is due and the
    service answers with a listing of pods whose version entries are numbers, the listing is
    loaded, and then the instance list and the cache hold exactly the pods that the listing
    gives a version, the last one where a pod is listed twice (pods listed without one are
    left out); the cached entry of a pod whose version has not grown is kept, and any other
    is marked, so that the next lookup of such a pod replaces its values by those of the
    service, if the version entries of the reply are numbers. *)
Theorem eas_cache_follows_service c1 c2 body entries cl :
  eas_reachable cl -> refreshes c1 c2 cl -> json_parse malloc body = Ok (Some (json_object entries)) ->
  listing_ok (fields entries) ->
  exists cl1, load c1 c2 (Ok (Some body)) cl = (cl1, Ok tt) /\
    (forall p, p ∈ instance_list_ cl1 <-> exists v, lists_pod (fields entries) p v) /\
    (forall p, is_Some (pods_ cl1 !! p) <-> exists v, lists_pod (fields entries) p v) /\
    forall p v, lists_pod (fields entries) p v ->
      (forall c, pods_ cl !! p = Some c -> v <= get_version c -> pods_ cl1 !! p = Some c) /\
      ((forall c, pods_ cl !! p = Some c -> get_version c < v) ->
       forall pod_body kvs, json_parse malloc pod_body = Ok (Some (json_object kvs)) -> members_ok (fields kvs) ->
       exists cl2 c', get_pod_kv p (Ok (Some pod_body)) cl1 = (cl2, Ok (Some c')) /\
         pods_ cl2 !! p = Some c' /\ is_outdated_ c' = false /\
         forall k, k <> EAS_VERSION_KEY -> get_value k c' = member (fields kvs) k None).
Proof.
  intros Hcl Href Hp Hlok. pose proof (eas_reachable_ok cl Hcl) as Hok.
  destruct (instance_latest_spec _ Hlok) as (latest & Hl & Hspec).
  assert (Hsome : forall p, is_Some (latest !! p) <-> exists v, lists_pod (fields entries) p v).
  { intros p. split; [intros [v Hv%Hspec]|intros [v Hv%Hspec]]; by exists v. }
  rewrite (load_refreshed _ _ _ _ _ _ Href Hp Hl).
  set (pods := refresh_pods latest (instance_list_ cl) (pods_ cl)). cbn zeta.
  assert (forall p, is_Some (pods !! p) <-> is_Some (latest !! p)) as Hdom.
  { intros p. unfold pods. rewrite refresh_pods_lookup. destruct (latest !! p) as [v|].
    - unfold refreshed. split; [done|]. intros _. by destruct (pods_ cl !! p).
    - case_bool_decide as Hin; [done|]. rewrite (Hok p) in Hin. destruct (pods_ cl !! p); [|done]. exfalso. apply Hin. by eexists. }
  eexists. split; [done|]. cbn. split_and!; [intros p; by rewrite keys_of, Hdom|intros p; by rewrite Hdom|].
  intros p v Hv%Hspec. assert (pods !! p = refreshed v (pods_ cl !! p)) as Hpp by (unfold pods; by rewrite refresh_pods_lookup, Hv).
  split.
  - intros c Hc Hle. rewrite Hpp, Hc. cbn. by rewrite (proj2 (Z.ltb_ge _ _)).
  - intros Hnew pod_body kvs Hb Hm.
    assert (exists c, pods !! p = Some c /\ is_outdated_ c = true) as (c & Hc & Ho).
    { rewrite Hpp. destruct (pods_ cl !! p) as [c|] eqn:E; [|by eexists]. cbn. rewrite (proj2 (Z.ltb_lt _ _)) by (by apply Hnew). by eexists. }
    unfold get_pod_kv. cbn [pods_]. rewrite Hc, Ho. unfold update. rewrite Ho, Hb. cbn [rbind as_object json_value_as_object].
    destruct (update_members_spec (fields kvs) (mkCache false (version_ c) ∅) Hm) as (c' & Hu & Ho' & Hg).
    rewrite Hu. eexists _, c'. split; [done|]. split_and!; [apply lookup_insert_eq|done|].
    intros k Hk. rewrite Hg by done. unfold get_value. cbn. by rewrite lookup_empty.
Qed.

(** A pod whose own object has no version keeps the initial -1, which reads as the largest
    version there is: what it publishes later is never fetched. *)
Lemma unversioned_pod_is_never_refreshed c1 c2 body entries latest cl p c v :
  refreshes c1 c2 cl -> json_parse malloc body = Ok (Some (json_object entries)) -> instance_latest (fields entries) = Ok latest ->
  latest !! p = Some v -> v < W32 -> pods_ cl !! p = Some c -> version_ c = -1 ->
  pods_ (load c1 c2 (Ok (Some body)) cl).1 !! p = Some c.
Proof.
  intros Href Hp Hl Hv Hlt Hc Hver. rewrite (load_refreshed _ _ _ _ _ _ Href Hp Hl). cbn.
  rewrite refresh_pods_lookup, Hv, Hc. cbn. unfold get_version. rewrite Hver.
  destruct (Z.ltb_spec (u32 (-1)) v) as [Hx|]; [|done]. change (u32 (-1)) with (W32 - 1) in Hx. lia.
Qed.
End Eas.

(** ** Published values

    The members of an object in the form [store] posts one, and the object of several. *)
Definition member_text (kv : string * string) : string :=
  let q := String (Ascii.ascii_of_nat 34) "" in q +:+ kv.1 +:+ q +:+ ":" +:+ q +:+ kv.2 +:+ q.

Fixpoint members_text (kvs : list (string * string)) : string :=
  match kvs with
  | [] => ""
  | [kv] => member_text kv
  | kv :: kvs => member_text kv +:+ "," +:+ members_text kvs
  end.

Definition object_text (kvs : list (string * string)) : string := "{" +:+ members_text kvs +:+ "}".

(** Names and values without quotes, backslashes, line breaks, tabs and zero bytes. *)
Definition plain_text (s : string) : bool := forallb plain (list_ascii_of_string s).

(** The value published last under a name. *)
Definition published (kvs : list (string * string)) (k : string) : option string :=
  foldl (fun d kv => if String.eqb kv.1 k then Some kv.2 else d) None kvs.

Lemma list_ascii_app s t : list_ascii_of_string (s +:+ t) = list_ascii_of_string s ++ list_ascii_of_string t.
Proof. induction s as [|c s IH]; cbn; [done|]. by rewrite IH. Qed.

Lemma plain_chars l : forallb plain l = true -> jchars 0 l l (Z.of_nat (length l)).
Proof.
  induction l as [|c l IH]; cbn; [constructor|]. intros [Hc Hl]%andb_true_iff.
  rewrite Nat2Z.inj_succ, <- Z.add_1_l. apply chars_plain; auto.
Qed.

Lemma member_text_list kv :
  list_ascii_of_string (member_text kv) =
  quote :: list_ascii_of_string kv.1 ++ quote :: ":"%char :: quote :: list_ascii_of_string kv.2 ++ [quote].
Proof. unfold member_text. rewrite !list_ascii_app. done. Qed.

Definition text_member (kv : string * string) : option location * string * (option location * json_value_s) :=
  (None, kv.1, (None, json_string kv.2)).

(** The rest of an object after a member, in the form [store] posts it. *)
Lemma members_rest kvs :
  Forall (fun kv => plain_text kv.1 = true /\ plain_text kv.2 = true) kvs ->
  exists n, jmembers true (match kvs with [] => [] | _ => [","%char] end ++ list_ascii_of_string (members_text kvs) ++ ["}"%char])
    (text_member <$> kvs) n.
Proof.
  induction 1 as [|[k v] kvs [Hk Hv] _ [n IH]]; [exists 0; apply (members_end true []); constructor|].
  apply plain_chars in Hk, Hv. cbn [fst snd] in *.
  pose proof (members_next [] [] _ _ [] [] _ _ _ _ _ _ _ (List.Forall_nil _) (List.Forall_nil _) Hk (List.Forall_nil _) (List.Forall_nil _)
    (value_string _ _ _ Hv) IH) as H. eexists.
  replace (text_member <$> (k, v) :: kvs) with
    (jmember (list_ascii_of_string k) (json_string (string_of_list_ascii (list_ascii_of_string v))) :: (text_member <$> kvs)).
  2: { cbn [fmap list_fmap]. f_equal. unfold jmember. by rewrite !string_of_list_ascii_of_string. }
  match type of H with jmembers _ ?t _ _ => match goal with |- jmembers _ ?u _ _ => replace u with t; [exact H|] end end.
  cbn [app]. f_equal. destruct kvs as [|kv kvs]; cbn [members_text];
    rewrite ?list_ascii_app, member_text_list; cbn [list_ascii_of_string app fst snd];
    repeat (rewrite <- ?app_assoc, <- ?app_comm_cons); done.
Qed.

Lemma object_text_parses kvs malloc :
  Forall (fun kv => plain_text kv.1 = true /\ plain_text kv.2 = true) kvs ->
  (forall n, malloc n = true) -> slen (object_text kvs) < 2 ^ 58 ->
  json_parse malloc (object_text kvs) = Ok (Some (json_object (text_member <$> kvs))).
Proof.
  intros Hp Hm Hlen. destruct (json_parse_total malloc (object_text kvs) Hlen) as (r & Hr & Hv).
  rewrite Hr. f_equal. apply Hv.
  assert (exists n, jmembers false (list_ascii_of_string (members_text kvs) ++ ["}"%char]) (text_member <$> kvs) n) as [n Hn].
  { destruct kvs as [|kv kvs]; [exists 0; apply (members_end false []); constructor|].
    destruct (members_rest _ Hp) as [n Hn]. exists n. apply (members_tail_first _ _ _ Hn). }
  exists n. split; [|apply Hm]. exists [], (list_ascii_of_string (object_text kvs)), [].
  split_and!; [by rewrite app_nil_r|constructor|constructor|]. left. unfold object_text. rewrite !list_ascii_app. by apply value_object.
Qed.

Lemma member_published kvs k d :
  member (fields (text_member <$> kvs)) k d = foldl (fun d kv => if String.eqb kv.1 k then Some kv.2 else d) d kvs.
Proof. revert d. induction kvs as [|kv kvs IH]; intros d; cbn; [done|]. apply IH. Qed.

Lemma update_members_stops kvs t after e c :
  members_ok kvs -> stoi t = Err e -> (update_members (kvs ++ (EAS_VERSION_KEY, json_string t) :: after) c).2 = Err e.
Proof.
  intros Hk Ht. revert c. induction Hk as [|[key v] kvs (s & Hs & Hver) Hk IH]; intros c; cbn [update_members app].
  { cbn [as_string json_value_as_string]. by rewrite String.eqb_refl, Ht. }
  cbn in Hs. subst v. cbn [as_string json_value_as_string]. destruct (String.eqb_spec key EAS_VERSION_KEY) as [->|]; [|apply IH].
  destruct Hver as [n ->]; [done|]. apply IH.
Qed.

Lemma text_members_ok kvs :
  Forall (fun kv => kv.1 = EAS_VERSION_KEY -> exists n, stoi kv.2 = Ok n) kvs -> members_ok (fields (text_member <$> kvs)).
Proof.
  intros Hver. unfold members_ok, fields. rewrite !Forall_fmap. eapply Forall_impl; [exact Hver|]. intros kv Hkv. by exists kv.2.
Qed.

(** C33: EAS naming: the object store posts for a name and a value below its length limit is
    one of the form read here, and any object of names and values without characters JSON
    escapes, shorter than 2^58 bytes, is read back by update of an outdated cache through
    the JSON reader, if the allocations succeed. When every value of the version key is a
    number, update returns and the cache holds for every other name the value published
    last, and the version published last or, without one, the version it had; when the first
    value of the version key that is not a number makes stoi throw, update throws that
    error. *)
Theorem published_values_are_read malloc kvs c :
  Forall (fun kv => plain_text kv.1 = true /\ plain_text kv.2 = true) kvs ->
  (forall n, malloc n = true) -> slen (object_text kvs) < 2 ^ 58 -> is_outdated_ c = true ->
  (forall k v, slen v < EAS_MAX_VALUE_LENGTH -> eas_store k v = Ok (object_text [(k, v)])) /\
  (Forall (fun kv => kv.1 = EAS_VERSION_KEY -> exists n, stoi kv.2 = Ok n) kvs ->
   exists c', update malloc (object_text kvs) c = (c', Ok tt) /\ is_outdated_ c' = false /\
     (forall k, k <> EAS_VERSION_KEY -> get_value k c' = published kvs k) /\
     match published kvs EAS_VERSION_KEY with
     | Some t => stoi t = Ok (version_ c')
     | None => version_ c' = version_ c
     end) /\
  (forall before t after e, kvs = before ++ (EAS_VERSION_KEY, t) :: after ->
     Forall (fun kv => kv.1 = EAS_VERSION_KEY -> exists n, stoi kv.2 = Ok n) before -> stoi t = Err e ->
     (update malloc (object_text kvs) c).2 = Err e).
Proof.
  intros Hp Hm Hlen Hout. split_and!.
  { intros k v Hv. unfold eas_store. rewrite (proj2 (Z.leb_gt _ _)) by done. f_equal. unfold object_text, members_text, member_text.
    cbn [fst snd]. by rewrite !sapp_assoc. }
  - intros Hver%text_members_ok. unfold update. rewrite Hout, object_text_parses by done. cbn [rbind as_object json_value_as_object].
    pose proof (update_members_version (fields (text_member <$> kvs)) (mkCache false (version_ c) ∅) Hver) as Hv.
    destruct (update_members_spec (fields (text_member <$> kvs)) (mkCache false (version_ c) ∅) Hver) as (c' & Hu & Ho & Hg).
    exists c'. rewrite Hu in Hv |- *. split_and!; [done|done|..].
    + intros k Hk. rewrite Hg by done. unfold get_value. cbn. rewrite lookup_empty. apply member_published.
    + cbn [fst] in Hv. unfold published. rewrite <- member_published.
      destruct (member _ EAS_VERSION_KEY None) as [t|] eqn:Et; [|done].
      destruct (member_numeric _ None t Hver) as [n Hn]; [done|done|]. rewrite Hn in Hv |- *. by rewrite Hv.
  - intros before t after e -> Hver%text_members_ok Ht. unfold update. rewrite Hout, object_text_parses by done.
    cbn [rbind as_object json_value_as_object]. unfold fields. rewrite !fmap_app, !fmap_cons. by apply update_members_stops.
Qed.

(** A value with a quote in it is posted as it is: the text is not JSON, and a reader of the pod
    follows a null pointer. *)
Lemma unescaped_value_crashes_readers malloc c :
  is_outdated_ c = true ->
  exists t, eas_store "worker_0" (String (Ascii.ascii_of_nat 34) "") = Ok t /\ (update malloc t c).2 = Err Undefined.
Proof. intros H. eexists. split; [reflexivity|]. unfold update. by rewrite H. Qed.

(** ** Example *)
(** The texts of the example, written with single quotes. *)
Definition quoted (s : string) : string :=
  string_of_list_ascii ((fun c => if Ascii.eqb c "'" then "034"%char else c) <$> list_ascii_of_string s).
Definition sample_listing : string := quoted "{'decode-0': {'__timestamp__': '7'}, 'decode-1': {}}".
Definition sample_pod : string := quoted "{'worker_0': 'w0', '__timestamp__': '7'}".
Definition always (n : Z) : bool := true.

Lemma eas_cache_follows_service_witness :
  exists cl1 cl2 c',
    load always 5 5 (Ok (Some sample_listing)) (mkEAS 1 ∅ [] 0) = (cl1, Ok tt) /\
    get_pod_kv always "decode-0" (Ok (Some sample_pod)) cl1 = (cl2, Ok (Some c')) /\
    get_value "worker_0" c' = Some "w0".
Proof.
  destruct (eas_cache_follows_service always 5 5 sample_listing
    [(None, "decode-0", (None, json_object [(None, "__timestamp__", (None, json_string "7"))]));
     (None, "decode-1", (None, json_object []))] (mkEAS 1 ∅ [] 0))
    as (cl1 & Hl & _ & _ & Hp).
  - apply eas_start.
  - split; reflexivity.
  - vm_compute. reflexivity.
  - constructor; [|constructor; [|constructor]]; (eexists; split; [reflexivity|]).
    + right. exists 7, [], "7", []. split_and!; [done|apply not_elem_of_nil|reflexivity].
    + left. apply not_elem_of_nil.
  - destruct (Hp "decode-0" 7) as [_ Hf].
    { exists [], [(None, "__timestamp__", (None, json_string "7"))], [("decode-1", json_object [])], 7. split_and!; [done| |done|].
      - exists [], "7", []. split_and!; [done|apply not_elem_of_nil|reflexivity].
      - constructor; [|constructor]. intros [=]. }
    destruct (Hf) with (pod_body := sample_pod)
      (kvs := [text_member ("worker_0", "w0"); text_member ("__timestamp__", "7")])
      as (cl2 & c' & Hg & _ & _ & Hv); [by intros c|vm_compute; reflexivity| |].
    + repeat constructor; cbn; eexists; (split; [reflexivity|]); [done|intros _; by exists 7].
    + exists cl1, cl2, c'. split_and!; [exact Hl|exact Hg|]. by rewrite Hv.
Defined.

Lemma published_values_are_read_witness :
  (exists c', update always (object_text [("worker_0", "w0"); ("worker_1", "w1"); ("__timestamp__", "7")]) (set_outdated new_cache)
      = (c', Ok tt) /\ get_value "worker_1" c' = Some "w1" /\ stoi "7" = Ok (version_ c')) /\
  (update always (object_text [("worker_0", "w0"); ("__timestamp__", "abc")]) (set_outdated new_cache)).2 = Err InvalidArgument.
Proof.
  split.
  - destruct (published_values_are_read always [("worker_0", "w0"); ("worker_1", "w1"); ("__timestamp__", "7")] (set_outdated new_cache))
      as (_ & Hr & _); [by repeat constructor|reflexivity|vm_compute; reflexivity|reflexivity|].
    destruct Hr as (c' & Hu & _ & Hg & Hv).
    + repeat constructor; cbn; intros H; try discriminate H. by exists 7.
    + exists c'. split_and!; [exact Hu|by rewrite Hg|exact Hv].
  - destruct (published_values_are_read always [("worker_0", "w0"); ("__timestamp__", "abc")] (set_outdated new_cache))
      as (_ & _ & Hf); [by repeat constructor|reflexivity|vm_compute; reflexivity|reflexivity|].
    rewrite (Hf [("worker_0", "w0")] "abc" [] InvalidArgument); [reflexivity|reflexivity|by repeat constructor|reflexivity].
Defined.
