(* ===== verification/CopySpec.v ===== *)
(** Abstract meaning of a send: the byte copies its records stand for, and the effect
    of performing them on the destination memory. *)

From S2P Require Import Prelude Common.

(** ** Byte copies *)

(** The (source address, destination address) pairs of one record. *)
Definition block_bytes (blk : IpcBlock) : list (Z * Z) :=
  (fun k => (src_offset blk + k, dst_offset blk + k)) <$> seqZ 0 (length_ blk).

Definition bytes_of (blocks : list IpcBlock) : list (Z * Z) := flat_map block_bytes blocks.

Definition dst_bytes (blocks : list IpcBlock) : list Z := (bytes_of blocks).*2.
Definition src_bytes (blocks : list IpcBlock) : list Z := (bytes_of blocks).*1.

(** Memories are total functions from addresses to byte values. *)
Definition memory := Z -> Z.
Definition store (m : memory) (a v : Z) : memory := fun x => if x =? a then v else m x.

(** Perform byte copies in order. *)
Definition exec_bytes (src : memory) (l : list (Z * Z)) (dst : memory) : memory :=
  foldl (fun m sd => store m sd.2 (src sd.1)) dst l.
Definition exec_copy (src : memory) (blocks : list IpcBlock) (dst : memory) : memory :=
  exec_bytes src (bytes_of blocks) dst.

(** ** Lemmas *)

Lemma bytes_of_app u v : bytes_of (u ++ v) = bytes_of u ++ bytes_of v.
Proof. apply flat_map_app. Qed.

Lemma bytes_of_singleton blk : bytes_of [blk] = block_bytes blk.
Proof. unfold bytes_of. simpl. apply app_nil_r. Qed.

(** Consecutive ranges of one length tile the range they span. *)
Lemma seqZ_tile base k lo m :
  0 <= k -> 0 <= m ->
  flat_map (fun i => seqZ (base + i * k) k) (seqZ lo m) = seqZ (base + lo * k) (m * k).
Proof.
  intros Hk Hm. rewrite <- (Z2Nat.id m) by done. generalize (Z.to_nat m) as j. clear m Hm.
  induction j as [|j IH]; [done|].
  rewrite seqZ_S, flat_map_app, IH. simpl. rewrite app_nil_r.
  replace (Z.of_nat (S j) * k) with (Z.of_nat j * k + k) by lia.
  rewrite seqZ_app by lia. do 2 f_equal. lia.
Qed.

Lemma block_bytes_split s d a c :
  0 <= a -> 0 <= c ->
  block_bytes (mkIpcBlock s d (a + c)) =
  block_bytes (mkIpcBlock s d a) ++ block_bytes (mkIpcBlock (s + a) (d + a) c).
Proof.
  intros. unfold block_bytes; simpl. rewrite seqZ_app, fmap_app by done. f_equal.
  replace (0 + a) with (a + 0) by lia.
  rewrite <- fmap_add_seqZ, <- list_fmap_compose. apply list_fmap_ext. intros. simpl.
  f_equal; lia.
Qed.

(** A record over a run of [c] rows of [ts] bytes is the rows' records in order. *)
Lemma bytes_of_run s d ts c :
  0 <= ts -> 0 <= c ->
  bytes_of [mkIpcBlock s d (c * ts)] =
  bytes_of ((fun i => mkIpcBlock (s + i * ts) (d + i * ts) ts) <$> seqZ 0 c).
Proof.
  intros Hts Hc. rewrite <- (Z2Nat.id c) by done. generalize (Z.to_nat c) as j. clear c Hc.
  induction j as [|j IH]; [done|].
  rewrite seqZ_S, fmap_app, bytes_of_app, <- IH, list_fmap_singleton, Z.add_0_l.
  rewrite !bytes_of_singleton.
  replace (Z.of_nat (S j) * ts) with (Z.of_nat j * ts + ts) by lia.
  by apply block_bytes_split; lia.
Qed.

Lemma dst_bytes_app u v : dst_bytes (u ++ v) = dst_bytes u ++ dst_bytes v.
Proof. unfold dst_bytes. by rewrite bytes_of_app, fmap_app. Qed.

Lemma dst_bytes_singleton blk : dst_bytes [blk] = seqZ (dst_offset blk) (length_ blk).
Proof.
  unfold dst_bytes. rewrite bytes_of_singleton. unfold block_bytes.
  rewrite <- list_fmap_compose.
  rewrite (list_fmap_ext _ (Z.add (dst_offset blk))) by done.
  rewrite fmap_add_seqZ. f_equal. lia.
Qed.

Lemma dst_bytes_map {A} (f : A -> IpcBlock) l :
  dst_bytes (f <$> l) = flat_map (fun x => seqZ (dst_offset (f x)) (length_ (f x))) l.
Proof.
  induction l as [|x l IH]; [done|].
  change (f <$> x :: l) with ([f x] ++ (f <$> l)).
  by rewrite dst_bytes_app, dst_bytes_singleton, IH.
Qed.

Lemma src_bytes_app u v : src_bytes (u ++ v) = src_bytes u ++ src_bytes v.
Proof. unfold src_bytes. by rewrite bytes_of_app, fmap_app. Qed.

Lemma src_bytes_singleton blk : src_bytes [blk] = seqZ (src_offset blk) (length_ blk).
Proof.
  unfold src_bytes. rewrite bytes_of_singleton. unfold block_bytes.
  rewrite <- list_fmap_compose.
  rewrite (list_fmap_ext _ (Z.add (src_offset blk))) by done.
  rewrite fmap_add_seqZ. f_equal. lia.
Qed.

Lemma src_bytes_map {A} (f : A -> IpcBlock) l :
  src_bytes (f <$> l) = flat_map (fun x => seqZ (src_offset (f x)) (length_ (f x))) l.
Proof.
  induction l as [|x l IH]; [done|].
  change (f <$> x :: l) with ([f x] ++ (f <$> l)).
  by rewrite src_bytes_app, src_bytes_singleton, IH.
Qed.

(** Moving records as a whole moves their byte copies. *)
Definition shift_block (ds dd : Z) (blk : IpcBlock) : IpcBlock :=
  mkIpcBlock (src_offset blk + ds) (dst_offset blk + dd) (length_ blk).

Lemma bytes_of_shift ds dd l :
  bytes_of (shift_block ds dd <$> l) = (fun sd => (sd.1 + ds, sd.2 + dd)) <$> bytes_of l.
Proof.
  induction l as [|x l IH]; [done|].
  change (shift_block ds dd <$> x :: l) with ([shift_block ds dd x] ++ (shift_block ds dd <$> l)).
  change (x :: l) with ([x] ++ l).
  rewrite !bytes_of_app, IH, fmap_app, !bytes_of_singleton. f_equal.
  unfold block_bytes, shift_block; simpl. rewrite <- list_fmap_compose.
  apply list_fmap_ext. intros. simpl. f_equal; lia.
Qed.

Lemma bytes_of_shift_map {A} ds dd (f : A -> IpcBlock) l :
  bytes_of ((fun x => shift_block ds dd (f x)) <$> l)
  = (fun sd => (sd.1 + ds, sd.2 + dd)) <$> bytes_of (f <$> l).
Proof. rewrite <- bytes_of_shift, <- list_fmap_compose. done. Qed.

(** ** Memory effect *)

Lemma exec_bytes_app src l1 l2 dst :
  exec_bytes src (l1 ++ l2) dst = exec_bytes src l2 (exec_bytes src l1 dst).
Proof. apply foldl_app. Qed.

Lemma exec_bytes_frame src l dst a : a ∉ l.*2 -> exec_bytes src l dst a = dst a.
Proof.
  revert dst. induction l as [|[s d] l IH]; intros dst Ha; [done|]. simpl in *.
  rewrite not_elem_of_cons in Ha. destruct Ha as [Hne Ha].
  unfold exec_bytes in *. simpl. rewrite IH by done. unfold store. simpl.
  destruct (Z.eqb_spec a d); done.
Qed.

(** When no destination byte is written twice, every copied byte arrives. *)
Lemma exec_bytes_written src l dst s d :
  NoDup l.*2 -> (s, d) ∈ l -> exec_bytes src l dst d = src s.
Proof.
  revert dst. induction l as [|[s' d'] l IH]; intros dst Hnd Hin; [by apply elem_of_nil in Hin|].
  simpl in Hnd. apply NoDup_cons in Hnd as [Hd Hnd].
  unfold exec_bytes. simpl. fold (exec_bytes src l (store dst d' (src s'))).
  apply elem_of_cons in Hin as [[= -> ->]|Hin].
  - rewrite exec_bytes_frame by done. unfold store. by rewrite Z.eqb_refl.
  - by apply IH.
Qed.

(** ** Membership *)

Lemma elem_of_block_bytes blk s a :
  (s, a) ∈ block_bytes blk <->
  exists k, 0 <= k < length_ blk /\ s = src_offset blk + k /\ a = dst_offset blk + k.
Proof.
  unfold block_bytes. rewrite list_elem_of_fmap. split.
  - intros (k & [= -> ->] & Hk). rewrite elem_of_seqZ in Hk. exists k. lia.
  - intros (k & Hk & -> & ->). exists k. rewrite elem_of_seqZ. split; [done|lia].
Qed.

Lemma elem_of_bytes_of recs p :
  p ∈ bytes_of recs <-> exists blk, blk ∈ recs /\ p ∈ block_bytes blk.
Proof.
  unfold bytes_of. rewrite list_elem_of_In, in_flat_map. by setoid_rewrite list_elem_of_In.
Qed.

Lemma elem_of_bytes_map {A} (f : A -> IpcBlock) l s a :
  (s, a) ∈ bytes_of (f <$> l) <->
  exists t k, t ∈ l /\ 0 <= k < length_ (f t) /\
    s = src_offset (f t) + k /\ a = dst_offset (f t) + k.
Proof.
  rewrite elem_of_bytes_of. split.
  - intros (blk & Hb & Hp). apply list_elem_of_fmap in Hb as (t & -> & Ht).
    apply elem_of_block_bytes in Hp as (k & Hk). eauto.
  - intros (t & k & Ht & Hk). exists (f t). split; [by apply list_elem_of_fmap_2|].
    apply elem_of_block_bytes. eauto.
Qed.
