(* ===== verification/ParseCommon.v ===== *)
(** The emitters every cache shape is built from: [append_ipc_block_checked]
    ([include/parse_block_common.h]) and [src/parse_block_common.cpp]. *)

From S2P Require Import Prelude Common.

Record IpcBlockBounds := mkBounds {
  src_capacity : Z;
  dst_capacity : Z;
  src_length_scale : Z;
  cache_idx : Z;
}.

(** Append one copy record after checking both of its ranges.  The three numbers are
    [size_t] parameters. *)
Definition append_ipc_block_checked (blocks : list IpcBlock) (bounds : IpcBlockBounds)
    (src_off dst_off len : Z) : res (list IpcBlock) :=
  let src_off := u64 src_off in
  let dst_off := u64 dst_off in
  let len := u64 len in
  let src_length_overflow :=
    (src_length_scale bounds =? 0) || (SIZE_MAX / src_length_scale bounds <? len) in
  let effective_src_length :=
    if src_length_overflow then SIZE_MAX else u64 (len * src_length_scale bounds) in
  let src_invalid :=
    (len =? 0) || src_length_overflow || (src_capacity bounds <? src_off)
    || (u64 (src_capacity bounds - src_off) <? effective_src_length) in
  let dst_invalid :=
    (len =? 0) || (dst_capacity bounds <? dst_off)
    || (u64 (dst_capacity bounds - dst_off) <? len) in
  if src_invalid || dst_invalid then Err OutOfRange
  else Ok (blocks ++ [mkIpcBlock src_off dst_off len]).

(** [append_ipc_block_checked(blocks, bounds, swap ? d : p, swap ? p : d, len)]. *)
Definition append_sided (swap_offsets : bool) (bounds : IpcBlockBounds)
    (p_off d_off len : Z) (blocks : list IpcBlock) : res (list IpcBlock) :=
  append_ipc_block_checked blocks bounds
    (if swap_offsets then d_off else p_off) (if swap_offsets then p_off else d_off) len.

Definition checked_layer_capacity (info : WorkerInfo) (cache_idx : Z) : res Z :=
  if (vsize (block_sizes info) <=? cache_idx) || (layer_num_blocks info =? 0)
  then Err OutOfRange else
  let* block_size := vec_idx (block_sizes info) cache_idx in
  if SIZE_MAX / layer_num_blocks info <? block_size then Err OverflowError else
  Ok (u64 (block_size * layer_num_blocks info)).

Section WithEnv.
Context `{Env}.

Definition make_ipc_block_bounds (src dst : WorkerInfo) (cache_idx : Z) : res IpcBlockBounds :=
  let* src_cap := checked_layer_capacity src cache_idx in
  let* dst_cap := checked_layer_capacity dst cache_idx in
  Ok (mkBounds src_cap dst_cap (if env_bf162fp8_conversion then 2 else 1) cache_idx).

(** One round of the copy loop for equal token sizes: the run of tokens up to the
    end of the current block is one copy record. *)
Definition p_eq_d_round (block_size token_size ntpb : Z) (sblks dblks : list Z)
    (bounds : IpcBlockBounds) (s : Z * Z * list IpcBlock) : res (Z * Z * list IpcBlock) :=
  let '(wrote_tokens, left_tokens, blocks) := s in
  let* src_block_idx := udiv wrote_tokens ntpb in
  let* src_token_idx := umod wrote_tokens ntpb in
  assert: src_block_idx <? vsize sblks;
  let* sb := vec_at sblks src_block_idx in
  let src_off := u64 (sb * block_size + src_token_idx * token_size) in
  let tokens := Z.min (u32 (ntpb - src_token_idx)) left_tokens in
  let* dst_block_idx := udiv wrote_tokens ntpb in
  let* dst_token_idx := umod wrote_tokens ntpb in
  assert: dst_block_idx <? vsize dblks;
  let* db := vec_at dblks dst_block_idx in
  let dst_off := u64 (db * block_size + dst_token_idx * token_size) in
  let len := u64 (tokens * token_size) in
  let* blocks := append_ipc_block_checked blocks bounds src_off dst_off len in
  Ok (u32 (wrote_tokens + tokens), u32 (left_tokens - tokens), blocks).

Definition do_parse_block_send_p_eq_d (block_size token_size : Z) (task : ReqSendTask)
    (bounds : IpcBlockBounds) (blocks : list IpcBlock) : res (list IpcBlock) :=
  let* q := udiv block_size token_size in
  let src_ntpb := u32 q in
  assert: u64 (src_ntpb * token_size) =? block_size;
  let* sblks := vec_idx (src_blocks task) 0 in
  let* dblks := vec_idx (dst_blocks task) 0 in
  let* _ := udiv (new_tokens task) src_ntpb in
  let* '(_, _, blocks) :=
    while (Z.to_nat (new_tokens task)) (fun s => 0 <? s.1.2)
      (p_eq_d_round block_size token_size src_ntpb sblks dblks bounds)
      (seen_tokens task, new_tokens task, blocks) in
  Ok blocks.

(** One token of the P>D loop: the rank's K (or V) half row goes to its slot of
    the destination row; [swap_offsets] exchanges the two sides (P<D). *)
Definition gt_token (p_token_size p_k_size d_token_size group_off p_blk_off d_blk_off
    token_idx_base : Z) (bounds : IpcBlockBounds) (swap_offsets : bool)
    (idx : Z) (blocks : list IpcBlock) : res (list IpcBlock) :=
  let token_idx := u32 (token_idx_base + idx) in
  let pk_token_off := u64 (p_blk_off + token_idx * p_token_size) in
  let d_token_off := u64 (d_blk_off + token_idx * d_token_size) in
  let dk_token_off := u64 (d_token_off + group_off * p_k_size) in
  append_sided swap_offsets bounds pk_token_off dk_token_off p_k_size blocks.

Definition gt_round (p_token_size p_k_size d_token_size ntpb group_off : Z)
    (p_blocks d_blocks : list Z) (bounds : IpcBlockBounds) (swap_offsets : bool)
    (s : Z * Z * list IpcBlock) : res (Z * Z * list IpcBlock) :=
  let '(wrote_tokens, left_tokens, blocks) := s in
  let p_block_size := u64 (p_token_size * ntpb) in
  let d_block_size := u64 (d_token_size * ntpb) in
  let* block_idx := udiv wrote_tokens ntpb in
  assert: (block_idx <? vsize p_blocks) && (block_idx <? vsize d_blocks);
  let* token_idx_base := umod wrote_tokens ntpb in
  let* pb := vec_at p_blocks block_idx in
  let* db := vec_at d_blocks block_idx in
  let p_blk_off := u64 (pb * p_block_size) in
  let d_blk_off := u64 (db * d_block_size) in
  let tokens := Z.min (u32 (ntpb - token_idx_base)) left_tokens in
  let* blocks := for_range 0 tokens
    (gt_token p_token_size p_k_size d_token_size group_off p_blk_off d_blk_off
       token_idx_base bounds swap_offsets) blocks in
  Ok (u32 (wrote_tokens + tokens), u32 (left_tokens - tokens), blocks).

Definition parse_block_send_gt (p_token_size p_k_size d_token_size ntpb group_off : Z)
    (p_blocks d_blocks : list Z) (wrote_tokens left_tokens : Z)
    (bounds : IpcBlockBounds) (swap_offsets : bool) (blocks : list IpcBlock)
    : res (list IpcBlock) :=
  assert: (p_k_size =? p_token_size) || (u64 (p_k_size * 2) =? p_token_size);
  let p_k_size := if env_bf162fp8_conversion then p_k_size / 2 else p_k_size in
  let* '(_, _, blocks) :=
    while (Z.to_nat left_tokens) (fun s => 0 <? s.1.2)
      (gt_round p_token_size p_k_size d_token_size ntpb group_off
         p_blocks d_blocks bounds swap_offsets)
      (wrote_tokens, left_tokens, blocks) in
  Ok blocks.

(** One segment of a zero fill. *)
Definition zero_fill_round (zero_src_off dst_off len max_seg : Z) (bounds : IpcBlockBounds)
    (s : Z * list IpcBlock) : res (Z * list IpcBlock) :=
  let '(done, blocks) := s in
  let seg := Z.min max_seg (u64 (len - done)) in
  let* blocks := append_ipc_block_checked blocks bounds zero_src_off
                   (u64 (dst_off + done)) seg in
  Ok (u64 (done + seg), blocks).

Definition emit_zero_fill_segments (zero_src_off dst_off len max_seg : Z)
    (bounds : IpcBlockBounds) (blocks : list IpcBlock) : res (list IpcBlock) :=
  assert: 0 <? max_seg;
  let* '(_, blocks) :=
    while (Z.to_nat len) (fun s => s.1 <? len)
      (zero_fill_round zero_src_off dst_off len max_seg bounds) (0, blocks) in
  Ok blocks.

End WithEnv.

(** ** Calling convention of the shape-specific functions *)

(** Arguments of a [ParseBlockFunc]: source and destination workers,
    [valid_ranks], [kvt_tp_size], [kvt_tp_rank], the task, and the per-tensor
    record lists it extends. *)
Definition ParseBlockFunc :=
  WorkerInfo -> WorkerInfo -> bitset -> Z -> Z -> ReqSendTask ->
  list (list IpcBlock) -> res (list (list IpcBlock)).

(** [auto& blocks = send_blocks.at(i); f(blocks);] *)
Definition upd_cache (i : Z) (f : list IpcBlock -> res (list IpcBlock))
    (send_blocks : list (list IpcBlock)) : res (list (list IpcBlock)) :=
  let* blocks := vec_at send_blocks i in
  let* blocks' := f blocks in
  Ok (<[Z.to_nat i := blocks']> send_blocks).

(** ** What an accepted record guarantees *)

(** The byte ranges of a record lie inside the registered tensors; the source range
    is scaled when the copy converts bf16 to fp8. *)
Definition in_bounds (b : IpcBlockBounds) (blk : IpcBlock) : Prop :=
  0 < length_ blk /\ 0 <= src_offset blk /\ 0 <= dst_offset blk /\
  src_offset blk + length_ blk * src_length_scale b <= src_capacity b /\
  dst_offset blk + length_ blk <= dst_capacity b.

#[export] Instance in_bounds_dec b blk : Decision (in_bounds b blk).
Proof. unfold in_bounds. apply _. Defined.

(** Capacities and scale as [make_ipc_block_bounds] builds them. *)
Definition wf_bounds (b : IpcBlockBounds) : Prop :=
  0 <= src_capacity b < W64 /\ 0 <= dst_capacity b < W64 /\
  (src_length_scale b = 1 \/ src_length_scale b = 2).

(** [blocks'] extends [blocks] by in-range records only. *)
Definition grown (b : IpcBlockBounds) (blocks blocks' : list IpcBlock) : Prop :=
  exists new, blocks' = blocks ++ new /\ Forall (in_bounds b) new.

Lemma scale_overflow l k : 0 <= l < W64 -> k = 1 \/ k = 2 ->
  (k =? 0) || (SIZE_MAX / k <? l) = negb (l * k <? W64).
Proof.
  intros Hl [->| ->];
    [change (SIZE_MAX / 1) with (W64 - 1) | change (SIZE_MAX / 2) with 9223372036854775807];
    change W64 with 18446744073709551616 in *; lia.
Qed.

(** The append accepts exactly the in-range records. *)
Lemma append_checked_spec blocks b s d l :
  wf_bounds b -> 0 <= s < W64 -> 0 <= d < W64 -> 0 <= l < W64 ->
  append_ipc_block_checked blocks b s d l =
  if decide (in_bounds b (mkIpcBlock s d l)) then Ok (blocks ++ [mkIpcBlock s d l])
  else Err OutOfRange.
Proof.
  intros (Hsc & Hdc & Hscale) Hs Hd Hl.
  unfold append_ipc_block_checked. rewrite !(u64_small s), !(u64_small d), !(u64_small l) by done.
  rewrite scale_overflow by done.
  assert (Hsub : s <= src_capacity b -> u64 (src_capacity b - s) = src_capacity b - s).
  { intros. apply u64_small. lia. }
  assert (Hdub : d <= dst_capacity b -> u64 (dst_capacity b - d) = dst_capacity b - d).
  { intros. apply u64_small. lia. }
  assert (He : 0 <= l * src_length_scale b) by (destruct Hscale as [->| ->]; lia).
  destruct (decide _) as [Hin|Hin]; unfold in_bounds in Hin; simpl in Hin;
    revert He Hin; generalize (l * src_length_scale b); intros e He Hin;
    (destruct (Z.ltb_spec e W64); simpl;
      [rewrite (u64_small e) by lia | rewrite orb_true_r; simpl; first [done|exfalso; lia]]);
    (destruct (Z.leb_spec s (src_capacity b)); [rewrite Hsub by done|]);
    (destruct (Z.leb_spec d (dst_capacity b)); [rewrite Hdub by done|]);
    match goal with |- (if ?c then _ else _) = _ => destruct c eqn:E end;
    try done; exfalso; lia.
Qed.

#[export] Instance grown_preorder b : PreOrder (grown b).
Proof.
  split.
  - intros l. exists []. by rewrite app_nil_r.
  - intros x y z [n [-> Hn]] [m [-> Hm]]. exists (n ++ m).
    rewrite <- app_assoc. split; [done|]. by apply Forall_app.
Qed.

(** The general form: the arguments are reduced to [size_t] first. *)
Lemma append_spec_u64 blocks b s d l :
  wf_bounds b ->
  append_ipc_block_checked blocks b s d l =
  if decide (in_bounds b (mkIpcBlock (u64 s) (u64 d) (u64 l)))
  then Ok (blocks ++ [mkIpcBlock (u64 s) (u64 d) (u64 l)]) else Err OutOfRange.
Proof.
  intros Hb. rewrite <- append_checked_spec by auto using u64_range.
  unfold append_ipc_block_checked.
  rewrite !(u64_small (u64 _)) by apply u64_range. reflexivity.
Qed.

Lemma wpr_append b blocks s d l (Q : list IpcBlock -> Prop) :
  wf_bounds b ->
  (in_bounds b (mkIpcBlock (u64 s) (u64 d) (u64 l)) ->
   Q (blocks ++ [mkIpcBlock (u64 s) (u64 d) (u64 l)])) ->
  wpr (append_ipc_block_checked blocks b s d l) Q.
Proof.
  intros Hb HQ. rewrite append_spec_u64 by done. destruct (decide _); simpl; auto.
Qed.

Lemma grown_snoc b blocks blk : in_bounds b blk -> grown b blocks (blocks ++ [blk]).
Proof. intros. eexists; split; [done|]. by constructor. Qed.

Lemma append_grown b blocks s d l :
  wf_bounds b -> wpr (append_ipc_block_checked blocks b s d l) (grown b blocks).
Proof. intros Hb. apply wpr_append; [done|]. apply grown_snoc. Qed.

Lemma append_sided_grown swap b p d l blocks :
  wf_bounds b -> wpr (append_sided swap b p d l blocks) (grown b blocks).
Proof. apply append_grown. Qed.

(** Bounds built by [make_ipc_block_bounds] are well formed. *)
Lemma checked_layer_capacity_range w i :
  wpr (checked_layer_capacity w i) (fun c => 0 <= c < W64).
Proof.
  unfold checked_layer_capacity. repeat (wpr_step; try done). apply u64_range.
Qed.

Lemma make_bounds_wf `{Env} src dst i :
  wpr (make_ipc_block_bounds src dst i) (fun b =>
    wf_bounds b /\ make_ipc_block_bounds src dst i = Ok b).
Proof.
  pose proof (checked_layer_capacity_range src i) as Hs.
  pose proof (checked_layer_capacity_range dst i) as Hd.
  unfold make_ipc_block_bounds. destruct (checked_layer_capacity src i); [|done].
  destruct (checked_layer_capacity dst i); [|done]. simpl in *. split; [|done].
  repeat split; simpl; try lia. destruct env_bf162fp8_conversion; auto.
Qed.

#[export] Hint Resolve append_grown append_sided_grown make_bounds_wf : wpr_db.
#[export] Hint Extern 1 (_ <= _ < _) => eassumption : mach_db.

(** Close a [grown] goal from the chain of [grown] hypotheses. *)
Ltac grown_chain :=
  first [ reflexivity | eassumption
        | (etransitivity; [eassumption|]); grown_chain ].

(** Advance over one statement, a call to a specified function included. *)
Ltac emit_step :=
  first
  [ wpr_step
  | lazymatch goal with
    | |- wpr (cassert _) _ => apply wpr_assert
    | |- wpr (cassertM _) _ => apply wpr_assertM
    | |- wpr (bit_idx _ _) _ => apply wpr_bit_idx; intros ?
    | |- wpr (bit_test _ _) _ => apply wpr_bit_test; intros ?
    | |- wpr (divides_b _ _) _ => apply wpr_divides_b; intros ?
    | |- wpr (for_range _ _ _ _) _ =>
        match goal with Hb : wf_bounds ?b |- _ =>
          eapply wpr_mono; [apply (wpr_for_range (grown b)); intros ? ? ?|intros ? ?] end
    | |- wpr (while _ _ _ _) _ => fail
    | |- wpr (make_ipc_block_bounds _ _ _) _ =>
        eapply wpr_mono; [apply make_bounds_wf|intros ? [? ?]]
    | |- wpr _ _ =>
        eapply wpr_mono; [solve [eauto with wpr_db mach_db] | intros ? ?]
    end
  | lazymatch goal with |- True => exact I | |- grown _ _ _ => grown_chain end ].

Ltac emit_solve := cbv zeta; repeat (emit_step; cbv zeta).

(** The same for one round of a token loop. *)
Ltac round_solve := emit_solve; (simpl; split; [eauto with mach_db|grown_chain]).

(** A token loop of a copy routine extends the record list by in-range records. *)
Lemma token_loop_grown {P} b
    (round : P * Z * list IpcBlock -> res (P * Z * list IpcBlock)) w l blocks :
  0 <= l < W32 ->
  (forall w l t, 0 < l < W32 ->
     wpr (round (w, l, t)) (fun s' => 0 <= s'.1.2 < l /\ grown b t s'.2)) ->
  wpr (while (Z.to_nat l) (fun s => 0 <? s.1.2) round (w, l, blocks))
    (fun s' => grown b blocks s'.2).
Proof. apply wpr_token_loop, _. Qed.

(** A loop that threads some cursor next to the record list. *)
Lemma forM_grown {A P} b (l : list A) (body : A -> P * list IpcBlock -> res (P * list IpcBlock))
    (p : P) blocks :
  (forall x p t, wpr (body x (p, t)) (fun s' => grown b t s'.2)) ->
  wpr (forM l body (p, blocks)) (fun s' => grown b blocks s'.2).
Proof.
  intros Hb. apply (wpr_forM (fun s => grown b blocks s.2)); [|reflexivity].
  intros x [q t] _ Ht. eapply wpr_mono; [apply Hb|]. intros s' ?. simpl in *. by transitivity t.
Qed.

Section Safety.
Context `{Env} (b : IpcBlockBounds) (Hb : wf_bounds b).

Lemma p_eq_d_round_ok bs ts n sblks dblks w l blocks :
  0 < l < W32 -> 0 <= n < W32 ->
  wpr (p_eq_d_round bs ts n sblks dblks b (w, l, blocks))
    (fun s' => 0 <= s'.1.2 < l /\ grown b blocks s'.2).
Proof.
  intros. unfold p_eq_d_round. round_solve.
Qed.

Lemma do_parse_block_send_p_eq_d_grown bs ts task blocks :
  0 <= new_tokens task < W32 ->
  wpr (do_parse_block_send_p_eq_d bs ts task b blocks) (grown b blocks).
Proof.
  intros. unfold do_parse_block_send_p_eq_d. emit_solve.
  eapply wpr_mono; [apply token_loop_grown; [done|]|].
  - intros. apply p_eq_d_round_ok; auto with mach_db.
  - intros [[? ?] ?] ?. emit_solve.
Qed.

Lemma gt_round_ok pts pk dts n off pb db swap w l blocks :
  0 < l < W32 -> 0 <= n < W32 ->
  wpr (gt_round pts pk dts n off pb db b swap (w, l, blocks))
    (fun s' => 0 <= s'.1.2 < l /\ grown b blocks s'.2).
Proof.
  intros. unfold gt_round, gt_token. round_solve.
Qed.

Lemma parse_block_send_gt_grown pts pk dts n off pb db w l swap blocks :
  0 <= l < W32 -> 0 <= n < W32 ->
  wpr (parse_block_send_gt pts pk dts n off pb db w l b swap blocks) (grown b blocks).
Proof.
  intros. unfold parse_block_send_gt. emit_solve.
  eapply wpr_mono; [apply token_loop_grown; [done|]|].
  - intros. apply gt_round_ok; auto with mach_db.
  - intros [[? ?] ?] ?. emit_solve.
Qed.

(** A zero segment length is rejected by the append, so the fill cannot spin. *)
Lemma zero_fill_grown zs d len mx blocks :
  0 <= len < W64 -> 0 <= mx < W64 ->
  wpr (emit_zero_fill_segments zs d len mx b blocks) (grown b blocks).
Proof.
  intros Hlen Hmx. unfold emit_zero_fill_segments. emit_solve.
  replace (Z.to_nat len) with (Z.to_nat (len - 0)) by (f_equal; lia).
  eapply wpr_mono; [apply (wpr_pos_loop (grown b))|intros [? ?] ?; emit_solve].
  intros p t Hp. unfold zero_fill_round.
  rewrite (u64_small (len - p)) by lia.
  apply wpr_bind, wpr_append; [done|]. intros Hin.
  assert (Hpos := proj1 Hin). simpl in Hpos.
  rewrite (u64_small (Z.min _ _)) in * by lia.
  apply wpr_ok. simpl. rewrite u64_small by lia. split; [lia|by apply grown_snoc].
Qed.
End Safety.

#[export] Hint Resolve do_parse_block_send_p_eq_d_grown parse_block_send_gt_grown
  zero_fill_grown : wpr_db.

(** ** The contract of a [ParseBlockFunc] *)

(** Tensor [i]'s records, past those already there, are in range for tensor [i]
    of both workers. *)
Definition tensor_grown `{Env} (src dst : WorkerInfo) (i : nat)
    (old : list IpcBlock) (bl : list IpcBlock) : Prop :=
  exists new, bl = old ++ new /\
    Forall (fun blk => exists b,
      make_ipc_block_bounds src dst (Z.of_nat i) = Ok b /\ in_bounds b blk) new.

(** The output is the input itself (this rank sends nothing), or it has [n]
    per-tensor lists, each extending the input's by in-range records. *)
Definition extends `{Env} (src dst : WorkerInfo) (n : nat)
    (sb sb' : list (list IpcBlock)) : Prop :=
  sb' = sb \/
  (length sb' = n /\
   forall i bl, sb' !! i = Some bl -> tensor_grown src dst i (default [] (sb !! i)) bl).

(** What the send stub relies on, whatever the cache shape: on well-typed
    arguments the function terminates, and it only adds in-range records. *)
Class ParseBlockSpec `{Env} (f : ParseBlockFunc) (tensors : WorkerInfo -> WorkerInfo -> nat) := {
  parse_block_extends : forall src dst valid_ranks kvt_tp_size kvt_tp_rank task sb,
    wf_worker src -> wf_worker dst -> wf_task task ->
    wpr (f src dst valid_ranks kvt_tp_size kvt_tp_rank task sb)
        (extends src dst (tensors src dst) sb);
}.

Definition one_tensor (_ _ : WorkerInfo) : nat := 1.
Definition src_tensors (src _ : WorkerInfo) : nat := Z.to_nat (vsize (token_sizes src)).
Definition dst_tensors (_ dst : WorkerInfo) : nat := Z.to_nat (vsize (token_sizes dst)).

Section Contract.
Context `{Env}.

#[export] Instance tensor_grown_preorder src dst i : PreOrder (tensor_grown src dst i).
Proof.
  split.
  - intros l. exists []. by rewrite app_nil_r.
  - intros x y z [n [-> Hn]] [m [-> Hm]]. exists (n ++ m).
    rewrite <- app_assoc. split; [done|]. by apply Forall_app.
Qed.

#[export] Instance extends_preorder src dst n : PreOrder (extends src dst n).
Proof.
  split; [by left|].
  intros x y z [->|[Hly Hy]] [->|[Hlz Hz]]; [by left|by right|by right|].
  right. split; [done|]. intros i bl Hi.
  destruct (lookup_lt_is_Some_2 y i) as [by_ Hby]; [apply lookup_lt_Some in Hi; lia|].
  etransitivity; [apply Hy, Hby|]. specialize (Hz i bl Hi). by rewrite Hby in Hz.
Qed.

Lemma grown_tensor src dst i b old bl :
  make_ipc_block_bounds src dst (Z.of_nat i) = Ok b -> grown b old bl ->
  tensor_grown src dst i old bl.
Proof.
  intros Hb [new [-> Hnew]]. exists new. split; [done|].
  eapply Forall_impl; [exact Hnew|]. eauto.
Qed.

Lemma resize_lookup_default (n : Z) (sb : list (list IpcBlock)) i bl :
  vec_resize [] n sb !! i = Some bl -> bl = default [] (sb !! i).
Proof.
  unfold vec_resize. intros Hi. assert (i < Z.to_nat n)%nat as Hlt.
  { apply lookup_lt_Some in Hi. by rewrite length_resize in Hi. }
  destruct (decide (i < length sb)%nat).
  - rewrite lookup_resize in Hi by lia. by rewrite Hi.
  - rewrite lookup_resize_new in Hi by lia. injection Hi as <-.
    by rewrite lookup_ge_None_2 by lia.
Qed.

(** Resizing alone already satisfies the contract. *)
Lemma extends_resize src dst n sb : 0 <= n ->
  extends src dst (Z.to_nat n) sb (vec_resize [] n sb).
Proof.
  intros. right. split; [apply length_resize|].
  intros i bl Hi. apply resize_lookup_default in Hi as ->. reflexivity.
Qed.

(** Updating one tensor's list. *)
Lemma upd_cache_extends src dst n sb i f :
  length sb = n ->
  (forall blocks, wpr (f blocks) (tensor_grown src dst (Z.to_nat i) blocks)) ->
  wpr (upd_cache i f sb) (fun sb' => length sb' = n /\ extends src dst n sb sb').
Proof.
  intros Hn Hf. unfold upd_cache. emit_step. apply wpr_vec_at. intros blocks Hi Hlk.
  apply wpr_bind. eapply wpr_mono; [apply Hf|]. intros bl Hbl. apply wpr_ok.
  split; [by rewrite length_insert|].
  right. split; [by rewrite length_insert|]. intros j bl' Hj.
  destruct (decide (j = Z.to_nat i)) as [->|].
  - rewrite list_lookup_insert_eq in Hj by (by eapply lookup_lt_Some).
    injection Hj as <-. by rewrite Hlk.
  - rewrite list_lookup_insert_ne in Hj by done. rewrite Hj. reflexivity.
Qed.

(** The common shape of the entry points: resize, then extend tensor 0. *)
Lemma resize_upd_cache_extends src dst k sb f :
  0 <= k ->
  (forall blocks, wpr (f blocks) (tensor_grown src dst 0 blocks)) ->
  wpr (upd_cache 0 f (vec_resize [] k sb)) (extends src dst (Z.to_nat k) sb).
Proof.
  intros Hk Hf. eapply wpr_mono.
  - apply (upd_cache_extends src dst (Z.to_nat k) _ 0); [apply length_resize|done].
  - intros sb' [_ Hsb']. etransitivity; [by apply extends_resize|done].
Qed.

(** Building the bounds and then emitting within them. *)
Lemma with_bounds_grown src dst i (k : IpcBlockBounds -> list IpcBlock -> res (list IpcBlock))
    blocks :
  (forall b, wf_bounds b -> wpr (k b blocks) (grown b blocks)) ->
  wpr (let* b := make_ipc_block_bounds src dst (Z.of_nat i) in k b blocks)
    (tensor_grown src dst i blocks).
Proof.
  intros Hk. apply wpr_bind. eapply wpr_mono; [apply make_bounds_wf|].
  intros b [Hb Hmk]. eapply wpr_mono; [by apply Hk|].
  intros bl. by apply grown_tensor.
Qed.
End Contract.

(** Drive the proof of a [ParseBlockSpec] instance through an entry point. *)
Ltac parse_step :=
  first
  [ emit_step
  | lazymatch goal with
    | |- extends _ _ _ _ _ => grown_chain
    | |- tensor_grown _ _ _ _ _ => eapply grown_tensor; [eassumption|grown_chain]
    | |- wpr (upd_cache 0 _ (vec_resize _ _ _)) (extends _ _ _ _) =>
        apply resize_upd_cache_extends; [first [apply vsize_nonneg|done]|intros ?]
    end ].
Ltac parse_solve := cbv zeta; repeat (parse_step; cbv zeta).

(** The first task of a batch, on a layer of one tensor. *)
Lemma upd_cache_fresh f :
  upd_cache 0 f (vec_resize [] 1 []) = let* new := f [] in Ok [new].
Proof. reflexivity. Qed.
