(* ===== verification/TokenCopy.v ===== *)
(** Functional correctness of the shared emitters of [src/parse_block_common.cpp]:
    what bytes they copy, on every token range, block size and rank. *)

From S2P Require Import Prelude Common CopySpec ParseCommon.

(** With valid ranges an append succeeds and records exactly its arguments. *)
Lemma append_ok b blocks s d l :
  wf_bounds b -> 0 <= s -> 0 <= d -> 0 < l ->
  s + l * src_length_scale b <= src_capacity b -> d + l <= dst_capacity b ->
  append_ipc_block_checked blocks b s d l = Ok (blocks ++ [mkIpcBlock s d l]).
Proof.
  intros Hb Hs Hd Hl Hcs Hcd. pose proof Hb as ([? ?] & [? ?] & Hsc).
  rewrite append_checked_spec; [|done|destruct Hsc as [E|E]; rewrite E in *; lia..].
  rewrite decide_True; [done|]. unfold in_bounds; simpl. auto.
Qed.

(** Byte offset of the row of token [t] in a cache of [n] tokens of [ts] bytes per block. *)
Definition token_row (blks : list Z) (bs ts n t : Z) : Z :=
  (blks !!! Z.to_nat (t / n)) * bs + (t mod n) * ts.

(** The blocks holding the tokens [lo, hi) are known and allocated on one side. *)
Definition side_ready (blks : list Z) (bs n cap lo hi : Z) : Prop :=
  forall t, lo <= t < hi -> exists blk,
    blks !! Z.to_nat (t / n) = Some blk /\ 0 <= blk /\ (blk + 1) * bs <= cap.

Lemma side_ready_sub blks bs n cap lo hi lo' hi' :
  side_ready blks bs n cap lo hi -> lo <= lo' -> hi' <= hi ->
  side_ready blks bs n cap lo' hi'.
Proof. intros H ? ? t Ht. apply H. lia. Qed.

(** A run of [c] rows that stays within a block stays within the tensor. *)
Lemma row_fits blks ts n cap lo hi c :
  side_ready blks (n * ts) n cap lo hi -> lo < hi -> 0 < n -> 0 < ts ->
  0 <= lo -> 0 <= c -> lo mod n + c <= n ->
  0 <= token_row blks (n * ts) ts n lo /\
  token_row blks (n * ts) ts n lo + c * ts <= cap.
Proof.
  intros Hr Hlt Hn Hts Hlo Hc Hfit. destruct (Hr lo ltac:(lia)) as (blk & Hblk & Hge & Hcap).
  unfold token_row. rewrite (list_lookup_total_correct _ _ _ Hblk).
  pose proof (Z.mod_pos_bound lo n Hn). nia.
Qed.

Lemma token_row_run blks ts n w i :
  0 < n -> 0 <= i -> w mod n + i < n ->
  token_row blks (n * ts) ts n (w + i) = token_row blks (n * ts) ts n w + i * ts.
Proof. intros. unfold token_row. rewrite div_run, mod_run by done. lia. Qed.

Section PEqD.
Context `{Env} (ts n : Z) (sblks dblks : list Z) (b : IpcBlockBounds) (scap dcap : Z).

(** Reference: one record per token row. *)
Definition token_copy (t : Z) : IpcBlock :=
  mkIpcBlock (token_row sblks (n * ts) ts n t) (token_row dblks (n * ts) ts n t) ts.

(** The rows live in the first [scap] and [dcap] bytes of the two tensors. *)
Record copy_ready (lo hi : Z) : Prop := {
  cr_wf : wf_bounds b;
  cr_scale : src_length_scale b = 1;
  cr_scap : scap <= src_capacity b;
  cr_dcap : dcap <= dst_capacity b;
  cr_n : 0 < n < W32;
  cr_ts : 0 < ts;
  cr_lo : 0 <= lo;
  cr_hi : hi < W32;
  cr_src : side_ready sblks (n * ts) n scap lo hi;
  cr_dst : side_ready dblks (n * ts) n dcap lo hi;
}.

Lemma copy_ready_sub lo hi lo' : copy_ready lo hi -> lo <= lo' -> copy_ready lo' hi.
Proof. intros [] ?. split; eauto using side_ready_sub with lia. Qed.

Lemma bytes_token_run w c :
  0 < n -> 0 <= ts -> 0 <= c -> w mod n + c <= n ->
  bytes_of [mkIpcBlock (token_row sblks (n * ts) ts n w) (token_row dblks (n * ts) ts n w)
              (c * ts)]
  = bytes_of (token_copy <$> seqZ w c).
Proof.
  intros. rewrite bytes_of_run by done. f_equal.
  replace (seqZ w c) with (Z.add w <$> seqZ 0 c) by (rewrite fmap_add_seqZ; f_equal; lia).
  rewrite <- list_fmap_compose. apply list_fmap_ext. intros i x Hx.
  apply lookup_seqZ in Hx as [-> ?]. unfold token_copy, compose.
  by rewrite !token_row_run by lia.
Qed.

Definition in_plane (blk : IpcBlock) : Prop :=
  0 <= src_offset blk /\ 0 <= dst_offset blk /\ 0 < length_ blk /\
  src_offset blk + length_ blk <= scap /\ dst_offset blk + length_ blk <= dcap.

(** One round copies the rest of the current block, or what is left. *)
Lemma p_eq_d_round_total w l blocks :
  copy_ready w (w + l) -> 0 < l ->
  let c := Z.min (n - w mod n) l in
  0 < c <= l /\
  p_eq_d_round (n * ts) ts n sblks dblks b (w, l, blocks) =
  Ok (w + c, l - c, blocks ++ [mkIpcBlock (token_row sblks (n * ts) ts n w)
                                 (token_row dblks (n * ts) ts n w) (c * ts)]) /\
  in_plane (mkIpcBlock (token_row sblks (n * ts) ts n w) (token_row dblks (n * ts) ts n w)
              (c * ts)).
Proof.
  intros [] Hl c. pose proof (Z.mod_pos_bound w n ltac:(lia)).
  split; [lia|]. apply and_comm. split.
  { assert (0 < c * ts) by nia. unfold in_plane; simpl.
    destruct (row_fits sblks ts n _ w (w + l) c cr_src0); [lia..|].
    destruct (row_fits dblks ts n _ w (w + l) c cr_dst0); [lia..|]. lia. }
  destruct (cr_src0 w ltac:(lia)) as (sb & Hsb & Hsb0 & Hscap).
  destruct (cr_dst0 w ltac:(lia)) as (db & Hdb & Hdb0 & Hdcap).
  destruct (row_fits sblks ts n _ w (w + l) c cr_src0) as [Hs1 Hs2]; [lia..|].
  destruct (row_fits dblks ts n _ w (w + l) c cr_dst0) as [Hd1 Hd2]; [lia..|].
  pose proof cr_wf0 as ([? ?] & [? ?] & _).
  assert (Hw : 0 <= w / n) by (apply Z.div_pos; lia).
  unfold p_eq_d_round. repeat eval_step.
  rewrite (u32_small (n - _)) by lia. fold c.
  revert Hs1 Hs2 Hd1 Hd2. unfold token_row.
  rewrite (list_lookup_total_correct _ _ _ Hsb), (list_lookup_total_correct _ _ _ Hdb).
  intros. assert (0 < c * ts) by nia.
  rewrite !u64_small by lia. rewrite append_ok by first [done|rewrite ?cr_scale0; lia].
  simpl. rewrite !u32_small by lia. reflexivity.
Qed.

(** The loop copies the rows of the tokens [w, w + l), in order, whatever the block
    boundaries. *)
Lemma p_eq_d_loop_total w l blocks :
  copy_ready w (w + l) -> 0 <= l ->
  exists new,
    while (Z.to_nat l) (fun s => 0 <? s.1.2)
      (p_eq_d_round (n * ts) ts n sblks dblks b) (w, l, blocks)
    = Ok (w + l, 0, blocks ++ new) /\
    bytes_of new = bytes_of (token_copy <$> seqZ w l) /\ Forall in_plane new.
Proof.
  intros Hr Hl.
  apply (token_loop_total bytes_of (fun w l => bytes_of (token_copy <$> seqZ w l)) in_plane
           (fun w l => copy_ready w (w + l))); auto using bytes_of_app.
  clear w l blocks Hr Hl. intros w l out Hr Hl.
  destruct (p_eq_d_round_total w l out Hr Hl) as (Hc & Hround & Hplane).
  pose proof (cr_n _ _ Hr). pose proof (cr_ts _ _ Hr).
  eexists _, _. split; [exact Hc|]. split; [exact Hround|]. split; [|split].
  - rewrite bytes_token_run by lia. rewrite <- bytes_of_app, <- fmap_app. do 2 f_equal.
    rewrite <- seqZ_app by lia. f_equal. lia.
  - by constructor.
  - replace (w + _ + _) with (w + l) by lia. eapply copy_ready_sub; [done|lia].
Qed.
End PEqD.

(** Different slots of one size do not overlap. *)
Lemma slots_apart a x y k :
  x <> y -> x * k <= a < x * k + k -> y * k <= a < y * k + k -> False.
Proof. intros. assert (x + 1 <= y \/ y + 1 <= x) as [|] by lia; nia. Qed.

Section PEqDEffect.
Context `{Env} (ts n : Z) (sblks dblks : list Z) (b : IpcBlockBounds) (scap dcap : Z).

(** The common P==D emitter, for a task whose first block group is known. *)
Lemma do_parse_block_send_p_eq_d_total task blocks :
  src_blocks task !! 0%nat = Some sblks -> dst_blocks task !! 0%nat = Some dblks ->
  copy_ready ts n sblks dblks b scap dcap (seen_tokens task) (seen_tokens task + new_tokens task) ->
  0 <= new_tokens task -> n * ts < W64 ->
  exists new,
    do_parse_block_send_p_eq_d (n * ts) ts task b blocks = Ok (blocks ++ new) /\
    bytes_of new
    = bytes_of (token_copy ts n sblks dblks <$> seqZ (seen_tokens task) (new_tokens task)) /\
    Forall (in_plane scap dcap) new.
Proof.
  intros Hs Hd Hr Hnew Hbs. pose proof (cr_n _ _ _ _ _ _ _ _ _ Hr).
  pose proof (cr_ts _ _ _ _ _ _ _ _ _ Hr).
  destruct (p_eq_d_loop_total ts n sblks dblks b scap dcap _ _ blocks Hr Hnew)
    as (new & Hw & Hbytes).
  exists new. split; [|done]. change 0%nat with (Z.to_nat 0) in Hs, Hd.
  unfold do_parse_block_send_p_eq_d. eval_step.
  rewrite Z.div_mul by lia. rewrite (u32_small n) by lia.
  rewrite (u64_small (n * ts)) by nia.
  repeat eval_step. rewrite Hw. reflexivity.
Qed.

(** Rows of different tokens do not overlap when no block is used twice. *)
Lemma token_rows_disjoint cap lo hi t t' a :
  side_ready dblks (n * ts) n cap lo hi -> NoDup dblks -> 0 < n -> 0 < ts -> 0 <= lo ->
  lo <= t < hi -> lo <= t' < hi -> t <> t' ->
  token_row dblks (n * ts) ts n t <= a < token_row dblks (n * ts) ts n t + ts ->
  ~ token_row dblks (n * ts) ts n t' <= a < token_row dblks (n * ts) ts n t' + ts.
Proof.
  intros Hr Hnd Hn Hts Hlo Ht Ht' Hne.
  destruct (Hr t Ht) as (d & Hd & Hd0 & _). destruct (Hr t' Ht') as (d' & Hd' & Hd0' & _).
  unfold token_row.
  rewrite (list_lookup_total_correct _ _ _ Hd), (list_lookup_total_correct _ _ _ Hd').
  pose proof (Z.mod_pos_bound t n Hn). pose proof (Z.mod_pos_bound t' n Hn).
  destruct (decide (d = d')) as [<-|Hdd].
  - assert (Ei : Z.to_nat (t / n) = Z.to_nat (t' / n)) by (eapply NoDup_lookup; eauto).
    assert (t / n = t' / n).
    { apply Z2Nat.inj in Ei; [done|apply Z.div_pos; lia..]. }
    assert (t mod n <> t' mod n).
    { intros E. apply Hne. rewrite (Z.div_mod t n), (Z.div_mod t' n) by lia. congruence. }
    intros Ha Ha'. by apply (slots_apart (a - d * (n * ts)) (t mod n) (t' mod n) ts);
      try split; lia.
  - intros Ha Ha'. apply (slots_apart a d d' (n * ts)); try done; nia.
Qed.

Lemma token_rows_NoDup cap lo l :
  side_ready dblks (n * ts) n cap lo (lo + l) -> NoDup dblks -> 0 < n -> 0 < ts -> 0 <= lo ->
  NoDup (dst_bytes (token_copy ts n sblks dblks <$> seqZ lo l)).
Proof.
  intros Hr Hnd Hn Hts Hlo. rewrite dst_bytes_map.
  apply NoDup_bind; [|intros; apply NoDup_seqZ|apply NoDup_seqZ].
  intros x y z Hx Hy Hz Hz'. rewrite elem_of_seqZ in *.
  destruct (decide (x = y)) as [|Hxy]; [done|exfalso].
  by apply (token_rows_disjoint cap lo (lo + l) x y z).
Qed.

(** Performing the reference copies moves every byte of every row, and nothing else. *)
Lemma token_copies_effect cap lo l (src dst : memory) :
  side_ready dblks (n * ts) n cap lo (lo + l) -> NoDup dblks -> 0 < n -> 0 < ts -> 0 <= lo ->
  let final := exec_copy src (token_copy ts n sblks dblks <$> seqZ lo l) dst in
  (forall t k, lo <= t < lo + l -> 0 <= k < ts ->
     final (token_row dblks (n * ts) ts n t + k) = src (token_row sblks (n * ts) ts n t + k)) /\
  (forall a, (forall t, lo <= t < lo + l ->
       ~ token_row dblks (n * ts) ts n t <= a < token_row dblks (n * ts) ts n t + ts) ->
     final a = dst a).
Proof.
  intros Hr Hnd Hn Hts Hlo final.
  assert (Hdst : (bytes_of (token_copy ts n sblks dblks <$> seqZ lo l)).*2
    = flat_map (fun t => seqZ (token_row dblks (n * ts) ts n t) ts) (seqZ lo l)).
  { apply dst_bytes_map. }
  split.
  - intros t k Ht Hk. apply exec_bytes_written.
    + by apply (token_rows_NoDup cap).
    + apply list_elem_of_In, in_flat_map. exists (token_copy ts n sblks dblks t). split.
      * apply list_elem_of_In, list_elem_of_fmap. exists t. rewrite elem_of_seqZ. auto.
      * apply list_elem_of_In, list_elem_of_fmap. exists k. rewrite elem_of_seqZ. simpl. auto with lia.
  - intros a Ha. apply exec_bytes_frame. rewrite Hdst. intros Hin.
    apply list_elem_of_In, in_flat_map in Hin as (t & Ht & Hat).
    apply list_elem_of_In in Ht, Hat. rewrite elem_of_seqZ in *. by apply (Ha t).
Qed.
End PEqDEffect.

Section PGtD.
Context `{Env} (pts pk dts n off : Z) (p_blocks d_blocks : list Z)
  (b : IpcBlockBounds) (swap : bool).

Definition p_capacity : Z := if swap then dst_capacity b else src_capacity b.
Definition d_capacity : Z := if swap then src_capacity b else dst_capacity b.

(** A record from the P-side offset [p] to the D-side offset [d], or its mirror. *)
Definition sided (p d len : Z) : IpcBlock :=
  if swap then mkIpcBlock d p len else mkIpcBlock p d len.

(** Reference: the rank's [pk] bytes of token [t] go to slot [off] of the D row. *)
Definition gt_record (t : Z) : IpcBlock :=
  sided (token_row p_blocks (n * pts) pts n t)
        (token_row d_blocks (n * dts) dts n t + off * pk) pk.

Record gt_ready (lo hi : Z) : Prop := {
  gr_wf : wf_bounds b;
  gr_scale : src_length_scale b = 1;
  gr_n : 0 < n < W32;
  gr_pk : 0 < pk <= pts;
  gr_off : 0 <= off;
  gr_slot : off * pk + pk <= dts;
  gr_lo : 0 <= lo;
  gr_hi : hi < W32;
  gr_pbs : n * pts < W64;
  gr_dbs : n * dts < W64;
  gr_p : side_ready p_blocks (n * pts) n p_capacity lo hi;
  gr_d : side_ready d_blocks (n * dts) n d_capacity lo hi;
}.

Lemma gt_ready_sub lo hi lo' : gt_ready lo hi -> lo <= lo' -> gt_ready lo' hi.
Proof. intros [] ?. split; eauto using side_ready_sub with lia. Qed.

Lemma append_sided_ok p d len blocks :
  wf_bounds b -> src_length_scale b = 1 -> 0 <= p -> 0 <= d -> 0 < len ->
  p + len <= p_capacity -> d + len <= d_capacity ->
  append_sided swap b p d len blocks = Ok (blocks ++ [sided p d len]).
Proof.
  unfold append_sided, sided, p_capacity, d_capacity. intros Hb Hs.
  destruct swap; intros; apply append_ok; rewrite ?Hs; auto; lia.
Qed.

Lemma capacities_range : wf_bounds b -> p_capacity < W64 /\ d_capacity < W64.
Proof. intros ([? ?] & [? ?] & _). unfold p_capacity, d_capacity. destruct swap; lia. Qed.

Lemma gt_token_total lo hi t blocks pb db base idx :
  gt_ready lo hi -> lo <= t < hi ->
  p_blocks !! Z.to_nat (t / n) = Some pb -> d_blocks !! Z.to_nat (t / n) = Some db ->
  base + idx = t mod n ->
  gt_token pts pk dts off (pb * (n * pts)) (db * (n * dts)) base b swap idx blocks
  = Ok (blocks ++ [gt_record t]).
Proof.
  intros [] Ht Hpb Hdb Hbase. pose proof (Z.mod_pos_bound t n ltac:(lia)).
  destruct (capacities_range gr_wf0).
  assert (0 < dts) by nia.
  destruct (row_fits p_blocks pts n _ t hi 1 (side_ready_sub _ _ _ _ lo hi t hi gr_p0
    ltac:(lia) ltac:(lia))) as [Hp1 Hp2]; [lia..|].
  destruct (row_fits d_blocks dts n _ t hi 1 (side_ready_sub _ _ _ _ lo hi t hi gr_d0
    ltac:(lia) ltac:(lia))) as [Hd1 Hd2]; [lia..|].
  unfold gt_token, gt_record. rewrite Hbase, (u32_small (t mod n)) by lia.
  revert Hp1 Hp2 Hd1 Hd2. unfold token_row.
  rewrite (list_lookup_total_correct _ _ _ Hpb), (list_lookup_total_correct _ _ _ Hdb).
  intros. assert (0 <= off * pk) by nia.
  u64_norm. apply append_sided_ok; auto; lia.
Qed.

Lemma block_off_small blks bs cap lo hi t blk :
  side_ready blks bs n cap lo hi -> cap < W64 -> lo <= t < hi -> 0 <= bs ->
  blks !! Z.to_nat (t / n) = Some blk -> u64 (blk * bs) = blk * bs.
Proof.
  intros Hr Hcap Ht Hbs Hblk. destruct (Hr t Ht) as (x & Hx & ? & ?).
  assert (x = blk) as -> by congruence. apply u64_small. nia.
Qed.

Lemma gt_round_total w l blocks :
  gt_ready w (w + l) -> 0 < l ->
  let c := Z.min (n - w mod n) l in
  0 < c <= l /\
  gt_round pts pk dts n off p_blocks d_blocks b swap (w, l, blocks) =
  Ok (w + c, l - c, blocks ++ (gt_record <$> seqZ w c)).
Proof.
  intros Hr Hl c. pose proof Hr as []. pose proof (Z.mod_pos_bound w n ltac:(lia)).
  split; [lia|]. destruct (capacities_range gr_wf0). assert (0 < dts) by nia.
  destruct (gr_p0 w ltac:(lia)) as (pb & Hpb & Hpb0 & _).
  destruct (gr_d0 w ltac:(lia)) as (db & Hdb & Hdb0 & _).
  assert (Hw : 0 <= w / n) by (apply Z.div_pos; lia).
  unfold gt_round. eval_step.
  rewrite cassert_true by (erewrite !vsize_lookup by eauto; done). cbn [rbind].
  repeat eval_step. rewrite (Z.mul_comm pts), (Z.mul_comm dts).
  rewrite (u64_small (n * pts)), (u64_small (n * dts)) by nia.
  rewrite (block_off_small p_blocks (n * pts) p_capacity w (w + l) w) by first [done|nia].
  rewrite (block_off_small d_blocks (n * dts) d_capacity w (w + l) w) by first [done|nia].
  rewrite (u32_small (n - _)) by lia. fold c.
  rewrite (for_range_collect (fun i => [gt_record (w + i)])).
  - cbn [rbind]. rewrite !u32_small by lia. do 3 f_equal.
    rewrite flat_map_singleton, Z.sub_0_r.
    replace (seqZ w c) with (Z.add w <$> seqZ 0 c) by (rewrite fmap_add_seqZ; f_equal; lia).
    by rewrite <- list_fmap_compose.
  - intros i out Hi. apply (gt_token_total w (w + l)); rewrite ?div_run by lia; auto; [lia|].
    rewrite mod_run by lia. done.
Qed.

(** The loop emits one record per token of the range, in order. *)
Lemma gt_loop_total w l blocks :
  gt_ready w (w + l) -> 0 <= l ->
  while (Z.to_nat l) (fun s => 0 <? s.1.2)
    (gt_round pts pk dts n off p_blocks d_blocks b swap) (w, l, blocks)
  = Ok (w + l, 0, blocks ++ (gt_record <$> seqZ w l)).
Proof.
  intros Hr Hl.
  destruct (token_loop_total (fun x => x) (fun w l => gt_record <$> seqZ w l) (fun _ => True)
    (fun w l => gt_ready w (w + l)) (gt_round pts pk dts n off p_blocks d_blocks b swap))
    with (w := w) (l := l) (out := blocks) as (new & -> & -> & _); auto.
  clear w l blocks Hr Hl. intros w l out Hr Hl.
  destruct (gt_round_total w l out Hr Hl) as [Hc Hround].
  eexists _, _. split; [exact Hc|]. split; [exact Hround|]. split; [|split].
  - rewrite <- fmap_app, <- seqZ_app by lia. do 2 f_equal. lia.
  - by apply Forall_true.
  - replace (w + _ + _) with (w + l) by lia. eapply gt_ready_sub; [done|lia].
Qed.

Lemma parse_block_send_gt_total w l blocks :
  env_bf162fp8_conversion = false -> pk = pts \/ pk * 2 = pts ->
  gt_ready w (w + l) -> 0 <= l ->
  parse_block_send_gt pts pk dts n off p_blocks d_blocks w l b swap blocks
  = Ok (blocks ++ (gt_record <$> seqZ w l)).
Proof.
  intros Henv Hpk Hr Hl. pose proof Hr as [].
  unfold parse_block_send_gt. rewrite Henv.
  rewrite cassert_true.
  - cbn [rbind]. by rewrite gt_loop_total.
  - destruct Hpk as [-> | <-]; [by rewrite Z.eqb_refl|].
    rewrite u64_small by nia. rewrite Z.eqb_refl. by rewrite orb_true_r.
Qed.
End PGtD.

Section ZeroFill.
Context `{Env} (zero_src_off dst_off len max_seg : Z) (b : IpcBlockBounds).

(** The segments of a zero fill cover the destination range exactly once and read
    only the [max_seg] bytes at the zero source. *)
Lemma emit_zero_fill_segments_total blocks :
  wf_bounds b -> src_length_scale b = 1 ->
  0 <= zero_src_off -> zero_src_off + max_seg <= src_capacity b -> 0 < max_seg ->
  0 <= dst_off -> 0 <= len -> dst_off + len <= dst_capacity b ->
  exists new,
    emit_zero_fill_segments zero_src_off dst_off len max_seg b blocks = Ok (blocks ++ new) /\
    dst_bytes new = seqZ dst_off len /\
    Forall (fun blk => src_offset blk = zero_src_off /\ 0 < length_ blk <= max_seg) new.
Proof.
  intros Hb Hsc Hz Hzc Hmx Hd Hl Hdc. pose proof Hb as ([? ?] & [? ?] & _).
  destruct (pos_loop_total dst_bytes (fun p => seqZ (dst_off + p) (len - p))
    (fun blk => src_offset blk = zero_src_off /\ 0 < length_ blk <= max_seg)
    (fun p => 0 <= p) len (zero_fill_round zero_src_off dst_off len max_seg b))
    with (k := Z.to_nat len) (p := 0) (out := blocks) as (new & Hw & Hdst & HR);
    auto using dst_bytes_app.
  - rewrite seqZ_nil; [done|lia].
  - intros p out Hp Hlt. exists (p + Z.min max_seg (len - p)).
    exists [mkIpcBlock zero_src_off (dst_off + p) (Z.min max_seg (len - p))].
    split; [lia|]. split.
    { unfold zero_fill_round. u64_norm.
      by rewrite append_ok by first [done|rewrite ?Hsc; lia]. }
    split; [|split; [|lia]].
    + rewrite dst_bytes_singleton. simpl.
      rewrite Z.add_assoc, <- seqZ_app by lia. f_equal. lia.
    + repeat constructor; simpl; lia.
  - lia.
  - lia.
  - exists new. unfold emit_zero_fill_segments. rewrite cassert_true by lia. cbn [rbind].
    rewrite Hw. split; [done|]. split; [|done]. rewrite Hdst. f_equal; lia.
Qed.
End ZeroFill.

(** ** Worker-level readiness *)

(** The blocks of the tokens [lo, hi) are listed and are blocks of the tensor. *)
Definition allocated (blks : list Z) (n num_blocks lo hi : Z) : Prop :=
  forall t, lo <= t < hi -> exists blk,
    blks !! Z.to_nat (t / n) = Some blk /\ 0 <= blk < num_blocks.

Lemma allocated_side_ready blks n nb lo hi bs :
  allocated blks n nb lo hi -> 0 <= bs -> side_ready blks bs n (bs * nb) lo hi.
Proof.
  intros Ha Hbs t Ht. destruct (Ha t Ht) as (blk & ? & ?). exists blk.
  repeat split; [done|lia|nia].
Qed.

(** The bounds of tensor 0 of two workers with one tensor each. *)
Lemma make_bounds_single `{Env} src dst bs bs' rest rest' :
  env_bf162fp8_conversion = false ->
  block_sizes src = bs :: rest -> block_sizes dst = bs' :: rest' ->
  0 <= bs -> 0 < layer_num_blocks src -> bs * layer_num_blocks src < W64 ->
  0 <= bs' -> 0 < layer_num_blocks dst -> bs' * layer_num_blocks dst < W64 ->
  make_ipc_block_bounds src dst 0
  = Ok (mkBounds (bs * layer_num_blocks src) (bs' * layer_num_blocks dst) 1 0).
Proof.
  assert (Hcap : forall w s r, block_sizes w = s :: r -> 0 <= s -> 0 < layer_num_blocks w ->
    s * layer_num_blocks w < W64 ->
    checked_layer_capacity w 0 = Ok (s * layer_num_blocks w)).
  { intros w s r Hw Hs Hn Hlt. unfold checked_layer_capacity. rewrite Hw.
    rewrite (proj2 (Z.leb_gt _ _)), (proj2 (Z.eqb_neq _ _)) by (unfold vsize; cbn; lia).
    cbn [orb]. rewrite (vec_idx_Some _ _ s) by done. cbn [rbind]. assert (s <= SIZE_MAX / layer_num_blocks w) as Hle.
    { apply Z.div_le_lower_bound; [done|]. unfold SIZE_MAX. nia. }
    destruct (Z.ltb_spec (SIZE_MAX / layer_num_blocks w) s); [lia|].
    rewrite u64_small by nia. done. }
  intros Henv Hs Hd. intros. unfold make_ipc_block_bounds.
  rewrite (Hcap src bs rest), (Hcap dst bs' rest') by done. simpl. by rewrite Henv.
Qed.

(** Allocation of concrete block lists, by computation. *)
Definition allocated_b (blks : list Z) (n num_blocks lo hi : Z) : bool :=
  forallb (fun t => match blks !! Z.to_nat (t / n) with
                    | Some blk => (0 <=? blk) && (blk <? num_blocks)
                    | None => false end) (seqZ lo (hi - lo)).

Lemma allocated_b_sound blks n nb lo hi :
  allocated_b blks n nb lo hi = true -> allocated blks n nb lo hi.
Proof.
  unfold allocated_b. rewrite forallb_forall. intros Hall t Ht.
  specialize (Hall t). rewrite <- list_elem_of_In, elem_of_seqZ in Hall.
  specialize (Hall ltac:(lia)). destruct (blks !! _) as [blk|]; [|done].
  exists blk. split; [done|lia].
Qed.

(** The situation P==D sends run in: equal layouts of [n] tokens of [ts] bytes per
    block, and blocks allocated on both sides for the tokens of this step. *)
Record equal_layout (src dst : WorkerInfo) (n ts : Z) : Prop := {
  el_n : 0 < n < W32;
  el_ts : 0 < ts;
  el_src_bs : block_sizes src = [n * ts];
  el_dst_bs : block_sizes dst = [n * ts];
  el_src_ts : token_sizes src = [ts];
  el_dst_ts : token_sizes dst = [ts];
  el_src_nb : 0 < layer_num_blocks src;
  el_dst_nb : 0 < layer_num_blocks dst;
  el_src_cap : n * ts * layer_num_blocks src < W64;
  el_dst_cap : n * ts * layer_num_blocks dst < W64;
}.

Record task_allocated (src dst : WorkerInfo) (n : Z) (task : ReqSendTask)
    (sblks dblks : list Z) : Prop := {
  ta_src : src_blocks task !! 0%nat = Some sblks;
  ta_dst : dst_blocks task !! 0%nat = Some dblks;
  ta_seen : 0 <= seen_tokens task;
  ta_new : 0 <= new_tokens task;
  ta_end : seen_tokens task + new_tokens task < W32;
  ta_src_alloc : allocated sblks n (layer_num_blocks src) (seen_tokens task)
                   (seen_tokens task + new_tokens task);
  ta_dst_alloc : allocated dblks n (layer_num_blocks dst) (seen_tokens task)
                   (seen_tokens task + new_tokens task);
}.

(** One side of a transfer between different TP widths: [n] tokens of [ts] bytes per
    block. *)
Record side_layout (w : WorkerInfo) (n ts : Z) : Prop := {
  sl_bs : block_sizes w = [n * ts];
  sl_ts : token_sizes w = [ts];
  sl_nb : 0 < layer_num_blocks w;
  sl_cap : n * ts * layer_num_blocks w < W64;
}.

(** The blocks of the tokens [lo, lo + l) on both sides. *)
Record span_allocated (p d : WorkerInfo) (n lo l : Z) (pb db : list Z) : Prop := {
  sa_lo : 0 <= lo;
  sa_l : 0 <= l;
  sa_hi : lo + l < W32;
  sa_p : allocated pb n (layer_num_blocks p) lo (lo + l);
  sa_d : allocated db n (layer_num_blocks d) lo (lo + l);
}.
