(* ===== verification/Bounds.v ===== *)
(** The range check every record passes, and the zero fill built on it
    ([include/parse_block_common.h], [src/parse_block_common.cpp]). *)

From S2P Require Import Prelude Common CopySpec ParseCommon TokenCopy.

(** ** The capacity of a tensor is its size, without wrap-around *)

Lemma checked_layer_capacity_exact w i bs c :
  wf_worker w -> 0 <= i -> block_sizes w !! Z.to_nat i = Some bs ->
  checked_layer_capacity w i = Ok c -> c = bs * layer_num_blocks w /\ 0 < layer_num_blocks w.
Proof.
  intros Hw Hi Hbs. pose proof (wf_block_size _ _ _ Hw Hbs) as Hr.
  pose proof (wf_layer_num_blocks _ Hw) as [Hn0 Hn]. unfold checked_layer_capacity.
  destruct (_ || _) eqn:Eg; [done|]. apply orb_false_iff in Eg as [_ En].
  rewrite (vec_idx_Some _ _ bs) by done. cbn [rbind].
  destruct (Z.ltb_spec (SIZE_MAX / layer_num_blocks w) bs) as [|Hle]; [done|].
  intros [= <-]. assert (0 < layer_num_blocks w) by lia. split; [|done]. apply u64_small.
  assert (bs * layer_num_blocks w <= SIZE_MAX) by
    (pose proof (Z.mul_div_le SIZE_MAX (layer_num_blocks w)); nia).
  unfold SIZE_MAX in *. nia.
Qed.

(** Source bytes read per destination byte. *)
Definition length_scale `{Env} : Z := if env_bf162fp8_conversion then 2 else 1.

(** A memory with the run [lo, lo + len) set to zero. *)
Definition zeroed (m : memory) (lo len : Z) : memory :=
  fun a => if decide (lo <= a < lo + len) then 0 else m a.

(** ** Properties *)

(** C17: The per-record check: with the capacities built from the two workers,
    append_ipc_block_checked accepts a record exactly when, over unbounded integers, its
    (scaled) source range and its destination range lie inside the tensors; every other
    record is rejected with out_of_range, so no 64-bit wrap-around slips through. *)
Theorem checked_append_decides_tensor_range `{Env} src dst i b bs bd blocks s d l :
  wf_worker src -> wf_worker dst -> 0 <= i ->
  block_sizes src !! Z.to_nat i = Some bs -> block_sizes dst !! Z.to_nat i = Some bd ->
  make_ipc_block_bounds src dst i = Ok b ->
  0 <= s < W64 -> 0 <= d < W64 -> 0 <= l < W64 ->
  append_ipc_block_checked blocks b s d l =
  if decide (0 < l /\ s + l * length_scale <= bs * layer_num_blocks src /\
             d + l <= bd * layer_num_blocks dst)
  then Ok (blocks ++ [mkIpcBlock s d l]) else Err OutOfRange.
Proof.
  intros Hsrc Hdst Hi Hs Hd Hmk Hrs Hrd Hrl.
  assert (Hwf : wf_bounds b).
  { pose proof (make_bounds_wf src dst i) as Hb. rewrite Hmk in Hb. apply Hb. }
  rewrite append_checked_spec by done. unfold make_ipc_block_bounds in Hmk.
  destruct (checked_layer_capacity src i) as [cs|] eqn:Es; [|done]. cbn [rbind] in Hmk.
  destruct (checked_layer_capacity dst i) as [cd|] eqn:Ed; [|done]. cbn [rbind] in Hmk.
  injection Hmk as <-.
  destruct (checked_layer_capacity_exact _ _ _ _ Hsrc Hi Hs Es) as [-> _].
  destruct (checked_layer_capacity_exact _ _ _ _ Hdst Hi Hd Ed) as [-> _].
  unfold in_bounds, length_scale. cbn [src_capacity dst_capacity src_length_scale src_offset
    dst_offset length_].
  repeat case_decide; try done; exfalso; tauto.
Qed.

Lemma checked_append_decides_tensor_range_witness :
  let w := one_tensor_worker 1 0 64 16 4 in
  append_ipc_block_checked [] (mkBounds 256 256 1 0) 200 0 56
  = Ok [mkIpcBlock 200 0 56] /\
  append_ipc_block_checked [] (mkBounds 256 256 1 0) 200 0 57 = Err OutOfRange.
Proof.
  split.
  - exact (checked_append_decides_tensor_range (H := debug_env) (one_tensor_worker 1 0 64 16 4)
      (one_tensor_worker 1 0 64 16 4) 0 (mkBounds 256 256 1 0) 64 64 [] 200 0 56
      ltac:(wf_concrete) ltac:(wf_concrete) ltac:(lia) eq_refl eq_refl eq_refl
      ltac:(unfold W64; lia) ltac:(unfold W64; lia) ltac:(unfold W64; lia)).
  - exact (checked_append_decides_tensor_range (H := debug_env) (one_tensor_worker 1 0 64 16 4)
      (one_tensor_worker 1 0 64 16 4) 0 (mkBounds 256 256 1 0) 64 64 [] 200 0 57
      ltac:(wf_concrete) ltac:(wf_concrete) ltac:(lia) eq_refl eq_refl eq_refl
      ltac:(unfold W64; lia) ltac:(unfold W64; lia) ltac:(unfold W64; lia)).
Defined.

(** Zero filling: executing the segments of emit_zero_fill_segments from a zero source
    region sets exactly the bytes of the destination run to zero and leaves every other byte
    alone, however the run is split. *)
Theorem zero_fill_clears_run `{Env} zero_src_off dst_off len max_seg b blocks (src dst : memory) :
  wf_bounds b -> src_length_scale b = 1 ->
  0 <= zero_src_off -> zero_src_off + max_seg <= src_capacity b -> 0 < max_seg ->
  0 <= dst_off -> 0 <= len -> dst_off + len <= dst_capacity b ->
  (forall a, zero_src_off <= a < zero_src_off + max_seg -> src a = 0) ->
  exists new,
    emit_zero_fill_segments zero_src_off dst_off len max_seg b blocks = Ok (blocks ++ new) /\
    forall a, exec_copy src new dst a = zeroed dst dst_off len a.
Proof.
  intros Hb Hsc Hz Hzc Hmx Hd Hl Hdc Hzero.
  destruct (emit_zero_fill_segments_total zero_src_off dst_off len max_seg b blocks)
    as (new & Hok & Hdst & Hsrc); [done..|].
  exists new. split; [exact Hok|]. intros a. unfold exec_copy, zeroed. case_decide as Ha.
  - assert (Hin : a ∈ (bytes_of new).*2) by (fold (dst_bytes new); rewrite Hdst, elem_of_seqZ; lia).
    apply list_elem_of_fmap in Hin as ([s a'] & -> & Hp). cbn [snd] in *.
    rewrite (exec_bytes_written _ _ _ s a');
      [|fold (dst_bytes new); rewrite Hdst; apply NoDup_seqZ|done].
    apply elem_of_bytes_of in Hp as (blk & Hblk & Hp). apply elem_of_block_bytes in Hp as (k & Hk).
    rewrite Forall_forall in Hsrc. specialize (Hsrc blk Hblk). apply Hzero. lia.
  - apply exec_bytes_frame. fold (dst_bytes new). rewrite Hdst, elem_of_seqZ. lia.
Qed.

Lemma zero_fill_clears_run_witness :
  exists new,
    emit_zero_fill_segments (H := debug_env) 0 10 20 8 (mkBounds 8 64 1 0) [] = Ok ([] ++ new) /\
    forall a, exec_copy (fun _ => 0) new (fun x => x) a = zeroed (fun x => x) 10 20 a.
Proof.
  apply (zero_fill_clears_run (H := debug_env) 0 10 20 8 (mkBounds 8 64 1 0) []
    (fun _ => 0) (fun x => x)); try done. split; [|split]; try done. by left.
Defined.
