(* ===== verification/ParseRagged.v ===== *)
(** RAGGED_FLASH_CACHE_SHAPE, [src/parse_block_ragged.cpp]: one cache tensor per
    layer, laid out as (num_blocks, block_size, 2, num_kv_heads, head_dim). *)

From S2P Require Import Prelude Common CopySpec ParseCommon TokenCopy.

Section Ragged.
Context `{Env}.

Definition parse_block_send_p_eq_d : ParseBlockFunc :=
  fun src dst valid_ranks kvt_tp_size kvt_tp_rank task send_blocks =>
  assert: kvt_tp_size =? engine_tp_size dst;
  assert: worker_tp_rank src =? worker_tp_rank dst;
  assert: bool_decide (token_sizes src = token_sizes dst);
  assert: bool_decide (block_sizes src = block_sizes dst);
  assert: vsize (token_sizes src) =? vsize (block_sizes src);
  assert: vsize (token_sizes dst) =? vsize (block_sizes dst);
  assert: vsize (token_sizes src) =? 1;
  assert: vsize (block_sizes src) =? 1;
  let send_blocks := vec_resize [] (vsize (token_sizes src)) send_blocks in
  let* _ := vec_idx send_blocks 0 in
  let* bounds := make_ipc_block_bounds src dst 0 in
  let* bs := vec_idx (block_sizes src) 0 in
  let* ts := vec_idx (token_sizes src) 0 in
  upd_cache 0 (do_parse_block_send_p_eq_d bs ts task bounds) send_blocks.

(** P>D with identical token sizes: rank 0 holds everything. *)
Definition parse_block_send_p_gt_d_dpsk : ParseBlockFunc :=
  fun p d valid_ranks kvt_tp_size kvt_tp_rank task send_blocks =>
  assert: bool_decide (token_sizes p = token_sizes d);
  if negb (worker_tp_rank p =? 0) then Ok send_blocks else
  assert: worker_tp_rank d =? 0;
  assert: bool_decide (block_sizes p = block_sizes d);
  assert: vsize (token_sizes p) =? vsize (block_sizes p);
  assert: vsize (token_sizes p) =? 1;
  assert: vsize (block_sizes p) =? 1;
  let send_blocks := vec_resize [] (vsize (token_sizes p)) send_blocks in
  let* _ := vec_idx send_blocks 0 in
  let* bounds := make_ipc_block_bounds p d 0 in
  let* bs := vec_idx (block_sizes p) 0 in
  let* ts := vec_idx (token_sizes p) 0 in
  upd_cache 0 (do_parse_block_send_p_eq_d bs ts task bounds) send_blocks.

(** The V half of every K record emitted at indices [lo, hi). *)
Definition emit_v_records (p_k_size d_k_size : Z) (bounds : IpcBlockBounds)
    (swap_offsets : bool) (lo hi : Z) (blocks : list IpcBlock) : res (list IpcBlock) :=
  for_range lo hi (fun idx blocks =>
    let* sb := vec_at blocks idx in
    let pv_token_off := u64 (src_offset sb + (if swap_offsets then d_k_size else p_k_size)) in
    let dv_token_off := u64 (dst_offset sb + (if swap_offsets then p_k_size else d_k_size)) in
    assert: p_k_size =? length_ sb;
    append_ipc_block_checked blocks bounds pv_token_off dv_token_off p_k_size) blocks.

(** K records for the token range, then the matching V records. *)
Definition emit_kv_records (p_block_size d_block_size p_token_size d_token_size : Z)
    (p_tp_size d_tp_size p_rank d_rank : Z)
    (p_blocks d_blocks : list Z) (wrote_tokens left_tokens : Z)
    (bounds : IpcBlockBounds) (swap_offsets : bool) (blocks : list IpcBlock)
    : res (list IpcBlock) :=
  assert: d_tp_size <? p_tp_size;
  assertM: divides_b d_tp_size p_tp_size;
  let* group_n := udiv p_tp_size d_tp_size in
  assertM: (let* q := udiv p_rank group_n in Ok (q =? d_rank));
  let* group_off := umod p_rank group_n in
  assert: d_token_size =? u64 (p_token_size * group_n);
  assert: d_token_size mod 2 =? 0;
  assert: p_token_size mod 2 =? 0;
  let p_k_size := p_token_size / 2 in
  let d_k_size := d_token_size / 2 in
  assert: d_k_size =? u64 (p_k_size * group_n);
  let* q := udiv p_block_size p_token_size in
  let ntpb := u32 q in
  assert: u64 (ntpb * p_token_size) =? p_block_size;
  assert: u64 (ntpb * d_token_size) =? d_block_size;
  let sbsize := vsize blocks in
  let* blocks := parse_block_send_gt p_token_size p_k_size d_token_size ntpb group_off
    p_blocks d_blocks wrote_tokens left_tokens bounds swap_offsets blocks in
  let sbsize_after := vsize blocks in
  emit_v_records p_k_size d_k_size bounds swap_offsets sbsize sbsize_after blocks.

Definition do_parse_block_send_internal (p : WorkerInfo) (p_tp_size : Z) (p_blocks : list Z)
    (d : WorkerInfo) (d_tp_size : Z) (d_blocks : list Z) (wrote_tokens left_tokens : Z)
    (bounds : IpcBlockBounds) (swap_offsets : bool) (send_blocks : list (list IpcBlock))
    : res (list (list IpcBlock)) :=
  assert: vsize (block_sizes p) =? vsize (block_sizes d);
  assert: vsize (token_sizes p) =? vsize (token_sizes d);
  assert: vsize (block_sizes p) =? vsize (token_sizes p);
  assert: vsize (token_sizes p) =? 1;
  assert: vsize (token_sizes d) =? 1;
  assert: vsize (block_sizes p) =? 1;
  assert: vsize (block_sizes d) =? 1;
  let* p_block_size := vec_at (block_sizes p) 0 in
  let* d_block_size := vec_at (block_sizes d) 0 in
  let* p_token_size := vec_at (token_sizes p) 0 in
  let* d_token_size := vec_at (token_sizes d) 0 in
  let send_blocks := vec_resize [] (vsize (token_sizes p)) send_blocks in
  upd_cache 0 (emit_kv_records p_block_size d_block_size p_token_size d_token_size
    p_tp_size d_tp_size (worker_tp_rank p) (worker_tp_rank d)
    p_blocks d_blocks wrote_tokens left_tokens bounds swap_offsets) send_blocks.

Definition parse_block_send_p_gt_d : ParseBlockFunc :=
  fun p d valid_ranks kvt_tp_size kvt_tp_rank task send_blocks =>
  let* bounds := make_ipc_block_bounds p d 0 in
  let* p_blocks := vec_idx (src_blocks task) 0 in
  let* d_blocks := vec_idx (dst_blocks task) 0 in
  do_parse_block_send_internal p kvt_tp_size p_blocks
    d (engine_tp_size d) d_blocks (seen_tokens task) (new_tokens task)
    bounds false send_blocks.

(** P<D: the helper's "p side" is the wider D. *)
Definition parse_block_send_p_lt_d : ParseBlockFunc :=
  fun p d valid_ranks kvt_tp_size kvt_tp_rank task send_blocks =>
  let* bounds := make_ipc_block_bounds p d 0 in
  let* p_blocks := vec_idx (src_blocks task) 0 in
  let* d_blocks := vec_idx (dst_blocks task) 0 in
  do_parse_block_send_internal d (engine_tp_size d) d_blocks
    p kvt_tp_size p_blocks (seen_tokens task) (new_tokens task)
    bounds true send_blocks.

(** ** Contract *)

Lemma emit_v_records_grown b pk dk swap lo hi blocks :
  wf_bounds b -> wpr (emit_v_records pk dk b swap lo hi blocks) (grown b blocks).
Proof. intros. unfold emit_v_records. emit_solve. Qed.
#[local] Hint Resolve emit_v_records_grown : wpr_db.

Lemma emit_kv_records_grown b pbs dbs pts dts ptp dtp pr dr pb db w l swap blocks :
  wf_bounds b -> 0 <= l < W32 ->
  wpr (emit_kv_records pbs dbs pts dts ptp dtp pr dr pb db w l b swap blocks)
    (grown b blocks).
Proof. intros. unfold emit_kv_records. emit_solve. Qed.
#[local] Hint Resolve emit_kv_records_grown : wpr_db.

Lemma do_parse_block_send_internal_extends src dst b p ptp pb d dtp db w l swap sb :
  wf_bounds b -> make_ipc_block_bounds src dst 0 = Ok b -> 0 <= l < W32 ->
  wpr (do_parse_block_send_internal p ptp pb d dtp db w l b swap sb)
    (extends src dst (Z.to_nat (vsize (token_sizes p))) sb).
Proof. intros. unfold do_parse_block_send_internal. parse_solve. Qed.

#[export] Instance parse_block_send_p_eq_d_spec :
  ParseBlockSpec parse_block_send_p_eq_d src_tensors.
Proof. split. intros. unfold parse_block_send_p_eq_d. parse_solve. Qed.

#[export] Instance parse_block_send_p_gt_d_dpsk_spec :
  ParseBlockSpec parse_block_send_p_gt_d_dpsk src_tensors.
Proof. split. intros. unfold parse_block_send_p_gt_d_dpsk. parse_solve. Qed.

#[export] Instance parse_block_send_p_gt_d_spec :
  ParseBlockSpec parse_block_send_p_gt_d src_tensors.
Proof.
  split. intros. unfold parse_block_send_p_gt_d. parse_solve.
  apply do_parse_block_send_internal_extends; auto with mach_db.
Qed.

#[export] Instance parse_block_send_p_lt_d_spec :
  ParseBlockSpec parse_block_send_p_lt_d dst_tensors.
Proof.
  split. intros. unfold parse_block_send_p_lt_d. parse_solve.
  apply do_parse_block_send_internal_extends; auto with mach_db.
Qed.
End Ragged.

#[export] Hint Resolve emit_kv_records_grown : wpr_db.

(** ** Functional correctness *)

Section RaggedCorrect.
Context `{Env}.

Lemma layout_copy_ready src dst n ts task sblks dblks :
  equal_layout src dst n ts -> task_allocated src dst n task sblks dblks ->
  copy_ready ts n sblks dblks
    (mkBounds (n * ts * layer_num_blocks src) (n * ts * layer_num_blocks dst) 1 0)
    (n * ts * layer_num_blocks src) (n * ts * layer_num_blocks dst) (seen_tokens task) (seen_tokens task + new_tokens task).
Proof.
  intros [] []. split; simpl; auto; try lia.
  - repeat split; simpl; try nia.
  - apply allocated_side_ready; [done|nia].
  - apply allocated_side_ready; [done|nia].
Qed.

Lemma parse_block_send_p_eq_d_total src dst vr n ts task sblks dblks :
  env_bf162fp8_conversion = false -> worker_tp_rank src = worker_tp_rank dst ->
  equal_layout src dst n ts -> task_allocated src dst n task sblks dblks ->
  exists new,
    parse_block_send_p_eq_d src dst vr (engine_tp_size dst) (worker_tp_rank src) task []
    = Ok [new] /\
    bytes_of new
    = bytes_of (token_copy ts n sblks dblks <$> seqZ (seen_tokens task) (new_tokens task)).
Proof.
  intros Henv Hrank Hel Hta. pose proof Hel as []. pose proof Hta as [].
  destruct (do_parse_block_send_p_eq_d_total ts n sblks dblks _ _ _ task []
    ta_src ta_dst (layout_copy_ready _ _ _ _ _ _ _ Hel Hta)) as (new & Hdo & Hbytes & _);
    [done|nia|].
  exists new. split; [|done]. unfold parse_block_send_p_eq_d.
  rewrite el_src_ts, el_dst_ts, el_src_bs, el_dst_bs, Hrank, !Z.eqb_refl, !bool_decide_eq_true_2
    by done.
  rewrite !cassert_true by done. cbn [rbind].
  erewrite make_bounds_single by (eauto; nia).
  change (vsize [ts]) with 1.
  rewrite (vec_idx_Some (vec_resize _ _ _) 0 []), (vec_idx_Some [n * ts] 0 (n * ts)) by done.
  cbn [rbind]. rewrite (vec_idx_Some [ts] 0 ts) by done. cbn [rbind].
  rewrite upd_cache_fresh, Hdo. done.
Qed.

(** *** P>D: K and V halves of every row *)
Section KV.
Context (pk gn n off : Z) (p_blocks d_blocks : list Z) (b : IpcBlockBounds) (swap : bool).

(** Token sizes of the two sides, in units of the rank's half row [pk]. *)
Definition kv_pts : Z := pk * 2.
Definition kv_dts : Z := pk * 2 * gn.
Definition kv_dk : Z := pk * gn.

Definition k_record (t : Z) : IpcBlock :=
  gt_record kv_pts pk kv_dts n off p_blocks d_blocks swap t.

(** The V half: [pk] bytes further on the P side, one K row further on the D side. *)
Definition v_record (t : Z) : IpcBlock :=
  sided swap (token_row p_blocks (n * kv_pts) kv_pts n t + pk)
    (token_row d_blocks (n * kv_dts) kv_dts n t + off * pk + kv_dk) pk.

Definition kv_records (lo l : Z) : list IpcBlock :=
  (k_record <$> seqZ lo l) ++ (v_record <$> seqZ lo l).

Record kv_ready (lo hi : Z) : Prop := {
  kr_wf : wf_bounds b;
  kr_scale : src_length_scale b = 1;
  kr_n : 0 < n < W32;
  kr_pk : 0 < pk;
  kr_off : 0 <= off < gn;
  kr_lo : 0 <= lo;
  kr_hi : hi < W32;
  kr_pbs : n * kv_pts < W64;
  kr_dbs : n * kv_dts < W64;
  kr_p : side_ready p_blocks (n * kv_pts) n (p_capacity b swap) lo hi;
  kr_d : side_ready d_blocks (n * kv_dts) n (d_capacity b swap) lo hi;
}.

Lemma kv_gt_ready lo hi :
  kv_ready lo hi -> gt_ready kv_pts pk kv_dts n off p_blocks d_blocks b swap lo hi.
Proof. intros []. split; auto; unfold kv_pts, kv_dts in *; nia. Qed.

Lemma replay_v_record lo hi t out :
  kv_ready lo hi -> lo <= t < hi ->
  append_ipc_block_checked out b
    (u64 (src_offset (k_record t) + (if swap then kv_dk else pk)))
    (u64 (dst_offset (k_record t) + (if swap then pk else kv_dk))) pk
  = Ok (out ++ [v_record t]).
Proof.
  intros [] Ht. unfold kv_pts, kv_dts in *. destruct (capacities_range b swap kr_wf0).
  pose proof (Z.mod_pos_bound t n ltac:(lia)).
  assert (0 < pk * 2 * gn) by nia.
  destruct (row_fits p_blocks (pk * 2) n _ t hi 1 (side_ready_sub _ _ _ _ lo hi t hi kr_p0
    ltac:(lia) ltac:(lia))) as [Hp1 Hp2]; [lia..|].
  destruct (row_fits d_blocks (pk * 2 * gn) n _ t hi 1 (side_ready_sub _ _ _ _ lo hi t hi kr_d0
    ltac:(lia) ltac:(lia))) as [Hd1 Hd2]; [lia..|].
  unfold v_record, k_record, gt_record, kv_pts, kv_dts, kv_dk.
  set (P := token_row p_blocks _ _ _ _) in *. set (D := token_row d_blocks _ _ _ _) in *.
  assert (0 <= off * pk /\ off * pk + pk <= pk * gn) by nia.
  rewrite <- (append_sided_ok b swap) by (auto; lia).
  unfold append_sided, sided. destruct swap; simpl; u64_norm; f_equal; lia.
Qed.

Lemma emit_kv_records_total ptp dtp p_rank d_rank w l blocks :
  env_bf162fp8_conversion = false ->
  0 < dtp < ptp -> ptp = gn * dtp -> p_rank / gn = d_rank -> off = p_rank mod gn ->
  kv_ready w (w + l) -> 0 <= l ->
  emit_kv_records (n * kv_pts) (n * kv_dts) kv_pts kv_dts ptp dtp p_rank d_rank
    p_blocks d_blocks w l b swap blocks
  = Ok (blocks ++ kv_records w l).
Proof.
  intros Henv Htp Hgn Hrank Hoff Hr Hl. pose proof Hr as [].
  assert (Hpts : kv_pts / 2 = pk) by (unfold kv_pts; by rewrite Z.div_mul).
  assert (Hdts : kv_dts / 2 = kv_dk).
  { unfold kv_dts, kv_dk. replace (pk * 2 * gn) with (pk * gn * 2) by lia. by rewrite Z.div_mul. }
  unfold emit_kv_records, divides_b. eval_step.
  rewrite !umod_ok, !udiv_ok by (unfold kv_pts; lia). cbn [rbind].
  assert (ptp / dtp = gn) as -> by (rewrite Hgn; apply Z.div_mul; lia).
  rewrite !umod_ok, !udiv_ok by lia. cbn [rbind].
  rewrite Hrank, <- Hoff, Hpts, Hdts.
  rewrite (Z.div_mul n kv_pts), (u32_small n) by (unfold kv_pts; lia).
  assert (0 < kv_pts < W64 /\ 0 < kv_dts < W64 /\ 0 < kv_dk < W64) as (? & ? & ?).
  { unfold kv_pts, kv_dts, kv_dk in *. nia. }
  rewrite !(u64_small (n * _)) by nia.
  replace (kv_pts * gn) with kv_dts by (unfold kv_pts, kv_dts; lia).
  rewrite (u64_small kv_dts), (u64_small (pk * gn)) by (unfold kv_dk in *; lia).
  rewrite !cassertM_true by (rewrite ?Hgn, ?Z.mod_mul, ?Z.eqb_refl by lia; done). cbn [rbind].
  rewrite !cassert_true; rewrite ?Z.eqb_refl; try done;
    [|unfold kv_pts; by rewrite Z.mod_mul
     |unfold kv_dts; replace (pk * 2 * gn) with (pk * gn * 2) by lia; by rewrite Z.mod_mul].
  cbn [rbind].
  rewrite parse_block_send_gt_total by (auto using kv_gt_ready; right; done). cbn [rbind].
  unfold emit_v_records.
  rewrite (for_range_replay (fun k => mkIpcBlock
      (src_offset k + (if swap then kv_dk else pk)) (dst_offset k + (if swap then pk else kv_dk)) pk)).
  - unfold kv_records. do 3 f_equal. rewrite <- list_fmap_compose.
    apply list_fmap_ext. intros i t _. unfold compose, v_record, sided.
    unfold gt_record, sided. destruct swap; simpl; f_equal; lia.
  - intros k out Hk. apply list_elem_of_fmap in Hk as (t & -> & Ht).
    apply elem_of_seqZ in Ht. fold (k_record t).
    rewrite cassert_true by (unfold k_record, gt_record, sided; destruct swap; apply Z.eqb_refl).
    cbn [rbind]. rewrite (replay_v_record w (w + l)) by done. do 3 f_equal.
    unfold v_record, k_record, gt_record, sided. destruct swap; simpl; f_equal; lia.
Qed.
End KV.

(** D-side and P-side addresses of the records of one rank. *)
Definition d_side (swap : bool) (recs : list IpcBlock) : list Z :=
  if swap then src_bytes recs else dst_bytes recs.
Definition p_side (swap : bool) (recs : list IpcBlock) : list Z :=
  if swap then dst_bytes recs else src_bytes recs.

Lemma d_side_kv pk gn n off pb db swap lo l :
  d_side swap (kv_records pk gn n off pb db swap lo l)
  = flat_map (fun t => seqZ (token_row db (n * kv_dts pk gn) (kv_dts pk gn) n t + off * pk) pk)
      (seqZ lo l) ++
    flat_map (fun t => seqZ (token_row db (n * kv_dts pk gn) (kv_dts pk gn) n t + off * pk
                             + kv_dk pk gn) pk) (seqZ lo l).
Proof.
  unfold d_side, kv_records. destruct swap;
    rewrite ?src_bytes_app, ?dst_bytes_app, ?src_bytes_map, ?dst_bytes_map; reflexivity.
Qed.

Lemma p_side_kv pk gn n off pb db swap lo l :
  p_side swap (kv_records pk gn n off pb db swap lo l)
  = flat_map (fun t => seqZ (token_row pb (n * kv_pts pk) (kv_pts pk) n t) pk) (seqZ lo l) ++
    flat_map (fun t => seqZ (token_row pb (n * kv_pts pk) (kv_pts pk) n t + pk) pk) (seqZ lo l).
Proof.
  unfold p_side, kv_records. destruct swap;
    rewrite ?src_bytes_app, ?dst_bytes_app, ?src_bytes_map, ?dst_bytes_map; reflexivity.
Qed.

(** The byte pairs of one rank: half [h] (K or V) of a row goes to the slot [off] of the
    same half of the wide row. *)
Lemma kv_pairs pk gn n off pb db swap lo l s a :
  (s, a) ∈ bytes_of (kv_records pk gn n off pb db swap lo l) <->
  exists t h k, lo <= t < lo + l /\ 0 <= h < 2 /\ 0 <= k < pk /\
    (if swap then a else s) = token_row pb (n * kv_pts pk) (kv_pts pk) n t + h * pk + k /\
    (if swap then s else a) = token_row db (n * kv_dts pk gn) (kv_dts pk gn) n t
                              + h * kv_dk pk gn + off * pk + k.
Proof.
  unfold kv_records. rewrite bytes_of_app, elem_of_app, !elem_of_bytes_map.
  unfold k_record, v_record, gt_record, sided. split.
  - intros [(t & k & Ht & Hk & -> & ->)|(t & k & Ht & Hk & -> & ->)];
      apply elem_of_seqZ in Ht; [exists t, 0, k|exists t, 1, k]; destruct swap; simpl in *; lia.
  - intros (t & h & k & Ht & Hh & Hk & Hs & Ha).
    assert (h = 0 \/ h = 1) as [-> | ->] by lia; [left|right]; exists t, k;
      rewrite elem_of_seqZ; destruct swap; simpl; lia.
Qed.

(** One rank's records use every byte of its own rows exactly once. *)
Lemma p_side_rows pk gn n off pb db swap lo l :
  0 <= pk ->
  p_side swap (kv_records pk gn n off pb db swap lo l)
  ≡ₚ flat_map (fun t => seqZ (token_row pb (n * kv_pts pk) (kv_pts pk) n t) (kv_pts pk))
       (seqZ lo l).
Proof.
  intros. rewrite p_side_kv, <- flat_map_app_perm.
  erewrite flat_map_ext_elem; [reflexivity|]. intros t _. simpl.
  rewrite <- seqZ_app by lia. f_equal. unfold kv_pts. lia.
Qed.

(** The ranks of a group use every byte of the wide rows exactly once. *)
Lemma d_side_group_rows pk gn n (pb : Z -> list Z) db swap lo l :
  0 <= pk -> 0 <= gn ->
  flat_map (fun off => d_side swap (kv_records pk gn n off (pb off) db swap lo l)) (seqZ 0 gn)
  ≡ₚ flat_map (fun t => seqZ (token_row db (n * kv_dts pk gn) (kv_dts pk gn) n t) (kv_dts pk gn))
       (seqZ lo l).
Proof.
  intros Hpk Hgn. set (D := token_row db (n * kv_dts pk gn) (kv_dts pk gn) n).
  erewrite flat_map_ext_elem by (intros; apply d_side_kv). fold D.
  rewrite flat_map_app_perm, (flat_map_swap (fun off t => seqZ (D t + off * pk) pk)),
    (flat_map_swap (fun off t => seqZ (D t + off * pk + kv_dk pk gn) pk)),
    <- flat_map_app_perm.
  erewrite flat_map_ext_elem; [reflexivity|]. intros t _. simpl.
  rewrite (seqZ_tile (D t) pk 0 gn) by done.
  rewrite (flat_map_ext_elem (fun x => seqZ (D t + x * pk + kv_dk pk gn) pk)
             (fun x => seqZ (D t + kv_dk pk gn + x * pk) pk)) by (intros; f_equal; lia).
  rewrite (seqZ_tile (D t + kv_dk pk gn) pk 0 gn) by done.
  rewrite !Z.mul_0_l, !Z.add_0_r. unfold kv_dk.
  rewrite (Z.mul_comm gn pk), <- seqZ_app by nia. f_equal. unfold kv_dts. lia.
Qed.

(** *** The entry points *)

(** The narrow side [p] of TP width [ptp] holds a [1/gn] slice of every row of the
    wide side [d]. *)
Record slice_layout (p d : WorkerInfo) (ptp dtp n pk gn : Z) : Prop := {
  sl_n : 0 < n < W32;
  sl_pk : 0 < pk;
  sl_p : side_layout p n (kv_pts pk);
  sl_d : side_layout d n (kv_dts pk gn);
  sl_dtp : 0 < dtp < ptp;
  sl_gn : ptp = gn * dtp;
  sl_rank : worker_tp_rank p / gn = worker_tp_rank d;
}.

(** Bounds of the two sides, seen from the sender. *)
Definition sided_bounds (swap : bool) (p_cap d_cap : Z) : IpcBlockBounds :=
  if swap then mkBounds d_cap p_cap 1 0 else mkBounds p_cap d_cap 1 0.

Lemma slice_kv_ready p d ptp dtp n pk gn lo l pb db swap :
  slice_layout p d ptp dtp n pk gn -> span_allocated p d n lo l pb db ->
  kv_ready pk gn n (worker_tp_rank p mod gn) pb db
    (sided_bounds swap (n * kv_pts pk * layer_num_blocks p)
                       (n * kv_dts pk gn * layer_num_blocks d)) swap lo (lo + l).
Proof.
  intros [? ? [] [] ? ? ?] []. assert (0 < gn) by nia.
  pose proof (Z.mod_pos_bound (worker_tp_rank p) gn ltac:(lia)).
  assert (0 < kv_pts pk /\ 0 < kv_dts pk gn) as [? ?] by (unfold kv_pts, kv_dts; nia).
  assert (0 < n * kv_pts pk /\ 0 < n * kv_dts pk gn) as [? ?] by nia.
  split; auto; unfold wf_bounds, p_capacity, d_capacity, sided_bounds; destruct swap; simpl;
    try nia; try (apply allocated_side_ready; [done|lia]); repeat split; try nia; auto.
Qed.

Lemma do_parse_block_send_internal_total p d ptp dtp n pk gn lo l pb db swap :
  env_bf162fp8_conversion = false ->
  slice_layout p d ptp dtp n pk gn -> span_allocated p d n lo l pb db ->
  do_parse_block_send_internal p ptp pb d dtp db lo l
    (sided_bounds swap (n * kv_pts pk * layer_num_blocks p)
                       (n * kv_dts pk gn * layer_num_blocks d)) swap []
  = Ok [kv_records pk gn n (worker_tp_rank p mod gn) pb db swap lo l].
Proof.
  intros Henv Hsl Hsa.
  assert (Hkv := slice_kv_ready _ _ _ _ _ _ _ _ _ _ _ swap Hsl Hsa).
  unfold do_parse_block_send_internal.
  destruct Hsl as [? ? [-> -> ? ?] [-> -> ? ?] ? ? ?]. destruct Hsa.
  rewrite !cassert_true by done. cbn [rbind].
  rewrite !(vec_at_Some [_] 0 (n * kv_pts pk)), !(vec_at_Some [_] 0 (n * kv_dts pk gn)),
    !(vec_at_Some [_] 0 (kv_pts pk)), !(vec_at_Some [_] 0 (kv_dts pk gn)) by done.
  cbn [rbind]. change (vsize [_]) with 1. rewrite upd_cache_fresh.
  rewrite (emit_kv_records_total pk gn n (worker_tp_rank p mod gn)) by done. done.
Qed.

Lemma parse_block_send_p_gt_d_total p d vr ktr ptp n pk gn task pb db :
  env_bf162fp8_conversion = false ->
  slice_layout p d ptp (engine_tp_size d) n pk gn ->
  span_allocated p d n (seen_tokens task) (new_tokens task) pb db ->
  src_blocks task !! 0%nat = Some pb -> dst_blocks task !! 0%nat = Some db ->
  parse_block_send_p_gt_d p d vr ptp ktr task []
  = Ok [kv_records pk gn n (worker_tp_rank p mod gn) pb db false
          (seen_tokens task) (new_tokens task)].
Proof.
  intros Henv Hsl Hsa Hp Hd. pose proof Hsl as [? ? [? ? ? ?] [? ? ? ?] ? ? ?].
  unfold parse_block_send_p_gt_d.
  assert (0 < kv_pts pk /\ 0 < kv_dts pk gn) as [? ?] by (unfold kv_pts, kv_dts; nia).
  erewrite make_bounds_single by (eauto; nia). cbn [rbind].
  rewrite (vec_idx_Some _ 0 pb), (vec_idx_Some _ 0 db) by done. cbn [rbind].
  by apply (do_parse_block_send_internal_total p d _ _ _ _ _ _ _ _ _ false).
Qed.

Lemma parse_block_send_p_lt_d_total p d vr ktr ptp n pk gn task pb db :
  env_bf162fp8_conversion = false ->
  slice_layout d p (engine_tp_size d) ptp n pk gn ->
  span_allocated d p n (seen_tokens task) (new_tokens task) db pb ->
  src_blocks task !! 0%nat = Some pb -> dst_blocks task !! 0%nat = Some db ->
  parse_block_send_p_lt_d p d vr ptp ktr task []
  = Ok [kv_records pk gn n (worker_tp_rank d mod gn) db pb true
          (seen_tokens task) (new_tokens task)].
Proof.
  intros Henv Hsl Hsa Hp Hd. pose proof Hsl as [? ? [? ? ? ?] [? ? ? ?] ? ? ?].
  unfold parse_block_send_p_lt_d.
  assert (0 < kv_pts pk /\ 0 < kv_dts pk gn) as [? ?] by (unfold kv_pts, kv_dts; nia).
  erewrite make_bounds_single by (eauto; nia). cbn [rbind].
  rewrite (vec_idx_Some _ 0 pb), (vec_idx_Some _ 0 db) by done. cbn [rbind].
  by apply (do_parse_block_send_internal_total d p _ _ _ _ _ _ _ _ _ true).
Qed.
End RaggedCorrect.

(** ** Properties *)

(** C1: RAGGED layout, equal TP: when the two workers register the same single-tensor layout
    and the blocks of the step's tokens are allocated on both sides, parse_block_send_p_eq_d
    returns records whose execution copies the row of every token of the step to the same
    token's row on the destination and changes no other destination byte. *)
Theorem ragged_p_eq_d_transfers `{Env} src dst vr n ts task sblks dblks :
  env_bf162fp8_conversion = false -> worker_tp_rank src = worker_tp_rank dst ->
  equal_layout src dst n ts -> task_allocated src dst n task sblks dblks -> NoDup dblks ->
  exists recs,
    parse_block_send_p_eq_d src dst vr (engine_tp_size dst) (worker_tp_rank src) task []
    = Ok [recs] /\
    forall msrc mdst, let final := exec_copy msrc recs mdst in
      (forall t k, seen_tokens task <= t < seen_tokens task + new_tokens task -> 0 <= k < ts ->
         final (token_row dblks (n * ts) ts n t + k) = msrc (token_row sblks (n * ts) ts n t + k))
      /\
      (forall a, (forall t, seen_tokens task <= t < seen_tokens task + new_tokens task ->
           ~ token_row dblks (n * ts) ts n t <= a < token_row dblks (n * ts) ts n t + ts) ->
         final a = mdst a).
Proof.
  intros Henv Hrank Hel Hta Hnd.
  destruct (parse_block_send_p_eq_d_total src dst vr n ts task sblks dblks)
    as (recs & Hok & Hbytes); [done..|].
  exists recs. split; [done|]. intros msrc mdst final.
  unfold final, exec_copy. rewrite Hbytes.
  pose proof Hel as []. pose proof Hta as [].
  apply (token_copies_effect ts n sblks dblks (n * ts * layer_num_blocks dst)); auto; [|lia].
  apply allocated_side_ready; [done|nia].
Qed.

Lemma ragged_p_eq_d_transfers_witness :
  let w := one_tensor_worker 1 0 8 4 8 in
  let task := example_task [[3; 5]] [[7; 2]] 1 3 false in
  exists recs,
    parse_block_send_p_eq_d (H := debug_env) w w 1 1 0 task [] = Ok [recs] /\
    forall msrc mdst, let final := exec_copy msrc recs mdst in
      (forall t k, 1 <= t < 4 -> 0 <= k < 4 ->
         final (token_row [7; 2] 8 4 2 t + k) = msrc (token_row [3; 5] 8 4 2 t + k)) /\
      (forall a, (forall t, 1 <= t < 4 ->
           ~ token_row [7; 2] 8 4 2 t <= a < token_row [7; 2] 8 4 2 t + 4) -> final a = mdst a).
Proof.
  apply (ragged_p_eq_d_transfers (H := debug_env) (one_tensor_worker 1 0 8 4 8)
    (one_tensor_worker 1 0 8 4 8) 1 2 4 (example_task [[3; 5]] [[7; 2]] 1 3 false) [3; 5] [7; 2]).
  - reflexivity.
  - reflexivity.
  - split; done.
  - split; try done; apply allocated_b_sound; vm_compute; reflexivity.
  - by apply (bool_decide_unpack _).
Defined.

(** C2: RAGGED layout, P>D: every source rank of a group places the K and V half of each
    token row in its own slot of the matching half of the destination row (the byte pairs
    are given exactly), and the ranks of the group together write every byte of the
    destination rows of the step exactly once. *)
Theorem ragged_p_gt_d_group_complete `{Env} (p : Z -> WorkerInfo) d vr ktr ptp n pk gn lo l
    (task : Z -> ReqSendTask) (pb : Z -> list Z) db :
  env_bf162fp8_conversion = false ->
  (forall off, 0 <= off < gn ->
     worker_tp_rank (p off) = worker_tp_rank d * gn + off /\
     slice_layout (p off) d ptp (engine_tp_size d) n pk gn /\
     span_allocated (p off) d n lo l (pb off) db /\
     seen_tokens (task off) = lo /\ new_tokens (task off) = l /\
     src_blocks (task off) !! 0%nat = Some (pb off) /\ dst_blocks (task off) !! 0%nat = Some db) ->
  0 <= gn -> 0 <= pk ->
  exists recs : Z -> list IpcBlock,
    (forall off, 0 <= off < gn ->
       parse_block_send_p_gt_d (p off) d vr ptp ktr (task off) [] = Ok [recs off] /\
       forall s a, (s, a) ∈ bytes_of (recs off) <->
         exists t h k, lo <= t < lo + l /\ 0 <= h < 2 /\ 0 <= k < pk /\
           s = token_row (pb off) (n * kv_pts pk) (kv_pts pk) n t + h * pk + k /\
           a = token_row db (n * kv_dts pk gn) (kv_dts pk gn) n t + h * kv_dk pk gn
               + off * pk + k) /\
    flat_map (fun off => dst_bytes (recs off)) (seqZ 0 gn)
    ≡ₚ flat_map (fun t => seqZ (token_row db (n * kv_dts pk gn) (kv_dts pk gn) n t)
                            (kv_dts pk gn)) (seqZ lo l).
Proof.
  intros Henv Hp Hgn Hpk. exists (fun off => kv_records pk gn n off (pb off) db false lo l).
  split; [|exact (d_side_group_rows pk gn n pb db false lo l Hpk Hgn)].
  intros off Hoff. split; [|intros; apply (kv_pairs pk gn n off (pb off) db false)].
  destruct (Hp off Hoff) as (Hr & Hsl & Hsa & <- & <- & Hs & Hd).
  rewrite (parse_block_send_p_gt_d_total _ _ vr ktr _ _ _ _ _ _ _ Henv Hsl Hsa Hs Hd).
  do 3 f_equal. rewrite Hr, Z.add_comm, Z.mod_add, Z.mod_small by lia. done.
Qed.

Lemma ragged_p_gt_d_group_complete_witness :
  exists recs : Z -> list IpcBlock,
    (forall off, 0 <= off < 2 ->
       parse_block_send_p_gt_d (H := debug_env) (one_tensor_worker 4 (1 * 2 + off) 8 4 8)
         (one_tensor_worker 2 1 16 8 8) 15 4 0 (example_task [[3; 5]] [[7; 2]] 1 3 false) []
       = Ok [recs off] /\
       forall s a, (s, a) ∈ bytes_of (recs off) <->
         exists t h k, 1 <= t < 1 + 3 /\ 0 <= h < 2 /\ 0 <= k < 2 /\
           s = token_row [3; 5] 8 4 2 t + h * 2 + k /\
           a = token_row [7; 2] 16 8 2 t + h * 4 + off * 2 + k) /\
    flat_map (fun off => dst_bytes (recs off)) (seqZ 0 2)
    ≡ₚ flat_map (fun t => seqZ (token_row [7; 2] 16 8 2 t) 8) (seqZ 1 3).
Proof.
  apply (ragged_p_gt_d_group_complete (H := debug_env)
    (fun off => one_tensor_worker 4 (1 * 2 + off) 8 4 8) (one_tensor_worker 2 1 16 8 8) 15 0 4
    2 2 2 1 3 (fun _ => example_task [[3; 5]] [[7; 2]] 1 3 false) (fun _ => [3; 5]) [7; 2]).
  - reflexivity.
  - intros off Hoff. split; [reflexivity|]. split.
    { split; try done. cbn [worker_tp_rank one_tensor_worker].
      assert (off = 0 \/ off = 1) as [-> | ->] by lia; reflexivity. }
    split; [|done]. split; try done; apply allocated_b_sound; vm_compute; reflexivity.
  - done.
  - done.
Defined.

(** C3: RAGGED layout, P<D: every destination rank of a group receives each byte of its own
    token rows exactly once, taken from its slot of the K and of the V half of the wide
    source row (the byte pairs are given exactly), and the group together reads every byte
    of the source rows exactly once. *)
Theorem ragged_p_lt_d_group_complete `{Env} p (d : Z -> WorkerInfo) vr ktr ptp dtp n pk gn lo l
    (task : Z -> ReqSendTask) pb (db : Z -> list Z) :
  env_bf162fp8_conversion = false ->
  (forall off, 0 <= off < gn ->
     worker_tp_rank (d off) = worker_tp_rank p * gn + off /\ engine_tp_size (d off) = dtp /\
     slice_layout (d off) p dtp ptp n pk gn /\
     span_allocated (d off) p n lo l (db off) pb /\
     seen_tokens (task off) = lo /\ new_tokens (task off) = l /\
     src_blocks (task off) !! 0%nat = Some pb /\ dst_blocks (task off) !! 0%nat = Some (db off)) ->
  0 <= gn -> 0 <= pk ->
  exists recs : Z -> list IpcBlock,
    (forall off, 0 <= off < gn ->
       parse_block_send_p_lt_d p (d off) vr ptp ktr (task off) [] = Ok [recs off] /\
       (forall s a, (s, a) ∈ bytes_of (recs off) <->
         exists t h k, lo <= t < lo + l /\ 0 <= h < 2 /\ 0 <= k < pk /\
           a = token_row (db off) (n * kv_pts pk) (kv_pts pk) n t + h * pk + k /\
           s = token_row pb (n * kv_dts pk gn) (kv_dts pk gn) n t + h * kv_dk pk gn
               + off * pk + k) /\
       dst_bytes (recs off)
       ≡ₚ flat_map (fun t => seqZ (token_row (db off) (n * kv_pts pk) (kv_pts pk) n t)
                               (kv_pts pk)) (seqZ lo l)) /\
    flat_map (fun off => src_bytes (recs off)) (seqZ 0 gn)
    ≡ₚ flat_map (fun t => seqZ (token_row pb (n * kv_dts pk gn) (kv_dts pk gn) n t)
                            (kv_dts pk gn)) (seqZ lo l).
Proof.
  intros Henv Hd Hgn Hpk. exists (fun off => kv_records pk gn n off (db off) pb true lo l).
  split; [|exact (d_side_group_rows pk gn n db pb true lo l Hpk Hgn)].
  intros off Hoff. destruct (Hd off Hoff) as (Hr & Htp & Hsl & Hsa & <- & <- & Hs & Hdb).
  split; [|split; [intros; apply (kv_pairs pk gn n off (db off) pb true)
                  |by apply (p_side_rows pk gn n off (db off) pb true)]].
  rewrite <- Htp in Hsl.
  rewrite (parse_block_send_p_lt_d_total _ _ vr ktr _ _ _ _ _ _ _ Henv Hsl Hsa Hs Hdb).
  do 3 f_equal. rewrite Hr, Z.add_comm, Z.mod_add, Z.mod_small by lia. done.
Qed.

Lemma ragged_p_lt_d_group_complete_witness :
  exists recs : Z -> list IpcBlock,
    (forall off, 0 <= off < 2 ->
       parse_block_send_p_lt_d (H := debug_env) (one_tensor_worker 2 1 16 8 8)
         (one_tensor_worker 4 (1 * 2 + off) 8 4 8) 3 2 0
         (example_task [[3; 5]] [[7; 2]] 1 3 false) [] = Ok [recs off] /\
       (forall s a, (s, a) ∈ bytes_of (recs off) <->
         exists t h k, 1 <= t < 1 + 3 /\ 0 <= h < 2 /\ 0 <= k < 2 /\
           a = token_row [7; 2] 8 4 2 t + h * 2 + k /\
           s = token_row [3; 5] 16 8 2 t + h * 4 + off * 2 + k) /\
       dst_bytes (recs off) ≡ₚ flat_map (fun t => seqZ (token_row [7; 2] 8 4 2 t) 4) (seqZ 1 3)) /\
    flat_map (fun off => src_bytes (recs off)) (seqZ 0 2)
    ≡ₚ flat_map (fun t => seqZ (token_row [3; 5] 16 8 2 t) 8) (seqZ 1 3).
Proof.
  apply (ragged_p_lt_d_group_complete (H := debug_env) (one_tensor_worker 2 1 16 8 8)
    (fun off => one_tensor_worker 4 (1 * 2 + off) 8 4 8) 3 0 2 4
    2 2 2 1 3 (fun _ => example_task [[3; 5]] [[7; 2]] 1 3 false) [3; 5] (fun _ => [7; 2])).
  - reflexivity.
  - intros off Hoff. split; [reflexivity|]. split; [reflexivity|]. split.
    { split; try done. cbn [worker_tp_rank one_tensor_worker].
      assert (off = 0 \/ off = 1) as [-> | ->] by lia; reflexivity. }
    split; [|done]. split; try done; apply allocated_b_sound; vm_compute; reflexivity.
  - done.
  - done.
Defined.

(** ** With bf16-to-fp8 conversion *)

(** A build with the conversion switched on. *)
Definition fp8_env (release : bool) : Env := {|
  ndebug := release; env_bf162fp8_conversion := true; env_pad_last_attn_block := true;
  env_cache_shape := 1 |}.

(** RAGGED P>D with bf16-to-fp8 conversion on a concrete pair of workers: a debug build
    aborts, and a release build emits a V record twice as long as the K record it belongs
    to, because only the K loop halves the size. *)
Theorem fp8_v_records_keep_full_length :
  let run release := parse_block_send_p_gt_d (H := fp8_env release)
    (one_tensor_worker 4 2 16 8 8) (one_tensor_worker 2 1 32 16 8) 15 4 2
    (example_task [[3]] [[6]] 0 1 false) [] in
  run false = Err AssertFailed /\
  exists k v, run true = Ok [[k; v]] /\ length_ k = 2 /\ length_ v = 4.
Proof. split; [reflexivity|]. eexists _, _. vm_compute. auto. Qed.
