(* ===== verification/ParseFlash.v ===== *)
(** FLASH_CACHE_SHAPE, [src/parse_block_flash.cpp]: one cache tensor per layer,
    laid out as (2, num_blocks, block_size, num_kv_heads, head_dim), so the V
    plane starts one K plane after the K data. *)

From S2P Require Import Prelude Common CopySpec ParseCommon TokenCopy.

Section Flash.
Context `{Env}.

(** Repeat the records at indices [lo, hi) one layer plane further. *)
Definition emit_v_plane (src_layer_size dst_layer_size : Z) (bounds : IpcBlockBounds)
    (lo hi : Z) (blocks : list IpcBlock) : res (list IpcBlock) :=
  for_range lo hi (fun sb_idx blocks =>
    let* sb := vec_at blocks sb_idx in
    append_ipc_block_checked blocks bounds
      (u64 (src_offset sb + src_layer_size)) (u64 (dst_offset sb + dst_layer_size))
      (length_ sb)) blocks.

Definition vllm_parse_block_send_p_eq_d : ParseBlockFunc :=
  fun src dst valid_ranks kvt_tp_size kvt_tp_rank task send_blocks =>
  assert: kvt_tp_size =? engine_tp_size dst;
  assert: bool_decide (token_sizes src = token_sizes dst);
  assert: bool_decide (block_sizes src = block_sizes dst);
  assert: worker_tp_rank src =? worker_tp_rank dst;
  assert: vsize (token_sizes src) =? vsize (block_sizes src);
  assert: vsize (token_sizes dst) =? vsize (block_sizes dst);
  assert: vsize (token_sizes src) =? 1;
  assert: vsize (block_sizes src) =? 1;
  let* kv_token_size := vec_at (token_sizes src) 0 in
  let* kv_block_size := vec_at (block_sizes src) 0 in
  let k_token_size := kv_token_size / 2 in
  let k_block_size := kv_block_size / 2 in
  assert: u64 (2 * k_token_size) =? kv_token_size;
  assert: u64 (2 * k_block_size) =? kv_block_size;
  let src_layer_size := u64 (k_block_size * layer_num_blocks src) in
  let dst_layer_size := u64 (k_block_size * layer_num_blocks dst) in
  let send_blocks := vec_resize [] (vsize (token_sizes src)) send_blocks in
  upd_cache 0 (fun blocks =>
    let* bounds := make_ipc_block_bounds src dst 0 in
    let sb_idx := vsize blocks in
    let* blocks := do_parse_block_send_p_eq_d k_block_size k_token_size task bounds blocks in
    let sb_end_idx := vsize blocks in
    emit_v_plane src_layer_size dst_layer_size bounds sb_idx sb_end_idx blocks) send_blocks.

Definition vllm_parse_block_send_p_gt_d : ParseBlockFunc :=
  fun p d valid_ranks kvt_tp_size kvt_tp_rank task send_blocks =>
  let* sends := bit_idx valid_ranks (worker_tp_rank p) in
  if negb sends then Ok send_blocks else
  assert: engine_tp_size d <? kvt_tp_size;
  let* group_n := udiv (bit_count valid_ranks) (engine_tp_size d) in
  assert: 0 <? group_n;
  assertM: (let* q := udiv kvt_tp_rank group_n in Ok (q =? worker_tp_rank d));
  let* group_off := umod kvt_tp_rank group_n in
  assert: vsize (token_sizes p) =? 1;
  assert: vsize (token_sizes d) =? 1;
  assert: vsize (block_sizes p) =? 1;
  assert: vsize (block_sizes d) =? 1;
  let* p_token_size := vec_at (token_sizes p) 0 in
  let* d_token_size := vec_at (token_sizes d) 0 in
  let* p_block_size := vec_at (block_sizes p) 0 in
  let* d_block_size := vec_at (block_sizes d) 0 in
  assert: d_token_size =? u64 (p_token_size * group_n);
  assert: d_token_size mod 2 =? 0;
  assert: p_token_size mod 2 =? 0;
  let p_k_size := p_token_size / 2 in
  let d_k_size := d_token_size / 2 in
  assert: d_k_size =? u64 (p_k_size * group_n);
  let* q := udiv p_block_size p_token_size in
  let ntpb := u32 q in
  assert: u64 (ntpb * p_token_size) =? p_block_size;
  assert: u64 (ntpb * d_token_size) =? d_block_size;
  let send_blocks := vec_resize [] (vsize (token_sizes p)) send_blocks in
  upd_cache 0 (fun blocks =>
    let* bounds := make_ipc_block_bounds p d 0 in
    let sb_idx := vsize blocks in
    let* p_blocks := vec_idx (src_blocks task) 0 in
    let* d_blocks := vec_idx (dst_blocks task) 0 in
    let* blocks := parse_block_send_gt p_k_size p_k_size d_k_size ntpb group_off
      p_blocks d_blocks (seen_tokens task) (new_tokens task) bounds false blocks in
    let sb_end_idx := vsize blocks in
    let pk_layer_size := u64 (ntpb * p_k_size * layer_num_blocks p) in
    let dk_layer_size := u64 (ntpb * d_k_size * layer_num_blocks d) in
    emit_v_plane pk_layer_size dk_layer_size bounds sb_idx sb_end_idx blocks) send_blocks.

(** ** Contract *)

Lemma emit_v_plane_grown b sl dl lo hi blocks :
  wf_bounds b -> wpr (emit_v_plane sl dl b lo hi blocks) (grown b blocks).
Proof. intros. unfold emit_v_plane. emit_solve. Qed.
#[local] Hint Resolve emit_v_plane_grown : wpr_db.

#[export] Instance vllm_parse_block_send_p_eq_d_spec :
  ParseBlockSpec vllm_parse_block_send_p_eq_d src_tensors.
Proof. split. intros. unfold vllm_parse_block_send_p_eq_d. parse_solve. Qed.

#[export] Instance vllm_parse_block_send_p_gt_d_spec :
  ParseBlockSpec vllm_parse_block_send_p_gt_d src_tensors.
Proof. split. intros. unfold vllm_parse_block_send_p_gt_d. parse_solve. Qed.

End Flash.

(** ** Functional correctness *)

Section FlashCorrect.
Context `{Env}.

(** Records that stay within one plane on both sides are repeated one plane further. *)
Lemma emit_v_plane_total b ls ld pre ks :
  wf_bounds b -> src_length_scale b = 1 -> ls + ls <= src_capacity b -> ld + ld <= dst_capacity b ->
  Forall (in_plane ls ld) ks ->
  emit_v_plane ls ld b (vsize pre) (vsize (pre ++ ks)) (pre ++ ks)
  = Ok (pre ++ ks ++ (shift_block ls ld <$> ks)).
Proof.
  intros Hb Hsc Hls Hld Hks. pose proof Hb as ([? ?] & [? ?] & _).
  unfold emit_v_plane. rewrite (for_range_replay (shift_block ls ld)); [done|].
  intros k out Hk. rewrite Forall_forall in Hks.
  destruct (Hks k Hk) as (? & ? & ? & ? & ?).
  u64_norm. apply append_ok; rewrite ?Hsc; auto; lia.
Qed.

Lemma flash_copy_ready src dst n kt task sblks dblks :
  equal_layout src dst n (2 * kt) -> task_allocated src dst n task sblks dblks ->
  copy_ready kt n sblks dblks
    (mkBounds (n * (2 * kt) * layer_num_blocks src) (n * (2 * kt) * layer_num_blocks dst) 1 0)
    (n * kt * layer_num_blocks src) (n * kt * layer_num_blocks dst)
    (seen_tokens task) (seen_tokens task + new_tokens task).
Proof.
  intros [] []. assert (0 < n * kt) by nia. split; simpl; auto; try lia.
  - repeat split; simpl; nia.
  - apply allocated_side_ready; [done|nia].
  - apply allocated_side_ready; [done|nia].
Qed.

Lemma vllm_parse_block_send_p_eq_d_total src dst vr ktr n kt task sblks dblks :
  env_bf162fp8_conversion = false -> worker_tp_rank src = worker_tp_rank dst ->
  equal_layout src dst n (2 * kt) -> task_allocated src dst n task sblks dblks ->
  exists ks,
    vllm_parse_block_send_p_eq_d src dst vr (engine_tp_size dst) ktr task []
    = Ok [ks ++ (shift_block (n * kt * layer_num_blocks src) (n * kt * layer_num_blocks dst)
                 <$> ks)] /\
    bytes_of ks
    = bytes_of (token_copy kt n sblks dblks <$> seqZ (seen_tokens task) (new_tokens task)).
Proof.
  intros Henv Hrank Hel Hta. pose proof Hel as []. pose proof Hta as [].
  pose proof (flash_copy_ready _ _ _ _ _ _ _ Hel Hta) as Hcr.
  assert (0 < n * kt) by nia.
  destruct (do_parse_block_send_p_eq_d_total kt n sblks dblks _ _ _ task []
    ta_src ta_dst Hcr) as (ks & Hdo & Hbytes & Hplane); [done|nia|].
  exists ks. split; [|done]. unfold vllm_parse_block_send_p_eq_d.
  rewrite el_src_ts, el_dst_ts, el_src_bs, el_dst_bs, Hrank, !Z.eqb_refl,
    !bool_decide_eq_true_2 by done.
  rewrite !cassert_true by done. cbn [rbind].
  rewrite (vec_at_Some [_] 0 (2 * kt)), (vec_at_Some [_] 0 (n * (2 * kt))) by done. cbn [rbind].
  replace (2 * kt / 2) with kt by (rewrite Z.mul_comm, Z.div_mul; lia).
  replace (n * (2 * kt) / 2) with (n * kt)
    by (replace (n * (2 * kt)) with (n * kt * 2) by lia; rewrite Z.div_mul; lia).
  rewrite !(u64_small (2 * _)) by nia.
  rewrite !cassert_true by lia. cbn [rbind].
  rewrite !(u64_small (n * kt * _)) by nia.
  change (vsize [2 * kt]) with 1. rewrite upd_cache_fresh.
  erewrite make_bounds_single by (eauto; nia). cbn [rbind]. rewrite Hdo. cbn [rbind app].
  rewrite (emit_v_plane_total _ _ _ [] ks); auto; simpl; try nia; apply Hcr.
Qed.

Lemma dst_bytes_shift ds dd l : dst_bytes (shift_block ds dd <$> l) = Z.add dd <$> dst_bytes l.
Proof.
  unfold dst_bytes. rewrite bytes_of_shift, <- !list_fmap_compose.
  apply list_fmap_ext. intros. simpl. lia.
Qed.

(** Destination rows lie in the K plane, so the V copies cannot hit them. *)
Lemma planes_NoDup ks ds ld :
  NoDup (dst_bytes ks) -> (forall a, a ∈ dst_bytes ks -> 0 <= a < ld) ->
  NoDup (dst_bytes (ks ++ (shift_block ds ld <$> ks))).
Proof.
  intros Hnd Hin. rewrite dst_bytes_app, dst_bytes_shift. apply NoDup_app.
  split; [done|]. split.
  - intros a Ha Hb. apply list_elem_of_fmap in Hb as (a' & -> & Ha').
    apply Hin in Ha, Ha'. lia.
  - apply NoDup_fmap_2; [|done]. intros x y. lia.
Qed.

Lemma token_rows_in_plane ts n sblks dblks cap lo l a :
  side_ready dblks (n * ts) n cap lo (lo + l) -> 0 < n -> 0 < ts -> 0 <= lo ->
  a ∈ dst_bytes (token_copy ts n sblks dblks <$> seqZ lo l) -> 0 <= a < cap.
Proof.
  intros Hr Hn Hts Hlo Ha. rewrite dst_bytes_map in Ha.
  apply list_elem_of_In, in_flat_map in Ha as (t & Ht & Ha).
  apply list_elem_of_In in Ht, Ha. rewrite elem_of_seqZ in *. simpl in Ha.
  pose proof (Z.mod_pos_bound t n Hn).
  destruct (row_fits dblks ts n cap t (lo + l) 1 (side_ready_sub _ _ _ _ lo (lo + l) t (lo + l)
    Hr ltac:(lia) ltac:(lia))); lia.
Qed.

(** *** P>D *)

(** P is the narrow side: [pk] bytes of K per token, [1/gn] of the D row. *)
Record flash_slice (p d : WorkerInfo) (vr : bitset) (kvt_size kvt_rank n pk gn : Z) : Prop := {
  fs_n : 0 < n < W32;
  fs_pk : 0 < pk;
  fs_p : side_layout p n (2 * pk);
  fs_d : side_layout d n (2 * pk * gn);
  fs_sends : bit_idx vr (worker_tp_rank p) = Ok true;
  fs_dtp : 0 < engine_tp_size d < kvt_size;
  fs_gn : 0 < gn /\ bit_count vr / engine_tp_size d = gn;
  fs_rank : kvt_rank / gn = worker_tp_rank d;
}.

(** The K records of one rank. *)
Definition flash_k_records (pk gn n off : Z) (pb db : list Z) (lo l : Z) : list IpcBlock :=
  gt_record pk pk (pk * gn) n off pb db false <$> seqZ lo l.

Lemma flash_gt_ready p d vr ks kr n pk gn lo l pb db :
  flash_slice p d vr ks kr n pk gn -> span_allocated p d n lo l pb db ->
  gt_ready pk pk (pk * gn) n (kr mod gn) pb db
    (mkBounds (n * (2 * pk) * layer_num_blocks p) (n * (2 * pk * gn) * layer_num_blocks d) 1 0)
    false lo (lo + l).
Proof.
  intros [? ? [] [] ? ? [? ?] ?] [].
  pose proof (Z.mod_pos_bound kr gn ltac:(lia)). assert (0 < pk * gn) by nia.
  assert (0 < n * pk /\ 0 < n * (pk * gn)) as [? ?] by nia.
  split; auto; unfold wf_bounds, p_capacity, d_capacity; simpl; try nia.
  - intros t Ht. destruct (sa_p t Ht) as (blk & ? & ?). exists blk. repeat split; auto; nia.
  - intros t Ht. destruct (sa_d t Ht) as (blk & ? & ?). exists blk. repeat split; auto; nia.
Qed.

Lemma flash_k_in_plane p d vr ks kr n pk gn lo l pb db :
  flash_slice p d vr ks kr n pk gn -> span_allocated p d n lo l pb db ->
  Forall (in_plane (n * pk * layer_num_blocks p) (n * (pk * gn) * layer_num_blocks d))
    (flash_k_records pk gn n (kr mod gn) pb db lo l).
Proof.
  intros [? ? [] [] ? ? [? ?] ?] [].
  pose proof (Z.mod_pos_bound kr gn ltac:(lia)). assert (0 < pk * gn) by nia.
  apply Forall_forall. intros k Hk. apply list_elem_of_fmap in Hk as (t & -> & Ht).
  rewrite elem_of_seqZ in Ht. pose proof (Z.mod_pos_bound t n ltac:(lia)).
  assert (0 <= n * pk /\ 0 <= n * (pk * gn)) as [? ?] by nia.
  pose proof (allocated_side_ready _ _ _ _ _ (n * pk) sa_p) as Hp.
  pose proof (allocated_side_ready _ _ _ _ _ (n * (pk * gn)) sa_d) as Hd.
  destruct (row_fits pb pk n _ t (lo + l) 1 (side_ready_sub _ _ _ _ lo (lo + l) t (lo + l)
    (Hp ltac:(lia)) ltac:(lia) ltac:(lia))) as [Hp1 Hp2]; [lia..|].
  destruct (row_fits db (pk * gn) n _ t (lo + l) 1 (side_ready_sub _ _ _ _ lo (lo + l) t (lo + l)
    (Hd ltac:(lia)) ltac:(lia) ltac:(lia))) as [Hd1 Hd2]; [lia..|].
  unfold in_plane, gt_record, sided; simpl. assert (0 <= kr mod gn * pk) by nia.
  assert (kr mod gn * pk + pk <= pk * gn) by nia. lia.
Qed.

Lemma vllm_parse_block_send_p_gt_d_total p d vr ks kr n pk gn task pb db :
  env_bf162fp8_conversion = false ->
  flash_slice p d vr ks kr n pk gn ->
  span_allocated p d n (seen_tokens task) (new_tokens task) pb db ->
  src_blocks task !! 0%nat = Some pb -> dst_blocks task !! 0%nat = Some db ->
  let k := flash_k_records pk gn n (kr mod gn) pb db (seen_tokens task) (new_tokens task) in
  vllm_parse_block_send_p_gt_d p d vr ks kr task []
  = Ok [k ++ (shift_block (n * pk * layer_num_blocks p) (n * (pk * gn) * layer_num_blocks d)
              <$> k)].
Proof.
  intros Henv Hfs Hsa Hp Hd k.
  pose proof (flash_gt_ready _ _ _ _ _ _ _ _ _ _ _ _ Hfs Hsa) as Hgt.
  pose proof (flash_k_in_plane _ _ _ _ _ _ _ _ _ _ _ _ Hfs Hsa) as Hplane. fold k in Hplane.
  unfold vllm_parse_block_send_p_gt_d.
  destruct Hfs as [? ? [Hpb Hpt ? ?] [Hdb Hdt ? ?] -> ? [? Hgn] ?]. destruct Hsa.
  rewrite Hpb, Hpt, Hdb, Hdt.
  assert (0 < pk * gn) by nia. assert (0 < n * pk /\ 0 < n * (pk * gn)) as [? ?] by nia.
  cbn [rbind negb]. rewrite cassert_true by lia. rewrite udiv_ok by lia. cbn [rbind].
  rewrite Hgn, cassert_true by lia. rewrite !udiv_ok, !umod_ok by lia. cbn [rbind].
  rewrite cassertM_true by (f_equal; lia). cbn [rbind]. rewrite !cassert_true by done. cbn [rbind].
  rewrite !(vec_at_Some [_] 0 (2 * pk)), !(vec_at_Some [_] 0 (2 * pk * gn)),
    !(vec_at_Some [_] 0 (n * (2 * pk))), !(vec_at_Some [_] 0 (n * (2 * pk * gn))) by done.
  cbn [rbind].
  replace (2 * pk / 2) with pk by (rewrite Z.mul_comm, Z.div_mul; lia).
  replace (2 * pk * gn) with (pk * gn * 2) in * by lia. rewrite (Z.div_mul (pk * gn)) by lia.
  assert (0 < n * (2 * pk) < W64 /\ 0 < n * (pk * gn * 2) < W64) as [? ?] by nia.
  rewrite udiv_ok by lia. cbn [rbind]. rewrite Z.div_mul, (u32_small n) by lia.
  rewrite !(u64_small (n * _)) by lia. rewrite !(u64_small (pk * gn * _)) by nia.
  rewrite (u64_small (pk * gn)) by nia.
  rewrite !cassert_true by (rewrite ?(Z.mul_comm 2 pk), ?Z.mod_mul by lia; lia). cbn [rbind].
  change (vsize [2 * pk]) with 1. rewrite upd_cache_fresh.
  erewrite make_bounds_single by (eauto; nia). cbn [rbind].
  rewrite (vec_idx_Some _ 0 pb), (vec_idx_Some _ 0 db) by done. cbn [rbind].
  rewrite parse_block_send_gt_total by auto. cbn [rbind app].
  rewrite !(u64_small (n * _ * _)) by nia.
  fold (flash_k_records pk gn n (kr mod gn) pb db (seen_tokens task) (new_tokens task)). fold k.
  rewrite (emit_v_plane_total _ _ _ [] k); auto; simpl; try nia; apply Hgt.
Qed.
End FlashCorrect.

(** The byte pairs of one rank: in each plane, its row slice goes to slot [off]. *)
Lemma flash_pairs pk gn n off pb db lo l lp ld s a :
  (s, a) ∈ bytes_of (flash_k_records pk gn n off pb db lo l ++
                     (shift_block lp ld <$> flash_k_records pk gn n off pb db lo l)) <->
  exists t plane k, lo <= t < lo + l /\ 0 <= plane < 2 /\ 0 <= k < pk /\
    s = plane * lp + token_row pb (n * pk) pk n t + k /\
    a = plane * ld + token_row db (n * (pk * gn)) (pk * gn) n t + off * pk + k.
Proof.
  unfold flash_k_records. rewrite bytes_of_app, elem_of_app, <- list_fmap_compose.
  rewrite !elem_of_bytes_map. unfold compose, shift_block, gt_record, sided. split.
  - intros [(t & k & Ht & Hk & -> & ->)|(t & k & Ht & Hk & -> & ->)];
      apply elem_of_seqZ in Ht; [exists t, 0, k|exists t, 1, k]; simpl in *; lia.
  - intros (t & plane & k & Ht & Hh & Hk & -> & ->).
    assert (plane = 0 \/ plane = 1) as [-> | ->] by lia; [left|right]; exists t, k;
      rewrite elem_of_seqZ; simpl; lia.
Qed.

(** ** Properties *)

(** FLASH layout, equal TP: the records of a step stand for the byte copies of every token
    row in the K plane and, one plane further on each side, in the V plane; no destination
    byte is written twice. *)
Theorem flash_p_eq_d_transfers `{Env} src dst vr ktr n kt task sblks dblks :
  env_bf162fp8_conversion = false -> worker_tp_rank src = worker_tp_rank dst ->
  equal_layout src dst n (2 * kt) -> task_allocated src dst n task sblks dblks -> NoDup dblks ->
  exists recs,
    vllm_parse_block_send_p_eq_d src dst vr (engine_tp_size dst) ktr task [] = Ok [recs] /\
    bytes_of recs = bytes_of (flat_map (fun plane =>
      (fun t => shift_block (plane * (n * kt * layer_num_blocks src))
                            (plane * (n * kt * layer_num_blocks dst))
                            (token_copy kt n sblks dblks t))
      <$> seqZ (seen_tokens task) (new_tokens task)) [0; 1]) /\
    NoDup (dst_bytes recs).
Proof.
  intros Henv Hrank Hel Hta Hnd.
  destruct (vllm_parse_block_send_p_eq_d_total src dst vr ktr n kt task sblks dblks)
    as (ks & Hok & Hb); [done..|].
  pose proof Hel as []. pose proof Hta as []. assert (0 < n * kt) by nia.
  eexists. split; [exact Hok|]. split.
  - simpl. rewrite app_nil_r, !bytes_of_app, bytes_of_shift, Hb.
    rewrite !bytes_of_shift_map. f_equal; [rewrite <- (list_fmap_id (bytes_of _)) at 1|];
      apply list_fmap_ext; intros ? [? ?] ?; simpl; f_equal; lia.
  - assert (Hr : side_ready dblks (n * kt) n (n * kt * layer_num_blocks dst)
              (seen_tokens task) (seen_tokens task + new_tokens task))
      by (apply allocated_side_ready; [done|nia]).
    assert (Hd : dst_bytes ks = dst_bytes (token_copy kt n sblks dblks <$>
              seqZ (seen_tokens task) (new_tokens task))) by (unfold dst_bytes; by rewrite Hb).
    apply planes_NoDup; rewrite Hd.
    + eapply token_rows_NoDup; eauto; lia.
    + intros a Ha. eapply token_rows_in_plane; eauto; lia.
Qed.

Lemma flash_p_eq_d_transfers_witness :
  let w := one_tensor_worker 1 0 16 8 8 in
  exists recs,
    vllm_parse_block_send_p_eq_d (H := debug_env) w w 1 1 0
      (example_task [[3; 5]] [[7; 2]] 1 3 false) [] = Ok [recs] /\
    bytes_of recs = bytes_of (flat_map (fun plane =>
      (fun t => shift_block (plane * 64) (plane * 64) (token_copy 4 2 [3; 5] [7; 2] t))
      <$> seqZ 1 3) [0; 1]) /\
    NoDup (dst_bytes recs).
Proof.
  apply (flash_p_eq_d_transfers (H := debug_env) (one_tensor_worker 1 0 16 8 8)
    (one_tensor_worker 1 0 16 8 8) 1 0 2 4 (example_task [[3; 5]] [[7; 2]] 1 3 false)
    [3; 5] [7; 2]).
  - reflexivity.
  - reflexivity.
  - split; done.
  - split; try done; apply allocated_b_sound; vm_compute; reflexivity.
  - by apply (bool_decide_unpack _).
Defined.

(** C5: FLASH layout, P>D with an arbitrary set of valid ranks: each rank places its row
    slice in its slot of the K and of the V plane (the byte pairs are given exactly), and
    the group together writes every byte of the destination rows of both planes exactly
    once. *)
Theorem flash_p_gt_d_group_complete `{Env} (p : Z -> WorkerInfo) d vr ks (kr : Z -> Z) n pk gn
    lo l (task : Z -> ReqSendTask) (pb : Z -> list Z) db :
  env_bf162fp8_conversion = false ->
  (forall off, 0 <= off < gn ->
     kr off = worker_tp_rank d * gn + off /\
     flash_slice (p off) d vr ks (kr off) n pk gn /\
     span_allocated (p off) d n lo l (pb off) db /\
     seen_tokens (task off) = lo /\ new_tokens (task off) = l /\
     src_blocks (task off) !! 0%nat = Some (pb off) /\ dst_blocks (task off) !! 0%nat = Some db) ->
  0 <= gn -> 0 <= pk ->
  exists recs : Z -> list IpcBlock,
    (forall off, 0 <= off < gn ->
       vllm_parse_block_send_p_gt_d (p off) d vr ks (kr off) (task off) [] = Ok [recs off] /\
       forall s a, (s, a) ∈ bytes_of (recs off) <->
         exists t plane k, lo <= t < lo + l /\ 0 <= plane < 2 /\ 0 <= k < pk /\
           s = plane * (n * pk * layer_num_blocks (p off))
               + token_row (pb off) (n * pk) pk n t + k /\
           a = plane * (n * (pk * gn) * layer_num_blocks d)
               + token_row db (n * (pk * gn)) (pk * gn) n t + off * pk + k) /\
    flat_map (fun off => dst_bytes (recs off)) (seqZ 0 gn)
    ≡ₚ flat_map (fun plane => flat_map (fun t =>
         seqZ (plane * (n * (pk * gn) * layer_num_blocks d)
               + token_row db (n * (pk * gn)) (pk * gn) n t) (pk * gn)) (seqZ lo l)) [0; 1].
Proof.
  intros Henv Hp Hgn Hpk. set (ld := n * (pk * gn) * layer_num_blocks d).
  set (k off := flash_k_records pk gn n off (pb off) db lo l).
  exists (fun off => k off ++ (shift_block (n * pk * layer_num_blocks (p off)) ld <$> k off)).
  split.
  - intros off Hoff. split; [|apply flash_pairs].
    destruct (Hp off Hoff) as (Hr & Hfs & Hsa & <- & <- & Hs & Hd).
    rewrite (vllm_parse_block_send_p_gt_d_total _ _ _ _ _ _ _ _ _ _ _ Henv Hfs Hsa Hs Hd).
    rewrite Hr, Z.add_comm, Z.mod_add, Z.mod_small by lia. done.
  - set (D := token_row db (n * (pk * gn)) (pk * gn) n).
    assert (Hk : flat_map (fun off => dst_bytes (k off)) (seqZ 0 gn)
                 ≡ₚ flat_map (fun t => seqZ (D t) (pk * gn)) (seqZ lo l)).
    { erewrite flat_map_ext_elem by (intros; unfold k, flash_k_records; apply dst_bytes_map).
      rewrite flat_map_swap. erewrite flat_map_ext_elem; [reflexivity|]. intros t _.
      simpl. fold (D t). rewrite (seqZ_tile (D t) pk 0 gn) by done. f_equal; lia. }
    erewrite flat_map_ext_elem by (intros; rewrite dst_bytes_app, dst_bytes_shift; reflexivity).
    rewrite flat_map_app_perm, Hk. simpl. rewrite app_nil_r.
    rewrite (flat_map_fmap (Z.add ld)), Hk, <- flat_map_fmap.
    f_equiv; erewrite flat_map_ext_elem; [reflexivity| |reflexivity|]; intros t _;
      simpl; rewrite ?fmap_add_seqZ; f_equal; lia.
Qed.

Lemma flash_p_gt_d_group_complete_witness :
  exists recs : Z -> list IpcBlock,
    (forall off, 0 <= off < 2 ->
       vllm_parse_block_send_p_gt_d (H := debug_env) (one_tensor_worker 4 (1 * 2 + off) 16 8 8)
         (one_tensor_worker 2 1 32 16 8) 15 4 (1 * 2 + off)
         (example_task [[3; 5]] [[7; 2]] 1 3 false) [] = Ok [recs off] /\
       forall s a, (s, a) ∈ bytes_of (recs off) <->
         exists t plane k, 1 <= t < 1 + 3 /\ 0 <= plane < 2 /\ 0 <= k < 4 /\
           s = plane * 64 + token_row [3; 5] 8 4 2 t + k /\
           a = plane * 128 + token_row [7; 2] 16 8 2 t + off * 4 + k) /\
    flat_map (fun off => dst_bytes (recs off)) (seqZ 0 2)
    ≡ₚ flat_map (fun plane => flat_map (fun t =>
         seqZ (plane * 128 + token_row [7; 2] 16 8 2 t) 8) (seqZ 1 3)) [0; 1].
Proof.
  apply (flash_p_gt_d_group_complete (H := debug_env)
    (fun off => one_tensor_worker 4 (1 * 2 + off) 16 8 8) (one_tensor_worker 2 1 32 16 8) 15 4
    (fun off => 1 * 2 + off) 2 4 2 1 3 (fun _ => example_task [[3; 5]] [[7; 2]] 1 3 false)
    (fun _ => [3; 5]) [7; 2]).
  - reflexivity.
  - intros off Hoff. split; [reflexivity|]. split.
    { assert (off = 0 \/ off = 1) as [-> | ->] by lia; split; try done; vm_compute; done. }
    split; [|done]. split; try done; apply allocated_b_sound; vm_compute; reflexivity.
  - done.
  - done.
Defined.
