(* ===== verification/ParseDpsk.v ===== *)
(** DPSK_V32_SPARSE_MLA_SHAPE, [src/parse_block_dpsk.cpp]: several cache tensors
    per layer, each with its own block and token size. *)

From S2P Require Import Prelude Common ParseCommon ParseRagged.

Section Dpsk.
Context `{Env}.

(** The P==D copy of every tensor of the layer, as used by P==D and by P>D with
    identical token sizes. *)
Definition copy_all_tensors (src dst : WorkerInfo) (task : ReqSendTask)
    (send_blocks : list (list IpcBlock)) : res (list (list IpcBlock)) :=
  let send_blocks := vec_resize [] (vsize (token_sizes src)) send_blocks in
  for_range 0 (vsize (token_sizes src)) (fun i =>
    upd_cache i (fun blocks =>
      let* bounds := make_ipc_block_bounds src dst i in
      let* bs := vec_at (block_sizes src) i in
      let* ts := vec_at (token_sizes src) i in
      do_parse_block_send_p_eq_d bs ts task bounds blocks)) send_blocks.

Definition do_multi_tensor_parse_block_send (p : WorkerInfo) (p_tp_size : Z)
    (p_blocks : list Z) (d : WorkerInfo) (d_tp_size : Z) (d_blocks : list Z)
    (wrote_tokens left_tokens : Z) (actual_src actual_dst : WorkerInfo)
    (swap_offsets : bool) (send_blocks : list (list IpcBlock))
    : res (list (list IpcBlock)) :=
  assert: vsize (block_sizes p) =? vsize (block_sizes d);
  assert: vsize (token_sizes p) =? vsize (token_sizes d);
  assert: vsize (block_sizes p) =? vsize (token_sizes p);
  let send_blocks := vec_resize [] (vsize (token_sizes p)) send_blocks in
  for_range 0 (vsize (block_sizes p)) (fun i send_blocks =>
    let* p_block_size := vec_at (block_sizes p) i in
    let* d_block_size := vec_at (block_sizes d) i in
    let* p_token_size := vec_at (token_sizes p) i in
    let* d_token_size := vec_at (token_sizes d) i in
    upd_cache i (fun blocks =>
      let* bounds := make_ipc_block_bounds actual_src actual_dst i in
      emit_kv_records p_block_size d_block_size p_token_size d_token_size
        p_tp_size d_tp_size (worker_tp_rank p) (worker_tp_rank d)
        p_blocks d_blocks wrote_tokens left_tokens bounds swap_offsets blocks)
      send_blocks) send_blocks.

Definition vllm_parse_block_send_multi_tensor_p_eq_d : ParseBlockFunc :=
  fun src dst valid_ranks kvt_tp_size kvt_tp_rank task send_blocks =>
  let* sends := bit_idx valid_ranks (worker_tp_rank src) in
  if negb sends then Ok send_blocks else
  assert: kvt_tp_size =? engine_tp_size dst;
  assert: kvt_tp_rank =? worker_tp_rank dst;
  assert: bool_decide (token_sizes src = token_sizes dst);
  assert: bool_decide (block_sizes src = block_sizes dst);
  assert: vsize (token_sizes src) =? vsize (block_sizes src);
  assert: vsize (token_sizes dst) =? vsize (block_sizes dst);
  copy_all_tensors src dst task send_blocks.

Definition vllm_parse_block_send_multi_tensor_p_gt_d : ParseBlockFunc :=
  fun p d valid_ranks kvt_tp_size kvt_tp_rank task send_blocks =>
  if bool_decide (token_sizes p = token_sizes d) then
    if negb (worker_tp_rank p =? 0) then Ok send_blocks else
    assert: worker_tp_rank d =? 0;
    assert: bool_decide (block_sizes p = block_sizes d);
    assert: vsize (token_sizes p) =? vsize (block_sizes p);
    copy_all_tensors p d task send_blocks
  else
    let* p_blocks := vec_at (src_blocks task) 0 in
    let* d_blocks := vec_at (dst_blocks task) 0 in
    do_multi_tensor_parse_block_send p kvt_tp_size p_blocks
      d (engine_tp_size d) d_blocks (seen_tokens task) (new_tokens task)
      p d false send_blocks.

Definition vllm_parse_block_send_multi_tensor_p_lt_d : ParseBlockFunc :=
  fun p d valid_ranks kvt_tp_size kvt_tp_rank task send_blocks =>
  let* d_blocks := vec_at (dst_blocks task) 0 in
  let* p_blocks := vec_at (src_blocks task) 0 in
  do_multi_tensor_parse_block_send d (engine_tp_size d) d_blocks
    p kvt_tp_size p_blocks (seen_tokens task) (new_tokens task)
    p d true send_blocks.

(** ** Contract *)

(** A loop over the tensors that extends one list per iteration. *)
Lemma for_tensors_extends src dst k hi body sb :
  0 <= k ->
  (forall i sb, 0 <= i -> length sb = Z.to_nat k ->
    wpr (body i sb) (fun sb' => length sb' = Z.to_nat k /\ extends src dst (Z.to_nat k) sb sb')) ->
  wpr (for_range 0 hi body (vec_resize [] k sb)) (extends src dst (Z.to_nat k) sb).
Proof.
  intros Hk Hbody. unfold for_range. eapply wpr_mono.
  - apply (wpr_forM (fun s => length s = Z.to_nat k /\ extends src dst (Z.to_nat k) sb s)).
    + intros i s Hi [Hl He]. apply elem_of_seqZ in Hi.
      eapply wpr_mono; [apply Hbody; [lia|done]|]. intros s' [Hl' He'].
      split; [done|by transitivity s].
    + split; [apply length_resize|by apply extends_resize].
  - by intros ? [_ ?].
Qed.

Lemma upd_cache_bounds_extends src dst n sb i
    (k : IpcBlockBounds -> list IpcBlock -> res (list IpcBlock)) :
  0 <= i -> length sb = n ->
  (forall b blocks, wf_bounds b -> wpr (k b blocks) (grown b blocks)) ->
  wpr (upd_cache i (fun blocks =>
         let* b := make_ipc_block_bounds src dst i in k b blocks) sb)
    (fun sb' => length sb' = n /\ extends src dst n sb sb').
Proof.
  intros Hi Hn Hk. apply upd_cache_extends; [done|]. intros blocks.
  rewrite <- (Z2Nat.id i) at 1 by done. apply with_bounds_grown. auto.
Qed.

Lemma copy_all_tensors_extends src dst task sb :
  wf_task task ->
  wpr (copy_all_tensors src dst task sb) (extends src dst (src_tensors src dst) sb).
Proof.
  intros. unfold copy_all_tensors. apply for_tensors_extends; [apply vsize_nonneg|].
  intros i s Hi Hs. apply upd_cache_bounds_extends; [done..|]. intros b blocks Hb. emit_solve.
Qed.

Lemma do_multi_tensor_extends p ptp pb d dtp db w l asrc adst swap sb :
  0 <= l < W32 ->
  wpr (do_multi_tensor_parse_block_send p ptp pb d dtp db w l asrc adst swap sb)
    (extends asrc adst (Z.to_nat (vsize (token_sizes p))) sb).
Proof.
  intros. unfold do_multi_tensor_parse_block_send. emit_solve.
  apply for_tensors_extends; [apply vsize_nonneg|]. intros i s Hi Hs. emit_solve.
  apply upd_cache_bounds_extends; [done..|]. intros b blocks Hb. emit_solve.
Qed.
#[local] Hint Resolve copy_all_tensors_extends do_multi_tensor_extends : wpr_db.

#[export] Instance vllm_parse_block_send_multi_tensor_p_eq_d_spec :
  ParseBlockSpec vllm_parse_block_send_multi_tensor_p_eq_d src_tensors.
Proof. split. intros. unfold vllm_parse_block_send_multi_tensor_p_eq_d. parse_solve. Qed.

#[export] Instance vllm_parse_block_send_multi_tensor_p_gt_d_spec :
  ParseBlockSpec vllm_parse_block_send_multi_tensor_p_gt_d src_tensors.
Proof. split. intros. unfold vllm_parse_block_send_multi_tensor_p_gt_d. parse_solve. Qed.

#[export] Instance vllm_parse_block_send_multi_tensor_p_lt_d_spec :
  ParseBlockSpec vllm_parse_block_send_multi_tensor_p_lt_d dst_tensors.
Proof. split. intros. unfold vllm_parse_block_send_multi_tensor_p_lt_d. parse_solve. Qed.

End Dpsk.
