(* ===== verification/ParseFlashInfer.v ===== *)
(** FLASHINFER_CACHE_SHAPE and the head-major (HND) helpers,
    [src/parse_block_flashinfer.cpp]: blocks are laid out as
    (num_blocks, 2, num_kv_heads, block_size, head_dim). *)

From S2P Require Import Prelude Common ParseCommon.

Section FlashInfer.
Context `{Env}.

(** K and V records of one head for a run of tokens. *)
Definition hnd_head (swap_offsets : bool) (bounds : IpcBlockBounds)
    (p_base d_base p_head_section_size d_head_section_size p_token_off d_token_off
     p_kv_section_size d_kv_section_size len : Z)
    (head_idx : Z) (blocks : list IpcBlock) : res (list IpcBlock) :=
  let pk_off := u64 (p_base + head_idx * p_head_section_size + p_token_off) in
  let pv_off := u64 (pk_off + p_kv_section_size) in
  let dk_off := u64 (d_base + head_idx * d_head_section_size + d_token_off) in
  let dv_off := u64 (dk_off + d_kv_section_size) in
  let* blocks := append_sided swap_offsets bounds pk_off dk_off len blocks in
  append_sided swap_offsets bounds pv_off dv_off len blocks.

Definition flashinfer_round (p_block_size d_block_size ntpb head_dim_size
    p_head_section_size d_head_section_size p_kv_section_size d_kv_section_size
    per_group_kv_size attn_group_off num_kv_heads : Z) (sblks dblks : list Z)
    (bounds : IpcBlockBounds) (swap_offsets : bool)
    (s : Z * Z * list IpcBlock) : res (Z * Z * list IpcBlock) :=
  let '(wrote_tokens, left_tokens, blocks) := s in
  let* block_idx := udiv wrote_tokens ntpb in
  let* token_idx := umod wrote_tokens ntpb in
  let* pb := vec_at sblks block_idx in
  let* db := vec_at dblks block_idx in
  let p_blk_off := u64 (pb * p_block_size) in
  let d_blk_off := u64 (db * d_block_size) in
  let tokens := Z.min (u32 (ntpb - token_idx)) left_tokens in
  let len := u64 (tokens * head_dim_size) in
  let* blocks := for_range 0 num_kv_heads
    (hnd_head swap_offsets bounds
       p_blk_off (u64 (d_blk_off + attn_group_off * per_group_kv_size))
       p_head_section_size d_head_section_size
       (u64 (token_idx * head_dim_size)) (u64 (token_idx * head_dim_size))
       p_kv_section_size d_kv_section_size len) blocks in
  Ok (u32 (wrote_tokens + tokens), u32 (left_tokens - tokens), blocks).

Definition parse_flashinfer_HND_block (p_token_size d_token_size p_block_size d_block_size
    ntpb : Z) (sblks dblks : list Z) (wrote_tokens left_tokens attn_group_n attn_group_off
    num_kv_heads : Z) (bounds : IpcBlockBounds) (swap_offsets : bool)
    (blocks : list IpcBlock) : res (list IpcBlock) :=
  assert: 0 <? num_kv_heads;
  assertM: divides_b (u64 (2 * u64 num_kv_heads)) p_token_size;
  let* head_dim_size := udiv (p_token_size / 2) (u64 num_kv_heads) in
  let p_head_section_size := u64 (ntpb * head_dim_size) in
  let d_head_section_size := u64 (ntpb * head_dim_size) in
  let p_kv_section_size := p_block_size / 2 in
  let d_kv_section_size := d_block_size / 2 in
  let per_group_kv_size := u64 (u64 num_kv_heads * d_head_section_size) in
  assert: u64 (per_group_kv_size * attn_group_n) =? d_kv_section_size;
  let* '(_, _, blocks) :=
    while (Z.to_nat left_tokens) (fun s => 0 <? s.1.2)
      (flashinfer_round p_block_size d_block_size ntpb head_dim_size
         p_head_section_size d_head_section_size p_kv_section_size d_kv_section_size
         per_group_kv_size attn_group_off num_kv_heads sblks dblks bounds swap_offsets)
      (wrote_tokens, left_tokens, blocks) in
  Ok blocks.

(** One round of the kernel-block-wise loop: a run of tokens that stays within
    one kernel block on both sides. *)
Definition hybrid_hnd_round (p_block_size d_block_size p_ntpb d_ntpb
    src_kernel_ntpb dst_kernel_ntpb p_kernel_blk_size d_kernel_blk_size head_dim_size
    p_head_section_size d_head_section_size p_kv_section_size d_kv_section_size
    per_group_kv_size attn_group_off num_kv_heads : Z) (sblks dblks : list Z)
    (bounds : IpcBlockBounds) (swap_offsets : bool)
    (s : Z * Z * list IpcBlock) : res (Z * Z * list IpcBlock) :=
  let '(wrote_tokens, left_tokens, blocks) := s in
  let* p_blk_idx := udiv wrote_tokens p_ntpb in
  let* p_kernel_blk_idx := udiv (u32 (wrote_tokens - p_blk_idx * p_ntpb)) src_kernel_ntpb in
  let* p_token_idx_base := umod wrote_tokens src_kernel_ntpb in
  let* d_blk_idx := udiv wrote_tokens d_ntpb in
  let* d_kernel_blk_idx := udiv (u32 (wrote_tokens - d_blk_idx * d_ntpb)) dst_kernel_ntpb in
  let* d_token_idx_base := umod wrote_tokens dst_kernel_ntpb in
  assert: (p_blk_idx <? vsize sblks) && (d_blk_idx <? vsize dblks);
  let* pb := vec_at sblks p_blk_idx in
  let* db := vec_at dblks d_blk_idx in
  let p_blk_off := u64 (pb * p_block_size) in
  let d_blk_off := u64 (db * d_block_size) in
  let p_kernel_blk_off := u64 (p_blk_off + p_kernel_blk_idx * p_kernel_blk_size) in
  let d_kernel_blk_off := u64 (d_blk_off + d_kernel_blk_idx * d_kernel_blk_size) in
  let tokens := Z.min (Z.min (u32 (src_kernel_ntpb - p_token_idx_base))
                             (u32 (dst_kernel_ntpb - d_token_idx_base))) left_tokens in
  let len := u64 (tokens * head_dim_size) in
  let* blocks := for_range 0 num_kv_heads
    (hnd_head swap_offsets bounds
       p_kernel_blk_off (u64 (d_kernel_blk_off + attn_group_off * per_group_kv_size))
       p_head_section_size d_head_section_size
       (u64 (p_token_idx_base * head_dim_size)) (u64 (d_token_idx_base * head_dim_size))
       p_kv_section_size d_kv_section_size len) blocks in
  Ok (u32 (wrote_tokens + tokens), u32 (left_tokens - tokens), blocks).

Definition parse_hybrid_flashinfer_HND_block (p_token_size d_token_size p_block_size
    d_block_size p_ntpb d_ntpb : Z) (sblks dblks : list Z)
    (wrote_tokens left_tokens attn_group_n attn_group_off
     src_attn_kernel_blk_ntpb dst_attn_kernel_blk_ntpb num_kv_heads : Z)
    (bounds : IpcBlockBounds) (swap_offsets : bool) (blocks : list IpcBlock)
    : res (list IpcBlock) :=
  let p_kernel_blk_size := u64 (src_attn_kernel_blk_ntpb * p_token_size) in
  let d_kernel_blk_size := u64 (dst_attn_kernel_blk_ntpb * d_token_size) in
  let p_kv_section_size := p_kernel_blk_size / 2 in
  let d_kv_section_size := d_kernel_blk_size / 2 in
  assert: u64 (p_kv_section_size * 2) =? p_kernel_blk_size;
  assert: u64 (d_kv_section_size * 2) =? d_kernel_blk_size;
  assert: 0 <? num_kv_heads;
  assertM: divides_b (u64 (2 * u64 num_kv_heads)) p_token_size;
  let* head_dim_size := udiv (p_token_size / 2) (u64 num_kv_heads) in
  let p_head_section_size := u64 (src_attn_kernel_blk_ntpb * head_dim_size) in
  let d_head_section_size := u64 (dst_attn_kernel_blk_ntpb * head_dim_size) in
  let per_group_kv_size := u64 (u64 num_kv_heads * d_head_section_size) in
  assert: u64 (per_group_kv_size * attn_group_n) =? d_kv_section_size;
  let* '(_, _, blocks) :=
    while (Z.to_nat left_tokens) (fun s => 0 <? s.1.2)
      (hybrid_hnd_round p_block_size d_block_size p_ntpb d_ntpb
         src_attn_kernel_blk_ntpb dst_attn_kernel_blk_ntpb
         p_kernel_blk_size d_kernel_blk_size head_dim_size
         p_head_section_size d_head_section_size p_kv_section_size d_kv_section_size
         per_group_kv_size attn_group_off num_kv_heads sblks dblks bounds swap_offsets)
      (wrote_tokens, left_tokens, blocks) in
  Ok blocks.

Definition fill_last_hybrid_flashinfer_HND_block (p_token_size d_token_size p_block_size
    d_block_size d_ntpb : Z) (sblks dblks : list Z) (total_tokens attn_group_off
    num_kv_heads : Z) (bounds : IpcBlockBounds) (blocks : list IpcBlock)
    : res (list IpcBlock) :=
  if total_tokens =? 0 then Ok blocks else
  let* filled := umod total_tokens d_ntpb in
  if filled =? 0 then Ok blocks else
  let remaining := u32 (d_ntpb - filled) in
  let* d_blk_idx := udiv total_tokens d_ntpb in
  assert: d_blk_idx <? vsize dblks;
  assert: 0 <? num_kv_heads;
  assertM: divides_b (u64 (2 * u64 num_kv_heads)) p_token_size;
  let* head_dim_size := udiv (p_token_size / 2) (u64 num_kv_heads) in
  let d_head_section_size := u64 (d_ntpb * head_dim_size) in
  let d_kv_section_size := u64 (d_ntpb * d_token_size) / 2 in
  let per_group_kv_size := u64 (u64 num_kv_heads * d_head_section_size) in
  let len := u64 (remaining * head_dim_size) in
  let* sb0 := vec_at sblks 0 in
  let zero_src_off := u64 (sb0 * p_block_size) in
  let* db := vec_at dblks d_blk_idx in
  let d_blk_off := u64 (db * d_block_size) in
  for_range 0 num_kv_heads (fun head_idx blocks =>
    let dk_off := u64 (d_blk_off + attn_group_off * per_group_kv_size
                       + head_idx * d_head_section_size + filled * head_dim_size) in
    let dv_off := u64 (dk_off + d_kv_section_size) in
    let* blocks := emit_zero_fill_segments zero_src_off dk_off len p_block_size bounds blocks in
    emit_zero_fill_segments zero_src_off dv_off len p_block_size bounds blocks) blocks.

(** KV heads held by one tensor-parallel rank of the source. *)
Definition per_tp_kv_heads_or_all (p : WorkerInfo) : res Z :=
  if (0 <? num_kv_heads p) && (engine_tp_size p <=? num_kv_heads p)
  then udiv (num_kv_heads p) (engine_tp_size p)
  else Ok (Z.max 1 (num_kv_heads p)).

(** Common part of the two entry points. *)
Definition flashinfer_body (p d : WorkerInfo) (task : ReqSendTask)
    (attn_group_n attn_group_off : Z) (send_blocks : list (list IpcBlock))
    : res (list (list IpcBlock)) :=
  assert: vsize (token_sizes p) =? 1;
  assert: vsize (token_sizes d) =? 1;
  assert: vsize (block_sizes p) =? 1;
  assert: vsize (block_sizes d) =? 1;
  let* p_token_size := vec_at (token_sizes p) 0 in
  let* d_token_size := vec_at (token_sizes d) 0 in
  let* p_block_size := vec_at (block_sizes p) 0 in
  let* d_block_size := vec_at (block_sizes d) 0 in
  let* sq := udiv p_block_size p_token_size in
  let src_ntpb := u32 sq in
  let* dq := udiv d_block_size d_token_size in
  let dst_ntpb := u32 dq in
  assert: src_ntpb =? dst_ntpb;
  let* sblks := vec_at (src_blocks task) 0 in
  let* dblks := vec_at (dst_blocks task) 0 in
  let* per_tp_kv_heads := per_tp_kv_heads_or_all p in
  let send_blocks := vec_resize [] 1 send_blocks in
  upd_cache 0 (fun blocks =>
    let* bounds := make_ipc_block_bounds p d 0 in
    parse_flashinfer_HND_block p_token_size d_token_size p_block_size d_block_size
      src_ntpb sblks dblks (seen_tokens task) (new_tokens task)
      attn_group_n attn_group_off per_tp_kv_heads bounds false blocks) send_blocks.

Definition vllm_parse_flashinfer_block_send_p_eq_d : ParseBlockFunc :=
  fun p d valid_ranks kvt_tp_size kvt_tp_rank task send_blocks =>
  assert: kvt_tp_size =? engine_tp_size d;
  flashinfer_body p d task 1 0 send_blocks.

Definition vllm_parse_flashinfer_block_send_p_gt_d : ParseBlockFunc :=
  fun p d valid_ranks kvt_tp_size kvt_tp_rank task send_blocks =>
  let* sends := bit_idx valid_ranks (worker_tp_rank p) in
  if negb sends then Ok send_blocks else
  let* attn_group_n := udiv (bit_count valid_ranks) (engine_tp_size d) in
  let* attn_group_off := umod kvt_tp_rank attn_group_n in
  assert: engine_tp_size d <? kvt_tp_size;
  assertM: (let* q := udiv kvt_tp_rank attn_group_n in Ok (q =? worker_tp_rank d));
  flashinfer_body p d task attn_group_n attn_group_off send_blocks.

(** ** Contract *)

Lemma hnd_head_grown swap b x1 x2 x3 x4 x5 x6 x7 x8 len h blocks :
  wf_bounds b -> wpr (hnd_head swap b x1 x2 x3 x4 x5 x6 x7 x8 len h blocks) (grown b blocks).
Proof. intros. unfold hnd_head. emit_solve. Qed.
#[local] Hint Resolve hnd_head_grown : wpr_db.

Lemma flashinfer_round_ok x1 x2 n x3 x4 x5 x6 x7 x8 x9 nh sblks dblks b swap w l blocks :
  wf_bounds b -> 0 < l < W32 -> 0 <= n < W32 ->
  wpr (flashinfer_round x1 x2 n x3 x4 x5 x6 x7 x8 x9 nh sblks dblks b swap (w, l, blocks))
    (fun s' => 0 <= s'.1.2 < l /\ grown b blocks s'.2).
Proof.
  intros. unfold flashinfer_round. round_solve.
Qed.

Lemma parse_flashinfer_HND_block_grown pts dts pbs dbs n sblks dblks w l gn go nh b swap blocks :
  wf_bounds b -> 0 <= l < W32 -> 0 <= n < W32 ->
  wpr (parse_flashinfer_HND_block pts dts pbs dbs n sblks dblks w l gn go nh b swap blocks)
    (grown b blocks).
Proof.
  intros. unfold parse_flashinfer_HND_block. emit_solve.
  eapply wpr_mono; [apply token_loop_grown; [done|]|].
  - intros. by apply flashinfer_round_ok.
  - intros [[? ?] ?] ?. emit_solve.
Qed.

Lemma hybrid_hnd_round_ok x1 x2 x3 x4 sk dk x5 x6 x7 x8 x9 x10 x11 x12 x13 nh sblks dblks
    b swap w l blocks :
  wf_bounds b -> 0 < l < W32 -> 0 <= sk < W32 -> 0 <= dk < W32 ->
  wpr (hybrid_hnd_round x1 x2 x3 x4 sk dk x5 x6 x7 x8 x9 x10 x11 x12 x13 nh sblks dblks
         b swap (w, l, blocks))
    (fun s' => 0 <= s'.1.2 < l /\ grown b blocks s'.2).
Proof.
  intros. unfold hybrid_hnd_round. round_solve.
Qed.

Lemma parse_hybrid_HND_grown pts dts pbs dbs pn dn sblks dblks w l gn go sk dk nh b swap blocks :
  wf_bounds b -> 0 <= l < W32 -> 0 <= sk < W32 -> 0 <= dk < W32 ->
  wpr (parse_hybrid_flashinfer_HND_block pts dts pbs dbs pn dn sblks dblks w l gn go sk dk nh
         b swap blocks) (grown b blocks).
Proof.
  intros. unfold parse_hybrid_flashinfer_HND_block. emit_solve.
  eapply wpr_mono; [apply token_loop_grown; [done|]|].
  - intros. by apply hybrid_hnd_round_ok.
  - intros [[? ?] ?] ?. emit_solve.
Qed.

Lemma fill_last_HND_grown pts dts pbs dbs dn sblks dblks tot go nh b blocks :
  wf_bounds b -> 0 <= pbs < W64 ->
  wpr (fill_last_hybrid_flashinfer_HND_block pts dts pbs dbs dn sblks dblks tot go nh b blocks)
    (grown b blocks).
Proof. intros. unfold fill_last_hybrid_flashinfer_HND_block. emit_solve. Qed.

Lemma per_tp_kv_heads_or_all_ok p : wpr (per_tp_kv_heads_or_all p) (fun _ => True).
Proof. unfold per_tp_kv_heads_or_all. emit_solve. Qed.
#[local] Hint Resolve per_tp_kv_heads_or_all_ok parse_flashinfer_HND_block_grown : wpr_db.

Lemma flashinfer_body_extends p d task gn go sb :
  wf_task task ->
  wpr (flashinfer_body p d task gn go sb) (extends p d (one_tensor p d) sb).
Proof. intros. unfold flashinfer_body. parse_solve. Qed.
#[local] Hint Resolve flashinfer_body_extends : wpr_db.

#[export] Instance vllm_parse_flashinfer_block_send_p_eq_d_spec :
  ParseBlockSpec vllm_parse_flashinfer_block_send_p_eq_d one_tensor.
Proof. split. intros. unfold vllm_parse_flashinfer_block_send_p_eq_d. parse_solve. Qed.

#[export] Instance vllm_parse_flashinfer_block_send_p_gt_d_spec :
  ParseBlockSpec vllm_parse_flashinfer_block_send_p_gt_d one_tensor.
Proof. split. intros. unfold vllm_parse_flashinfer_block_send_p_gt_d. parse_solve. Qed.

End FlashInfer.

#[export] Hint Resolve parse_hybrid_HND_grown fill_last_HND_grown : wpr_db.
