(* ===== verification/ParseQwen3Next.v ===== *)
(** QWEN3_NEXT_FLASH_CACHE_SHAPE, [src/parse_block_qwen3_next.cpp]: hybrid models
    whose requests carry GDN state groups, an optional indexer group, one
    attention group and PLE short-conv groups, all in pages of one size; and
    TURBOQUANT_CACHE_SHAPE ([src/parse_block_turboquant.cpp]), which reuses it. *)

From S2P Require Import Prelude Common ParseCommon.

Section Qwen3Next.
Context `{Env}.

(** ** Block-aligned send *)

(** Bytes sent for a block of which the tokens [token_idx, token_idx + tokens)
    fall in this step; 0 defers the block to a later step. *)
Definition aligned_length (block_size ntpb token_idx tokens : Z) (reach_last : bool) : res Z :=
  if negb (tokens =? ntpb) then
    if reach_last then Ok block_size
    else if token_idx =? 0 then Ok 0
    else if u32 (token_idx + tokens) =? ntpb then Ok block_size
    else assert: u32 (token_idx + tokens) <? ntpb; Ok 0
  else Ok block_size.

Definition aligned_round (block_size ntpb : Z) (reach_last : bool) (sblks dblks : list Z)
    (bounds : IpcBlockBounds) (s : Z * Z * list IpcBlock) : res (Z * Z * list IpcBlock) :=
  let '(wrote_tokens, left_tokens, blocks) := s in
  let* blk_idx := udiv wrote_tokens ntpb in
  let* token_idx := umod wrote_tokens ntpb in
  assert: (blk_idx <? vsize sblks) && (blk_idx <? vsize dblks);
  let* sb := vec_at sblks blk_idx in
  let* db := vec_at dblks blk_idx in
  let p_blk_off := u64 (sb * block_size) in
  let d_blk_off := u64 (db * block_size) in
  let tokens := Z.min (u32 (ntpb - token_idx)) left_tokens in
  let* len := aligned_length block_size ntpb token_idx tokens reach_last in
  let* blocks :=
    if 0 <? len then append_ipc_block_checked blocks bounds p_blk_off d_blk_off len
    else Ok blocks in
  Ok (u32 (wrote_tokens + tokens), u32 (left_tokens - tokens), blocks).

Definition do_parse_block_aligned_send (block_size : Z) (task : ReqSendTask)
    (sblks dblks : list Z) (ntpb : Z) (bounds : IpcBlockBounds) (blocks : list IpcBlock)
    : res (list IpcBlock) :=
  let* '(wrote_tokens, _, blocks) :=
    while (Z.to_nat (new_tokens task)) (fun s => 0 <? s.1.2)
      (aligned_round block_size ntpb (reach_last_token task) sblks dblks bounds)
      (seen_tokens task, new_tokens task, blocks) in
  if reach_last_token task then
    let* next_blk := udiv (u32 (wrote_tokens + ntpb - 1)) ntpb in
    assert: vsize sblks =? vsize dblks;
    for_range next_blk (vsize sblks) (fun i blocks =>
      let* sb := vec_at sblks i in
      let* db := vec_at dblks i in
      append_ipc_block_checked blocks bounds (u64 (sb * block_size)) (u64 (db * block_size))
        block_size) blocks
  else Ok blocks.

(** ** Token-granularity attention *)

(** Where a token sits on one side: request block, byte offset of the first
    kernel block of its group inside the page, token index in the kernel block. *)
Definition attn_cursor (pack ntpb kernel_ntpb kernel_blk_size pos : Z) : res (Z * Z * Z) :=
  if pack =? 1 then
    let* blk_idx := udiv pos ntpb in
    let* kernel_blk_idx := udiv (u32 (pos - blk_idx * ntpb)) kernel_ntpb in
    let* token_idx := umod pos kernel_ntpb in
    Ok (blk_idx, u64 (kernel_blk_idx * kernel_blk_size), token_idx)
  else
    let* per_layer_ntpb := udiv ntpb pack in
    let* blk_idx := udiv pos per_layer_ntpb in
    let* pos_in_vllm := umod pos per_layer_ntpb in
    let* kernel_in_vllm := udiv pos_in_vllm kernel_ntpb in
    let* token_idx := umod pos kernel_ntpb in
    Ok (blk_idx, u64 (u32 (kernel_in_vllm * pack) * kernel_blk_size), token_idx).

(** The layout assertions of the packed branch. *)
Definition assert_pack_layout (pack ntpb kernel_ntpb : Z) : res unit :=
  cassertM (let* per_layer := udiv ntpb pack in
            let* r := umod per_layer kernel_ntpb in
            Ok ((u32 (per_layer * pack) =? ntpb) && (r =? 0))).

(** K and V records of one token of one pack member. *)
Definition attn_token (p_kernel_blk_off d_kernel_blk_off p_step d_step
    p_kernel_blk_size d_kernel_blk_size p_token_idx_base d_token_idx_base attn_group_off : Z)
    (bounds : IpcBlockBounds) (swap_offsets : bool) (idx : Z) (blocks : list IpcBlock)
    : res (list IpcBlock) :=
  let p_token_idx := u32 (p_token_idx_base + idx) in
  let d_token_idx := u32 (d_token_idx_base + idx) in
  let pk := u64 (p_kernel_blk_off + p_token_idx * p_step) in
  let pv := u64 (pk + p_kernel_blk_size / 2) in
  let dk := u64 (d_kernel_blk_off + d_token_idx * d_step + attn_group_off * p_step) in
  let dv := u64 (dk + d_kernel_blk_size / 2) in
  let* blocks := append_sided swap_offsets bounds pk dk p_step blocks in
  append_sided swap_offsets bounds pv dv p_step blocks.

Definition hybrid_attn_round (src_ntpb dst_ntpb p_token_size d_token_size p_block_size
    d_block_size : Z) (sblks dblks : list Z) (attn_group_off src_kernel_ntpb dst_kernel_ntpb
    pack : Z) (bounds : IpcBlockBounds) (swap_offsets : bool)
    (s : Z * Z * list IpcBlock) : res (Z * Z * list IpcBlock) :=
  let '(wrote_tokens, left_tokens, blocks) := s in
  let p_kernel_blk_size := u64 (src_kernel_ntpb * p_token_size) in
  let d_kernel_blk_size := u64 (dst_kernel_ntpb * d_token_size) in
  let* _ := if pack =? 1 then Ok tt else
    let* _ := assert_pack_layout pack src_ntpb src_kernel_ntpb in
    assert_pack_layout pack dst_ntpb dst_kernel_ntpb in
  let* '(p_blk_idx, p_off_base, p_token_idx_base) :=
    attn_cursor pack src_ntpb src_kernel_ntpb p_kernel_blk_size wrote_tokens in
  let* '(d_blk_idx, d_off_base, d_token_idx_base) :=
    attn_cursor pack dst_ntpb dst_kernel_ntpb d_kernel_blk_size wrote_tokens in
  let tokens := Z.min (Z.min (u32 (src_kernel_ntpb - p_token_idx_base))
                             (u32 (dst_kernel_ntpb - d_token_idx_base))) left_tokens in
  assert: (p_blk_idx <? vsize sblks) && (d_blk_idx <? vsize dblks);
  let* pb := vec_at sblks p_blk_idx in
  let* db := vec_at dblks d_blk_idx in
  let p_blk_off := u64 (pb * p_block_size) in
  let d_blk_off := u64 (db * d_block_size) in
  let p_step := p_token_size / 2 in
  let d_step := d_token_size / 2 in
  assert: u64 (p_step * 2) =? p_token_size;
  assert: u64 (d_step * 2) =? d_token_size;
  let* blocks := for_range 0 pack (fun sub =>
    for_range 0 tokens
      (attn_token (u64 (p_blk_off + p_off_base + sub * p_kernel_blk_size))
         (u64 (d_blk_off + d_off_base + sub * d_kernel_blk_size))
         p_step d_step p_kernel_blk_size d_kernel_blk_size
         p_token_idx_base d_token_idx_base attn_group_off bounds swap_offsets)) blocks in
  Ok (u32 (wrote_tokens + tokens), u32 (left_tokens - tokens), blocks).

Definition norm_pack (attn_pack_size : Z) : Z :=
  if attn_pack_size =? 0 then 1 else attn_pack_size.

Definition parse_hybrid_attn_block (src_ntpb dst_ntpb p_token_size d_token_size p_block_size
    d_block_size : Z) (sblks dblks : list Z) (attn_wrote_tokens attn_left_tokens
    attn_group_off src_attn_kernel_blk_ntpb dst_attn_kernel_blk_ntpb attn_pack_size : Z)
    (bounds : IpcBlockBounds) (swap_offsets : bool) (blocks : list IpcBlock)
    : res (list IpcBlock) :=
  let* '(_, _, blocks) :=
    while (Z.to_nat attn_left_tokens) (fun s => 0 <? s.1.2)
      (hybrid_attn_round src_ntpb dst_ntpb p_token_size d_token_size p_block_size
         d_block_size sblks dblks attn_group_off src_attn_kernel_blk_ntpb
         dst_attn_kernel_blk_ntpb (norm_pack attn_pack_size) bounds swap_offsets)
      (attn_wrote_tokens, attn_left_tokens, blocks) in
  Ok blocks.

(** ** Tail fill for P>D *)

Definition fill_attn_token (zero_src_off p_block_size d_kernel_blk_off d_kernel_blk_size
    p_step d_step d_token_idx_base attn_group_off : Z) (bounds : IpcBlockBounds)
    (idx : Z) (blocks : list IpcBlock) : res (list IpcBlock) :=
  let d_token_idx := u32 (d_token_idx_base + idx) in
  let dk := u64 (d_kernel_blk_off + d_token_idx * d_step + attn_group_off * p_step) in
  let dv := u64 (dk + d_kernel_blk_size / 2) in
  let* blocks := emit_zero_fill_segments zero_src_off dk p_step p_block_size bounds blocks in
  emit_zero_fill_segments zero_src_off dv p_step p_block_size bounds blocks.

Definition fill_last_round (src_ntpb dst_ntpb p_token_size d_token_size p_block_size
    d_block_size : Z) (dblks : list Z) (attn_group_off src_kernel_ntpb dst_kernel_ntpb
    pack zero_src_off : Z) (bounds : IpcBlockBounds)
    (s : Z * Z * Z * list IpcBlock) : res (Z * Z * Z * list IpcBlock) :=
  let '(src_pos, dst_pos, to_fill, blocks) := s in
  let d_kernel_blk_size := u64 (dst_kernel_ntpb * d_token_size) in
  let p_step := p_token_size / 2 in
  let d_step := d_token_size / 2 in
  let* per_layer_src := if pack =? 1 then Ok src_ntpb else udiv src_ntpb pack in
  let* p_blk_idx := udiv src_pos per_layer_src in
  let* p_token_idx_base := umod src_pos src_kernel_ntpb in
  let* '(d_blk_idx, d_off_base, d_token_idx_base) :=
    attn_cursor pack dst_ntpb dst_kernel_ntpb d_kernel_blk_size dst_pos in
  assert: p_blk_idx =? 0;
  assert: d_blk_idx <? vsize dblks;
  let* db := vec_at dblks d_blk_idx in
  let d_blk_off := u64 (db * d_block_size) in
  let tokens := Z.min (Z.min (u32 (src_kernel_ntpb - p_token_idx_base))
                             (u32 (dst_kernel_ntpb - d_token_idx_base))) to_fill in
  let* blocks := for_range 0 pack (fun sub =>
    for_range 0 tokens
      (fill_attn_token zero_src_off p_block_size
         (u64 (d_blk_off + d_off_base + sub * d_kernel_blk_size)) d_kernel_blk_size
         p_step d_step d_token_idx_base attn_group_off bounds)) blocks in
  Ok (u32 (src_pos + tokens), u32 (dst_pos + tokens), u32 (to_fill - tokens), blocks).

Definition fill_last_hybrid_attn_block (src_ntpb dst_ntpb p_token_size d_token_size
    p_block_size d_block_size : Z) (sblks dblks : list Z) (total_tokens attn_group_off
    src_attn_kernel_blk_ntpb dst_attn_kernel_blk_ntpb attn_pack_size : Z)
    (bounds : IpcBlockBounds) (blocks : list IpcBlock) : res (list IpcBlock) :=
  if total_tokens =? 0 then Ok blocks else
  let pack := norm_pack attn_pack_size in
  let* per_layer_src := if pack =? 1 then Ok src_ntpb else udiv src_ntpb pack in
  let* per_layer_dst := if pack =? 1 then Ok dst_ntpb else udiv dst_ntpb pack in
  assert: u32 (per_layer_src * pack) =? src_ntpb;
  assert: u32 (per_layer_dst * pack) =? dst_ntpb;
  let* filled := umod total_tokens per_layer_dst in
  if filled =? 0 then Ok blocks else
  let to_fill := u32 (per_layer_dst - filled) in
  assert: u64 (p_token_size / 2 * 2) =? p_token_size;
  assert: u64 (d_token_size / 2 * 2) =? d_token_size;
  let* sb0 := vec_at sblks 0 in
  let zero_src_off := u64 (sb0 * p_block_size) in
  let* '(_, _, _, blocks) :=
    while (Z.to_nat to_fill) (fun s => 0 <? s.1.2)
      (fill_last_round src_ntpb dst_ntpb p_token_size d_token_size p_block_size
         d_block_size dblks attn_group_off src_attn_kernel_blk_ntpb
         dst_attn_kernel_blk_ntpb pack zero_src_off bounds)
      (0, total_tokens, to_fill, blocks) in
  Ok blocks.

(** ** Indexer *)

Definition indexer_round (p_block_size d_block_size : Z) (sblks dblks : list Z)
    (p_ntpb d_ntpb indexer_token_size : Z) (bounds : IpcBlockBounds)
    (s : Z * Z * list IpcBlock) : res (Z * Z * list IpcBlock) :=
  let '(wrote_tokens, left_tokens, blocks) := s in
  let* src_block_idx := udiv wrote_tokens p_ntpb in
  let* src_token_idx := umod wrote_tokens p_ntpb in
  let* dst_block_idx := udiv wrote_tokens d_ntpb in
  let* dst_token_idx := umod wrote_tokens d_ntpb in
  assert: src_block_idx <? vsize sblks;
  assert: dst_block_idx <? vsize dblks;
  let tokens := Z.min (Z.min (u32 (p_ntpb - src_token_idx))
                             (u32 (d_ntpb - dst_token_idx))) left_tokens in
  let* sb := vec_at sblks src_block_idx in
  let src_off := u64 (sb * p_block_size + u32 (src_token_idx * indexer_token_size)) in
  let* db := vec_at dblks dst_block_idx in
  let dst_off := u64 (db * d_block_size + u32 (dst_token_idx * indexer_token_size)) in
  let len := u32 (tokens * indexer_token_size) in
  let* blocks := append_ipc_block_checked blocks bounds src_off dst_off len in
  Ok (u32 (wrote_tokens + tokens), u32 (left_tokens - tokens), blocks).

Definition parse_hybrid_indexer_block (p_block_size d_block_size indexer_wrote_tokens
    indexer_left_tokens : Z) (sblks dblks : list Z) (p_indexer_ntpb d_indexer_ntpb
    indexer_token_size : Z) (bounds : IpcBlockBounds) (blocks : list IpcBlock)
    : res (list IpcBlock) :=
  assert: 0 <? indexer_token_size;
  let* '(_, _, blocks) :=
    while (Z.to_nat indexer_left_tokens) (fun s => 0 <? s.1.2)
      (indexer_round p_block_size d_block_size sblks dblks p_indexer_ntpb d_indexer_ntpb
         indexer_token_size bounds)
      (indexer_wrote_tokens, indexer_left_tokens, blocks) in
  Ok blocks.

(** ** State groups (GDN, PLE short conv) *)

(** Visit the paired blocks of the groups [lo, lo + n); [checked] says whether the
    loop asserts the group index and the equal group sizes. *)
Definition for_group_blocks (checked : bool) (sblks dblks : BlockIds) (lo n : Z)
    (body : Z -> Z -> list IpcBlock -> res (list IpcBlock)) (blocks : list IpcBlock)
    : res (list IpcBlock) :=
  for_range 0 n (fun i blocks =>
    let g := u64 (lo + i) in
    assert: negb checked || ((g <? vsize sblks) && (g <? vsize dblks));
    let* sg := vec_at sblks g in
    let* dg := vec_at dblks g in
    assert: negb checked || (vsize sg =? vsize dg);
    for_range 0 (vsize sg) (fun j blocks =>
      let* s := vec_at sg j in
      let* d := vec_at dg j in
      body s d blocks) blocks) blocks.

Definition parse_hybrid_gdn_block_send_p_eq_d (block_size num_gdn_layers : Z)
    (sblks dblks : BlockIds) (bounds : IpcBlockBounds) (blocks : list IpcBlock)
    : res (list IpcBlock) :=
  for_group_blocks true sblks dblks 0 num_gdn_layers (fun s d blocks =>
    append_ipc_block_checked blocks bounds (u64 (s * block_size)) (u64 (d * block_size))
      block_size) blocks.

(** The conv rows of one GDN block, P>D: every q/k/v segment of a row goes to this
    rank's slot of the wider destination segment. *)
Definition gdn_conv_row_p_gt_d (p_gdn_off d_gdn_off p_conv_dim_size d_conv_dim_size
    elem_size group_n group_off : Z) (dims : list Z) (bounds : IpcBlockBounds)
    (conv_dim : Z) (blocks : list IpcBlock) : res (list IpcBlock) :=
  let* '(inner, blocks) := forM dims (fun dim '(inner, blocks) =>
    let step := u64 (dim * elem_size) in
    let p_conv_off := u64 (p_gdn_off + conv_dim * p_conv_dim_size + inner) in
    let d_conv_off := u64 (d_gdn_off + conv_dim * d_conv_dim_size
                           + group_n * inner + group_off * step) in
    let* blocks := append_ipc_block_checked blocks bounds p_conv_off d_conv_off step in
    Ok (u64 (inner + step), blocks)) (0, blocks) in
  assert: inner =? p_conv_dim_size;
  Ok blocks.

Definition parse_hybrid_gdn_block_send_p_gt_d (p_block_size d_block_size num_gdn_layers
    gdn_group_n gdn_group_off : Z) (src : WorkerInfo) (sblks dblks : BlockIds)
    (bounds : IpcBlockBounds) (blocks : list IpcBlock) : res (list IpcBlock) :=
  assert: num_gdn_layers <=? vsize sblks;
  assert: num_gdn_layers <=? vsize dblks;
  assert: negb (vsize (conv_state_shape src) =? 0);
  assert: negb (vsize (ssm_state_shape src) =? 0);
  assert: negb (vsize (gdn_conv_channel_dims src) =? 0);
  let* conv2 := vec_at (conv_state_shape src) 2 in
  let* conv1 := vec_at (conv_state_shape src) 1 in
  let* ssm1 := vec_at (ssm_state_shape src) 1 in
  let* ssm2 := vec_at (ssm_state_shape src) 2 in
  let* ssm3 := vec_at (ssm_state_shape src) 3 in
  let p_conv_dim_size := u64 (conv2 * gdn_conv_elem_size src) in
  let p_conv_block_size := u64 (conv1 * p_conv_dim_size) in
  let p_ssm_block_size := u64 (ssm1 * ssm2 * ssm3 * gdn_ssm_elem_size src) in
  let d_conv_dim_size := u64 (gdn_group_n * p_conv_dim_size) in
  for_group_blocks false sblks dblks 0 num_gdn_layers (fun s d blocks =>
    let p_gdn_off := u64 (s * p_block_size) in
    let d_gdn_off := u64 (d * d_block_size) in
    let* blocks := for_range 0 conv1
      (gdn_conv_row_p_gt_d p_gdn_off d_gdn_off p_conv_dim_size d_conv_dim_size
         (gdn_conv_elem_size src) gdn_group_n gdn_group_off (gdn_conv_channel_dims src)
         bounds) blocks in
    append_ipc_block_checked blocks bounds (u64 (p_gdn_off + p_conv_block_size))
      (u64 (d_gdn_off + gdn_group_n * p_conv_block_size + gdn_group_off * p_ssm_block_size))
      p_ssm_block_size) blocks.

(** The conv rows of one GDN block, P<D: this destination takes its slice of every
    q/k/v segment. *)
Definition gdn_conv_row_p_lt_d (p_gdn_off d_gdn_off p_conv_dim_size d_conv_dim_size
    elem_size group_n group_off : Z) (dims : list Z) (bounds : IpcBlockBounds)
    (conv_dim : Z) (blocks : list IpcBlock) : res (list IpcBlock) :=
  let* '(p_inner, d_inner, blocks) := forM dims (fun dim '(p_inner, d_inner, blocks) =>
    let p_step := u64 (dim * elem_size) in
    assertM: divides_b group_n p_step;
    let* d_step := udiv p_step group_n in
    let p_conv_off := u64 (p_gdn_off + conv_dim * p_conv_dim_size + p_inner
                           + group_off * d_step) in
    let d_conv_off := u64 (d_gdn_off + conv_dim * d_conv_dim_size + d_inner) in
    let* blocks := append_ipc_block_checked blocks bounds p_conv_off d_conv_off d_step in
    Ok (u64 (p_inner + p_step), u64 (d_inner + d_step), blocks)) (0, 0, blocks) in
  assert: p_inner =? p_conv_dim_size;
  assert: d_inner =? d_conv_dim_size;
  Ok blocks.

Definition parse_hybrid_gdn_block_send_p_lt_d (p_block_size d_block_size num_gdn_layers
    gdn_group_n gdn_group_off : Z) (src : WorkerInfo) (sblks dblks : BlockIds)
    (bounds : IpcBlockBounds) (blocks : list IpcBlock) : res (list IpcBlock) :=
  assert: num_gdn_layers <=? vsize sblks;
  assert: num_gdn_layers <=? vsize dblks;
  assert: negb (vsize (conv_state_shape src) =? 0);
  assert: negb (vsize (ssm_state_shape src) =? 0);
  assert: negb (vsize (gdn_conv_channel_dims src) =? 0);
  assert: 0 <? gdn_group_n;
  let* conv2 := vec_at (conv_state_shape src) 2 in
  let* conv1 := vec_at (conv_state_shape src) 1 in
  let* ssm1 := vec_at (ssm_state_shape src) 1 in
  let* ssm2 := vec_at (ssm_state_shape src) 2 in
  let* ssm3 := vec_at (ssm_state_shape src) 3 in
  let p_conv_dim_size := u64 (conv2 * gdn_conv_elem_size src) in
  let p_conv_block_size := u64 (conv1 * p_conv_dim_size) in
  let p_ssm_block_size := u64 (ssm1 * ssm2 * ssm3 * gdn_ssm_elem_size src) in
  assertM: divides_b gdn_group_n p_conv_dim_size;
  assertM: divides_b gdn_group_n p_ssm_block_size;
  let* d_conv_dim_size := udiv p_conv_dim_size gdn_group_n in
  let d_conv_block_size := u64 (conv1 * d_conv_dim_size) in
  let* d_ssm_block_size := udiv p_ssm_block_size gdn_group_n in
  for_group_blocks false sblks dblks 0 num_gdn_layers (fun s d blocks =>
    let p_gdn_off := u64 (s * p_block_size) in
    let d_gdn_off := u64 (d * d_block_size) in
    let* blocks := for_range 0 conv1
      (gdn_conv_row_p_lt_d p_gdn_off d_gdn_off p_conv_dim_size d_conv_dim_size
         (gdn_conv_elem_size src) gdn_group_n gdn_group_off (gdn_conv_channel_dims src)
         bounds) blocks in
    append_ipc_block_checked blocks bounds
      (u64 (p_gdn_off + p_conv_block_size + gdn_group_off * d_ssm_block_size))
      (u64 (d_gdn_off + d_conv_block_size)) d_ssm_block_size) blocks.

Definition parse_hybrid_short_conv_block_send_p_eq_d (block_size num_ple_layers
    ple_block_group : Z) (sblks dblks : BlockIds) (bounds : IpcBlockBounds)
    (blocks : list IpcBlock) : res (list IpcBlock) :=
  if num_ple_layers =? 0 then Ok blocks else
  for_group_blocks true sblks dblks ple_block_group num_ple_layers (fun s d blocks =>
    append_ipc_block_checked blocks bounds (u64 (s * block_size)) (u64 (d * block_size))
      block_size) blocks.

(** The complete short-conv state of every PLE block. *)
Definition copy_ple_state (p_block_size d_block_size num_ple_layers ple_block_group : Z)
    (src : WorkerInfo) (sblks dblks : BlockIds) (bounds : IpcBlockBounds)
    (blocks : list IpcBlock) : res (list IpcBlock) :=
  assert: vsize (ple_conv_state_shape src) =? 3;
  let* s1 := vec_at (ple_conv_state_shape src) 1 in
  let* s2 := vec_at (ple_conv_state_shape src) 2 in
  let conv_state_size := u64 (s1 * s2 * ple_conv_elem_size src) in
  assert: conv_state_size <=? p_block_size;
  assert: conv_state_size <=? d_block_size;
  for_group_blocks true sblks dblks ple_block_group num_ple_layers (fun s d blocks =>
    append_ipc_block_checked blocks bounds (u64 (s * p_block_size)) (u64 (d * d_block_size))
      conv_state_size) blocks.

Definition parse_hybrid_short_conv_block_send_p_gt_d (p_block_size d_block_size
    num_ple_layers ple_block_group gdn_group_n gdn_group_off : Z) (src : WorkerInfo)
    (sblks dblks : BlockIds) (bounds : IpcBlockBounds) (blocks : list IpcBlock)
    : res (list IpcBlock) :=
  if num_ple_layers =? 0 then Ok blocks else
  assert: negb (vsize (ple_conv_state_shape src) =? 0);
  assert: 0 <? gdn_group_n;
  assert: gdn_group_off <? gdn_group_n;
  if negb (gdn_group_off =? 0) then Ok blocks else
  copy_ple_state p_block_size d_block_size num_ple_layers ple_block_group src sblks dblks
    bounds blocks.

Definition parse_hybrid_short_conv_block_send_p_lt_d (p_block_size d_block_size
    num_ple_layers ple_block_group gdn_group_n gdn_group_off : Z) (src : WorkerInfo)
    (sblks dblks : BlockIds) (bounds : IpcBlockBounds) (blocks : list IpcBlock)
    : res (list IpcBlock) :=
  if num_ple_layers =? 0 then Ok blocks else
  assert: negb (vsize (ple_conv_state_shape src) =? 0);
  assert: 0 <? gdn_group_n;
  assert: gdn_group_off <? gdn_group_n;
  copy_ple_state p_block_size d_block_size num_ple_layers ple_block_group src sblks dblks
    bounds blocks.

(** ** P==D *)

Definition hybrid_p_eq_d_body (src : WorkerInfo) (block_size attn_ntpb indexer_ntpb : Z)
    (task : ReqSendTask) (bounds : IpcBlockBounds) (blocks : list IpcBlock)
    : res (list IpcBlock) :=
  let sblks := src_blocks task in
  let dblks := dst_blocks task in
  let* '(attn_group_offset, blocks) :=
    if 0 <? indexer_ntpb then
      let* si := vec_at sblks (num_gdn_layers src) in
      let* di := vec_at dblks (num_gdn_layers src) in
      let* blocks := do_parse_block_aligned_send block_size task si di indexer_ntpb
                       bounds blocks in
      Ok (u64 (num_gdn_layers src + 1), blocks)
    else Ok (num_gdn_layers src, blocks) in
  let* sa := vec_at sblks attn_group_offset in
  let* da := vec_at dblks attn_group_offset in
  let* blocks := do_parse_block_aligned_send block_size task sa da (u32 attn_ntpb)
                   bounds blocks in
  if reach_last_token task then
    let* blocks := parse_hybrid_gdn_block_send_p_eq_d block_size (num_gdn_layers src)
                     sblks dblks bounds blocks in
    parse_hybrid_short_conv_block_send_p_eq_d block_size (num_ple_layers src)
      (ple_block_group src) sblks dblks bounds blocks
  else Ok blocks.

Definition vllm_parse_hybrid_block_send_p_eq_d_block_aligned : ParseBlockFunc :=
  fun src dst valid_ranks kvt_tp_size kvt_tp_rank task send_blocks =>
  assert: engine_tp_size src =? engine_tp_size dst;
  assert: kvt_tp_size =? engine_tp_size dst;
  assert: worker_tp_rank src =? worker_tp_rank dst;
  assert: bool_decide (token_sizes src = token_sizes dst);
  assert: bool_decide (block_sizes src = block_sizes dst);
  assert: vsize (token_sizes src) =? vsize (block_sizes src);
  assert: vsize (token_sizes dst) =? vsize (block_sizes dst);
  assert: vsize (token_sizes src) =? 1;
  assert: vsize (block_sizes src) =? 1;
  let send_blocks := vec_resize [] (vsize (token_sizes src)) send_blocks in
  upd_cache 0 (fun blocks =>
    let* bounds := make_ipc_block_bounds src dst 0 in
    let pack := norm_pack (attn_pack_size src) in
    let* block_size := vec_at (block_sizes src) 0 in
    let* token_size := vec_at (token_sizes src) 0 in
    let* page_tokens := udiv block_size token_size in
    assertM: divides_b pack page_tokens;
    let* attn_ntpb := udiv page_tokens pack in
    assert: attn_kernel_blk_ntpb src =? attn_kernel_blk_ntpb dst;
    assert: indexer_blk_ntpb src =? indexer_blk_ntpb dst;
    assert: attn_pack_size src =? attn_pack_size dst;
    hybrid_p_eq_d_body src block_size attn_ntpb (indexer_blk_ntpb src) task bounds blocks)
    send_blocks.

(** ** P>D *)

(** GDN and PLE state of a finished request, P>D. *)
Definition hybrid_states_p_gt_d (p_block_size d_block_size gdn_group_n gdn_group_off : Z)
    (src : WorkerInfo) (task : ReqSendTask) (bounds : IpcBlockBounds)
    (blocks : list IpcBlock) : res (list IpcBlock) :=
  if reach_last_token task then
    let* blocks := parse_hybrid_gdn_block_send_p_gt_d p_block_size d_block_size
      (num_gdn_layers src) gdn_group_n gdn_group_off src (src_blocks task)
      (dst_blocks task) bounds blocks in
    parse_hybrid_short_conv_block_send_p_gt_d p_block_size d_block_size
      (num_ple_layers src) (ple_block_group src) gdn_group_n gdn_group_off src
      (src_blocks task) (dst_blocks task) bounds blocks
  else Ok blocks.

(** The indexer group, sent by the first source rank of every subgroup; returns
    the index of the attention group. *)
Definition hybrid_indexer_p_gt_d (p_block_size d_block_size gdn_group_n : Z)
    (src dst : WorkerInfo) (task : ReqSendTask) (bounds : IpcBlockBounds)
    (blocks : list IpcBlock) : res (Z * list IpcBlock) :=
  if (0 <? indexer_blk_ntpb src) && (0 <? indexer_blk_ntpb dst) then
    let* r := umod (worker_tp_rank src) gdn_group_n in
    let* blocks :=
      if r =? 0 then
        let* si := vec_at (src_blocks task) (num_gdn_layers src) in
        let* di := vec_at (dst_blocks task) (num_gdn_layers src) in
        parse_hybrid_indexer_block p_block_size d_block_size (seen_tokens task)
          (new_tokens task) si di (indexer_blk_ntpb src) (indexer_blk_ntpb dst)
          (hybrid_indexer_token_size src) bounds blocks
      else Ok blocks in
    Ok (u64 (num_gdn_layers src + 1), blocks)
  else Ok (num_gdn_layers src, blocks).

Definition do_parse_hybrid_block_send_p_gt_d (p_token_size d_token_size src_ntpb dst_ntpb
    attn_group_n attn_group_off gdn_group_n gdn_group_off : Z) (validranks : bitset)
    (src dst : WorkerInfo) (task : ReqSendTask) (bounds : IpcBlockBounds)
    (blocks : list IpcBlock) : res (list IpcBlock) :=
  let p_block_size := u64 (p_token_size * src_ntpb) in
  let d_block_size := u64 (d_token_size * dst_ntpb) in
  let sblks := src_blocks task in
  let dblks := dst_blocks task in
  let src_pack := norm_pack (attn_pack_size src) in
  let dst_pack := norm_pack (attn_pack_size dst) in
  assert: src_pack =? dst_pack;
  assert: num_gdn_layers src <? vsize sblks;
  assert: num_gdn_layers src <? vsize dblks;
  let* blocks := hybrid_states_p_gt_d p_block_size d_block_size gdn_group_n gdn_group_off
                   src task bounds blocks in
  assert: num_gdn_layers src <? vsize sblks;
  assert: num_gdn_layers src <? vsize dblks;
  assert: ((indexer_blk_ntpb src =? 0) && (indexer_blk_ntpb dst =? 0))
          || ((0 <? indexer_blk_ntpb src) && (0 <? indexer_blk_ntpb dst));
  let* '(attn_group_offset, blocks) :=
    hybrid_indexer_p_gt_d p_block_size d_block_size gdn_group_n src dst task bounds blocks in
  assert: attn_group_offset <? vsize sblks;
  assert: attn_group_offset <? vsize dblks;
  let* sends := bit_idx validranks (worker_tp_rank src) in
  if sends then
    let* sa := vec_at sblks attn_group_offset in
    let* da := vec_at dblks attn_group_offset in
    let* blocks := parse_hybrid_attn_block src_ntpb dst_ntpb p_token_size d_token_size
      p_block_size d_block_size sa da (seen_tokens task) (new_tokens task) attn_group_off
      (attn_kernel_blk_ntpb src) (attn_kernel_blk_ntpb dst) src_pack bounds false blocks in
    if env_pad_last_attn_block && reach_last_token task then
      fill_last_hybrid_attn_block src_ntpb dst_ntpb p_token_size d_token_size
        p_block_size d_block_size sa da (u32 (seen_tokens task + new_tokens task))
        attn_group_off (attn_kernel_blk_ntpb src) (attn_kernel_blk_ntpb dst) src_pack
        bounds blocks
    else Ok blocks
  else Ok blocks.

Definition vllm_parse_hybrid_block_send_p_gt_d : ParseBlockFunc :=
  fun src dst valid_ranks kvt_tp_size kvt_tp_rank task send_blocks =>
  assert: engine_tp_size dst <? engine_tp_size src;
  assertM: divides_b (engine_tp_size dst) (engine_tp_size src);
  let* gdn_group_n := udiv (engine_tp_size src) (engine_tp_size dst) in
  assertM: (let* q := udiv (worker_tp_rank src) gdn_group_n in Ok (q =? worker_tp_rank dst));
  let* gdn_group_off := umod (worker_tp_rank src) gdn_group_n in
  let* attn_group_n := udiv (bit_count valid_ranks) (engine_tp_size dst) in
  let* attn_group_off := umod kvt_tp_rank attn_group_n in
  assert: vsize (token_sizes src) =? 1;
  assert: vsize (token_sizes dst) =? 1;
  assert: vsize (block_sizes src) =? 1;
  assert: vsize (block_sizes dst) =? 1;
  let* p_token_size := vec_at (token_sizes src) 0 in
  let* d_token_size := vec_at (token_sizes dst) 0 in
  let* p_block_size := vec_at (block_sizes src) 0 in
  let* d_block_size := vec_at (block_sizes dst) 0 in
  assert: d_token_size =? u64 (p_token_size * attn_group_n);
  let* sq := udiv p_block_size p_token_size in
  let src_ntpb := u32 sq in
  let* dq := udiv d_block_size d_token_size in
  let dst_ntpb := u32 dq in
  assert: u64 (src_ntpb * p_token_size) =? p_block_size;
  assert: u64 (dst_ntpb * d_token_size) =? d_block_size;
  let send_blocks := vec_resize [] (vsize (token_sizes src)) send_blocks in
  upd_cache 0 (fun blocks =>
    let* bounds := make_ipc_block_bounds src dst 0 in
    do_parse_hybrid_block_send_p_gt_d p_token_size d_token_size src_ntpb dst_ntpb
      attn_group_n attn_group_off gdn_group_n gdn_group_off valid_ranks src dst task
      bounds blocks) send_blocks.

(** ** P<D *)

Definition fill_tail_round (p_block_size d_block_size d_step d_kernel_blk_size
    per_layer_ntpb kernel_ntpb pack zero_src_off end_tok : Z) (dblks : list Z)
    (bounds : IpcBlockBounds) (s : Z * list IpcBlock) : res (Z * list IpcBlock) :=
  let '(dst_pos, blocks) := s in
  let* d_blk_idx := udiv dst_pos per_layer_ntpb in
  let* in_vllm := umod dst_pos per_layer_ntpb in
  let* d_kernel_in_vllm := udiv in_vllm kernel_ntpb in
  let* d_token_idx := umod dst_pos kernel_ntpb in
  let tokens := Z.min (u32 (kernel_ntpb - d_token_idx)) (u32 (end_tok - dst_pos)) in
  assert: d_blk_idx <? vsize dblks;
  let* db := vec_at dblks d_blk_idx in
  let d_blk_off := u64 (db * d_block_size) in
  let d_kernel_off_base := u64 (d_kernel_in_vllm * pack * d_kernel_blk_size) in
  let len := u64 (tokens * d_step) in
  let* blocks := for_range 0 pack (fun sub blocks =>
    let d_kernel_blk_off := u64 (d_blk_off + d_kernel_off_base + sub * d_kernel_blk_size) in
    let dk_off := u64 (d_kernel_blk_off + d_token_idx * d_step) in
    let dv_off := u64 (dk_off + d_kernel_blk_size / 2) in
    let* blocks := emit_zero_fill_segments zero_src_off dk_off len p_block_size bounds blocks in
    emit_zero_fill_segments zero_src_off dv_off len p_block_size bounds blocks) blocks in
  Ok (u32 (dst_pos + tokens), blocks).

Definition fill_tail_hybrid_attn_block_p_lt_d (p_block_size d_block_size d_token_size
    dst_ntpb dst_attn_kernel_blk_ntpb attn_pack_size : Z) (sblks dblks : list Z)
    (total_tokens : Z) (bounds : IpcBlockBounds) (blocks : list IpcBlock)
    : res (list IpcBlock) :=
  let pack := norm_pack attn_pack_size in
  let* per_layer := if pack =? 1 then Ok dst_ntpb else udiv dst_ntpb pack in
  assert: u32 (per_layer * pack) =? dst_ntpb;
  assertM: divides_b dst_attn_kernel_blk_ntpb per_layer;
  let d_kernel_blk_size := u64 (dst_attn_kernel_blk_ntpb * d_token_size) in
  let d_step := d_token_size / 2 in
  assert: u64 (d_step * 2) =? d_token_size;
  let end_tok := u32 (u32 (vsize dblks) * per_layer) in
  if end_tok <=? total_tokens then Ok blocks else
  let* sb0 := vec_at sblks 0 in
  let zero_src_off := u64 (sb0 * p_block_size) in
  let* '(_, blocks) :=
    while (Z.to_nat (end_tok - total_tokens)) (fun s => s.1 <? end_tok)
      (fill_tail_round p_block_size d_block_size d_step d_kernel_blk_size per_layer
         dst_attn_kernel_blk_ntpb pack zero_src_off end_tok dblks bounds)
      (total_tokens, blocks) in
  Ok blocks.

(** Replicated-head regime: whole-block copies of the indexer and attention groups. *)
Definition hybrid_p_lt_d_replicated (src dst : WorkerInfo) (p_block_size d_block_size
    p_token_size pack : Z) (task : ReqSendTask) (bounds : IpcBlockBounds)
    (blocks : list IpcBlock) : res (list IpcBlock) :=
  let sblks := src_blocks task in
  let dblks := dst_blocks task in
  assert: p_block_size =? d_block_size;
  let* page_tokens := udiv p_block_size p_token_size in
  assertM: divides_b pack page_tokens;
  let* attn_ntpb := udiv page_tokens pack in
  assert: attn_kernel_blk_ntpb src =? attn_kernel_blk_ntpb dst;
  assert: indexer_blk_ntpb src =? indexer_blk_ntpb dst;
  let* '(attn_group_offset, blocks) :=
    if 0 <? indexer_blk_ntpb src then
      let* si := vec_at sblks (num_gdn_layers src) in
      let* di := vec_at dblks (num_gdn_layers src) in
      let* blocks := do_parse_block_aligned_send p_block_size task si di
                       (indexer_blk_ntpb src) bounds blocks in
      Ok (u64 (num_gdn_layers src + 1), blocks)
    else Ok (num_gdn_layers src, blocks) in
  let* sa := vec_at sblks attn_group_offset in
  let* da := vec_at dblks attn_group_offset in
  do_parse_block_aligned_send p_block_size task sa da (u32 attn_ntpb) bounds blocks.

(** Sliced regime: every target takes its head slice of each token row. *)
Definition hybrid_p_lt_d_sliced (src dst : WorkerInfo) (p_token_size d_token_size
    p_block_size d_block_size pack : Z) (task : ReqSendTask) (bounds : IpcBlockBounds)
    (blocks : list IpcBlock) : res (list IpcBlock) :=
  let sblks := src_blocks task in
  let dblks := dst_blocks task in
  let p_engine_tp := engine_tp_size src in
  let d_engine_tp := engine_tp_size dst in
  assert: d_token_size <? p_token_size;
  assertM: divides_b d_token_size p_token_size;
  let* gq := udiv p_token_size d_token_size in
  let attn_group_n := u32 gq in
  assertM: divides_b (u32 (p_engine_tp * attn_group_n)) d_engine_tp;
  let* replicas := udiv d_engine_tp (u32 (p_engine_tp * attn_group_n)) in
  let* rq := udiv (worker_tp_rank dst) replicas in
  let* attn_group_off := umod rq attn_group_n in
  assertM: (if num_kv_heads src <=? 0 then Ok true
            else divides_b p_engine_tp (num_kv_heads src));
  let* sq := udiv p_block_size p_token_size in
  let src_ntpb := u32 sq in
  let* dq := udiv d_block_size d_token_size in
  let dst_ntpb := u32 dq in
  assert: u64 (src_ntpb * p_token_size) =? p_block_size;
  assert: u64 (dst_ntpb * d_token_size) =? d_block_size;
  let* '(attn_group_offset, blocks) :=
    if 0 <? indexer_blk_ntpb src then
      let* si := vec_at sblks (num_gdn_layers src) in
      let* di := vec_at dblks (num_gdn_layers src) in
      let* blocks := parse_hybrid_indexer_block p_block_size d_block_size
        (seen_tokens task) (new_tokens task) si di (indexer_blk_ntpb src)
        (indexer_blk_ntpb dst) (hybrid_indexer_token_size src) bounds blocks in
      Ok (u64 (num_gdn_layers src + 1), blocks)
    else Ok (num_gdn_layers src, blocks) in
  assert: attn_group_offset <? vsize sblks;
  assert: attn_group_offset <? vsize dblks;
  let* sa := vec_at sblks attn_group_offset in
  let* da := vec_at dblks attn_group_offset in
  let* blocks := parse_hybrid_attn_block dst_ntpb src_ntpb d_token_size p_token_size
    d_block_size p_block_size da sa (seen_tokens task) (new_tokens task) attn_group_off
    (attn_kernel_blk_ntpb dst) (attn_kernel_blk_ntpb src) pack bounds true blocks in
  if env_pad_last_attn_block && reach_last_token task then
    fill_tail_hybrid_attn_block_p_lt_d p_block_size d_block_size d_token_size dst_ntpb
      (attn_kernel_blk_ntpb dst) pack sa da (u32 (seen_tokens task + new_tokens task))
      bounds blocks
  else Ok blocks.

(** GDN and PLE state of a finished request, P<D. *)
Definition hybrid_states_p_lt_d (p_block_size d_block_size gdn_group_n gdn_group_off : Z)
    (src : WorkerInfo) (task : ReqSendTask) (bounds : IpcBlockBounds)
    (blocks : list IpcBlock) : res (list IpcBlock) :=
  if reach_last_token task then
    let* blocks := parse_hybrid_gdn_block_send_p_lt_d p_block_size d_block_size
      (num_gdn_layers src) gdn_group_n gdn_group_off src (src_blocks task)
      (dst_blocks task) bounds blocks in
    parse_hybrid_short_conv_block_send_p_lt_d p_block_size d_block_size
      (num_ple_layers src) (ple_block_group src) gdn_group_n gdn_group_off src
      (src_blocks task) (dst_blocks task) bounds blocks
  else Ok blocks.

Definition vllm_parse_hybrid_block_send_p_lt_d : ParseBlockFunc :=
  fun src dst valid_ranks kvt_tp_size kvt_tp_rank task send_blocks =>
  assert: engine_tp_size src <? engine_tp_size dst;
  assertM: divides_b (engine_tp_size src) (engine_tp_size dst);
  let* gdn_group_n := udiv (engine_tp_size dst) (engine_tp_size src) in
  let* gdn_group_off := umod (worker_tp_rank dst) gdn_group_n in
  assertM: (let* q := udiv (worker_tp_rank dst) gdn_group_n in Ok (q =? worker_tp_rank src));
  assert: vsize (token_sizes src) =? 1;
  assert: vsize (block_sizes src) =? 1;
  assert: vsize (token_sizes dst) =? 1;
  assert: vsize (block_sizes dst) =? 1;
  let* p_token_size := vec_at (token_sizes src) 0 in
  let* p_block_size := vec_at (block_sizes src) 0 in
  let* d_token_size := vec_at (token_sizes dst) 0 in
  let* d_block_size := vec_at (block_sizes dst) 0 in
  let send_blocks := vec_resize [] (vsize (token_sizes src)) send_blocks in
  upd_cache 0 (fun blocks =>
    let* bounds := make_ipc_block_bounds src dst 0 in
    let pack := norm_pack (attn_pack_size src) in
    assert: ((indexer_blk_ntpb src =? 0) && (indexer_blk_ntpb dst =? 0))
            || ((0 <? indexer_blk_ntpb src) && (0 <? indexer_blk_ntpb dst));
    assert: attn_pack_size src =? attn_pack_size dst;
    let* blocks :=
      if p_token_size =? d_token_size then
        hybrid_p_lt_d_replicated src dst p_block_size d_block_size p_token_size pack task
          bounds blocks
      else
        hybrid_p_lt_d_sliced src dst p_token_size d_token_size p_block_size d_block_size
          pack task bounds blocks in
    hybrid_states_p_lt_d p_block_size d_block_size gdn_group_n gdn_group_off src task
      bounds blocks) send_blocks.

(** ** TURBOQUANT_CACHE_SHAPE *)

Definition turboquant_parse_block_send_p_eq_d : ParseBlockFunc :=
  vllm_parse_hybrid_block_send_p_eq_d_block_aligned.

Definition turboquant_parse_block_send_p_gt_d : ParseBlockFunc :=
  vllm_parse_hybrid_block_send_p_gt_d.

(** ** Contract *)

Section Emitters.
Context (b : IpcBlockBounds) (Hb : wf_bounds b).

Lemma aligned_length_ok bs n i t last : wpr (aligned_length bs n i t last) (fun _ => True).
Proof. unfold aligned_length. emit_solve. Qed.
#[local] Hint Resolve aligned_length_ok : wpr_db.

Lemma aligned_round_ok bs n last sblks dblks w l blocks :
  0 < l < W32 -> 0 <= n < W32 ->
  wpr (aligned_round bs n last sblks dblks b (w, l, blocks))
    (fun s' => 0 <= s'.1.2 < l /\ grown b blocks s'.2).
Proof. intros. unfold aligned_round. round_solve. Qed.

Lemma do_parse_block_aligned_send_grown bs task sblks dblks n blocks :
  wf_task task -> 0 <= n < W32 ->
  wpr (do_parse_block_aligned_send bs task sblks dblks n b blocks) (grown b blocks).
Proof.
  intros. unfold do_parse_block_aligned_send. emit_solve.
  eapply wpr_mono; [apply token_loop_grown; [auto with mach_db|]|].
  - intros. by apply aligned_round_ok.
  - intros [[? ?] ?] ?. emit_solve.
Qed.

(** The cursor's token index is the position within the kernel block. *)
Lemma wpr_attn_cursor pack n kn ks pos (Q : Z * Z * Z -> Prop) :
  (forall bi off, kn <> 0 -> Q (bi, off, pos mod kn)) ->
  wpr (attn_cursor pack n kn ks pos) Q.
Proof. intros. unfold attn_cursor. emit_solve; auto. Qed.

Lemma attn_token_grown x1 x2 x3 x4 x5 x6 x7 x8 x9 swap i blocks :
  wpr (attn_token x1 x2 x3 x4 x5 x6 x7 x8 x9 b swap i blocks) (grown b blocks).
Proof. unfold attn_token. emit_solve. Qed.

Lemma assert_pack_layout_ok pack n kn : wpr (assert_pack_layout pack n kn) (fun _ => True).
Proof. unfold assert_pack_layout. emit_solve. Qed.
#[local] Hint Resolve attn_token_grown assert_pack_layout_ok : wpr_db.

Lemma hybrid_attn_round_ok sn dn pts dts pbs dbs sblks dblks go sk dk pack swap w l blocks :
  0 < l < W32 -> 0 <= sk < W32 -> 0 <= dk < W32 ->
  wpr (hybrid_attn_round sn dn pts dts pbs dbs sblks dblks go sk dk pack b swap (w, l, blocks))
    (fun s' => 0 <= s'.1.2 < l /\ grown b blocks s'.2).
Proof.
  intros. unfold hybrid_attn_round. emit_solve;
    (apply wpr_attn_cursor; intros; emit_solve; apply wpr_attn_cursor; intros; round_solve).
Qed.

Lemma parse_hybrid_attn_block_grown sn dn pts dts pbs dbs sblks dblks w l go sk dk pack swap
    blocks :
  0 <= l < W32 -> 0 <= sk < W32 -> 0 <= dk < W32 ->
  wpr (parse_hybrid_attn_block sn dn pts dts pbs dbs sblks dblks w l go sk dk pack b swap blocks)
    (grown b blocks).
Proof.
  intros. unfold parse_hybrid_attn_block. emit_solve.
  eapply wpr_mono; [apply token_loop_grown; [done|]|].
  - intros. by apply hybrid_attn_round_ok.
  - intros [[? ?] ?] ?. emit_solve.
Qed.

Lemma half_range z : 0 <= z < W64 -> 0 <= z / 2 < W64.
Proof. intros. split; [apply Z.div_pos; lia|]. apply Z.div_lt_upper_bound; lia. Qed.
#[local] Hint Resolve half_range : mach_db.

Lemma fill_attn_token_grown zs pbs x1 x2 ps ds x3 x4 i blocks :
  0 <= ps < W64 -> 0 <= pbs < W64 ->
  wpr (fill_attn_token zs pbs x1 x2 ps ds x3 x4 b i blocks) (grown b blocks).
Proof. intros. unfold fill_attn_token. emit_solve. Qed.
#[local] Hint Resolve fill_attn_token_grown : wpr_db.

Lemma fill_last_round_ok sn dn pts dts pbs dbs dblks go sk dk pack zs sp dp l blocks :
  0 <= pts < W64 -> 0 <= pbs < W64 -> 0 < l < W32 -> 0 <= sk < W32 -> 0 <= dk < W32 ->
  wpr (fill_last_round sn dn pts dts pbs dbs dblks go sk dk pack zs b (sp, dp, l, blocks))
    (fun s' => 0 <= s'.1.2 < l /\ grown b blocks s'.2).
Proof.
  intros. unfold fill_last_round. emit_solve;
    (apply wpr_attn_cursor; intros; round_solve).
Qed.

Lemma fill_last_hybrid_attn_block_grown sn dn pts dts pbs dbs sblks dblks tot go sk dk pack
    blocks :
  0 <= pts < W64 -> 0 <= pbs < W64 -> 0 <= sk < W32 -> 0 <= dk < W32 ->
  wpr (fill_last_hybrid_attn_block sn dn pts dts pbs dbs sblks dblks tot go sk dk pack b blocks)
    (grown b blocks).
Proof.
  intros. unfold fill_last_hybrid_attn_block. emit_solve;
  (eapply wpr_mono;
    [apply token_loop_grown; [auto with mach_db|intros [? ?] ? ? ?; by apply fill_last_round_ok]
    |intros [[? ?] ?] ?; emit_solve]).
Qed.

Lemma parse_hybrid_indexer_block_grown pbs dbs w l sblks dblks pn dn its blocks :
  0 <= l < W32 -> 0 <= pn < W32 -> 0 <= dn < W32 ->
  wpr (parse_hybrid_indexer_block pbs dbs w l sblks dblks pn dn its b blocks) (grown b blocks).
Proof.
  intros. unfold parse_hybrid_indexer_block. emit_solve.
  eapply wpr_mono; [apply token_loop_grown; [done|]|].
  - intros. unfold indexer_round. round_solve.
  - intros [[? ?] ?] ?. emit_solve.
Qed.

Lemma for_group_blocks_grown ck sblks dblks lo n body blocks :
  (forall s d blocks, wpr (body s d blocks) (grown b blocks)) ->
  wpr (for_group_blocks ck sblks dblks lo n body blocks) (grown b blocks).
Proof.
  intros Hbody. unfold for_group_blocks. emit_solve.
Qed.

(** Each state emitter is a visit of paired blocks. *)
Ltac group_blocks :=
  lazymatch goal with
  | |- wpr (for_group_blocks _ _ _ _ _ _ _) _ =>
      eapply wpr_mono; [apply for_group_blocks_grown; intros ? ? ?|intros ? ?]
  end.

Lemma gdn_eq_grown bs n sblks dblks blocks :
  wpr (parse_hybrid_gdn_block_send_p_eq_d bs n sblks dblks b blocks) (grown b blocks).
Proof. unfold parse_hybrid_gdn_block_send_p_eq_d. group_blocks; emit_solve. Qed.

Lemma gdn_conv_row_gt_grown x1 x2 x3 x4 x5 x6 x7 dims i blocks :
  wpr (gdn_conv_row_p_gt_d x1 x2 x3 x4 x5 x6 x7 dims b i blocks) (grown b blocks).
Proof.
  unfold gdn_conv_row_p_gt_d. apply wpr_bind.
  eapply wpr_mono; [apply forM_grown; intros; emit_solve|intros [? ?] ?; emit_solve].
Qed.

Lemma gdn_conv_row_lt_grown x1 x2 x3 x4 x5 x6 x7 dims i blocks :
  wpr (gdn_conv_row_p_lt_d x1 x2 x3 x4 x5 x6 x7 dims b i blocks) (grown b blocks).
Proof.
  unfold gdn_conv_row_p_lt_d. apply wpr_bind.
  eapply wpr_mono; [apply forM_grown; intros ? [? ?] ?; emit_solve
                   |intros [[? ?] ?] ?; emit_solve].
Qed.
#[local] Hint Resolve gdn_conv_row_gt_grown gdn_conv_row_lt_grown : wpr_db.

Lemma gdn_gt_grown pbs dbs n gn go src sblks dblks blocks :
  wpr (parse_hybrid_gdn_block_send_p_gt_d pbs dbs n gn go src sblks dblks b blocks)
    (grown b blocks).
Proof. unfold parse_hybrid_gdn_block_send_p_gt_d. emit_solve. group_blocks; emit_solve. Qed.

Lemma gdn_lt_grown pbs dbs n gn go src sblks dblks blocks :
  wpr (parse_hybrid_gdn_block_send_p_lt_d pbs dbs n gn go src sblks dblks b blocks)
    (grown b blocks).
Proof. unfold parse_hybrid_gdn_block_send_p_lt_d. emit_solve. group_blocks; emit_solve. Qed.

Lemma short_conv_eq_grown bs n g sblks dblks blocks :
  wpr (parse_hybrid_short_conv_block_send_p_eq_d bs n g sblks dblks b blocks) (grown b blocks).
Proof.
  unfold parse_hybrid_short_conv_block_send_p_eq_d. emit_solve. group_blocks; emit_solve.
Qed.

Lemma copy_ple_state_grown pbs dbs n g src sblks dblks blocks :
  wpr (copy_ple_state pbs dbs n g src sblks dblks b blocks) (grown b blocks).
Proof. unfold copy_ple_state. emit_solve. group_blocks; emit_solve. Qed.
#[local] Hint Resolve copy_ple_state_grown : wpr_db.

Lemma short_conv_gt_grown pbs dbs n g gn go src sblks dblks blocks :
  wpr (parse_hybrid_short_conv_block_send_p_gt_d pbs dbs n g gn go src sblks dblks b blocks)
    (grown b blocks).
Proof. unfold parse_hybrid_short_conv_block_send_p_gt_d. emit_solve. Qed.

Lemma short_conv_lt_grown pbs dbs n g gn go src sblks dblks blocks :
  wpr (parse_hybrid_short_conv_block_send_p_lt_d pbs dbs n g gn go src sblks dblks b blocks)
    (grown b blocks).
Proof. unfold parse_hybrid_short_conv_block_send_p_lt_d. emit_solve. Qed.
#[local] Hint Resolve do_parse_block_aligned_send_grown parse_hybrid_attn_block_grown
  fill_last_hybrid_attn_block_grown parse_hybrid_indexer_block_grown gdn_eq_grown gdn_gt_grown
  gdn_lt_grown short_conv_eq_grown short_conv_gt_grown short_conv_lt_grown : wpr_db.

Lemma hybrid_p_eq_d_body_grown src bs an inn task blocks :
  wf_task task -> 0 <= inn < W32 ->
  wpr (hybrid_p_eq_d_body src bs an inn task b blocks) (grown b blocks).
Proof. intros. unfold hybrid_p_eq_d_body. emit_solve. Qed.

Lemma hybrid_states_p_gt_d_grown pbs dbs gn go src task blocks :
  wpr (hybrid_states_p_gt_d pbs dbs gn go src task b blocks) (grown b blocks).
Proof. unfold hybrid_states_p_gt_d. emit_solve. Qed.

Lemma hybrid_states_p_lt_d_grown pbs dbs gn go src task blocks :
  wpr (hybrid_states_p_lt_d pbs dbs gn go src task b blocks) (grown b blocks).
Proof. unfold hybrid_states_p_lt_d. emit_solve. Qed.

Lemma hybrid_indexer_p_gt_d_grown pbs dbs gn src dst task blocks :
  wf_worker src -> wf_worker dst -> wf_task task ->
  wpr (hybrid_indexer_p_gt_d pbs dbs gn src dst task b blocks) (fun s' => grown b blocks s'.2).
Proof. intros. unfold hybrid_indexer_p_gt_d. emit_solve. Qed.
#[local] Hint Resolve hybrid_p_eq_d_body_grown hybrid_states_p_gt_d_grown
  hybrid_states_p_lt_d_grown hybrid_indexer_p_gt_d_grown : wpr_db.

Lemma do_parse_hybrid_p_gt_d_grown pts dts sn dn an ao gn go vr src dst task blocks :
  wf_worker src -> wf_worker dst -> wf_task task -> 0 <= pts < W64 ->
  wpr (do_parse_hybrid_block_send_p_gt_d pts dts sn dn an ao gn go vr src dst task b blocks)
    (grown b blocks).
Proof. intros. unfold do_parse_hybrid_block_send_p_gt_d. emit_solve. Qed.

Lemma fill_tail_hybrid_attn_grown pbs dbs dts dn dk pack sblks dblks tot blocks :
  0 <= pbs < W64 -> 0 <= tot < W32 -> 0 <= dk < W32 ->
  wpr (fill_tail_hybrid_attn_block_p_lt_d pbs dbs dts dn dk pack sblks dblks tot b blocks)
    (grown b blocks).
Proof.
  intros. unfold fill_tail_hybrid_attn_block_p_lt_d. emit_solve;
  (eapply wpr_mono; [apply (wpr_pos_loop (grown b))|intros [? ?] ?; emit_solve]);
  intros; unfold fill_tail_round; emit_solve; simpl; (split; [|grown_chain]);
  apply pos_progress; auto; try lia; apply u32_range.
Qed.
#[local] Hint Resolve do_parse_hybrid_p_gt_d_grown fill_tail_hybrid_attn_grown : wpr_db.

Lemma hybrid_p_lt_d_replicated_grown src dst pbs dbs pts pack task blocks :
  wf_worker src -> wf_task task ->
  wpr (hybrid_p_lt_d_replicated src dst pbs dbs pts pack task b blocks) (grown b blocks).
Proof. intros. unfold hybrid_p_lt_d_replicated. emit_solve. Qed.

Lemma hybrid_p_lt_d_sliced_grown src dst pts dts pbs dbs pack task blocks :
  wf_worker src -> wf_worker dst -> wf_task task -> 0 <= pbs < W64 ->
  wpr (hybrid_p_lt_d_sliced src dst pts dts pbs dbs pack task b blocks) (grown b blocks).
Proof. intros. unfold hybrid_p_lt_d_sliced. emit_solve. Qed.
End Emitters.

#[local] Hint Resolve hybrid_p_eq_d_body_grown do_parse_hybrid_p_gt_d_grown
  hybrid_p_lt_d_replicated_grown hybrid_p_lt_d_sliced_grown hybrid_states_p_lt_d_grown : wpr_db.

#[export] Instance vllm_parse_hybrid_block_send_p_eq_d_block_aligned_spec :
  ParseBlockSpec vllm_parse_hybrid_block_send_p_eq_d_block_aligned src_tensors.
Proof. split. intros. unfold vllm_parse_hybrid_block_send_p_eq_d_block_aligned. parse_solve. Qed.

#[export] Instance vllm_parse_hybrid_block_send_p_gt_d_spec :
  ParseBlockSpec vllm_parse_hybrid_block_send_p_gt_d src_tensors.
Proof. split. intros. unfold vllm_parse_hybrid_block_send_p_gt_d. parse_solve. Qed.

#[export] Instance vllm_parse_hybrid_block_send_p_lt_d_spec :
  ParseBlockSpec vllm_parse_hybrid_block_send_p_lt_d src_tensors.
Proof. split. intros. unfold vllm_parse_hybrid_block_send_p_lt_d. parse_solve. Qed.

#[export] Instance turboquant_parse_block_send_p_eq_d_spec :
  ParseBlockSpec turboquant_parse_block_send_p_eq_d src_tensors.
Proof. apply vllm_parse_hybrid_block_send_p_eq_d_block_aligned_spec. Qed.

#[export] Instance turboquant_parse_block_send_p_gt_d_spec :
  ParseBlockSpec turboquant_parse_block_send_p_gt_d src_tensors.
Proof. apply vllm_parse_hybrid_block_send_p_gt_d_spec. Qed.

End Qwen3Next.

#[export] Hint Resolve do_parse_block_aligned_send_grown parse_hybrid_indexer_block_grown
  hybrid_p_eq_d_body_grown hybrid_states_p_gt_d_grown hybrid_states_p_lt_d_grown
  hybrid_indexer_p_gt_d_grown gdn_conv_row_gt_grown for_group_blocks_grown : wpr_db.
