(* ===== verification/ParseQwen3NextFlashInfer.v ===== *)
(** QWEN3_NEXT_FLASHINFER_CACHE_SHAPE, [src/parse_block_qwen3_next_flashinfer.cpp]:
    the hybrid groups of QWEN3_NEXT with the attention group in the head-major
    (HND) layout of FlashInfer. *)

From S2P Require Import Prelude Common ParseCommon ParseFlashInfer ParseQwen3Next.

Section Qwen3NextFlashInfer.
Context `{Env}.

(** [std::max(1, num_kv_heads / int(engine_tp_size))]; signed division truncates
    towards zero. *)
Definition per_tp_kv_heads (info : WorkerInfo) : res Z :=
  if engine_tp_size info =? 0 then Err Undefined
  else Ok (Z.max 1 (Z.quot (num_kv_heads info) (to_i32 (engine_tp_size info)))).

Definition vllm_parse_qwen3_next_flashinfer_block_send_p_eq_d : ParseBlockFunc :=
  fun src dst valid_ranks kvt_tp_size kvt_tp_rank task send_blocks =>
  assert: engine_tp_size src =? engine_tp_size dst;
  assert: kvt_tp_size =? engine_tp_size dst;
  assert: worker_tp_rank src =? worker_tp_rank dst;
  assert: bool_decide (token_sizes src = token_sizes dst);
  assert: bool_decide (block_sizes src = block_sizes dst);
  assert: vsize (token_sizes src) =? 1;
  assert: vsize (block_sizes src) =? 1;
  let* p_token_size := vec_at (token_sizes src) 0 in
  let* _ := vec_at (token_sizes dst) 0 in
  let* p_block_size := vec_at (block_sizes src) 0 in
  let* _ := vec_at (block_sizes dst) 0 in
  let* q := udiv p_block_size p_token_size in
  let ntpb := u32 q in
  assert: u64 (ntpb * p_token_size) =? p_block_size;
  assert: attn_kernel_blk_ntpb src =? ntpb;
  assert: attn_kernel_blk_ntpb dst =? ntpb;
  let send_blocks := vec_resize [] (vsize (token_sizes src)) send_blocks in
  upd_cache 0 (fun blocks =>
    let* bounds := make_ipc_block_bounds src dst 0 in
    assert: num_gdn_layers src <? vsize (src_blocks task);
    assert: num_gdn_layers src <? vsize (dst_blocks task);
    assert: indexer_blk_ntpb src =? indexer_blk_ntpb dst;
    hybrid_p_eq_d_body src p_block_size ntpb (indexer_blk_ntpb src) task bounds blocks)
    send_blocks.

(** The attention group, P>D: HND records, then the zero fill of the last block. *)
Definition hnd_attn_p_gt_d (p_token_size d_token_size p_block_size d_block_size src_ntpb
    dst_ntpb attn_group_n attn_group_off src_heads_per_rank attn_group_offset : Z)
    (src dst : WorkerInfo) (task : ReqSendTask) (bounds : IpcBlockBounds)
    (blocks : list IpcBlock) : res (list IpcBlock) :=
  let* sa := vec_at (src_blocks task) attn_group_offset in
  let* da := vec_at (dst_blocks task) attn_group_offset in
  let* blocks := parse_hybrid_flashinfer_HND_block p_token_size d_token_size p_block_size
    d_block_size src_ntpb dst_ntpb sa da (seen_tokens task) (new_tokens task)
    attn_group_n attn_group_off (attn_kernel_blk_ntpb src) (attn_kernel_blk_ntpb dst)
    src_heads_per_rank bounds false blocks in
  if env_pad_last_attn_block && reach_last_token task then
    fill_last_hybrid_flashinfer_HND_block p_token_size d_token_size p_block_size
      d_block_size dst_ntpb sa da (u32 (seen_tokens task + new_tokens task))
      attn_group_off src_heads_per_rank bounds blocks
  else Ok blocks.

Definition vllm_parse_qwen3_next_flashinfer_block_send_p_gt_d : ParseBlockFunc :=
  fun src dst valid_ranks kvt_tp_size kvt_tp_rank task send_blocks =>
  let p_engine_tp := engine_tp_size src in
  let d_engine_tp := engine_tp_size dst in
  assert: d_engine_tp <? p_engine_tp;
  assertM: divides_b d_engine_tp p_engine_tp;
  let* gdn_group_n := udiv p_engine_tp d_engine_tp in
  let* gdn_group_off := umod (worker_tp_rank src) gdn_group_n in
  assertM: (let* q := udiv (worker_tp_rank src) gdn_group_n in Ok (q =? worker_tp_rank dst));
  let* attn_group_n := udiv (bit_count valid_ranks) d_engine_tp in
  let attn_group_off := if 0 <? attn_group_n then kvt_tp_rank mod attn_group_n else 0 in
  assert: vsize (token_sizes src) =? 1;
  assert: vsize (token_sizes dst) =? 1;
  assert: vsize (block_sizes src) =? 1;
  assert: vsize (block_sizes dst) =? 1;
  let* p_token_size := vec_at (token_sizes src) 0 in
  let* d_token_size := vec_at (token_sizes dst) 0 in
  let* p_block_size := vec_at (block_sizes src) 0 in
  let* d_block_size := vec_at (block_sizes dst) 0 in
  let* src_heads_per_rank := per_tp_kv_heads src in
  let* sq := udiv p_block_size p_token_size in
  let src_ntpb := u32 sq in
  let* dq := udiv d_block_size d_token_size in
  let dst_ntpb := u32 dq in
  assert: u64 (src_ntpb * p_token_size) =? p_block_size;
  assert: u64 (dst_ntpb * d_token_size) =? d_block_size;
  assert: attn_kernel_blk_ntpb src =? src_ntpb;
  assert: attn_kernel_blk_ntpb dst =? dst_ntpb;
  let send_blocks := vec_resize [] (vsize (token_sizes src)) send_blocks in
  upd_cache 0 (fun blocks =>
    let* bounds := make_ipc_block_bounds src dst 0 in
    assert: num_gdn_layers src <? vsize (src_blocks task);
    assert: num_gdn_layers src <? vsize (dst_blocks task);
    assert: ((indexer_blk_ntpb src =? 0) && (indexer_blk_ntpb dst =? 0))
            || ((0 <? indexer_blk_ntpb src) && (0 <? indexer_blk_ntpb dst));
    let* blocks := hybrid_states_p_gt_d p_block_size d_block_size gdn_group_n
                     gdn_group_off src task bounds blocks in
    let* '(attn_group_offset, blocks) :=
      hybrid_indexer_p_gt_d p_block_size d_block_size gdn_group_n src dst task bounds
        blocks in
    assert: attn_group_offset <? vsize (src_blocks task);
    assert: attn_group_offset <? vsize (dst_blocks task);
    let* sends := bit_idx valid_ranks (worker_tp_rank src) in
    if sends then
      hnd_attn_p_gt_d p_token_size d_token_size p_block_size d_block_size src_ntpb dst_ntpb
        attn_group_n attn_group_off src_heads_per_rank attn_group_offset src dst task
        bounds blocks
    else Ok blocks) send_blocks.

Definition hnd_fill_tail_round (p_block_size d_block_size dst_ntpb head_dim_size
    dst_heads_per_rank d_head_section_size d_kv_section_size zero_src_off end_tok : Z)
    (dblks : list Z) (bounds : IpcBlockBounds) (s : Z * list IpcBlock)
    : res (Z * list IpcBlock) :=
  let '(dst_pos, blocks) := s in
  let* d_blk_idx := udiv dst_pos dst_ntpb in
  let* d_token_idx := umod dst_pos dst_ntpb in
  let tokens := Z.min (u32 (dst_ntpb - d_token_idx)) (u32 (end_tok - dst_pos)) in
  assert: d_blk_idx <? vsize dblks;
  let* db := vec_at dblks d_blk_idx in
  let d_blk_off := u64 (db * d_block_size) in
  let len := u64 (tokens * head_dim_size) in
  let* blocks := for_range 0 dst_heads_per_rank (fun head_idx blocks =>
    let dk_off := u64 (d_blk_off + head_idx * d_head_section_size
                       + d_token_idx * head_dim_size) in
    let dv_off := u64 (dk_off + d_kv_section_size) in
    let* blocks := emit_zero_fill_segments zero_src_off dk_off len p_block_size bounds blocks in
    emit_zero_fill_segments zero_src_off dv_off len p_block_size bounds blocks) blocks in
  Ok (u32 (dst_pos + tokens), blocks).

Definition fill_tail_hybrid_flashinfer_HND_block_p_lt_d (p_block_size d_block_size dst_ntpb
    head_dim_size dst_heads_per_rank : Z) (sblks dblks : list Z) (total_tokens : Z)
    (bounds : IpcBlockBounds) (blocks : list IpcBlock) : res (list IpcBlock) :=
  let end_tok := u32 (u32 (vsize dblks) * dst_ntpb) in
  if end_tok <=? total_tokens then Ok blocks else
  let d_head_section_size := u64 (dst_ntpb * head_dim_size) in
  let d_kv_section_size := d_block_size / 2 in
  let* sb0 := vec_at sblks 0 in
  let zero_src_off := u64 (sb0 * p_block_size) in
  let* '(_, blocks) :=
    while (Z.to_nat (end_tok - total_tokens)) (fun s => s.1 <? end_tok)
      (hnd_fill_tail_round p_block_size d_block_size dst_ntpb head_dim_size
         dst_heads_per_rank d_head_section_size d_kv_section_size zero_src_off end_tok
         dblks bounds) (total_tokens, blocks) in
  Ok blocks.

(** Replicated-head regime: whole-block copies. *)
Definition hnd_p_lt_d_replicated (src dst : WorkerInfo) (p_block_size d_block_size
    src_ntpb : Z) (task : ReqSendTask) (bounds : IpcBlockBounds) (blocks : list IpcBlock)
    : res (list IpcBlock) :=
  let sblks := src_blocks task in
  let dblks := dst_blocks task in
  assert: p_block_size =? d_block_size;
  assert: indexer_blk_ntpb src =? indexer_blk_ntpb dst;
  let* '(attn_group_offset, blocks) :=
    if 0 <? indexer_blk_ntpb src then
      let* si := vec_at sblks (num_gdn_layers src) in
      let* di := vec_at dblks (num_gdn_layers src) in
      let* blocks := do_parse_block_aligned_send p_block_size task si di
                       (indexer_blk_ntpb src) bounds blocks in
      Ok (u64 (num_gdn_layers src + 1), blocks)
    else Ok (num_gdn_layers src, blocks) in
  assert: attn_group_offset <? vsize sblks;
  assert: attn_group_offset <? vsize dblks;
  let* sa := vec_at sblks attn_group_offset in
  let* da := vec_at dblks attn_group_offset in
  do_parse_block_aligned_send p_block_size task sa da src_ntpb bounds blocks.

(** Sliced regime: every target takes its head sections. *)
Definition hnd_p_lt_d_sliced (src dst : WorkerInfo) (p_token_size d_token_size p_block_size
    d_block_size src_ntpb dst_ntpb : Z) (task : ReqSendTask) (bounds : IpcBlockBounds)
    (blocks : list IpcBlock) : res (list IpcBlock) :=
  let sblks := src_blocks task in
  let dblks := dst_blocks task in
  let p_engine_tp := engine_tp_size src in
  let d_engine_tp := engine_tp_size dst in
  assert: d_token_size <? p_token_size;
  assertM: divides_b d_token_size p_token_size;
  let* gq := udiv p_token_size d_token_size in
  let attn_group_n := u32 gq in
  assertM: divides_b (u32 (p_engine_tp * attn_group_n)) d_engine_tp;
  let* replicas := udiv d_engine_tp (u32 (p_engine_tp * attn_group_n)) in
  let* rq := udiv (worker_tp_rank dst) replicas in
  let* attn_group_off := umod rq attn_group_n in
  assert: 0 <? num_kv_heads src;
  let* dst_heads_per_rank :=
    if d_engine_tp <=? u32 (num_kv_heads src)
    then (if d_engine_tp =? 0 then Err Undefined
          else Ok (Z.quot (num_kv_heads src) (to_i32 d_engine_tp)))
    else Ok 1 in
  assertM: divides_b (u64 (2 * u64 dst_heads_per_rank)) d_token_size;
  let* head_dim_size := udiv (d_token_size / 2) (u64 dst_heads_per_rank) in
  let* '(attn_group_offset, blocks) :=
    if 0 <? indexer_blk_ntpb src then
      let* si := vec_at sblks (num_gdn_layers src) in
      let* di := vec_at dblks (num_gdn_layers src) in
      let* blocks := parse_hybrid_indexer_block p_block_size d_block_size
        (seen_tokens task) (new_tokens task) si di (indexer_blk_ntpb src)
        (indexer_blk_ntpb dst) (hybrid_indexer_token_size src) bounds blocks in
      Ok (u64 (num_gdn_layers src + 1), blocks)
    else Ok (num_gdn_layers src, blocks) in
  assert: attn_group_offset <? vsize sblks;
  assert: attn_group_offset <? vsize dblks;
  let* sa := vec_at sblks attn_group_offset in
  let* da := vec_at dblks attn_group_offset in
  let* blocks := parse_hybrid_flashinfer_HND_block d_token_size p_token_size d_block_size
    p_block_size dst_ntpb src_ntpb da sa (seen_tokens task) (new_tokens task)
    attn_group_n attn_group_off (attn_kernel_blk_ntpb dst) (attn_kernel_blk_ntpb src)
    dst_heads_per_rank bounds true blocks in
  if env_pad_last_attn_block && reach_last_token task then
    fill_tail_hybrid_flashinfer_HND_block_p_lt_d p_block_size d_block_size dst_ntpb
      head_dim_size dst_heads_per_rank sa da (u32 (seen_tokens task + new_tokens task))
      bounds blocks
  else Ok blocks.

Definition vllm_parse_qwen3_next_flashinfer_block_send_p_lt_d : ParseBlockFunc :=
  fun src dst valid_ranks kvt_tp_size kvt_tp_rank task send_blocks =>
  assert: engine_tp_size src <? engine_tp_size dst;
  assertM: divides_b (engine_tp_size src) (engine_tp_size dst);
  let* gdn_group_n := udiv (engine_tp_size dst) (engine_tp_size src) in
  let* gdn_group_off := umod (worker_tp_rank dst) gdn_group_n in
  assertM: (let* q := udiv (worker_tp_rank dst) gdn_group_n in Ok (q =? worker_tp_rank src));
  assert: vsize (token_sizes src) =? 1;
  assert: vsize (block_sizes src) =? 1;
  assert: vsize (token_sizes dst) =? 1;
  assert: vsize (block_sizes dst) =? 1;
  let* p_token_size := vec_at (token_sizes src) 0 in
  let* p_block_size := vec_at (block_sizes src) 0 in
  let* d_token_size := vec_at (token_sizes dst) 0 in
  let* d_block_size := vec_at (block_sizes dst) 0 in
  let* sq := udiv p_block_size p_token_size in
  let src_ntpb := u32 sq in
  let* dq := udiv d_block_size d_token_size in
  let dst_ntpb := u32 dq in
  assert: u64 (src_ntpb * p_token_size) =? p_block_size;
  assert: u64 (dst_ntpb * d_token_size) =? d_block_size;
  assert: attn_kernel_blk_ntpb src =? src_ntpb;
  assert: attn_kernel_blk_ntpb dst =? dst_ntpb;
  let send_blocks := vec_resize [] (vsize (token_sizes src)) send_blocks in
  upd_cache 0 (fun blocks =>
    let* bounds := make_ipc_block_bounds src dst 0 in
    assert: num_gdn_layers src <? vsize (src_blocks task);
    assert: num_gdn_layers src <? vsize (dst_blocks task);
    assert: ((indexer_blk_ntpb src =? 0) && (indexer_blk_ntpb dst =? 0))
            || ((0 <? indexer_blk_ntpb src) && (0 <? indexer_blk_ntpb dst));
    let* blocks :=
      if p_token_size =? d_token_size then
        hnd_p_lt_d_replicated src dst p_block_size d_block_size src_ntpb task bounds blocks
      else
        hnd_p_lt_d_sliced src dst p_token_size d_token_size p_block_size d_block_size
          src_ntpb dst_ntpb task bounds blocks in
    hybrid_states_p_lt_d p_block_size d_block_size gdn_group_n gdn_group_off src task
      bounds blocks) send_blocks.

(** ** Contract *)

Lemma per_tp_kv_heads_ok w : wpr (per_tp_kv_heads w) (fun _ => True).
Proof. unfold per_tp_kv_heads. emit_solve. Qed.
#[local] Hint Resolve per_tp_kv_heads_ok : wpr_db.

Section Emitters.
Context (b : IpcBlockBounds) (Hb : wf_bounds b).

Lemma hnd_attn_p_gt_d_grown pts dts pbs dbs sn dn an ao nh go src dst task blocks :
  wf_worker src -> wf_worker dst -> wf_task task -> 0 <= pbs < W64 ->
  wpr (hnd_attn_p_gt_d pts dts pbs dbs sn dn an ao nh go src dst task b blocks)
    (grown b blocks).
Proof. intros. unfold hnd_attn_p_gt_d. emit_solve. Qed.

Lemma fill_tail_HND_grown pbs dbs dn hd nh sblks dblks tot blocks :
  0 <= pbs < W64 -> 0 <= dn < W32 -> 0 <= tot < W32 ->
  wpr (fill_tail_hybrid_flashinfer_HND_block_p_lt_d pbs dbs dn hd nh sblks dblks tot b blocks)
    (grown b blocks).
Proof.
  intros. unfold fill_tail_hybrid_flashinfer_HND_block_p_lt_d. emit_solve.
  eapply wpr_mono; [apply (wpr_pos_loop (grown b))|intros [? ?] ?; emit_solve].
  intros; unfold hnd_fill_tail_round; emit_solve; simpl; (split; [|grown_chain]);
  apply pos_progress; auto; try lia; apply u32_range.
Qed.
#[local] Hint Resolve fill_tail_HND_grown : wpr_db.

Lemma hnd_p_lt_d_replicated_grown src dst pbs dbs sn task blocks :
  wf_worker src -> wf_task task -> 0 <= sn < W32 ->
  wpr (hnd_p_lt_d_replicated src dst pbs dbs sn task b blocks) (grown b blocks).
Proof. intros. unfold hnd_p_lt_d_replicated. emit_solve. Qed.

Lemma hnd_p_lt_d_sliced_grown src dst pts dts pbs dbs sn dn task blocks :
  wf_worker src -> wf_worker dst -> wf_task task -> 0 <= pbs < W64 -> 0 <= dn < W32 ->
  wpr (hnd_p_lt_d_sliced src dst pts dts pbs dbs sn dn task b blocks) (grown b blocks).
Proof. intros. unfold hnd_p_lt_d_sliced. emit_solve. Qed.
End Emitters.
#[local] Hint Resolve hnd_attn_p_gt_d_grown hnd_p_lt_d_replicated_grown
  hnd_p_lt_d_sliced_grown : wpr_db.

#[export] Instance vllm_parse_qwen3_next_flashinfer_block_send_p_eq_d_spec :
  ParseBlockSpec vllm_parse_qwen3_next_flashinfer_block_send_p_eq_d src_tensors.
Proof. split. intros. unfold vllm_parse_qwen3_next_flashinfer_block_send_p_eq_d. parse_solve. Qed.

#[export] Instance vllm_parse_qwen3_next_flashinfer_block_send_p_gt_d_spec :
  ParseBlockSpec vllm_parse_qwen3_next_flashinfer_block_send_p_gt_d src_tensors.
Proof. split. intros. unfold vllm_parse_qwen3_next_flashinfer_block_send_p_gt_d. parse_solve. Qed.

#[export] Instance vllm_parse_qwen3_next_flashinfer_block_send_p_lt_d_spec :
  ParseBlockSpec vllm_parse_qwen3_next_flashinfer_block_send_p_lt_d src_tensors.
Proof. split. intros. unfold vllm_parse_qwen3_next_flashinfer_block_send_p_lt_d. parse_solve. Qed.

End Qwen3NextFlashInfer.
