(* ===== verification/ParseKda.v ===== *)
(** KDA linear-attention state pages ([src/parse_block_kda.cpp]): per page
    [conv][recurrent][padding], copied on request completion. *)

From S2P Require Import Prelude Common ParseCommon ParseQwen3Next.

Record KdaStateLayout := mkKdaStateLayout {
  state_len : Z;
  qkv_channels : Z;
  conv_size : Z;
  recurrent_size : Z;
}.

Section Kda.
Context `{Env}.

Definition get_kda_page_stride (w : WorkerInfo) : res Z :=
  assert: vsize (block_sizes w) =? 1;
  if negb (kda_page_stride w =? 0) then Ok (kda_page_stride w)
  else vec_at (block_sizes w) 0.

(** [std::accumulate(dims.begin(), dims.end(), size_t{0})]. *)
Definition accumulate (dims : list Z) : Z := foldl (fun a d => u64 (a + d)) 0 dims.

Definition get_kda_state_layout (w : WorkerInfo) : res KdaStateLayout :=
  assert: vsize (conv_state_shape w) =? 3;
  assert: vsize (ssm_state_shape w) =? 4;
  assert: vsize (gdn_conv_channel_dims w) =? 3;
  assert: 0 <? gdn_conv_elem_size w;
  assert: 0 <? gdn_ssm_elem_size w;
  let* sl := vec_at (conv_state_shape w) (if kda_conv_dim_first w then 2 else 1) in
  let* qc := vec_at (conv_state_shape w) (if kda_conv_dim_first w then 1 else 2) in
  assert: 0 <? sl;
  assert: 0 <? qc;
  assert: accumulate (gdn_conv_channel_dims w) =? qc;
  let* r1 := vec_at (ssm_state_shape w) 1 in
  let* r2 := vec_at (ssm_state_shape w) 2 in
  let* r3 := vec_at (ssm_state_shape w) 3 in
  Ok (mkKdaStateLayout sl qc (u64 (sl * qc * gdn_conv_elem_size w))
        (u64 (r1 * r2 * r3 * gdn_ssm_elem_size w))).

Definition check_kda_block_groups (n : Z) (sblks dblks : BlockIds) : res unit :=
  assert: 0 <? n;
  assert: n <=? vsize sblks;
  assert: n <=? vsize dblks;
  for_range 0 n (fun g _ =>
    cassertM (let* sg := vec_at sblks g in
              let* dg := vec_at dblks g in
              Ok (vsize sg =? vsize dg))) tt.

(** DS layout: channel-major conv state. *)
Definition kda_conv_ds_p_gt_d (p_off d_off group_n group_off elem_size : Z)
    (layout : KdaStateLayout) (dims : list Z) (bounds : IpcBlockBounds)
    (blocks : list IpcBlock) : res (list IpcBlock) :=
  let* '(inner, blocks) := forM dims (fun dim '(inner, blocks) =>
    let component_size := u64 (dim * state_len layout * elem_size) in
    let* blocks := append_ipc_block_checked blocks bounds (u64 (p_off + inner))
      (u64 (d_off + group_n * inner + group_off * component_size)) component_size in
    Ok (u64 (inner + component_size), blocks)) (0, blocks) in
  assert: inner =? conv_size layout;
  Ok blocks.

Definition emit_kda_block_p_gt_d (p_off d_off group_n group_off : Z) (src : WorkerInfo)
    (layout : KdaStateLayout) (bounds : IpcBlockBounds) (blocks : list IpcBlock)
    : res (list IpcBlock) :=
  let elem_size := gdn_conv_elem_size src in
  let dims := gdn_conv_channel_dims src in
  let* blocks :=
    if kda_conv_dim_first src then
      kda_conv_ds_p_gt_d p_off d_off group_n group_off elem_size layout dims bounds blocks
    else
      let p_row_size := u64 (qkv_channels layout * elem_size) in
      let d_row_size := u64 (group_n * p_row_size) in
      for_range 0 (state_len layout)
        (gdn_conv_row_p_gt_d p_off d_off p_row_size d_row_size elem_size group_n group_off
           dims bounds) blocks in
  append_ipc_block_checked blocks bounds (u64 (p_off + conv_size layout))
    (u64 (d_off + group_n * conv_size layout + group_off * recurrent_size layout))
    (recurrent_size layout).

(** P<D, DS layout: returns the destination conv size with the records. *)
Definition kda_conv_ds_p_lt_d (p_off d_off group_n group_off elem_size : Z)
    (layout : KdaStateLayout) (dims : list Z) (bounds : IpcBlockBounds)
    (blocks : list IpcBlock) : res (Z * list IpcBlock) :=
  let* '(p_inner, d_inner, blocks) := forM dims (fun dim '(p_inner, d_inner, blocks) =>
    assertM: divides_b group_n dim;
    let* d_dim := udiv dim group_n in
    let component_size := u64 (d_dim * state_len layout * elem_size) in
    let* blocks := append_ipc_block_checked blocks bounds
      (u64 (p_off + p_inner + group_off * component_size)) (u64 (d_off + d_inner))
      component_size in
    Ok (u64 (p_inner + group_n * component_size), u64 (d_inner + component_size), blocks))
    (0, 0, blocks) in
  assert: p_inner =? conv_size layout;
  Ok (d_inner, blocks).

(** P<D, SD layout: one short-conv history row. *)
Definition kda_conv_row_p_lt_d (p_off d_off p_row_size d_row_size elem_size group_n
    group_off : Z) (dims : list Z) (bounds : IpcBlockBounds) (state_idx : Z)
    (blocks : list IpcBlock) : res (list IpcBlock) :=
  let* '(p_inner, d_inner, blocks) := forM dims (fun dim '(p_inner, d_inner, blocks) =>
    assertM: divides_b group_n dim;
    let* d_dim := udiv dim group_n in
    let component_size := u64 (d_dim * elem_size) in
    let* blocks := append_ipc_block_checked blocks bounds
      (u64 (p_off + state_idx * p_row_size + p_inner + group_off * component_size))
      (u64 (d_off + state_idx * d_row_size + d_inner)) component_size in
    Ok (u64 (p_inner + group_n * component_size), u64 (d_inner + component_size), blocks))
    (0, 0, blocks) in
  assert: p_inner =? p_row_size;
  assert: d_inner =? d_row_size;
  Ok blocks.

Definition emit_kda_block_p_lt_d (p_off d_off group_n group_off : Z) (src : WorkerInfo)
    (layout : KdaStateLayout) (bounds : IpcBlockBounds) (blocks : list IpcBlock)
    : res (list IpcBlock) :=
  let elem_size := gdn_conv_elem_size src in
  let dims := gdn_conv_channel_dims src in
  assertM: divides_b group_n (recurrent_size layout);
  let* d_recurrent_size := udiv (recurrent_size layout) group_n in
  let* '(d_conv_size, blocks) :=
    if kda_conv_dim_first src then
      kda_conv_ds_p_lt_d p_off d_off group_n group_off elem_size layout dims bounds blocks
    else
      let p_row_size := u64 (qkv_channels layout * elem_size) in
      assertM: divides_b group_n p_row_size;
      let* d_row_size := udiv p_row_size group_n in
      let* blocks := for_range 0 (state_len layout)
        (kda_conv_row_p_lt_d p_off d_off p_row_size d_row_size elem_size group_n group_off
           dims bounds) blocks in
      let* d_conv_size := udiv (conv_size layout) group_n in
      Ok (d_conv_size, blocks) in
  append_ipc_block_checked blocks bounds
    (u64 (p_off + conv_size layout + group_off * d_recurrent_size))
    (u64 (d_off + d_conv_size)) d_recurrent_size.

Definition prepare_kda_parse (src dst : WorkerInfo) (task : ReqSendTask)
    (send_blocks : list (list IpcBlock)) : res (list (list IpcBlock)) :=
  assert: vsize (block_sizes src) =? 1;
  assert: vsize (block_sizes dst) =? 1;
  let* _ := check_kda_block_groups (num_gdn_layers src) (src_blocks task) (dst_blocks task) in
  Ok (vec_resize [] 1 send_blocks).

Definition parse_kda_block_send_p_eq_d : ParseBlockFunc :=
  fun src dst valid_ranks kvt_tp_size kvt_tp_rank task send_blocks =>
  let* send_blocks := prepare_kda_parse src dst task send_blocks in
  assert: engine_tp_size src =? engine_tp_size dst;
  assert: worker_tp_rank src =? worker_tp_rank dst;
  let* src_page_stride := get_kda_page_stride src in
  let* dst_page_stride := get_kda_page_stride dst in
  assert: src_page_stride =? dst_page_stride;
  if negb (reach_last_token task) then Ok send_blocks else
  let* bounds := make_ipc_block_bounds src dst 0 in
  upd_cache 0 (for_group_blocks false (src_blocks task) (dst_blocks task) 0
    (num_gdn_layers src) (fun s d blocks =>
      append_ipc_block_checked blocks bounds (u64 (s * src_page_stride))
        (u64 (d * dst_page_stride)) src_page_stride)) send_blocks.

Definition parse_kda_block_send_p_gt_d : ParseBlockFunc :=
  fun src dst valid_ranks kvt_tp_size kvt_tp_rank task send_blocks =>
  let* send_blocks := prepare_kda_parse src dst task send_blocks in
  let p_tp := engine_tp_size src in
  let d_tp := engine_tp_size dst in
  assert: d_tp <? p_tp;
  assertM: divides_b d_tp p_tp;
  let* group_n := udiv p_tp d_tp in
  let* group_off := umod (worker_tp_rank src) group_n in
  assertM: (let* q := udiv (worker_tp_rank src) group_n in Ok (q =? worker_tp_rank dst));
  if negb (reach_last_token task) then Ok send_blocks else
  let* p_block_size := get_kda_page_stride src in
  let* d_block_size := get_kda_page_stride dst in
  let* layout := get_kda_state_layout src in
  assert: u64 (group_n * (conv_size layout + recurrent_size layout)) <=? d_block_size;
  assert: u64 (conv_size layout + recurrent_size layout) <=? p_block_size;
  let* bounds := make_ipc_block_bounds src dst 0 in
  upd_cache 0 (for_group_blocks false (src_blocks task) (dst_blocks task) 0
    (num_gdn_layers src) (fun s d =>
      emit_kda_block_p_gt_d (u64 (s * p_block_size)) (u64 (d * d_block_size))
        group_n group_off src layout bounds)) send_blocks.

Definition parse_kda_block_send_p_lt_d : ParseBlockFunc :=
  fun src dst valid_ranks kvt_tp_size kvt_tp_rank task send_blocks =>
  let* send_blocks := prepare_kda_parse src dst task send_blocks in
  let p_tp := engine_tp_size src in
  let d_tp := engine_tp_size dst in
  assert: p_tp <? d_tp;
  assertM: divides_b p_tp d_tp;
  let* group_n := udiv d_tp p_tp in
  let* group_off := umod (worker_tp_rank dst) group_n in
  assertM: (let* q := udiv (worker_tp_rank dst) group_n in Ok (q =? worker_tp_rank src));
  if negb (reach_last_token task) then Ok send_blocks else
  let* p_block_size := get_kda_page_stride src in
  let* d_block_size := get_kda_page_stride dst in
  let* layout := get_kda_state_layout src in
  assertM: divides_b group_n (conv_size layout);
  assertM: divides_b group_n (recurrent_size layout);
  assert: u64 (conv_size layout + recurrent_size layout) <=? p_block_size;
  assertM: (let* q := udiv (u64 (conv_size layout + recurrent_size layout)) group_n in
            Ok (q <=? d_block_size));
  let* bounds := make_ipc_block_bounds src dst 0 in
  upd_cache 0 (for_group_blocks false (src_blocks task) (dst_blocks task) 0
    (num_gdn_layers src) (fun s d =>
      emit_kda_block_p_lt_d (u64 (s * p_block_size)) (u64 (d * d_block_size))
        group_n group_off src layout bounds)) send_blocks.

(** ** Contract *)

Lemma get_kda_page_stride_ok w :
  wf_worker w -> wpr (get_kda_page_stride w) (fun s => 0 <= s < W64).
Proof. intros. unfold get_kda_page_stride. emit_solve; eauto with mach_db. Qed.

Lemma get_kda_state_layout_ok w : wpr (get_kda_state_layout w) (fun _ => True).
Proof. unfold get_kda_state_layout. emit_solve. Qed.

Lemma check_kda_block_groups_ok n sblks dblks :
  wpr (check_kda_block_groups n sblks dblks) (fun _ => True).
Proof.
  unfold check_kda_block_groups. emit_solve.
  apply (wpr_forM (fun _ => True)); [|done]. intros. emit_solve.
Qed.
#[local] Hint Resolve get_kda_page_stride_ok get_kda_state_layout_ok : wpr_db.

Lemma prepare_kda_parse_ok src dst task sb :
  wpr (prepare_kda_parse src dst task sb) (fun sb' => sb' = vec_resize [] 1 sb).
Proof.
  unfold prepare_kda_parse. emit_solve. eapply wpr_mono; [apply check_kda_block_groups_ok|].
  intros. emit_solve. done.
Qed.

Section Emitters.
Context (b : IpcBlockBounds) (Hb : wf_bounds b).

Lemma kda_conv_ds_p_gt_d_grown po do gn go es layout dims blocks :
  wpr (kda_conv_ds_p_gt_d po do gn go es layout dims b blocks) (grown b blocks).
Proof.
  unfold kda_conv_ds_p_gt_d. apply wpr_bind.
  eapply wpr_mono; [apply forM_grown; intros; emit_solve|intros [? ?] ?; emit_solve].
Qed.
#[local] Hint Resolve kda_conv_ds_p_gt_d_grown : wpr_db.

Lemma emit_kda_block_p_gt_d_grown po do gn go src layout blocks :
  wpr (emit_kda_block_p_gt_d po do gn go src layout b blocks) (grown b blocks).
Proof. unfold emit_kda_block_p_gt_d. emit_solve. Qed.

Lemma kda_conv_ds_p_lt_d_grown po do gn go es layout dims blocks :
  wpr (kda_conv_ds_p_lt_d po do gn go es layout dims b blocks)
    (fun s' => grown b blocks s'.2).
Proof.
  unfold kda_conv_ds_p_lt_d. apply wpr_bind.
  eapply wpr_mono; [apply forM_grown; intros ? [? ?] ?; emit_solve
                   |intros [[? ?] ?] ?; emit_solve].
Qed.

Lemma kda_conv_row_p_lt_d_grown po do pr dr es gn go dims i blocks :
  wpr (kda_conv_row_p_lt_d po do pr dr es gn go dims b i blocks) (grown b blocks).
Proof.
  unfold kda_conv_row_p_lt_d. apply wpr_bind.
  eapply wpr_mono; [apply forM_grown; intros ? [? ?] ?; emit_solve
                   |intros [[? ?] ?] ?; emit_solve].
Qed.
#[local] Hint Resolve kda_conv_ds_p_lt_d_grown kda_conv_row_p_lt_d_grown : wpr_db.

Lemma emit_kda_block_p_lt_d_grown po do gn go src layout blocks :
  wpr (emit_kda_block_p_lt_d po do gn go src layout b blocks) (grown b blocks).
Proof. unfold emit_kda_block_p_lt_d. emit_solve. Qed.
End Emitters.
#[local] Hint Resolve emit_kda_block_p_gt_d_grown emit_kda_block_p_lt_d_grown : wpr_db.

(** Every KDA entry point first resizes to one tensor. *)
Lemma prepare_then_extends src dst task sb (k : list (list IpcBlock) -> res (list (list IpcBlock))) :
  wpr (k (vec_resize [] 1 sb)) (extends src dst 1 sb) ->
  wpr (let* sb := prepare_kda_parse src dst task sb in k sb) (extends src dst 1 sb).
Proof.
  intros. apply wpr_bind. eapply wpr_mono; [apply prepare_kda_parse_ok|]. by intros ? ->.
Qed.

#[export] Instance parse_kda_block_send_p_eq_d_spec :
  ParseBlockSpec parse_kda_block_send_p_eq_d one_tensor.
Proof.
  split. intros. unfold parse_kda_block_send_p_eq_d. apply prepare_then_extends.
  parse_solve. by apply extends_resize.
Qed.

#[export] Instance parse_kda_block_send_p_gt_d_spec :
  ParseBlockSpec parse_kda_block_send_p_gt_d one_tensor.
Proof.
  split. intros. unfold parse_kda_block_send_p_gt_d. apply prepare_then_extends.
  parse_solve. by apply extends_resize.
Qed.

#[export] Instance parse_kda_block_send_p_lt_d_spec :
  ParseBlockSpec parse_kda_block_send_p_lt_d one_tensor.
Proof.
  split. intros. unfold parse_kda_block_send_p_lt_d. apply prepare_then_extends.
  parse_solve. by apply extends_resize.
Qed.

End Kda.
