(* ===== verification/ParseKimiK3.v ===== *)
(** KIMI_K3_MLA_CACHE_SHAPE ([src/parse_block_kimi_k3.cpp]): leading KDA state
    groups followed by one rank-replicated MLA group stored at the start of
    KDA-sized physical pages. *)

From S2P Require Import Prelude Common ParseCommon ParseKda.

Section KimiK3.
Context `{Env}.

(** Page geometry of one side: manager tokens per block and physical page size. *)
Definition mla_geometry (w : WorkerInfo) : res (Z * Z) :=
  let* logical_block_size := vec_at (block_sizes w) 0 in
  let* registered_token_size := vec_at (token_sizes w) 0 in
  assert: 0 <? registered_token_size;
  assertM: divides_b registered_token_size logical_block_size;
  let* q := udiv logical_block_size registered_token_size in
  Ok (u32 q, if negb (kda_page_stride w =? 0) then kda_page_stride w else logical_block_size).

(** Equal TP: whole manager blocks; an incomplete block waits for a later step. *)
Definition mla_equal_tp (task : ReqSendTask) (sblks dblks : list Z) (ntpb dst_ntpb
    src_page dst_page attn_token_size : Z) (bounds : IpcBlockBounds)
    (blocks : list IpcBlock) : res (list IpcBlock) :=
  assert: ntpb =? dst_ntpb;
  assert: vsize sblks =? vsize dblks;
  let* first_block := udiv (seen_tokens task) ntpb in
  let* end_block :=
    if reach_last_token task then Ok (vsize sblks) else udiv (end_tokens task) ntpb in
  assert: first_block <=? end_block;
  assert: end_block <=? vsize sblks;
  let mla_manager_block_size := u64 (ntpb * attn_token_size) in
  for_range first_block end_block (fun i blocks =>
    let* s := vec_at sblks i in
    let* d := vec_at dblks i in
    append_ipc_block_checked blocks bounds (u64 (s * src_page)) (u64 (d * dst_page))
      mla_manager_block_size) blocks.

Definition mla_kernel_round (sblks dblks : list Z) (src_ntpb dst_ntpb kernel_ntpb
    src_page dst_page kernel_page : Z) (reach_last : bool) (bounds : IpcBlockBounds)
    (s : Z * Z * list IpcBlock) : res (Z * Z * list IpcBlock) :=
  let '(wrote_tokens, left_tokens, blocks) := s in
  let* src_block_idx := udiv wrote_tokens src_ntpb in
  let* dst_block_idx := udiv wrote_tokens dst_ntpb in
  let* src_in := umod wrote_tokens src_ntpb in
  let* dst_in := umod wrote_tokens dst_ntpb in
  let* src_kernel_idx := udiv src_in kernel_ntpb in
  let* dst_kernel_idx := udiv dst_in kernel_ntpb in
  let* token_idx := umod wrote_tokens kernel_ntpb in
  assert: src_block_idx <? vsize sblks;
  assert: dst_block_idx <? vsize dblks;
  let tokens := Z.min (u32 (kernel_ntpb - token_idx)) left_tokens in
  let emit := (tokens =? kernel_ntpb) || reach_last
              || (u32 (token_idx + tokens) =? kernel_ntpb) in
  let* blocks :=
    if emit then
      let* sb := vec_at sblks src_block_idx in
      let* db := vec_at dblks dst_block_idx in
      append_ipc_block_checked blocks bounds
        (u64 (sb * src_page + src_kernel_idx * kernel_page))
        (u64 (db * dst_page + dst_kernel_idx * kernel_page)) kernel_page
    else Ok blocks in
  Ok (u32 (wrote_tokens + tokens), u32 (left_tokens - tokens), blocks).

Definition mla_fill_round (dblks : list Z) (dst_ntpb dst_page src_page attn_token_size
    fill_src_off dst_capacity_tokens : Z) (bounds : IpcBlockBounds)
    (s : Z * list IpcBlock) : res (Z * list IpcBlock) :=
  let '(dst_pos, blocks) := s in
  let* dst_block_idx := udiv dst_pos dst_ntpb in
  let* token_in_block := umod dst_pos dst_ntpb in
  let tokens := Z.min (u64 (dst_ntpb - token_in_block)) (u64 (dst_capacity_tokens - dst_pos)) in
  let* db := vec_at dblks dst_block_idx in
  let dst_off := u64 (db * dst_page + token_in_block * attn_token_size) in
  let* blocks := emit_zero_fill_segments fill_src_off dst_off
    (u64 (tokens * attn_token_size)) src_page bounds blocks in
  Ok (u64 (dst_pos + tokens), blocks).

(** Fill the rest of the allocated destination token region from block 0. *)
Definition mla_fill_tail (task : ReqSendTask) (sblks dblks : list Z) (dst_ntpb
    src_page dst_page attn_token_size : Z) (bounds : IpcBlockBounds) (blocks : list IpcBlock)
    : res (list IpcBlock) :=
  if negb env_pad_last_attn_block || negb (reach_last_token task) then Ok blocks else
  let total_tokens := u64 (seen_tokens task + new_tokens task) in
  let dst_capacity_tokens := u64 (vsize dblks * dst_ntpb) in
  if dst_capacity_tokens <=? total_tokens then Ok blocks else
  assert: negb (vsize sblks =? 0);
  let* sb0 := vec_at sblks 0 in
  let fill_src_off := u64 (sb0 * src_page) in
  let* '(_, blocks) :=
    while (Z.to_nat (dst_capacity_tokens - total_tokens)) (fun s => s.1 <? dst_capacity_tokens)
      (mla_fill_round dblks dst_ntpb dst_page src_page attn_token_size fill_src_off
         dst_capacity_tokens bounds) (total_tokens, blocks) in
  Ok blocks.

Definition parse_replicated_mla_blocks (src dst : WorkerInfo) (valid_ranks : bitset)
    (task : ReqSendTask) (send_blocks : list (list IpcBlock))
    : res (list (list IpcBlock)) :=
  let* sends := bit_test valid_ranks (worker_tp_rank src) in
  if negb sends then Ok send_blocks else
  assert: vsize (block_sizes src) =? 1;
  assert: vsize (block_sizes dst) =? 1;
  assert: vsize (token_sizes src) =? 1;
  assert: vsize (token_sizes dst) =? 1;
  assert: 0 <? hybrid_attn_token_size src;
  assert: 0 <? attn_kernel_blk_ntpb src;
  assert: attn_kernel_blk_ntpb src =? attn_kernel_blk_ntpb dst;
  assert: attn_pack_size src =? 1;
  assert: attn_pack_size dst =? 1;
  assert: hybrid_attn_token_size src =? hybrid_attn_token_size dst;
  let group_idx := num_gdn_layers src in
  assert: vsize (src_blocks task) =? u64 (group_idx + 1);
  assert: vsize (dst_blocks task) =? u64 (group_idx + 1);
  let* sblks := vec_at (src_blocks task) group_idx in
  let* dblks := vec_at (dst_blocks task) group_idx in
  let* '(src_ntpb, src_page) := mla_geometry src in
  let* '(dst_ntpb, dst_page) := mla_geometry dst in
  let kernel_ntpb := attn_kernel_blk_ntpb src in
  let attn_token_size := hybrid_attn_token_size src in
  assert: 0 <? src_ntpb;
  assert: 0 <? dst_ntpb;
  assertM: divides_b kernel_ntpb src_ntpb;
  assertM: divides_b kernel_ntpb dst_ntpb;
  let kernel_page := u64 (kernel_ntpb * attn_token_size) in
  assert: u64 (src_ntpb * attn_token_size) <=? src_page;
  assert: u64 (dst_ntpb * attn_token_size) <=? dst_page;
  let send_blocks := vec_resize [] 1 send_blocks in
  upd_cache 0 (fun blocks =>
    let* bounds := make_ipc_block_bounds src dst 0 in
    if engine_tp_size src =? engine_tp_size dst then
      mla_equal_tp task sblks dblks src_ntpb dst_ntpb src_page dst_page attn_token_size
        bounds blocks
    else
      let* '(_, _, blocks) :=
        while (Z.to_nat (new_tokens task)) (fun s => 0 <? s.1.2)
          (mla_kernel_round sblks dblks src_ntpb dst_ntpb kernel_ntpb src_page dst_page
             kernel_page (reach_last_token task) bounds)
          (seen_tokens task, new_tokens task, blocks) in
      mla_fill_tail task sblks dblks dst_ntpb src_page dst_page attn_token_size bounds
        blocks) send_blocks.

Definition parse_kimi_k3_mla_block_send_p_eq_d : ParseBlockFunc :=
  fun src dst valid_ranks kvt_tp_size kvt_tp_rank task send_blocks =>
  assert: engine_tp_size src =? engine_tp_size dst;
  assert: worker_tp_rank src =? worker_tp_rank dst;
  let* send_blocks := parse_replicated_mla_blocks src dst valid_ranks task send_blocks in
  parse_kda_block_send_p_eq_d src dst valid_ranks kvt_tp_size kvt_tp_rank task send_blocks.

Definition parse_kimi_k3_mla_block_send_p_gt_d : ParseBlockFunc :=
  fun src dst valid_ranks kvt_tp_size kvt_tp_rank task send_blocks =>
  assert: engine_tp_size dst <? engine_tp_size src;
  let* send_blocks := parse_replicated_mla_blocks src dst valid_ranks task send_blocks in
  parse_kda_block_send_p_gt_d src dst valid_ranks kvt_tp_size kvt_tp_rank task send_blocks.

Definition parse_kimi_k3_mla_block_send_p_lt_d : ParseBlockFunc :=
  fun src dst valid_ranks kvt_tp_size kvt_tp_rank task send_blocks =>
  assert: engine_tp_size src <? engine_tp_size dst;
  let* send_blocks := parse_replicated_mla_blocks src dst valid_ranks task send_blocks in
  parse_kda_block_send_p_lt_d src dst valid_ranks kvt_tp_size kvt_tp_rank task send_blocks.

(** ** Contract *)

Lemma wpr_mla_geometry w (Q : Z * Z -> Prop) :
  wf_worker w ->
  (forall n page, 0 <= n < W32 -> 0 <= page < W64 -> Q (n, page)) ->
  wpr (mla_geometry w) Q.
Proof.
  intros Hw HQ. unfold mla_geometry. emit_solve. apply HQ; [apply u32_range|].
  destruct (negb _); eauto with mach_db.
Qed.

Section Emitters.
Context (b : IpcBlockBounds) (Hb : wf_bounds b).

Lemma mla_equal_tp_grown task sblks dblks n dn sp dp ts blocks :
  wpr (mla_equal_tp task sblks dblks n dn sp dp ts b blocks) (grown b blocks).
Proof. unfold mla_equal_tp. emit_solve. Qed.

Lemma mla_kernel_round_ok sblks dblks sn dn kn sp dp kp last w l blocks :
  0 < l < W32 -> 0 <= kn < W32 ->
  wpr (mla_kernel_round sblks dblks sn dn kn sp dp kp last b (w, l, blocks))
    (fun s' => 0 <= s'.1.2 < l /\ grown b blocks s'.2).
Proof. intros. unfold mla_kernel_round. round_solve. Qed.

Lemma mla_fill_tail_grown task sblks dblks dn sp dp ts blocks :
  0 <= dn < W32 -> 0 <= sp < W64 ->
  wpr (mla_fill_tail task sblks dblks dn sp dp ts b blocks) (grown b blocks).
Proof.
  intros. pose proof W32_lt_W64. unfold mla_fill_tail. emit_solve.
  pose proof (u64_range (seen_tokens task + new_tokens task)).
  eapply wpr_mono; [apply (wpr_pos_loop (grown b))|intros [? ?] ?; emit_solve].
  intros; unfold mla_fill_round; emit_solve; simpl; (split; [|grown_chain]).
  apply pos_progress64; auto; try lia; apply u64_range.
Qed.
End Emitters.
#[local] Hint Resolve mla_equal_tp_grown mla_fill_tail_grown : wpr_db.

Lemma parse_replicated_mla_blocks_extends src dst vr task sb :
  wf_worker src -> wf_worker dst -> wf_task task ->
  wpr (parse_replicated_mla_blocks src dst vr task sb) (extends src dst (one_tensor src dst) sb).
Proof.
  intros. unfold parse_replicated_mla_blocks. parse_solve.
  apply wpr_mla_geometry; [done|]. intros. parse_solve.
  apply wpr_mla_geometry; [done|]. intros. parse_solve.
  eapply wpr_mono; [apply (token_loop_grown a1); [auto with mach_db|]|].
  - intros. apply mla_kernel_round_ok; auto with mach_db.
  - intros [[? ?] ?] ?. parse_solve.
Qed.

(** MLA blocks first, KDA state second. *)
Lemma then_kda_extends src dst vr n r task sb (kda : ParseBlockFunc)
    `{!ParseBlockSpec kda one_tensor} :
  wf_worker src -> wf_worker dst -> wf_task task ->
  wpr (let* sb := parse_replicated_mla_blocks src dst vr task sb in
       kda src dst vr n r task sb) (extends src dst (one_tensor src dst) sb).
Proof.
  intros. apply wpr_bind.
  eapply wpr_mono; [by apply parse_replicated_mla_blocks_extends|]. intros sb1 Hsb1.
  eapply wpr_mono; [by apply parse_block_extends|]. intros sb2 Hsb2. by transitivity sb1.
Qed.

#[export] Instance parse_kimi_k3_mla_block_send_p_eq_d_spec :
  ParseBlockSpec parse_kimi_k3_mla_block_send_p_eq_d one_tensor.
Proof.
  split. intros. unfold parse_kimi_k3_mla_block_send_p_eq_d. do 4 emit_step.
  by apply (then_kda_extends _ _ _ _ _ _ _ parse_kda_block_send_p_eq_d).
Qed.

#[export] Instance parse_kimi_k3_mla_block_send_p_gt_d_spec :
  ParseBlockSpec parse_kimi_k3_mla_block_send_p_gt_d one_tensor.
Proof.
  split. intros. unfold parse_kimi_k3_mla_block_send_p_gt_d. do 2 emit_step.
  by apply (then_kda_extends _ _ _ _ _ _ _ parse_kda_block_send_p_gt_d).
Qed.

#[export] Instance parse_kimi_k3_mla_block_send_p_lt_d_spec :
  ParseBlockSpec parse_kimi_k3_mla_block_send_p_lt_d one_tensor.
Proof.
  split. intros. unfold parse_kimi_k3_mla_block_send_p_lt_d. do 2 emit_step.
  by apply (then_kda_extends _ _ _ _ _ _ _ parse_kda_block_send_p_lt_d).
Qed.

End KimiK3.

(** ** A destination read from naming *)

(** Kimi K3 in a debug build: for a destination whose hybrid_attn_token_size is 0, as it is
    in every worker record read from naming because the field is not serialized, every
    sending rank stops at an assertion before any record is emitted. *)
Theorem parsed_destination_aborts `{Env} src dst vr task sb :
  ndebug = false -> bit_test vr (worker_tp_rank src) = Ok true ->
  hybrid_attn_token_size dst = 0 ->
  parse_replicated_mla_blocks src dst vr task sb = Err AssertFailed.
Proof.
  intros Hdbg Hsend Hdst. unfold parse_replicated_mla_blocks. rewrite Hsend. cbn [rbind negb].
  assert (Ha : forall {A} b (k : unit -> res A), (b = true -> k tt = Err AssertFailed) ->
    rbind (cassert b) k = Err AssertFailed).
  { intros A b k Hk. unfold cassert. rewrite Hdbg. destruct b; [by apply Hk|done]. }
  do 4 (apply Ha; intros _). apply Ha. intros Hpos. do 4 (apply Ha; intros _).
  apply Ha. rewrite Hdst. lia.
Qed.

Lemma parsed_destination_aborts_witness :
  parse_replicated_mla_blocks (H := debug_env) (one_tensor_worker 1 0 64 16 4)
    (one_tensor_worker 1 0 64 16 4) 1 (example_task [[1]] [[2]] 0 4 true) []
  = Err AssertFailed.
Proof.
  apply (parsed_destination_aborts (H := debug_env) (one_tensor_worker 1 0 64 16 4)
    (one_tensor_worker 1 0 64 16 4) 1 (example_task [[1]] [[2]] 0 4 true) []); reflexivity.
Defined.
