(* ===== verification/Planner.v ===== *)
(** The declarative planner: layout descriptors ([include/attn_layout.h]), transfer
    specifications ([include/cache_transfer_spec.h]) and the builder and generator of
    [src/cache_transfer_spec.cpp]. *)

From S2P Require Import Prelude.
From S2P Require Import Common.

(** ** Layout descriptors *)
Inductive CacheDim := BLOCK | TOKEN | KV | HEAD | HEAD_DIM.

#[export] Instance CacheDim_eq_dec : EqDecision CacheDim.
Proof. solve_decision. Defined.

Record AttnLayoutDesc := mkLayout {
  dim_order : list CacheDim;
  num_tensors : Z;
  block_aligned_peqd : bool;
  v_head_invariant : bool;
  use_valid_ranks : bool;
  valid_ranks_affects_group_n : bool;
  rank0_only_when_same_sizes : bool;
  force_peqd_tpkind : bool;
}.

(** [AttnLayoutDesc::pos]: the index of a dimension, or -1. *)
Definition pos (l : AttnLayoutDesc) (d : CacheDim) : Z :=
  match list_find (eq d) (dim_order l) with
  | Some (i, _) => Z.of_nat i
  | None => -1
  end.

Definition is_kv_outermost (l : AttnLayoutDesc) : bool := pos l KV <? pos l BLOCK.
Definition is_kv_between_block_and_token (l : AttnLayoutDesc) : bool :=
  (pos l BLOCK <? pos l KV) && (pos l KV <? pos l TOKEN).
Definition is_kv_inner_to_token (l : AttnLayoutDesc) : bool := pos l TOKEN <? pos l KV.
Definition is_head_outer_to_token (l : AttnLayoutDesc) : bool := pos l HEAD <? pos l TOKEN.

(** The registry of [get_attn_layout]. *)
Definition get_attn_layout (cache_shape : Z) : res AttnLayoutDesc :=
  if cache_shape =? RAGGED_FLASH_CACHE_SHAPE then
    Ok (mkLayout [BLOCK; TOKEN; KV; HEAD; HEAD_DIM] 1 false false false false true false)
  else if cache_shape =? FLASH_CACHE_SHAPE then
    Ok (mkLayout [KV; BLOCK; TOKEN; HEAD; HEAD_DIM] 1 false false true false false false)
  else if cache_shape =? QWEN3_NEXT_FLASH_CACHE_SHAPE then
    Ok (mkLayout [BLOCK; KV; TOKEN; HEAD; HEAD_DIM] 1 true false true true false false)
  else if cache_shape =? DPSK_V32_SPARSE_MLA_SHAPE then
    Ok (mkLayout [BLOCK; TOKEN; KV; HEAD; HEAD_DIM] 0 false false false false true true)
  else if cache_shape =? FLASHINFER_CACHE_SHAPE then
    Ok (mkLayout [BLOCK; KV; HEAD; TOKEN; HEAD_DIM] 1 false true true true false false)
  else Err RuntimeError.

(** ** Specifications *)
Record VSpec := mkVSpec {
  v_src_base_offset : Z;
  v_dst_base_offset : Z;
  v_src_global_offset : Z;
  v_dst_global_offset : Z;
  v_src_head_stride : Z;
  v_dst_head_stride : Z;
}.

Record AttnSpec := mkAttnSpec {
  src_block_stride : Z;
  dst_block_stride : Z;
  src_token_stride : Z;
  dst_token_stride : Z;
  src_base_offset : Z;
  dst_base_offset : Z;
  src_global_offset : Z;
  dst_global_offset : Z;
  bytes_per_token : Z;
  head_num : Z;
  src_head_stride : Z;
  dst_head_stride : Z;
  vspec : option VSpec;
}.

(** [AttnSpec attn{}] with the strides and the bytes per token set. *)
Definition plain_attn (sbs dbs sts dts bpt : Z) : AttnSpec :=
  mkAttnSpec sbs dbs sts dts 0 0 0 0 bpt 1 0 0 None.

Record GdnSegment := mkGdnSegment {
  src_offset_in_block : Z;
  dst_offset_in_block : Z;
  seg_length : Z;
}.

Record GdnSpec := mkGdnSpec {
  num_groups : Z;
  gdn_src_block_stride : Z;
  gdn_dst_block_stride : Z;
  segments : list GdnSegment;
}.

Record AttnComponent := mkAttnComponent {
  spec : AttnSpec;
  block_group : Z;
  src_ntpb : Z;
  dst_ntpb : Z;
  block_aligned : bool;
  fill_last_block : bool;
}.

(** [std::variant<AttnComponent, GdnComponent>]. *)
Inductive TransferComponent :=
| Attn (c : AttnComponent)
| Gdn (c : GdnSpec).

Record CacheTransferSpec := mkCacheTransferSpec {
  components : list TransferComponent;
  valid : bool;
}.

Record TransferPlan := mkTransferPlan {
  specs : list CacheTransferSpec;
  tpkind : TPKind;
}.

(** ** Record generation *)
Section Generate.
Context `{Env}.

(** The offsets and strides that differ between the K and the V stream. *)
Record Stream := mkStream {
  base_off_src : Z; base_off_dst : Z;
  global_off_src : Z; global_off_dst : Z;
  head_stride_src : Z; head_stride_dst : Z;
}.

Definition k_stream (c : AttnSpec) : Stream :=
  mkStream (src_base_offset c) (dst_base_offset c) (src_global_offset c) (dst_global_offset c)
    (src_head_stride c) (dst_head_stride c).

Definition v_stream (v : VSpec) : Stream :=
  mkStream (v_src_base_offset v) (v_dst_base_offset v) (v_src_global_offset v)
    (v_dst_global_offset v) (v_src_head_stride v) (v_dst_head_stride v).

(** One token of one head: block [sb] row [stok] to block [db] row [dtok]. *)
Definition token_record (comp : AttnSpec) (st : Stream) (sb db src_tidx dst_tidx r i : Z)
    : IpcBlock :=
  let src_roff := u64 (r * head_stride_src st) in
  let dst_roff := u64 (r * head_stride_dst st) in
  let src_off := u64 (sb * src_block_stride comp + u32 (src_tidx + i) * src_token_stride comp
                      + base_off_src st + global_off_src st + src_roff) in
  let dst_off := u64 (db * dst_block_stride comp + u32 (dst_tidx + i) * dst_token_stride comp
                      + base_off_dst st + global_off_dst st + dst_roff) in
  mkIpcBlock src_off dst_off (bytes_per_token comp).

(** The two inner loops: heads, then tokens of the run. *)
Definition emit_run (comp : AttnSpec) (st : Stream) (src_blocks dst_blocks : list Z)
    (src_bidx dst_bidx src_tidx dst_tidx tokens : Z) (out : list IpcBlock) : res (list IpcBlock) :=
  for_range 0 (head_num comp) (fun r out =>
    for_range 0 tokens (fun i out =>
      let* sb := vec_idx src_blocks src_bidx in
      let* db := vec_idx dst_blocks dst_bidx in
      Ok (out ++ [token_record comp st sb db src_tidx dst_tidx r i])) out) out.

Definition k_block_round (comp : AttnSpec) (st : Stream) (src_ntpb dst_ntpb : Z)
    (src_blocks dst_blocks : list Z) (wrote_tokens left_tokens : Z)
    (s : Z * list IpcBlock) : res (Z * list IpcBlock) :=
  let '(done, out) := s in
  let cur := u32 (wrote_tokens + done) in
  let* src_bidx := udiv cur src_ntpb in
  let* src_tidx := umod cur src_ntpb in
  let* dst_bidx := udiv cur dst_ntpb in
  let* dst_tidx := umod cur dst_ntpb in
  assert: (src_bidx <? vsize src_blocks) && (dst_bidx <? vsize dst_blocks);
  let tokens := Z.min (Z.min (u32 (src_ntpb - src_tidx)) (u32 (dst_ntpb - dst_tidx)))
                  (u32 (left_tokens - done)) in
  let* out := emit_run comp st src_blocks dst_blocks src_bidx dst_bidx src_tidx dst_tidx
                tokens out in
  Ok (u32 (done + tokens), out).

Definition generate_k_block (comp : AttnSpec) (st : Stream) (src_ntpb dst_ntpb : Z)
    (src_blocks dst_blocks : list Z) (wrote_tokens left_tokens : Z) (out : list IpcBlock)
    : res (list IpcBlock) :=
  let* '(_, out) :=
    while (Z.to_nat left_tokens) (fun s => s.1 <? left_tokens)
      (k_block_round comp st src_ntpb dst_ntpb src_blocks dst_blocks wrote_tokens left_tokens)
      (0, out) in
  Ok out.

(** One round of the tail fill; the state is ([src_pos], [dst_pos], [done], output). *)
Definition k_fill_round (comp : AttnSpec) (st : Stream) (src_ntpb dst_ntpb : Z)
    (src_blocks dst_blocks : list Z) (to_fill : Z)
    (s : Z * Z * Z * list IpcBlock) : res (Z * Z * Z * list IpcBlock) :=
  let '(src_pos, dst_pos, done, out) := s in
  let* src_bidx := udiv src_pos src_ntpb in
  let* src_tidx := umod src_pos src_ntpb in
  let* dst_bidx := udiv dst_pos dst_ntpb in
  let* dst_tidx := umod dst_pos dst_ntpb in
  assert: src_bidx =? 0;
  assert: dst_bidx <? vsize dst_blocks;
  let tokens := Z.min (Z.min (u32 (src_ntpb - src_tidx)) (u32 (dst_ntpb - dst_tidx)))
                  (u32 (to_fill - done)) in
  let* out := emit_run comp st src_blocks dst_blocks 0 dst_bidx src_tidx dst_tidx tokens out in
  Ok (u32 (src_pos + tokens), u32 (dst_pos + tokens), u32 (done + tokens), out).

Definition generate_k_block_fill (comp : AttnSpec) (st : Stream) (src_ntpb dst_ntpb : Z)
    (src_blocks dst_blocks : list Z) (total_tokens : Z) (out : list IpcBlock)
    : res (list IpcBlock) :=
  if total_tokens =? 0 then Ok out else
  let* filled := umod total_tokens dst_ntpb in
  if filled =? 0 then Ok out else
  let to_fill := u32 (dst_ntpb - filled) in
  let* '(_, _, _, out) :=
    while (Z.to_nat to_fill) (fun s => s.1.2 <? to_fill)
      (k_fill_round comp st src_ntpb dst_ntpb src_blocks dst_blocks to_fill)
      (0, total_tokens, 0, out) in
  Ok out.

(** K stream first, then the V stream if present. *)
Definition generate_attn_fill (comp : AttnSpec) (src_ntpb dst_ntpb : Z)
    (src_blocks dst_blocks : list Z) (total_tokens : Z) (out : list IpcBlock)
    : res (list IpcBlock) :=
  let* out := generate_k_block_fill comp (k_stream comp) src_ntpb dst_ntpb
                src_blocks dst_blocks total_tokens out in
  match vspec comp with
  | Some v => generate_k_block_fill comp (v_stream v) src_ntpb dst_ntpb
                src_blocks dst_blocks total_tokens out
  | None => Ok out
  end.

Definition generate_attn (comp : AttnSpec) (src_ntpb dst_ntpb : Z)
    (src_blocks dst_blocks : list Z) (wrote_tokens left_tokens : Z) (out : list IpcBlock)
    : res (list IpcBlock) :=
  let* out := generate_k_block comp (k_stream comp) src_ntpb dst_ntpb
                src_blocks dst_blocks wrote_tokens left_tokens out in
  match vspec comp with
  | Some v => generate_k_block comp (v_stream v) src_ntpb dst_ntpb
                src_blocks dst_blocks wrote_tokens left_tokens out
  | None => Ok out
  end.

(** The length of a block-aligned record; 0 postpones the block. *)
Definition plan_aligned_length (stride ntpb token_idx tokens : Z) (reach_last : bool) : res Z :=
  if negb (tokens =? ntpb) then
    if reach_last then Ok stride
    else if token_idx =? 0 then Ok 0
    else if u32 (token_idx + tokens) =? ntpb then Ok stride
    else assert: u32 (token_idx + tokens) <? ntpb; Ok 0
  else Ok stride.

Definition block_aligned_round (comp : AttnSpec) (ntpb : Z) (src_blocks dst_blocks : list Z)
    (wrote_tokens left_tokens : Z) (reach_last : bool)
    (s : Z * list IpcBlock) : res (Z * list IpcBlock) :=
  let '(done, out) := s in
  let cur := u32 (wrote_tokens + done) in
  let* blk_idx := udiv cur ntpb in
  let* token_idx := umod cur ntpb in
  assert: (blk_idx <? vsize src_blocks) && (blk_idx <? vsize dst_blocks);
  let* sb := vec_idx src_blocks blk_idx in
  let* db := vec_idx dst_blocks blk_idx in
  let p_blk_off := u64 (sb * src_block_stride comp) in
  let d_blk_off := u64 (db * dst_block_stride comp) in
  let tokens := Z.min (u32 (ntpb - token_idx)) (u32 (left_tokens - done)) in
  let* len := plan_aligned_length (src_block_stride comp) ntpb token_idx tokens reach_last in
  let out := if 0 <? len then out ++ [mkIpcBlock p_blk_off d_blk_off len] else out in
  Ok (u32 (done + tokens), out).

Definition generate_block_aligned (attn : AttnComponent) (src_blocks dst_blocks : list Z)
    (wrote_tokens left_tokens : Z) (reach_last : bool) (out : list IpcBlock)
    : res (list IpcBlock) :=
  assert: src_ntpb attn =? dst_ntpb attn;
  let* '(_, out) :=
    while (Z.to_nat left_tokens) (fun s => s.1 <? left_tokens)
      (block_aligned_round (spec attn) (src_ntpb attn) src_blocks dst_blocks
         wrote_tokens left_tokens reach_last) (0, out) in
  Ok out.

Definition generate_gdn (gdn : GdnSpec) (src_blocks dst_blocks : BlockIds)
    (out : list IpcBlock) : res (list IpcBlock) :=
  for_range 0 (num_groups gdn) (fun g out =>
    assert: (g <? vsize src_blocks) && (g <? vsize dst_blocks);
    let* src_grp := vec_idx src_blocks g in
    let* dst_grp := vec_idx dst_blocks g in
    assert: vsize src_grp =? vsize dst_grp;
    for_range 0 (vsize src_grp) (fun i out =>
      let* sb := vec_idx src_grp i in
      let* db := vec_idx dst_grp i in
      let p_blk_off := u64 (sb * gdn_src_block_stride gdn) in
      let d_blk_off := u64 (db * gdn_dst_block_stride gdn) in
      Ok (out ++ ((fun seg => mkIpcBlock (u64 (p_blk_off + src_offset_in_block seg))
                                (u64 (d_blk_off + dst_offset_in_block seg)) (seg_length seg))
                  <$> segments gdn))) out) out.

Definition generate_component (src_blocks dst_blocks : BlockIds) (wrote_tokens left_tokens : Z)
    (reach_last : bool) (c : TransferComponent) (out : list IpcBlock) : res (list IpcBlock) :=
  match c with
  | Attn attn =>
      assert: block_group attn <? vsize src_blocks;
      assert: block_group attn <? vsize dst_blocks;
      let* src_blks := vec_idx src_blocks (block_group attn) in
      let* dst_blks := vec_idx dst_blocks (block_group attn) in
      if block_aligned attn then
        generate_block_aligned attn src_blks dst_blks wrote_tokens left_tokens reach_last out
      else
        let* out := generate_attn (spec attn) (src_ntpb attn) (dst_ntpb attn) src_blks dst_blks
                      wrote_tokens left_tokens out in
        if fill_last_block attn && reach_last then
          generate_attn_fill (spec attn) (src_ntpb attn) (dst_ntpb attn) src_blks dst_blks
            (u32 (wrote_tokens + left_tokens)) out
        else Ok out
  | Gdn gdn => if reach_last then generate_gdn gdn src_blocks dst_blocks out else Ok out
  end.

Definition generate_ipc_blocks (sp : CacheTransferSpec) (src_blocks dst_blocks : BlockIds)
    (wrote_tokens left_tokens : Z) (reach_last : bool) (out : list IpcBlock)
    : res (list IpcBlock) :=
  if negb (valid sp) then Ok out else
  forM (components sp)
    (generate_component src_blocks dst_blocks wrote_tokens left_tokens reach_last) out.

Definition generate_all_ipc_blocks (plan : TransferPlan) (task : ReqSendTask)
    (send_blocks : list (list IpcBlock)) : res (list (list IpcBlock)) :=
  let send_blocks := vec_resize [] (vsize (specs plan)) send_blocks in
  for_range 0 (vsize (specs plan)) (fun i sbs =>
    let* sp := vec_idx (specs plan) i in
    let* out := vec_idx sbs i in
    let* out := generate_ipc_blocks sp (src_blocks task) (dst_blocks task) (seen_tokens task)
                  (new_tokens task) (reach_last_token task) out in
    Ok (<[Z.to_nat i := out]> sbs)) send_blocks.

End Generate.

(** ** Building a plan *)
Section Build.
Context `{Env}.

Definition build_gdn_peqd (block_size ntpb token_size : Z) (w : WorkerInfo) : GdnSpec :=
  mkGdnSpec (num_gdn_layers w) block_size block_size [mkGdnSegment 0 0 (u64 (ntpb * token_size))].

(** The channel segments of one conv row; the state is ([conv_dim_inner_offset], segments). *)
Definition conv_row_segments (conv_channel_dims : list Z) (elem group_n group_off
    p_row_off d_row_off : Z) (segs : list GdnSegment) : res (Z * list GdnSegment) :=
  forM conv_channel_dims (fun dim s =>
    let '(inner, segs) := s in
    let step := u64 (dim * elem) in
    let p_conv_off := u64 (p_row_off + inner) in
    let d_conv_off := u64 (d_row_off + group_n * inner + group_off * step) in
    Ok (u64 (inner + step), segs ++ [mkGdnSegment p_conv_off d_conv_off step])) (0, segs).

Definition build_gdn_pgtd (p_block_size d_block_size gdn_group_n gdn_group_off : Z)
    (w : WorkerInfo) : res GdnSpec :=
  let* _ := rtassert (3 <=? vsize (conv_state_shape w)) in
  let* _ := rtassert (4 <=? vsize (ssm_state_shape w)) in
  let* _ := rtassert (1 <=? vsize (gdn_conv_channel_dims w)) in
  let* c1 := vec_idx (conv_state_shape w) 1 in
  let* c2 := vec_idx (conv_state_shape w) 2 in
  let* s1 := vec_idx (ssm_state_shape w) 1 in
  let* s2 := vec_idx (ssm_state_shape w) 2 in
  let* s3 := vec_idx (ssm_state_shape w) 3 in
  let p_conv_dim_size := u64 (c2 * gdn_conv_elem_size w) in
  let p_conv_block_size := u64 (c1 * p_conv_dim_size) in
  let p_ssm_block_size := u64 (s1 * s2 * s3 * gdn_ssm_elem_size w) in
  let d_conv_dim_size := u64 (gdn_group_n * p_conv_dim_size) in
  let* segs := for_range 0 c1 (fun conv_dim segs =>
    let* '(inner, segs) :=
      conv_row_segments (gdn_conv_channel_dims w) (gdn_conv_elem_size w) gdn_group_n gdn_group_off
        (u64 (conv_dim * p_conv_dim_size)) (u64 (conv_dim * d_conv_dim_size)) segs in
    assert: inner =? p_conv_dim_size;
    Ok segs) [] in
  let p_ssm_off := p_conv_block_size in
  let d_ssm_off := u64 (gdn_group_n * p_conv_block_size + gdn_group_off * p_ssm_block_size) in
  Ok (mkGdnSpec (num_gdn_layers w) p_block_size d_block_size
        (segs ++ [mkGdnSegment p_ssm_off d_ssm_off p_ssm_block_size])).

(** An [AttnComponent] with the defaults of its other members. *)
Definition attn_component (sp : AttnSpec) (sn dn : Z) (aligned : bool) : AttnComponent :=
  mkAttnComponent sp 0 sn dn aligned false.

(** HEAD outer to TOKEN (FLASHINFER). *)
Definition head_outer_spec (layout : AttnLayoutDesc) (p_block_size d_block_size group_off
    p_k_block d_k_block src_ntpb head_num : Z) : res AttnSpec :=
  assert: 0 <? head_num;
  let* p_head_size := udiv p_k_block head_num in
  let* per_token_per_head := udiv p_head_size src_ntpb in
  let v :=
    if v_head_invariant layout
    then mkVSpec p_k_block d_k_block 0 0 0 0
    else mkVSpec p_k_block (u64 (group_off * p_k_block + d_k_block)) 0 0 p_head_size p_head_size in
  Ok (mkAttnSpec p_block_size d_block_size per_token_per_head per_token_per_head
        0 (u64 (group_off * p_k_block)) 0 0 per_token_per_head head_num p_head_size p_head_size
        (Some v)).

(** KV outermost (FLASH). *)
Definition kv_outermost_spec (p_k_block d_k_block p_k_token d_k_token eff group_off
    layer_num_blocks_src layer_num_blocks_dst : Z) : AttnSpec :=
  let dbase := u64 (group_off * eff) in
  mkAttnSpec p_k_block d_k_block p_k_token d_k_token 0 dbase 0 0 eff 1 0 0
    (Some (mkVSpec 0 dbase (u64 (p_k_block * layer_num_blocks_src))
             (u64 (d_k_block * layer_num_blocks_dst)) 0 0)).

(** KV between BLOCK and TOKEN (QWEN3_NEXT). *)
Definition kv_between_spec (p_block_size d_block_size p_k_block d_k_block p_k_token d_k_token
    eff group_off : Z) : AttnSpec :=
  mkAttnSpec p_block_size d_block_size p_k_token d_k_token 0 (u64 (group_off * eff)) 0 0 eff 1 0 0
    (Some (mkVSpec p_k_block (u64 (group_off * eff + d_k_block)) 0 0 0 0)).

(** KV inner to TOKEN (RAGGED_FLASH). *)
Definition kv_inner_spec (p_block_size d_block_size p_token_size d_token_size p_k_token d_k_token
    eff group_off : Z) : AttnSpec :=
  mkAttnSpec p_block_size d_block_size p_token_size d_token_size 0 (u64 (group_off * eff)) 0 0
    eff 1 0 0
    (Some (mkVSpec p_k_token (u64 (group_off * eff + d_k_token)) 0 0 0 0)).

Definition build_attn_spec_from_layout (layout : AttnLayoutDesc)
    (p_block_size p_token_size d_block_size d_token_size group_off
     layer_num_blocks_src layer_num_blocks_dst head_num : Z) : res AttnComponent :=
  let p_k_token := p_token_size / 2 in
  let d_k_token := d_token_size / 2 in
  let* sq := udiv p_block_size p_token_size in
  let* dq := udiv d_block_size d_token_size in
  let src_ntpb := u32 sq in
  let dst_ntpb := u32 dq in
  let p_k_block := u64 (src_ntpb * p_k_token) in
  let d_k_block := u64 (dst_ntpb * d_k_token) in
  let is_peqd := (group_off =? 0) && (p_block_size =? d_block_size)
                 && (p_token_size =? d_token_size) in
  let merged := plain_attn p_block_size d_block_size p_token_size d_token_size p_token_size in
  if is_peqd && block_aligned_peqd layout then
    Ok (attn_component merged src_ntpb dst_ntpb true)
  else if is_peqd && negb (is_head_outer_to_token layout) && negb (is_kv_outermost layout) then
    Ok (attn_component merged src_ntpb dst_ntpb false)
  else
    let eff := if negb is_peqd && env_bf162fp8_conversion then p_k_token / 2 else p_k_token in
    let* sp :=
      if is_head_outer_to_token layout then
        head_outer_spec layout p_block_size d_block_size group_off p_k_block d_k_block
          src_ntpb head_num
      else if is_kv_outermost layout then
        Ok (kv_outermost_spec p_k_block d_k_block p_k_token d_k_token eff group_off
              layer_num_blocks_src layer_num_blocks_dst)
      else if is_kv_between_block_and_token layout then
        Ok (kv_between_spec p_block_size d_block_size p_k_block d_k_block p_k_token d_k_token
              eff group_off)
      else
        assert: is_kv_inner_to_token layout;
        Ok (kv_inner_spec p_block_size d_block_size p_token_size d_token_size p_k_token d_k_token
              eff group_off) in
    Ok (attn_component sp src_ntpb dst_ntpb false).

Definition set_block_group (g : Z) (c : AttnComponent) : AttnComponent :=
  mkAttnComponent (spec c) g (src_ntpb c) (dst_ntpb c) (block_aligned c) (fill_last_block c).

Definition set_fill (b : bool) (c : AttnComponent) : AttnComponent :=
  mkAttnComponent (spec c) (block_group c) (src_ntpb c) (dst_ntpb c) (block_aligned c) b.

(** The attention component of tensor [t]. *)
Definition fullattn_of (layout : AttnLayoutDesc) (src dst : WorkerInfo) (group_off head_num t : Z)
    : res AttnComponent :=
  let* pbs := vec_idx (block_sizes src) t in
  let* pts := vec_idx (token_sizes src) t in
  let* dbs := vec_idx (block_sizes dst) t in
  let* dts := vec_idx (token_sizes dst) t in
  build_attn_spec_from_layout layout pbs pts dbs dts group_off
    (layer_num_blocks src) (layer_num_blocks dst) head_num.

(** [for (t = 0; t < num_tensors; ++t) plan.specs.push_back(f(t));] *)
Definition for_tensors (n : Z) (f : Z -> res CacheTransferSpec) : res (list CacheTransferSpec) :=
  for_range 0 n (fun t l => let* sp := f t in Ok (l ++ [sp])) [].

(** Equal TP: GDN, indexer and attention of tensor [t]. *)
Definition peqd_spec (layout : AttnLayoutDesc) (src dst : WorkerInfo) (ntensors head_num t : Z)
    : res CacheTransferSpec :=
  let* fullattn := fullattn_of layout src dst 0 head_num t in
  if 0 <? num_gdn_layers src then
    let* bs := vec_idx (block_sizes src) t in
    let* ts := vec_idx (token_sizes src) t in
    let* ntpb := udiv bs ts in
    let gdn := Gdn (build_gdn_peqd bs (u32 ntpb) ts src) in
    let* idx :=
      if 0 <? indexer_blk_ntpb src then
        assert: indexer_blk_ntpb src =? indexer_blk_ntpb dst;
        Ok [Attn (mkAttnComponent (plain_attn bs bs 0 0 0) (num_gdn_layers src)
                    (indexer_blk_ntpb src) (indexer_blk_ntpb dst) true false)]
      else Ok [] in
    let g := u32 (num_gdn_layers src + (if 0 <? indexer_blk_ntpb src then 1 else 0)) in
    Ok (mkCacheTransferSpec ([gdn] ++ idx ++ [Attn (set_block_group g fullattn)]) true)
  else
    let fullattn := if 1 <? ntensors then set_block_group t fullattn else fullattn in
    Ok (mkCacheTransferSpec [Attn fullattn] true).

(** P>D with equal token sizes: rank 0 sends as for equal TP, without GDN. *)
Definition rank0_spec (layout : AttnLayoutDesc) (src dst : WorkerInfo) (ntensors head_num t : Z)
    : res CacheTransferSpec :=
  let* fullattn := fullattn_of layout src dst 0 head_num t in
  let fullattn := if 1 <? ntensors then set_block_group t fullattn else fullattn in
  Ok (mkCacheTransferSpec [Attn fullattn] true).

(** P>D: the attention slot of this rank, and whether it sends. *)
Definition attn_group (layout : AttnLayoutDesc) (src : WorkerInfo) (valid_ranks : bitset)
    (kvt_tp_size kvt_tp_rank d_tp : Z) : res (Z * bool) :=
  if use_valid_ranks layout then
    let* v := bit_idx valid_ranks (worker_tp_rank src) in
    let* group_n :=
      if valid_ranks_affects_group_n layout
      then let* q := udiv (bit_count valid_ranks) d_tp in Ok (u32 q)
      else udiv kvt_tp_size d_tp in
    let* off := umod kvt_tp_rank group_n in
    Ok (off, v)
  else
    let* group_n := udiv kvt_tp_size d_tp in
    let* off := umod (worker_tp_rank src) group_n in
    Ok (off, true).

(** P>D: GDN, indexer and attention of tensor [t]. *)
Definition pgtd_spec (layout : AttnLayoutDesc) (src dst : WorkerInfo) (group_off : Z)
    (sends_attn : bool) (ntensors head_num t : Z) : res CacheTransferSpec :=
  let* p_block_size := vec_idx (block_sizes src) t in
  let* p_token_size := vec_idx (token_sizes src) t in
  let* d_block_size := vec_idx (block_sizes dst) t in
  let* d_token_size := vec_idx (token_sizes dst) t in
  let fullattn := build_attn_spec_from_layout layout p_block_size p_token_size d_block_size
    d_token_size group_off (layer_num_blocks src) (layer_num_blocks dst) head_num in
  if 0 <? num_gdn_layers src then
    let* _ := rtassert (0 <? engine_tp_size src) in
    let* gdn_group_n := udiv (engine_tp_size src) (engine_tp_size dst) in
    let* gdn_group_off := umod (worker_tp_rank src) gdn_group_n in
    let* gdn := build_gdn_pgtd p_block_size d_block_size gdn_group_n gdn_group_off src in
    let* idx :=
      if 0 <? indexer_blk_ntpb src then
        assert: ((indexer_blk_ntpb src =? 0) && (indexer_blk_ntpb dst =? 0))
                || ((0 <? indexer_blk_ntpb src) && (0 <? indexer_blk_ntpb dst));
        if worker_tp_rank src =? 0 then
          let* _ := rtassert (0 <? hybrid_indexer_token_size src) in
          let its := hybrid_indexer_token_size src in
          Ok [Attn (mkAttnComponent (plain_attn p_block_size d_block_size its its its)
                      (num_gdn_layers src) (indexer_blk_ntpb src) (indexer_blk_ntpb dst)
                      false false)]
        else Ok []
      else Ok [] in
    let g := u32 (num_gdn_layers src + (if 0 <? indexer_blk_ntpb src then 1 else 0)) in
    let* attn :=
      if sends_attn then
        let* c := fullattn in
        Ok [Attn (set_fill env_pad_last_attn_block (set_block_group g c))]
      else Ok [] in
    Ok (mkCacheTransferSpec ([Gdn gdn] ++ idx ++ attn) true)
  else
    let* attn :=
      if sends_attn then
        let* c := fullattn in
        Ok [Attn (if 1 <? ntensors then set_block_group t c else c)]
      else Ok [] in
    Ok (mkCacheTransferSpec attn true).

Definition build_transfer_plan (cache_shape : Z) (src dst : WorkerInfo) (valid_ranks : bitset)
    (kvt_tp_size kvt_tp_rank : Z) : res TransferPlan :=
  let* layout := get_attn_layout cache_shape in
  let ntensors := if 0 <? num_tensors layout then num_tensors layout
                  else u32 (vsize (token_sizes src)) in
  let has_gdn := 0 <? num_gdn_layers src in
  let has_indexer := 0 <? indexer_blk_ntpb src in
  let* head_num :=
    if is_head_outer_to_token layout then
      if num_kv_heads src <=? 0 then Err RuntimeError else Ok (num_kv_heads src)
    else Ok 0 in
  let p_tp := if has_gdn then engine_tp_size src else kvt_tp_size in
  let d_tp := engine_tp_size dst in
  if p_tp =? d_tp then
    assert: bool_decide (token_sizes src = token_sizes dst);
    assert: bool_decide (block_sizes src = block_sizes dst);
    let* sps := for_tensors ntensors (peqd_spec layout src dst ntensors head_num) in
    Ok (mkTransferPlan sps PEQD)
  else if d_tp <? p_tp then
    if rank0_only_when_same_sizes layout && bool_decide (token_sizes src = token_sizes dst) then
      assert: bool_decide (block_sizes src = block_sizes dst);
      if worker_tp_rank src =? 0 then
        let* sps := for_tensors ntensors (rank0_spec layout src dst ntensors head_num) in
        Ok (mkTransferPlan sps PEQD)
      else Ok (mkTransferPlan [] PEQD)
    else
      let kind := if force_peqd_tpkind layout then PEQD else PGTD in
      let* '(group_off, sends_attn) :=
        attn_group layout src valid_ranks kvt_tp_size kvt_tp_rank d_tp in
      if negb sends_attn && negb has_gdn && negb has_indexer then
        Ok (mkTransferPlan [mkCacheTransferSpec [] false] kind)
      else
        let* sps := for_tensors ntensors
          (pgtd_spec layout src dst group_off sends_attn ntensors head_num) in
        Ok (mkTransferPlan sps kind)
  else Err RuntimeError.

End Build.

(** Planning and generating in one go, into an empty output. *)
Definition plan_records `{Env} (cache_shape : Z) (src dst : WorkerInfo) (valid_ranks : bitset)
    (kvt_tp_size kvt_tp_rank : Z) (task : ReqSendTask) : res (list (list IpcBlock)) :=
  let* plan := build_transfer_plan cache_shape src dst valid_ranks kvt_tp_size kvt_tp_rank in
  generate_all_ipc_blocks plan task [].
