(* ===== verification/BlockSend.v ===== *)
(** Functional correctness of the block-granular sends: which whole blocks a step of a
    chunked prefill sends ([do_parse_block_aligned_send] of
    [src/parse_block_qwen3_next.cpp], and the equal-TP branch of
    [src/parse_block_kimi_k3.cpp]). *)

From S2P Require Import Prelude Common CopySpec ParseCommon TokenCopy ParseQwen3Next ParseKimiK3.

(** ** What a step sends *)

(** With [nb] blocks of [n] tokens in the request: the blocks from the one holding the
    step's first token up to the last completed one, and with the last token all
    remaining blocks. *)
Definition step_blocks (n nb seen new : Z) (last : bool) : list Z :=
  seqZ (seen / n) ((if last then nb else (seen + new) / n) - seen / n).

(** ** Chunked prefill *)

(** The steps of a prefill that starts at token [seen] and computes the given chunks; the
    last one reaches the last token. *)
Fixpoint chunk_steps (seen : Z) (chunks : list Z) : list (Z * Z * bool) :=
  match chunks with
  | [] => []
  | [c] => [(seen, c, true)]
  | c :: rest => (seen, c, false) :: chunk_steps (seen + c) rest
  end.

Definition step_task (task : ReqSendTask) (st : Z * Z * bool) : ReqSendTask :=
  mkReqSendTask (req_ptr task) (req task) st.1.1 st.1.2 st.2.

Definition sum_tokens (chunks : list Z) : Z := foldr Z.add 0 chunks.

Lemma sum_tokens_nonneg chunks : Forall (fun c => 0 < c) chunks -> 0 <= sum_tokens chunks.
Proof. induction 1; simpl; lia. Qed.

Section Chunked.
Context (n nb : Z) (rec : Z -> IpcBlock)
  (send : ReqSendTask -> list IpcBlock -> res (list IpcBlock)).
Context (Hn : 0 < n) (Hsend : forall task blocks,
  0 <= seen_tokens task -> 0 < new_tokens task ->
  seen_tokens task + new_tokens task + n <= W32 ->
  seen_tokens task + new_tokens task <= nb * n ->
  send task blocks = Ok (blocks ++ (rec <$> step_blocks n nb (seen_tokens task)
                                              (new_tokens task) (reach_last_token task)))).

(** Whatever the chunking, the steps together send every block once, in order. *)
Lemma chunked_send_total task chunks seen blocks :
  chunks <> [] -> Forall (fun c => 0 < c) chunks -> 0 <= seen ->
  seen + sum_tokens chunks + n <= W32 -> seen + sum_tokens chunks <= nb * n ->
  forM (chunk_steps seen chunks) (fun st blocks => send (step_task task st) blocks) blocks
  = Ok (blocks ++ (rec <$> seqZ (seen / n) (nb - seen / n))).
Proof.
  intros Hne Hpos. revert seen blocks.
  induction chunks as [|c rest IH]; intros seen blocks Hseen Hhi Hcap; [done|].
  inversion Hpos as [|? ? Hc Hrest]; subst. pose proof (sum_tokens_nonneg _ Hrest).
  simpl in Hhi, Hcap.
  destruct rest as [|c' rest].
  - cbn [chunk_steps forM]. rewrite Hsend by (auto; simpl; lia). done.
  - change (chunk_steps seen (c :: c' :: rest))
      with ((seen, c, false) :: chunk_steps (seen + c) (c' :: rest)).
    cbn [forM]. rewrite Hsend by (auto; simpl in *; lia).
    cbn [rbind]. rewrite IH by (auto; simpl in *; lia).
    rewrite <- app_assoc, <- fmap_app. do 3 f_equal. unfold step_blocks. simpl.
    assert (seen / n <= (seen + c) / n) by (apply Z.div_le_mono; lia).
    assert ((seen + c) / n <= nb) by (apply Z.div_le_upper_bound; simpl in *; lia).
    replace (seqZ ((seen + c) / n)) with (seqZ (seen / n + ((seen + c) / n - seen / n)))
      by (f_equal; lia).
    rewrite <- seqZ_app by lia. f_equal. lia.
Qed.
End Chunked.

Section Aligned.
Context `{Env} (bs n : Z) (sblks dblks : list Z) (b : IpcBlockBounds).

(** The whole-block copy of the request's [i]-th block. *)
Definition aligned_block (i : Z) : IpcBlock :=
  mkIpcBlock ((sblks !!! Z.to_nat i) * bs) ((dblks !!! Z.to_nat i) * bs) bs.

Definition block_fits (cap blk : Z) : Prop := 0 <= blk /\ (blk + 1) * bs <= cap.

Record aligned_ready : Prop := {
  ar_wf : wf_bounds b;
  ar_scale : src_length_scale b = 1;
  ar_n : 0 < n < W32;
  ar_bs : 0 < bs;
  ar_len : vsize sblks = vsize dblks;
  ar_src : Forall (block_fits (src_capacity b)) sblks;
  ar_dst : Forall (block_fits (dst_capacity b)) dblks;
}.

Lemma aligned_lookup i :
  aligned_ready -> 0 <= i < vsize sblks ->
  exists s d, sblks !! Z.to_nat i = Some s /\ dblks !! Z.to_nat i = Some d.
Proof.
  intros [] Hi. unfold vsize in *.
  destruct (lookup_lt_is_Some_2 sblks (Z.to_nat i)) as [s Hs]; [lia|].
  destruct (lookup_lt_is_Some_2 dblks (Z.to_nat i)) as [d Hd]; [lia|].
  eauto.
Qed.

(** Sending one listed block succeeds. *)
Lemma append_aligned i s d blocks :
  aligned_ready -> sblks !! Z.to_nat i = Some s -> dblks !! Z.to_nat i = Some d ->
  append_ipc_block_checked blocks b (u64 (s * bs)) (u64 (d * bs)) bs
  = Ok (blocks ++ [aligned_block i]).
Proof.
  intros [] Hs Hd. pose proof ar_wf0 as ([? ?] & [? ?] & _).
  pose proof (Forall_lookup_1 _ _ _ _ ar_src0 Hs) as [? ?].
  pose proof (Forall_lookup_1 _ _ _ _ ar_dst0 Hd) as [? ?].
  unfold aligned_block.
  rewrite (list_lookup_total_correct _ _ _ Hs), (list_lookup_total_correct _ _ _ Hd).
  rewrite !u64_small by nia. apply append_ok; rewrite ?ar_scale0; auto; nia.
Qed.

(** The blocks sent by the token loop over [w, w + l): those completed by it, and with
    the last token also the partial one. *)
Definition aligned_stop (last : bool) (e : Z) : Z := if last then cdiv e n else e / n.
Definition aligned_span (last : bool) (w l : Z) : list IpcBlock :=
  if 0 <? l then aligned_block <$> seqZ (w / n) (aligned_stop last (w + l) - w / n) else [].

Lemma aligned_length_block_end i :
  0 < n < W32 -> 0 <= i < n -> forall last,
  aligned_length bs n i (n - i) last = Ok bs.
Proof.
  intros Hn Hi last. unfold aligned_length.
  destruct (Z.eqb_spec (n - i) n); simpl; [done|]. destruct last; [done|].
  destruct (Z.eqb_spec i 0); [lia|].
  rewrite u32_small by lia. by rewrite (proj2 (Z.eqb_eq (i + (n - i)) n)) by lia.
Qed.

Lemma aligned_length_partial i c last :
  0 < n < W32 -> 0 <= i -> 0 < c -> i + c < n ->
  aligned_length bs n i c last = Ok (if last then bs else 0).
Proof.
  intros Hn Hi Hc Hlt. unfold aligned_length.
  destruct (Z.eqb_spec c n); simpl; [lia|]. destruct last; [done|].
  destruct (Z.eqb_spec i 0); [done|]. rewrite u32_small by lia.
  destruct (Z.eqb_spec (i + c) n); [lia|]. by rewrite cassert_true by lia.
Qed.

Lemma aligned_stop_mono last x y : 0 < n -> x <= y -> x / n <= aligned_stop last y.
Proof.
  intros Hn Hxy. transitivity (y / n); [by apply Z.div_le_mono|].
  unfold aligned_stop. destruct last; [|done].
  destruct (decide (y mod n = 0)); [rewrite cdiv_mul|rewrite cdiv_partial]; lia.
Qed.

(** The span of a chunk is its first block, when sent, and the span of the rest. *)
Lemma aligned_span_step last w l :
  0 < n -> 0 < l ->
  let c := Z.min (n - w mod n) l in
  aligned_span last w l
  = (if (c =? n - w mod n) || last then [aligned_block (w / n)] else [])
    ++ aligned_span last (w + c) (l - c).
Proof.
  intros Hn Hl c. pose proof (Z.mod_pos_bound w n Hn). unfold aligned_span.
  rewrite (proj2 (Z.ltb_lt 0 l)) by done.
  destruct (Z.eqb_spec c (n - w mod n)) as [Hc|Hc]; cbn [orb].
  - rewrite Hc, div_next by done. replace (w + (n - w mod n) + (l - (n - w mod n))) with (w + l) by lia.
    pose proof (aligned_stop_mono last (w + (n - w mod n)) (w + l) Hn ltac:(lia)) as Hs.
    rewrite div_next in Hs by done.
    rewrite seqZ_cons by lia. cbn [fmap list_fmap app]. f_equal.
    replace (Z.succ (w / n)) with (w / n + 1) by lia.
    destruct (Z.ltb_spec 0 (l - (n - w mod n))); [do 2 f_equal; lia|].
    assert (aligned_stop last (w + l) = w / n + 1) as ->; [|rewrite seqZ_nil; [done|lia]].
    replace l with (n - w mod n) by lia. unfold aligned_stop.
    destruct last; [rewrite cdiv_mul by auto using mod_next|]; by apply div_next.
  - rewrite (proj2 (Z.ltb_ge 0 (l - c))), app_nil_r by lia.
    assert (w mod n + l < n) by lia. unfold aligned_stop. destruct last.
    + rewrite cdiv_partial by (rewrite ?mod_run; lia). rewrite div_run by lia.
      rewrite seqZ_cons, seqZ_nil by lia. done.
    + rewrite div_run, seqZ_nil by lia. done.
Qed.

Lemma aligned_round_total last w l blocks :
  aligned_ready -> 0 <= w -> 0 < l -> w + l < W32 -> w + l <= vsize sblks * n ->
  let c := Z.min (n - w mod n) l in
  let new := if (c =? n - w mod n) || last then [aligned_block (w / n)] else [] in
  0 < c <= l /\
  aligned_round bs n last sblks dblks b (w, l, blocks) = Ok (w + c, l - c, blocks ++ new) /\
  aligned_span last w l = new ++ aligned_span last (w + c) (l - c).
Proof.
  intros Hr Hw Hl Hhi Hcap c new. pose proof Hr as [].
  pose proof (Z.mod_pos_bound w n ltac:(lia)). pose proof (Z.div_mod w n ltac:(lia)).
  assert (Hw0 : 0 <= w / n) by (apply Z.div_pos; lia).
  assert (w / n < vsize sblks) by (apply Z.div_lt_upper_bound; lia).
  split; [lia|]. split.
  - destruct (aligned_lookup (w / n) Hr) as (s & d & Hs & Hd); [lia|].
    unfold aligned_round. repeat eval_step.
    rewrite (u32_small (n - _)) by lia. fold c.
    unfold new. destruct (Z.eqb_spec c (n - w mod n)) as [Hc|Hc]; cbn [orb].
    + rewrite Hc, aligned_length_block_end by lia. cbn [rbind].
      rewrite (proj2 (Z.ltb_lt 0 bs)) by done.
      rewrite (append_aligned _ _ _ _ Hr Hs Hd). cbn [rbind]. rewrite !u32_small by lia. done.
    + rewrite aligned_length_partial by lia. cbn [rbind].
      destruct last; [rewrite (proj2 (Z.ltb_lt 0 bs)) by done;
        rewrite (append_aligned _ _ _ _ Hr Hs Hd)|simpl; rewrite app_nil_r];
        cbn [rbind]; rewrite !u32_small by lia; done.
  - apply aligned_span_step; lia.
Qed.

Lemma aligned_loop_total last w l blocks :
  aligned_ready -> 0 <= w -> 0 <= l -> w + l < W32 -> w + l <= vsize sblks * n ->
  while (Z.to_nat l) (fun s => 0 <? s.1.2) (aligned_round bs n last sblks dblks b) (w, l, blocks)
  = Ok (w + l, 0, blocks ++ aligned_span last w l).
Proof.
  intros Hr Hw Hl Hhi Hcap.
  destruct (token_loop_total (fun x => x) (aligned_span last) (fun _ => True)
    (fun w l => 0 <= w /\ w + l < W32 /\ w + l <= vsize sblks * n)
    (aligned_round bs n last sblks dblks b))
    with (w := w) (l := l) (out := blocks) as (new & -> & -> & _); auto.
  clear w l blocks Hw Hl Hhi Hcap. intros w l out (? & ? & ?) Hl.
  destruct (aligned_round_total last w l out) as (Hc & Hround & Hspan); auto.
  eexists _, _. split; [exact Hc|]. split; [exact Hround|]. split; [exact Hspan|].
  split; [by apply Forall_true|lia].
Qed.

Lemma do_parse_block_aligned_send_total task blocks :
  aligned_ready -> 0 <= seen_tokens task -> 0 < new_tokens task ->
  seen_tokens task + new_tokens task + n <= W32 ->
  seen_tokens task + new_tokens task <= vsize sblks * n ->
  do_parse_block_aligned_send bs task sblks dblks n b blocks
  = Ok (blocks ++ (aligned_block <$> step_blocks n (vsize sblks) (seen_tokens task) (new_tokens task)
                                       (reach_last_token task))).
Proof.
  intros Hr Hs Hn Hhi Hcap. pose proof Hr as [].
  unfold do_parse_block_aligned_send.
  rewrite aligned_loop_total by (auto; lia). cbn [rbind].
  unfold aligned_span, step_blocks, aligned_stop. rewrite (proj2 (Z.ltb_lt 0 _)) by done.
  assert (He : seen_tokens task < seen_tokens task + new_tokens task) by lia.
  set (e := seen_tokens task + new_tokens task) in *. clearbody e.
  destruct (reach_last_token task); [|done].
  rewrite u32_small by lia. fold (cdiv e n). rewrite udiv_ok by lia. cbn [rbind].
  rewrite cassert_true by lia. cbn [rbind]. fold (cdiv e n).
  rewrite (for_range_collect (fun i => [aligned_block i])).
  - rewrite flat_map_singleton, <- app_assoc, <- fmap_app. do 3 f_equal.
    pose proof (aligned_stop_mono true (seen_tokens task) e ltac:(lia) ltac:(lia)) as Hle.
    unfold aligned_stop in Hle. assert (cdiv e n <= vsize sblks).
    { apply Z.lt_succ_r. unfold cdiv. apply Z.div_lt_upper_bound; lia. }
    replace (seqZ (cdiv e n)) with (seqZ (seen_tokens task / n + (cdiv e n - seen_tokens task / n)))
      by (f_equal; lia).
    rewrite <- seqZ_app by lia. f_equal. lia.
  - intros i out Hi. assert (0 <= cdiv e n) by (apply Z.div_pos; lia).
    destruct (aligned_lookup i Hr) as (s & d & Hsb & Hdb); [lia|]. repeat eval_step.
    by apply append_aligned.
Qed.

End Aligned.

(** ** Kimi K3 MLA, equal TP *)

Section Mla.
Context `{Env} (n ts sp dp : Z) (sblks dblks : list Z) (b : IpcBlockBounds).

(** The MLA part of page [i]: [n] tokens at the start of a page of its own stride. *)
Definition mla_block (i : Z) : IpcBlock :=
  mkIpcBlock ((sblks !!! Z.to_nat i) * sp) ((dblks !!! Z.to_nat i) * dp) (n * ts).

Record mla_ready : Prop := {
  mr_wf : wf_bounds b;
  mr_scale : src_length_scale b = 1;
  mr_n : 0 < n < W32;
  mr_ts : 0 < ts;
  mr_sp : n * ts <= sp;
  mr_dp : n * ts <= dp;
  mr_len : vsize sblks = vsize dblks;
  mr_src : Forall (fun x => 0 <= x /\ x * sp + sp <= src_capacity b) sblks;
  mr_dst : Forall (fun x => 0 <= x /\ x * dp + dp <= dst_capacity b) dblks;
}.

Lemma mla_equal_tp_total task blocks :
  mla_ready -> 0 <= seen_tokens task -> 0 <= new_tokens task ->
  seen_tokens task + new_tokens task < W32 ->
  seen_tokens task + new_tokens task <= vsize sblks * n ->
  mla_equal_tp task sblks dblks n n sp dp ts b blocks
  = Ok (blocks ++ (mla_block <$> step_blocks n (vsize sblks) (seen_tokens task) (new_tokens task)
                                   (reach_last_token task))).
Proof.
  intros [] Hs Hn Hhi Hcap. pose proof mr_wf0 as ([? ?] & [? ?] & _).
  assert (Hf : 0 <= seen_tokens task / n) by (apply Z.div_pos; lia).
  assert (seen_tokens task / n <= (seen_tokens task + new_tokens task) / n)
    by (apply Z.div_le_mono; lia).
  assert ((seen_tokens task + new_tokens task) / n <= vsize sblks)
    by (apply Z.div_le_upper_bound; lia).
  unfold mla_equal_tp, end_tokens. rewrite (u32_small (_ + _)) by lia.
  rewrite !cassert_true by lia. cbn [rbind]. rewrite !udiv_ok by lia. cbn [rbind].
  unfold step_blocks. set (e := (seen_tokens task + new_tokens task) / n) in *. clearbody e.
  set (stop := if reach_last_token task then vsize sblks else e).
  replace (if reach_last_token task then Ok (vsize sblks) else Ok e) with (Ok stop)
    by (unfold stop; by destruct (reach_last_token task)).
  assert (seen_tokens task / n <= stop <= vsize sblks)
    by (unfold stop; destruct (reach_last_token task); lia).
  clearbody stop. cbn [rbind]. rewrite !cassert_true by lia. cbn [rbind].
  rewrite (for_range_collect (fun i => [mla_block i])); [by rewrite flat_map_singleton|].
  intros i out Hi. unfold vsize in *.
  destruct (lookup_lt_is_Some_2 sblks (Z.to_nat i)) as [s Hsb]; [lia|].
  destruct (lookup_lt_is_Some_2 dblks (Z.to_nat i)) as [d Hdb]; [lia|].
  pose proof (Forall_lookup_1 _ _ _ _ mr_src0 Hsb) as [? ?].
  pose proof (Forall_lookup_1 _ _ _ _ mr_dst0 Hdb) as [? ?].
  rewrite (vec_at_Some _ i s), (vec_at_Some _ i d) by (auto; lia). cbn [rbind].
  unfold mla_block.
  rewrite (list_lookup_total_correct _ _ _ Hsb), (list_lookup_total_correct _ _ _ Hdb).
  assert (0 < n * ts) by nia. rewrite !u64_small by nia.
  apply append_ok; rewrite ?mr_scale0; auto; nia.
Qed.
End Mla.

(** ** Properties *)

(** C6: Block-aligned send over a chunked prefill: whatever the chunk sizes, running
    do_parse_block_aligned_send on the successive steps of a request emits the block of
    every position from the first unfinished block to the end of the allocation exactly once
    and in order, deferring a partly filled block to the step that completes it. *)
Theorem chunked_prefill_sends_each_block_once `{Env} bs n sblks dblks b task chunks seen :
  aligned_ready bs n sblks dblks b -> chunks <> [] -> Forall (fun c => 0 < c) chunks ->
  0 <= seen -> seen + sum_tokens chunks + n <= W32 ->
  seen + sum_tokens chunks <= vsize sblks * n ->
  forM (chunk_steps seen chunks) (fun st blocks =>
    do_parse_block_aligned_send bs (step_task task st) sblks dblks n b blocks) []
  = Ok (aligned_block bs sblks dblks <$> seqZ (seen / n) (vsize sblks - seen / n)).
Proof.
  intros Hr Hne Hpos Hseen Hhi Hcap. pose proof (ar_n _ _ _ _ _ Hr).
  rewrite (chunked_send_total n (vsize sblks) (aligned_block bs sblks dblks)
    (fun task => do_parse_block_aligned_send bs task sblks dblks n b)); auto; [lia|].
  intros. by apply do_parse_block_aligned_send_total.
Qed.

Lemma chunked_prefill_sends_each_block_once_witness :
  forM (chunk_steps 3 [2; 6; 1]) (fun st blocks =>
    do_parse_block_aligned_send (H := debug_env) 16
      (step_task (example_task [] [] 0 0 false) st) [4; 9; 2; 7] [1; 0; 3; 5] 4
      (mkBounds 160 160 1 0) blocks) []
  = Ok (aligned_block 16 [4; 9; 2; 7] [1; 0; 3; 5] <$> seqZ 0 4).
Proof.
  apply (chunked_prefill_sends_each_block_once (H := debug_env) 16 4 [4; 9; 2; 7] [1; 0; 3; 5]
    (mkBounds 160 160 1 0) (example_task [] [] 0 0 false) [2; 6; 1] 3); try done.
  - split; try done.
    + repeat split; try done. by left.
    + repeat constructor; done.
    + repeat constructor; done.
  - repeat constructor.
Defined.

(** Kimi K3 equal-TP path: when the MLA block fills the physical page, the index-range loop
    of parse_replicated_mla_blocks emits the same records as the token loop of
    do_parse_block_aligned_send it is documented to follow. *)
Theorem mla_equal_tp_matches_aligned_send `{Env} n ts sblks dblks b task blocks :
  mla_ready n ts (n * ts) (n * ts) sblks dblks b ->
  0 <= seen_tokens task -> 0 < new_tokens task ->
  seen_tokens task + new_tokens task + n <= W32 ->
  seen_tokens task + new_tokens task <= vsize sblks * n ->
  mla_equal_tp task sblks dblks n n (n * ts) (n * ts) ts b blocks
  = do_parse_block_aligned_send (n * ts) task sblks dblks n b blocks.
Proof.
  intros Hm Hs Hnew Hhi Hcap. pose proof Hm as [].
  rewrite mla_equal_tp_total by (auto; lia).
  rewrite do_parse_block_aligned_send_total; auto.
  split; auto; [nia| |].
  - eapply Forall_impl; [exact mr_src0|]. unfold block_fits. intros; nia.
  - eapply Forall_impl; [exact mr_dst0|]. unfold block_fits. intros; nia.
Qed.

Lemma mla_equal_tp_matches_aligned_send_witness :
  mla_equal_tp (H := debug_env) (example_task [] [] 3 6 false) [4; 9; 2; 7] [1; 0; 3; 5] 4 4 16 16 4
    (mkBounds 160 160 1 0) []
  = do_parse_block_aligned_send (H := debug_env) 16 (example_task [] [] 3 6 false)
      [4; 9; 2; 7] [1; 0; 3; 5] 4 (mkBounds 160 160 1 0) [].
Proof.
  apply (mla_equal_tp_matches_aligned_send (H := debug_env) 4 4 [4; 9; 2; 7] [1; 0; 3; 5]
    (mkBounds 160 160 1 0) (example_task [] [] 3 6 false) []); try done.
  split; try done.
  - repeat split; try done. by left.
  - repeat constructor; done.
  - repeat constructor; done.
Defined.
