(* ===== verification/PlanEquiv.v ===== *)
(** The declarative planner against the parse functions it is meant to replace: where the
    two emit the same records, and where they differ. *)

From S2P Require Import Prelude.
From S2P Require Import Common.
From S2P Require Import CopySpec.
From S2P Require Import ParseCommon.
From S2P Require Import TokenCopy.
From S2P Require Import ParseRagged.
From S2P Require Import ParseFlash.
From S2P Require Import ParseQwen3Next.
From S2P Require Import ParseFlashInfer.
From S2P Require Import BlockSend.
From S2P Require Import Planner.

(** ** One stream *)
Section KStream.
Context `{Env} (comp : AttnSpec) (st : Stream) (sn dn : Z) (sblks dblks : list Z).

(** Where the stream of a single-head specification puts token [t]. *)
Definition stream_record (t : Z) : IpcBlock :=
  mkIpcBlock
    (token_row sblks (src_block_stride comp) (src_token_stride comp) sn t
     + base_off_src st + global_off_src st)
    (token_row dblks (dst_block_stride comp) (dst_token_stride comp) dn t
     + base_off_dst st + global_off_dst st)
    (bytes_per_token comp).

(** One side of the stream: the blocks are known and the offsets do not wrap. *)
Definition stream_side (blks : list Z) (bs ts n off lo hi : Z) : Prop :=
  forall t, lo <= t < hi -> exists blk,
    blks !! Z.to_nat (t / n) = Some blk /\ 0 <= token_row blks bs ts n t + off < W64.

Record stream_ready (lo hi : Z) : Prop := {
  sr_heads : head_num comp = 1;
  sr_sn : 0 < sn < W32;
  sr_dn : 0 < dn < W32;
  sr_lo : 0 <= lo;
  sr_hi : hi < W32;
  sr_src : stream_side sblks (src_block_stride comp) (src_token_stride comp) sn
             (base_off_src st + global_off_src st) lo hi;
  sr_dst : stream_side dblks (dst_block_stride comp) (dst_token_stride comp) dn
             (base_off_dst st + global_off_dst st) lo hi;
}.

Lemma stream_ready_sub lo hi lo' : stream_ready lo hi -> lo <= lo' -> stream_ready lo' hi.
Proof. intros [] ?. split; auto; try lia; intros t Ht; auto with lia. Qed.

Lemma token_record_stream lo hi t cur i sb db :
  stream_ready lo hi -> lo <= t < hi -> t = cur + i -> 0 <= i ->
  cur mod sn + i < sn -> cur mod dn + i < dn ->
  sblks !! Z.to_nat (cur / sn) = Some sb -> dblks !! Z.to_nat (cur / dn) = Some db ->
  token_record comp st sb db (cur mod sn) (cur mod dn) 0 i = stream_record t.
Proof.
  intros [] Ht -> Hi Hs Hd Hsb Hdb.
  pose proof (Z.mod_pos_bound cur sn ltac:(lia)). pose proof (Z.mod_pos_bound cur dn ltac:(lia)).
  destruct (sr_src0 _ Ht) as (sb' & Hsb' & Hsr). destruct (sr_dst0 _ Ht) as (db' & Hdb' & Hdr).
  unfold token_record, stream_record. revert Hsr Hdr. unfold token_row.
  rewrite !div_run, !mod_run by lia.
  rewrite (list_lookup_total_correct _ _ _ Hsb), (list_lookup_total_correct _ _ _ Hdb).
  intros. rewrite !Z.mul_0_l, !(u64_small 0), !Z.add_0_r by (unfold W64; lia).
  rewrite !(u32_small (_ mod _ + _)) by lia. rewrite !u64_small by lia. done.
Qed.

Lemma emit_run_total lo hi cur c out :
  stream_ready lo hi -> lo <= cur -> 0 < c -> cur + c <= hi ->
  cur mod sn + c <= sn -> cur mod dn + c <= dn ->
  emit_run comp st sblks dblks (cur / sn) (cur / dn) (cur mod sn) (cur mod dn) c out
  = Ok (out ++ (stream_record <$> seqZ cur c)).
Proof.
  intros Hr Hlo Hc Hhi Hs Hd. pose proof Hr as [].
  destruct (sr_src0 cur ltac:(lia)) as (sb & Hsb & _).
  destruct (sr_dst0 cur ltac:(lia)) as (db & Hdb & _).
  assert (0 <= cur / sn) by (apply Z.div_pos; lia). assert (0 <= cur / dn) by (apply Z.div_pos; lia).
  unfold emit_run. rewrite sr_heads0.
  rewrite (for_range_collect (fun _ => stream_record <$> seqZ cur c)).
  { simpl. by rewrite app_nil_r. }
  intros r out' Hr0. assert (r = 0) as -> by lia.
  rewrite (for_range_collect (fun i => [stream_record (cur + i)])).
  - rewrite flat_map_singleton, Z.sub_0_r. do 2 f_equal.
    replace (seqZ cur c) with (Z.add cur <$> seqZ 0 c) by (rewrite fmap_add_seqZ; f_equal; lia).
    by rewrite <- list_fmap_compose.
  - intros i out'' Hi. repeat eval_step. do 3 f_equal.
    apply (token_record_stream lo hi); auto; lia.
Qed.

(** The loop emits the records of the step's tokens, in order, whatever the two block
    sizes. *)
Lemma generate_k_block_total w l out :
  stream_ready w (w + l) -> 0 <= l ->
  generate_k_block comp st sn dn sblks dblks w l out = Ok (out ++ (stream_record <$> seqZ w l)).
Proof.
  intros Hr Hl. unfold generate_k_block.
  destruct (pos_loop_total (fun x : list IpcBlock => x)
    (fun p => stream_record <$> seqZ (w + p) (l - p)) (fun _ => True) (fun p => 0 <= p) l
    (k_block_round comp st sn dn sblks dblks w l))
    with (k := Z.to_nat l) (p := 0) (out := out) as (new & -> & -> & _); auto; try lia.
  - by rewrite Z.sub_diag.
  - intros p o Hp Hlt. pose proof Hr as [].
    assert (Hw : 0 <= (w + p) / sn /\ 0 <= (w + p) / dn) by (split; apply Z.div_pos; lia).
    pose proof (Z.mod_pos_bound (w + p) sn ltac:(lia)).
    pose proof (Z.mod_pos_bound (w + p) dn ltac:(lia)).
    destruct (sr_src0 (w + p) ltac:(lia)) as (sb & Hsb & _).
    destruct (sr_dst0 (w + p) ltac:(lia)) as (db & Hdb & _).
    set (c := Z.min (Z.min (sn - (w + p) mod sn) (dn - (w + p) mod dn)) (l - p)).
    exists (p + c), (stream_record <$> seqZ (w + p) c). split; [lia|]. split.
    + unfold k_block_round. rewrite (u32_small (w + p)) by lia. do 4 eval_step.
      rewrite cassert_true by (erewrite !vsize_lookup by (eauto; tauto); done).
      cbn [rbind]. rewrite !(u32_small (_ - _)) by lia. fold c.
      rewrite (emit_run_total w (w + l)) by (auto; lia). cbn [rbind].
      rewrite u32_small by lia. done.
    + split; [|split; [by apply Forall_true|lia]].
      rewrite <- fmap_app. f_equal.
      replace (seqZ (w + (p + c))) with (seqZ (w + p + c)) by (f_equal; lia).
      rewrite <- seqZ_app by lia. f_equal. lia.
  - cbn [rbind]. by rewrite Z.add_0_r, Z.sub_0_r.
Qed.
End KStream.

(** ** Plans of a single attention component *)
Section Single.
Context `{Env}.

Lemma generate_single c kind task :
  generate_all_ipc_blocks (mkTransferPlan [mkCacheTransferSpec [Attn c] true] kind) task []
  = let* out := generate_component (src_blocks task) (dst_blocks task) (seen_tokens task)
                  (new_tokens task) (reach_last_token task) (Attn c) [] in Ok [out].
Proof.
  unfold generate_all_ipc_blocks, generate_ipc_blocks, for_range.
  cbn [specs vsize length Z.of_nat vec_resize Z.sub seqZ]. change (seqZ 0 _) with [0].
  cbn [forM]. rewrite (vec_idx_Some _ 0 (mkCacheTransferSpec [Attn c] true)) by done.
  cbn [rbind]. rewrite (vec_idx_Some _ 0 []) by done. cbn [rbind valid components negb forM].
  by destruct (generate_component _ _ _ _ _ _ _).
Qed.

(** An unaligned component without a fill, over the first block group. *)
Lemma generate_unaligned sp sn dn task sblks dblks :
  src_blocks task !! 0%nat = Some sblks -> dst_blocks task !! 0%nat = Some dblks ->
  generate_component (src_blocks task) (dst_blocks task) (seen_tokens task) (new_tokens task)
    (reach_last_token task) (Attn (attn_component sp sn dn false)) []
  = generate_attn sp sn dn sblks dblks (seen_tokens task) (new_tokens task) [].
Proof.
  intros Hs Hd. cbn [generate_component attn_component block_group block_aligned spec src_ntpb
    dst_ntpb fill_last_block].
  rewrite !cassert_true by (eapply vsize_lookup; [lia|]; done). cbn [rbind].
  rewrite (vec_idx_Some _ 0 sblks), (vec_idx_Some _ 0 dblks) by done. cbn [rbind].
  cbn [andb]. by destruct (generate_attn _ _ _ _ _ _ _ _).
Qed.

(** A side whose last row, moved by the stream's offset, does not wrap. *)
Lemma allocated_stream_side blks bs ts n off nb lo hi :
  allocated blks n nb lo hi -> 0 < n -> 0 <= ts -> 0 <= bs -> 0 <= off ->
  bs * (nb - 1) + (n - 1) * ts + off < W64 -> stream_side blks bs ts n off lo hi.
Proof.
  intros Ha Hn Hts Hbs Hoff Hcap t Ht.
  destruct (Ha t Ht) as (blk & Hblk & Hb). exists blk. split; [done|].
  unfold token_row. rewrite (list_lookup_total_correct _ _ _ Hblk).
  pose proof (Z.mod_pos_bound t n Hn).
  assert (blk * bs <= bs * (nb - 1)) by nia.
  assert (0 <= t mod n * ts <= (n - 1) * ts) by nia. nia.
Qed.
End Single.

(** Look the layout up and decide its dimension order. *)
Ltac layout_eval :=
  lazymatch goal with
  | |- rbind (get_attn_layout ?s) _ = _ =>
      let l := eval vm_compute in (get_attn_layout s) in
      change (get_attn_layout s) with l; cbn [rbind]
  end;
  repeat match goal with
  | |- context [is_head_outer_to_token ?l] =>
      let b := eval vm_compute in (is_head_outer_to_token l) in
      change (is_head_outer_to_token l) with b
  end;
  cbn [rbind num_tensors use_valid_ranks valid_ranks_affects_group_n rank0_only_when_same_sizes
       force_peqd_tpkind block_aligned_peqd v_head_invariant].

(** ** RAGGED_FLASH *)
Section RaggedPlan.
Context `{Env}.

Lemma for_tensors_one (f : Z -> res CacheTransferSpec) :
  for_tensors 1 f = let* sp := f 0 in Ok [sp].
Proof.
  unfold for_tensors, for_range. change (seqZ 0 (1 - 0)) with [0]. cbn [forM].
  by destruct (f 0).
Qed.

(** Reading tensor 0 of single-tensor workers. *)
Lemma fullattn_of_single layout src dst off hn bs ts bs' ts' :
  block_sizes src = [bs] -> token_sizes src = [ts] ->
  block_sizes dst = [bs'] -> token_sizes dst = [ts'] ->
  fullattn_of layout src dst off hn 0
  = build_attn_spec_from_layout layout bs ts bs' ts' off (layer_num_blocks src)
      (layer_num_blocks dst) hn.
Proof. intros Hb Ht Hb' Ht'. unfold fullattn_of. by rewrite Hb, Ht, Hb', Ht'. Qed.

Lemma ragged_plan_p_eq_d src dst vr ktr n ts :
  equal_layout src dst n ts -> num_gdn_layers src = 0 ->
  build_transfer_plan RAGGED_FLASH_CACHE_SHAPE src dst vr (engine_tp_size dst) ktr
  = Ok (mkTransferPlan
      [mkCacheTransferSpec
         [Attn (attn_component (plain_attn (n * ts) (n * ts) ts ts ts) n n false)] true] PEQD).
Proof.
  intros [] Hg. unfold build_transfer_plan. layout_eval.
  rewrite Hg. change (0 <? 0) with false. change (0 <? 1) with true. cbv iota.
  rewrite Z.eqb_refl, el_src_ts, el_dst_ts, el_src_bs, el_dst_bs.
  rewrite !cassert_true by (by apply bool_decide_eq_true_2). cbn [rbind].
  rewrite for_tensors_one. unfold peqd_spec.
  erewrite fullattn_of_single by eauto. unfold build_attn_spec_from_layout.
  rewrite !udiv_ok by lia. cbn [rbind]. rewrite Z.div_mul, (u32_small n) by lia.
  rewrite !Z.eqb_refl, Hg. reflexivity.
Qed.
(** One stream without a V component. *)
Lemma generate_attn_k sp sn dn sblks dblks w l :
  vspec sp = None -> stream_ready sp (k_stream sp) sn dn sblks dblks w (w + l) -> 0 <= l ->
  generate_attn sp sn dn sblks dblks w l []
  = Ok (stream_record sp (k_stream sp) sn dn sblks dblks <$> seqZ w l).
Proof.
  intros Hv Hr Hl. unfold generate_attn. rewrite generate_k_block_total by done.
  cbn [rbind]. by rewrite Hv.
Qed.

(** K and V streams. *)
Lemma generate_attn_kv sp v sn dn sblks dblks w l :
  vspec sp = Some v -> stream_ready sp (k_stream sp) sn dn sblks dblks w (w + l) ->
  stream_ready sp (v_stream v) sn dn sblks dblks w (w + l) -> 0 <= l ->
  generate_attn sp sn dn sblks dblks w l []
  = Ok ((stream_record sp (k_stream sp) sn dn sblks dblks <$> seqZ w l) ++
        (stream_record sp (v_stream v) sn dn sblks dblks <$> seqZ w l)).
Proof.
  intros Hv Hk Hvr Hl. unfold generate_attn. rewrite generate_k_block_total by done.
  cbn [rbind]. rewrite Hv. by rewrite generate_k_block_total.
Qed.

Lemma ragged_plan_records_p_eq_d src dst vr ktr n ts task sblks dblks :
  equal_layout src dst n ts -> task_allocated src dst n task sblks dblks ->
  num_gdn_layers src = 0 ->
  plan_records RAGGED_FLASH_CACHE_SHAPE src dst vr (engine_tp_size dst) ktr task
  = Ok [token_copy ts n sblks dblks <$> seqZ (seen_tokens task) (new_tokens task)].
Proof.
  intros Hel Hta Hg. unfold plan_records. rewrite (ragged_plan_p_eq_d _ _ _ _ n ts) by done.
  cbn [rbind]. rewrite generate_single. pose proof Hta as []. pose proof Hel as [].
  rewrite (generate_unaligned _ _ _ _ sblks dblks) by done.
  rewrite generate_attn_k; [|done| |done].
  - cbn [rbind]. do 2 f_equal. apply list_fmap_ext. intros i t _.
    unfold stream_record, token_copy. cbn. by rewrite !Z.add_0_r.
  - split; auto; cbn; try lia; eapply allocated_stream_side; eauto; try nia.
Qed.

Lemma ragged_plan_p_gt_d p d vr ktr ptp n pk gn :
  env_bf162fp8_conversion = false ->
  slice_layout p d ptp (engine_tp_size d) n pk gn -> num_gdn_layers p = 0 ->
  build_transfer_plan RAGGED_FLASH_CACHE_SHAPE p d vr ptp ktr
  = Ok (mkTransferPlan
      [mkCacheTransferSpec
         [Attn (attn_component
            (kv_inner_spec (n * kv_pts pk) (n * kv_dts pk gn) (kv_pts pk) (kv_dts pk gn)
               pk (kv_dk pk gn) pk (worker_tp_rank p mod gn)) n n false)] true] PGTD).
Proof.
  intros Henv [Hn Hpk [Hpb Hpt ? ?] [Hdb Hdt ? ?] Htp Hgn Hrank] Hg.
  unfold build_transfer_plan. layout_eval. rewrite Hg.
  change (0 <? 0) with false. change (0 <? 1) with true. cbv iota.
  destruct (Z.eqb_spec ptp (engine_tp_size d)); [lia|].
  destruct (Z.ltb_spec (engine_tp_size d) ptp); [|lia].
  assert (Hgn2 : 2 <= gn) by nia.
  assert (0 < kv_pts pk /\ kv_pts pk < kv_dts pk gn) as [? ?] by (unfold kv_pts, kv_dts; nia).
  rewrite Hpt, Hdt. rewrite bool_decide_eq_false_2 by (intros [= E]; lia). cbn [andb].
  unfold attn_group. cbn [use_valid_ranks]. rewrite udiv_ok by lia. cbn [rbind].
  assert (ptp / engine_tp_size d = gn) as -> by (rewrite Hgn; apply Z.div_mul; lia).
  rewrite umod_ok by lia. cbn [rbind negb andb]. rewrite for_tensors_one. unfold pgtd_spec.
  rewrite Hpb, Hpt, Hdb, Hdt, Hg. repeat (rewrite (vec_idx_Some [_] 0 _) by done; cbn [rbind]).
  change (0 <? 0) with false. cbv iota.
  unfold build_attn_spec_from_layout. rewrite !udiv_ok by lia. cbn [rbind].
  rewrite !Z.div_mul, (u32_small n) by lia.
  destruct (Z.eqb_spec (kv_pts pk) (kv_dts pk gn)); [lia|]. rewrite !andb_false_r. cbn [andb].
  rewrite Henv, !andb_false_r.
  assert (kv_pts pk / 2 = pk) as -> by (unfold kv_pts; by rewrite Z.div_mul).
  assert (kv_dts pk gn / 2 = kv_dk pk gn) as ->.
  { unfold kv_dts, kv_dk. replace (pk * 2 * gn) with (pk * gn * 2) by lia. by rewrite Z.div_mul. }
  rewrite cassert_true by done. reflexivity.
Qed.

Lemma ragged_plan_records_p_gt_d p d vr ktr ptp n pk gn task pb db :
  env_bf162fp8_conversion = false ->
  slice_layout p d ptp (engine_tp_size d) n pk gn ->
  span_allocated p d n (seen_tokens task) (new_tokens task) pb db ->
  src_blocks task !! 0%nat = Some pb -> dst_blocks task !! 0%nat = Some db ->
  num_gdn_layers p = 0 ->
  plan_records RAGGED_FLASH_CACHE_SHAPE p d vr ptp ktr task
  = Ok [kv_records pk gn n (worker_tp_rank p mod gn) pb db false
          (seen_tokens task) (new_tokens task)].
Proof.
  intros Henv Hsl Hsa Hs Hd Hg. unfold plan_records.
  rewrite (ragged_plan_p_gt_d _ _ _ _ _ n pk gn) by done. cbn [rbind]. rewrite generate_single.
  rewrite (generate_unaligned _ _ _ _ pb db) by done.
  destruct Hsl as [Hn Hpk [Hpb Hpt ? ?] [Hdb Hdt ? ?] Htp Hgn Hrank]. destruct Hsa.
  assert (Hgn2 : 2 <= gn) by nia. set (off := worker_tp_rank p mod gn).
  assert (Hoff : 0 <= off < gn) by (apply Z.mod_pos_bound; lia).
  assert (Hslot : 0 <= off * pk /\ off * pk + pk <= kv_dk pk gn) by (unfold kv_dk; nia).
  assert (Hd2 : kv_dts pk gn = kv_dk pk gn + kv_dk pk gn) by (unfold kv_dts, kv_dk; lia).
  assert (0 < kv_dk pk gn /\ 0 < kv_dts pk gn) as [? ?] by lia.
  assert (Hdcap : kv_dts pk gn <= n * kv_dts pk gn) by nia.
  assert (Hdcap' : n * kv_dts pk gn <= n * kv_dts pk gn * layer_num_blocks d) by nia.
  erewrite generate_attn_kv; [|done| | |done]; cbn [rbind k_stream v_stream kv_inner_spec].
  - unfold kv_records. do 2 f_equal. f_equal; apply list_fmap_ext; intros i t _;
      unfold stream_record, k_record, v_record, gt_record, sided; cbn;
      rewrite !u64_small by lia; f_equal; lia.
  - split; auto; cbn; try lia; eapply allocated_stream_side; eauto;
      rewrite ?u64_small by lia; unfold kv_pts in *; nia.
  - split; auto; cbn; try lia; eapply allocated_stream_side; eauto;
      rewrite ?u64_small by lia; unfold kv_pts in *; nia.
Qed.
End RaggedPlan.

(** ** FLASH *)
Section FlashPlan.
Context `{Env}.

(** The two planes of a FLASH specification, as K records and their shifted copies. *)
Lemma flash_generate kind p d n pk dk off task pb db :
  span_allocated p d n (seen_tokens task) (new_tokens task) pb db ->
  0 < n < W32 -> 0 < pk -> 0 <= off * pk -> off * pk + pk <= dk ->
  0 < layer_num_blocks p -> 0 < layer_num_blocks d ->
  2 * (n * pk * layer_num_blocks p) < W64 -> 2 * (n * dk * layer_num_blocks d) < W64 ->
  src_blocks task !! 0%nat = Some pb -> dst_blocks task !! 0%nat = Some db ->
  let k := gt_record pk pk dk n off pb db false <$> seqZ (seen_tokens task) (new_tokens task) in
  generate_all_ipc_blocks (mkTransferPlan [mkCacheTransferSpec [Attn (attn_component
    (kv_outermost_spec (n * pk) (n * dk) pk dk pk off (layer_num_blocks p) (layer_num_blocks d))
    n n false)] true] kind) task []
  = Ok [k ++ (shift_block (n * pk * layer_num_blocks p) (n * dk * layer_num_blocks d) <$> k)].
Proof.
  intros [] Hn Hpk Hoff Hslot Hnp Hnd Hcp Hcd Hs Hd k. rewrite generate_single.
  rewrite (generate_unaligned _ _ _ _ pb db) by done.
  assert (pk <= n * pk /\ dk <= n * dk) as [? ?] by nia.
  assert (n * pk <= n * pk * layer_num_blocks p /\ n * dk <= n * dk * layer_num_blocks d)
    as [? ?] by nia.
  erewrite generate_attn_kv; [|done| | |done]; cbn [rbind k_stream v_stream kv_outermost_spec].
  - unfold k. rewrite <- list_fmap_compose. do 2 f_equal. f_equal; apply list_fmap_ext; intros i t _;
      unfold stream_record, compose, shift_block, gt_record, sided; cbn;
      rewrite !u64_small by lia; f_equal; lia.
  - split; auto; cbn; try lia; eapply allocated_stream_side; eauto;
      rewrite ?u64_small by lia; try lia; nia.
  - split; auto; cbn; try lia; eapply allocated_stream_side; eauto;
      rewrite ?u64_small by lia; try lia; nia.
Qed.

(** What both builders compute for this layout. *)
Lemma flash_attn_spec n pk dk off nbp nbd hn :
  env_bf162fp8_conversion = false -> 0 < n < W32 -> 0 < pk -> 0 < dk ->
  n * (2 * pk) < W64 -> n * (2 * dk) < W64 ->
  forall layout, get_attn_layout FLASH_CACHE_SHAPE = Ok layout ->
  build_attn_spec_from_layout layout (n * (2 * pk)) (2 * pk) (n * (2 * dk)) (2 * dk) off nbp nbd hn
  = Ok (attn_component (kv_outermost_spec (n * pk) (n * dk) pk dk pk off nbp nbd) n n false).
Proof.
  intros Henv Hn Hpk Hdk Hp Hd layout [= <-]. unfold build_attn_spec_from_layout.
  rewrite !udiv_ok by lia. cbn [rbind]. rewrite !Z.div_mul, (u32_small n) by lia.
  rewrite !(Z.mul_comm 2), !Z.div_mul by lia. rewrite !(u64_small (n * _)) by nia.
  rewrite Henv, !andb_false_r. cbn [block_aligned_peqd].
  match goal with |- context [is_kv_outermost ?l] => change (is_kv_outermost l) with true end.
  reflexivity.
Qed.

Lemma flash_plan_p_eq_d src dst vr ktr n kt :
  env_bf162fp8_conversion = false -> equal_layout src dst n (2 * kt) -> num_gdn_layers src = 0 ->
  build_transfer_plan FLASH_CACHE_SHAPE src dst vr (engine_tp_size dst) ktr
  = Ok (mkTransferPlan [mkCacheTransferSpec [Attn (attn_component
      (kv_outermost_spec (n * kt) (n * kt) kt kt kt 0 (layer_num_blocks src) (layer_num_blocks dst))
      n n false)] true] PEQD).
Proof.
  intros Henv [] Hg. unfold build_transfer_plan. layout_eval. rewrite Hg.
  change (0 <? 0) with false. change (0 <? 1) with true. cbv iota.
  rewrite Z.eqb_refl, el_src_ts, el_dst_ts, el_src_bs, el_dst_bs.
  rewrite !cassert_true by (by apply bool_decide_eq_true_2). cbn [rbind].
  rewrite for_tensors_one. unfold peqd_spec.
  erewrite fullattn_of_single by eauto. rewrite (flash_attn_spec n kt kt) by (done || nia).
  cbn [rbind]. rewrite Hg. reflexivity.
Qed.

Lemma flash_plan_p_gt_d p d vr ks kr n pk gn :
  env_bf162fp8_conversion = false -> flash_slice p d vr ks kr n pk gn ->
  ks / engine_tp_size d = gn -> num_gdn_layers p = 0 ->
  build_transfer_plan FLASH_CACHE_SHAPE p d vr ks kr
  = Ok (mkTransferPlan [mkCacheTransferSpec [Attn (attn_component
      (kv_outermost_spec (n * pk) (n * (pk * gn)) pk (pk * gn) pk (kr mod gn)
         (layer_num_blocks p) (layer_num_blocks d)) n n false)] true] PGTD).
Proof.
  intros Henv [Hn Hpk [Hpb Hpt ? ?] [Hdb Hdt ? ?] Hsend Htp [Hgn Hcount] Hrank] Hks Hg.
  replace (2 * pk * gn) with (2 * (pk * gn)) in * by lia.
  unfold build_transfer_plan. layout_eval. rewrite Hg.
  change (0 <? 0) with false. change (0 <? 1) with true. cbv iota.
  destruct (Z.eqb_spec ks (engine_tp_size d)); [lia|].
  destruct (Z.ltb_spec (engine_tp_size d) ks); [|lia]. cbn [andb].
  unfold attn_group. cbn [use_valid_ranks valid_ranks_affects_group_n]. rewrite Hsend. cbn [rbind].
  rewrite udiv_ok by lia. cbn [rbind]. rewrite Hks, umod_ok by lia. cbn [rbind negb andb].
  rewrite for_tensors_one. unfold pgtd_spec. rewrite Hpb, Hpt, Hdb, Hdt, Hg.
  repeat (rewrite (vec_idx_Some [_] 0 _) by done; cbn [rbind]).
  assert (0 < pk * gn) by nia.
  rewrite (flash_attn_spec n pk (pk * gn)) by (done || nia). reflexivity.
Qed.
End FlashPlan.

(** ** Block-aligned components *)
Section AlignedPlan.
Context `{Env} (bs n : Z) (sblks dblks : list Z) (b : IpcBlockBounds).

Lemma block_aligned_round_total comp last w l p out :
  aligned_ready bs n sblks dblks b -> src_block_stride comp = bs -> dst_block_stride comp = bs ->
  0 <= w -> 0 <= p < l -> w + l < W32 -> w + l <= vsize sblks * n ->
  let c := Z.min (n - (w + p) mod n) (l - p) in
  block_aligned_round comp n sblks dblks w l last (p, out)
  = Ok (p + c, out ++ (if (c =? n - (w + p) mod n) || last
                       then [aligned_block bs sblks dblks ((w + p) / n)] else [])).
Proof.
  intros Hr Hss Hds Hw Hp Hhi Hcap c. pose proof Hr as [].
  pose proof (Z.mod_pos_bound (w + p) n ltac:(lia)). pose proof (Z.div_mod (w + p) n ltac:(lia)).
  assert (Hw0 : 0 <= (w + p) / n) by (apply Z.div_pos; lia).
  assert ((w + p) / n < vsize sblks) by (apply Z.div_lt_upper_bound; lia).
  destruct (aligned_lookup bs n sblks dblks b ((w + p) / n) Hr) as (s & d & Hs & Hd); [lia|].
  pose proof ar_wf as ([? ?] & [? ?] & _).
  pose proof (Forall_lookup_1 _ _ _ _ ar_src Hs) as [? ?].
  pose proof (Forall_lookup_1 _ _ _ _ ar_dst Hd) as [? ?].
  unfold block_aligned_round. rewrite Hss, Hds, (u32_small (w + p)) by lia.
  repeat eval_step. rewrite !(u32_small (_ - _)) by lia. fold c.
  change (plan_aligned_length bs n) with (aligned_length bs n).
  rewrite !(u64_small (_ * bs)) by nia. unfold aligned_block.
  rewrite (list_lookup_total_correct _ _ _ Hs), (list_lookup_total_correct _ _ _ Hd).
  destruct (Z.eqb_spec c (n - (w + p) mod n)) as [Hc|Hc]; cbn [orb].
  - rewrite Hc, aligned_length_block_end by lia. cbn [rbind].
    rewrite (proj2 (Z.ltb_lt 0 bs)) by done. rewrite u32_small by lia. done.
  - rewrite aligned_length_partial by lia. cbn [rbind]. rewrite u32_small by lia.
    destruct last; [by rewrite (proj2 (Z.ltb_lt 0 bs))|]. cbn. by rewrite app_nil_r.
Qed.

(** The component sends the blocks completed by the step and, with the last token, the
    partial one. *)
Lemma generate_block_aligned_total attn last w l out :
  aligned_ready bs n sblks dblks b -> src_block_stride (spec attn) = bs ->
  dst_block_stride (spec attn) = bs -> src_ntpb attn = n -> dst_ntpb attn = n ->
  0 <= w -> 0 <= l -> w + l < W32 -> w + l <= vsize sblks * n ->
  generate_block_aligned attn sblks dblks w l last out
  = Ok (out ++ aligned_span bs n sblks dblks last w l).
Proof.
  intros Hr Hss Hds Hsn Hdn Hw Hl Hhi Hcap. pose proof Hr as [].
  unfold generate_block_aligned. rewrite Hsn, Hdn, cassert_true by lia. cbn [rbind].
  destruct (pos_loop_total (fun x : list IpcBlock => x)
    (fun p => aligned_span bs n sblks dblks last (w + p) (l - p)) (fun _ => True)
    (fun p => 0 <= p) l (block_aligned_round (spec attn) n sblks dblks w l last))
    with (k := Z.to_nat l) (p := 0) (out := out) as (new & -> & -> & _); auto; try lia.
  - rewrite Z.sub_diag. done.
  - intros p o Hp Hlt. eexists _, _.
    split; [|split; [by apply (block_aligned_round_total _ last w l p o); auto|]].
    + pose proof (Z.mod_pos_bound (w + p) n ltac:(lia)). lia.
    + split; [|split; [by apply Forall_true|pose proof (Z.mod_pos_bound (w + p) n ltac:(lia)); lia]].
      rewrite (aligned_span_step bs n sblks dblks last (w + p) (l - p)) by lia.
      do 2 f_equal; lia.
  - cbn [rbind]. by rewrite Z.add_0_r, Z.sub_0_r.
Qed.
End AlignedPlan.

(** ** Properties *)

(** C32: RAGGED_FLASH without state groups and fp8 conversion: for equal TP the planner's
    records stand for the same byte copies, in the same order, as those of the parse
    function, and for P>D it emits exactly the same list of records, for every rank, block
    size and token range. *)
Theorem ragged_plan_matches_parse `{Env} src dst vr ktr task sblks dblks :
  env_bf162fp8_conversion = false -> num_gdn_layers src = 0 ->
  src_blocks task !! 0%nat = Some sblks -> dst_blocks task !! 0%nat = Some dblks ->
  (forall n ts, worker_tp_rank src = worker_tp_rank dst -> equal_layout src dst n ts ->
     task_allocated src dst n task sblks dblks ->
     exists recs recs',
       parse_block_send_p_eq_d src dst vr (engine_tp_size dst) (worker_tp_rank src) task []
         = Ok [recs] /\
       plan_records RAGGED_FLASH_CACHE_SHAPE src dst vr (engine_tp_size dst) ktr task
         = Ok [recs'] /\
       bytes_of recs' = bytes_of recs) /\
  (forall ptp n pk gn, slice_layout src dst ptp (engine_tp_size dst) n pk gn ->
     span_allocated src dst n (seen_tokens task) (new_tokens task) sblks dblks ->
     exists recs,
       parse_block_send_p_gt_d src dst vr ptp ktr task [] = Ok [recs] /\
       plan_records RAGGED_FLASH_CACHE_SHAPE src dst vr ptp ktr task = Ok [recs]).
Proof.
  intros Henv Hg Hs Hd. split.
  - intros n ts Hrank Hel Hta.
    destruct (parse_block_send_p_eq_d_total src dst vr n ts task sblks dblks)
      as (recs & Hok & Hb); [done..|].
    eexists _, _. split; [exact Hok|].
    split; [by apply ragged_plan_records_p_eq_d|by symmetry].
  - intros ptp n pk gn Hsl Hsa. eexists.
    split; [by apply parse_block_send_p_gt_d_total|by apply ragged_plan_records_p_gt_d].
Qed.

(** FLASH without state groups and fp8 conversion: for equal TP the planner's records stand
    for the same byte copies as those of the parse function, and for P>D, when the effective
    TP size is the number of valid ranks up to rounding, it emits exactly the same list of
    records. *)
Theorem flash_plan_matches_parse `{Env} src dst vr ktr task sblks dblks :
  env_bf162fp8_conversion = false -> num_gdn_layers src = 0 ->
  src_blocks task !! 0%nat = Some sblks -> dst_blocks task !! 0%nat = Some dblks ->
  (forall n kt, worker_tp_rank src = worker_tp_rank dst -> equal_layout src dst n (2 * kt) ->
     task_allocated src dst n task sblks dblks ->
     exists recs recs',
       vllm_parse_block_send_p_eq_d src dst vr (engine_tp_size dst) ktr task [] = Ok [recs] /\
       plan_records FLASH_CACHE_SHAPE src dst vr (engine_tp_size dst) ktr task = Ok [recs'] /\
       bytes_of recs' = bytes_of recs) /\
  (forall ks n pk gn, flash_slice src dst vr ks ktr n pk gn -> ks / engine_tp_size dst = gn ->
     span_allocated src dst n (seen_tokens task) (new_tokens task) sblks dblks ->
     exists recs,
       vllm_parse_block_send_p_gt_d src dst vr ks ktr task [] = Ok [recs] /\
       plan_records FLASH_CACHE_SHAPE src dst vr ks ktr task = Ok [recs]).
Proof.
  intros Henv Hg Hs Hd. split.
  - intros n kt Hrank Hel Hta. pose proof Hel as []. pose proof Hta as [].
    destruct (vllm_parse_block_send_p_eq_d_total src dst vr ktr n kt task sblks dblks)
      as (recs & Hok & Hb); [done..|].
    eexists _, _. split; [exact Hok|]. unfold plan_records.
    rewrite (flash_plan_p_eq_d _ _ _ _ n kt) by done. cbn [rbind].
    erewrite flash_generate; [|by split|..]; eauto; try nia. split; [done|].
    rewrite !bytes_of_app, !bytes_of_shift, Hb. f_equal.
    + f_equal. apply list_fmap_ext. intros i t _. unfold gt_record, sided, token_copy. f_equal; lia.
    + do 2 f_equal. apply list_fmap_ext. intros i t _. unfold gt_record, sided, token_copy. f_equal; lia.
  - intros ks n pk gn Hfs Hks Hsa. eexists. split.
    + by apply (vllm_parse_block_send_p_gt_d_total _ _ _ _ _ n pk gn).
    + unfold plan_records. rewrite (flash_plan_p_gt_d _ _ _ _ _ n pk gn) by done. cbn [rbind].
      destruct Hfs as [Hn Hpk [? ? ? ?] [? ? ? ?] _ _ [Hgn _] _].
      assert (0 <= ktr mod gn < gn) by (apply Z.mod_pos_bound; lia).
      rewrite (flash_generate _ src dst n pk (pk * gn) (ktr mod gn) task sblks dblks)
        by (done || nia). reflexivity.
Qed.

(** A worker of a model without state layers, for examples. *)
Definition without_gdn (w : WorkerInfo) (heads : Z) : WorkerInfo := {|
  inst_id := inst_id w; worker_id := worker_id w; engine_tp_size := engine_tp_size w;
  worker_tp_rank := worker_tp_rank w; block_sizes := block_sizes w; token_sizes := token_sizes w;
  layer_num_blocks := layer_num_blocks w; num_layers := num_layers w;
  transfer_protocols := transfer_protocols w; attn_kernel_blk_ntpb := attn_kernel_blk_ntpb w;
  indexer_blk_ntpb := indexer_blk_ntpb w; attn_pack_size := attn_pack_size w; addr := addr w;
  num_kv_heads := heads; num_gdn_layers := 0;
  hybrid_indexer_token_size := hybrid_indexer_token_size w;
  gdn_conv_elem_size := gdn_conv_elem_size w; gdn_ssm_elem_size := gdn_ssm_elem_size w;
  conv_state_shape := conv_state_shape w; ssm_state_shape := ssm_state_shape w;
  gdn_conv_channel_dims := gdn_conv_channel_dims w; num_ple_layers := num_ple_layers w;
  ple_block_group := ple_block_group w; ple_conv_elem_size := ple_conv_elem_size w;
  ple_conv_state_shape := ple_conv_state_shape w;
  ple_conv_channel_dims := ple_conv_channel_dims w;
  kda_conv_dim_first := kda_conv_dim_first w;
  hybrid_attn_token_size := hybrid_attn_token_size w; kda_page_stride := kda_page_stride w |}.

Lemma ragged_plan_matches_parse_witness :
  exists recs,
    parse_block_send_p_gt_d (H := debug_env) (without_gdn (one_tensor_worker 4 3 8 4 8) 4)
      (one_tensor_worker 2 1 16 8 8) 15 4 0 (example_task [[3; 5]] [[7; 2]] 1 3 false) []
      = Ok [recs] /\
    plan_records (H := debug_env) RAGGED_FLASH_CACHE_SHAPE
      (without_gdn (one_tensor_worker 4 3 8 4 8) 4) (one_tensor_worker 2 1 16 8 8) 15 4 0
      (example_task [[3; 5]] [[7; 2]] 1 3 false) = Ok [recs].
Proof.
  apply (proj2 (ragged_plan_matches_parse (H := debug_env)
    (without_gdn (one_tensor_worker 4 3 8 4 8) 4) (one_tensor_worker 2 1 16 8 8) 15 0
    (example_task [[3; 5]] [[7; 2]] 1 3 false) [3; 5] [7; 2] eq_refl eq_refl eq_refl eq_refl)
    4 2 2 2).
  - by split.
  - split; try done; apply allocated_b_sound; vm_compute; reflexivity.
Defined.

Lemma flash_plan_matches_parse_witness :
  exists recs,
    vllm_parse_block_send_p_gt_d (H := debug_env)
      (without_gdn (one_tensor_worker 4 3 16 8 8) 4) (one_tensor_worker 2 1 32 16 8) 15 4 3
      (example_task [[3; 5]] [[7; 2]] 1 3 false) [] = Ok [recs] /\
    plan_records (H := debug_env) FLASH_CACHE_SHAPE
      (without_gdn (one_tensor_worker 4 3 16 8 8) 4) (one_tensor_worker 2 1 32 16 8) 15 4 3
      (example_task [[3; 5]] [[7; 2]] 1 3 false) = Ok [recs].
Proof.
  apply (proj2 (flash_plan_matches_parse (H := debug_env)
    (without_gdn (one_tensor_worker 4 3 16 8 8) 4) (one_tensor_worker 2 1 32 16 8) 15 3
    (example_task [[3; 5]] [[7; 2]] 1 3 false) [3; 5] [7; 2] eq_refl eq_refl eq_refl eq_refl)
    4 2 4 2).
  - split; try done; vm_compute; done.
  - reflexivity.
  - split; try done; apply allocated_b_sound; vm_compute; reflexivity.
Defined.

(** A block-aligned component of a plan sends what the block-aligned parse function sends,
    except that with the last token the parse function goes on to send the blocks after the
    one that holds the last token, which the planner leaves out. *)
Theorem aligned_plan_lacks_trailing_blocks `{Env} bs n sblks dblks b attn task :
  aligned_ready bs n sblks dblks b -> src_block_stride (spec attn) = bs ->
  dst_block_stride (spec attn) = bs -> src_ntpb attn = n -> dst_ntpb attn = n ->
  0 <= seen_tokens task -> 0 < new_tokens task ->
  seen_tokens task + new_tokens task + n <= W32 ->
  seen_tokens task + new_tokens task <= vsize sblks * n ->
  exists recs,
    generate_block_aligned attn sblks dblks (seen_tokens task) (new_tokens task)
      (reach_last_token task) [] = Ok recs /\
    do_parse_block_aligned_send bs task sblks dblks n b []
    = Ok (recs ++ if reach_last_token task then
            let first := cdiv (seen_tokens task + new_tokens task) n in
            aligned_block bs sblks dblks <$> seqZ first (vsize sblks - first)
          else []).
Proof.
  intros Hr Hss Hds Hsn Hdn Hs Hn Hhi Hcap. pose proof (ar_n _ _ _ _ _ Hr) as Hnn. eexists. split.
  - apply (generate_block_aligned_total bs n sblks dblks b); auto; lia.
  - rewrite (do_parse_block_aligned_send_total bs n sblks dblks b) by (auto; lia).
    unfold step_blocks, aligned_span, aligned_stop. rewrite (proj2 (Z.ltb_lt 0 _)) by done.
    destruct (reach_last_token task); [|by rewrite app_nil_r].
    cbn [app]. rewrite <- fmap_app. do 2 f_equal.
    set (e := seen_tokens task + new_tokens task) in *.
    pose proof (aligned_stop_mono n true (seen_tokens task) e ltac:(lia) ltac:(lia)) as Hle.
    unfold aligned_stop in Hle. assert (cdiv e n <= vsize sblks).
    { apply Z.lt_succ_r. unfold cdiv. apply Z.div_lt_upper_bound; lia. }
    replace (seqZ (cdiv e n)) with (seqZ (seen_tokens task / n + (cdiv e n - seen_tokens task / n)))
      by (f_equal; lia).
    rewrite <- seqZ_app by lia. f_equal. lia.
Qed.

Lemma aligned_plan_lacks_trailing_blocks_witness :
  exists recs,
    generate_block_aligned (H := debug_env)
      (attn_component (plain_attn 8 8 4 4 4) 2 2 true) [3; 5; 6] [7; 2; 4] 1 2 true [] = Ok recs /\
    do_parse_block_aligned_send (H := debug_env) 8
      (example_task [[3; 5; 6]] [[7; 2; 4]] 1 2 true) [3; 5; 6] [7; 2; 4] 2
      (mkBounds 64 64 1 0) [] = Ok (recs ++ [mkIpcBlock 48 32 8]).
Proof.
  apply (aligned_plan_lacks_trailing_blocks (H := debug_env) 8 2 [3; 5; 6] [7; 2; 4]
    (mkBounds 64 64 1 0) (attn_component (plain_attn 8 8 4 4 4) 2 2 true)
    (example_task [[3; 5; 6]] [[7; 2; 4]] 1 2 true)); try done.
  split; try done; try (repeat constructor; cbn; unfold block_fits, W64; cbn; lia).
Defined.

(** FLASHINFER, equal TP, two KV heads: the parse function copies the V rows of both heads,
    while the plan, whose V stream has head stride 0, copies the V rows of head 0 twice and
    those of head 1 not at all. *)
Theorem flashinfer_plan_drops_v_heads :
  let w := without_gdn (one_tensor_worker 1 0 16 8 4) 2 in
  let task := example_task [[1]] [[2]] 0 2 true in
  exists recs recs',
    vllm_parse_flashinfer_block_send_p_eq_d (H := debug_env) w w 1 1 0 task [] = Ok [recs] /\
    plan_records (H := debug_env) FLASHINFER_CACHE_SHAPE w w 1 1 0 task = Ok [recs'] /\
    dst_bytes recs ≡ₚ seqZ 32 16 /\
    NoDup (dst_bytes recs) /\
    (forall a, 44 <= a < 48 -> a ∉ dst_bytes recs') /\
    ~ NoDup (dst_bytes recs').
Proof.
  eexists _, _. split; [reflexivity|]. split; [reflexivity|].
  split; [apply (bool_decide_unpack _); vm_compute; reflexivity|].
  split; [apply (bool_decide_unpack _); vm_compute; reflexivity|]. split.
  - intros a Ha Hin.
    assert (Hf : Forall (fun x => ~ 44 <= x < 48)
      (dst_bytes (match plan_records (H := debug_env) FLASHINFER_CACHE_SHAPE
        (without_gdn (one_tensor_worker 1 0 16 8 4) 2) (without_gdn (one_tensor_worker 1 0 16 8 4) 2)
        1 1 0 (example_task [[1]] [[2]] 0 2 true) with Ok [r] => r | _ => [] end)))
      by (apply (bool_decide_unpack _); vm_compute; reflexivity).
    rewrite Forall_forall in Hf. by apply (Hf a).
  - apply (bool_decide_unpack _). vm_compute. reflexivity.
Qed.
