(* ===== verification/StatePages.v ===== *)
(** Functional correctness of the recurrent-state transfers between different TP widths:
    GDN pages ([src/parse_block_qwen3_next.cpp]) and KDA pages
    ([src/parse_block_kda.cpp]).

    A page is [rows] conv rows followed by one SSM/recurrent state.  Every conv row is a
    sequence of segments (the q, k and v channels); the wide side stores, per segment, the
    slices of the [gn] narrow ranks side by side. *)

From S2P Require Import Prelude Common CopySpec ParseCommon TokenCopy ParseQwen3Next ParseKda.

(** ** Reference layout *)

Definition total (steps : list Z) : Z := foldr Z.add 0 steps.

(** The segments of a row with their offsets in the narrow row. *)
Fixpoint segments (inner : Z) (steps : list Z) : list (Z * Z) :=
  match steps with
  | [] => []
  | step :: rest => (inner, step) :: segments (inner + step) rest
  end.

(** Slice [go] of a row: narrow row at [bn], wide row at [bw]. *)
Definition row_records (swap : bool) (bn bw gn go : Z) (steps : list Z) : list IpcBlock :=
  (fun sg => sided swap (bn + sg.1) (bw + gn * sg.1 + go * sg.2) sg.2) <$> segments 0 steps.

(** Slice [go] of a page: its rows, then its recurrent state of [ssm] bytes. *)
Definition page_records (swap : bool) (pn pw gn go rows : Z) (steps : list Z) (ssm : Z)
    : list IpcBlock :=
  flat_map (fun r => row_records swap (pn + r * total steps) (pw + r * (gn * total steps))
                       gn go steps) (seqZ 0 rows)
  ++ [sided swap (pn + rows * total steps) (pw + gn * (rows * total steps) + go * ssm) ssm].

Definition page_size (rows : Z) (steps : list Z) (ssm : Z) : Z := rows * total steps + ssm.

(** Addresses of the narrow and of the wide side. *)
Definition narrow_bytes (swap : bool) (recs : list IpcBlock) : list Z :=
  if swap then dst_bytes recs else src_bytes recs.
Definition wide_bytes (swap : bool) (recs : list IpcBlock) : list Z :=
  if swap then src_bytes recs else dst_bytes recs.

Lemma narrow_bytes_app swap u v :
  narrow_bytes swap (u ++ v) = narrow_bytes swap u ++ narrow_bytes swap v.
Proof. destruct swap; [apply dst_bytes_app|apply src_bytes_app]. Qed.

Lemma wide_bytes_app swap u v : wide_bytes swap (u ++ v) = wide_bytes swap u ++ wide_bytes swap v.
Proof. destruct swap; [apply src_bytes_app|apply dst_bytes_app]. Qed.

Lemma narrow_bytes_flat_map {A} swap (f : A -> list IpcBlock) l :
  narrow_bytes swap (flat_map f l) = flat_map (fun x => narrow_bytes swap (f x)) l.
Proof.
  induction l as [|x l IH]; [by destruct swap|].
  cbn [flat_map]. by rewrite narrow_bytes_app, IH.
Qed.

Lemma wide_bytes_flat_map {A} swap (f : A -> list IpcBlock) l :
  wide_bytes swap (flat_map f l) = flat_map (fun x => wide_bytes swap (f x)) l.
Proof.
  induction l as [|x l IH]; [by destruct swap|].
  cbn [flat_map]. by rewrite wide_bytes_app, IH.
Qed.

Lemma narrow_bytes_sided swap p d len : narrow_bytes swap [sided swap p d len] = seqZ p len.
Proof. destruct swap; [apply dst_bytes_singleton|apply src_bytes_singleton]. Qed.

Lemma wide_bytes_sided swap p d len : wide_bytes swap [sided swap p d len] = seqZ d len.
Proof. destruct swap; [apply src_bytes_singleton|apply dst_bytes_singleton]. Qed.

Lemma total_nonneg steps : Forall (fun s => 0 < s) steps -> 0 <= total steps.
Proof. induction 1; simpl; lia. Qed.

(** A slice reads or writes its narrow row completely, in order. *)
Lemma narrow_row swap bn bw gn go steps :
  Forall (fun s => 0 < s) steps ->
  narrow_bytes swap (row_records swap bn bw gn go steps) = seqZ bn (total steps).
Proof.
  intros Hs. unfold row_records.
  enough (H : forall inner, narrow_bytes swap ((fun sg => sided swap (bn + sg.1)
      (bw + gn * sg.1 + go * sg.2) sg.2) <$> segments inner steps) = seqZ (bn + inner) (total steps))
    by (rewrite H; f_equal; lia).
  induction Hs as [|s rest Hs Hrest IH]; intros inner; [by destruct swap|].
  cbn [segments fmap list_fmap].
  match goal with |- narrow_bytes swap (?x :: ?l) = _ => change (x :: l) with ([x] ++ l) end.
  rewrite narrow_bytes_app, narrow_bytes_sided.
  rewrite IH. simpl. pose proof (total_nonneg _ Hrest).
  rewrite seqZ_app by lia. do 2 f_equal; lia.
Qed.

(** The slices of all ranks use the wide row completely, each byte once. *)
Lemma wide_row swap (bn : Z -> Z) bw gn steps :
  Forall (fun s => 0 < s) steps -> 0 <= gn ->
  flat_map (fun go => wide_bytes swap (row_records swap (bn go) bw gn go steps)) (seqZ 0 gn)
  ≡ₚ seqZ bw (gn * total steps).
Proof.
  intros Hs Hgn. unfold row_records.
  enough (H : forall inner, 0 <= inner -> flat_map (fun go => wide_bytes swap ((fun sg =>
      sided swap (bn go + sg.1) (bw + gn * sg.1 + go * sg.2) sg.2) <$> segments inner steps))
      (seqZ 0 gn) ≡ₚ seqZ (bw + gn * inner) (gn * total steps))
    by (rewrite H by lia; by rewrite Z.mul_0_r, Z.add_0_r).
  induction Hs as [|s rest Hs Hrest IH]; intros inner Hi.
  - simpl. rewrite Z.mul_0_r. erewrite flat_map_ext_elem; [by rewrite flat_map_nil|].
    intros; by destruct swap.
  - cbn [segments fmap list_fmap total foldr].
    erewrite flat_map_ext_elem.
    2: { intros go _. match goal with |- wide_bytes swap (?x :: ?l) = _ =>
           change (x :: l) with ([x] ++ l) end.
         rewrite wide_bytes_app, wide_bytes_sided. reflexivity. }
    rewrite flat_map_app_perm. simpl. rewrite IH by lia.
    rewrite (seqZ_tile (bw + gn * inner) s 0 gn) by lia.
    pose proof (total_nonneg _ Hrest). unfold total in *.
    rewrite (Z.mul_add_distr_l gn s), seqZ_app by nia.
    apply reflexive_eq. do 2 f_equal; lia.
Qed.

Lemma narrow_page swap pn pw gn go rows steps ssm :
  Forall (fun s => 0 < s) steps -> 0 <= rows -> 0 <= ssm ->
  narrow_bytes swap (page_records swap pn pw gn go rows steps ssm)
  = seqZ pn (page_size rows steps ssm).
Proof.
  intros Hs Hr Hssm. pose proof (total_nonneg _ Hs). unfold page_records.
  rewrite narrow_bytes_app, narrow_bytes_flat_map, narrow_bytes_sided.
  erewrite flat_map_ext_elem by (intros; by apply narrow_row).
  rewrite seqZ_tile by lia. rewrite Z.mul_0_l, Z.add_0_r, <- seqZ_app by nia. done.
Qed.

Lemma wide_page swap (pn : Z -> Z) pw gn rows steps ssm :
  Forall (fun s => 0 < s) steps -> 0 <= gn -> 0 <= rows -> 0 <= ssm ->
  flat_map (fun go => wide_bytes swap (page_records swap (pn go) pw gn go rows steps ssm))
    (seqZ 0 gn)
  ≡ₚ seqZ pw (gn * page_size rows steps ssm).
Proof.
  intros Hs Hgn Hr Hssm. pose proof (total_nonneg _ Hs). unfold page_records.
  erewrite flat_map_ext_elem
    by (intros; rewrite wide_bytes_app, wide_bytes_flat_map, wide_bytes_sided; reflexivity).
  rewrite flat_map_app_perm, (flat_map_swap (fun go r => wide_bytes swap (row_records swap
    (pn go + r * total steps) (pw + r * (gn * total steps)) gn go steps))).
  rewrite (seqZ_tile (pw + gn * (rows * total steps)) ssm 0 gn) by lia.
  assert (E : flat_map (fun r => flat_map (fun go => wide_bytes swap (row_records swap
      (pn go + r * total steps) (pw + r * (gn * total steps)) gn go steps)) (seqZ 0 gn)) (seqZ 0 rows)
    ≡ₚ flat_map (fun r => seqZ (pw + r * (gn * total steps)) (gn * total steps)) (seqZ 0 rows)).
  { induction (seqZ 0 rows) as [|r rs IH]; [done|]. cbn [flat_map]. rewrite IH.
    by rewrite (wide_row swap (fun go => pn go + r * total steps)) by done. }
  rewrite E, seqZ_tile by nia. unfold page_size.
  replace (gn * (rows * total steps + ssm)) with (rows * (gn * total steps) + gn * ssm) by lia.
  rewrite seqZ_app by nia. apply reflexive_eq. do 2 f_equal; lia.
Qed.

(** ** The emitters produce the reference records *)

(** A loop over the channel dimensions that emits one record per segment, with a cursor
    [c inner] that follows the offset in the narrow row. *)
Lemma forM_segments {P} (c : Z -> P) (st : Z -> Z) (f : Z * Z -> IpcBlock)
    (body : Z -> P * list IpcBlock -> res (P * list IpcBlock)) dims inner blocks :
  Forall (fun d => 0 < st d) dims ->
  (forall dim inner' out, dim ∈ dims -> inner <= inner' ->
     inner' + st dim <= inner + total (st <$> dims) ->
     body dim (c inner', out) = Ok (c (inner' + st dim), out ++ [f (inner', st dim)])) ->
  forM dims body (c inner, blocks)
  = Ok (c (inner + total (st <$> dims)), blocks ++ (f <$> segments inner (st <$> dims))).
Proof.
  intros Hpos. revert inner blocks.
  induction Hpos as [|dim rest Hd Hrest IH]; intros inner blocks Hbody.
  - simpl. by rewrite Z.add_0_r, app_nil_r.
  - assert (0 <= total (st <$> rest)) by (apply total_nonneg; by apply Forall_fmap).
    change (total (st <$> dim :: rest)) with (st dim + total (st <$> rest)) in *.
    cbn [forM fmap list_fmap segments].
    rewrite Hbody by (set_solver || lia). cbn [rbind]. rewrite IH.
    + rewrite <- app_assoc. do 3 f_equal. lia.
    + intros d' inner' out Hin Hle Hhi. apply Hbody; [set_solver|lia|lia].
Qed.

(** ** Visiting the state groups *)

(** The paired source and destination blocks of the groups [lo, lo + n). *)
Definition group_pairs (sblks dblks : BlockIds) (lo n : Z) : list (Z * Z) :=
  flat_map (fun i => zip (sblks !!! Z.to_nat (lo + i)) (dblks !!! Z.to_nat (lo + i))) (seqZ 0 n).

(** Every group exists on both sides, with the same number of blocks. *)
Definition groups_match (sblks dblks : BlockIds) (lo n : Z) : Prop :=
  forall i, 0 <= i < n -> exists sg dg,
    sblks !! Z.to_nat (lo + i) = Some sg /\ dblks !! Z.to_nat (lo + i) = Some dg /\
    length sg = length dg.

Lemma for_range_zip (f : Z -> Z -> list IpcBlock)
    (body : Z -> Z -> list IpcBlock -> res (list IpcBlock)) sg dg blocks :
  length sg = length dg ->
  (forall s d out, (s, d) ∈ zip sg dg -> body s d out = Ok (out ++ f s d)) ->
  for_range 0 (vsize sg) (fun j blocks =>
    let* s := vec_at sg j in let* d := vec_at dg j in body s d blocks) blocks
  = Ok (blocks ++ flat_map (fun sd => f sd.1 sd.2) (zip sg dg)).
Proof.
  intros Hlen Hbody.
  rewrite (for_range_collect (fun j => f (sg !!! Z.to_nat j) (dg !!! Z.to_nat j))).
  - do 2 f_equal. rewrite Z.sub_0_r. clear Hbody. unfold vsize.
    assert (H : forall k, flat_map (fun j => f (sg !!! Z.to_nat j) (dg !!! Z.to_nat j))
        (seqZ 0 (Z.of_nat k)) = flat_map (fun sd => f sd.1 sd.2) (take k (zip sg dg))
        \/ (length sg < k)%nat).
    { induction k as [|k [IH|IH]]; [by left| |right; lia].
      destruct (decide (k < length sg)%nat) as [Hk|Hk]; [left|right; lia].
      destruct (lookup_lt_is_Some_2 sg k Hk) as [s Hs].
      destruct (lookup_lt_is_Some_2 dg k ltac:(lia)) as [d Hd].
      rewrite seqZ_S, flat_map_app, IH. rewrite (take_S_r _ _ (s, d)).
      - rewrite flat_map_app. f_equal. simpl. rewrite Z.add_0_l, Nat2Z.id.
        by rewrite (list_lookup_total_correct _ _ _ Hs), (list_lookup_total_correct _ _ _ Hd).
      - by rewrite lookup_zip_with, Hs, Hd. }
    destruct (H (length sg)) as [->|]; [|lia].
    rewrite take_ge; [done|]. rewrite length_zip_with. lia.
  - intros j out Hj. unfold vsize in Hj.
    destruct (lookup_lt_is_Some_2 sg (Z.to_nat j)) as [s Hs]; [lia|].
    destruct (lookup_lt_is_Some_2 dg (Z.to_nat j)) as [d Hd]; [lia|].
    rewrite (vec_at_Some _ j s), (vec_at_Some _ j d) by (auto; lia). cbn [rbind].
    rewrite (list_lookup_total_correct _ _ _ Hs), (list_lookup_total_correct _ _ _ Hd).
    apply Hbody. apply list_elem_of_lookup. exists (Z.to_nat j). by rewrite lookup_zip_with, Hs, Hd.
Qed.

Lemma for_group_blocks_total `{Env} ck sblks dblks lo n (f : Z -> Z -> list IpcBlock) body blocks :
  groups_match sblks dblks lo n -> 0 <= lo -> lo + n < W64 ->
  (forall s d out, (s, d) ∈ group_pairs sblks dblks lo n -> body s d out = Ok (out ++ f s d)) ->
  for_group_blocks ck sblks dblks lo n body blocks
  = Ok (blocks ++ flat_map (fun sd => f sd.1 sd.2) (group_pairs sblks dblks lo n)).
Proof.
  intros Hg Hlo Hhi Hbody. unfold for_group_blocks, group_pairs.
  assert (Hflat : forall l, flat_map (fun sd => f sd.1 sd.2) (flat_map (fun i =>
      zip (sblks !!! Z.to_nat (lo + i)) (dblks !!! Z.to_nat (lo + i))) l)
    = flat_map (fun i => flat_map (fun sd => f sd.1 sd.2)
        (zip (sblks !!! Z.to_nat (lo + i)) (dblks !!! Z.to_nat (lo + i)))) l).
  { induction l as [|x l IH]; [done|]. cbn [flat_map]. by rewrite flat_map_app, IH. }
  rewrite Hflat. clear Hflat.
  rewrite (for_range_collect (fun i => flat_map (fun sd => f sd.1 sd.2)
    (zip (sblks !!! Z.to_nat (lo + i)) (dblks !!! Z.to_nat (lo + i)))));
    [by rewrite Z.sub_0_r|].
  intros i out Hi. destruct (Hg i ltac:(lia)) as (sg & dg & Hs & Hd & Hlen).
  rewrite u64_small by lia.
  rewrite cassert_true by (erewrite !vsize_lookup by (eauto; lia); by destruct ck). cbn [rbind].
  rewrite (vec_at_Some _ _ sg), (vec_at_Some _ _ dg) by (auto; lia). cbn [rbind].
  rewrite cassert_true by (unfold vsize; rewrite Hlen, Z.eqb_refl; by destruct ck). cbn [rbind].
  rewrite (list_lookup_total_correct _ _ _ Hs), (list_lookup_total_correct _ _ _ Hd).
  apply for_range_zip; [done|]. intros s d out' Hin. apply Hbody.
  apply list_elem_of_In, in_flat_map. exists i. rewrite <- !list_elem_of_In, elem_of_seqZ.
  by rewrite (list_lookup_total_correct _ _ _ Hs), (list_lookup_total_correct _ _ _ Hd).
Qed.

Section Emit.
Context `{Env} (b : IpcBlockBounds) (Hb : wf_bounds b) (Hscale : src_length_scale b = 1).
Context (gn go : Z) (Hgo : 0 <= go < gn).

(** Space for a whole page on both sides. *)
Definition page_fits (swap : bool) (pn pw size : Z) : Prop :=
  0 <= pn /\ pn + size <= p_capacity b swap /\ 0 <= pw /\ pw + gn * size <= d_capacity b swap.

(** A record of a slice: its narrow and wide ranges lie in the row. *)
Lemma append_slice swap bn bw inner step size blocks :
  page_fits swap bn bw size -> 0 <= inner -> 0 < step -> inner + step <= size ->
  append_ipc_block_checked blocks b
    (u64 (if swap then bw + gn * inner + go * step else bn + inner))
    (u64 (if swap then bn + inner else bw + gn * inner + go * step)) step
  = Ok (blocks ++ [sided swap (bn + inner) (bw + gn * inner + go * step) step]).
Proof.
  intros (? & ? & ? & ?) Hi Hst Hle. destruct (capacities_range b swap Hb).
  assert (0 <= gn * inner /\ 0 <= go * step /\ gn * inner + go * step + step <= gn * size) as (? & ? & ?).
  { repeat split; [nia|nia|]. assert (go * step + step <= gn * step) by nia. nia. }
  rewrite <- (append_sided_ok b swap) by (auto; lia).
  unfold append_sided. destruct swap; u64_norm; done.
Qed.

(** GDN conv row, P>D; the KDA SD layout uses the same loop. *)
Lemma gdn_conv_row_p_gt_d_total es po do r dims blocks :
  let steps := (fun d => d * es) <$> dims in
  Forall (fun d => 0 < d * es) dims -> total steps < W64 -> 0 <= r ->
  page_fits false (po + r * total steps) (do + r * (gn * total steps)) (total steps) ->
  gdn_conv_row_p_gt_d po do (total steps) (gn * total steps) es gn go dims b r blocks
  = Ok (blocks ++ row_records false (po + r * total steps) (do + r * (gn * total steps))
                    gn go steps).
Proof.
  intros steps Hpos Ht Hr Hfit. unfold gdn_conv_row_p_gt_d.
  rewrite (forM_segments (fun i => i) (fun d => d * es) (fun sg => sided false
    (po + r * total steps + sg.1) (do + r * (gn * total steps) + gn * sg.1 + go * sg.2) sg.2)); auto.
  - cbn [rbind]. rewrite cassert_true by (fold steps; lia). done.
  - intros dim inner out Hin Hlo Hhi. fold steps in Hhi.
    assert (0 < dim * es) by (rewrite Forall_forall in Hpos; by apply Hpos).
    simpl. rewrite (u64_small (dim * es)) by lia.
    rewrite (append_slice false _ _ inner (dim * es) (total steps)) by (auto; lia).
    cbn [rbind]. rewrite u64_small by lia. done.
Qed.

(** GDN conv row, P<D: the source row is the wide one. *)
Lemma gdn_conv_row_p_lt_d_total es po do r dims blocks :
  let st d := d * es / gn in
  let steps := st <$> dims in
  Forall (fun d => 0 < d * es /\ (d * es) mod gn = 0) dims -> gn * total steps < W64 -> 0 <= r ->
  page_fits true (do + r * total steps) (po + r * (gn * total steps)) (total steps) ->
  gdn_conv_row_p_lt_d po do (gn * total steps) (total steps) es gn go dims b r blocks
  = Ok (blocks ++ row_records true (do + r * total steps) (po + r * (gn * total steps))
                    gn go steps).
Proof.
  intros st steps Hpos Ht Hr Hfit. unfold gdn_conv_row_p_lt_d.
  assert (Hst : Forall (fun d => 0 < st d) dims).
  { eapply Forall_impl; [exact Hpos|]. intros d [? Hm]. unfold st.
    apply Z.div_str_pos. apply Z.mod_divide in Hm; [|lia]. split; [lia|].
    apply Z.divide_pos_le in Hm; lia. }
  replace (0, 0, blocks) with (gn * 0, 0, blocks) by (by rewrite Z.mul_0_r).
  rewrite (forM_segments (fun i => (gn * i, i)) st (fun sg => sided true
    (do + r * total steps + sg.1) (po + r * (gn * total steps) + gn * sg.1 + go * sg.2) sg.2)); auto.
  - cbn [rbind]. fold steps. rewrite !cassert_true by lia. done.
  - intros dim inner out Hin Hlo Hhi. fold steps in Hhi.
    rewrite Forall_forall in Hpos, Hst. destruct (Hpos dim Hin) as [Hp Hm]. specialize (Hst dim Hin).
    assert (Hd : dim * es = gn * st dim) by (unfold st; apply Z.div_exact in Hm; lia).
    assert (0 <= gn * inner /\ gn * inner + dim * es <= gn * total steps) as [? ?] by nia.
    simpl. rewrite (u64_small (dim * es)) by lia. unfold divides_b.
    rewrite umod_ok, udiv_ok by lia. cbn [rbind].
    rewrite cassertM_true by (rewrite Hm; done). cbn [rbind]. fold (st dim).
    pose proof (append_slice true _ _ inner (st dim) (total steps) out Hfit) as Happ.
    cbn [app] in Happ. rewrite Happ by lia. cbn [rbind].
    rewrite !u64_small by nia. do 3 f_equal. lia.
Qed.

(** Shape of the state page on the narrow side. *)
Lemma page_row_fits swap pn pw rows steps ssm r :
  Forall (fun s => 0 < s) steps -> 0 <= ssm -> 0 <= r < rows ->
  page_fits swap pn pw (page_size rows steps ssm) ->
  page_fits swap (pn + r * total steps) (pw + r * (gn * total steps)) (total steps).
Proof.
  intros Hs Hssm Hr (? & ? & ? & ?). pose proof (total_nonneg _ Hs).
  unfold page_fits, page_size in *.
  assert (0 <= r * total steps /\ r * total steps + total steps <= rows * total steps) as [? ?] by nia.
  repeat split; try lia.
  - nia.
  - assert (gn * (r * total steps + total steps) <= gn * (rows * total steps)) by nia. nia.
Qed.

(** Conv rows, then the recurrent state. *)
Lemma page_total swap pn pw rows steps ssm
    (row : Z -> list IpcBlock -> res (list IpcBlock)) blocks :
  Forall (fun s => 0 < s) steps -> 0 < ssm -> 0 <= rows ->
  page_fits swap pn pw (page_size rows steps ssm) ->
  (forall r out, 0 <= r < rows -> row r out = Ok (out ++
     row_records swap (pn + r * total steps) (pw + r * (gn * total steps)) gn go steps)) ->
  (let* blocks := for_range 0 rows row blocks in
   append_ipc_block_checked blocks b
     (u64 (if swap then pw + gn * (rows * total steps) + go * ssm else pn + rows * total steps))
     (u64 (if swap then pn + rows * total steps else pw + gn * (rows * total steps) + go * ssm))
     ssm)
  = Ok (blocks ++ page_records swap pn pw gn go rows steps ssm).
Proof.
  intros Hs Hssm Hr Hfit Hrow. pose proof (total_nonneg _ Hs).
  rewrite (for_range_collect (fun r => row_records swap (pn + r * total steps)
    (pw + r * (gn * total steps)) gn go steps)) by auto. cbn [rbind].
  rewrite (append_slice swap pn pw (rows * total steps) ssm (page_size rows steps ssm))
    by (auto; unfold page_size; nia).
  unfold page_records. by rewrite Z.sub_0_r, <- app_assoc.
Qed.
End Emit.

(** ** GDN *)

Section Gdn.
Context `{Env} (src : WorkerInfo) (b : IpcBlockBounds) (gn go rows ssm pbs dbs : Z).
Context (sblks dblks : BlockIds).

(** Shapes as registered by the worker that computes the copies: [rows] conv rows, and the
    sizes [row_size] of a conv row and [ssm_size] of the recurrent state. *)
Record gdn_shape (row_size ssm_size : Z) : Prop := {
  gs_conv1 : conv_state_shape src !! 1%nat = Some rows;
  gs_conv2 : exists ch, conv_state_shape src !! 2%nat = Some ch /\
               ch * gdn_conv_elem_size src = row_size;
  gs_ssm : exists s1 s2 s3, ssm_state_shape src !! 1%nat = Some s1 /\
             ssm_state_shape src !! 2%nat = Some s2 /\ ssm_state_shape src !! 3%nat = Some s3 /\
             s1 * s2 * s3 * gdn_ssm_elem_size src = ssm_size;
  gs_rows : 0 <= rows;
  gs_row_size : 0 <= row_size;
  gs_fits : rows * row_size + ssm_size < W64;
}.

(** The pages of the request lie inside the tensors. *)
Definition pages_fit (swap : bool) (size : Z) : Prop :=
  forall s d, (s, d) ∈ group_pairs sblks dblks 0 (num_gdn_layers src) ->
    if swap then page_fits b gn true (d * dbs) (s * pbs) size
    else page_fits b gn false (s * pbs) (d * dbs) size.

Record gdn_ready : Prop := {
  gr_bounds : wf_bounds b;
  gr_unscaled : src_length_scale b = 1;
  gr_go : 0 <= go < gn;
  gr_ssm : 0 < ssm;
  gr_layers : 0 <= num_gdn_layers src < W32;
  gr_groups : groups_match sblks dblks 0 (num_gdn_layers src);
}.

Lemma groups_match_sizes :
  groups_match sblks dblks 0 (num_gdn_layers src) -> 0 <= num_gdn_layers src ->
  num_gdn_layers src <= vsize sblks /\ num_gdn_layers src <= vsize dblks.
Proof.
  intros Hg Hn. destruct (decide (num_gdn_layers src = 0)) as [->|]; [unfold vsize; lia|].
  destruct (Hg (num_gdn_layers src - 1) ltac:(lia)) as (sg & dg & Hs & Hd & _).
  apply lookup_lt_Some in Hs, Hd. unfold vsize. lia.
Qed.

Lemma nonempty_lookup {A} (l : list A) i x : l !! i = Some x -> negb (vsize l =? 0) = true.
Proof. intros Hl. apply lookup_lt_Some in Hl. unfold vsize. lia. Qed.

Lemma parse_hybrid_gdn_block_send_p_gt_d_total blocks :
  let dims := gdn_conv_channel_dims src in
  let steps := (fun d => d * gdn_conv_elem_size src) <$> dims in
  gdn_ready -> gdn_shape (total steps) ssm -> dims <> [] ->
  Forall (fun d => 0 < d * gdn_conv_elem_size src) dims ->
  gn * total steps < W64 -> pages_fit false (page_size rows steps ssm) ->
  parse_hybrid_gdn_block_send_p_gt_d pbs dbs (num_gdn_layers src) gn go src sblks dblks b blocks
  = Ok (blocks ++ flat_map (fun sd => page_records false (sd.1 * pbs) (sd.2 * dbs) gn go rows
                                        steps ssm)
                    (group_pairs sblks dblks 0 (num_gdn_layers src))).
Proof.
  intros dims steps [] [Hc1 (ch & Hch & Hrow) (s1 & s2 & s3 & H1 & H2 & H3 & Hssm) Hrows Hrs Hsz]
    Hdims Hpos Hwide Hfit.
  destruct (groups_match_sizes gr_groups0 ltac:(lia)).
  assert (Hsteps : Forall (fun s => 0 < s) steps) by (by apply Forall_fmap).
  unfold parse_hybrid_gdn_block_send_p_gt_d.
  assert (Hd0 : negb (vsize (gdn_conv_channel_dims src) =? 0) = true)
    by (unfold dims in Hdims; by destruct (gdn_conv_channel_dims src)).
  rewrite !cassert_true by first [lia | done | eapply nonempty_lookup; eassumption].
  cbn [rbind].
  rewrite (vec_at_Some _ 2 ch), (vec_at_Some _ 1 rows), (vec_at_Some _ 1 s1),
    (vec_at_Some _ 2 s2), (vec_at_Some _ 3 s3) by done. cbn [rbind].
  assert (0 <= rows * total steps) by nia.
  rewrite Hrow, Hssm, (u64_small (total steps)), (u64_small (rows * _)), (u64_small ssm),
    (u64_small (gn * _)) by nia.
  apply (for_group_blocks_total false _ _ _ _
    (fun s d => page_records false (s * pbs) (d * dbs) gn go rows steps ssm));
    [done|lia|pose proof W32_lt_W64; lia|].
  intros s d out Hin. specialize (Hfit s d Hin). simpl in Hfit.
  pose proof Hfit as (? & ? & ? & ?). pose proof (capacities_range b false gr_bounds0) as [? ?].
  unfold p_capacity, d_capacity, page_size in *.
  rewrite (u64_small (s * pbs)), (u64_small (d * dbs)) by nia.
  refine (page_total b gr_bounds0 gr_unscaled0 gn go gr_go0 false _ _ rows steps ssm _ out
    Hsteps gr_ssm0 Hrows Hfit _).
  assert (total steps < W64) by nia.
  intros r out' Hr. apply gdn_conv_row_p_gt_d_total; auto; [lia|].
  apply (page_row_fits b gn go gr_go0 false _ _ rows steps ssm); auto; lia.
Qed.

Lemma parse_hybrid_gdn_block_send_p_lt_d_total blocks :
  let dims := gdn_conv_channel_dims src in
  let steps := (fun d => d * gdn_conv_elem_size src / gn) <$> dims in
  gdn_ready -> gdn_shape (gn * total steps) (gn * ssm) -> dims <> [] ->
  Forall (fun d => 0 < d * gdn_conv_elem_size src /\
                   (d * gdn_conv_elem_size src) mod gn = 0) dims ->
  gn * total steps < W64 -> pages_fit true (page_size rows steps ssm) ->
  parse_hybrid_gdn_block_send_p_lt_d pbs dbs (num_gdn_layers src) gn go src sblks dblks b blocks
  = Ok (blocks ++ flat_map (fun sd => page_records true (sd.2 * dbs) (sd.1 * pbs) gn go rows
                                        steps ssm)
                    (group_pairs sblks dblks 0 (num_gdn_layers src))).
Proof.
  intros dims steps [] [Hc1 (ch & Hch & Hrow) (s1 & s2 & s3 & H1 & H2 & H3 & Hssm) Hrows Hrs Hsz]
    Hdims Hpos Hwide Hfit.
  destruct (groups_match_sizes gr_groups0 ltac:(lia)).
  assert (Hsteps : Forall (fun s => 0 < s) steps).
  { apply Forall_fmap. eapply Forall_impl; [exact Hpos|]. intros d [? Hm]. simpl.
    apply Z.div_str_pos. apply Z.mod_divide in Hm; [|lia]. split; [lia|].
    apply Z.divide_pos_le in Hm; lia. }
  assert (Hd0 : negb (vsize (gdn_conv_channel_dims src) =? 0) = true)
    by (unfold dims in Hdims; by destruct (gdn_conv_channel_dims src)).
  pose proof (total_nonneg _ Hsteps).
  unfold parse_hybrid_gdn_block_send_p_lt_d, divides_b.
  rewrite !cassert_true by first [lia | done | eapply nonempty_lookup; eassumption].
  cbn [rbind].
  rewrite (vec_at_Some _ 2 ch), (vec_at_Some _ 1 rows), (vec_at_Some _ 1 s1),
    (vec_at_Some _ 2 s2), (vec_at_Some _ 3 s3) by done. cbn [rbind].
  assert (0 <= rows * total steps) by nia.
  assert (0 <= gn * ssm < W64) by nia.
  rewrite Hrow, Hssm, (u64_small (gn * total steps)), (u64_small (gn * ssm)) by nia.
  rewrite !umod_ok, !udiv_ok by lia. cbn [rbind].
  rewrite (Z.mul_comm gn (total steps)), (Z.mul_comm gn ssm), !Z.mod_mul, !Z.div_mul by lia.
  rewrite !cassertM_true by done. cbn [rbind].
  rewrite (Z.mul_comm (total steps) gn).
  assert (0 <= rows * (gn * total steps) < W64) by nia.
  assert (rows * total steps <= rows * (gn * total steps)) by nia.
  rewrite (u64_small (rows * total steps)), (u64_small (rows * (gn * total steps))) by lia.
  apply (for_group_blocks_total false _ _ _ _
    (fun s d => page_records true (d * dbs) (s * pbs) gn go rows steps ssm));
    [done|lia|pose proof W32_lt_W64; lia|].
  intros s d out Hin. specialize (Hfit s d Hin). simpl in Hfit.
  pose proof Hfit as (? & ? & ? & ?). pose proof (capacities_range b true gr_bounds0) as [? ?].
  unfold p_capacity, d_capacity, page_size in *.
  rewrite (u64_small (s * pbs)), (u64_small (d * dbs)) by nia.
  replace (rows * (gn * total steps)) with (gn * (rows * total steps)) by lia.
  refine (page_total b gr_bounds0 gr_unscaled0 gn go gr_go0 true _ _ rows steps ssm _ out
    Hsteps gr_ssm0 Hrows Hfit _).
  intros r out' Hr. apply gdn_conv_row_p_lt_d_total; auto; [lia|].
  apply (page_row_fits b gn go gr_go0 true _ _ rows steps ssm); auto; lia.
Qed.
End Gdn.

(** ** KDA, SD layout: the same page format behind a different registration. *)
Section Kda.
Context `{Env} (src : WorkerInfo) (b : IpcBlockBounds) (gn go po do : Z) (layout : KdaStateLayout).

Lemma emit_kda_block_p_gt_d_total blocks :
  let es := gdn_conv_elem_size src in
  let steps := (fun d => d * es) <$> gdn_conv_channel_dims src in
  wf_bounds b -> src_length_scale b = 1 -> 0 <= go < gn -> kda_conv_dim_first src = false ->
  qkv_channels layout * es = total steps ->
  conv_size layout = state_len layout * total steps ->
  Forall (fun d => 0 < d * es) (gdn_conv_channel_dims src) ->
  0 <= state_len layout -> 0 < recurrent_size layout -> gn * total steps < W64 ->
  page_fits b gn false po do (page_size (state_len layout) steps (recurrent_size layout)) ->
  emit_kda_block_p_gt_d po do gn go src layout b blocks
  = Ok (blocks ++ page_records false po do gn go (state_len layout) steps (recurrent_size layout)).
Proof.
  intros es steps Hb Hsc Hgo Hsd Hrow Hconv Hpos Hlen Hrec Hwide Hfit.
  assert (Hsteps : Forall (fun s => 0 < s) steps) by (by apply Forall_fmap).
  pose proof (total_nonneg _ Hsteps). assert (total steps < W64) by nia.
  unfold emit_kda_block_p_gt_d. rewrite Hsd. fold es. rewrite Hrow, Hconv.
  rewrite (u64_small (total steps)), (u64_small (gn * total steps)) by nia.
  refine (page_total b Hb Hsc gn go Hgo false _ _ (state_len layout) steps (recurrent_size layout)
    _ blocks Hsteps Hrec Hlen Hfit _).
  intros r out Hr. apply gdn_conv_row_p_gt_d_total; auto; [lia|].
  apply (page_row_fits b gn go Hgo false _ _ (state_len layout) steps (recurrent_size layout)); auto; lia.
Qed.
End Kda.

(** ** Properties *)

Lemma flat_map_perm_ext {A B} (f g : A -> list B) l :
  (forall x, x ∈ l -> f x ≡ₚ g x) -> flat_map f l ≡ₚ flat_map g l.
Proof.
  induction l as [|x l IH]; intros Hfg; [done|]. cbn [flat_map].
  rewrite (Hfg x) by set_solver. rewrite IH; [done|]. intros; apply Hfg; set_solver.
Qed.

(** C8: GDN state, P>D: each rank emits the reference slice of every state page (conv rows
    segment by segment, then the recurrent state), reads every byte of its own pages exactly
    once and in order, and the ranks of a group together write every byte of the wide
    destination pages exactly once. *)
Theorem gdn_p_gt_d_group_complete `{Env} (src : Z -> WorkerInfo) (b : Z -> IpcBlockBounds)
    gn rows ssm pbs dbs sblks dblks steps layers :
  0 <= gn -> 0 <= rows -> 0 < ssm -> Forall (fun s => 0 < s) steps -> steps <> [] ->
  gn * total steps < W64 ->
  (forall go, 0 <= go < gn ->
     num_gdn_layers (src go) = layers /\
     (fun d => d * gdn_conv_elem_size (src go)) <$> gdn_conv_channel_dims (src go) = steps /\
     gdn_ready (src go) (b go) gn go ssm sblks dblks /\
     gdn_shape (src go) rows (total steps) ssm /\
     pages_fit (src go) (b go) gn pbs dbs sblks dblks false (page_size rows steps ssm)) ->
  let recs go := flat_map (fun sd => page_records false (sd.1 * pbs) (sd.2 * dbs) gn go rows
                                       steps ssm) (group_pairs sblks dblks 0 layers) in
    (forall go, 0 <= go < gn ->
       parse_hybrid_gdn_block_send_p_gt_d pbs dbs layers gn go (src go) sblks dblks (b go) []
       = Ok (recs go) /\
       src_bytes (recs go) = flat_map (fun sd => seqZ (sd.1 * pbs) (page_size rows steps ssm))
                               (group_pairs sblks dblks 0 layers)) /\
    flat_map (fun go => dst_bytes (recs go)) (seqZ 0 gn)
    ≡ₚ flat_map (fun sd => seqZ (sd.2 * dbs) (gn * page_size rows steps ssm))
         (group_pairs sblks dblks 0 layers).
Proof.
  intros Hgn Hrows Hssm Hsteps Hne Hwide Hranks recs. unfold recs.
  split.
  - intros go Hgo. destruct (Hranks go Hgo) as (<- & Hst & Hr & Hsh & Hfit). split.
    + rewrite (parse_hybrid_gdn_block_send_p_gt_d_total _ _ _ _ rows ssm); rewrite ?Hst; auto.
      * intros E. apply Hne. rewrite <- Hst, E. done.
      * rewrite <- Hst, Forall_fmap in Hsteps. done.
    + rewrite (narrow_bytes_flat_map false). apply flat_map_ext_elem.
      intros sd _. apply (narrow_page false); auto; lia.
  - erewrite flat_map_ext_elem by (intros; apply (wide_bytes_flat_map false)).
    rewrite flat_map_swap. apply flat_map_perm_ext. intros sd _.
    apply (wide_page false (fun _ => sd.1 * pbs)); auto; lia.
Qed.

(** GDN state, P<D: each destination rank receives the reference slice of every state page,
    every byte of its pages is written exactly once and in order, and the destinations of a
    group together read every byte of the wide source pages exactly once. *)
Theorem gdn_p_lt_d_group_complete `{Env} (src : WorkerInfo) (b : Z -> IpcBlockBounds)
    gn rows ssm pbs dbs sblks dblks :
  let steps := (fun d => d * gdn_conv_elem_size src / gn) <$> gdn_conv_channel_dims src in
  let pages := group_pairs sblks dblks 0 (num_gdn_layers src) in
  0 <= gn -> 0 <= rows -> 0 < ssm -> gdn_conv_channel_dims src <> [] ->
  Forall (fun d => 0 < d * gdn_conv_elem_size src /\
                   (d * gdn_conv_elem_size src) mod gn = 0) (gdn_conv_channel_dims src) ->
  Forall (fun s => 0 < s) steps ->
  gn * total steps < W64 -> gdn_shape src rows (gn * total steps) (gn * ssm) ->
  (forall go, 0 <= go < gn ->
     gdn_ready src (b go) gn go ssm sblks dblks /\
     pages_fit src (b go) gn pbs dbs sblks dblks true (page_size rows steps ssm)) ->
  let recs go := flat_map (fun sd => page_records true (sd.2 * dbs) (sd.1 * pbs) gn go rows
                                       steps ssm) pages in
    (forall go, 0 <= go < gn ->
       parse_hybrid_gdn_block_send_p_lt_d pbs dbs (num_gdn_layers src) gn go src sblks dblks
         (b go) [] = Ok (recs go) /\
       dst_bytes (recs go)
       = flat_map (fun sd => seqZ (sd.2 * dbs) (page_size rows steps ssm)) pages) /\
    flat_map (fun go => src_bytes (recs go)) (seqZ 0 gn)
    ≡ₚ flat_map (fun sd => seqZ (sd.1 * pbs) (gn * page_size rows steps ssm)) pages.
Proof.
  intros steps pages Hgn Hrows Hssm Hne Hpos Hsteps Hwide Hsh Hranks recs. unfold recs.
  split.
  - intros go Hgo. destruct (Hranks go Hgo) as (Hr & Hfit). split.
    + by rewrite (parse_hybrid_gdn_block_send_p_lt_d_total _ _ _ _ rows ssm).
    + rewrite (narrow_bytes_flat_map true). apply flat_map_ext_elem.
      intros sd _. apply (narrow_page true); auto; lia.
  - erewrite flat_map_ext_elem by (intros; apply (wide_bytes_flat_map true)).
    rewrite flat_map_swap. apply flat_map_perm_ext. intros sd _.
    apply (wide_page true (fun _ => sd.2 * dbs)); auto; lia.
Qed.

(** A hybrid worker with GDN state: [rows] conv rows of the given channel dims, and a
    recurrent state of [s1 * s2 * s3] elements. *)
Definition gdn_worker (tp rank bs nb layers rows es ses : Z) (dims : list Z) (s1 s2 s3 : Z)
    : WorkerInfo := {|
  inst_id := "w"; worker_id := rank; engine_tp_size := tp; worker_tp_rank := rank;
  block_sizes := [bs]; token_sizes := [1]; layer_num_blocks := nb; num_layers := 1;
  transfer_protocols := 1; attn_kernel_blk_ntpb := 0; indexer_blk_ntpb := 0;
  attn_pack_size := 1; addr := "127.0.0.1"; num_kv_heads := -1; num_gdn_layers := layers;
  hybrid_indexer_token_size := 0; gdn_conv_elem_size := es;
  gdn_ssm_elem_size := ses; conv_state_shape := [1; rows; foldr Z.add 0 dims];
  ssm_state_shape := [1; s1; s2; s3];
  gdn_conv_channel_dims := dims; num_ple_layers := 0; ple_block_group := 0;
  ple_conv_elem_size := 1; ple_conv_state_shape := [];
  ple_conv_channel_dims := []; kda_conv_dim_first := false;
  hybrid_attn_token_size := 0; kda_page_stride := 0 |}.

Lemma gdn_p_gt_d_group_complete_witness :
  exists recs : Z -> list IpcBlock,
    (forall go, 0 <= go < 2 ->
       parse_hybrid_gdn_block_send_p_gt_d (H := debug_env) 64 128 2 2 go
         (gdn_worker 4 go 64 8 2 2 1 2 [2; 2; 4] 1 2 2)
         [[1; 5]; [2]] [[4; 0]; [3]] (mkBounds 512 1024 1 0) [] = Ok (recs go) /\
       src_bytes (recs go) = flat_map (fun sd => seqZ (sd.1 * 64) 24)
                               [(1, 4); (5, 0); (2, 3)]) /\
    flat_map (fun go => dst_bytes (recs go)) (seqZ 0 2)
    ≡ₚ flat_map (fun sd => seqZ (sd.2 * 128) 48) [(1, 4); (5, 0); (2, 3)].
Proof.
  eexists. apply (gdn_p_gt_d_group_complete (H := debug_env)
    (fun go => gdn_worker 4 go 64 8 2 2 1 2 [2; 2; 4] 1 2 2) (fun _ => mkBounds 512 1024 1 0)
    2 2 8 64 128 [[1; 5]; [2]] [[4; 0]; [3]] [2; 2; 4] 2); try done.
  - repeat constructor.
  - intros go Hgo. split; [done|]. split; [done|]. split; [|split].
    + split; try done.
      * repeat split; try done. by left.
      * intros i Hi. cbn in Hi. assert (i = 0 \/ i = 1) as [-> | ->] by lia; eexists _, _; done.
    + split; try done; [by exists 8|by exists 1, 2, 2].
    + intros s d Hin. change ((s, d) ∈ [(1, 4); (5, 0); (2, 3)]) in Hin. rewrite !elem_of_cons in Hin.
      destruct Hin as [[= -> ->]|[[= -> ->]|[[= -> ->]|Hin]]];
        [done..|by apply elem_of_nil in Hin].
Defined.

Lemma gdn_p_lt_d_group_complete_witness :
  exists recs : Z -> list IpcBlock,
    (forall go, 0 <= go < 2 ->
       parse_hybrid_gdn_block_send_p_lt_d (H := debug_env) 128 64 2 2 go
         (gdn_worker 2 0 128 8 2 2 1 2 [4; 4; 8] 1 4 2)
         [[1; 5]; [2]] [[4; 0]; [3]] (mkBounds 1024 512 1 0) [] = Ok (recs go) /\
       dst_bytes (recs go) = flat_map (fun sd => seqZ (sd.2 * 64) 24)
                               [(1, 4); (5, 0); (2, 3)]) /\
    flat_map (fun go => src_bytes (recs go)) (seqZ 0 2)
    ≡ₚ flat_map (fun sd => seqZ (sd.1 * 128) 48) [(1, 4); (5, 0); (2, 3)].
Proof.
  eexists. apply (gdn_p_lt_d_group_complete (H := debug_env)
    (gdn_worker 2 0 128 8 2 2 1 2 [4; 4; 8] 1 4 2) (fun _ => mkBounds 1024 512 1 0)
    2 2 8 128 64 [[1; 5]; [2]] [[4; 0]; [3]]); try done.
  - repeat constructor.
  - repeat constructor.
  - split; try done; [by exists 16|by exists 1, 4, 2].
  - intros go Hgo. split.
    + split; try done.
      * repeat split; try done. by left.
      * intros i Hi. cbn in Hi. assert (i = 0 \/ i = 1) as [-> | ->] by lia; eexists _, _; done.
    + intros s d Hin. change ((s, d) ∈ [(1, 4); (5, 0); (2, 3)]) in Hin. rewrite !elem_of_cons in Hin.
      destruct Hin as [[= -> ->]|[[= -> ->]|[[= -> ->]|Hin]]];
        [done..|by apply elem_of_nil in Hin].
Defined.
