(* ===== verification/Channel.v ===== *)
(** What the channels share ([src/channel.cpp], [src/protocol.cpp]): the second range
    check, the merging of adjacent records, the protocol set of a worker and the
    choice of a protocol for a destination. *)

From Stdlib Require Import Sorted.
From stdpp Require Import sorting.
From S2P Require Import Prelude Common CopySpec.

(** ** Records handed to the device *)

Inductive IpcBlockOffset := SOURCE | DESTINATION.

(** The check made before a copy is handed to CUDA or RDMA: the first bad record throws
    [std::out_of_range]. *)
Definition validate_ipc_block_bounds (blocks : list IpcBlock) (capacity : Z)
    (offset_kind : IpcBlockOffset) (length_scale : Z) : res unit :=
  forM blocks (fun block _ =>
    let offset := match offset_kind with
                  | SOURCE => src_offset block
                  | DESTINATION => dst_offset block
                  end in
    let length_overflow :=
      (length_scale =? 0) || (SIZE_MAX / length_scale <? length_ block) in
    let effective_length :=
      if length_overflow then SIZE_MAX else u64 (length_ block * length_scale) in
    let invalid :=
      (length_ block =? 0) || length_overflow || (capacity <? offset)
      || (u64 (capacity - offset) <? effective_length) in
    if invalid then Err OutOfRange else Ok tt) tt.

Definition can_merge (pre_block cur_block : IpcBlock) : bool :=
  if negb (src_offset cur_block =? u64 (src_offset pre_block + length_ pre_block)) then false
  else if negb (dst_offset cur_block =? u64 (dst_offset pre_block + length_ pre_block)) then false
  else true.

(** [{min_size, max_size, total_size, cnt}]. *)
Record MergeStats := mkStats {
  min_size : Z;
  max_size : Z;
  total_size : Z;
  cnt : Z;
}.

Definition init_stats : MergeStats := mkStats SIZE_MAX 0 0 0.

Definition add_run (st : MergeStats) (len : Z) : MergeStats :=
  mkStats (Z.min (min_size st) len) (Z.max (max_size st) len)
    (u64 (total_size st + len)) (u64 (cnt st + 1)).

Definition set_length (b : IpcBlock) (l : Z) : IpcBlock :=
  mkIpcBlock (src_offset b) (dst_offset b) l.

(** One iteration: [cur] is absorbed by the open run at [prev_idx] and left behind with
    length 0, or it opens the next run. *)
Definition merge_step (idx : Z) (s : list IpcBlock * Z * MergeStats)
    : res (list IpcBlock * Z * MergeStats) :=
  let '(input, prev_idx, st) := s in
  let* pre_block := vec_idx input prev_idx in
  let* cur_block := vec_idx input idx in
  if can_merge pre_block cur_block then
    let input := <[Z.to_nat prev_idx :=
                     set_length pre_block (u64 (length_ pre_block + length_ cur_block))]> input in
    Ok (<[Z.to_nat idx := set_length cur_block 0]> input, prev_idx, st)
  else Ok (input, idx, add_run st (length_ pre_block)).

(** [std::sort] with [x.src_offset < y.src_offset]: some permutation in that order; the
    order of records with equal source offsets is not specified. *)
Definition src_le (x y : IpcBlock) : Prop := src_offset x <= src_offset y.
Class StdSort (sort : list IpcBlock -> list IpcBlock) := {
  sort_perm : forall l, sort l ≡ₚ l;
  sort_sorted : forall l, Sorted src_le (sort l);
}.

Definition merge_interval (sort : list IpcBlock -> list IpcBlock) (input : list IpcBlock)
    : res (list IpcBlock * MergeStats) :=
  let input := sort input in
  let* '(input, prev_idx, st) :=
    for_range 1 (vsize input) merge_step (input, 0, init_stats) in
  if prev_idx <? vsize input then
    let* b := vec_idx input prev_idx in
    Ok (input, add_run st (length_ b))
  else Ok (input, st).

(** ** Protocols *)

Inductive Kind := RDMA_DIRECT | TCP.

#[export] Instance Kind_eq_dec : EqDecision Kind.
Proof. solve_decision. Defined.

Definition kind_bit (k : Kind) : Z := match k with RDMA_DIRECT => 1 | TCP => 2 end.

(** The [unsigned char] of a [SupportTransferProtocols]. *)
Definition set_support (protocols : Z) (t : Kind) : Z := Z.lor protocols (kind_bit t) mod 256.
Definition is_support (protocols : Z) (t : Kind) : bool := 0 <? Z.land protocols (kind_bit t).
Definition as_vector (protocols : Z) : list Kind :=
  (if is_support protocols TCP then [TCP] else [])
  ++ (if is_support protocols RDMA_DIRECT then [RDMA_DIRECT] else []).
Definition get_library_support_protocols (enable_rdma : bool) : Z :=
  let s := set_support 0 TCP in if enable_rdma then set_support s RDMA_DIRECT else s.

(** ** Choosing a channel *)

Inductive ChannelKind := TCPChannel | RDMAChannel | RDMAStagedChannel.

(** What [create_channel] reads of the context and the build. *)
Record ChannelEnv := mkChannelEnv {
  enable_rdma : bool;
  env_rdma_staged : bool;
  transfer_protos : Z;
  has_protocol_ctx : Kind -> bool;
}.

Definition create_channel (ctx : ChannelEnv) (proto : Kind) : res ChannelKind :=
  if negb (is_support (transfer_protos ctx) proto) then Err RuntimeError else
  match proto with
  | TCP => if has_protocol_ctx ctx proto then Ok TCPChannel else Err RuntimeError
  | RDMA_DIRECT =>
      if enable_rdma ctx then
        if negb (has_protocol_ctx ctx proto) then Err RuntimeError
        else if env_rdma_staged ctx then Ok RDMAStagedChannel else Ok RDMAChannel
      else Err RuntimeError
  end.

(** [create_channel] followed by [connect], whose outcome is the network's. *)
Definition create_and_connect (ctx : ChannelEnv) (connect : ChannelKind -> res unit)
    (proto : Kind) : res ChannelKind :=
  let* c := create_channel ctx proto in
  let* _ := connect c in
  Ok c.

(** The protocols are tried in order; every [std::exception] moves on to the next. *)
Fixpoint try_protocols (ctx : ChannelEnv) (connect : ChannelKind -> res unit)
    (protos : list Kind) : res ChannelKind :=
  match protos with
  | [] => Err RuntimeError
  | p :: protos =>
      match create_and_connect ctx connect p with
      | Ok c => Ok c
      | Err e => if is_exception e then try_protocols ctx connect protos else Err e
      end
  end.

Definition ChannelFactory_create (ctx : ChannelEnv) (proto : option Kind)
    (connect : ChannelKind -> res unit) (info : WorkerInfo) : res ChannelKind :=
  match proto with
  | Some p =>
      if negb (is_support (transfer_protocols info) p) then Err RuntimeError
      else create_and_connect ctx connect p
  | None => try_protocols ctx connect (as_vector (transfer_protocols info))
  end.

(** ** Merging keeps the copies *)

(** Records whose ranges do not wrap. *)
Definition plain (b : IpcBlock) : Prop :=
  0 < length_ b /\ 0 <= src_offset b /\ src_offset b + length_ b < W64 /\
  0 <= dst_offset b /\ dst_offset b + length_ b < W64.

Definition apart (x y : IpcBlock) : Prop := can_merge x y = false.

(** The records that are still copied. *)
Definition runs (l : list IpcBlock) : list IpcBlock := filter (fun b => 0 < length_ b) l.

Definition stats_of (st : MergeStats) (l : list IpcBlock) : MergeStats :=
  foldl add_run st (length_ <$> l).

Lemma can_merge_spec x y :
  plain x -> can_merge x y = true <->
  src_offset y = src_offset x + length_ x /\ dst_offset y = dst_offset x + length_ x.
Proof.
  intros (? & ? & ? & ? & ?). unfold can_merge. rewrite !u64_small by lia.
  destruct (Z.eqb_spec (src_offset y) (src_offset x + length_ x)); simpl; [|lia].
  destruct (Z.eqb_spec (dst_offset y) (dst_offset x + length_ x)); simpl; lia.
Qed.

Lemma runs_app u v : runs (u ++ v) = runs u ++ runs v.
Proof. apply filter_app. Qed.

Lemma runs_cons b l : 0 < length_ b -> runs (b :: l) = b :: runs l.
Proof. intros. unfold runs. by rewrite filter_cons_True. Qed.

Lemma runs_zeros l : Forall (fun b => length_ b = 0) l -> runs l = [].
Proof.
  induction 1 as [|b l Hb _ IH]; [done|]. unfold runs. rewrite filter_cons_False by lia. exact IH.
Qed.

Lemma bytes_zeros l : Forall (fun b => length_ b = 0) l -> bytes_of l = [].
Proof.
  induction 1 as [|b l Hb _ IH]; [done|].
  change (bytes_of (b :: l)) with (block_bytes b ++ bytes_of l).
  rewrite IH. unfold block_bytes. by rewrite Hb.
Qed.

Lemma Sorted_last {A} (R : A -> A -> Prop) l x y :
  (forall z, R z x -> R z y) -> Sorted R (l ++ [x]) -> Sorted R (l ++ [y]).
Proof.
  intros Hxy. induction l as [|z l IH]; intros Hs; [by repeat constructor|].
  simpl in *. apply Sorted_inv in Hs as [Hs Hhd]. constructor; [by apply IH|].
  destruct l; simpl in *; constructor; apply HdRel_inv in Hhd; auto.
Qed.

Lemma Sorted_snoc {A} (R : A -> A -> Prop) l x y :
  Sorted R (l ++ [x]) -> R x y -> Sorted R ((l ++ [x]) ++ [y]).
Proof.
  intros Hs HR. induction l as [|z l IH]; simpl in *; [by repeat constructor|].
  apply Sorted_inv in Hs as [Hs Hhd]. constructor; [by apply IH|].
  destruct l; simpl in *; constructor; apply HdRel_inv in Hhd; auto.
Qed.

Section MergeLoop.

(** The vector during the loop: settled records, the open run, the records it absorbed,
    and the records still to visit. *)
Definition shape (settled : list IpcBlock) (pre : IpcBlock) (zs rest : list IpcBlock)
    : list IpcBlock := settled ++ pre :: zs ++ rest.

Lemma shape_lookup_pre settled pre zs rest : shape settled pre zs rest !! length settled = Some pre.
Proof. unfold shape. by rewrite list_lookup_middle. Qed.

Lemma shape_lookup_cur settled pre zs cur rest :
  shape settled pre zs (cur :: rest) !! (length settled + S (length zs))%nat = Some cur.
Proof.
  unfold shape. rewrite lookup_app_r by lia.
  replace (length settled + S (length zs) - length settled)%nat with (S (length zs)) by lia.
  simpl. by rewrite list_lookup_middle.
Qed.

Lemma shape_merge settled pre pre' zs cur cur' rest :
  <[(length settled + S (length zs))%nat := cur']>
    (<[length settled := pre']> (shape settled pre zs (cur :: rest)))
  = shape settled pre' (zs ++ [cur']) rest.
Proof.
  unfold shape. rewrite insert_app_r_alt by lia. rewrite Nat.sub_diag. simpl.
  rewrite insert_app_r_alt by lia.
  replace (length settled + S (length zs) - length settled)%nat with (S (length zs)) by lia.
  simpl. rewrite insert_app_r_alt by lia. rewrite Nat.sub_diag. simpl. by rewrite <- app_assoc.
Qed.

Lemma bytes_absorb settled pre zs cur rest :
  plain pre -> plain cur -> can_merge pre cur = true ->
  Forall (fun b => length_ b = 0) zs ->
  bytes_of (shape settled (set_length pre (length_ pre + length_ cur))
              (zs ++ [set_length cur 0]) rest)
  = bytes_of (shape settled pre zs (cur :: rest)).
Proof.
  intros Hp Hc Hm Hz. apply can_merge_spec in Hm as [Hs Hd]; [|done].
  destruct Hp as (? & _), Hc as (? & _).
  unfold shape. rewrite !bytes_of_app. f_equal.
  change (bytes_of (?a :: ?l)) with (block_bytes a ++ bytes_of l).
  rewrite !bytes_of_app, (bytes_zeros zs) by done.
  change (bytes_of (cur :: rest)) with (block_bytes cur ++ bytes_of rest).
  unfold set_length at 1. rewrite block_bytes_split by lia. rewrite <- Hs, <- Hd.
  destruct pre, cur; simpl. rewrite <- app_assoc. done.
Qed.

(** The loop from any of its states. *)
Lemma merge_loop settled pre zs rest st :
  Forall plain (pre :: rest) -> Forall (fun b => length_ b = 0) zs ->
  Forall (fun b => 0 <= length_ b) settled -> Sorted apart (runs settled ++ [pre]) ->
  exists settled' pre' zs' st',
    forM (seqZ (vsize settled + 1 + vsize zs) (vsize rest)) merge_step
      (shape settled pre zs rest, vsize settled, st)
    = Ok (shape settled' pre' zs' [], vsize settled', st') /\
    bytes_of (shape settled' pre' zs' []) = bytes_of (shape settled pre zs rest) /\
    length (shape settled' pre' zs' []) = length (shape settled pre zs rest) /\
    0 < length_ pre' /\ Forall (fun b => length_ b = 0) zs' /\
    Forall (fun b => 0 <= length_ b) settled' /\ Sorted apart (runs settled' ++ [pre']) /\
    exists new, runs settled' = runs settled ++ new /\ st' = stats_of st new.
Proof.
  revert settled pre zs st.
  induction rest as [|cur rest IH]; intros settled pre zs st Hpl Hz Hn Hs.
  { exists settled, pre, zs, st. repeat split; auto; [by apply Forall_inv in Hpl as [? _]|].
    exists []. by rewrite app_nil_r. }
  apply Forall_cons in Hpl as [Hp Hpl]. apply Forall_cons in Hpl as [Hc Hpl].
  assert (Hseq : seqZ (vsize settled + 1 + vsize zs) (vsize (cur :: rest))
    = Z.of_nat (length settled + S (length zs)) :: seqZ (vsize settled + 1 + vsize zs + 1) (vsize rest)).
  { unfold vsize. simpl length. rewrite seqZ_cons by lia. f_equal; [lia|]. f_equal; lia. }
  rewrite Hseq. cbn [forM]. unfold merge_step at 1.
  rewrite (vec_idx_Some _ _ pre), (vec_idx_Some _ _ cur);
    [|lia|rewrite Nat2Z.id; apply shape_lookup_cur|unfold vsize; lia
     |unfold vsize; rewrite Nat2Z.id; apply shape_lookup_pre].
  cbn [rbind]. destruct (can_merge pre cur) eqn:Em; cbn [rbind].
  - pose proof Em as [Es Ed]%can_merge_spec; [|done].
    pose proof Hp as (? & ? & ? & ? & ?). pose proof Hc as (? & ? & ? & ? & ?).
    rewrite (u64_small (length_ pre + length_ cur)) by lia.
    unfold vsize at 4. rewrite !Nat2Z.id. rewrite shape_merge.
    destruct (IH settled (set_length pre (length_ pre + length_ cur)) (zs ++ [set_length cur 0]) st)
      as (settled' & pre' & zs' & st' & Hok & Hb & Hlen & Hrest).
    + constructor; [|done]. unfold plain, set_length; simpl. lia.
    + apply Forall_app. split; [done|by repeat constructor].
    + done.
    + eapply Sorted_last; [|exact Hs]. intros z. unfold apart, can_merge. done.
    + exists settled', pre', zs', st'. split; [|split; [|split; [|exact Hrest]]].
      * rewrite <- Hok. do 2 f_equal. unfold vsize. rewrite length_app. simpl. lia.
      * rewrite Hb. by apply bytes_absorb.
      * rewrite Hlen. unfold shape. rewrite !length_app. simpl. rewrite !length_app. simpl. lia.
  - replace (Z.of_nat (length settled + S (length zs))) with (vsize (settled ++ pre :: zs))
      by (unfold vsize; rewrite length_app; simpl; lia).
    assert (Hruns : runs (settled ++ pre :: zs) = runs settled ++ [pre]).
    { rewrite runs_app, runs_cons, (runs_zeros zs) by (done || apply Hp). done. }
    destruct (IH (settled ++ pre :: zs) cur [] (add_run st (length_ pre)))
      as (settled' & pre' & zs' & st' & Hok & Hb & Hlen & Hl & Hz' & Hn' & Hs' & new & Hnew & Hst).
    + by constructor.
    + done.
    + apply Forall_app. split; [done|]. constructor; [destruct Hp; lia|].
      eapply Forall_impl; [exact Hz|]. simpl. lia.
    + rewrite Hruns. by apply Sorted_snoc.
    + assert (Hsh : shape settled pre zs (cur :: rest) = shape (settled ++ pre :: zs) cur [] rest)
        by (unfold shape; rewrite <- app_assoc; done).
      exists settled', pre', zs', st'. rewrite Hsh. split; [|split; [done|]].
      * rewrite <- Hok. f_equal. f_equal. unfold vsize. rewrite length_app. simpl. lia.
      * do 5 (split; [done|]).
        exists (pre :: new). rewrite Hnew, Hruns, <- app_assoc. split; [done|]. by rewrite Hst.
Qed.
End MergeLoop.

(** ** Reference sort *)
#[export] Instance src_le_dec x y : Decision (src_le x y).
Proof. unfold src_le. apply _. Defined.

#[export] Instance merge_sort_StdSort : StdSort (merge_sort src_le).
Proof.
  split; [apply merge_sort_Permutation|]. intros l. apply Sorted_merge_sort.
  intros x y. unfold src_le. lia.
Qed.

(** ** Order of the copies does not matter when no byte is written twice *)
Lemma exec_bytes_perm src l l' dst a :
  NoDup l.*2 -> l ≡ₚ l' -> exec_bytes src l dst a = exec_bytes src l' dst a.
Proof.
  intros Hnd Hp. assert (Hnd' : NoDup l'.*2) by (by rewrite <- Hp).
  destruct (decide (a ∈ l.*2)) as [Ha|Ha].
  - apply list_elem_of_fmap in Ha as ([s a'] & -> & Hin). cbn [snd] in *.
    rewrite (exec_bytes_written src l dst s a') by done.
    rewrite (exec_bytes_written src l' dst s a'); [done..|by rewrite <- Hp].
  - rewrite !exec_bytes_frame; [done| |done]. by rewrite <- Hp.
Qed.

Lemma bytes_of_runs l : Forall (fun b => 0 <= length_ b) l -> bytes_of (runs l) = bytes_of l.
Proof.
  induction 1 as [|b l Hb _ IH]; [done|]. unfold runs. rewrite filter_cons.
  change (bytes_of (b :: l)) with (block_bytes b ++ bytes_of l). case_decide.
  - change (bytes_of (b :: filter (fun b => 0 < length_ b) l))
      with (block_bytes b ++ bytes_of (runs l)). by rewrite IH.
  - fold (runs l). rewrite IH. unfold block_bytes. by replace (length_ b) with 0 by lia.
Qed.

Lemma length_bytes_of l :
  Forall (fun b => 0 <= length_ b) l -> vsize (bytes_of l) = foldr Z.add 0 (length_ <$> l).
Proof.
  induction 1 as [|b l Hb _ IH]; [done|].
  change (bytes_of (b :: l)) with (block_bytes b ++ bytes_of l). unfold vsize in *.
  rewrite length_app. unfold block_bytes at 1. rewrite length_fmap, length_seqZ.
  rewrite fmap_cons. cbn [foldr]. lia.
Qed.

Lemma total_stats_of l st :
  0 <= total_size st < W64 ->
  total_size (stats_of st l) = u64 (total_size st + foldr Z.add 0 (length_ <$> l)).
Proof.
  revert st. unfold stats_of. induction l as [|b l IH]; intros st Hst.
  - simpl. rewrite Z.add_0_r. by rewrite u64_small.
  - rewrite fmap_cons. cbn [foldl foldr]. rewrite IH by (apply u64_range).
    cbn [add_run total_size]. unfold u64. rewrite Zplus_mod_idemp_l. f_equal. lia.
Qed.

Lemma merge_interval_total sort `{!StdSort sort} input :
  Forall plain input ->
  exists out st, merge_interval sort input = Ok (out, st) /\
    bytes_of out = bytes_of (sort input) /\ Sorted apart (runs out) /\
    Forall (fun b => 0 <= length_ b) out /\ bytes_of (runs out) = bytes_of out /\
    length out = length input /\ st = stats_of init_stats (runs out).
Proof.
  intros Hpl. assert (length (sort input) = length input) as Hlen0
    by (by rewrite (sort_perm input)). rewrite <- (sort_perm input) in Hpl. unfold merge_interval.
  destruct (sort input) as [|pre rest].
  { exists [], init_stats. repeat split; auto; constructor. }
  destruct (merge_loop [] pre [] rest init_stats)
    as (settled & pre' & zs & st & Hok & Hb & Hlen & Hl & Hz & Hn & Hs & new & Hnew & Hst);
    [done|done|done|by repeat constructor|].
  simpl in Hnew. subst new.
  assert (Hruns : runs (shape settled pre' zs []) = runs settled ++ [pre']).
  { unfold shape. rewrite app_nil_r, runs_app, runs_cons, (runs_zeros zs) by done. done. }
  assert (Hnn : Forall (fun b => 0 <= length_ b) (shape settled pre' zs [])).
  { unfold shape. rewrite app_nil_r. apply Forall_app. split; [done|]. constructor; [lia|].
    eapply Forall_impl; [exact Hz|]. simpl. lia. }
  exists (shape settled pre' zs []), (add_run st (length_ pre')). split.
  - assert (Hfr : for_range 1 (vsize (pre :: rest)) merge_step (pre :: rest, 0, init_stats)
                  = Ok (shape settled pre' zs [], vsize settled, st)).
    { rewrite <- Hok. unfold for_range. f_equal. f_equal. unfold vsize. simpl. lia. }
    rewrite Hfr. cbn [rbind].
    rewrite (proj2 (Z.ltb_lt _ _)) by (unfold shape, vsize; rewrite length_app; simpl; lia).
    rewrite (vec_idx_Some _ _ pre'); [done|unfold vsize; lia|].
    unfold vsize. rewrite Nat2Z.id. apply shape_lookup_pre.
  - split; [exact Hb|]. split; [by rewrite Hruns|]. split; [done|]. split.
    + by apply bytes_of_runs.
    + split; [by rewrite Hlen|]. rewrite Hruns, Hst. unfold stats_of. by rewrite fmap_app, foldl_app.
Qed.

(** A worker that offers the given protocols, for examples. *)
Definition WorkerInfo_with_protocols (p : Z) : WorkerInfo := {|
  inst_id := "w"; worker_id := 0; engine_tp_size := 1; worker_tp_rank := 0;
  block_sizes := [64]; token_sizes := [16]; layer_num_blocks := 4; num_layers := 1;
  transfer_protocols := p; attn_kernel_blk_ntpb := 0; indexer_blk_ntpb := 0;
  attn_pack_size := 1; addr := "127.0.0.1"; num_kv_heads := -1; num_gdn_layers := 3;
  hybrid_indexer_token_size := 0; gdn_conv_elem_size := 1;
  gdn_ssm_elem_size := 1; conv_state_shape := []; ssm_state_shape := [];
  gdn_conv_channel_dims := []; num_ple_layers := 0; ple_block_group := 0;
  ple_conv_elem_size := 1; ple_conv_state_shape := [];
  ple_conv_channel_dims := []; kda_conv_dim_first := false;
  hybrid_attn_token_size := 0; kda_page_stride := 0 |}.

(** ** Properties *)

(** validate_ipc_block_bounds returns exactly when every record is non-empty and its scaled
    range lies inside the buffer without overflow, and throws out_of_range otherwise. *)
Theorem validate_accepts_iff_in_capacity blocks capacity kind scale :
  0 <= capacity < W64 -> 0 <= scale < W64 ->
  Forall (fun b => 0 <= length_ b < W64 /\ 0 <= src_offset b < W64 /\ 0 <= dst_offset b < W64)
    blocks ->
  let fits b := 0 < length_ b /\ 0 < scale /\ length_ b * scale < W64 /\
    (match kind with SOURCE => src_offset b | DESTINATION => dst_offset b end)
      + length_ b * scale <= capacity in
  (validate_ipc_block_bounds blocks capacity kind scale = Ok tt <-> Forall fits blocks) /\
  (~ Forall fits blocks ->
   validate_ipc_block_bounds blocks capacity kind scale = Err OutOfRange).
Proof.
  intros Hcap Hsc Hbs fits. unfold validate_ipc_block_bounds.
  set (body := fun block (_ : unit) => _).
  assert (Hbody : forall b, 0 <= length_ b < W64 /\ 0 <= src_offset b < W64 /\
    0 <= dst_offset b < W64 -> (fits b /\ body b tt = Ok tt) \/ (~ fits b /\ body b tt = Err OutOfRange)).
  { intros b (Hl & Hs & Hd). unfold body, fits. set (off := match kind with SOURCE => _ | _ => _ end).
    assert (0 <= off < W64) by (unfold off; by destruct kind).
    destruct (Z.eqb_spec scale 0) as [->|Hs0]; [right; split; [lia|]; by rewrite !orb_true_r|].
    assert (Hov : (SIZE_MAX / scale <? length_ b) = negb (length_ b * scale <? W64)).
    { destruct (Z.ltb_spec (length_ b * scale) W64) as [Hlt|Hge]; simpl.
      - apply Z.ltb_ge, Z.div_le_lower_bound; unfold SIZE_MAX; lia.
      - apply Z.ltb_lt, Z.div_lt_upper_bound; unfold SIZE_MAX; lia. }
    rewrite Hov. cbn [orb]. destruct (Z.ltb_spec (length_ b * scale) W64); cbn [negb];
      [|right; split; [lia|]; by rewrite !orb_true_r].
    rewrite (u64_small (length_ b * scale)) by nia.
    destruct (Z.eqb_spec (length_ b) 0); [right; by split; [lia|]|].
    cbn [orb]. destruct (Z.ltb_spec capacity off); [right; split; [nia|done]|].
    rewrite (u64_small (capacity - off)) by lia. cbn [orb].
    destruct (Z.ltb_spec (capacity - off) (length_ b * scale)); [right|left]; split; try done; lia. }
  clearbody body. induction Hbs as [|b l Hb _ IH].
  { split; [by split|]. intros []. constructor. }
  cbn [forM].
  destruct (Hbody b Hb) as [[Hf ->]|[Hf ->]]; cbn [rbind].
  - destruct IH as [IH1 IH2]. split; [rewrite IH1, Forall_cons; tauto|].
    intros Hn. apply IH2. intros Hl. apply Hn. by constructor.
  - split; [|done]. split; [done|]. rewrite Forall_cons. tauto.
Qed.

Lemma validate_accepts_iff_in_capacity_witness :
  validate_ipc_block_bounds [mkIpcBlock 0 8 4; mkIpcBlock 4 12 4] 16 DESTINATION 1 = Ok tt /\
  validate_ipc_block_bounds [mkIpcBlock 0 8 4; mkIpcBlock 4 13 4] 16 DESTINATION 1
  = Err OutOfRange.
Proof.
  split.
  - apply (validate_accepts_iff_in_capacity [mkIpcBlock 0 8 4; mkIpcBlock 4 12 4] 16 DESTINATION 1);
      [done|done|repeat constructor; done|repeat constructor; cbn; lia].
  - apply (validate_accepts_iff_in_capacity [mkIpcBlock 0 8 4; mkIpcBlock 4 13 4] 16 DESTINATION 1);
      [done|done|repeat constructor; done|].
    intros Hn. apply Forall_inv_tail, Forall_inv in Hn. cbn in Hn. lia.
Defined.

(** C19: merge_interval, for any std::sort that orders by source offset: the merged vector
    stands for the same byte copies as the input (and the same final memory when no
    destination byte is written twice), its remaining records cannot be merged further with
    their neighbour, and the returned statistics are those of the remaining records. *)
Theorem merge_interval_keeps_copies sort `{!StdSort sort} input :
  Forall plain input ->
  exists out st, merge_interval sort input = Ok (out, st) /\
    bytes_of out ≡ₚ bytes_of input /\
    (NoDup (dst_bytes input) -> forall src dst a,
       exec_copy src out dst a = exec_copy src input dst a) /\
    Sorted apart (runs out) /\
    st = stats_of init_stats (runs out) /\
    total_size st = u64 (foldr Z.add 0 (length_ <$> input)).
Proof.
  intros Hpl. destruct (merge_interval_total sort input Hpl)
    as (out & st & Hok & Hb & Hs & Hnn & Hruns & _ & Hst).
  assert (Hperm : bytes_of out ≡ₚ bytes_of input).
  { rewrite Hb. unfold bytes_of. by rewrite (sort_perm input). }
  exists out, st. split; [done|]. split; [done|]. split.
  { intros Hnd src dst a. unfold exec_copy. symmetry. by apply exec_bytes_perm. }
  split; [done|]. split; [done|]. rewrite Hst, total_stats_of by (cbn; unfold W64; lia).
  assert (Hin : Forall (fun b => 0 <= length_ b) input)
    by (eapply Forall_impl; [exact Hpl|]; intros b [? _]; lia).
  assert (Hnr : Forall (fun b => 0 <= length_ b) (runs out)).
  { apply Forall_forall. intros b Hbin. apply list_elem_of_filter in Hbin as [? _]. lia. }
  rewrite <- (length_bytes_of (runs out)), <- (length_bytes_of input), Hruns by done.
  unfold vsize. by rewrite (Permutation_length Hperm).
Qed.

Lemma merge_interval_keeps_copies_witness :
  exists out st,
    merge_interval (merge_sort src_le) [mkIpcBlock 8 108 4; mkIpcBlock 0 100 8; mkIpcBlock 20 0 4]
    = Ok (out, st) /\
    bytes_of out ≡ₚ bytes_of [mkIpcBlock 8 108 4; mkIpcBlock 0 100 8; mkIpcBlock 20 0 4] /\
    out = [mkIpcBlock 0 100 12; mkIpcBlock 8 108 0; mkIpcBlock 20 0 4] /\
    st = mkStats 4 12 16 2.
Proof.
  destruct (merge_interval_keeps_copies (merge_sort src_le)
    [mkIpcBlock 8 108 4; mkIpcBlock 0 100 8; mkIpcBlock 20 0 4]) as (out & st & Hok & Hb & _).
  - repeat constructor; cbn; lia.
  - exists out, st. split; [exact Hok|]. split; [exact Hb|].
    vm_compute in Hok. injection Hok as <- <-. split; reflexivity.
Defined.

(** Without a fixed protocol, ChannelFactory::create returns a channel exactly when some
    protocol offered by the destination can be created and connected, and then it is the
    first such protocol in the order of as_vector. *)
Theorem factory_takes_first_working_protocol ctx connect info c :
  (forall k e, connect k = Err e -> is_exception e = true) ->
  ChannelFactory_create ctx None connect info = Ok c <->
  exists i p, as_vector (transfer_protocols info) !! i = Some p /\
    create_and_connect ctx connect p = Ok c /\
    forall j q, (j < i)%nat -> as_vector (transfer_protocols info) !! j = Some q ->
      exists e, create_and_connect ctx connect q = Err e.
Proof.
  intros Hex. unfold ChannelFactory_create.
  assert (Herr : forall p e, create_and_connect ctx connect p = Err e -> is_exception e = true).
  { intros p e. unfold create_and_connect, create_channel.
    destruct (negb _); [by intros [= <-]|].
    destruct p; repeat case_match; cbn [rbind]; intros E; try (by injection E as <-);
      match type of E with context [connect ?k] => destruct (connect k) eqn:Ek end;
      cbn [rbind] in E; try done; injection E as <-; eauto. }
  induction (as_vector (transfer_protocols info)) as [|p l IH]; simpl.
  { split; [done|]. intros (i & p & Hi & _). by rewrite lookup_nil in Hi. }
  destruct (create_and_connect ctx connect p) as [c'|e] eqn:Ep.
  - split.
    + intros [= ->]. exists 0%nat, p. repeat split; [done|]. intros; lia.
    + intros ([|i] & q & Hi & Hq & Hj); [injection Hi as ->; congruence|].
      destruct (Hj 0%nat p ltac:(lia) eq_refl) as [e He]. congruence.
  - rewrite (Herr p e Ep), IH. split.
    + intros (i & q & Hi & Hq & Hj). exists (S i), q. repeat split; auto.
      intros [|j] r Hlt Hr; [injection Hr as <-; eauto|]. apply (Hj j r); [lia|done].
    + intros ([|i] & q & Hi & Hq & Hj); [injection Hi as <-; congruence|].
      exists i, q. repeat split; auto. intros j r Hlt Hr. apply (Hj (S j) r); [lia|done].
Qed.

(** TCP is tried first; here it cannot connect, and RDMA is taken. *)
Lemma factory_takes_first_working_protocol_witness :
  ChannelFactory_create (mkChannelEnv true false 3 (fun _ => true)) None
    (fun k => match k with TCPChannel => Err RuntimeError | _ => Ok tt end)
    (WorkerInfo_with_protocols 3) = Ok RDMAChannel.
Proof.
  apply (factory_takes_first_working_protocol (mkChannelEnv true false 3 (fun _ => true))
    (fun k => match k with TCPChannel => Err RuntimeError | _ => Ok tt end)
    (WorkerInfo_with_protocols 3) RDMAChannel).
  - intros [] e; by intros [= <-].
  - exists 1%nat, RDMA_DIRECT. split; [reflexivity|]. split; [reflexivity|].
    intros [|j] q Hlt Hq; [|lia]. injection Hq as <-. by exists RuntimeError.
Defined.
