(* ===== verification/DeviceKernel.v ===== *)
(** The copy kernels ([src/copy_kernels.cu]) at the level of single threads: which bytes
    each thread of a launch copies, and that together they copy every byte of every block
    exactly once.

    A kernel is a function from a thread (block index and thread index) to the list of
    byte copies it makes, as pairs of a source and a destination address; the threads of a
    launch run in any order.  Vector accesses ([int4], [int64_t]) are runs of 16 and 8
    bytes. *)

From S2P Require Import Prelude.
From S2P Require Import Common.
From S2P Require Import CopySpec.

(** ** Loops of a thread *)

(** [for (i = start; i < end_; i += step)]: the values of [i].  The distance to the end
    bounds the rounds. *)
Fixpoint stride_from (fuel : nat) (i end_ step : Z) : list Z :=
  if i <? end_ then
    match fuel with
    | O => []
    | S fuel => i :: stride_from fuel (i + step) end_ step
    end
  else [].

Definition strided (start end_ step : Z) : list Z :=
  stride_from (Z.to_nat (end_ - start)) start end_ step.

(** The loop of [fast_copy_int4] that is unrolled four times, with the final [i]. *)
Fixpoint unrolled (fuel : nat) (i aligned_end num_threads : Z) : list Z * Z :=
  if i <? aligned_end then
    match fuel with
    | O => ([], i)
    | S fuel =>
        let '(l, i') := unrolled fuel (i + num_threads * 4) aligned_end num_threads in
        (i :: i + num_threads :: i + 2 * num_threads :: i + 3 * num_threads :: l, i')
    end
  else ([], i).

(** The bytes of the vectors of [w] bytes with the given indices. *)
Definition vec_bytes (w : Z) (vs : list Z) : list Z := flat_map (fun v => seqZ (v * w) w) vs.

(** [fast_copy_int4]: the offsets of the bytes a thread copies. *)
Definition fast_copy_int4 (num_bytes thread_id num_threads : Z) : list Z :=
  let num_vec := Z.shiftr num_bytes 4 in
  let stride := num_threads * 4 in
  let '(main, i) :=
    if stride <=? num_vec then
      let aligned_end := num_vec - num_vec mod stride in
      unrolled (Z.to_nat num_vec) thread_id aligned_end num_threads
    else ([], thread_id) in
  vec_bytes 16 (main ++ strided i num_vec num_threads) ++
  strided (Z.shiftl num_vec 4 + thread_id) num_bytes num_threads.

(** ** The direct kernels *)

(** A block of a launch: addresses and length. *)
Record KBlock := mkKBlock { k_src : Z; k_dst : Z; k_len : Z }.

Definition is_aligned (mask : Z) (b : KBlock) : bool :=
  (Z.land (k_src b) mask =? 0) && (Z.land (k_dst b) mask =? 0).

(** One thread block per copy block. *)
Definition cta_copy (b : KBlock) (tid block_size : Z) : list Z :=
  if k_len b =? 0 then []
  else if is_aligned 15 b then fast_copy_int4 (k_len b) tid block_size
  else strided tid (k_len b) block_size.

(** One warp per copy block. *)
Definition warp_copy (b : KBlock) (lane_id : Z) : list Z :=
  if k_len b =? 0 then []
  else if (k_len b =? 256) && is_aligned 15 b then
    if lane_id <? 16 then vec_bytes 16 [lane_id] else []
  else if is_aligned 15 b then fast_copy_int4 (k_len b) lane_id 32
  else if is_aligned 7 b && (Z.land (k_len b) 7 =? 0) then
    vec_bytes 8 (strided lane_id (Z.shiftr (k_len b) 3) 32)
  else strided lane_id (k_len b) 32.

Definition at_block (b : KBlock) (ks : list Z) : list (Z * Z) :=
  (fun k => (k_src b + k, k_dst b + k)) <$> ks.

(** [blocks[i]], for an index the loops keep in range. *)
Definition block_at (blocks : list KBlock) (i : Z) : KBlock :=
  nth (Z.to_nat i) blocks (mkKBlock 0 0 0).

(** The loops over blocks that the kernels share: a thread block per copy block when there
    are enough of them, a warp per copy block otherwise. *)
Definition kernel_with (cta : KBlock -> Z -> Z -> list (Z * Z)) (warp : KBlock -> Z -> list (Z * Z))
    (blocks : list KBlock) (gridDim block_size blockIdx tid : Z) : list (Z * Z) :=
  let num_blocks := vsize blocks in
  if num_blocks <=? gridDim then
    flat_map (fun block_idx => cta (block_at blocks block_idx) tid block_size)
      (strided blockIdx num_blocks gridDim)
  else
    let warp_id := tid / 32 in
    let lane_id := tid mod 32 in
    let warps_per_block := block_size / 32 in
    flat_map (fun base_idx =>
      let block_idx := base_idx + warp_id in
      if num_blocks <=? block_idx then [] else warp (block_at blocks block_idx) lane_id)
      (strided (blockIdx * warps_per_block) num_blocks (gridDim * warps_per_block)).

(** All threads of a launch. *)
Definition launch_with (kernel : Z -> Z -> list (Z * Z)) (gridDim block_size : Z) : list (Z * Z) :=
  flat_map (fun blockIdx => flat_map (fun tid => kernel blockIdx tid) (seqZ 0 block_size))
    (seqZ 0 gridDim).

(** [copy_h2d_direct_kernel] and [copy_d2h_direct_kernel], which differ only in which side
    is the source. *)
Definition direct_kernel : list KBlock -> Z -> Z -> Z -> Z -> list (Z * Z) :=
  kernel_with (fun b tid block_size => at_block b (cta_copy b tid block_size))
    (fun b lane_id => at_block b (warp_copy b lane_id)).

(** Their launch. *)
Definition launch (blocks : list KBlock) (gridDim block_size : Z) : list (Z * Z) :=
  launch_with (direct_kernel blocks gridDim block_size) gridDim block_size.

(** ** Specification: every byte of every block *)
Definition block_copies (b : KBlock) : list (Z * Z) := at_block b (seqZ 0 (k_len b)).

Definition copies (blocks : list KBlock) : list (Z * Z) := flat_map block_copies blocks.

(** ** Strided loops *)
Lemma stride_from_cons fuel i end_ step :
  i < end_ -> stride_from (S fuel) i end_ step = i :: stride_from fuel (i + step) end_ step.
Proof. intros Hi. simpl. by rewrite (proj2 (Z.ltb_lt _ _)). Qed.

Lemma stride_from_nil fuel i end_ step : end_ <= i -> stride_from fuel i end_ step = [].
Proof. intros Hi. destruct fuel; simpl; by rewrite (proj2 (Z.ltb_ge _ _)). Qed.

(** Fuel beyond the distance does not matter. *)
Lemma stride_fuel f1 f2 i end_ step :
  0 < step -> end_ - i <= Z.of_nat f1 -> end_ - i <= Z.of_nat f2 ->
  stride_from f1 i end_ step = stride_from f2 i end_ step.
Proof.
  intros Hs. revert f2 i. induction f1 as [|f1 IH]; intros f2 i H1 H2.
  - by rewrite !stride_from_nil by lia.
  - destruct (decide (i < end_)); [|by rewrite !stride_from_nil by lia].
    destruct f2 as [|f2]; [lia|]. rewrite !stride_from_cons by done. f_equal. apply IH; lia.
Qed.

Lemma strided_cons i end_ step :
  0 < step -> i < end_ -> strided i end_ step = i :: strided (i + step) end_ step.
Proof.
  intros Hs Hi. unfold strided at 1. destruct (Z.to_nat (end_ - i)) as [|n] eqn:Hn; [lia|].
  rewrite stride_from_cons by done. f_equal. apply stride_fuel; lia.
Qed.

Lemma strided_nil i end_ step : end_ <= i -> strided i end_ step = [].
Proof. intros. by apply stride_from_nil. Qed.

(** Induction over the rounds of a strided loop. *)
Lemma strided_ind (P : Z -> Prop) end_ step :
  0 < step -> (forall i, end_ <= i -> P i) -> (forall i, i < end_ -> P (i + step) -> P i) ->
  forall i, P i.
Proof.
  intros Hs Hbase Hstep i. remember (Z.to_nat (end_ - i)) as n eqn:Hn. revert i Hn.
  induction n as [n IH] using lt_wf_ind. intros i ->.
  destruct (decide (i < end_)); [|apply Hbase; lia]. apply Hstep; [done|].
  eapply IH; [|reflexivity]. lia.
Qed.

Lemma elem_of_strided x i end_ step :
  0 < step -> x ∈ strided i end_ step <-> i <= x < end_ /\ (x - i) mod step = 0.
Proof.
  intros Hs. revert i. apply (strided_ind _ end_ step Hs).
  - intros i Hi. rewrite strided_nil by done. split; [by intros ?%elem_of_nil|lia].
  - intros i Hi IH. rewrite strided_cons, elem_of_cons, IH by done.
    replace (x - i) with (x - (i + step) + 1 * step) by lia. rewrite Z_mod_plus_full. split.
    + intros [->|[Hx Hm]]; [|split; [lia|done]]. split; [lia|].
      replace (i - (i + step)) with (-1 * step) by lia. by apply Z_mod_mult.
    + intros [Hx Hm]. destruct (decide (x = i)); [by left|right]. split; [|done].
      apply Z.mod_divide in Hm as [q Hq]; [|lia]. assert (0 < (q + 1) * step) by lia.
      assert (0 <= q) by nia. nia.
Qed.

Lemma NoDup_strided i end_ step : 0 < step -> NoDup (strided i end_ step).
Proof.
  intros Hs. revert i. apply (strided_ind _ end_ step Hs).
  - intros i Hi. rewrite strided_nil by done. constructor.
  - intros i Hi IH. rewrite strided_cons by done. constructor; [|done].
    rewrite elem_of_strided by done. lia.
Qed.

Lemma elem_of_flat_map {A B} (f : A -> list B) l y :
  y ∈ flat_map f l <-> exists x, x ∈ l /\ y ∈ f x.
Proof. rewrite list_elem_of_In, in_flat_map. by setoid_rewrite list_elem_of_In. Qed.

Lemma NoDup_flat_map {A B} (f : A -> list B) l :
  NoDup l -> (forall x, x ∈ l -> NoDup (f x)) ->
  (forall x y z, x ∈ l -> y ∈ l -> z ∈ f x -> z ∈ f y -> x = y) -> NoDup (flat_map f l).
Proof.
  induction 1 as [|x l Hx Hl IH]; intros Hf Hd; simpl; [constructor|].
  apply NoDup_app. split; [apply Hf; set_solver|]. split.
  - intros z Hz (y & Hy & Hz')%elem_of_flat_map.
    rewrite (Hd x y z) in Hx; [done|set_solver..].
  - apply IH; intros; [apply Hf|eapply Hd]; set_solver.
Qed.

(** The loops that start at [0 .. step-1] share out [0 .. n-1]. *)
Lemma strided_partition n step :
  0 < step -> flat_map (fun t => strided t n step) (seqZ 0 step) ≡ₚ seqZ 0 n.
Proof.
  intros Hs. apply NoDup_Permutation.
  - apply NoDup_flat_map; [apply NoDup_seqZ|intros; by apply NoDup_strided|].
    intros x y z Hx Hy. rewrite !elem_of_strided by done. rewrite elem_of_seqZ in Hx, Hy.
    intros [_ Hzx] [_ Hzy]. apply Z.mod_divide in Hzx as [q Hq], Hzy as [r Hr]; [|lia..].
    assert (q = r) by nia. lia.
  - apply NoDup_seqZ.
  - intros x. rewrite elem_of_flat_map, elem_of_seqZ. setoid_rewrite elem_of_seqZ.
    setoid_rewrite elem_of_strided; [|done]. split; [intros (t & ? & ? & ?); lia|].
    intros Hx. exists (x mod step). pose proof (Z.mod_pos_bound x step Hs).
    pose proof (Z.mod_le x step ltac:(lia) Hs). split_and!; try lia.
    rewrite Zminus_mod, Zmod_mod, Z.sub_diag. done.
Qed.

(** Shifting the start of a loop. *)
Lemma strided_shift i end_ step d :
  0 < step -> strided (i + d) (end_ + d) step = (fun x => x + d) <$> strided i end_ step.
Proof.
  intros Hs. revert i. apply (strided_ind _ end_ step Hs).
  - intros i Hi. by rewrite !strided_nil by lia.
  - intros i Hi IH. rewrite (strided_cons i), (strided_cons (i + d)) by lia. csimpl.
    replace (i + d + step) with (i + step + d) by lia. by rewrite IH.
Qed.

(** The unrolled loop makes the rounds of the plain one: [e] is a number of whole strides
    after the start of the thread. *)
Lemma unrolled_spec q i n nt t :
  0 <= t < nt -> i + q * (nt * 4) - t <= n -> 0 <= q ->
  forall fuel, q * (nt * 4) <= Z.of_nat fuel ->
  let '(main, i') := unrolled fuel i (i + q * (nt * 4) - t) nt in
  main ++ strided i' n nt = strided i n nt.
Proof.
  intros Ht Hn Hq. revert i Hn. pattern q. apply natlike_ind; [..|done]; clear q Hq.
  - intros i Hn fuel Hf.
    assert (unrolled fuel i (i + 0 * (nt * 4) - t) nt = ([], i)) as ->; [|done].
    destruct fuel; cbn [unrolled]; by rewrite (proj2 (Z.ltb_ge _ _)) by lia.
  - intros q Hq IH i Hn fuel Hf. destruct fuel as [|fuel]; [nia|]. cbn [unrolled].
    destruct (Z.ltb_spec i (i + Z.succ q * (nt * 4) - t)) as [Hlt|]; [|nia].
    specialize (IH (i + nt * 4)).
    replace (i + nt * 4 + q * (nt * 4) - t) with (i + Z.succ q * (nt * 4) - t) in IH by lia.
    specialize (IH Hn fuel ltac:(nia)). destruct (unrolled fuel _ _ _) as [main i'].
    rewrite (strided_cons i), (strided_cons (i + nt)), (strided_cons (i + nt + nt)),
      (strided_cons (i + nt + nt + nt)) by nia. simpl.
    replace (i + nt + nt + nt + nt) with (i + nt * 4) by lia.
    rewrite <- IH. do 3 f_equal; [lia|f_equal; lia].
Qed.

(** ** Rearranging loops *)
Lemma flat_map_flat_map {A B C} (f : B -> list C) (g : A -> list B) l :
  flat_map f (flat_map g l) = flat_map (fun x => flat_map f (g x)) l.
Proof. induction l as [|x l IH]; simpl; [done|]. by rewrite flat_map_app, IH. Qed.

Lemma flat_map_perm_in {A B} (f g : A -> list B) l :
  (forall x, x ∈ l -> f x ≡ₚ g x) -> flat_map f l ≡ₚ flat_map g l.
Proof.
  induction l as [|x l IH]; intros Hfg; simpl; [done|].
  rewrite Hfg, IH; [done|set_solver..].
Qed.

Lemma flat_map_over_fmap {A B C} (f : B -> list C) (g : A -> B) l :
  flat_map f (g <$> l) = flat_map (fun x => f (g x)) l.
Proof. induction l as [|x l IH]; csimpl; [done|]. by rewrite IH. Qed.

#[local] Instance flat_map_proper {A B} (f : A -> list B) :
  Proper ((≡ₚ) ==> (≡ₚ)) (flat_map f).
Proof. intros l1 l2 Hl. by apply Permutation_flat_map. Qed.

Lemma vec_bytes_seqZ w n : 0 <= w -> 0 <= n -> vec_bytes w (seqZ 0 n) = seqZ 0 (n * w).
Proof.
  intros Hw Hn. exact (seqZ_tile 0 w 0 n Hw Hn).
Qed.

Lemma vec_bytes_perm w l1 l2 : l1 ≡ₚ l2 -> vec_bytes w l1 ≡ₚ vec_bytes w l2.
Proof. unfold vec_bytes. by intros ->. Qed.

(** ** A block is copied exactly once *)
Lemma fast_copy_int4_plain n tid nt :
  0 <= n -> 0 <= tid < nt ->
  fast_copy_int4 n tid nt =
  vec_bytes 16 (strided tid (n / 16) nt) ++ strided (n / 16 * 16 + tid) n nt.
Proof.
  intros Hn Ht. unfold fast_copy_int4. rewrite Z.shiftr_div_pow2 by lia.
  rewrite Z.shiftl_mul_pow2 by lia. change (2 ^ 4) with 16.
  assert (0 <= n / 16) by (apply Z.div_pos; lia).
  destruct (Z.leb_spec (nt * 4) (n / 16)) as [Hle|]; [|done].
  set (q := n / 16 / (nt * 4)).
  pose proof (Z.div_mod (n / 16) (nt * 4) ltac:(lia)) as Hdm. fold q in Hdm.
  pose proof (Z.mod_pos_bound (n / 16) (nt * 4) ltac:(lia)).
  assert (0 <= q) by (apply Z.div_pos; lia).
  replace (n / 16 - n / 16 mod (nt * 4)) with (tid + q * (nt * 4) - tid) by lia.
  pose proof (unrolled_spec q tid (n / 16) nt tid Ht ltac:(lia) ltac:(lia) (Z.to_nat (n / 16)) ltac:(lia))
    as Hu.
  destruct (unrolled _ _ _ _) as [main i]. by rewrite Hu.
Qed.

Lemma fast_copy_int4_once n nt :
  0 <= n -> 0 < nt ->
  flat_map (fun tid => fast_copy_int4 n tid nt) (seqZ 0 nt) ≡ₚ seqZ 0 n.
Proof.
  intros Hn Hnt.
  pose proof (Z.div_mod n 16 ltac:(lia)). pose proof (Z.mod_pos_bound n 16 ltac:(lia)).
  assert (0 <= n / 16) by (apply Z.div_pos; lia).
  rewrite (flat_map_ext_elem _ (fun tid => vec_bytes 16 (strided tid (n / 16) nt) ++
    ((fun x => x + n / 16 * 16) <$> strided tid (n - n / 16 * 16) nt))).
  - rewrite flat_map_app_perm, flat_map_fmap, strided_partition by done.
    unfold vec_bytes at 1. rewrite <- flat_map_flat_map, strided_partition by done.
    fold (vec_bytes 16 (seqZ 0 (n / 16))). rewrite vec_bytes_seqZ by lia.
    rewrite (list_fmap_ext _ (Z.add (n / 16 * 16))) by (intros; lia).
    rewrite fmap_add_seqZ. replace (n / 16 * 16 + 0) with (0 + n / 16 * 16) by lia.
    rewrite <- seqZ_app by lia. f_equiv. lia.
  - intros tid Ht%elem_of_seqZ. rewrite fast_copy_int4_plain by lia. f_equal.
    rewrite <- strided_shift by done. f_equal; lia.
Qed.

Lemma cta_copy_once b bs :
  0 <= k_len b -> 0 < bs ->
  flat_map (fun tid => cta_copy b tid bs) (seqZ 0 bs) ≡ₚ seqZ 0 (k_len b).
Proof.
  intros Hl Hbs. unfold cta_copy. destruct (Z.eqb_spec (k_len b) 0) as [->|].
  - rewrite (seqZ_nil 0 0) by lia. by induction (seqZ 0 bs).
  - destruct (is_aligned 15 b); [by apply fast_copy_int4_once|by apply strided_partition].
Qed.

Lemma warp_copy_once b :
  0 <= k_len b -> flat_map (fun lane => warp_copy b lane) (seqZ 0 32) ≡ₚ seqZ 0 (k_len b).
Proof.
  intros Hl. unfold warp_copy. destruct (Z.eqb_spec (k_len b) 0) as [->|]; [done|].
  destruct (Z.eqb_spec (k_len b) 256) as [->|]; cbn [andb].
  - destruct (is_aligned 15 b); [done|].
    destruct (is_aligned 7 b && _); [done|]. by apply (strided_partition 256 32).
  - destruct (is_aligned 15 b); [by apply fast_copy_int4_once|].
    destruct (is_aligned 7 b && _) eqn:Ha; [|by apply strided_partition].
    apply andb_true_iff in Ha as [_ Hm%Z.eqb_eq].
    change 7 with (Z.ones 3) in Hm. rewrite Z.land_ones in Hm by lia.
    rewrite Z.shiftr_div_pow2 by lia. change (2 ^ 3) with 8 in *.
    pose proof (Z.div_mod (k_len b) 8 ltac:(lia)).
    unfold vec_bytes at 1. rewrite <- flat_map_flat_map, strided_partition by done.
    fold (vec_bytes 8 (seqZ 0 (k_len b / 8))). rewrite vec_bytes_seqZ by (lia || (apply Z.div_pos; lia)).
    f_equiv. lia.
Qed.

(** ** A launch copies every block exactly once *)
Lemma at_block_perm b l1 l2 : l1 ≡ₚ l2 -> at_block b l1 ≡ₚ at_block b l2.
Proof. unfold at_block. by intros ->. Qed.

Lemma by_index {A} (f : KBlock -> list A) blocks :
  flat_map f blocks = flat_map (fun i => f (block_at blocks i)) (seqZ 0 (vsize blocks)).
Proof.
  unfold vsize. induction blocks as [|b blocks IH] using rev_ind; [done|].
  rewrite flat_map_app, length_app, Nat2Z.inj_add, seqZ_app by lia.
  rewrite flat_map_app. f_equal.
  - rewrite IH. apply flat_map_ext_elem. intros i Hi%elem_of_seqZ. unfold block_at.
    by rewrite app_nth1 by lia.
  - simpl. unfold block_at. rewrite app_nth2 by lia.
    by replace (Z.to_nat _ - length blocks)%nat with O by lia.
Qed.

(** Threads are warps times lanes. *)
Lemma threads_by_warp {A} (f : Z -> list A) w :
  0 <= w -> flat_map f (seqZ 0 (w * 32)) =
  flat_map (fun wi => flat_map (fun lane => f (wi * 32 + lane)) (seqZ 0 32)) (seqZ 0 w).
Proof.
  intros Hw.
  assert (seqZ 0 (w * 32) = flat_map (fun i => seqZ (i * 32) 32) (seqZ 0 w)) as ->
    by (symmetry; apply (seqZ_tile 0 32 0 w); lia).
  rewrite flat_map_flat_map.
  apply flat_map_ext_elem. intros wi _.
  rewrite <- (flat_map_over_fmap f (Z.add (wi * 32))), fmap_add_seqZ. f_equal. f_equal. lia.
Qed.

(** The blocks of warp [w] of a thread block. *)
Lemma warp_blocks {A} (f : Z -> list A) b w n step :
  0 < step -> 0 <= w ->
  flat_map (fun base => if n <=? base + w then [] else f (base + w)) (strided b n step) =
  flat_map f (strided (b + w) n step).
Proof.
  intros Hs Hw. revert b. apply (strided_ind _ n step Hs).
  - intros b Hb. by rewrite !strided_nil by lia.
  - intros b Hb IH. rewrite (strided_cons b) by done. simpl. rewrite IH.
    destruct (Z.leb_spec n (b + w)).
    + by rewrite !strided_nil by lia.
    + rewrite (strided_cons (b + w)) by done. simpl. do 3 f_equal. lia.
Qed.

(** Lanes against the loop over the blocks of a warp. *)
Lemma flat_map_lanes {A} (f : Z -> Z -> list A) w n (bases : list Z) :
  flat_map (fun base => if n <=? base + w then [] else flat_map (f (base + w)) (seqZ 0 32)) bases
  ≡ₚ flat_map (fun lane => flat_map (fun base => if n <=? base + w then [] else f (base + w) lane)
       bases) (seqZ 0 32).
Proof.
  etransitivity; [|apply flat_map_swap]. apply flat_map_perm_in. intros base _.
  by case_match.
Qed.

(** When the threads of a thread block, and the lanes of a warp, share out each copy block,
    a launch does every block exactly once. *)
Lemma launch_with_once cta warp (out : KBlock -> list (Z * Z)) blocks grid bs :
  (forall b, b ∈ blocks -> flat_map (fun tid => cta b tid bs) (seqZ 0 bs) ≡ₚ out b) ->
  (forall b, b ∈ blocks -> flat_map (fun lane => warp b lane) (seqZ 0 32) ≡ₚ out b) ->
  0 < grid -> 0 < bs -> bs mod 32 = 0 ->
  launch_with (kernel_with cta warp blocks grid bs) grid bs ≡ₚ flat_map out blocks.
Proof.
  intros Hcta Hwarp Hg Hbs Hm. rewrite by_index. unfold launch_with, kernel_with.
  assert (forall i, i ∈ seqZ 0 (vsize blocks) -> block_at blocks i ∈ blocks) as Hin.
  { intros i Hi%elem_of_seqZ. unfold block_at. apply list_elem_of_In, nth_In.
    unfold vsize in Hi. lia. }
  destruct (Z.leb_spec (vsize blocks) grid).
  - etransitivity; [apply flat_map_perm_in; intros; apply flat_map_swap|].
    rewrite <- flat_map_flat_map, strided_partition by done.
    apply flat_map_perm_in. intros i Hi. by apply Hcta, Hin.
  - apply Z.mod_divide in Hm as [w Hw]; [|lia]. subst bs. rewrite Z.div_mul by lia.
    assert (0 < w) by lia.
    set (g := fun i => flat_map (fun lane => warp (block_at blocks i) lane) (seqZ 0 32)).
    transitivity (flat_map (fun bi => flat_map (fun wi =>
      flat_map g (strided (bi * w + wi) (vsize blocks) (grid * w))) (seqZ 0 w)) (seqZ 0 grid)).
    + apply flat_map_perm_in. intros bi _. rewrite threads_by_warp by lia.
      apply flat_map_perm_in. intros wi Hwi%elem_of_seqZ.
      rewrite <- (warp_blocks g) by nia.
      etransitivity; [|symmetry; apply (flat_map_lanes (fun i lane => warp (block_at blocks i) lane))].
      apply flat_map_perm_in. intros lane Hla%elem_of_seqZ.
      replace ((wi * 32 + lane) / 32) with wi by (apply (Z.div_unique _ 32 wi lane); lia).
      replace ((wi * 32 + lane) mod 32) with lane by (apply (Z.mod_unique _ 32 wi lane); lia).
      done.
    + rewrite (flat_map_ext_elem _ (fun bi => flat_map (fun j =>
        flat_map g (strided j (vsize blocks) (grid * w))) (seqZ (bi * w) w))).
      2: { intros bi _. rewrite <- (flat_map_over_fmap (fun j =>
             flat_map g (strided j (vsize blocks) (grid * w))) (Z.add (bi * w))).
           rewrite fmap_add_seqZ. f_equal. f_equal. lia. }
      rewrite <- (flat_map_flat_map (fun j => flat_map g (strided j (vsize blocks) (grid * w)))).
      assert (flat_map (fun bi => seqZ (bi * w) w) (seqZ 0 grid) = seqZ 0 (grid * w)) as ->
        by (apply (seqZ_tile 0 w 0 grid); lia).
      rewrite <- (flat_map_flat_map g), strided_partition by nia.
      apply flat_map_perm_in. intros i Hi. by apply Hwarp, Hin.
Qed.

Lemma launch_once blocks grid bs :
  Forall (fun b => 0 <= k_len b) blocks -> 0 < grid -> 0 < bs -> bs mod 32 = 0 ->
  launch blocks grid bs ≡ₚ copies blocks.
Proof.
  intros Hlen Hg Hbs Hm. rewrite Forall_forall in Hlen.
  apply launch_with_once; [| |done..]; intros b Hb; unfold at_block; rewrite flat_map_fmap;
    apply at_block_perm; [apply cta_copy_once|apply warp_copy_once]; auto.
Qed.
