(* ===== verification/CopyKernel.v ===== *)
(** Copies between a contiguous host buffer and scattered device memory
    ([src/copy_kernels.cpp]): choice of a method, single launches, batches, the mixture of
    launches and plain copies, and that all of them move the same bytes.

    The device runs the operations of a stream in order; the threads of a launch run in the
    order [sched] gives, which the theorems leave arbitrary.  Every CUDA call succeeds:
    [CUDA_CHECK] ends the process otherwise. *)

From stdpp Require Import list_tactics.
From S2P Require Import Prelude.
From S2P Require Import Common.
From S2P Require Import CopySpec.
From S2P Require Import Channel.
From S2P Require Import DeviceKernel.

(** ** Data *)
Inductive CopyDirection := H2D | D2H.
Inductive CopyMethod := Kernel | MemcpyLoop.

#[export] Instance CopyDirection_eq_dec : EqDecision CopyDirection.
Proof. solve_decision. Defined.
#[export] Instance CopyMethod_eq_dec : EqDecision CopyMethod.
Proof. solve_decision. Defined.

Record CopyLayoutSummary := mkSummary {
  num_blocks : Z;
  total_bytes : Z;
  avg_block_size : Z;
  max_block_size : Z;
  all_same_size : bool;
}.

(** The measured table and the thresholds used without it. *)
Record CopyProfile := mkProfile {
  g_copy_profile_enabled : bool;
  g_copy_profile_table : list (CopyDirection * Z * Z * CopyMethod);
  g_copy_profile_block_counts : list Z;
  g_copy_profile_block_sizes : list Z;
  g_memcpy_fallback_block_threshold : Z;
  g_memcpy_fallback_max_blocks : Z;
}.

(** Host and device memory. *)
Record Mem := mkMem { host : memory; gpu : memory }.

Definition swap_pair (p : Z * Z) : Z * Z := (p.2, p.1).

(** Byte copies between (host address, device address) pairs. *)
Definition transfer (dir : CopyDirection) (l : list (Z * Z)) (m : Mem) : Mem :=
  match dir with
  | H2D => mkMem (host m) (exec_bytes (host m) l (gpu m))
  | D2H => mkMem (exec_bytes (gpu m) (swap_pair <$> l) (host m)) (gpu m)
  end.

Section Copy.
Context `{Env} (profile : CopyProfile)
  (grid_of block_of : CopyDirection -> Z)      (* [get_optimal_launch_config] *)
  (max_blocks_per_batch : Z)                   (* [env_kernel_copy_max_block_num()] *)
  (sched : list (Z * Z) -> list (Z * Z)).

(** ** Choosing a method *)

(** [summarize_layout]. *)
Definition summarize_layout (blocks : list IpcBlock) : res CopyLayoutSummary :=
  match blocks with
  | [] => Ok (mkSummary 0 0 0 0 true)
  | first :: _ =>
      let '(total, mx, same) :=
        foldl (fun '(total, mx, same) b =>
          (u64 (total + length_ b), Z.max mx (length_ b), same && (length_ b =? length_ first)))
          (0, 0, true) blocks in
      let* avg := udiv total (vsize blocks) in
      Ok (mkSummary (vsize blocks) total avg mx same)
  end.

(** [upper_bucket]; the bucket lists are sorted. *)
Definition upper_bucket (buckets : list Z) (value : Z) : Z :=
  match list_find (fun b => value <= b) buckets with
  | Some (_, b) => b
  | None => default 0 (last buckets)
  end.

Definition lookup_profile (dir : CopyDirection) (count size : Z) : option CopyMethod :=
  match list_find (fun e => e.1 = (dir, count, size)) (g_copy_profile_table profile) with
  | Some (_, e) => Some e.2
  | None => None
  end.

Definition profile_usable : bool :=
  g_copy_profile_enabled profile && negb (vsize (g_copy_profile_table profile) =? 0).

(** [select_copy_method]. *)
Definition select_copy_method (blocks : list IpcBlock) (dir : CopyDirection) : res CopyMethod :=
  let* s := summarize_layout blocks in
  if num_blocks s =? 0 then Ok Kernel else
  let measured :=
    if profile_usable then
      lookup_profile dir (upper_bucket (g_copy_profile_block_counts profile) (num_blocks s))
        (upper_bucket (g_copy_profile_block_sizes profile)
           (if all_same_size s then max_block_size s else avg_block_size s))
    else None in
  match measured with
  | Some method => Ok method
  | None =>
      if (num_blocks s <=? g_memcpy_fallback_max_blocks profile) &&
         (64 * 1024 <=? avg_block_size s) then Ok MemcpyLoop
      else if (g_memcpy_fallback_block_threshold profile <=? max_block_size s) &&
              (num_blocks s <=? g_memcpy_fallback_max_blocks profile) then Ok MemcpyLoop
      else Ok Kernel
  end.

(** [select_single_block_method]. *)
Definition select_single_block_method (block_size : Z) (dir : CopyDirection) : CopyMethod :=
  let fallback :=
    if g_memcpy_fallback_block_threshold profile <=? block_size then MemcpyLoop else Kernel in
  if profile_usable then
    default fallback (lookup_profile dir 1 (upper_bucket (g_copy_profile_block_sizes profile) block_size))
  else fallback.

(** ** Operations on the stream *)

(** [cudaMemcpyAsync] between [h] and [g]. *)
Definition memcpy (dir : CopyDirection) (h g len : Z) (m : Mem) : Mem :=
  transfer dir (at_block (mkKBlock h g len) (seqZ 0 len)) m.

(** The launch of a direct kernel on the offset arrays, from host and device bases. *)
Definition launch_direct (dir : CopyDirection) (hbase gbase : Z)
    (host_offsets gpu_offsets lengths : list Z) (m : Mem) : Mem :=
  let blocks := zip_with (fun hg len =>
    match dir with
    | H2D => mkKBlock (hbase + hg.1) (gbase + hg.2) len
    | D2H => mkKBlock (gbase + hg.2) (hbase + hg.1) len
    end) (zip host_offsets gpu_offsets) lengths in
  let pairs := sched (launch blocks (grid_of dir) (block_of dir)) in
  match dir with
  | H2D => transfer H2D pairs m
  | D2H => transfer D2H (swap_pair <$> pairs) m
  end.

(** One round of [enqueue_memcpy_loop]: (tensor offset, memory). *)
Definition memcpy_round (hbase gbase tensor_data_size : Z) (dir : CopyDirection) (b : IpcBlock)
    (s : Z * Mem) : res (Z * Mem) :=
  assert: (0 <? length_ b);
  assert: (u64 (s.1 + length_ b) <=? tensor_data_size);
  Ok (u64 (s.1 + length_ b),
      memcpy dir (hbase + s.1) (gbase + dst_offset b) (length_ b) s.2).

(** [enqueue_memcpy_loop]. *)
Definition enqueue_memcpy_loop (hbase gbase : Z) (blocks : list IpcBlock) (tensor_data_size : Z)
    (dir : CopyDirection) (m : Mem) : res Mem :=
  let* '(off, m) := forM blocks (memcpy_round hbase gbase tensor_data_size dir) (0, m) in
  assert: (off =? tensor_data_size);
  Ok m.

(** The offset arrays of [copy_handle_data_kernel_direct].  They hold [int64_t]: the casts from
    [size_t] change no value below 2^63, and an offset above it still gives the same 64-bit
    address when it is added to a base. *)
Definition fill_metadata (blocks : list IpcBlock) (tensor_data_size : Z) (explicit_ : bool)
    : res (Z * list Z * list Z * list Z) :=
  forM blocks (fun b '(off, hs, gs, ls) =>
    assert: (0 <? length_ b);
    assert: (u64 (off + length_ b) <=? tensor_data_size);
    let host_offset := if explicit_ then src_offset b else off in
    assert: (u64 (host_offset + length_ b) <=? tensor_data_size);
    Ok (u64 (off + length_ b), hs ++ [host_offset], gs ++ [dst_offset b], ls ++ [length_ b]))
    (0, [], [], []).

(** [copy_handle_data_kernel_direct]. *)
Definition copy_handle_data_kernel_direct (hbase gbase : Z) (blocks : list IpcBlock)
    (tensor_data_size : Z) (dir : CopyDirection) (explicit_ : bool) (m : Mem) : res Mem :=
  match blocks with
  | [] => Ok m
  | _ =>
      let* '(off, hs, gs, ls) := fill_metadata blocks tensor_data_size explicit_ in
      let* _ := if explicit_ then Ok tt else cassert (off =? tensor_data_size) in
      Ok (launch_direct dir hbase gbase hs gs ls m)
  end.

(** One round of [enqueue_kernel_explicit_offsets]: (processed blocks, memory). *)
Definition explicit_round (hbase gbase : Z) (blocks : list IpcBlock) (tensor_data_size : Z)
    (dir : CopyDirection) (s : Z * Mem) : res (Z * Mem) :=
  let '(processed, m) := s in
  let batch_size := Z.min max_blocks_per_batch (vsize blocks - processed) in
  let batch := take (Z.to_nat batch_size) (drop (Z.to_nat processed) blocks) in
  let* m := copy_handle_data_kernel_direct hbase gbase batch tensor_data_size dir true m in
  Ok (processed + batch_size, m).

(** [enqueue_kernel_explicit_offsets]. *)
Definition enqueue_kernel_explicit_offsets (hbase gbase : Z) (blocks : list IpcBlock)
    (tensor_data_size : Z) (dir : CopyDirection) (m : Mem) : res Mem :=
  let* s := while (length blocks) (fun s => s.1 <? vsize blocks)
              (explicit_round hbase gbase blocks tensor_data_size dir) (0, m) in
  Ok s.2.

(** The loop of [enqueue_hybrid_copy] over (offset, plain copies made, blocks left to a
    kernel, memory). *)
Definition hybrid_loop (hbase gbase : Z) (blocks : list IpcBlock) (dir : CopyDirection) (m : Mem)
    : Z * Z * list IpcBlock * Mem :=
  foldl (fun '(off, n, ks, m) b =>
    match select_single_block_method (length_ b) dir with
    | MemcpyLoop =>
        (u64 (off + length_ b), n + 1, ks,
         memcpy dir (hbase + off) (gbase + dst_offset b) (length_ b) m)
    | Kernel =>
        (u64 (off + length_ b), n, ks ++ [mkIpcBlock off (dst_offset b) (length_ b)], m)
    end) (0, 0, [], m) blocks.

(** [enqueue_hybrid_copy]: [None] when it did not handle the copy. *)
Definition enqueue_hybrid_copy (hbase gbase : Z) (blocks : list IpcBlock) (tensor_data_size : Z)
    (dir : CopyDirection) (m : Mem) : res (option Mem) :=
  let '(_, memcpy_blocks, kernel_blocks, m') := hybrid_loop hbase gbase blocks dir m in
  if memcpy_blocks =? 0 then Ok None
  else match kernel_blocks with
       | [] => Ok (Some m')
       | _ => let* m' := enqueue_kernel_explicit_offsets hbase gbase kernel_blocks
                           tensor_data_size dir m' in
              Ok (Some m')
       end.

(** One batch of [copy_handle_data_with_kernel]: (processed, tensor offset, memory). *)
Definition batch_round (hbase gbase : Z) (blocks : list IpcBlock) (dir : CopyDirection)
    (s : Z * Z * Mem) : res (Z * Z * Mem) :=
  let '(processed, tensor_offset, m) := s in
  let batch_size := Z.min max_blocks_per_batch (vsize blocks - processed) in
  let '(batch_blocks, batch_tensor_size, tensor_offset) :=
    foldl (fun '(bs, size, off) b =>
      (bs ++ [mkIpcBlock size (dst_offset b) (length_ b)], u64 (size + length_ b),
       u64 (off + length_ b)))
      ([], 0, tensor_offset) (take (Z.to_nat batch_size) (drop (Z.to_nat processed) blocks)) in
  let batch_hbase := hbase + u64 (tensor_offset - batch_tensor_size) in
  let* m := copy_handle_data_kernel_direct batch_hbase gbase batch_blocks batch_tensor_size dir
              false m in
  Ok (processed + batch_size, tensor_offset, m).

(** [copy_handle_data_with_kernel]. *)
Definition copy_handle_data_with_kernel (hbase gbase : Z) (blocks : list IpcBlock)
    (tensor_data_size : Z) (dir : CopyDirection) (m : Mem) : res Mem :=
  if vsize blocks =? 0 then Ok m else
  let* summary := summarize_layout blocks in
  let* method := select_copy_method blocks dir in
  match method with
  | MemcpyLoop => enqueue_memcpy_loop hbase gbase blocks tensor_data_size dir m
  | Kernel =>
      let* handled :=
        if all_same_size summary then Ok None
        else enqueue_hybrid_copy hbase gbase blocks tensor_data_size dir m in
      match handled with
      | Some m => Ok m
      | None =>
          if vsize blocks <=? max_blocks_per_batch then
            copy_handle_data_kernel_direct hbase gbase blocks tensor_data_size dir false m
          else
            let* s := while (length blocks) (fun s => s.1.1 <? vsize blocks)
                        (batch_round hbase gbase blocks dir) (0, 0, m) in
            Ok s.2
      end
  end.

(** ** Specification *)

(** The blocks with the host side laid out contiguously from [off]. *)
Fixpoint layout (hbase gbase off : Z) (blocks : list IpcBlock) : list KBlock :=
  match blocks with
  | [] => []
  | b :: rest =>
      mkKBlock (hbase + off) (gbase + dst_offset b) (length_ b)
        :: layout hbase gbase (off + length_ b) rest
  end.

Definition sum_length (blocks : list IpcBlock) : Z := foldr (fun b n => length_ b + n) 0 blocks.

(** Gather to, or scatter from, the contiguous buffer, byte by byte in order. *)
Definition reference_copy (hbase gbase : Z) (blocks : list IpcBlock) (dir : CopyDirection)
    (m : Mem) : Mem :=
  transfer dir (copies (layout hbase gbase 0 blocks)) m.

(** The addresses written. *)
Definition targets (dir : CopyDirection) (l : list (Z * Z)) : list Z :=
  match dir with H2D => l.*2 | D2H => l.*1 end.

(** Memories are compared byte by byte. *)
#[export] Instance mem_equiv : Equiv Mem := fun m m' =>
  (forall a, host m a = host m' a) /\ (forall a, gpu m a = gpu m' a).

#[export] Instance mem_equivalence : Equivalence (≡@{Mem}).
Proof.
  split.
  - by intros m.
  - intros m m' [Hh Hg]. by split.
  - intros m1 m2 m3 [Hh Hg] [Hh' Hg']. split; intros a; [by rewrite Hh|by rewrite Hg].
Qed.

Hypothesis sched_perm : forall l, sched l ≡ₚ l.
Hypothesis config_ok : forall dir, 0 < grid_of dir /\ 0 < block_of dir /\ block_of dir mod 32 = 0.
Hypothesis batch_ok : 0 < max_blocks_per_batch.

(** ** Memory effect *)
Lemma exec_bytes_ext src src' l dst dst' :
  (forall a, src a = src' a) -> (forall a, dst a = dst' a) ->
  forall a, exec_bytes src l dst a = exec_bytes src' l dst' a.
Proof.
  intros Hs. unfold exec_bytes. revert dst dst'.
  induction l as [|[s d] l IH]; intros dst dst' Hd a; simpl; [done|]. apply IH.
  intros x. unfold store. simpl. by rewrite Hs, Hd.
Qed.

#[local] Instance transfer_proper dir l : Proper ((≡) ==> (≡)) (transfer dir l).
Proof.
  intros m m' [Hh Hg]. destruct dir; split; simpl; try done; by apply exec_bytes_ext.
Qed.

Lemma transfer_app dir l1 l2 m : transfer dir (l1 ++ l2) m = transfer dir l2 (transfer dir l1 m).
Proof. destruct dir; simpl; by rewrite ?fmap_app, exec_bytes_app. Qed.

(** Copies to different places may be made in any order. *)
Lemma transfer_perm dir l1 l2 m :
  l1 ≡ₚ l2 -> NoDup (targets dir l2) -> transfer dir l1 m ≡ transfer dir l2 m.
Proof.
  intros Hp Hnd. symmetry in Hp. destruct dir; split; simpl; try done; intros a; symmetry.
  - by apply exec_bytes_perm.
  - apply exec_bytes_perm; [|by rewrite Hp]. rewrite <- list_fmap_compose.
    by rewrite (list_fmap_ext _ fst).
Qed.

Lemma targets_perm dir l1 l2 : l1 ≡ₚ l2 -> targets dir l1 ≡ₚ targets dir l2.
Proof. destruct dir; simpl; by intros ->. Qed.

Lemma targets_app dir l1 l2 : targets dir (l1 ++ l2) = targets dir l1 ++ targets dir l2.
Proof. destruct dir; apply fmap_app. Qed.

(** [m'] is [m] after the copies of some blocks. *)
Definition moved (dir : CopyDirection) (ks : list KBlock) (m m' : Mem) : Prop :=
  m' ≡ transfer dir (copies ks) m.

Lemma copies_app ks1 ks2 : copies (ks1 ++ ks2) = copies ks1 ++ copies ks2.
Proof. apply flat_map_app. Qed.

Lemma copies_cons k ks : copies (k :: ks) = block_copies k ++ copies ks.
Proof. done. Qed.

Lemma moved_app dir ks1 ks2 m m1 m2 :
  moved dir ks1 m m1 -> moved dir ks2 m1 m2 -> moved dir (ks1 ++ ks2) m m2.
Proof. unfold moved. intros H1 H2. by rewrite copies_app, transfer_app, H2, H1. Qed.

Lemma memcpy_moved dir h g len m : moved dir [mkKBlock h g len] m (memcpy dir h g len m).
Proof. unfold moved, copies, block_copies, memcpy. simpl. by rewrite app_nil_r. Qed.

(** A launch on arrays that list the blocks. *)
Definition flip (k : KBlock) : KBlock := mkKBlock (k_dst k) (k_src k) (k_len k).

Lemma copies_flip ks : copies (flip <$> ks) = swap_pair <$> copies ks.
Proof.
  unfold copies. rewrite flat_map_over_fmap, <- flat_map_fmap. apply flat_map_ext_elem.
  intros k _. unfold block_copies, at_block, flip. simpl. by rewrite <- list_fmap_compose.
Qed.

Lemma launch_moved dir hbase gbase hs gs ls ks m :
  ks = zip_with (fun hg len => mkKBlock (hbase + hg.1) (gbase + hg.2) len) (zip hs gs) ls ->
  Forall (fun k => 0 <= k_len k) ks -> NoDup (targets dir (copies ks)) ->
  moved dir ks m (launch_direct dir hbase gbase hs gs ls m).
Proof.
  intros Hks Hlen Hnd. destruct (config_ok dir) as (Hg & Hb & Hm).
  unfold moved, launch_direct. destruct dir.
  - rewrite <- Hks. apply transfer_perm; [|done]. rewrite sched_perm. by apply launch_once.
  - assert (zip_with (fun hg len => mkKBlock (gbase + hg.2) (hbase + hg.1) len) (zip hs gs) ls
      = flip <$> ks) as ->.
    { rewrite Hks. generalize (zip hs gs). clear. revert ls.
      induction ls as [|n ls IH]; intros [|hg l]; csimpl; [done..|]. by rewrite IH. }
    apply transfer_perm; [|done]. rewrite sched_perm, launch_once; [|by apply Forall_fmap|done..].
    rewrite copies_flip, <- list_fmap_compose.
    rewrite (list_fmap_ext _ id) by (intros; by destruct x). by rewrite list_fmap_id.
Qed.

(** ** Single launches *)
Definition blocks_ok (blocks : list IpcBlock) : Prop := Forall (fun b => 0 < length_ b) blocks.

Lemma sum_length_app u v : sum_length (u ++ v) = sum_length u + sum_length v.
Proof. induction u as [|b u IH]; simpl; [done|]. rewrite IH. lia. Qed.

Lemma sum_length_nonneg blocks : blocks_ok blocks -> 0 <= sum_length blocks.
Proof. induction 1; simpl; lia. Qed.

Lemma layout_app hbase gbase off u v :
  layout hbase gbase off (u ++ v) =
  layout hbase gbase off u ++ layout hbase gbase (off + sum_length u) v.
Proof.
  revert off. induction u as [|b u IH]; intros off; simpl.
  - f_equal. lia.
  - rewrite IH. do 3 f_equal. lia.
Qed.

Lemma layout_shift hbase gbase off d blocks :
  layout (hbase + d) gbase off blocks = layout hbase gbase (d + off) blocks.
Proof.
  revert off. induction blocks as [|b blocks IH]; intros off; simpl; [done|].
  rewrite IH. f_equal; [f_equal; lia|f_equal; lia].
Qed.

Lemma layout_lengths hbase gbase off blocks :
  blocks_ok blocks -> Forall (fun k => 0 <= k_len k) (layout hbase gbase off blocks).
Proof. intros Hb. revert off. induction Hb; intros off; constructor; simpl; [lia|done]. Qed.

(** The blocks with their host side where [src_offset] says. *)
Definition explicit_blocks (hbase gbase : Z) (blocks : list IpcBlock) : list KBlock :=
  (fun b => mkKBlock (hbase + src_offset b) (gbase + dst_offset b) (length_ b)) <$> blocks.

Definition kernel_blocks (ex : bool) (hbase gbase off : Z) (blocks : list IpcBlock) : list KBlock :=
  if ex then explicit_blocks hbase gbase blocks else layout hbase gbase off blocks.

Fixpoint host_offsets (ex : bool) (off : Z) (blocks : list IpcBlock) : list Z :=
  match blocks with
  | [] => []
  | b :: rest => (if ex then src_offset b else off) :: host_offsets ex (off + length_ b) rest
  end.

Lemma kernel_blocks_arrays ex hbase gbase off blocks :
  kernel_blocks ex hbase gbase off blocks =
  zip_with (fun hg len => mkKBlock (hbase + hg.1) (gbase + hg.2) len)
    (zip (host_offsets ex off blocks) (dst_offset <$> blocks)) (length_ <$> blocks).
Proof.
  revert off. induction blocks as [|b blocks IH]; intros off; csimpl; [by destruct ex|].
  rewrite <- IH. by destruct ex.
Qed.

(** What the assertions ask of explicit offsets. *)
Definition offsets_ok (size : Z) (blocks : list IpcBlock) : Prop :=
  Forall (fun b => 0 <= src_offset b /\ src_offset b + length_ b <= size) blocks.

Lemma fill_metadata_spec ex blocks size :
  blocks_ok blocks -> size < W64 -> (ex = true -> offsets_ok size blocks) ->
  forall off hs gs ls, 0 <= off -> off + sum_length blocks <= size ->
  forM blocks (fun b '(off, hs, gs, ls) =>
    assert: (0 <? length_ b);
    assert: (u64 (off + length_ b) <=? size);
    let host_offset := if ex then src_offset b else off in
    assert: (u64 (host_offset + length_ b) <=? size);
    Ok (u64 (off + length_ b), hs ++ [host_offset], gs ++ [dst_offset b], ls ++ [length_ b]))
    (off, hs, gs, ls) =
  Ok (off + sum_length blocks, hs ++ host_offsets ex off blocks, gs ++ (dst_offset <$> blocks),
      ls ++ (length_ <$> blocks)).
Proof.
  intros Hb Hsize Hex. induction Hb as [|b blocks Hl Hb IH]; intros off hs gs ls Hoff Hsum; csimpl in *.
  { rewrite !app_nil_r. do 4 f_equal. lia. }
  pose proof (sum_length_nonneg _ Hb).
  assert (ex = true -> 0 <= src_offset b /\ src_offset b + length_ b <= size) as Hso
    by (intros He; apply Hex in He; by apply Forall_cons in He as [? _]).
  rewrite cassert_true by (by apply Z.ltb_lt). simpl. rewrite (u64_small (off + length_ b)) by lia.
  rewrite cassert_true by (apply Z.leb_le; lia). simpl.
  rewrite cassert_true.
  2: { apply Z.leb_le. destruct ex; [specialize (Hso eq_refl)|]; rewrite u64_small; lia. }
  simpl. rewrite IH; [|intros He; apply Hex in He; by apply Forall_cons in He as [_ ?]|lia..].
  rewrite <- !app_assoc. csimpl. do 4 f_equal. lia.
Qed.

Lemma kernel_direct_spec ex hbase gbase blocks size dir m :
  blocks_ok blocks -> size < W64 -> (ex = true -> offsets_ok size blocks) ->
  (if ex then sum_length blocks <= size else sum_length blocks = size) ->
  NoDup (targets dir (copies (kernel_blocks ex hbase gbase 0 blocks))) ->
  exists m', copy_handle_data_kernel_direct hbase gbase blocks size dir ex m = Ok m' /\
    moved dir (kernel_blocks ex hbase gbase 0 blocks) m m'.
Proof.
  intros Hb Hsize Hex Hsum Hnd. unfold copy_handle_data_kernel_direct.
  destruct (decide (blocks = [])) as [->|Hne].
  { exists m. split; [done|]. unfold moved. by destruct ex, dir. }
  assert (forall A (x y : A), match blocks with [] => x | _ => y end = y) as -> by (by destruct blocks).
  assert (fill_metadata blocks size ex = Ok (0 + sum_length blocks, host_offsets ex 0 blocks,
    dst_offset <$> blocks, length_ <$> blocks)) as ->
    by (apply (fill_metadata_spec ex blocks size Hb Hsize Hex 0 [] [] []); destruct ex; lia).
  cbn [rbind]. assert ((if ex then Ok tt else cassert (0 + sum_length blocks =? size)) = Ok tt) as ->.
  { destruct ex; [done|]. apply cassert_true, Z.eqb_eq. lia. }
  cbn [rbind]. eexists. split; [done|]. apply launch_moved; [apply kernel_blocks_arrays| |done].
  destruct ex; [|by apply layout_lengths].
  apply Forall_fmap. apply (Forall_impl _ _ _ Hb). simpl. lia.
Qed.

(** ** Plain copies *)
Lemma memcpy_loop_spec hbase gbase blocks size dir m :
  blocks_ok blocks -> sum_length blocks = size -> size < W64 ->
  exists m', enqueue_memcpy_loop hbase gbase blocks size dir m = Ok m' /\
    moved dir (layout hbase gbase 0 blocks) m m'.
Proof.
  intros Hb Hsum Hsize. unfold enqueue_memcpy_loop.
  assert (forall off m, 0 <= off -> off + sum_length blocks <= size ->
    exists m', forM blocks (memcpy_round hbase gbase size dir) (off, m) =
      Ok (off + sum_length blocks, m') /\
    moved dir (layout hbase gbase off blocks) m m') as Hloop.
  { clear Hsum m. induction Hb as [|b blocks Hl Hb IH]; intros off m Hoff Hsum; cbn [forM].
    { exists m. simpl. split; [do 2 f_equal; lia|]. unfold moved. by destruct dir. }
    simpl in Hsum. pose proof (sum_length_nonneg _ Hb).
    unfold memcpy_round at 1. cbn [fst snd].
    rewrite cassert_true by (by apply Z.ltb_lt). cbn [rbind].
    rewrite (u64_small (off + length_ b)) by lia.
    rewrite cassert_true by (apply Z.leb_le; lia). cbn [rbind].
    destruct (IH (off + length_ b) (memcpy dir (hbase + off) (gbase + dst_offset b) (length_ b) m))
      as (m' & -> & Hm'); [lia..|].
    exists m'. simpl. split; [do 2 f_equal; lia|].
    apply (moved_app dir [_] _ _ _ _ (memcpy_moved dir _ _ _ m) Hm'). }
  destruct (Hloop 0 m) as (m' & -> & Hm'); [lia..|]. cbn [rbind].
  rewrite cassert_true by (apply Z.eqb_eq; lia). simpl. eauto.
Qed.

(** ** Batches *)
Lemma while_ok {S} (Inv : S -> Prop) (mes : S -> Z) cond body fuel (s : S) :
  (forall s, Inv s -> cond s = true ->
     exists s', body s = Ok s' /\ Inv s' /\ 0 <= mes s' < mes s) ->
  Inv s -> 0 <= mes s <= Z.of_nat fuel ->
  exists s', while fuel cond body s = Ok s' /\ Inv s' /\ cond s' = false.
Proof.
  intros Hbody. revert s. induction fuel as [|fuel IH]; intros s HI Hm; simpl;
    (destruct (cond s) eqn:Hc; [|by exists s]); 
    destruct (Hbody s HI Hc) as (s' & Hs' & HI' & Hlt); [lia|].
  rewrite Hs'. simpl. apply IH; [done|lia].
Qed.

(** The next batch after [p] blocks. *)
Lemma batch_split {A} (l : list A) p :
  0 <= p < vsize l ->
  let n := Z.min max_blocks_per_batch (vsize l - p) in
  let batch := take (Z.to_nat n) (drop (Z.to_nat p) l) in
  0 < n /\ p + n <= vsize l /\
  take (Z.to_nat (p + n)) l = take (Z.to_nat p) l ++ batch /\
  l = take (Z.to_nat p) l ++ batch ++ drop (Z.to_nat (p + n)) l.
Proof.
  intros Hp n batch. assert (0 < n) by lia. split; [done|]. split; [lia|].
  rewrite Z2Nat.inj_add by lia. unfold batch. split.
  - by rewrite take_take_drop.
  - rewrite <- drop_drop, take_drop. by rewrite take_drop.
Qed.

Lemma NoDup_targets_mid dir l1 l2 l3 :
  NoDup (targets dir (copies (l1 ++ l2 ++ l3))) -> NoDup (targets dir (copies l2)).
Proof.
  rewrite !copies_app, !targets_app. intros (_ & _ & Hnd)%NoDup_app.
  by apply NoDup_app in Hnd as (? & _ & _).
Qed.

Lemma explicit_batches_spec hbase gbase blocks size dir m :
  blocks_ok blocks -> size < W64 -> offsets_ok size blocks -> sum_length blocks <= size ->
  NoDup (targets dir (copies (explicit_blocks hbase gbase blocks))) ->
  exists m', enqueue_kernel_explicit_offsets hbase gbase blocks size dir m = Ok m' /\
    moved dir (explicit_blocks hbase gbase blocks) m m'.
Proof.
  intros Hb Hsize Ho Hsum Hnd. unfold enqueue_kernel_explicit_offsets.
  destruct (while_ok (fun s => 0 <= s.1 <= vsize blocks /\
      moved dir (explicit_blocks hbase gbase (take (Z.to_nat s.1) blocks)) m s.2)
    (fun s => vsize blocks - s.1) (fun s => s.1 <? vsize blocks)
    (explicit_round hbase gbase blocks size dir) (length blocks) (0, m))
    as ([p m'] & -> & [Hp Hm'] & Hc); simpl in *.
  - intros [p m1] [Hp Hm1] Hc%Z.ltb_lt. simpl in *.
    destruct (batch_split blocks p) as (Hn & Hle & Htake & Hsplit); [lia|].
    unfold explicit_round.
    set (n := Z.min max_blocks_per_batch (vsize blocks - p)) in *.
    set (batch := take (Z.to_nat n) _) in *.
    rewrite Hsplit in Hb, Ho, Hsum, Hnd. unfold blocks_ok, offsets_ok in *.
    rewrite !Forall_app in Hb, Ho. rewrite !sum_length_app in Hsum.
    pose proof (sum_length_nonneg _ (proj1 Hb)).
    pose proof (sum_length_nonneg _ (proj2 (proj2 Hb))).
    unfold explicit_blocks in Hnd. rewrite !fmap_app in Hnd.
    destruct (kernel_direct_spec true hbase gbase batch size dir m1) as (m2 & -> & Hm2);
      [tauto|done|tauto|lia|by eapply NoDup_targets_mid|].
    cbn [rbind]. eexists. split; [done|]. simpl. split; [|lia]. split; [lia|].
    rewrite Htake. unfold explicit_blocks. rewrite fmap_app. by eapply moved_app.
  - split; [unfold vsize; lia|]. unfold moved. by destruct dir.
  - unfold vsize. lia.
  - exists m'. split; [done|]. apply Z.ltb_ge in Hc.
    by rewrite take_ge in Hm' by (unfold vsize in *; lia).
Qed.

(** A batch with offsets that start again at [size]. *)
Fixpoint rebased (size : Z) (blocks : list IpcBlock) : list IpcBlock :=
  match blocks with
  | [] => []
  | b :: rest => mkIpcBlock size (dst_offset b) (length_ b) :: rebased (size + length_ b) rest
  end.

Lemma rebased_layout hbase gbase off size blocks :
  layout hbase gbase off (rebased size blocks) = layout hbase gbase off blocks.
Proof.
  revert off size. induction blocks as [|b blocks IH]; intros off size; simpl; [done|]. by rewrite IH.
Qed.

Lemma rebased_sum size blocks : sum_length (rebased size blocks) = sum_length blocks.
Proof. revert size. induction blocks as [|b blocks IH]; intros size; simpl; [done|]. by rewrite IH. Qed.

Lemma rebased_ok size blocks : blocks_ok blocks -> blocks_ok (rebased size blocks).
Proof. intros Hb. revert size. induction Hb; intros size; constructor; [done|]. apply IHHb. Qed.

Lemma batch_fold blocks bs size off :
  blocks_ok blocks -> 0 <= size -> 0 <= off ->
  size + sum_length blocks < W64 -> off + sum_length blocks < W64 ->
  foldl (fun '(bs, size, off) b =>
      (bs ++ [mkIpcBlock size (dst_offset b) (length_ b)], u64 (size + length_ b),
       u64 (off + length_ b))) (bs, size, off) blocks =
  (bs ++ rebased size blocks, size + sum_length blocks, off + sum_length blocks).
Proof.
  intros Hb. revert bs size off. induction Hb as [|b blocks Hl Hb IH]; intros bs size off Hs Ho H1 H2;
    simpl in *.
  - rewrite app_nil_r. f_equal; [f_equal|]; lia.
  - pose proof (sum_length_nonneg _ Hb). rewrite !u64_small by lia. rewrite IH by lia.
    rewrite <- app_assoc. f_equal; [f_equal|]; lia.
Qed.

Lemma batches_spec hbase gbase blocks dir m :
  blocks_ok blocks -> sum_length blocks < W64 ->
  NoDup (targets dir (copies (layout hbase gbase 0 blocks))) ->
  exists s', while (length blocks) (fun s => s.1.1 <? vsize blocks)
      (batch_round hbase gbase blocks dir) (0, 0, m) = Ok s' /\
    moved dir (layout hbase gbase 0 blocks) m s'.2.
Proof.
  intros Hb Hsize Hnd.
  destruct (while_ok (fun s => 0 <= s.1.1 <= vsize blocks /\
      s.1.2 = sum_length (take (Z.to_nat s.1.1) blocks) /\
      moved dir (layout hbase gbase 0 (take (Z.to_nat s.1.1) blocks)) m s.2)
    (fun s => vsize blocks - s.1.1) (fun s => s.1.1 <? vsize blocks)
    (batch_round hbase gbase blocks dir) (length blocks) (0, 0, m))
    as ([[p off] m'] & -> & (Hp & Hoff & Hm') & Hc); simpl in *.
  - intros [[p off] m1] (Hp & Hoff & Hm1) Hc%Z.ltb_lt. simpl in *.
    destruct (batch_split blocks p) as (Hn & Hle & Htake & Hsplit); [lia|].
    unfold batch_round.
    set (n := Z.min max_blocks_per_batch (vsize blocks - p)) in *.
    set (batch := take (Z.to_nat n) _) in *.
    rewrite Hsplit in Hb, Hsize, Hnd. unfold blocks_ok in Hb.
    rewrite !Forall_app in Hb. destruct Hb as (Hb1 & Hb2 & Hb3).
    rewrite !sum_length_app, <- Hoff in Hsize.
    pose proof (sum_length_nonneg _ Hb1). pose proof (sum_length_nonneg _ Hb2).
    pose proof (sum_length_nonneg _ Hb3).
    rewrite batch_fold by (done || lia). simpl. rewrite (Z.add_0_l (sum_length batch)).
    rewrite u64_small by lia. replace (off + sum_length batch - (sum_length batch)) with off by lia.
    rewrite !layout_app, Z.add_0_l, <- Hoff in Hnd.
    destruct (kernel_direct_spec false (hbase + off) gbase (rebased 0 batch) (sum_length batch) dir m1)
      as (m2 & -> & Hm2); [by apply rebased_ok|lia|done|apply rebased_sum| |].
    { simpl. rewrite rebased_layout, layout_shift, Z.add_0_r. by eapply NoDup_targets_mid. }
    simpl in Hm2 |- *. rewrite rebased_layout, layout_shift, Z.add_0_r in Hm2.
    eexists. split; [done|]. simpl. split; [|lia]. rewrite Htake.
    rewrite sum_length_app, layout_app, Z.add_0_l, <- Hoff.
    split_and!; [lia..|]. by eapply moved_app.
  - split_and!; [unfold vsize; lia..|done|]. unfold moved. by destruct dir.
  - unfold vsize. lia.
  - eexists. split; [done|]. apply Z.ltb_ge in Hc. simpl.
    by rewrite take_ge in Hm' by (unfold vsize in *; lia).
Qed.

(** ** Launches mixed with plain copies *)

(** What the hybrid loop has done: plain copies of [ps], and [ks] left to a kernel, which
    together are the blocks. *)
Lemma hybrid_loop_spec hbase gbase blocks dir size :
  blocks_ok blocks -> size < W64 ->
  forall off n ks m, 0 <= off -> off + sum_length blocks <= size -> 0 <= n ->
  exists n' ps ks' m',
    foldl (fun '(off, n, ks, m) b =>
      match select_single_block_method (length_ b) dir with
      | MemcpyLoop =>
          (u64 (off + length_ b), n + 1, ks,
           memcpy dir (hbase + off) (gbase + dst_offset b) (length_ b) m)
      | Kernel =>
          (u64 (off + length_ b), n, ks ++ [mkIpcBlock off (dst_offset b) (length_ b)], m)
      end) (off, n, ks, m) blocks = (off + sum_length blocks, n', ks ++ ks', m') /\
    moved dir ps m m' /\ n <= n' /\
    copies (ps ++ explicit_blocks hbase gbase ks') ≡ₚ copies (layout hbase gbase off blocks) /\
    blocks_ok ks' /\ offsets_ok size ks' /\ sum_length ks' <= sum_length blocks.
Proof.
  intros Hb Hsize. induction Hb as [|b blocks Hl Hb IH]; intros off n ks m Hoff Hsum Hn; simpl in *.
  { exists n, [], [], m. rewrite app_nil_r. split_and!; [|by unfold moved; destruct dir|lia|done|..].
    - do 3 f_equal. lia.
    - constructor.
    - constructor.
    - done. }
  pose proof (sum_length_nonneg _ Hb). rewrite u64_small by lia.
  set (k := mkKBlock (hbase + off) (gbase + dst_offset b) (length_ b)).
  destruct (select_single_block_method (length_ b) dir).
  - destruct (IH (off + length_ b) n (ks ++ [mkIpcBlock off (dst_offset b) (length_ b)]) m)
      as (n' & ps & ks' & m' & -> & Hm & Hn' & Hp & Hok & Ho & Hs); [lia..|].
    exists n', ps, (mkIpcBlock off (dst_offset b) (length_ b) :: ks'), m'. simpl.
    split_and!; [|done|done| |by constructor| |lia].
    + rewrite <- app_assoc. do 3 f_equal. lia.
    + unfold explicit_blocks. csimpl. fold k (explicit_blocks hbase gbase ks').
      rewrite copies_app in Hp |- *. rewrite !copies_cons, <- Hp. solve_Permutation.
    + constructor; [simpl; lia|done].
  - destruct (IH (off + length_ b) (n + 1) ks (memcpy dir (hbase + off) (gbase + dst_offset b) (length_ b) m))
      as (n' & ps & ks' & m' & -> & Hm & Hn' & Hp & Hok & Ho & Hs); [lia..|].
    exists n', (k :: ps), ks', m'. split_and!; [| |lia| |done|done|lia].
    + do 3 f_equal. lia.
    + apply (moved_app dir [k] ps _ _ _ (memcpy_moved dir _ _ _ m) Hm).
    + rewrite <- app_comm_cons, !copies_cons. by rewrite Hp.
Qed.

Lemma hybrid_spec hbase gbase blocks dir m :
  blocks_ok blocks -> sum_length blocks < W64 ->
  NoDup (targets dir (copies (layout hbase gbase 0 blocks))) ->
  exists o, enqueue_hybrid_copy hbase gbase blocks (sum_length blocks) dir m = Ok o /\
    match o with Some m' => moved dir (layout hbase gbase 0 blocks) m m' | None => True end.
Proof.
  intros Hb Hsize Hnd. unfold enqueue_hybrid_copy, hybrid_loop.
  destruct (hybrid_loop_spec hbase gbase blocks dir (sum_length blocks) Hb Hsize 0 0 [] m)
    as (n' & ps & ks & m' & -> & Hm & _ & Hp & Hok & Ho & Hs); [lia..|]. simpl.
  destruct (n' =? 0); [by exists None|].
  assert (moved dir (ps ++ explicit_blocks hbase gbase ks) m
    (transfer dir (copies (explicit_blocks hbase gbase ks)) m')) as Hall
    by (by eapply moved_app).
  assert (forall m2, m2 ≡ transfer dir (copies (explicit_blocks hbase gbase ks)) m' ->
    moved dir (layout hbase gbase 0 blocks) m m2) as Hdone.
  { intros m2 Hm2. unfold moved in *. rewrite Hm2, Hall. by apply transfer_perm. }
  destruct ks as [|k ks]; [exists (Some m'); split; [done|]; apply Hdone; by destruct dir|].
  destruct (explicit_batches_spec hbase gbase (k :: ks) (sum_length blocks) dir m')
    as (m2 & -> & Hm2); [done..| |].
  { rewrite copies_app in Hp. assert (NoDup (targets dir (copies ps ++
      copies (explicit_blocks hbase gbase (k :: ks))))) as Hnd' by (by rewrite (targets_perm _ _ _ Hp)).
    rewrite targets_app in Hnd'. by apply NoDup_app in Hnd' as (_ & _ & ?). }
  simpl. exists (Some m2). split; [done|]. by apply Hdone.
Qed.

(** ** Theorem *)
Lemma summarize_layout_ok blocks : exists s, summarize_layout blocks = Ok s.
Proof.
  unfold summarize_layout. destruct blocks as [|b blocks]; [by eexists|].
  destruct (foldl _ _ _) as [[total mx] same]. unfold udiv, vsize.
  destruct (Z.eqb_spec (Z.of_nat (length (b :: blocks))) 0); [simpl in *; lia|]. simpl. eauto.
Qed.

Lemma select_copy_method_ok blocks dir : exists meth, select_copy_method blocks dir = Ok meth.
Proof.
  unfold select_copy_method. destruct (summarize_layout_ok blocks) as [s ->]. simpl.
  repeat case_match; eauto.
Qed.

Lemma copy_moves hbase gbase blocks size dir m :
  blocks_ok blocks -> sum_length blocks = size -> size < W64 ->
  NoDup (targets dir (copies (layout hbase gbase 0 blocks))) ->
  exists m', copy_handle_data_with_kernel hbase gbase blocks size dir m = Ok m' /\
    m' ≡ reference_copy hbase gbase blocks dir m.
Proof.
  intros Hb Hsum Hsize Hnd. unfold copy_handle_data_with_kernel.
  fold (moved dir (layout hbase gbase 0 blocks) m).
  destruct (Z.eqb_spec (vsize blocks) 0) as [Hz|_].
  { destruct blocks; [|unfold vsize in Hz; simpl in Hz; lia]. exists m. split; [done|]. by destruct dir. }
  destruct (summarize_layout_ok blocks) as [sm ->], (select_copy_method_ok blocks dir) as [meth ->].
  cbn [rbind]. destruct meth; [|by apply memcpy_loop_spec].
  assert (exists o, (if all_same_size sm then Ok None
      else enqueue_hybrid_copy hbase gbase blocks size dir m) = Ok o /\
    match o with Some m' => moved dir (layout hbase gbase 0 blocks) m m' | None => True end)
    as (o & -> & Ho).
  { destruct (all_same_size sm); [by exists None|]. subst size. by apply hybrid_spec. }
  cbn [rbind]. destruct o as [m'|]; [by exists m'|].
  destruct (vsize blocks <=? max_blocks_per_batch).
  - by apply (kernel_direct_spec false).
  - subst size. destruct (batches_spec hbase gbase blocks dir m Hb Hsize Hnd) as (s' & -> & Hs').
    cbn [rbind]. by exists s'.2.
Qed.
(** C29: copy_handle_data_with_kernel moves the same bytes whatever the profile table, the
    launch configuration, the batch size and the order in which the GPU runs its threads:
    for blocks whose targets do not overlap it succeeds and the memory is that of copying
    block after block between the packed host buffer and the GPU offsets. *)
Theorem copy_is_method_independent hbase gbase blocks size dir m :
  blocks_ok blocks -> sum_length blocks = size -> size < W64 ->
  NoDup (targets dir (copies (layout hbase gbase 0 blocks))) ->
  exists m', copy_handle_data_with_kernel hbase gbase blocks size dir m = Ok m' /\
    m' ≡ reference_copy hbase gbase blocks dir m.
Proof. apply copy_moves. Qed.
End Copy.

(** ** Example *)
Definition sample_profile : CopyProfile := mkProfile true [(H2D, 1, 16, Kernel)] [1] [16] 32 1.

Definition sample_copy : list IpcBlock :=
  [mkIpcBlock 0 0 40; mkIpcBlock 0 112 16; mkIpcBlock 0 64 3].

Lemma copy_is_method_independent_witness :
  exists m',
    @copy_handle_data_with_kernel debug_env sample_profile (fun _ => 2) (fun _ => 64) 1 reverse
      1000 0 sample_copy 59 H2D (mkMem (fun a => a) (fun _ => 0)) = Ok m' /\
    m' ≡ reference_copy 1000 0 sample_copy H2D (mkMem (fun a => a) (fun _ => 0)).
Proof.
  apply (@copy_is_method_independent debug_env sample_profile (fun _ => 2) (fun _ => 64) 1 reverse).
  - intros l. by rewrite reverse_Permutation.
  - intros dir. done.
  - done.
  - repeat constructor.
  - done.
  - done.
  - apply (bool_decide_unpack _). vm_compute. exact I.
Defined.
