(* ===== verification/CopyFrame.v ===== *)
(** Where a copy to the device may write: whatever the records of a message say, the copy
    methods of [src/copy_kernels.cpp] touch only the destination ranges of these records.
    Unlike the lemmas of [CopyKernel], nothing is assumed of the order, the overlap or the
    total length of the records. *)

From S2P Require Import Prelude.
From S2P Require Import Common.
From S2P Require Import CopySpec.
From S2P Require Import Channel.
From S2P Require Import DeviceKernel.
From S2P Require Import CopyKernel.

(** [m'] differs from [m] at most in device bytes of [W]. *)
Definition confined (W : Z -> Prop) (m m' : Mem) : Prop :=
  (forall a, host m' a = host m a) /\ (forall a, ~ W a -> gpu m' a = gpu m a).

#[export] Instance confined_preorder W : PreOrder (confined W).
Proof.
  split; [by split|]. intros m1 m2 m3 [Hh Hg] [Hh' Hg']. split; intros a; [by rewrite Hh', Hh|].
  intros Ha. by rewrite Hg', Hg.
Qed.

(** The device ranges of the records lie in [W]. *)
Definition targets_in (W : Z -> Prop) (gbase : Z) (blocks : list IpcBlock) : Prop :=
  Forall (fun b => 0 <= length_ b /\ forall k, 0 <= k < length_ b -> W (gbase + dst_offset b + k)) blocks.

Lemma targets_in_app W g u v : targets_in W g (u ++ v) <-> targets_in W g u /\ targets_in W g v.
Proof. apply Forall_app. Qed.

Lemma targets_in_incl W g u v :
  (forall b, b ∈ u -> exists b', b' ∈ v /\ dst_offset b' = dst_offset b /\ length_ b' = length_ b) ->
  targets_in W g v -> targets_in W g u.
Proof.
  unfold targets_in. rewrite !Forall_forall. intros Huv Hv b Hb.
  destruct (Huv b Hb) as (b' & Hb' & <- & <-). by apply Hv.
Qed.

Lemma transfer_confined W l m :
  (forall sd, sd ∈ l -> W sd.2) -> confined W m (transfer H2D l m).
Proof.
  intros Hl. split; [done|]. intros a Ha. simpl. apply exec_bytes_frame.
  intros (sd & -> & Hsd)%list_elem_of_fmap. by apply Ha, Hl.
Qed.

Section Frame.
Context `{Env} (profile : CopyProfile) (grid_of block_of : CopyDirection -> Z)
  (max_blocks_per_batch : Z) (sched : list (Z * Z) -> list (Z * Z)).
Hypothesis sched_perm : forall l, sched l ≡ₚ l.
Hypothesis config_ok : forall dir, 0 < grid_of dir /\ 0 < block_of dir /\ block_of dir mod 32 = 0.
Hypothesis batch_ok : 0 < max_blocks_per_batch.

Abbreviation kernel_direct := (copy_handle_data_kernel_direct grid_of block_of sched).

Section Region.
Context (W : Z -> Prop).

Lemma memcpy_confined h g b m :
  (forall k, 0 <= k < length_ b -> W (g + dst_offset b + k)) ->
  confined W m (memcpy H2D h (g + dst_offset b) (length_ b) m).
Proof.
  intros Hb. apply transfer_confined. unfold at_block. intros sd (k & -> & Hk)%list_elem_of_fmap.
  apply elem_of_seqZ in Hk. simpl. apply Hb. lia.
Qed.

(** A launch writes the ranges its arrays list. *)
Lemma launch_confined hbase gbase hs blocks m :
  targets_in W gbase blocks ->
  confined W m (launch_direct grid_of block_of sched H2D hbase gbase hs
    (dst_offset <$> blocks) (length_ <$> blocks) m).
Proof.
  intros Hb. unfold launch_direct. apply transfer_confined. intros sd Hsd.
  set (ks := zip_with _ _ _) in Hsd.
  assert (Forall (fun k => exists b, b ∈ blocks /\ k_dst k = gbase + dst_offset b /\ k_len k = length_ b) ks)
    as Hks.
  { clear Hsd Hb. unfold ks. clear ks. revert hs. induction blocks as [|b l IH]; intros [|x hs]; csimpl;
      try constructor.
    - exists b. set_solver.
    - eapply Forall_impl; [apply IH|]. intros k (b' & ? & ?). exists b'. set_solver. }
  unfold targets_in in Hb. rewrite Forall_forall in Hb. rewrite Forall_forall in Hks.
  destruct (config_ok H2D) as (Hg & Hbs & Hm). rewrite sched_perm, launch_once in Hsd; [|apply Forall_forall|done..].
  - apply elem_of_flat_map in Hsd as (k & Hk & Hsd). destruct (Hks k Hk) as (b & Hin & Hd & Hl).
    unfold block_copies, at_block in Hsd. apply list_elem_of_fmap in Hsd as (j & -> & Hj).
    apply elem_of_seqZ in Hj. simpl. rewrite Hd. apply Hb; [done|lia].
  - intros k Hk. destruct (Hks k Hk) as (b & Hin & _ & ->). by apply Hb.
Qed.

Lemma fill_metadata_arrays blocks size ex :
  wpr (fill_metadata blocks size ex) (fun r => let '(_, hs, gs, ls) := r in
    gs = dst_offset <$> blocks /\ ls = length_ <$> blocks).
Proof.
  unfold fill_metadata. set (body := fun b '(_, _, _, _) => _).
  assert (forall off hs gs ls, wpr (forM blocks body (off, hs, gs, ls)) (fun r => let '(_, hs', gs', ls') := r in
    gs' = gs ++ (dst_offset <$> blocks) /\ ls' = ls ++ (length_ <$> blocks))) as Hgen; [|apply (Hgen 0 [] [] [])].
  induction blocks as [|b blocks IH]; intros off hs gs ls; cbn [forM].
  { simpl. by rewrite !app_nil_r. }
  unfold body at 1. repeat (wpr_step || apply wpr_assert).
  eapply wpr_mono; [apply IH|]. intros [[[? ?] ?] ?] [-> ->]. csimpl. by rewrite <- !app_assoc.
Qed.

Lemma kernel_direct_confined hbase gbase blocks size ex m :
  targets_in W gbase blocks ->
  wpr (kernel_direct hbase gbase blocks size H2D ex m) (confined W m).
Proof.
  intros Hb. unfold copy_handle_data_kernel_direct.
  destruct (decide (blocks = [])) as [->|Hne]; [by apply wpr_ok|].
  assert (forall A (x y : A), match blocks with [] => x | _ => y end = y) as -> by (by destruct blocks).
  apply wpr_bind. eapply wpr_mono; [apply fill_metadata_arrays|]. intros [[[off hs] gs] ls] [-> ->].
  apply wpr_bind. assert (wpr (if ex then Ok tt else cassert (off =? size)) (fun _ => True)) as Hex
    by (destruct ex; [done|by apply wpr_assert]).
  eapply wpr_mono; [exact Hex|]. intros _ _. apply wpr_ok. by apply launch_confined.
Qed.

Lemma batch_targets gbase blocks n p :
  targets_in W gbase blocks -> targets_in W gbase (take n (drop p blocks)).
Proof. intros. by apply Forall_take, Forall_drop. Qed.

Lemma explicit_confined hbase gbase blocks size m :
  targets_in W gbase blocks ->
  wpr (enqueue_kernel_explicit_offsets grid_of block_of max_blocks_per_batch sched hbase gbase blocks
    size H2D m) (confined W m).
Proof.
  intros Hb. unfold enqueue_kernel_explicit_offsets. apply wpr_bind. eapply wpr_mono.
  - apply (wpr_while (fun s => 0 <= s.1 /\ confined W m s.2) (fun s => vsize blocks - s.1));
      [|split; [done|reflexivity]|unfold vsize; simpl; lia].
    intros [p m1] [Hp Hm] Hc. simpl in *. split; [lia|]. unfold explicit_round. apply wpr_bind.
    eapply wpr_mono; [by apply kernel_direct_confined, batch_targets|].
    intros m2 Hm2. simpl. split; [split; [lia|by etrans]|lia].
  - intros [p m1] [[_ Hm] _]. by apply wpr_ok.
Qed.

Lemma memcpy_loop_confined hbase gbase blocks size m :
  targets_in W gbase blocks -> wpr (enqueue_memcpy_loop hbase gbase blocks size H2D m) (confined W m).
Proof.
  intros Hb. unfold enqueue_memcpy_loop. apply wpr_bind. eapply wpr_mono.
  - apply (wpr_forM (fun s => confined W m s.2)); [|reflexivity].
    intros b [off m1] Hin Hm. unfold memcpy_round. repeat (wpr_step || apply wpr_assert). simpl in *.
    etrans; [exact Hm|]. apply memcpy_confined. unfold targets_in in Hb. rewrite Forall_forall in Hb. by apply Hb.
  - intros [off m1] Hm. repeat (wpr_step || apply wpr_assert). done.
Qed.

Lemma hybrid_loop_confined hbase gbase blocks m :
  targets_in W gbase blocks ->
  let '(_, _, ks, m') := hybrid_loop profile hbase gbase blocks H2D m in
  targets_in W gbase ks /\ confined W m m'.
Proof.
  intros Hb. unfold hybrid_loop. set (f := fun '(_, _, _, _) b => _).
  assert (forall off n ks m1, targets_in W gbase ks -> confined W m m1 ->
    let '(_, _, ks', m') := foldl f (off, n, ks, m1) blocks in targets_in W gbase ks' /\ confined W m m') as Hgen.
  { induction Hb as [|b blocks [Hl Hw] Hb IH]; intros off n ks m1 Hks Hm; cbn [foldl]; [done|].
    unfold f at 2. destruct (select_single_block_method profile (length_ b) H2D); apply IH; try done.
    - apply targets_in_app. split; [done|]. by constructor.
    - etrans; [exact Hm|]. by apply memcpy_confined. }
  apply Hgen; [constructor|reflexivity].
Qed.

Lemma hybrid_confined hbase gbase blocks size m :
  targets_in W gbase blocks ->
  wpr (enqueue_hybrid_copy profile grid_of block_of max_blocks_per_batch sched hbase gbase blocks size H2D m)
    (fun r => forall m', r = Some m' -> confined W m m').
Proof.
  intros Hb. unfold enqueue_hybrid_copy. pose proof (hybrid_loop_confined hbase gbase blocks m Hb) as Hl.
  destruct (hybrid_loop _ _ _ _ _ _) as [[[off n] ks] m1]. destruct Hl as [Hks Hm].
  destruct (n =? 0); [by apply wpr_ok|]. destruct ks as [|k ks]; [apply wpr_ok; by intros ? [= <-]|].
  apply wpr_bind. eapply wpr_mono; [by apply explicit_confined|]. intros m2 Hm2. apply wpr_ok.
  intros ? [= <-]. by etrans.
Qed.

Lemma batch_round_confined hbase gbase blocks p off m :
  targets_in W gbase blocks -> 0 <= p < vsize blocks ->
  wpr (batch_round grid_of block_of max_blocks_per_batch sched hbase gbase blocks H2D (p, off, m))
    (fun s => p < s.1.1 /\ confined W m s.2).
Proof.
  intros Hb Hp. unfold batch_round. set (f := fun '(_, _, _) b => _). set (batch := take _ _).
  assert (targets_in W gbase batch) as Hbatch by (by apply batch_targets). clearbody batch.
  assert (forall bs size off, targets_in W gbase bs -> targets_in W gbase (foldl f (bs, size, off) batch).1.1) as Hgen.
  { induction Hbatch as [|b batch [Hl Hw] _ IH]; intros bs size o Hbs; [done|]. apply IH.
    apply targets_in_app. split; [done|]. by constructor. }
  specialize (Hgen [] 0 off ltac:(constructor)). destruct (foldl f _ _) as [[bs size] o]. simpl in Hgen.
  apply wpr_bind. eapply wpr_mono; [by apply kernel_direct_confined|]. intros m' Hm'. apply wpr_ok. simpl.
  split; [lia|done].
Qed.

(** A copy to the device writes inside the destination ranges of its records, whatever
    method is chosen, and always ends. *)
Lemma copy_confined hbase gbase blocks size m :
  targets_in W gbase blocks ->
  wpr (copy_handle_data_with_kernel profile grid_of block_of max_blocks_per_batch sched hbase gbase blocks
    size H2D m) (confined W m).
Proof.
  intros Hb. unfold copy_handle_data_with_kernel. destruct (vsize blocks =? 0); [by apply wpr_ok|].
  destruct (summarize_layout_ok blocks) as [s ->]. cbn [rbind].
  destruct (select_copy_method_ok profile blocks H2D) as [[] ->]; cbn [rbind]; [|by apply memcpy_loop_confined].
  apply wpr_bind. eapply wpr_mono with (P := fun r => forall m', r = Some m' -> confined W m m').
  { destruct (all_same_size s); [by apply wpr_ok|by apply hybrid_confined]. }
  intros [m'|] Hr; [apply wpr_ok; by apply Hr|]. destruct (_ <=? _); [by apply kernel_direct_confined|].
  apply wpr_bind. eapply wpr_mono.
  - apply (wpr_while (fun s => 0 <= s.1.1 /\ confined W m s.2) (fun s => vsize blocks - s.1.1));
      [|split; [done|reflexivity]|unfold vsize; simpl; lia].
    intros [[p off] m1] [Hp Hm] Hc. simpl in *. split; [lia|].
    eapply wpr_mono; [apply batch_round_confined; [done|lia]|]. intros s' [Hlt Hm'].
    split; [split; [lia|by etrans]|lia].
  - intros [[p off] m1] [[_ Hm] _]. by apply wpr_ok.
Qed.
End Region.
End Frame.

(** Records accepted by the capacity check of a tensor write inside it. *)
Lemma validated_targets base capacity blocks :
  0 <= capacity < W64 -> Forall (fun b => 0 <= length_ b < W64 /\ 0 <= dst_offset b < W64) blocks ->
  validate_ipc_block_bounds blocks capacity DESTINATION 1 = Ok tt ->
  targets_in (fun a => base <= a < base + capacity) base blocks.
Proof.
  intros Hc Hb. unfold validate_ipc_block_bounds, targets_in.
  induction Hb as [|b blocks (Hl & Hd) _ IH]; intros Hv; [constructor|]. cbn [forM] in Hv.
  destruct (_ || _) eqn:Hbad in Hv; [done|]. cbn [rbind] in Hv. constructor; [|by apply IH].
  rewrite !orb_false_iff, Z.div_1_r, Z.mul_1_r in Hbad. destruct Hbad as [[[Hz Hov] Hcap] Hlt].
  destruct Hov as [_ Hov]. rewrite Hov in Hlt. change (1 =? 0) with false in Hlt. cbn [orb] in Hlt.
  rewrite (u64_small (length_ b)), (u64_small (capacity - _)) in Hlt by lia. split; [lia|]. intros k Hk. lia.
Qed.
