(* ===== verification/Profile.v ===== *)
(** Measuring the copy methods once per process ([src/copy_kernels.cpp]): the settings, the
    buckets, the blocks of a measurement, the table of the faster methods, and the number of
    threads of a kernel launch.

    What a measurement finds is an argument: [faster_memcpy] tells whether copying block by
    block was faster than the kernel.  The measured copies themselves are those of
    [CopyKernel]. *)

From Stdlib Require Import Ascii Sorted.
From stdpp Require Import sorting.
From S2P Require Import Prelude.
From S2P Require Import Common.
From S2P Require Import CppString.
From S2P Require Import EnvCfg.
From S2P Require Import CopySpec.
From S2P Require Import CopyKernel.

(** ** Settings *)

(** [std::atoll]: a text without digits is 0, a number that does not fit is undefined. *)
Definition atoll (s : string) : res Z :=
  let '(neg, s') := scan_sign (skip_space s) in
  if negb (starts_with_digit s') then Ok 0 else
  let v := if neg then - scan_digits s' 0 else scan_digits s' 0 in
  if (- 2 ^ 63 <=? v) && (v <? 2 ^ 63) then Ok v else Err Undefined.

(** The text up to the first comma, and what follows it. *)
Fixpoint cut (s : string) : string * option string :=
  match s with
  | EmptyString => ("", None)
  | String c s => if Ascii.eqb c ","%char then ("", Some s) else let '(a, b) := cut s in (String c a, b)
  end.

Section Profile.
Context `{Env} (getenv : string -> option string).

Definition env_bool (name : string) (default_value : bool) : res bool :=
  match getenv name with
  | None => Ok default_value
  | Some value => let* v := atoi value in Ok (negb (v =? 0))
  end.

Definition env_size (name : string) (default_value : Z) : res Z :=
  match getenv name with
  | None => Ok default_value
  | Some value => let* parsed := atoll value in Ok (if 0 <? parsed then parsed else default_value)
  end.

(** [while (std::getline(ss, token, ','))]: nothing follows a comma at the end. *)
Fixpoint size_tokens (fuel : nat) (s : string) : res (list string) :=
  match fuel with
  | O => Err OutOfFuel
  | S fuel =>
      match s with
      | EmptyString => Ok []
      | _ => let '(token, rest) := cut s in
             match rest with
             | None => Ok [token]
             | Some rest => let* tokens := size_tokens fuel rest in Ok (token :: tokens)
             end
      end
  end.

(** [std::unique] on a vector. *)
Fixpoint unique (l : list Z) : list Z :=
  match l with
  | x :: (y :: _) as l' => if x =? y then unique l' else x :: unique l'
  | _ => l
  end.

Definition parse_size_list (env_name : string) : res (list Z) :=
  match getenv env_name with
  | None => Ok []
  | Some raw =>
      let* tokens := size_tokens (S (String.length raw)) raw in
      let* values := forM tokens (fun token values =>
        match token with
        | EmptyString => Ok values
        | _ => let* parsed := atoll token in Ok (if 0 <? parsed then values ++ [parsed] else values)
        end) [] in
      Ok (unique (merge_sort Z.le values))
  end.

Definition direction_name (d : CopyDirection) : string := match d with H2D => "H2D" | D2H => "D2H" end.

Definition profile_direction_enabled (d : CopyDirection) : bool :=
  match getenv "BLLM_KVTRANS_COPY_PROFILE_DIRECTIONS" with
  | None | Some "" => true
  | Some directions => match String.index 0 (direction_name d) directions with Some _ => true | None => false end
  end.

(** ** Measuring *)
Definition profile_stride (block_size : Z) : Z := u64 (u64 (block_size + 15) / 16 * 16).

(** [generate_profile_blocks]: [None] is [false]. *)
Definition generate_profile_blocks (num_blocks block_size total_gpu_size : Z) : res (option (list IpcBlock)) :=
  if (num_blocks =? 0) || (block_size =? 0) || (total_gpu_size <? block_size) then Ok None else
  let stride := profile_stride block_size in
  let* q := udiv (total_gpu_size - block_size) stride in
  if u64 (q + 1) <? num_blocks then Ok None else
  Ok (Some ((fun i => mkIpcBlock 0 (u64 (i * stride)) block_size) <$> seqZ 0 num_blocks)).

(** [g_copy_profile_table[key] = method]. *)
Definition set_entry (key : CopyDirection * Z * Z) (method : CopyMethod)
    (table : list (CopyDirection * Z * Z * CopyMethod)) : list (CopyDirection * Z * Z * CopyMethod) :=
  filter (fun e => e.1 <> key) table ++ [(key, method)].

(** The bytes of a measurement, if it is made. *)
Definition measured_bytes (max_profile_bytes num_blocks block_size : Z) : option Z :=
  let tensor_data_size := u64 (num_blocks * block_size) in
  if (tensor_data_size =? 0) || (max_profile_bytes <? tensor_data_size) then None else Some tensor_data_size.

Definition profile_gpu_size (num_blocks block_size : Z) : Z :=
  u64 ((num_blocks - 1) * profile_stride block_size + block_size).

Definition profile_one (faster_memcpy : CopyDirection -> Z -> Z -> bool) (max_profile_bytes : Z)
    (key : CopyDirection * Z * Z) (table : list (CopyDirection * Z * Z * CopyMethod))
    : res (list (CopyDirection * Z * Z * CopyMethod)) :=
  let '(direction, num_blocks, block_size) := key in
  match measured_bytes max_profile_bytes num_blocks block_size with
  | None => Ok table
  | Some _ =>
      let* blocks := generate_profile_blocks num_blocks block_size (profile_gpu_size num_blocks block_size) in
      match blocks with
      | None => Ok table
      | Some _ =>
          let best := if faster_memcpy direction num_blocks block_size then MemcpyLoop else Kernel in
          Ok (set_entry key best table)
      end
  end.

Definition or_default (l d : list Z) : list Z := match l with [] => d | _ => l end.

Definition default_counts : list Z := [1; 2; 4; 16; 256; 8192].
Definition default_sizes : list Z := [256; 4096; 65536; 262144; 1048576; 4194304; 8388608].

Definition profile_keys (counts sizes : list Z) : list (CopyDirection * Z * Z) :=
  flat_map (fun d => if profile_direction_enabled d
    then flat_map (fun n => (fun b => (d, n, b)) <$> sizes) counts else []) [H2D; D2H].

(** [initialize_copy_method_profile_impl]. *)
Definition initialize_copy_method_profile (faster_memcpy : CopyDirection -> Z -> Z -> bool) : res CopyProfile :=
  let* threshold := env_size "BLLM_KVTRANS_COPY_MEMCPY_BLOCK_THRESHOLD_BYTES" (256 * 1024) in
  let* max_blocks := env_size "BLLM_KVTRANS_COPY_MEMCPY_MAX_BLOCKS" 16 in
  let* enabled := env_bool "BLLM_KVTRANS_COPY_PROFILE_ENABLE" true in
  if negb enabled then Ok (mkProfile false [] [] [] threshold max_blocks) else
  let* counts := parse_size_list "BLLM_KVTRANS_COPY_PROFILE_BLOCK_COUNTS" in
  let* sizes := parse_size_list "BLLM_KVTRANS_COPY_PROFILE_BLOCK_SIZES" in
  let counts := or_default counts default_counts in
  let sizes := or_default sizes default_sizes in
  let* _ := env_size "BLLM_KVTRANS_COPY_PROFILE_WARMUP" 2 in
  let* _ := env_size "BLLM_KVTRANS_COPY_PROFILE_ITERS" 5 in
  let* max_profile_bytes := env_size "BLLM_KVTRANS_COPY_PROFILE_MAX_BYTES" 67108864 in
  let* table := forM (profile_keys counts sizes) (profile_one faster_memcpy max_profile_bytes) [] in
  Ok (mkProfile true table counts sizes threshold max_blocks).

(** ** Launches *)

(** The loop of [CopyKernelConfig::initialize]: the threads of a block, from [i] on. *)
Fixpoint threads_from (fuel : nat) (i max_threads_per_sm max_threads_per_block dflt : Z) : res Z :=
  if i <=? max_threads_per_sm then
    match fuel with
    | O => Err OutOfFuel
    | S fuel =>
        let tmp_num_threads := max_threads_per_sm / i in
        if tmp_num_threads <=? max_threads_per_block then Ok tmp_num_threads
        else threads_from fuel (i + 1) max_threads_per_sm max_threads_per_block dflt
    end
  else Ok dflt.

Definition threads_per_block (max_threads_per_sm max_threads_per_block : Z) : res Z :=
  threads_from (Z.to_nat max_threads_per_sm) 1 max_threads_per_sm max_threads_per_block 512.

(** ** Buckets *)
Definition is_bucket (buckets : list Z) (value b : Z) : Prop :=
  b ∈ buckets /\ (value <= b \/ Forall (fun x => x < value) buckets) /\
  Forall (fun x => value <= x -> b <= x) buckets.

Lemma strongly_sorted_lookup (l : list Z) i j x y :
  StronglySorted Z.lt l -> l !! i = Some x -> l !! j = Some y -> (i < j)%nat -> x < y.
Proof.
  intros Hs. revert i j. induction Hs as [|z l Hs IH Hz]; intros i j Hi Hj Hij; [done|].
  destruct i as [|i], j as [|j]; try lia; cbn in *; [|eapply IH; eauto with lia].
  injection Hi as ->. rewrite Forall_lookup in Hz. eauto.
Qed.

Lemma upper_bucket_spec buckets value :
  StronglySorted Z.lt buckets -> buckets <> [] -> is_bucket buckets value (upper_bucket buckets value).
Proof.
  intros Hs Hne. unfold upper_bucket. destruct (list_find (fun b => value <= b) buckets) as [[i b]|] eqn:E.
  - apply list_find_Some in E as (Hi & Hle & Hbefore). split_and!; [by eapply list_elem_of_lookup_2|by left|].
    apply Forall_lookup. intros j x Hj Hx. destruct (decide (j < i)%nat) as [Hlt|Hge].
    + by destruct (Hbefore j x Hj Hlt).
    + destruct (decide (i = j)) as [->|]; [by simplify_eq|].
      assert (b < x) by (eapply (strongly_sorted_lookup buckets i j); eauto with lia). lia.
  - apply list_find_None in E. destruct (last buckets) as [b|] eqn:El; [|by apply last_None in El].
    apply last_Some_elem_of in El as Hin. split_and!; [done| |].
    + right. eapply Forall_impl; [exact E|]. cbn. lia.
    + eapply Forall_impl; [exact E|]. cbn. lia.
Qed.

Lemma unique_spec l : Sorted Z.le l -> StronglySorted Z.lt (unique l) /\ forall x, x ∈ unique l <-> x ∈ l.
Proof.
  intros Hs%Sorted_StronglySorted; [|intros ???; lia].
  induction l as [|x l IH]; [split; [constructor|done]|]. apply StronglySorted_inv in Hs as [Hs Hx].
  destruct (IH Hs) as [Hu He]. destruct l as [|y l]; [split; [by repeat constructor|done]|].
  cbn [unique]. destruct (Z.eqb_spec x y) as [<-|Hne].
  - split; [done|]. intros z. rewrite He. set_solver.
  - split; [|intros z; rewrite !elem_of_cons, He; set_solver]. constructor; [done|].
    apply Forall_forall. intros z Hz. apply He in Hz. apply Forall_cons in Hx as [Hxy Hxl].
    apply elem_of_cons in Hz as [->|Hz]; [lia|]. apply StronglySorted_inv in Hs as [_ Hyl].
    rewrite Forall_forall in Hyl. specialize (Hyl z Hz). lia.
Qed.

(** Buckets as the settings give them. *)
Record bucket_list (l : list Z) : Prop := {
  bl_sorted : StronglySorted Z.lt l;
  bl_range : Forall (fun x => 0 < x < 2 ^ 63) l;
}.

Lemma atoll_range s v : atoll s = Ok v -> v < 2 ^ 63.
Proof.
  unfold atoll. destruct (scan_sign _) as [neg s']. destruct (negb _); [intros [= <-]; lia|].
  destruct (_ && _) eqn:Hb; [|done]. intros [= <-]. by apply andb_true_iff in Hb as [_ ?%Z.ltb_lt].
Qed.

Lemma parse_size_list_spec name l : parse_size_list name = Ok l -> bucket_list l.
Proof.
  unfold parse_size_list. destruct (getenv name) as [raw|]; [|intros [= <-]; by repeat constructor].
  destruct (size_tokens _ raw) as [tokens|]; [|done]. cbn [rbind].
  match goal with |- context [forM tokens ?f []] => set (body := f) end.
  destruct (forM tokens body []) as [values|] eqn:E; [|done]. cbn [rbind]. intros [= <-].
  assert (Hv : Forall (fun x => 0 < x < 2 ^ 63) values).
  { assert (Hgen : forall acc, Forall (fun x => 0 < x < 2 ^ 63) acc -> forM tokens body acc = Ok values ->
      Forall (fun x => 0 < x < 2 ^ 63) values).
    { clear E. induction tokens as [|t tokens IH]; intros acc Ha; cbn [forM]; [by intros [= <-]|].
      unfold body at 1. destruct t as [|a t]; [apply IH, Ha|]. destruct (atoll (String a t)) as [v|] eqn:Hav; [|done].
      cbn [rbind]. apply IH. apply atoll_range in Hav. destruct (Z.ltb_spec 0 v); [|done].
      apply Forall_app. split; [done|]. by repeat constructor. }
    by apply (Hgen []). }
  destruct (unique_spec (merge_sort Z.le values)) as [Hs He]; [apply (Sorted_merge_sort Z.le)|].
  constructor; [done|]. apply Forall_forall. intros x Hx. apply He in Hx.
  rewrite (merge_sort_Permutation Z.le values) in Hx. by apply (proj1 (Forall_forall _ _) Hv).
Qed.

Lemma default_buckets : bucket_list default_counts /\ bucket_list default_sizes.
Proof. split; constructor; repeat constructor; lia. Qed.

Lemma or_default_spec l d : bucket_list l -> bucket_list d -> d <> [] -> bucket_list (or_default l d) /\ or_default l d <> [].
Proof. by destruct l. Qed.

(** ** The blocks of a measurement *)

(** A measurement that is made: [n] blocks of [b] bytes within the limit, on a buffer whose
    size is a machine number. *)
Definition measurable (max_bytes n b : Z) : Prop :=
  n * b <= max_bytes /\ (n - 1) * ((b + 15) / 16 * 16) + b < W64.

Lemma stride_spec b : 0 < b < 2 ^ 63 -> profile_stride b = (b + 15) / 16 * 16 /\ b <= (b + 15) / 16 * 16 <= b + 15.
Proof.
  intros Hb. assert (b <= (b + 15) / 16 * 16 <= b + 15) as Hs.
  { pose proof (Z.div_mod (b + 15) 16). pose proof (Z.mod_pos_bound (b + 15) 16). lia. }
  split; [|done]. unfold profile_stride. rewrite (u64_small (b + 15)) by (unfold W64; lia).
  apply u64_small. unfold W64. lia.
Qed.

(** The guard of [generate_profile_blocks] fails exactly when the size of the buffer wrapped. *)
Lemma generate_spec n b :
  0 < n < 2 ^ 63 -> 0 < b < 2 ^ 63 ->
  let total := (n - 1) * ((b + 15) / 16 * 16) + b in
  generate_profile_blocks n b (profile_gpu_size n b) =
    Ok (if total <? W64 then Some ((fun i => mkIpcBlock 0 (i * ((b + 15) / 16 * 16)) b) <$> seqZ 0 n) else None).
Proof.
  intros Hn Hb total. destruct (stride_spec b Hb) as [Hst Hs]. unfold generate_profile_blocks, profile_gpu_size. rewrite Hst.
  set (st := (b + 15) / 16 * 16) in *. fold total. rewrite (proj2 (Z.eqb_neq n 0)), (proj2 (Z.eqb_neq b 0)) by lia. cbn [orb].
  destruct (Z.ltb_spec total W64) as [Hlt|Hge].
  - rewrite (u64_small total) by (unfold total in *; nia). rewrite (proj2 (Z.ltb_ge _ _)) by (unfold total; nia).
    rewrite udiv_ok by lia. cbn [rbind]. replace (total - b) with ((n - 1) * st) by (unfold total; lia).
    rewrite Z.div_mul by lia. replace (n - 1 + 1) with n by lia. rewrite u64_small by (unfold W64; lia).
    rewrite Z.ltb_irrefl. do 2 f_equal. apply list_fmap_ext. intros i k Hk. apply lookup_seqZ in Hk as [-> Hk].
    rewrite u64_small; [done|]. unfold total in Hlt. nia.
  - pose proof (Z.mod_pos_bound total W64) as Hm.
    destruct (Z.ltb_spec (u64 total) b); [done|]. rewrite udiv_ok by lia. cbn [rbind].
    assert (u64 total < total) by (unfold u64, W64 in *; lia).
    assert ((u64 total - b) / st < n - 1) as Hq.
    { apply Z.div_lt_upper_bound; [lia|]. unfold total in *. nia. }
    assert (0 <= (u64 total - b) / st) by (apply Z.div_pos; lia).
    rewrite u64_small by (unfold W64; lia). rewrite (proj2 (Z.ltb_lt _ _)) by lia. done.
Qed.

(** The measured copies stay in their buffers and fill the host buffer. *)
Lemma profile_blocks_fit max_bytes n b blocks :
  0 < n < 2 ^ 63 -> 0 < b < 2 ^ 63 -> measurable max_bytes n b ->
  generate_profile_blocks n b (profile_gpu_size n b) = Ok (Some blocks) ->
  blocks_ok blocks /\ sum_length blocks = n * b /\
  Forall (fun x => 0 <= dst_offset x /\ dst_offset x + length_ x <= profile_gpu_size n b) blocks.
Proof.
  intros Hn Hb [_ Hlt] Hg. rewrite generate_spec in Hg by done. destruct (stride_spec b Hb) as [Hst Hs].
  unfold profile_gpu_size. rewrite Hst. set (st := (b + 15) / 16 * 16) in *.
  rewrite (proj2 (Z.ltb_lt _ _)) in Hg by done. injection Hg as <-. rewrite u64_small by nia. split_and!.
  - apply Forall_fmap, Forall_forall. intros i _. cbn. lia.
  - assert (Hsum : forall l, sum_length ((fun i => mkIpcBlock 0 (i * st) b) <$> l) = vsize l * b).
    { induction l as [|i l IH]; [done|]. rewrite fmap_cons. unfold sum_length, vsize in *. cbn [foldr length length_] in *. lia. }
    rewrite Hsum. unfold vsize. rewrite length_seqZ. lia.
  - apply Forall_fmap, Forall_forall. intros i Hi%elem_of_seqZ. cbn. nia.
Qed.

(** ** The table *)
Section Table.
Context (faster_memcpy : CopyDirection -> Z -> Z -> bool) (max_bytes : Z) (Hmax : 0 < max_bytes < 2 ^ 63).

Definition best (key : CopyDirection * Z * Z) : CopyMethod :=
  if faster_memcpy key.1.1 key.1.2 key.2 then MemcpyLoop else Kernel.

Definition in_range (key : CopyDirection * Z * Z) : Prop := 0 < key.1.2 < 2 ^ 63 /\ 0 < key.2 < 2 ^ 63.

Lemma profile_one_spec key table : in_range key ->
  profile_one faster_memcpy max_bytes key table =
    Ok (if bool_decide (measurable max_bytes key.1.2 key.2) then set_entry key (best key) table else table).
Proof.
  destruct key as [[d n] b]. intros [Hn Hb]. cbn in Hn, Hb. destruct (stride_spec b Hb) as [_ Hs].
  unfold profile_one, measured_bytes. rewrite generate_spec by done. unfold measurable. cbn [fst snd].
  set (total := (n - 1) * ((b + 15) / 16 * 16) + b). assert (n * b <= total) by (unfold total; nia).
  destruct (Z.ltb_spec total W64) as [Hlt|Hge].
  - rewrite u64_small by nia. rewrite (proj2 (Z.eqb_neq _ _)) by nia. cbn [orb].
    destruct (Z.ltb_spec max_bytes (n * b)); cbn [rbind].
    + rewrite bool_decide_eq_false_2 by lia. done.
    + by rewrite bool_decide_eq_true_2.
  - rewrite bool_decide_eq_false_2 by lia. by destruct (_ || _).
Qed.

(** Exactly the measured keys are in the table, with the faster method. *)
Definition table_of (keys : list (CopyDirection * Z * Z)) (table : list (CopyDirection * Z * Z * CopyMethod)) : Prop :=
  forall k m, (k, m) ∈ table <-> k ∈ keys /\ measurable max_bytes k.1.2 k.2 /\ m = best k.

Lemma profile_table keys pre table :
  Forall in_range keys -> table_of pre table ->
  exists table', forM keys (profile_one faster_memcpy max_bytes) table = Ok table' /\ table_of (pre ++ keys) table'.
Proof.
  intros Hk. revert pre table. induction Hk as [|key keys Hkey _ IH]; intros pre table Ht.
  { exists table. by rewrite app_nil_r. }
  cbn [forM]. rewrite profile_one_spec by done. cbn [rbind].
  destruct (IH (pre ++ [key]) (if bool_decide (measurable max_bytes key.1.2 key.2) then set_entry key (best key) table else table))
    as (table' & Hok & Ht'); [|exists table'; split; [done|]; by rewrite <- app_assoc in Ht'].
  intros k m. case_bool_decide as Hm.
  - unfold set_entry. rewrite elem_of_app, list_elem_of_filter, list_elem_of_singleton, (Ht k m). cbn [fst].
    rewrite elem_of_app, list_elem_of_singleton. destruct (decide (k = key)) as [->|]; naive_solver.
  - rewrite (Ht k m), elem_of_app, list_elem_of_singleton. naive_solver.
Qed.

Lemma lookup_table p keys d n b :
  g_copy_profile_table p = keys -> forall ks, table_of ks keys ->
  (d, n, b) ∈ ks -> measurable max_bytes n b -> lookup_profile p d n b = Some (best (d, n, b)).
Proof.
  intros Hp ks Ht Hin Hm. unfold lookup_profile. rewrite Hp.
  destruct (list_find (fun e : CopyDirection * Z * Z * CopyMethod => e.1 = (d, n, b)) keys) as [[i [k m]]|] eqn:E.
  - apply list_find_Some in E as (Hi & Hk & _). cbn in Hk. subst k. apply list_elem_of_lookup_2 in Hi.
    apply Ht in Hi as (_ & _ & ->). done.
  - apply list_find_None in E. assert ((d, n, b, best (d, n, b)) ∈ keys) as Hin' by (apply Ht; naive_solver).
    rewrite Forall_forall in E. by destruct (E _ Hin').
Qed.

End Table.

Lemma env_size_range name d v : 0 < d < 2 ^ 63 -> env_size name d = Ok v -> 0 < v < 2 ^ 63.
Proof.
  intros Hd. unfold env_size. destruct (getenv name) as [t|]; [|by intros [= <-]].
  destruct (atoll t) as [x|] eqn:Ha; [|done]. apply atoll_range in Ha. cbn [rbind].
  destruct (Z.ltb_spec 0 x); by intros [= <-].
Qed.

Lemma profile_keys_spec counts sizes d n b :
  (d, n, b) ∈ profile_keys counts sizes <-> profile_direction_enabled d = true /\ n ∈ counts /\ b ∈ sizes.
Proof.
  assert (Hone : forall d', (d, n, b) ∈ flat_map (fun n => (fun b => (d', n, b)) <$> sizes) counts <->
    d = d' /\ n ∈ counts /\ b ∈ sizes).
  { intros d'. rewrite list_elem_of_In, in_flat_map. split.
    - intros (n' & Hn & Hi%list_elem_of_In). apply list_elem_of_fmap in Hi as (b' & [= -> -> ->] & Hb).
      apply list_elem_of_In in Hn. done.
    - intros (-> & Hn & Hb). exists n. rewrite <- !list_elem_of_In. split; [done|]. apply list_elem_of_fmap. by exists b. }
  unfold profile_keys. cbn [flat_map]. rewrite app_nil_r, elem_of_app.
  destruct (profile_direction_enabled H2D) eqn:E1, (profile_direction_enabled D2H) eqn:E2; rewrite ?Hone;
    destruct d; rewrite ?E1, ?E2; set_solver.
Qed.

Lemma profile_keys_range counts sizes :
  bucket_list counts -> bucket_list sizes -> Forall in_range (profile_keys counts sizes).
Proof.
  intros [_ Hc] [_ Hs]. apply Forall_forall. intros [[d n] b] Hin. apply profile_keys_spec in Hin as (_ & Hn & Hb).
  rewrite Forall_forall in Hc, Hs. split; cbn; auto.
Qed.

(** What the initialisation leaves behind. *)
Record profiled (faster_memcpy : CopyDirection -> Z -> Z -> bool) (max_bytes : Z) (p : CopyProfile) : Prop := {
  pf_counts : bucket_list (g_copy_profile_block_counts p) /\ g_copy_profile_block_counts p <> [];
  pf_sizes : bucket_list (g_copy_profile_block_sizes p) /\ g_copy_profile_block_sizes p <> [];
  pf_max : 0 < max_bytes < 2 ^ 63;
  pf_table : table_of faster_memcpy max_bytes
    (profile_keys (g_copy_profile_block_counts p) (g_copy_profile_block_sizes p)) (g_copy_profile_table p);
}.

Lemma initialize_spec faster p :
  initialize_copy_method_profile faster = Ok p -> g_copy_profile_enabled p = true ->
  exists max_bytes, env_size "BLLM_KVTRANS_COPY_PROFILE_MAX_BYTES" 67108864 = Ok max_bytes /\ profiled faster max_bytes p.
Proof.
  unfold initialize_copy_method_profile. intros Hr Hen.
  destruct (env_size "BLLM_KVTRANS_COPY_MEMCPY_BLOCK_THRESHOLD_BYTES" _) as [th|]; [|done].
  destruct (env_size "BLLM_KVTRANS_COPY_MEMCPY_MAX_BLOCKS" _) as [mb|]; [|done].
  destruct (env_bool _ _) as [en|]; [|done]. cbn [rbind] in Hr.
  destruct en; cbn [negb] in Hr; [|by injection Hr as <-].
  destruct (parse_size_list "BLLM_KVTRANS_COPY_PROFILE_BLOCK_COUNTS") as [cs|] eqn:Hc; [|done].
  destruct (parse_size_list "BLLM_KVTRANS_COPY_PROFILE_BLOCK_SIZES") as [ss|] eqn:Hs; [|done]. cbn [rbind] in Hr.
  destruct (env_size "BLLM_KVTRANS_COPY_PROFILE_WARMUP" _); [|done].
  destruct (env_size "BLLM_KVTRANS_COPY_PROFILE_ITERS" _); [|done]. cbn [rbind] in Hr.
  destruct (env_size "BLLM_KVTRANS_COPY_PROFILE_MAX_BYTES" _) as [mx|] eqn:Hmx; [|done]. cbn [rbind] in Hr.
  apply parse_size_list_spec in Hc, Hs. destruct default_buckets as [Hdc Hds].
  destruct (or_default_spec _ _ Hc Hdc) as [Hc' Hc0]; [done|]. destruct (or_default_spec _ _ Hs Hds) as [Hs' Hs0]; [done|].
  assert (Hm : 0 < mx < 2 ^ 63) by (eapply env_size_range; [|exact Hmx]; lia).
  destruct (profile_table faster mx Hm (profile_keys (or_default cs default_counts) (or_default ss default_sizes)) [] [])
    as (table & Ht & Htab); [by apply profile_keys_range|intros k m; set_solver|].
  rewrite Ht in Hr. injection Hr as <-. exists mx. split; [done|]. by constructor.
Qed.

(** A block of threads fits, and fills the multiprocessor with the fewest blocks that do. *)
Lemma threads_per_block_spec sm mb :
  0 < sm -> 0 < mb -> exists i, 1 <= i <= sm /\ threads_per_block sm mb = Ok (sm / i) /\ sm / i <= mb /\
    forall j, 1 <= j < i -> mb < sm / j.
Proof.
  intros Hsm Hmb. unfold threads_per_block.
  assert (Hgen : forall fuel i, 1 <= i <= sm -> Z.of_nat fuel = sm - i + 1 -> (forall j, 1 <= j < i -> mb < sm / j) ->
    exists k, 1 <= k <= sm /\ threads_from fuel i sm mb 512 = Ok (sm / k) /\ sm / k <= mb /\
      forall j, 1 <= j < k -> mb < sm / j).
  { induction fuel as [|fuel IH]; intros i Hi Hf Hj; [lia|]. cbn [threads_from].
    rewrite (proj2 (Z.leb_le i sm)) by lia. destruct (Z.leb_spec (sm / i) mb) as [Hle|Hgt]; [by exists i|].
    assert (i < sm) by (destruct (Z.eq_dec i sm) as [->|]; [rewrite Z.div_same in Hgt by lia; lia|lia]).
    apply IH; [lia|lia|]. intros j Hj'. destruct (Z.eq_dec j i) as [->|]; [lia|]. apply Hj. lia. }
  destruct (Hgen (Z.to_nat sm) 1) as (k & Hk); [lia|lia|lia|]. by exists k.
Qed.

(** After the measurements, every non-empty list of blocks is copied with the method that
    was faster for the smallest profiled block count and size that are not below it (or the
    largest there are); a layout that was not measured has no entry. *)
Theorem layouts_use_the_faster_method (faster : CopyDirection -> Z -> Z -> bool) (p : CopyProfile) :
  initialize_copy_method_profile faster = Ok p -> g_copy_profile_enabled p = true ->
  exists max_bytes, env_size "BLLM_KVTRANS_COPY_PROFILE_MAX_BYTES" 67108864 = Ok max_bytes /\
    forall blocks s dir, blocks <> [] -> summarize_layout blocks = Ok s ->
      exists c b, is_bucket (g_copy_profile_block_counts p) (num_blocks s) c /\
        is_bucket (g_copy_profile_block_sizes p) (if all_same_size s then max_block_size s else avg_block_size s) b /\
        if bool_decide (profile_direction_enabled dir = true /\ measurable max_bytes c b)
        then select_copy_method p blocks dir = Ok (if faster dir c b then MemcpyLoop else Kernel)
        else lookup_profile p dir c b = None.
Proof.
  intros Hi Hen. destruct (initialize_spec faster p Hi Hen) as (mx & Hmx & [[Hc Hc0] [Hs Hs0] Hm Ht]).
  exists mx. split; [done|]. intros blocks s dir Hne Hsum.
  set (value := if all_same_size s then max_block_size s else avg_block_size s).
  pose proof (upper_bucket_spec _ (num_blocks s) (bl_sorted _ Hc) Hc0) as Hbc.
  pose proof (upper_bucket_spec _ value (bl_sorted _ Hs) Hs0) as Hbs.
  exists (upper_bucket (g_copy_profile_block_counts p) (num_blocks s)), (upper_bucket (g_copy_profile_block_sizes p) value).
  split; [done|]. split; [done|]. case_bool_decide as Hd.
  - destruct Hd as [Hd Hms]. pose proof (lookup_table faster mx Hm p _ dir _ _ eq_refl _ Ht
      (proj2 (profile_keys_spec _ _ dir _ _) (conj Hd (conj (proj1 Hbc) (proj1 Hbs)))) Hms) as Hl.
    unfold select_copy_method. rewrite Hsum. cbn [rbind]. fold value.
    assert ((num_blocks s =? 0) = false) as ->.
    { unfold summarize_layout in Hsum. destruct blocks as [|b0 bl]; [done|]. destruct (foldl _ _ _) as [[? ?] ?].
      destruct (udiv _ _); [|done]. injection Hsum as <-. apply Z.eqb_neq. unfold vsize. cbn. lia. }
    assert (profile_usable p = true) as ->.
    { unfold profile_usable. rewrite Hen. unfold lookup_profile in Hl. by destruct (g_copy_profile_table p). }
    by rewrite Hl.
  - unfold lookup_profile. destruct (list_find _ (g_copy_profile_table p)) as [[i [k m]]|] eqn:E; [|done].
    apply list_find_Some in E as (Hin%list_elem_of_lookup_2 & Hk & _). cbn in Hk. subst k.
    apply Ht in Hin as (Hin & Hms & _). apply profile_keys_spec in Hin as (Hd' & _). by destruct Hd.
Qed.

End Profile.

(** ** Example *)
Definition small_is_memcpy (d : CopyDirection) (n b : Z) : bool := n =? 1.

Definition default_profile : CopyProfile :=
  match initialize_copy_method_profile (fun _ => None) small_is_memcpy with
  | Ok p => p
  | Err _ => mkProfile false [] [] [] 0 0
  end.

Lemma layouts_use_the_faster_method_witness :
  select_copy_method default_profile [mkIpcBlock 0 0 5000] H2D = Ok MemcpyLoop.
Proof.
  destruct (layouts_use_the_faster_method (fun _ => None) small_is_memcpy default_profile) as (mx & Hmx & Hsel);
    [reflexivity|reflexivity|]. injection Hmx as <-.
  destruct (Hsel [mkIpcBlock 0 0 5000] (mkSummary 1 5000 5000 5000 true) H2D) as (c & b & Hc & Hb & Hif);
    [discriminate|reflexivity|].
  change (g_copy_profile_block_counts default_profile) with default_counts in Hc.
  change (g_copy_profile_block_sizes default_profile) with default_sizes in Hb. cbn [num_blocks all_same_size max_block_size] in Hc, Hb.
  assert (c = 1) as ->.
  { destruct Hc as (Hin & _ & Hall). unfold default_counts in Hin, Hall. rewrite !Forall_cons in Hall.
    rewrite !elem_of_cons, elem_of_nil in Hin. lia. }
  assert (b = 65536) as ->.
  { destruct Hb as (Hin & Hge & Hall). unfold default_sizes in Hin, Hge, Hall. rewrite !Forall_cons in Hge. rewrite !Forall_cons in Hall.
    rewrite !elem_of_cons, elem_of_nil in Hin. lia. }
  rewrite bool_decide_eq_true_2 in Hif; [exact Hif|]. split; [reflexivity|]. split; vm_compute; congruence.
Defined.
