(* ===== verification/CopyCtx.v ===== *)
(** What a thread keeps for its copies ([CopyKernelCtx] of [src/copy_utils.cpp]): the two
    metadata buffers of a device and the two streams.

    CUDA is third-party: the answers to its calls are the fields of [Cuda].  [live_] records
    the allocations and streams the thread has not given back.  Measuring the copy methods,
    which [init] starts, is in [Profile]. *)

From stdpp Require Import gmap.
From S2P Require Import Prelude.
From S2P Require Import Common.

(** ** State *)

Inductive Resource := DeviceBuffer | PinnedBuffer | CudaStream.
#[export] Instance Resource_eq_dec : EqDecision Resource.
Proof. solve_decision. Defined.
#[export] Instance Resource_countable : Countable Resource.
Proof.
  refine (inj_countable' (fun r => match r with DeviceBuffer => 0 | PinnedBuffer => 1 | CudaStream => 2 end)%Z
    (fun z => match z with 0 => DeviceBuffer | 1 => PinnedBuffer | _ => CudaStream end)%Z _). by intros [].
Defined.

(** Every live resource with its kind and address: the device it belongs to, and its size. *)
Abbreviation Live := (gmap (Resource * Z) (Z * Z)).

(** The next answer of CUDA to an allocation or to the creation of a stream; [None] is an error.
    Address 0 is a null pointer. *)
Record Cuda := mkCuda {
  set_device : Z -> bool;
  cuda_malloc : Z -> Live -> option Z;
  cuda_malloc_host : Z -> Live -> option Z;
  stream_create : Live -> option Z;
}.

Record CopyKernelCtx := mkCopyCtx {
  device_blk_buffer : Z;
  host_blk_buffer : Z;
  ctx_device : Z;
  initialized : bool;
  h2d_stream : Z;
  d2h_stream : Z;
  current_device : Z;
  live_ : Live;
}.

Definition new_copy_ctx (device : Z) : CopyKernelCtx := mkCopyCtx 0 0 (-1) false 0 0 device ∅.

Section Ctx.
Context (cu : Cuda) (max_block_num : Z).

(** [if (ptr != nullptr) { cudaFree(ptr); ptr = nullptr; }] for both buffers. *)
Definition free_if_set (r : Resource) (p : Z) (live : Live) : Live := if p =? 0 then live else delete (r, p) live.

Definition free_buffers (c : CopyKernelCtx) : CopyKernelCtx :=
  mkCopyCtx 0 0 (ctx_device c) (initialized c) (h2d_stream c) (d2h_stream c) (current_device c)
    (free_if_set PinnedBuffer (host_blk_buffer c) (free_if_set DeviceBuffer (device_blk_buffer c) (live_ c))).

Definition buffer_size : Z := u64 (3 * 8 * max_block_num).

Definition ctx_init (dev_id : Z) (c : CopyKernelCtx) : res CopyKernelCtx :=
  if initialized c && (ctx_device c =? dev_id) then Ok c else
  let c := free_buffers c in
  let* _ := rtassert (set_device cu dev_id) in
  match cuda_malloc cu buffer_size (live_ c) with
  | None => Err AssertFailed
  | Some d =>
      let live := <[(DeviceBuffer, d) := (dev_id, buffer_size)]> (live_ c) in
      match cuda_malloc_host cu buffer_size live with
      | None => Err AssertFailed
      | Some h => Ok (mkCopyCtx d h dev_id true (h2d_stream c) (d2h_stream c) dev_id
                        (<[(PinnedBuffer, h) := (dev_id, buffer_size)]> live))
      end
  end.

Definition get_kernel_copy_buffer (device_id : Z) (c : CopyKernelCtx) : res (Z * Z * CopyKernelCtx) :=
  let* c := ctx_init device_id c in Ok (device_blk_buffer c, host_blk_buffer c, c).

(** A stream is created on the current device when it is first asked for. *)
Definition get_h2d_stream (c : CopyKernelCtx) : res (Z * CopyKernelCtx) :=
  if negb (h2d_stream c =? 0) then Ok (h2d_stream c, c) else
  match stream_create cu (live_ c) with
  | None => Err RuntimeError
  | Some s => Ok (s, mkCopyCtx (device_blk_buffer c) (host_blk_buffer c) (ctx_device c) (initialized c) s (d2h_stream c)
                       (current_device c) (<[(CudaStream, s) := (current_device c, 0)]> (live_ c)))
  end.

Definition get_d2h_stream (c : CopyKernelCtx) : res (Z * CopyKernelCtx) :=
  if negb (d2h_stream c =? 0) then Ok (d2h_stream c, c) else
  match stream_create cu (live_ c) with
  | None => Err RuntimeError
  | Some s => Ok (s, mkCopyCtx (device_blk_buffer c) (host_blk_buffer c) (ctx_device c) (initialized c) (h2d_stream c) s
                       (current_device c) (<[(CudaStream, s) := (current_device c, 0)]> (live_ c)))
  end.

Definition destroy_streams (c : CopyKernelCtx) : CopyKernelCtx :=
  mkCopyCtx (device_blk_buffer c) (host_blk_buffer c) (ctx_device c) (initialized c) 0 0 (current_device c)
    (free_if_set CudaStream (d2h_stream c) (free_if_set CudaStream (h2d_stream c) (live_ c))).

(** The destructor: streams first, since they may still use the buffers. *)
Definition destroy_ctx (c : CopyKernelCtx) : CopyKernelCtx := free_buffers (destroy_streams c).

(** ** What the thread holds *)

(** The live resources are exactly the buffers and streams the context knows. *)
Definition one (r : Resource) (p : Z) : gset (Resource * Z) := if p =? 0 then ∅ else {[ (r, p) ]}.
Definition owned (c : CopyKernelCtx) : gset (Resource * Z) :=
  one DeviceBuffer (device_blk_buffer c) ∪ one PinnedBuffer (host_blk_buffer c) ∪
  one CudaStream (h2d_stream c) ∪ one CudaStream (d2h_stream c).

Record ctx_ok (c : CopyKernelCtx) : Prop := {
  co_live : dom (live_ c) = owned c;
  co_streams : h2d_stream c <> 0 -> h2d_stream c <> d2h_stream c;
  co_ready : initialized c = true ->
    live_ c !! (DeviceBuffer, device_blk_buffer c) = Some (ctx_device c, buffer_size) /\
    live_ c !! (PinnedBuffer, host_blk_buffer c) = Some (ctx_device c, buffer_size) /\
    device_blk_buffer c <> 0 /\ host_blk_buffer c <> 0;
  co_new : initialized c = false -> device_blk_buffer c = 0 /\ host_blk_buffer c = 0;
}.

(** CUDA hands out addresses that are not in use. *)
Record cuda_ok : Prop := {
  cm_device n live p : cuda_malloc cu n live = Some p -> p <> 0 /\ live !! (DeviceBuffer, p) = None;
  cm_host n live p : cuda_malloc_host cu n live = Some p -> p <> 0 /\ live !! (PinnedBuffer, p) = None;
  cm_stream live p : stream_create cu live = Some p -> p <> 0 /\ live !! (CudaStream, p) = None;
}.

Lemma new_ctx_ok device : ctx_ok (new_copy_ctx device).
Proof. split; cbn; [set_solver|done..]. Qed.

Lemma elem_of_one r p x : x ∈ one r p <-> p <> 0 /\ x = (r, p).
Proof. unfold one. destruct (Z.eqb_spec p 0); set_solver. Qed.

Lemma one_some r p : p <> 0 -> one r p = {[ (r, p) ]}.
Proof. intros Hp. unfold one. by rewrite (proj2 (Z.eqb_neq _ _)). Qed.

Lemma free_if_set_dom (r : Resource) (p : Z) (live : Live) : dom (free_if_set r p live) = dom live ∖ one r p.
Proof. unfold free_if_set, one. destruct (p =? 0); [set_solver|]. by rewrite dom_delete_L. Qed.

Lemma free_buffers_dom c :
  ctx_ok c ->
  dom (free_if_set PinnedBuffer (host_blk_buffer c) (free_if_set DeviceBuffer (device_blk_buffer c) (live_ c)))
  = one CudaStream (h2d_stream c) ∪ one CudaStream (d2h_stream c).
Proof.
  intros Hc. rewrite !free_if_set_dom, (co_live _ Hc). unfold owned.
  apply set_eq. intros [r p]. rewrite !elem_of_difference, !elem_of_union, !elem_of_one. naive_solver.
Qed.

(** A context whose buffers were given back, with new ones. *)
Lemma ctx_init_ok dev c c' :
  cuda_ok -> ctx_ok c -> ctx_init dev c = Ok c' ->
  ctx_ok c' /\ initialized c' = true /\ ctx_device c' = dev /\ h2d_stream c' = h2d_stream c /\ d2h_stream c' = d2h_stream c.
Proof.
  intros Hcu Hc. unfold ctx_init. destruct (initialized c && (ctx_device c =? dev)) eqn:E.
  { intros [= <-]. apply andb_true_iff in E as [Hi Hd]. apply Z.eqb_eq in Hd. done. }
  destruct (rtassert _) as [[]|]; [cbn [rbind]|done].
  destruct (cuda_malloc _ _ _) as [d|] eqn:Ed; [|done]. apply (cm_device Hcu) in Ed as [Hd Hdn].
  destruct (cuda_malloc_host _ _ _) as [h|] eqn:Eh; [|done]. apply (cm_host Hcu) in Eh as [Hh Hhn].
  intros [= <-]. split; [|done]. split; cbn.
  - rewrite !dom_insert_L, free_buffers_dom by done. unfold owned. cbn.
    rewrite (one_some _ d), (one_some _ h) by done. set_solver.
  - apply (co_streams _ Hc).
  - intros _. split_and!; [|by rewrite lookup_insert_eq|done..].
    rewrite lookup_insert_ne by done. by rewrite lookup_insert_eq.
  - done.
Qed.

Lemma get_h2d_stream_ok c c' s :
  cuda_ok -> ctx_ok c -> get_h2d_stream c = Ok (s, c') -> ctx_ok c'.
Proof.
  intros Hcu Hc. unfold get_h2d_stream. destruct (Z.eqb_spec (h2d_stream c) 0) as [Hz|Hz]; cbn [negb];
    [|by intros [= <- <-]].
  destruct (stream_create cu (live_ c)) as [t|] eqn:Et; [|done]. apply (cm_stream Hcu) in Et as [Ht Hn].
  apply not_elem_of_dom in Hn. rewrite (co_live _ Hc) in Hn. intros [= <- <-]. split; cbn.
  - rewrite dom_insert_L, (co_live _ Hc). unfold owned. cbn. rewrite (one_some _ t), Hz by done. unfold one at 3. cbn. set_solver.
  - intros _ He. apply Hn. unfold owned. rewrite !elem_of_union, !elem_of_one, <- He. auto.
  - intros Hi. rewrite !lookup_insert_ne by done. by apply (co_ready _ Hc).
  - apply (co_new _ Hc).
Qed.

Lemma get_d2h_stream_ok c c' s :
  cuda_ok -> ctx_ok c -> get_d2h_stream c = Ok (s, c') -> ctx_ok c'.
Proof.
  intros Hcu Hc. unfold get_d2h_stream. destruct (Z.eqb_spec (d2h_stream c) 0) as [Hz|Hz]; cbn [negb];
    [|by intros [= <- <-]].
  destruct (stream_create cu (live_ c)) as [t|] eqn:Et; [|done]. apply (cm_stream Hcu) in Et as [Ht Hn].
  apply not_elem_of_dom in Hn. rewrite (co_live _ Hc) in Hn. intros [= <- <-]. split; cbn.
  - rewrite dom_insert_L, (co_live _ Hc). unfold owned. cbn. rewrite (one_some _ t), Hz by done. unfold one at 4. cbn. set_solver.
  - intros Hs He. apply Hn. unfold owned. rewrite !elem_of_union, !elem_of_one, He. auto.
  - intros Hi. rewrite !lookup_insert_ne by done. by apply (co_ready _ Hc).
  - apply (co_new _ Hc).
Qed.

(** ** Any use of the context *)
Inductive ctx_reachable (device : Z) : CopyKernelCtx -> Prop :=
| reach_new : ctx_reachable device (new_copy_ctx device)
| reach_buffers dev c d h c' :
    ctx_reachable device c -> get_kernel_copy_buffer dev c = Ok (d, h, c') -> ctx_reachable device c'
| reach_h2d c s c' : ctx_reachable device c -> get_h2d_stream c = Ok (s, c') -> ctx_reachable device c'
| reach_d2h c s c' : ctx_reachable device c -> get_d2h_stream c = Ok (s, c') -> ctx_reachable device c'.

Lemma get_kernel_copy_buffer_inv dev c d h c' :
  get_kernel_copy_buffer dev c = Ok (d, h, c') ->
  ctx_init dev c = Ok c' /\ d = device_blk_buffer c' /\ h = host_blk_buffer c'.
Proof. unfold get_kernel_copy_buffer. destruct (ctx_init dev c); [|done]. by intros [= <- <- <-]. Qed.

Lemma ctx_reachable_ok device c : cuda_ok -> ctx_reachable device c -> ctx_ok c.
Proof.
  intros Hcu. induction 1 as [|dev c d h c' _ IH Hg|c s c' _ IH Hg|c s c' _ IH Hg].
  - apply new_ctx_ok.
  - apply get_kernel_copy_buffer_inv in Hg as [Hg _]. by eapply ctx_init_ok.
  - by eapply get_h2d_stream_ok.
  - by eapply get_d2h_stream_ok.
Qed.

(** However a thread has used its context, it holds at most two buffers and two streams, the
    buffers it is given belong to the device it asks for and have room for the metadata of a
    whole batch, and the destructor gives everything back. *)
Theorem copy_buffers_fit device c :
  cuda_ok -> 0 <= max_block_num < 2 ^ 32 -> ctx_reachable device c ->
  (size (live_ c) <= 4)%nat /\ live_ (destroy_ctx c) = ∅ /\
  forall dev d h c', get_kernel_copy_buffer dev c = Ok (d, h, c') ->
    live_ c' !! (DeviceBuffer, d) = Some (dev, 3 * 8 * max_block_num) /\
    live_ c' !! (PinnedBuffer, h) = Some (dev, 3 * 8 * max_block_num).
Proof.
  intros Hcu Hm Hr. pose proof (ctx_reachable_ok device c Hcu Hr) as Hc. split_and!.
  - rewrite <- size_dom, (co_live _ Hc). unfold owned.
    assert (Hone : forall r p, (size (one r p) <= 1)%nat).
    { intros r p. unfold one. destruct (p =? 0); [rewrite size_empty; lia|by rewrite size_singleton]. }
    assert (Hu : forall X Y : gset (Resource * Z), (size (X ∪ Y) <= size X + size Y)%nat).
    { intros X Y. rewrite size_union_alt. pose proof (subseteq_size (Y ∖ X) Y ltac:(set_solver)). lia. }
    pose proof (Hone DeviceBuffer (device_blk_buffer c)). pose proof (Hone PinnedBuffer (host_blk_buffer c)).
    pose proof (Hone CudaStream (h2d_stream c)). pose proof (Hone CudaStream (d2h_stream c)).
    etransitivity; [apply Hu|]. etransitivity; [apply Nat.add_le_mono_r, Hu|].
    etransitivity; [apply Nat.add_le_mono_r, Nat.add_le_mono_r, Hu|]. lia.
  - apply (dom_empty_inv_L (D := gset (Resource * Z))). cbn. rewrite !free_if_set_dom, (co_live _ Hc). unfold owned. set_solver.
  - intros dev d h c' Hg. apply get_kernel_copy_buffer_inv in Hg as (Hi & -> & ->).
    destruct (ctx_init_ok dev c c' Hcu Hc Hi) as (Hc' & Hini & Hdev & _).
    destruct (co_ready _ Hc' Hini) as (Hd & Hh & _). rewrite Hd, Hh, Hdev. unfold buffer_size.
    rewrite u64_small by (unfold W64; lia). done.
Qed.
End Ctx.

(** ** Example *)
Definition next_free (r : Resource) (live : Live) : Z :=
  match list_find (fun p => live !! (r, p) = None) (seqZ 1 8) with Some (_, p) => p | None => 9 end.
Definition sample_cuda : Cuda :=
  mkCuda (fun _ => true) (fun _ live => Some (next_free DeviceBuffer live)) (fun _ live => Some (next_free PinnedBuffer live))
    (fun live => Some (next_free CudaStream live)).

(** A thread that turns to another device gets buffers there, but keeps the stream it made for
    the first. *)
Example stream_stays_on_first_device :
  (let* '(_, _, c) := get_kernel_copy_buffer sample_cuda 8192 0 (new_copy_ctx 0) in
   let* '(s, c) := get_d2h_stream sample_cuda c in
   let* '(d, _, c) := get_kernel_copy_buffer sample_cuda 8192 1 c in
   let* '(s', c) := get_d2h_stream sample_cuda c in
   Ok (s =? s', fst <$> live_ c !! (DeviceBuffer, d), fst <$> live_ c !! (CudaStream, s')))
  = Ok (true, Some 1, Some 0).
Proof. vm_compute. reflexivity. Qed.
