(* ===== verification/Fp8.v ===== *)
(** Sending bf16 data as fp8 ([bf16_to_fp8_e4m3] and the conversion kernel of
    [src/copy_kernels.cu], [copy_d2h_bf16_to_fp8] of [src/copy_kernels.cpp]).

    With a CUDA toolkit that has [cuda_fp8.h] the conversion of an element is the toolkit's;
    the code modelled here is the fallback for the other toolkits. *)

From S2P Require Import Prelude.
From S2P Require Import Common.
From S2P Require Import CopySpec.
From S2P Require Import DeviceKernel.
From S2P Require Import CopyKernel.

(** ** One element *)

(** [bf16_to_fp8_e4m3] without [cuda_fp8.h], on the 16 bits of the value. *)
Definition bf16_to_fp8_e4m3 (bits : Z) : Z :=
  let sign := Z.land (Z.shiftr bits 15) 1 in
  let exp := Z.land (Z.shiftr bits 7) 255 - 127 in
  let mant := Z.land bits 127 in
  let signed code := Z.lor (Z.shiftl sign 7) code in
  if exp =? 128 then signed 126
  else if (exp =? -127) && (mant =? 0) then Z.shiftl sign 7
  else
    let new_exp := exp + 7 in
    if new_exp <=? 0 then
      let full_mant := Z.lor 128 mant in
      let shift := 1 - new_exp + 4 in
      if 12 <=? shift then Z.shiftl sign 7
      else
        let shifted := Z.shiftr full_mant (shift - 1) in
        let new_mant := Z.shiftr shifted 1 in
        let round_bit := Z.land shifted 1 in
        let sticky_mask := Z.shiftl 1 (shift - 1) - 1 in
        let sticky := negb (Z.land full_mant sticky_mask =? 0) in
        let new_mant :=
          if (round_bit =? 1) && (sticky || (Z.land new_mant 1 =? 1)) then new_mant + 1
          else new_mant in
        if new_mant =? 0 then Z.shiftl sign 7
        else if 8 <=? new_mant then signed 8
        else signed new_mant
    else if 15 <=? new_exp then signed 126
    else
      let dropped_bits := Z.land mant 15 in
      let new_mant := Z.shiftr mant 4 in
      let new_mant :=
        if 8 <? dropped_bits then new_mant + 1
        else if dropped_bits =? 8 then
          if Z.land new_mant 1 =? 1 then new_mant + 1 else new_mant
        else new_mant in
      if 7 <? new_mant then
        if 15 <=? new_exp + 1 then signed 126
        else Z.lor (signed (Z.shiftl (new_exp + 1) 3)) 0
      else Z.lor (signed (Z.shiftl new_exp 3)) new_mant.

(** ** Values

    Magnitudes in units of 2^-133, the last place of the smallest bf16 numbers. *)
Definition bf16_magnitude (bits : Z) : Z :=
  let e := Z.land (Z.shiftr bits 7) 255 in
  let mant := Z.land bits 127 in
  if e =? 0 then mant else Z.shiftl (128 + mant) (e - 1).

Definition e4m3_magnitude (code : Z) : Z :=
  let e := Z.land (Z.shiftr code 3) 15 in
  let mant := Z.land code 7 in
  if e =? 0 then Z.shiftl mant 124 else Z.shiftl (8 + mant) (e + 123).

(** [x] in the same units. *)
Definition units (x : Z) : Z := Z.shiftl x 133.

(** Neither neighbour among the finite codes (0 to 126, in increasing order of magnitude) is
    nearer, and a tie goes to the even code. *)
Definition nearest_e4m3 (x code : Z) : bool :=
  let d c := Z.abs (e4m3_magnitude c - x) in
  forallb (fun c => (d code <? d c) || ((d code =? d c) && Z.even code) || (c =? code))
    (filter (fun c => 0 <= c <= 126) [code - 1; code; code + 1]).

(** ** The conversion kernel *)

(** The vector loop of the kernel, unrolled twice, with the final index. *)
Fixpoint unrolled2 (fuel : nat) (i aligned_end block_size : Z) : list Z * Z :=
  if i <? aligned_end then
    match fuel with
    | O => ([], i)
    | S fuel =>
        let '(l, i') := unrolled2 fuel (i + block_size * 2) aligned_end block_size in
        (i :: i + block_size :: l, i')
    end
  else ([], i).

(** The elements a thread of a thread block converts. *)
Definition fp8_cta (b : KBlock) (tid block_size : Z) : list Z :=
  if k_len b =? 0 then []
  else if is_aligned 15 b then
    let num_vec16 := k_len b / 16 in
    let stride2 := block_size * 2 in
    let '(main, vec_idx) :=
      if stride2 <=? num_vec16 then
        unrolled2 (Z.to_nat num_vec16) tid (num_vec16 - num_vec16 mod stride2) block_size
      else ([], tid) in
    vec_bytes 16 (main ++ strided vec_idx num_vec16 block_size) ++
    strided (num_vec16 * 16 + tid) (k_len b) block_size
  else strided tid (k_len b) block_size.

(** ... and a lane of a warp. *)
Definition fp8_warp (b : KBlock) (lane_id : Z) : list Z :=
  if k_len b =? 0 then []
  else if is_aligned 15 b then
    let num_vec16 := k_len b / 16 in
    vec_bytes 16 (strided lane_id num_vec16 32) ++ strided (num_vec16 * 16 + lane_id) (k_len b) 32
  else strided lane_id (k_len b) 32.

(** Element [i] is at twice the distance on the bf16 side. *)
Definition at_elements (b : KBlock) (is_ : list Z) : list (Z * Z) :=
  (fun i => (k_src b + 2 * i, k_dst b + i)) <$> is_.

(** [copy_d2h_bf16_to_fp8_kernel]; lengths count elements. *)
Definition fp8_kernel : list KBlock -> Z -> Z -> Z -> Z -> list (Z * Z) :=
  kernel_with (fun b tid block_size => at_elements b (fp8_cta b tid block_size))
    (fun b lane_id => at_elements b (fp8_warp b lane_id)).

Definition fp8_launch (blocks : list KBlock) (gridDim block_size : Z) : list (Z * Z) :=
  launch_with (fp8_kernel blocks gridDim block_size) gridDim block_size.

(** ** Host side *)
Section Convert.
Context (cvt : Z -> Z)                       (* the conversion of an element *)
  (grid block : Z) (max_blocks_per_batch : Z) (sched : list (Z * Z) -> list (Z * Z)).

(** The converted element at each device address. *)
Definition converted (m : memory) : memory := fun a => cvt (m a + 256 * m (a + 1)).

Definition convert (l : list (Z * Z)) (m : Mem) : Mem :=
  mkMem (exec_bytes (converted (gpu m)) l (host m)) (gpu m).

(** The blocks of a launch: elements counted from [off] on the host side. *)
Fixpoint fp8_metadata (hbase gbase off : Z) (blocks : list IpcBlock) : list KBlock :=
  match blocks with
  | [] => []
  | b :: rest =>
      let num_elements := length_ b / 2 in
      mkKBlock (gbase + dst_offset b) (hbase + off) num_elements
        :: fp8_metadata hbase gbase (off + num_elements) rest
  end.

Definition num_elements (blocks : list IpcBlock) : Z :=
  foldr (fun b n => length_ b / 2 + n) 0 blocks.

(** A batch of the loop: (processed blocks, elements written, memory). *)
Definition fp8_round (hbase gbase : Z) (blocks : list IpcBlock) (s : Z * Z * Mem)
    : res (Z * Z * Mem) :=
  let '(processed, written, m) := s in
  let batch_size := Z.min max_blocks_per_batch (vsize blocks - processed) in
  let batch := take (Z.to_nat batch_size) (drop (Z.to_nat processed) blocks) in
  let ks := fp8_metadata (hbase + written) gbase 0 batch in
  Ok (processed + batch_size, written + num_elements batch,
      convert (sched (fp8_launch ks grid block)) m).

(** [copy_d2h_bf16_to_fp8]. *)
Definition copy_d2h_bf16_to_fp8 (hbase gbase : Z) (blocks : list IpcBlock) (m : Mem) : res Mem :=
  if vsize blocks =? 0 then Ok m
  else if vsize blocks <=? max_blocks_per_batch then
    Ok (convert (sched (fp8_launch (fp8_metadata hbase gbase 0 blocks) grid block)) m)
  else
    let* s := while (length blocks) (fun s => s.1.1 <? vsize blocks)
                (fp8_round hbase gbase blocks) (0, 0, m) in
    Ok s.2.

End Convert.

(** ** Theorem *)

Definition fallback_ok (bits : Z) : bool :=
  let code := bf16_to_fp8_e4m3 bits in
  let x := bf16_magnitude bits in
  (Z.shiftr code 7 =? Z.shiftr bits 15) &&
  (if x <? units 248 then nearest_e4m3 x (Z.land code 127) else Z.land code 127 =? 126).

Lemma fallback_checked :
  forallb (fun hi => forallb (fun lo => fallback_ok (hi * 128 + lo)) (seqZ 0 128)) (seqZ 0 512) = true.
Proof. vm_compute. reflexivity. Qed.

Lemma fallback_ok_all bits : 0 <= bits < 2 ^ 16 -> fallback_ok bits = true.
Proof.
  intros Hb. pose proof (Z.div_mod bits 128 ltac:(lia)). pose proof (Z.mod_pos_bound bits 128 ltac:(lia)).
  pose proof fallback_checked as Hc. rewrite forallb_forall in Hc.
  specialize (Hc (bits / 128)). rewrite forallb_forall in Hc.
  replace bits with (bits / 128 * 128 + bits mod 128) by lia.
  apply Hc; apply list_elem_of_In, elem_of_seqZ; [|lia].
  split; [apply Z.div_pos; lia|]. apply Z.div_lt_upper_bound; lia.
Qed.

(** The fallback conversion from bf16 to e4m3, on all 65536 inputs: the sign is kept, a
    magnitude below 248 is rounded to a nearest e4m3 number, and every magnitude from 248 on
    becomes 448, although 256 to 448 are representable. *)
Theorem fallback_saturates_from_248 bits :
  0 <= bits < 2 ^ 16 ->
  let code := bf16_to_fp8_e4m3 bits in
  Z.shiftr code 7 = Z.shiftr bits 15 /\
  (bf16_magnitude bits < units 248 -> nearest_e4m3 (bf16_magnitude bits) (Z.land code 127) = true) /\
  (units 248 <= bf16_magnitude bits -> Z.land code 127 = 126) /\
  e4m3_magnitude 120 = units 256 /\ e4m3_magnitude 126 = units 448.
Proof.
  intros Hb code. pose proof (fallback_ok_all bits Hb) as Hok. unfold fallback_ok in Hok.
  fold code in Hok. apply andb_true_iff in Hok as [Hs%Z.eqb_eq Hm].
  split; [done|]. split_and!; [| |reflexivity..]; intros Hlt.
  - by rewrite (proj2 (Z.ltb_lt _ _) Hlt) in Hm.
  - rewrite (proj2 (Z.ltb_ge _ _) Hlt) in Hm. by apply Z.eqb_eq.
Qed.

Lemma fallback_saturates_from_248_witness :
  let code := bf16_to_fp8_e4m3 0x4380 in
  bf16_magnitude 0x4380 = units 256 /\ Z.land code 127 = 126.
Proof.
  split; [reflexivity|]. apply (fallback_saturates_from_248 0x4380); [lia|].
  vm_compute. congruence.
Defined.
