(* ===== verification/TcpWire.v ===== *)
(** One layer over TCP ([src/tcp_channel.cpp]): the sender gathers the registered blocks of
    each tensor into a message, the server checks the message and scatters it into its own
    tensors.  [register_data], [send_data] and [handle_kv_cache_data], and that together
    they perform the registered copies.

    Buffers are addresses in the host memory of either side.  Allocation, timestamps,
    statistics and the reply's payload are left out; the transport ([Send], the mempool) is
    third-party and delivers the bytes of the message. *)

From stdpp Require Import sorting.
From S2P Require Import Prelude.
From S2P Require Import Common.
From S2P Require Import CopySpec.
From S2P Require Import Channel.
From S2P Require Import DeviceKernel.
From S2P Require Import CopyKernel.
From S2P Require Import Fp8.

(** ** Native integers in memory *)
Fixpoint le_bytes (n : nat) (z : Z) : list Z :=
  match n with
  | O => []
  | S n => z mod 256 :: le_bytes n (z / 256)
  end.

Definition of_le (l : list Z) : Z := foldr (fun b acc => b + 256 * acc) 0 l.

(** [memcpy] of a list of bytes to [a], and of [n] bytes from [a]. *)
Definition write (m : memory) (a : Z) (l : list Z) : memory :=
  fun x => if (a <=? x) && (x <? a + vsize l) then default 0 (l !! Z.to_nat (x - a)) else m x.

Definition read (m : memory) (a n : Z) : list Z := (fun k => m (a + k)) <$> seqZ 0 n.

Definition read_size (m : memory) (a : Z) : Z := of_le (read m a 8).

Definition write_host (a : Z) (l : list Z) (m : Mem) : Mem := mkMem (write (host m) a l) (gpu m).

(** ** Constants *)
Definition RPC_HEADER : Z := 12.
Definition SIZEOF_IPC_BLOCK : Z := 24.
(** [std::vector<IpcBlock>::max_size()], beyond which [reserve] throws. *)
Definition IPC_BLOCKS_MAX : Z := (2 ^ 63 - 1) / SIZEOF_IPC_BLOCK.
Definition KV_CACHE_DATA_MAGIC : Z := 0x4B564361.

(** The device of a worker: its copy profile, launch configuration and scheduler, and the
    conversion of its CUDA toolkit. *)
Record Device := mkDevice {
  dev_profile : CopyProfile;
  dev_grid : CopyDirection -> Z;
  dev_block : CopyDirection -> Z;
  dev_batch : Z;
  dev_sched : list (Z * Z) -> list (Z * Z);
  dev_cvt : Z -> Z;
}.

Record device_ok (d : Device) : Prop := {
  dev_sched_perm : forall l, dev_sched d l ≡ₚ l;
  dev_config : forall dir, 0 < dev_grid d dir /\ 0 < dev_block d dir /\ dev_block d dir mod 32 = 0;
  dev_batch_pos : 0 < dev_batch d;
}.

Section Tcp.
Context `{Env}.

Definition device_copy (d : Device) : Z -> Z -> list IpcBlock -> Z -> CopyDirection -> Mem -> res Mem :=
  copy_handle_data_with_kernel (dev_profile d) (dev_grid d) (dev_block d) (dev_batch d) (dev_sched d).

Definition device_convert (d : Device) : Z -> Z -> list IpcBlock -> Mem -> res Mem :=
  copy_d2h_bf16_to_fp8 (dev_cvt d) (dev_grid d D2H) (dev_block d D2H) (dev_batch d) (dev_sched d).

(** ** Registering *)

(** What a channel keeps between [register_data] and [flush]; the smallest and the largest
    record are only logged. *)
Record Registered := mkRegistered {
  reg_data : list (list IpcBlock);
  tensor_send_bytes_ : list Z;
  origin_sb_num_ : Z;
  merged_sb_num_ : Z;
  sb_size_total_ : Z;
}.

(** Merging the records of one tensor and removing the absorbed ones. *)
Definition merge_tensor (sort : list IpcBlock -> list IpcBlock) (tensor_data : list IpcBlock)
    : res (list IpcBlock * MergeStats) :=
  assert: negb (vsize tensor_data =? 0);
  let* '(merged, st) := merge_interval sort tensor_data in
  assert: (0 <? cnt st);
  let kept := filter (fun b => length_ b <> 0) merged in
  assert: (vsize kept =? cnt st);
  Ok (kept, st).

(** One tensor of the equal-TP branch of [register_data]. *)
Definition register_tensor (sort : list IpcBlock -> list IpcBlock) (tensor_data : list IpcBlock)
    (r : Registered) : res Registered :=
  let* '(kept, st) := merge_tensor sort tensor_data in
  Ok (mkRegistered (reg_data r ++ [kept]) (tensor_send_bytes_ r ++ [total_size st])
        (u64 (origin_sb_num_ r + vsize tensor_data)) (u64 (merged_sb_num_ r + cnt st))
        (u64 (sb_size_total_ r + total_size st))).

(** The part of [register_data] the TCP and the RDMA channel have in common. *)
Definition register_records (sort : list IpcBlock -> list IpcBlock) (data : list (list IpcBlock))
    (kind : TPKind) : res Registered :=
  assert: negb (vsize data =? 0);
  let* r :=
    if bool_decide (kind = PEQD) then forM data (register_tensor sort) (mkRegistered [] [] 0 0 0)
    else
      assert: (vsize data =? 1);
      match data with
      | [] => Err Undefined
      | tensor_data :: _ =>
          assert: negb (vsize tensor_data =? 0);
          let total := foldl (fun n b => u64 (n + length_ b)) 0 tensor_data in
          Ok (mkRegistered data [total] (vsize tensor_data) (vsize tensor_data) total)
      end in
  assert: (0 <? merged_sb_num_ r);
  assert: (merged_sb_num_ r <=? origin_sb_num_ r);
  Ok r.

(** [TCPChannel::register_data], without connecting and allocating. *)
Definition register_data (sort : list IpcBlock -> list IpcBlock) (data : list (list IpcBlock))
    (kind : TPKind) : res Registered :=
  let total_len_debug :=
    foldl (fun n tensor_data => foldl (fun n b => u64 (n + length_ b)) n tensor_data) 0 data in
  let* r := register_records sort data kind in
  assert: (total_len_debug =? sb_size_total_ r);
  Ok r.

(** ** Sending a layer *)
Definition block_wire (b : IpcBlock) : list Z :=
  le_bytes 8 (src_offset b) ++ le_bytes 8 (dst_offset b) ++ le_bytes 8 (length_ b).

(** One tensor of [send_data]: (write position, memory). *)
Definition send_tensor (d : Device) (use_fp8 : bool) (t : (list IpcBlock * Z) * Z) (s : Z * Mem)
    : res (Z * Mem) :=
  let '((tensor_data, sent_bytes), gpu_src_ptr) := t in
  let '(p, m) := s in
  assert: negb (vsize tensor_data =? 0);
  let metadata_size := vsize tensor_data in
  let m := write_host p (le_bytes 8 metadata_size) m in
  let p := p + 8 in
  let m := write_host p (flat_map block_wire tensor_data) m in
  let p := p + metadata_size * SIZEOF_IPC_BLOCK in
  let m := write_host p (le_bytes 8 sent_bytes) m in
  let p := p + 8 in
  let kernel_blocks := (fun b => mkIpcBlock 0 (src_offset b)
    (u64 (length_ b * (if use_fp8 then 2 else 1)))) <$> tensor_data in
  let* m := if use_fp8 then device_convert d p gpu_src_ptr kernel_blocks m
            else device_copy d p gpu_src_ptr kernel_blocks sent_bytes D2H m in
  Ok (p + sent_bytes, m).

(** [send_data]: the memory and the length of the message at [base]. *)
Definition send_data (d : Device) (r : Registered) (src_mrs : list Z) (base reqid layer_idx : Z)
    (m : Mem) : res (Mem * Z) :=
  let num_tensors := vsize (reg_data r) in
  assert: (0 <? num_tensors);
  let use_fp8 := env_bf162fp8_conversion && (num_tensors =? 1) in
  assert: (vsize src_mrs =? num_tensors);
  let m := write_host base (le_bytes 4 KV_CACHE_DATA_MAGIC ++ le_bytes 8 reqid) m in
  let m := write_host (base + RPC_HEADER) (le_bytes 8 layer_idx) m in
  let m := write_host (base + RPC_HEADER + 8) (le_bytes 8 num_tensors) m in
  let* '(p, m) := forM (zip (zip (reg_data r) (tensor_send_bytes_ r)) src_mrs)
                    (send_tensor d use_fp8) (base + RPC_HEADER + 16, m) in
  Ok (m, p - base).

(** ** Receiving a layer *)

(** [TCPInfo] of the server. *)
Record TCPInfo := mkTCPInfo {
  ptrs : list (list Z);
  layer_blk_sizes : list Z;
}.

(** The [i]-th record of the metadata at [a]. *)
Definition read_block (m : memory) (a i : Z) : IpcBlock :=
  mkIpcBlock (read_size m (a + i * SIZEOF_IPC_BLOCK)) (read_size m (a + i * SIZEOF_IPC_BLOCK + 8))
    (read_size m (a + i * SIZEOF_IPC_BLOCK + 16)).

(** How the server ends with a message. *)
Inductive outcome :=
| Replied (m : Mem)
| Dropped (m : Mem).     (* logged, no reply *)

(** One tensor of [handle_kv_cache_data]; [inl] stops with a dropped message.  Pointers
    are 64-bit addresses. *)
Definition recv_tensor (d : Device) (capacities : list Z) (tensor_ptrs : list Z) (buf_end t : Z)
    (s : Z * Mem) : res (Mem + Z * Mem) :=
  let '(p, m) := s in
  if buf_end <? u64 (p + 8) then Ok (inl m) else
  let metadata_size := read_size (host m) p in
  let p := u64 (p + 8) in
  let metadata_bytes := u64 (metadata_size * SIZEOF_IPC_BLOCK) in
  if buf_end <? u64 (p + metadata_bytes + 8) then Ok (inl m) else
  if IPC_BLOCKS_MAX <? metadata_size then Err LengthError else
  let blocks := (fun i => read_block (host m) p i) <$> seqZ 0 metadata_size in
  let p := u64 (p + metadata_bytes) in
  let tensor_data_size := read_size (host m) p in
  let p := u64 (p + 8) in
  if buf_end <? u64 (p + tensor_data_size) then Ok (inl m) else
  let* tensor_gpu_ptr := vec_idx tensor_ptrs t in
  assert: negb (tensor_gpu_ptr =? 0);
  if vsize capacities <=? t then Ok (inl m) else
  let* capacity := vec_idx capacities t in
  match validate_ipc_block_bounds blocks capacity DESTINATION 1 with
  | Err e => if is_exception e then Ok (inl m) else Err e
  | Ok _ =>
      let* m := device_copy d p tensor_gpu_ptr blocks tensor_data_size H2D m in
      Ok (inr (u64 (p + tensor_data_size), m))
  end.

Fixpoint recv_tensors (d : Device) (capacities tensor_ptrs : list Z) (buf_end : Z) (ts : list Z)
    (s : Z * Mem) : res outcome :=
  match ts with
  | [] => Ok (Replied s.2)
  | t :: ts =>
      let* r := recv_tensor d capacities tensor_ptrs buf_end t s in
      match r with
      | inl m => Ok (Dropped m)
      | inr s => recv_tensors d capacities tensor_ptrs buf_end ts s
      end
  end.

(** [OnRecvCall] and [handle_kv_cache_data] for the [len] bytes at [in_buf].  The callback
    is [noexcept]: an exception that leaves it ends the process. *)
Definition handle_kv_cache_data (d : Device) (info : TCPInfo) (in_buf len : Z) (m : Mem)
    : res outcome :=
  if len <? 4 then Ok (Dropped m) else
  let magic := of_le (read (host m) in_buf 4) in
  if negb (magic =? KV_CACHE_DATA_MAGIC) then Ok (Dropped m) else
  if len <? RPC_HEADER + 8 + 8 then Ok (Dropped m) else
  let layer_idx := read_size (host m) (in_buf + RPC_HEADER) in
  let num_tensors := read_size (host m) (in_buf + RPC_HEADER + 8) in
  match ptrs info !! Z.to_nat layer_idx with
  | None => Ok (Dropped m)
  | Some tensor_ptrs =>
      if negb (num_tensors =? vsize tensor_ptrs) then Ok (Dropped m) else
      recv_tensors d (layer_blk_sizes info) tensor_ptrs (in_buf + len) (seqZ 0 num_tensors)
        (in_buf + RPC_HEADER + 16, m)
  end.

(** ** Specification *)

(** A tensor of a layer: the copies to make, where it is on either side and its capacity. *)
Record Tensor := mkTensor {
  t_blocks : list IpcBlock;
  t_src : Z;
  t_dst : Z;
  t_capacity : Z;
}.

(** The bytes of the blocks, in order. *)
Definition blob (g : memory) (sp : Z) (blocks : list IpcBlock) : list Z :=
  flat_map (fun b => read g (sp + src_offset b) (length_ b)) blocks.

Definition tensor_wire (g : memory) (blocks : list IpcBlock) (sp : Z) : list Z :=
  le_bytes 8 (vsize blocks) ++ flat_map block_wire blocks ++ le_bytes 8 (sum_length blocks) ++
  blob g sp blocks.

Definition wire (g : memory) (reqid layer_idx : Z) (ts : list Tensor) : list Z :=
  le_bytes 4 KV_CACHE_DATA_MAGIC ++ le_bytes 8 reqid ++ le_bytes 8 layer_idx ++
  le_bytes 8 (vsize ts) ++ flat_map (fun t => tensor_wire g (t_blocks t) (t_src t)) ts.

(** The copies of a layer. *)
Definition layer_copy (g : memory) (ts : list Tensor) (dst : memory) : memory :=
  foldl (fun m t => exec_copy g (shift_block (t_src t) (t_dst t) <$> t_blocks t) m) dst ts.

(** Well-formed copies of a tensor. *)
Definition block_fits (capacity : Z) (b : IpcBlock) : Prop :=
  0 < length_ b /\ (0 <= src_offset b /\ src_offset b + length_ b < W64) /\
  0 <= dst_offset b /\ dst_offset b + length_ b <= capacity.

Record tensor_ok (t : Tensor) : Prop := {
  to_nonempty : t_blocks t <> [];
  to_fits : Forall (block_fits (t_capacity t)) (t_blocks t);
  to_total : sum_length (t_blocks t) * SIZEOF_IPC_BLOCK < 2 ^ 63;
  to_disjoint : NoDup (dst_bytes (t_blocks t));
  to_capacity : 0 <= t_capacity t < W64;
  to_ptr : t_dst t <> 0;
}.

(** ** Integers *)
Lemma of_le_bytes n z : 0 <= z < 256 ^ Z.of_nat n -> of_le (le_bytes n z) = z.
Proof.
  revert z. induction n as [|n IH]; intros z Hz; [simpl in *; lia|]. cbn [le_bytes of_le foldr].
  fold (of_le (le_bytes n (z / 256))).
  replace (256 ^ Z.of_nat (S n)) with (256 * 256 ^ Z.of_nat n) in Hz
    by (rewrite Nat2Z.inj_succ, Z.pow_succ_r; lia).
  rewrite IH.
  - pose proof (Z.div_mod z 256). lia.
  - split; [apply Z.div_pos; lia|]. apply Z.div_lt_upper_bound; lia.
Qed.

Lemma length_le_bytes n z : length (le_bytes n z) = n.
Proof. revert z. induction n as [|n IH]; intros z; simpl; [done|]. by rewrite IH. Qed.

Lemma vsize_le_bytes n z : vsize (le_bytes n z) = Z.of_nat n.
Proof. unfold vsize. by rewrite length_le_bytes. Qed.

Lemma vsize_read m a n : 0 <= n -> vsize (read m a n) = n.
Proof. intros. unfold vsize, read. rewrite length_fmap, length_seqZ. lia. Qed.

Lemma vsize_blob g sp blocks : blocks_ok blocks -> vsize (blob g sp blocks) = sum_length blocks.
Proof.
  induction 1 as [|b blocks Hl _ IH]; [done|]. unfold blob in *. simpl.
  rewrite vsize_app, vsize_read, IH by lia. done.
Qed.

Lemma vsize_blocks_wire blocks : vsize (flat_map block_wire blocks) = vsize blocks * SIZEOF_IPC_BLOCK.
Proof.
  unfold SIZEOF_IPC_BLOCK. induction blocks as [|b blocks IH]; [done|].
  cbn [flat_map]. rewrite vsize_app, IH. unfold block_wire. rewrite !vsize_app, !vsize_le_bytes.
  unfold vsize. simpl length. lia.
Qed.

Lemma vsize_tensor_wire g blocks sp :
  blocks_ok blocks ->
  vsize (tensor_wire g blocks sp) = 16 + vsize blocks * SIZEOF_IPC_BLOCK + sum_length blocks.
Proof.
  intros Hb. unfold tensor_wire. rewrite !vsize_app, !vsize_le_bytes, vsize_blocks_wire, vsize_blob by done.
  lia.
Qed.

(** ** Buffers *)

(** [l] is in memory at [a]. *)
Definition holds (m : memory) (a : Z) (l : list Z) : Prop :=
  forall i x, l !! i = Some x -> m (a + Z.of_nat i) = x.

Lemma holds_app m a u v : holds m a (u ++ v) <-> holds m a u /\ holds m (a + vsize u) v.
Proof.
  unfold holds, vsize. split.
  - intros Huv. split; intros i x Hi.
    + apply Huv. by apply lookup_app_l_Some.
    + replace (a + Z.of_nat (length u) + Z.of_nat i) with (a + Z.of_nat (length u + i)) by lia.
      apply Huv. rewrite lookup_app_r by lia. rewrite <- Hi. f_equal. lia.
  - intros [Hu Hv] i x [Hi|[Hge Hi]]%lookup_app_Some; [by apply Hu|].
    rewrite <- (Hv _ _ Hi). f_equal. lia.
Qed.

Lemma holds_read m a l : holds m a l -> read m a (vsize l) = l.
Proof.
  intros Hl. apply list_eq. intros i. unfold read. rewrite list_lookup_fmap.
  destruct (l !! i) as [x|] eqn:Hi.
  - assert (i < length l)%nat by eauto using lookup_lt_Some.
    rewrite lookup_seqZ_lt by (unfold vsize; lia). simpl. f_equal.
    rewrite <- (Hl _ _ Hi). done.
  - apply lookup_ge_None in Hi. by rewrite lookup_seqZ_ge by (unfold vsize; lia).
Qed.

Lemma holds_size m a z : holds m a (le_bytes 8 z) -> 0 <= z < W64 -> read_size m a = z.
Proof.
  intros Hm Hz. unfold read_size. apply holds_read in Hm. rewrite vsize_le_bytes in Hm.
  change (Z.of_nat 8) with 8 in Hm. rewrite Hm. by apply of_le_bytes.
Qed.

Lemma write_holds m a l : holds (write m a l) a l.
Proof.
  intros i x Hi. assert (i < length l)%nat by eauto using lookup_lt_Some. unfold write, vsize.
  rewrite (proj2 (Z.leb_le _ _)), (proj2 (Z.ltb_lt _ _)) by lia. simpl.
  replace (Z.to_nat (a + Z.of_nat i - a)) with i by lia. by rewrite Hi.
Qed.

Lemma write_app m a u v x : write (write m a u) (a + vsize u) v x = write m a (u ++ v) x.
Proof.
  unfold write. rewrite vsize_app. pose proof (vsize_nonneg u). pose proof (vsize_nonneg v).
  destruct (Z.leb_spec (a + vsize u) x), (Z.ltb_spec x (a + vsize u + vsize v)),
    (Z.leb_spec a x), (Z.ltb_spec x (a + (vsize u + vsize v))), (Z.ltb_spec x (a + vsize u));
    simpl; try lia; try done.
  - f_equal. rewrite lookup_app_r by (unfold vsize in *; lia). f_equal. unfold vsize. lia.
  - f_equal. by rewrite lookup_app_l by (unfold vsize in *; lia).
Qed.

Lemma write_ext m m' a l x : (forall y, m y = m' y) -> write m a l x = write m' a l x.
Proof. intros Hm. unfold write. by rewrite Hm. Qed.

Lemma write_nil m a x : write m a [] x = m x.
Proof.
  unfold write. destruct (Z.leb_spec a x); [|done].
  by rewrite (proj2 (Z.ltb_ge _ _)) by (unfold vsize; simpl; lia).
Qed.

(** ** Gathering *)
Definition gather_blocks (blocks : list IpcBlock) : list IpcBlock :=
  (fun b => mkIpcBlock 0 (src_offset b) (length_ b)) <$> blocks.

Lemma gather_ok blocks : blocks_ok blocks -> blocks_ok (gather_blocks blocks).
Proof. intros Hb. by apply Forall_fmap. Qed.

Lemma gather_sum blocks : sum_length (gather_blocks blocks) = sum_length blocks.
Proof. unfold gather_blocks. induction blocks as [|b blocks IH]; csimpl; [done|]. by rewrite IH. Qed.

Lemma exec_run g s d n h a :
  exec_bytes g ((fun k => (s + k, d + k)) <$> seqZ 0 n) h a = write h d (read g s n) a.
Proof.
  assert (((fun k => (s + k, d + k)) <$> seqZ 0 n).*2 = seqZ d n) as Hsnd.
  { rewrite <- list_fmap_compose. rewrite (list_fmap_ext _ (Z.add d)) by done.
    rewrite fmap_add_seqZ. f_equal. lia. }
  destruct (decide (d <= a < d + n)) as [Hin|Hout].
  - rewrite (exec_bytes_written g _ h (s + (a - d)) a).
    + unfold write. rewrite vsize_read, (proj2 (Z.leb_le _ _)), (proj2 (Z.ltb_lt _ _)) by lia. simpl.
      unfold read. rewrite list_lookup_fmap, lookup_seqZ_lt by lia. simpl. f_equal. lia.
    + rewrite Hsnd. apply NoDup_seqZ.
    + apply list_elem_of_fmap. exists (a - d). rewrite elem_of_seqZ. split; [f_equal; lia|lia].
  - rewrite exec_bytes_frame by (rewrite Hsnd, elem_of_seqZ; lia). unfold write.
    destruct (decide (0 <= n)).
    + rewrite vsize_read by done. destruct (Z.leb_spec d a), (Z.ltb_spec a (d + n)); simpl; try done. lia.
    + unfold read. rewrite seqZ_nil by lia. symmetry. apply (write_nil h d a).
Qed.

Lemma gather_spec g p sp off blocks h a :
  blocks_ok blocks ->
  exec_bytes g (swap_pair <$> copies (layout p sp off (gather_blocks blocks))) h a =
  write h (p + off) (blob g sp blocks) a.
Proof.
  intros Hb. revert off h. induction Hb as [|b blocks Hl Hb IH]; intros off h.
  { symmetry. apply write_nil. }
  unfold gather_blocks. rewrite fmap_cons. cbn [layout]. rewrite copies_cons, fmap_app, exec_bytes_app. fold (gather_blocks blocks). rewrite IH.
  unfold blob. cbn [flat_map]. fold (blob g sp blocks). rewrite <- write_app, vsize_read by lia.
  rewrite <- Z.add_assoc. apply write_ext. intros x. rewrite <- exec_run.
  unfold block_copies, at_block. by rewrite <- list_fmap_compose.
Qed.

Lemma layout_hosts p sp off blocks :
  blocks_ok blocks -> (copies (layout p sp off blocks)).*1 = seqZ (p + off) (sum_length blocks).
Proof.
  intros Hb. revert off. induction Hb as [|b blocks Hl Hb IH]; intros off; [done|].
  cbn [layout]. rewrite copies_cons, fmap_app, IH. pose proof (sum_length_nonneg _ Hb).
  cbn [sum_length foldr]. fold (sum_length blocks). rewrite seqZ_app by lia.
  rewrite Z.add_assoc. f_equal. unfold block_copies, at_block. rewrite <- list_fmap_compose.
  rewrite (list_fmap_ext _ (Z.add (p + off))) by done. rewrite fmap_add_seqZ. f_equal. simpl. lia.
Qed.

(** A device copy to the host appends the blob. *)
Lemma device_gather d p sp blocks m :
  device_ok d -> blocks_ok blocks -> sum_length blocks < W64 ->
  exists m', device_copy d p sp (gather_blocks blocks) (sum_length blocks) D2H m = Ok m' /\
    (forall a, host m' a = write (host m) p (blob (gpu m) sp blocks) a) /\
    (forall a, gpu m' a = gpu m a).
Proof.
  intros Hd Hb Hs. destruct (copy_moves (dev_profile d) (dev_grid d) (dev_block d) (dev_batch d)
    (dev_sched d) (dev_sched_perm _ Hd) (dev_config _ Hd) (dev_batch_pos _ Hd) p sp
    (gather_blocks blocks) (sum_length blocks) D2H m) as (m' & Hok & Hh & Hg).
  - by apply gather_ok.
  - apply gather_sum.
  - done.
  - simpl. rewrite layout_hosts by (by apply gather_ok). apply NoDup_seqZ.
  - exists m'. split; [done|]. split; intros a; [rewrite Hh|by rewrite Hg].
    unfold reference_copy. simpl. rewrite gather_spec by done. by rewrite Z.add_0_r.
Qed.

(** ** The sender writes the wire format *)

(** [w] has been written from [p0] on, and [p] is the next position. *)
Definition appended (m0 : Mem) (p0 : Z) (w : list Z) (m : Mem) (p : Z) : Prop :=
  (forall a, host m a = write (host m0) p0 w a) /\ (forall a, gpu m a = gpu m0 a) /\
  p = p0 + vsize w.

Lemma appended_start m p : appended m p [] m p.
Proof. split_and!; [intros a; by rewrite write_nil|done|unfold vsize; simpl; lia]. Qed.

Lemma appended_write m0 p0 w m p l p' :
  appended m0 p0 w m p -> p' = p + vsize l -> appended m0 p0 (w ++ l) (write_host p l m) p'.
Proof.
  intros (Hh & Hg & ->) ->. split_and!; [|done|rewrite vsize_app; lia].
  intros a. rewrite <- write_app. simpl. by apply write_ext.
Qed.

Lemma blob_ext g g' sp blocks : (forall a, g a = g' a) -> blob g sp blocks = blob g' sp blocks.
Proof.
  intros Hg. unfold blob. apply flat_map_ext_elem. intros b _. unfold read.
  apply list_fmap_ext. intros. apply Hg.
Qed.

Lemma appended_gather d m0 p0 w m p sp blocks :
  device_ok d -> blocks_ok blocks -> sum_length blocks < W64 -> appended m0 p0 w m p ->
  exists m', device_copy d p sp (gather_blocks blocks) (sum_length blocks) D2H m = Ok m' /\
    appended m0 p0 (w ++ blob (gpu m0) sp blocks) m' (p + sum_length blocks).
Proof.
  intros Hd Hb Hs (Hh & Hg & ->).
  destruct (device_gather d (p0 + vsize w) sp blocks m Hd Hb Hs) as (m' & -> & Hh' & Hg').
  exists m'. split; [done|]. split_and!.
  - intros a. rewrite Hh', <- write_app, (blob_ext _ _ _ _ Hg). by apply write_ext.
  - intros a. by rewrite Hg'.
  - rewrite vsize_app, vsize_blob by done. lia.
Qed.

Lemma fits_blocks_ok capacity blocks : Forall (block_fits capacity) blocks -> blocks_ok blocks.
Proof. intros Hf. apply (Forall_impl _ _ _ Hf). by intros b (? & _). Qed.

(** Blocks are not empty, so there are not more of them than bytes. *)
Lemma total_bound blocks :
  blocks_ok blocks -> sum_length blocks * SIZEOF_IPC_BLOCK < 2 ^ 63 ->
  sum_length blocks < W64 /\ vsize blocks * SIZEOF_IPC_BLOCK < 2 ^ 63.
Proof.
  intros Hb Hs. unfold SIZEOF_IPC_BLOCK in *. pose proof (sum_length_nonneg _ Hb).
  assert (vsize blocks <= sum_length blocks); [|unfold W64; lia].
  clear Hs. induction Hb as [|b blocks Hl Hb IH]; [done|].
  pose proof (sum_length_nonneg _ Hb). unfold vsize in *. simpl. specialize (IH ltac:(done)). lia.
Qed.

Lemma raw_blocks capacity blocks :
  Forall (block_fits capacity) blocks -> capacity < W64 ->
  ((fun b => mkIpcBlock 0 (src_offset b) (u64 (length_ b * (if false then 2 else 1)))) <$> blocks)
  = gather_blocks blocks.
Proof.
  intros Hf Hc. unfold gather_blocks. apply list_fmap_ext. intros i b Hb.
  destruct (Forall_lookup_1 _ _ _ _ Hf Hb) as (? & _ & ? & ?).
  rewrite Z.mul_1_r, u64_small by lia. done.
Qed.

Lemma send_tensor_spec d t m0 p0 w m p :
  device_ok d -> tensor_ok t -> appended m0 p0 w m p ->
  exists m' p', send_tensor d false ((t_blocks t, sum_length (t_blocks t)), t_src t) (p, m) = Ok (p', m') /\
    appended m0 p0 (w ++ tensor_wire (gpu m0) (t_blocks t) (t_src t)) m' p'.
Proof.
  intros Hd [Hne Hf Hn _ Hc _] Ha. pose proof (fits_blocks_ok _ _ Hf) as Hb.
  pose proof (total_bound _ Hb Hn) as [Ht _]. unfold send_tensor.
  rewrite cassert_true.
  2: { destruct (Z.eqb_spec (vsize (t_blocks t)) 0) as [Hz|]; [|done].
       destruct (t_blocks t); [done|]. unfold vsize in Hz. simpl in Hz. lia. }
  cbn [rbind]. rewrite (raw_blocks (t_capacity t)) by (done || lia).
  apply (appended_write _ _ _ _ _ (le_bytes 8 (vsize (t_blocks t))) (p + 8)) in Ha;
    [|by rewrite vsize_le_bytes].
  apply (appended_write _ _ _ _ _ (flat_map block_wire (t_blocks t))
    (p + 8 + vsize (t_blocks t) * SIZEOF_IPC_BLOCK)) in Ha; [|by rewrite vsize_blocks_wire].
  apply (appended_write _ _ _ _ _ (le_bytes 8 (sum_length (t_blocks t)))
    (p + 8 + vsize (t_blocks t) * SIZEOF_IPC_BLOCK + 8)) in Ha; [|by rewrite vsize_le_bytes].
  destruct (appended_gather d _ _ _ _ _ (t_src t) (t_blocks t) Hd Hb Ht Ha) as (m' & -> & Ha').
  cbn [rbind]. eexists _, _. split; [done|]. unfold tensor_wire. by rewrite <- !app_assoc in Ha'.
Qed.

Lemma send_tensors_spec d ts m0 p0 w m p :
  device_ok d -> Forall tensor_ok ts -> appended m0 p0 w m p ->
  exists m' p', forM (zip (zip (t_blocks <$> ts) ((fun t => sum_length (t_blocks t)) <$> ts)) (t_src <$> ts))
      (send_tensor d false) (p, m) = Ok (p', m') /\
    appended m0 p0 (w ++ flat_map (fun t => tensor_wire (gpu m0) (t_blocks t) (t_src t)) ts) m' p'.
Proof.
  intros Hd Hts. revert w m p. induction Hts as [|t ts Ht Hts IH]; intros w m p Ha.
  { exists m, p. simpl. rewrite app_nil_r. done. }
  rewrite !fmap_cons. cbn [zip zip_with forM flat_map].
  destruct (send_tensor_spec d t m0 p0 w m p Hd Ht Ha) as (m1 & p1 & -> & Ha1). cbn [rbind].
  destruct (IH _ _ _ Ha1) as (m2 & p2 & Hok & Ha2). exists m2, p2. split; [exact Hok|].
  by rewrite <- app_assoc in Ha2.
Qed.

(** Conversion is used neither when it is switched off nor for several tensors. *)
Definition raw_layer (ts : list Tensor) : Prop :=
  env_bf162fp8_conversion && (vsize ts =? 1) = false.

(** Number and bytes of the records of a layer. *)
Definition layer_records (ts : list Tensor) : Z := foldr (fun t n => vsize (t_blocks t) + n) 0 ts.
Definition layer_bytes (ts : list Tensor) : Z := foldr (fun t n => sum_length (t_blocks t) + n) 0 ts.

(** The registration holds the blocks of the tensors. *)
Record registered_layer (ts : list Tensor) (r : Registered) : Prop := {
  rl_data : reg_data r = t_blocks <$> ts;
  rl_bytes : tensor_send_bytes_ r = (fun t => sum_length (t_blocks t)) <$> ts;
  rl_count : merged_sb_num_ r = layer_records ts;
  rl_total : sb_size_total_ r = layer_bytes ts;
}.

Lemma send_data_spec d ts r base reqid layer_idx m :
  device_ok d -> ts <> [] -> Forall tensor_ok ts -> raw_layer ts -> registered_layer ts r ->
  exists m', send_data d r (t_src <$> ts) base reqid layer_idx m =
      Ok (m', vsize (wire (gpu m) reqid layer_idx ts)) /\
    (forall a, host m' a = write (host m) base (wire (gpu m) reqid layer_idx ts) a) /\
    (forall a, gpu m' a = gpu m a).
Proof.
  intros Hd Hne Hts Hraw [Hdata Hbytes _ _]. unfold send_data. rewrite Hdata, Hbytes.
  assert (forall A (f : Tensor -> A), vsize (f <$> ts) = vsize ts) as Hvs
    by (intros; unfold vsize; by rewrite length_fmap).
  rewrite !Hvs.
  rewrite cassert_true by (apply Z.ltb_lt; unfold vsize; destruct ts; [done|simpl; lia]). cbn [rbind].
  rewrite cassert_true by apply Z.eqb_refl. cbn [rbind]. rewrite Hraw.
  pose proof (appended_start m base) as Ha.
  apply (appended_write _ _ _ _ _ (le_bytes 4 KV_CACHE_DATA_MAGIC ++ le_bytes 8 reqid)
    (base + RPC_HEADER)) in Ha; [|by rewrite vsize_app, !vsize_le_bytes].
  apply (appended_write _ _ _ _ _ (le_bytes 8 layer_idx) (base + RPC_HEADER + 8)) in Ha;
    [|by rewrite vsize_le_bytes].
  apply (appended_write _ _ _ _ _ (le_bytes 8 (vsize ts)) (base + RPC_HEADER + 16)) in Ha;
    [|rewrite vsize_le_bytes; lia].
  destruct (send_tensors_spec d ts _ _ _ _ _ Hd Hts Ha) as (m' & p' & Hok & Hh & Hg & Hp).
  rewrite Hok. cbn [rbind]. rewrite app_nil_l, <- !app_assoc in Hh, Hp.
  exists m'. split; [|by split]. rewrite Hp. fold (wire (gpu m) reqid layer_idx ts).
  do 2 f_equal. unfold wire. lia.
Qed.

(** ** Scattering *)
Lemma exec_bytes_map src1 src2 (f g d : Z -> Z) ks h :
  (forall k, k ∈ ks -> src1 (f k) = src2 (g k)) ->
  exec_bytes src1 ((fun k => (f k, d k)) <$> ks) h = exec_bytes src2 ((fun k => (g k, d k)) <$> ks) h.
Proof.
  unfold exec_bytes. revert h. induction ks as [|k ks IH]; intros h Hk; csimpl; [done|].
  rewrite (Hk k) by set_solver. apply IH. intros. apply Hk. set_solver.
Qed.

(** Scattering a blob makes the copies it was gathered for. *)
Lemma scatter_spec h g p sp dp off blocks dst :
  blocks_ok blocks -> holds h (p + off) (blob g sp blocks) ->
  exec_bytes h (copies (layout p dp off blocks)) dst =
  exec_copy g (shift_block sp dp <$> blocks) dst.
Proof.
  intros Hb. revert off dst. induction Hb as [|b blocks Hl Hb IH]; intros off dst Hh; [done|].
  unfold blob in Hh. cbn [flat_map] in Hh. fold (blob g sp blocks) in Hh.
  apply holds_app in Hh as [Hb1 Hb2]. rewrite vsize_read in Hb2 by lia.
  cbn [layout]. rewrite copies_cons, exec_bytes_app, fmap_cons. unfold exec_copy.
  change (bytes_of (shift_block sp dp b :: ?l)) with (block_bytes (shift_block sp dp b) ++ bytes_of l).
  rewrite exec_bytes_app. unfold exec_copy in IH. rewrite IH by (by rewrite Z.add_assoc). f_equal.
  unfold block_copies, at_block, block_bytes, shift_block. cbn [k_src k_dst k_len src_offset dst_offset length_].
  rewrite (exec_bytes_map h g _ (fun k => src_offset b + sp + k) (fun k => dp + dst_offset b + k)).
  - f_equal. apply list_fmap_ext. intros. f_equal. lia.
  - intros k Hk%elem_of_seqZ.
    assert (read g (sp + src_offset b) (length_ b) !! Z.to_nat k = Some (g (src_offset b + sp + k))) as Hr.
    { unfold read. rewrite list_lookup_fmap, lookup_seqZ_lt by lia. simpl. do 2 f_equal. lia. }
    rewrite <- (Hb1 _ _ Hr). f_equal. lia.
Qed.

Lemma layout_dsts p dp off blocks :
  (copies (layout p dp off blocks)).*2 = Z.add dp <$> dst_bytes blocks.
Proof.
  revert off. induction blocks as [|b blocks IH]; intros off; [done|].
  cbn [layout]. rewrite copies_cons, fmap_app, IH.
  change (dst_bytes (b :: blocks)) with (dst_bytes ([b] ++ blocks)). rewrite dst_bytes_app, fmap_app.
  f_equal. rewrite dst_bytes_singleton, fmap_add_seqZ. unfold block_copies, at_block.
  rewrite <- list_fmap_compose. rewrite (list_fmap_ext _ (Z.add (dp + dst_offset b))) by done.
  rewrite fmap_add_seqZ. f_equal. simpl. lia.
Qed.

Lemma device_scatter d g p sp dp blocks m :
  device_ok d -> blocks_ok blocks -> sum_length blocks < W64 -> NoDup (dst_bytes blocks) ->
  holds (host m) p (blob g sp blocks) ->
  exists m', device_copy d p dp blocks (sum_length blocks) H2D m = Ok m' /\
    (forall a, host m' a = host m a) /\
    (forall a, gpu m' a = exec_copy g (shift_block sp dp <$> blocks) (gpu m) a).
Proof.
  intros Hd Hb Hs Hnd Hh. destruct (copy_moves (dev_profile d) (dev_grid d) (dev_block d) (dev_batch d)
    (dev_sched d) (dev_sched_perm _ Hd) (dev_config _ Hd) (dev_batch_pos _ Hd) p dp
    blocks (sum_length blocks) H2D m) as (m' & Hok & Hh' & Hg'); try done.
  - simpl. rewrite layout_dsts. apply NoDup_fmap_2; [|done]. intros x y ?. lia.
  - exists m'. split; [done|]. split; intros a; [by rewrite Hh'|rewrite Hg'].
    unfold reference_copy. simpl. by rewrite (scatter_spec _ g _ sp) by (done || by rewrite Z.add_0_r).
Qed.

(** ** The server reads the wire format *)
Lemma holds_block m a blocks i b :
  holds m a (flat_map block_wire blocks) -> blocks !! i = Some b ->
  holds m (a + Z.of_nat i * SIZEOF_IPC_BLOCK) (block_wire b).
Proof.
  unfold SIZEOF_IPC_BLOCK. revert a i. induction blocks as [|b' blocks IH]; intros a i Hh Hi; [done|].
  cbn [flat_map] in Hh. apply holds_app in Hh as [H1 H2].
  destruct i as [|i]; simplify_eq/=; [by rewrite Z.add_0_r|].
  replace (a + Z.of_nat (S i) * 24) with (a + vsize (block_wire b') + Z.of_nat i * 24); [by apply IH|].
  unfold block_wire. rewrite !vsize_app, !vsize_le_bytes. lia.
Qed.

Lemma read_blocks m a blocks capacity :
  holds m a (flat_map block_wire blocks) -> Forall (block_fits capacity) blocks -> capacity < W64 ->
  (fun i => read_block m a i) <$> seqZ 0 (vsize blocks) = blocks.
Proof.
  intros Hh Hf Hc. apply list_eq. intros i. rewrite list_lookup_fmap.
  destruct (blocks !! i) as [b|] eqn:Hi.
  - assert (i < length blocks)%nat by eauto using lookup_lt_Some.
    rewrite lookup_seqZ_lt by (unfold vsize; lia). simpl. f_equal.
    destruct (Forall_lookup_1 _ _ _ _ Hf Hi) as (Hl & Hs & Hd & Hle).
    pose proof (holds_block _ _ _ _ _ Hh Hi) as Hb. unfold block_wire in Hb.
    apply holds_app in Hb as [Hb1 Hb]. apply holds_app in Hb as [Hb2 Hb3].
    rewrite !vsize_le_bytes in Hb2, Hb3. unfold read_block.
    rewrite (holds_size _ _ (src_offset b)), (holds_size _ _ (dst_offset b)),
      (holds_size _ _ (length_ b)); try lia; try done; [by destruct b|].
    by rewrite <- Z.add_assoc in Hb3.
  - apply lookup_ge_None in Hi. by rewrite lookup_seqZ_ge by (unfold vsize; lia).
Qed.

Lemma validate_fits blocks capacity :
  Forall (block_fits capacity) blocks -> capacity < W64 ->
  validate_ipc_block_bounds blocks capacity DESTINATION 1 = Ok tt.
Proof.
  intros Hf Hc. unfold validate_ipc_block_bounds.
  induction Hf as [|b blocks (Hl & Hs & Hd & Hle) _ IH]; [done|]. cbn [forM].
  rewrite Z.div_1_r, Z.mul_1_r, (u64_small (length_ b)), (u64_small (capacity - dst_offset b)) by lia.
  rewrite (proj2 (Z.eqb_neq (length_ b) 0)), (proj2 (Z.ltb_ge SIZE_MAX (length_ b))),
    (proj2 (Z.ltb_ge capacity (dst_offset b))) by (unfold SIZE_MAX; lia). cbn [orb].
  change (1 =? 0) with false. cbn [orb].
  rewrite (proj2 (Z.ltb_ge (capacity - dst_offset b) (length_ b))) by lia. cbn [rbind]. exact IH.
Qed.

Lemma recv_tensor_spec d g t caps tptrs buf_end i p m :
  device_ok d -> tensor_ok t -> tptrs !! i = Some (t_dst t) -> caps !! i = Some (t_capacity t) ->
  holds (host m) p (tensor_wire g (t_blocks t) (t_src t)) -> 0 <= p ->
  p + vsize (tensor_wire g (t_blocks t) (t_src t)) <= buf_end < W64 ->
  exists m', recv_tensor d caps tptrs buf_end (Z.of_nat i) (p, m) =
      Ok (inr (p + vsize (tensor_wire g (t_blocks t) (t_src t)), m')) /\
    (forall a, host m' a = host m a) /\
    (forall a, gpu m' a = exec_copy g (shift_block (t_src t) (t_dst t) <$> t_blocks t) (gpu m) a).
Proof.
  intros Hd [Hne Hf Hsz Hnd Hc Hptr] Hip Hic Hh Hp Hend.
  pose proof (fits_blocks_ok _ _ Hf) as Hb. pose proof (total_bound _ Hb Hsz) as [Ht Hn]. pose proof (sum_length_nonneg _ Hb) as Hsn.
  pose proof (vsize_nonneg (t_blocks t)) as Hvn. rewrite vsize_tensor_wire in Hend |- * by done.
  unfold tensor_wire in Hh. apply holds_app in Hh as [H1 Hh]. apply holds_app in Hh as [H2 Hh].
  apply holds_app in Hh as [H3 H4]. rewrite !vsize_le_bytes in *. rewrite vsize_blocks_wire in *.
  unfold SIZEOF_IPC_BLOCK in *. set (n := vsize (t_blocks t)) in *.
  set (total := sum_length (t_blocks t)) in *.
  change (Z.of_nat 8) with 8 in *. unfold recv_tensor, SIZEOF_IPC_BLOCK.
  rewrite (u64_small (p + 8)), (proj2 (Z.ltb_ge buf_end (p + 8))) by lia.
  rewrite (holds_size _ _ n H1), (u64_small (n * 24)) by lia.
  rewrite (u64_small (p + 8 + n * 24 + 8)), (proj2 (Z.ltb_ge buf_end _)) by lia.
  rewrite (proj2 (Z.ltb_ge IPC_BLOCKS_MAX n))
    by (unfold IPC_BLOCKS_MAX, SIZEOF_IPC_BLOCK; apply Z.div_le_lower_bound; lia).
  rewrite (u64_small (p + 8 + n * 24)) by lia. rewrite (holds_size _ _ total H3) by lia.
  rewrite (u64_small (p + 8 + n * 24 + 8)) by lia.
  rewrite (u64_small (p + 8 + n * 24 + 8 + total)), (proj2 (Z.ltb_ge buf_end _)) by lia.
  unfold n. rewrite (read_blocks _ _ _ _ H2 Hf) by lia. fold n.
  rewrite (vec_idx_Some tptrs _ (t_dst t)) by (lia || by rewrite Nat2Z.id). cbn [rbind].
  rewrite cassert_true by (apply negb_true_iff, Z.eqb_neq; done). cbn [rbind].
  assert (i < length caps)%nat by eauto using lookup_lt_Some.
  rewrite (proj2 (Z.leb_gt (vsize caps) (Z.of_nat i))) by (unfold vsize; lia).
  rewrite (vec_idx_Some caps _ (t_capacity t)) by (lia || by rewrite Nat2Z.id). cbn [rbind].
  rewrite validate_fits by (done || lia).
  destruct (device_scatter d g _ (t_src t) (t_dst t) (t_blocks t) m Hd Hb Ht Hnd H4)
    as (m' & Hok & Hh' & Hg').
  unfold total. rewrite Hok. cbn [rbind]. exists m'. split; [|done].
  do 3 f_equal. fold total. lia.
Qed.

Lemma exec_copy_ext g blocks h h' a :
  (forall x, h x = h' x) -> exec_copy g blocks h a = exec_copy g blocks h' a.
Proof. intros Hh. unfold exec_copy. by apply exec_bytes_ext. Qed.

Lemma layer_copy_ext g ts h h' a :
  (forall x, h x = h' x) -> layer_copy g ts h a = layer_copy g ts h' a.
Proof.
  revert h h'. unfold layer_copy. induction ts as [|t ts IH]; intros h h' Hh; simpl; [done|].
  apply IH. intros x. by apply exec_copy_ext.
Qed.

Lemma recv_tensors_spec d g ts (pre : list Tensor) caps tptrs buf_end p m :
  device_ok d -> Forall tensor_ok ts -> length pre = length tptrs -> length pre = length caps ->
  holds (host m) p (flat_map (fun t => tensor_wire g (t_blocks t) (t_src t)) ts) -> 0 <= p ->
  p + vsize (flat_map (fun t => tensor_wire g (t_blocks t) (t_src t)) ts) <= buf_end < W64 ->
  exists m', recv_tensors d (caps ++ (t_capacity <$> ts)) (tptrs ++ (t_dst <$> ts)) buf_end
      (seqZ (vsize pre) (vsize ts)) (p, m) = Ok (Replied m') /\
    (forall a, host m' a = host m a) /\ (forall a, gpu m' a = layer_copy g ts (gpu m) a).
Proof.
  intros Hd Hts. revert pre caps tptrs p m.
  induction Hts as [|t ts Ht Hts IH]; intros pre caps tptrs p m Hl1 Hl2 Hh Hp Hend.
  { exists m. split_and!; try done. }
  replace (seqZ (vsize pre) (vsize (t :: ts))) with (vsize pre :: seqZ (vsize (pre ++ [t])) (vsize ts)).
  2: { unfold vsize. rewrite length_app. simpl length. rewrite (seqZ_cons _ (Z.of_nat (S _))) by lia.
       f_equal. f_equal; lia. }
  cbn [recv_tensors flat_map] in *. apply holds_app in Hh as [H1 H2]. rewrite vsize_app in Hend.
  pose proof (vsize_nonneg (tensor_wire g (t_blocks t) (t_src t))) as Hv1.
  pose proof (vsize_nonneg (flat_map (fun t => tensor_wire g (t_blocks t) (t_src t)) ts)) as Hv2.
  destruct (recv_tensor_spec d g t (caps ++ (t_capacity <$> t :: ts)) (tptrs ++ (t_dst <$> t :: ts))
    buf_end (length pre) p m) as (m1 & Hok & Hh1 & Hg1); try done; [| |lia|].
  { rewrite Hl1, lookup_app_r, Nat.sub_diag by lia. done. }
  { rewrite Hl2, lookup_app_r, Nat.sub_diag by lia. done. }
  unfold vsize at 1. rewrite Hok. cbn [rbind].
  destruct (IH (pre ++ [t]) (caps ++ [t_capacity t]) (tptrs ++ [t_dst t])
    (p + vsize (tensor_wire g (t_blocks t) (t_src t))) m1) as (m2 & Hok2 & Hh2 & Hg2).
  { rewrite !length_app. simpl. lia. }
  { rewrite !length_app. simpl. lia. }
  { intros k x Hk. rewrite Hh1. by apply H2. }
  { lia. }
  { lia. }
  rewrite <- !app_assoc in Hok2. exists m2. split; [exact Hok2|]. split.
  - intros a. by rewrite Hh2, Hh1.
  - intros a. rewrite Hg2. unfold layer_copy. cbn [foldl]. by apply layer_copy_ext.
Qed.

(** ** Registering keeps the copies *)
Lemma sum_length_bytes blocks :
  blocks_ok blocks -> sum_length blocks = vsize (bytes_of blocks).
Proof.
  intros Hb. rewrite length_bytes_of.
  - clear Hb. induction blocks as [|b blocks IH]; [done|]. csimpl. by rewrite IH.
  - apply (Forall_impl _ _ _ Hb). simpl. lia.
Qed.

(** Every block made of bytes of fitting blocks fits. *)
Lemma fits_of_bytes capacity blocks kept :
  Forall (block_fits capacity) blocks -> blocks_ok kept -> bytes_of kept ≡ₚ bytes_of blocks ->
  Forall (block_fits capacity) kept.
Proof.
  intros Hf Hk Hp. rewrite Forall_forall in Hf. unfold blocks_ok in Hk. rewrite Forall_forall in Hk |- *.
  intros b Hb. specialize (Hk b Hb).
  assert (forall k, 0 <= k < length_ b -> exists b' k', b' ∈ blocks /\ 0 <= k' < length_ b' /\
    src_offset b + k = src_offset b' + k' /\ dst_offset b + k = dst_offset b' + k') as Hbyte.
  { intros k Hkr. assert ((src_offset b + k, dst_offset b + k) ∈ bytes_of blocks) as Hin.
    { rewrite <- Hp. apply elem_of_bytes_of. exists b. split; [done|]. apply elem_of_block_bytes. eauto. }
    apply elem_of_bytes_of in Hin as (b' & Hb' & (k' & Hk' & ? & ?)%elem_of_block_bytes).
    exists b', k'. done. }
  destruct (Hbyte 0) as (b1 & k1 & Hin1 & ? & ? & ?); [lia|].
  destruct (Hbyte (length_ b - 1)) as (b2 & k2 & Hin2 & ? & ? & ?); [lia|].
  destruct (Hf _ Hin1) as (? & ? & ? & ?), (Hf _ Hin2) as (? & ? & ? & ?).
  unfold block_fits. lia.
Qed.

Lemma kept_runs l :
  Forall (fun b => 0 <= length_ b) l -> filter (fun b => length_ b <> 0) l = runs l.
Proof.
  unfold runs. induction 1 as [|b l Hb _ IH]; [done|]. rewrite !filter_cons, IH.
  do 2 case_decide; done || lia.
Qed.

Lemma sum_length_foldr l : sum_length l = foldr Z.add 0 (length_ <$> l).
Proof. induction l as [|b l IH]; [done|]. csimpl. by rewrite IH. Qed.

Lemma cnt_stats_of l st :
  0 <= cnt st -> cnt st + vsize l < W64 -> cnt (stats_of st l) = cnt st + vsize l.
Proof.
  unfold stats_of, vsize. revert st. induction l as [|b l IH]; intros st H0 Hl; [simpl; lia|].
  csimpl in *. rewrite IH; cbn [add_run cnt]; rewrite u64_small; lia.
Qed.

(** A tensor with the merged blocks. *)
Definition merged_tensor (t : Tensor) (kept : list IpcBlock) : Tensor :=
  mkTensor kept (t_src t) (t_dst t) (t_capacity t).

Lemma merge_tensor_spec sort `{!StdSort sort} t :
  tensor_ok t ->
  exists kept st, merge_tensor sort (t_blocks t) = Ok (kept, st) /\
    tensor_ok (merged_tensor t kept) /\ bytes_of kept ≡ₚ bytes_of (t_blocks t) /\
    cnt st = vsize kept /\ total_size st = sum_length kept /\
    sum_length kept = sum_length (t_blocks t) /\ 0 < vsize kept <= vsize (t_blocks t).
Proof.
  intros [Hne Hf Hn Hnd Hc Hp]. pose proof (fits_blocks_ok _ _ Hf) as Hb. unfold merge_tensor.
  rewrite cassert_true.
  2: { apply negb_true_iff, Z.eqb_neq. intros Hz. apply Hne. unfold vsize in Hz.
       destruct (t_blocks t); [done|simpl in Hz; lia]. }
  cbn [rbind]. destruct (merge_interval_total sort (t_blocks t)) as
    (out & st & -> & Hby & _ & Hnn & Hruns & Hlen & Hst).
  { apply (Forall_impl _ _ _ Hf). intros b (? & ? & ? & ?). unfold plain. lia. }
  cbn [rbind].
  assert (bytes_of (runs out) ≡ₚ bytes_of (t_blocks t)) as Hperm.
  { rewrite Hruns, Hby. unfold bytes_of. by rewrite (sort_perm (t_blocks t)). }
  assert (blocks_ok (runs out)) as Hbk.
  { apply Forall_forall. intros b Hin. by apply list_elem_of_filter in Hin as [? _]. }
  assert (sum_length (runs out) = sum_length (t_blocks t)) as Hsum.
  { rewrite !sum_length_bytes by done. unfold vsize. by rewrite (Permutation_length Hperm). }
  assert (0 < vsize (runs out) <= vsize (t_blocks t)) as [Hpos Hle].
  { split; [|unfold vsize, runs; rewrite <- Hlen; apply Nat2Z.inj_le, length_filter].
    unfold vsize. destruct (runs out); [|simpl; lia]. destruct Hb as [|b l Hl Hl']; [done|].
    pose proof (sum_length_nonneg _ Hl'). simpl in Hsum. lia. }
  destruct (total_bound (runs out) Hbk) as [Ht Hv]; [by rewrite Hsum|]. unfold SIZEOF_IPC_BLOCK in Hv.
  assert (cnt st = vsize (runs out)) as Hcnt
    by (rewrite Hst, cnt_stats_of; [done|done|cbn [init_stats cnt]; unfold W64; lia]).
  rewrite cassert_true by (apply Z.ltb_lt; lia). cbn [rbind].
  rewrite kept_runs by done. rewrite cassert_true by (apply Z.eqb_eq; done). cbn [rbind].
  exists (runs out), st. split_and!; try done.
  - constructor; cbn [merged_tensor t_blocks t_capacity t_dst]; try done.
    + intros He. rewrite He in Hpos. done.
    + by apply (fits_of_bytes _ (t_blocks t)).
    + by rewrite Hsum.
    + unfold dst_bytes. by rewrite Hperm.
  - rewrite Hst, total_stats_of by (cbn; unfold W64; lia).
    rewrite sum_length_foldr, u64_small; cbn [init_stats total_size]; rewrite <- sum_length_foldr;
      pose proof (sum_length_nonneg _ Hbk); lia.
Qed.

(** [t'] makes the copies of [t]. *)
Definition same_copies (t t' : Tensor) : Prop :=
  t_src t' = t_src t /\ t_dst t' = t_dst t /\ t_capacity t' = t_capacity t /\
  bytes_of (t_blocks t') ≡ₚ bytes_of (t_blocks t).

Lemma same_copies_refl t : same_copies t t.
Proof. done. Qed.

Lemma layer_records_app u v : layer_records (u ++ v) = layer_records u + layer_records v.
Proof. unfold layer_records. induction u as [|t u IH]; simpl; [done|]. rewrite IH. lia. Qed.

Lemma layer_bytes_app u v : layer_bytes (u ++ v) = layer_bytes u + layer_bytes v.
Proof. unfold layer_bytes. induction u as [|t u IH]; simpl; [done|]. rewrite IH. lia. Qed.

Lemma tensor_counts t :
  tensor_ok t -> 0 < vsize (t_blocks t) <= sum_length (t_blocks t).
Proof.
  intros [Hne Hf _ _ _ _]. apply fits_blocks_ok in Hf. split.
  { unfold vsize. destruct (t_blocks t); [done|simpl; lia]. }
  clear Hne. induction Hf as [|b l Hl Hf IH]; [done|].
  pose proof (sum_length_nonneg _ Hf). unfold vsize in *. simpl. lia.
Qed.

Lemma layer_counts ts : Forall tensor_ok ts -> 0 <= layer_records ts <= layer_bytes ts.
Proof.
  unfold layer_records, layer_bytes. induction 1 as [|t ts Ht _ IH]; simpl; [lia|].
  pose proof (tensor_counts t Ht). lia.
Qed.

Lemma register_tensors_spec sort `{!StdSort sort} ts pre r :
  Forall tensor_ok ts -> registered_layer pre r -> Forall tensor_ok pre ->
  merged_sb_num_ r <= origin_sb_num_ r ->
  origin_sb_num_ r + layer_bytes ts < W64 -> layer_bytes pre + layer_bytes ts < W64 ->
  exists ts' r', forM (t_blocks <$> ts) (register_tensor sort) r = Ok r' /\
    registered_layer (pre ++ ts') r' /\ merged_sb_num_ r' <= origin_sb_num_ r' /\
    Forall tensor_ok ts' /\ Forall2 same_copies ts ts' /\ layer_bytes ts' = layer_bytes ts.
Proof.
  intros Hts. revert pre r. induction Hts as [|t ts Ht Hts IH]; intros pre r Hr Hpre Hmo Ho Hb.
  { exists [], r. rewrite app_nil_r. by split_and!. }
  rewrite fmap_cons. cbn [forM]. unfold register_tensor at 1.
  destruct (merge_tensor_spec sort t Ht) as (kept & st & -> & Hk & Hp & Hcnt & Htot & Hsum & Hle).
  cbn [rbind]. pose proof (layer_counts _ Hpre) as Hcp. pose proof (layer_counts _ Hts) as Hct.
  pose proof (tensor_counts _ Ht) as Htc. change (layer_bytes (t :: ts)) with (sum_length (t_blocks t) + layer_bytes ts) in Ho, Hb.
  destruct Hr as [Hd Hby Hc Htt].
  set (t' := merged_tensor t kept) in *.
  assert (layer_records [t'] = vsize kept) as Hr1 by (unfold layer_records; simpl; lia).
  assert (layer_bytes [t'] = sum_length kept) as Hb1 by (unfold layer_bytes; simpl; lia).
  assert (Forall tensor_ok (pre ++ [t'])) as Hpre' by (apply Forall_app; split; [done|by constructor]).
  rewrite (u64_small (origin_sb_num_ r + vsize (t_blocks t))), (u64_small (merged_sb_num_ r + cnt st)),
    (u64_small (sb_size_total_ r + total_size st)) by lia.
  set (r1 := mkRegistered _ _ _ _ _).
  assert (registered_layer (pre ++ [t']) r1) as Hr1'.
  { split; cbn [r1 reg_data tensor_send_bytes_ merged_sb_num_ sb_size_total_].
    - by rewrite Hd, fmap_app.
    - by rewrite Hby, Htot, fmap_app.
    - rewrite layer_records_app. lia.
    - rewrite layer_bytes_app. lia. }
  destruct (IH (pre ++ [t']) r1 Hr1' Hpre') as (ts' & r' & Hok & Hr' & Hmo' & Hts' & Hsame & Hlb).
  { cbn. lia. } { cbn. lia. } { rewrite layer_bytes_app. lia. }
  exists (t' :: ts'), r'. rewrite <- app_assoc in Hr'. split_and!; try done.
  - by constructor.
  - by constructor.
  - unfold layer_bytes in *. simpl. lia.
Qed.

Lemma wrapped_sum blocks n :
  blocks_ok blocks -> 0 <= n -> n + sum_length blocks < W64 ->
  foldl (fun n b => u64 (n + length_ b)) n blocks = n + sum_length blocks.
Proof.
  intros Hb. revert n. induction Hb as [|b blocks Hl Hb IH]; intros n Hn Hs; [simpl; lia|].
  pose proof (sum_length_nonneg _ Hb). csimpl in *. rewrite u64_small, IH; lia.
Qed.

Lemma vsize_pos {A} (l : list A) : l <> [] -> (vsize l =? 0) = false.
Proof. intros Hl. apply Z.eqb_neq. unfold vsize. destruct l; [done|simpl; lia]. Qed.

Lemma wrapped_layer_sum ts n :
  Forall tensor_ok ts -> 0 <= n -> n + layer_bytes ts < W64 ->
  foldl (fun n l => foldl (fun n b => u64 (n + length_ b)) n l) n (t_blocks <$> ts) = n + layer_bytes ts.
Proof.
  intros Hts. revert n. unfold layer_bytes. induction Hts as [|t ts Ht Hts IH]; intros n Hn Hs; [simpl; lia|].
  pose proof (layer_counts _ Hts). pose proof (tensor_counts _ Ht). unfold layer_bytes in *. csimpl in *.
  rewrite wrapped_sum, IH; [lia|lia|lia| |done|lia]. apply (fits_blocks_ok (t_capacity t)), Ht.
Qed.

Lemma register_records_spec sort `{!StdSort sort} ts kind :
  ts <> [] -> Forall tensor_ok ts -> layer_bytes ts < W64 -> kind = PEQD \/ vsize ts = 1 ->
  exists ts' r, register_records sort (t_blocks <$> ts) kind = Ok r /\ registered_layer ts' r /\
    Forall tensor_ok ts' /\ Forall2 same_copies ts ts' /\ layer_bytes ts' = layer_bytes ts.
Proof.
  intros Hne Hts Hbytes Hkind. unfold register_records.
  rewrite cassert_true by (by rewrite vsize_pos by (by destruct ts)). cbn [rbind].
  assert (exists ts' r, (if bool_decide (kind = PEQD)
      then forM (t_blocks <$> ts) (register_tensor sort) (mkRegistered [] [] 0 0 0)
      else assert: (vsize (t_blocks <$> ts) =? 1);
        match t_blocks <$> ts with
        | [] => Err Undefined
        | l :: _ => assert: negb (vsize l =? 0);
            Ok (mkRegistered (t_blocks <$> ts) [foldl (fun n b => u64 (n + length_ b)) 0 l]
              (vsize l) (vsize l) (foldl (fun n b => u64 (n + length_ b)) 0 l))
        end) = Ok r /\
    registered_layer ts' r /\ merged_sb_num_ r <= origin_sb_num_ r /\
    Forall tensor_ok ts' /\ Forall2 same_copies ts ts' /\ layer_bytes ts' = layer_bytes ts)
    as (ts' & r & Hr & Hl & Hmo & Hts' & Hsame & Hlb).
  { case_bool_decide as Hk.
    - apply (register_tensors_spec sort ts [] (mkRegistered [] [] 0 0 0)); try done.
    - destruct Hkind as [?|H1]; [done|].
      destruct ts as [|t [|t' ts]]; [done| |unfold vsize in H1; simpl in H1; lia].
      apply Forall_inv in Hts as Ht. eexists [t], _. rewrite cassert_true by done. cbn [rbind fmap list_fmap].
      pose proof Ht as [Hb Hf Hn _ _ _]. rewrite cassert_true by (by rewrite vsize_pos). cbn [rbind].
      pose proof (fits_blocks_ok _ _ Hf) as Hbk. destruct (total_bound _ Hbk Hn) as [Hs _].
      split; [done|]. rewrite wrapped_sum by done. split_and!; try done; [|by constructor].
      split; cbn; try done; unfold layer_records, layer_bytes; cbn; lia. }
  rewrite Hr. cbn [rbind]. pose proof (rl_count _ _ Hl) as Hc.
  assert (0 < layer_records ts') as Hpos.
  { destruct Hsame as [|t t' ts ts' Ht Hsame]; [done|]. apply Forall_cons in Hts' as [Ht' Hts'].
    pose proof (tensor_counts _ Ht'). pose proof (layer_counts _ Hts'). unfold layer_records in *. simpl. lia. }
  rewrite cassert_true by (apply Z.ltb_lt; lia). cbn [rbind].
  rewrite cassert_true by (by apply Z.leb_le). cbn [rbind]. by exists ts', r.
Qed.

Lemma register_data_spec sort `{!StdSort sort} ts kind :
  ts <> [] -> Forall tensor_ok ts -> layer_bytes ts < W64 -> kind = PEQD \/ vsize ts = 1 ->
  exists ts' r, register_data sort (t_blocks <$> ts) kind = Ok r /\ registered_layer ts' r /\
    Forall tensor_ok ts' /\ Forall2 same_copies ts ts'.
Proof.
  intros Hne Hts Hbytes Hkind. unfold register_data.
  destruct (register_records_spec sort ts kind Hne Hts Hbytes Hkind)
    as (ts' & r & -> & Hl & Hts' & Hsame & Hlb). cbn [rbind].
  rewrite wrapped_layer_sum by (done || lia). rewrite cassert_true; [by exists ts', r|].
  apply Z.eqb_eq. rewrite (rl_total _ _ Hl), Hlb. lia.
Qed.

Lemma same_copies_exec g t t' h a :
  tensor_ok t -> same_copies t t' ->
  exec_copy g (shift_block (t_src t') (t_dst t') <$> t_blocks t') h a =
  exec_copy g (shift_block (t_src t) (t_dst t) <$> t_blocks t) h a.
Proof.
  intros Ht (-> & -> & _ & Hp). unfold exec_copy. rewrite !bytes_of_shift.
  symmetry. apply exec_bytes_perm; [|by rewrite Hp].
  rewrite <- list_fmap_compose, (list_fmap_ext _ ((fun x => x + t_dst t) ∘ snd)) by done.
  rewrite list_fmap_compose. apply NoDup_fmap_2; [intros x y ?; lia|]. apply (to_disjoint _ Ht).
Qed.

Lemma same_copies_layer g ts ts' h a :
  Forall tensor_ok ts -> Forall2 same_copies ts ts' -> layer_copy g ts' h a = layer_copy g ts h a.
Proof.
  intros Hts Hs. revert h. induction Hs as [|t t' ts ts' Ht Hs IH]; intros h; [done|].
  apply Forall_cons in Hts as [Hok Hts]. unfold layer_copy in *. cbn [foldl].
  rewrite IH by done. apply layer_copy_ext. intros x. by apply same_copies_exec.
Qed.

Lemma same_copies_fmap {A} (f : Tensor -> A) ts ts' :
  (forall t t', same_copies t t' -> f t' = f t) -> Forall2 same_copies ts ts' -> f <$> ts' = f <$> ts.
Proof. intros Hf. induction 1 as [|t t' ts ts' Ht _ IH]; [done|]. csimpl. by rewrite IH, Hf with t t'. Qed.

(** ** A message is served *)
Lemma handle_spec d g ts info layer reqid in_buf m :
  device_ok d -> Forall tensor_ok ts -> vsize ts < W64 ->
  ptrs info !! layer = Some (t_dst <$> ts) -> layer_blk_sizes info = t_capacity <$> ts ->
  Z.of_nat layer < W64 -> holds (host m) in_buf (wire g reqid (Z.of_nat layer) ts) ->
  0 <= in_buf -> in_buf + vsize (wire g reqid (Z.of_nat layer) ts) < W64 ->
  exists m', handle_kv_cache_data d info in_buf (vsize (wire g reqid (Z.of_nat layer) ts)) m =
      Ok (Replied m') /\
    (forall a, host m' a = host m a) /\ (forall a, gpu m' a = layer_copy g ts (gpu m) a).
Proof.
  intros Hd Hts Hn Hptrs Hcaps Hlayer Hh Hbuf Hend. pose proof (vsize_nonneg ts) as Hn0.
  unfold handle_kv_cache_data. rewrite Hcaps. unfold wire in *.
  apply holds_app in Hh as [H1 Hh]. apply holds_app in Hh as [H2 Hh].
  apply holds_app in Hh as [H3 Hh]. apply holds_app in Hh as [H4 H5].
  rewrite !vsize_app, !vsize_le_bytes in *.
  set (body := vsize (flat_map _ ts)) in *. assert (0 <= body) as Hbody by apply vsize_nonneg.
  unfold RPC_HEADER. rewrite (proj2 (Z.ltb_ge _ 4)) by lia.
  apply holds_read in H1. rewrite vsize_le_bytes in H1. change (Z.of_nat 4) with 4 in H1.
  rewrite H1. change (of_le (le_bytes 4 KV_CACHE_DATA_MAGIC)) with KV_CACHE_DATA_MAGIC.
  rewrite Z.eqb_refl. cbn [negb]. rewrite (proj2 (Z.ltb_ge _ (12 + 8 + 8))) by lia.
  replace (in_buf + 12) with (in_buf + Z.of_nat 4 + Z.of_nat 8) by lia.
  rewrite (holds_size _ _ _ H3), (holds_size _ _ (vsize ts)) by (done || lia).
  rewrite Nat2Z.id, Hptrs. unfold vsize at 2. rewrite length_fmap, Z.eqb_refl. cbn [negb].
  destruct (recv_tensors_spec d g ts [] [] [] (in_buf + (Z.of_nat 4 + (Z.of_nat 8 + (Z.of_nat 8 + (Z.of_nat 8 + body)))))
    (in_buf + Z.of_nat 4 + Z.of_nat 8 + 16) m) as (m' & Hok & Hm'); try done.
  - replace (in_buf + Z.of_nat 4 + Z.of_nat 8 + 16)
      with (in_buf + Z.of_nat 4 + Z.of_nat 8 + Z.of_nat 8 + Z.of_nat 8) by lia. done.
  - lia.
  - fold body. lia.
  - exists m'. split; [|done]. exact Hok.
Qed.

(** One layer over TCP, sender and server together: register_data (merging for equal TP, for
    any std::sort) followed by send_data succeeds and leaves the sender's device memory
    alone, and when the bytes of its message reach the server, handle_kv_cache_data replies
    after changing the server's tensors exactly as executing the registered copies would,
    whatever copy methods and launch configurations the two devices use. *)
Theorem tcp_layer_performs_copies sort `{!StdSort sort} dp dd ts kind info layer reqid base in_buf mS :
  device_ok dp -> device_ok dd ->
  ts <> [] -> Forall tensor_ok ts -> layer_bytes ts < W64 -> raw_layer ts ->
  kind = PEQD \/ vsize ts = 1 ->
  ptrs info !! layer = Some (t_dst <$> ts) -> layer_blk_sizes info = t_capacity <$> ts ->
  vsize ts < W64 -> Z.of_nat layer < W64 ->
  exists r mS' len,
    register_data sort (t_blocks <$> ts) kind = Ok r /\
    send_data dp r (t_src <$> ts) base reqid (Z.of_nat layer) mS = Ok (mS', len) /\
    (forall a, gpu mS' a = gpu mS a) /\
    forall mD, 0 <= in_buf -> in_buf + len < W64 ->
      (forall i, 0 <= i < len -> host mD (in_buf + i) = host mS' (base + i)) ->
      exists mD', handle_kv_cache_data dd info in_buf len mD = Ok (Replied mD') /\
        (forall a, host mD' a = host mD a) /\
        (forall a, gpu mD' a = layer_copy (gpu mS) ts (gpu mD) a).
Proof.
  intros Hdp Hdd Hne Hts Hbytes Hraw Hkind Hptrs Hcaps Hn Hlayer.
  destruct (register_data_spec sort ts kind Hne Hts Hbytes Hkind) as (ts' & r & Hreg & Hl & Hts' & Hsame).
  assert (length ts' = length ts) as Hlen by (symmetry; by apply (Forall2_length _ _ _ Hsame)).
  rewrite <- (same_copies_fmap t_dst ts ts') in Hptrs by (done || by intros ?? (? & ? & ? & ?)).
  rewrite <- (same_copies_fmap t_capacity ts ts') in Hcaps by (done || by intros ?? (? & ? & ? & ?)).
  rewrite <- (same_copies_fmap t_src ts ts') by (done || by intros ?? (? & ? & ? & ?)).
  assert (vsize ts' = vsize ts) as Hvs by (unfold vsize; by rewrite Hlen).
  destruct (send_data_spec dp ts' r base reqid (Z.of_nat layer) mS) as (mS' & Hsend & Hh & Hg).
  { done. } { by destruct ts, ts'. } { done. } { unfold raw_layer. by rewrite Hvs. } { done. }
  exists r, mS', (vsize (wire (gpu mS) reqid (Z.of_nat layer) ts')).
  split; [done|]. split; [done|]. split; [done|]. intros mD Hbuf Hend Hdel.
  destruct (handle_spec dd (gpu mS) ts' info layer reqid in_buf mD) as (mD' & Hok & Hh' & Hg');
    try done; [by rewrite Hvs| |].
  - intros i x Hi. pose proof (lookup_lt_Some _ _ _ Hi). rewrite Hdel by (unfold vsize; lia).
    rewrite Hh. by apply write_holds.
  - exists mD'. split; [done|]. split; [done|]. intros a. rewrite Hg'. by apply same_copies_layer.
Qed.
End Tcp.

(** ** Example *)

(** Two tensors, the first with records that merge, over devices with different settings. *)
Definition sample_tensors : list Tensor :=
  [mkTensor [mkIpcBlock 8 32 8; mkIpcBlock 0 24 8; mkIpcBlock 32 0 4] 1000 5000 64;
   mkTensor [mkIpcBlock 3 1 5] 2000 7000 16].

Definition sample_sender : Device :=
  mkDevice sample_profile (fun _ => 2) (fun _ => 64) 1 reverse (fun x => x).

Definition sample_receiver : Device :=
  mkDevice (mkProfile false [] [] [] 32 1) (fun _ => 1) (fun _ => 32) 4 (fun l => l) (fun x => x).

Definition sample_info : TCPInfo := mkTCPInfo [[1; 2]; [5000; 7000]] [64; 16].

Definition sample_memory : Mem := mkMem (fun _ => 0) (fun a => a mod 256).

Lemma tcp_layer_performs_copies_witness :
  exists r mS' len,
    @register_data debug_env (merge_sort src_le) (t_blocks <$> sample_tensors) PEQD = Ok r /\
    @send_data debug_env sample_sender r (t_src <$> sample_tensors) 300 7 1 sample_memory =
      Ok (mS', len) /\
    exists mD', @handle_kv_cache_data debug_env sample_receiver sample_info 300 len
        (mkMem (host mS') (fun _ => 0)) = Ok (Replied mD') /\
      forall a, gpu mD' a = layer_copy (gpu sample_memory) sample_tensors (fun _ => 0) a.
Proof.
  destruct (@tcp_layer_performs_copies debug_env (merge_sort src_le) _ sample_sender sample_receiver
    sample_tensors PEQD sample_info 1 7 300 300 sample_memory) as (r & mS' & len & Hr & Hs & _ & Hd).
  - split; [intros l; apply reverse_Permutation|done|done].
  - split; done.
  - done.
  - repeat (constructor; [split; [done|by repeat constructor|done| |done|done];
      apply (bool_decide_unpack _); vm_compute; exact I|]). constructor.
  - done.
  - done.
  - by left.
  - done.
  - done.
  - done.
  - done.
  - exists r, mS', len. split; [done|]. split; [done|].
    assert (rbind (@register_data debug_env (merge_sort src_le) (t_blocks <$> sample_tensors) PEQD)
      (fun r => rbind (@send_data debug_env sample_sender r (t_src <$> sample_tensors) 300 7
        (Z.of_nat 1) sample_memory) (fun x => Ok x.2)) = Ok 157) as Hlen by (vm_compute; reflexivity).
    rewrite Hr in Hlen. cbn [rbind] in Hlen. rewrite Hs in Hlen. injection Hlen as ->.
    destruct (Hd (mkMem (host mS') (fun _ => 0))) as (mD' & Hok & _ & Hg); [done|done|done|].
    exists mD'. done.
Defined.

(** A message of 60 bytes whose block count is [2 ^ 61]: the byte count wraps to 0 and passes
    the length check, and reserving the records ends the server. *)
Definition oversized_message : list Z :=
  le_bytes 4 KV_CACHE_DATA_MAGIC ++ le_bytes 8 7 ++ le_bytes 8 1 ++ le_bytes 8 2 ++
  le_bytes 8 (2 ^ 61) ++ le_bytes 24 0.

Example oversized_count_ends_server :
  @handle_kv_cache_data debug_env sample_receiver sample_info 300 60
    (write_host 300 oversized_message sample_memory) = Err LengthError.
Proof. vm_compute. reflexivity. Qed.
