(* ===== verification/Rdma.v ===== *)
(** The RDMA channel ([src/rdma_channel.cpp]): registering the records, posting the writes of
    a layer in batches over the connections, and the CRC exchange that compares what was read
    with what arrived.

    The transport is third-party: connecting, the memory handles of the peer and the outcome
    of each posted write are arguments, and posted writes may take effect in any order.
    [crc32_z] is zlib's and is an argument too.  Memory mapped by GDRCopy is read at the
    device address it maps.  Time stamps and statistics of the log are left out. *)

From Stdlib Require Import Ascii.
From stdpp Require Import sorting.
From S2P Require Import Prelude.
From S2P Require Import Common.
From S2P Require Import CppString.
From S2P Require Import CopySpec.
From S2P Require Import Channel.
From S2P Require Import CopyKernel.
From S2P Require Import TcpWire.

(** ** Data *)
Definition MAX_CACHE_NUM_PER_LAYER : Z := 2.
Definition MEM_HANDLES_REQ_MAGIC : Z := 0x20181218.
Definition REMOTE_CRC_REQ_MAGIC : Z := 0x20250924.
Definition CHANNEL_INT_MAX : Z := 2 ^ 31 - 1.

(** Base addresses and keys of the tensors of a layer, in arrays of fixed size. *)
Record RDMAMemHandle := mkHandle {
  h_ptrs : list Z;
  h_rkeys : list Z;
}.

(** [rw_memp_t]: one write of a batch. *)
Record RwMemp := mkRwMemp {
  r_addr : Z;
  r_key : Z;
  sg_addr : Z;
  sg_length : Z;
  sg_lkey : Z;
}.

(** What the channel uses of [CliBarexCtx]: address and key of the registered tensors, the
    device address shown by the GDRCopy mapping of each tensor, if any, and the sizes. *)
Record CliCtx := mkCliCtx {
  layer_mrs : list (list (Z * Z));
  layer_gdrcpy_mem : list (list (option Z));
  layer_blk_sizes_ : list Z;
}.

Record RDMAChannel := mkRDMAChannel {
  ip_ : string;
  port_ : Z;
  dst_layer_blk_sizes_ : list Z;
  dst_layer_num_ : Z;
  prev_ch_idx_ : Z;
  data_ : option Registered;
  dataperch_ : Z;
  crc_ : Z;
  enable_crc_ : bool;
  chs_n : Z;                              (* chs_.size() *)
  dst_handles_ : list RDMAMemHandle;
  write_futs_ : list (Z * list RwMemp);   (* connection, batch *)
}.

Definition new_channel : RDMAChannel :=
  mkRDMAChannel "" 0 [] 0 0 None 0 0 false 0 [] [].

Definition set_target (ip : string) (port : Z) (sizes : list Z) (n : Z) (c : RDMAChannel) : RDMAChannel :=
  mkRDMAChannel ip port sizes n (prev_ch_idx_ c) (data_ c) (dataperch_ c) (crc_ c) (enable_crc_ c)
    (chs_n c) (dst_handles_ c) (write_futs_ c).

Definition set_connections (n : Z) (hs : list RDMAMemHandle) (c : RDMAChannel) : RDMAChannel :=
  mkRDMAChannel (ip_ c) (port_ c) (dst_layer_blk_sizes_ c) (dst_layer_num_ c) (prev_ch_idx_ c)
    (data_ c) (dataperch_ c) (crc_ c) (enable_crc_ c) n hs (write_futs_ c).

Definition set_data (r : option Registered) (n : Z) (c : RDMAChannel) : RDMAChannel :=
  mkRDMAChannel (ip_ c) (port_ c) (dst_layer_blk_sizes_ c) (dst_layer_num_ c) (prev_ch_idx_ c)
    r n (crc_ c) (enable_crc_ c) (chs_n c) (dst_handles_ c) (write_futs_ c).

Definition set_crc (crc : Z) (on : bool) (c : RDMAChannel) : RDMAChannel :=
  mkRDMAChannel (ip_ c) (port_ c) (dst_layer_blk_sizes_ c) (dst_layer_num_ c) (prev_ch_idx_ c)
    (data_ c) (dataperch_ c) crc on (chs_n c) (dst_handles_ c) (write_futs_ c).

Definition set_posted (prev : Z) (futs : list (Z * list RwMemp)) (c : RDMAChannel) : RDMAChannel :=
  mkRDMAChannel (ip_ c) (port_ c) (dst_layer_blk_sizes_ c) (dst_layer_num_ c) prev
    (data_ c) (dataperch_ c) (crc_ c) (enable_crc_ c) (chs_n c) (dst_handles_ c) futs.

Section Rdma.
Context `{Env}.

(** zlib's checksum of a buffer, continued from a previous value. *)
Variable crc32_z : Z -> list Z -> Z.
(** Storing a length in the length field of a scatter/gather element. *)
Variable to_sg_length : Z -> Z.

(** ** Connecting *)
Definition connect (ctx : CliCtx) (dst_info : WorkerInfo) (c : RDMAChannel) : res RDMAChannel :=
  match find ":"%char (addr dst_info) 0 with
  | None => Err RuntimeError
  | Some pos =>
      let* ip := substr (addr dst_info) 0 pos in
      let* port_str := substr (addr dst_info) (pos + 1) (String.length (addr dst_info)) in
      let* port := stoi port_str in
      let sizes := dst_layer_blk_sizes_ c ++
        ((fun block_size => u64 (layer_num_blocks dst_info * block_size)) <$> block_sizes dst_info) in
      let c := set_target ip port sizes (num_layers dst_info) c in
      assert: (dst_layer_num_ c =? vsize (layer_mrs ctx));
      assertM: (match layer_mrs ctx with [] => Err OutOfRange | l :: _ => Ok (vsize sizes =? vsize l) end);
      Ok c
  end.

(** The messages of [get_mem_handles]. *)
Definition rpc_header (magic reqid : Z) : list Z := le_bytes 4 magic ++ le_bytes 8 reqid.

Definition handle_wire (h : RDMAMemHandle) : list Z :=
  flat_map (le_bytes 8) (h_ptrs h) ++ flat_map (le_bytes 4) (h_rkeys h).

Definition SIZEOF_MEM_HANDLE : Z := 24.

(** [resp_mem_handles]: the server's answer to the request [inbuf]. *)
Definition resp_mem_handles (handles : list RDMAMemHandle) (inbuf : list Z) : res (list Z) :=
  assert: (vsize inbuf =? RPC_HEADER);
  Ok (take (Z.to_nat RPC_HEADER) inbuf ++ flat_map handle_wire handles).

(** The [i]-th integer of [n] bytes in a buffer. *)
Definition int_at (n i : nat) (buf : list Z) : Z := of_le (take n (drop (n * i) buf)).

Definition read_handle (buf : list Z) : RDMAMemHandle :=
  mkHandle [int_at 8 0 buf; int_at 8 1 buf] [int_at 4 4 buf; int_at 4 5 buf].

(** [GetMemHandles::operator()] for a reply that arrived. *)
Definition read_mem_handles (reqid : Z) (buf : list Z) : res (list RDMAMemHandle) :=
  let* _ := rtassert (RPC_HEADER <=? vsize buf) in
  let* _ := rtassert (int_at 4 0 buf =? MEM_HANDLES_REQ_MAGIC) in
  let* _ := rtassert (of_le (take 8 (drop 4 buf)) =? reqid) in
  let body := drop (Z.to_nat RPC_HEADER) buf in
  let* _ := rtassert (vsize body mod SIZEOF_MEM_HANDLE =? 0) in
  Ok ((fun i => read_handle (drop (Z.to_nat (i * SIZEOF_MEM_HANDLE)) body)) <$>
        seqZ 0 (vsize body / SIZEOF_MEM_HANDLE)).

(** What [do_init] meets: which of the present connections are active, the outcome of each
    new connection, and the reply to the handle request [ie_reqid]. *)
Record InitEnv := mkInitEnv {
  ie_active : list bool;
  ie_connect : list (res unit);
  ie_reqid : Z;
  ie_reply : res (list Z);
}.

Definition valid_channels (active : list bool) : bool :=
  match active with [] => false | _ => forallb (fun b => b) active end.

Definition do_init (e : InitEnv) (c : RDMAChannel) : res RDMAChannel :=
  if valid_channels (ie_active e) then
    assert: (vsize (dst_handles_ c) =? dst_layer_num_ c); Ok c
  else
    let sp := vsize (ie_connect e) in
    assert: (0 <? sp);
    let* _ := forM (ie_connect e) (fun r (_ : unit) => r) tt in
    let* reply := ie_reply e in
    let* handles := read_mem_handles (ie_reqid e) reply in
    let c := set_connections sp handles c in
    assert: (vsize (dst_handles_ c) =? dst_layer_num_ c);
    Ok c.

(** ** Registering *)
Definition cdiv64 (a b : Z) : res Z :=
  if b =? 0 then Err Undefined else Ok (u64 (a + u64 (b - 1)) / b).

Definition rdma_register_data (sort : list IpcBlock -> list IpcBlock) (e : InitEnv) (crc_on : bool)
    (data : list (list IpcBlock)) (kind : TPKind) (c : RDMAChannel) : res RDMAChannel :=
  assert: negb (vsize data =? 0);
  assert: bool_decide (data_ c = None);
  let* c := do_init e c in
  let c := set_crc (if crc_on then crc32_z 0 [] else crc_ c) crc_on c in
  let* r := register_records sort data kind in
  let* per := cdiv64 (merged_sb_num_ r) (chs_n c) in
  Ok (set_data (Some r) per c).

(** ** Posting the writes of a layer *)

(** [ch()]: the next connection in turn, counted by an int. *)
Definition next_ch (c : RDMAChannel) : res (Z * RDMAChannel) :=
  if CHANNEL_INT_MAX <=? prev_ch_idx_ c then Err Undefined else
  let prev := prev_ch_idx_ c + 1 in
  if chs_n c =? 0 then Err Undefined else
  Ok (prev mod chs_n c, set_posted prev (write_futs_ c) c).

(** [WriteBatch(self.ch(), datasp)]. *)
Definition post (datasp : list RwMemp) (c : RDMAChannel) : res RDMAChannel :=
  let* '(idx, c) := next_ch c in
  Ok (set_posted (prev_ch_idx_ c) (write_futs_ c ++ [(idx, datasp)]) c).

(** One record of [send_data]. *)
Definition send_record (src : memory) (base lkey rladdr rkey : Z) (cpu_ptr : option Z) (b : IpcBlock)
    (s : list RwMemp * RDMAChannel) : res (list RwMemp * RDMAChannel) :=
  let '(datasp, c) := s in
  let w := mkRwMemp (u64 (rladdr + dst_offset b)) rkey (u64 (base + src_offset b))
             (to_sg_length (length_ b)) lkey in
  let datasp := datasp ++ [w] in
  let* '(datasp, c) :=
    if dataperch_ c <=? vsize datasp then let* c := post datasp c in Ok ([], c) else Ok (datasp, c) in
  if enable_crc_ c then
    match cpu_ptr with
    | None => assert: false; Err Undefined
    | Some p => Ok (datasp, set_crc (crc32_z (crc_ c) (read src (p + src_offset b) (length_ b))) true c)
    end
  else Ok (datasp, c).

(** [get_layer_tensor_cpu_ptr]. *)
Definition get_layer_tensor_cpu_ptr (ctx : CliCtx) (layer_idx tensor_idx : Z) : res (option Z) :=
  if vsize (layer_mrs ctx) <=? layer_idx then Ok None else
  let* descs := vec_idx (layer_gdrcpy_mem ctx) layer_idx in
  if vsize descs <=? tensor_idx then Ok None else vec_idx descs tensor_idx.

(** One tensor of [send_data]. *)
Definition send_tensor_records (ctx : CliCtx) (src : memory) (layer_idx : Z) (handle : RDMAMemHandle)
    (mrs : list (Z * Z)) (t : Z * list IpcBlock) (s : list RwMemp * RDMAChannel)
    : res (list RwMemp * RDMAChannel) :=
  let '(tensor_cnt, per_tensor_data) := t in
  let '(datasp, c) := s in
  assert: (tensor_cnt <? vsize (layer_blk_sizes_ ctx));
  assert: (tensor_cnt <? vsize (dst_layer_blk_sizes_ c));
  assert: (tensor_cnt <? vsize (h_ptrs handle));
  assert: (tensor_cnt <? vsize mrs);
  let* cpu_ptr := get_layer_tensor_cpu_ptr ctx layer_idx tensor_cnt in
  let c := if bool_decide (cpu_ptr = None) && enable_crc_ c then set_crc (crc_ c) false c else c in
  forM per_tensor_data (fun b s =>
    let* rladdr := vec_idx (h_ptrs handle) tensor_cnt in
    let* '(base, lkey) := vec_idx mrs tensor_cnt in
    let* rkey := vec_idx (h_rkeys handle) tensor_cnt in
    send_record src base lkey rladdr rkey cpu_ptr b s) (datasp, c).

(** [RDMAChannel::send_data]. *)
Definition rdma_send_data (ctx : CliCtx) (src : memory) (layer_idx : Z) (c : RDMAChannel)
    : res RDMAChannel :=
  assert: (layer_idx <? dst_layer_num_ c);
  assert: (dst_layer_num_ c =? vsize (layer_mrs ctx));
  let* handle := vec_idx (dst_handles_ c) layer_idx in
  match data_ c with
  | None => Err Undefined
  | Some r =>
      let data := reg_data r in
      assert: negb (vsize data =? 0);
      let* mrs := vec_idx (layer_mrs ctx) layer_idx in
      assert: (vsize data =? vsize mrs);
      let* '(datasp, c) := forM (zip (seqZ 0 (vsize data)) data)
        (send_tensor_records ctx src layer_idx handle mrs) ([], c) in
      if vsize datasp =? 0 then Ok c else post datasp c
  end.

(** ** The CRC exchange *)

(** [get_remote_crc]: the request.  Counts are 32-bit; the buffer is as long as asked for. *)
Definition crc_request_record (cap : Z) (b : IpcBlock) (buf : list Z) : res (list Z) :=
  let* _ := rtassert (16 <=? cap - vsize buf) in
  Ok (buf ++ le_bytes 8 (dst_offset b) ++ le_bytes 8 (length_ b)).

Definition crc_request (reqid lcrc : Z) (data : list (list IpcBlock)) : res (list Z) :=
  assert: negb (vsize data =? 0);
  let tensor_cnt := u32 (vsize data) in
  let total_blocks := foldl (fun n l => u32 (n + u32 (vsize l))) 0 data in
  let cap := RPC_HEADER + 4 + (4 + tensor_cnt * 4 + total_blocks * 16) in
  forM data (fun per_tensor_data buf =>
      forM per_tensor_data (crc_request_record cap) (buf ++ le_bytes 4 (u32 (vsize per_tensor_data))))
    (rpc_header REMOTE_CRC_REQ_MAGIC reqid ++ le_bytes 4 lcrc ++ le_bytes 4 tensor_cnt).

(** The server's mappings, as [CliCtx] has them. *)
Record SrvCtx := mkSrvCtx {
  srv_layer_mrs : list (list (Z * Z));
  srv_layer_descs : list (list (option Z));
}.

(** Parsing [resp_remote_crc]: (pairs, rest of the buffer). *)
Definition parse_offlen (_ : Z) (s : list (Z * Z) * list Z) : res (list (Z * Z) * list Z) :=
  let '(pairs, buf) := s in
  let* _ := rtassert (16 <=? vsize buf) in
  Ok (pairs ++ [(of_le (take 8 buf), of_le (take 8 (drop 8 buf)))], drop 16 buf).

Definition parse_tensor (_ : Z) (s : list (list (Z * Z)) * list Z) : res (list (list (Z * Z)) * list Z) :=
  let '(tensors, buf) := s in
  let* _ := rtassert (4 <=? vsize buf) in
  let block_cnt := of_le (take 4 buf) in
  let* '(pairs, buf) := forM (seqZ 0 block_cnt) parse_offlen ([], drop 4 buf) in
  Ok (tensors ++ [pairs], buf).

(** The tensors of one layer, until one has no mapping: (enabled, crc). *)
Fixpoint crc_tensors (dst : memory) (descs : list (option Z)) (offlens : list (list (Z * Z)))
    (enabled : bool) (crc : Z) : bool * Z :=
  match offlens, descs with
  | pairs :: offlens, Some p :: descs =>
      crc_tensors dst descs offlens enabled
        (foldl (fun crc ol => crc32_z crc (read dst (p + ol.1) ol.2)) crc pairs)
  | _ :: _, _ => (false, crc)
  | [], _ => (enabled, crc)
  end.

(** The layers: (enabled, crc). *)
Fixpoint crc_layers (dst : memory) (descs : list (list (option Z))) (offlens : list (list (Z * Z)))
    (layers : nat) (enabled : bool) (crc : Z) : bool * Z :=
  match layers with
  | O => (enabled, crc)
  | S layers =>
      match descs with
      | [] => (false, crc)
      | desc :: descs =>
          if vsize desc <? vsize offlens then (false, crc) else
          let '(enabled, crc) := crc_tensors dst desc offlens enabled crc in
          crc_layers dst descs offlens layers enabled crc
      end
  end.

(** [resp_remote_crc]: the checksum of the reply.  A mismatch aborts the server. *)
Definition resp_remote_crc (srv : SrvCtx) (dst : memory) (inbuf : list Z) : res (list Z) :=
  let* _ := rtassert (RPC_HEADER + 4 + 4 <? vsize inbuf) in
  let buf := drop (Z.to_nat RPC_HEADER) inbuf in
  let local_crc := of_le (take 4 buf) in
  let tensor_cnt := of_le (take 4 (drop 4 buf)) in
  let per_layer := match srv_layer_mrs srv with [] => 0 | l :: _ => vsize l end in
  let* offlens :=
    if negb (tensor_cnt =? per_layer) then Ok (replicate (Z.to_nat tensor_cnt) [])
    else let* s := forM (seqZ 0 tensor_cnt) parse_tensor ([], drop 8 buf) in Ok s.1 in
  let '(enabled, crc) := crc_layers dst (srv_layer_descs srv) offlens (length (srv_layer_mrs srv))
    (negb (vsize (srv_layer_descs srv) =? 0)) (crc32_z 0 []) in
  let remote_crc := if enabled then crc else local_crc in
  let* _ := rtassert (local_crc =? remote_crc) in
  Ok (take (Z.to_nat RPC_HEADER) inbuf ++ le_bytes 4 remote_crc).

(** [RemoteCrc::operator()] for a reply that arrived. *)
Definition read_crc_reply (reqid : Z) (buf : list Z) : res Z :=
  let* _ := rtassert (RPC_HEADER <=? vsize buf) in
  let* _ := rtassert (int_at 4 0 buf =? REMOTE_CRC_REQ_MAGIC) in
  let* _ := rtassert (of_le (take 8 (drop 4 buf)) =? reqid) in
  let body := drop (Z.to_nat RPC_HEADER) buf in
  let* _ := rtassert (4 <=? vsize body) in
  Ok (of_le (take 4 body)).

(** ** Flush *)

(** [flush]: [outcomes] tells which writes completed, [server] answers a CRC request. *)
Definition rdma_flush (outcomes : list bool) (reqid : Z) (server : list Z -> res (list Z))
    (c : RDMAChannel) : res RDMAChannel :=
  let* _ := forM (zip (write_futs_ c) outcomes) (fun f (_ : unit) =>
    if f.2 then Ok tt else Err RuntimeError) tt in
  let c := set_posted (prev_ch_idx_ c) [] c in
  let* _ :=
    if enable_crc_ c then
      assert: negb (chs_n c =? 0);
      match data_ c with
      | None => Err Undefined
      | Some r =>
          let* req := crc_request reqid (crc_ c) (reg_data r) in
          let* reply := server req in
          let* rcrc := read_crc_reply reqid reply in
          rtassert (rcrc =? crc_ c)
      end
    else Ok tt in
  Ok (set_data None (dataperch_ c) c).

(** ** Specification *)

(** A tensor with the keys of its registrations. *)
Record Placed := mkPlaced {
  pl : Tensor;
  pl_lkey : Z;
  pl_rkey : Z;
}.

(** The writes of the records of a layer. *)
Definition record_write (p : Placed) (b : IpcBlock) : RwMemp :=
  mkRwMemp (t_dst (pl p) + dst_offset b) (pl_rkey p) (t_src (pl p) + src_offset b) (length_ b) (pl_lkey p).

Definition tensor_writes (p : Placed) : list RwMemp := record_write p <$> t_blocks (pl p).
Definition layer_writes (ps : list Placed) : list RwMemp := flat_map tensor_writes ps.

(** Checksum of the records of a layer, read on one side. *)
Definition tensor_crc (m : memory) (base : Z) (off : IpcBlock -> Z) (blocks : list IpcBlock) (crc : Z) : Z :=
  foldl (fun crc b => crc32_z crc (read m (base + off b) (length_ b))) crc blocks.

Definition layer_crc (m : memory) (base : Tensor -> Z) (off : IpcBlock -> Z) (ps : list Placed) (crc : Z) : Z :=
  foldl (fun crc p => tensor_crc m (base (pl p)) off (t_blocks (pl p)) crc) crc ps.

(** Addresses of the copied bytes are 64-bit. *)
Definition addresses_ok (t : Tensor) : Prop :=
  0 <= t_src t /\ 0 <= t_dst t /\
  Forall (fun sd => t_src t + sd.1 < W64 /\ t_dst t + sd.2 < W64) (bytes_of (t_blocks t)).

(** ** Posting *)
Definition posted_from (c0 : RDMAChannel) (batches : list (Z * list RwMemp)) (crc : Z) : RDMAChannel :=
  set_crc crc true (set_posted (prev_ch_idx_ c0 + vsize batches) (write_futs_ c0 ++ batches) c0).

(** [ws] has been posted or collected since [c0]. *)
Definition progress (c0 : RDMAChannel) (ws : list RwMemp) (crc : Z) (s : list RwMemp * RDMAChannel) : Prop :=
  exists batches datasp, s = (datasp, posted_from c0 batches crc) /\
    concat batches.*2 ++ datasp = ws /\
    Forall (fun b => vsize b.2 = dataperch_ c0) batches /\ vsize datasp < dataperch_ c0.

Lemma vsize_concat (batches : list (Z * list RwMemp)) k :
  Forall (fun b => vsize b.2 = k) batches -> vsize (concat batches.*2) = vsize batches * k.
Proof.
  induction 1 as [|b batches Hb _ IH]; [done|]. rewrite fmap_cons. cbn [concat].
  rewrite vsize_app, IH, Hb. unfold vsize. simpl length. lia.
Qed.

(** The length field holds at least 32 bits. *)
Hypothesis Hsg : forall n, 0 <= n < W32 -> to_sg_length n = n.

Definition can_post (c : RDMAChannel) : Prop :=
  0 < dataperch_ c /\ 0 < chs_n c /\ prev_ch_idx_ c + chs_n c <= CHANNEL_INT_MAX.

Definition record_ok (p : Placed) (b : IpcBlock) : Prop :=
  0 < length_ b < W32 /\ 0 <= t_dst (pl p) + dst_offset b < W64 /\
  0 <= t_src (pl p) + src_offset b < W64.

Lemma send_record_spec c0 src p b ws crc s :
  can_post c0 -> vsize ws + 1 <= dataperch_ c0 * chs_n c0 -> progress c0 ws crc s ->
  record_ok p b ->
  exists s', send_record src (t_src (pl p)) (pl_lkey p) (t_dst (pl p)) (pl_rkey p) (Some (t_src (pl p))) b s = Ok s' /\
    progress c0 (ws ++ [record_write p b])
      (crc32_z crc (read src (t_src (pl p) + src_offset b) (length_ b))) s'.
Proof.
  intros (Hper & Hn & Hprev) Hroom (batches & datasp & -> & Hws & Hb & Hd) (Hlen & Hdst & Hsrc).
  unfold send_record. rewrite !u64_small, Hsg by lia. fold (record_write p b).
  pose proof (vsize_concat _ _ Hb) as Hc. pose proof (vsize_nonneg batches) as Hnb.
  pose proof (vsize_nonneg datasp) as Hnd.
  assert (vsize ws = vsize batches * dataperch_ c0 + vsize datasp) as Hv by (rewrite <- Hws, vsize_app; lia).
  change (dataperch_ (posted_from c0 batches crc)) with (dataperch_ c0). rewrite vsize_app.
  replace (vsize [record_write p b]) with 1 by done.
  destruct (Z.leb_spec (dataperch_ c0) (vsize datasp + 1)) as [Hfull|Hnot].
  - assert (vsize datasp + 1 = dataperch_ c0) as Heq by lia.
    assert (vsize batches < chs_n c0) by nia.
    unfold post, next_ch.
    change (prev_ch_idx_ (posted_from c0 batches crc)) with (prev_ch_idx_ c0 + vsize batches).
    change (chs_n (posted_from c0 batches crc)) with (chs_n c0).
    change (write_futs_ (posted_from c0 batches crc)) with (write_futs_ c0 ++ batches).
    rewrite (proj2 (Z.leb_gt _ _)), (proj2 (Z.eqb_neq (chs_n c0) 0)) by lia. cbn [rbind enable_crc_ set_posted].
    set (idx := (_ mod chs_n c0)). eexists. split; [done|].
    exists (batches ++ [(idx, datasp ++ [record_write p b])]), []. split_and!.
    + unfold posted_from, set_crc, set_posted. cbn. rewrite vsize_app, <- app_assoc.
      change (vsize [(idx, datasp ++ [record_write p b])]) with 1. by rewrite Z.add_assoc.
    + rewrite fmap_app, concat_app. cbn. by rewrite !app_nil_r, app_assoc, Hws.
    + apply Forall_app. split; [done|]. constructor; [|done]. cbn. by rewrite vsize_app.
    + done.
  - cbn [rbind enable_crc_]. eexists. split; [done|].
    exists batches, (datasp ++ [record_write p b]). split_and!; [done| |done|].
    + by rewrite app_assoc, Hws.
    + rewrite vsize_app. change (vsize [record_write p b]) with 1. lia.
Qed.

Lemma send_records_spec c0 src p handle mrs j blocks ws crc s :
  can_post c0 -> vsize ws + vsize blocks <= dataperch_ c0 * chs_n c0 -> progress c0 ws crc s ->
  Forall (record_ok p) blocks ->
  vec_idx (h_ptrs handle) j = Ok (t_dst (pl p)) -> vec_idx (h_rkeys handle) j = Ok (pl_rkey p) ->
  vec_idx mrs j = Ok (t_src (pl p), pl_lkey p) ->
  exists s', forM blocks (fun b s =>
      let* rladdr := vec_idx (h_ptrs handle) j in
      let* '(base, lkey) := vec_idx mrs j in
      let* rkey := vec_idx (h_rkeys handle) j in
      send_record src base lkey rladdr rkey (Some (t_src (pl p))) b s) s = Ok s' /\
    progress c0 (ws ++ (record_write p <$> blocks)) (tensor_crc src (t_src (pl p)) src_offset blocks crc) s'.
Proof.
  intros Hc Hroom Hs Hb Hp Hk Hm. set (f := fun (b : IpcBlock) (s : list RwMemp * RDMAChannel) => _).
  assert (forall b s, f b s = send_record src (t_src (pl p)) (pl_lkey p) (t_dst (pl p)) (pl_rkey p)
    (Some (t_src (pl p))) b s) as Hf by (intros; unfold f; by rewrite Hp, Hm, Hk).
  clearbody f. revert ws crc s Hroom Hs.
  induction Hb as [|b blocks Hb _ IH]; intros ws crc s Hroom Hs.
  { exists s. split; [done|]. by rewrite app_nil_r. }
  cbn [forM]. rewrite Hf.
  unfold vsize in Hroom. simpl length in Hroom.
  destruct (send_record_spec c0 src p b ws crc s) as (s1 & -> & Hs1); [done|unfold vsize; lia|done|done|].
  cbn [rbind]. destruct (fun H => IH _ _ s1 H Hs1) as (s2 & Hok & Hs2).
  { unfold vsize. rewrite length_app. simpl length. lia. }
  exists s2. split; [exact Hok|]. by rewrite <- app_assoc in Hs2.
Qed.

(** Where the records of layer [i] go and come from. *)
Record layer_at (ctx : CliCtx) (c : RDMAChannel) (i : nat) (ps : list Placed) : Prop := {
  la_mrs : layer_mrs ctx !! i = Some ((fun p => (t_src (pl p), pl_lkey p)) <$> ps);
  la_gdr : layer_gdrcpy_mem ctx !! i = Some ((fun p => Some (t_src (pl p))) <$> ps);
  la_handle : exists h, dst_handles_ c !! i = Some h /\ take (length ps) (h_ptrs h) = (t_dst ∘ pl) <$> ps /\
    take (length ps) (h_rkeys h) = pl_rkey <$> ps;
  la_sizes : vsize ps <= vsize (layer_blk_sizes_ ctx) /\ vsize ps <= vsize (dst_layer_blk_sizes_ c);
}.

Lemma vec_idx_fmap {A B} (f : A -> B) l j x :
  l !! j = Some x -> vec_idx (f <$> l) (Z.of_nat j) = Ok (f x).
Proof. intros Hl. apply vec_idx_Some; [lia|]. by rewrite Nat2Z.id, list_lookup_fmap, Hl. Qed.

Lemma vec_idx_take {A B} (f : A -> B) l v j x :
  take (length l) v = f <$> l -> l !! j = Some x -> vec_idx v (Z.of_nat j) = Ok (f x).
Proof.
  intros Ht Hl. assert (j < length l)%nat by eauto using lookup_lt_Some.
  apply vec_idx_Some; [lia|]. rewrite Nat2Z.id, <- (lookup_take_lt v (length l)), Ht, list_lookup_fmap by done.
  by rewrite Hl.
Qed.

Lemma lt_vsize {A} (l : list A) j x : l !! j = Some x -> (Z.of_nat j <? vsize l) = true.
Proof. intros Hl%lookup_lt_Some. apply Z.ltb_lt. unfold vsize. lia. Qed.

Lemma take_vsize {A B} (f : A -> B) l v : take (length l) v = f <$> l -> vsize l <= vsize v.
Proof.
  intros Ht. apply (f_equal length) in Ht. rewrite length_take, length_fmap in Ht. unfold vsize. lia.
Qed.

Lemma send_tensor_records_spec ctx c0 src i ps handle j p ws crc s :
  can_post c0 -> layer_at ctx c0 i ps -> dst_handles_ c0 !! i = Some handle -> ps !! j = Some p ->
  vsize ws + vsize (t_blocks (pl p)) <= dataperch_ c0 * chs_n c0 -> progress c0 ws crc s ->
  Forall (record_ok p) (t_blocks (pl p)) ->
  exists s', send_tensor_records ctx src (Z.of_nat i) handle ((fun p => (t_src (pl p), pl_lkey p)) <$> ps)
      (Z.of_nat j, t_blocks (pl p)) s = Ok s' /\
    progress c0 (ws ++ tensor_writes p)
      (tensor_crc src (t_src (pl p)) src_offset (t_blocks (pl p)) crc) s'.
Proof.
  intros Hc [Hmrs Hgdr (h & Hh & Hptrs & Hkeys) [Hs1 Hs2]] Hh' Hj Hroom Hpr Hb. simplify_eq.
  pose proof (lt_vsize _ _ _ Hj) as Hlt. apply Z.ltb_lt in Hlt.
  pose proof (take_vsize _ _ _ Hptrs) as Hvp. unfold send_tensor_records.
  destruct Hpr as (batches & datasp & -> & Hpr).
  rewrite !cassert_true; cbn [rbind]; [| |apply Z.ltb_lt..].
  2: { rewrite (lt_vsize _ j (t_src (pl p), pl_lkey p)); [done|]. by rewrite list_lookup_fmap, Hj. }
  2,3,4: change (dst_layer_blk_sizes_ (posted_from c0 batches crc)) with (dst_layer_blk_sizes_ c0); lia.
  assert (get_layer_tensor_cpu_ptr ctx (Z.of_nat i) (Z.of_nat j) = Ok (Some (t_src (pl p)))) as ->.
  { unfold get_layer_tensor_cpu_ptr. pose proof (lt_vsize _ _ _ Hmrs) as Hi%Z.ltb_lt.
    rewrite (proj2 (Z.leb_gt _ _)) by done. erewrite vec_idx_Some; [|lia|by rewrite Nat2Z.id, Hgdr].
    cbn [rbind]. rewrite (proj2 (Z.leb_gt _ _)) by (unfold vsize in *; rewrite length_fmap; lia).
    by apply (vec_idx_fmap (fun p => Some (t_src (pl p)))). }
  cbn [rbind]. rewrite bool_decide_eq_false_2 by done. cbn [andb].
  apply send_records_spec; try done.
  - by exists batches, datasp.
  - by apply (vec_idx_take (t_dst ∘ pl) ps).
  - by apply (vec_idx_take pl_rkey ps).
  - by apply (vec_idx_fmap (fun p => (t_src (pl p), pl_lkey p))).
Qed.

Lemma send_tensors_records_spec ctx c0 src i pre suf handle ws crc s :
  can_post c0 -> layer_at ctx c0 i (pre ++ suf) -> dst_handles_ c0 !! i = Some handle ->
  vsize ws + vsize (layer_writes suf) <= dataperch_ c0 * chs_n c0 -> progress c0 ws crc s ->
  Forall (fun p => Forall (record_ok p) (t_blocks (pl p))) suf ->
  exists s', forM (zip (seqZ (vsize pre) (vsize suf)) ((t_blocks ∘ pl) <$> suf))
      (send_tensor_records ctx src (Z.of_nat i) handle ((fun p => (t_src (pl p), pl_lkey p)) <$> (pre ++ suf))) s
      = Ok s' /\
    progress c0 (ws ++ layer_writes suf) (layer_crc src t_src src_offset suf crc) s'.
Proof.
  intros Hc Hat Hh Hroom Hpr Hb. revert pre ws crc s Hat Hroom Hpr.
  induction Hb as [|p suf Hb _ IH]; intros pre ws crc s Hat Hroom Hpr.
  { exists s. split; [done|]. by rewrite app_nil_r. }
  replace (seqZ (vsize pre) (vsize (p :: suf))) with (vsize pre :: seqZ (vsize (pre ++ [p])) (vsize suf)).
  2: { unfold vsize. rewrite length_app. simpl length. rewrite (seqZ_cons _ (Z.of_nat (S _))) by lia.
       f_equal. f_equal; lia. }
  rewrite fmap_cons. cbn [zip zip_with forM]. change (layer_writes (p :: suf)) with (tensor_writes p ++ layer_writes suf) in *.
  rewrite vsize_app in Hroom. pose proof (vsize_nonneg (layer_writes suf)).
  assert (vsize (tensor_writes p) = vsize (t_blocks (pl p))) as Hvt
    by (unfold tensor_writes, vsize; by rewrite length_fmap).
  destruct (send_tensor_records_spec ctx c0 src i (pre ++ p :: suf) handle (length pre) p ws crc s)
    as (s1 & Hok & Hs1); try done; [by rewrite list_lookup_middle|lia|].
  unfold compose at 1, vsize at 1. rewrite Hok. cbn [rbind].
  assert (pre ++ p :: suf = (pre ++ [p]) ++ suf) as Heq by (by rewrite <- app_assoc). rewrite Heq in *.
  destruct (fun A => IH (pre ++ [p]) _ _ s1 Hat A Hs1) as (s2 & Hok2 & Hs2).
  { rewrite vsize_app. lia. }
  exists s2. split; [exact Hok2|]. by rewrite <- app_assoc in Hs2.
Qed.

(** One layer: at most one batch per connection. *)
Definition layer_batches (c0 : RDMAChannel) (ps : list Placed) (batches : list (Z * list RwMemp)) : Prop :=
  concat batches.*2 = layer_writes ps /\ vsize batches <= chs_n c0 /\
  Forall (fun b => 0 < vsize b.2 <= dataperch_ c0) batches.

Lemma rdma_send_data_spec ctx c0 src i ps r :
  can_post c0 -> layer_at ctx c0 i ps -> data_ c0 = Some r -> reg_data r = (t_blocks ∘ pl) <$> ps ->
  ps <> [] -> enable_crc_ c0 = true -> dst_layer_num_ c0 = vsize (layer_mrs ctx) ->
  Forall (fun p => Forall (record_ok p) (t_blocks (pl p))) ps ->
  vsize (layer_writes ps) <= dataperch_ c0 * chs_n c0 ->
  exists batches, rdma_send_data ctx src (Z.of_nat i) c0 =
      Ok (posted_from c0 batches (layer_crc src t_src src_offset ps (crc_ c0))) /\
    layer_batches c0 ps batches.
Proof.
  intros Hc Hat Hdata Hreg Hne Hcrc Hnum Hb Hroom. pose proof Hat as [Hmrs _ (h & Hh & _ & _) _].
  pose proof (lt_vsize _ _ _ Hmrs) as Hlt. unfold rdma_send_data. rewrite Hnum.
  rewrite !cassert_true by (done || apply Z.eqb_refl). cbn [rbind].
  erewrite (vec_idx_Some (dst_handles_ c0)); [|lia|by rewrite Nat2Z.id]. cbn [rbind].
  rewrite Hdata, Hreg. assert (forall A (f : Placed -> A), vsize (f <$> ps) = vsize ps) as Hvs
    by (intros; unfold vsize; by rewrite length_fmap).
  rewrite cassert_true by (rewrite Hvs; by rewrite vsize_pos). cbn [rbind].
  erewrite (vec_idx_Some (layer_mrs ctx)); [|lia|by rewrite Nat2Z.id]. cbn [rbind].
  rewrite cassert_true by (rewrite !Hvs; apply Z.eqb_refl). cbn [rbind]. rewrite Hvs.
  destruct (send_tensors_records_spec ctx c0 src i [] ps h [] (crc_ c0) ([], c0)) as (s & Hok & Hs); try done.
  { exists [], []. split_and!; [|done|done|unfold can_post in Hc; unfold vsize; simpl; lia].
    unfold posted_from, set_crc, set_posted. rewrite app_nil_r, <- Hcrc. f_equal. destruct c0. cbn. f_equal.
    unfold vsize. simpl. lia. }
  cbn [app] in Hok. change (vsize (@nil Placed)) with 0 in Hok. rewrite Hok. cbn [rbind].
  destruct Hs as (batches & datasp & -> & Hws & Hfull & Hd). cbn [app] in Hws.
  destruct Hc as (Hper & Hn & Hprev). pose proof (vsize_concat _ _ Hfull) as Hcc.
  pose proof (vsize_nonneg datasp). pose proof (vsize_nonneg batches).
  assert (vsize (layer_writes ps) = vsize batches * dataperch_ c0 + vsize datasp) as Hv
    by (rewrite <- Hws, vsize_app; lia).
  destruct (Z.eqb_spec (vsize datasp) 0) as [Hz|Hz].
  - exists batches. split; [done|]. destruct datasp as [|w datasp]; [|unfold vsize in Hz; simpl in Hz; lia].
    rewrite app_nil_r in Hws. split_and!; [done|nia|].
    apply (Forall_impl _ _ _ Hfull). intros b Hbb. lia.
  - assert (vsize batches < chs_n c0) by nia. unfold post, next_ch.
    change (prev_ch_idx_ (posted_from c0 batches ?x)) with (prev_ch_idx_ c0 + vsize batches).
    change (chs_n (posted_from c0 batches ?x)) with (chs_n c0).
    change (write_futs_ (posted_from c0 batches ?x)) with (write_futs_ c0 ++ batches).
    rewrite (proj2 (Z.leb_gt _ _)), (proj2 (Z.eqb_neq (chs_n c0) 0)) by lia.
    set (idx := (_ mod chs_n c0)). exists (batches ++ [(idx, datasp)]). split.
    + unfold posted_from, set_crc, set_posted. cbn. rewrite vsize_app, <- app_assoc.
      change (vsize [(idx, datasp)]) with 1. by rewrite Z.add_assoc.
    + split_and!.
      * rewrite fmap_app, concat_app. cbn. by rewrite app_nil_r.
      * rewrite vsize_app. change (vsize [(idx, datasp)]) with 1. lia.
      * apply Forall_app. split; [apply (Forall_impl _ _ _ Hfull); intros b Hbb; lia|].
        constructor; [cbn; lia|done].
Qed.

(** ** All layers *)
Lemma posted_from_app c0 b1 crc1 b2 crc2 :
  posted_from (posted_from c0 b1 crc1) b2 crc2 = posted_from c0 (b1 ++ b2) crc2.
Proof.
  unfold posted_from, set_crc, set_posted. cbn. by rewrite vsize_app, <- app_assoc, Z.add_assoc.
Qed.

Lemma posted_from_nil c0 : enable_crc_ c0 = true -> posted_from c0 [] (crc_ c0) = c0.
Proof.
  intros Hcrc. unfold posted_from, set_crc, set_posted. rewrite app_nil_r, <- Hcrc.
  destruct c0. cbn. f_equal. unfold vsize. simpl. lia.
Qed.

Definition layers_crc (m : memory) (base : Tensor -> Z) (off : IpcBlock -> Z) (layers : list (list Placed))
    (crc : Z) : Z := foldl (fun crc ps => layer_crc m base off ps crc) crc layers.

(** A layer whose records can be sent. *)
Definition layer_ready (c : RDMAChannel) (r : Registered) (ps : list Placed) : Prop :=
  reg_data r = (t_blocks ∘ pl) <$> ps /\ ps <> [] /\
  Forall (fun p => Forall (record_ok p) (t_blocks (pl p))) ps /\
  vsize (layer_writes ps) <= dataperch_ c * chs_n c.

Lemma send_layers_spec ctx src r layers k c0 :
  0 < dataperch_ c0 -> 0 < chs_n c0 -> prev_ch_idx_ c0 + vsize layers * chs_n c0 <= CHANNEL_INT_MAX ->
  data_ c0 = Some r -> enable_crc_ c0 = true -> dst_layer_num_ c0 = vsize (layer_mrs ctx) ->
  (forall i ps, layers !! i = Some ps -> layer_at ctx c0 (k + i) ps) -> Forall (layer_ready c0 r) layers ->
  exists bss, forM (seqZ (Z.of_nat k) (vsize layers)) (rdma_send_data ctx src) c0 =
      Ok (posted_from c0 (concat bss) (layers_crc src t_src src_offset layers (crc_ c0))) /\
    Forall2 (layer_batches c0) layers bss.
Proof.
  intros Hper Hn. revert k c0 Hper Hn. induction layers as [|ps layers IH]; intros k c0 Hper Hn Hprev Hd Hcrc Hnum Hat Hready.
  { exists []. split; [|done]. cbn [vsize length seqZ forM concat layers_crc foldl]. by rewrite posted_from_nil. }
  apply Forall_cons in Hready as [(Hreg & Hne & Hb & Hroom) Hready].
  unfold vsize in Hprev |- *. simpl length in *. rewrite (seqZ_cons _ (Z.of_nat (S _))) by lia. cbn [forM].
  destruct (rdma_send_data_spec ctx c0 src k ps r) as (bs & Hok & Hbs); try done.
  { unfold can_post. nia. }
  { specialize (Hat 0%nat ps). rewrite Nat.add_0_r in Hat. by apply Hat. }
  rewrite Hok. cbn [rbind]. set (c1 := posted_from c0 bs _) in *.
  destruct Hbs as (Hcc & Hle & Hbb).
  destruct (IH (S k) c1) as (bss & Hok2 & Hbss); try done.
  { cbn [c1 posted_from set_crc set_posted prev_ch_idx_ chs_n] in *. unfold vsize in *. lia. }
  { intros i ps' Hi. specialize (Hat (S i) ps' Hi). replace (S k + i)%nat with (k + S i)%nat by lia.
    destruct Hat. by split. }
  replace (Z.succ (Z.of_nat k)) with (Z.of_nat (S k)) by lia.
  replace (Z.pred (Z.of_nat (S (length layers)))) with (vsize layers) by (unfold vsize; lia).
  exists (bs :: bss). rewrite Hok2. split; [|by constructor].
  unfold c1. by rewrite posted_from_app.
Qed.

(** ** The CRC request and its answer *)
Lemma take_le_bytes n z r : take n (le_bytes n z ++ r) = le_bytes n z.
Proof. rewrite take_app_le by (by rewrite length_le_bytes). apply take_ge. by rewrite length_le_bytes. Qed.

Lemma drop_le_bytes n z r : drop n (le_bytes n z ++ r) = r.
Proof. apply drop_app_length'. by rewrite length_le_bytes. Qed.

Lemma drop_le_bytes2 n m z z' r : drop (n + m) (le_bytes n z ++ le_bytes m z' ++ r) = r.
Proof. rewrite app_assoc. apply drop_app_length'. by rewrite length_app, !length_le_bytes. Qed.

Lemma of_le4 z : 0 <= z < W32 -> of_le (le_bytes 4 z) = z.
Proof. intros Hz. apply of_le_bytes. exact Hz. Qed.

Lemma of_le8 z : 0 <= z < W64 -> of_le (le_bytes 8 z) = z.
Proof. intros Hz. apply of_le_bytes. exact Hz. Qed.

Definition offlen_wire (b : IpcBlock) : list Z := le_bytes 8 (dst_offset b) ++ le_bytes 8 (length_ b).

Definition tensor_request (l : list IpcBlock) : list Z := le_bytes 4 (vsize l) ++ flat_map offlen_wire l.

Definition request_wire (reqid lcrc : Z) (data : list (list IpcBlock)) : list Z :=
  (rpc_header REMOTE_CRC_REQ_MAGIC reqid ++ le_bytes 4 lcrc ++ le_bytes 4 (vsize data)) ++
  flat_map tensor_request data.

Definition count_records (data : list (list IpcBlock)) : Z := foldr (fun l n => vsize l + n) 0 data.

Lemma count_nonneg data : 0 <= count_records data.
Proof.
  induction data as [|l data IH]; [done|]. pose proof (vsize_nonneg l).
  change (count_records (l :: data)) with (vsize l + count_records data). lia.
Qed.

Lemma crc_records_spec cap l buf :
  vsize buf + vsize l * 16 <= cap ->
  forM l (crc_request_record cap) buf = Ok (buf ++ flat_map offlen_wire l).
Proof.
  revert buf. induction l as [|b l IH]; intros buf Hcap; [by rewrite app_nil_r|].
  unfold vsize in Hcap. simpl length in Hcap. cbn [forM flat_map]. unfold crc_request_record at 1.
  unfold rtassert. rewrite (proj2 (Z.leb_le _ _)) by (unfold vsize; lia). cbn [rbind].
  fold (offlen_wire b). rewrite IH; [by rewrite <- app_assoc|].
  rewrite vsize_app. unfold offlen_wire. rewrite vsize_app, !vsize_le_bytes. unfold vsize. lia.
Qed.

Lemma vsize_tensor_request l : vsize (tensor_request l) = 4 + vsize l * 16.
Proof.
  unfold tensor_request. rewrite vsize_app, vsize_le_bytes.
  assert (vsize (flat_map offlen_wire l) = vsize l * 16); [|lia].
  induction l as [|b l IH]; [done|]. cbn [flat_map]. rewrite vsize_app, IH. unfold offlen_wire.
  rewrite vsize_app, !vsize_le_bytes. unfold vsize. simpl length. lia.
Qed.

Lemma crc_tensors_spec cap data buf :
  Forall (fun l => vsize l < W32) data -> vsize buf + vsize data * 4 + count_records data * 16 <= cap ->
  forM data (fun l buf => forM l (crc_request_record cap) (buf ++ le_bytes 4 (u32 (vsize l)))) buf =
  Ok (buf ++ flat_map tensor_request data).
Proof.
  intros Hl. revert buf. induction Hl as [|l data Hl Hdata IH]; intros buf Hcap; [by rewrite app_nil_r|].
  change (count_records (l :: data)) with (vsize l + count_records data) in Hcap.
  assert (vsize (l :: data) = 1 + vsize data) as Hv by (unfold vsize; simpl length; lia).
  pose proof (count_nonneg data). pose proof (vsize_nonneg l). pose proof (vsize_nonneg data).
  cbn [forM flat_map]. rewrite u32_small by lia.
  rewrite crc_records_spec by (rewrite vsize_app, vsize_le_bytes; lia). cbn [rbind].
  rewrite <- app_assoc. fold (tensor_request l). rewrite IH.
  - by rewrite <- app_assoc.
  - rewrite vsize_app, vsize_tensor_request. lia.
Qed.

Lemma crc_request_spec reqid lcrc data :
  data <> [] -> vsize data < W32 -> count_records data < W32 ->
  crc_request reqid lcrc data = Ok (request_wire reqid lcrc data).
Proof.
  intros Hne Hd Hc. unfold crc_request. rewrite cassert_true by (by rewrite vsize_pos). cbn [rbind].
  rewrite (u32_small (vsize data)) by (pose proof (vsize_nonneg data); lia).
  assert (forall n, 0 <= n -> n + count_records data < W32 ->
    foldl (fun n l => u32 (n + u32 (vsize l))) n data = n + count_records data /\
    Forall (fun l => vsize l < W32) data /\ 0 <= count_records data) as Hsum.
  { clear Hne Hd Hc. induction data as [|l data IH]; intros n Hn Hs; [split_and!; try done; simpl; lia|].
    change (count_records (l :: data)) with (vsize l + count_records data) in *.
    pose proof (vsize_nonneg l). pose proof (count_nonneg data).
    cbn [foldl]. rewrite !u32_small by (rewrite ?u32_small by lia; lia).
    destruct (IH (n + vsize l)) as (-> & Hf & _); [lia..|]. split_and!; [lia| |lia]. constructor; [lia|done]. }
  destruct (Hsum 0) as (-> & Hf & H0); [lia..|].
  rewrite crc_tensors_spec; [done|done|].
  unfold rpc_header, RPC_HEADER. rewrite !vsize_app, !vsize_le_bytes. lia.
Qed.

Definition record_in_range (b : IpcBlock) : Prop := 0 <= dst_offset b < W64 /\ 0 <= length_ b < W64.
Definition offlen (b : IpcBlock) : Z * Z := (dst_offset b, length_ b).
Definition offlens_of (data : list (list IpcBlock)) : list (list (Z * Z)) := (fun l : list IpcBlock => offlen <$> l) <$> data.

(** Mappings of the layers' tensors on the server. *)
Definition descs_of (layers : list (list Placed)) : list (list (option Z)) :=
  (fun ps : list Placed => (fun p => Some (t_dst (pl p))) <$> ps) <$> layers.

Lemma offlen_wire_app b r : offlen_wire b ++ r = le_bytes 8 (dst_offset b) ++ le_bytes 8 (length_ b) ++ r.
Proof. unfold offlen_wire. by rewrite <- app_assoc. Qed.

Lemma tensor_request_app l r : tensor_request l ++ r = le_bytes 4 (vsize l) ++ flat_map offlen_wire l ++ r.
Proof. unfold tensor_request. by rewrite <- app_assoc. Qed.

Lemma parse_offlens_spec l k acc rest :
  Forall record_in_range l ->
  forM (seqZ k (vsize l)) parse_offlen (acc, flat_map offlen_wire l ++ rest) = Ok (acc ++ (offlen <$> l), rest).
Proof.
  intros Hl. revert k acc. induction Hl as [|b l [Hd Hn] _ IH]; intros k acc; [by rewrite app_nil_r|].
  unfold vsize. simpl length. rewrite (seqZ_cons _ (Z.of_nat (S _))) by lia. cbn [forM flat_map].
  unfold parse_offlen at 1. unfold rtassert. rewrite <- !app_assoc, !offlen_wire_app.
  rewrite (proj2 (Z.leb_le _ _)) by (rewrite !vsize_app, !vsize_le_bytes;
    pose proof (vsize_nonneg (flat_map offlen_wire l)); pose proof (vsize_nonneg rest); lia).
  cbn [rbind]. change 16%nat with (8 + 8)%nat.
  rewrite (drop_le_bytes2 8 8), drop_le_bytes, !take_le_bytes, !of_le8 by assumption.
  replace (Z.pred (Z.of_nat (S (length l)))) with (vsize l) by (unfold vsize; lia).
  rewrite IH. by rewrite <- app_assoc.
Qed.

Lemma parse_tensors_spec data k acc rest :
  Forall (fun l => vsize l < W32 /\ Forall record_in_range l) data ->
  forM (seqZ k (vsize data)) parse_tensor (acc, flat_map tensor_request data ++ rest) =
  Ok (acc ++ offlens_of data, rest).
Proof.
  intros Hdata. revert k acc. induction Hdata as [|l data [Hv Hl] _ IH]; intros k acc; [by rewrite app_nil_r|].
  unfold vsize. simpl length. rewrite (seqZ_cons _ (Z.of_nat (S _))) by lia. cbn [forM flat_map].
  unfold parse_tensor at 1. rewrite <- app_assoc, !tensor_request_app.
  unfold rtassert. rewrite (proj2 (Z.leb_le _ _)) by (rewrite vsize_app, vsize_le_bytes;
    pose proof (vsize_nonneg (flat_map offlen_wire l ++ flat_map tensor_request data ++ rest)); lia).
  cbn [rbind]. rewrite take_le_bytes, of_le4 by (pose proof (vsize_nonneg l); lia).
  rewrite drop_le_bytes, parse_offlens_spec by done. cbn [rbind].
  replace (Z.pred (Z.of_nat (S (length data)))) with (vsize data) by (unfold vsize; lia).
  rewrite IH. by rewrite <- app_assoc.
Qed.

Lemma crc_tensors_layer dst ps crc :
  crc_tensors dst ((fun p => Some (t_dst (pl p))) <$> ps) (offlens_of ((t_blocks ∘ pl) <$> ps)) true crc =
  (true, layer_crc dst t_dst dst_offset ps crc).
Proof.
  revert crc. induction ps as [|p ps IH]; intros crc; [done|]. unfold offlens_of in *. rewrite !fmap_cons. cbn [crc_tensors].
  rewrite IH. unfold layer_crc. cbn [foldl]. do 2 f_equal. unfold compose, tensor_crc.
  generalize crc. induction (t_blocks (pl p)) as [|b l IHl]; intros c; [done|]. csimpl. by rewrite IHl.
Qed.

Lemma crc_layers_spec dst (layers : list (list Placed)) (data : list (list IpcBlock)) crc :
  Forall (fun ps => (t_blocks ∘ pl) <$> ps = data) layers ->
  crc_layers dst (descs_of layers) (offlens_of data) (length layers) true crc =
  (true, layers_crc dst t_dst dst_offset layers crc).
Proof.
  intros Hl. revert crc. induction Hl as [|ps layers Hps _ IH]; intros crc; [done|].
  unfold descs_of. rewrite fmap_cons. fold (descs_of layers). cbn [length crc_layers]. rewrite (proj2 (Z.ltb_ge _ _)).
  - rewrite <- Hps at 1. rewrite crc_tensors_layer. rewrite IH. done.
  - rewrite <- Hps. unfold vsize, offlens_of. rewrite !length_fmap. lia.
Qed.

(** The server the handles and the mappings of [layers] belong to. *)
Definition server_of (srv : SrvCtx) (layers : list (list Placed)) : Prop :=
  srv_layer_descs srv = descs_of layers /\
  length <$> srv_layer_mrs srv = length <$> layers.

Lemma resp_remote_crc_spec srv dst (layers : list (list Placed)) (data : list (list IpcBlock)) reqid lcrc :
  server_of srv layers -> layers <> [] -> data <> [] ->
  Forall (fun ps => (t_blocks ∘ pl) <$> ps = data) layers ->
  vsize data < W32 -> Forall (fun l => vsize l < W32 /\ Forall record_in_range l) data ->
  0 <= lcrc < W32 -> lcrc = layers_crc dst t_dst dst_offset layers (crc32_z 0 []) ->
  resp_remote_crc srv dst (request_wire reqid lcrc data) =
  Ok (rpc_header REMOTE_CRC_REQ_MAGIC reqid ++ le_bytes 4 lcrc).
Proof.
  intros [Hdescs Hmrs] Hne Hdne Hblk Hd Hdata Hl Hcrc. unfold resp_remote_crc.
  pose proof (vsize_nonneg data) as Hd0.
  assert (request_wire reqid lcrc data = rpc_header REMOTE_CRC_REQ_MAGIC reqid ++ le_bytes 4 lcrc ++
    le_bytes 4 (vsize data) ++ flat_map tensor_request data) as ->
    by (unfold request_wire; by rewrite <- !app_assoc).
  set (body := flat_map tensor_request data).
  assert (0 < vsize body) as Hbody.
  { unfold body. destruct data as [|l data]; [done|]. cbn [flat_map]. rewrite vsize_app, vsize_tensor_request.
    pose proof (vsize_nonneg l). pose proof (vsize_nonneg (flat_map tensor_request data)). lia. }
  assert (length (rpc_header REMOTE_CRC_REQ_MAGIC reqid) = Z.to_nat RPC_HEADER) as Hlen
    by (unfold rpc_header; by rewrite length_app, !length_le_bytes).
  unfold rtassert. rewrite (proj2 (Z.ltb_lt _ _)).
  2: { rewrite !vsize_app, !vsize_le_bytes. unfold vsize at 1. rewrite Hlen. unfold RPC_HEADER. lia. }
  cbn [rbind]. rewrite (drop_app_length' _ _ _ (eq_sym Hlen)), (take_app_length' _ _ _ (eq_sym Hlen)).
  rewrite take_le_bytes, !drop_le_bytes, take_le_bytes, !of_le4 by lia.
  assert (match srv_layer_mrs srv with [] => 0 | l :: _ => vsize l end = vsize data) as ->.
  { destruct layers as [|ps layers]; [done|]. apply Forall_inv in Hblk. rewrite <- Hblk.
    destruct (srv_layer_mrs srv) as [|l mrs]; [done|]. injection Hmrs as Hml _. unfold vsize. by rewrite length_fmap, Hml. }
  rewrite Z.eqb_refl. cbn [negb]. change 8%nat with (4 + 4)%nat. rewrite drop_le_bytes2, <- (app_nil_r body). unfold body.
  rewrite parse_tensors_spec by done. cbn [rbind app fst].
  assert (length (srv_layer_mrs srv) = length layers) as Hml.
  { apply (f_equal length) in Hmrs. by rewrite !length_fmap in Hmrs. }
  rewrite Hml, Hdescs.
  replace (vsize (descs_of layers) =? 0) with false
    by (symmetry; apply vsize_pos; by destruct layers).
  cbn [negb]. rewrite crc_layers_spec by done. rewrite <- Hcrc. rewrite Z.eqb_refl. done.
Qed.

Lemma read_crc_reply_spec reqid crc :
  0 <= reqid < W64 -> 0 <= crc < W32 ->
  read_crc_reply reqid (rpc_header REMOTE_CRC_REQ_MAGIC reqid ++ le_bytes 4 crc) = Ok crc.
Proof.
  intros Hr Hc. unfold read_crc_reply, rpc_header.
  change (int_at 4 0 _) with (of_le (le_bytes 4 REMOTE_CRC_REQ_MAGIC)).
  rewrite <- app_assoc, drop_le_bytes, take_le_bytes, of_le8 by assumption.
  change (of_le (le_bytes 4 REMOTE_CRC_REQ_MAGIC)) with REMOTE_CRC_REQ_MAGIC.
  rewrite !vsize_app, !vsize_le_bytes. unfold rtassert. rewrite !Z.eqb_refl. cbn [rbind].
  change (Z.to_nat RPC_HEADER) with (4 + 8)%nat. rewrite drop_le_bytes2.
  rewrite vsize_le_bytes. cbn [rbind]. rewrite <- (app_nil_r (le_bytes 4 crc)), take_le_bytes.
  by rewrite of_le4.
Qed.

(** ** Memory handles *)
Definition handle_ok (h : RDMAMemHandle) : Prop :=
  vsize (h_ptrs h) = MAX_CACHE_NUM_PER_LAYER /\ vsize (h_rkeys h) = MAX_CACHE_NUM_PER_LAYER /\
  Forall (fun p => 0 <= p < W64) (h_ptrs h) /\ Forall (fun k => 0 <= k < W32) (h_rkeys h).

Lemma read_handle_spec h rest : handle_ok h -> read_handle (handle_wire h ++ rest) = h.
Proof.
  destruct h as [[|p1 [|p2 [|? ?]]] [|k1 [|k2 [|? ?]]]]; intros (Hp & Hk & Hps & Hks);
    try (unfold vsize, MAX_CACHE_NUM_PER_LAYER in *; simpl in *; lia).
  cbn [h_ptrs h_rkeys] in *. apply Forall_cons in Hps as [H1 Hps]. apply Forall_cons in Hps as [H2 _].
  apply Forall_cons in Hks as [H3 Hks]. apply Forall_cons in Hks as [H4 _].
  unfold read_handle. f_equal.
  - change (int_at 8 0 _) with (of_le (le_bytes 8 p1)). change (int_at 8 1 _) with (of_le (le_bytes 8 p2)).
    by rewrite !of_le8 by assumption.
  - change (int_at 4 4 _) with (of_le (le_bytes 4 k1)). change (int_at 4 5 _) with (of_le (le_bytes 4 k2)).
    by rewrite !of_le4 by assumption.
Qed.

Lemma length_handle_wire h : handle_ok h -> length (handle_wire h) = 24%nat.
Proof.
  destruct h as [[|p1 [|p2 [|? ?]]] [|k1 [|k2 [|? ?]]]]; intros (Hp & Hk & _);
    solve [reflexivity | unfold vsize, MAX_CACHE_NUM_PER_LAYER in *; simpl in *; lia].
Qed.

Lemma vsize_handles hs : Forall handle_ok hs -> vsize (flat_map handle_wire hs) = vsize hs * SIZEOF_MEM_HANDLE.
Proof.
  unfold SIZEOF_MEM_HANDLE. induction 1 as [|h hs Hh _ IH]; [done|]. cbn [flat_map]. rewrite vsize_app, IH.
  unfold vsize. rewrite length_handle_wire by done. simpl length. lia.
Qed.

Lemma drop_handles hs i h :
  Forall handle_ok hs -> hs !! i = Some h ->
  exists rest, drop (24 * i) (flat_map handle_wire hs) = handle_wire h ++ rest.
Proof.
  intros Hhs. revert i. induction Hhs as [|h' hs Hh' Hhs IH]; intros i Hi; [done|].
  destruct i as [|i]; simplify_eq/=; [by eexists|]. destruct (IH i Hi) as [rest Hr]. exists rest.
  rewrite <- Hr. rewrite drop_app_ge by (rewrite length_handle_wire by done; lia).
  f_equal. rewrite length_handle_wire by done. lia.
Qed.

Lemma read_mem_handles_spec hs reqid reply :
  Forall handle_ok hs -> 0 <= reqid < W64 ->
  resp_mem_handles hs (rpc_header MEM_HANDLES_REQ_MAGIC reqid) = Ok reply ->
  read_mem_handles reqid reply = Ok hs.
Proof.
  intros Hhs Hr. unfold resp_mem_handles. rewrite cassert_true by done. cbn [rbind]. set (body := flat_map handle_wire hs). intros Heq.
  assert (reply = (le_bytes 4 MEM_HANDLES_REQ_MAGIC ++ le_bytes 8 reqid) ++ body) as ->.
  { change (Ok ((le_bytes 4 MEM_HANDLES_REQ_MAGIC ++ le_bytes 8 reqid) ++ body) = Ok reply) in Heq. congruence. }
  clear Heq. unfold read_mem_handles. change (int_at 4 0 _) with MEM_HANDLES_REQ_MAGIC. rewrite <- app_assoc, drop_le_bytes, take_le_bytes, of_le8 by done.
  change (Z.to_nat RPC_HEADER) with (4 + 8)%nat. rewrite drop_le_bytes2. unfold rtassert. rewrite !Z.eqb_refl.
  rewrite (proj2 (Z.leb_le _ _)) by (rewrite !vsize_app, !vsize_le_bytes; pose proof (vsize_nonneg body);
    unfold RPC_HEADER; lia).
  unfold body. rewrite vsize_handles by done. rewrite Z.mod_mul, Z.div_mul by done. cbn [rbind Z.eqb].
  f_equal. apply list_eq. intros i. rewrite list_lookup_fmap. destruct (hs !! i) as [h|] eqn:Hi.
  - rewrite lookup_seqZ_lt by (unfold vsize; apply lookup_lt_Some in Hi; lia). cbn [fmap option_fmap option_map].
    destruct (drop_handles hs i h Hhs Hi) as [rest Hd].
    replace (Z.to_nat ((0 + Z.of_nat i) * SIZEOF_MEM_HANDLE)) with (24 * i)%nat by (unfold SIZEOF_MEM_HANDLE; lia).
    rewrite Hd, read_handle_spec; [done|]. by apply (Forall_lookup_1 _ _ _ _ Hhs Hi).
  - apply lookup_ge_None in Hi. by rewrite lookup_seqZ_ge by (unfold vsize; lia).
Qed.

Lemma do_init_spec e c hs :
  valid_channels (ie_active e) = false -> ie_connect e <> [] -> Forall (fun r => r = Ok tt) (ie_connect e) ->
  (exists reply, ie_reply e = Ok reply /\
     resp_mem_handles hs (rpc_header MEM_HANDLES_REQ_MAGIC (ie_reqid e)) = Ok reply) ->
  0 <= ie_reqid e < W64 -> Forall handle_ok hs -> vsize hs = dst_layer_num_ c ->
  do_init e c = Ok (set_connections (vsize (ie_connect e)) hs c).
Proof.
  intros Hv Hne Hok (reply & Hre & Hresp) Hr Hhs Hn. unfold do_init. rewrite Hv.
  rewrite cassert_true by (apply Z.ltb_lt; unfold vsize; destruct (ie_connect e); [done|simpl; lia]).
  cbn [rbind]. assert (forall l, Forall (fun r => r = Ok tt) l -> forM l (fun r (_ : unit) => r) tt = Ok tt) as ->.
  { induction 1 as [|r l -> _ IH]; [done|]. cbn [forM rbind]. exact IH. }
  2: done. cbn [rbind]. rewrite Hre. cbn [rbind]. rewrite (read_mem_handles_spec hs) by done. cbn [rbind].
  rewrite cassert_true; [done|]. apply Z.eqb_eq. exact Hn.
Qed.

(** ** What the writes do *)
Definition rw_bytes (w : RwMemp) : list (Z * Z) :=
  (fun k => (sg_addr w + k, r_addr w + k)) <$> seqZ 0 (sg_length w).

Definition tensor_moves (t : Tensor) : list (Z * Z) :=
  bytes_of (shift_block (t_src t) (t_dst t) <$> t_blocks t).

Lemma layer_copy_exec g ts dst : layer_copy g ts dst = exec_bytes g (flat_map tensor_moves ts) dst.
Proof.
  unfold layer_copy. revert dst. induction ts as [|t ts IH]; intros dst; [done|].
  cbn [foldl flat_map]. by rewrite IH, exec_bytes_app.
Qed.

Definition layer_moves (ps : list Placed) : list (Z * Z) := flat_map (fun p => tensor_moves (pl p)) ps.

Definition layers_copy (g : memory) (layers : list (list Placed)) (dst : memory) : memory :=
  foldl (fun m ps => layer_copy g (pl <$> ps) m) dst layers.

Lemma record_write_bytes p b :
  rw_bytes (record_write p b) = block_bytes (shift_block (t_src (pl p)) (t_dst (pl p)) b).
Proof.
  unfold rw_bytes, block_bytes, record_write, shift_block. cbn. apply list_fmap_ext. intros. f_equal; lia.
Qed.

Lemma tensor_writes_bytes p : flat_map rw_bytes (tensor_writes p) = tensor_moves (pl p).
Proof.
  unfold tensor_writes, tensor_moves, bytes_of. induction (t_blocks (pl p)) as [|b l IH]; [done|].
  rewrite !fmap_cons. cbn [flat_map]. by rewrite IH, record_write_bytes.
Qed.

Lemma layer_writes_bytes ps : flat_map rw_bytes (layer_writes ps) = layer_moves ps.
Proof.
  unfold layer_writes, layer_moves. induction ps as [|p ps IH]; [done|]. cbn [flat_map].
  by rewrite flat_map_app, IH, tensor_writes_bytes.
Qed.

Lemma layer_copy_moves g ps dst : layer_copy g (pl <$> ps) dst = exec_bytes g (layer_moves ps) dst.
Proof. rewrite layer_copy_exec. unfold layer_moves. f_equal. rewrite !flat_map_concat_map. f_equal. apply map_map. Qed.

Lemma layers_copy_moves g layers dst :
  layers_copy g layers dst = exec_bytes g (flat_map layer_moves layers) dst.
Proof.
  unfold layers_copy. revert dst. induction layers as [|ps layers IH]; intros dst; [done|].
  cbn [foldl flat_map]. by rewrite IH, layer_copy_moves, exec_bytes_app.
Qed.

(** Merging keeps the placement. *)
Definition placed_same (p p' : Placed) : Prop :=
  same_copies (pl p) (pl p') /\ pl_lkey p' = pl_lkey p /\ pl_rkey p' = pl_rkey p.

Lemma placed_merge ps ts' :
  Forall2 same_copies (pl <$> ps) ts' -> exists ps', pl <$> ps' = ts' /\ Forall2 placed_same ps ps'.
Proof.
  revert ts'. induction ps as [|p ps IH]; intros ts' Hs.
  - apply Forall2_nil_inv_l in Hs as ->. by exists [].
  - rewrite fmap_cons in Hs. apply Forall2_cons_inv_l in Hs as (t' & ts & Ht & Hs & ->).
    destruct (IH _ Hs) as (ps' & <- & Hps). exists (mkPlaced t' (pl_lkey p) (pl_rkey p) :: ps').
    split; [done|]. constructor; done.
Qed.

Lemma placed_same_fmap {A} (f : Placed -> A) ps ps' :
  (forall p p', placed_same p p' -> f p' = f p) -> Forall2 placed_same ps ps' -> f <$> ps' = f <$> ps.
Proof. intros Hf. induction 1 as [|p p' ps ps' Hp _ IH]; [done|]. csimpl. by rewrite IH, (Hf p p'). Qed.

Lemma placed_same_moves ps ps' : Forall2 placed_same ps ps' -> layer_moves ps' ≡ₚ layer_moves ps.
Proof.
  unfold layer_moves. induction 1 as [|p p' ps ps' [(Hs & Hd & _ & Hb) _] _ IH]; [done|]. cbn [flat_map].
  rewrite IH. apply Permutation_app; [|done]. unfold tensor_moves. rewrite !bytes_of_shift, Hs, Hd. by rewrite Hb.
Qed.

Lemma layer_at_same ctx c i ps ps' : Forall2 placed_same ps ps' -> layer_at ctx c i ps -> layer_at ctx c i ps'.
Proof.
  intros Hs [Hm Hg (h & Hh & Hp & Hk) Hz]. pose proof (Forall2_length _ _ _ Hs) as Hl.
  assert (forall A (f : Placed -> A), (forall p p', placed_same p p' -> f p' = f p) -> f <$> ps' = f <$> ps) as Hf
    by (intros; by apply placed_same_fmap).
  split.
  - rewrite Hm. f_equal. symmetry. apply Hf. by intros p p' ((-> & _) & -> & _).
  - rewrite Hg. f_equal. symmetry. apply Hf. by intros p p' ((-> & _) & _).
  - exists h. rewrite <- Hl. split; [done|]. split; [rewrite Hp|rewrite Hk]; symmetry; apply Hf.
    + by intros p p' ((_ & ? & _) & _).
    + by intros p p' (_ & _ & ?).
  - unfold vsize in *. by rewrite <- Hl.
Qed.

Lemma sum_length_in b l : blocks_ok l -> b ∈ l -> length_ b <= sum_length l.
Proof.
  induction 1 as [|b' l Hb' Hl IH]; intros Hin; [by apply elem_of_nil in Hin|].
  pose proof (sum_length_nonneg _ Hl). apply elem_of_cons in Hin as [->|Hin]; simpl; [lia|].
  specialize (IH Hin). lia.
Qed.

Lemma merged_record_ok p p' :
  placed_same p p' -> tensor_ok (pl p') -> addresses_ok (pl p) -> sum_length (t_blocks (pl p')) < W32 ->
  Forall (record_ok p') (t_blocks (pl p')).
Proof.
  intros [(Hs & Hd & _ & Hb) _] [_ Hf _ _ _ _] (H1 & H2 & Ha) Hsum. pose proof (fits_blocks_ok _ _ Hf) as Hok.
  rewrite <- Hb, Forall_forall in Ha. rewrite Forall_forall in Hf |- *. intros b Hin.
  destruct (Hf b Hin) as (Hl & (Hs0 & _) & Hd0 & _). pose proof (sum_length_in _ _ Hok Hin).
  destruct (Ha (src_offset b, dst_offset b)) as [Has Had].
  { apply elem_of_bytes_of. exists b. split; [done|]. apply elem_of_block_bytes. exists 0. lia. }
  cbn in Has, Had. unfold record_ok. rewrite Hs, Hd. lia.
Qed.

(** ** Both checksums agree *)
Lemma arrived src l dst layers ps p b :
  NoDup l.*2 -> l ≡ₚ flat_map layer_moves layers -> ps ∈ layers -> p ∈ ps -> b ∈ t_blocks (pl p) ->
  read (exec_bytes src l dst) (t_dst (pl p) + dst_offset b) (length_ b) =
  read src (t_src (pl p) + src_offset b) (length_ b).
Proof.
  intros Hnd Hl Hps Hp Hb. unfold read. apply list_fmap_ext. intros i k Hk.
  apply lookup_seqZ in Hk as [-> Hk]. apply exec_bytes_written; [done|]. rewrite Hl.
  apply list_elem_of_In, in_flat_map. exists ps. split; [by apply list_elem_of_In|].
  apply in_flat_map. exists p. split; [by apply list_elem_of_In|]. apply list_elem_of_In.
  unfold tensor_moves. apply elem_of_bytes_of. exists (shift_block (t_src (pl p)) (t_dst (pl p)) b).
  split; [by apply list_elem_of_fmap_2|]. apply elem_of_block_bytes. exists (0 + Z.of_nat i). cbn. lia.
Qed.

Lemma crc_agrees src l dst layers crc :
  NoDup l.*2 -> l ≡ₚ flat_map layer_moves layers ->
  layers_crc (exec_bytes src l dst) t_dst dst_offset layers crc = layers_crc src t_src src_offset layers crc.
Proof.
  intros Hnd Hl. unfold layers_crc, layer_crc, tensor_crc.
  apply foldl_eq. intros a ps Hps. apply foldl_eq. intros a' p Hp. apply foldl_eq. intros a'' b Hb.
  by rewrite (arrived src l dst layers ps p b).
Qed.

Hypothesis Hcrc32 : forall a l, 0 <= crc32_z a l < W32.

Lemma tensor_crc_range m base off l crc : 0 <= crc < W32 -> 0 <= tensor_crc m base off l crc < W32.
Proof.
  unfold tensor_crc. revert crc. induction l as [|b l IH]; intros crc Hc; [done|]. cbn [foldl]. apply IH, Hcrc32.
Qed.

Lemma layers_crc_range m base off layers crc : 0 <= crc < W32 -> 0 <= layers_crc m base off layers crc < W32.
Proof.
  unfold layers_crc, layer_crc. revert crc. induction layers as [|ps layers IH]; intros crc Hc; [done|].
  cbn [foldl]. apply IH. revert crc Hc. induction ps as [|p ps IHp]; intros crc Hc; [done|].
  cbn [foldl]. apply IHp, tensor_crc_range, Hc.
Qed.

(** ** A whole transfer *)

(** A new channel to a server that serves [layers], and the records [data] of a request. *)
Record rdma_ready (e : InitEnv) (c : RDMAChannel) (ctx : CliCtx) (srv : SrvCtx) (hs : list RDMAMemHandle)
    (layers : list (list Placed)) (data : list (list IpcBlock)) (kind : TPKind) : Prop := {
  rr_layers : layers <> [];
  rr_data : Forall (fun ps => ps <> [] /\ (t_blocks ∘ pl) <$> ps = data /\ Forall tensor_ok (pl <$> ps) /\
    Forall (fun p => addresses_ok (pl p)) ps /\ layer_bytes (pl <$> ps) < W32) layers;
  rr_kind : kind = PEQD \/ vsize data = 1;
  rr_disjoint : NoDup (flat_map layer_moves layers).*2;
  rr_channel : data_ c = None /\ write_futs_ c = [] /\
    prev_ch_idx_ c + vsize layers * vsize (ie_connect e) <= CHANNEL_INT_MAX;
  rr_count : dst_layer_num_ c = vsize layers /\ vsize (layer_mrs ctx) = vsize layers /\ vsize hs = vsize layers;
  rr_connect : valid_channels (ie_active e) = false /\ ie_connect e <> [] /\
    vsize (ie_connect e) < W32 /\ Forall (fun r => r = Ok tt) (ie_connect e);
  rr_reply : 0 <= ie_reqid e < W64 /\ Forall handle_ok hs /\
    resp_mem_handles hs (rpc_header MEM_HANDLES_REQ_MAGIC (ie_reqid e)) = ie_reply e;
  rr_at : forall i ps, layers !! i = Some ps -> layer_at ctx (set_connections (vsize (ie_connect e)) hs c) i ps;
  rr_server : server_of srv layers;
}.

(** What merging makes of a layer. *)
Definition merged_layer (r : Registered) (ps ps' : list Placed) : Prop :=
  Forall2 placed_same ps ps' /\ registered_layer (pl <$> ps') r /\
  Forall (fun p => Forall (record_ok p) (t_blocks (pl p))) ps' /\ layer_bytes (pl <$> ps') < W32 /\
  Forall tensor_ok (pl <$> ps') /\ ps' <> [].

Lemma merged_layer_exists sort `{!StdSort sort} kind data r ps :
  register_records sort data kind = Ok r -> kind = PEQD \/ vsize data = 1 ->
  ps <> [] -> (t_blocks ∘ pl) <$> ps = data -> Forall tensor_ok (pl <$> ps) ->
  Forall (fun p => addresses_ok (pl p)) ps -> layer_bytes (pl <$> ps) < W32 ->
  exists ps', merged_layer r ps ps'.
Proof.
  intros Hr Hk Hne Hd Hts Ha Hb.
  assert (t_blocks <$> (pl <$> ps) = data) as Hd' by (by rewrite <- list_fmap_compose).
  destruct (register_records_spec sort (pl <$> ps) kind) as (ts' & r' & Hr' & Hl & Hts' & Hsame & Hlb).
  { by destruct ps. } { done. } { unfold W64, W32 in *. lia. }
  { rewrite <- Hd in Hk. unfold vsize in Hk |- *. rewrite length_fmap in Hk. by rewrite length_fmap. }
  rewrite Hd', Hr in Hr'. injection Hr' as <-.
  destruct (placed_merge ps ts' Hsame) as (ps' & <- & Hps). exists ps'.
  split_and!; try done; [|by rewrite Hlb|by destruct Hps].
  rewrite <- Hlb in Hb. clear -Hps Hts' Ha Hb.
  induction Hps as [|p p' ps ps' Hp Hps IH]; [done|].
  rewrite fmap_cons in *. apply Forall_cons in Hts' as [Ht Hts']. apply Forall_cons in Ha as [Ha1 Ha].
  change (layer_bytes (pl p' :: (pl <$> ps'))) with (sum_length (t_blocks (pl p')) + layer_bytes (pl <$> ps')) in Hb.
  pose proof (layer_counts _ Hts'). pose proof (tensor_counts _ Ht). constructor.
  - apply (merged_record_ok p); try done. lia.
  - apply IH; try done. lia.
Qed.

Lemma layer_records_writes ps : vsize (layer_writes ps) = layer_records (pl <$> ps).
Proof.
  unfold layer_writes, layer_records. induction ps as [|p ps IH]; [done|]. rewrite fmap_cons. cbn [flat_map foldr].
  rewrite vsize_app, IH. f_equal. unfold tensor_writes, vsize. by rewrite length_fmap.
Qed.

Lemma cdiv64_spec m n :
  0 < m -> 0 < n -> m + n <= W64 ->
  exists per, cdiv64 m n = Ok per /\ 0 < per /\ m <= per * n.
Proof.
  intros Hm Hn Hb. unfold cdiv64. rewrite (proj2 (Z.eqb_neq n 0)), !u64_small by (rewrite ?u64_small by lia; lia).
  eexists. split; [done|]. pose proof (Z.div_mod (m + (n - 1)) n ltac:(lia)).
  pose proof (Z.mod_pos_bound (m + (n - 1)) n ltac:(lia)). split; [|lia].
  apply Z.div_str_pos. lia.
Qed.

(** Registering on a channel that has yet to connect. *)
Lemma rdma_register_spec sort `{!StdSort sort} e c ctx srv hs layers data kind :
  rdma_ready e c ctx srv hs layers data kind ->
  exists r layers' per, Forall2 (merged_layer r) layers layers' /\
    let c1 := set_data (Some r) per (set_crc (crc32_z 0 []) true (set_connections (vsize (ie_connect e)) hs c)) in
    rdma_register_data sort e true data kind c = Ok c1 /\ 0 < chs_n c1 /\ 0 < per /\
    Forall (layer_ready c1 r) layers'.
Proof.
  intros [Hne Hlay Hkind _ (Hdn & _) (Hdl & _ & Hvh) (Hval & Hcn & Hcw & Hcok) (Hrid & Hhs & Hreply) _ _].
  destruct layers as [|ps0 rest]; [done|]. pose proof (Forall_inv Hlay) as (Hps & Hd & Hts & Ha & Hb).
  assert (t_blocks <$> (pl <$> ps0) = data) as Hd' by (by rewrite <- list_fmap_compose).
  destruct (register_records_spec sort (pl <$> ps0) kind) as (ts0 & r & Hr & _).
  { by destruct ps0. } { done. } { unfold W64, W32 in *. lia. }
  { rewrite <- Hd in Hkind. unfold vsize in Hkind |- *. rewrite length_fmap in Hkind. by rewrite length_fmap. }
  rewrite Hd' in Hr.
  destruct (forall2_choice (merged_layer r) (ps0 :: rest)) as (layers' & Hml).
  { intros ps Hin. rewrite Forall_forall in Hlay. destruct (Hlay ps Hin) as (? & ? & ? & ? & ?).
    by apply (merged_layer_exists sort kind data). }
  assert (0 < merged_sb_num_ r < W32) as Hm.
  { destruct layers' as [|ps' layers']; [by apply Forall2_nil_inv_r in Hml|].
    apply Forall2_cons in Hml as [(_ & [_ _ Hc _] & _ & Hlb & Hok & Hn') _]. rewrite Hc.
    pose proof (layer_counts _ Hok). split; [|lia]. destruct ps' as [|p ps']; [done|].
    rewrite fmap_cons in *. apply Forall_cons in Hok as [Hp Hok]. pose proof (tensor_counts _ Hp).
    pose proof (layer_counts _ Hok). unfold layer_records in *. cbn [foldr]. lia. }
  assert (0 < vsize (ie_connect e)) as Hcp by (unfold vsize; destruct (ie_connect e); [done|simpl; lia]).
  destruct (cdiv64_spec (merged_sb_num_ r) (vsize (ie_connect e))) as (per & Hper & Hp0 & Hple);
    [lia|done|unfold W64, W32 in *; lia|].
  exists r, layers', per. split; [done|]. cbn zeta. unfold rdma_register_data.
  rewrite cassert_true by (rewrite vsize_pos; [done|]; rewrite <- Hd; by destruct ps0). cbn [rbind].
  rewrite cassert_true by (by rewrite bool_decide_eq_true_2). cbn [rbind].
  rewrite (do_init_spec e c hs); try done; [| |by rewrite Hvh, Hdl].
  2: { unfold resp_mem_handles in *. rewrite cassert_true in * by done. cbn [rbind] in *. eexists. by rewrite <- Hreply. }
  cbn [rbind]. rewrite Hr. cbn [rbind set_crc set_connections chs_n]. rewrite Hper. cbn [rbind].
  split_and!; [done|done|done|].
  apply Forall_forall. intros ps' Hin. apply list_elem_of_lookup in Hin as [i Hi].
  destruct (Forall2_lookup_r _ _ _ _ _ Hml Hi) as (ps & _ & _ & [Hrd _ Hrc _] & Hrec & _ & _ & Hn').
  split_and!; try done.
  - by rewrite Hrd, <- list_fmap_compose.
  - rewrite layer_records_writes, <- Hrc. cbn. exact Hple.
Qed.

Lemma layer_batches_writes c0 layers bss :
  Forall2 (layer_batches c0) layers bss -> concat (concat bss).*2 = flat_map layer_writes layers.
Proof.
  induction 1 as [|ps bs layers bss (Hc & _) _ IH]; [done|]. cbn [concat flat_map].
  by rewrite fmap_app, concat_app, Hc, IH.
Qed.

Lemma layer_batches_count c0 layers bss :
  Forall2 (layer_batches c0) layers bss -> vsize (concat bss) <= vsize layers * chs_n c0.
Proof.
  induction 1 as [|ps bs layers bss (_ & Hn & _) _ IH]; [unfold vsize; simpl; lia|]. cbn [concat].
  rewrite vsize_app. unfold vsize in *. simpl length. lia.
Qed.

Lemma merged_moves r layers layers' :
  Forall2 (merged_layer r) layers layers' -> flat_map layer_moves layers' ≡ₚ flat_map layer_moves layers.
Proof.
  induction 1 as [|ps ps' layers layers' (Hs & _) _ IH]; [done|]. cbn [flat_map].
  rewrite IH. apply Permutation_app; [|done]. by apply placed_same_moves.
Qed.

Lemma flat_map_writes layers :
  flat_map rw_bytes (flat_map layer_writes layers) = flat_map layer_moves layers.
Proof.
  induction layers as [|ps layers IH]; [done|]. cbn [flat_map]. by rewrite flat_map_app, IH, layer_writes_bytes.
Qed.

(** The write carries the keys of the tensor its bytes belong to. *)
Definition keyed (layers : list (list Placed)) (w : RwMemp) : Prop :=
  exists ps p, ps ∈ layers /\ p ∈ ps /\ r_key w = pl_rkey p /\ sg_lkey w = pl_lkey p /\
    forall sd, sd ∈ rw_bytes w -> sd ∈ tensor_moves (pl p).

Lemma writes_keyed r layers layers' :
  Forall2 (merged_layer r) layers layers' -> Forall (keyed layers) (flat_map layer_writes layers').
Proof.
  intros Hml. apply Forall_forall. intros w Hw. apply list_elem_of_In, in_flat_map in Hw as (ps' & Hps' & Hw).
  apply in_flat_map in Hw as (p' & Hp' & Hw). apply list_elem_of_In in Hps', Hp', Hw.
  apply list_elem_of_lookup in Hps' as [i Hi], Hp' as [j Hj].
  destruct (Forall2_lookup_r _ _ _ _ _ Hml Hi) as (ps & Hi' & Hs & _).
  destruct (Forall2_lookup_r _ _ _ _ _ Hs Hj) as (p & Hj' & (Hsrc & Hdst & _ & Hb) & Hlk & Hrk).
  exists ps, p. split; [by eapply list_elem_of_lookup_2|]. split; [by eapply list_elem_of_lookup_2|].
  unfold tensor_writes in Hw. apply list_elem_of_fmap in Hw as (b & -> & Hbin). split_and!; [done..|].
  intros sd Hsd. rewrite record_write_bytes in Hsd. unfold tensor_moves. rewrite bytes_of_shift, <- Hb, <- Hsrc, <- Hdst.
  rewrite <- bytes_of_shift. apply elem_of_bytes_of. eexists. split; [|exact Hsd]. by apply list_elem_of_fmap_2.
Qed.

(** The data of a merged layer, for the CRC request. *)
Lemma merged_data r layers layers' :
  Forall2 (merged_layer r) layers layers' ->
  Forall (fun ps => (t_blocks ∘ pl) <$> ps = reg_data r) layers'.
Proof.
  intros Hml. apply Forall_forall. intros ps' Hin. apply list_elem_of_lookup in Hin as [i Hi].
  destruct (Forall2_lookup_r _ _ _ _ _ Hml Hi) as (ps & _ & _ & [Hd _ _ _] & _).
  by rewrite Hd, <- list_fmap_compose.
Qed.

Lemma merged_request r ps ps' :
  merged_layer r ps ps' ->
  reg_data r <> [] /\ vsize (reg_data r) < W32 /\ count_records (reg_data r) < W32 /\
  Forall (fun l => vsize l < W32 /\ Forall record_in_range l) (reg_data r).
Proof.
  intros (_ & [Hd _ _ _] & _ & Hlb & Hok & Hne). rewrite Hd. pose proof (layer_counts _ Hok) as Hlc.
  assert (count_records (t_blocks <$> (pl <$> ps')) = layer_records (pl <$> ps')) as Hc.
  { clear. generalize (pl <$> ps'). unfold count_records, layer_records. intros l. induction l as [|t l IH]; [done|].
    rewrite fmap_cons. cbn [foldr]. by rewrite IH. }
  rewrite Hc. assert (Forall (fun t => vsize (t_blocks t) < W32 /\ Forall record_in_range (t_blocks t)) (pl <$> ps') /\
    vsize (pl <$> ps') <= layer_records (pl <$> ps')) as [Hf Hv].
  { clear -Hok Hlb. induction Hok as [|t l Ht Hok IH]; [done|].
    change (layer_bytes (t :: l)) with (sum_length (t_blocks t) + layer_bytes l) in Hlb.
    change (layer_records (t :: l)) with (vsize (t_blocks t) + layer_records l).
    pose proof (layer_counts _ Hok). pose proof (tensor_counts _ Ht). destruct IH as [IH1 IH2]; [lia|].
    split; [|unfold vsize in *; simpl length; lia]. constructor; [|done]. split; [lia|].
    apply (Forall_impl _ _ _ (to_fits _ Ht)). intros b (? & ? & ? & ?). pose proof (to_capacity _ Ht).
    unfold record_in_range. lia. }
  split_and!; [by destruct ps'|unfold vsize in *; rewrite length_fmap; lia|lia|]. by apply Forall_fmap.
Qed.

Lemma server_of_merged srv r layers layers' :
  Forall2 (merged_layer r) layers layers' -> server_of srv layers -> server_of srv layers'.
Proof.
  intros Hml [Hd Hl]. unfold server_of. rewrite Hd, Hl. clear Hd Hl.
  assert (forall A (f : list Placed -> A), (forall ps ps', Forall2 placed_same ps ps' -> f ps' = f ps) ->
    f <$> layers = f <$> layers') as Hf.
  { intros A f Hf. induction Hml as [|ps ps' layers layers' (Hs & _) _ IH]; [done|].
    rewrite !fmap_cons, IH. by rewrite (Hf ps ps'). }
  split; apply Hf; intros ps ps' Hs.
  - apply placed_same_fmap; [|done]. by intros p p' ((_ & -> & _) & _).
  - symmetry. by apply (Forall2_length _ _ _ Hs).
Qed.

(** C23: A whole RDMA transfer with the CRC check on, for any std::sort and any checksum
    function: after connecting and reading the server's memory handles, registering and
    sending every layer posts at most one batch per connection and layer, each write
    carrying the keys of the tensor its bytes belong to; in whatever order the bytes of the
    writes land, the server's tensors end as the registered copies of all layers would leave
    them, and flush succeeds (the request is parsed, the server's checksum of what arrived
    equals the sender's of what it read), while a failed write makes flush throw. *)
Theorem rdma_transfer_is_checked sort `{!StdSort sort} e c ctx srv hs layers data kind src dst reqid :
  rdma_ready e c ctx srv hs layers data kind -> 0 <= reqid < W64 ->
  exists c1 c2, rdma_register_data sort e true data kind c = Ok c1 /\
    forM (seqZ 0 (vsize layers)) (rdma_send_data ctx src) c1 = Ok c2 /\
    Forall (keyed layers) (concat (write_futs_ c2).*2) /\
    vsize (write_futs_ c2) <= vsize layers * chs_n c1 /\
    forall moves, moves ≡ₚ flat_map rw_bytes (concat (write_futs_ c2).*2) ->
      (forall a, exec_bytes src moves dst a = layers_copy src layers dst a) /\
      (forall outcomes, length outcomes = length (write_futs_ c2) ->
        if forallb (fun ok => ok) outcomes
        then exists c3, rdma_flush outcomes reqid (resp_remote_crc srv (exec_bytes src moves dst)) c2 = Ok c3 /\
          enable_crc_ c3 = true /\ data_ c3 = None /\ write_futs_ c3 = []
        else rdma_flush outcomes reqid (resp_remote_crc srv (exec_bytes src moves dst)) c2 = Err RuntimeError).
Proof.
  intros Hready Hreq. destruct (rdma_register_spec sort e c ctx srv hs layers data kind Hready)
    as (r & layers' & per & Hml & Hreg & Hchs & Hper & Hlr).
  set (c1 := set_data _ _ _) in *. destruct Hready as [Hne _ _ Hdis (_ & Hf & Hprev) (Hdl & Hmrs & _) _ _ Hat [Hsd Hsm]].
  pose proof (Forall2_length _ _ _ Hml) as Hlen. assert (vsize layers' = vsize layers) as Hv by (unfold vsize; by rewrite Hlen).
  destruct (send_layers_spec ctx src r layers' 0 c1) as (bss & Hok & Hbs); try done.
  { by rewrite Hv. }
  { cbn. by rewrite Hdl, Hmrs. }
  { intros i ps' Hi. destruct (Forall2_lookup_r _ _ _ _ _ Hml Hi) as (ps & Hi' & Hs & _).
    apply (layer_at_same _ _ _ ps); [done|]. cbn [Nat.add]. destruct (Hat i ps Hi'). by split. }
  rewrite Hv in Hok. set (c2 := posted_from _ _ _) in Hok. exists c1, c2.
  assert (write_futs_ c2 = concat bss) as Hw2 by (cbn; by rewrite Hf).
  rewrite Hw2. rewrite (layer_batches_writes _ _ _ Hbs), flat_map_writes.
  pose proof (layer_batches_count _ _ _ Hbs) as Hcount. rewrite Hv in Hcount.
  split; [done|]. split; [done|]. split; [by apply (writes_keyed r)|]. split; [done|].
  intros moves Hm. pose proof (merged_moves _ _ _ Hml) as Hmm.
  assert (NoDup moves.*2) as Hnd by (by rewrite Hm, Hmm). split.
  { intros a. rewrite layers_copy_moves. apply exec_bytes_perm; [done|]. by rewrite Hm, Hmm. }
  intros outcomes Ho. unfold rdma_flush. rewrite Hw2.
  assert (forM (zip (concat bss) outcomes) (fun f (_ : unit) => if f.2 then Ok tt else Err RuntimeError) tt =
    if forallb (fun ok => ok) outcomes then Ok tt else Err RuntimeError) as ->.
  { clear -Ho. revert Ho. generalize (concat bss). induction outcomes as [|o os IH]; intros [|b bs] Ho; try done.
    injection Ho as Ho. destruct o; [|done]. cbn [zip zip_with forM rbind snd forallb andb]. by apply IH. }
  destruct (forallb (fun ok => ok) outcomes); [|done]. cbn [rbind].
  assert (layers' <> [] /\ exists ps ps', merged_layer r ps ps') as (Hne' & ps & ps' & Hm0).
  { clear -Hml Hne. destruct Hml as [|x y l l' Hxy _]; [done|]. split; [done|]. by exists x, y. }
  destruct (merged_request r ps ps' Hm0) as (Hrd & Hrv & Hrc & Hrf).
  set (lcrc := layers_crc src t_src src_offset layers' (crc32_z 0 [])).
  assert (0 <= lcrc < W32) as Hlc by (apply layers_crc_range, Hcrc32).
  cbn [c2 posted_from set_posted set_crc enable_crc_ chs_n data_ crc_].
  rewrite cassert_true by (apply negb_true_iff, Z.eqb_neq; lia). cbn [rbind c1 set_data data_ crc_ set_crc].
  fold lcrc. rewrite crc_request_spec by done. cbn [rbind].
  rewrite (resp_remote_crc_spec srv (exec_bytes src moves dst) layers' (reg_data r)); try done.
  - cbn [rbind]. rewrite read_crc_reply_spec by done. cbn [rbind]. unfold rtassert. rewrite Z.eqb_refl. cbn [rbind].
    eexists. split; [done|]. done.
  - apply (server_of_merged srv r layers layers' Hml). by split.
  - by apply (merged_data r layers).
  - unfold lcrc. symmetry. by apply crc_agrees.
Qed.
End Rdma.

(** ** Example *)

(** Two layers of two tensors, three records of which two merge, over two connections. *)
Definition sample_placed (s1 d1 s2 d2 k : Z) : list Placed :=
  [mkPlaced (mkTensor [mkIpcBlock 8 32 8; mkIpcBlock 0 24 8; mkIpcBlock 32 0 4] s1 d1 64) (k + 1) (k + 11);
   mkPlaced (mkTensor [mkIpcBlock 3 1 5] s2 d2 16) (k + 2) (k + 12)].

Definition sample_layers : list (list Placed) :=
  [sample_placed 1000 5000 2000 7000 20; sample_placed 1100 5100 2100 7100 30].

Definition sample_data : list (list IpcBlock) :=
  [[mkIpcBlock 8 32 8; mkIpcBlock 0 24 8; mkIpcBlock 32 0 4]; [mkIpcBlock 3 1 5]].

Definition sample_ctx : CliCtx :=
  mkCliCtx [[(1000, 21); (2000, 22)]; [(1100, 31); (2100, 32)]]
    [[Some 1000; Some 2000]; [Some 1100; Some 2100]] [64; 16].

Definition sample_server : SrvCtx :=
  mkSrvCtx [[(5000, 31); (7000, 32)]; [(5100, 41); (7100, 42)]]
    [[Some 5000; Some 7000]; [Some 5100; Some 7100]].

Definition sample_handles : list RDMAMemHandle :=
  [mkHandle [5000; 7000] [31; 32]; mkHandle [5100; 7100] [41; 42]].

Definition sample_init : InitEnv :=
  mkInitEnv [] [Ok tt; Ok tt] 99
    (@resp_mem_handles debug_env sample_handles (rpc_header MEM_HANDLES_REQ_MAGIC 99)).

Definition sample_channel : RDMAChannel := set_target "10.0.0.1" 4000 [64; 16] 2 new_channel.

(** A checksum and a 32-bit length field. *)
Definition sample_crc (a : Z) (l : list Z) : Z := u32 (foldl (fun a x => 31 * a + x + 1) a l).

Lemma all_completed n : forallb (fun ok => ok) (replicate n true) = true.
Proof. induction n as [|n IH]; [done|exact IH]. Qed.

Lemma rdma_transfer_is_checked_witness :
  exists c1 c2,
    @rdma_register_data debug_env sample_crc (merge_sort src_le) sample_init true sample_data PEQD
      sample_channel = Ok c1 /\
    forM (seqZ 0 2) (@rdma_send_data debug_env sample_crc u32 sample_ctx (fun a => a)) c1 = Ok c2 /\
    vsize (write_futs_ c2) <= 2 * chs_n c1 /\
    exists c3, @rdma_flush debug_env (replicate (length (write_futs_ c2)) true) 100
      (resp_remote_crc sample_crc sample_server
        (exec_bytes (fun a => a) (flat_map rw_bytes (concat (write_futs_ c2).*2)) (fun _ => 0))) c2 = Ok c3.
Proof.
  destruct (@rdma_transfer_is_checked debug_env sample_crc u32 u32_small) with
    (sort := merge_sort src_le) (e := sample_init) (c := sample_channel) (ctx := sample_ctx)
    (srv := sample_server) (hs := sample_handles) (layers := sample_layers) (data := sample_data)
    (kind := PEQD) (src := fun a : Z => a) (dst := fun _ : Z => 0) (reqid := 100)
    as (c1 & c2 & Hreg & Hsend & _ & Hcnt & Hmoves).
  - intros a l. apply Z.mod_pos_bound. done.
  - apply _.
  - split.
    + done.
    + repeat (constructor; [split; [done|]; split; [done|]; split; [|split]|]); [| | | | | |constructor].
      1, 4: repeat (constructor; [split; [done|by repeat constructor|done| |done|done];
        apply (bool_decide_unpack _); vm_compute; exact I|]); constructor.
      1, 3: repeat (constructor; [split; [done|]; split; [done|];
        apply (bool_decide_unpack _); vm_compute; exact I|]); constructor.
      all: done.
    + by left.
    + apply (bool_decide_unpack _). vm_compute. exact I.
    + done.
    + done.
    + split_and!; [done|done|done|by repeat constructor].
    + split_and!; [done|done| |reflexivity]. by repeat constructor.
    + intros [|[|i]] ps Hi; [injection Hi as <-; split; try done; by eexists..|done].
    + done.
  - done.
  - exists c1, c2. split; [done|]. split; [done|]. split; [done|].
    destruct (Hmoves _ (reflexivity _)) as [_ Hflush].
    specialize (Hflush (replicate (length (write_futs_ c2)) true)). rewrite length_replicate in Hflush.
    specialize (Hflush eq_refl).
    rewrite all_completed in Hflush.
    destruct Hflush as (c3 & Hc3 & _). by exists c3.
Defined.

(** A request for one tensor, to a server with two per layer: the server disables the check,
    enables it again and then compares with the checksum of nothing. *)
Example mismatched_count_aborts_server :
  resp_remote_crc sample_crc sample_server (fun _ => 0)
    (request_wire 100 5 [[mkIpcBlock 0 0 4]]) = Err AssertFailed.
Proof. vm_compute. reflexivity. Qed.
