(* ===== verification/RdmaGroup.v ===== *)
(** [group_by_dst] of [src/rdma_channel.cpp]: records that are adjacent at the destination get
    the destination offset of the first of them, as the scatter lists of [WriteBySgList] want
    them. *)

From Stdlib Require Import Sorted.
From stdpp Require Import sorting.
From S2P Require Import Prelude.
From S2P Require Import Common.
From S2P Require Import Channel.

Definition set_dst (b : IpcBlock) (d : Z) : IpcBlock := mkIpcBlock (src_offset b) d (length_ b).

(** The loop: [start] is [input[prev_idx].dst_offset], which the loop does not change. *)
Fixpoint group_loop (start prev_end : Z) (st : MergeStats) (l : list IpcBlock) : res (list IpcBlock * MergeStats) :=
  match l with
  | [] => Ok ([], add_run st (u64 (prev_end - start)))
  | blk :: l =>
      if prev_end <? dst_offset blk then
        let* '(out, st) := group_loop (dst_offset blk) (u64 (length_ blk + dst_offset blk)) (add_run st (u64 (prev_end - start))) l in
        Ok (blk :: out, st)
      else if dst_offset blk =? prev_end then
        let* '(out, st) := group_loop start (u64 (prev_end + length_ blk)) st l in
        Ok (set_dst blk start :: out, st)
      else Err AssertFailed
  end.

Section Group.
Context `{Env}.

(** [sort] orders by destination offset. *)
Definition group_by_dst (sort : list IpcBlock -> list IpcBlock) (input : list IpcBlock) : res (list IpcBlock * MergeStats) :=
  assert: bool_decide (input <> []);
  match sort input with
  | [] => Err Undefined
  | b :: l =>
      let* '(out, st) := group_loop (dst_offset b) (u64 (length_ b + dst_offset b)) init_stats l in
      Ok (b :: out, st)
  end.
End Group.

(** ** What the groups stand for

    The comment of the code: the records of a group are written one after the other from its
    destination offset on. *)
Fixpoint written_from (start pos : Z) (l : list IpcBlock) : list IpcBlock :=
  match l with
  | [] => []
  | b :: l =>
      let d := if dst_offset b =? start then pos else dst_offset b in
      set_dst b d :: written_from (dst_offset b) (d + length_ b) l
  end.
Definition written_to (l : list IpcBlock) : list IpcBlock :=
  match l with [] => [] | b :: l => b :: written_from (dst_offset b) (dst_offset b + length_ b) l end.

(** Records in order, none reaching into the next. *)
Fixpoint disjoint_from (pos : Z) (l : list IpcBlock) : Prop :=
  match l with [] => True | b :: l => pos <= dst_offset b /\ disjoint_from (dst_offset b + length_ b) l end.

Definition in_width (b : IpcBlock) : Prop := 0 <= dst_offset b /\ 0 <= length_ b /\ dst_offset b + length_ b < W64.

Lemma set_dst_same b d : d = dst_offset b -> set_dst b d = b.
Proof. intros ->. by destruct b. Qed.

Definition lengths (l : list IpcBlock) : Z := foldr (fun b n => length_ b + n) 0 l.

Lemma lengths_nonneg l : Forall in_width l -> 0 <= lengths l.
Proof. induction 1 as [|b l (_ & ? & _) _ IH]; cbn; [done|]. unfold lengths in IH. lia. Qed.

Lemma group_loop_spec start prev_end st l :
  0 <= start <= prev_end -> prev_end < W64 -> Forall in_width l ->
  0 <= total_size st -> total_size st + (prev_end - start) + lengths l < W64 ->
  (disjoint_from prev_end l ->
    exists out st', group_loop start prev_end st l = Ok (out, st') /\ written_from start prev_end out = l /\
      total_size st' = total_size st + (prev_end - start) + lengths l) /\
  (~ disjoint_from prev_end l -> group_loop start prev_end st l = Err AssertFailed).
Proof.
  revert start prev_end st. induction l as [|b l IH]; intros start prev_end st Hs He Hl Ht Hsum; cbn [group_loop].
  { split; [|done]. intros _. do 2 eexists. split; [done|]. split; [done|]. cbn in *. rewrite !u64_small by (rewrite ?u64_small; lia). lia. }
  apply Forall_cons in Hl as [(Hb0 & Hb1 & Hb2) Hl]. pose proof (lengths_nonneg l Hl) as Hn. cbn [lengths foldr disjoint_from] in *. fold (lengths l) in *.
  destruct (Z.ltb_spec prev_end (dst_offset b)) as [Hlt|Hge].
  - destruct (IH (dst_offset b) (u64 (length_ b + dst_offset b)) (add_run st (u64 (prev_end - start)))) as [IHy IHn];
      [rewrite u64_small by lia; lia|rewrite u64_small by lia; lia|done|cbn; rewrite !u64_small by (rewrite ?u64_small; lia); lia|
       cbn; rewrite !u64_small by (rewrite ?u64_small; lia); lia|].
    rewrite (Z.add_comm (length_ b) (dst_offset b)), (u64_small (dst_offset b + _)) in * by lia. split.
    + intros [_ Hd]. destruct (IHy Hd) as (out & st' & -> & Hw & Hst). cbn [rbind]. do 2 eexists. split; [done|]. split.
      * cbn [written_from]. rewrite (proj2 (Z.eqb_neq _ _)) by lia. by rewrite set_dst_same, Hw.
      * rewrite Hst. cbn. rewrite !u64_small by (rewrite ?u64_small; lia). lia.
    + intros Hnd. rewrite IHn; [done|]. intros Hd. apply Hnd. split; [lia|done].
  - destruct (Z.eqb_spec (dst_offset b) prev_end) as [Heq|Hne].
    2: { split; [intros [? _]; lia|done]. }
    destruct (IH start (u64 (prev_end + length_ b)) st) as [IHy IHn];
      [rewrite u64_small by lia; lia|rewrite u64_small by lia; lia|done|done|rewrite u64_small by lia; lia|].
    rewrite (u64_small (prev_end + _)) in * by lia. rewrite <- Heq in *. split.
    + intros [_ Hd]. destruct (IHy Hd) as (out & st' & -> & Hw & Hst). cbn [rbind]. do 2 eexists. split; [done|]. split.
      * cbn [written_from dst_offset set_dst length_]. rewrite Z.eqb_refl, Hw. f_equal. unfold set_dst. cbn. by destruct b.
      * rewrite Hst. lia.
    + intros Hnd. rewrite IHn; [done|]. intros Hd. apply Hnd. split; [lia|done].
Qed.

(** Whatever order the sort gives records with equal offsets: when no record reaches into the
    next, the groups stand for the sorted records and their sizes add up to all bytes;
    otherwise the process is aborted. *)
Lemma group_by_dst_keeps_records `{Env} sort input b l :
  sort input = b :: l -> input <> [] -> Forall in_width (b :: l) -> lengths (b :: l) < W64 ->
  (disjoint_from 0 (b :: l) ->
    exists out st, group_by_dst sort input = Ok (out, st) /\ written_to out = sort input /\ total_size st = lengths (b :: l)) /\
  (~ disjoint_from 0 (b :: l) -> group_by_dst sort input = Err AssertFailed).
Proof.
  intros Hs Hne Hw Hsum. unfold group_by_dst. rewrite cassert_true by (by apply bool_decide_eq_true). cbn [rbind]. rewrite Hs.
  apply Forall_cons in Hw as [(Hb0 & Hb1 & Hb2) Hl]. pose proof (lengths_nonneg l Hl) as Hn. cbn [lengths foldr disjoint_from] in *. fold (lengths l) in *.
  rewrite (Z.add_comm (length_ b) (dst_offset b)), (u64_small (dst_offset b + _)) by lia.
  destruct (group_loop_spec (dst_offset b) (dst_offset b + length_ b) init_stats l) as [Hy Hno]; [lia|lia|done|done|cbn; lia|]. split.
  - intros [_ Hd]. destruct (Hy Hd) as (out & st & -> & Ho & Ht). cbn [rbind]. do 2 eexists. split; [done|]. split; [cbn [written_to]; by rewrite Ho|].
    rewrite Ht. cbn. lia.
  - intros Hd. rewrite Hno; [done|]. intros Hx. apply Hd. split; [done|done].
Qed.

Example grouped_records :
  @group_by_dst (Build_Env false false false 0) (fun l => l) [mkIpcBlock 5 0 4; mkIpcBlock 90 4 2; mkIpcBlock 20 8 8] =
    Ok ([mkIpcBlock 5 0 4; mkIpcBlock 90 0 2; mkIpcBlock 20 8 8], mkStats 6 8 14 2).
Proof. reflexivity. Qed.
