(* ===== verification/TcpChannel.v ===== *)
(** The whole TCP channel ([TCPChannel] of [src/tcp_channel.cpp]): connecting, allocating the
    host buffers, sending the layers of a task and waiting for the replies.  The wire format
    and the server are those of [TcpWire].

    Connecting, allocating and the outcomes of the requests are the transport's and are
    arguments.  A message is handed to the transport with its buffer and read when it is
    sent, so what arrives is what the buffers hold after all the layers were staged.  Time
    stamps and statistics of the log are left out. *)

From Stdlib Require Import Ascii.
From stdpp Require Import sorting.
From S2P Require Import Prelude.
From S2P Require Import Common.
From S2P Require Import CppString.
From S2P Require Import CopySpec.
From S2P Require Import Channel.
From S2P Require Import DeviceKernel.
From S2P Require Import CopyKernel.
From S2P Require Import TcpWire.
From S2P Require Import Rdma.

(** ** State *)

(** A buffer is its address and its length. *)
Record TCPChannel := mkTCPChannel {
  tc_ip : string;
  tc_port : Z;
  tc_dst_layer_blk_sizes : list Z;
  tc_dst_layer_num : Z;
  tc_prev_ch_idx : Z;
  tc_data : option Registered;
  tc_chs : Z;                          (* chs_.size() *)
  tc_host_buffers : list (Z * Z);
  tc_write_futs : list Z;              (* request ids *)
}.

Definition new_tcp_channel : TCPChannel := mkTCPChannel "" 0 [] 0 0 None 0 [] [].

(** A message handed to the transport: connection, address, length. *)
Definition Sent : Type := Z * (Z * Z).

Section TcpChannel.
Context `{Env}.

(** ** Connecting *)
Definition tcp_connect (ctx : CliCtx) (dst_info : WorkerInfo) (c : TCPChannel) : res TCPChannel :=
  match find ":"%char (addr dst_info) 0 with
  | None => Err RuntimeError
  | Some pos =>
      let* ip := substr (addr dst_info) 0 pos in
      let* port_str := substr (addr dst_info) (pos + 1) (String.length (addr dst_info)) in
      let* port := stoi port_str in
      let sizes := tc_dst_layer_blk_sizes c ++
        ((fun block_size => u64 (layer_num_blocks dst_info * block_size)) <$> block_sizes dst_info) in
      assert: (num_layers dst_info =? vsize (layer_mrs ctx));
      assertM: (match layer_mrs ctx with [] => Err OutOfRange | l :: _ => Ok (vsize sizes =? vsize l) end);
      Ok (mkTCPChannel ip port sizes (num_layers dst_info) (tc_prev_ch_idx c) (tc_data c) (tc_chs c)
            (tc_host_buffers c) (tc_write_futs c))
  end.

Definition set_chs (n : Z) (c : TCPChannel) : TCPChannel :=
  mkTCPChannel (tc_ip c) (tc_port c) (tc_dst_layer_blk_sizes c) (tc_dst_layer_num c) (tc_prev_ch_idx c)
    (tc_data c) n (tc_host_buffers c) (tc_write_futs c).

(** [do_init]: [active] tells which of the present connections are active, [connects] the
    outcome of each new one. *)
Definition tcp_do_init (ctx : CliCtx) (active : list bool) (connects : list (res unit)) (c : TCPChannel)
    : res TCPChannel :=
  if valid_channels active then
    assert: (vsize (layer_mrs ctx) =? tc_dst_layer_num c); Ok c
  else
    assert: (0 <? vsize connects);
    let* _ := forM connects (fun r (_ : unit) => r) tt in
    Ok (set_chs (vsize connects) c).

Definition is_active (active : list bool) : bool :=
  match active with [] => true | _ => valid_channels active end.

(** ** Registering *)

(** The size of the buffer of one layer. *)
Definition message_bytes (r : Registered) : Z :=
  let header_bytes := RPC_HEADER + 8 + 8 in
  let body_bytes := foldl (fun n x => u64 (n + 8 + vsize x.1 * SIZEOF_IPC_BLOCK + 8 + x.2)) 0
                      (zip (reg_data r) (tensor_send_bytes_ r)) in
  u64 (header_bytes + body_bytes).

Definition set_turn (prev : Z) (c : TCPChannel) : TCPChannel :=
  mkTCPChannel (tc_ip c) (tc_port c) (tc_dst_layer_blk_sizes c) (tc_dst_layer_num c) prev
    (tc_data c) (tc_chs c) (tc_host_buffers c) (tc_write_futs c).

(** [ch] and [sch]: the next connection in turn, counted by an int. *)
Definition next_connection (c : TCPChannel) : res (Z * TCPChannel) :=
  if CHANNEL_INT_MAX <=? tc_prev_ch_idx c then Err Undefined
  else if tc_chs c =? 0 then Err Undefined
  else Ok ((tc_prev_ch_idx c + 1) mod tc_chs c, set_turn (tc_prev_ch_idx c + 1) c).

(** The host buffers, one per layer; each request takes the next connection in turn.
    [alloc i n]: the answer to the [i]-th request for a host buffer of [n] bytes.  The log line
    behind the loop divides by the number of layers. *)
Definition alloc_buffers (alloc : Z -> Z -> option (Z * Z)) (layers total_bytes : Z) (c : TCPChannel)
    : res (list (Z * Z) * TCPChannel) :=
  let* s := forM (seqZ 0 layers) (fun i s =>
    let '(bufs, c) := s in
    let* '(_, c) := next_connection c in
    match alloc i total_bytes with
    | None => Err RuntimeError
    | Some (buf, len) =>
        if buf =? 0 then Err RuntimeError
        else if len <? total_bytes then Err RuntimeError
        else Ok (bufs ++ [(buf, len)], c)
    end) ([], c) in
  if layers =? 0 then Err Undefined else Ok s.

Definition set_registered (r : option Registered) (bufs : list (Z * Z)) (c : TCPChannel) : TCPChannel :=
  mkTCPChannel (tc_ip c) (tc_port c) (tc_dst_layer_blk_sizes c) (tc_dst_layer_num c) (tc_prev_ch_idx c)
    r (tc_chs c) bufs (tc_write_futs c).

(** [register_data]; the total is doubled for a conversion, which keeps it positive or zero. *)
Definition tcp_register_data (sort : list IpcBlock -> list IpcBlock) (ctx : CliCtx) (active : list bool)
    (connects : list (res unit)) (alloc : Z -> Z -> option (Z * Z)) (data : list (list IpcBlock))
    (kind : TPKind) (c : TCPChannel) : res TCPChannel :=
  assert: negb (vsize data =? 0);
  assert: (match tc_data c with None => true | Some _ => false end);
  let* c := tcp_do_init ctx active connects c in
  let* r := register_data sort data kind in
  let use_fp8 := env_bf162fp8_conversion && negb (1 <? vsize data) in
  let sb_size_total := if use_fp8 then u64 (sb_size_total_ r * 2) else sb_size_total_ r in
  let* '(bufs, c) :=
    match tc_host_buffers c with
    | [] => if 0 <? sb_size_total then alloc_buffers alloc (tc_dst_layer_num c) (message_bytes r) c else Ok ([], c)
    | bufs => Ok (bufs, c)
    end in
  assert: (vsize bufs =? tc_dst_layer_num c);
  Ok (set_registered (Some r) bufs c).

(** ** Sending *)

(** The last buffer has gone to the transport; the reply to [reqid] is waited for. *)
Definition sent_layer (reqid : Z) (c : TCPChannel) : TCPChannel :=
  mkTCPChannel (tc_ip c) (tc_port c) (tc_dst_layer_blk_sizes c) (tc_dst_layer_num c) (tc_prev_ch_idx c)
    (tc_data c) (tc_chs c) (take (length (tc_host_buffers c) - 1) (tc_host_buffers c))
    (tc_write_futs c ++ [reqid]).

Definition tcp_send_data (d : Device) (ctx : CliCtx) (reqid layer_idx : Z) (s : TCPChannel * Mem * list Sent)
    : res (TCPChannel * Mem * list Sent) :=
  let '(c, m, net) := s in
  assert: (layer_idx <? tc_dst_layer_num c);
  assert: (tc_dst_layer_num c =? vsize (layer_mrs ctx));
  assert: (match tc_data c with None => false | Some _ => true end);
  match tc_data c with
  | None => Err Undefined
  | Some r =>
      let* src_mrs := vec_idx (layer_mrs ctx) layer_idx in
      match last (tc_host_buffers c) with
      | None => Err Undefined
      | Some (base, buf_len) =>
          let* '(m, total_send_size) := send_data d r src_mrs.*1 base reqid layer_idx m in
          assert: (vsize (tc_host_buffers c) =? u64 (tc_dst_layer_num c - layer_idx));
          assert: (total_send_size <=? buf_len);
          let* '(idx, c) := next_connection c in
          Ok (sent_layer reqid c, m, net ++ [(idx, (base, total_send_size))])
      end
  end.

(** ** Waiting *)
Definition set_futs (futs : list Z) (c : TCPChannel) : TCPChannel :=
  mkTCPChannel (tc_ip c) (tc_port c) (tc_dst_layer_blk_sizes c) (tc_dst_layer_num c) (tc_prev_ch_idx c)
    None (tc_chs c) (tc_host_buffers c) futs.

(** [flush]: [outcomes] is what each future gives, in order; a request that timed out has been
    failed by [on_send_error] before.  The first failure leaves the futures where they are. *)
Definition tcp_flush (outcomes : list (res unit)) (c : TCPChannel) : TCPChannel * res unit :=
  match forM (zip (tc_write_futs c) outcomes) (fun f (_ : unit) => f.2) tt with
  | Err e => (set_futs (tc_write_futs c) c, Err e)
  | Ok _ => (set_futs [] c, cassert (vsize (tc_host_buffers c) =? 0))
  end.

(** ** The server at work *)

(** The messages of a list reach the server one after the other, each in a buffer at [in_buf]. *)
Definition tcp_serve (d : Device) (info : TCPInfo) (in_buf : Z) (messages : list (list Z)) (m : Mem) : res Mem :=
  forM messages (fun msg m =>
    let* o := handle_kv_cache_data d info in_buf (vsize msg) (write_host in_buf msg m) in
    match o with Replied m => Ok m | _ => Err RuntimeError end) m.

(** What the transport reads of a message. *)
Definition message (m : Mem) (s : Sent) : list Z := read (host m) s.2.1 s.2.2.

(** ** Sizes *)
Definition body_bytes (ts : list Tensor) : Z :=
  foldr (fun t n => 16 + vsize (t_blocks t) * SIZEOF_IPC_BLOCK + sum_length (t_blocks t) + n) 0 ts.

Lemma body_bytes_nonneg ts : Forall tensor_ok ts -> 0 <= body_bytes ts.
Proof.
  unfold body_bytes. induction 1 as [|t ts Ht _ IH]; [done|]. simpl. pose proof (tensor_counts _ Ht).
  unfold SIZEOF_IPC_BLOCK in *. lia.
Qed.

(** A bound that merging records keeps. *)
Definition room_for (ts : list Tensor) : Z := 28 + 16 * vsize ts + (SIZEOF_IPC_BLOCK + 1) * layer_bytes ts.

Lemma body_bytes_le ts : Forall tensor_ok ts -> 28 + body_bytes ts <= room_for ts.
Proof.
  unfold room_for, body_bytes, layer_bytes, SIZEOF_IPC_BLOCK. induction 1 as [|t ts Ht _ IH]; [done|].
  pose proof (tensor_counts _ Ht). unfold vsize in *. cbn [foldr length]. lia.
Qed.

Lemma same_copies_room ts ts' :
  Forall tensor_ok ts -> Forall tensor_ok ts' -> Forall2 same_copies ts ts' -> room_for ts' = room_for ts.
Proof.
  intros Hts Hts' Hs. unfold room_for, layer_bytes. pose proof (Forall2_length _ _ _ Hs) as Hl. unfold vsize. rewrite Hl.
  f_equal. f_equal. clear Hl. revert Hts Hts'. induction Hs as [|t t' ts ts' (_ & _ & _ & Hp) _ IH]; [done|].
  intros [Ht Hts]%Forall_cons [Ht' Hts']%Forall_cons. cbn [foldr]. rewrite IH by done. f_equal.
  rewrite !sum_length_bytes by (eapply fits_blocks_ok, to_fits; done). unfold vsize. by rewrite Hp.
Qed.

Lemma vsize_wire g reqid i ts : Forall tensor_ok ts -> vsize (wire g reqid i ts) = 28 + body_bytes ts.
Proof.
  intros Hts. unfold wire. rewrite !vsize_app, !vsize_le_bytes.
  assert (vsize (flat_map (fun t => tensor_wire g (t_blocks t) (t_src t)) ts) = body_bytes ts) as ->; [|lia].
  unfold body_bytes. induction Hts as [|t ts Ht _ IH]; [done|]. cbn [flat_map foldr].
  rewrite vsize_app, IH, vsize_tensor_wire; [lia|]. apply (fits_blocks_ok (t_capacity t)), Ht.
Qed.

Lemma message_bytes_spec r ts :
  Forall tensor_ok ts -> registered_layer ts r -> 28 + body_bytes ts < W64 -> message_bytes r = 28 + body_bytes ts.
Proof.
  intros Hts [Hd Hb _ _] Hlt. unfold message_bytes. rewrite Hd, Hb.
  assert (Hf : forall n, 0 <= n -> n + body_bytes ts < W64 ->
    foldl (fun n (x : list IpcBlock * Z) => u64 (n + 8 + vsize x.1 * SIZEOF_IPC_BLOCK + 8 + x.2)) n
      (zip (t_blocks <$> ts) ((fun t => sum_length (t_blocks t)) <$> ts)) = n + body_bytes ts).
  { clear -Hts. induction Hts as [|t ts Ht Hts IH]; intros n Hn Hlt; [simpl; lia|].
    rewrite !fmap_cons. cbn [zip zip_with foldl fst snd]. pose proof (tensor_counts _ Ht).
    pose proof (body_bytes_nonneg _ Hts). unfold body_bytes in *. cbn [foldr] in *. fold (body_bytes ts) in *.
    unfold SIZEOF_IPC_BLOCK in *. rewrite u64_small by lia. rewrite IH by lia. lia. }
  rewrite Hf by (unfold W64 in *; lia). pose proof (body_bytes_nonneg _ Hts). unfold RPC_HEADER. rewrite u64_small by lia. lia.
Qed.

(** ** Sending the layers *)

(** Memory that [write] leaves alone. *)
Lemma write_out m a l x : x < a \/ a + vsize l <= x -> write m a l x = m x.
Proof.
  intros Hx. unfold write. destruct (Z.leb_spec a x), (Z.ltb_spec x (a + vsize l)); try done. lia.
Qed.

Lemma wire_ext g g' reqid i ts : (forall a, g a = g' a) -> wire g reqid i ts = wire g' reqid i ts.
Proof.
  intros Hg. unfold wire. do 4 f_equal. induction ts as [|t ts IH]; [done|]. cbn [flat_map]. rewrite IH. f_equal.
  unfold tensor_wire. do 3 f_equal. by apply blob_ext.
Qed.

Lemma holds_ext m m' a l : (forall x, a <= x < a + vsize l -> m' x = m x) -> holds m a l -> holds m' a l.
Proof.
  intros Hm Hl i x Hi. rewrite Hm; [by apply Hl|]. apply lookup_lt_Some in Hi. unfold vsize. lia.
Qed.

(** A layer of a task on its way: what is sent of it, and the buffer it is staged in. *)
Record Staged := mkStaged {
  sl_index : nat;
  sl_tensors : list Tensor;
  sl_reqid : Z;
  sl_base : Z;
  sl_room : Z;
}.

Definition staged_wire (g : memory) (x : Staged) : list Z := wire g (sl_reqid x) (Z.of_nat (sl_index x)) (sl_tensors x).

Definition staged_buffer (x : Staged) : Z * Z := (sl_base x, sl_room x).

Definition apart_buffers (x y : Staged) : Prop :=
  sl_base x + sl_room x <= sl_base y \/ sl_base y + sl_room y <= sl_base x.

(** What sending a layer needs to know of it. *)
Record sendable (ctx : CliCtx) (r : Registered) (x : Staged) : Prop := {
  sd_tensors : Forall tensor_ok (sl_tensors x) /\ sl_tensors x <> [] /\ raw_layer (sl_tensors x);
  sd_registered : registered_layer (sl_tensors x) r;
  sd_mrs : exists mrs, layer_mrs ctx !! sl_index x = Some mrs /\ mrs.*1 = t_src <$> sl_tensors x;
  sd_room : 28 + body_bytes (sl_tensors x) <= sl_room x;
}.

Lemma last_rev {A} (x : A) l : last (rev (x :: l)) = Some x.
Proof. cbn [rev]. apply last_snoc. Qed.

Lemma take_rev {A} (x : A) l : take (length (rev (x :: l)) - 1) (rev (x :: l)) = rev l.
Proof.
  cbn [rev]. rewrite length_app. cbn [length]. replace (length (rev l) + 1 - 1)%nat with (length (rev l)) by lia.
  apply take_app_length.
Qed.

Lemma tcp_send_data_spec d ctx r x rest c m net :
  device_ok d -> sendable ctx r x -> tc_data c = Some r -> tc_host_buffers c = rev (staged_buffer x :: rest) ->
  tc_dst_layer_num c = vsize (layer_mrs ctx) -> vsize (layer_mrs ctx) < W64 ->
  vsize rest + 1 = tc_dst_layer_num c - Z.of_nat (sl_index x) ->
  0 < tc_chs c -> tc_prev_ch_idx c < CHANNEL_INT_MAX ->
  exists m' idx, tcp_send_data d ctx (sl_reqid x) (Z.of_nat (sl_index x)) (c, m, net) =
      Ok (sent_layer (sl_reqid x) (set_turn (tc_prev_ch_idx c + 1) c), m', net ++ [(idx, (sl_base x, vsize (staged_wire (gpu m) x)))]) /\
    0 <= idx < tc_chs c /\
    (forall a, host m' a = write (host m) (sl_base x) (staged_wire (gpu m) x) a) /\
    (forall a, gpu m' a = gpu m a).
Proof.
  intros Hd [(Hts & Hne & Hraw) Hr (mrs & Hmrs & Hsrc) Hroom] Hdata Hb Hn Hw Hrest Hchs Hprev.
  pose proof (vsize_nonneg rest) as Hr0. unfold tcp_send_data.
  rewrite cassert_true by (apply Z.ltb_lt; lia). cbn [rbind].
  rewrite cassert_true by (by apply Z.eqb_eq). cbn [rbind]. rewrite Hdata, cassert_true by done. cbn [rbind].
  rewrite (vec_idx_Some _ _ mrs) by (lia || by rewrite Nat2Z.id). cbn [rbind].
  rewrite Hb, last_rev. cbn [staged_buffer]. rewrite Hsrc.
  destruct (send_data_spec d (sl_tensors x) r (sl_base x) (sl_reqid x) (Z.of_nat (sl_index x)) m Hd Hne Hts Hraw Hr)
    as (m' & Hok & Hh & Hg).
  rewrite Hok. cbn [rbind]. fold (staged_wire (gpu m) x).
  assert (Hvr : vsize (rev (staged_buffer x :: rest)) = vsize rest + 1).
  { unfold vsize. rewrite length_rev. cbn [length]. lia. }
  rewrite <- Hb, Hb, Hvr, u64_small by lia. rewrite cassert_true by (apply Z.eqb_eq; lia). cbn [rbind].
  rewrite cassert_true by (apply Z.leb_le; unfold staged_wire; rewrite vsize_wire by done; lia). cbn [rbind].
  unfold next_connection. rewrite (proj2 (Z.leb_gt _ _)) by lia. rewrite (proj2 (Z.eqb_neq _ _)) by lia. cbn [rbind].
  exists m', ((tc_prev_ch_idx c + 1) mod tc_chs c). split; [done|]. split; [apply Z.mod_pos_bound; lia|done].
Qed.

(** Layers staged from [i] on, in buffers that do not overlap. *)
Record sequence (reqid_of : Z -> Z) (i : nat) (items : list Staged) : Prop := {
  sq_index k x : items !! k = Some x -> sl_index x = (i + k)%nat;
  sq_reqid : Forall (fun x => sl_reqid x = reqid_of (Z.of_nat (sl_index x))) items;
  sq_apart j k x y : j <> k -> items !! j = Some x -> items !! k = Some y -> apart_buffers x y;
}.

Lemma sequence_tail reqid_of i x items : sequence reqid_of i (x :: items) ->
  sl_index x = i /\ sl_reqid x = reqid_of (Z.of_nat i) /\ Forall (apart_buffers x) items /\ sequence reqid_of (S i) items.
Proof.
  intros [Hi Hr Ha]. apply Forall_cons in Hr as [Hr Hrs]. pose proof (Hi 0%nat x eq_refl) as Hx.
  rewrite Nat.add_0_r in Hx. split_and!; [done|by rewrite Hr, Hx| |].
  - apply Forall_lookup. intros k y Hy. by apply (Ha 0%nat (S k)).
  - constructor; [|done|].
    + intros k y Hy. rewrite (Hi (S k) y Hy). lia.
    + intros j k y z Hjk Hy Hz. apply (Ha (S j) (S k)); [lia|done..].
Qed.

(** After the layers were sent: the channel, the memory and what was handed over. *)
Record after_sends (r : Registered) (items : list Staged) (c : TCPChannel) (m : Mem)
    (c' : TCPChannel) (m' : Mem) (sent : list Sent) : Prop := {
  as_sent : sent.*2 = (fun x => (sl_base x, vsize (staged_wire (gpu m) x))) <$> items;
  as_connections : Forall (fun s : Sent => 0 <= s.1 < tc_chs c) sent;
  as_buffers : tc_host_buffers c' = [];
  as_futs : tc_write_futs c' = tc_write_futs c ++ (sl_reqid <$> items);
  as_turns : tc_prev_ch_idx c' = tc_prev_ch_idx c + vsize items;
  as_gpu a : gpu m' a = gpu m a;
  as_staged : Forall (fun x => holds (host m') (sl_base x) (staged_wire (gpu m) x)) items;
  as_frame a : Forall (fun x => a < sl_base x \/ sl_base x + sl_room x <= a) items -> host m' a = host m a;
}.

Lemma tcp_sends_spec reqid_of d ctx r items i c m net :
  device_ok d -> Forall (sendable ctx r) items -> sequence reqid_of i items ->
  tc_data c = Some r -> tc_host_buffers c = rev (staged_buffer <$> items) ->
  tc_dst_layer_num c = vsize (layer_mrs ctx) -> vsize (layer_mrs ctx) < W64 ->
  tc_dst_layer_num c = Z.of_nat i + vsize items ->
  0 < tc_chs c -> tc_prev_ch_idx c + vsize items <= CHANNEL_INT_MAX ->
  exists c' m' sent, forM (seqZ (Z.of_nat i) (vsize items)) (fun i => tcp_send_data d ctx (reqid_of i) i) (c, m, net) =
      Ok (c', m', net ++ sent) /\ after_sends r items c m c' m' sent.
Proof.
  intros Hd Hs. revert i c m net. induction Hs as [|x items Hx Hs IH]; intros i c m net Hq Hdata Hb Hn Hw Hni Hchs Hprev.
  { exists c, m, []. split; [by rewrite app_nil_r|].
    constructor; try rewrite app_nil_r; try done. unfold vsize. cbn. lia. }
  apply sequence_tail in Hq as (Hxi & Hxr & Hap & Hq). pose proof (vsize_nonneg items) as Hv0.
  assert (Hv : vsize (x :: items) = 1 + vsize items) by (unfold vsize; cbn [length]; lia). rewrite Hv in *.
  rewrite seqZ_cons by lia. cbn [forM]. rewrite <- Hxr, <- Hxi.
  destruct (tcp_send_data_spec d ctx r x (staged_buffer <$> items) c m net) as (m1 & idx & Hok & Hidx & Hh & Hg); try done.
  { unfold vsize in *. rewrite length_fmap. lia. } { lia. }
  rewrite Hok. cbn [rbind]. set (c1 := sent_layer _ _) in *.
  destruct (IH (S i) c1 m1 (net ++ [(idx, (sl_base x, vsize (staged_wire (gpu m) x)))])) as (c2 & m2 & sent & Hok2 & Ha);
    try done; cbn [c1 sent_layer set_turn tc_host_buffers tc_prev_ch_idx tc_dst_layer_num tc_chs].
  { rewrite Hb. apply take_rev. } { lia. } { lia. }
  replace (Z.succ (Z.of_nat (sl_index x))) with (Z.of_nat (S i)) by lia.
  replace (Z.pred (1 + vsize items)) with (vsize items) by lia. rewrite Hok2, <- app_assoc.
  exists c2, m2, ((idx, (sl_base x, vsize (staged_wire (gpu m) x))) :: sent). split; [done|].
  assert (He : forall y, staged_wire (gpu m1) y = staged_wire (gpu m) y) by (intros y; by apply wire_ext).
  destruct Ha as [A1 A2 A3 A4 At A5 A6 A7]. destruct Hx as [(Hts & _) _ _ Hroom].
  assert (Hlen : vsize (staged_wire (gpu m) x) <= sl_room x) by (unfold staged_wire; rewrite vsize_wire by done; lia).
  constructor; [| |done| | | | |].
  - rewrite !fmap_cons, A1. f_equal. apply list_fmap_ext. intros ? y _. by rewrite He.
  - by constructor.
  - rewrite A4. cbn. by rewrite <- app_assoc.
  - rewrite At, Hv. cbn [c1 sent_layer set_turn tc_prev_ch_idx]. lia.
  - intros a. by rewrite A5.
  - constructor; [|eapply Forall_impl; [exact A6|]; intros y Hy; cbn beta in *; by rewrite <- He].
    apply (holds_ext (host m1)); [|apply (holds_ext (write (host m) (sl_base x) (staged_wire (gpu m) x))); [done|apply write_holds]].
    intros a Ha. apply A7. eapply Forall_impl; [exact Hap|]. unfold apart_buffers. intros y Hy. cbn in Hy. lia.
  - intros a [Hax Hai]%Forall_cons. rewrite A7, Hh by done. apply write_out. lia.
Qed.

(** ** Serving the messages *)
Definition moves_of (x : Staged) : list (Z * Z) := flat_map tensor_moves (sl_tensors x).

Record servable (info : TCPInfo) (in_buf : Z) (x : Staged) : Prop := {
  sv_tensors : Forall tensor_ok (sl_tensors x) /\ vsize (sl_tensors x) < W64;
  sv_ptrs : ptrs info !! sl_index x = Some (t_dst <$> sl_tensors x);
  sv_sizes : layer_blk_sizes info = t_capacity <$> sl_tensors x;
  sv_index : Z.of_nat (sl_index x) < W64;
  sv_room : in_buf + (28 + body_bytes (sl_tensors x)) < W64;
}.

Lemma tcp_serve_spec d info in_buf g items m :
  device_ok d -> 0 <= in_buf -> Forall (servable info in_buf) items ->
  exists m', tcp_serve d info in_buf (staged_wire g <$> items) m = Ok m' /\
    forall a, gpu m' a = exec_bytes g (flat_map moves_of items) (gpu m) a.
Proof.
  intros Hd Hb Hs. revert m. induction Hs as [|x items [[Hts Hv] Hp Hc Hi Hr] _ IH]; intros m; [by exists m|].
  unfold tcp_serve. rewrite fmap_cons. cbn [forM].
  destruct (handle_spec d g (sl_tensors x) info (sl_index x) (sl_reqid x) in_buf
    (write_host in_buf (staged_wire g x) m)) as (m1 & Hok & _ & Hg); try done.
  { apply write_holds. } { by rewrite vsize_wire. }
  fold (staged_wire g x) in Hok. rewrite Hok. cbn [rbind].
  destruct (IH m1) as (m2 & Hok2 & Hg2). exists m2. split; [exact Hok2|]. intros a. rewrite Hg2. cbn [flat_map].
  rewrite exec_bytes_app. apply exec_bytes_ext; [done|]. intros x'. rewrite Hg, layer_copy_exec. done.
Qed.

(** ** A whole task *)

(** The buffers the transport hands out are large enough and do not overlap. *)
Record alloc_ok (alloc : Z -> Z -> option (Z * Z)) (n total : Z) : Prop := {
  ao_some i : 0 <= i < n -> exists buf, alloc i total = Some buf /\ buf.1 <> 0 /\ total <= buf.2;
  ao_apart i j b b' : 0 <= i < n -> 0 <= j < n -> i <> j -> alloc i total = Some b -> alloc j total = Some b' ->
    b.1 + b.2 <= b'.1 \/ b'.1 + b'.2 <= b.1;
}.

Lemma alloc_buffers_spec alloc n total c :
  alloc_ok alloc n total -> 0 < n -> 0 < tc_chs c -> tc_prev_ch_idx c + n <= CHANNEL_INT_MAX ->
  exists bufs, alloc_buffers alloc n total c = Ok (bufs, set_turn (tc_prev_ch_idx c + n) c) /\
    Forall2 (fun i buf => alloc i total = Some buf /\ total <= buf.2) (seqZ 0 n) bufs.
Proof.
  intros Ha Hn Hch Hturns. destruct (forall2_choice (fun i buf => alloc i total = Some buf /\ buf.1 <> 0 /\ total <= buf.2) (seqZ 0 n))
    as (bufs & Hbufs).
  { intros i Hi%elem_of_seqZ. apply (ao_some _ _ _ Ha). lia. }
  exists bufs. split; [|eapply Forall2_impl; [exact Hbufs|]; naive_solver].
  unfold alloc_buffers.
  set (step := fun k : nat => set_turn (tc_prev_ch_idx c + Z.of_nat k) c).
  assert (Hc : c = step 0%nat) by (unfold step; rewrite Z.add_0_r; by destruct c).
  rewrite Hc at 1. rewrite (forM_turns _ step _ _ _ _ _ Hbufs).
  - cbn [rbind]. rewrite (proj2 (Z.eqb_neq _ _)) by lia. do 3 f_equal. unfold step. rewrite length_seqZ. f_equal. lia.
  - rewrite length_seqZ. intros k i [b l] acc Hk (Hs & Hb & Hl). cbn in Hb, Hl. unfold next_connection, step. cbn [set_turn tc_prev_ch_idx tc_chs].
    rewrite (proj2 (Z.leb_gt _ _)), (proj2 (Z.eqb_neq (tc_chs c) 0)) by lia. cbn [rbind].
    rewrite Hs, (proj2 (Z.eqb_neq _ _)), (proj2 (Z.ltb_ge _ _)) by lia.
    by replace (tc_prev_ch_idx c + Z.of_nat (S k)) with (tc_prev_ch_idx c + Z.of_nat k + 1) by lia.
Qed.

(** The destination, the source and the buffers of the layers of a task. *)
Record tcp_ready (ctx : CliCtx) (active : list bool) (connects : list (res unit))
    (alloc : Z -> Z -> option (Z * Z)) (data : list (list IpcBlock)) (kind : TPKind) (info : TCPInfo)
    (layers : list (list Tensor)) (in_buf : Z) (c : TCPChannel) : Prop := {
  tr_nonempty : data <> [] /\ layers <> [] /\ vsize data < W64 /\ vsize layers < W64;
  tr_tensors : Forall (fun ts => Forall tensor_ok ts /\ t_blocks <$> ts = data) layers;
  tr_raw : env_bf162fp8_conversion && (vsize data =? 1) = false;
  tr_kind : kind = PEQD \/ vsize data = 1;
  tr_bytes : 0 <= in_buf /\ Forall (fun ts => layer_bytes ts < W64 /\ in_buf + room_for ts < W64) layers;
  tr_disjoint : NoDup (flat_map (flat_map tensor_moves) layers).*2;
  tr_idle : tc_data c = None /\ tc_write_futs c = [] /\ tc_host_buffers c = [];
  tr_connected : (valid_channels active = true /\ 0 < tc_chs c) \/
    (valid_channels active = false /\ connects <> [] /\ Forall (fun r => r = Ok tt) connects);
  tr_turns : tc_prev_ch_idx c + 2 * vsize layers <= CHANNEL_INT_MAX;
  tr_count : tc_dst_layer_num c = vsize layers /\ vsize (layer_mrs ctx) = vsize layers;
  tr_source i ts : layers !! i = Some ts -> exists mrs, layer_mrs ctx !! i = Some mrs /\ mrs.*1 = t_src <$> ts;
  tr_server i ts : layers !! i = Some ts -> ptrs info !! i = Some (t_dst <$> ts) /\ layer_blk_sizes info = t_capacity <$> ts;
  tr_alloc : forall total, 0 <= total < W64 -> alloc_ok alloc (vsize layers) total;
}.

(** What registering makes of a layer. *)
Definition merged_tensors (r : Registered) (ts ts' : list Tensor) : Prop :=
  registered_layer ts' r /\ Forall tensor_ok ts' /\ Forall2 same_copies ts ts'.

Lemma same_copies_moves ts ts' : Forall2 same_copies ts ts' -> flat_map tensor_moves ts' ≡ₚ flat_map tensor_moves ts.
Proof.
  induction 1 as [|t t' ts ts' (Es & Ed & _ & Hp) _ IH]; [done|]. cbn [flat_map]. apply Permutation_app; [|done].
  unfold tensor_moves. rewrite !bytes_of_shift, Es, Ed. by rewrite Hp.
Qed.

Lemma merged_tensor_moves r layers layers' :
  Forall2 (merged_tensors r) layers layers' ->
  flat_map (flat_map tensor_moves) layers' ≡ₚ flat_map (flat_map tensor_moves) layers.
Proof.
  induction 1 as [|ts ts' ls ls' (_ & _ & Hs) _ IH]; [done|]. cbn [flat_map].
  apply Permutation_app; [by apply same_copies_moves|done].
Qed.

Section Task.
Context (sort : list IpcBlock -> list IpcBlock) `{!StdSort sort}.
Context (ctx : CliCtx) (active : list bool) (connects : list (res unit)) (alloc : Z -> Z -> option (Z * Z)).
Context (data : list (list IpcBlock)) (kind : TPKind) (info : TCPInfo) (layers : list (list Tensor)) (in_buf : Z).
Context (c : TCPChannel) (Hready : tcp_ready ctx active connects alloc data kind info layers in_buf c).
Context (reqid_of : Z -> Z).

Lemma vsize_layer ts : ts ∈ layers -> vsize ts = vsize data.
Proof.
  intros Hin. destruct Hready as [_ Ht _ _ _ _ _ _ _ _ _ _ _]. rewrite Forall_forall in Ht.
  destruct (Ht ts Hin) as [_ <-]. unfold vsize. by rewrite length_fmap.
Qed.

Lemma tcp_merged : exists r layers', register_data sort data kind = Ok r /\ Forall2 (merged_tensors r) layers layers'.
Proof.
  destruct Hready as [(Hd & Hne & _) Ht _ Hk [_ Hb] _ _ _ _ _ _ _ _].
  rewrite Forall_forall in Ht, Hb.
  assert (Hall : forall ts, ts ∈ layers -> exists ts' r, register_data sort data kind = Ok r /\ merged_tensors r ts ts').
  { intros ts Hin. destruct (Ht ts Hin) as [Hts Hdata]. pose proof (vsize_layer ts Hin) as Hv.
    destruct (register_data_spec sort ts kind) as (ts' & r & Hr & Hl & Hok & Hs); [by destruct ts; subst data| | | |].
    { done. } { apply Hb. done. } { by rewrite Hv. } rewrite Hdata in Hr. by exists ts', r. }
  destruct layers as [|ts0 rest]; [done|]. destruct (Hall ts0) as (ts0' & r & Hr & _); [set_solver|]. exists r.
  destruct (forall2_choice (merged_tensors r) (ts0 :: rest)) as (layers' & Hl); [|by exists layers'].
  intros ts Hin. destruct (Hall ts Hin) as (ts' & r' & Hr' & Hm). rewrite Hr in Hr'. injection Hr' as <-. by exists ts'.
Qed.

Lemma tcp_init_spec : exists c0, tcp_do_init ctx active connects c = Ok c0 /\ 0 < tc_chs c0 /\
  tc_dst_layer_num c0 = vsize layers /\ tc_prev_ch_idx c0 = tc_prev_ch_idx c /\
  tc_host_buffers c0 = [] /\ tc_write_futs c0 = [].
Proof.
  destruct Hready as [_ _ _ _ _ _ (_ & Hf & Hb) Hc _ [Hn Hm] _ _ _]. unfold tcp_do_init.
  destruct Hc as [[Hv Hch]|(Hv & Hne & Hall)]; rewrite Hv.
  - rewrite cassert_true by (apply Z.eqb_eq; lia). by exists c.
  - assert (0 < vsize connects) by (unfold vsize; destruct connects; [done|cbn; lia]).
    rewrite cassert_true by (by apply Z.ltb_lt). cbn [rbind].
    rewrite forM_unit by done. cbn [rbind]. by exists (set_chs (vsize connects) c).
Qed.

(** The layers in their buffers: the last buffer takes the first layer. *)
Definition stage (k : nat) (tb : list Tensor * (Z * Z)) : Staged :=
  mkStaged k tb.1 (reqid_of (Z.of_nat k)) tb.2.1 tb.2.2.
Definition stage_all (layers' : list (list Tensor)) (bufs : list (Z * Z)) : list Staged :=
  imap stage (zip layers' (rev bufs)).

Lemma stage_all_lookup layers' bufs k x :
  stage_all layers' bufs !! k = Some x ->
  exists ts buf, layers' !! k = Some ts /\ rev bufs !! k = Some buf /\ x = stage k (ts, buf).
Proof.
  unfold stage_all. rewrite list_lookup_imap. destruct (zip layers' (rev bufs) !! k) as [[ts buf]|] eqn:E; [|done].
  apply lookup_zip_with_Some in E as (ts' & buf' & [= -> ->] & Hts & Hbuf). intros [= <-]. by exists ts', buf'.
Qed.

Lemma stage_all_fmap {B} (f : list Tensor * (Z * Z) -> B) (g : Staged -> B) layers' bufs :
  (forall k tb, g (stage k tb) = f tb) -> g <$> stage_all layers' bufs = f <$> zip layers' (rev bufs).
Proof.
  intros Hf. unfold stage_all. apply list_eq. intros k. rewrite !list_lookup_fmap, list_lookup_imap.
  destruct (zip layers' (rev bufs) !! k); [|done]. cbn. by rewrite Hf.
Qed.

(** The layers and buffers of a registered task. *)
Record staged_task (r : Registered) (items : list Staged) (c1 : TCPChannel) : Prop := {
  sk_data : tc_data c1 = Some r;
  sk_buffers : tc_host_buffers c1 = rev (staged_buffer <$> items);
  sk_idle : tc_write_futs c1 = [] /\ tc_prev_ch_idx c1 = tc_prev_ch_idx c + vsize layers;
  sk_chs : 0 < tc_chs c1;
  sk_count : vsize items = vsize layers /\ tc_dst_layer_num c1 = vsize layers;
  sk_sequence : sequence reqid_of 0 items;
  sk_sendable : Forall (sendable ctx r) items;
  sk_servable : Forall (servable info in_buf) items;
  sk_moves : flat_map moves_of items ≡ₚ flat_map (flat_map tensor_moves) layers;
}.

Section Staging.
Context (r : Registered) (layers' : list (list Tensor)) (bufs : list (Z * Z)).
Context (Hm : Forall2 (merged_tensors r) layers layers').
Context (Hbufs : Forall2 (fun i buf => alloc i (message_bytes r) = Some buf /\ message_bytes r <= buf.2)
  (seqZ 0 (vsize layers)) bufs).

Lemma bufs_length : length bufs = length layers.
Proof. apply Forall2_length in Hbufs. rewrite length_seqZ in Hbufs. unfold vsize in Hbufs. lia. Qed.

Lemma stage_all_length : length (stage_all layers' bufs) = length layers.
Proof.
  unfold stage_all. rewrite length_imap, length_zip_with, length_rev, bufs_length, <- (Forall2_length _ _ _ Hm). lia.
Qed.

(** The buffer of layer [k] is the answer to request [n - 1 - k]. *)
Lemma rev_buf k buf : rev bufs !! k = Some buf ->
  alloc (vsize layers - 1 - Z.of_nat k) (message_bytes r) = Some buf /\ message_bytes r <= buf.2 /\
  (k < length layers)%nat.
Proof.
  intros Hk. pose proof (lookup_lt_Some _ _ _ Hk) as Hlt. rewrite length_rev, bufs_length in Hlt.
  rewrite rev_alt in Hk. fold (reverse bufs) in Hk. apply reverse_lookup_Some in Hk as [Hk _]. rewrite bufs_length in Hk.
  destruct (Forall2_lookup_r _ _ _ _ _ Hbufs Hk) as (i & Hi & Ha & Hle).
  apply lookup_seqZ in Hi as [-> _]. split_and!; [|done|done]. rewrite <- Ha. f_equal. unfold vsize. lia.
Qed.

Lemma staged_layer k x : stage_all layers' bufs !! k = Some x ->
  exists ts, layers !! k = Some ts /\ sl_index x = k /\ merged_tensors r ts (sl_tensors x) /\
    alloc (vsize layers - 1 - Z.of_nat k) (message_bytes r) = Some (sl_base x, sl_room x) /\
    message_bytes r <= sl_room x /\ (k < length layers)%nat.
Proof.
  intros Hx. apply stage_all_lookup in Hx as (ts' & [b l] & Hts & Hb & ->).
  destruct (Forall2_lookup_r _ _ _ _ _ Hm Hts) as (ts & Hl & Hmt).
  destruct (rev_buf _ _ Hb) as (Ha & Hle & Hk). exists ts. by split_and!.
Qed.

Lemma staged_message_bytes ts ts' : ts ∈ layers -> merged_tensors r ts ts' ->
  message_bytes r = 28 + body_bytes ts' /\ in_buf + (28 + body_bytes ts') < W64.
Proof.
  intros Hin (Hr & Hok & Hs). destruct Hready as [_ Ht _ _ [Hb0 Hb] _ _ _ _ _ _ _ _]. rewrite Forall_forall in Ht, Hb.
  destruct (Hb ts Hin) as [_ Hroom]. destruct (Ht ts Hin) as [Hts _].
  rewrite <- (same_copies_room ts ts') in Hroom by done. pose proof (body_bytes_le _ Hok).
  split; [|lia]. apply message_bytes_spec; [done|done|lia].
Qed.

Lemma staged_sequence : sequence reqid_of 0 (stage_all layers' bufs).
Proof.
  constructor.
  - intros k x Hx. by destruct (staged_layer k x Hx) as (? & _ & -> & _).
  - apply Forall_lookup. intros k x Hx. apply stage_all_lookup in Hx as (? & ? & _ & _ & ->). done.
  - intros j k x y Hjk Hx Hy. destruct (staged_layer _ _ Hx) as (ts & Hl & _ & Hmt & Hax & _ & Hj).
    destruct (staged_layer _ _ Hy) as (_ & _ & _ & _ & Hay & _ & Hk).
    pose proof (list_elem_of_lookup_2 _ _ _ Hl) as Hin. destruct (staged_message_bytes _ _ Hin Hmt) as [Hmb Hlt].
    pose proof (proj1 (tr_bytes _ _ _ _ _ _ _ _ _ _ Hready)).
    assert (0 <= message_bytes r < W64) as Hr by (rewrite Hmb; pose proof (body_bytes_nonneg _ (proj1 (proj2 Hmt))); lia).
    apply (ao_apart _ _ _ (tr_alloc _ _ _ _ _ _ _ _ _ _ Hready _ Hr) _ _ (sl_base x, sl_room x) (sl_base y, sl_room y))
      with (4 := Hax) (5 := Hay); unfold vsize; lia.
Qed.

Lemma staged_items_ok :
  Forall (sendable ctx r) (stage_all layers' bufs) /\ Forall (servable info in_buf) (stage_all layers' bufs).
Proof.
  pose proof Hready as [(Hd & _ & Hvd & Hvl) Ht Hraw _ _ _ _ _ _ _ Hsrc Hsrv _].
  split; apply Forall_lookup; intros k x Hx;
    destruct (staged_layer _ _ Hx) as (ts & Hl & Hi & Hmt & _ & Hle & Hk);
    pose proof (list_elem_of_lookup_2 _ _ _ Hl) as Hin; destruct (staged_message_bytes _ _ Hin Hmt) as [Hmb Hlt];
    destruct Hmt as (Hr & Hok & Hs); pose proof (vsize_layer _ Hin) as Hv;
    assert (Hv' : vsize (sl_tensors x) = vsize data) by (rewrite <- Hv; unfold vsize; by rewrite (Forall2_length _ _ _ Hs)).
  - destruct (Hsrc _ _ Hl) as (mrs & Hmrs & Hm1). constructor.
    + split_and!; [done| |unfold raw_layer; by rewrite Hv'].
      intros E. rewrite E in Hv'. destruct data; [done|unfold vsize in Hv'; cbn in Hv'; lia].
    + done.
    + exists mrs. rewrite Hi. split; [done|]. rewrite Hm1. symmetry.
      apply (same_copies_fmap t_src ts); [by intros ?? (? & _)|done].
    + lia.
  - destruct (Hsrv _ _ Hl) as [Hp Hc]. constructor.
    + by rewrite Hv'.
    + rewrite Hi, Hp. f_equal. symmetry. apply (same_copies_fmap t_dst ts); [by intros ?? (_ & ? & _)|done].
    + rewrite Hc. symmetry. apply (same_copies_fmap t_capacity ts); [by intros ?? (_ & _ & ? & _)|done].
    + rewrite Hi. unfold vsize in Hvl. lia.
    + done.
Qed.

Lemma staged_moves : flat_map moves_of (stage_all layers' bufs) ≡ₚ flat_map (flat_map tensor_moves) layers.
Proof.
  rewrite <- (merged_tensor_moves r layers layers' Hm).
  assert (Hl : sl_tensors <$> stage_all layers' bufs = layers').
  { rewrite (stage_all_fmap fst sl_tensors) by done. apply fst_zip.
    rewrite length_rev, bufs_length, (Forall2_length _ _ _ Hm). lia. }
  rewrite <- Hl at 2. by rewrite flat_map_over_fmap.
Qed.

Lemma staged_buffers : rev (staged_buffer <$> stage_all layers' bufs) = bufs.
Proof.
  rewrite (stage_all_fmap snd staged_buffer) by (by intros k [ts [b l]]). rewrite snd_zip, rev_involutive; [done|].
  rewrite length_rev, bufs_length, (Forall2_length _ _ _ Hm). lia.
Qed.

End Staging.

Lemma tcp_register_spec :
  exists r items c1, tcp_register_data sort ctx active connects alloc data kind c = Ok c1 /\ staged_task r items c1.
Proof.
  destruct tcp_merged as (r & layers' & Hr & Hm). destruct tcp_init_spec as (c0 & Hc0 & Hch & Hn & Hprev & Hb & Hf).
  pose proof Hready as [(Hd & Hl & Hvd & Hvl) _ Hraw _ [Hb0 _] _ (Hdn & _) _ Hturns _ _ _ Halloc].
  assert (0 < vsize layers) as Hl0 by (unfold vsize; destruct layers; [done|cbn; lia]).
  assert (exists ts ts', ts ∈ layers /\ merged_tensors r ts ts') as (ts & ts' & Hin & Hmt).
  { clear -Hm Hl. destruct Hm as [|ts ts' ls ls' Hmt _]; [done|]. exists ts, ts'. split; [set_solver|done]. }
  destruct (staged_message_bytes r ts ts' Hin Hmt) as [Hmb Hlt]. destruct Hmt as (Hrl & Hok & Hsm).
  pose proof (body_bytes_nonneg _ Hok) as Hbn. destruct (alloc_buffers_spec alloc (vsize layers) (message_bytes r) c0) as (bufs & Hbufs & Hbf); [apply Halloc; lia|lia..|].
  exists r, (stage_all layers' bufs), (set_registered (Some r) bufs (set_turn (tc_prev_ch_idx c0 + vsize layers) c0)). split.
  - unfold tcp_register_data. rewrite Hdn, !cassert_true; [|done|by rewrite vsize_pos]. cbn [rbind].
    rewrite Hc0. cbn [rbind]. rewrite Hr. cbn [rbind]. rewrite Hb, Hn.
    assert (env_bf162fp8_conversion && negb (1 <? vsize data) = false) as ->.
    { destruct (env_bf162fp8_conversion); [|done]. cbn [andb] in *. apply Z.eqb_neq in Hraw.
      assert (0 < vsize data) by (unfold vsize; destruct data; [done|cbn; lia]). rewrite (proj2 (Z.ltb_lt _ _)) by lia. done. }
    rewrite (rl_total _ _ Hrl). assert (0 < layer_bytes ts') as Hpos.
    { pose proof (layer_counts _ Hok). destruct Hsm as [|t t' l l' _ _].
      - apply vsize_layer in Hin. destruct data; [done|unfold vsize in Hin; cbn in Hin; lia].
      - apply Forall_cons in Hok as [Ht Hok']. pose proof (tensor_counts _ Ht). pose proof (layer_counts _ Hok').
        change (layer_bytes (t' :: l')) with (sum_length (t_blocks t') + layer_bytes l'). lia. }
    rewrite (proj2 (Z.ltb_lt _ _)) by lia. rewrite Hbufs. cbn [rbind].
    rewrite cassert_true; [done|]. apply Z.eqb_eq. unfold vsize. by rewrite (bufs_length r bufs Hbf).
  - destruct (staged_items_ok r layers' bufs Hm Hbf) as [Hsd Hsv].
    constructor; cbn; try done.
    + by rewrite (staged_buffers r layers' bufs Hm Hbf).
    + split; [done|lia].
    + unfold vsize. by rewrite (stage_all_length r layers' bufs Hm Hbf).
    + by apply (staged_sequence r).
    + by apply (staged_moves r).
Qed.

(** Whatever order the messages arrive in, the server makes the copies of all the layers. *)
Lemma tcp_arrivals d r items c1 mS c2 mS' sent order mD :
  device_ok d -> staged_task r items c1 -> after_sends r items c1 mS c2 mS' sent -> order ≡ₚ sent ->
  exists mD', tcp_serve d info in_buf (message mS' <$> order) mD = Ok mD' /\
    forall a, gpu mD' a = foldl (fun g ts => layer_copy (gpu mS) ts g) (gpu mD) layers a.
Proof.
  intros Hd Hk Hs Hord. pose proof (as_sent _ _ _ _ _ _ _ Hs) as Hsent.
  assert (order.*2 ≡ₚ (fun x => (sl_base x, vsize (staged_wire (gpu mS) x))) <$> items) as Hp by (by rewrite Hord, Hsent).
  destruct (Permutation_map_inv _ _ Hp) as (items' & Ho & Hi).
  assert (message mS' <$> order = staged_wire (gpu mS) <$> items') as ->.
  { transitivity ((fun p => read (host mS') p.1 p.2) <$> order.*2); [by rewrite <- list_fmap_compose|].
    rewrite Ho, <- list_fmap_compose. apply list_fmap_ext. intros j x Hx. cbn. apply holds_read.
    assert (x ∈ items) as Hin by (rewrite Hi; by eapply list_elem_of_lookup_2).
    exact (proj1 (Forall_forall _ _) (as_staged _ _ _ _ _ _ _ Hs) x Hin). }
  destruct (tcp_serve_spec d info in_buf (gpu mS) items' mD) as (mD' & Hok & Hg); [done|apply Hready| |].
  { rewrite <- Hi. apply Hk. }
  exists mD'. split; [done|]. intros a. rewrite Hg.
  assert (forall g0, foldl (fun g ts => layer_copy (gpu mS) ts g) g0 layers =
    exec_bytes (gpu mS) (flat_map (flat_map tensor_moves) layers) g0) as ->.
  { clear. induction layers as [|ts ls IH]; intros g0; [done|]. cbn [foldl flat_map].
    by rewrite IH, layer_copy_exec, exec_bytes_app. }
  assert (flat_map moves_of items' ≡ₚ flat_map (flat_map tensor_moves) layers) as Hmv
    by (rewrite <- (sk_moves _ _ _ Hk), !flat_map_concat_map; by rewrite Hi).
  apply exec_bytes_perm; [|done]. rewrite Hmv. apply Hready.
Qed.

End Task.

Lemma flush_outcomes (futs : list Z) outcomes :
  length outcomes = length futs ->
  forM (zip futs outcomes) (fun f (_ : unit) => f.2) tt = forM outcomes (fun r (_ : unit) => r) tt.
Proof.
  revert futs. induction outcomes as [|o os IH]; intros [|f futs] Hl; try done. injection Hl as Hl.
  cbn [zip zip_with forM snd]. destruct o as [[]|]; [|done]. cbn [rbind]. by apply IH.
Qed.

(** ** Theorem *)


End TcpChannel.

(** ** Example *)

(** Two layers of the sample tensors. *)
Definition second_layer : list Tensor :=
  [mkTensor [mkIpcBlock 8 32 8; mkIpcBlock 0 24 8; mkIpcBlock 32 0 4] 1100 5500 64;
   mkTensor [mkIpcBlock 3 1 5] 2100 7500 16].
Definition two_layers : list (list Tensor) := [sample_tensors; second_layer].
Definition two_ctx : CliCtx := mkCliCtx [[(1000, 1); (2000, 2)]; [(1100, 3); (2100, 4)]] [] [64; 16].
Definition two_info : TCPInfo := mkTCPInfo [[5000; 7000]; [5500; 7500]] [64; 16].
Definition stacked_alloc (i n : Z) : option (Z * Z) := Some (1 + i * n, n).
Definition connected_channel : TCPChannel := mkTCPChannel "10.0.0.7" 31221 [64; 16] 2 0 None 0 [] [].

Lemma sample_tensors_ok : Forall (fun ts => Forall tensor_ok ts) two_layers.
Proof.
  repeat (constructor; [repeat (constructor; [split; [done|by repeat constructor|done| |done|done];
      apply (bool_decide_unpack _); vm_compute; exact I|]); constructor|]). constructor.
Qed.

Lemma two_layers_ready :
  @tcp_ready debug_env two_ctx [] [Ok tt; Ok tt] stacked_alloc (t_blocks <$> sample_tensors) PEQD two_info two_layers
    300 connected_channel.
Proof.
  pose proof sample_tensors_ok as [H1 [H2 _]%Forall_cons]%Forall_cons. split; try done.
  - constructor; [by split|]. constructor; [by split|]. constructor.
  - by left.
  - split; [done|]. by repeat constructor.
  - apply (bool_decide_unpack _). vm_compute. exact I.
  - right. split_and!; [done|done|]. by repeat constructor.
  - intros [|[|i]] ts [= <-]; [exists [(1000, 1); (2000, 2)]|exists [(1100, 3); (2100, 4)]]; done.
  - intros [|[|i]] ts [= <-]; done.
  - intros total Ht. split.
    + intros i Hi. exists (1 + i * total, total). split; [done|]. cbn. change (vsize two_layers) with 2 in Hi.
      assert (0 <= i * total) by nia. lia.
    + intros i j b b' Hi Hj Hne [= <-] [= <-]. cbn. destruct (Z.lt_ge_cases i j); [left|right]; nia.
Qed.

