(* ===== verification/StagedServer.v ===== *)
(** The receiving side of the staged RDMA path ([src/rdma_staged_server.cpp], with the wire
    formats of [include/copy_utils.h]): per connection, a set of host buffers the peer writes
    into, their numbers, and the handler that scatters a buffer into the device when the
    immediate value of a write names it.

    The memory pool is third-party: what an allocation returns is an argument, and [pool_]
    records the buffers the server holds.  A handler runs to its end before the next one;
    time stamps are arguments.  An exception that leaves [OnImmRecvCall], which is [noexcept],
    ends the process. *)

From stdpp Require Import gmap.
From S2P Require Import Prelude.
From S2P Require Import Common.
From S2P Require Import CopySpec.
From S2P Require Import Channel.
From S2P Require Import CopyKernel.
From S2P Require Import CopyFrame.
From S2P Require Import TcpWire.
From S2P Require Import Rdma.

(** ** Wire formats *)
Definition STAGED_PREALLOC_REQ_MAGIC : Z := 0x53505251.
Definition STAGED_PREALLOC_RESP_MAGIC : Z := 0x53505253.
Definition STAGED_IMM_BUFFER_BITS : Z := 24.
Definition STAGED_IMM_BUFFER_MASK : Z := u32 (Z.shiftl 1 STAGED_IMM_BUFFER_BITS - 1).
Definition STAGED_PREALLOC_MAX_LAYERS : Z := STAGED_IMM_BUFFER_MASK.

Definition encode_staged_imm_data (buffer_id : Z) : Z := Z.land buffer_id STAGED_IMM_BUFFER_MASK.
Definition decode_staged_imm_data (imm_data : Z) : Z := Z.land imm_data STAGED_IMM_BUFFER_MASK.

Record StagedPreallocRespEntry := mkEntry {
  e_remote_addr : Z;
  e_size : Z;
  e_rkey : Z;
  e_buffer_id : Z;
}.

Definition SIZEOF_ENTRY : Z := 24.

Definition entry_wire (e : StagedPreallocRespEntry) : list Z :=
  le_bytes 8 (e_remote_addr e) ++ le_bytes 8 (e_size e) ++ le_bytes 4 (e_rkey e) ++ le_bytes 4 (e_buffer_id e).

(** Magic and request id of a message ([deser_rpc_header]). *)
Definition msg_magic (buf : list Z) : Z := int_at 4 0 buf.
Definition msg_reqid (buf : list Z) : Z := of_le (take 8 (drop 4 buf)).

(** The sizes of a preallocation request. *)
Definition parse_prealloc_request (inbuf : list Z) : res (list Z) :=
  let* _ := rtassert (RPC_HEADER + 4 <=? vsize inbuf) in
  let req := drop (Z.to_nat RPC_HEADER) inbuf in
  let layer_num := of_le (take 4 req) in
  let* _ := rtassert (0 <? layer_num) in
  let* _ := rtassert (layer_num <=? STAGED_PREALLOC_MAX_LAYERS) in
  let* _ := rtassert (vsize inbuf =? RPC_HEADER + 4 + layer_num * 8) in
  let layer_sizes := (fun i => int_at 8 (Z.to_nat i) (drop 4 req)) <$> seqZ 0 layer_num in
  let* _ := forM layer_sizes (fun sz (_ : unit) => rtassert (0 <? sz)) tt in
  Ok layer_sizes.

Definition prealloc_reply (reqid : Z) (entries : list StagedPreallocRespEntry) : list Z :=
  rpc_header STAGED_PREALLOC_RESP_MAGIC reqid ++ le_bytes 4 (u32 (vsize entries)) ++ flat_map entry_wire entries.

(** ** State *)

(** What an allocation returns: an address and, when it is registered, its key. *)
Record RecvMem := mkRecvMem {
  mem_buf : Z;
  mem_rkey : option Z;
}.

Record StagedRecvBuffer := mkRecvBuffer {
  rb_mem : RecvMem;
  rb_size : Z;
  rb_buffer_id : Z;
  rb_layer_idx : Z;
}.

Record StagedBufferGuard := mkGuard {
  buffers_ : gmap Z StagedRecvBuffer;
  next_buffer_id_ : Z;
}.

Definition new_guard : StagedBufferGuard := mkGuard ∅ 1.

Record RDMAStagedServer := mkStagedServer {
  gpu_ptrs_ : list Z;
  layer_blk_size_ : Z;
  staged_guards_ : gmap Z StagedBufferGuard;
  pool_ : gset Z;
}.

Definition set_guards (gs : gmap Z StagedBufferGuard) (pool : gset Z) (s : RDMAStagedServer) : RDMAStagedServer :=
  mkStagedServer (gpu_ptrs_ s) (layer_blk_size_ s) gs pool.

(** ** Buffers of a connection *)

(** Addresses of the buffers of a map. *)
Definition buffer_addrs (bufs : gmap Z StagedRecvBuffer) : gset Z :=
  list_to_set ((fun ib : Z * StagedRecvBuffer => mem_buf (rb_mem ib.2)) <$> map_to_list bufs).

(** [release_staged_recv_buffers]: every buffer with an address goes back to the pool. *)
Definition release_staged_recv_buffers (bufs : gmap Z StagedRecvBuffer) (pool : gset Z) : gset Z :=
  pool ∖ (buffer_addrs bufs ∖ {[0]}).

(** [StagedBufferGuard::replace_buffers]: (guard, pool). *)
Definition replace_buffers (new_bufs : gmap Z StagedRecvBuffer) (g : StagedBufferGuard) (pool : gset Z)
    : StagedBufferGuard * gset Z :=
  (mkGuard new_bufs (next_buffer_id_ g), release_staged_recv_buffers (buffers_ g) pool).

(** [StagedBufferGuard::release_all_buffers], also run by the destructor. *)
Definition release_all_buffers (g : StagedBufferGuard) (pool : gset Z) : StagedBufferGuard * gset Z :=
  replace_buffers ∅ g pool.

(** [StagedBufferGuard::alloc_buffer_ids]. *)
Definition alloc_buffer_ids (count : Z) (g : StagedBufferGuard) : res (list Z * StagedBufferGuard) :=
  if count =? 0 then Ok ([], g) else
  let next := next_buffer_id_ g in
  if (next =? 0) || (STAGED_IMM_BUFFER_MASK <? next) ||
     (u32 (STAGED_IMM_BUFFER_MASK - next) <? u32 (count - 1))
  then Err OverflowError
  else Ok (seqZ next count, mkGuard (buffers_ g) (u32 (next + count))).

(** [StagedBufferGuard::find_buffer]. *)
Definition find_buffer (buffer_id : Z) (g : StagedBufferGuard) : option StagedRecvBuffer :=
  buffers_ g !! buffer_id.

(** ** Preallocation *)

(** The allocation loop over (size, id): what has been allocated stays allocated when a
    later step throws. *)
Fixpoint prealloc_loop (alloc : Z -> Z -> res RecvMem) (idx : Z) (reqs : list (Z * Z)) (pool : gset Z)
    (bufs : gmap Z StagedRecvBuffer) (entries : list StagedPreallocRespEntry)
    : gset Z * res (gmap Z StagedRecvBuffer * list StagedPreallocRespEntry) :=
  match reqs with
  | [] => (pool, Ok (bufs, entries))
  | (size, buffer_id) :: reqs =>
      match alloc idx size with
      | Err e => (pool, Err e)
      | Ok mem =>
          let pool := {[mem_buf mem]} ∪ pool in
          if mem_buf mem =? 0 then (pool, Err AssertFailed) else
          match mem_rkey mem with
          | None => (pool, Err AssertFailed)
          | Some rkey =>
              if STAGED_IMM_BUFFER_MASK <? buffer_id then (pool, Err AssertFailed) else
              prealloc_loop alloc (idx + 1) reqs pool
                (<[buffer_id := mkRecvBuffer mem size buffer_id idx]> bufs)
                (entries ++ [mkEntry (mem_buf mem) size rkey buffer_id])
          end
      end
  end.

(** [resp_staged_prealloc] for the connection [key]: the server afterwards, and the reply or
    what was thrown.  [reply_alloc] is the allocation of the reply. *)
Definition resp_staged_prealloc (alloc : Z -> Z -> res RecvMem) (reply_alloc : res unit) (key : Z)
    (inbuf : list Z) (s : RDMAStagedServer) : RDMAStagedServer * res (list Z) :=
  match parse_prealloc_request inbuf with
  | Err e => (s, Err e)
  | Ok layer_sizes =>
      let g := default new_guard (staged_guards_ s !! key) in
      match alloc_buffer_ids (vsize layer_sizes) g with
      | Err e => (set_guards (<[key := g]> (staged_guards_ s)) (pool_ s) s, Err e)
      | Ok (ids, g) =>
          let '(pool, r) := prealloc_loop alloc 0 (zip layer_sizes ids) (pool_ s) ∅ [] in
          match r with
          | Err e => (set_guards (<[key := g]> (staged_guards_ s)) pool s, Err e)
          | Ok (new_bufs, entries) =>
              let '(g, pool) := replace_buffers new_bufs g pool in
              let s := set_guards (<[key := g]> (staged_guards_ s)) pool s in
              (s, let* _ := reply_alloc in Ok (prealloc_reply (msg_reqid inbuf) entries))
          end
      end
  end.

(** The channel closed hook. *)
Definition closed_hook (key : Z) (s : RDMAStagedServer) : RDMAStagedServer :=
  match staged_guards_ s !! key with
  | None => s
  | Some g => set_guards (delete key (staged_guards_ s)) (release_all_buffers g (pool_ s)).2 s
  end.

(** ** Messages *)

(** A handler whose exceptions are logged. *)
Definition logged {A} (r : res A) : res (option A) :=
  match r with
  | Ok a => Ok (Some a)
  | Err e => if is_exception e then Ok None else Err e
  end.

Section Handlers.
Context `{Env} (crc32_z : Z -> list Z -> Z) (handles : list RDMAMemHandle) (srv : SrvCtx) (d : Device).

(** [RDMAServer::CtxCallback::OnRecvCall]: the reply, if there is one. *)
Definition rdma_on_recv (dst : memory) (inbuf : list Z) : res (option (list Z)) :=
  if RPC_HEADER <=? vsize inbuf then
    if msg_magic inbuf =? MEM_HANDLES_REQ_MAGIC then logged (resp_mem_handles handles inbuf)
    else if msg_magic inbuf =? REMOTE_CRC_REQ_MAGIC then logged (resp_remote_crc crc32_z srv dst inbuf)
    else Ok None
  else Ok None.

(** [StagedCtxCallback::OnRecvCall]. *)
Definition staged_on_recv (alloc : Z -> Z -> res RecvMem) (reply_alloc : res unit) (key : Z) (dst : memory)
    (inbuf : list Z) (s : RDMAStagedServer) : RDMAStagedServer * res (option (list Z)) :=
  if (RPC_HEADER <=? vsize inbuf) && (msg_magic inbuf =? STAGED_PREALLOC_REQ_MAGIC) then
    let '(s, r) := resp_staged_prealloc alloc reply_alloc key inbuf s in (s, logged r)
  else if (RPC_HEADER <=? vsize inbuf) && (msg_magic inbuf =? KV_CACHE_DATA_MAGIC) then (s, Ok None)
  else (s, rdma_on_recv dst inbuf).

(** The times a reply carries: reception, start and end of the copy. *)
Record Times := mkTimes { recv_start : Z; h2d_start : Z; h2d_end : Z }.

Definition kv_reply (magic reqid : Z) (t : Times) : list Z :=
  rpc_header magic reqid ++ le_bytes 8 (recv_start t) ++ le_bytes 4 0 ++ le_bytes 4 0 ++
  le_bytes 8 (h2d_start t) ++ le_bytes 8 (h2d_end t).

Inductive staged_outcome :=
| SReplied (m : Mem) (reply : list Z)
| SDropped (m : Mem).

Definition outcome_mem (o : staged_outcome) : Mem :=
  match o with SReplied m _ | SDropped m => m end.

(** Bytes before the records: header, length, layer and number of records. *)
Definition STAGED_HEADER : Z := RPC_HEADER + 8 + 8 + 8.

(** [handle_kv_cache_data] on the [len] bytes at [in_buf]. *)
Definition staged_handle (s : RDMAStagedServer) (reply_alloc : res unit) (t : Times) (in_buf len : Z) (m : Mem)
    : res staged_outcome :=
  if len <? STAGED_HEADER then Ok (SDropped m) else
  let magic := of_le (read (host m) in_buf 4) in
  let reqid := read_size (host m) (in_buf + 4) in
  assert: (magic =? KV_CACHE_DATA_MAGIC);
  let actual_len := read_size (host m) (in_buf + RPC_HEADER) in
  let* _ := rtassert (actual_len <=? len) in
  let layer_idx := read_size (host m) (in_buf + RPC_HEADER + 8) in
  let metadata_size := read_size (host m) (in_buf + RPC_HEADER + 16) in
  let buf_ptr := in_buf + STAGED_HEADER in
  let metadata_bytes := u64 (metadata_size * SIZEOF_IPC_BLOCK) in
  let expected_len := u64 (STAGED_HEADER + metadata_bytes) in
  if actual_len <? expected_len then Ok (SDropped m) else
  if IPC_BLOCKS_MAX <? metadata_size then Err LengthError else
  let blocks := (fun i => read_block (host m) buf_ptr i) <$> seqZ 0 metadata_size in
  let buf_ptr := buf_ptr + metadata_bytes in
  let tensor_data_size := u64 (actual_len - expected_len) in
  if vsize (gpu_ptrs_ s) <=? layer_idx then Ok (SDropped m) else
  let* layer_gpu_ptr := vec_idx (gpu_ptrs_ s) layer_idx in
  assert: negb (layer_gpu_ptr =? 0);
  let layer_capacity := layer_blk_size_ s in
  if layer_capacity =? 0 then Ok (SDropped m) else
  match validate_ipc_block_bounds blocks layer_capacity DESTINATION 1 with
  | Err e => if is_exception e then Ok (SDropped m) else Err e
  | Ok _ =>
      let* m := device_copy d buf_ptr layer_gpu_ptr blocks tensor_data_size H2D m in
      let* _ := reply_alloc in
      Ok (SReplied m (kv_reply magic reqid t))
  end.

(** [StagedCtxCallback::OnImmRecvCall]. *)
Definition on_imm_recv (s : RDMAStagedServer) (reply_alloc : res unit) (t : Times) (key imm_data : Z) (m : Mem)
    : res staged_outcome :=
  let buffer_id := decode_staged_imm_data imm_data in
  if buffer_id =? 0 then Ok (SDropped m) else
  match staged_guards_ s !! key with
  | None => Ok (SDropped m)
  | Some guard =>
      match find_buffer buffer_id guard with
      | None => Ok (SDropped m)
      | Some recv_buf => staged_handle s reply_alloc t (mem_buf (rb_mem recv_buf)) (rb_size recv_buf) m
      end
  end.

(** ** The server as a machine over its callbacks *)
Inductive event :=
| EvRecv (alloc : Z -> Z -> res RecvMem) (reply_alloc : res unit) (key : Z) (inbuf : list Z)
| EvImm (reply_alloc : res unit) (t : Times) (key imm_data : Z)
| EvClosed (key : Z)
| EvWrite (addr : Z) (bytes : list Z).     (* a remote write lands *)

(** One callback; [Err] is the end of the process. *)
Definition serve (e : event) (sm : RDMAStagedServer * Mem) : res (RDMAStagedServer * Mem) :=
  let '(s, m) := sm in
  match e with
  | EvRecv alloc reply_alloc key inbuf =>
      let '(s, r) := staged_on_recv alloc reply_alloc key (gpu m) inbuf s in
      let* _ := r in Ok (s, m)
  | EvImm reply_alloc t key imm_data =>
      let* o := on_imm_recv s reply_alloc t key imm_data m in Ok (s, outcome_mem o)
  | EvClosed key => Ok (closed_hook key s, m)
  | EvWrite addr bytes => Ok (s, write_host addr bytes m)
  end.
End Handlers.

(** ** Immediate values and buffer numbers *)
Lemma staged_mask : STAGED_IMM_BUFFER_MASK = 2 ^ 24 - 1.
Proof. reflexivity. Qed.

Lemma imm_roundtrip id :
  0 <= id <= STAGED_IMM_BUFFER_MASK -> decode_staged_imm_data (encode_staged_imm_data id) = id.
Proof.
  rewrite staged_mask. intros Hid. unfold decode_staged_imm_data, encode_staged_imm_data.
  change STAGED_IMM_BUFFER_MASK with (Z.ones 24). rewrite !Z.land_ones, Z.mod_mod by lia.
  apply Z.mod_small. lia.
Qed.

Lemma alloc_buffer_ids_spec count g ids g' :
  1 <= next_buffer_id_ g <= STAGED_IMM_BUFFER_MASK + 1 -> 0 < count < W32 ->
  alloc_buffer_ids count g = Ok (ids, g') ->
  ids = seqZ (next_buffer_id_ g) count /\ buffers_ g' = buffers_ g /\
  next_buffer_id_ g' = next_buffer_id_ g + count /\ next_buffer_id_ g' <= STAGED_IMM_BUFFER_MASK + 1.
Proof.
  rewrite staged_mask. unfold alloc_buffer_ids, W32. rewrite staged_mask. intros Hn Hc.
  rewrite (proj2 (Z.eqb_neq count 0)) by lia. destruct (_ || _) eqn:Hb; [done|].
  rewrite !orb_false_iff, Z.ltb_ge in Hb. destruct Hb as [[_ Hle] Hlt].
  rewrite (u32_small (count - 1)) in Hlt by (unfold W32; lia).
  rewrite u32_small in Hlt by (unfold W32; lia). apply Z.ltb_ge in Hlt. intros [= <- <-]. cbn.
  rewrite u32_small by (unfold W32; lia). split_and!; [done..|lia].
Qed.

Lemma alloc_buffer_ids_ok count g :
  1 <= next_buffer_id_ g -> 0 < count -> next_buffer_id_ g + count <= STAGED_IMM_BUFFER_MASK + 1 ->
  alloc_buffer_ids count g =
  Ok (seqZ (next_buffer_id_ g) count, mkGuard (buffers_ g) (next_buffer_id_ g + count)).
Proof.
  unfold alloc_buffer_ids. rewrite staged_mask. intros Hn Hc Hle.
  rewrite (proj2 (Z.eqb_neq count 0)), (proj2 (Z.eqb_neq (next_buffer_id_ g) 0)) by lia.
  rewrite (proj2 (Z.ltb_ge _ (next_buffer_id_ g))) by lia. cbn [orb].
  rewrite !u32_small by (unfold W32; lia). by rewrite (proj2 (Z.ltb_ge _ (count - 1))) by lia.
Qed.

(** ** Allocation *)
Definition layer_alloc_fresh (alloc : Z -> Z -> res RecvMem) (pool : gset Z) : Prop :=
  (forall i size mem, alloc i size = Ok mem -> mem_buf mem ∉ pool) /\
  (forall i j size size' mem mem', alloc i size = Ok mem -> alloc j size' = Ok mem' ->
     mem_buf mem = mem_buf mem' -> i = j).

(** A buffer made for the request [j] of a loop that started at [idx]. *)
Definition made_by (alloc : Z -> Z -> res RecvMem) (idx : Z) (reqs : list (Z * Z)) (pool : gset Z)
    (id : Z) (b : StagedRecvBuffer) : Prop :=
  exists j, reqs !! j = Some (rb_size b, id) /\ rb_layer_idx b = idx + Z.of_nat j /\ rb_buffer_id b = id /\
    alloc (rb_layer_idx b) (rb_size b) = Ok (rb_mem b) /\ mem_buf (rb_mem b) <> 0 /\ mem_buf (rb_mem b) ∈ pool.

Lemma prealloc_loop_spec alloc idx reqs pool bufs entries :
  let '(pool', r) := prealloc_loop alloc idx reqs pool bufs entries in
  pool ⊆ pool' /\
  forall bufs' entries', r = Ok (bufs', entries') ->
    forall id b, bufs' !! id = Some b -> bufs !! id = Some b \/ made_by alloc idx reqs pool' id b.
Proof.
  revert idx pool bufs entries. induction reqs as [|[size id] reqs IH]; intros idx pool bufs entries;
    cbn [prealloc_loop]; [split; [done|]; intros ?? [= <- <-]; auto|].
  destruct (alloc idx size) as [mem|e] eqn:Ha; [|by split].
  destruct (Z.eqb_spec (mem_buf mem) 0) as [|Hnz]; [split; [set_solver|done]|].
  destruct (mem_rkey mem) as [rkey|]; [|split; [set_solver|done]].
  destruct (_ <? _); [split; [set_solver|done]|].
  specialize (IH (idx + 1) ({[mem_buf mem]} ∪ pool) (<[id:=mkRecvBuffer mem size id idx]> bufs)
    (entries ++ [mkEntry (mem_buf mem) size rkey id])).
  destruct (prealloc_loop _ _ _ _ _ _) as [pool' r]. destruct IH as [Hsub IH]. split; [set_solver|].
  intros bufs' entries' Hr i b Hi. destruct (IH bufs' entries' Hr i b Hi) as [Hin|(j & Hj & Hl & Hrest)].
  - destruct (decide (i = id)) as [->|]; [|rewrite lookup_insert_ne in Hin by done; auto].
    rewrite lookup_insert_eq in Hin. simplify_eq. right. exists 0%nat. cbn. split_and!; try (done || lia). set_solver.
  - right. exists (S j). split; [done|]. split; [lia|]. done.
Qed.

(** ** Every known buffer is live *)
Record guard_ok (pool : gset Z) (g : StagedBufferGuard) : Prop := {
  go_next : 1 <= next_buffer_id_ g <= STAGED_IMM_BUFFER_MASK + 1;
  go_known : forall id b, buffers_ g !! id = Some b ->
    rb_buffer_id b = id /\ 1 <= id < next_buffer_id_ g /\ mem_buf (rb_mem b) <> 0 /\ mem_buf (rb_mem b) ∈ pool;
}.

(** [b] is the buffer [id] of the connection [key]. *)
Definition knows (gs : gmap Z StagedBufferGuard) (key id : Z) (b : StagedRecvBuffer) : Prop :=
  exists g, gs !! key = Some g /\ buffers_ g !! id = Some b.

Record guards_ok (gs : gmap Z StagedBufferGuard) (pool : gset Z) : Prop := {
  so_guards : forall key g, gs !! key = Some g -> guard_ok pool g;
  so_distinct : forall key id b key' id' b', knows gs key id b -> knows gs key' id' b' ->
    mem_buf (rb_mem b) = mem_buf (rb_mem b') -> key = key' /\ id = id';
}.

Lemma elem_of_buffer_addrs bufs a :
  a ∈ buffer_addrs bufs <-> exists id b, bufs !! id = Some b /\ mem_buf (rb_mem b) = a.
Proof.
  unfold buffer_addrs. rewrite elem_of_list_to_set, list_elem_of_fmap. split.
  - intros ([id b] & -> & Hin). apply elem_of_map_to_list in Hin. eauto.
  - intros (id & b & Hb & <-). exists (id, b). by rewrite elem_of_map_to_list.
Qed.

Lemma guard_ok_mono pool pool' g : pool ⊆ pool' -> guard_ok pool g -> guard_ok pool' g.
Proof. intros Hsub [Hn Hk]. split; [done|]. intros id b Hb. destruct (Hk id b Hb) as (? & ? & ? & ?). set_solver. Qed.

Lemma guards_ok_mono gs pool pool' : pool ⊆ pool' -> guards_ok gs pool -> guards_ok gs pool'.
Proof. intros Hsub [Hg Hd]. split; [|done]. intros key g Hk. by eapply guard_ok_mono, Hg. Qed.

(** Buffers of other connections survive the release of one connection's buffers. *)
Lemma release_keeps gs pool key g key' g' :
  guards_ok gs pool -> gs !! key = Some g -> gs !! key' = Some g' -> key <> key' ->
  guard_ok (release_staged_recv_buffers (buffers_ g) pool) g'.
Proof.
  intros [Hg Hd] Hk Hk' Hne. destruct (Hg _ _ Hk') as [Hn Hkn]. split; [done|]. intros id b Hb.
  destruct (Hkn id b Hb) as (? & ? & ? & Hin). split_and!; try (done || lia).
  unfold release_staged_recv_buffers. apply elem_of_difference. split; [done|].
  intros [Ha _]%elem_of_difference. apply elem_of_buffer_addrs in Ha as (id' & b' & Hb' & Heq).
  apply Hne. eapply (Hd key id' b' key' id b); [by exists g|by exists g'|done].
Qed.

(** The connection gets buffers of addresses no connection has, and gives back its own. *)
Lemma guards_ok_replace gs pool pool' key g0 g new :
  guards_ok gs pool -> default new_guard (gs !! key) = g0 -> pool ⊆ pool' ->
  1 <= next_buffer_id_ g <= STAGED_IMM_BUFFER_MASK + 1 -> buffers_ g = buffers_ g0 ->
  (forall id b, new !! id = Some b -> rb_buffer_id b = id /\ 1 <= id < next_buffer_id_ g /\
     mem_buf (rb_mem b) <> 0 /\ mem_buf (rb_mem b) ∈ pool' /\ mem_buf (rb_mem b) ∉ pool) ->
  (forall id b id' b', new !! id = Some b -> new !! id' = Some b' ->
     mem_buf (rb_mem b) = mem_buf (rb_mem b') -> id = id') ->
  guards_ok (<[key:=(replace_buffers new g pool').1]> gs) (replace_buffers new g pool').2.
Proof.
  intros Hok Hg0 Hsub Hn Hbufs Hnew Hinj. cbn [replace_buffers fst snd]. rewrite Hbufs.
  assert (forall a, a ∈ buffer_addrs (buffers_ g0) -> a ∈ pool) as Hold.
  { intros a (id & b & Hb & <-)%elem_of_buffer_addrs. destruct (gs !! key) as [g1|] eqn:Hk; simpl in Hg0; subst g0.
    - by destruct (go_known _ _ (so_guards _ _ Hok _ _ Hk) id b Hb) as (_ & _ & _ & ?).
    - cbn in Hb. by rewrite lookup_empty in Hb. }
  assert (forall id b, new !! id = Some b ->
    mem_buf (rb_mem b) ∈ release_staged_recv_buffers (buffers_ g0) pool') as Hlive.
  { intros id b Hb. destruct (Hnew id b Hb) as (_ & _ & _ & Hin & Hout).
    unfold release_staged_recv_buffers. apply elem_of_difference. split; [done|].
    intros [Ha _]%elem_of_difference. by apply Hout, Hold. }
  split.
  - intros key' g'. destruct (decide (key = key')) as [<-|Hne].
    + rewrite lookup_insert_eq. intros [= <-]. split; [done|]. cbn. intros id b Hb.
      destruct (Hnew id b Hb) as (? & ? & ? & _). split_and!; try (done || lia). by apply (Hlive id).
    + rewrite lookup_insert_ne by done. intros Hk'. destruct (gs !! key) as [g1|] eqn:Hk; simpl in Hg0; subst g0.
      * apply (release_keeps gs pool' key g1 key' g'); [by apply (guards_ok_mono gs pool)|done..].
      * apply (guard_ok_mono pool); [|by apply (so_guards _ _ Hok key')].
        unfold release_staged_recv_buffers, new_guard, buffer_addrs. cbn. set_solver.
  - assert (forall key1 id1 b1, knows (<[key:=mkGuard new (next_buffer_id_ g)]> gs) key1 id1 b1 ->
      (key1 = key /\ new !! id1 = Some b1) \/ (key1 <> key /\ knows gs key1 id1 b1)) as Hcase.
    { intros key1 id1 b1 (g1 & Hk1 & Hb1). destruct (decide (key = key1)) as [<-|Hne].
      - rewrite lookup_insert_eq in Hk1. simplify_eq. by left.
      - rewrite lookup_insert_ne in Hk1 by done. right. split; [done|]. by exists g1. }
    assert (forall key1 id1 b1, knows gs key1 id1 b1 -> mem_buf (rb_mem b1) ∈ pool) as Hin.
    { intros key1 id1 b1 (g1 & Hk1 & Hb1). by destruct (go_known _ _ (so_guards _ _ Hok _ _ Hk1) _ _ Hb1) as (_ & _ & _ & ?). }
    intros key1 id1 b1 key2 id2 b2 H1 H2 Heq.
    destruct (Hcase _ _ _ H1) as [[-> Hb1]|[Hne1 Hk1]], (Hcase _ _ _ H2) as [[-> Hb2]|[Hne2 Hk2]].
    + split; [done|]. by apply (Hinj _ b1 _ b2).
    + exfalso. destruct (Hnew _ _ Hb1) as (_ & _ & _ & _ & Hout). apply Hout. rewrite Heq. by apply (Hin key2 id2).
    + exfalso. destruct (Hnew _ _ Hb2) as (_ & _ & _ & _ & Hout). apply Hout. rewrite <- Heq. by apply (Hin key1 id1).
    + by apply (so_distinct _ _ Hok _ _ b1 _ _ b2).
Qed.

Lemma guards_ok_advance gs pool pool' key g :
  guards_ok gs pool -> pool ⊆ pool' -> buffers_ g = buffers_ (default new_guard (gs !! key)) ->
  next_buffer_id_ (default new_guard (gs !! key)) <= next_buffer_id_ g <= STAGED_IMM_BUFFER_MASK + 1 ->
  guards_ok (<[key:=g]> gs) pool'.
Proof.
  intros Hok Hsub Hbufs Hn. pose proof (guards_ok_mono _ _ _ Hsub Hok) as Hok'.
  assert (forall k id b, knows (<[key:=g]> gs) k id b -> knows gs k id b) as Hk.
  { intros k id b (g' & Hg' & Hb). destruct (decide (key = k)) as [<-|Hne].
    - rewrite lookup_insert_eq in Hg'. injection Hg' as <-. rewrite Hbufs in Hb.
      destruct (gs !! key) as [g1|] eqn:Hkey; [by exists g1|]. cbn in Hb. by rewrite lookup_empty in Hb.
    - rewrite lookup_insert_ne in Hg' by done. by exists g'. }
  split; [|intros ?????? H1%Hk H2%Hk; by apply (so_distinct _ _ Hok')].
  intros k g' Hg'. destruct (decide (key = k)) as [<-|Hne].
  - rewrite lookup_insert_eq in Hg'. injection Hg' as <-. destruct (gs !! key) as [g1|] eqn:Hkey; cbn in Hbufs, Hn.
    + destruct (so_guards _ _ Hok' _ _ Hkey) as [Hn1 Hkn]. split; [lia|]. rewrite Hbufs. intros id b Hb.
      destruct (Hkn id b Hb) as (? & ? & ? & ?). split_and!; try (done || lia).
    + split; [lia|]. rewrite Hbufs. intros id b Hb. by rewrite lookup_empty in Hb.
  - rewrite lookup_insert_ne in Hg' by done. by apply (so_guards _ _ Hok' k).
Qed.

Lemma guards_ok_close s key :
  guards_ok (staged_guards_ s) (pool_ s) ->
  guards_ok (staged_guards_ (closed_hook key s)) (pool_ (closed_hook key s)).
Proof.
  intros Hok. unfold closed_hook. destruct (staged_guards_ s !! key) as [g|] eqn:Hk; [|done]. cbn. split.
  - intros k g' [Hne Hg']%lookup_delete_Some. by apply (release_keeps _ _ key g k g' Hok).
  - intros k id b k' id' b' (g1 & [_ H1]%lookup_delete_Some & Hb1) (g2 & [_ H2]%lookup_delete_Some & Hb2).
    apply (so_distinct _ _ Hok); [by exists g1|by exists g2].
Qed.

Lemma parse_request_count inbuf sizes :
  parse_prealloc_request inbuf = Ok sizes -> 0 < vsize sizes < W32.
Proof.
  unfold parse_prealloc_request, rtassert. set (n := of_le _).
  destruct (_ <=? vsize inbuf); [|done]. cbn [rbind]. destruct (Z.ltb_spec 0 n) as [H0|]; [|done]. cbn [rbind].
  destruct (Z.leb_spec n STAGED_PREALLOC_MAX_LAYERS) as [Hm|]; [|done]. cbn [rbind].
  destruct (vsize inbuf =? _); [|done]. cbn [rbind]. destruct (forM _ _ _); [|done]. cbn [rbind].
  intros [= <-]. unfold vsize. rewrite length_fmap, length_seqZ. unfold STAGED_PREALLOC_MAX_LAYERS in Hm.
  rewrite staged_mask in Hm. unfold W32. lia.
Qed.

(** What an accepted or failed preallocation leaves. *)
Lemma prealloc_guards_ok alloc ra key inbuf s :
  guards_ok (staged_guards_ s) (pool_ s) -> layer_alloc_fresh alloc (pool_ s) ->
  let '(s', r) := resp_staged_prealloc alloc ra key inbuf s in
  guards_ok (staged_guards_ s') (pool_ s') /\
  forall reply, r = Ok reply -> forall id b b',
    knows (staged_guards_ s) key id b -> ~ knows (staged_guards_ s') key id b'.
Proof.
  intros Hok [Hfresh Hinj]. unfold resp_staged_prealloc.
  destruct (parse_prealloc_request inbuf) as [sizes|e] eqn:Hp; [|by split].
  apply parse_request_count in Hp. set (g := default new_guard (staged_guards_ s !! key)).
  assert (guard_ok (pool_ s) g) as [Hn Hkn].
  { unfold g. destruct (staged_guards_ s !! key) as [g'|] eqn:Hk; [by apply (so_guards _ _ Hok key)|].
    split; [rewrite staged_mask; cbn; lia|]. intros id b Hb. cbn in Hb. by rewrite lookup_empty in Hb. }
  destruct (alloc_buffer_ids (vsize sizes) g) as [[ids g']|e] eqn:Ha.
  2: { cbn. split; [|done]. apply (guards_ok_advance _ (pool_ s)); try done. fold g. lia. }
  apply alloc_buffer_ids_spec in Ha as (-> & Hb' & Hn' & Hmax); [|done..].
  pose proof (prealloc_loop_spec alloc 0 (zip sizes (seqZ (next_buffer_id_ g) (vsize sizes))) (pool_ s) ∅ []) as Hloop.
  destruct (prealloc_loop _ _ _ _ _ _) as [pool' [[new entries]|e]]; destruct Hloop as [Hsub Hmade].
  2: { cbn. split; [|done]. apply (guards_ok_advance _ (pool_ s)); try done. fold g. lia. }
  specialize (Hmade _ _ eq_refl).
  assert (forall id b, new !! id = Some b -> exists j, rb_layer_idx b = Z.of_nat j /\
    id = next_buffer_id_ g + Z.of_nat j /\ 0 <= Z.of_nat j < vsize sizes /\ rb_buffer_id b = id /\
    alloc (Z.of_nat j) (rb_size b) = Ok (rb_mem b) /\ mem_buf (rb_mem b) <> 0 /\ mem_buf (rb_mem b) ∈ pool') as Hnew.
  { intros id b Hb. destruct (Hmade id b Hb) as [He|(j & Hj & Hl & Hi & Hal & Hnz & Hin)];
      [by rewrite lookup_empty in He|].
    apply lookup_zip_Some in Hj as [Hs Hj]. apply lookup_lt_Some in Hs. apply lookup_seqZ in Hj as [-> Hj].
    rewrite Z.add_0_l in Hl. exists j. rewrite <- Hl. split_and!; try (done || lia). }
  cbn [fst snd replace_buffers]. split.
  - apply (guards_ok_replace (staged_guards_ s) (pool_ s) pool' key g g' new); try done; [lia| |].
    + intros id b Hb. destruct (Hnew id b Hb) as (j & Hl & -> & Hj & Hi & Hal & Hnz & Hin).
      split_and!; try (done || lia). by apply (Hfresh _ _ _ Hal).
    + intros id b id' b' Hb Hb'' Heq. destruct (Hnew id b Hb) as (j & _ & -> & _ & _ & Hal & _).
      destruct (Hnew id' b' Hb'') as (j' & _ & -> & _ & _ & Hal' & _). f_equal. by apply (Hinj _ _ _ _ _ _ Hal Hal').
  - intros reply _ id b b' (g1 & Hg1 & Hb1) (g2 & Hg2 & Hb2). cbn in Hg2.
    rewrite lookup_insert_eq in Hg2. injection Hg2 as <-. cbn in Hb2.
    destruct (Hnew id b' Hb2) as (j & _ & -> & Hj & _). unfold g in *. rewrite Hg1 in *. cbn in *.
    destruct (Hkn _ _ Hb1) as (_ & ? & _). lia.
Qed.

Section Machine.
Context `{Env} (crc32_z : Z -> list Z -> Z) (handles : list RDMAMemHandle) (srv : SrvCtx) (d : Device).

(** The allocator hands out addresses it has not handed out already. *)
Definition event_fresh (e : event) (s : RDMAStagedServer) : Prop :=
  match e with EvRecv alloc _ _ _ => layer_alloc_fresh alloc (pool_ s) | _ => True end.

Inductive reachable (s0 : RDMAStagedServer) : RDMAStagedServer * Mem -> Prop :=
| reach_init m : reachable s0 (s0, m)
| reach_step sm e sm' :
    reachable s0 sm -> event_fresh e sm.1 -> serve crc32_z handles srv d e sm = Ok sm' -> reachable s0 sm'.

Lemma serve_guards_ok e s m s' m' :
  guards_ok (staged_guards_ s) (pool_ s) -> event_fresh e s ->
  serve crc32_z handles srv d e (s, m) = Ok (s', m') -> guards_ok (staged_guards_ s') (pool_ s').
Proof.
  intros Hok Hfresh. destruct e as [alloc ra key inbuf|ra t key imm|key|a l]; cbn [serve].
  - unfold staged_on_recv. destruct (_ && _).
    + pose proof (prealloc_guards_ok alloc ra key inbuf s Hok Hfresh) as Hp.
      destruct (resp_staged_prealloc _ _ _ _ _) as [s1 r]. destruct (logged r); [|done]. cbn. intros [= <- <-]. apply Hp.
    + destruct (_ && _); [by intros [= <- <-]|]. destruct (rdma_on_recv _ _ _ _ _); [|done]. by intros [= <- <-].
  - destruct (on_imm_recv _ _ _ _ _ _ _); [|done]. by intros [= <- <-].
  - intros [= <- <-]. by apply guards_ok_close.
  - by intros [= <- <-].
Qed.

(** In every reachable state of the staged server, the buffers a guard knows are allocated,
    have non-zero ids that survive the immediate value, and belong to one channel and id
    only; a new preallocation forgets the ids of the previous one. *)
Theorem known_buffers_are_live s0 s m :
  staged_guards_ s0 = ∅ -> reachable s0 (s, m) ->
  (forall key id b, knows (staged_guards_ s) key id b ->
     mem_buf (rb_mem b) ∈ pool_ s /\ mem_buf (rb_mem b) <> 0 /\ rb_buffer_id b = id /\
     decode_staged_imm_data (encode_staged_imm_data id) = id /\ id <> 0) /\
  (forall key id b key' id' b', knows (staged_guards_ s) key id b -> knows (staged_guards_ s) key' id' b' ->
     mem_buf (rb_mem b) = mem_buf (rb_mem b') -> key = key' /\ id = id') /\
  (forall alloc ra key inbuf s' reply, layer_alloc_fresh alloc (pool_ s) ->
     resp_staged_prealloc alloc ra key inbuf s = (s', Ok reply) ->
     forall id b b', knows (staged_guards_ s) key id b -> ~ knows (staged_guards_ s') key id b').
Proof.
  intros H0 Hr. assert (guards_ok (staged_guards_ s) (pool_ s)) as Hok.
  { remember (s, m) as sm eqn:E. revert s m E. induction Hr as [m0|sm e sm' Hr IH Hf Hs]; intros s m E.
    - injection E as <- <-. rewrite H0. split; [intros ???|intros ?????? (? & Hk & _)]; by rewrite lookup_empty in *.
    - subst sm'. destruct sm as [s1 m1]. apply (serve_guards_ok e s1 m1 s m); [by apply (IH s1 m1)|done..]. }
  split_and!.
  - intros key id b (g & Hg & Hb). destruct (so_guards _ _ Hok _ _ Hg) as [Hn Hk].
    destruct (Hk id b Hb) as (? & ? & ? & ?). split_and!; try (done || lia). apply imm_roundtrip. lia.
  - apply (so_distinct _ _ Hok).
  - intros alloc ra key inbuf s' reply Hf Hp. pose proof (prealloc_guards_ok alloc ra key inbuf s Hok Hf) as Hs.
    rewrite Hp in Hs. destruct Hs as [_ Hs]. by apply (Hs reply).
Qed.
End Machine.

(** ** Whatever arrives, only registered tensors change *)

(** Host memory holds bytes. *)
Definition bytes_in (m : Mem) : Prop := forall a, 0 <= host m a < 256.

Lemma of_le_range l : Forall (fun b => 0 <= b < 256) l -> 0 <= of_le l < 256 ^ vsize l.
Proof.
  induction 1 as [|b l Hb _ IH]; [done|]. cbn [of_le foldr]. fold (of_le l).
  replace (256 ^ vsize (b :: l)) with (256 * 256 ^ vsize l); [lia|].
  unfold vsize. simpl length. rewrite Nat2Z.inj_succ, Z.pow_succ_r; lia.
Qed.

Lemma read_size_range m a : bytes_in m -> 0 <= read_size (host m) a < W64.
Proof.
  intros Hm. unfold read_size. pose proof (of_le_range (read (host m) a 8)) as Hr.
  rewrite vsize_read in Hr by lia. apply Hr. unfold read. apply Forall_fmap, Forall_true. intros k. apply Hm.
Qed.

Lemma read_blocks_range m a n :
  bytes_in m ->
  Forall (fun b => 0 <= length_ b < W64 /\ 0 <= dst_offset b < W64) ((fun i => read_block (host m) a i) <$> seqZ 0 n).
Proof. intros Hm. apply Forall_fmap, Forall_true. intros i. split; by apply read_size_range. Qed.

Lemma validate_cases blocks capacity :
  validate_ipc_block_bounds blocks capacity DESTINATION 1 = Ok tt \/
  validate_ipc_block_bounds blocks capacity DESTINATION 1 = Err OutOfRange.
Proof.
  unfold validate_ipc_block_bounds. induction blocks as [|b l IH]; [by left|]. cbn [forM].
  destruct (_ || _); [by right|exact IH].
Qed.

(** The records of a message, once accepted, are copied into their tensor only. *)
Lemma accepted_copy_confined `{Env} d m a n p base capacity size (W : Z -> Prop) :
  device_ok d -> bytes_in m -> 0 <= capacity < W64 ->
  (forall x, base <= x < base + capacity -> W x) ->
  let blocks := (fun i => read_block (host m) a i) <$> seqZ 0 n in
  validate_ipc_block_bounds blocks capacity DESTINATION 1 = Ok tt ->
  wpr (device_copy d p base blocks size H2D m) (confined W m).
Proof.
  intros Hd Hm Hc HW blocks Hv. apply copy_confined; [apply Hd..|].
  apply (Forall_impl _ _ _ (validated_targets base capacity blocks Hc (read_blocks_range m a n Hm) Hv)).
  intros b [Hl Hk]. split; [done|]. auto.
Qed.

Lemma confined_bytes W m m' : bytes_in m -> confined W m m' -> bytes_in m'.
Proof. intros Hm [Hh _] a. rewrite Hh. apply Hm. Qed.

Section Confinement.
Context `{Env}.

(** The device bytes of the tensors of a TCP server. *)
Definition tcp_region (info : TCPInfo) (a : Z) : Prop :=
  exists layer tensor_ptrs t base capacity, ptrs info !! layer = Some tensor_ptrs /\
    tensor_ptrs !! t = Some base /\ layer_blk_sizes info !! t = Some capacity /\ base <= a < base + capacity.

(** The device bytes of the layers of a staged server. *)
Definition staged_region (s : RDMAStagedServer) (a : Z) : Prop :=
  exists layer base, gpu_ptrs_ s !! layer = Some base /\ base <= a < base + layer_blk_size_ s.

Lemma recv_tensor_confined d info layer tptrs buf_end t p m :
  device_ok d -> Forall in64 (layer_blk_sizes info) -> ptrs info !! layer = Some tptrs -> bytes_in m ->
  wpr (recv_tensor d (layer_blk_sizes info) tptrs buf_end t (p, m)) (fun r =>
    confined (tcp_region info) m (match r with inl m' => m' | inr s' => s'.2 end)).
Proof.
  intros Hd Hcap Hl Hm. unfold recv_tensor.
  destruct (_ <? _); [by apply wpr_ok|]. destruct (_ <? _); [by apply wpr_ok|].
  destruct (_ <? _); [done|]. destruct (_ <? _); [by apply wpr_ok|].
  apply wpr_bind, wpr_vec_idx. intros base Ht Hbase. apply wpr_bind, wpr_assert.
  destruct (_ <=? _); [by apply wpr_ok|]. apply wpr_bind, wpr_vec_idx. intros cap _ Hc.
  set (blocks := _ <$> _).
  destruct (validate_cases blocks cap) as [Hv|Hv]; rewrite Hv; [|by apply wpr_ok].
  apply wpr_bind. eapply wpr_mono; [|intros m' Hm'; by apply wpr_ok].
  apply (accepted_copy_confined d m _ _ _ base cap); try done.
  - by apply (Forall_lookup_1 _ _ _ _ Hcap Hc).
  - intros x Hx. by exists layer, tptrs, (Z.to_nat t), base, cap.
Qed.

Lemma recv_tensors_confined d info layer tptrs buf_end ts p m :
  device_ok d -> Forall in64 (layer_blk_sizes info) -> ptrs info !! layer = Some tptrs -> bytes_in m ->
  wpr (recv_tensors d (layer_blk_sizes info) tptrs buf_end ts (p, m)) (fun o =>
    confined (tcp_region info) m (match o with Replied m' | Dropped m' => m' end)).
Proof.
  intros Hd Hcap Hl. revert p m. induction ts as [|t ts IH]; intros p m Hm; cbn [recv_tensors]; [by apply wpr_ok|].
  apply wpr_bind. eapply wpr_mono; [by eapply recv_tensor_confined|]. intros [m'|[p' m']] Hc; [by apply wpr_ok|].
  eapply wpr_mono; [apply IH; by eapply confined_bytes|]. intros o Ho. simpl in *. by etrans.
Qed.

Lemma staged_handle_confined d s ra t in_buf len m :
  device_ok d -> in64 (layer_blk_size_ s) -> bytes_in m -> ra <> Err OutOfFuel ->
  wpr (staged_handle d s ra t in_buf len m) (fun o => confined (staged_region s) m (outcome_mem o)).
Proof.
  intros Hd Hcap Hm Hra. unfold staged_handle. destruct (_ <? _); [by apply wpr_ok|].
  apply wpr_bind, wpr_assert. apply wpr_bind. unfold rtassert. destruct (_ <=? _); [|done]. cbn [wpr].
  destruct (_ <? _); [by apply wpr_ok|]. destruct (_ <? _); [done|]. destruct (_ <=? _); [by apply wpr_ok|].
  apply wpr_bind, wpr_vec_idx. intros base Hl Hbase. apply wpr_bind, wpr_assert.
  destruct (_ =? 0); [by apply wpr_ok|].
  set (blocks := _ <$> _). destruct (validate_cases blocks (layer_blk_size_ s)) as [Hv|Hv]; rewrite Hv; [|by apply wpr_ok].
  apply wpr_bind. eapply wpr_mono.
  - apply (accepted_copy_confined d m _ _ _ base (layer_blk_size_ s) _ (staged_region s)); try done.
    intros x Hx. by exists (Z.to_nat (read_size (host m) (in_buf + RPC_HEADER + 8))), base.
  - intros m' Hm'. destruct ra as [|e]; [done|]. cbn. congruence.
Qed.

(** C18: Whatever bytes a peer sends, the TCP server's handle_kv_cache_data and the staged
    RDMA server's OnImmRecvCall terminate, and when they return they have changed no device
    byte outside the registered tensors and no host byte. *)
Theorem received_data_stays_in_tensors d m :
  device_ok d -> bytes_in m ->
  (forall info in_buf len, Forall in64 (layer_blk_sizes info) ->
     wpr (handle_kv_cache_data d info in_buf len m) (fun o =>
       confined (tcp_region info) m (match o with Replied m' | Dropped m' => m' end))) /\
  (forall s ra t key imm, in64 (layer_blk_size_ s) -> ra <> Err OutOfFuel ->
     wpr (on_imm_recv d s ra t key imm m) (fun o => confined (staged_region s) m (outcome_mem o))).
Proof.
  intros Hd Hm. split.
  - intros info in_buf len Hcap. unfold handle_kv_cache_data.
    destruct (_ <? 4); [by apply wpr_ok|]. destruct (negb _); [by apply wpr_ok|]. destruct (_ <? _); [by apply wpr_ok|].
    destruct (ptrs info !! _) as [tptrs|] eqn:Hl; [|by apply wpr_ok]. destruct (negb _); [by apply wpr_ok|].
    by eapply recv_tensors_confined.
  - intros s ra t key imm Hcap Hra. unfold on_imm_recv. destruct (_ =? 0); [by apply wpr_ok|].
    destruct (staged_guards_ s !! key); [|by apply wpr_ok]. destruct (find_buffer _ _); [|by apply wpr_ok].
    by apply staged_handle_confined.
Qed.
End Confinement.

(** ** Examples *)
Definition staged_request : list Z :=
  rpc_header STAGED_PREALLOC_REQ_MAGIC 77 ++ le_bytes 4 2 ++ le_bytes 8 96 ++ le_bytes 8 96.

Definition two_layer_server : RDMAStagedServer := mkStagedServer [5000; 5100] 64 ∅ ∅.

Definition recv_alloc_at (i _len : Z) : res RecvMem := Ok (mkRecvMem (20000 + i * 1000) (Some (50 + i))).

Definition after_request : RDMAStagedServer :=
  (@staged_on_recv debug_env sample_crc sample_handles sample_server recv_alloc_at (Ok tt) 1 (fun _ => 0)
     staged_request two_layer_server).1.

Lemma known_buffers_are_live_witness :
  find_buffer 2 (default new_guard (staged_guards_ after_request !! 1)) =
    Some (mkRecvBuffer (mkRecvMem 21000 (Some 51)) 96 2 1) /\
  21000 ∈ pool_ after_request /\ decode_staged_imm_data (encode_staged_imm_data 2) = 2.
Proof.
  split; [vm_compute; reflexivity|].
  destruct (@known_buffers_are_live debug_env sample_crc sample_handles sample_server sample_receiver
    two_layer_server after_request sample_memory) as (Hk & _).
  - reflexivity.
  - apply (reach_step _ _ _ _ _ (two_layer_server, sample_memory) (EvRecv recv_alloc_at (Ok tt) 1 staged_request)).
    + apply reach_init.
    + split; [intros; apply not_elem_of_empty|]. intros i j size size' mem mem' [= <-] [= <-]. cbn. lia.
    + vm_compute. reflexivity.
  - destruct (Hk 1 2 (mkRecvBuffer (mkRecvMem 21000 (Some 51)) 96 2 1)) as (Hp & _ & _ & Hr & _).
    + eexists. split; vm_compute; reflexivity.
    + by split.
Defined.

Lemma received_data_stays_in_tensors_witness :
  wpr (@on_imm_recv debug_env sample_receiver after_request (Ok tt) (mkTimes 1 2 3) 1 2 sample_memory) (fun o =>
    confined (staged_region after_request) sample_memory (outcome_mem o)) /\
  wpr (@handle_kv_cache_data debug_env sample_receiver sample_info 300 157 sample_memory) (fun o =>
    confined (tcp_region sample_info) sample_memory (match o with Replied m' | Dropped m' => m' end)).
Proof.
  destruct (@received_data_stays_in_tensors debug_env sample_receiver sample_memory) as [Ht Hs].
  - split; done.
  - intros a. done.
  - split; [apply Hs; done|apply Ht]. by repeat constructor.
Defined.

(** The second allocation of a request fails: the first buffer stays allocated, and no
    connection knows it. *)
Definition failing_alloc (i len : Z) : res RecvMem := if i =? 0 then recv_alloc_at i len else Err RuntimeError.

Example failed_prealloc_leaks :
  let s := (resp_staged_prealloc failing_alloc (Ok tt) 1 staged_request two_layer_server).1 in
  pool_ s = {[20000]} /\ staged_guards_ s = {[1 := mkGuard ∅ 3]} /\ pool_ (closed_hook 1 s) = {[20000]}.
Proof. vm_compute. done. Qed.

(** A message whose record count is [2 ^ 61]: the byte count wraps to 0 and passes the length
    check, and building the vector throws out of a callback that may not. *)
Definition staged_message (count : Z) (body : list Z) (len : Z) : list Z :=
  rpc_header KV_CACHE_DATA_MAGIC 7 ++ le_bytes 8 len ++ le_bytes 8 0 ++ le_bytes 8 count ++ body.

Example oversized_count_ends_staged_server :
  @on_imm_recv debug_env sample_receiver after_request (Ok tt) (mkTimes 1 2 3) 1 1
    (write_host 20000 (staged_message (2 ^ 61) [] 36) sample_memory) = Err LengthError.
Proof. vm_compute. reflexivity. Qed.

(** Without assertions the bytes a record announces are not compared with the bytes that were
    sent: a message without data copies what lies behind it in host memory. *)
Definition ndebug_env : Env := {|
  ndebug := true;
  env_bf162fp8_conversion := false;
  env_pad_last_attn_block := false;
  env_cache_shape := 1;
|}.

Definition short_message : Mem :=
  write_host 20000 (staged_message 1 (block_wire (mkIpcBlock 0 0 4)) 60 ++ [1; 2; 3; 4]) sample_memory.

Example missing_data_is_copied :
  match @on_imm_recv ndebug_env sample_receiver after_request (Ok tt) (mkTimes 1 2 3) 1 1 short_message with
  | Ok (SReplied m _) => read (gpu m) 5000 4 = [1; 2; 3; 4]
  | _ => False
  end /\
  @on_imm_recv debug_env sample_receiver after_request (Ok tt) (mkTimes 1 2 3) 1 1 short_message = Err AssertFailed.
Proof. split; vm_compute; reflexivity. Qed.
