(* ===== verification/StagedChannel.v ===== *)
(** The sending side of the staged RDMA path ([src/rdma_staged_channel.cpp]): a layer is
    gathered into a host buffer and written, with an immediate value that names the buffer,
    into a host buffer the server has allocated for this connection.

    Allocation, the server's answer to a preallocation request and the completion of writes
    are arguments.  [StagedServer] has the other end; [StagedTransfer] runs both.  Time
    stamps and statistics of the log are left out. *)

From stdpp Require Import gmap.
From S2P Require Import Prelude.
From S2P Require Import Common.
From S2P Require Import CopySpec.
From S2P Require Import Channel.
From S2P Require Import CopyKernel.
From S2P Require Import TcpWire.
From S2P Require Import Rdma.
From S2P Require Import StagedServer.

(** [RTCHECK(b)]: throws. *)
Definition rtcheck (b : bool) : res unit := if b then Ok tt else Err RuntimeError.

(** ** Data *)
Record HostBuffer := mkHostBuffer { hb_buf : Z; hb_len : Z }.

Record RemoteStagedBuffer := mkRemote {
  remote_addr : Z;
  rs_size : Z;
  rs_rkey : Z;
  rs_buffer_id : Z;
}.

(** A posted [WriteSingleWithImm]. *)
Record ImmWrite := mkImmWrite {
  iw_buf : Z;
  iw_len : Z;
  iw_raddr : Z;
  iw_rkey : Z;
  iw_imm : Z;
}.

(** [base_] is the part inherited from [RDMAChannel]; a posted write is kept with the id
    under which its reply is expected. *)
Record RDMAStagedChannel := mkStagedChannel {
  base_ : RDMAChannel;
  host_buffers_ : list HostBuffer;
  remote_buffers_ : list RemoteStagedBuffer;
  staged_payload_size_ : Z;
  staged_write_futs_ : list (Z * ImmWrite);
}.

(** ** Messages *)
Definition prealloc_request (reqid : Z) (layer_sizes : list Z) : res (list Z) :=
  let* _ := rtassert (negb (vsize layer_sizes =? 0)) in
  Ok (rpc_header STAGED_PREALLOC_REQ_MAGIC reqid ++ le_bytes 4 (u32 (vsize layer_sizes)) ++
      flat_map (le_bytes 8) layer_sizes).

Definition read_entry (buf : list Z) : StagedPreallocRespEntry :=
  mkEntry (int_at 8 0 buf) (int_at 8 1 buf) (int_at 4 4 buf) (int_at 4 5 buf).

(** [GetStagedPreallocResp::operator()] for a reply that arrived. *)
Definition read_prealloc_resp (reqid : Z) (buf : list Z) : res (list StagedPreallocRespEntry) :=
  let* _ := rtassert (RPC_HEADER + 4 <=? vsize buf) in
  let* _ := rtassert (msg_magic buf =? STAGED_PREALLOC_RESP_MAGIC) in
  let* _ := rtassert (msg_reqid buf =? reqid) in
  let body := drop (Z.to_nat RPC_HEADER) buf in
  let layer_num := of_le (take 4 body) in
  let body := drop 4 body in
  let* _ := rtassert (vsize body =? layer_num * SIZEOF_ENTRY) in
  let entries := (fun i => read_entry (drop (Z.to_nat (i * SIZEOF_ENTRY)) body)) <$> seqZ 0 layer_num in
  let* _ := forM entries (fun e (_ : unit) =>
    if (e_buffer_id e =? 0) || (STAGED_IMM_BUFFER_MASK <? e_buffer_id e) then Err OverflowError else Ok tt) tt in
  Ok entries.

(** [SendKVCacheData::operator()] for a reply that arrived.  The length test covers two of
    the five values that are read. *)
Definition read_kv_reply (reqid : Z) (buf : list Z) : res Times :=
  let* _ := rtassert (RPC_HEADER <=? vsize buf) in
  let* _ := rtassert (msg_magic buf =? KV_CACHE_DATA_MAGIC) in
  let* _ := rtassert (msg_reqid buf =? reqid) in
  if RPC_HEADER + 8 + 8 <=? vsize buf then
    if vsize buf <? RPC_HEADER + 8 + 4 + 4 + 8 + 8 then Err Undefined else
    let body := drop (Z.to_nat RPC_HEADER) buf in
    Ok (mkTimes (of_le (take 8 body)) (of_le (take 8 (drop 16 body))) (of_le (take 8 (drop 24 body))))
  else Err RuntimeError.

(** ** The messages, read back *)
Lemma length_flat_map_k {A} (f : A -> list Z) k l :
  Forall (fun y => length (f y) = k) l -> length (flat_map f l) = (k * length l)%nat.
Proof. induction 1 as [|y l Hy _ IH]; [simpl; lia|]. cbn [flat_map length]. rewrite length_app. lia. Qed.

Lemma drop_flat_map_k {A} (f : A -> list Z) k l i x :
  Forall (fun y => length (f y) = k) l -> l !! i = Some x ->
  exists rest, drop (k * i) (flat_map f l) = f x ++ rest.
Proof.
  intros Hl. revert i. induction Hl as [|y l Hy Hl IH]; intros [|i] Hi; simplify_eq/=.
  - rewrite Nat.mul_0_r. by eexists.
  - destruct (IH i Hi) as [rest Hr]. exists rest. rewrite <- Hr, drop_app_ge by lia. f_equal. lia.
Qed.

(** Fixed-width items, read one by one. *)
Lemma read_items {A} (f : A -> list Z) (g : list Z -> A) k l :
  Forall (fun y => length (f y) = k) l -> Forall (fun y => forall rest, g (f y ++ rest) = y) l ->
  (fun i => g (drop (Z.to_nat i * k) (flat_map f l))) <$> seqZ 0 (vsize l) = l.
Proof.
  intros Hk Hg. apply list_eq. intros i. rewrite list_lookup_fmap. destruct (l !! i) as [x|] eqn:Hi.
  - rewrite lookup_seqZ_lt by (unfold vsize; apply lookup_lt_Some in Hi; lia). cbn [fmap option_fmap option_map].
    destruct (drop_flat_map_k f k l i x Hk Hi) as [rest Hd].
    replace (Z.to_nat (0 + Z.of_nat i) * k)%nat with (k * i)%nat by lia.
    rewrite Hd. f_equal. by apply (Forall_lookup_1 _ _ _ _ Hg Hi).
  - apply lookup_ge_None in Hi. by rewrite lookup_seqZ_ge by (unfold vsize; lia).
Qed.

Lemma drop_header magic reqid r : drop (Z.to_nat RPC_HEADER) (rpc_header magic reqid ++ r) = r.
Proof. unfold rpc_header. rewrite <- app_assoc. change (Z.to_nat RPC_HEADER) with (4 + 8)%nat. apply drop_le_bytes2. Qed.

Lemma msg_magic_header magic reqid r : 0 <= magic < W32 -> msg_magic (rpc_header magic reqid ++ r) = magic.
Proof.
  intros Hm. unfold msg_magic, int_at, rpc_header. change (4 * 0)%nat with 0%nat. rewrite drop_0, <- app_assoc, take_le_bytes.
  by apply of_le4.
Qed.

Lemma msg_reqid_header magic reqid r : 0 <= reqid < W64 -> msg_reqid (rpc_header magic reqid ++ r) = reqid.
Proof. intros Hr. unfold msg_reqid, rpc_header. by rewrite <- app_assoc, drop_le_bytes, take_le_bytes, of_le8. Qed.

Lemma vsize_header magic reqid r : vsize (rpc_header magic reqid ++ r) = RPC_HEADER + vsize r.
Proof. unfold rpc_header. by rewrite !vsize_app, !vsize_le_bytes. Qed.

Lemma prealloc_request_spec reqid sizes :
  sizes <> [] -> vsize sizes <= STAGED_PREALLOC_MAX_LAYERS -> Forall (fun z => 0 < z < W64) sizes ->
  exists req, prealloc_request reqid sizes = Ok req /\ parse_prealloc_request req = Ok sizes /\
    msg_magic req = STAGED_PREALLOC_REQ_MAGIC /\ RPC_HEADER <= vsize req /\
    (0 <= reqid < W64 -> msg_reqid req = reqid).
Proof.
  intros Hne Hn Hs. unfold prealloc_request. rewrite vsize_pos by done. cbn [rtassert rbind].
  pose proof Hn as Hn'. unfold STAGED_PREALLOC_MAX_LAYERS in Hn. rewrite staged_mask in Hn.
  assert (0 < vsize sizes) as H0 by (unfold vsize; destruct sizes; [done|simpl; lia]).
  rewrite u32_small by (unfold W32; lia). eexists. split; [done|].
  assert (Forall (fun z => length (le_bytes 8 z) = 8%nat) sizes) as Hlen
    by (apply Forall_true; intros; apply length_le_bytes).
  assert (vsize (flat_map (le_bytes 8) sizes) = vsize sizes * 8) as Hv
    by (unfold vsize; rewrite (length_flat_map_k _ 8) by done; lia).
  split_and!.
  - unfold parse_prealloc_request. rewrite drop_header, vsize_header, vsize_app, vsize_le_bytes, Hv.
    rewrite take_le_bytes, drop_le_bytes, of_le4 by (unfold W32; lia). unfold rtassert at 1 2 3 4.
    unfold RPC_HEADER. rewrite !(proj2 (Z.leb_le _ _)), (proj2 (Z.ltb_lt _ _)), (proj2 (Z.eqb_eq _ _)) by lia. cbn [rbind].
    assert ((fun i => int_at 8 (Z.to_nat i) (flat_map (le_bytes 8) sizes)) <$> seqZ 0 (vsize sizes) = sizes) as ->.
    { rewrite <- (read_items (le_bytes 8) (fun l => of_le (take 8 l)) 8 sizes) at 2; [|done|].
      - apply list_fmap_ext. intros ???. unfold int_at. do 3 f_equal. lia.
      - apply (Forall_impl _ _ _ Hs). intros z Hz rest. by rewrite take_le_bytes, of_le8 by lia. }
    rewrite forM_unit; [done|]. apply (Forall_impl _ _ _ Hs). intros z Hz. unfold rtassert. by rewrite (proj2 (Z.ltb_lt _ _)) by lia.
  - by apply msg_magic_header.
  - rewrite vsize_header. pose proof (vsize_nonneg (le_bytes 4 (vsize sizes) ++ flat_map (le_bytes 8) sizes)). lia.
  - apply msg_reqid_header.
Qed.

Definition entry_ok (e : StagedPreallocRespEntry) : Prop :=
  0 <= e_remote_addr e < W64 /\ 0 <= e_size e < W64 /\ 0 <= e_rkey e < W32 /\
  0 < e_buffer_id e <= STAGED_IMM_BUFFER_MASK.

Lemma read_entry_spec e rest : entry_ok e -> read_entry (entry_wire e ++ rest) = e.
Proof.
  destruct e as [a s k i]. intros (Ha & Hs & Hk & Hi). cbn in *. rewrite staged_mask in Hi. unfold read_entry.
  change (int_at 8 0 _) with (of_le (le_bytes 8 a)). change (int_at 8 1 _) with (of_le (le_bytes 8 s)).
  change (int_at 4 4 _) with (of_le (le_bytes 4 k)). change (int_at 4 5 _) with (of_le (le_bytes 4 i)).
  by rewrite !of_le8, !of_le4 by (assumption || unfold W32; lia).
Qed.

Lemma read_prealloc_resp_spec reqid entries :
  0 <= reqid < W64 -> vsize entries < W32 -> Forall entry_ok entries ->
  read_prealloc_resp reqid (prealloc_reply reqid entries) = Ok entries.
Proof.
  intros Hr Hn He. unfold read_prealloc_resp, prealloc_reply. pose proof (vsize_nonneg entries).
  rewrite u32_small by lia. rewrite vsize_header, msg_magic_header, msg_reqid_header, drop_header by done.
  rewrite take_le_bytes, drop_le_bytes, of_le4 by lia.
  assert (Forall (fun e => length (entry_wire e) = 24%nat) entries) as Hlen by (apply Forall_true; by intros []).
  assert (vsize (flat_map entry_wire entries) = vsize entries * SIZEOF_ENTRY) as Hv
    by (unfold vsize, SIZEOF_ENTRY; rewrite (length_flat_map_k _ 24) by done; lia).
  rewrite vsize_app, vsize_le_bytes, Hv. unfold rtassert. rewrite !Z.eqb_refl.
  rewrite (proj2 (Z.leb_le _ _)) by (unfold SIZEOF_ENTRY; lia). cbn [rbind].
  assert ((fun i => read_entry (drop (Z.to_nat (i * SIZEOF_ENTRY)) (flat_map entry_wire entries))) <$> seqZ 0 (vsize entries)
    = entries) as ->.
  { rewrite <- (read_items entry_wire read_entry 24 entries) at 2; [|done|].
    - apply Forall_fmap_ext_1. apply Forall_forall. intros i Hi%elem_of_seqZ. unfold SIZEOF_ENTRY. do 2 f_equal. lia.
    - apply (Forall_impl _ _ _ He). intros e Hok rest. by apply read_entry_spec. }
  rewrite forM_unit; [done|]. apply (Forall_impl _ _ _ He). intros e (_ & _ & _ & Hi).
  rewrite (proj2 (Z.eqb_neq _ _)), (proj2 (Z.ltb_ge _ _)) by lia. done.
Qed.

Definition times_ok (t : Times) : Prop :=
  0 <= recv_start t < W64 /\ 0 <= h2d_start t < W64 /\ 0 <= h2d_end t < W64.

Lemma read_kv_reply_spec reqid t :
  0 <= reqid < W64 -> times_ok t -> read_kv_reply reqid (kv_reply KV_CACHE_DATA_MAGIC reqid t) = Ok t.
Proof.
  destruct t as [t1 t2 t3]. intros Hr (H1 & H2 & H3). cbn in H1, H2, H3.
  unfold read_kv_reply, kv_reply. cbn [recv_start h2d_start h2d_end].
  rewrite vsize_header, msg_magic_header, msg_reqid_header, drop_header by done.
  rewrite !vsize_app, !vsize_le_bytes. unfold rtassert. rewrite !Z.eqb_refl. cbn [rbind].
  change (RPC_HEADER <=? _) with true. cbn [rbind]. change (RPC_HEADER + 8 + 8 <=? _) with true.
  change (_ <? RPC_HEADER + 8 + 4 + 4 + 8 + 8) with false. cbn [rbind].
  change 24%nat with (16 + 8)%nat. rewrite <- drop_drop.
  assert (forall r, drop 16 (le_bytes 8 t1 ++ le_bytes 4 0 ++ le_bytes 4 0 ++ r) = r) as Hd.
  { intros r. rewrite !app_assoc. by rewrite drop_app_length' by (by rewrite !length_app, !length_le_bytes). }
  rewrite Hd, drop_le_bytes, !take_le_bytes.
  rewrite <- (app_nil_r (le_bytes 8 t3)), take_le_bytes. by rewrite !of_le8.
Qed.

Section Staged.
Context `{Env} (crc32_z : Z -> list Z -> Z).

(** ** Registering *)
Definition staged_payload (md_size total : Z) : Z :=
  u64 (RPC_HEADER + 8 + 8 + 8 + md_size * SIZEOF_IPC_BLOCK + total).

(** The host buffers of a batch, one per layer; each request takes the next connection in turn.
    [host_alloc i n] is the answer to the [i]-th request. *)
Definition alloc_host_buffers (host_alloc : Z -> Z -> res HostBuffer) (n total_bytes : Z) (c : RDMAChannel)
    : res (list HostBuffer * RDMAChannel) :=
  for_range 0 n (fun i s =>
    let '(bufs, c) := s in
    let* '(_, c) := next_ch c in
    let* b := host_alloc i total_bytes in
    let* _ := rtcheck (negb (hb_buf b =? 0)) in
    let* _ := rtcheck (total_bytes <=? hb_len b) in
    Ok (bufs ++ [b], c)) ([], c).

Definition remote_of (e : StagedPreallocRespEntry) : RemoteStagedBuffer :=
  mkRemote (e_remote_addr e) (e_size e) (e_rkey e) (e_buffer_id e).

(** [register_data].  [server] answers the preallocation request, or throws (a send error or
    the timeout). *)
Definition staged_register_data (sort : list IpcBlock -> list IpcBlock) (e : InitEnv) (crc_on : bool)
    (host_alloc : Z -> Z -> res HostBuffer) (server : list Z -> res (list Z)) (reqid : Z)
    (data : list (list IpcBlock)) (kind : TPKind) (sc : RDMAStagedChannel) : res RDMAStagedChannel :=
  let* c := rdma_register_data crc32_z sort e crc_on data kind (base_ sc) in
  match data_ c with
  | None => Err Undefined
  | Some r =>
      let n := dst_layer_num_ c in
      let data := reg_data r in
      let total := sb_size_total_ r in
      let* '(bufs, c) :=
        if (vsize (host_buffers_ sc) =? 0) && (0 <? total) then
          assert: (vsize data =? 1);
          let* tensor_data := vec_idx data 0 in
          alloc_host_buffers host_alloc n (staged_payload (vsize tensor_data) total) c
        else Ok (host_buffers_ sc, c) in
      let sc := mkStagedChannel c bufs (remote_buffers_ sc) (staged_payload_size_ sc) (staged_write_futs_ sc) in
      if 0 <? total then
        let* _ := rtassert (negb (vsize (host_buffers_ sc) =? 0)) in
        let* _ := rtassert (negb (chs_n c =? 0)) in
        assert: (vsize data =? 1);
        let* tensor_data := vec_idx data 0 in
        let payload := staged_payload (vsize tensor_data) total in
        let can_reuse := (payload <=? staged_payload_size_ sc) && (vsize (remote_buffers_ sc) =? n) in
        if can_reuse then Ok sc else
        let* req := prealloc_request reqid (replicate (Z.to_nat n) payload) in
        let* reply := server req in
        let* entries := read_prealloc_resp reqid reply in
        let* _ := rtassert (vsize entries =? n) in
        let* _ := forM entries (fun e (_ : unit) =>
          let* _ := rtassert (negb (e_remote_addr e =? 0)) in rtassert (negb (e_rkey e =? 0))) tt in
        Ok (mkStagedChannel c (host_buffers_ sc) (remote_of <$> entries) payload (staged_write_futs_ sc))
      else Ok sc
  end.

(** ** Sending a layer *)

(** [send_data]: the channel and the memory afterwards. *)
Definition staged_send_data (d : Device) (ctx : CliCtx) (reqid layer_idx : Z) (s : RDMAStagedChannel * Mem)
    : res (RDMAStagedChannel * Mem) :=
  let '(sc, m) := s in
  let c := base_ sc in
  assert: (layer_idx <? dst_layer_num_ c);
  assert: (dst_layer_num_ c =? vsize (layer_mrs ctx));
  match data_ c with
  | None => assert: false; Err Undefined
  | Some r =>
      assert: (vsize (reg_data r) =? 1);
      let* data := vec_idx (reg_data r) 0 in
      assert: negb (vsize data =? 0);
      let* _ := rtassert (negb (chs_n c =? 0)) in
      let metadata_size := vsize data in
      let header_bytes := RPC_HEADER + 8 + 8 in
      let metadata_bytes := u64 (8 + metadata_size * SIZEOF_IPC_BLOCK) in
      let tensor_send_size := sb_size_total_ r in
      let total_send_size := u64 (header_bytes + metadata_bytes + tensor_send_size) in
      assert: (vsize (host_buffers_ sc) =? u64 (dst_layer_num_ c - layer_idx));
      match reverse (host_buffers_ sc) with
      | [] => Err Undefined
      | back :: rest =>
          assert: (total_send_size <=? hb_len back);
          assert: (vsize (remote_buffers_ sc) =? dst_layer_num_ c);
          let* remote_buf := vec_idx (remote_buffers_ sc) layer_idx in
          let* _ := rtassert (total_send_size <=? rs_size remote_buf) in
          let* _ := rtassert (rs_buffer_id remote_buf <=? STAGED_IMM_BUFFER_MASK) in
          let buf := hb_buf back in
          let* src_mrs := vec_idx (layer_mrs ctx) layer_idx in
          let* '(gpu_src_ptr, _) := vec_idx src_mrs 0 in
          let kernel_blocks := (fun b => mkIpcBlock 0 (src_offset b) (length_ b)) <$> data in
          let* m := device_copy d (buf + header_bytes + metadata_bytes) gpu_src_ptr kernel_blocks
                      tensor_send_size D2H m in
          let m := write_host buf (rpc_header KV_CACHE_DATA_MAGIC reqid) m in
          let m := write_host (buf + RPC_HEADER) (le_bytes 8 total_send_size) m in
          let m := write_host (buf + RPC_HEADER + 8) (le_bytes 8 layer_idx) m in
          let m := write_host (buf + header_bytes) (le_bytes 8 metadata_size) m in
          let m := write_host (buf + header_bytes + 8) (flat_map block_wire data) m in
          let w := mkImmWrite buf total_send_size (remote_addr remote_buf) (rs_rkey remote_buf)
                     (encode_staged_imm_data (rs_buffer_id remote_buf)) in
          Ok (mkStagedChannel c (reverse rest) (remote_buffers_ sc) (staged_payload_size_ sc)
                (staged_write_futs_ sc ++ [(reqid, w)]), m)
      end
  end.

(** ** Flush *)

(** [flush]: [submitted] is the completion of each write, [replies] the reply to each layer
    or what the timeout throws.  When either fails the remote buffers are given up. *)
Definition staged_flush (submitted : list (res unit)) (replies : list (res (list Z))) (sc : RDMAStagedChannel)
    : RDMAStagedChannel * res (list Times) :=
  let c := set_data None (dataperch_ (base_ sc)) (base_ sc) in
  let r :=
    let* _ := forM submitted (fun o (_ : unit) => o) tt in
    forM (zip (staged_write_futs_ sc) replies) (fun wr ts =>
      let* reply := wr.2 in
      let* t := read_kv_reply wr.1.1 reply in
      Ok (ts ++ [t])) [] in
  match r with
  | Err e => (mkStagedChannel c (host_buffers_ sc) [] 0 [], Err e)
  | Ok ts => (mkStagedChannel c (host_buffers_ sc) (remote_buffers_ sc) (staged_payload_size_ sc) [],
              assert: (vsize (host_buffers_ sc) =? 0); Ok ts)
  end.

(** ** The message of a layer *)
Definition staged_len (t : Tensor) : Z :=
  STAGED_HEADER + vsize (t_blocks t) * SIZEOF_IPC_BLOCK + sum_length (t_blocks t).

Definition staged_wire (g : memory) (reqid layer : Z) (t : Tensor) : list Z :=
  rpc_header KV_CACHE_DATA_MAGIC reqid ++ le_bytes 8 (staged_len t) ++ le_bytes 8 layer ++
  le_bytes 8 (vsize (t_blocks t)) ++ flat_map block_wire (t_blocks t) ++ blob g (t_src t) (t_blocks t).

Lemma vsize_rpc_header magic reqid : vsize (rpc_header magic reqid) = RPC_HEADER.
Proof. unfold rpc_header. by rewrite vsize_app, !vsize_le_bytes. Qed.

Lemma vsize_staged_wire g reqid layer t :
  tensor_ok t -> vsize (staged_wire g reqid layer t) = staged_len t.
Proof.
  intros Ht. unfold staged_wire, staged_len, STAGED_HEADER.
  rewrite !vsize_app, vsize_rpc_header, !vsize_le_bytes, vsize_blocks_wire, vsize_blob; [lia|].
  apply (fits_blocks_ok (t_capacity t)), Ht.
Qed.

Lemma write_before m a u v x : write (write m (a + vsize u) v) a u x = write m a (u ++ v) x.
Proof.
  unfold write. rewrite vsize_app. pose proof (vsize_nonneg u). pose proof (vsize_nonneg v).
  destruct (Z.leb_spec a x), (Z.ltb_spec x (a + vsize u)), (Z.leb_spec (a + vsize u) x),
    (Z.ltb_spec x (a + vsize u + vsize v)), (Z.ltb_spec x (a + (vsize u + vsize v))); simpl; try lia; try done.
  all: f_equal; first [by rewrite lookup_app_l by (unfold vsize in *; lia)
    |rewrite lookup_app_r by (unfold vsize in *; lia); f_equal; unfold vsize; lia].
Qed.

(** Several writes in a row, and then what was written behind them. *)
Lemma header_writes m a h1 h2 h3 h4 h5 v x :
  write (write (write (write (write (write m (a + vsize (h1 ++ h2 ++ h3 ++ h4 ++ h5)) v) a h1)
    (a + vsize h1) h2) (a + vsize h1 + vsize h2) h3) (a + vsize h1 + vsize h2 + vsize h3) h4)
    (a + vsize h1 + vsize h2 + vsize h3 + vsize h4) h5 x
  = write m a (h1 ++ h2 ++ h3 ++ h4 ++ h5 ++ v) x.
Proof.
  set (m1 := write m _ v).
  assert (forall u w y, write (write m1 a u) (a + vsize u) w y = write m1 a (u ++ w) y) as Hs by (intros; apply write_app).
  rewrite (write_ext _ (write m1 a (h1 ++ h2 ++ h3 ++ h4))).
  - replace (a + vsize h1 + vsize h2 + vsize h3 + vsize h4) with (a + vsize (h1 ++ h2 ++ h3 ++ h4))
      by (rewrite !vsize_app; lia).
    rewrite Hs, <- !app_assoc. unfold m1. by rewrite write_before, <- !app_assoc.
  - intros y. rewrite (write_ext _ (write m1 a (h1 ++ h2 ++ h3))).
    + replace (a + vsize h1 + vsize h2 + vsize h3) with (a + vsize (h1 ++ h2 ++ h3)) by (rewrite !vsize_app; lia).
      by rewrite Hs, <- !app_assoc.
    + intros z. rewrite (write_ext _ (write m1 a (h1 ++ h2))).
      * replace (a + vsize h1 + vsize h2) with (a + vsize (h1 ++ h2)) by (rewrite !vsize_app; lia).
        by rewrite Hs, <- !app_assoc.
      * intros ?. apply Hs.
Qed.

(** ** Sending *)
Lemma staged_send_spec d ctx sc m r t bufs back layer reqid mrs lkey rb :
  device_ok d -> tensor_ok t -> staged_len t < W64 ->
  data_ (base_ sc) = Some r -> registered_layer [t] r -> 0 < chs_n (base_ sc) ->
  dst_layer_num_ (base_ sc) = vsize (layer_mrs ctx) -> vsize (layer_mrs ctx) < W64 ->
  layer_mrs ctx !! layer = Some mrs -> mrs !! 0%nat = Some (t_src t, lkey) ->
  host_buffers_ sc = bufs ++ [back] -> vsize bufs + 1 = dst_layer_num_ (base_ sc) - Z.of_nat layer ->
  staged_len t <= hb_len back ->
  vsize (remote_buffers_ sc) = dst_layer_num_ (base_ sc) -> remote_buffers_ sc !! layer = Some rb ->
  staged_len t <= rs_size rb -> rs_buffer_id rb <= STAGED_IMM_BUFFER_MASK ->
  exists m', staged_send_data d ctx reqid (Z.of_nat layer) (sc, m) =
      Ok (mkStagedChannel (base_ sc) bufs (remote_buffers_ sc) (staged_payload_size_ sc)
            (staged_write_futs_ sc ++ [(reqid, mkImmWrite (hb_buf back) (staged_len t) (remote_addr rb) (rs_rkey rb)
               (encode_staged_imm_data (rs_buffer_id rb)))]), m') /\
    (forall a, host m' a = write (host m) (hb_buf back) (staged_wire (gpu m) reqid (Z.of_nat layer) t) a) /\
    (forall a, gpu m' a = gpu m a).
Proof.
  intros Hd Ht Hlen Hdata [Hreg _ _ Htot] Hch Hnum Hw Hmrs Hm0 Hbufs Hnb Hback Hrn Hrb Hrs Hid.
  pose proof Ht as [Hne Hf Hsz _ Hcap _]. pose proof (fits_blocks_ok _ _ Hf) as Hb.
  destruct (total_bound _ Hb Hsz) as [Hs Hn]. pose proof (sum_length_nonneg _ Hb) as Hs0.
  pose proof (vsize_nonneg (t_blocks t)) as Hv0. pose proof (lt_vsize _ _ _ Hmrs) as Hlt. rewrite Z.ltb_lt in Hlt.
  assert (layer_bytes [t] = sum_length (t_blocks t)) as Hlb by (unfold layer_bytes; simpl; lia).
  rewrite Hlb in Htot. unfold staged_send_data. rewrite Hdata, Hreg, Htot.
  rewrite Hnum in *. rewrite cassert_true by (by apply Z.ltb_lt). cbn [rbind].
  rewrite cassert_true by apply Z.eqb_refl. cbn [rbind fmap list_fmap].
  change (vsize [t_blocks t] =? 1) with true. rewrite cassert_true by done. cbn [rbind].
  change (vec_idx [t_blocks t] 0) with (@Ok (list IpcBlock) (t_blocks t)). cbn [rbind].
  rewrite cassert_true by (by rewrite vsize_pos). cbn [rbind].
  unfold rtassert at 1. rewrite (proj2 (Z.eqb_neq (chs_n _) 0)) by lia. cbn [negb rbind].
  unfold staged_len, STAGED_HEADER in *. unfold SIZEOF_IPC_BLOCK, RPC_HEADER in *.
  rewrite (u64_small (8 + _)) by lia. set (total := 12 + 8 + 8 + (8 + vsize (t_blocks t) * 24) + sum_length (t_blocks t)).
  assert (total = 12 + 8 + 8 + 8 + vsize (t_blocks t) * 24 + sum_length (t_blocks t)) as Htl by (unfold total; lia).
  rewrite (u64_small total) by lia. rewrite <- Htl in Hback, Hrs |- *.
  rewrite Hbufs, cassert_true; [|rewrite u64_small by lia; rewrite vsize_app; change (vsize [back]) with 1; apply Z.eqb_eq; lia].
  cbn [rbind]. rewrite reverse_snoc. cbn [rbind].
  rewrite cassert_true by (by apply Z.leb_le). cbn [rbind]. rewrite Hrn, cassert_true by (by rewrite Z.eqb_refl).
  cbn [rbind]. rewrite (vec_idx_Some (remote_buffers_ sc) _ rb) by (lia || by rewrite Nat2Z.id). cbn [rbind].
  unfold rtassert. rewrite !(proj2 (Z.leb_le _ _)) by done. cbn [rbind].
  rewrite (vec_idx_Some (layer_mrs ctx) _ mrs) by (lia || by rewrite Nat2Z.id). cbn [rbind].
  rewrite (vec_idx_Some mrs 0 (t_src t, lkey)) by done. cbn [rbind].
  destruct (device_gather d (hb_buf back + (12 + 8 + 8) + (8 + vsize (t_blocks t) * 24)) (t_src t) (t_blocks t) m Hd Hb Hs)
    as (m1 & Hok & Hh & Hg).
  unfold gather_blocks in Hok. rewrite Hok. cbn [rbind]. eexists. rewrite reverse_involutive. split; [done|].
  split; [|done]. intros a. cbn [host write_host].
  unfold staged_wire. set (h1 := rpc_header _ _). set (h3 := le_bytes 8 (Z.of_nat layer)).
  set (h4 := le_bytes 8 (vsize (t_blocks t))). set (h5 := flat_map _ _).
  assert (staged_len t = total) as -> by (unfold staged_len, STAGED_HEADER, RPC_HEADER, SIZEOF_IPC_BLOCK; lia).
  set (h2 := le_bytes 8 total). rewrite <- (header_writes (host m) (hb_buf back) h1 h2 h3 h4 h5).
  assert (vsize h1 = 12 /\ vsize h2 = 8 /\ vsize h3 = 8 /\ vsize h4 = 8 /\ vsize h5 = vsize (t_blocks t) * 24)
    as (E1 & E2 & E3 & E4 & E5)
    by (unfold h1, h2, h3, h4, h5; rewrite vsize_rpc_header, !vsize_le_bytes, vsize_blocks_wire; done).
  rewrite !vsize_app, E1, E2, E3, E4, E5.
  replace (hb_buf back + 12 + 8 + 8) with (hb_buf back + (12 + 8 + 8)) by lia.
  do 5 (apply write_ext; intros ?). rewrite Hh. f_equal. lia.
Qed.

(** ** Receiving *)
Lemma holds_head m a u v : holds m a (u ++ v) -> holds m a u.
Proof. by intros [? _]%holds_app. Qed.

Lemma staged_handle_spec d s g t layer reqid tm in_buf len m :
  device_ok d -> tensor_ok t -> staged_len t <= len -> staged_len t < W64 -> 0 <= reqid < W64 ->
  Z.of_nat layer < W64 -> gpu_ptrs_ s !! layer = Some (t_dst t) -> layer_blk_size_ s = t_capacity t ->
  holds (host m) in_buf (staged_wire g reqid (Z.of_nat layer) t) ->
  exists m', staged_handle d s (Ok tt) tm in_buf len m =
      Ok (SReplied m' (kv_reply KV_CACHE_DATA_MAGIC reqid tm)) /\
    (forall a, host m' a = host m a) /\ (forall a, gpu m' a = layer_copy g [t] (gpu m) a).
Proof.
  intros Hd Ht Hle Hlen Hreq Hlayer Hptr Hcap Hh. pose proof Ht as [Hne Hf Hsz Hnd Hc Hp].
  pose proof (fits_blocks_ok _ _ Hf) as Hb. destruct (total_bound _ Hb Hsz) as [Hs Hn].
  pose proof (sum_length_nonneg _ Hb) as Hs0. pose proof (vsize_nonneg (t_blocks t)) as Hv0.
  unfold staged_wire, rpc_header in Hh. rewrite <- app_assoc in Hh.
  apply holds_app in Hh as [H1 Hh]. apply holds_app in Hh as [H2 Hh]. apply holds_app in Hh as [H3 Hh].
  apply holds_app in Hh as [H4 Hh]. apply holds_app in Hh as [H5 Hh]. apply holds_app in Hh as [H6 H7].
  rewrite !vsize_le_bytes, ?vsize_blocks_wire in *. change (Z.of_nat 4) with 4 in *. change (Z.of_nat 8) with 8 in *.
  unfold staged_handle. rewrite (proj2 (Z.ltb_ge _ _)) by (unfold staged_len, SIZEOF_IPC_BLOCK in *; lia).
  apply holds_read in H1. rewrite vsize_le_bytes in H1. change (Z.of_nat 4) with 4 in H1. rewrite H1.
  change (of_le (le_bytes 4 KV_CACHE_DATA_MAGIC)) with KV_CACHE_DATA_MAGIC.
  rewrite cassert_true by (by rewrite Z.eqb_refl). cbn [rbind].
  rewrite (holds_size _ _ _ H2) by done. unfold RPC_HEADER.
  replace (in_buf + 12) with (in_buf + 4 + 8) by lia. rewrite (holds_size _ _ _ H3) by (unfold staged_len, STAGED_HEADER, RPC_HEADER, SIZEOF_IPC_BLOCK in *; lia).
  unfold rtassert. rewrite (proj2 (Z.leb_le _ _)) by done. cbn [rbind].
  replace (in_buf + 4 + 8 + 16) with (in_buf + 4 + 8 + 8 + 8) by lia.
  rewrite (holds_size _ _ _ H4), (holds_size _ _ _ H5) by (unfold SIZEOF_IPC_BLOCK, W64 in *; lia).
  unfold staged_len, STAGED_HEADER, RPC_HEADER, SIZEOF_IPC_BLOCK in *.
  rewrite (u64_small (vsize (t_blocks t) * 24)), (u64_small (12 + 8 + 8 + 8 + _)) by lia.
  rewrite (proj2 (Z.ltb_ge _ (12 + 8 + 8 + 8 + vsize (t_blocks t) * 24))) by lia.
  rewrite (proj2 (Z.ltb_ge IPC_BLOCKS_MAX _))
    by (unfold IPC_BLOCKS_MAX, SIZEOF_IPC_BLOCK; apply Z.div_le_lower_bound; lia).
  replace (in_buf + (12 + 8 + 8 + 8)) with (in_buf + 4 + 8 + 8 + 8 + 8) by lia.
  rewrite (read_blocks _ _ _ _ H6 Hf) by lia.
  pose proof (lt_vsize _ _ _ Hptr) as Hlt. rewrite (proj2 (Z.leb_gt _ _)) by (by apply Z.ltb_lt).
  rewrite (vec_idx_Some (gpu_ptrs_ s) _ (t_dst t)) by (lia || by rewrite Nat2Z.id). cbn [rbind].
  rewrite cassert_true by (by rewrite (proj2 (Z.eqb_neq _ _))). cbn [rbind]. rewrite Hcap.
  assert (t_capacity t <> 0) as Hcz.
  { destruct (t_blocks t) as [|b l]; [done|]. apply Forall_cons in Hf as [(? & _ & ? & ?) _]. lia. }
  rewrite (proj2 (Z.eqb_neq _ 0)) by done. rewrite validate_fits by (done || lia).
  rewrite (u64_small (_ - _)) by lia.
  replace (12 + 8 + 8 + 8 + vsize (t_blocks t) * 24 + sum_length (t_blocks t) - (12 + 8 + 8 + 8 + vsize (t_blocks t) * 24))
    with (sum_length (t_blocks t)) by lia.
  destruct (device_scatter d g _ (t_src t) (t_dst t) (t_blocks t) m Hd Hb Hs Hnd H7) as (m' & Hok & Hh' & Hg').
  rewrite Hok. cbn [rbind]. by exists m'.
Qed.

(** ** Writes to separate buffers *)
Definition written (m : memory) (ws : list (Z * list Z)) : memory := foldl (fun m w => write m w.1 w.2) m ws.

Definition separate (ws : list (Z * Z)) : Prop :=
  forall i j a n b k, i <> j -> ws !! i = Some (a, n) -> ws !! j = Some (b, k) -> a + n <= b \/ b + k <= a.

Definition ranges (ws : list (Z * list Z)) : list (Z * Z) := (fun w => (w.1, vsize w.2)) <$> ws.

Lemma write_other m a l x : x < a \/ a + vsize l <= x -> write m a l x = m x.
Proof. intros Hx. unfold write. destruct (Z.leb_spec a x), (Z.ltb_spec x (a + vsize l)); simpl; try done. lia. Qed.

Lemma separate_tail w ws : separate (w :: ws) -> separate ws.
Proof. intros Hs i j a n b k Hij Hi Hj. apply (Hs (S i) (S j) a n b k); [lia|done..]. Qed.

Lemma written_ext m m' ws x : (forall y, m y = m' y) -> written m ws x = written m' ws x.
Proof.
  revert m m'. induction ws as [|w ws IH]; intros m m' Hm; [by apply Hm|]. apply IH. intros y. by apply write_ext.
Qed.

Lemma written_other m ws x :
  Forall (fun w => x < w.1 \/ w.1 + vsize w.2 <= x) ws -> written m ws x = m x.
Proof.
  intros Hw. revert m. induction Hw as [|w ws Hx _ IH]; intros m; [done|].
  unfold written in *. cbn [foldl]. rewrite IH. by apply write_other.
Qed.

Lemma written_holds m ws i a l :
  separate (ranges ws) -> ws !! i = Some (a, l) -> holds (written m ws) a l.
Proof.
  revert m i. induction ws as [|w ws IH]; intros m i Hs Hi; [done|]. destruct i as [|i].
  - injection Hi as ->. unfold written. cbn [foldl]. fold (written (write m a l) ws). intros k x Hk.
    rewrite written_other; [by apply write_holds|]. apply Forall_forall. intros [b l'] Hin.
    apply list_elem_of_lookup in Hin as [j Hj]. pose proof (lookup_lt_Some _ _ _ Hk) as Hlt.
    destruct (Hs 0%nat (S j) a (vsize l) b (vsize l')) as [Hd|Hd]; [done|done| |unfold vsize in *; simpl; lia..].
    change (ranges ws !! j = Some (b, vsize l')). unfold ranges. by rewrite list_lookup_fmap, Hj.
  - apply (IH _ i); [by eapply separate_tail|done].
Qed.

(** ** All layers *)

(** A layer with the buffers it goes through. *)
Record Stage := mkStage {
  sg_tensor : Tensor;
  sg_host : HostBuffer;
  sg_remote : RemoteStagedBuffer;
}.

Section Layers.
Context (reqid_of : Z -> Z).

Definition stage_write (i : Z) (st : Stage) : Z * ImmWrite :=
  (reqid_of i, mkImmWrite (hb_buf (sg_host st)) (staged_len (sg_tensor st)) (remote_addr (sg_remote st))
    (rs_rkey (sg_remote st)) (encode_staged_imm_data (rs_buffer_id (sg_remote st)))).

Definition stage_msg (g : memory) (i : Z) (st : Stage) : list Z := staged_wire g (reqid_of i) i (sg_tensor st).

(** What the sender writes into its host buffers, from layer [k] on. *)
Fixpoint host_writes (g : memory) (k : Z) (sts : list Stage) : list (Z * list Z) :=
  match sts with
  | [] => []
  | st :: sts => (hb_buf (sg_host st), stage_msg g k st) :: host_writes g (k + 1) sts
  end.

Fixpoint stage_writes (k : Z) (sts : list Stage) : list (Z * ImmWrite) :=
  match sts with
  | [] => []
  | st :: sts => stage_write k st :: stage_writes (k + 1) sts
  end.

Lemma host_writes_lookup g k sts i :
  host_writes g k sts !! i =
  (fun st => (hb_buf (sg_host st), stage_msg g (k + Z.of_nat i) st)) <$> sts !! i.
Proof.
  revert k i. induction sts as [|st sts IH]; intros k [|i]; cbn [host_writes]; [done..| |].
  - simpl. by rewrite Z.add_0_r.
  - simpl. rewrite IH. destruct (sts !! i); [|done]. simpl. do 3 f_equal. lia.
Qed.

Lemma stage_writes_lookup k sts i :
  stage_writes k sts !! i = stage_write (k + Z.of_nat i) <$> sts !! i.
Proof.
  revert k i. induction sts as [|st sts IH]; intros k [|i]; cbn [stage_writes]; [done..| |].
  - simpl. by rewrite Z.add_0_r.
  - simpl. rewrite IH. destruct (sts !! i); [|done]. simpl. do 2 f_equal. lia.
Qed.

(** A stage the channel can send. *)
Record stage_ok (r : Registered) (st : Stage) : Prop := {
  sk_tensor : tensor_ok (sg_tensor st);
  sk_len : staged_len (sg_tensor st) < W64;
  sk_reg : registered_layer [sg_tensor st] r;
  sk_host : staged_len (sg_tensor st) <= hb_len (sg_host st);
  sk_remote : staged_len (sg_tensor st) <= rs_size (sg_remote st);
  sk_id : 0 < rs_buffer_id (sg_remote st) <= STAGED_IMM_BUFFER_MASK;
}.

(** The registered memory of layer [i] starts with the tensor of the stage. *)
Definition at_mrs (ctx : CliCtx) (i : nat) (st : Stage) : Prop :=
  exists mrs lkey, layer_mrs ctx !! i = Some mrs /\ mrs !! 0%nat = Some (t_src (sg_tensor st), lkey).

Lemma staged_sends_spec d ctx r sts pre sc m :
  device_ok d -> data_ (base_ sc) = Some r -> 0 < chs_n (base_ sc) ->
  dst_layer_num_ (base_ sc) = vsize (layer_mrs ctx) -> vsize (layer_mrs ctx) < W64 ->
  vsize (layer_mrs ctx) = vsize (pre ++ sts) ->
  Forall (stage_ok r) sts -> (forall i st, (pre ++ sts) !! i = Some st -> at_mrs ctx i st) ->
  host_buffers_ sc = reverse (sg_host <$> sts) -> remote_buffers_ sc = sg_remote <$> (pre ++ sts) ->
  exists m', forM (seqZ (vsize pre) (vsize sts)) (fun i => staged_send_data d ctx (reqid_of i) i) (sc, m) =
      Ok (mkStagedChannel (base_ sc) [] (remote_buffers_ sc) (staged_payload_size_ sc)
            (staged_write_futs_ sc ++ stage_writes (vsize pre) sts), m') /\
    (forall a, host m' a = written (host m) (host_writes (gpu m) (vsize pre) sts) a) /\
    (forall a, gpu m' a = gpu m a).
Proof.
  intros Hd Hdata Hch Hnum Hw Hn Hok. revert pre sc m Hdata Hch Hnum Hn.
  induction Hok as [|st sts Hst Hok IH]; intros pre sc m Hdata Hch Hnum Hn Hat Hhost Hrem.
  { exists m. cbn. rewrite app_nil_r. destruct sc as [c hb rb p w]. cbn in *. by rewrite Hhost. }
  replace (seqZ (vsize pre) (vsize (st :: sts))) with (vsize pre :: seqZ (vsize (pre ++ [st])) (vsize sts)).
  2: { unfold vsize. rewrite length_app. simpl length. rewrite (seqZ_cons _ (Z.of_nat (S _))) by lia.
       f_equal. f_equal; lia. }
  destruct Hst as [Ht Hl Hreg Hh Hr Hid].
  destruct (Hat (length pre) st) as (mrs & lkey & Hmrs & Hm0); [by rewrite list_lookup_middle|].
  rewrite fmap_cons, reverse_cons in Hhost.
  destruct (staged_send_spec d ctx sc m r (sg_tensor st) (reverse (sg_host <$> sts)) (sg_host st) (length pre)
    (reqid_of (vsize pre)) mrs lkey (sg_remote st)) as (m1 & Hsend & Hh1 & Hg1); try done; try lia.
  { rewrite Hnum, Hn, vsize_app. unfold vsize. rewrite length_reverse, length_fmap. simpl length. lia. }
  { rewrite Hrem, Hnum, Hn. unfold vsize. by rewrite length_fmap. }
  { rewrite Hrem, list_lookup_fmap. by rewrite list_lookup_middle. }
  cbn [forM]. unfold vsize at 1 2. unfold vsize in Hsend at 1. rewrite Hsend. cbn [rbind]. set (sc1 := mkStagedChannel _ _ _ _ _).
  assert ((pre ++ [st]) ++ sts = pre ++ st :: sts) as Happ by (by rewrite <- app_assoc).
  destruct (IH (pre ++ [st]) sc1 m1) as (m2 & Hok2 & Hh2 & Hg2); try done.
  { by rewrite Happ. } { intros i st'. rewrite Happ. apply Hat. } { by rewrite Happ. }
  assert (vsize (pre ++ [st]) = vsize pre + 1) as Hv by (rewrite vsize_app; done).
  exists m2. split_and!.
  - rewrite Hok2. cbn. rewrite <- app_assoc, Hv. done.
  - intros a. rewrite Hh2, Hv. cbn [host_writes]. unfold written. cbn [foldl]. fold (written (write (host m) (hb_buf (sg_host st)) (stage_msg (gpu m) (vsize pre) st))).
    assert (host_writes (gpu m1) (vsize pre + 1) sts = host_writes (gpu m) (vsize pre + 1) sts) as ->.
    { clear -Hg1. generalize (vsize pre + 1). induction sts as [|s l IH]; intros k; [done|]. cbn [host_writes].
      rewrite IH. unfold stage_msg, staged_wire. by rewrite (blob_ext _ _ _ _ Hg1). }
    apply written_ext. intros y. by rewrite Hh1.
  - intros a. by rewrite Hg2, Hg1.
Qed.

(** The posted writes land in the server's memory. *)
Definition deliver (mS : Mem) (ws : list (Z * ImmWrite)) (mD : Mem) : Mem :=
  foldl (fun m w => write_host (iw_raddr w.2) (read (host mS) (iw_buf w.2) (iw_len w.2)) m) mD ws.

Lemma deliver_spec mS ws mD :
  deliver mS ws mD = mkMem (written (host mD)
    ((fun w => (iw_raddr w.2, read (host mS) (iw_buf w.2) (iw_len w.2))) <$> ws)) (gpu mD).
Proof.
  revert mD. induction ws as [|w ws IH]; intros mD; [by destruct mD|]. unfold deliver in *. cbn [foldl].
  by rewrite IH.
Qed.

(** The connection [key] of the server knows the remote buffers. *)
Definition linked (s : RDMAStagedServer) (key : Z) (rbs : list RemoteStagedBuffer) : Prop :=
  exists g, staged_guards_ s !! key = Some g /\
    Forall (fun rb => exists b, buffers_ g !! rs_buffer_id rb = Some b /\
      mem_buf (rb_mem b) = remote_addr rb /\ rb_size b = rs_size rb) rbs.

(** The immediate values are handled in some order: (memory, replies). *)
Definition serve_imms (d : Device) (s : RDMAStagedServer) (key : Z) (time_of : Z -> Times)
    (ws : list (Z * ImmWrite)) (order : list Z) (m : Mem) : res (Mem * list (Z * list Z)) :=
  forM order (fun i mr =>
    let* w := vec_idx ws i in
    let* o := on_imm_recv d s (Ok tt) (time_of i) key (iw_imm w.2) mr.1 in
    match o with
    | SReplied m reply => Ok (m, mr.2 ++ [(i, reply)])
    | SDropped _ => Err RuntimeError
    end) (m, []).

(** The layers, copied in the order of the immediate values. *)
Definition copy_layers (g : memory) (sts : list Stage) (order : list Z) (dst : memory) : memory :=
  foldl (fun h i => match sts !! Z.to_nat i with
                    | Some st => layer_copy g [sg_tensor st] h
                    | None => h
                    end) dst order.

Lemma copy_layers_ext g sts order h h' a :
  (forall x, h x = h' x) -> copy_layers g sts order h a = copy_layers g sts order h' a.
Proof.
  revert h h'. unfold copy_layers. induction order as [|i order IH]; intros h h' Hh; [by apply Hh|].
  cbn [foldl]. apply IH. intros x. destruct (sts !! Z.to_nat i); [by apply layer_copy_ext|done].
Qed.

Lemma serve_imms_spec d s key time_of r sts order g m :
  device_ok d -> Forall (stage_ok r) sts -> linked s key (sg_remote <$> sts) ->
  Forall (fun st => layer_blk_size_ s = t_capacity (sg_tensor st)) sts ->
  gpu_ptrs_ s = (fun st => t_dst (sg_tensor st)) <$> sts -> vsize sts < W64 ->
  (forall i, 0 <= reqid_of i < W64) -> Forall (fun i => 0 <= i < vsize sts) order ->
  (forall i st, sts !! i = Some st -> holds (host m) (remote_addr (sg_remote st)) (stage_msg g (Z.of_nat i) st)) ->
  exists m', serve_imms d s key time_of (stage_writes 0 sts) order m =
      Ok (m', (fun i => (i, kv_reply KV_CACHE_DATA_MAGIC (reqid_of i) (time_of i))) <$> order) /\
    (forall a, host m' a = host m a) /\ (forall a, gpu m' a = copy_layers g sts order (gpu m) a).
Proof.
  intros Hd Hok (gd & Hgd & Hlink) Hcap Hptrs Hn Hreq Hord Hh. unfold serve_imms.
  set (body := fun i mr => _).
  assert (forall rs m, (forall i st, sts !! i = Some st ->
      holds (host m) (remote_addr (sg_remote st)) (stage_msg g (Z.of_nat i) st)) ->
    exists m', forM order body (m, rs) =
      Ok (m', rs ++ ((fun i => (i, kv_reply KV_CACHE_DATA_MAGIC (reqid_of i) (time_of i))) <$> order)) /\
    (forall a, host m' a = host m a) /\ (forall a, gpu m' a = copy_layers g sts order (gpu m) a)) as Hgen.
  2: { by apply (Hgen [] m). }
  clear Hh m. induction Hord as [|i order Hi Hord IH]; intros rs m Hh.
  { exists m. by rewrite app_nil_r. }
  destruct (lookup_lt_is_Some_2 sts (Z.to_nat i)) as [st Hst]; [unfold vsize in Hi; lia|].
  pose proof (Forall_lookup_1 _ _ _ _ Hok Hst) as [Ht Hl Hr1 Hhb Hrm Hid].
  rewrite Forall_forall in Hlink. destruct (Hlink (sg_remote st)) as (b & Hb & Hba & Hbs);
    [apply list_elem_of_fmap; exists st; split; [done|by eapply list_elem_of_lookup_2]|].
  assert (Z.of_nat (Z.to_nat i) = i) as Hzi by lia.
  destruct (staged_handle_spec d s g (sg_tensor st) (Z.to_nat i) (reqid_of i) (time_of i) (remote_addr (sg_remote st))
    (rs_size (sg_remote st)) m) as (m1 & Hok1 & Hh1 & Hg1); try done.
  { lia. } { by rewrite Hptrs, list_lookup_fmap, Hst. } { by apply (Forall_lookup_1 _ _ _ _ Hcap Hst). }
  { specialize (Hh _ _ Hst). unfold stage_msg in Hh. by rewrite Hzi in Hh |- *. }
  cbn [forM]. unfold body at 1.
  rewrite (vec_idx_Some _ _ (stage_write i st)); [|lia|rewrite stage_writes_lookup, Hst; simpl; by rewrite Hzi].
  cbn [rbind]. unfold on_imm_recv, stage_write. cbn [snd iw_imm fst].
  rewrite imm_roundtrip by lia. rewrite (proj2 (Z.eqb_neq _ 0)) by lia. rewrite Hgd. unfold find_buffer. rewrite Hb, Hba, Hbs, Hok1.
  cbn [rbind]. destruct (IH (rs ++ [(i, kv_reply KV_CACHE_DATA_MAGIC (reqid_of i) (time_of i))]) m1) as (m2 & Hok2 & Hh2 & Hg2).
  { intros j stj Hj k x Hk. rewrite Hh1. by apply (Hh _ _ Hj). }
  exists m2. split_and!.
  - rewrite Hok2. by rewrite <- app_assoc.
  - intros a. by rewrite Hh2, Hh1.
  - intros a. rewrite Hg2. unfold copy_layers. cbn [foldl]. rewrite Hst.
    fold (copy_layers g sts order (layer_copy g [sg_tensor st] (gpu m))). by apply copy_layers_ext.
Qed.
End Layers.
End Staged.

(** A reply of 28 bytes: the two values that are tested for are there, the other three are
    read past its end. *)
Example short_reply_reads_past_end :
  read_kv_reply 7 (rpc_header KV_CACHE_DATA_MAGIC 7 ++ le_bytes 8 1 ++ le_bytes 8 2) = Err Undefined.
Proof. vm_compute. reflexivity. Qed.
