(* ===== verification/StagedTransfer.v ===== *)
(** A whole batch over the staged RDMA path: the sender of [StagedChannel] and the server of
    [StagedServer] run together, from registering to flush.  Both allocators, the memories,
    the order in which the immediate values are handled, and the replies' time stamps are
    arguments. *)

From stdpp Require Import gmap sorting.
From S2P Require Import Prelude.
From S2P Require Import Common.
From S2P Require Import CopySpec.
From S2P Require Import Channel.
From S2P Require Import CopyKernel.
From S2P Require Import TcpWire.
From S2P Require Import Rdma.
From S2P Require Import StagedServer.
From S2P Require Import StagedChannel.

(** ** Allocators with room for a batch *)
Record host_room (alloc : Z -> Z -> res HostBuffer) (n bound : Z) : Prop := {
  hr_ok : forall i len, 0 <= i < n -> 0 < len <= bound ->
    exists b, alloc i len = Ok b /\ hb_buf b <> 0 /\ len <= hb_len b;
  hr_apart : forall i j len b b', i <> j -> 0 <= i < n -> 0 <= j < n -> 0 < len <= bound ->
    alloc i len = Ok b -> alloc j len = Ok b' ->
    hb_buf b + len <= hb_buf b' \/ hb_buf b' + len <= hb_buf b;
}.

Record server_room (alloc : Z -> Z -> res RecvMem) (n bound : Z) : Prop := {
  sr_ok : forall i len, 0 <= i < n -> 0 < len <= bound ->
    exists mem rkey, alloc i len = Ok mem /\ 0 < mem_buf mem < W64 /\ mem_rkey mem = Some rkey /\ 0 < rkey < W32;
  sr_apart : forall i j len mem mem', i <> j -> 0 <= i < n -> 0 <= j < n -> 0 < len <= bound ->
    alloc i len = Ok mem -> alloc j len = Ok mem' ->
    mem_buf mem + len <= mem_buf mem' \/ mem_buf mem' + len <= mem_buf mem;
}.

Lemma alloc_host_buffers_spec alloc n bound len c :
  host_room alloc n bound -> 0 < len <= bound -> 0 <= n -> 0 < chs_n c -> prev_ch_idx_ c + n <= CHANNEL_INT_MAX ->
  exists bufs, alloc_host_buffers alloc n len c = Ok (bufs, set_posted (prev_ch_idx_ c + n) (write_futs_ c) c) /\ Forall (fun b => len <= hb_len b) bufs /\
    Forall2 (fun i b => alloc i len = Ok b) (seqZ 0 n) bufs.
Proof.
  intros [Hok _] Hlen Hn Hch Hturns.
  destruct (forall2_choice (fun i b => alloc i len = Ok b /\ hb_buf b <> 0 /\ len <= hb_len b) (seqZ 0 n)) as [bufs Hb].
  { intros i Hi%elem_of_seqZ. apply Hok; lia. }
  exists bufs. split_and!.
  - unfold alloc_host_buffers, for_range. rewrite Z.sub_0_r.
    set (step := fun k : nat => set_posted (prev_ch_idx_ c + Z.of_nat k) (write_futs_ c) c).
    assert (Hc : c = step 0%nat) by (unfold step; rewrite Z.add_0_r; by destruct c).
    transitivity (@Ok (list HostBuffer * RDMAChannel) ([] ++ bufs, step (0 + length (seqZ 0 n))%nat)).
    2: { do 3 f_equal. unfold step. rewrite length_seqZ. f_equal. lia. }
    rewrite Hc at 1. apply (forM_turns _ step _ _ _ _ _ Hb). rewrite length_seqZ.
    intros k i b acc Hk (Ha & Hz & Hl). unfold next_ch, step. cbn [set_posted prev_ch_idx_ chs_n write_futs_].
    rewrite (proj2 (Z.leb_gt _ _)), (proj2 (Z.eqb_neq (chs_n c) 0)) by lia. cbn [rbind]. rewrite Ha. cbn [rbind]. unfold rtcheck.
    rewrite (proj2 (Z.eqb_neq _ _)), (proj2 (Z.leb_le _ _)) by done. cbn [negb rbind].
    by replace (prev_ch_idx_ c + Z.of_nat (S k)) with (prev_ch_idx_ c + Z.of_nat k + 1) by lia.
  - by apply (Forall2_Forall_r _ _ _ _ Hb), Forall_true; intros ?? (_ & _ & ?).
  - eapply Forall2_impl; [exact Hb|]. by intros ?? [? _].
Qed.

(** Buffers by address, all of one length. *)
Definition spread (len : Z) (addrs : list Z) : list (Z * Z) := (fun a => (a, len)) <$> addrs.

Lemma apart_separate {B} (alloc : Z -> res B) (addr : B -> Z) n len bs :
  Forall2 (fun i b => alloc i = Ok b) (seqZ 0 n) bs ->
  (forall i j b b', i <> j -> 0 <= i < n -> 0 <= j < n -> alloc i = Ok b -> alloc j = Ok b' ->
    addr b + len <= addr b' \/ addr b' + len <= addr b) ->
  separate (spread len (addr <$> bs)).
Proof.
  intros Hb Hs i j a k a' k' Hij Hi Hj. unfold spread in *. rewrite !list_lookup_fmap in Hi, Hj.
  destruct (bs !! i) as [b|] eqn:Hbi; [|done]. destruct (bs !! j) as [b'|] eqn:Hbj; [|done].
  injection Hi as <- <-. injection Hj as <- <-.
  destruct (Forall2_lookup_r _ _ _ _ _ Hb Hbi) as (x & [-> Hx]%lookup_seqZ & Ha).
  destruct (Forall2_lookup_r _ _ _ _ _ Hb Hbj) as (y & [-> Hy]%lookup_seqZ & Ha').
  apply (Hs (0 + Z.of_nat i) (0 + Z.of_nat j)); try done; lia.
Qed.

Lemma separate_reverse ws : separate ws -> separate (reverse ws).
Proof.
  intros Hs i j a n b k Hij Hi Hj. pose proof (lookup_lt_Some _ _ _ Hi). pose proof (lookup_lt_Some _ _ _ Hj).
  rewrite length_reverse in *. rewrite reverse_lookup in Hi, Hj by done.
  eapply (Hs (length ws - S i)%nat (length ws - S j)%nat); [lia|done..].
Qed.

(** ** The server's answer *)
Lemma prealloc_loop_ok alloc idx reqs pool bufs entries :
  (forall j size id, reqs !! j = Some (size, id) -> exists mem rkey,
     alloc (idx + Z.of_nat j) size = Ok mem /\ mem_buf mem <> 0 /\ mem_rkey mem = Some rkey) ->
  Forall (fun r => r.2 <= STAGED_IMM_BUFFER_MASK) reqs -> NoDup reqs.*2 ->
  exists pool' bufs' entries', prealloc_loop alloc idx reqs pool bufs entries = (pool', Ok (bufs', entries ++ entries')) /\
    length entries' = length reqs /\
    (forall j size id, reqs !! j = Some (size, id) -> exists mem rkey,
       alloc (idx + Z.of_nat j) size = Ok mem /\ mem_rkey mem = Some rkey /\
       entries' !! j = Some (mkEntry (mem_buf mem) size rkey id) /\
       bufs' !! id = Some (mkRecvBuffer mem size id (idx + Z.of_nat j))) /\
    (forall id, id ∉ reqs.*2 -> bufs' !! id = bufs !! id).
Proof.
  revert idx pool bufs entries. induction reqs as [|[size id] reqs IH]; intros idx pool bufs entries Ha Hm Hnd.
  { exists pool, bufs, []. rewrite app_nil_r. by split_and!. }
  destruct (Ha 0%nat size id) as (mem & rkey & Hal & Hnz & Hrk); [done|]. rewrite Z.add_0_r in Hal.
  apply Forall_cons in Hm as [Hid Hm]. cbn in Hid. apply NoDup_cons in Hnd as [Hnin Hnd].
  set (bufs1 := <[id := mkRecvBuffer mem size id idx]> bufs).
  destruct (IH (idx + 1) ({[mem_buf mem]} ∪ pool) bufs1 (entries ++ [mkEntry (mem_buf mem) size rkey id]))
    as (pool' & bufs' & es & Hl & Hlen & Hes & Hout); [|done|done|].
  { intros j sz i Hj. destruct (Ha (S j) sz i Hj) as (m' & k' & ?). exists m', k'.
    by replace (idx + 1 + Z.of_nat j) with (idx + Z.of_nat (S j)) by lia. }
  exists pool', bufs', (mkEntry (mem_buf mem) size rkey id :: es). split_and!.
  - cbn [prealloc_loop]. rewrite Hal, (proj2 (Z.eqb_neq _ 0)), Hrk, (proj2 (Z.ltb_ge _ _)) by done.
    fold bufs1. by rewrite Hl, <- app_assoc.
  - simpl. by rewrite Hlen.
  - intros [|j] sz i Hj.
    + injection Hj as <- <-. exists mem, rkey. rewrite Z.add_0_r. split_and!; try done.
      rewrite Hout by done. unfold bufs1. by rewrite lookup_insert_eq.
    + destruct (Hes j sz i Hj) as (m' & k' & H1 & H2 & H3 & H4). exists m', k'.
      replace (idx + Z.of_nat (S j)) with (idx + 1 + Z.of_nat j) by lia. done.
  - intros i [Hne Hi]%not_elem_of_cons. cbn in Hne. rewrite Hout by done. unfold bufs1. by rewrite lookup_insert_ne.
Qed.

Section Transfer.
Context `{Env} (crc32_z : Z -> list Z -> Z) (handles : list RDMAMemHandle) (srv : SrvCtx).

(** What the sender gets for a request: the reply, or the timeout. *)
Definition answer (alloc : Z -> Z -> res RecvMem) (key : Z) (dst : memory) (s : RDMAStagedServer) (req : list Z)
    : res (list Z) :=
  match (staged_on_recv crc32_z handles srv alloc (Ok tt) key dst req s).2 with
  | Ok (Some reply) => Ok reply
  | _ => Err RuntimeError
  end.

(** The server's state after a request. *)
Definition answered (alloc : Z -> Z -> res RecvMem) (key : Z) (dst : memory) (s : RDMAStagedServer) (req : list Z)
    : RDMAStagedServer :=
  (staged_on_recv crc32_z handles srv alloc (Ok tt) key dst req s).1.

(** The server's guard of the connection has numbers left for [n] buffers. *)
Definition id_room (s : RDMAStagedServer) (key n : Z) : Prop :=
  let next := next_buffer_id_ (default new_guard (staged_guards_ s !! key)) in
  1 <= next /\ next + n <= STAGED_IMM_BUFFER_MASK + 1.

Definition remote_ok (len : Z) (rb : RemoteStagedBuffer) : Prop :=
  rs_size rb = len /\ 0 < rs_buffer_id rb <= STAGED_IMM_BUFFER_MASK.

Lemma prealloc_answered alloc key dst s n bound len reqid req :
  server_room alloc n bound -> bound < W64 -> 0 < len <= bound -> 0 < n -> id_room s key n -> 0 <= reqid < W64 ->
  prealloc_request reqid (replicate (Z.to_nat n) len) = Ok req ->
  exists entries, answer alloc key dst s req = Ok (prealloc_reply reqid entries) /\
    vsize entries = n /\ Forall entry_ok entries /\
    Forall (fun e => e_remote_addr e <> 0 /\ e_rkey e <> 0) entries /\
    linked (answered alloc key dst s req) key (remote_of <$> entries) /\
    Forall (remote_ok len) (remote_of <$> entries) /\
    separate (spread len (remote_addr <$> (remote_of <$> entries))) /\
    gpu_ptrs_ (answered alloc key dst s req) = gpu_ptrs_ s /\
    layer_blk_size_ (answered alloc key dst s req) = layer_blk_size_ s.
Proof.
  intros [Hok Hap] Hb Hlen Hn [Hn1 Hroom] Hr Hreq.
  set (g := default new_guard (staged_guards_ s !! key)) in *.
  set (sizes := replicate (Z.to_nat n) len) in *. set (next := next_buffer_id_ g) in *.
  assert (vsize sizes = n) as Hv by (unfold vsize, sizes; rewrite length_replicate; lia).
  destruct (prealloc_request_spec reqid sizes) as (req' & Hreq' & Hparse & Hmg & Hh & Hid).
  { unfold sizes. destruct (Z.to_nat n) eqn:E; [lia|done]. }
  { rewrite Hv. unfold STAGED_PREALLOC_MAX_LAYERS. lia. }
  { apply Forall_replicate. lia. }
  rewrite Hreq in Hreq'. injection Hreq' as <-. specialize (Hid Hr).
  assert (forall j size id, zip sizes (seqZ next n) !! j = Some (size, id) ->
    size = len /\ id = next + Z.of_nat j /\ 0 <= Z.of_nat j < n) as Hreqs.
  { intros j size id [Hs [-> Hj]%lookup_seqZ]%lookup_zip_Some.
    apply lookup_replicate in Hs as [-> _]. split_and!; [done|done|lia..]. }
  assert (length (zip sizes (seqZ next n)) = Z.to_nat n) as Hzl
    by (rewrite length_zip_with, length_seqZ; unfold vsize in Hv; lia).
  destruct (prealloc_loop_ok alloc 0 (zip sizes (seqZ next n)) (pool_ s) ∅ [])
    as (pool' & bufs & entries & Hloop & Hel & Hes & _).
  { intros j size id (-> & _ & Hj)%Hreqs. destruct (Hok (Z.of_nat j) len Hj Hlen) as (mem & rkey & ? & ? & ? & ?).
    exists mem, rkey. rewrite Z.add_0_l. split_and!; try done. lia. }
  { apply Forall_lookup. intros j [size id] (_ & -> & Hj)%Hreqs. cbn. lia. }
  { rewrite snd_zip by (rewrite length_seqZ; unfold vsize in Hv; lia). apply NoDup_seqZ. }
  assert (forall j e, entries !! j = Some e -> exists mem rkey, alloc (Z.of_nat j) len = Ok mem /\ mem_rkey mem = Some rkey /\
    e = mkEntry (mem_buf mem) len rkey (next + Z.of_nat j) /\ 0 <= Z.of_nat j < n /\
    bufs !! (next + Z.of_nat j) = Some (mkRecvBuffer mem len (next + Z.of_nat j) (Z.of_nat j)) /\
    0 < mem_buf mem < W64 /\ 0 < rkey < W32) as Hent.
  { intros j e Hj. pose proof (lookup_lt_Some _ _ _ Hj) as Hlt. rewrite Hel in Hlt.
    destruct (lookup_lt_is_Some_2 _ _ Hlt) as [[size id] Hz]. pose proof (Hreqs _ _ _ Hz) as (-> & -> & Hjn).
    destruct (Hes _ _ _ Hz) as (mem & rkey & Ha & Hk & He & Hbf). rewrite Z.add_0_l in Ha, Hbf.
    destruct (Hok (Z.of_nat j) len Hjn Hlen) as (mem' & rkey' & Ha' & Hm' & Hk' & Hkr).
    rewrite Ha in Ha'. injection Ha' as <-. rewrite Hk in Hk'. injection Hk' as <-. rewrite Hj in He. injection He as ->.
    eexists _, _. split_and!; (done || lia). }
  assert (staged_on_recv crc32_z handles srv alloc (Ok tt) key dst req s =
    (set_guards (<[key := mkGuard bufs (next + n)]> (staged_guards_ s))
       (release_staged_recv_buffers (buffers_ g) pool') s, Ok (Some (prealloc_reply reqid entries)))) as Hrecv.
  { unfold staged_on_recv. rewrite (proj2 (Z.leb_le _ _)), Hmg, Z.eqb_refl by done. cbn [andb].
    unfold resp_staged_prealloc. rewrite Hparse, Hv. fold g. rewrite alloc_buffer_ids_ok by done. fold next.
    rewrite Hloop. cbn [replace_buffers next_buffer_id_ buffers_ rbind app]. by rewrite Hid. }
  exists entries. unfold answer, answered. rewrite Hrecv. cbn [fst snd].
  split_and!; try done.
  - unfold vsize. rewrite Hel, Hzl. lia.
  - apply Forall_lookup. intros j e (mem & rkey & _ & _ & -> & Hj & _ & Hm & Hk)%Hent.
    unfold entry_ok. cbn. split_and!; lia.
  - apply Forall_lookup. intros j e (mem & rkey & _ & _ & -> & Hj & _ & Hm & Hk)%Hent. cbn. lia.
  - exists (mkGuard bufs (next + n)). cbn. rewrite lookup_insert_eq. split; [done|]. apply Forall_fmap, Forall_lookup.
    intros j e (mem & rkey & _ & _ & -> & Hj & Hbf & _)%Hent. cbn. by eexists.
  - apply Forall_fmap, Forall_lookup. intros j e (mem & rkey & _ & _ & -> & Hj & _)%Hent. unfold remote_ok. cbn. lia.
  - intros i j a k a' k' Hij Hi Hj. unfold spread in *. rewrite !list_lookup_fmap in Hi, Hj.
    destruct (entries !! i) as [e1|] eqn:E1; [|done]. destruct (entries !! j) as [e2|] eqn:E2; [|done].
    destruct (Hent _ _ E1) as (mem1 & k1 & A1 & _ & -> & N1 & _). destruct (Hent _ _ E2) as (mem2 & k2 & A2 & _ & -> & N2 & _).
    cbn in Hi, Hj. simplify_eq. apply (Hap (Z.of_nat i) (Z.of_nat j)); try done. lia.
Qed.

(** ** Registering *)

(** The server knows the buffers the sender remembers. *)
Record link (sc : RDMAStagedChannel) (s : RDMAStagedServer) (key : Z) : Prop := {
  lk_known : linked s key (remote_buffers_ sc);
  lk_ok : Forall (remote_ok (staged_payload_size_ sc)) (remote_buffers_ sc);
  lk_apart : separate (spread (staged_payload_size_ sc) (remote_addr <$> remote_buffers_ sc));
}.

(** Every message of a batch of these records is shorter. *)
Definition payload_bound (blocks : list IpcBlock) : Z := STAGED_HEADER + 25 * sum_length blocks.

(** A channel between batches, its server, and a batch of one tensor per layer. *)
Record staged_ready (e : InitEnv) (c0 : RDMAChannel) (sc : RDMAStagedChannel) (ctx : CliCtx)
    (s : RDMAStagedServer) (key : Z) (ts : list Tensor) (blocks : list IpcBlock)
    (host_alloc : Z -> Z -> res HostBuffer) (alloc : Z -> Z -> res RecvMem) : Prop := {
  sy_layers : ts <> [] /\ Forall (fun t => t_blocks t = blocks /\ tensor_ok t) ts;
  sy_init : do_init e (base_ sc) = Ok c0 /\ 0 < chs_n c0 /\ dst_layer_num_ c0 = vsize ts;
  sy_turns : prev_ch_idx_ c0 + vsize ts <= CHANNEL_INT_MAX;
  sy_idle : data_ (base_ sc) = None /\ host_buffers_ sc = [] /\ staged_write_futs_ sc = [];
  sy_ctx : vsize (layer_mrs ctx) = vsize ts /\ forall i t, ts !! i = Some t -> exists mrs lkey,
    layer_mrs ctx !! i = Some mrs /\ mrs !! 0%nat = Some (t_src t, lkey);
  sy_server : gpu_ptrs_ s = t_dst <$> ts /\ Forall (fun t => layer_blk_size_ s = t_capacity t) ts;
  sy_room : host_room host_alloc (vsize ts) (payload_bound blocks) /\
    server_room alloc (vsize ts) (payload_bound blocks) /\ id_room s key (vsize ts);
  sy_link : remote_buffers_ sc = [] \/ link sc s key;
  sy_disjoint : NoDup (flat_map tensor_moves ts).*2;
}.

(** The records after merging, for each layer. *)
Lemma merged_tensors sort `{!StdSort sort} kind blocks ts :
  ts <> [] -> Forall (fun t => t_blocks t = blocks /\ tensor_ok t) ts ->
  exists r ts' len, register_records sort [blocks] kind = Ok r /\ Forall2 same_copies ts ts' /\
    Forall tensor_ok ts' /\ Forall (fun t' => registered_layer [t'] r /\ staged_len t' = len) ts' /\
    (exists l, reg_data r = [l] /\ staged_payload (vsize l) (sb_size_total_ r) = len) /\
    0 < sb_size_total_ r /\ 0 < len <= payload_bound blocks /\ payload_bound blocks < W64.
Proof.
  intros Hne Hts.
  assert (forall t, t ∈ ts -> exists t' r, register_records sort [blocks] kind = Ok r /\ registered_layer [t'] r /\
    tensor_ok t' /\ same_copies t t' /\ sum_length (t_blocks t') = sum_length blocks) as Hone.
  { intros t Hin. rewrite Forall_forall in Hts. destruct (Hts t Hin) as [Hb Ht].
    destruct (register_records_spec sort [t] kind) as (ts' & r & Hr & Hl & Hok & Hs & Hlb); [done|by constructor| |by right|].
    { unfold layer_bytes. simpl. pose proof (total_bound _ (fits_blocks_ok _ _ (to_fits _ Ht)) (to_total _ Ht)). lia. }
    apply Forall2_cons_inv_l in Hs as (t' & ? & Hs & ->%Forall2_nil_inv_l & ->). apply Forall_inv in Hok.
    exists t', r. simpl in Hr. rewrite Hb in Hr. split_and!; try done.
    unfold layer_bytes in Hlb. simpl in Hlb. rewrite Hb in Hlb. lia. }
  destruct ts as [|t0 ts0]; [done|].
  destruct (Hone t0) as (t0' & r & Hr & Hl0 & Hok0 & Hs0 & Hsum0); [by constructor|].
  set (len := staged_len t0').
  destruct (forall2_choice (fun t t' => registered_layer [t'] r /\ tensor_ok t' /\ same_copies t t' /\
    staged_len t' = len) (t0 :: ts0)) as [ts' Hts'].
  { intros t Hin. destruct (Hone t Hin) as (t' & r' & Hr' & Hl & Hok & Hs & Hsum). rewrite Hr in Hr'. injection Hr' as <-.
    exists t'. split_and!; try done. unfold len, staged_len.
    pose proof (rl_data _ _ Hl) as E. rewrite (rl_data _ _ Hl0) in E. simpl in E. by injection E as ->. }
  pose proof (tensor_counts _ Hok0) as Hc0. rewrite Hsum0 in Hc0.
  pose proof (to_total _ Hok0) as Htot. rewrite Hsum0 in Htot. unfold SIZEOF_IPC_BLOCK in Htot.
  assert (0 < len <= payload_bound blocks) as Hlen.
  { unfold len, staged_len, payload_bound, STAGED_HEADER, RPC_HEADER, SIZEOF_IPC_BLOCK. rewrite Hsum0. lia. }
  assert (payload_bound blocks < W64) as Hpb by (unfold payload_bound, STAGED_HEADER, RPC_HEADER, W64; lia).
  assert (sb_size_total_ r = sum_length blocks) as Htl by (rewrite (rl_total _ _ Hl0); unfold layer_bytes; simpl; lia).
  exists r, ts', len. split_and!; try done; try lia.
  - eapply Forall2_impl; [exact Hts'|]. by intros ?? (_ & _ & ? & _).
  - apply (Forall2_Forall_r _ _ _ _ Hts'), Forall_true. by intros ?? (_ & ? & _).
  - apply (Forall2_Forall_r _ _ _ _ Hts'), Forall_true. by intros ?? (? & _ & _ & ?).
  - exists (t_blocks t0'). split; [by rewrite (rl_data _ _ Hl0)|]. unfold staged_payload. rewrite Htl.
    unfold len, staged_len, STAGED_HEADER in *. rewrite Hsum0 in *. by rewrite u64_small by lia.
Qed.

(** The server after registering: asked once, or not at all. *)
Definition asked_once (alloc : Z -> Z -> res RecvMem) (key : Z) (dst : memory) (s s1 : RDMAStagedServer) : Prop :=
  s1 = s \/ exists req, s1 = answered alloc key dst s req.

(** A channel with the buffers of a batch of [n] messages of length [len]. *)
Record staged_loaded (sc : RDMAStagedChannel) (s : RDMAStagedServer) (key n len : Z) (r : Registered) : Prop := {
  sl_data : data_ (base_ sc) = Some r;
  sl_chs : 0 < chs_n (base_ sc);
  sl_layers : dst_layer_num_ (base_ sc) = n;
  sl_host : vsize (host_buffers_ sc) = n /\ Forall (fun b => len <= hb_len b) (host_buffers_ sc) /\
    separate (spread len (hb_buf <$> host_buffers_ sc));
  sl_remote : vsize (remote_buffers_ sc) = n /\ len <= staged_payload_size_ sc;
  sl_link : link sc s key;
  sl_futs : staged_write_futs_ sc = [];
}.

Lemma staged_register_spec sort `{!StdSort sort} e crc_on c0 sc ctx s key ts blocks kind host_alloc alloc dst reqid :
  staged_ready e c0 sc ctx s key ts blocks host_alloc alloc -> 0 <= reqid < W64 ->
  exists sc1 s1 r ts' len,
    staged_register_data crc32_z sort e crc_on host_alloc (answer alloc key dst s) reqid [blocks] kind sc = Ok sc1 /\
    asked_once alloc key dst s s1 /\ gpu_ptrs_ s1 = gpu_ptrs_ s /\ layer_blk_size_ s1 = layer_blk_size_ s /\
    staged_loaded sc1 s1 key (vsize ts) len r /\ 0 < len < W64 /\ prev_ch_idx_ (base_ sc1) = prev_ch_idx_ c0 + vsize ts /\
    Forall2 same_copies ts ts' /\ Forall tensor_ok ts' /\
    Forall (fun t' => registered_layer [t'] r /\ staged_len t' = len) ts'.
Proof.
  intros [[Hne Hts] (Hinit & Hchs & Hnum) Hturns (Hdn & Hhb & Hwf) _ _ (Hhr & Hsr & Hid) Hlink _] Hreq.
  destruct (merged_tensors sort kind blocks ts Hne Hts)
    as (r & ts' & len & Hr & Hsame & Hok & Hreg & (l & Hrd & Hpay) & Htot & Hlen & Hpb).
  assert (0 < vsize ts) as Hn by (unfold vsize; destruct ts; [done|simpl; lia]).
  set (c1 := set_data (Some r) (u64 (merged_sb_num_ r + u64 (chs_n c0 - 1)) / chs_n c0)
    (set_crc (if crc_on then crc32_z 0 [] else crc_ c0) crc_on c0)).
  assert (rdma_register_data crc32_z sort e crc_on [blocks] kind (base_ sc) = Ok c1) as Hrdma.
  { unfold rdma_register_data. rewrite cassert_true by done. cbn [rbind].
    rewrite cassert_true by (by rewrite bool_decide_eq_true_2). cbn [rbind]. rewrite Hinit. cbn [rbind]. rewrite Hr.
    cbn [rbind]. unfold cdiv64. cbn [set_crc chs_n]. by rewrite (proj2 (Z.eqb_neq _ 0)) by lia. }
  destruct (alloc_host_buffers_spec host_alloc (vsize ts) (payload_bound blocks) len c1 Hhr Hlen) as (bufs & Hbufs & Hbl & Hba); [lia|done|done|].
  assert (vsize bufs = vsize ts) as Hvb by (unfold vsize; rewrite <- (Forall2_length _ _ _ Hba), length_seqZ; unfold vsize; lia).
  assert (separate (spread len (hb_buf <$> bufs))) as Hsep.
  { eapply (apart_separate (fun i => host_alloc i len)); [exact Hba|]. intros i j b b' Hij Hi Hj. by apply (hr_apart _ _ _ Hhr). }
  unfold staged_register_data. rewrite Hrdma. cbn [rbind data_ c1 set_data]. fold c1.
  change (dst_layer_num_ c1) with (dst_layer_num_ c0). rewrite Hnum, Hhb, Hrd.
  change (vsize ([] : list HostBuffer) =? 0) with true. rewrite (proj2 (Z.ltb_lt 0 _)) by done. cbn [andb].
  change (vsize [l] =? 1) with true. rewrite cassert_true by done. cbn [rbind].
  change (vec_idx [l] 0) with (@Ok (list IpcBlock) l). cbn [rbind]. rewrite Hpay, Hbufs. cbn [rbind host_buffers_ remote_buffers_ staged_payload_size_ staged_write_futs_].
  unfold rtassert at 1. rewrite Hvb, (proj2 (Z.eqb_neq _ 0)) by lia. cbn [negb rbind].
  unfold rtassert at 1. change (chs_n (set_posted _ _ c1)) with (chs_n c0). rewrite (proj2 (Z.eqb_neq _ 0)) by lia. cbn [negb rbind].
  destruct (_ && _) eqn:Hreuse.
  - apply andb_true_iff in Hreuse as [Hle%Z.leb_le Heq%Z.eqb_eq].
    destruct Hlink as [He|[Hlk Hlo Hla]]; [by rewrite He in Heq; change (vsize ([] : list RemoteStagedBuffer)) with 0 in Heq; lia|].
    eexists _, s, r, ts', len. split; [done|]. split_and!; try done; [by left|lia..].
  - destruct (prealloc_request_spec reqid (replicate (Z.to_nat (vsize ts)) len)) as (req & Hrq & _).
    { destruct (Z.to_nat (vsize ts)) eqn:E; [lia|done]. }
    { destruct Hid. unfold vsize at 1. rewrite length_replicate. unfold STAGED_PREALLOC_MAX_LAYERS. lia. }
    { apply Forall_replicate. lia. }
    rewrite Hrq. cbn [rbind].
    destruct (prealloc_answered alloc key dst s (vsize ts) (payload_bound blocks) len reqid req)
      as (entries & Hans & Hve & Heo & Hnz & Hlk & Hro & Hap & Hgp & Hls); try done.
    rewrite Hans. cbn [rbind]. rewrite read_prealloc_resp_spec; try done.
    2: { destruct Hid. rewrite Hve. rewrite staged_mask in *. unfold W32. lia. }
    cbn [rbind]. unfold rtassert at 1. rewrite Hve, Z.eqb_refl. cbn [rbind]. rewrite forM_unit.
    2: { apply (Forall_impl _ _ _ Hnz). intros en [Ha Hk]. unfold rtassert. by rewrite !(proj2 (Z.eqb_neq _ _)). }
    cbn [rbind]. eexists _, (answered alloc key dst s req), r, ts', len. split; [done|].
    split_and!; try done; [right; by exists req|split; try done|lia..].
    cbn. split; [|lia]. unfold vsize. by rewrite length_fmap.
Qed.

(** ** Stages *)
Definition stages (ts : list Tensor) (hs : list HostBuffer) (rs : list RemoteStagedBuffer) : list Stage :=
  zip_with (fun th rb => mkStage th.1 th.2 rb) (zip ts hs) rs.

Lemma stages_lookup ts hs rs i st :
  stages ts hs rs !! i = Some st ->
  ts !! i = Some (sg_tensor st) /\ hs !! i = Some (sg_host st) /\ rs !! i = Some (sg_remote st).
Proof.
  intros ([t h] & rb & -> & [Ht Hh]%lookup_zip_Some & Hr)%lookup_zip_with_Some. done.
Qed.

Lemma stages_parts ts hs rs :
  length hs = length ts -> length rs = length ts ->
  sg_tensor <$> stages ts hs rs = ts /\ sg_host <$> stages ts hs rs = hs /\ sg_remote <$> stages ts hs rs = rs.
Proof.
  revert hs rs. induction ts as [|t ts IH]; intros [|h hs] [|rb rs] Hh Hr; try done.
  destruct (IH hs rs) as (E1 & E2 & E3); [by injection Hh|by injection Hr|].
  unfold stages in *. csimpl. by rewrite E1, E2, E3.
Qed.

Lemma separate_shrink len big addrs : len <= big -> separate (spread big addrs) -> separate (spread len addrs).
Proof.
  intros Hle Hs i j a n b k Hij Hi Hj. unfold spread in *. rewrite list_lookup_fmap in Hi, Hj.
  destruct (addrs !! i) as [x|] eqn:Ei; [|done]. destruct (addrs !! j) as [y|] eqn:Ej; [|done].
  injection Hi as <- <-. injection Hj as <- <-.
  destruct (Hs i j x big y big Hij); [by rewrite list_lookup_fmap, Ei|by rewrite list_lookup_fmap, Ej|lia..].
Qed.

Lemma ranges_spread len ws : Forall (fun w => vsize w.2 = len) ws -> ranges ws = spread len ws.*1.
Proof. unfold ranges, spread. induction 1 as [|[a l] ws Hw _ IH]; [done|]. csimpl. simpl in Hw. by rewrite Hw, IH. Qed.

(** ** The copies of all layers, in any order *)
Lemma tensor_moves_same t t' : same_copies t t' -> tensor_moves t' ≡ₚ tensor_moves t.
Proof. intros (Es & Ed & _ & Hp). unfold tensor_moves. rewrite Es, Ed, !bytes_of_shift. by rewrite Hp. Qed.

Lemma moves_same ts ts' : Forall2 same_copies ts ts' -> flat_map tensor_moves ts' ≡ₚ flat_map tensor_moves ts.
Proof. induction 1 as [|t t' ts ts' Ht _ IH]; [done|]. cbn [flat_map]. by rewrite IH, (tensor_moves_same _ _ Ht). Qed.

Definition moves_at (sts : list Stage) (i : Z) : list (Z * Z) :=
  match sts !! Z.to_nat i with Some st => tensor_moves (sg_tensor st) | None => [] end.

Lemma copy_layers_moves g sts order dst :
  copy_layers g sts order dst = exec_bytes g (flat_map (moves_at sts) order) dst.
Proof.
  unfold copy_layers. revert dst. induction order as [|i order IH]; intros dst; [done|]. cbn [foldl flat_map].
  rewrite IH, exec_bytes_app. f_equal. unfold moves_at. by destruct (sts !! Z.to_nat i).
Qed.

Lemma all_moves sts : flat_map (moves_at sts) (seqZ 0 (vsize sts)) = flat_map tensor_moves (sg_tensor <$> sts).
Proof.
  assert (forall pre, flat_map (moves_at (pre ++ sts)) (seqZ (vsize pre) (vsize sts)) =
    flat_map tensor_moves (sg_tensor <$> sts)) as Hg; [|apply (Hg [])].
  induction sts as [|st sts IH]; intros pre; [done|].
  rewrite (seqZ_cons _ (vsize (st :: sts))) by (unfold vsize; simpl; lia). rewrite fmap_cons. cbn [flat_map]. f_equal.
  - unfold moves_at, vsize. by rewrite Nat2Z.id, list_lookup_middle.
  - rewrite <- (IH (pre ++ [st])), <- app_assoc. f_equal. f_equal; unfold vsize; rewrite ?length_app; simpl; lia.
Qed.

Lemma copy_layers_any_order g sts ts order dst a :
  order ≡ₚ seqZ 0 (vsize sts) -> Forall2 same_copies ts (sg_tensor <$> sts) ->
  NoDup (flat_map tensor_moves ts).*2 -> copy_layers g sts order dst a = layer_copy g ts dst a.
Proof.
  intros Ho Hs Hnd. rewrite copy_layers_moves, layer_copy_exec. symmetry. apply exec_bytes_perm; [done|].
  rewrite <- (moves_same _ _ Hs), <- all_moves. symmetry. by apply Permutation_flat_map.
Qed.

(** ** What arrives *)
Lemma written_at m ws len i a l :
  Forall (fun w => vsize w.2 = len) ws -> separate (spread len ws.*1) -> ws !! i = Some (a, l) ->
  holds (written m ws) a l.
Proof. intros Hl Hs. apply written_holds. by rewrite (ranges_spread len). Qed.

Lemma delivered reqid_of g h0 mS mD sts len :
  Forall (fun st => tensor_ok (sg_tensor st) /\ staged_len (sg_tensor st) = len) sts ->
  separate (spread len ((fun st => hb_buf (sg_host st)) <$> sts)) ->
  separate (spread len ((fun st => remote_addr (sg_remote st)) <$> sts)) ->
  (forall a, host mS a = written h0 (host_writes reqid_of g 0 sts) a) ->
  forall i st, sts !! i = Some st ->
    holds (host (deliver mS (stage_writes reqid_of 0 sts) mD)) (remote_addr (sg_remote st))
      (stage_msg reqid_of g (Z.of_nat i) st).
Proof.
  intros Hok Hhs Hrs Hm. rewrite Forall_lookup in Hok.
  assert (forall i st, sts !! i = Some st -> vsize (stage_msg reqid_of g (Z.of_nat i) st) = len) as Hsz.
  { intros i st Hi. destruct (Hok _ _ Hi) as [Ht <-]. by apply vsize_staged_wire. }
  assert (forall i st, sts !! i = Some st ->
    read (host mS) (hb_buf (sg_host st)) len = stage_msg reqid_of g (Z.of_nat i) st) as Hread.
  { intros i st Hi. rewrite <- (Hsz _ _ Hi). apply holds_read. intros k x Hk. rewrite Hm.
    revert k x Hk. apply (written_at _ _ len i).
    - apply Forall_lookup. intros j [a l]. rewrite host_writes_lookup. destruct (sts !! j) eqn:Hj; [|done].
      intros [= <- <-]. by apply Hsz.
    - replace (host_writes reqid_of g 0 sts).*1 with ((fun st => hb_buf (sg_host st)) <$> sts); [done|].
      apply list_eq. intros j. rewrite !list_lookup_fmap, host_writes_lookup. by destruct (sts !! j).
    - by rewrite host_writes_lookup, Hi. }
  intros i st Hi. rewrite deliver_spec. cbn [host].
  assert (forall j, ((fun w : Z * ImmWrite => (iw_raddr w.2, read (host mS) (iw_buf w.2) (iw_len w.2))) <$>
    stage_writes reqid_of 0 sts) !! j =
    (fun st => (remote_addr (sg_remote st), stage_msg reqid_of g (Z.of_nat j) st)) <$> sts !! j) as Hl.
  { intros j. rewrite list_lookup_fmap, stage_writes_lookup. destruct (sts !! j) as [st'|] eqn:Hj; [|done]. simpl.
    destruct (Hok _ _ Hj) as [_ Hlen]. by rewrite Hlen, (Hread _ _ Hj). }
  apply (written_at _ _ len i).
  - apply Forall_lookup. intros j [a l]. rewrite Hl. destruct (sts !! j) eqn:Hj; [|done]. intros [= <- <-]. by apply Hsz.
  - match goal with |- separate (spread len ?x) =>
      replace x with ((fun st => remote_addr (sg_remote st)) <$> sts); [done|] end.
    apply list_eq. intros j. rewrite (list_lookup_fmap fst), Hl, list_lookup_fmap. by destruct (sts !! j).
  - by rewrite Hl, Hi.
Qed.

(** ** Flush *)
Lemma flush_replies reqid_of time_of sts rs acc k :
  (forall i, 0 <= reqid_of i < W64) -> (forall i, times_ok (time_of i)) ->
  Forall2 (fun i r => r = Ok (kv_reply KV_CACHE_DATA_MAGIC (reqid_of i) (time_of i))) (seqZ k (vsize sts)) rs ->
  forM (zip (stage_writes reqid_of k sts) rs) (fun wr ts =>
    let* reply := wr.2 in let* t := read_kv_reply wr.1.1 reply in Ok (ts ++ [t])) acc =
  Ok (acc ++ (time_of <$> seqZ k (vsize sts))).
Proof.
  intros Hreq Htm. revert k rs acc. induction sts as [|st sts IH]; intros k rs acc Hrs.
  { by rewrite app_nil_r. }
  replace (vsize (st :: sts)) with (vsize sts + 1) in * by (unfold vsize; simpl; lia).
  pose proof (vsize_nonneg sts). rewrite seqZ_cons in * by lia.
  replace (Z.pred (vsize sts + 1)) with (vsize sts) in * by lia. change (Z.succ k) with (k + 1) in *.
  apply Forall2_cons_inv_l in Hrs as (r & rs' & -> & Hrs & ->). cbn [stage_writes zip zip_with forM snd fst stage_write rbind].
  rewrite read_kv_reply_spec by done. cbn [rbind]. rewrite IH by done. by rewrite <- app_assoc.
Qed.

(** The stages of a loaded channel. *)
Record staging (sc : RDMAStagedChannel) (r : Registered) (ts : list Tensor) (len : Z) (sts : list Stage) : Prop := {
  sg_tensors : sg_tensor <$> sts = ts;
  sg_hosts : host_buffers_ sc = reverse (sg_host <$> sts);
  sg_remotes : remote_buffers_ sc = sg_remote <$> sts;
  sg_ok : Forall (stage_ok r) sts;
  sg_lens : Forall (fun st => tensor_ok (sg_tensor st) /\ staged_len (sg_tensor st) = len) sts;
  sg_host_apart : separate (spread len ((fun st => hb_buf (sg_host st)) <$> sts));
  sg_remote_apart : separate (spread len ((fun st => remote_addr (sg_remote st)) <$> sts));
}.

Lemma staging_exists sc s key len r ts :
  staged_loaded sc s key (vsize ts) len r -> 0 < len < W64 -> Forall tensor_ok ts ->
  Forall (fun t => registered_layer [t] r /\ staged_len t = len) ts -> exists sts, staging sc r ts len sts.
Proof.
  intros [Hdata Hch Hnum (Hhn & Hhl & Hhs) (Hrn & Hrp) [Hlk Hlo Hla] Hfut] Hlen Hok Hrl.
  set (sts := stages ts (reverse (host_buffers_ sc)) (remote_buffers_ sc)). exists sts.
  destruct (stages_parts ts (reverse (host_buffers_ sc)) (remote_buffers_ sc)) as (Pt & Ph & Pr);
    [rewrite length_reverse; unfold vsize in *; lia|unfold vsize in *; lia|]. fold sts in Pt, Ph, Pr.
  split; try done.
  - by rewrite Ph, reverse_involutive.
  - apply Forall_lookup. intros i st (Ht & Hh & Hr)%stages_lookup.
    destruct (Forall_lookup_1 _ _ _ _ Hrl Ht) as [Hregd Hsl]. pose proof (Forall_lookup_1 _ _ _ _ Hlo Hr) as [Hsz Hid].
    assert (len <= hb_len (sg_host st)).
    { rewrite Forall_forall in Hhl. apply Hhl, elem_of_reverse. by eapply list_elem_of_lookup_2. }
    split; try done; [by apply (Forall_lookup_1 _ _ _ _ Hok Ht)|lia..].
  - apply Forall_lookup. intros i st (Ht & _)%stages_lookup.
    split; [by apply (Forall_lookup_1 _ _ _ _ Hok Ht)|by apply (Forall_lookup_1 _ _ _ _ Hrl Ht)].
  - change ((fun st => hb_buf (sg_host st)) <$> sts) with (hb_buf ∘ sg_host <$> sts). rewrite list_fmap_compose, Ph. unfold spread. rewrite !fmap_reverse. by apply separate_reverse.
  - change ((fun st => remote_addr (sg_remote st)) <$> sts) with (remote_addr ∘ sg_remote <$> sts).
    rewrite list_fmap_compose, Pr. by apply (separate_shrink len (staged_payload_size_ sc)).
Qed.

(** Layer [i]'s reply is one the server sent for it. *)
Definition reply_for (replies : list (Z * list Z)) (i : Z) (r : res (list Z)) : Prop :=
  exists reply, r = Ok reply /\ (i, reply) ∈ replies.

(** A channel that can take the next batch. *)
Definition staged_idle (sc : RDMAStagedChannel) (s : RDMAStagedServer) (key : Z) : Prop :=
  data_ (base_ sc) = None /\ host_buffers_ sc = [] /\ staged_write_futs_ sc = [] /\
  (remote_buffers_ sc = [] \/ link sc s key).

(** C4: A whole staged RDMA transfer, client and server together, for any std::sort, any
    copy methods and launch configurations on both devices: register_data takes one turn of
    the round robin over the connections per layer (the counter, an int, has room for them)
    and obtains one receive buffer per layer from the server, sending every layer succeeds
    without touching the sender's device memory, and in whatever order the writes are
    announced the server answers each and its tensors end as the registered copies of all
    layers would leave them; flush then returns the time stamps of every layer, and after
    any flush the channel holds no receive buffer the server does not know. *)
Theorem staged_transfer_performs_copies sort `{!StdSort sort} d d' e crc_on c0 sc ctx s key ts blocks kind
    host_alloc alloc reqid reqid_of time_of mS mD :
  device_ok d -> device_ok d' -> staged_ready e c0 sc ctx s key ts blocks host_alloc alloc -> 0 <= reqid < W64 ->
  (forall i, 0 <= reqid_of i < W64) -> (forall i, times_ok (time_of i)) -> vsize ts < W64 ->
  exists sc1 s1 sc2 mS',
    staged_register_data crc32_z sort e crc_on host_alloc (answer alloc key (gpu mD) s) reqid [blocks] kind sc = Ok sc1 /\
    asked_once alloc key (gpu mD) s s1 /\ prev_ch_idx_ (base_ sc1) = prev_ch_idx_ c0 + vsize ts /\
    forM (seqZ 0 (vsize ts)) (fun i => staged_send_data d ctx (reqid_of i) i) (sc1, mS) = Ok (sc2, mS') /\
    (forall a, gpu mS' a = gpu mS a) /\
    (forall submitted rs, staged_idle (staged_flush submitted rs sc2).1 s1 key) /\
    forall order, order ≡ₚ seqZ 0 (vsize ts) ->
      exists mD' replies,
        serve_imms d' s1 key time_of (staged_write_futs_ sc2) order (deliver mS' (staged_write_futs_ sc2) mD)
          = Ok (mD', replies) /\
        (forall a, gpu mD' a = layer_copy (gpu mS) ts (gpu mD) a) /\
        forall rs, Forall2 (reply_for replies) (seqZ 0 (vsize ts)) rs ->
          (staged_flush (replicate (length ts) (Ok tt)) rs sc2).2 = Ok (time_of <$> seqZ 0 (vsize ts)).
Proof.
  intros Hd Hd' Hready Hreq Hreqs Htm Hvt.
  destruct (staged_register_spec sort e crc_on c0 sc ctx s key ts blocks kind host_alloc alloc (gpu mD) reqid Hready Hreq)
    as (sc1 & s1 & r & ts' & len & Hreg & Hask & Hgp & Hlb & Hload & Hlen & Hprev & Hsame & Hok & Hrl).
  destruct Hready as [_ _ _ _ [Hmn Hmrs] [Hptr Hcap] _ _ Hdis].
  assert (vsize ts' = vsize ts) as Hvt' by (unfold vsize; by rewrite (Forall2_length _ _ _ Hsame)).
  destruct (staging_exists sc1 s1 key len r ts') as (sts & [Pt Ph Pr Hst Hsl Hha Hra]); [by rewrite Hvt'|done..|].
  destruct Hload as [Hdata Hch Hnum _ _ Hlk Hfut].
  assert (vsize sts = vsize ts) as Hvs by (rewrite <- Hvt', <- Pt; unfold vsize; by rewrite length_fmap).
  destruct (staged_sends_spec reqid_of d ctx r sts [] sc1 mS) as (mS' & Hsend & HmS & HgS); try done;
    try (rewrite ?Hmn, ?app_nil_l; lia).
  { intros i st Hi'. cbn [app] in Hi'. assert (ts' !! i = Some (sg_tensor st)) as Ht by (by rewrite <- Pt, list_lookup_fmap, Hi').
    destruct (Forall2_lookup_r _ _ _ _ _ Hsame Ht) as (t & Hi & Es & _).
    destruct (Hmrs i t Hi) as (mrs & lkey & ? & ?). exists mrs, lkey. by rewrite Es. }
  rewrite Hvs in Hsend. rewrite Hfut in Hsend. cbn [app] in Hsend. change (vsize []) with 0 in *.
  eexists sc1, s1, _, mS'. split_and!; [done|done|done|exact Hsend|done|..].
  { intros submitted rs. unfold staged_flush. cbn [staged_write_futs_ host_buffers_ remote_buffers_ base_ staged_payload_size_].
    destruct (let* _ := _ in _); split_and!; try done; [right; by destruct Hlk; split|by left]. }
  intros order Hord.
  destruct (serve_imms_spec reqid_of d' s1 key time_of r sts order (gpu mS) (deliver mS' (stage_writes reqid_of 0 sts) mD))
    as (mD' & Hserve & _ & HgD); try done.
  { rewrite <- Pr. by apply Hlk. }
  { rewrite Hlb. clear -Pt Hsame Hcap. apply Forall_lookup. intros i st Hi.
    assert (ts' !! i = Some (sg_tensor st)) as Ht by (by rewrite <- Pt, list_lookup_fmap, Hi).
    destruct (Forall2_lookup_r _ _ _ _ _ Hsame Ht) as (t & Hit & _ & _ & Ec & _). rewrite Ec.
    by apply (Forall_lookup_1 _ _ _ _ Hcap Hit). }
  { rewrite Hgp, Hptr, <- (same_copies_fmap t_dst ts ts'), <- Pt by (done || by intros ?? (_ & ? & _)).
    by rewrite <- list_fmap_compose. }
  { by rewrite Hvs. }
  { rewrite Hord. apply Forall_forall. intros i Hi%elem_of_seqZ. lia. }
  { by apply (delivered reqid_of (gpu mS) (host mS) mS' mD sts len). }
  cbn [staged_write_futs_]. eexists mD', _. split; [exact Hserve|]. split.
  { intros a. rewrite HgD, deliver_spec. cbn [gpu].
    apply (copy_layers_any_order (gpu mS) sts ts); [by rewrite Hvs|by rewrite Pt|done]. }
  intros rs Hrs. unfold staged_flush. cbn [staged_write_futs_ host_buffers_].
  rewrite forM_unit by (by apply Forall_replicate). cbn [rbind].
  rewrite (flush_replies reqid_of time_of); try done.
  { cbn [app]. rewrite cassert_true by done. cbn [rbind snd]. by rewrite Hvs. }
  rewrite Hvs. eapply Forall2_impl; [exact Hrs|]. intros i x (reply & -> & (j & [= -> ->] & _)%list_elem_of_fmap). done.
Qed.
End Transfer.

(** ** Example *)

(** Two layers of one tensor, records of which two merge. *)
Definition staged_blocks : list IpcBlock := [mkIpcBlock 8 32 8; mkIpcBlock 0 24 8; mkIpcBlock 32 0 4].

Definition staged_tensors : list Tensor :=
  [mkTensor staged_blocks 1000 5000 64; mkTensor staged_blocks 1100 5100 64].

Definition sample_staged : RDMAStagedChannel := mkStagedChannel sample_channel [] [] 0 [].

Definition sample_host_alloc (i len : Z) : res HostBuffer := Ok (mkHostBuffer (10000 + i * 1000) len).

Lemma sample_staged_ready :
  @staged_ready debug_env sample_init (set_connections 2 sample_handles sample_channel) sample_staged sample_ctx
    two_layer_server 1 staged_tensors staged_blocks sample_host_alloc recv_alloc_at.
Proof.
  split.
  - split; [done|]. repeat (constructor; [split; [done|]; split; [done|by repeat constructor|done| |done|done];
      apply (bool_decide_unpack _); vm_compute; exact I|]); constructor.
  - split_and!; [vm_compute; reflexivity|done|done].
  - done.
  - done.
  - split; [done|]. intros [|[|i]] t Hi; [injection Hi as <-; by eexists _, _..|done].
  - split; [done|]. by repeat constructor.
  - change (payload_bound staged_blocks) with 536. change (vsize staged_tensors) with 2. split_and!.
    + split; [intros i len Hi Hl; eexists; split; [done|]; cbn; lia|].
      intros i j len b b' Hij Hi Hj Hl [= <-] [= <-]. cbn. lia.
    + split; [intros i len Hi Hl; eexists _, _; split; [done|]; cbn; split_and!; try done; unfold W64, W32; lia|].
      intros i j len b b' Hij Hi Hj Hl [= <-] [= <-]. cbn. lia.
    + done.
  - by left.
  - apply (bool_decide_unpack _). vm_compute. exact I.
Qed.

Lemma staged_transfer_performs_copies_witness :
  exists sc1 s1 sc2 mS' mD' replies,
    @staged_register_data debug_env sample_crc (merge_sort src_le) sample_init false sample_host_alloc
      (@answer debug_env sample_crc sample_handles sample_server recv_alloc_at 1 (fun _ => 0) two_layer_server)
      100 [staged_blocks] PEQD sample_staged = Ok sc1 /\
    forM (seqZ 0 2) (fun i => @staged_send_data debug_env sample_sender sample_ctx (u64 (200 + i)) i) (sc1, sample_memory)
      = Ok (sc2, mS') /\
    @serve_imms debug_env sample_receiver s1 1 (fun i => mkTimes (u64 i) 1 2) (staged_write_futs_ sc2) [1; 0]
      (deliver mS' (staged_write_futs_ sc2) (mkMem (fun _ => 0) (fun _ => 0))) = Ok (mD', replies) /\
    forall a, gpu mD' a = layer_copy (gpu sample_memory) staged_tensors (fun _ => 0) a.
Proof.
  destruct (@staged_transfer_performs_copies debug_env sample_crc sample_handles sample_server
    (merge_sort src_le) _ sample_sender sample_receiver sample_init false
    (set_connections 2 sample_handles sample_channel) sample_staged sample_ctx two_layer_server 1
    staged_tensors staged_blocks PEQD sample_host_alloc recv_alloc_at 100 (fun i => u64 (200 + i))
    (fun i => mkTimes (u64 i) 1 2) sample_memory (mkMem (fun _ => 0) (fun _ => 0)))
    as (sc1 & s1 & sc2 & mS' & Hreg & _ & _ & Hsend & _ & _ & Hserve).
  - split; [intros l; apply reverse_Permutation|done|done].
  - split; done.
  - apply sample_staged_ready.
  - done.
  - intros i. apply Z.mod_pos_bound. done.
  - intros i. split; [apply Z.mod_pos_bound; done|done].
  - done.
  - destruct (Hserve [1; 0]) as (mD' & replies & Hs & Hg & _); [apply (bool_decide_unpack _); vm_compute; exact I|].
    exists sc1, s1, sc2, mS', mD', replies. split; [exact Hreg|]. split; [exact Hsend|]. split; [exact Hs|exact Hg].
Defined.
