(* ===== verification/RpcTable.v ===== *)
(** The table of outstanding calls of a client ([CliBarexCtx] in [src/barex_protocol.cpp], the
    ids of [src/id_generator.cpp], and the reply handlers of [src/rdma_channel.cpp],
    [src/rdma_staged_channel.cpp] and [include/copy_utils.h]).

    A call takes an id, puts its handler into the table under a lock, sends the request and
    waits for a promise.  Three parties may take the handler out: the thread that receives a
    message, the completion of a send that failed, and the waiter whose time is up.  Taking it
    out and running it are two steps here, so that other threads can act in between. *)

From stdpp Require Import gmap.
From S2P Require Import Prelude.
From S2P Require Import Common.
From S2P Require Import TcpWire.
From S2P Require Import Rdma.
From S2P Require Import StagedServer.
From S2P Require Import StagedChannel.

(** ** Handlers *)
Inductive Call := GetMemHandles | RemoteCrc | GetStagedPreallocResp | SendKVCacheData.

Inductive reply_value :=
| VHandles (hs : list RDMAMemHandle)
| VCrc (crc : Z)
| VEntries (es : list StagedPreallocRespEntry)
| VTimes (t : Times).

(** [operator()] of the handler of [reqid]: [None] is a status that is not OK.  An exception
    goes into the promise; a failed RTASSERT ends the process. *)
Definition operator_call (c : Call) (reqid : Z) (arrived : option (list Z)) : res reply_value :=
  match arrived with
  | None => Err RuntimeError
  | Some buf =>
      match c with
      | GetMemHandles => let* hs := read_mem_handles reqid buf in Ok (VHandles hs)
      | RemoteCrc => let* crc := read_crc_reply reqid buf in Ok (VCrc crc)
      | GetStagedPreallocResp => let* es := read_prealloc_resp reqid buf in Ok (VEntries es)
      | SendKVCacheData => let* t := read_kv_reply reqid buf in Ok (VTimes t)
      end
  end.

(** ** State *)

(** A handler taken out of the table, with what it will be called with. *)
Record Running := mkRunning {
  run_reqid : Z;
  run_call : Call;
  run_arrived : option (list Z);
}.

(** [drawn_]: ids taken and not yet in the table; [promises_]: per call, [None] while its
    waiter would block. *)
Record CliRpc := mkCliRpc {
  last_id_ : Z;
  drawn_ : gset Z;
  rpc_ : gmap Z Call;
  running_ : list Running;
  promises_ : gmap Z (option (res reply_value));
}.

Definition FIRST_ID : Z := 20181218.
Definition new_client : CliRpc := mkCliRpc FIRST_ID ∅ ∅ [] ∅.

(** ** Operations *)
Definition new_id (s : CliRpc) : Z * CliRpc :=
  (last_id_ s, mkCliRpc (u64 (last_id_ s + 1)) ({[last_id_ s]} ∪ drawn_ s) (rpc_ s) (running_ s) (promises_ s)).

Section Client.
Context `{Env}.

(** [push]: [emplace] keeps an entry that is there already. *)
Definition push (reqid : Z) (on_resp : Call) (s : CliRpc) : res CliRpc :=
  let ok := bool_decide (rpc_ s !! reqid = None) in
  let rpc := if ok then <[reqid := on_resp]> (rpc_ s) else rpc_ s in
  assert: ok;
  Ok (mkCliRpc (last_id_ s) (drawn_ s ∖ {[reqid]}) rpc (running_ s) (<[reqid := None]> (promises_ s))).

Definition pop (reqid : Z) (s : CliRpc) : option Call * CliRpc :=
  match rpc_ s !! reqid with
  | None => (None, s)
  | Some handle =>
      (Some handle, mkCliRpc (last_id_ s) (drawn_ s) (delete reqid (rpc_ s)) (running_ s) (promises_ s))
  end.

(** The handler is about to run on the thread that took it out. *)
Definition start (reqid : Z) (arrived : option (list Z)) (s : CliRpc) : CliRpc :=
  match pop reqid s with
  | (None, s) => s
  | (Some handle, s) =>
      mkCliRpc (last_id_ s) (drawn_ s) (rpc_ s) (running_ s ++ [mkRunning reqid handle arrived]) (promises_ s)
  end.

(** [RpcCtxCb::OnRecvCall]. *)
Definition on_recv (buf : list Z) (s : CliRpc) : CliRpc :=
  if vsize buf <? RPC_HEADER then s else start (msg_reqid buf) (Some buf) s.

(** [on_send_error]: called when a send fails and when the waiter's time is up. *)
Definition on_send_error (reqid : Z) (s : CliRpc) : CliRpc := start reqid None s.

(** [set_value] and [set_exception]: a second one throws. *)
Definition set_promise (reqid : Z) (r : res reply_value) (s : CliRpc) : res CliRpc :=
  match promises_ s !! reqid with
  | Some None =>
      Ok (mkCliRpc (last_id_ s) (drawn_ s) (rpc_ s) (running_ s) (<[reqid := Some r]> (promises_ s)))
  | _ => Err RuntimeError
  end.

(** The [k]th handler that was taken out runs. *)
Definition run (k : nat) (s : CliRpc) : res CliRpc :=
  match running_ s !! k with
  | None => Ok s
  | Some r =>
      let s := mkCliRpc (last_id_ s) (drawn_ s) (rpc_ s) (delete k (running_ s)) (promises_ s) in
      match operator_call (run_call r) (run_reqid r) (run_arrived r) with
      | Err e => if is_exception e then set_promise (run_reqid r) (Err e) s else Err e
      | Ok v => set_promise (run_reqid r) (Ok v) s
      end
  end.

(** ** Threads *)
Inductive rpc_event :=
| EvNewId                                  (* a caller takes an id *)
| EvPush (reqid : Z) (c : Call)            (* and registers its handler *)
| EvMessage (buf : list Z)                 (* a message arrives, from anyone *)
| EvSendError (reqid : Z)                  (* a send failed, or a waiter gave up *)
| EvRun (k : nat).                         (* a handler runs *)

Definition rpc_step (e : rpc_event) (s : CliRpc) : res CliRpc :=
  match e with
  | EvNewId => Ok (new_id s).2
  | EvPush reqid c => push reqid c s
  | EvMessage buf => Ok (on_recv buf s)
  | EvSendError reqid => Ok (on_send_error reqid s)
  | EvRun k => run k s
  end.

(** What a caller may do: ids do not run out, and only an id that was taken is pushed. *)
Definition enabled (e : rpc_event) (s : CliRpc) : Prop :=
  match e with
  | EvNewId => last_id_ s + 1 < W64
  | EvPush reqid _ => reqid ∈ drawn_ s
  | _ => True
  end.

Inductive rpc_steps : CliRpc -> CliRpc -> Prop :=
| rpc_refl s : rpc_steps s s
| rpc_then s e s' s'' : enabled e s -> rpc_step e s = Ok s' -> rpc_steps s' s'' -> rpc_steps s s''.

(** ** Invariant *)
Record rpc_ok (s : CliRpc) : Prop := {
  ro_ids : FIRST_ID <= last_id_ s < W64;
  ro_drawn : forall i, i ∈ drawn_ s -> i < last_id_ s /\ promises_ s !! i = None;
  ro_known : forall i, is_Some (promises_ s !! i) -> i < last_id_ s;
  ro_table : forall i, is_Some (rpc_ s !! i) -> promises_ s !! i = Some None /\ i ∉ run_reqid <$> running_ s;
  ro_once : NoDup (run_reqid <$> running_ s);
  ro_running : forall r, r ∈ running_ s -> promises_ s !! run_reqid r = Some None /\
    forall buf, run_arrived r = Some buf -> msg_reqid buf = run_reqid r;
  ro_pending : forall i, promises_ s !! i = Some None -> is_Some (rpc_ s !! i) \/ i ∈ run_reqid <$> running_ s;
}.

Lemma new_client_ok : rpc_ok new_client.
Proof.
  split; cbn.
  - done.
  - intros i Hi. set_solver.
  - intros i. rewrite lookup_empty. by intros [].
  - intros i. rewrite lookup_empty. by intros [].
  - by constructor.
  - intros r Hr. set_solver.
  - intros i. by rewrite lookup_empty.
Qed.

Lemma new_id_ok s : last_id_ s + 1 < W64 -> rpc_ok s -> rpc_ok (new_id s).2.
Proof.
  intros Hlt [Hi Hd Hk Ht Ho Hr Hp]. split; cbn; try done.
  - rewrite u64_small; unfold FIRST_ID in *; lia.
  - intros i [->%elem_of_singleton|Hin]%elem_of_union; rewrite u64_small by (unfold FIRST_ID in *; lia).
    + split; [lia|]. destruct (promises_ s !! last_id_ s) eqn:E; [|done]. assert (last_id_ s < last_id_ s); [apply Hk; by rewrite E|lia].
    + destruct (Hd i Hin). split; [lia|done].
  - intros i Hs. rewrite u64_small by (unfold FIRST_ID in *; lia). specialize (Hk i Hs). lia.
Qed.

Lemma push_ok reqid c s :
  reqid ∈ drawn_ s -> rpc_ok s ->
  push reqid c s = Ok (mkCliRpc (last_id_ s) (drawn_ s ∖ {[reqid]}) (<[reqid := c]> (rpc_ s)) (running_ s)
    (<[reqid := None]> (promises_ s))) /\
  forall s', push reqid c s = Ok s' -> rpc_ok s'.
Proof.
  intros Hin [Hi Hd Hk Ht Ho Hr Hp]. destruct (Hd reqid Hin) as [Hlt Hnone].
  assert (rpc_ s !! reqid = None) as Hfree.
  { destruct (rpc_ s !! reqid) eqn:E; [|done]. destruct (Ht reqid) as [Hs _]; [by rewrite E|]. congruence. }
  assert (reqid ∉ run_reqid <$> running_ s) as Hnr.
  { intros (r & -> & Hrin)%list_elem_of_fmap. destruct (Hr r Hrin). congruence. }
  unfold push. rewrite bool_decide_eq_true_2 by done. rewrite cassert_true by done. cbn [rbind].
  split; [done|]. intros s' [= <-]. split; cbn; try done.
  - intros i [Hid Hne]%elem_of_difference. rewrite lookup_insert_ne by set_solver. by apply Hd.
  - intros i. destruct (decide (i = reqid)) as [->|Hne]; [done|]. rewrite lookup_insert_ne by done. apply Hk.
  - intros i. destruct (decide (i = reqid)) as [->|Hne]; [by rewrite !lookup_insert_eq|].
    rewrite !lookup_insert_ne by done. apply Ht.
  - intros r Hrin. rewrite lookup_insert_ne; [by apply Hr|]. intros ->. apply Hnr, list_elem_of_fmap. by exists r.
  - intros i. destruct (decide (i = reqid)) as [->|Hne]; [rewrite !lookup_insert_eq; by left|].
    rewrite !lookup_insert_ne by done. apply Hp.
Qed.

Lemma start_ok reqid arrived s :
  (forall buf, arrived = Some buf -> msg_reqid buf = reqid) -> rpc_ok s -> rpc_ok (start reqid arrived s).
Proof.
  intros Ha [Hi Hd Hk Ht Ho Hr Hp]. unfold start, pop. destruct (rpc_ s !! reqid) as [c|] eqn:Hc; [|by split].
  destruct (Ht reqid) as [Hpr Hnr]; [by rewrite Hc|]. split; cbn; try done.
  - intros i. destruct (decide (i = reqid)) as [->|Hne]; [rewrite lookup_delete_eq; by intros []|].
    rewrite lookup_delete_ne by done. intros [Hs Hn]%Ht. split; [done|]. rewrite fmap_app. set_solver.
  - rewrite fmap_app. apply NoDup_app. split_and!; [done| |by apply NoDup_singleton]. set_solver.
  - intros r [Hin| ->%list_elem_of_singleton]%elem_of_app; [by apply Hr|]. done.
  - intros i Hi'. rewrite fmap_app. destruct (decide (i = reqid)) as [->|Hne]; [set_solver|].
    rewrite lookup_delete_ne by done. destruct (Hp i Hi'); [by left|set_solver].
Qed.

(** A handler that is out always finds its promise unset. *)
Lemma run_cases k s :
  rpc_ok s ->
  match running_ s !! k with
  | None => run k s = Ok s
  | Some r =>
      match operator_call (run_call r) (run_reqid r) (run_arrived r) with
      | Err e => if is_exception e
                 then run k s = Ok (mkCliRpc (last_id_ s) (drawn_ s) (rpc_ s) (delete k (running_ s))
                        (<[run_reqid r := Some (Err e)]> (promises_ s)))
                 else run k s = Err e
      | Ok v => run k s = Ok (mkCliRpc (last_id_ s) (drawn_ s) (rpc_ s) (delete k (running_ s))
                  (<[run_reqid r := Some (Ok v)]> (promises_ s)))
      end
  end.
Proof.
  intros Hok. unfold run. destruct (running_ s !! k) as [r|] eqn:Hk; [|done].
  destruct (ro_running _ Hok r) as [Hp _]; [by eapply list_elem_of_lookup_2|].
  destruct (operator_call _ _ _) as [v|e]; [|destruct (is_exception e); [|done]];
    unfold set_promise; cbn; by rewrite Hp.
Qed.

Lemma settle_ok k s r o :
  rpc_ok s -> running_ s !! k = Some r ->
  rpc_ok (mkCliRpc (last_id_ s) (drawn_ s) (rpc_ s) (delete k (running_ s)) (<[run_reqid r := Some o]> (promises_ s))).
Proof.
  intros [Hi Hd Hk Ht Ho Hr Hp] Hkr.
  assert (running_ s = take k (running_ s) ++ r :: drop (S k) (running_ s)) as Hsplit by (by apply take_drop_middle in Hkr).
  assert (delete k (running_ s) = take k (running_ s) ++ drop (S k) (running_ s)) as Hdel by apply delete_take_drop.
  set (u := take k (running_ s)) in *. set (w := drop (S k) (running_ s)) in *.
  rewrite Hsplit, fmap_app, fmap_cons in Ho. apply NoDup_app in Ho as (Hu & Huw & Hw).
  apply NoDup_cons in Hw as [Hrw Hw].
  assert (run_reqid r ∉ run_reqid <$> u ++ w) as Hout.
  { rewrite fmap_app, not_elem_of_app. split; [|done]. intros Hin. apply (Huw _ Hin). by constructor. }
  destruct (Hr r) as [Hpr Hmsg]; [by eapply list_elem_of_lookup_2|].
  rewrite Hdel. split; cbn; try done.
  - intros i Hin. rewrite lookup_insert_ne; [by apply Hd|]. intros <-. destruct (Hd _ Hin). congruence.
  - intros i. destruct (decide (i = run_reqid r)) as [->|Hne]; [intros _; apply Hk; by rewrite Hpr|].
    rewrite lookup_insert_ne by done. apply Hk.
  - intros i Hin. destruct (Ht i Hin) as [Hs Hn]. rewrite Hsplit, fmap_app, fmap_cons in Hn.
    rewrite lookup_insert_ne by set_solver. split; [done|]. rewrite fmap_app. set_solver.
  - rewrite fmap_app. apply NoDup_app. split_and!; [done| |done]. intros x Hx Hxw. apply (Huw x Hx). by constructor.
  - intros r' Hin. rewrite lookup_insert_ne.
    + apply Hr. rewrite Hsplit. set_solver.
    + intros Heq. apply Hout. rewrite Heq. apply list_elem_of_fmap. by exists r'.
  - intros i. destruct (decide (i = run_reqid r)) as [->|Hne]; [by rewrite lookup_insert_eq|].
    rewrite lookup_insert_ne by done. intros [?|Hin]%Hp; [by left|right].
    rewrite Hsplit, fmap_app, fmap_cons in Hin. rewrite fmap_app. set_solver.
Qed.

Lemma run_ok k s s' : rpc_ok s -> run k s = Ok s' -> rpc_ok s'.
Proof.
  intros Hok Hrun. pose proof (run_cases k s Hok) as Hc. destruct (running_ s !! k) as [r|] eqn:Hk; [|congruence].
  destruct (operator_call _ _ _) as [v|e] eqn:Ho.
  - rewrite Hrun in Hc. injection Hc as ->. by apply settle_ok.
  - destruct (is_exception e); rewrite Hrun in Hc; [|done]. injection Hc as ->. by apply settle_ok.
Qed.

Lemma rpc_step_ok e s s' : enabled e s -> rpc_ok s -> rpc_step e s = Ok s' -> rpc_ok s'.
Proof.
  intros He Hok. destruct e as [|reqid c|buf|reqid|k]; cbn [rpc_step].
  - intros [= <-]. by apply new_id_ok.
  - by apply (push_ok reqid c s).
  - intros [= <-]. unfold on_recv. destruct (_ <? _); [done|]. apply start_ok; [|done]. by intros ? [= <-].
  - intros [= <-]. by apply start_ok.
  - by apply run_ok.
Qed.

Lemma rpc_steps_ok s s' : rpc_steps s s' -> rpc_ok s -> rpc_ok s'.
Proof. induction 1 as [|s e s' s'' He Hs _ IH]; [done|]. intros Hok. apply IH. by apply (rpc_step_ok e s). Qed.

(** ** One holder per call *)

(** Who can still answer call [i]: the table, handlers that are out, or the promise itself. *)
Definition holders (s : CliRpc) (i : Z) : nat :=
  (if bool_decide (is_Some (rpc_ s !! i)) then 1 else 0) +
  length (filter (fun r => run_reqid r = i) (running_ s)) +
  match promises_ s !! i with Some (Some _) => 1 | _ => 0 end.

Lemma filter_out (l : list Running) i : i ∉ run_reqid <$> l -> filter (fun r => run_reqid r = i) l = [].
Proof.
  induction l as [|r l IH]; [done|]. rewrite fmap_cons, not_elem_of_cons. intros [Hne Hn].
  rewrite filter_cons_False by congruence. by apply IH.
Qed.

Lemma filter_once (l : list Running) i :
  NoDup (run_reqid <$> l) -> i ∈ run_reqid <$> l -> length (filter (fun r => run_reqid r = i) l) = 1%nat.
Proof.
  induction l as [|r l IH]; [intros _ Hin; set_solver|]. rewrite fmap_cons. intros [Hn Hnd]%NoDup_cons [->|Hin]%elem_of_cons.
  - rewrite filter_cons_True by done. simpl. by rewrite filter_out.
  - rewrite filter_cons_False; [by apply IH|]. intros <-. done.
Qed.

Lemma one_holder s i : rpc_ok s -> is_Some (promises_ s !! i) -> holders s i = 1%nat.
Proof.
  intros [_ _ _ Ht Ho Hr Hp] [p Hpi]. unfold holders. rewrite Hpi.
  assert (p <> None -> i ∉ run_reqid <$> running_ s) as Hset.
  { intros Hne (r & -> & Hin)%list_elem_of_fmap. destruct (Hr r Hin). congruence. }
  case_bool_decide as Ht'.
  - destruct (Ht i Ht') as [Hnone Hnr]. rewrite Hpi in Hnone. injection Hnone as ->. by rewrite filter_out.
  - destruct p as [o|]; [by rewrite filter_out by (by apply Hset)|].
    destruct (Hp i Hpi) as [?|Hin]; [done|]. by rewrite filter_once.
Qed.

(** ** What stays *)
Lemma start_promises reqid a s : promises_ (start reqid a s) = promises_ s.
Proof. unfold start, pop. by destruct (rpc_ s !! reqid). Qed.

Lemma start_table reqid a s i : rpc_ s !! i = None -> rpc_ (start reqid a s) !! i = None.
Proof. unfold start, pop. destruct (rpc_ s !! reqid); [|done]. cbn. intros Hi. apply lookup_delete_None. by right. Qed.

(** A promise that is set stays as it is. *)
Definition promise_kept (i : Z) (s s' : CliRpc) : Prop :=
  forall p, promises_ s !! i = Some p -> p <> None -> promises_ s' !! i = Some p.

(** A call that is known and out of the table never comes back into it. *)
Definition taken (i : Z) (s : CliRpc) : Prop := is_Some (promises_ s !! i) /\ rpc_ s !! i = None.

Lemma rpc_step_keeps e s s' i :
  rpc_ok s -> enabled e s -> rpc_step e s = Ok s' -> promise_kept i s s' /\ (taken i s -> taken i s').
Proof.
  intros Hok He. destruct e as [|reqid c|buf|reqid|k]; cbn [rpc_step].
  - intros [= <-]. split; [intros p; done|done].
  - destruct (push_ok reqid c s He Hok) as [-> _]. intros [= <-]. destruct (ro_drawn _ Hok _ He) as [_ Hn]. split.
    + intros p Hp _. cbn. rewrite lookup_insert_ne; [done|]. intros <-. congruence.
    + intros [[p Hp] Ht]. assert (reqid <> i) by (intros <-; congruence). unfold taken. cbn. rewrite !lookup_insert_ne by done. by split.
  - intros [= <-]. unfold on_recv. destruct (_ <? _); [by split; [intros p|]|].
    unfold promise_kept, taken. rewrite start_promises. split; [done|]. intros [Hp Ht]. split; [done|by apply start_table].
  - intros [= <-]. unfold promise_kept, taken, on_send_error. rewrite start_promises. split; [done|].
    intros [Hp Ht]. split; [done|by apply start_table].
  - intros Hrun. pose proof (run_cases k s Hok) as Hc. destruct (running_ s !! k) as [r|] eqn:Hk.
    2: { rewrite Hrun in Hc. injection Hc as ->. by split; [intros p|]. }
    destruct (ro_running _ Hok r) as [Hp _]; [by eapply list_elem_of_lookup_2|].
    assert (exists o, s' = mkCliRpc (last_id_ s) (drawn_ s) (rpc_ s) (delete k (running_ s))
      (<[run_reqid r := Some o]> (promises_ s))) as [o ->].
    { destruct (operator_call _ _ _) as [v|e]; [|destruct (is_exception e)]; rewrite Hrun in Hc; simplify_eq; by eexists. }
    split.
    + intros p Hpi Hne. cbn. rewrite lookup_insert_ne; [done|]. intros <-. congruence.
    + intros [Hs Ht]. split; [|done]. cbn. destruct (decide (run_reqid r = i)) as [<-|Hne];
        [by rewrite lookup_insert_eq|by rewrite lookup_insert_ne].
Qed.

Lemma rpc_steps_keep s s' i :
  rpc_ok s -> rpc_steps s s' -> promise_kept i s s' /\ (taken i s -> taken i s').
Proof.
  intros Hok Hs. induction Hs as [s|s e s' s'' He Hs Hst IH]; [by split; [intros p|]|].
  destruct (rpc_step_keeps e s s' i Hok He Hs) as [Hk Ht]. destruct IH as [Hk' Ht']; [by apply (rpc_step_ok e s)|].
  split; [|by auto]. intros p Hp Hne. apply Hk'; [by apply Hk|done].
Qed.

(** ** Runs and their history *)
Inductive rpc_runs : list rpc_event -> CliRpc -> CliRpc -> Prop :=
| runs_nil s : rpc_runs [] s s
| runs_cons e es s s' s'' : enabled e s -> rpc_step e s = Ok s' -> rpc_runs es s' s'' -> rpc_runs (e :: es) s s''.

Lemma rpc_runs_steps es s s' : rpc_runs es s s' -> rpc_steps s s'.
Proof. induction 1; [constructor|by eapply rpc_then]. Qed.

(** The handlers that were pushed for the call [i]. *)
Definition pushed_handlers (i : Z) (es : list rpc_event) : list Call :=
  omap (fun e => match e with EvPush j c => if decide (j = i) then Some c else None | _ => None end) es.

(** What reached the call [i] after its handler [c] was pushed: a message with its id, or the
    news that the send failed or the waiter gave up. *)
Definition reached (i : Z) (c : Call) (arrived : option (list Z)) (es : list rpc_event) : Prop :=
  exists before between after,
    es = before ++ EvPush i c :: between ++
           match arrived with Some buf => EvMessage buf | None => EvSendError i end :: after /\
    forall buf, arrived = Some buf -> RPC_HEADER <= vsize buf /\ msg_reqid buf = i.

Record rpc_history (es : list rpc_event) (s : CliRpc) : Prop := {
  rh_table : forall i c, rpc_ s !! i = Some c -> pushed_handlers i es = [c];
  rh_running : forall r, r ∈ running_ s ->
    pushed_handlers (run_reqid r) es = [run_call r] /\ reached (run_reqid r) (run_call r) (run_arrived r) es;
  rh_unknown : forall i, promises_ s !! i = None -> pushed_handlers i es = [];
  rh_settled : forall i o, promises_ s !! i = Some (Some o) -> exists c arrived,
    pushed_handlers i es = [c] /\ reached i c arrived es /\ operator_call c i arrived = o;
}.

Lemma pushed_none i es e : (forall c, e <> EvPush i c) -> pushed_handlers i (es ++ [e]) = pushed_handlers i es.
Proof.
  intros Hne. unfold pushed_handlers. rewrite omap_app. destruct e as [|j c|buf|j|k]; cbn; rewrite ?app_nil_r; try done.
  destruct (decide (j = i)) as [->|]; [by destruct (Hne c)|apply app_nil_r].
Qed.

Lemma pushed_elem i c es : c ∈ pushed_handlers i es -> EvPush i c ∈ es.
Proof.
  intros (e & He & Heq)%list_elem_of_omap. destruct e as [|j c'|?|?|?]; try done.
  destruct (decide (j = i)) as [->|]; [|done]. by injection Heq as ->.
Qed.

Lemma reached_later i c arrived es e : reached i c arrived es -> reached i c arrived (es ++ [e]).
Proof.
  intros (b & m & a & -> & Ha). exists b, m, (a ++ [e]). split; [|done].
  by rewrite <- app_assoc, <- app_comm_cons, <- app_assoc.
Qed.

(** A step that pushes nothing and settles nothing keeps what the history says. *)
Lemma history_later es e s :
  (forall i c, e <> EvPush i c) -> rpc_history es s -> rpc_history (es ++ [e]) s.
Proof.
  intros Hne [Ht Hr Hu Hs]. split; setoid_rewrite pushed_none; try done.
  - intros r Hin. destruct (Hr r Hin). split; [done|by apply reached_later].
  - intros i o Hp. destruct (Hs i o Hp) as (c & a & ? & ? & ?). exists c, a. split_and!; try done. by apply reached_later.
Qed.

Lemma start_history es reqid arrived s :
  (forall buf, arrived = Some buf -> RPC_HEADER <= vsize buf /\ msg_reqid buf = reqid) -> rpc_history es s ->
  rpc_history (es ++ [match arrived with Some buf => EvMessage buf | None => EvSendError reqid end]) (start reqid arrived s).
Proof.
  intros Ha Hh. unfold start, pop. destruct (rpc_ s !! reqid) as [c|] eqn:Hc; [|by apply history_later; [destruct arrived|]].
  assert (Hnew : reached reqid c arrived (es ++ [match arrived with Some buf => EvMessage buf | None => EvSendError reqid end])).
  { assert (EvPush reqid c ∈ es) as (l & k & ->)%list_elem_of_split.
    { apply pushed_elem. rewrite (rh_table _ _ Hh _ _ Hc). by constructor. }
    exists l, k, []. split; [by rewrite <- app_assoc|done]. }
  apply (history_later _ (match arrived with Some buf => EvMessage buf | None => EvSendError reqid end)) in Hh as [Ht Hr Hu Hs];
    [|by destruct arrived].
  split; cbn; try done.
  - intros i c' [_ Hi]%lookup_delete_Some. by apply Ht.
  - intros r [Hin| ->%list_elem_of_singleton]%elem_of_app; [by apply Hr|]. cbn. split; [by apply Ht|done].
Qed.

Lemma push_history es reqid c s s' :
  rpc_ok s -> reqid ∈ drawn_ s -> push reqid c s = Ok s' -> rpc_history es s -> rpc_history (es ++ [EvPush reqid c]) s'.
Proof.
  intros Hok Hin Hp [Ht Hr Hu Hs]. destruct (push_ok reqid c s Hin Hok) as [Heq _]. rewrite Heq in Hp. injection Hp as <-.
  destruct (ro_drawn _ Hok _ Hin) as [_ Hn].
  assert (Hother : forall i, i <> reqid -> pushed_handlers i (es ++ [EvPush reqid c]) = pushed_handlers i es).
  { intros i Hi. apply pushed_none. congruence. }
  split; cbn.
  - intros i c' [[<- <-]|[Hne Hi]]%lookup_insert_Some; [|rewrite Hother by done; by apply Ht].
    unfold pushed_handlers. rewrite omap_app. fold (pushed_handlers reqid es). rewrite (Hu _ Hn). cbn. by rewrite decide_True.
  - intros r Hin'. destruct (Hr r Hin'). rewrite Hother; [by split; [|apply reached_later]|].
    intros Heq'. destruct (ro_running _ Hok r Hin'). congruence.
  - intros i [Hi Hne]%lookup_insert_None. rewrite Hother by done. by apply Hu.
  - intros i o [[<- ?]|[Hne Hi]]%lookup_insert_Some; [done|]. destruct (Hs i o Hi) as (c' & a & ? & ? & ?).
    exists c', a. rewrite Hother by done. split_and!; try done. by apply reached_later.
Qed.

Lemma settle_history es k s r o :
  running_ s !! k = Some r -> operator_call (run_call r) (run_reqid r) (run_arrived r) = o -> rpc_history es s ->
  rpc_history (es ++ [EvRun k])
    (mkCliRpc (last_id_ s) (drawn_ s) (rpc_ s) (delete k (running_ s)) (<[run_reqid r := Some o]> (promises_ s))).
Proof.
  intros Hk Ho Hh. apply (history_later _ (EvRun k)) in Hh as [Ht Hr Hu Hs]; [|done].
  split; cbn; try done.
  - intros r' Hin. apply Hr. by eapply list_elem_of_delete_inv.
  - intros i [Hi _]%lookup_insert_None. by apply Hu.
  - intros i o' [[<- [= <-]]|[_ Hi]]%lookup_insert_Some; [|by apply Hs].
    destruct (Hr r) as [? ?]; [by eapply list_elem_of_lookup_2|]. by exists (run_call r), (run_arrived r).
Qed.

Lemma rpc_step_history es e s s' :
  enabled e s -> rpc_ok s -> rpc_step e s = Ok s' -> rpc_history es s -> rpc_history (es ++ [e]) s'.
Proof.
  intros He Hok. destruct e as [|reqid c|buf|reqid|k]; cbn [rpc_step].
  - intros [= <-] Hh. by apply (history_later _ EvNewId) in Hh as [].
  - by apply push_history.
  - intros [= <-]. unfold on_recv. destruct (_ <? _) eqn:Hl; [by apply history_later|]. apply Z.ltb_ge in Hl.
    apply (start_history es (msg_reqid buf) (Some buf)). by intros ? [= <-].
  - intros [= <-]. by apply (start_history es reqid None).
  - intros Hrun Hh. pose proof (run_cases k s Hok) as Hc. destruct (running_ s !! k) as [r|] eqn:Hk.
    2: { rewrite Hrun in Hc. injection Hc as ->. by apply history_later. }
    destruct (operator_call _ _ _) as [v|e] eqn:Ho; [|destruct (is_exception e)]; rewrite Hrun in Hc; simplify_eq;
      by apply settle_history.
Qed.

Lemma rpc_runs_history es s : rpc_runs es new_client s -> rpc_history es s.
Proof.
  assert (forall s0 s', rpc_runs es s0 s' -> forall pre, rpc_ok s0 -> rpc_history pre s0 -> rpc_history (pre ++ es) s') as Hg.
  { induction 1 as [s0|e es' s0 s1 s2 He Hst _ IH]; intros pre Hok Hh; [by rewrite app_nil_r|].
    rewrite cons_middle, app_assoc. apply IH; [by apply (rpc_step_ok e s0)|by eapply rpc_step_history]. }
  intros Hs. apply (Hg _ _ Hs []); [apply new_client_ok|]. split; cbn; try done. set_solver.
Qed.

(** C7: The RPC table of a client, in every interleaving of pushes, replies, send errors,
    time-outs and running callbacks: every call is held in exactly one place (table, running
    callback or settled promise); a settled promise holds exactly what the one handler that
    was pushed for this call computes from what reached it after the push, a message that
    carries its request id or the news that sending failed or timed out; no promise is set
    twice, a fresh id can always be pushed, and a settled promise never changes. *)
Theorem every_call_settles_once es s :
  rpc_runs es new_client s ->
  (forall i, is_Some (promises_ s !! i) -> holders s i = 1%nat) /\
  (forall i o, promises_ s !! i = Some (Some o) -> exists c arrived,
     pushed_handlers i es = [c] /\ reached i c arrived es /\ operator_call c i arrived = o) /\
  (forall e, enabled e s -> rpc_step e s <> Err RuntimeError) /\
  (forall reqid c, reqid ∈ drawn_ s -> exists s', push reqid c s = Ok s' /\ rpc_ s' !! reqid = Some c) /\
  (forall s' i o, rpc_steps s s' -> promises_ s !! i = Some (Some o) -> promises_ s' !! i = Some (Some o)).
Proof.
  intros Hs. pose proof (rpc_steps_ok _ _ (rpc_runs_steps _ _ _ Hs) new_client_ok) as Hok. split_and!.
  - intros i. by apply one_holder.
  - apply (rh_settled _ _ (rpc_runs_history _ _ Hs)).
  - intros [|reqid c|buf|reqid|k] He; cbn [rpc_step]; try done.
    + by rewrite (proj1 (push_ok reqid c s He Hok)).
    + pose proof (run_cases k s Hok) as Hc. destruct (running_ s !! k); [|by rewrite Hc].
      destruct (operator_call _ _ _) as [v|e]; [by rewrite Hc|].
      destruct (is_exception e) eqn:Ee; [by rewrite Hc|]. rewrite Hc. intros [= ->]. done.
  - intros reqid c Hin. destruct (push_ok reqid c s Hin Hok) as [-> _]. eexists. split; [done|]. cbn. apply lookup_insert_eq.
  - intros s' i o Hst Hp. by apply (rpc_steps_keep s s' i Hok Hst).
Qed.

(** C37: When a caller gives up on a call and reports it with on_send_error, then in every
    later state the call is gone from the table and its promise is settled, or the callback
    that took it is still running and settles it when it returns: the future the caller
    waits on next is always answered. *)
Theorem timed_out_call_is_answered s i s' :
  rpc_steps new_client s -> is_Some (promises_ s !! i) -> rpc_steps (on_send_error i s) s' ->
  rpc_ s' !! i = None /\
  ((exists o, promises_ s' !! i = Some (Some o)) \/
   exists k r, running_ s' !! k = Some r /\ run_reqid r = i /\
     forall s'', run k s' = Ok s'' -> exists o, promises_ s'' !! i = Some (Some o)).
Proof.
  intros Hs Hi Hs'. pose proof (rpc_steps_ok _ _ Hs new_client_ok) as Hok.
  assert (rpc_ok (on_send_error i s)) as Hok1 by (by apply start_ok).
  assert (taken i (on_send_error i s)) as Ht.
  { unfold taken, on_send_error. rewrite start_promises. split; [done|]. unfold start, pop.
    destruct (rpc_ s !! i) eqn:E; [cbn; apply lookup_delete_eq|done]. }
  destruct (rpc_steps_keep _ _ i Hok1 Hs') as [_ [[p Hp] Hn]]; [by auto|].
  split; [done|]. destruct p as [o|]; [left; by exists o|right].
  pose proof (rpc_steps_ok _ _ Hs' Hok1) as Hok'. destruct (ro_pending _ Hok' i Hp) as [[c Hc]|Hin]; [congruence|].
  apply list_elem_of_fmap in Hin as (r & -> & [k Hk]%list_elem_of_lookup). exists k, r. split_and!; [done|done|].
  intros s'' Hrun. pose proof (run_cases k s' Hok') as Hc. rewrite Hk in Hc.
  destruct (operator_call _ _ _) as [v|e]; [|destruct (is_exception e)]; rewrite Hrun in Hc; simplify_eq; cbn;
    rewrite lookup_insert_eq; by eexists.
Qed.
End Client.

(** ** Example *)

(** A call whose reply arrives, and whose waiter gives up before the handler has run. *)
Definition late_events : list rpc_event :=
  [EvNewId; EvPush FIRST_ID RemoteCrc; EvNewId;
   EvMessage (rpc_header REMOTE_CRC_REQ_MAGIC FIRST_ID ++ le_bytes 4 77)].

Definition late_state : CliRpc :=
  mkCliRpc (FIRST_ID + 2) {[FIRST_ID + 1]} ∅
    [mkRunning FIRST_ID RemoteCrc (Some (rpc_header REMOTE_CRC_REQ_MAGIC FIRST_ID ++ le_bytes 4 77))]
    {[FIRST_ID := None]}.

Lemma late_runs : @rpc_runs debug_env late_events new_client late_state.
Proof.
  unfold late_events.
  eapply runs_cons; [done|reflexivity|]. eapply runs_cons; [cbn; set_solver|vm_compute; reflexivity|].
  eapply runs_cons; [done|vm_compute; reflexivity|]. eapply runs_cons; [done|vm_compute; reflexivity|].
  assert (forall a b, a = b -> @rpc_runs debug_env [] a b) as Hr by (intros a ? <-; constructor).
  apply Hr. vm_compute. reflexivity.
Qed.

(** The handler has run: the promise holds the checksum. *)
Definition done_state : CliRpc :=
  mkCliRpc (FIRST_ID + 2) {[FIRST_ID + 1]} ∅ [] {[FIRST_ID := Some (Ok (VCrc 77))]}.

Lemma done_runs : @rpc_runs debug_env (late_events ++ [EvRun 0]) new_client done_state.
Proof.
  unfold late_events. cbn [app].
  eapply runs_cons; [done|reflexivity|]. eapply runs_cons; [cbn; set_solver|vm_compute; reflexivity|].
  do 3 (eapply runs_cons; [done|vm_compute; reflexivity|]).
  assert (forall a b, a = b -> @rpc_runs debug_env [] a b) as Hr by (intros a ? <-; constructor).
  apply Hr. vm_compute. reflexivity.
Qed.

Lemma every_call_settles_once_witness :
  holders late_state FIRST_ID = 1%nat /\
  (exists s', @push debug_env (FIRST_ID + 1) GetMemHandles late_state = Ok s' /\ rpc_ s' !! (FIRST_ID + 1) = Some GetMemHandles) /\
  exists c arrived, pushed_handlers FIRST_ID (late_events ++ [EvRun 0]) = [c] /\
    reached FIRST_ID c arrived (late_events ++ [EvRun 0]) /\ operator_call c FIRST_ID arrived = Ok (VCrc 77).
Proof.
  destruct (@every_call_settles_once debug_env late_events late_state late_runs) as (Hh & _ & _ & Hp & _).
  destruct (@every_call_settles_once debug_env _ done_state done_runs) as (_ & Hv & _). split_and!.
  - apply Hh. by eexists.
  - apply Hp. apply (bool_decide_unpack _). vm_compute. exact I.
  - by apply Hv.
Defined.

Lemma timed_out_call_is_answered_witness :
  rpc_ late_state !! FIRST_ID = None /\
  exists s'', run 0 (on_send_error FIRST_ID late_state) = Ok s'' /\
    promises_ s'' !! FIRST_ID = Some (Some (Ok (VCrc 77))).
Proof.
  split.
  - apply (@timed_out_call_is_answered debug_env late_state FIRST_ID late_state);
      [apply (rpc_runs_steps _ _ _ late_runs)|by eexists|apply rpc_refl].
  - eexists. split; vm_compute; reflexivity.
Defined.
