(* ===== verification/Calls.v ===== *)
(** A blocking call of the RDMA client ([get_mem_handles] and [get_remote_crc] in
    [src/rdma_channel.cpp]): take an id, allocate the request, push the handler, send, wait for
    a bounded time, give the call up if it was too long, and take what the promise holds.

    The caller is one thread beside everything else that happens to the table of calls
    ([RpcTable]): messages, failing sends, other callers and running handlers. *)

From stdpp Require Import gmap.
From S2P Require Import Prelude.
From S2P Require Import Common.
From S2P Require Import StagedServer.
From S2P Require Import RpcTable.

(** Where the caller is. *)
Inductive Caller :=
| AtStart
| HasId (reqid : Z)
| HasPushed (reqid : Z)
| Waiting (reqid : Z)                      (* fut.wait_for *)
| TimedOut (reqid : Z)                     (* not ready in time *)
| Getting (reqid : Z)                      (* fut.get after the call was given up *)
| Returned (reqid : Z) (o : res reply_value)
| NoBuffer.                                (* AllocCPUBuffer threw *)

Section Call.
Context `{Env} (c : Call).

(** A step of the caller.  [ok]: the allocation or the send succeeds; [late]: [wait_for] gives
    up.  [None] when the thread blocks or has returned. *)
Definition caller_step (ok late : bool) (pc : Caller) (t : CliRpc) : option (res (Caller * CliRpc)) :=
  match pc with
  | AtStart => let '(reqid, t) := new_id t in Some (Ok (if ok then HasId reqid else NoBuffer, t))
  | HasId reqid => Some (let* t := push reqid c t in Ok (HasPushed reqid, t))
  | HasPushed reqid => Some (Ok (Waiting reqid, if ok then t else on_send_error reqid t))
  | Waiting reqid =>
      match promises_ t !! reqid with
      | Some (Some o) => Some (Ok (Returned reqid o, t))
      | _ => if late then Some (Ok (TimedOut reqid, t)) else None
      end
  | TimedOut reqid => Some (Ok (Getting reqid, on_send_error reqid t))
  | Getting reqid =>
      match promises_ t !! reqid with Some (Some o) => Some (Ok (Returned reqid o, t)) | _ => None end
  | Returned _ _ | NoBuffer => None
  end.

(** Nobody else pushes the caller's id. *)
Definition by_others (e : rpc_event) (pc : Caller) : Prop :=
  match e, pc with EvPush reqid _, HasId reqid' => reqid <> reqid' | _, _ => True end.

Inductive call_reach : Caller -> CliRpc -> Prop :=
| call_start t : rpc_steps new_client t -> call_reach AtStart t
| call_own ok late pc t pc' t' :
    call_reach pc t -> last_id_ t + 1 < W64 -> caller_step ok late pc t = Some (Ok (pc', t')) -> call_reach pc' t'
| call_other e pc t t' :
    call_reach pc t -> enabled e t -> by_others e pc -> rpc_step e t = Ok t' -> call_reach pc t'.

(** ** Whose handler answers *)

(** Whoever holds the call [i] holds the handler [c]; a value came from it. *)
Record answered_by (i : Z) (t : CliRpc) : Prop := {
  ab_known : is_Some (promises_ t !! i);
  ab_table : forall c', rpc_ t !! i = Some c' -> c' = c;
  ab_running : forall r, r ∈ running_ t -> run_reqid r = i -> run_call r = c;
  ab_value : forall v, promises_ t !! i = Some (Some (Ok v)) -> exists buf, msg_reqid buf = i /\ operator_call c i (Some buf) = Ok v;
}.

Lemma start_answered i reqid a t : answered_by i t -> answered_by i (start reqid a t).
Proof.
  intros [Hk Ht Hr Hv]. unfold start, pop. destruct (rpc_ t !! reqid) as [c'|] eqn:E; [|by split]. split; cbn; try done.
  - intros c''. destruct (decide (reqid = i)) as [->|]; [by rewrite lookup_delete_eq|rewrite lookup_delete_ne by done; apply Ht].
  - intros r [Hin| ->%list_elem_of_singleton]%elem_of_app; [by apply Hr|]. cbn. intros ->. by apply Ht.
Qed.

Lemma step_answered e i t t' :
  rpc_ok t -> enabled e t -> answered_by i t -> rpc_step e t = Ok t' -> answered_by i t'.
Proof.
  intros Hok He Ha. destruct e as [|reqid c'|buf|reqid|k]; cbn [rpc_step].
  - intros [= <-]. destruct Ha. by split.
  - destruct (push_ok reqid c' t He Hok) as [-> _]. intros [= <-]. destruct Ha as [Hk Ht Hr Hv].
    destruct (ro_drawn _ Hok _ He) as [_ Hn]. assert (reqid <> i) by (intros ->; destruct Hk; congruence).
    split; cbn; rewrite ?lookup_insert_ne by done; done.
  - intros [= <-]. unfold on_recv. destruct (_ <? _); [done|by apply start_answered].
  - intros [= <-]. by apply start_answered.
  - intros Hrun. pose proof (run_cases k t Hok) as Hc. destruct (running_ t !! k) as [r|] eqn:Hk; [|congruence].
    assert (exists o, t' = mkCliRpc (last_id_ t) (drawn_ t) (rpc_ t) (delete k (running_ t)) (<[run_reqid r := Some o]> (promises_ t)) /\
      forall v, o = Ok v -> operator_call (run_call r) (run_reqid r) (run_arrived r) = Ok v) as (o & -> & Hval).
    { destruct (operator_call _ _ _) as [v|e]; [|destruct (is_exception e)]; rewrite Hrun in Hc; simplify_eq; eexists; split; try done; by intros ? [= <-]. }
    assert (Hin : r ∈ running_ t) by (by eapply list_elem_of_lookup_2). destruct (ro_running _ Hok r Hin) as [_ Hmsg].
    destruct Ha as [Hkn Ht Hr Hv]. split; cbn; try done.
    + destruct (decide (run_reqid r = i)) as [<-|]; [by rewrite lookup_insert_eq|by rewrite lookup_insert_ne].
    + intros r' Hr'. apply Hr. by eapply list_elem_of_delete_inv.
    + intros v. destruct (decide (run_reqid r = i)) as [<-|]; [|rewrite lookup_insert_ne by done; apply Hv].
      rewrite lookup_insert_eq. intros [= ->]. specialize (Hval v eq_refl). rewrite (Hr r Hin eq_refl) in Hval.
      destruct (run_arrived r) as [buf|] eqn:Ea; [|done]. exists buf. by split; [apply Hmsg|].
Qed.

(** ** The caller *)
Definition caller_ok (pc : Caller) (t : CliRpc) : Prop :=
  match pc with
  | AtStart | NoBuffer => True
  | HasId i => i ∈ drawn_ t
  | HasPushed i | Waiting i | TimedOut i => answered_by i t
  | Getting i => answered_by i t /\ taken i t
  | Returned i o => answered_by i t /\ promises_ t !! i = Some (Some o)
  end.

Lemma pushed_answered i t t' : rpc_ok t -> i ∈ drawn_ t -> push i c t = Ok t' -> answered_by i t'.
Proof.
  intros Hok Hi. destruct (push_ok i c t Hi Hok) as [-> _]. intros [= <-]. destruct (ro_drawn _ Hok i Hi) as [_ Hn].
  split; cbn; rewrite ?lookup_insert_eq; try done.
  - by intros c' [= <-].
  - intros r Hr Hri. destruct (ro_running _ Hok r Hr). congruence.
Qed.

Lemma given_up_taken i t : answered_by i t -> taken i (on_send_error i t).
Proof.
  intros [Hk _ _ _]. unfold taken, on_send_error. rewrite start_promises. split; [done|]. unfold start, pop.
  destruct (rpc_ t !! i) eqn:E; [cbn; apply lookup_delete_eq|done].
Qed.

Lemma caller_step_ok ok late pc t pc' t' :
  rpc_ok t -> caller_ok pc t -> last_id_ t + 1 < W64 -> caller_step ok late pc t = Some (Ok (pc', t')) ->
  rpc_ok t' /\ caller_ok pc' t'.
Proof.
  intros Hok Hpc Hid. destruct pc as [|i|i|i|i|i|i o|]; cbn [caller_step caller_ok] in *.
  - intros [= <- <-]. split; [by apply new_id_ok|]. destruct ok; cbn; set_solver.
  - destruct (push i c t) as [t1|] eqn:Hp; cbn [rbind]; [|done]. intros [= <- <-]. split; [by eapply push_ok|by eapply pushed_answered].
  - intros [= <- <-]. destruct ok; [done|]. split; [by apply start_ok|by apply start_answered].
  - destruct (promises_ t !! i) as [[o|]|] eqn:E; [intros [= <- <-]; by split|..]; (destruct late; [intros [= <- <-]; by split|done]).
  - intros [= <- <-]. split; [by apply start_ok|]. split; [by apply start_answered|by apply given_up_taken].
  - destruct (promises_ t !! i) as [[o|]|] eqn:E; [|done..]. intros [= <- <-]. by split; [|split; [apply Hpc|]].
  - done.
  - done.
Qed.

Lemma other_step_ok e pc t t' :
  rpc_ok t -> caller_ok pc t -> enabled e t -> by_others e pc -> rpc_step e t = Ok t' -> rpc_ok t' /\ caller_ok pc t'.
Proof.
  intros Hok Hpc He Hb Hs. split; [by apply (rpc_step_ok e t)|].
  pose proof (fun i => rpc_step_keeps e t t' i Hok He Hs) as Hkeep.
  destruct pc as [|i|i|i|i|i|i o|]; cbn [caller_ok] in *; try done.
  - destruct e as [|reqid c'|buf|reqid|k]; cbn [rpc_step] in Hs.
    + injection Hs as <-. cbn. set_solver.
    + destruct (push_ok reqid c' t He Hok) as [Hp _]. rewrite Hp in Hs. injection Hs as <-. cbn in *. set_solver.
    + injection Hs as <-. unfold on_recv. destruct (_ <? _); [done|]. unfold start, pop. by destruct (rpc_ t !! _).
    + injection Hs as <-. unfold on_send_error, start, pop. by destruct (rpc_ t !! _).
    + pose proof (run_cases k t Hok) as Hc. destruct (running_ t !! k) as [r|]; [|congruence].
      destruct (operator_call _ _ _) as [v|e]; [|destruct (is_exception e)]; rewrite Hs in Hc; by simplify_eq.
  - by eapply step_answered.
  - by eapply step_answered.
  - by eapply step_answered.
  - destruct Hpc as [Ha Ht]. split; [by eapply step_answered|]. by apply (Hkeep i).
  - destruct Hpc as [Ha Ht]. split; [by eapply step_answered|]. by apply (Hkeep i).
Qed.

Lemma call_reach_ok pc t : call_reach pc t -> rpc_ok t /\ caller_ok pc t.
Proof.
  induction 1 as [t Ht|ok late pc t pc' t' _ [Hok Hpc] Hid Hs|e pc t t' _ [Hok Hpc] He Hb Hs].
  - split; [|done]. by eapply rpc_steps_ok; [|apply new_client_ok].
  - by eapply caller_step_ok.
  - by eapply other_step_ok.
Qed.

(** A blocking call, whatever else happens to the table: a value it returns was computed by its
    own handler from a message that carries its id; the caller never fails on the table, and it
    never waits in vain: at every point but the last it can go on (after the time-out at the
    latest), or the handler that will settle its promise is running. *)
Theorem blocking_call_is_answered pc t :
  call_reach pc t ->
  (forall i v, pc = Returned i (Ok v) -> exists buf, msg_reqid buf = i /\ operator_call c i (Some buf) = Ok v) /\
  match pc with
  | Returned _ _ | NoBuffer => True
  | _ =>
      (exists pc' t', caller_step true true pc t = Some (Ok (pc', t'))) \/
      exists i k r, pc = Getting i /\ running_ t !! k = Some r /\ run_reqid r = i /\
        forall t', run k t = Ok t' -> exists o, promises_ t' !! i = Some (Some o)
  end.
Proof.
  intros [Hok Hpc]%call_reach_ok. split.
  - intros i v ->. destruct Hpc as [Ha Hp]. by eapply ab_value.
  - destruct pc as [|i|i|i|i|i|i o|]; cbn [caller_step caller_ok] in *; try done; try (left; by do 2 eexists).
    + left. destruct (push_ok i c t Hpc Hok) as [-> _]. by do 2 eexists.
    + left. destruct (promises_ t !! i) as [[o|]|]; by do 2 eexists.
    + destruct Hpc as [_ [[p Hp] Ht]]. rewrite Hp. destruct p as [o|]; [left; by do 2 eexists|right].
      destruct (ro_pending _ Hok i Hp) as [[? Hx]|(r & Hi & Hr)%list_elem_of_fmap]; [congruence|].
      apply list_elem_of_lookup in Hr as [k Hk]. exists i, k, r. split_and!; [done|done|done|]. intros t' Hrun.
      pose proof (run_cases k t Hok) as Hc. rewrite Hk, <- Hi in Hc.
      destruct (operator_call _ _ _) as [v|e]; [|destruct (is_exception e)]; rewrite Hrun in Hc; simplify_eq; cbn; eexists; apply lookup_insert_eq.
Qed.
End Call.

(** ** Example *)
Definition call_env : Env := {|
  ndebug := false; env_bf162fp8_conversion := false; env_pad_last_attn_block := false; env_cache_shape := 0 |}.

(** A request is sent, no reply comes, and the caller gives up: the promise holds the error. *)
Lemma blocking_call_is_answered_witness :
  exists t, @call_reach call_env RemoteCrc (Returned FIRST_ID (Err RuntimeError)) t /\ rpc_ t = ∅ /\
    forall v, Returned FIRST_ID (Err RuntimeError) = Returned FIRST_ID (Ok v) ->
      exists buf, msg_reqid buf = FIRST_ID /\ operator_call RemoteCrc FIRST_ID (Some buf) = Ok v.
Proof.
  assert (exists t, @call_reach call_env RemoteCrc (Returned FIRST_ID (Err RuntimeError)) t /\ rpc_ t = ∅) as (t & Ht & He).
  { pose proof (@call_start call_env RemoteCrc new_client ltac:(constructor)) as H0.
    pose proof (call_own _ true true _ _ _ _ H0 ltac:(done) eq_refl) as H1.
    pose proof (call_own _ true true _ _ _ _ H1 ltac:(done) eq_refl) as H2.
    pose proof (call_own _ true true _ _ _ _ H2 ltac:(done) eq_refl) as H3.
    pose proof (call_own _ true true _ _ _ _ H3 ltac:(done) eq_refl) as H4.
    pose proof (call_own _ true true _ _ _ _ H4 ltac:(done) eq_refl) as H5.
    pose proof (call_other _ (EvRun 0) _ _ _ H5 ltac:(done) ltac:(done) eq_refl) as H6.
    pose proof (call_own _ true true _ _ _ _ H6 ltac:(done) eq_refl) as H7.
    eexists. split; [exact H7|]. reflexivity. }
  exists t. split_and!; [done|done|]. intros v. by apply (@blocking_call_is_answered call_env RemoteCrc _ t Ht).
Defined.
