(* ===== verification/Async.v ===== *)
(** Requests to the transport and their futures: [Send], [Connect], [CloseChannel], the writes and
    the closing of channels in [src/barex_protocol.cpp] and [src/rdma_channel.cpp].

    The transport is third-party.  It answers a request at once ([Answer]: it takes the request,
    refuses it, or throws), and it runs the callback of every request it took once, later, on a
    thread of its own and with any status: the callbacks it still has to run are [owed].  A
    promise that is set twice throws, a pool buffer that is released twice is undefined. *)

From stdpp Require Import gmap.
From S2P Require Import Prelude.
From S2P Require Import StateM.
From S2P Require Import Common.

Inductive Status := StOk | StErr.
Inductive Answer := Accepted | Rejected | Thrown.

#[export] Instance Status_eq_dec : EqDecision Status.
Proof. solve_decision. Defined.

Definition IsOk (s : Status) : bool := match s with StOk => true | StErr => false end.

(** ** Callbacks

    What is called when a send is over: the promise of a future, the table of outstanding calls
    when the send failed, or a log line. *)
Inductive Done := DPromise (p : Z) | DRpc (reqid : Z) | DLog.

#[export] Instance Done_eq_dec : EqDecision Done.
Proof. solve_decision. Defined.

(** The callbacks given to the transport, with what they capture. *)
Inductive Cb :=
| CbSend (buf : Z) (cb : Done)                  (* [wrapped_cb] *)
| CbWrite (p : Z) (datas : list Z)              (* the data stays alive until the callback *)
| CbClose (p : Z)
| CbConnect (p conn : Z).

(** ** State *)
Inductive pval := VUnit | VStatus (s : Status) | VChannel (conn ch : Z).
Inductive prom := Unset | Value (v : pval) | Exception.

Inductive Ev :=
| EvSent (buf : Z) (cb : Done)
| EvReleased (buf : Z)
| EvDone (buf : Z) (cb : Done) (s : Status)
| EvSendError (reqid : Z).

(** [held]: buffers of the pool that were allocated and not released; [owed]: callbacks of the
    requests that were taken; [proms]: promises by number; [trace]: what happened to the sends. *)
Record Bx := mkBx {
  held : gset Z;
  owed : list Cb;
  proms : gmap Z prom;
  next_prom : Z;
  trace : list Ev;
}.

Definition set_held (x : gset Z) (s : Bx) : Bx := mkBx x (owed s) (proms s) (next_prom s) (trace s).
Definition set_owed (x : list Cb) (s : Bx) : Bx := mkBx (held s) x (proms s) (next_prom s) (trace s).
Definition set_proms (x : gmap Z prom) (s : Bx) : Bx := mkBx (held s) (owed s) x (next_prom s) (trace s).
Definition note (e : Ev) (s : Bx) : Bx := mkBx (held s) (owed s) (proms s) (next_prom s) (trace s ++ [e]).

Abbreviation B := (ST Bx).

(** ** Promises *)
Definition new_promise : B Z := fun s =>
  (Ok (next_prom s), mkBx (held s) (owed s) (<[next_prom s := Unset]> (proms s)) (next_prom s + 1) (trace s)).

Definition settle_promise (p : Z) (r : prom) : B unit := fun s =>
  match proms s !! p with
  | Some Unset => (Ok tt, set_proms (<[p := r]> (proms s)) s)
  | _ => (Err RuntimeError, s)
  end.
Definition set_value (p : Z) (v : pval) : B unit := settle_promise p (Value v).
Definition set_exception (p : Z) : B unit := settle_promise p Exception.

(** A promise that goes out of scope together with its future. *)
Definition drop_promise (p : Z) : B unit := modify (fun s => set_proms (delete p (proms s)) s).

(** [make_exp_future]. *)
Definition make_exp_future : B Z :=
  let! p := new_promise in
  let! _ := set_exception p in
  sret p.

Definition owe (c : Cb) : B unit := modify (fun s => set_owed (owed s ++ [c]) s).

(** ** Sending *)
Definition ReleaseBuffer (buf : Z) : B unit := fun s =>
  if bool_decide (buf ∈ held s) then (Ok tt, note (EvReleased buf) (set_held (held s ∖ {[buf]}) s))
  else (Err Undefined, s).

(** The callbacks [cb] of the library: the one of [Send] with a future, the one of a call
    ([on_send_error] when the send failed), and the ones of a server's replies. *)
Definition run_done (buf : Z) (cb : Done) (s : Status) : B unit :=
  let! _ := modify (note (EvDone buf cb s)) in
  match cb with
  | DPromise p => if IsOk s then set_value p VUnit else set_exception p
  | DRpc reqid => if IsOk s then sret tt else modify (note (EvSendError reqid))
  | DLog => sret tt
  end.

Definition wrapped_cb (buf : Z) (cb : Done) (s : Status) : B unit :=
  let! _ := ReleaseBuffer buf in
  run_done buf cb s.

Section Operations.
Context `{Env}.

(** [fault]: [fault_inject_throw] throws, which it does in debug builds only. *)
Definition fault_inject_throw (fault : bool) : B unit :=
  if negb ndebug && fault then lift (Err RuntimeError) else sret tt.

Definition Send (a : Answer) (fault : bool) (buf : Z) (cb : Done) : B unit :=
  let! _ := modify (note (EvSent buf cb)) in
  scatch
    (match a with
     | Accepted => let! _ := owe (CbSend buf cb) in fault_inject_throw fault
     | Rejected | Thrown => lift (Err RuntimeError)
     end)
    (wrapped_cb buf cb StErr).

Definition Send_future (a : Answer) (fault : bool) (buf : Z) : B Z :=
  let! p := new_promise in
  let! _ := Send a fault buf (DPromise p) in
  sret p.
End Operations.

(** [AllocBuffer] of the channel's pool. *)
Definition AllocBuffer (answer : option Z) : B Z :=
  match answer with
  | Some buf => let! _ := modify (fun s => set_held ({[buf]} ∪ held s) s) in sret buf
  | None => lift (Err RuntimeError)
  end.
Definition AllocCPUBuffer (answer : option Z) : B Z := AllocBuffer answer.
Definition AllocCudaHostBuffer (answer : option Z) : B Z := AllocBuffer answer.

(** ** Writes, connections and closing *)
(** The shape the requests with a future share: [c] is the callback around the promise. *)
Definition submit_request (a : Answer) (c : Z -> Cb) : B Z :=
  let! p := new_promise in
  match a with
  | Accepted => let! _ := owe (c p) in sret p
  | Rejected => let! _ := drop_promise p in make_exp_future
  | Thrown => let! _ := drop_promise p in lift (Err RuntimeError)
  end.

Definition WriteSingle (a : Answer) (sdata : Z) : B Z := submit_request a (fun p => CbWrite p [sdata]).
Definition WriteBatch (a : Answer) (datasp : list Z) : B Z := submit_request a (fun p => CbWrite p datasp).
Definition WriteBySgList (a : Answer) (prefills : list Z) : B Z := submit_request a (fun p => CbWrite p prefills).
Definition Connect (a : Answer) (conn : Z) : B Z := submit_request a (fun p => CbConnect p conn).

Definition CloseChannel (a : Answer) : B Z :=
  let! p := new_promise in
  match a with
  | Accepted => let! _ := owe (CbClose p) in sret p
  | Rejected => let! _ := set_value p (VStatus StErr) in sret p
  | Thrown => let! _ := drop_promise p in lift (Err RuntimeError)
  end.

(** ** The transport runs a callback

    [ch]: the channel of a connection that was made, and whether the context shares it. *)
Definition run_cb (c : Cb) (s : Status) (ch : Z) (shared : bool) : B unit :=
  match c with
  | CbSend buf cb => wrapped_cb buf cb s
  | CbWrite p _ => if IsOk s then set_value p VUnit else set_exception p
  | CbClose p => set_value p (VStatus s)
  | CbConnect p conn =>
      if negb (IsOk s) then set_exception p
      else if negb shared then set_exception p
      else set_value p (VChannel conn ch)
  end.

Definition run_owed (k : nat) (s : Status) (ch : Z) (shared : bool) : B unit :=
  let! cbs := gets owed in
  match cbs !! k with
  | None => sret tt
  | Some c => let! _ := modify (set_owed (delete k cbs)) in run_cb c s ch shared
  end.

(** ** Threads *)
Inductive bx_event :=
| EAlloc (answer : option Z)
| ESend (a : Answer) (buf : Z) (cb : Done)
| ESendFuture (a : Answer) (buf : Z)
| EWriteSingle (a : Answer) (sdata : Z)
| EWriteBatch (a : Answer) (datasp : list Z)
| EWriteBySgList (a : Answer) (prefills : list Z)
| EConnect (a : Answer) (conn : Z)
| EClose (a : Answer)
| EDeliver (k : nat) (s : Status) (ch : Z) (shared : bool).

Definition bx_step `{Env} (e : bx_event) : B unit :=
  match e with
  | EAlloc answer => let! _ := AllocBuffer answer in sret tt
  | ESend a buf cb => Send a false buf cb
  | ESendFuture a buf => let! _ := Send_future a false buf in sret tt
  | EWriteSingle a sdata => let! _ := WriteSingle a sdata in sret tt
  | EWriteBatch a datasp => let! _ := WriteBatch a datasp in sret tt
  | EWriteBySgList a prefills => let! _ := WriteBySgList a prefills in sret tt
  | EConnect a conn => let! _ := Connect a conn in sret tt
  | EClose a => let! _ := CloseChannel a in sret tt
  | EDeliver k s ch shared => run_owed k s ch shared
  end.

(** The buffer of a callback, and its promise. *)
Definition cb_buf (c : Cb) : option Z := match c with CbSend buf _ => Some buf | _ => None end.
Definition done_prom (d : Done) : option Z := match d with DPromise p => Some p | _ => None end.
Definition cb_prom (c : Cb) : option Z :=
  match c with
  | CbSend _ cb => done_prom cb
  | CbWrite p _ | CbClose p | CbConnect p _ => Some p
  end.

(** What the threads may do: allocation gives buffers that are free, a buffer is sent by the one
    who holds it and not while it is being sent, and promises are made by [Send_future]. *)
Definition bx_enabled (e : bx_event) (s : Bx) : Prop :=
  match e with
  | EAlloc (Some buf) => buf ∉ held s
  | ESend _ buf cb => buf ∈ held s /\ (buf ∉ omap cb_buf (owed s)) /\ done_prom cb = None
  | ESendFuture _ buf => buf ∈ held s /\ buf ∉ omap cb_buf (owed s)
  | _ => True
  end.

Inductive bx_reach `{Env} : Bx -> Bx -> Prop :=
| bx_refl s : bx_reach s s
| bx_then s e s' s'' : bx_enabled e s -> (bx_step e s).2 = s' -> bx_reach s' s'' -> bx_reach s s''.

Definition bx_start : Bx := mkBx ∅ [] ∅ 0 [].

(** ** Reading the trace *)
Definition sent_of (e : Ev) : option (Z * Done) := match e with EvSent b d => Some (b, d) | _ => None end.
Definition done_of (e : Ev) : option (Z * Done) := match e with EvDone b d _ => Some (b, d) | _ => None end.
Definition owed_of (c : Cb) : option (Z * Done) := match c with CbSend b d => Some (b, d) | _ => None end.

(** Every completion comes right after the release of its buffer. *)
Fixpoint released_first (prev : option Z) (t : list Ev) : bool :=
  match t with
  | [] => true
  | EvReleased b :: t => released_first (Some b) t
  | EvDone b _ _ :: t => bool_decide (prev = Some b) && released_first None t
  | _ :: t => released_first None t
  end.

(** The calls whose sends failed, and the errors reported to the table of calls. *)
Definition failed_call (e : Ev) : option Z :=
  match e with EvDone _ (DRpc r) StErr => Some r | _ => None end.
Definition reported (e : Ev) : option Z := match e with EvSendError r => Some r | _ => None end.

(** ** Invariant

    The promises, their counter, and the promises of the owed callbacks. *)
Record prom_ok (pr : gmap Z prom) (n : Z) (l : list Z) : Prop := {
  po_ids : forall p, is_Some (pr !! p) -> p < n;
  po_unset : forall p, pr !! p = Some Unset <-> p ∈ l;
  po_once : NoDup l;
}.

(** The buffers, the trace, and the sends that are owed. *)
Record send_ok (h : gset Z) (t : list Ev) (ow : list (Z * Done)) : Prop := {
  so_held : forall b, b ∈ ow.*1 -> b ∈ h;
  so_once : NoDup ow.*1;
  so_sends : omap sent_of t ≡ₚ (omap done_of t ++ ow);
  so_order : released_first None t = true;
  so_errors : omap reported t = omap failed_call t;
}.

Definition bx_ok (s : Bx) : Prop :=
  prom_ok (proms s) (next_prom s) (omap cb_prom (owed s)) /\ send_ok (held s) (trace s) (omap owed_of (owed s)).

Lemma prom_perm pr n l l' : l ≡ₚ l' -> prom_ok pr n l -> prom_ok pr n l'.
Proof. intros Hp [H1 H2 H3]. split; [done| |by rewrite <- Hp]. intros p. by rewrite H2, Hp. Qed.

Lemma prom_fresh pr n l : prom_ok pr n l -> pr !! n = None /\ n ∉ l.
Proof.
  intros [H1 H2 _]. assert (Hn : pr !! n = None). { destruct (pr !! n) eqn:E; [|done]. assert (n < n) by (apply H1; by rewrite E). lia. }
  split; [done|]. intros Hl%H2. congruence.
Qed.

(** A promise that is made and owed; one that is made and set at once. *)
Lemma prom_add pr n l : prom_ok pr n l -> prom_ok (<[n := Unset]> pr) (n + 1) (n :: l).
Proof.
  intros Ho. destruct (prom_fresh _ _ _ Ho) as [Hn Hl]. destruct Ho as [H1 H2 H3]. split.
  - intros p [<-|Hp%H1]%lookup_insert_is_Some'; lia.
  - intros p. rewrite elem_of_cons. destruct (decide (p = n)) as [->|Hne]; [rewrite lookup_insert_eq; naive_solver|].
    rewrite lookup_insert_ne, H2 by done. naive_solver.
  - by constructor.
Qed.

Lemma prom_made pr n l r : r <> Unset -> prom_ok pr n l -> prom_ok (<[n := r]> pr) (n + 1) l.
Proof.
  intros Hr Ho. destruct (prom_fresh _ _ _ Ho) as [Hn Hl]. destruct Ho as [H1 H2 H3]. split; [|intros p|done].
  - intros p [<-|Hp%H1]%lookup_insert_is_Some'; lia.
  - destruct (decide (p = n)) as [->|Hne]; [rewrite lookup_insert_eq; naive_solver|]. by rewrite lookup_insert_ne by done.
Qed.

Lemma prom_skip pr n l : prom_ok pr n l -> prom_ok pr (n + 1) l.
Proof. intros [H1 H2 H3]. split; [|done|done]. intros p Hp%H1. lia. Qed.

Lemma prom_settle pr n p l r :
  r <> Unset -> prom_ok pr n (p :: l) -> pr !! p = Some Unset /\ prom_ok (<[p := r]> pr) n l.
Proof.
  intros Hr [H1 H2 [Hl H3]%NoDup_cons]. assert (Hp : pr !! p = Some Unset) by (apply H2; set_solver). split; [done|].
  split; [|intros q|done].
  - intros q [<-|Hq%H1]%lookup_insert_is_Some'; [apply H1; by rewrite Hp|done].
  - destruct (decide (q = p)) as [->|Hne]; [rewrite lookup_insert_eq; naive_solver|]. rewrite lookup_insert_ne, H2 by done. set_solver.
Qed.

Lemma released_first_app prev t t' :
  released_first prev t = true -> (forall q, released_first q t' = true) -> released_first prev (t ++ t') = true.
Proof.
  intros Ht Ht'. revert prev Ht. induction t as [|[] t IH]; intros prev; cbn; auto.
  intros [Hb Ht]%andb_true_iff. rewrite Hb. by apply IH.
Qed.

Lemma send_perm h t ow ow' : ow ≡ₚ ow' -> send_ok h t ow -> send_ok h t ow'.
Proof. intros Hp [H1 H2 H3 H4 H5]. split; [|by rewrite <- Hp|by rewrite H3, Hp|done|done]. intros b. rewrite <- Hp. apply H1. Qed.

Lemma send_alloc h h' t ow : h ⊆ h' -> send_ok h t ow -> send_ok h' t ow.
Proof. intros Hp [H1 H2 H3 H4 H5]. split; try done. set_solver. Qed.

(** A send that the transport takes on; one that is over. *)
Lemma send_taken h t ow b d :
  b ∈ h -> b ∉ ow.*1 -> send_ok h t ow -> send_ok h (t ++ [EvSent b d]) ((b, d) :: ow).
Proof.
  intros Hb Ho [H1 H2 H3 H4 H5]. split; cbn.
  - set_solver.
  - by constructor.
  - rewrite !omap_app. cbn. rewrite app_nil_r, H3, <- app_assoc. apply Permutation_app_head. by rewrite <- Permutation_cons_append.
  - by apply released_first_app.
  - rewrite !omap_app. cbn. by rewrite H5.
Qed.

Definition error_report (d : Done) (s : Status) : list Ev :=
  match d, s with DRpc r, StErr => [EvSendError r] | _, _ => [] end.

Lemma send_over h t ow b d s :
  send_ok h t ((b, d) :: ow) ->
  b ∈ h /\ send_ok (h ∖ {[b]}) (t ++ [EvReleased b] ++ [EvDone b d s] ++ error_report d s) ow.
Proof.
  intros [H1 [Ho H2]%NoDup_cons H3 H4 H5]. split; [apply H1; set_solver|]. split; cbn.
  - intros b' Hb'. assert (b' ∈ h) by (apply H1; set_solver). set_solver.
  - done.
  - rewrite !omap_app. cbn. rewrite H3.
    assert (omap sent_of (error_report d s) = [] /\ omap done_of (error_report d s) = []) as [-> ->] by by destruct d, s.
    rewrite app_nil_r, <- app_assoc. done.
  - apply released_first_app; [done|]. intros q. cbn. rewrite bool_decide_eq_true_2 by done. by destruct d, s.
  - rewrite !omap_app. cbn. rewrite H5. f_equal. by destruct d, s.
Qed.

Lemma cb_bufs l : omap cb_buf l = (omap owed_of l).*1.
Proof. induction l as [|[] l IH]; cbn; [done|by rewrite <- IH|done..]. Qed.

(** ** Steps *)
Lemma settle_promise_ok s p r l :
  r <> Unset -> prom_ok (proms s) (next_prom s) (p :: l) ->
  exists s', settle_promise p r s = (Ok tt, s') /\ owed s' = owed s /\ held s' = held s /\ trace s' = trace s /\
    prom_ok (proms s') (next_prom s') l /\ proms s' !! p = Some r.
Proof.
  intros Hr Ho. destruct (prom_settle _ _ _ _ r Hr Ho) as [Hp Ho']. unfold settle_promise. rewrite Hp. eexists.
  split_and!; try done. apply lookup_insert_eq.
Qed.

Lemma wrapped_cb_ok s b d st lp ow :
  prom_ok (proms s) (next_prom s) (option_list (done_prom d) ++ lp) -> send_ok (held s) (trace s) ((b, d) :: ow) ->
  exists s', wrapped_cb b d st s = (Ok tt, s') /\ owed s' = owed s /\
    prom_ok (proms s') (next_prom s') lp /\ send_ok (held s') (trace s') ow /\
    forall p, done_prom d = Some p -> proms s' !! p = Some (if IsOk st then Value VUnit else Exception).
Proof.
  intros Hp Hs. destruct (send_over _ _ _ _ _ st Hs) as [Hb Hs']. unfold wrapped_cb.
  erewrite sbind_ok by (unfold ReleaseBuffer; by rewrite bool_decide_eq_true_2). unfold run_done. erewrite sbind_ok by done.
  rewrite !app_assoc in Hs'. destruct d as [p|r|]; cbn [done_prom option_list app error_report] in *.
  - rewrite app_nil_r in Hs'. set (s1 := note _ _). destruct (settle_promise_ok s1 p (if IsOk st then Value VUnit else Exception) lp) as (s' & Hr & H1 & H2 & H3 & H4 & H5);
      [by destruct (IsOk st)|done|]. exists s'. rewrite H1, H2, H3. split_and!; try done; [by destruct (IsOk st)|].
    by intros q [= <-].
  - destruct st; cbn in *; eexists; split_and!; try done. by rewrite app_nil_r in Hs'.
  - rewrite app_nil_r in Hs'. by eexists.
Qed.

Lemma Send_ok `{Env} a s b d :
  prom_ok (proms s) (next_prom s) (option_list (done_prom d) ++ omap cb_prom (owed s)) ->
  send_ok (held s) (trace s) (omap owed_of (owed s)) -> b ∈ held s -> b ∉ omap cb_buf (owed s) ->
  exists s', Send a false b d s = (Ok tt, s') /\ bx_ok s'.
Proof.
  intros Hp Hs Hb Hn. rewrite cb_bufs in Hn. apply (send_taken _ _ _ _ d Hb Hn) in Hs. unfold Send. erewrite sbind_ok by done.
  assert (Hw : exists s', wrapped_cb b d StErr (note (EvSent b d) s) = (Ok tt, s') /\ bx_ok s').
  { destruct (wrapped_cb_ok (note (EvSent b d) s) b d StErr _ _ Hp Hs) as (s' & Hr & Ho & H1 & H2 & _). exists s'.
    split; [done|]. unfold bx_ok. rewrite Ho. done. }
  unfold scatch. destruct a; [|exact Hw|exact Hw]. erewrite sbind_ok by done. unfold fault_inject_throw. rewrite andb_false_r.
  eexists. split; [done|]. unfold bx_ok. cbn. rewrite !omap_app. cbn. split.
  - eapply prom_perm; [|exact Hp]. rewrite Permutation_app_comm. f_equiv. by destruct d.
  - eapply send_perm; [|exact Hs]. by rewrite <- Permutation_cons_append.
Qed.

(** The requests other than sends: the transport takes them on, or the future is ready at once. *)
Lemma owe_request s c n :
  bx_ok s -> cb_prom c = Some n -> owed_of c = None -> n = next_prom s ->
  bx_ok (mkBx (held s) (owed s ++ [c]) (<[n := Unset]> (proms s)) (n + 1) (trace s)).
Proof.
  intros [Hp Hs] Hc Hb ->. split; cbn; rewrite !omap_app; cbn; rewrite ?Hc, ?Hb, ?app_nil_r; [|done].
  eapply prom_perm; [apply Permutation_cons_append|]. by apply prom_add.
Qed.

Lemma make_exp_future_ok s :
  bx_ok s -> exists s', make_exp_future s = (Ok (next_prom s), s') /\ bx_ok s'.
Proof.
  intros [Hp Hs]. unfold make_exp_future. erewrite sbind_ok by done. unfold set_exception, settle_promise, sbind. cbn.
  rewrite lookup_insert_eq. eexists. split; [done|]. split; cbn; [|done]. rewrite insert_insert_eq. by apply prom_made.
Qed.

(** A promise that is dropped again leaves only its number. *)
Lemma dropped_ok s :
  bx_ok s -> bx_ok (mkBx (held s) (owed s) (delete (next_prom s) (<[next_prom s := Unset]> (proms s))) (next_prom s + 1) (trace s)).
Proof.
  intros [Hp Hs]. destruct (prom_fresh _ _ _ Hp) as [Hn _]. split; [|done]. cbn. rewrite delete_insert_id by done. by apply prom_skip.
Qed.

(** The exceptions the caller of a step sees. *)
Definition is_thrown (a : Answer) : bool := match a with Thrown => true | _ => false end.
Definition throws (e : bx_event) : bool :=
  match e with
  | EAlloc answer => match answer with None => true | Some _ => false end
  | EWriteSingle a _ | EWriteBatch a _ | EWriteBySgList a _ | EConnect a _ | EClose a => is_thrown a
  | ESend _ _ _ | ESendFuture _ _ | EDeliver _ _ _ _ => false
  end.
Definition ends_well (thrown : bool) (r : res unit * Bx) : Prop :=
  r.1 = (if thrown then Err RuntimeError else Ok tt) /\ bx_ok r.2.

Lemma submit_ok a c s :
  bx_ok s -> (forall p, cb_prom (c p) = Some p /\ owed_of (c p) = None) ->
  ends_well (is_thrown a) ((let! _ := submit_request a c in sret tt) s).
Proof.
  intros Hs Hc. destruct (Hc (next_prom s)) as [H1 H2]. unfold submit_request, sbind, new_promise, owe, drop_promise, modify, lift. destruct a.
  - split; [done|]. by apply (owe_request s (c (next_prom s))).
  - destruct (make_exp_future_ok _ (dropped_ok s Hs)) as (s' & Hr & Hs'). unfold set_proms. cbn in *. by rewrite Hr.
  - split; [done|]. exact (dropped_ok s Hs).
Qed.

Lemma close_ok a s : bx_ok s -> ends_well (is_thrown a) ((let! _ := CloseChannel a in sret tt) s).
Proof.
  intros Hs. unfold CloseChannel, sbind, new_promise, owe, drop_promise, modify, lift. destruct a.
  - split; [done|]. by apply (owe_request s (CbClose (next_prom s))).
  - destruct Hs as [Hp Hs]. unfold set_value, settle_promise. cbn. rewrite lookup_insert_eq. split; [done|]. split; cbn; [|done].
    rewrite insert_insert_eq. by apply prom_made.
  - split; [done|]. exact (dropped_ok s Hs).
Qed.

Lemma owed_split (l : list Cb) k c : l !! k = Some c ->
  omap cb_prom l ≡ₚ (option_list (cb_prom c) ++ omap cb_prom (delete k l)) /\
  omap owed_of l ≡ₚ (option_list (owed_of c) ++ omap owed_of (delete k l)).
Proof.
  intros Hk%delete_Permutation. split.
  - rewrite Hk at 1. cbn. by destruct (cb_prom c).
  - rewrite Hk at 1. cbn. by destruct (owed_of c).
Qed.

(** What the callback [c] makes of its promise. *)
Definition outcome (c : Cb) (st : Status) (ch : Z) (shared : bool) : prom :=
  match c with
  | CbSend _ _ | CbWrite _ _ => if IsOk st then Value VUnit else Exception
  | CbClose _ => Value (VStatus st)
  | CbConnect _ conn => if IsOk st && shared then Value (VChannel conn ch) else Exception
  end.

(** Running a callback the transport owes sets a promise that is not set and releases a buffer
    that is held. *)
Lemma deliver_ok k st ch shared s c :
  bx_ok s -> owed s !! k = Some c ->
  exists s', run_owed k st ch shared s = (Ok tt, s') /\ bx_ok s' /\ owed s' = delete k (owed s) /\
    forall p, cb_prom c = Some p -> proms s' !! p = Some (outcome c st ch shared).
Proof.
  intros [Hp Hs] Hk. unfold run_owed. erewrite sbind_ok by done. rewrite Hk.
  erewrite sbind_ok by done. destruct (owed_split _ _ _ Hk) as [E1 E2]. apply (prom_perm _ _ _ _ E1) in Hp. apply (send_perm _ _ _ _ E2) in Hs.
  set (s1 := set_owed _ s).
  assert (Hset : forall p r, cb_prom c = Some p -> owed_of c = None -> r <> Unset -> exists s', settle_promise p r s1 = (Ok tt, s') /\ bx_ok s' /\
    owed s' = delete k (owed s) /\ forall q, cb_prom c = Some q -> proms s' !! q = Some r).
  { intros p r Hc Ho Hr. rewrite Hc in Hp. rewrite Ho in Hs. destruct (settle_promise_ok s1 p r _ Hr Hp) as (s' & Hr' & H1 & H2 & H3 & H4 & H5).
    exists s'. split_and!; [done|unfold bx_ok; by rewrite H1, H2, H3|done|]. intros q Hq. rewrite Hc in Hq. by injection Hq as <-. }
  destruct c as [b d|p datas|p|p conn]; cbn [run_cb].
  - destruct (wrapped_cb_ok s1 b d st _ _ Hp Hs) as (s' & Hr & H1 & H2 & H3 & H4). exists s'. split_and!; [done|unfold bx_ok; by rewrite H1|done|].
    intros p Hd. by apply H4.
  - cbn [outcome]. destruct (IsOk st); by apply Hset.
  - by apply Hset.
  - cbn [outcome]. destruct (IsOk st), shared; by apply Hset.
Qed.

Lemma bx_step_ok `{Env} e s : bx_enabled e s -> bx_ok s -> ends_well (throws e) (bx_step e s).
Proof.
  intros He Hs.
  destruct e as [[b|]|a b d|a b|a d|a d|a d|a conn|a|k st ch shared]; cbn [bx_step bx_enabled throws] in *;
    try (by apply submit_ok); try (by apply close_ok).
  - split; [done|]. destruct Hs as [Hp Hs]. split; [done|]. cbn. by eapply send_alloc; [|exact Hs]; set_solver.
  - done.
  - destruct Hs as [Hp Hs], He as (Hb & Hn & Hd). destruct (Send_ok a s b d) as (s' & -> & Hs'); [by rewrite Hd|done..].
  - destruct Hs as [Hp Hs], He as (Hb & Hn).
    set (s1 := mkBx (held s) (owed s) (<[next_prom s := Unset]> (proms s)) (next_prom s + 1) (trace s)).
    destruct (Send_ok a s1 b (DPromise (next_prom s))) as (s' & Hr & Hs'); [by apply prom_add|done..|].
    unfold Send_future, sbind, new_promise. fold s1. by rewrite Hr.
  - destruct (owed s !! k) as [c|] eqn:Hk.
    + destruct (deliver_ok k st ch shared s c Hs Hk) as (s' & -> & Hs' & _). done.
    + unfold run_owed. erewrite sbind_ok by done. by rewrite Hk.
Qed.

Lemma bx_reach_ok `{Env} s s' : bx_reach s s' -> bx_ok s -> bx_ok s'.
Proof. induction 1 as [|s e s' s'' He <- _ IH]; [done|]. intros Hs. apply IH. by apply bx_step_ok. Qed.

Lemma bx_start_ok : bx_ok bx_start.
Proof.
  split; split; cbn; try done; try constructor; try set_solver.
  - intros p. rewrite lookup_empty. by intros [].
Qed.

(** C9: Requests to the transport, in every interleaving of the threads that send, write,
    connect and close with the callbacks of the transport, without injected faults, whatever
    it refuses and whatever status it reports: a step fails only when a buffer cannot be
    allocated or the transport throws; each future that is not ready has exactly one
    callback coming, which makes it ready with the outcome of the request; and the callback
    of every send runs exactly once, right after its buffer was released, reporting exactly
    the failed calls to the table of calls. *)
Theorem requests_settle_once `{Env} s :
  bx_reach bx_start s ->
  (forall e, bx_enabled e s -> (bx_step e s).1 = if throws e then Err RuntimeError else Ok tt) /\
  (forall p, proms s !! p = Some Unset <-> p ∈ omap cb_prom (owed s)) /\ NoDup (omap cb_prom (owed s)) /\
  (forall k c st ch shared, owed s !! k = Some c -> exists s', run_owed k st ch shared s = (Ok tt, s') /\
    owed s' = delete k (owed s) /\ forall p, cb_prom c = Some p -> proms s' !! p = Some (outcome c st ch shared)) /\
  omap sent_of (trace s) ≡ₚ (omap done_of (trace s) ++ omap owed_of (owed s)) /\
  released_first None (trace s) = true /\ omap reported (trace s) = omap failed_call (trace s).
Proof.
  intros Hr. assert (Hs : bx_ok s) by (by eapply bx_reach_ok; [|apply bx_start_ok]).
  split_and!; [intros e He; by apply bx_step_ok|by apply (po_unset _ _ _ (proj1 Hs))|apply (po_once _ _ _ (proj1 Hs))| |
    apply (so_sends _ _ _ (proj2 Hs))|apply (so_order _ _ _ (proj2 Hs))|apply (so_errors _ _ _ (proj2 Hs))].
  intros k c st ch shared Hk. destruct (deliver_ok k st ch shared s c Hs Hk) as (s' & H1 & _ & H2 & H3). eauto.
Qed.

(** In a debug build a fault injected behind a send that was taken on runs the callback at once
    and leaves it to the transport as well, which then releases the buffer again. *)
Lemma injected_fault_releases_twice `{Env} s b cb st ch shared :
  ndebug = false -> b ∈ held s -> owed s = [] -> done_prom cb = None ->
  exists s', Send Accepted true b cb s = (Ok tt, s') /\ (run_owed 0 st ch shared s').1 = Err Undefined.
Proof.
  intros Hd Hb Ho Hc. unfold Send. erewrite sbind_ok by done. unfold scatch. erewrite sbind_ok by done. unfold fault_inject_throw.
  rewrite Hd. cbn [negb andb lift is_exception]. unfold wrapped_cb.
  erewrite sbind_ok by (unfold ReleaseBuffer; by rewrite bool_decide_eq_true_2). unfold run_done. erewrite sbind_ok by done.
  assert (Hlast : forall t, (run_owed 0 st ch shared (mkBx (held s ∖ {[b]}) [CbSend b cb] (proms s) (next_prom s) t)).1 = Err Undefined).
  { intros t. unfold run_owed. erewrite sbind_ok by done. cbn. unfold wrapped_cb, sbind, ReleaseBuffer. cbn [held set_owed].
    rewrite bool_decide_eq_false_2 by set_solver. done. }
  destruct cb as [p|r|]; [done|..]; cbn; eexists; (split; [done|]); unfold note, set_held; cbn; rewrite Ho; apply Hlast.
Qed.

(** ** Example *)
Definition release_env : Env := {|
  ndebug := true; env_bf162fp8_conversion := false; env_pad_last_attn_block := false; env_cache_shape := 0 |}.

(** A buffer is allocated and sent with a future, a write is refused, and the send fails. *)
Definition sample_requests : list bx_event :=
  [EAlloc (Some 7); ESendFuture Accepted 7; EWriteBatch Rejected [1; 2]; EDeliver 0 StErr 0 false].

Lemma requests_settle_once_witness :
  let s := foldl (fun s e => (@bx_step release_env e s).2) bx_start sample_requests in
  owed s = [] /\ proms s !! 0 = Some Exception /\ proms s !! 2 = Some Exception /\ released_first None (trace s) = true.
Proof.
  assert (Hr : @bx_reach release_env bx_start (foldl (fun s e => (@bx_step release_env e s).2) bx_start sample_requests)).
  { eapply (bx_then _ (EAlloc (Some 7))); [by apply not_elem_of_empty|reflexivity|].
    eapply (bx_then _ (ESendFuture Accepted 7)); [split; [cbn; set_solver|cbn; set_solver]|reflexivity|].
    eapply (bx_then _ (EWriteBatch Rejected [1; 2])); [done|reflexivity|].
    eapply (bx_then _ (EDeliver 0 StErr 0 false)); [done|reflexivity|]. apply bx_refl. }
  pose proof (@requests_settle_once release_env _ Hr) as (_ & _ & _ & _ & _ & Ht & _).
  split_and!; [reflexivity|reflexivity|reflexivity|exact Ht].
Defined.
