(* ===== verification/CloseChannels.v ===== *)
(** Closing channels: [BarexChannel::destroy], its destructor and [delete_channels] of
    [src/barex_protocol.cpp], with [ThreadPool::spawn] of [include/utils/thread_pool.h].

    Channel objects that are no longer wanted are moved into a task of a pool of one thread
    ([CliBarexCtx::close_tp_]).  The task is behind a shared pointer that the pool and the
    caller of [spawn] hold; whoever lets go of it last destroys the channels: for each one it
    asks the connector to close it, waits for the answer and then destroys and deletes it
    (libstdc++ destroys the elements of a vector from the first to the last).
    The other threads and the transport act in between. *)

From stdpp Require Import gmap.
From S2P Require Import Prelude.
From S2P Require Import StateM.
From S2P Require Import Common.
From S2P Require Import Async.

(** What happens to a channel. *)
Inductive ChEv := Closed (ch : Z) (st : Status) | Destroyed (ch : Z) | Deleted (ch : Z).

(** The pool's hold of a task: in the queue, in the local variable of the thread, gone. *)
Inductive PoolRef := Queued | Running | Dropped.

(** Which thread destroys the channels. *)
Inductive Owner := ByPool | BySpawner.

(** A task of [delete_channels]: [b_chs], the channel objects that are not destroyed yet,
    [None] for one that was moved from; [b_wait], the channel whose closing its owner waits
    for, and the promise it waits on; [b_spawn], whether [spawn] still holds it. *)
Record Batch := mkBatch {
  b_chs : list (option Z);
  b_wait : option (Z * Z);
  b_pool : PoolRef;
  b_spawn : bool;
  b_by : option Owner;
  b_ended : list ChEv;
}.

(** The tasks, in the order in which they were handed over. *)
Record Closer := mkCloser {
  bx : Bx;
  batches : list Batch;
}.

(** [delete_channels] up to the point where the task is queued. *)
Definition delete_channels (chs : list (option Z)) (c : Closer) : Closer :=
  mkCloser (bx c) (batches c ++ [mkBatch chs None Queued true None []]).

(** [BarexChannel::destroy] after the answer came. *)
Definition destroy_rest (ch : Z) (st : Status) : list ChEv := [Closed ch st; Destroyed ch; Deleted ch].

Definition finished (b : Batch) : bool :=
  match b_wait b, b_chs b with None, [] => true | _, _ => false end.

(** A step of the thread that destroys the channels of a task, [None] when it has to wait or
    is done.  [~BarexChannel] catches what [destroy] throws. *)
Definition destroy_step (a : Answer) (s : Bx) (b : Batch) : option (Bx * Batch) :=
  let upd chs wait ended := mkBatch chs wait (b_pool b) (b_spawn b) (b_by b) ended in
  match b_by b with
  | None => None
  | Some _ =>
      match b_wait b with
      | Some (ch, p) =>
          match proms s !! p with
          | Some Unset => None
          | Some (Value (VStatus st)) => Some (s, upd (b_chs b) None (b_ended b ++ destroy_rest ch st))
          | _ => Some (s, upd (b_chs b) None (b_ended b))
          end
      | None =>
          match b_chs b with
          | Some ch :: rest =>
              match CloseChannel a s with
              | (Ok p, s) => Some (s, upd rest (Some (ch, p)) (b_ended b))
              | (Err _, s) => Some (s, upd rest None (b_ended b))
              end
          | None :: rest => Some (s, upd rest None (b_ended b))
          | [] => None
          end
      end
  end.

(** The pool's thread is busy with a task: running it, or destroying its channels. *)
Definition pool_busy (b : Batch) : bool :=
  match b_pool b, b_by b with
  | Running, _ => true
  | _, Some ByPool => negb (finished b)
  | _, _ => false
  end.

Definition is_queued (b : Batch) : bool := match b_pool b with Queued => true | _ => false end.

(** The thread takes the task at the front of the queue. *)
Fixpoint take_first (bs : list Batch) : option (list Batch) :=
  match bs with
  | [] => None
  | b :: bs =>
      if is_queued b then Some (mkBatch (b_chs b) (b_wait b) Running (b_spawn b) (b_by b) (b_ended b) :: bs)
      else cons b <$> take_first bs
  end.

(** It has run the task, whose body is empty, and lets go of it. *)
Definition pool_drop (b : Batch) : option Batch :=
  match b_pool b with
  | Running => Some (mkBatch (b_chs b) (b_wait b) Dropped (b_spawn b) (if b_spawn b then b_by b else Some ByPool) (b_ended b))
  | _ => None
  end.

(** [delete_channels] returns: its caller lets go of the task, that is of the local variable
    of [spawn] and of the future [spawn] returned, which is dropped at once (in libstdc++ the
    function lives in the state they share). *)
Definition spawn_drop (b : Batch) : option Batch :=
  if b_spawn b then
    Some (mkBatch (b_chs b) (b_wait b) (b_pool b) false
            (match b_pool b with Dropped => Some BySpawner | _ => b_by b end) (b_ended b))
  else None.

Inductive cl_event :=
| ClBx (e : bx_event)                   (* another thread, or the transport *)
| ClDelete (chs : list (option Z))
| ClTake
| ClPoolDrop (i : nat)
| ClSpawnDrop (i : nat)
| ClStep (i : nat) (a : Answer).        (* the owner of task [i] *)

Definition on_batch (i : nat) (f : Batch -> option Batch) (c : Closer) : option Closer :=
  b ← batches c !! i; b' ← f b; Some (mkCloser (bx c) (<[i := b']> (batches c))).

Definition cl_step `{Env} (e : cl_event) (c : Closer) : option Closer :=
  match e with
  | ClBx e => Some (mkCloser (bx_step e (bx c)).2 (batches c))
  | ClDelete chs => Some (delete_channels chs c)
  | ClTake =>
      if existsb pool_busy (batches c) then None
      else mkCloser (bx c) <$> take_first (batches c)
  | ClPoolDrop i => on_batch i pool_drop c
  | ClSpawnDrop i => on_batch i spawn_drop c
  | ClStep i a =>
      b ← batches c !! i; '(s, b') ← destroy_step a (bx c) b; Some (mkCloser s (<[i := b']> (batches c)))
  end.

(** [CloseChannel] of the transport answers with a result. *)
Definition cl_enabled (e : cl_event) (c : Closer) : Prop :=
  match e with
  | ClBx e => bx_enabled e (bx c)
  | ClStep _ a => a <> Thrown
  | _ => True
  end.

Inductive cl_reach `{Env} : list cl_event -> Closer -> Prop :=
| cl_init : cl_reach [] (mkCloser bx_start [])
| cl_snoc es c e c' : cl_reach es c -> cl_enabled e c -> cl_step e c = Some c' -> cl_reach (es ++ [e]) c'.

(** The lists of channels handed over, in order. *)
Definition handed_of (es : list cl_event) : list (list Z) :=
  omap (fun e => match e with ClDelete chs => Some (omap id chs) | _ => None end) es.

(** The channels of a task that are not finished. *)
Definition unfinished (b : Batch) : list Z :=
  match b_wait b with Some (ch, _) => [ch] | None => [] end ++ omap id (b_chs b).

(** The threads that close channels, as against everybody else. *)
Definition closing (e : cl_event) : Prop :=
  match e with ClTake | ClPoolDrop _ | ClSpawnDrop _ | ClStep _ _ => True | _ => False end.

(** Steps these threads have left. *)
Definition batch_left (b : Batch) : nat :=
  2 * length (b_chs b) + match b_wait b with Some _ => 1 | None => 0 end +
  match b_pool b with Queued => 2 | Running => 1 | Dropped => 0 end + (if b_spawn b then 1 else 0).
Definition work_left (c : Closer) : nat := sum_list_with batch_left (batches c).

(** ** The promise a thread waits on *)
Definition waits (p : Z) (s : Bx) : Prop :=
  p < next_prom s /\
  ((proms s !! p = Some Unset /\ CbClose p ∈ owed s) \/ exists st, proms s !! p = Some (Value (VStatus st))).

(** Computations that leave the promise and its callback alone. *)
Definition keeps {A} (p : Z) (m : B A) : Prop := forall s, waits p s -> waits p (m s).2.

Create HintDb keeps_db.

Section Keeps.
Context (p : Z).

Lemma keeps_prom_bind {A C} (m : B A) (f : A -> B C) : keeps p m -> (forall a, keeps p (f a)) -> keeps p (sbind m f).
Proof. intros Hm Hf s Hs. unfold sbind. specialize (Hm s Hs). destruct (m s) as [[a|e] s1]; [by apply Hf|done]. Qed.

Lemma keeps_new {C} (f : Z -> B C) : (forall q, q <> p -> keeps p (f q)) -> keeps p (sbind new_promise f).
Proof.
  intros Hf s Hs. erewrite sbind_ok by done. destruct Hs as [Hlt Hs]. apply Hf; [lia|]. split; cbn; [lia|].
  by rewrite lookup_insert_ne by lia.
Qed.

Lemma keeps_catch {A} (m h : B A) : keeps p m -> keeps p h -> keeps p (scatch m h).
Proof. intros Hm Hh s Hs. unfold scatch. specialize (Hm s Hs). destruct (m s) as [[a|e] s1]; [done|]. destruct (is_exception e); auto. Qed.

Lemma keeps_prom_ret {A} (a : A) : keeps p (sret a).
Proof. by intros s Hs. Qed.
Lemma keeps_prom_lift {A} (r : res A) : keeps p (lift r).
Proof. by intros s Hs. Qed.
Lemma keeps_note e : keeps p (modify (note e)).
Proof. by intros s Hs. Qed.
Lemma keeps_held f : keeps p (modify (fun s => set_held (f s) s)).
Proof. by intros s Hs. Qed.
Lemma keeps_release b : keeps p (ReleaseBuffer b).
Proof. intros s Hs. unfold ReleaseBuffer. by destruct (bool_decide _). Qed.
Lemma keeps_owe c : keeps p (owe c).
Proof. intros s [Hlt [[H1 H2]|H]]; split; cbn; [done|left|done|by right]. split; [done|]. set_solver. Qed.
Lemma keeps_settle q r : q <> p -> keeps p (settle_promise q r).
Proof.
  intros Hq s Hs. unfold settle_promise. destruct (proms s !! q) as [[]|]; try done. destruct Hs as [Hlt Hs]. split; [done|].
  cbn. by rewrite lookup_insert_ne by done.
Qed.
Lemma keeps_drop q : q <> p -> keeps p (drop_promise q).
Proof. intros Hq s [Hlt Hs]. split; [done|]. cbn. by rewrite lookup_delete_ne by done. Qed.

#[local] Hint Resolve keeps_prom_ret keeps_prom_lift keeps_note keeps_held keeps_release keeps_owe keeps_settle keeps_drop : keeps_db.

Lemma keeps_done b d st : done_prom d <> Some p -> keeps p (wrapped_cb b d st).
Proof.
  intros Hd. unfold wrapped_cb, run_done. apply keeps_prom_bind; [auto with keeps_db|]. intros _. apply keeps_prom_bind; [auto with keeps_db|]. intros _.
  unfold set_value, set_exception. destruct d as [q|r|]; [|destruct (IsOk st); auto with keeps_db|auto with keeps_db].
  assert (q <> p) by (intros ->; by apply Hd). destruct (IsOk st); auto with keeps_db.
Qed.

Lemma keeps_send `{Env} a b d : done_prom d <> Some p -> keeps p (Send a false b d).
Proof.
  intros Hd. unfold Send, fault_inject_throw. rewrite andb_false_r. apply keeps_prom_bind; [auto with keeps_db|]. intros _.
  apply keeps_catch; [|by apply keeps_done]. destruct a; [apply keeps_prom_bind|..]; auto with keeps_db.
Qed.

Lemma keeps_submit a c : keeps p (submit_request a c).
Proof.
  apply keeps_new. intros q Hq. destruct a; apply keeps_prom_bind; auto with keeps_db. intros _. unfold make_exp_future, set_exception.
  apply keeps_new. intros q' Hq'. apply keeps_prom_bind; auto with keeps_db.
Qed.

Lemma keeps_close a : keeps p (CloseChannel a).
Proof. apply keeps_new. intros q Hq. unfold set_value. destruct a; apply keeps_prom_bind; auto with keeps_db. Qed.

Lemma keeps_run_cb c st ch shared : cb_prom c <> Some p -> keeps p (run_cb c st ch shared).
Proof.
  unfold set_value, set_exception. destruct c as [b d|q l|q|q conn]; cbn; intros Hc; [by apply keeps_done|..];
    assert (q <> p) by (intros ->; by apply Hc); unfold set_value, set_exception; repeat case_match; auto with keeps_db.
Qed.
End Keeps.

(** Callbacks of one promise are one callback. *)
Lemma omap_inj_at {A C} (f : A -> option C) l x y b :
  NoDup (omap f l) -> x ∈ l -> y ∈ l -> f x = Some b -> f y = Some b -> x = y.
Proof.
  intros Hn Hx Hy Hfx Hfy. apply list_elem_of_lookup in Hx as [i Hi]. rewrite (delete_Permutation _ _ _ Hi) in Hn, Hy.
  cbn in Hn. rewrite Hfx in Hn. apply NoDup_cons in Hn as [Hn _]. apply elem_of_cons in Hy as [->|Hy]; [done|].
  destruct Hn. apply list_elem_of_omap. eauto.
Qed.

Lemma deliver_waits p k st ch shared s : bx_ok s -> waits p s -> waits p (run_owed k st ch shared s).2.
Proof.
  intros Hok Hw. destruct (owed s !! k) as [c|] eqn:Hk.
  2: { unfold run_owed. erewrite sbind_ok by done. by rewrite Hk. }
  destruct (decide (cb_prom c = Some p)) as [Hc|Hc].
  - destruct (deliver_ok k st ch shared s c Hok Hk) as (s' & -> & Hok' & _ & Hp). specialize (Hp p Hc). cbn [snd]. split.
    + apply (po_ids _ _ _ (proj1 Hok')). by rewrite Hp.
    + right. assert (Hin : p ∈ omap cb_prom (owed s)). { apply list_elem_of_omap. exists c. split; [by eapply list_elem_of_lookup_2|done]. }
      apply (po_unset _ _ _ (proj1 Hok)) in Hin. destruct Hw as [_ [[_ Hcb]|[st' Hst]]]; [|congruence].
      assert (c = CbClose p) as ->.
      { eapply (omap_inj_at cb_prom); [apply (po_once _ _ _ (proj1 Hok))|by eapply list_elem_of_lookup_2|exact Hcb|done|done]. }
      by exists st.
  - unfold run_owed. erewrite sbind_ok by done. rewrite Hk. erewrite sbind_ok by done. apply keeps_run_cb; [done|].
    destruct Hw as [Hlt [[H1 H2]|H]]; split; cbn; [done| |done|by right]. left. split; [done|].
    rewrite (delete_Permutation _ _ _ Hk) in H2. apply elem_of_cons in H2 as [<-|H2]; [by destruct Hc|done].
Qed.

Lemma bx_step_waits `{Env} p e s : bx_enabled e s -> bx_ok s -> waits p s -> waits p (bx_step e s).2.
Proof.
  intros He Hok Hw. destruct e as [[b|]|a b d|a b|a d|a d|a d|a conn|a|k st ch shared]; cbn [bx_step bx_enabled] in *;
    try (apply keeps_prom_bind; [apply keeps_submit|intros; apply keeps_prom_ret|done]).
  - done.
  - done.
  - destruct He as (_ & _ & Hd). apply keeps_send; [by rewrite Hd|done].
  - apply keeps_prom_bind; [|intros; apply keeps_prom_ret|done]. apply keeps_new. intros q Hq. apply keeps_prom_bind; [|intros; apply keeps_prom_ret].
    apply keeps_send. cbn. congruence.
  - apply keeps_prom_bind; [apply keeps_close|intros; apply keeps_prom_ret|done].
  - by apply deliver_waits.
Qed.

Lemma close_waits a s :
  a <> Thrown -> bx_ok s -> exists p s', CloseChannel a s = (Ok p, s') /\ bx_ok s' /\ waits p s'.
Proof.
  intros Ha Hs. pose proof (close_ok a s Hs) as [_ Hok]. unfold CloseChannel in *. erewrite sbind_ok by done.
  unfold sbind in Hok at 1 2. cbn in Hok. destruct a; [| |done]; cbn in Hok.
  - eexists _, _. split; [done|]. split; [done|]. split; cbn; [lia|]. left. rewrite lookup_insert_eq. set_solver.
  - unfold set_value, settle_promise, sbind in *. cbn in *. rewrite lookup_insert_eq in *. eexists _, _. split; [done|]. split; [done|].
    split; cbn; [lia|]. right. rewrite lookup_insert_eq. by eexists.
Qed.

(** ** Invariant *)

(** A task whose channels are being destroyed was let go of by both holders; until then
    nothing has happened to its channels. *)
Record batch_ok (s : Bx) (handed : list Z) (b : Batch) : Prop := {
  bk_wait : forall ch p, b_wait b = Some (ch, p) -> waits p s;
  bk_order : exists fin, b_ended b = fin ≫= (fun x => destroy_rest x.1 x.2) /\ handed = fin.*1 ++ unfinished b;
  bk_owned : is_Some (b_by b) <-> b_pool b = Dropped /\ b_spawn b = false;
  bk_untouched : b_by b = None -> b_wait b = None /\ b_ended b = [];
}.

Record cl_ok (handed : list (list Z)) (c : Closer) : Prop := {
  ck_bx : bx_ok (bx c);
  ck_batches : Forall2 (batch_ok (bx c)) handed (batches c);
  ck_one : forall i j b b', batches c !! i = Some b -> batches c !! j = Some b' ->
    pool_busy b = true -> pool_busy b' = true -> i = j;
  ck_fifo : forall i j b b', (i < j)%nat -> batches c !! i = Some b -> batches c !! j = Some b' ->
    is_queued b = true -> is_queued b' = true;
}.

Lemma work_insert s' c i b b' :
  batches c !! i = Some b -> (batch_left b' < batch_left b)%nat ->
  (work_left (mkCloser s' (<[i := b']> (batches c))) < work_left c)%nat.
Proof.
  intros Hi Hlt. unfold work_left. cbn. rewrite insert_take_drop by (by eapply lookup_lt_Some).
  rewrite <- (take_drop_middle _ _ _ Hi) at 3. rewrite !sum_list_with_app. cbn [sum_list_with]. lia.
Qed.

(** Only the promises matter. *)
Lemma batch_ok_bx s s' handed b :
  (forall p, waits p s -> waits p s') -> batch_ok s handed b -> batch_ok s' handed b.
Proof. intros Hk [Hw Ho Hd Hu]. split; [|done..]. intros ch p Hp. by apply Hk, (Hw ch p). Qed.

(** One task changes, and the pool is no busier for it. *)
Lemma cl_ok_insert handed c i b b' s' h :
  cl_ok handed c -> batches c !! i = Some b -> handed !! i = Some h -> bx_ok s' ->
  (forall p, waits p (bx c) -> waits p s') -> batch_ok s' h b' ->
  (pool_busy b' = true -> pool_busy b = true) -> is_queued b' = is_queued b ->
  cl_ok handed (mkCloser s' (<[i := b']> (batches c))).
Proof.
  intros [Hb Hbs Hone Hf] Hi Hh Hs' Hk Hb' Hbusy Hq. pose proof (lookup_lt_Some _ _ _ Hi) as Hlt.
  assert (Hl : forall j x, <[i := b']> (batches c) !! j = Some x ->
    exists y, batches c !! j = Some y /\ (pool_busy x = true -> pool_busy y = true) /\ is_queued x = is_queued y).
  { intros j x Hj. destruct (decide (j = i)) as [->|Hne].
    - rewrite list_lookup_insert_eq in Hj by done. injection Hj as <-. by exists b.
    - rewrite list_lookup_insert_ne in Hj by done. by exists x. }
  split; cbn; [done|..].
  - rewrite <- (list_insert_id handed i h) by done. apply Forall2_insert; [|done].
    eapply Forall2_impl; [exact Hbs|]. intros x y. by apply batch_ok_bx.
  - intros j k x y (x0 & Hx & Bx & _)%Hl (y0 & Hy & By & _)%Hl Hbx Hby. eapply Hone; eauto.
  - intros j k x y Hjk (x0 & Hx & _ & Qx)%Hl (y0 & Hy & _ & Qy)%Hl. rewrite Qx, Qy. by apply (Hf j k).
Qed.

Lemma destroy_step_ok s h a b s' b' :
  a <> Thrown -> bx_ok s -> batch_ok s h b -> destroy_step a s b = Some (s', b') ->
  bx_ok s' /\ (forall p, waits p s -> waits p s') /\ batch_ok s' h b' /\
  (pool_busy b' = true -> pool_busy b = true) /\ is_queued b' = is_queued b /\ (batch_left b' < batch_left b)%nat.
Proof.
  intros Ha Hb [Hw (fin & He & Hh) Hd Hu] Hs. unfold destroy_step in Hs. destruct (b_by b) as [o|] eqn:Eo; [|done].
  destruct (proj1 Hd ltac:(by eexists)) as [Hp Hsp]. unfold unfinished in Hh.
  assert (Hbusy : forall chs wait ended, finished b = false ->
    pool_busy (mkBatch chs wait (b_pool b) (b_spawn b) (Some o) ended) = true -> pool_busy b = true).
  { intros chs wait ended Hf. unfold pool_busy. cbn. rewrite Hp, Eo, Hf. by destruct o. }
  assert (Hown : forall chs wait ended, is_Some (b_by (mkBatch chs wait (b_pool b) (b_spawn b) (Some o) ended)) <->
    b_pool b = Dropped /\ b_spawn b = false) by (intros; split; [done|by eexists]).
  destruct (b_wait b) as [[ch p]|] eqn:Ew.
  - destruct (Hw ch p eq_refl) as [_ [[Hx _]|[st Hst]]]; [by rewrite Hx in Hs|]. rewrite Hst in Hs. injection Hs as <- <-.
    split_and!; [done|done| |apply Hbusy; unfold finished; by rewrite Ew|done|unfold batch_left; cbn; rewrite Ew; lia].
    split; [done| |apply Hown|done]. exists (fin ++ [(ch, st)]). cbn. rewrite He, bind_app. split; [done|].
    unfold unfinished. cbn. by rewrite Hh, fmap_app, <- app_assoc.
  - destruct (b_chs b) as [|[ch|] rest] eqn:Ec; [done|..].
    + destruct (close_waits a s Ha Hb) as (p & s1 & Hcl & Hb' & Hwp). rewrite Hcl in Hs. injection Hs as <- <-.
      split_and!; [done| | |apply Hbusy; unfold finished; by rewrite Ew, Ec|done|unfold batch_left; cbn; rewrite Ew, Ec; cbn; lia].
      * intros q Hq. pose proof (keeps_close q a s Hq) as Hk. by rewrite Hcl in Hk.
      * split; [by intros ? ? [= <- <-]|by exists fin|apply Hown|done].
    + injection Hs as <- <-.
      split_and!; [done|done| |apply Hbusy; unfold finished; by rewrite Ew, Ec|done|unfold batch_left; cbn; rewrite Ew, Ec; cbn; lia].
      split; [done|by exists fin|apply Hown|done].
Qed.

Lemma pool_drop_ok s h b b' :
  batch_ok s h b -> pool_drop b = Some b' ->
  batch_ok s h b' /\ (pool_busy b' = true -> pool_busy b = true) /\ is_queued b' = is_queued b /\ (batch_left b' < batch_left b)%nat.
Proof.
  intros [Hw Ho Hd Hu] Hs. unfold pool_drop in Hs. destruct (b_pool b) eqn:Ep; [done| |done]. injection Hs as <-.
  destruct (b_by b) as [o|] eqn:Eo; [by destruct (proj1 Hd ltac:(by eexists))|]. destruct (Hu eq_refl) as [Hwt Hen].
  split_and!; [|unfold pool_busy; by rewrite Ep|unfold is_queued; by rewrite Ep|unfold batch_left; cbn; rewrite Ep; lia].
  split; cbn; [done|done| |intros _; done]. destruct (b_spawn b); split; [by intros []|by intros []|done|by eexists].
Qed.

Lemma spawn_drop_ok s h b b' :
  batch_ok s h b -> spawn_drop b = Some b' ->
  batch_ok s h b' /\ (pool_busy b' = true -> pool_busy b = true) /\ is_queued b' = is_queued b /\ (batch_left b' < batch_left b)%nat.
Proof.
  intros [Hw Ho Hd Hu] Hs. unfold spawn_drop in Hs. destruct (b_spawn b) eqn:Es; [|done]. injection Hs as <-.
  destruct (b_by b) as [o|] eqn:Eo; [by destruct (proj1 Hd ltac:(by eexists))|]. destruct (Hu eq_refl) as [Hwt Hen].
  split_and!; [|unfold pool_busy; cbn; rewrite Eo; by destruct (b_pool b)|done|unfold batch_left; cbn; rewrite Es; lia].
  split; cbn; [done|done| |intros _; done]. destruct (b_pool b); split; [by intros []|by intros []|by intros []|by intros []|done|by eexists].
Qed.

Lemma take_first_spec bs bs' :
  take_first bs = Some bs' ->
  exists i b, bs !! i = Some b /\ is_queued b = true /\ (forall j x, (j < i)%nat -> bs !! j = Some x -> is_queued x = false) /\
    bs' = <[i := mkBatch (b_chs b) (b_wait b) Running (b_spawn b) (b_by b) (b_ended b)]> bs.
Proof.
  revert bs'. induction bs as [|b bs IH]; intros bs'; [done|]. cbn [take_first]. destruct (is_queued b) eqn:Hq.
  - intros [= <-]. exists 0%nat, b. split_and!; [done|done|lia|done].
  - destruct (take_first bs) as [bs1|]; [|done]. intros [= <-]. destruct (IH bs1 eq_refl) as (i & x & Hi & Hx & Hb & ->).
    exists (S i), x. split_and!; [done|done| |done]. intros [|j] y Hj Hy; [by injection Hy as <-|]. by apply (Hb j y); [lia|].
Qed.

Lemma take_ok handed c bs :
  cl_ok handed c -> existsb pool_busy (batches c) = false -> take_first (batches c) = Some bs ->
  cl_ok handed (mkCloser (bx c) bs) /\ (work_left (mkCloser (bx c) bs) < work_left c)%nat.
Proof.
  intros [Hb Hbs Hone Hf] Hidle Ht. apply take_first_spec in Ht as (i & b & Hi & Hq & Hbefore & ->).
  assert (Hno : forall j x, batches c !! j = Some x -> pool_busy x = false).
  { intros j x Hj. apply not_true_iff_false. intros Hx. apply not_true_iff_false in Hidle. apply Hidle, existsb_exists.
    exists x. split; [|done]. by apply list_elem_of_In, (list_elem_of_lookup_2 _ j). }
  pose proof (lookup_lt_Some _ _ _ Hi) as Hlt. set (b' := mkBatch _ _ Running _ _ _).
  assert (Hl : forall j x, <[i := b']> (batches c) !! j = Some x -> (j = i /\ x = b') \/ (j <> i /\ batches c !! j = Some x)).
  { intros j x Hj. destruct (decide (j = i)) as [->|Hne].
    - rewrite list_lookup_insert_eq in Hj by done. injection Hj as <-. by left.
    - rewrite list_lookup_insert_ne in Hj by done. by right. }
  assert (Hpool : b_pool b = Queued) by (unfold is_queued in Hq; by destruct (b_pool b)).
  split; [split; cbn; [done|..]|].
  - destruct (Forall2_lookup_r _ _ _ _ _ Hbs Hi) as (h & Hh & Hbk). rewrite <- (list_insert_id handed i h) by done.
    apply Forall2_insert; [done|]. destruct Hbk as [Hw Ho Hd Hu]. split; [done|done| |done].
    unfold b'. cbn. rewrite Hd, Hpool. split; by intros [].
  - intros j k x y [[-> ->]|[_ Hx]]%Hl [[-> ->]|[_ Hy]]%Hl Hbx Hby; [done|..].
    + by rewrite (Hno _ _ Hy) in Hby.
    + by rewrite (Hno _ _ Hx) in Hbx.
    + by eapply Hone.
  - intros j k x y Hjk [[-> ->]|[Hnj Hx]]%Hl [[-> ->]|[Hnk Hy]]%Hl; [done|done| |by apply (Hf j k)].
    intros Hqx. by rewrite (Hbefore j x) in Hqx.
  - apply (work_insert _ _ _ b); [done|]. unfold batch_left, b'. cbn. rewrite Hpool. lia.
Qed.

Lemma cl_step_ok `{Env} handed e c c' :
  cl_ok handed c -> cl_enabled e c -> cl_step e c = Some c' ->
  cl_ok (handed ++ handed_of [e]) c' /\ (closing e -> (work_left c' < work_left c)%nat).
Proof.
  intros Hok He Hs. pose proof Hok as [Hb Hbs Hone Hf].
  assert (Hone_batch : forall i b b' s' h, batches c !! i = Some b -> handed !! i = Some h -> bx_ok s' ->
    (forall p, waits p (bx c) -> waits p s') -> batch_ok s' h b' ->
    (pool_busy b' = true -> pool_busy b = true) -> is_queued b' = is_queued b -> (batch_left b' < batch_left b)%nat ->
    cl_ok (handed ++ []) (mkCloser s' (<[i := b']> (batches c))) /\
    (True -> (work_left (mkCloser s' (<[i := b']> (batches c))) < work_left c)%nat)).
  { intros i b b' s' h Hi Hh Hs' Hk Hb' Hbusy Hq Hlt. rewrite app_nil_r. split; [by eapply cl_ok_insert|]. intros _.
    by apply (work_insert _ _ _ b). }
  destruct e as [e|chs| |i|i|i a]; cbn [cl_step closing handed_of omap list_omap] in *.
  - injection Hs as <-. rewrite app_nil_r. split; [|done]. split; cbn; [by apply bx_step_ok| |done|done].
    eapply Forall2_impl; [exact Hbs|]. intros h b. apply batch_ok_bx. intros p. by apply bx_step_waits.
  - injection Hs as <-. split; [|done]. unfold delete_channels. split; cbn; [done|..].
    + apply Forall2_app; [done|]. constructor; [|constructor]. split; cbn; [done|by exists []| |done].
      split; [by intros []|by intros []].
    + intros i j b b' Hi Hj Bi Bj. apply lookup_app_Some in Hi as [Hi|[_ Hi]], Hj as [Hj|[_ Hj]]; [by eapply Hone|..].
      all: try (apply list_lookup_singleton_Some in Hj as [_ <-]; done). apply list_lookup_singleton_Some in Hi as [_ <-]. done.
    + intros i j b b' Hij Hi Hj Qi. apply lookup_app_Some in Hj as [Hj|[_ Hj]].
      * rewrite lookup_app_l in Hi; [by apply (Hf i j b)|]. apply lookup_lt_Some in Hj. lia.
      * by apply list_lookup_singleton_Some in Hj as [_ <-].
  - destruct (existsb pool_busy (batches c)) eqn:Hidle; [done|]. destruct (take_first (batches c)) as [bs|] eqn:Ht; [|done].
    injection Hs as <-. rewrite app_nil_r. destruct (take_ok handed c bs Hok Hidle Ht). by split.
  - unfold on_batch in Hs. destruct (batches c !! i) as [b|] eqn:Hi; [|done]. cbn in Hs. destruct (pool_drop b) as [b'|] eqn:Hd; [|done].
    injection Hs as <-. destruct (Forall2_lookup_r _ _ _ _ _ Hbs Hi) as (h & Hh & Hbk).
    destruct (pool_drop_ok _ _ _ _ Hbk Hd) as (? & ? & ? & ?). by eapply Hone_batch.
  - unfold on_batch in Hs. destruct (batches c !! i) as [b|] eqn:Hi; [|done]. cbn in Hs. destruct (spawn_drop b) as [b'|] eqn:Hd; [|done].
    injection Hs as <-. destruct (Forall2_lookup_r _ _ _ _ _ Hbs Hi) as (h & Hh & Hbk).
    destruct (spawn_drop_ok _ _ _ _ Hbk Hd) as (? & ? & ? & ?). by eapply Hone_batch.
  - destruct (batches c !! i) as [b|] eqn:Hi; [|done]. cbn in Hs. destruct (destroy_step a (bx c) b) as [[s' b']|] eqn:Hd; [|done].
    injection Hs as <-. destruct (Forall2_lookup_r _ _ _ _ _ Hbs Hi) as (h & Hh & Hbk).
    destruct (destroy_step_ok _ _ _ _ _ _ He Hb Hbk Hd) as (? & ? & ? & ? & ? & ?). by eapply Hone_batch.
Qed.

Lemma cl_reach_ok `{Env} es c : cl_reach es c -> cl_ok (handed_of es) c.
Proof.
  induction 1 as [|es c e c' _ IH He Hs]; [by split; [apply bx_start_ok|constructor|..]|].
  unfold handed_of in *. rewrite omap_app. by apply (cl_step_ok _ e c).
Qed.

(** Somebody can go on, or the transport owes an answer. *)
Lemma cl_progress `{Env} handed c i b :
  cl_ok handed c -> batches c !! i = Some b -> finished b = false ->
  (exists e, closing e /\ cl_enabled e c /\ is_Some (cl_step e c)) \/
  exists j b' ch p, batches c !! j = Some b' /\ b_wait b' = Some (ch, p) /\ CbClose p ∈ owed (bx c).
Proof.
  intros [Hb Hbs Hone Hf] Hi Hfin.
  assert (Hown : forall j x, batches c !! j = Some x -> is_Some (b_by x) -> finished x = false ->
    (exists e, closing e /\ cl_enabled e c /\ is_Some (cl_step e c)) \/
    exists j b' ch p, batches c !! j = Some b' /\ b_wait b' = Some (ch, p) /\ CbClose p ∈ owed (bx c)).
  { intros j x Hj [o Ho] Hx. destruct (Forall2_lookup_r _ _ _ _ _ Hbs Hj) as (h & _ & [Hw _ _ _]).
    unfold finished in Hx. destruct (b_wait x) as [[ch p]|] eqn:Ew.
    - destruct (Hw ch p eq_refl) as [_ [[_ Hin]|[st Hst]]]; [right; eauto 10|]. left. exists (ClStep j Accepted).
      split_and!; [done|done|]. cbn. rewrite Hj. cbn. unfold destroy_step. rewrite Ho, Ew, Hst. by eexists.
    - left. exists (ClStep j Accepted). split_and!; [done|done|]. cbn. rewrite Hj. cbn. unfold destroy_step. rewrite Ho, Ew.
      destruct (b_chs x) as [|[ch|] rest]; [done| |by eexists].
      destruct (CloseChannel Accepted (bx c)) as [[]]; by eexists. }
  destruct (Forall2_lookup_r _ _ _ _ _ Hbs Hi) as (h & _ & [_ _ Hd _]).
  destruct (b_spawn b) eqn:Es.
  { left. exists (ClSpawnDrop i). split_and!; [done|done|]. cbn. unfold on_batch. rewrite Hi. cbn. unfold spawn_drop. rewrite Es. by eexists. }
  destruct (b_pool b) eqn:Ep; [|left|].
  - destruct (existsb pool_busy (batches c)) eqn:Hidle.
    + apply existsb_exists in Hidle as (x & [j Hj]%list_elem_of_In%list_elem_of_lookup & Hx). unfold pool_busy in Hx.
      destruct (b_pool x) eqn:Epx.
      * destruct (b_by x) as [[]|] eqn:Eo; [|done..]. eapply Hown; [exact Hj|by eexists|]. by apply negb_true_iff.
      * left. exists (ClPoolDrop j). split_and!; [done|done|]. cbn. unfold on_batch. rewrite Hj. cbn. unfold pool_drop. rewrite Epx. by eexists.
      * destruct (b_by x) as [[]|] eqn:Eo; [|done..]. eapply Hown; [exact Hj|by eexists|]. by apply negb_true_iff.
    + left. exists ClTake. split_and!; [done|done|]. cbn. rewrite Hidle.
      assert (Hq : is_queued b = true) by (unfold is_queued; by rewrite Ep).
      assert (is_Some (take_first (batches c))) as [bs ->]; [|by eexists]. clear -Hi Hq. revert i Hi.
      induction (batches c) as [|y bs IH]; intros [|i] Hi; [done|done|..]; cbn in *.
      * injection Hi as ->. by rewrite Hq.
      * destruct (is_queued y); [by eexists|]. destruct (IH i Hi) as [bs' ->]. by eexists.
  - exists (ClPoolDrop i). split_and!; [done|done|]. cbn. unfold on_batch. rewrite Hi. cbn. unfold pool_drop. rewrite Ep. by eexists.
  - eapply Hown; [exact Hi|by apply Hd|done].
Qed.


(** If the transport throws, the channel is neither destroyed nor deleted. *)
Lemma thrown_close_leaks s b o ch rest :
  b_by b = Some o -> b_wait b = None -> b_chs b = Some ch :: rest ->
  exists s', destroy_step Thrown s b = Some (s', mkBatch rest None (b_pool b) (b_spawn b) (Some o) (b_ended b)).
Proof. intros Ho Hw Hc. unfold destroy_step. rewrite Ho, Hw, Hc. by eexists. Qed.

(** ** Examples *)
Definition cl_run `{Env} (es : list cl_event) (c : Closer) : option Closer :=
  foldl (fun o e => c ← o; cl_step e c) (Some c) es.

(** The pool is done with the task before [spawn] returns: its caller destroys the channels,
    and waits for the transport to do so; a task handed over later is finished first. *)
Definition spawner_schedule : list cl_event :=
  [ClDelete [Some 31]; ClTake; ClPoolDrop 0; ClSpawnDrop 0; ClStep 0 Accepted;
   ClDelete [Some 32]; ClSpawnDrop 1; ClTake; ClPoolDrop 1; ClStep 1 Rejected; ClStep 1 Accepted].

Example caller_may_destroy_out_of_order :
  exists c b0 b1, @cl_run release_env spawner_schedule (mkCloser bx_start []) = Some c /\ batches c = [b0; b1] /\
    b_by b0 = Some BySpawner /\ unfinished b0 = [31] /\ b_by b1 = Some ByPool /\ finished b1 = true.
Proof. do 3 eexists. split; [vm_compute; reflexivity|]. split_and!; reflexivity. Qed.

(** Two channels are handed over with one that was moved from; the first is closed. *)
Definition sample_closing : list cl_event :=
  [ClDelete [Some 31; None; Some 32]; ClSpawnDrop 0; ClTake; ClPoolDrop 0; ClStep 0 Accepted;
   ClBx (EDeliver 0 StOk 0 false); ClStep 0 Accepted].

