(* ===== verification/Teardown.v ===== *)
(** Giving registered memory back and taking a protocol context down: [BarexMRGuard] and the
    destructors of [BarexCtx] and [CliBarexCtx] ([src/barex_protocol.cpp],
    [include/protocol/barex_protocol.h]). *)

From S2P Require Import Prelude.
From S2P Require Import Common.

(** ** [BarexMRGuard]

    [mp_] is null in a guard that was moved from. *)
Record BarexMRGuard := mkMRGuard { mr_ : Z; mp_ : bool; release_ : bool; dereg_ : bool }.

Definition RelDeregGuard (mr : Z) : BarexMRGuard := mkMRGuard mr true true true.
Definition DeregGuard (mr : Z) : BarexMRGuard := mkMRGuard mr true false true.
Definition ReleaseGuard (mr : Z) : BarexMRGuard := mkMRGuard mr true true false.

(** The move constructor: the new guard, and what is left of the old one. *)
Definition move_guard (g : BarexMRGuard) : BarexMRGuard * BarexMRGuard :=
  (g, mkMRGuard (mr_ g) false (release_ g) (dereg_ g)).

Inductive PoolCall := ReleaseAndDeregBuffer (mr : Z) | DeregUserMr (mr : Z) | ReleaseBufferOf (mr : Z).

(** [~BarexMRGuard]: [ok] is the pool's answer. *)
Definition destroy_guard (ok : bool) (g : BarexMRGuard) : res (list PoolCall) :=
  if negb (mp_ g) then Ok [] else
  let* call :=
    if release_ g && dereg_ g then Ok (ReleaseAndDeregBuffer (mr_ g))
    else if negb (release_ g) && dereg_ g then Ok (DeregUserMr (mr_ g))
    else if release_ g && negb (dereg_ g) then Ok (ReleaseBufferOf (mr_ g))
    else Err AssertFailed in
  let* _ := rtassert ok in
  Ok [call].

(** ** Guards that are moved around

    Vectors move their guards when they grow or are moved themselves.  The cells in which guards
    live; [None]: the guard was destroyed. *)
Inductive guard_op := GMove (i : nat) | GDestroy (i : nat).

Definition guard_step (o : guard_op) (st : list (option BarexMRGuard) * list PoolCall)
    : res (list (option BarexMRGuard) * list PoolCall) :=
  let '(cells, calls) := st in
  match o with
  | GMove i =>
      match cells !! i with
      | Some (Some g) => let '(g', old) := move_guard g in Ok (<[i := Some old]> cells ++ [Some g'], calls)
      | _ => Ok st
      end
  | GDestroy i =>
      match cells !! i with
      | Some (Some g) => let* cs := destroy_guard true g in Ok (<[i := None]> cells, calls ++ cs)
      | _ => Ok st
      end
  end.

(** The call a guard owes, and the guards that are made. *)
Definition owed_call (g : BarexMRGuard) : list PoolCall :=
  match destroy_guard true g with Ok cs => cs | Err _ => [] end.
Definition owed_calls (cells : list (option BarexMRGuard)) : list PoolCall :=
  cells ≫= (fun c => match c with Some g => owed_call g | None => [] end).
Definition good_guard (g : BarexMRGuard) : bool := release_ g || dereg_ g.

Lemma destroy_good g : good_guard g = true -> destroy_guard true g = Ok (owed_call g).
Proof. destruct g as [mr [] [] []]; by intros. Qed.

Lemma owed_set cells i c c' :
  cells !! i = Some c -> owed_calls (<[i := c']> cells) ++ owed_calls [c] ≡ₚ (owed_calls [c'] ++ owed_calls cells).
Proof.
  intros Hi. assert (Hlt : (i < length cells)%nat) by (by eapply lookup_lt_Some).
  rewrite insert_take_drop by done. rewrite <- (take_drop_middle cells i c Hi) at 3. unfold owed_calls.
  rewrite !bind_app. cbn. rewrite !app_nil_r. solve_Permutation.
Qed.

Lemma guard_step_ok all o cells calls :
  Forall (fun c => match c with Some g => good_guard g = true | None => True end) cells ->
  owed_calls cells ++ calls ≡ₚ all ->
  exists cells' calls', guard_step o (cells, calls) = Ok (cells', calls') /\
    Forall (fun c => match c with Some g => good_guard g = true | None => True end) cells' /\
    owed_calls cells' ++ calls' ≡ₚ all.
Proof.
  intros Hg Hall. destruct o as [i|i]; cbn [guard_step]; (destruct (cells !! i) as [[g|]|] eqn:Hi; [|by exists cells, calls..]).
  - pose proof (Forall_lookup_1 _ _ _ _ Hg Hi) as Hgood. cbn [move_guard]. eexists _, _. split; [done|]. split.
    + apply Forall_app. split; [by apply Forall_insert|by constructor].
    + rewrite <- Hall. unfold owed_calls at 1. rewrite bind_app. fold (owed_calls (<[i := Some (mkMRGuard (mr_ g) false (release_ g) (dereg_ g))]> cells)).
      pose proof (owed_set cells i _ (Some (mkMRGuard (mr_ g) false (release_ g) (dereg_ g))) Hi) as Hp. cbn in Hp. rewrite app_nil_r in Hp.
      cbn. rewrite app_nil_r. by rewrite Hp.
  - pose proof (Forall_lookup_1 _ _ _ _ Hg Hi) as Hgood. cbn in Hgood. rewrite destroy_good by done. cbn. eexists _, _. split; [done|]. split.
    + by apply Forall_insert.
    + rewrite <- Hall. pose proof (owed_set cells i _ None Hi) as Hp. cbn in Hp. rewrite app_nil_r in Hp. rewrite <- Hp.
      rewrite <- app_assoc. by rewrite (Permutation_app_comm calls).
Qed.

(** However guards are moved and destroyed, each region is given back at most once, and once all
    guards are gone exactly once, with the call its guard was made for. *)
Lemma regions_given_back_once gs ops :
  Forall (fun g => good_guard g = true) gs ->
  exists cells calls, forM ops guard_step (Some <$> gs, []) = Ok (cells, calls) /\
    owed_calls cells ++ calls ≡ₚ (gs ≫= owed_call) /\
    (Forall (fun c => c = None) cells -> calls ≡ₚ (gs ≫= owed_call)).
Proof.
  intros Hgs.
  assert (exists cells calls, forM ops guard_step (Some <$> gs, []) = Ok (cells, calls) /\ owed_calls cells ++ calls ≡ₚ (gs ≫= owed_call))
    as (cells & calls & Hr & Hp).
  { set (P := fun c => match c with Some g => good_guard g = true | None => True end).
    assert (Hgen : forall cells calls, Forall P cells -> owed_calls cells ++ calls ≡ₚ (gs ≫= owed_call) ->
      exists cells' calls', forM ops guard_step (cells, calls) = Ok (cells', calls') /\ owed_calls cells' ++ calls' ≡ₚ (gs ≫= owed_call)).
    { induction ops as [|o ops IH]; intros cells calls Hc Hp; cbn [forM]; [eauto|].
      destruct (guard_step_ok _ o cells calls Hc Hp) as (cells1 & calls1 & -> & Hc1 & Hp1). by apply IH. }
    apply Hgen; [by apply Forall_fmap|]. rewrite app_nil_r. clear. unfold owed_calls. induction gs as [|g gs IH]; [done|]. cbn. by rewrite IH. }
  exists cells, calls. split_and!; [done|done|]. intros Hn. rewrite <- Hp. replace (owed_calls cells) with (@nil PoolCall); [done|].
  clear - Hn. induction Hn as [|c cells -> _ IH]; [done|]. cbn. exact IH.
Qed.

(** ** Taking a context down *)
Inductive Part := XConnectorPart | XContextPart | XThreadpoolPart | XListenerPart | XMempoolPart.

#[export] Instance Part_eq_dec : EqDecision Part.
Proof. solve_decision. Defined.

Inductive TdEv :=
| Shutdown (p : Part) | WaitStop (p : Part) | DeletePart (p : Part)
| JoinCloseTp | DropRpcTable | UnmapGdr (n : nat) | GiveBack (n : nat).

#[export] Instance TdEv_eq_dec : EqDecision TdEv.
Proof. solve_decision. Defined.

(** The deleters of the parts. *)
Definition part_deleter (p : Part) : list TdEv := [Shutdown p; WaitStop p; DeletePart p].

(** [~BarexCtx]: its body, then the members from the last to the first; [xctx_] has the default
    deleter. *)
Definition destroy_BarexCtx (gdrs mrs : nat) : list TdEv :=
  [Shutdown XContextPart; WaitStop XContextPart]
  ++ (UnmapGdr <$> seq 0 gdrs) ++ (GiveBack <$> seq 0 mrs)
  ++ [DeletePart XContextPart] ++ part_deleter XThreadpoolPart.

(** [~CliBarexCtx]: its own members first, from the last to the first, then the base class. *)
Definition destroy_CliBarexCtx (gdrs mrs : nat) : list TdEv :=
  [JoinCloseTp] ++ part_deleter XConnectorPart ++ [DropRpcTable] ++ destroy_BarexCtx gdrs mrs.

(** A message reaches the callback of the context as long as the context runs; the callback looks
    up the table of calls. *)
Definition message_during (done : list TdEv) : res unit :=
  if bool_decide (WaitStop XContextPart ∈ done) then Ok tt
  else if bool_decide (DropRpcTable ∈ done) then Err Undefined else Ok tt.

(** [x] happens before [y]. *)
Definition before (x y : TdEv) (l : list TdEv) : Prop := exists l1 l2, l = l1 ++ l2 /\ x ∈ l1 /\ y ∈ l2 /\ (y ∉ l1).

(** Channels are closed before their connector goes, the network stops before memory is unmapped
    and given back, and memory is given back before the context is deleted. *)
Lemma teardown_order gdrs mrs i :
  (i < mrs)%nat ->
  before JoinCloseTp (Shutdown XConnectorPart) (destroy_CliBarexCtx gdrs mrs) /\
  before (WaitStop XContextPart) (GiveBack i) (destroy_CliBarexCtx gdrs mrs) /\
  before (GiveBack i) (DeletePart XContextPart) (destroy_CliBarexCtx gdrs mrs).
Proof.
  intros Hi. assert (Hm : GiveBack i ∈ GiveBack <$> seq 0 mrs) by (apply list_elem_of_fmap_2; apply elem_of_seq; lia).
  assert (Hu : forall y, (forall n, y <> UnmapGdr n) -> y ∉ UnmapGdr <$> seq 0 gdrs).
  { intros y Hy (n & -> & _)%list_elem_of_fmap. by apply (Hy n). }
  assert (Hg : forall y, (forall n, y <> GiveBack n) -> y ∉ GiveBack <$> seq 0 mrs).
  { intros y Hy (n & -> & _)%list_elem_of_fmap. by apply (Hy n). }
  split_and!.
  - exists [JoinCloseTp], (part_deleter XConnectorPart ++ [DropRpcTable] ++ destroy_BarexCtx gdrs mrs). split_and!; [done|set_solver..].
  - exists ([JoinCloseTp] ++ part_deleter XConnectorPart ++ [DropRpcTable; Shutdown XContextPart; WaitStop XContextPart]),
      ((UnmapGdr <$> seq 0 gdrs) ++ (GiveBack <$> seq 0 mrs) ++ [DeletePart XContextPart] ++ part_deleter XThreadpoolPart).
    split_and!; [done|set_solver|set_solver|]. cbn. set_solver.
  - exists (([JoinCloseTp] ++ part_deleter XConnectorPart ++ [DropRpcTable; Shutdown XContextPart; WaitStop XContextPart])
      ++ (UnmapGdr <$> seq 0 gdrs) ++ (GiveBack <$> seq 0 mrs)), ([DeletePart XContextPart] ++ part_deleter XThreadpoolPart).
    specialize (Hu (DeletePart XContextPart) ltac:(done)). specialize (Hg (DeletePart XContextPart) ltac:(done)).
    split_and!; [unfold destroy_CliBarexCtx, destroy_BarexCtx; rewrite <- !app_assoc; done|set_solver|set_solver|]. cbn. set_solver.
Qed.

(** The table of calls is gone before the context that delivers messages is stopped: a message
    in between looks up a table that was destroyed. *)
Lemma late_message_uses_dead_table gdrs mrs :
  exists done rest, destroy_CliBarexCtx gdrs mrs = done ++ rest /\ message_during done = Err Undefined.
Proof.
  exists ([JoinCloseTp] ++ part_deleter XConnectorPart ++ [DropRpcTable]), (destroy_BarexCtx gdrs mrs). split; [done|reflexivity].
Qed.
