(* ===== verification/Stats.v ===== *)
(** Time stamps and the statistics of a flush: [include/utils/timer.h], [src/timer.cpp], and the
    loops of [TCPChannel::flush], [RDMAStagedChannel::flush] and [RDMAChannel::flush] that collect
    how long the parts of each layer took.

    Time points are nanoseconds, as the clocks of the standard library count them; the texts made
    of the numbers are not modelled. *)

From S2P Require Import Prelude.
From S2P Require Import Common.

(** ** [timer.h] *)

(** [duration_cast<microseconds>] rounds toward zero. *)
Definition ielapse_us (start end_ : Z) : Z := Z.quot (end_ - start) 1000.

Section Timer.
Context `{Env}.

Definition elapse_us (start end_ : Z) : res Z :=
  if end_ <=? start then Ok 0 else
  let ret := ielapse_us start end_ in
  assert: (0 <=? ret);
  Ok (u64 ret).

Definition elapse_us_system (start end_ : Z) : res Z :=
  if end_ <=? start then Ok 0 else
  let ret := Z.quot (end_ - start) 1000 in
  assert: (0 <=? ret);
  Ok (u64 ret).
End Timer.

Definition elapse_ns (start end_ : Z) : Z := if end_ <=? start then 0 else u64 (end_ - start).

Definition time_point_to_microseconds (tp : Z) : Z := u64 (Z.quot tp 1000).

(** [static_cast<int64_t>]. *)
Definition to_i64 (z : Z) : Z := if z <? 2 ^ 63 then z else z - W64.
Definition microseconds_to_time_point (us_timestamp : Z) : Z := to_i64 us_timestamp * 1000.

(** [TimeWatch]: [now] is what the clock says. *)
Record TimeWatch := mkTimeWatch { start_ts : Z }.
Definition get_elapse_ms (now : Z) (w : TimeWatch) : Z := u64 (Z.quot (now - start_ts w) 1000000).
Definition get_elapse_us `{Env} (now : Z) (w : TimeWatch) : res Z := elapse_us (start_ts w) now.
Definition get_elapse_ns (now : Z) (w : TimeWatch) : Z := elapse_ns (start_ts w) now.

(** ** Statistics of a flush *)
Record StagedTimePoints := mkTimePoints {
  send_data_start_ts_ : Z;
  d2h_start_ts_ : Z;
  d2h_end_ts_ : Z;
  h2d_start_ts : Z;
  h2d_end_ts : Z;
  recv_start_ : Z;         (* microseconds, the receiver's clock *)
  recv_time_ : Z;
  onrecv_queue_us_ : Z;
}.

(** The smallest, the largest and the sum of a series. *)
Record Stat := mkStat { s_min : Z; s_max : Z; s_total : Z }.
Definition no_stat : Stat := mkStat SIZE_MAX 0 0.
Definition add_sample (x : Z) (s : Stat) : Stat :=
  mkStat (Z.min (s_min s) x) (Z.max (s_max s) x) (u64 (s_total s + x)).

Record Stats := mkStats {
  st_send : Stat; st_d2h : Stat; st_h2d : Stat; st_trans : Stat; st_link_tx : Stat; st_recv : Stat; st_onrecv_queue : Stat;
}.
Definition no_stats : Stats := mkStats no_stat no_stat no_stat no_stat no_stat no_stat no_stat.

Section Flush.
Context `{Env}.

(** One round of the loop of [TCPChannel::flush] and [RDMAStagedChannel::flush]. *)
Definition add_time_points (t : StagedTimePoints) (s : Stats) : res Stats :=
  let* send_us := elapse_us_system (send_data_start_ts_ t) (h2d_end_ts t) in
  let* d2h_us := elapse_us_system (d2h_start_ts_ t) (d2h_end_ts_ t) in
  let* h2d_us := elapse_us_system (h2d_start_ts t) (h2d_end_ts t) in
  let* trans_us := elapse_us_system (d2h_end_ts_ t) (h2d_start_ts t) in
  let link_tx_us := u64 (recv_start_ t - time_point_to_microseconds (d2h_end_ts_ t)) in
  Ok (mkStats (add_sample send_us (st_send s)) (add_sample d2h_us (st_d2h s)) (add_sample h2d_us (st_h2d s))
    (add_sample trans_us (st_trans s)) (add_sample link_tx_us (st_link_tx s)) (add_sample (recv_time_ t) (st_recv s))
    (add_sample (onrecv_queue_us_ t) (st_onrecv_queue s))).

Definition flush_stats (ts : list StagedTimePoints) : res Stats := forM ts add_time_points no_stats.

(** The loop of [RDMAChannel::flush]: the futures give the time of each write. *)
Definition write_stats (send_us : list (res Z)) : res Stat :=
  forM send_us (fun r s => let* us := r in Ok (add_sample us s)) no_stat.
End Flush.

(** ** A series *)
Definition series (xs : list Z) : Stat := foldl (fun s x => add_sample x s) no_stat xs.

Lemma series_snoc xs x : series (xs ++ [x]) = add_sample x (series xs).
Proof. unfold series. by rewrite foldl_app. Qed.

Definition zsum (xs : list Z) : Z := foldr Z.add 0 xs.

Lemma zsum_app xs ys : zsum (xs ++ ys) = zsum xs + zsum ys.
Proof. unfold zsum. induction xs as [|x xs IH]; cbn [foldr app]; lia. Qed.

Lemma zsum_nonneg xs : Forall (fun x => 0 <= x) xs -> 0 <= zsum xs.
Proof. unfold zsum. induction 1; cbn [foldr]; lia. Qed.

(** What the three numbers mean. *)
Lemma series_spec xs :
  xs <> [] -> Forall (fun x => 0 <= x <= SIZE_MAX) xs -> zsum xs < W64 ->
  s_min (series xs) ∈ xs /\ s_max (series xs) ∈ xs /\ s_total (series xs) = zsum xs /\
  Forall (fun x => s_min (series xs) <= x <= s_max (series xs)) xs.
Proof.
  induction xs as [|x xs IH] using rev_ind; [done|]. intros _ [Hxs Hx]%Forall_app Hsum. rewrite zsum_app in Hsum. cbn [zsum foldr] in Hsum.
  rewrite Forall_singleton in Hx. assert (Hn : 0 <= zsum xs) by (apply zsum_nonneg; eapply Forall_impl; [exact Hxs|]; cbn; lia).
  rewrite series_snoc, zsum_app. cbn [add_sample s_min s_max s_total zsum foldr]. destruct (decide (xs = [])) as [->|Hne].
  - cbn [series foldl no_stat s_min s_max s_total zsum foldr] in *. rewrite Z.min_r, Z.max_r, u64_small by (unfold SIZE_MAX in *; lia). split_and!; [set_solver|set_solver|lia|]. constructor; [lia|done].
  - destruct IH as (H1 & H2 & H3 & H4); [done|done|lia|]. rewrite H3, u64_small by lia.
    split_and!; [destruct (Z.min_spec (s_min (series xs)) x) as [[_ ->]|[_ ->]]; set_solver
      |destruct (Z.max_spec (s_max (series xs)) x) as [[_ ->]|[_ ->]]; set_solver|lia|].
    apply Forall_app. split; [|constructor; [lia|done]]. eapply Forall_impl; [exact H4|]. cbn. lia.
Qed.

(** ** A flush *)
Definition us_between (a b : Z) : Z := if b <=? a then 0 else u64 (Z.quot (b - a) 1000).

Lemma elapse_us_system_eq `{Env} a b : elapse_us_system a b = Ok (us_between a b).
Proof.
  unfold elapse_us_system, us_between. destruct (Z.leb_spec b a); [done|]. rewrite cassert_true; [done|].
  apply Z.leb_le, Z.quot_pos; lia.
Qed.

Definition link_tx (t : StagedTimePoints) : Z := u64 (recv_start_ t - time_point_to_microseconds (d2h_end_ts_ t)).

(** The loop never fails, and each of its numbers is the series of one interval. *)
Lemma flush_stats_series `{Env} ts :
  flush_stats ts = Ok (mkStats
    (series ((fun t => us_between (send_data_start_ts_ t) (h2d_end_ts t)) <$> ts))
    (series ((fun t => us_between (d2h_start_ts_ t) (d2h_end_ts_ t)) <$> ts))
    (series ((fun t => us_between (h2d_start_ts t) (h2d_end_ts t)) <$> ts))
    (series ((fun t => us_between (d2h_end_ts_ t) (h2d_start_ts t)) <$> ts))
    (series (link_tx <$> ts)) (series (recv_time_ <$> ts)) (series (onrecv_queue_us_ <$> ts))).
Proof.
  unfold flush_stats. induction ts as [|t ts IH] using rev_ind; [done|].
  rewrite forM_app, IH, !fmap_app. cbn [rbind forM fmap list_fmap]. unfold add_time_points.
  rewrite !elapse_us_system_eq. cbn [rbind]. by rewrite !series_snoc.
Qed.

(** With clocks that agree, the parts of a layer's time do not exceed the whole. *)
Lemma parts_within_whole t :
  send_data_start_ts_ t <= d2h_start_ts_ t <= d2h_end_ts_ t -> d2h_end_ts_ t <= h2d_start_ts t <= h2d_end_ts t ->
  h2d_end_ts t - send_data_start_ts_ t < 2 ^ 63 ->
  us_between (d2h_start_ts_ t) (d2h_end_ts_ t) + us_between (d2h_end_ts_ t) (h2d_start_ts t) + us_between (h2d_start_ts t) (h2d_end_ts t)
    <= us_between (send_data_start_ts_ t) (h2d_end_ts t).
Proof.
  intros H1 H2 H3.
  assert (Hq : forall a b, send_data_start_ts_ t <= a <= b -> b <= h2d_end_ts t -> us_between a b = (b - a) / 1000).
  { intros a b Ha Hb. unfold us_between. pose proof (Z.div_pos (b - a) 1000). destruct (Z.leb_spec b a).
    - replace (b - a) with 0 by lia. done.
    - rewrite Z.quot_div_nonneg by lia. apply u64_small. assert ((b - a) / 1000 <= b - a) by (apply Z.div_le_upper_bound; lia).
      unfold W64. lia. }
  rewrite !Hq by lia. apply Z.div_le_lower_bound; [lia|].
  pose proof (Z.mul_div_le (d2h_end_ts_ t - d2h_start_ts_ t) 1000). pose proof (Z.mul_div_le (h2d_start_ts t - d2h_end_ts_ t) 1000).
  pose proof (Z.mul_div_le (h2d_end_ts t - h2d_start_ts t) 1000). lia.
Qed.

(** A receiver whose clock is one microsecond behind makes the time on the link wrap around,
    although the other intervals are cut off at zero. *)
Example late_clock_wraps_link_time :
  link_tx (mkTimePoints 1000 2000 5000 4000 6000 4 1 1) = SIZE_MAX /\ us_between 5000 4000 = 0.
Proof. by vm_compute. Qed.

(** Microseconds survive the way through a time point. *)
Lemma microseconds_roundtrip us :
  0 <= us < 2 ^ 63 -> time_point_to_microseconds (microseconds_to_time_point us) = us.
Proof.
  intros Hus. unfold time_point_to_microseconds, microseconds_to_time_point, to_i64.
  rewrite (proj2 (Z.ltb_lt _ _)) by lia. rewrite Z.quot_mul by lia. apply u64_small. unfold W64. lia.
Qed.
