(* ===== verification/Monitor.v ===== *)
(** The monitor ([src/monitor.cpp]): a thread that switches the heap profiler of jemalloc on and
    off and writes its dumps, at the command of whoever connects.  jemalloc's [mallctl] is found
    at run time and is third-party: its answers are arguments. *)

From Stdlib Require Import Ascii.
From S2P Require Import Prelude.
From S2P Require Import Common.
From S2P Require Import CppString.

(** [mallctl]: the error codes of switching and of dumping to a file, by the number of calls so
    far. *)
Record Mallctl := mkMallctl {
  set_active_err : nat -> Z;
  dump_err : nat -> string -> Z;
}.

(** [p_mallctl], whether the profiler is on, and how often [mallctl] was called. *)
Record Monitor := mkMonitor { p_mallctl : option Mallctl; prof_on : bool; calls : nat }.

Definition PROF_ACTIVE : string := "prof active".
Definition PROF_DEACTIVE : string := "prof deactive".
Definition PROF_DUMP : string := "prof dump ".

(** The old value, or an error code. *)
Definition set_prof_active (newval : bool) (m : Monitor) : Z * Monitor :=
  match p_mallctl m with
  | None => (-33, m)
  | Some ctl =>
      let jeret := set_active_err ctl (calls m) in
      if negb (jeret =? 0) then (-34, mkMonitor (Some ctl) (prof_on m) (S (calls m)))
      else (Z.b2z (prof_on m), mkMonitor (Some ctl) newval (S (calls m)))
  end.

(** [isspace] of the C locale. *)
Definition isspace (c : ascii) : bool := existsb (Ascii.eqb c) [" "; "009"; "010"; "011"; "012"; "013"]%char.

(** The characters up to the first blank or zero byte. *)
Fixpoint getfilepath (cmd : string) : string :=
  match cmd with
  | "" => ""
  | String c rest => if Ascii.eqb c "000" || isspace c then "" else String c (getfilepath rest)
  end.

Inductive Reply := Prev (v : Z) | EmptyFilepath | DumpError | DumpOk.

(** [strncmp(cmd, s, sizeof(s) - 1) == 0]. *)
Definition starts (s cmd : string) : bool := String.prefix s cmd.

(** [conn_cmd]: what is written to the connection. *)
Definition conn_cmd (cmd : string) (m : Monitor) : res (list Reply * Monitor) :=
  if starts PROF_ACTIVE cmd then let '(v, m) := set_prof_active true m in Ok ([Prev v], m)
  else if starts PROF_DEACTIVE cmd then let '(v, m) := set_prof_active false m in Ok ([Prev v], m)
  else if starts PROF_DUMP cmd then
    let filepath := getfilepath (String.substring (String.length PROF_DUMP) (String.length cmd - String.length PROF_DUMP) cmd) in
    if bool_decide (filepath = "") then Ok ([EmptyFilepath], m) else
    match p_mallctl m with
    | None => Err Undefined
    | Some ctl =>
        let m' := mkMonitor (Some ctl) (prof_on m) (S (calls m)) in
        if negb (dump_err ctl (calls m) filepath =? 0) then Ok ([DumpError], m') else Ok ([DumpOk], m')
    end
  else Ok ([], m).

(** [conn_main]: [reads] is what each [read] gives, at most 1023 bytes; an empty one ends the
    connection. *)
Fixpoint conn_main (reads : list string) (m : Monitor) : res (list Reply * Monitor) :=
  match reads with
  | [] | "" :: _ => Ok ([], m)
  | cmd :: reads =>
      let* '(out, m) := conn_cmd cmd m in
      let* '(outs, m) := conn_main reads m in
      Ok (out ++ outs, m)
  end.

(** The accept loop of [do_thdmain] over the connections that come. *)
Fixpoint accept_loop (conns : list (list string)) (m : Monitor) : res (list (list Reply) * Monitor) :=
  match conns with
  | [] => Ok ([], m)
  | c :: conns =>
      let* '(out, m) := conn_main c m in
      let* '(outs, m) := accept_loop conns m in
      Ok (out :: outs, m)
  end.

(** [do_init]: [found] is what [dlsym] gives; the result says whether the thread was started. *)
Definition monitor_do_init (found : option Mallctl) (heap_prof : bool) (m : Monitor) : bool * Monitor :=
  match found with
  | None => (false, mkMonitor None (prof_on m) (calls m))
  | Some ctl =>
      let m := mkMonitor (Some ctl) (prof_on m) (calls m) in
      (true, if heap_prof then (set_prof_active true m).2 else m)
  end.

(** ** Properties *)

(** The value a command asks for. *)
Definition asked (cmd : string) : option bool :=
  if starts PROF_ACTIVE cmd then Some true else if starts PROF_DEACTIVE cmd then Some false else None.

(** The last value asked for among the commands of a connection that are read. *)
Fixpoint last_asked (reads : list string) (b : bool) : bool :=
  match reads with
  | [] | "" :: _ => b
  | cmd :: reads => last_asked reads (default b (asked cmd))
  end.

Lemma conn_cmd_ok cmd m ctl :
  p_mallctl m = Some ctl -> (forall n, set_active_err ctl n = 0) ->
  exists out n, conn_cmd cmd m = Ok (out, mkMonitor (Some ctl) (default (prof_on m) (asked cmd)) n) /\ (length out <= 1)%nat.
Proof.
  intros Hm Hok. unfold conn_cmd, asked, set_prof_active. rewrite Hm, Hok. cbn. destruct (starts PROF_ACTIVE cmd); [cbn; eauto|].
  destruct (starts PROF_DEACTIVE cmd); [cbn; eauto|]. destruct m as [p on n]. cbn in *. subst. destruct (starts PROF_DUMP cmd); [|cbn; eauto].
  destruct (bool_decide _); [cbn; eauto|]. destruct (negb _); cbn; eauto.
Qed.

(** A connection is served to its end, and the profiler is left as the last command asked. *)
Lemma conn_main_ok reads m ctl :
  p_mallctl m = Some ctl -> (forall n, set_active_err ctl n = 0) ->
  exists out n, conn_main reads m = Ok (out, mkMonitor (Some ctl) (last_asked reads (prof_on m)) n) /\ (length out <= length reads)%nat.
Proof.
  intros Hm Hok. revert m Hm. induction reads as [|cmd reads IH]; intros m Hm; [destruct m; cbn in *; subst; by eexists [], _|].
  destruct (decide (cmd = "")) as [->|Hne]; [destruct m; cbn in *; subst; eexists [], _; split; [done|cbn; lia]|].
  destruct (conn_cmd_ok cmd m ctl Hm Hok) as (out & n & Hc & Hl).
  destruct (IH (mkMonitor (Some ctl) (default (prof_on m) (asked cmd)) n) eq_refl) as (outs & n' & Hr & Hl').
  exists (out ++ outs), n'. destruct cmd as [|c cmd]; [done|]. cbn [conn_main last_asked]. rewrite Hc. cbn [rbind]. rewrite Hr. cbn.
  split; [done|]. rewrite length_app. lia.
Qed.

(** The file of a dump has no blank in its name. *)
Lemma getfilepath_plain cmd c : c ∈ String.list_ascii_of_string (getfilepath cmd) -> isspace c = false.
Proof.
  induction cmd as [|a cmd IH]; cbn [getfilepath]; [by intros ?%elem_of_nil|].
  destruct (Ascii.eqb a "000" || isspace a) eqn:E; [by intros ?%elem_of_nil|]. apply orb_false_iff in E as [_ E].
  cbn [String.list_ascii_of_string]. intros [->|Hc]%elem_of_cons; [done|by apply IH].
Qed.

(** Two commands that arrive in one piece: the second is lost. *)
Example joined_command_is_lost :
  (let* '(out, m) := conn_main ["prof active prof dump /tmp/heap"] (mkMonitor (Some (mkMallctl (fun _ => 0) (fun _ _ => 0))) false 0) in Ok out)
    = Ok [Prev 0].
Proof. reflexivity. Qed.
