(* ===== verification/TxStub.v ===== *)
(** The sending side of one destination worker, [src/tx_stub.cpp]: which ranks take part,
    which parse function is used, and what one batch does to the channel and to the
    request states. *)

From stdpp Require Import gmap.
From S2P Require Import Prelude Common ParseCommon ParseRagged ParseFlash ParseDpsk.
From S2P Require Import ParseFlashInfer ParseQwen3Next ParseQwen3NextFlashInfer ParseKda.
From S2P Require Import ParseKimiK3.
From S2P Require Import WorkerCodec.

Section Ranks.
Context `{Env}.

(** [for (i = 0; i < n; ++i) result.set(f(i));] *)
Definition set_ranks (n : Z) (f : Z -> Z) (result : bitset) : res bitset :=
  for_range 0 n (fun i r => bit_set r (f i)) result.

Definition compute_valid_ranks_pd (p_tp d_tp num_kv_heads : Z) : res bitset :=
  if p_tp <? d_tp then
    assertM: divides_b p_tp d_tp;
    let* _ :=
      if (0 <? num_kv_heads) && (p_tp <? u32 num_kv_heads) && (u32 num_kv_heads <? d_tp) then
        assertM: divides_b p_tp (u32 num_kv_heads);
        cassertM (divides_b (u32 num_kv_heads) d_tp)
      else Ok tt in
    set_ranks p_tp (fun i => i) 0
  else if (num_kv_heads <=? 0) || (p_tp <=? u32 num_kv_heads) then
    set_ranks p_tp (fun i => i) 0
  else if d_tp <=? u32 num_kv_heads then
    assertM: divides_b (u32 num_kv_heads) p_tp;
    let* stride := udiv p_tp (u32 num_kv_heads) in
    set_ranks num_kv_heads (fun i => u32 (i * stride)) 0
  else
    assertM: divides_b (u32 num_kv_heads) d_tp;
    assertM: divides_b d_tp p_tp;
    let* p_ranks_per_d_rank := udiv p_tp d_tp in
    set_ranks d_tp (fun d_rank => u32 (d_rank * p_ranks_per_d_rank)) 0.

(** [(valid_ranks << (valid_ranks.size() - rank)).count()]. *)
Definition effective_rank (valid_ranks : bitset) (rank : Z) : Z :=
  bit_count (bit_shl valid_ranks (u64 (MAX_TP_SIZE - rank))).

Definition same_dst (l r : WorkerInfo) : bool :=
  bool_decide (inst_id l = inst_id r) && (worker_id l =? worker_id r)
  && (engine_tp_size l =? engine_tp_size r) && (worker_tp_rank l =? worker_tp_rank r)
  && bool_decide (block_sizes l = block_sizes r) && bool_decide (token_sizes l = token_sizes r)
  && (layer_num_blocks l =? layer_num_blocks r) && (num_layers l =? num_layers r)
  && (transfer_protocols l =? transfer_protocols r).

Definition selection_p_tp (cache_shape : Z) (src : WorkerInfo) (effective_kvt_tp_size : Z) : Z :=
  if (cache_shape =? QWEN3_NEXT_FLASH_CACHE_SHAPE)
     || (cache_shape =? QWEN3_NEXT_FLASHINFER_CACHE_SHAPE)
     || (cache_shape =? KIMI_K3_MLA_CACHE_SHAPE)
  then engine_tp_size src else effective_kvt_tp_size.

(** The parse function and transfer kind for a shape; [None] is the final
    [throw std::runtime_error("unsupported cache_shape")]. *)
Definition select_parse_block (cache_shape : Z) (src dst : WorkerInfo) (sel_p_tp dst_tp : Z)
    : option (ParseBlockFunc * TPKind) :=
  let by_tp eq gt lt :=
    if sel_p_tp =? dst_tp then eq else if dst_tp <? sel_p_tp then gt else lt in
  if cache_shape =? RAGGED_FLASH_CACHE_SHAPE then
    by_tp (Some (parse_block_send_p_eq_d, PEQD))
      (if bool_decide (token_sizes src = token_sizes dst)
       then Some (parse_block_send_p_gt_d_dpsk, PEQD) else Some (parse_block_send_p_gt_d, PGTD))
      (Some (parse_block_send_p_lt_d, PLTD))
  else if cache_shape =? FLASH_CACHE_SHAPE then
    by_tp (Some (vllm_parse_block_send_p_eq_d, PEQD))
      (Some (vllm_parse_block_send_p_gt_d, PGTD)) None
  else if cache_shape =? QWEN3_NEXT_FLASH_CACHE_SHAPE then
    by_tp (Some (vllm_parse_hybrid_block_send_p_eq_d_block_aligned, PEQD))
      (Some (vllm_parse_hybrid_block_send_p_gt_d, PGTD))
      (Some (vllm_parse_hybrid_block_send_p_lt_d, PLTD))
  else if cache_shape =? DPSK_V32_SPARSE_MLA_SHAPE then
    by_tp (Some (vllm_parse_block_send_multi_tensor_p_eq_d, PEQD))
      (Some (vllm_parse_block_send_multi_tensor_p_gt_d, PEQD))
      (Some (vllm_parse_block_send_multi_tensor_p_lt_d, PEQD))
  else if cache_shape =? FLASHINFER_CACHE_SHAPE then
    by_tp (Some (vllm_parse_flashinfer_block_send_p_eq_d, PEQD))
      (Some (vllm_parse_flashinfer_block_send_p_gt_d, PGTD)) None
  else if cache_shape =? QWEN3_NEXT_FLASHINFER_CACHE_SHAPE then
    by_tp (Some (vllm_parse_qwen3_next_flashinfer_block_send_p_eq_d, PEQD))
      (Some (vllm_parse_qwen3_next_flashinfer_block_send_p_gt_d, PGTD))
      (Some (vllm_parse_qwen3_next_flashinfer_block_send_p_lt_d, PLTD))
  else if cache_shape =? KIMI_K3_MLA_CACHE_SHAPE then
    by_tp (Some (parse_kimi_k3_mla_block_send_p_eq_d, PEQD))
      (Some (parse_kimi_k3_mla_block_send_p_gt_d, PGTD))
      (Some (parse_kimi_k3_mla_block_send_p_lt_d, PLTD))
  else if cache_shape =? TURBOQUANT_CACHE_SHAPE then
    by_tp (Some (turboquant_parse_block_send_p_eq_d, PEQD))
      (Some (turboquant_parse_block_send_p_gt_d, PGTD)) None
  else None.
End Ranks.

(** ** State *)

(** What the stub does to the world outside it, in order. *)
Inductive Event :=
| EvCreate (dst : WorkerInfo)
| EvRegister (data : list (list IpcBlock)) (kind : TPKind)
| EvWaitLayer (layer : Z)
| EvSendData (layer : Z)
| EvFlush
| EvSendDone (buf : list Z) (respsize : Z).

(** [KvSendStub::TaskContext]; [ch] says whether a channel is held. *)
Record TaskContext := mkCtx {
  flush_out_buf : string;
  send_blocks : list (list IpcBlock);
  send_req : list ReqSendTask;
  finished_req : list ReqSendTask;
  tpkind : TPKind;
  parse_block : option ParseBlockFunc;
  dstinfo : option WorkerInfo;
  ch : bool;
  valid_ranks : bitset;
  kvt_tp_size : Z;
  kvt_tp_rank : Z;
}.

Definition init_ctx : TaskContext := mkCtx "" [] [] [] UNKNOWN None None false 0 0 0.

(** Request states live behind the tasks' shared pointer. *)
Abbreviation ReqStore := (gmap nat ReqState).

Record World := mkWorld {
  w_ctx : TaskContext;
  w_states : ReqStore;
  w_trace : list Event;
}.

(** The state of a request: [INPROCESS] until it is set. *)
Definition state_of (st : ReqStore) (t : ReqSendTask) : ReqState :=
  default INPROCESS (st !! req_ptr t).

(** ** Effects: state passing with exceptions *)
Definition M (A : Type) : Type := World -> World * res A.
Definition ret {A} (a : A) : M A := fun w => (w, Ok a).
Definition throw {A} (e : cpp_err) : M A := fun w => (w, Err e).
Definition lift {A} (r : res A) : M A := fun w => (w, r).
Definition mbind_ {A B} (m : M A) (k : A -> M B) : M B := fun w =>
  match m w with
  | (w', Ok a) => k a w'
  | (w', Err e) => (w', Err e)
  end.
Notation "'do*' x := m 'in' k" := (mbind_ m (fun x => k))
  (at level 10, x name, m at level 100, k at level 200).
Notation "'do:' m ; k" := (mbind_ m (fun _ => k))
  (at level 10, m at level 100, k at level 200).

Definition get : M World := fun w => (w, Ok w).
Definition upd_ctx (f : TaskContext -> TaskContext) : M unit := fun w =>
  (mkWorld (f (w_ctx w)) (w_states w) (w_trace w), Ok tt).
Definition set_state (t : ReqSendTask) (s : ReqState) : M unit := fun w =>
  (mkWorld (w_ctx w) (<[req_ptr t := s]> (w_states w)) (w_trace w), Ok tt).

(** An external call: it is recorded, and it may throw. *)
Definition emit (outcome : res unit) (e : Event) : M unit := fun w =>
  (mkWorld (w_ctx w) (w_states w) (w_trace w ++ [e]), outcome).

Fixpoint forEach {A} (l : list A) (body : A -> M unit) : M unit :=
  match l with
  | [] => ret tt
  | x :: l => do: body x; forEach l body
  end.

(** [try m catch (std::exception&) h]: only C++ exceptions are caught; an assertion
    failure or undefined behaviour takes the process down. *)
Definition try_catch (m : M unit) (h : M unit) : M unit := fun w =>
  match m w with
  | (w', Ok tt) => (w', Ok tt)
  | (w', Err e) => if is_exception e then h w' else (w', Err e)
  end.

(** ** The stub *)

(** The collaborators, seen through their interfaces during one batch: the naming
    client, the channel factory, the channel ([is_active], the outcome of each call and the
    text [flush] writes) and the two attempts of the completion RPC. *)
Record Outside := mkOutside {
  o_naming : res (option WorkerInfo);
  o_active : bool;
  o_create : WorkerInfo -> res unit;
  o_channel : Event -> res unit;
  o_flush_text : string;
  o_rpc : bool -> res unit;
}.

(** Constants of a [KvSendStub]. *)
Record Stub := mkStub {
  dstid_ : string;
  dstworkerid_ : Z;
  src_info_ : WorkerInfo;
  start_layer_ : Z;
  num_layers_ : Z;
  send_save_done : bool;
}.

Definition SEND_DONE_REQ : Z := 0x20181219.
Definition SAVE_DONE2_REQ : Z := 0x20181223.
Definition HAS_VER2 : Z := 0x40000000.
Definition CODE_INTERNALERROR : Z := 500.

(** [memcpy] of a [uint32_t] on the little-endian hosts the library runs on. *)
Definition u32le (n : Z) : list Z :=
  [n mod 256; n / 256 mod 256; n / 65536 mod 256; n / 16777216 mod 256].

Definition string_bytes (s : string) : list Z :=
  (fun c => Z.of_nat (Ascii.nat_of_ascii c)) <$> String.list_ascii_of_string s.

Section Stub.
Context `{Env} (stub : Stub) (out : Outside).

Definition send_done_entry (st : ReqStore) (t : ReqSendTask) : list Z :=
  u32le (end_tokens t)
  ++ u32le (if bool_decide (state_of st t = OK) then 0 else CODE_INTERNALERROR)
  ++ u32le (u32 (vsize (string_bytes (req_id (req t)))))
  ++ string_bytes (req_id (req t)).

Definition send_done_request (st : ReqStore) (reqs : list ReqSendTask) : list Z :=
  u32le SEND_DONE_REQ
  ++ u32le (Z.lor (worker_tp_rank (src_info_ stub)) HAS_VER2)
  ++ u32le (u32 (vsize reqs))
  ++ flat_map (send_done_entry st) reqs.

(** The request, followed in save mode by a copy of it under the save header. *)
Definition send_done_buf (st : ReqStore) (reqs : list ReqSendTask) : list Z * Z :=
  let buf := send_done_request st reqs in
  if send_save_done stub then (buf ++ u32le SAVE_DONE2_REQ ++ drop 4 buf, 8) else (buf, 4).

(** One retry on a fresh connection; a second failure is only logged. *)
Definition rpc_send_done (reqs : list ReqSendTask) : M unit :=
  do: lift (cassert (worker_tp_rank (src_info_ stub) <? 0xffff));
  do* w := get in
  do: forEach reqs (fun t => lift (cassert (reach_last_token t)));
  let '(buf, respsize) := send_done_buf (w_states w) reqs in
  try_catch (emit (o_rpc out false) (EvSendDone buf respsize))
    (try_catch (emit (o_rpc out true) (EvSendDone buf respsize)) (ret tt)).

Definition set_addr (a : string) (i : WorkerInfo) : WorkerInfo :=
  mkWorkerInfo (inst_id i) (worker_id i) (engine_tp_size i) (worker_tp_rank i) (block_sizes i)
    (token_sizes i) (layer_num_blocks i) (num_layers i) (transfer_protocols i)
    (attn_kernel_blk_ntpb i) (indexer_blk_ntpb i) (attn_pack_size i) a (num_kv_heads i)
    (num_gdn_layers i) (hybrid_indexer_token_size i) (gdn_conv_elem_size i)
    (gdn_ssm_elem_size i) (conv_state_shape i) (ssm_state_shape i) (gdn_conv_channel_dims i)
    (num_ple_layers i) (ple_block_group i) (ple_conv_elem_size i) (ple_conv_state_shape i)
    (ple_conv_channel_dims i) (kda_conv_dim_first i) (hybrid_attn_token_size i)
    (kda_page_stride i).

Definition set_dstinfo (d : option WorkerInfo) (c : TaskContext) : TaskContext :=
  mkCtx (flush_out_buf c) (send_blocks c) (send_req c) (finished_req c) (tpkind c) (parse_block c) d (ch c)
    (valid_ranks c) (kvt_tp_size c) (kvt_tp_rank c).
Definition set_ranks_of (vr : bitset) (size rank : Z) (c : TaskContext) : TaskContext :=
  mkCtx (flush_out_buf c) (send_blocks c) (send_req c) (finished_req c) (tpkind c) (parse_block c) (dstinfo c)
    (ch c) vr size rank.
Definition set_parse (f : ParseBlockFunc) (k : TPKind) (c : TaskContext) : TaskContext :=
  mkCtx (flush_out_buf c) (send_blocks c) (send_req c) (finished_req c) k (Some f) (dstinfo c) (ch c)
    (valid_ranks c) (kvt_tp_size c) (kvt_tp_rank c).
Definition set_ch (b : bool) (c : TaskContext) : TaskContext :=
  mkCtx (flush_out_buf c) (send_blocks c) (send_req c) (finished_req c) (tpkind c) (parse_block c) (dstinfo c)
    b (valid_ranks c) (kvt_tp_size c) (kvt_tp_rank c).
Definition set_blocks (sb : list (list IpcBlock)) (c : TaskContext) : TaskContext :=
  mkCtx (flush_out_buf c) sb (send_req c) (finished_req c) (tpkind c) (parse_block c) (dstinfo c) (ch c)
    (valid_ranks c) (kvt_tp_size c) (kvt_tp_rank c).
Definition set_reqs (sr fr : list ReqSendTask) (c : TaskContext) : TaskContext :=
  mkCtx (flush_out_buf c) (send_blocks c) sr fr (tpkind c) (parse_block c) (dstinfo c) (ch c)
    (valid_ranks c) (kvt_tp_size c) (kvt_tp_rank c).

Definition set_flush_out (text : string) (c : TaskContext) : TaskContext :=
  mkCtx text (send_blocks c) (send_req c) (finished_req c) (tpkind c) (parse_block c) (dstinfo c) (ch c)
    (valid_ranks c) (kvt_tp_size c) (kvt_tp_rank c).

(** [LOG(...) << info.to_string()], which throws for a record that is too long. *)
Definition log_worker (d : WorkerInfo) : M unit := do* _ := lift (to_string d) in ret tt.

Definition is_none {A} (o : option A) : bool := match o with None => true | Some _ => false end.

(** [do_send].  [flush] may have written its text also when it throws. *)
Definition do_send : M unit :=
  do* w := get in
  let c := w_ctx w in
  do: emit (o_channel out (EvRegister (send_blocks c) (tpkind c)))
        (EvRegister (send_blocks c) (tpkind c));
  do: forEach (seqZ (start_layer_ stub) (num_layers_ stub - start_layer_ stub)) (fun i =>
    do: emit (o_channel out (EvWaitLayer i)) (EvWaitLayer i);
    emit (o_channel out (EvSendData i)) (EvSendData i));
  do: upd_ctx (set_flush_out (o_flush_text out));
  emit (o_channel out EvFlush) EvFlush.

(** Bind a destination once; later refreshes only follow its address. *)
Definition refresh_dst_info : M unit :=
  do* dstinfoopt := lift (o_naming out) in
  do* w := get in
  match dstinfoopt, dstinfo (w_ctx w) with
  | None, Some old => log_worker old
  | None, None => throw RuntimeError
  | Some new, Some old =>
      if negb (same_dst old new) then do: log_worker old; log_worker new
      else upd_ctx (set_dstinfo (Some (set_addr (addr new) old)))
  | Some new, None =>
      let src := src_info_ stub in
      do: upd_ctx (set_dstinfo (Some new));
      do* vr := lift (compute_valid_ranks_pd (engine_tp_size src) (engine_tp_size new)
                        (num_kv_heads src)) in
      let size := bit_count vr in
      do: upd_ctx (set_ranks_of vr size (effective_rank vr (worker_tp_rank src)));
      do* w := get in
      do: lift (cassert (is_none (parse_block (w_ctx w))));
      do: lift (cassert (bool_decide (tpkind (w_ctx w) = UNKNOWN)));
      match select_parse_block env_cache_shape src new
              (selection_p_tp env_cache_shape src size) (engine_tp_size new) with
      | Some (f, k) => upd_ctx (set_parse f k)
      | None => throw RuntimeError
      end
  end.

Definition try_create_channel : M unit :=
  do* w := get in
  if ch (w_ctx w) && o_active out then
    lift (cassert (negb (is_none (dstinfo (w_ctx w)))))
  else
    do: refresh_dst_info;
    do* w := get in
    match dstinfo (w_ctx w) with
    | None => lift (let* _ := cassert false in Err Undefined)
    | Some d =>
        do: emit (o_create out d) (EvCreate d);
        do: upd_ctx (set_ch true);
        log_worker d
    end.

(** Sort the batch into the requests to send and the requests that finish. *)
Definition classify (task : ReqSendTask) : M unit :=
  do: lift (cassert (bool_decide (dst_inst_id (req task) = dstid_ stub)));
  do: lift (cassert (dst_worker_id (req task) =? dstworkerid_ stub));
  do* w := get in
  do: (if reach_last_token task
       then upd_ctx (set_reqs (send_req (w_ctx w)) (finished_req (w_ctx w) ++ [task]))
       else ret tt);
  if new_tokens task <=? 0 then ret tt
  else if bool_decide (state_of (w_states w) task = FAILED) then ret tt
  else
    do: lift (cassert (bool_decide (state_of (w_states w) task = INPROCESS)));
    do: lift (cassert (0 <? new_tokens task));
    do* w := get in
    upd_ctx (set_reqs (send_req (w_ctx w) ++ [task]) (finished_req (w_ctx w))).

(** [self.parse_block(&srcinfo, &self.dstinfo.value(), ...)]: an empty [dstinfo] throws
    [bad_optional_access], a null function pointer is called.  Records appended before a
    throw are dropped here; the code clears them at the end of the batch without a use. *)
Definition call_parse_block (task : ReqSendTask) : M unit :=
  do* w := get in
  let c := w_ctx w in
  match dstinfo c, parse_block c with
  | Some d, Some f =>
      do* sb := lift (f (src_info_ stub) d (valid_ranks c) (kvt_tp_size c) (kvt_tp_rank c)
                        task (send_blocks c)) in
      upd_ctx (set_blocks sb)
  | None, _ => throw RuntimeError
  | Some _, None => lift (Err Undefined)
  end.

(** The guarded part of a batch: connect, parse, send. *)
Definition send_requests : M unit :=
  do: try_create_channel;
  do* w := get in
  do: lift (cassert (negb (is_none (parse_block (w_ctx w)))));
  do: lift (cassert (negb (bool_decide (tpkind (w_ctx w) = UNKNOWN))));
  do: forEach (send_req (w_ctx w)) call_parse_block;
  do* w := get in
  match send_blocks (w_ctx w) with
  | (_ :: _) :: _ =>
      do: forEach (send_blocks (w_ctx w)) (fun sb => lift (cassert (negb (vsize sb =? 0))));
      do_send
  | _ => ret tt
  end.

(** The handler: drop the channel and fail every request of the batch. *)
Definition fail_batch (tasks : list ReqSendTask) : M unit :=
  do: upd_ctx (set_ch false);
  forEach tasks (fun task =>
    do* w := get in
    do: lift (cassert (bool_decide (state_of (w_states w) task = INPROCESS)
                       || bool_decide (state_of (w_states w) task = FAILED)));
    set_state task FAILED).

(** A request that finishes without a failure is done; one that computed nothing failed. *)
Definition finish (task : ReqSendTask) : M unit :=
  do: lift (cassert (reach_last_token task));
  do* w := get in
  if bool_decide (state_of (w_states w) task = INPROCESS)
  then set_state task (if new_tokens task <=? 0 then FAILED else OK)
  else ret tt.

Definition do_task (tasks : list ReqSendTask) : M unit :=
  do* w := get in
  let c := w_ctx w in
  do: lift (cassert (String.eqb (flush_out_buf c) ""));
  do: lift (cassert (vsize (send_req c) =? 0));
  do: lift (cassert (vsize (finished_req c) =? 0));
  do: lift (cassert (vsize (send_blocks c) =? 0));
  do: lift (cassert (negb (vsize tasks =? 0)));
  do: forEach tasks classify;
  do* w := get in
  do: (if vsize (send_req (w_ctx w)) =? 0 then ret tt
       else try_catch send_requests (fail_batch tasks));
  do* w := get in
  do: forEach (finished_req (w_ctx w)) finish;
  if vsize (finished_req (w_ctx w)) =? 0 then ret tt
  else rpc_send_done (finished_req (w_ctx w)).

Definition clear : M unit :=
  do: upd_ctx (set_flush_out "");
  do: upd_ctx (set_blocks []);
  upd_ctx (set_reqs [] []).

Definition send_batch (tasks : list ReqSendTask) : M unit :=
  do: lift (cassert (negb (vsize tasks =? 0)));
  do: do_task tasks;
  clear.
End Stub.

(** ** Every registered record is in range *)

Section Safety.
Context `{Env} (stub : Stub).

(** Per-tensor record lists that lie inside the tensors of the two workers. *)
Definition data_in_range (d : WorkerInfo) (data : list (list IpcBlock)) : Prop :=
  forall i bl blk, data !! i = Some bl -> blk ∈ bl ->
    exists b, make_ipc_block_bounds (src_info_ stub) d (Z.of_nat i) = Ok b /\ in_bounds b blk.

Definition event_ok (c : TaskContext) (e : Event) : Prop :=
  match e with
  | EvRegister data _ => exists d, dstinfo c = Some d /\ data_in_range d data
  | _ => True
  end.

(** The invariant of a stub, between and inside batches. *)
Record stub_inv (w : World) : Prop := {
  si_parse : forall f, parse_block (w_ctx w) = Some f -> exists n, ParseBlockSpec f n;
  si_dst : forall d, dstinfo (w_ctx w) = Some d -> wf_worker d;
  si_blocks : match dstinfo (w_ctx w) with
              | Some d => data_in_range d (send_blocks (w_ctx w))
              | None => send_blocks (w_ctx w) = []
              end;
  si_reqs : Forall wf_task (send_req (w_ctx w));
  si_trace : Forall (event_ok (w_ctx w)) (w_trace w);
}.

(** [m] keeps the invariant from [w], however it ends, and does not run out of fuel. *)
Definition keeps {A} (w : World) (m : M A) : Prop :=
  stub_inv (m w).1 /\ (m w).2 <> Err OutOfFuel.

Lemma keeps_bind {A B} w (m : M A) (k : A -> M B) :
  keeps w m -> (forall w' a, m w = (w', Ok a) -> stub_inv w' -> keeps w' (k a)) ->
  keeps w (mbind_ m k).
Proof.
  unfold keeps, mbind_. destruct (m w) as [w' [a|e]]; simpl; intros [HI He] Hk; [|split; congruence].
  by apply Hk.
Qed.

Lemma keeps_lift {A} w (r : res A) : stub_inv w -> r <> Err OutOfFuel -> keeps w (lift r).
Proof. by split. Qed.

Lemma keeps_get_bind {B} w (k : World -> M B) : keeps w (k w) -> keeps w (mbind_ get k).
Proof. done. Qed.

Lemma keeps_assert w b : stub_inv w -> keeps w (lift (cassert b)).
Proof. intros. split; [done|]. unfold cassert. by destruct ndebug, b. Qed.

Lemma keeps_assert_bind {B} w b (k : unit -> M B) :
  stub_inv w -> keeps w (k tt) -> keeps w (mbind_ (lift (cassert b)) k).
Proof.
  intros HI Hk. unfold keeps, mbind_, lift, cassert. by destruct ndebug, b.
Qed.

Lemma keeps_ret {A} w (a : A) : stub_inv w -> keeps w (ret a).
Proof. by split. Qed.

Lemma keeps_forEach {A} (l : list A) (body : A -> M unit) w :
  stub_inv w -> (forall x w, x ∈ l -> stub_inv w -> keeps w (body x)) -> keeps w (forEach l body).
Proof.
  revert w. induction l as [|x l IH]; intros w HI Hb; [by apply keeps_ret|].
  simpl. apply keeps_bind; [apply Hb; [set_solver|done]|]. intros w' [] _ HI'.
  apply IH; [done|]. intros. apply Hb; set_solver.
Qed.

Lemma keeps_try w (m h : M unit) :
  keeps w m -> (forall w', stub_inv w' -> keeps w' h) -> keeps w (try_catch m h).
Proof.
  unfold keeps, try_catch. destruct (m w) as [w' [[]|e]]; simpl; intros [HI He] Hh; [done|].
  destruct (is_exception e); [by apply Hh|done].
Qed.

(** Context updates that do not touch what the invariant speaks about. *)
Lemma keeps_upd w (f : TaskContext -> TaskContext) :
  stub_inv w -> stub_inv (mkWorld (f (w_ctx w)) (w_states w) (w_trace w)) ->
  keeps w (upd_ctx f).
Proof. by split. Qed.

Lemma keeps_emit w outcome e :
  stub_inv w -> outcome <> Err OutOfFuel -> event_ok (w_ctx w) e -> keeps w (emit outcome e).
Proof.
  intros [] Ho He. split; [|done]. split; simpl; auto. apply Forall_app. split; [done|].
  by constructor.
Qed.

Lemma keeps_set_state w t s : stub_inv w -> keeps w (set_state t s).
Proof. intros []. split; [|done]. by split. Qed.

(** ** The steps of a batch keep the invariant *)

Context (out : Outside).
Context (Hsrc : wf_worker (src_info_ stub)).
(** The collaborators return or throw; their worker records are well typed. *)
Record outside_ok : Prop := {
  ok_naming : forall d, o_naming out = Ok (Some d) -> wf_worker d;
  ok_naming_fuel : o_naming out <> Err OutOfFuel;
  ok_create : forall d, o_create out d <> Err OutOfFuel;
  ok_channel : forall e, o_channel out e <> Err OutOfFuel;
  ok_rpc : forall again, o_rpc out again <> Err OutOfFuel;
}.
Context (Hout : outside_ok).

Lemma compute_valid_ranks_pd_fuel p d h : compute_valid_ranks_pd p d h <> Err OutOfFuel.
Proof.
  apply (wpr_no_fuel _ (fun _ => True)).
  assert (Hset : forall n f r, wpr (set_ranks n f r) (fun _ => True)).
  { intros. unfold set_ranks. eapply (wpr_forM (fun _ => True)); [|done].
    intros. unfold bit_set. by destruct (_ && _). }
  unfold compute_valid_ranks_pd. repeat (emit_step || apply Hset).
Qed.

(** Every selectable function meets the contract. *)
Lemma select_parse_block_spec shape dst p d f k :
  select_parse_block shape (src_info_ stub) dst p d = Some (f, k) ->
  exists n, ParseBlockSpec f n.
Proof.
  unfold select_parse_block. intros E.
  repeat match type of E with context [if ?b then _ else _] => destruct b end;
    inversion E; subst; eexists; apply _.
Qed.

Lemma data_in_range_set_addr a d data :
  data_in_range (set_addr a d) data <-> data_in_range d data.
Proof. done. Qed.

Lemma wf_set_addr a d : wf_worker d -> wf_worker (set_addr a d).
Proof. intros []. by split. Qed.

(** The updates of the context. *)
Lemma keeps_set_ranks_of w vr n r : stub_inv w -> keeps w (upd_ctx (set_ranks_of vr n r)).
Proof. intros []. apply keeps_upd; by split. Qed.

Lemma keeps_set_ch w b : stub_inv w -> keeps w (upd_ctx (set_ch b)).
Proof. intros []. apply keeps_upd; by split. Qed.

Lemma keeps_set_flush_out w t : stub_inv w -> keeps w (upd_ctx (set_flush_out t)).
Proof. intros []. apply keeps_upd; by split. Qed.

Lemma to_string_fuel d : to_string d <> Err OutOfFuel.
Proof. unfold to_string. by repeat case_match. Qed.

Lemma keeps_log_worker w d : stub_inv w -> keeps w (log_worker d).
Proof.
  intros HI. apply keeps_bind; [apply keeps_lift; [done|apply to_string_fuel]|]. intros. by apply keeps_ret.
Qed.

Lemma keeps_set_parse w f k :
  stub_inv w -> (exists n, ParseBlockSpec f n) -> keeps w (upd_ctx (set_parse f k)).
Proof. intros [] Hf. apply keeps_upd; split; auto. by intros ? [= <-]. Qed.

Lemma keeps_set_reqs w sr fr :
  stub_inv w -> Forall wf_task sr -> keeps w (upd_ctx (set_reqs sr fr)).
Proof. intros [] Hf. apply keeps_upd; by split. Qed.

Lemma keeps_set_blocks w sb :
  stub_inv w ->
  match dstinfo (w_ctx w) with Some d => data_in_range d sb | None => sb = [] end ->
  keeps w (upd_ctx (set_blocks sb)).
Proof. intros [] Hf. apply keeps_upd; by split. Qed.

(** Binding the destination: nothing was registered before. *)
Lemma keeps_bind_dst w d :
  stub_inv w -> dstinfo (w_ctx w) = None -> wf_worker d ->
  keeps w (upd_ctx (set_dstinfo (Some d))).
Proof.
  intros [Hp Hd Hb Hr Ht] Hnone Hwf. rewrite Hnone in Hb. apply keeps_upd; [split; auto; by rewrite Hnone|].
  split; simpl; auto.
  - by intros ? [= <-].
  - rewrite Hb. intros i bl blk Hi. by rewrite lookup_nil in Hi.
  - eapply Forall_impl; [exact Ht|]. intros [] He; simpl in *; auto.
    destruct He as (d' & Hd' & _). congruence.
Qed.

(** Following the address of a bound destination. *)
Lemma keeps_follow_addr w d a :
  stub_inv w -> dstinfo (w_ctx w) = Some d ->
  keeps w (upd_ctx (set_dstinfo (Some (set_addr a d)))).
Proof.
  intros HI Edst. pose proof HI as [Hp Hd Hb Hr Ht]. rewrite Edst in Hb.
  apply keeps_upd; [done|]. split; simpl; auto.
  - intros ? [= <-]. auto using wf_set_addr.
  - eapply Forall_impl; [exact Ht|]. intros [] He; simpl in *; auto.
    destruct He as (d' & Hd' & Hr'). rewrite Edst in Hd'. injection Hd' as <-. eauto.
Qed.

Ltac keeps_step :=
  lazymatch goal with
  | |- keeps _ (mbind_ get _) => apply keeps_get_bind
  | |- keeps _ (mbind_ (lift (cassert _)) _) => apply keeps_assert_bind; [done|]
  | |- keeps _ (mbind_ _ _) => apply keeps_bind; [|intros ? ? ? ?]
  | |- keeps _ (ret _) => by apply keeps_ret
  | |- keeps _ (throw _) => by apply keeps_lift
  | |- keeps _ (lift (cassert _)) => by apply keeps_assert
  | |- keeps _ (if ?b then _ else _) => destruct b eqn:?
  | |- keeps _ (upd_ctx (set_ch _)) => by apply keeps_set_ch
  | |- keeps _ (upd_ctx (set_flush_out _)) => by apply keeps_set_flush_out
  | |- keeps _ (log_worker _) => by apply keeps_log_worker
  | |- keeps _ (upd_ctx (set_ranks_of _ _ _)) => by apply keeps_set_ranks_of
  | |- keeps _ (set_state _ _) => by apply keeps_set_state
  end.

Lemma keeps_refresh_dst_info w : stub_inv w -> keeps w (refresh_dst_info stub out).
Proof.
  intros HI. unfold refresh_dst_info.
  apply keeps_bind; [by apply keeps_lift; [|apply ok_naming_fuel]|].
  intros w1 dopt [= <- Hnaming] _. apply keeps_get_bind.
  destruct dopt as [new|], (dstinfo (w_ctx w)) as [old|] eqn:Edst; [| |keeps_step..].
  - keeps_step; [repeat keeps_step|by apply keeps_follow_addr].
  - cbv zeta. keeps_step; [apply keeps_bind_dst; auto; by eapply ok_naming|].
    keeps_step; [apply keeps_lift; [done|apply compute_valid_ranks_pd_fuel]|].
    repeat keeps_step.
    destruct (select_parse_block _ _ _ _ _) as [[f k]|] eqn:Esel; [|keeps_step].
    apply keeps_set_parse; [done|]. by eapply select_parse_block_spec.
Qed.

Lemma keeps_try_create_channel w : stub_inv w -> keeps w (try_create_channel stub out).
Proof.
  intros HI. unfold try_create_channel. repeat keeps_step; [by apply keeps_refresh_dst_info|].
  destruct (dstinfo _); [|apply keeps_lift; [done|unfold cassert; by destruct ndebug]].
  keeps_step; [apply keeps_emit; [done|by apply ok_create|done]|repeat keeps_step].
Qed.

Lemma keeps_classify w t : wf_task t -> stub_inv w -> keeps w (classify stub t).
Proof.
  intros Ht HI. unfold classify. repeat keeps_step;
    try (apply keeps_set_reqs; [done|]); try apply Forall_app; try split;
    try apply si_reqs; auto.
Qed.

Lemma keeps_call_parse_block w t : wf_task t -> stub_inv w -> keeps w (call_parse_block stub t).
Proof.
  intros Ht HI. unfold call_parse_block. apply keeps_get_bind. cbv zeta.
  pose proof HI as [Hp Hd Hb Hr Htr].
  destruct (dstinfo (w_ctx w)) as [d|] eqn:Ed; [|by split].
  destruct (parse_block (w_ctx w)) as [f|] eqn:Ef; [|by apply keeps_lift].
  destruct (Hp f eq_refl) as [n Hspec]. specialize (Hd d eq_refl).
  pose proof (parse_block_extends (src_info_ stub) d (valid_ranks (w_ctx w)) (kvt_tp_size (w_ctx w))
    (kvt_tp_rank (w_ctx w)) t (send_blocks (w_ctx w)) Hsrc Hd Ht) as Hext.
  apply keeps_bind; [apply keeps_lift; [done|by eapply wpr_no_fuel]|].
  intros w' sb [= <- Hok] _. apply keeps_set_blocks; [done|]. rewrite Ed.
  destruct (wpr_elim _ _ _ Hext Hok) as [->|[_ Hgrow]]; [done|].
  intros i bl blk Hi Hblk. destruct (Hgrow i bl Hi) as (new & -> & Hnew).
  apply elem_of_app in Hblk as [Hold|Hin].
  - destruct (send_blocks (w_ctx w) !! i) as [old|] eqn:Eold; simpl in Hold;
      [by eapply Hb|by apply elem_of_nil in Hold].
  - rewrite Forall_forall in Hnew. by apply Hnew.
Qed.

Lemma keeps_do_send w : stub_inv w -> dstinfo (w_ctx w) <> None -> keeps w (do_send stub out).
Proof.
  intros HI Hd. unfold do_send. apply keeps_get_bind. cbv zeta.
  apply keeps_bind.
  { apply keeps_emit; [done|apply ok_channel; done|]. pose proof (si_blocks _ HI) as Hb.
    destruct (dstinfo (w_ctx w)) as [d|] eqn:Ed; [|done]. exists d. by split. }
  intros. apply keeps_bind.
  { apply keeps_forEach; [done|]. intros.
    keeps_step; (apply keeps_emit; [done|by apply ok_channel|done]). }
  intros. keeps_step; [keeps_step|]. apply keeps_emit; [done|by apply ok_channel|done].
Qed.

Lemma forEach_lift_world {A} (l : list A) (g : A -> res unit) w w' r :
  forEach l (fun x => lift (g x)) w = (w', r) -> w' = w.
Proof.
  induction l as [|x l IH]; simpl; [by intros [= <- _]|].
  unfold mbind_, lift. destruct (g x) as [[]|]; [done|by intros [= <- _]].
Qed.

Lemma keeps_send_requests w : stub_inv w -> keeps w (send_requests stub out).
Proof.
  intros HI. unfold send_requests.
  keeps_step; [by apply keeps_try_create_channel|]. do 3 keeps_step.
  keeps_step.
  { pose proof (si_reqs _ ltac:(eassumption)) as Hreqs. apply keeps_forEach; [done|].
    intros t w2 Ht HI2. apply keeps_call_parse_block; [|done].
    rewrite Forall_forall in Hreqs. by apply Hreqs. }
  keeps_step. match goal with HI : stub_inv ?w |- keeps ?w _ =>
    pose proof (si_blocks _ HI) as Hb end.
  destruct (send_blocks _) as [|[|blk bl] rest] eqn:Esb; [by apply keeps_ret..|].
  keeps_step; [by apply keeps_forEach; [|intros; keeps_step]|].
  match goal with Hf : forEach (_ :: _) _ _ = _ |- _ => apply forEach_lift_world in Hf as -> end.
  apply keeps_do_send; [done|]. by destruct (dstinfo _).
Qed.

Lemma keeps_fail_batch w tasks : stub_inv w -> keeps w (fail_batch tasks).
Proof.
  intros HI. unfold fail_batch. keeps_step; [keeps_step|].
  apply keeps_forEach; [done|]. intros. repeat keeps_step.
Qed.

Lemma keeps_finish w t : stub_inv w -> keeps w (finish t).
Proof. intros HI. unfold finish. repeat keeps_step. Qed.

Lemma keeps_rpc_send_done w reqs : stub_inv w -> keeps w (rpc_send_done stub out reqs).
Proof.
  intros HI. unfold rpc_send_done. do 2 keeps_step.
  keeps_step; [apply keeps_forEach; [done|]; intros; keeps_step|].
  destruct (send_done_buf _ _ _) as [buf n].
  apply keeps_try; [apply keeps_emit; [done|by apply ok_rpc|done]|]. intros w2 HI2.
  apply keeps_try; [apply keeps_emit; [done|by apply ok_rpc|done]|]. intros. keeps_step.
Qed.

Lemma keeps_do_task w tasks :
  Forall wf_task tasks -> stub_inv w -> keeps w (do_task stub out tasks).
Proof.
  intros Ht HI. unfold do_task. rewrite Forall_forall in Ht.
  keeps_step. cbv zeta. do 5 keeps_step.
  keeps_step; [apply keeps_forEach; [done|]; intros; apply keeps_classify; auto|].
  do 2 keeps_step.
  { keeps_step; [keeps_step|]. apply keeps_try; [by apply keeps_send_requests|].
    intros. by apply keeps_fail_batch. }
  do 2 keeps_step; [apply keeps_forEach; [done|]; intros; by apply keeps_finish|].
  keeps_step; [keeps_step|by apply keeps_rpc_send_done].
Qed.

Lemma keeps_send_batch w tasks :
  Forall wf_task tasks -> stub_inv w -> keeps w (send_batch stub out tasks).
Proof.
  intros Ht HI. unfold send_batch. keeps_step.
  keeps_step; [by apply keeps_do_task|]. unfold clear. keeps_step; [keeps_step|]. keeps_step.
  - apply keeps_set_blocks; [done|]. destruct (dstinfo _); [|done].
    intros i bl blk Hi. by rewrite lookup_nil in Hi.
  - apply keeps_set_reqs; [done|constructor].
Qed.
End Safety.

(** The life of a stub: a sequence of batches, each with the collaborators' behaviour
    during it. *)
Definition run_batches `{Env} (stub : Stub) (batches : list (Outside * list ReqSendTask)) : M unit :=
  forEach batches (fun ob => send_batch stub ob.1 ob.2).

Definition init_world (states : ReqStore) : World := mkWorld init_ctx states [].

Lemma init_world_inv `{Env} stub states : stub_inv stub (init_world states).
Proof. by split; simpl. Qed.

(** ** What a batch does to the request states *)

Section Outcome.
Context `{Env} (stub : Stub) (out : Outside).

Definition sends (st : ReqStore) (t : ReqSendTask) : bool :=
  negb (new_tokens t <=? 0) && negb (bool_decide (state_of st t = FAILED)).

(** The state a request is left in, given its state before and whether the batch failed. *)
Definition settle (failed : bool) (s : ReqState) (t : ReqSendTask) : ReqState :=
  if failed then FAILED else
  match s with
  | INPROCESS =>
      if reach_last_token t then (if new_tokens t <=? 0 then FAILED else OK) else INPROCESS
  | s => s
  end.

Lemma bind_ok {A B} (m : M A) (k : A -> M B) w w' b :
  mbind_ m k w = (w', Ok b) -> exists w1 a, m w = (w1, Ok a) /\ k a w1 = (w', Ok b).
Proof. unfold mbind_. destruct (m w) as [w1 [a|e]]; [eauto|done]. Qed.

Lemma assert_ok b w w' a : lift (cassert b) w = (w', Ok a) -> w' = w.
Proof. unfold lift. by intros [= <- _]. Qed.

Lemma classify_ok t w w' :
  classify stub t w = (w', Ok tt) ->
  w_states w' = w_states w /\ w_trace w' = w_trace w /\
  w_ctx w' = set_reqs (send_req (w_ctx w) ++ (if sends (w_states w) t then [t] else []))
                      (finished_req (w_ctx w) ++ (if reach_last_token t then [t] else [])) (w_ctx w).
Proof.
  unfold classify, sends. intros Hc.
  apply bind_ok in Hc as (w1 & ? & H1 & Hc). apply assert_ok in H1 as ->.
  apply bind_ok in Hc as (w1 & ? & H1 & Hc). apply assert_ok in H1 as ->.
  unfold mbind_ at 1, get at 1 in Hc.
  apply bind_ok in Hc as (w1 & ? & H1 & Hc).
  assert (E1 : w1 = mkWorld (set_reqs (send_req (w_ctx w)) (finished_req (w_ctx w) ++
      (if reach_last_token t then [t] else [])) (w_ctx w)) (w_states w) (w_trace w)).
  { destruct (reach_last_token t); injection H1 as <- _; [done|].
    rewrite app_nil_r. by destruct w as [[] ? ?]. }
  subst w1. clear H1. destruct (new_tokens t <=? 0) eqn:En; cbn [negb andb] in *.
  { injection Hc as <-. simpl. by rewrite app_nil_r. }
  destruct (bool_decide (state_of (w_states w) t = FAILED)) eqn:Es; cbn [negb] in *.
  { injection Hc as <-. simpl. by rewrite app_nil_r. }
  apply bind_ok in Hc as (w1 & ? & H1 & Hc). apply assert_ok in H1 as ->.
  apply bind_ok in Hc as (w1 & ? & H1 & Hc). apply assert_ok in H1 as ->.
  unfold mbind_, get, upd_ctx in Hc. injection Hc as <-. done.
Qed.

Lemma classify_all_ok tasks w w' :
  forEach tasks (classify stub) w = (w', Ok tt) ->
  w_states w' = w_states w /\ w_trace w' = w_trace w /\
  w_ctx w' = set_reqs (send_req (w_ctx w) ++ filter (fun t => sends (w_states w) t) tasks)
               (finished_req (w_ctx w) ++ filter (fun t => reach_last_token t) tasks) (w_ctx w).
Proof.
  revert w. induction tasks as [|t tasks IH]; intros w Hc; simpl in Hc.
  - injection Hc as <-. rewrite !filter_nil, !app_nil_r. by destruct w as [[] ? ?].
  - apply bind_ok in Hc as (w1 & [] & H1 & Hc). apply classify_ok in H1 as (Es & Et & Ec).
    apply IH in Hc as (Es' & Et' & Ec'). rewrite Es', Et', Ec', Es, Et, Ec. simpl.
    rewrite <- !app_assoc, !filter_cons.
    split; [done|]. split; [done|]. unfold set_reqs; simpl. f_equal; f_equal.
    + by destruct (sends (w_states w) t).
    + by destruct (reach_last_token t).
Qed.

(** Setting the state of some tasks, in a batch whose requests are distinct. *)
Lemma state_of_insert_ne st t t' s :
  req_ptr t <> req_ptr t' -> state_of (<[req_ptr t' := s]> st) t = state_of st t.
Proof. intros. unfold state_of. by rewrite lookup_insert_ne. Qed.

Lemma state_of_insert st t s : state_of (<[req_ptr t := s]> st) t = s.
Proof. unfold state_of. by rewrite lookup_insert_eq. Qed.

Lemma fail_loop_ok tasks w w' :
  forEach tasks (fun task =>
    do* w := get in
    do: lift (cassert (bool_decide (state_of (w_states w) task = INPROCESS)
                       || bool_decide (state_of (w_states w) task = FAILED)));
    set_state task FAILED) w = (w', Ok tt) ->
  w_ctx w' = w_ctx w /\ w_trace w' = w_trace w /\
  (forall t, t ∈ tasks -> state_of (w_states w') t = FAILED) /\
  (forall t, state_of (w_states w) t = FAILED -> state_of (w_states w') t = FAILED).
Proof.
  revert w. induction tasks as [|t tasks IH]; intros w Hf; simpl in Hf.
  - injection Hf as <-. repeat split; auto. intros t Ht. by apply elem_of_nil in Ht.
  - apply bind_ok in Hf as (w1 & [] & H1 & Hf). unfold mbind_ at 1, get in H1.
    apply bind_ok in H1 as (w2 & ? & H2 & H1). apply assert_ok in H2 as ->.
    injection H1 as <-. apply IH in Hf as (Ec & Et & Hall & Hkeep). simpl in *.
    repeat split; auto.
    + intros t' Ht'. apply elem_of_cons in Ht' as [->|Ht']; [|auto].
      apply Hkeep, state_of_insert.
    + intros t' Ht'. apply Hkeep. destruct (decide (req_ptr t' = req_ptr t)) as [E|E].
      * unfold state_of. rewrite E. by rewrite lookup_insert_eq.
      * by rewrite state_of_insert_ne.
Qed.

Lemma fail_batch_ok tasks w w' :
  fail_batch tasks w = (w', Ok tt) ->
  w_ctx w' = set_ch false (w_ctx w) /\ w_trace w' = w_trace w /\
  (forall t, t ∈ tasks -> state_of (w_states w') t = FAILED).
Proof.
  unfold fail_batch. intros Hf. apply bind_ok in Hf as (w1 & [] & H1 & Hf).
  injection H1 as <-. apply fail_loop_ok in Hf as (Ec & Et & Hall & _). auto.
Qed.

Lemma finish_ok t w w' :
  finish t w = (w', Ok tt) -> w_ctx w' = w_ctx w /\ w_trace w' = w_trace w /\
  w_states w' = if bool_decide (state_of (w_states w) t = INPROCESS)
                then <[req_ptr t := if new_tokens t <=? 0 then FAILED else OK]> (w_states w)
                else w_states w.
Proof.
  unfold finish. intros Hf. apply bind_ok in Hf as (w1 & ? & H1 & Hf). apply assert_ok in H1 as ->.
  unfold mbind_, get in Hf. case_bool_decide; injection Hf as <-; done.
Qed.

Lemma finish_all_ok tasks w w' :
  NoDup (req_ptr <$> tasks) -> forEach tasks finish w = (w', Ok tt) ->
  w_ctx w' = w_ctx w /\ w_trace w' = w_trace w /\
  forall t, (t ∈ tasks -> state_of (w_states w') t =
               match state_of (w_states w) t with
               | INPROCESS => if new_tokens t <=? 0 then FAILED else OK
               | s => s end) /\
            (req_ptr t ∉ req_ptr <$> tasks -> state_of (w_states w') t = state_of (w_states w) t).
Proof.
  revert w. induction tasks as [|t tasks IH]; intros w Hnd Hf; simpl in Hf.
  - injection Hf as <-. split; [done|]. split; [done|]. intros t. split; [|done].
    intros Ht. by apply elem_of_nil in Ht.
  - apply bind_ok in Hf as (w1 & [] & H1 & Hf). apply finish_ok in H1 as (Ec1 & Et1 & Es1).
    simpl in Hnd. apply NoDup_cons in Hnd as [Hnot Hnd].
    apply IH in Hf as (Ec & Et & Hall); [|done].
    split; [congruence|]. split; [congruence|]. intros t'.
    assert (Hstep : req_ptr t' <> req_ptr t -> state_of (w_states w1) t' = state_of (w_states w) t').
    { intros Hne. rewrite Es1. case_bool_decide; [by rewrite state_of_insert_ne|done]. }
    destruct (Hall t') as [Hin Hout]. split.
    + intros Ht'. apply elem_of_cons in Ht' as [->|Ht'].
      * rewrite Hout by done. rewrite Es1. case_bool_decide as Hs.
        -- by rewrite Hs, state_of_insert.
        -- by destruct (state_of (w_states w) t).
      * assert (Hne : req_ptr t' <> req_ptr t).
        { intros E. apply Hnot. rewrite <- E. by apply list_elem_of_fmap_2. }
        rewrite Hin by done. by rewrite Hstep.
    + simpl. intros Hni. rewrite not_elem_of_cons in Hni. destruct Hni as [Hne Hni].
      rewrite Hout by done. by apply Hstep.
Qed.

(** The guarded part of a batch leaves request states and request lists alone, extends
    the trace, and never replaces a bound destination (only its address). *)
Definition same_binding (c c' : TaskContext) : Prop :=
  forall d, dstinfo c = Some d ->
    (exists a, dstinfo c' = Some (set_addr a d)) /\ parse_block c' = parse_block c /\
    tpkind c' = tpkind c /\ valid_ranks c' = valid_ranks c /\
    kvt_tp_size c' = kvt_tp_size c /\ kvt_tp_rank c' = kvt_tp_rank c.

Record frame (w w' : World) : Prop := {
  fr_states : w_states w' = w_states w;
  fr_send : send_req (w_ctx w') = send_req (w_ctx w);
  fr_finished : finished_req (w_ctx w') = finished_req (w_ctx w);
  fr_trace : prefix (w_trace w) (w_trace w');
  fr_binding : same_binding (w_ctx w) (w_ctx w');
}.

Lemma set_addr_self d : set_addr (addr d) d = d.
Proof. by destruct d. Qed.

Lemma same_binding_refl c c' :
  dstinfo c' = dstinfo c -> parse_block c' = parse_block c -> tpkind c' = tpkind c ->
  valid_ranks c' = valid_ranks c -> kvt_tp_size c' = kvt_tp_size c ->
  kvt_tp_rank c' = kvt_tp_rank c -> same_binding c c'.
Proof.
  intros Hd. intros. intros d E. rewrite Hd, E. split; [|done]. exists (addr d).
  by rewrite set_addr_self.
Qed.

#[local] Instance frame_preorder : PreOrder frame.
Proof.
  split.
  - intros w. split; auto. by apply same_binding_refl.
  - intros x y z [] []. split; try congruence; [by transitivity (w_trace y)|].
    intros d E. destruct (fr_binding0 d E) as ([a Ea] & ? & ? & ? & ? & ?).
    destruct (fr_binding1 _ Ea) as ([a' Ea'] & ? & ? & ? & ? & ?).
    split; [by exists a'; rewrite Ea'|]. repeat split; congruence.
Qed.

Definition frames {A} (w : World) (m : M A) : Prop := frame w (m w).1.

Lemma frames_bind {A B} w (m : M A) (k : A -> M B) :
  frames w m -> (forall w' a, m w = (w', Ok a) -> frames w' (k a)) -> frames w (mbind_ m k).
Proof.
  unfold frames, mbind_. destruct (m w) as [w' [a|e]]; simpl; intros Hm Hk; [|done].
  etransitivity; [exact Hm|by apply Hk].
Qed.

Lemma frames_lift {A} w (r : res A) : frames w (lift r).
Proof. unfold frames. simpl. reflexivity. Qed.

Lemma frames_emit w o e : frames w (emit o e).
Proof.
  split; simpl; auto; [by apply prefix_app_r|by apply same_binding_refl].
Qed.

Lemma frames_upd w f :
  send_req (f (w_ctx w)) = send_req (w_ctx w) ->
  finished_req (f (w_ctx w)) = finished_req (w_ctx w) ->
  same_binding (w_ctx w) (f (w_ctx w)) -> frames w (upd_ctx f).
Proof. by split. Qed.

Lemma frames_forEach {A} (l : list A) (body : A -> M unit) w :
  (forall x w, frames w (body x)) -> frames w (forEach l body).
Proof.
  intros Hb. revert w. induction l as [|x l IH]; intros w; [by apply frames_lift|].
  simpl. apply frames_bind; auto.
Qed.

Lemma frames_get_bind {B} w (k : World -> M B) : frames w (k w) -> frames w (mbind_ get k).
Proof. done. Qed.

Ltac frames_step :=
  lazymatch goal with
  | |- frames _ (mbind_ get _) => apply frames_get_bind
  | |- frames _ (mbind_ _ _) => apply frames_bind; [|intros ? ? ?]
  | |- frames _ (ret _) => apply frames_lift
  | |- frames _ (throw _) => apply frames_lift
  | |- frames _ (lift _) => apply frames_lift
  | |- frames _ (log_worker _) => unfold log_worker
  | |- frames _ (emit _ _) => apply frames_emit
  | |- frames _ (forEach _ _) => apply frames_forEach; intros
  | |- frames _ (if ?b then _ else _) => destruct b eqn:?
  | |- frames _ (upd_ctx _) => apply frames_upd; [done|done|by apply same_binding_refl]
  end.

Lemma frames_refresh w : frames w (refresh_dst_info stub out).
Proof.
  unfold refresh_dst_info. frames_step; [frames_step|].
  match goal with E : lift _ _ = _ |- _ => injection E as <- _ end.
  apply frames_get_bind. destruct a as [new|], (dstinfo (w_ctx w)) as [old|] eqn:Edst;
    [| |repeat frames_step..].
  - frames_step; [repeat frames_step|]. apply frames_upd; [done|done|].
    intros d E. rewrite Edst in E. injection E as <-. simpl. eauto 10.
  - (* nothing was bound before *)
    unfold frames, mbind_, upd_ctx, lift, get, throw. cbv zeta. simpl.
    destruct (compute_valid_ranks_pd _ _ _) as [vr|]; simpl;
      [destruct (cassert _); simpl;
        [destruct (cassert _); simpl;
          [destruct (select_parse_block _ _ _ _ _) as [[f k]|]|]|]|];
      split; simpl; auto; intros d E; congruence.
Qed.

Lemma frames_try_create_channel w : frames w (try_create_channel stub out).
Proof.
  unfold try_create_channel. frames_step. frames_step; [frames_step|].
  frames_step; [apply frames_refresh|]. frames_step.
  destruct (dstinfo _); [|frames_step]. repeat frames_step.
Qed.

Lemma frames_call_parse_block w t : frames w (call_parse_block stub t).
Proof.
  unfold call_parse_block. frames_step. cbv zeta.
  destruct (parse_block (w_ctx w)), (dstinfo (w_ctx w)); repeat frames_step.
Qed.

Lemma frames_send_requests w : frames w (send_requests stub out).
Proof.
  unfold send_requests. frames_step; [apply frames_try_create_channel|]. repeat frames_step.
  - apply frames_call_parse_block.
  - destruct (send_blocks _) as [|[|? ?] ?]; [frames_step..|].
    unfold do_send. repeat frames_step; cbv zeta; repeat frames_step.
Qed.

(** *** Successful sends *)

(** All channel calls of a batch over layers [lo, hi). *)
Definition layer_events (lo hi : Z) : list Event :=
  flat_map (fun i => [EvWaitLayer i; EvSendData i]) (seqZ lo (hi - lo)).

Lemma emit_ok o e w w' : emit o e w = (w', Ok tt) ->
  o = Ok tt /\ w' = mkWorld (w_ctx w) (w_states w) (w_trace w ++ [e]).
Proof. unfold emit. by intros [= <- ->]. Qed.

Lemma layer_loop_ok layers w w' :
  forEach layers (fun i =>
    do: emit (o_channel out (EvWaitLayer i)) (EvWaitLayer i);
    emit (o_channel out (EvSendData i)) (EvSendData i)) w = (w', Ok tt) ->
  w' = mkWorld (w_ctx w) (w_states w)
         (w_trace w ++ flat_map (fun i => [EvWaitLayer i; EvSendData i]) layers).
Proof.
  revert w. induction layers as [|i layers IH]; intros w Hl; simpl in Hl.
  - injection Hl as <-. rewrite app_nil_r. by destruct w.
  - apply bind_ok in Hl as (w1 & [] & H1 & Hl). apply bind_ok in H1 as (w2 & [] & H2 & H1).
    apply emit_ok in H2 as [_ ->]. apply emit_ok in H1 as [_ ->].
    apply IH in Hl as ->. simpl. by rewrite <- !app_assoc.
Qed.

Lemma do_send_ok w w' :
  do_send stub out w = (w', Ok tt) ->
  w' = mkWorld (set_flush_out (o_flush_text out) (w_ctx w)) (w_states w) (w_trace w ++
         EvRegister (send_blocks (w_ctx w)) (tpkind (w_ctx w))
         :: layer_events (start_layer_ stub) (num_layers_ stub) ++ [EvFlush]) /\
  o_channel out EvFlush = Ok tt.
Proof.
  unfold do_send, layer_events. intros Hd. unfold mbind_ at 1, get in Hd. cbv zeta in Hd.
  apply bind_ok in Hd as (w1 & [] & H1 & Hd). apply emit_ok in H1 as [_ ->].
  apply bind_ok in Hd as (w1 & [] & H1 & Hd). apply layer_loop_ok in H1 as ->.
  apply bind_ok in Hd as (w1 & [] & H1 & Hd). injection H1 as <-.
  apply emit_ok in Hd as [Hf ->]. simpl. split; [|done]. by rewrite <- !app_assoc.
Qed.

(** When the guarded part returns, either there was nothing to copy for this rank or
    every layer was waited for, sent, and the channel flushed. *)
Lemma send_requests_ok w w' :
  send_requests stub out w = (w', Ok tt) ->
  match send_blocks (w_ctx w') with
  | (_ :: _) :: _ => exists pre, w_trace w' = w_trace w ++ pre ++
      EvRegister (send_blocks (w_ctx w')) (tpkind (w_ctx w'))
      :: layer_events (start_layer_ stub) (num_layers_ stub) ++ [EvFlush]
  | _ => True
  end.
Proof.
  intros Hs. unfold send_requests in Hs.
  apply bind_ok in Hs as (w1 & [] & H1 & Hs).
  pose proof (frames_try_create_channel w) as Hf1. unfold frames in Hf1. rewrite H1 in Hf1.
  unfold mbind_ at 1, get in Hs.
  apply bind_ok in Hs as (w2 & ? & H2 & Hs). apply assert_ok in H2 as ->.
  apply bind_ok in Hs as (w2 & ? & H2 & Hs). apply assert_ok in H2 as ->.
  apply bind_ok in Hs as (w2 & ? & H2 & Hs).
  assert (Hf2 : frame w1 w2).
  { assert (Hf : frames w1 (forEach (send_req (w_ctx w1)) (call_parse_block stub))).
    { frames_step. apply frames_call_parse_block. }
    unfold frames in Hf. by rewrite H2 in Hf. }
  unfold mbind_ at 1, get in Hs.
  destruct (send_blocks (w_ctx w2)) as [|[|blk bl] rest] eqn:Esb;
    [injection Hs as <-; by rewrite Esb..|].
  apply bind_ok in Hs as (w3 & ? & H3 & Hs). apply forEach_lift_world in H3 as ->.
  apply do_send_ok in Hs as [-> _]. simpl. rewrite Esb.
  destruct (fr_trace _ _ Hf1) as [pre1 Hp1], (fr_trace _ _ Hf2) as [pre2 Hp2].
  exists (pre1 ++ pre2). simpl in Hp1. rewrite Hp2, Hp1, <- !app_assoc. done.
Qed.

Lemma frames_try w (m h : M unit) :
  frames w m -> (forall w', frames w' h) -> frames w (try_catch m h).
Proof.
  unfold frames, try_catch. destruct (m w) as [w1 [[]|e]]; simpl; intros Hm Hh; [done|].
  destruct (is_exception e); [|done]. etransitivity; [exact Hm|apply Hh].
Qed.

Lemma frames_rpc_send_done w reqs : frames w (rpc_send_done stub out reqs).
Proof.
  unfold rpc_send_done. repeat frames_step. destruct (send_done_buf _ _ _).
  repeat (apply frames_try; [frames_step|intros]). frames_step.
Qed.

Lemma rpc_send_done_ch w w' reqs r :
  rpc_send_done stub out reqs w = (w', r) -> ch (w_ctx w') = ch (w_ctx w).
Proof.
  unfold rpc_send_done, mbind_, get.
  destruct (lift _ w) as [w1 [[]|]] eqn:E1; unfold lift in E1; injection E1 as <- _;
    [|by intros [= <- _]].
  destruct (forEach reqs _ w) as [w2 [[]|]] eqn:E2;
    apply forEach_lift_world in E2 as ->; [|by intros [= <- _]].
  destruct (send_done_buf _ _ _). unfold try_catch, emit, ret. simpl.
  destruct (o_rpc out false) as [[]|e]; [by intros [= <- _]|].
  destruct (is_exception e); [|by intros [= <- _]].
  destruct (o_rpc out true) as [[]|e']; [by intros [= <- _]|].
  by destruct (is_exception e'); intros [= <- _].
Qed.

(** The outcome of the guarded part, as seen from the classified batch. *)
Definition guarded_outcome (w1 w' : World) (failed : bool) : Prop :=
  if failed then exists e w2, send_requests stub out w1 = (w2, Err e) /\
    is_exception e = true /\ ch (w_ctx w') = false
  else exists w2, send_requests stub out w1 = (w2, Ok tt) /\ prefix (w_trace w2) (w_trace w').

Lemma guarded_ok tasks w1 w2 :
  (if vsize (send_req (w_ctx w1)) =? 0 then ret tt
   else try_catch (send_requests stub out) (fail_batch tasks)) w1 = (w2, Ok tt) ->
  exists failed,
    finished_req (w_ctx w2) = finished_req (w_ctx w1) /\
    (send_req (w_ctx w1) = [] -> failed = false) /\
    (forall t, t ∈ tasks -> state_of (w_states w2) t =
       if failed then FAILED else state_of (w_states w1) t) /\
    (send_req (w_ctx w1) <> [] -> guarded_outcome w1 w2 failed).
Proof.
  destruct (send_req (w_ctx w1)) as [|r rs] eqn:Er.
  { simpl. intros [= <-]. exists false. repeat split; auto. done. }
  change (vsize (r :: rs) =? 0) with false. cbv iota.
  unfold try_catch. destruct (send_requests stub out w1) as [w3 [[]|e]] eqn:Es.
  - intros [= <-]. pose proof (frames_send_requests w1) as Hf. unfold frames in Hf.
    rewrite Es in Hf. destruct Hf. simpl in *. exists false. split; [done|]. split; [done|]. split.
    + intros t _. by rewrite fr_states0.
    + intros _. unfold guarded_outcome. eauto.
  - destruct (is_exception e) eqn:Ee; [|done]. intros Hfb.
    apply fail_batch_ok in Hfb as (Ec & Et & Hall).
    pose proof (frames_send_requests w1) as Hf. unfold frames in Hf. rewrite Es in Hf.
    destruct Hf. simpl in *. exists true. rewrite Ec. split; [done|]. split; [done|]. split; [done|].
    intros _. exists e, w3. rewrite Ec. done.
Qed.

Lemma NoDup_fmap_filter {A B} (f : A -> B) (P : A -> Prop) `{!forall x, Decision (P x)} l :
  NoDup (f <$> l) -> NoDup (f <$> filter P l).
Proof.
  induction l as [|x l IH]; [done|]. rewrite filter_cons. cbn [fmap list_fmap].
  rewrite NoDup_cons. intros [Hx Hl]. destruct (decide (P x)); [|auto].
  cbn [fmap list_fmap]. apply NoDup_cons. split; [|auto].
  intros Hin. apply Hx. apply list_elem_of_fmap in Hin as (y & -> & Hy).
  apply list_elem_of_filter in Hy as [_ Hy]. by apply list_elem_of_fmap_2.
Qed.

Lemma do_task_ok tasks w w' :
  send_req (w_ctx w) = [] -> finished_req (w_ctx w) = [] -> NoDup (req_ptr <$> tasks) ->
  do_task stub out tasks w = (w', Ok tt) ->
  let pending := filter (fun t => sends (w_states w) t) tasks in
  exists w1 failed,
    w_states w1 = w_states w /\ w_trace w1 = w_trace w /\
    w_ctx w1 = set_reqs pending (filter (fun t => reach_last_token t) tasks) (w_ctx w) /\
    (pending = [] -> failed = false) /\
    (pending <> [] -> guarded_outcome w1 w' failed) /\
    forall t, t ∈ tasks ->
      state_of (w_states w') t = settle failed (state_of (w_states w) t) t.
Proof.
  intros Hs0 Hf0 Hnd Hdo pending. unfold do_task in Hdo.
  unfold mbind_ at 1, get at 1 in Hdo. cbv zeta in Hdo.
  do 5 (apply bind_ok in Hdo as (wa & ? & Ha & Hdo); apply assert_ok in Ha as ->).
  apply bind_ok in Hdo as (w1 & [] & Hcl & Hdo).
  apply classify_all_ok in Hcl as (Es1 & Et1 & Ec1). rewrite Hs0, Hf0 in Ec1. simpl in Ec1.
  fold pending in Ec1. unfold mbind_ at 1, get at 1 in Hdo.
  apply bind_ok in Hdo as (w2 & [] & Hg & Hdo).
  apply guarded_ok in Hg as (failed & Hfin & Hnil & Hst & Hout).
  assert (Hsr : send_req (w_ctx w1) = pending) by (by rewrite Ec1).
  assert (Hfr : finished_req (w_ctx w1) = filter (fun t => reach_last_token t) tasks)
    by (by rewrite Ec1).
  rewrite Hsr in Hnil, Hout. rewrite Hfr in Hfin.
  unfold mbind_ at 1, get at 1 in Hdo. apply bind_ok in Hdo as (w3 & [] & Hfi & Hdo).
  rewrite Hfin in Hfi, Hdo.
  assert (Hnd' : NoDup (req_ptr <$> filter (fun t => reach_last_token t) tasks)).
  { by apply NoDup_fmap_filter. }
  apply finish_all_ok in Hfi as (Ec3 & Et3 & Hall); [|done].
  assert (Hw' : w_states w' = w_states w3 /\ prefix (w_trace w3) (w_trace w') /\
                ch (w_ctx w') = ch (w_ctx w3)).
  { destruct (vsize (filter _ tasks) =? 0); [by injection Hdo as <-|].
    pose proof (frames_rpc_send_done w3 (filter (fun t => reach_last_token t) tasks)) as Hf.
    pose proof (rpc_send_done_ch _ _ _ _ Hdo). unfold frames in Hf. rewrite Hdo in Hf.
    destruct Hf. auto. }
  destruct Hw' as (Es' & Htr' & Hch').
  exists w1, failed. split; [done|]. split; [done|]. split; [done|]. split; [done|]. split.
  - intros Hp. specialize (Hout Hp). unfold guarded_outcome in *. destruct failed.
    + destruct Hout as (e & wx & ? & ? & ?). exists e, wx. rewrite Hch', Ec3. done.
    + destruct Hout as (wx & ? & ?). exists wx. split; [done|]. rewrite <- Et3 in *.
      by transitivity (w_trace w3).
  - intros t Ht. rewrite Es'. destruct (Hall t) as [Hin Hno]. unfold settle.
    rewrite <- Es1. destruct (reach_last_token t) eqn:El.
    + rewrite Hin by (apply list_elem_of_filter; by rewrite El).
      rewrite (Hst t Ht). by destruct failed, (state_of (w_states w1) t).
    + rewrite Hno, (Hst t Ht); [by destruct failed, (state_of (w_states w1) t)|].
      intros Hp. apply list_elem_of_fmap in Hp as (t' & Hpt & Ht').
      apply list_elem_of_filter in Ht' as [Hl' Ht'].
      assert (t = t') as ->; [|by rewrite El in Hl'].
      apply list_elem_of_lookup in Ht as [i Hi]. apply list_elem_of_lookup in Ht' as [j Hj].
      assert (i = j) as ->; [|congruence].
      apply (NoDup_lookup _ i j (req_ptr t) Hnd); rewrite list_lookup_fmap; [by rewrite Hi|].
      by rewrite Hj, Hpt.
Qed.
End Outcome.

(** ** A destination stays bound *)

Section Binding.
Context `{Env} (stub : Stub).

Definition binds {A} (w : World) (m : M A) : Prop := same_binding (w_ctx w) (w_ctx (m w).1).

#[local] Instance same_binding_preorder : PreOrder same_binding.
Proof.
  split; [intros c; by apply same_binding_refl|].
  intros x y z Hxy Hyz d E. destruct (Hxy d E) as ([a Ea] & ? & ? & ? & ? & ?).
  destruct (Hyz _ Ea) as ([a' Ea'] & ? & ? & ? & ? & ?).
  split; [by exists a'; rewrite Ea'|]. repeat split; congruence.
Qed.

Lemma binds_bind {A B} w (m : M A) (k : A -> M B) :
  binds w m -> (forall w' a, binds w' (k a)) -> binds w (mbind_ m k).
Proof.
  unfold binds, mbind_. destruct (m w) as [w' [a|e]]; simpl; intros Hm Hk; [|done].
  etransitivity; [exact Hm|by apply Hk].
Qed.

Lemma binds_same {A} w (m : M A) : w_ctx (m w).1 = w_ctx w -> binds w m.
Proof. unfold binds. intros ->. reflexivity. Qed.

Lemma binds_forEach {A} (l : list A) (body : A -> M unit) w :
  (forall x w, binds w (body x)) -> binds w (forEach l body).
Proof.
  intros Hb. revert w. induction l as [|x l IH]; intros w; [by apply binds_same|].
  simpl. by apply binds_bind.
Qed.

Lemma binds_try w (m h : M unit) :
  binds w m -> (forall w', binds w' h) -> binds w (try_catch m h).
Proof.
  unfold binds, try_catch. destruct (m w) as [w1 [[]|e]]; simpl; intros Hm Hh; [done|].
  destruct (is_exception e); [|done]. etransitivity; [exact Hm|apply Hh].
Qed.

Ltac binds_step :=
  lazymatch goal with
  | |- binds _ (mbind_ _ _) => apply binds_bind; [|intros]
  | |- binds _ (forEach _ _) => apply binds_forEach; intros
  | |- binds _ (if ?b then _ else _) => destruct b
  | |- binds _ (match ?p with pair _ _ => _ end) => destruct p
  | |- binds _ (try_catch _ _) => apply binds_try; [|intros]
  | |- binds _ (upd_ctx _) => by apply same_binding_refl
  | |- binds _ _ => by apply binds_same
  end.

Lemma binds_send_batch out tasks w : binds w (send_batch stub out tasks).
Proof.
  unfold send_batch, clear, do_task, classify, fail_batch, finish, rpc_send_done. cbv zeta.
  repeat (binds_step || apply (frames_send_requests stub out)).
Qed.

Lemma binds_run_batches batches w : binds w (run_batches stub batches).
Proof. unfold run_batches. binds_step. apply binds_send_batch. Qed.
End Binding.

(** ** Properties *)

(** C14: Every parse function the stub can select, for every cache shape and TP relation: on
    well-typed workers and tasks it terminates, and a normal return only appends records
    that lie inside the tensors of both workers. *)
Theorem selected_parse_block_terminates_in_range `{Env} shape src dst sel_p_tp dst_tp f k
    vr ks kr task sb :
  wf_worker src -> wf_worker dst -> wf_task task ->
  select_parse_block shape src dst sel_p_tp dst_tp = Some (f, k) ->
  f src dst vr ks kr task sb <> Err OutOfFuel /\
  forall sb', f src dst vr ks kr task sb = Ok sb' ->
    sb' = sb \/
    forall i bl, sb' !! i = Some bl ->
      exists new, bl = default [] (sb !! i) ++ new /\
        Forall (fun blk => exists b,
          make_ipc_block_bounds src dst (Z.of_nat i) = Ok b /\ in_bounds b blk) new.
Proof.
  intros Hsrc Hdst Ht Hsel.
  destruct (select_parse_block_spec (mkStub "" 0 src 0 0 false) _ _ _ _ _ _ Hsel) as [n Hspec].
  pose proof (parse_block_extends src dst vr ks kr task sb Hsrc Hdst Ht) as Hext.
  split; [by eapply wpr_no_fuel|]. intros sb' Hok.
  destruct (wpr_elim _ _ _ Hext Hok) as [->|[_ Hgrow]]; [by left|right]. exact Hgrow.
Qed.

(** C10: Any sequence of batches of a send stub, whatever the naming service, the channels
    and the RPC answer: the model never runs out of loop fuel, and every record ever
    registered with a channel lies inside the registered tensors of the source and of the
    bound destination. *)
Theorem registered_records_in_range `{Env} stub states batches :
  wf_worker (src_info_ stub) ->
  (forall out tasks, (out, tasks) ∈ batches -> outside_ok out /\ Forall wf_task tasks) ->
  let r := run_batches stub batches (init_world states) in
  r.2 <> Err OutOfFuel /\
  forall data kind, EvRegister data kind ∈ w_trace r.1 ->
    exists d, dstinfo (w_ctx r.1) = Some d /\
      forall i bl blk, data !! i = Some bl -> blk ∈ bl ->
        exists b, make_ipc_block_bounds (src_info_ stub) d (Z.of_nat i) = Ok b /\ in_bounds b blk.
Proof.
  intros Hsrc Hb r.
  assert (Hk : keeps stub (init_world states) (run_batches stub batches)).
  { apply keeps_forEach; [apply init_world_inv|]. intros [out tasks] w Hin HI.
    destruct (Hb out tasks Hin). by apply keeps_send_batch. }
  destruct Hk as [[_ _ _ _ Ht] Hf]. split; [done|]. intros data kind Hin.
  rewrite Forall_forall in Ht. exact (Ht _ Hin).
Qed.

(** C11: One batch: either every task's request ends FAILED, the channel has been dropped
    and the guarded part threw, or the guarded part succeeded (or nothing was pending) and
    exactly the requests that reached their last token are settled, OK when the step
    computed tokens and FAILED when it did not; the context's per-batch lists are empty
    afterwards. The buffer of the flush report is empty as well. *)
Theorem send_batch_outcome `{Env} stub out tasks w w' :
  send_req (w_ctx w) = [] -> finished_req (w_ctx w) = [] -> NoDup (req_ptr <$> tasks) ->
  send_batch stub out tasks w = (w', Ok tt) ->
  let pending := filter (fun t => sends (w_states w) t) tasks in
  let w1 := mkWorld (set_reqs pending (filter (fun t => reach_last_token t) tasks) (w_ctx w))
              (w_states w) (w_trace w) in
  exists failed,
    (forall t, t ∈ tasks -> state_of (w_states w') t = settle failed (state_of (w_states w) t) t) /\
    (if failed then ch (w_ctx w') = false /\
       exists e w2, send_requests stub out w1 = (w2, Err e) /\ is_exception e = true
     else pending = [] \/ exists w2, send_requests stub out w1 = (w2, Ok tt)) /\
    flush_out_buf (w_ctx w') = "" /\
    send_blocks (w_ctx w') = [] /\ send_req (w_ctx w') = [] /\ finished_req (w_ctx w') = [].
Proof.
  intros Hs Hf Hnd Hsend pending w1. unfold send_batch in Hsend.
  apply bind_ok in Hsend as (wa & ? & H1 & Hsend). apply assert_ok in H1 as ->.
  apply bind_ok in Hsend as (w2 & [] & Hdo & Hcl). injection Hcl as <-.
  destruct (do_task_ok stub out tasks w w2 Hs Hf Hnd Hdo)
    as (w3 & failed & Es & Et & Ec & Hnil & Hg & Hst).
  assert (w3 = w1) as -> by (destruct w3; simpl in *; subst; done).
  exists failed. split; [exact Hst|]. split; [|done].
  fold pending in Hnil, Hg. destruct pending as [|t0 l] eqn:E.
  - rewrite Hnil by done. by left.
  - destruct failed; destruct (Hg ltac:(done)) as (x1 & Hx); [destruct Hx as (y1 & ? & ? & ?)|destruct Hx as [Hx _]].
    + split; [done|]. by exists x1, y1.
    + right. by exists x1.
Qed.

(** C12: A request of the batch moves from INPROCESS to OK only in a step that reaches its
    last token with computed tokens, after it was parsed and, if there was anything to send,
    after its records were registered, every layer was waited for and sent in order, and the
    channel was flushed. *)
Theorem ok_only_after_flush `{Env} stub out tasks w w' t :
  send_req (w_ctx w) = [] -> finished_req (w_ctx w) = [] -> NoDup (req_ptr <$> tasks) ->
  send_batch stub out tasks w = (w', Ok tt) -> t ∈ tasks ->
  state_of (w_states w) t = INPROCESS -> state_of (w_states w') t = OK ->
  reach_last_token t = true /\ 0 < new_tokens t /\
  exists w1 w2, t ∈ send_req (w_ctx w1) /\ w_trace w1 = w_trace w /\
    send_requests stub out w1 = (w2, Ok tt) /\
    prefix (w_trace w2) (w_trace w') /\
    match send_blocks (w_ctx w2) with
    | (_ :: _) :: _ => exists pre, w_trace w2 = w_trace w ++ pre ++
        EvRegister (send_blocks (w_ctx w2)) (tpkind (w_ctx w2))
        :: layer_events (start_layer_ stub) (num_layers_ stub) ++ [EvFlush]
    | _ => True
    end.
Proof.
  intros Hs Hf Hnd Hsend Ht Hbefore Hafter. unfold send_batch in Hsend.
  apply bind_ok in Hsend as (w1 & ? & H1 & Hsend). apply assert_ok in H1 as ->.
  apply bind_ok in Hsend as (w2 & [] & Hdo & Hcl). injection Hcl as <-.
  destruct (do_task_ok stub out tasks w w2 Hs Hf Hnd Hdo)
    as (w3 & failed & Es3 & Et3 & Ec3 & Hnil & Hg & Hst). simpl in *.
  rewrite (Hst t Ht), Hbefore in Hafter. unfold settle in Hafter.
  destruct failed; [done|]. destruct (reach_last_token t); [|done].
  destruct (Z.leb_spec (new_tokens t) 0); [done|]. split; [done|]. split; [lia|].
  assert (Hin : t ∈ filter (fun t => sends (w_states w) t) tasks).
  { apply list_elem_of_filter. split; [|done]. unfold sends.
    rewrite (proj2 (Z.leb_gt _ _)) by lia. rewrite Hbefore. done. }
  assert (Hp : filter (fun t => sends (w_states w) t) tasks <> []) by (intros E; rewrite E in Hin; by apply elem_of_nil in Hin).
  destruct (Hg Hp) as (w4 & Hok & Hpre). exists w3, w4.
  split; [by rewrite Ec3|]. split; [done|]. split; [done|]. split; [done|].
  pose proof (send_requests_ok stub out w3 w4 Hok) as Hev. rewrite Et3 in Hev. done.
Qed.

(** Once a stub is bound to a destination, no later sequence of batches changes the
    destination's identity and layout, the parse function, the transfer kind or the
    effective rank and TP size; only the address may follow the naming service. *)
Theorem destination_stays_bound `{Env} stub batches w d :
  dstinfo (w_ctx w) = Some d ->
  let c := w_ctx w in
  let c' := w_ctx (run_batches stub batches w).1 in
  (exists a, dstinfo c' = Some (set_addr a d)) /\ parse_block c' = parse_block c /\
  tpkind c' = tpkind c /\ valid_ranks c' = valid_ranks c /\
  kvt_tp_size c' = kvt_tp_size c /\ kvt_tp_rank c' = kvt_tp_rank c.
Proof. intros Hd. exact (binds_run_batches stub batches w d Hd). Qed.

Lemma same_dst_refl d : same_dst d d = true.
Proof. unfold same_dst. rewrite !bool_decide_eq_true_2 by done. by rewrite !Z.eqb_refl. Qed.

Lemma refresh_bound `{Env} stub out w d :
  dstinfo (w_ctx w) = Some d -> o_naming out = Ok (Some d) ->
  refresh_dst_info stub out w = (mkWorld (set_dstinfo (Some d) (w_ctx w)) (w_states w) (w_trace w), Ok tt).
Proof.
  intros Hd Hn. unfold refresh_dst_info, mbind_ at 1, lift. rewrite Hn.
  unfold mbind_ at 1, get. rewrite Hd, same_dst_refl. cbn [negb]. unfold upd_ctx. by rewrite set_addr_self.
Qed.

(** The throw of an unsupported shape comes after the destination was bound. *)
Lemma refresh_unsupported `{Env} stub out w d vr :
  dstinfo (w_ctx w) = None -> parse_block (w_ctx w) = None -> tpkind (w_ctx w) = UNKNOWN ->
  o_naming out = Ok (Some d) ->
  compute_valid_ranks_pd (engine_tp_size (src_info_ stub)) (engine_tp_size d)
    (num_kv_heads (src_info_ stub)) = Ok vr ->
  select_parse_block env_cache_shape (src_info_ stub) d
    (selection_p_tp env_cache_shape (src_info_ stub) (bit_count vr)) (engine_tp_size d) = None ->
  exists w1, refresh_dst_info stub out w = (w1, Err RuntimeError) /\
    dstinfo (w_ctx w1) = Some d /\ parse_block (w_ctx w1) = None /\ ch (w_ctx w1) = ch (w_ctx w).
Proof.
  intros Hd Hp Hk Hn Hvr Hsel. unfold refresh_dst_info, mbind_ at 1, lift at 1. rewrite Hn.
  unfold mbind_ at 1, get at 1. rewrite Hd.
  unfold mbind_ at 1, upd_ctx at 1. unfold mbind_ at 1, lift at 1. rewrite Hvr.
  unfold mbind_ at 1, upd_ctx at 1. unfold mbind_ at 1, get at 1.
  unfold mbind_ at 1, lift at 1. cbn [w_ctx set_ranks_of set_dstinfo parse_block tpkind].
  rewrite Hp. cbn [is_none]. rewrite cassert_true by done.
  unfold mbind_ at 1, lift at 1. rewrite Hk, cassert_true by done.
  rewrite Hsel. unfold throw. eexists. split; [reflexivity|]. done.
Qed.

(** A bound destination without a parse function: the batch gets past the connection. *)
Lemma null_parse_block_crash `{Env} stub out w d text :
  dstinfo (w_ctx w) = Some d -> parse_block (w_ctx w) = None -> ch (w_ctx w) = false ->
  send_req (w_ctx w) <> [] ->
  o_naming out = Ok (Some d) -> to_string d = Ok text -> (forall d, o_create out d = Ok tt) ->
  exists w', send_requests stub out w = (w', Err (if ndebug then Undefined else AssertFailed)).
Proof.
  intros Hd Hp Hch Hreq Hn Htext Hc. pose proof (refresh_bound stub out w d Hd Hn) as Hr.
  unfold send_requests, try_create_channel.
  unfold mbind_ at 1. unfold mbind_ at 1, get. rewrite Hch. cbn [andb].
  unfold mbind_ at 1. rewrite Hr. unfold mbind_ at 1, get. cbn [w_ctx dstinfo set_dstinfo].
  unfold mbind_ at 1, emit. rewrite Hc. unfold mbind_ at 1, upd_ctx at 1.
  unfold log_worker, mbind_ at 1, lift at 1. rewrite Htext. unfold ret at 1.
  unfold mbind_ at 1, get. unfold mbind_ at 1, lift at 1.
  cbn [w_ctx parse_block set_ch set_dstinfo]. rewrite Hp. cbn [is_none negb].
  unfold cassert at 1. destruct ndebug eqn:En; [|eauto].
  unfold mbind_ at 1, lift at 1, cassert. rewrite En. cbn [w_ctx send_req set_ch set_dstinfo].
  destruct (send_req (w_ctx w)) as [|t rest]; [done|]. cbn [forEach].
  unfold mbind_ at 1. unfold mbind_ at 1. unfold call_parse_block at 1, mbind_ at 1, get.
  cbn [w_ctx parse_block dstinfo set_ch set_dstinfo]. rewrite Hp. cbn. eauto.
Qed.

(** When the shape and TP relation have no parse function, the first batch throws after
    binding the destination; a later batch then gets past the connection and calls a null
    parse function: an assertion failure in debug builds, undefined behaviour in release
    builds. *)
Theorem unsupported_shape_crashes_next_batch `{Env} stub out w d vr :
  dstinfo (w_ctx w) = None -> parse_block (w_ctx w) = None -> tpkind (w_ctx w) = UNKNOWN ->
  ch (w_ctx w) = false -> o_naming out = Ok (Some d) -> is_Some (match to_string d with Ok t => Some t | Err _ => None end) ->
  (forall d, o_create out d = Ok tt) ->
  compute_valid_ranks_pd (engine_tp_size (src_info_ stub)) (engine_tp_size d)
    (num_kv_heads (src_info_ stub)) = Ok vr ->
  select_parse_block env_cache_shape (src_info_ stub) d
    (selection_p_tp env_cache_shape (src_info_ stub) (bit_count vr)) (engine_tp_size d) = None ->
  exists w1, send_requests stub out w = (w1, Err RuntimeError) /\
    forall w2, send_req (w_ctx w2) <> [] -> ch (w_ctx w2) = false ->
      dstinfo (w_ctx w2) = dstinfo (w_ctx w1) -> parse_block (w_ctx w2) = parse_block (w_ctx w1) ->
      exists w', send_requests stub out w2 = (w', Err (if ndebug then Undefined else AssertFailed)).
Proof.
  intros Hd Hp Hk Hch Hn [text Htext] Hc Hvr Hsel. destruct (to_string d) as [t|] eqn:Et; [|done]. clear text Htext.
  destruct (refresh_unsupported stub out w d vr Hd Hp Hk Hn Hvr Hsel) as (w1 & Hr & Hd1 & Hp1 & _).
  exists w1. split.
  - unfold send_requests, try_create_channel, mbind_ at 1. unfold mbind_ at 1, get at 1.
    rewrite Hch. cbn [andb]. unfold mbind_ at 1. by rewrite Hr.
  - intros w2 Hreq Hch2 Hd2 Hp2.
    apply (null_parse_block_crash stub out w2 d t); congruence.
Qed.

(** ** Instances *)

(** A sender of shape 1 facing one decode rank, collaborators that succeed, and a request
    of one block sent in one step. *)
Definition example_stub : Stub :=
  mkStub "d" 0 (one_tensor_worker 1 0 64 16 4) 0 1 false.
Definition example_outside : Outside :=
  mkOutside (Ok (Some (one_tensor_worker 1 0 64 16 4))) true
    (fun _ => Ok tt) (fun _ => Ok tt) "4 blocks" (fun _ => Ok tt).
Definition example_step : ReqSendTask := example_task [[1]] [[2]] 0 4 true.
Definition shape_env (shape : Z) : Env :=
  {| ndebug := false; env_cache_shape := shape; env_pad_last_attn_block := true;
     env_bf162fp8_conversion := false |}.

Lemma example_outside_ok : outside_ok example_outside.
Proof. constructor; try done. intros d [= <-]. wf_concrete. Qed.

Lemma selected_parse_block_terminates_in_range_witness :
  exists recs,
    parse_block_send_p_eq_d (H := debug_env) (one_tensor_worker 1 0 64 16 4)
      (one_tensor_worker 1 0 64 16 4) 1 1 0 example_step [] = Ok [recs] /\
    Forall (fun blk => exists b,
      make_ipc_block_bounds (H := debug_env) (one_tensor_worker 1 0 64 16 4)
        (one_tensor_worker 1 0 64 16 4) 0 = Ok b /\ in_bounds b blk) recs.
Proof.
  destruct (selected_parse_block_terminates_in_range (H := debug_env) 1
    (one_tensor_worker 1 0 64 16 4) (one_tensor_worker 1 0 64 16 4) 1 1
    (parse_block_send_p_eq_d (H := debug_env)) PEQD 1 1 0 example_step []) as [_ Hall].
  - wf_concrete.
  - wf_concrete.
  - wf_concrete.
  - reflexivity.
  - exists [mkIpcBlock 64 128 64]. split; [reflexivity|].
    destruct (Hall [[mkIpcBlock 64 128 64]] eq_refl) as [|Hi]; [done|].
    destruct (Hi 0%nat [mkIpcBlock 64 128 64] eq_refl) as (new & Hn & Hr).
    cbn in Hn. subst new. exact Hr.
Defined.

Lemma registered_records_in_range_witness :
  let r := run_batches (H := debug_env) example_stub [(example_outside, [example_step])]
             (init_world ∅) in
  r.2 <> Err OutOfFuel /\
  (exists data, EvRegister data PEQD ∈ w_trace r.1 /\ data <> []) /\
  forall data kind, EvRegister data kind ∈ w_trace r.1 ->
    exists d, dstinfo (w_ctx r.1) = Some d /\
      forall i bl blk, data !! i = Some bl -> blk ∈ bl ->
        exists b, make_ipc_block_bounds (H := debug_env) (src_info_ example_stub) d (Z.of_nat i) = Ok b /\
          in_bounds b blk.
Proof.
  assert (W := registered_records_in_range (H := debug_env) example_stub ∅
                 [(example_outside, [example_step])]).
  destruct W as [Hf Hall].
  - wf_concrete.
  - intros out tasks Hin. apply list_elem_of_singleton in Hin as [= -> ->].
    split; [apply example_outside_ok|]. constructor; [wf_concrete|constructor].
  - split; [exact Hf|]. split; [|exact Hall].
    exists [[mkIpcBlock 64 128 64]]. split; [|done]. vm_compute.
    right. left.
Defined.

Lemma pair_second {A B} (p : A * B) b : p.2 = b -> p = (p.1, b).
Proof. destruct p. simpl. congruence. Qed.

(** The example batch, and the same batch when the channel refuses the flush. *)
Definition example_world (out : Outside) : World :=
  (send_batch (H := debug_env) example_stub out [example_step] (init_world ∅)).1.

Lemma example_returns out :
  (send_batch (H := debug_env) example_stub out [example_step] (init_world ∅)).2 = Ok tt ->
  send_batch (H := debug_env) example_stub out [example_step] (init_world ∅) = (example_world out, Ok tt).
Proof. unfold example_world. apply pair_second. Qed.

Definition failing_outside : Outside :=
  mkOutside (o_naming example_outside) true (fun _ => Ok tt)
    (fun e => match e with EvFlush => Err RuntimeError | _ => Ok tt end) "" (fun _ => Ok tt).

Lemma send_batch_outcome_witness :
  let w' := example_world failing_outside in
  state_of (w_states w') example_step = FAILED /\
  exists failed,
    (forall t, t ∈ [example_step] -> state_of (w_states w') t = settle failed INPROCESS t) /\
    (failed = true -> ch (w_ctx w') = false).
Proof.
  split; [vm_compute; reflexivity|].
  destruct (send_batch_outcome (H := debug_env) example_stub failing_outside [example_step]
              (init_world ∅) (example_world failing_outside)) as (failed & Hst & Hch & _).
  - reflexivity.
  - reflexivity.
  - apply NoDup_singleton.
  - apply example_returns. vm_compute. reflexivity.
  - exists failed. split.
    + intros t Ht. rewrite (Hst t Ht). reflexivity.
    + intros ->. apply Hch.
Defined.

Lemma ok_only_after_flush_witness :
  let w' := example_world example_outside in
  reach_last_token example_step = true /\ 0 < new_tokens example_step /\
  state_of (w_states w') example_step = OK /\
  exists w1 w2, example_step ∈ send_req (w_ctx w1) /\
    send_requests (H := debug_env) example_stub example_outside w1 = (w2, Ok tt).
Proof.
  destruct (ok_only_after_flush (H := debug_env) example_stub example_outside [example_step]
              (init_world ∅) (example_world example_outside) example_step)
    as (Hl & Hn & w1 & w2 & Hin & _ & Hs & _).
  - reflexivity.
  - reflexivity.
  - apply NoDup_singleton.
  - apply example_returns. vm_compute. reflexivity.
  - by apply list_elem_of_singleton.
  - reflexivity.
  - vm_compute. reflexivity.
  - split; [exact Hl|]. split; [exact Hn|]. split; [vm_compute; reflexivity|].
    exists w1, w2. split; [exact Hin|exact Hs].
Defined.

Lemma destination_stays_bound_witness :
  exists a, dstinfo (w_ctx (run_batches (H := debug_env) example_stub
    [(example_outside, [example_step])] (example_world failing_outside)).1)
    = Some (set_addr a (one_tensor_worker 1 0 64 16 4)).
Proof.
  apply (destination_stays_bound (H := debug_env) example_stub [(example_outside, [example_step])]
           (example_world failing_outside)).
  vm_compute. reflexivity.
Defined.

(** A FLASH sender of one rank facing two decode ranks: the first batch fails, the second
    one aborts the process. *)
Definition split_outside : Outside :=
  mkOutside (Ok (Some (one_tensor_worker 2 0 64 16 4))) true
    (fun _ => Ok tt) (fun _ => Ok tt) "4 blocks" (fun _ => Ok tt).

Lemma unsupported_shape_crashes_next_batch_witness :
  (exists w1, send_requests (H := shape_env 2) example_stub split_outside (init_world ∅)
    = (w1, Err RuntimeError)) /\
  (run_batches (H := shape_env 2) example_stub
     [(split_outside, [example_step]);
      (split_outside, [mkReqSendTask 1 (req example_step) 0 4 true])] (init_world ∅)).2
  = Err AssertFailed.
Proof.
  split; [|vm_compute; reflexivity].
  destruct (unsupported_shape_crashes_next_batch (H := shape_env 2) example_stub split_outside
              (init_world ∅) (one_tensor_worker 2 0 64 16 4) 1) as (w1 & Hw1 & _);
    try reflexivity; [vm_compute; by eexists|].
  exists w1. exact Hw1.
Defined.
