(* ===== verification/Ranks.v ===== *)
(** Which prefill ranks send, and what their position means to the destination:
    [compute_valid_ranks_pd] and the effective rank of [refresh_dst_info]
    ([src/tx_stub.cpp]). *)

From S2P Require Import Prelude Common TxStub.

(** The senders among the ranks below [r]. *)
Definition senders_below (vr : bitset) (r : Z) : Z :=
  vsize (filter (fun i => Z.testbit vr i = true) (seqZ 0 r)).

(** Prefill ranks served by decode rank [dr] when every decode rank faces [per] of them. *)
Definition senders_of (vr : bitset) (p per dr : Z) : Z :=
  vsize (filter (fun r => Z.testbit vr r = true /\ r / per = dr) (seqZ 0 p)).

(** Head counts the layouts support: fewer heads than ranks must divide evenly. *)
Definition heads_fit (p d h : Z) : Prop :=
  h <= 0 \/ p <= h \/
  (0 < h < p /\ p mod h = 0 /\ (d <= h -> h mod d = 0) /\ (h < d -> d mod h = 0)).

#[export] Instance heads_fit_dec p d h : Decision (heads_fit p d h).
Proof. unfold heads_fit. apply _. Defined.

Lemma filter_none {A} (P : A -> Prop) `{!forall x, Decision (P x)} l :
  (forall x, x ∈ l -> ~ P x) -> filter P l = [].
Proof.
  induction l as [|x l IH]; intros HP; [done|]. rewrite filter_cons_False.
  - apply IH. intros y Hy. apply HP. by constructor.
  - apply HP. constructor.
Qed.

(** The shifted bit count of the code is the number of senders below the rank. *)
Lemma effective_rank_senders_below vr r :
  0 <= r <= MAX_TP_SIZE -> effective_rank vr r = senders_below vr r.
Proof.
  intros Hr. unfold effective_rank, senders_below, bit_count, bit_shl.
  unfold MAX_TP_SIZE in *. rewrite (u64_small (16 - r)) by (unfold W64; lia).
  destruct (Z.ltb_spec (16 - r) 16) as [Hlt|Hge].
  2: { assert (r = 0) as -> by lia. vm_compute. reflexivity. }
  replace (seqZ 0 16) with (seqZ 0 (16 - r) ++ (Z.add (16 - r) <$> seqZ 0 r)).
  2: { rewrite fmap_add_seqZ. replace (16 - r + 0) with (0 + (16 - r)) by lia.
       rewrite <- seqZ_app by lia. f_equal. lia. }
  rewrite filter_app. unfold vsize. rewrite length_app.
  assert (Hlow : filter (fun i => Z.testbit (Z.land (Z.shiftl vr (16 - r)) (Z.ones 16)) i = true)
                   (seqZ 0 (16 - r)) = []).
  { apply filter_none. intros i Hi. rewrite elem_of_seqZ in Hi.
    rewrite Z.land_spec, Z.shiftl_spec_low by lia. done. }
  rewrite Hlow. simpl. f_equal.
  assert (Hgen : forall l, Forall (fun i => 0 <= i < r) l ->
    length (filter (fun i => Z.testbit (Z.land (Z.shiftl vr (16 - r)) (Z.ones 16)) i = true)
              (Z.add (16 - r) <$> l))
    = length (filter (fun i => Z.testbit vr i = true) l)).
  { induction 1 as [|i l Hi Hl IH]; [done|]. cbn [fmap list_fmap]. rewrite !filter_cons.
    assert (E : Z.testbit (Z.land (Z.shiftl vr (16 - r)) (Z.ones 16)) (16 - r + i)
                = Z.testbit vr i).
    { rewrite Z.land_spec, Z.shiftl_spec, Z.ones_spec_low by lia.
      rewrite andb_true_r. f_equal. lia. }
    rewrite E. destruct (decide (Z.testbit vr i = true)); simpl; by rewrite IH. }
  apply Hgen, Forall_forall. intros i Hi. rewrite elem_of_seqZ in Hi. lia.
Qed.

(** The claim for one configuration, decided by computation. *)
Definition partition_ok `{Env} (p d h : Z) : bool :=
  match compute_valid_ranks_pd p d h with
  | Ok vr =>
      let gn := bit_count vr / d in
      (0 <? gn)
      && forallb (fun r => negb (Z.testbit vr r) || (senders_below vr r / gn =? r / (p / d)))
           (seqZ 0 p)
      && forallb (fun dr => senders_of vr p (p / d) dr =? gn) (seqZ 0 d)
  | Err _ => false
  end.

Definition all_configs : list (Z * Z * Z) :=
  flat_map (fun p => flat_map (fun d => (fun h => (p, d, h)) <$> seqZ 0 16) (seqZ 1 p)) (seqZ 1 16).

Lemma partition_all `{Env} :
  forallb (fun c => let '(p, d, h) := c in
    negb ((p mod d =? 0) && bool_decide (heads_fit p d h)) || partition_ok p d h) all_configs = true.
Proof. destruct H as [[] ? ? ?]; vm_compute; reflexivity. Qed.

Lemma compute_valid_ranks_many_heads `{Env} p d h :
  d <= p -> h <= 0 \/ p <= h < 2 ^ 31 ->
  compute_valid_ranks_pd p d h = compute_valid_ranks_pd p d 0.
Proof.
  intros Hdp Hh. unfold compute_valid_ranks_pd.
  destruct (Z.ltb_spec p d); [lia|]. cbn [orb Z.leb].
  destruct (Z.leb_spec h 0); simpl; [done|].
  rewrite u32_small by (unfold W32; lia). destruct (Z.leb_spec p h); [done|lia].
Qed.

(** ** Properties *)

(** C15: Sender selection for P>=D: for all TP sizes up to the supported 16 and the head
    counts the layouts support, compute_valid_ranks_pd succeeds, every destination rank is
    served by the same positive number of sending ranks, and the effective rank of a sender
    divided by that number is the destination rank its position maps to. *)
Theorem valid_ranks_serve_every_destination `{Env} p d h :
  0 < d <= p -> p <= MAX_TP_SIZE -> p mod d = 0 -> heads_fit p d h -> h < 2 ^ 31 ->
  exists vr, compute_valid_ranks_pd p d h = Ok vr /\
    let gn := bit_count vr / d in
    0 < gn /\
    (forall r, 0 <= r < p -> Z.testbit vr r = true -> effective_rank vr r / gn = r / (p / d)) /\
    (forall dr, 0 <= dr < d -> senders_of vr p (p / d) dr = gn).
Proof.
  intros Hd Hp Hmod Hfit Hh.
  assert (Hex : exists h', 0 <= h' < 16 /\ heads_fit p d h' /\
    compute_valid_ranks_pd p d h = compute_valid_ranks_pd p d h').
  { destruct (decide (h <= 0 \/ p <= h)) as [Hm|Hm].
    - exists 0. split; [lia|]. split; [by left|]. apply compute_valid_ranks_many_heads; lia.
    - exists h. unfold MAX_TP_SIZE in Hp. split; [lia|]. done. }
  destruct Hex as (h' & Hh' & Hfit' & ->).
  pose proof partition_all as Hall. rewrite forallb_forall in Hall.
  specialize (Hall (p, d, h')).
  assert (Hin : In (p, d, h') all_configs).
  { unfold all_configs. unfold MAX_TP_SIZE in Hp.
    apply in_flat_map. exists p. split; [apply list_elem_of_In, elem_of_seqZ; lia|].
    apply in_flat_map. exists d. split; [apply list_elem_of_In, elem_of_seqZ; lia|].
    apply list_elem_of_In, list_elem_of_fmap. exists h'. rewrite elem_of_seqZ. auto with lia. }
  specialize (Hall Hin). cbv beta iota in Hall.
  rewrite bool_decide_eq_true_2 in Hall by done. rewrite Hmod in Hall. simpl in Hall.
  unfold partition_ok in Hall. destruct (compute_valid_ranks_pd p d h') as [vr|]; [|done].
  exists vr. split; [done|].
  apply andb_true_iff in Hall as [Hall Hof]. apply andb_true_iff in Hall as [Hgn Hr].
  rewrite forallb_forall in Hr, Hof. split; [lia|]. split.
  - intros r Hrange Hbit. specialize (Hr r). rewrite <- list_elem_of_In, elem_of_seqZ in Hr.
    specialize (Hr ltac:(lia)). rewrite Hbit in Hr. simpl in Hr.
    rewrite effective_rank_senders_below by (unfold MAX_TP_SIZE in *; lia). lia.
  - intros dr Hdr. specialize (Hof dr). rewrite <- list_elem_of_In, elem_of_seqZ in Hof.
    specialize (Hof ltac:(lia)). lia.
Qed.

Lemma valid_ranks_serve_every_destination_witness :
  exists vr, compute_valid_ranks_pd (H := debug_env) 8 4 2 = Ok vr /\
    let gn := bit_count vr / 4 in
    0 < gn /\
    (forall r, 0 <= r < 8 -> Z.testbit vr r = true -> effective_rank vr r / gn = r / (8 / 4)) /\
    (forall dr, 0 <= dr < 4 -> senders_of vr 8 (8 / 4) dr = gn).
Proof.
  apply (valid_ranks_serve_every_destination (H := debug_env) 8 4 2); try done.
  apply (bool_decide_unpack _). vm_compute. exact I.
Defined.

(** ** Outside the supported head counts *)

(** Twelve prefill ranks, four decode ranks and six KV heads pass the assertions of
    compute_valid_ranks_pd, yet six ranks send, the group size rounds down to one and the
    position of the last sender is not a decode rank. *)
Theorem uneven_heads_have_no_destination :
  exists vr, compute_valid_ranks_pd (H := debug_env) 12 4 6 = Ok vr /\
    bit_count vr = 6 /\ bit_count vr / 4 = 1 /\
    Z.testbit vr 10 = true /\ senders_below vr 10 = 5 /\
    effective_rank vr 10 / (bit_count vr / 4) = 5.
Proof. eexists. split; [vm_compute; reflexivity|]. vm_compute. auto. Qed.
