(* ===== verification/SendDone.v ===== *)
(** The completion notice from end to end: the bytes [rpc_send_done] writes
    ([src/tx_stub.cpp]) and the server that reads them
    ([blade_kvt/hybrid_connector/utils.py]: [_client_main], [handle_done_req]). *)

From stdpp Require Import gmap.
From S2P Require Import Prelude Common TxStub.

(** ** The reader *)

(** [await reader.readexactly(n)] on the bytes still to come; [None] is the
    [IncompleteReadError]. *)
Definition readexactly (n : Z) (s : list Z) : option (list Z * list Z) :=
  if vsize s <? n then None else Some (take (Z.to_nat n) s, drop (Z.to_nat n) s).

(** [struct.unpack("=I", buf)]. *)
Definition unpack_I (buf : list Z) : Z :=
  match buf with
  | [b0; b1; b2; b3] => b0 + 256 * b1 + 65536 * b2 + 16777216 * b3
  | _ => 0
  end.

Definition read_u32 (s : list Z) : option (Z * list Z) :=
  match readexactly 4 s with
  | Some (buf, s) => Some (unpack_I buf, s)
  | None => None
  end.

(** [IoRet]: the request id (its encoded bytes), the token count and the error code. *)
Record IoRet := mkIoRet {
  reqid : list Z;
  n : Z;
  ex : option Z;
}.

Definition read_entry (s : list Z) : option (IoRet * list Z) :=
  match readexactly 12 s with
  | None => None
  | Some (lenbuf, s) =>
      let plen := unpack_I (take 4 lenbuf) in
      let code := unpack_I (take 4 (drop 4 lenbuf)) in
      let rlen := unpack_I (drop 8 lenbuf) in
      match readexactly rlen s with
      | None => None
      | Some (reqidbuf, s) =>
          Some (mkIoRet reqidbuf plen (if code =? 0 then None else Some code), s)
      end
  end.

Fixpoint read_entries (k : nat) (s : list Z) : option (list IoRet * list Z) :=
  match k with
  | O => Some ([], s)
  | S k =>
      match read_entry s with
      | None => None
      | Some (r, s) =>
          match read_entries k s with
          | None => None
          | Some (rs, s) => Some (r :: rs, s)
          end
      end
  end.

Definition HAS_PLEN : Z := 0x80000000.

(** The version-1 body: ids first, then (with [HAS_PLEN]) the token counts. *)
Fixpoint read_ids (k : nat) (s : list Z) : option (list (list Z) * list Z) :=
  match k with
  | O => Some ([], s)
  | S k =>
      match read_u32 s with
      | None => None
      | Some (len, s) =>
          match readexactly len s with
          | None => None
          | Some (buf, s) =>
              match read_ids k s with
              | None => None
              | Some (ids, s) => Some (buf :: ids, s)
              end
          end
      end
  end.

Fixpoint read_plens (ids : list (list Z)) (s : list Z) : option (list IoRet * list Z) :=
  match ids with
  | [] => Some ([], s)
  | i :: ids =>
      match read_u32 s with
      | None => None
      | Some (len, s) =>
          match read_plens ids s with
          | None => None
          | Some (rs, s) => Some (mkIoRet i len None :: rs, s)
          end
      end
  end.

(** The body of a done request: the reporting rank and the finished requests. *)
Definition handle_done_req (s : list Z) : option (Z * list IoRet * list Z) :=
  match readexactly 8 s with
  | None => None
  | Some (bodybuf, s) =>
      let flags := unpack_I (take 4 bodybuf) in
      let num_req := unpack_I (drop 4 bodybuf) in
      let worker_tprank := Z.land flags 0xFFFF in
      if negb (Z.land flags HAS_VER2 =? 0) then
        match read_entries (Z.to_nat num_req) s with
        | None => None
        | Some (rs, s) => Some (worker_tprank, rs, s)
        end
      else
        match read_ids (Z.to_nat num_req) s with
        | None => None
        | Some (ids, s) =>
            if negb (Z.land flags HAS_PLEN =? 0) then
              match read_plens ids s with
              | None => None
              | Some (rs, s) => Some (worker_tprank, rs, s)
              end
            else Some (worker_tprank, (fun i => mkIoRet i 0 None) <$> ids, s)
        end
  end.

(** The connection loop: one head and one body after the other, until the stream ends or
    a head is unknown.  Every round consumes at least the head. *)
Fixpoint client_main (fuel : nat) (s : list Z) : list (Z * Z * list IoRet) :=
  match fuel with
  | O => []
  | S fuel =>
      match read_u32 s with
      | None => []
      | Some (head, s) =>
          if (head =? SEND_DONE_REQ) || (head =? SAVE_DONE2_REQ) then
            match handle_done_req s with
            | None => []
            | Some (rank, rs, s) => (head, rank, rs) :: client_main fuel s
            end
          else []
      end
  end.

(** ** Lemmas *)

Lemma readexactly_app u s : readexactly (vsize u) (u ++ s) = Some (u, s).
Proof.
  unfold readexactly, vsize. rewrite length_app.
  rewrite (proj2 (Z.ltb_ge _ _)) by lia. rewrite Nat2Z.id. by rewrite take_app_length, drop_app_length.
Qed.

Lemma unpack_u32le z : 0 <= z < W32 -> unpack_I (u32le z) = z.
Proof.
  unfold W32. intros Hz. unfold unpack_I, u32le.
  pose proof (Z.div_mod z 256 ltac:(lia)). pose proof (Z.div_mod (z / 256) 256 ltac:(lia)).
  pose proof (Z.div_mod (z / 65536) 256 ltac:(lia)).
  replace (z / 65536) with (z / 256 / 256) in * by (rewrite Z.div_div; [f_equal|lia..]; lia).
  replace (z / 16777216) with (z / 256 / 256 / 256) by (rewrite !Z.div_div by lia; f_equal; lia).
  rewrite (Z.mod_small (z / 256 / 256 / 256)); [lia|].
  rewrite !Z.div_div by lia. split; [apply Z.div_pos; lia|]. apply Z.div_lt_upper_bound; lia.
Qed.

Lemma length_u32le z : length (u32le z) = 4%nat.
Proof. reflexivity. Qed.

Lemma read_u32_app z s : 0 <= z < W32 -> read_u32 (u32le z ++ s) = Some (z, s).
Proof.
  intros Hz. unfold read_u32. rewrite (readexactly_app (u32le z)). by rewrite unpack_u32le.
Qed.

(** What the server should learn of a finished request. *)
Definition report (st : ReqStore) (t : ReqSendTask) : IoRet :=
  mkIoRet (string_bytes (req_id (req t))) (end_tokens t)
    (if bool_decide (state_of st t = OK) then None else Some CODE_INTERNALERROR).

Lemma end_tokens_range t : 0 <= end_tokens t < W32.
Proof. apply u32_range. Qed.

Lemma read_entry_send st t s :
  vsize (string_bytes (req_id (req t))) < W32 ->
  read_entry (send_done_entry st t ++ s) = Some (report st t, s).
Proof.
  intros Hlen. unfold send_done_entry, read_entry.
  set (code := if bool_decide _ then _ else _).
  assert (Hcode : 0 <= code < W32) by (unfold code; by case_bool_decide).
  assert (0 <= vsize (string_bytes (req_id (req t)))) by (unfold vsize; lia).
  rewrite (u32_small (vsize _)) by done. set (id := string_bytes (req_id (req t))) in *.
  set (hdr := u32le (end_tokens t) ++ u32le code ++ u32le (vsize id)).
  replace ((u32le (end_tokens t) ++ u32le code ++ u32le (vsize id) ++ id) ++ s)
    with (hdr ++ id ++ s) by (unfold hdr; by rewrite <- !app_assoc).
  change 12 with (vsize hdr). rewrite readexactly_app.
  change (take 4 hdr) with (u32le (end_tokens t)).
  change (take 4 (drop 4 hdr)) with (u32le code).
  change (drop 8 hdr) with (u32le (vsize id)).
  rewrite !unpack_u32le by (done || apply end_tokens_range). rewrite readexactly_app.
  unfold report, code. by case_bool_decide.
Qed.

Lemma read_entries_send st reqs s :
  Forall (fun t => vsize (string_bytes (req_id (req t))) < W32) reqs ->
  read_entries (length reqs) (flat_map (send_done_entry st) reqs ++ s)
  = Some (report st <$> reqs, s).
Proof.
  induction 1 as [|t reqs Ht _ IH]; [done|]. cbn [length read_entries flat_map].
  rewrite <- app_assoc, read_entry_send by done. by rewrite IH.
Qed.

Section Notice.
Context (stub : Stub) (st : ReqStore) (reqs : list ReqSendTask).
Context (Hrank : 0 <= worker_tp_rank (src_info_ stub) < 0xffff).
Context (Hcount : vsize reqs < W32).
Context (Hids : Forall (fun t => vsize (string_bytes (req_id (req t))) < W32) reqs).

Lemma rank_flags :
  let flags := Z.lor (worker_tp_rank (src_info_ stub)) HAS_VER2 in
  0 <= flags < W32 /\ Z.land flags 0xFFFF = worker_tp_rank (src_info_ stub) /\
  Z.land flags HAS_VER2 = HAS_VER2.
Proof.
  cbv zeta. set (r := worker_tp_rank (src_info_ stub)) in *. unfold HAS_VER2.
  set (flags := Z.lor r 0x40000000).
  assert (Hr : r = r mod 2 ^ 16) by (rewrite Z.mod_small; [done|lia]).
  assert (Hl : Z.land r 0x40000000 = 0).
  { apply Z.bits_inj'. intros k Hk. rewrite Z.land_spec, Z.bits_0, Hr.
    destruct (Z.lt_ge_cases k 16).
    - replace (Z.testbit 0x40000000 k) with false; [by rewrite andb_false_r|].
      assert (k = 0 \/ k = 1 \/ k = 2 \/ k = 3 \/ k = 4 \/ k = 5 \/ k = 6 \/ k = 7 \/ k = 8 \/
        k = 9 \/ k = 10 \/ k = 11 \/ k = 12 \/ k = 13 \/ k = 14 \/ k = 15) as Hc by lia.
      by repeat destruct Hc as [-> | Hc]; [..|subst k].
    - by rewrite Z.mod_pow2_bits_high by lia. }
  assert (Hf : flags = r + 0x40000000) by (pose proof (Z.add_lor_land r 0x40000000); unfold flags; lia).
  split; [unfold W32; lia|]. split; unfold flags; rewrite Z.land_lor_distr_l.
  - change 0xFFFF with (Z.ones 16) at 1. rewrite Z.land_ones by lia. rewrite <- Hr.
    by rewrite Z.lor_0_r.
  - by rewrite Hl.
Qed.

(** The request without its head. *)
Definition notice_body : list Z :=
  u32le (Z.lor (worker_tp_rank (src_info_ stub)) HAS_VER2) ++ u32le (u32 (vsize reqs))
  ++ flat_map (send_done_entry st) reqs.

Lemma handle_notice_body s :
  handle_done_req (notice_body ++ s)
  = Some (worker_tp_rank (src_info_ stub), report st <$> reqs, s).
Proof.
  destruct rank_flags as (Hf & Hlow & Hver). unfold notice_body, handle_done_req.
  assert (0 <= vsize reqs) by (unfold vsize; lia). rewrite (u32_small (vsize reqs)) by done.
  set (flags := Z.lor _ _) in *.
  replace ((u32le flags ++ u32le (vsize reqs) ++ flat_map (send_done_entry st) reqs) ++ s)
    with ((u32le flags ++ u32le (vsize reqs)) ++ flat_map (send_done_entry st) reqs ++ s)
    by (by rewrite <- !app_assoc).
  change 8 with (vsize (u32le flags ++ u32le (vsize reqs))). rewrite readexactly_app.
  change (take 4 _) with (u32le flags). change (drop 4 _) with (u32le (vsize reqs)).
  rewrite !unpack_u32le by done. rewrite Hver, Hlow.
  change (HAS_VER2 =? 0) with false. cbn [negb].
  unfold vsize. rewrite Nat2Z.id. by rewrite read_entries_send.
Qed.

(** The messages of a notice, and what the server learns of them. *)
Definition done_heads : list Z := if send_save_done stub then [SEND_DONE_REQ; SAVE_DONE2_REQ] else [SEND_DONE_REQ].
Definition learned : list (Z * Z * list IoRet) :=
  (fun head => (head, worker_tp_rank (src_info_ stub), report st <$> reqs)) <$> done_heads.

Lemma client_main_message fuel head s :
  0 <= head < W32 -> (head =? SEND_DONE_REQ) || (head =? SAVE_DONE2_REQ) = true ->
  client_main (S fuel) (u32le head ++ notice_body ++ s)
  = (head, worker_tp_rank (src_info_ stub), report st <$> reqs) :: client_main fuel s.
Proof. intros Hh Hk. cbn [client_main]. by rewrite read_u32_app, Hk, handle_notice_body. Qed.

Lemma client_main_notice fuel s :
  client_main (length done_heads + fuel) ((send_done_buf stub st reqs).1 ++ s) = learned ++ client_main fuel s.
Proof.
  unfold send_done_buf, learned, done_heads.
  change (send_done_request stub st reqs) with (u32le SEND_DONE_REQ ++ notice_body).
  change (drop 4 (u32le SEND_DONE_REQ ++ ?b)) with b.
  destruct (send_save_done stub); cbn [fst length Nat.add fmap list_fmap app]; rewrite <- !app_assoc;
    by rewrite !client_main_message.
Qed.

Lemma notice_length : (length done_heads <= length (send_done_buf stub st reqs).1)%nat.
Proof.
  unfold send_done_buf, done_heads. change (send_done_request stub st reqs) with (u32le SEND_DONE_REQ ++ notice_body).
  destruct (send_save_done stub); cbn; lia.
Qed.
End Notice.

Lemma client_main_nil fuel : client_main fuel [] = [].
Proof. by destruct fuel. Qed.

(** ** Properties *)

(** C16: The completion notice: the bytes rpc_send_done writes, read by the server's
    connection loop and handle_done_req, yield for every head exactly the sender's rank and,
    per finished request, its id, its token count and an error exactly when it is not OK;
    the number of response bytes awaited is four per message. *)
Theorem send_done_notice_roundtrip stub st reqs :
  0 <= worker_tp_rank (src_info_ stub) < 0xffff -> vsize reqs < W32 ->
  Forall (fun t => vsize (string_bytes (req_id (req t))) < W32) reqs ->
  let buf := (send_done_buf stub st reqs).1 in
  let respsize := (send_done_buf stub st reqs).2 in
  let heads := if send_save_done stub then [SEND_DONE_REQ; SAVE_DONE2_REQ] else [SEND_DONE_REQ] in
  client_main (length buf) buf
  = (fun head => (head, worker_tp_rank (src_info_ stub), report st <$> reqs)) <$> heads /\
  respsize = 4 * vsize heads.
Proof.
  intros Hrank Hcount Hids. cbv zeta. split.
  - pose proof (notice_length stub st reqs) as Hl. set (buf := (send_done_buf stub st reqs).1) in *.
    replace (length buf) with (length (done_heads stub) + (length buf - length (done_heads stub)))%nat by lia.
    rewrite <- (app_nil_r buf) at 2. unfold buf at 2. rewrite client_main_notice by done.
    rewrite client_main_nil. by rewrite app_nil_r.
  - unfold send_done_buf. by destruct (send_save_done stub).
Qed.

Lemma send_done_notice_roundtrip_witness :
  let stub := mkStub "d" 0 (one_tensor_worker 4 3 64 16 4) 0 1 true in
  let t := example_task [[1]] [[2]] 5 4 true in
  client_main 100 (send_done_buf stub {[ 0%nat := OK ]} [t]).1
  = [(SEND_DONE_REQ, 3, [mkIoRet [114] 9 None]); (SAVE_DONE2_REQ, 3, [mkIoRet [114] 9 None])] /\
  client_main (length (send_done_buf stub {[ 0%nat := FAILED ]} [t]).1)
    (send_done_buf stub {[ 0%nat := FAILED ]} [t]).1
  = (fun head => (head, 3, [mkIoRet [114] 9 (Some 500)])) <$> [SEND_DONE_REQ; SAVE_DONE2_REQ].
Proof.
  split; [vm_compute; reflexivity|].
  destruct (send_done_notice_roundtrip (mkStub "d" 0 (one_tensor_worker 4 3 64 16 4) 0 1 true)
    {[ 0%nat := FAILED ]} [example_task [[1]] [[2]] 5 4 true]) as [Hm _].
  - done.
  - done.
  - by repeat constructor.
  - etransitivity; [exact Hm|vm_compute; reflexivity].
Defined.
