(* ===== verification/NoticeRpc.v ===== *)
(** Delivering the completion notice ([src/tx_stub.cpp]: [do_rpc_send_done] and the retry of
    [rpc_send_done]; [src/socket_helper.cpp]: [write_sock] and [read_sock]): a connection kept
    between notices, short writes and reads, and one retry on a fresh connection.

    The kernel's answers to one attempt are the fields of [Net].  What the server can read of
    a connection is the bytes the kernel has taken for it; what it makes of them is
    [client_main] of [SendDone].  The contents of the response are not looked at by the code
    and are left out. *)

From stdpp Require Import gmap.
From S2P Require Import Prelude.
From S2P Require Import Common.
From S2P Require Import TxStub.
From S2P Require Import SendDone.

(** ** Sockets *)

(** [send] and [recv] get the offset and the number of bytes left; they return the number of
    bytes moved, or -1. *)
Record Net := mkNet {
  net_socket : bool;
  net_connect : bool;
  net_send : Z -> Z -> Z;
  net_recv : Z -> Z -> Z;
}.

Section Sockets.
Context `{Env} (net : Net).

(** Where a transfer loop stands: offset, bytes left, and how it was left early. *)
Inductive Exit := Running | Failed | Ended.
Definition Cursor : Type := Z * Z * Exit.
Definition running (c : Cursor) : bool := (0 <? c.1.2) && match c.2 with Running => true | _ => false end.

(** What [write_sock] returns, and the bytes of [buf] the kernel has taken. *)
Definition write_sock (buf : list Z) : res (Z * list Z) :=
  let* '(offset, _, e) := while (length buf) running (fun '(offset, rest, _) =>
    let ret := net_send net offset rest in
    if ret =? -1 then Ok (offset, rest, Failed)
    else Ok (u64 (offset + ret), u64 (rest - ret), Running)) (0, vsize buf, Running) in
  Ok (match e with Failed => -1 | _ => to_i32 (u32 offset) end, take (Z.to_nat offset) buf).

Definition read_sock (buf_size : Z) : res Z :=
  let* '(offset, _, e) := while (Z.to_nat buf_size) running (fun '(offset, rest, _) =>
    let ret := net_recv net offset rest in
    if ret =? -1 then Ok (offset, rest, Failed)
    else if ret =? 0 then Ok (offset, rest, Ended)
    else assert: (0 <? ret); Ok (u64 (offset + ret), u64 (rest - ret), Running)) (0, buf_size, Running) in
  Ok (match e with Failed => -1 | _ => to_i32 (u32 offset) end).
End Sockets.

(** ** The connection of a stub *)

(** The bytes sent on the open connection and on those that were closed. *)
Record Notifier := mkNotifier {
  send_done_sock : option (list Z);
  closed_socks : list (list Z);
}.

Definition new_notifier : Notifier := mkNotifier None [].
Definition set_sock (l : list Z) (s : Notifier) : Notifier := mkNotifier (Some l) (closed_socks s).

(** [send_done_sock.reset()] closes the descriptor. *)
Definition reset_sock (s : Notifier) : Notifier :=
  mkNotifier None (match send_done_sock s with Some l => closed_socks s ++ [l] | None => closed_socks s end).

(** A connection for this attempt; a socket that could not connect stays in the stub. *)
Definition open_sock (net : Net) (s : Notifier) : Notifier * res (list Z) :=
  match send_done_sock s with
  | Some l => (s, Ok l)
  | None =>
      if negb (net_socket net) then (s, Err RuntimeError)
      else (set_sock [] s, if net_connect net then Ok [] else Err RuntimeError)
  end.

Section Rpc.
Context `{Env}.

Definition do_rpc_send_done (net : Net) (sbuf : list Z) (respsize : Z) (s : Notifier) : Notifier * res unit :=
  match open_sock net s with
  | (s, Err e) => (s, Err e)
  | (s, Ok l) =>
      match write_sock net sbuf with
      | Err e => (s, Err e)
      | Ok (sysok, sent) =>
          let s := set_sock (l ++ sent) s in
          (s, if sysok =? -1 then Err RuntimeError else
              assert: (respsize <? 16);
              let* sysok := read_sock net respsize in
              if (sysok =? -1) || negb (sysok =? respsize) then Err RuntimeError else Ok tt)
      end
  end.

(** The end of [rpc_send_done]: [true] when the response came, [false] when the notice was
    given up. *)
Definition deliver_notice (first retry : Net) (sbuf : list Z) (respsize : Z) (s : Notifier) : Notifier * res bool :=
  match do_rpc_send_done first sbuf respsize s with
  | (s, Ok _) => (s, Ok true)
  | (s, Err e) =>
      if negb (is_exception e) then (s, Err e) else
      match do_rpc_send_done retry sbuf respsize (reset_sock s) with
      | (s, Ok _) => (s, Ok true)
      | (s, Err e) => if is_exception e then (reset_sock s, Ok false) else (s, Err e)
      end
  end.
End Rpc.

(** A notice of a stub, with the kernel's answers to its two attempts. *)
Record Notice := mkNotice {
  no_states : ReqStore;
  no_reqs : list ReqSendTask;
  no_first : Net;
  no_retry : Net;
}.

Definition notice_bytes (stub : Stub) (c : Notice) : list Z := (send_done_buf stub (no_states c) (no_reqs c)).1.
Definition notice_learned (stub : Stub) (c : Notice) : list (Z * Z * list IoRet) :=
  learned stub (no_states c) (no_reqs c).

(** Notices one after the other; the outcomes in their order. *)
Fixpoint deliver_all `{Env} (stub : Stub) (cs : list Notice) (s : Notifier) : Notifier * res (list bool) :=
  match cs with
  | [] => (s, Ok [])
  | c :: cs =>
      match deliver_notice (no_first c) (no_retry c) (notice_bytes stub c)
              (send_done_buf stub (no_states c) (no_reqs c)).2 s with
      | (s, Err e) => (s, Err e)
      | (s, Ok b) =>
          match deliver_all stub cs s with
          | (s, Ok bs) => (s, Ok (b :: bs))
          | (s, Err e) => (s, Err e)
          end
      end
  end.

(** ** The loops *)

(** A blocking stream socket moves some of the bytes asked for, or fails; a read of no bytes
    is the end of the stream. *)
Record net_ok (net : Net) : Prop := {
  nk_send off n : 0 < n -> net_send net off n = -1 \/ 0 < net_send net off n <= n;
  nk_recv off n : 0 < n -> net_recv net off n = -1 \/ 0 <= net_recv net off n <= n;
}.

(** Nothing fails, and the peer answers. *)
Definition net_works (net : Net) : Prop :=
  net_socket net = true /\ net_connect net = true /\
  forall off n, 0 < n -> 0 < net_send net off n /\ 0 < net_recv net off n.

Section Loops.
Context `{Env} (net : Net) (Hnet : net_ok net).

(** A cursor that accounts for all of [total] and was left, if at all, in one of the ways [Q]. *)
Definition cursor_ok (Q : Exit -> Prop) (total : Z) (c : Cursor) : Prop :=
  0 <= c.1.1 /\ 0 <= c.1.2 /\ c.1.1 + c.1.2 = total /\ Q c.2.

Lemma running_inv c : running c = true -> 0 < c.1.2 /\ c.2 = Running.
Proof. unfold running. intros [Hl He]%andb_true_iff. apply Z.ltb_lt in Hl. by destruct (c.2). Qed.

Lemma transfer_loop (Q : Exit -> Prop) (body : Cursor -> res Cursor) total :
  0 <= total -> Q Running ->
  (forall c, cursor_ok Q total c -> running c = true ->
     exists c', body c = Ok c' /\ cursor_ok Q total c' /\ (c'.2 = Running -> c'.1.2 < c.1.2)) ->
  exists c, while (Z.to_nat total) running body (0, total, Running) = Ok c /\ cursor_ok Q total c /\
    (c.2 = Running -> c.1.1 = total).
Proof.
  intros Ht HQ Hbody.
  assert (Hgen : forall fuel c, cursor_ok Q total c -> (c.2 = Running -> c.1.2 <= Z.of_nat fuel) ->
    exists c', while fuel running body c = Ok c' /\ cursor_ok Q total c' /\ (c'.2 = Running -> c'.1.1 = total)).
  { induction fuel as [|n IH]; intros c Hc Hf; cbn [while]; destruct (running c) eqn:Er.
    2, 4: exists c; split_and!; [done..|]; intros Hr; unfold running in Er; rewrite Hr, andb_true_r in Er;
      destruct Hc as (? & ? & ? & ?); apply Z.ltb_ge in Er; lia.
    - apply running_inv in Er as [Hl He]. specialize (Hf He). lia.
    - destruct (Hbody c Hc Er) as (c' & -> & Hc' & Hlt). cbn [rbind]. apply IH; [done|].
      intros Hr. specialize (Hlt Hr). apply running_inv in Er as [_ He]. specialize (Hf He). lia. }
  apply Hgen; [unfold cursor_ok; cbn; split_and!; (lia || done)|]. cbn. lia.
Qed.

Lemma to_i32_small z : 0 <= z < 2 ^ 31 -> to_i32 (u32 z) = z.
Proof.
  intros Hz. rewrite u32_small by (unfold W32; lia). unfold to_i32. by rewrite (proj2 (Z.ltb_lt _ _)) by lia.
Qed.

Lemma moved_cursor (Q : Exit -> Prop) total off rest ret :
  total < 2 ^ 31 -> Q Running -> 0 <= off -> off + rest = total -> 0 < ret <= rest ->
  cursor_ok Q total (u64 (off + ret), u64 (rest - ret), Running) /\ u64 (rest - ret) < rest.
Proof.
  intros Ht HQ Ho Hs Hr. assert (2 ^ 31 < W64) by done. unfold cursor_ok; cbn. rewrite !u64_small by lia.
  split_and!; (lia || done).
Qed.

(** Either everything is sent, or a part of it and the error is reported. *)
Lemma write_sock_spec buf :
  vsize buf < 2 ^ 31 ->
  exists ret sent, write_sock net buf = Ok (ret, sent) /\ sent `prefix_of` buf /\
    (ret = -1 /\ ~ net_works net \/ ret = vsize buf /\ sent = buf).
Proof.
  intros Hb. pose proof (vsize_nonneg buf) as H0. unfold write_sock.
  set (Q e := match e with Running => True | Failed => ~ net_works net | Ended => False end).
  match goal with |- context [while _ running ?f _] =>
    destruct (transfer_loop Q f (vsize buf)) as ([[off rest] e] & Hw & Hc & Hrun) end; [done..| |].
  { intros [[off rest] e] (Ho & Hl & Hs & _) [Hr _]%running_inv. cbn in *.
    destruct (nk_send _ Hnet off rest Hr) as [Hret|Hret].
    - rewrite Hret. eexists. split; [done|]. split; [|done]. split_and!; [done..|].
      intros (_ & _ & Hw). destruct (Hw off rest Hr). lia.
    - rewrite (proj2 (Z.eqb_neq _ _)) by lia. eexists. split; [done|].
      destruct (moved_cursor Q (vsize buf) off rest (net_send net off rest)); [done..|]. by split. }
  replace (length buf) with (Z.to_nat (vsize buf)) by (unfold vsize; lia). rewrite Hw. cbn [rbind].
  destruct Hc as (Ho & Hl & Hs & He). cbn in *. eexists _, _. split; [done|]. split; [apply prefix_take|].
  destruct e; [right|by left|done]. rewrite Hrun by done. split; [by apply to_i32_small|].
  apply take_ge. unfold vsize. lia.
Qed.

Lemma read_sock_spec n :
  0 <= n < 2 ^ 31 -> exists ret, read_sock net n = Ok ret /\ (net_works net -> ret = n).
Proof.
  intros Hn. unfold read_sock. set (Q e := net_works net -> e = Running).
  match goal with |- context [while _ running ?f _] =>
    destruct (transfer_loop Q f n) as ([[off rest] e] & -> & (? & ? & ? & HQ) & Hrun) end; [lia|done| |].
  2: { cbn [rbind]. eexists. split; [done|]. intros Hw. cbn in *. specialize (HQ Hw) as ->.
       rewrite Hrun by done. apply to_i32_small. lia. }
  intros [[off rest] e] (Ho & Hl & Hs & _) [Hr _]%running_inv. cbn in *.
  assert (Hfail : net_recv net off rest <= 0 -> ~ net_works net) by (intros Hle (_ & _ & Hw); destruct (Hw off rest Hr); lia).
  assert (Hstop : forall e, ~ net_works net -> cursor_ok Q n (off, rest, e)) 
    by (intros e' Hn'; split_and!; [done..|]; intros Hw; by destruct Hn').
  destruct (nk_recv _ Hnet off rest Hr) as [Hret|Hret].
  { rewrite Hret. eexists. split; [done|]. split; [|done]. apply Hstop, Hfail. lia. }
  rewrite (proj2 (Z.eqb_neq _ _)) by lia. destruct (Z.eqb_spec (net_recv net off rest) 0) as [He|Hne].
  { eexists. split; [done|]. split; [|done]. apply Hstop, Hfail. lia. }
  rewrite (proj2 (Z.ltb_lt _ _)) by lia. rewrite cassert_true by done. cbn [rbind]. eexists. split; [done|].
  destruct (moved_cursor Q n off rest (net_recv net off rest)); (lia || done).
Qed.
End Loops.

(** ** One notice *)
Section Attempts.
Context `{Env} (sbuf : list Z) (respsize : Z).
Context (Hbuf : vsize sbuf < 2 ^ 31) (Hresp : 0 <= respsize < 16).

(** An attempt sends all of the notice or a part of it; it throws whenever it sent a part only. *)
Lemma do_rpc_spec net s :
  net_ok net -> exists s' r, do_rpc_send_done net sbuf respsize s = (s', r) /\ closed_socks s' = closed_socks s /\
    (net_works net -> r = Ok tt) /\
    (r = Ok tt /\ send_done_sock s' = Some (default [] (send_done_sock s) ++ sbuf) \/
     r = Err RuntimeError /\ (send_done_sock s' = None /\ send_done_sock s = None \/
       exists sent, sent `prefix_of` sbuf /\ send_done_sock s' = Some (default [] (send_done_sock s) ++ sent))).
Proof.
  intros Hnet. unfold do_rpc_send_done.
  assert (Hopen : exists s1 r1, open_sock net s = (s1, r1) /\ closed_socks s1 = closed_socks s /\
    (r1 = Ok (default [] (send_done_sock s)) \/ r1 = Err RuntimeError /\ ~ net_works net /\ send_done_sock s = None /\
       (send_done_sock s1 = None \/ send_done_sock s1 = Some []))).
  { unfold open_sock, net_works. destruct (send_done_sock s) as [l|] eqn:E; [by eexists _, _; split_and!; [..|by left]|].
    destruct (net_socket net); cbn [negb]; [|eexists _, _; split_and!; [done|done|right; naive_solver]].
    destruct (net_connect net); eexists _, _; split_and!; [done|done|by left|done|done|right; naive_solver]. }
  destruct Hopen as (s1 & r1 & -> & Hcl & [->|(-> & Hnw & Hn & Hs)]).
  - destruct (write_sock_spec net Hnet sbuf Hbuf) as (ret & sent & -> & Hp & Hret). eexists _, _. split; [done|].
    split; [done|]. destruct Hret as [[-> Hnw]|[-> ->]].
    + split; [done|]. right. split; [done|]. right. by exists sent.
    + rewrite (proj2 (Z.eqb_neq _ _)) by (pose proof (vsize_nonneg sbuf); lia).
      rewrite (proj2 (Z.ltb_lt respsize 16)), cassert_true by (done || lia). cbn [rbind].
      destruct (read_sock_spec net Hnet respsize) as (rd & -> & Hrd); [lia|]. cbn [rbind]. split.
      { intros Hw. rewrite (Hrd Hw), Z.eqb_refl, (proj2 (Z.eqb_neq _ _)) by lia. done. }
      destruct ((rd =? -1) || negb (rd =? respsize)); [right|by left]. split; [done|]. right. by exists sbuf.
  - eexists _, _. split; [done|]. split; [done|]. split; [done|]. right. split; [done|].
    destruct Hs as [Hs|Hs]; [by left|]. right. exists []. rewrite Hn. split; [apply prefix_nil|done].
Qed.

End Attempts.

(** ** All notices *)
Section Streams.
Context `{Env} (stub : Stub).

(** A notice the loops can send. *)
Record notice_ok (c : Notice) : Prop := {
  nc_size : vsize (notice_bytes stub c) < 2 ^ 31;
  nc_first : net_ok (no_first c);
  nc_retry : net_ok (no_retry c);
}.

(** The stream [l] holds the notices [ns] of [cs] and a part [p] of another one. *)
Definition holds_notices (cs : list Notice) (l : list Z) (ns : list Notice) (p : list Z) : Prop :=
  l = mjoin (notice_bytes stub <$> ns) ++ p /\ Forall (.∈ cs) ns /\
  (p = [] \/ exists c, c ∈ cs /\ p `prefix_of` notice_bytes stub c).

(** No part of a notice on the open connection; every acknowledged notice of [acked] in some
    stream. *)
Record notifier_ok (cs acked : list Notice) (s : Notifier) : Prop := {
  nt_open l : send_done_sock s = Some l -> exists ns, holds_notices cs l ns [];
  nt_closed l : l ∈ closed_socks s -> exists ns p, holds_notices cs l ns p;
  nt_acked c : c ∈ acked -> exists l ns p, c ∈ ns /\ holds_notices cs l ns p /\
    (l ∈ closed_socks s \/ send_done_sock s = Some l /\ p = []);
}.

Lemma holds_nil cs : holds_notices cs [] [] [].
Proof. by split_and!; [| |left]. Qed.

(** More bytes of a notice at the end of a stream. *)
Lemma holds_part cs l ns c p :
  holds_notices cs l ns [] -> c ∈ cs -> p `prefix_of` notice_bytes stub c -> holds_notices cs (l ++ p) ns p.
Proof. intros (-> & Hns & _) Hc Hp. split_and!; [by rewrite app_nil_r|done|]. right. by exists c. Qed.

Lemma holds_whole cs l ns c :
  holds_notices cs l ns [] -> c ∈ cs -> holds_notices cs (l ++ notice_bytes stub c) (ns ++ [c]) [].
Proof.
  intros (-> & Hns & _) Hc. split_and!; [|by apply Forall_app_2, Forall_singleton|by left].
  rewrite fmap_app, join_app, !app_nil_r. cbn. by rewrite app_nil_r.
Qed.

Lemma open_holds cs acked s : notifier_ok cs acked s -> exists ns, holds_notices cs (default [] (send_done_sock s)) ns [].
Proof.
  intros Hs. destruct (send_done_sock s) as [l|] eqn:E; [by eapply nt_open|]. exists []. apply holds_nil.
Qed.

Lemma acked_sent cs acked s c :
  notifier_ok cs acked s -> c ∈ cs -> forall s', closed_socks s' = closed_socks s ->
  send_done_sock s' = Some (default [] (send_done_sock s) ++ notice_bytes stub c) -> notifier_ok cs (c :: acked) s'.
Proof.
  intros Hs Hc s' Hcl Hso. destruct (open_holds _ _ _ Hs) as [ns Hns]. split.
  - intros l. rewrite Hso. intros [= <-]. exists (ns ++ [c]). by apply holds_whole.
  - intros l. rewrite Hcl. apply (nt_closed _ _ _ Hs).
  - intros c' [->|Hin]%elem_of_cons.
    + eexists _, (ns ++ [c]), []. split; [set_solver|]. split; [by apply holds_whole|]. by right.
    + destruct (nt_acked _ _ _ Hs c' Hin) as (l & ns' & p & Hc' & Hl & [Hcls|[Hop ->]]).
      { exists l, ns', p. rewrite Hcl. auto. }
      eexists _, (ns' ++ [c]), []. split; [set_solver|]. split; [by apply holds_whole|]. right. by rewrite Hso, Hop.
Qed.

Lemma closed_part cs acked s c p :
  notifier_ok cs acked s -> c ∈ cs -> p `prefix_of` notice_bytes stub c ->
  notifier_ok cs acked (mkNotifier None (closed_socks s ++ [default [] (send_done_sock s) ++ p])).
Proof.
  intros Hs Hc Hp. destruct (open_holds _ _ _ Hs) as [ns Hns]. split; cbn.
  - done.
  - intros l [Hl| ->%list_elem_of_singleton]%elem_of_app; [by apply (nt_closed _ _ _ Hs)|].
    exists ns, p. by eapply holds_part.
  - intros c' Hin. destruct (nt_acked _ _ _ Hs c' Hin) as (l & ns' & p' & Hc' & Hl & [Hcls|[Hop ->]]).
    { exists l, ns', p'. set_solver. }
    eexists _, ns', p. split; [done|]. split; [by eapply holds_part|]. left. rewrite Hop. set_solver.
Qed.

Lemma attempt_keeps cs acked s c net respsize :
  notifier_ok cs acked s -> c ∈ cs -> vsize (notice_bytes stub c) < 2 ^ 31 -> net_ok net -> 0 <= respsize < 16 ->
  exists s' r, do_rpc_send_done net (notice_bytes stub c) respsize s = (s', r) /\ (net_works net -> r = Ok tt) /\
    (r = Ok tt /\ notifier_ok cs (c :: acked) s' \/ r = Err RuntimeError /\ notifier_ok cs acked (reset_sock s')).
Proof.
  intros Hs Hc Hb Hnet Hr.
  destruct (do_rpc_spec (notice_bytes stub c) respsize Hb Hr net s Hnet) as (s' & r & -> & Hcl & Hw & Hcase).
  exists s', r. split; [done|]. split; [done|]. destruct Hcase as [[-> Hso]|[-> [[Hso Hn]|(p & Hp & Hso)]]].
  - left. split; [done|]. by eapply acked_sent.
  - right. split; [done|]. unfold reset_sock. rewrite Hso, Hcl, <- Hn. by destruct s.
  - right. split; [done|]. unfold reset_sock. rewrite Hso, Hcl. by eapply closed_part.
Qed.

Lemma respsize_range st reqs : 0 <= (send_done_buf stub st reqs).2 < 16.
Proof. unfold send_done_buf. destruct (send_save_done stub); cbn; lia. Qed.

Lemma deliver_notice_keeps cs acked s c :
  notifier_ok cs acked s -> c ∈ cs -> notice_ok c ->
  exists s' d, deliver_notice (no_first c) (no_retry c) (notice_bytes stub c)
      (send_done_buf stub (no_states c) (no_reqs c)).2 s = (s', Ok d) /\
    notifier_ok cs (if d then c :: acked else acked) s' /\ (net_works (no_retry c) -> d = true).
Proof.
  intros Hs Hc [Hb H1 H2]. unfold deliver_notice. pose proof (respsize_range (no_states c) (no_reqs c)) as Hr.
  destruct (attempt_keeps cs acked s c (no_first c) _ Hs Hc Hb H1 Hr) as (s1 & r1 & -> & _ & [[-> Hok]|[-> Hs1]]);
    [by exists s1, true|]. cbn [is_exception negb].
  destruct (attempt_keeps cs acked _ c (no_retry c) _ Hs1 Hc Hb H2 Hr) as (s2 & r2 & -> & Hw & [[-> Hok]|[-> Hs2]]);
    [by exists s2, true|]. exists (reset_sock s2), false. split_and!; [done..|]. intros Hn. by specialize (Hw Hn).
Qed.

(** The notices whose outcome is [true]. *)
Fixpoint acknowledged (cs : list Notice) (ds : list bool) : list Notice :=
  match cs, ds with
  | c :: cs, d :: ds => (if d then [c] else []) ++ acknowledged cs ds
  | _, _ => []
  end.

Lemma deliver_all_keeps all cs acked s :
  notifier_ok all acked s -> Forall (.∈ all) cs -> Forall notice_ok cs ->
  exists s' ds, deliver_all stub cs s = (s', Ok ds) /\
    Forall2 (fun c d => net_works (no_retry c) -> d = true) cs ds /\
    exists acked', notifier_ok all acked' s' /\ forall c, c ∈ acked ++ acknowledged cs ds -> c ∈ acked'.
Proof.
  revert acked s. induction cs as [|c cs IH]; intros acked s Hs Hall Hok.
  { exists s, []. split_and!; [done|constructor|]. exists acked. by rewrite app_nil_r. }
  apply Forall_cons in Hall as [Hc Hall]. apply Forall_cons in Hok as [Hco Hok]. cbn [deliver_all].
  destruct (deliver_notice_keeps all acked s c Hs Hc Hco) as (s1 & d & -> & Hs1 & Hd).
  destruct (IH _ s1 Hs1 Hall Hok) as (s2 & ds & -> & Hds & acked' & Hs2 & Hsub).
  exists s2, (d :: ds). split_and!; [done|by constructor|]. exists acked'. split; [done|]. intros c' Hin. apply Hsub.
  cbn [acknowledged] in Hin. destruct d; set_solver.
Qed.
End Streams.

(** ** What the server reads *)

(** A reader that succeeds on a stream reads the same when more bytes follow. *)
Definition stable {A} (rd : list Z -> option (A * list Z)) : Prop :=
  forall s s' a r, s `prefix_of` s' -> rd s = Some (a, r) -> exists r', rd s' = Some (a, r') /\ r `prefix_of` r'.

Lemma stable_readexactly n : stable (readexactly n).
Proof.
  intros s s' a r [t ->]. unfold readexactly. destruct (Z.ltb_spec (vsize s) n) as [|Hn]; [done|]. intros [= <- <-].
  pose proof (vsize_nonneg t). unfold vsize in *. rewrite length_app.
  rewrite (proj2 (Z.ltb_ge _ _)) by lia. rewrite take_app_le, drop_app_le by lia. eexists. split; [done|]. by exists t.
Qed.

(** One reader after the other. *)
Lemma stable_next {A B} (rd : list Z -> option (A * list Z)) (k : A -> list Z -> option (B * list Z)) :
  stable rd -> (forall a, stable (k a)) ->
  stable (fun s => match rd s with Some (a, r) => k a r | None => None end).
Proof.
  intros Hrd Hk s s' b r Hs. destruct (rd s) as [[a r1]|] eqn:E; [|done]. intros Hb.
  destruct (Hrd _ _ _ _ Hs E) as (r1' & -> & Hr1). by eapply Hk.
Qed.

Lemma stable_ret {A} (a : A) : stable (fun s => Some (a, s)).
Proof. intros s s' a' r Hs [= <- <-]. eauto. Qed.

Lemma stable_read_u32 : stable read_u32.
Proof.
  exact (stable_next (readexactly 4) (fun buf s => Some (unpack_I buf, s)) (stable_readexactly 4) (fun a => stable_ret _)).
Qed.

Create HintDb stable_db.
#[local] Hint Resolve stable_readexactly stable_read_u32 stable_ret : stable_db.

Lemma stable_read_entry : stable read_entry.
Proof.
  apply (stable_next (readexactly 12) (fun lenbuf s =>
    match readexactly (unpack_I (drop 8 lenbuf)) s with
    | Some (reqidbuf, s) => Some (mkIoRet reqidbuf (unpack_I (take 4 lenbuf))
        (if unpack_I (take 4 (drop 4 lenbuf)) =? 0 then None else Some (unpack_I (take 4 (drop 4 lenbuf)))), s)
    | None => None
    end)); [auto with stable_db|]. intros lenbuf.
  apply (stable_next (readexactly _) (fun reqidbuf s => Some (mkIoRet reqidbuf _ _, s))); auto with stable_db.
Qed.

Lemma stable_read_entries k : stable (read_entries k).
Proof.
  induction k as [|k IH]; [apply stable_ret|].
  apply (stable_next read_entry (fun r s => match read_entries k s with Some (rs, s) => Some (r :: rs, s) | None => None end));
    [apply stable_read_entry|]. intros r.
  apply (stable_next (read_entries k) (fun rs s => Some (r :: rs, s))); auto with stable_db.
Qed.

Lemma stable_read_ids k : stable (read_ids k).
Proof.
  induction k as [|k IH]; [apply stable_ret|].
  apply (stable_next read_u32 (fun len s =>
    match readexactly len s with
    | Some (buf, s) => match read_ids k s with Some (ids, s) => Some (buf :: ids, s) | None => None end
    | None => None
    end)); [auto with stable_db|]. intros len.
  apply (stable_next (readexactly len) (fun buf s =>
    match read_ids k s with Some (ids, s) => Some (buf :: ids, s) | None => None end)); [auto with stable_db|].
  intros buf. apply (stable_next (read_ids k) (fun ids s => Some (buf :: ids, s))); auto with stable_db.
Qed.

Lemma stable_read_plens ids : stable (read_plens ids).
Proof.
  induction ids as [|i ids IH]; [apply stable_ret|].
  apply (stable_next read_u32 (fun len s =>
    match read_plens ids s with Some (rs, s) => Some (mkIoRet i len None :: rs, s) | None => None end));
    [auto with stable_db|]. intros len.
  apply (stable_next (read_plens ids) (fun rs s => Some (mkIoRet i len None :: rs, s))); auto with stable_db.
Qed.

#[local] Hint Resolve stable_read_entries stable_read_ids stable_read_plens : stable_db.

Lemma stable_handle_done_req : stable handle_done_req.
Proof.
  apply (stable_next (readexactly 8) (fun bodybuf s =>
    let flags := unpack_I (take 4 bodybuf) in
    let num_req := unpack_I (drop 4 bodybuf) in
    let rank := Z.land flags 0xFFFF in
    if negb (Z.land flags HAS_VER2 =? 0) then
      match read_entries (Z.to_nat num_req) s with Some (rs, s) => Some (rank, rs, s) | None => None end
    else
      match read_ids (Z.to_nat num_req) s with
      | Some (ids, s) =>
          if negb (Z.land flags HAS_PLEN =? 0) then
            match read_plens ids s with Some (rs, s) => Some (rank, rs, s) | None => None end
          else Some (rank, (fun i => mkIoRet i 0 None) <$> ids, s)
      | None => None
      end)); [auto with stable_db|]. intros bodybuf. cbv zeta.
  set (rank := Z.land _ 0xFFFF). set (k := Z.to_nat _). destruct (negb _).
  - apply (stable_next (read_entries k) (fun rs s => Some (rank, rs, s))); auto with stable_db.
  - destruct (negb _).
    + apply (stable_next (read_ids k) (fun ids s =>
        match read_plens ids s with Some (rs, s) => Some (rank, rs, s) | None => None end)); [auto with stable_db|].
      intros ids. apply (stable_next (read_plens ids) (fun rs s => Some (rank, rs, s))); auto with stable_db.
    + apply (stable_next (read_ids k) (fun ids s => Some (rank, (fun i => mkIoRet i 0 None) <$> ids, s)));
        auto with stable_db.
Qed.

(** A server that has read less has learned a part of what it learns from more. *)
Lemma client_main_mono f f' s s' :
  (f <= f')%nat -> s `prefix_of` s' -> client_main f s `prefix_of` client_main f' s'.
Proof.
  revert f' s s'. induction f as [|f IH]; intros f' s s' Hf Hs; [apply prefix_nil|].
  destruct f' as [|f']; [lia|]. cbn [client_main].
  destruct (read_u32 s) as [[head r]|] eqn:E; [|apply prefix_nil].
  destruct (stable_read_u32 _ _ _ _ Hs E) as (r' & -> & Hr). destruct (_ || _); [|apply prefix_nil].
  destruct (handle_done_req r) as [[[rank rs] t]|] eqn:E2; [|apply prefix_nil].
  destruct (stable_handle_done_req _ _ _ _ Hr E2) as (t' & -> & Ht). apply prefix_cons, IH; [lia|done].
Qed.

(** ** The streams as the server sees them *)
Section Server.
Context `{Env} (stub : Stub) (Hrank : 0 <= worker_tp_rank (src_info_ stub) < 0xffff).

(** A notice whose counts and lengths fit their fields. *)
Record notice_fits (c : Notice) : Prop := {
  nf_count : vsize (no_reqs c) < W32;
  nf_ids : Forall (fun t => vsize (string_bytes (req_id (req t))) < W32) (no_reqs c);
}.

Lemma read_whole f c s :
  notice_fits c -> client_main (length (done_heads stub) + f) (notice_bytes stub c ++ s)
    = notice_learned stub c ++ client_main f s.
Proof. intros [Hc Hi]. by apply client_main_notice. Qed.

Lemma read_stream ns p :
  Forall notice_fits ns -> exists f,
    client_main (length (mjoin (notice_bytes stub <$> ns) ++ p)) (mjoin (notice_bytes stub <$> ns) ++ p)
    = flat_map (notice_learned stub) ns ++ client_main f p.
Proof.
  intros Hns.
  assert (Hgen : forall f, (length (mjoin (notice_bytes stub <$> ns)) <= f)%nat ->
    exists g, client_main f (mjoin (notice_bytes stub <$> ns) ++ p) = flat_map (notice_learned stub) ns ++ client_main g p).
  { induction Hns as [|c ns Hc Hns IH]; intros f Hf; [by exists f|].
    change (mjoin (notice_bytes stub <$> c :: ns)) with (notice_bytes stub c ++ mjoin (notice_bytes stub <$> ns)) in *.
    cbn [flat_map]. rewrite length_app in Hf.
    pose proof (notice_length stub (no_states c) (no_reqs c)) as Hl. fold (notice_bytes stub c) in Hl.
    destruct (IH (f - length (done_heads stub))%nat) as [g Hg]; [lia|]. exists g.
    replace f with (length (done_heads stub) + (f - length (done_heads stub)))%nat at 1 by lia.
    rewrite <- !app_assoc, (read_whole _ c) by done. by rewrite Hg. }
  apply Hgen. rewrite length_app. lia.
Qed.

(** What a server learns from a stream: its whole notices, then at most a part of one more. *)
Lemma stream_learned cs l ns p :
  Forall notice_fits cs -> holds_notices stub cs l ns p ->
  exists rest, client_main (length l) l = flat_map (notice_learned stub) ns ++ rest /\
    (p = [] -> rest = []) /\ (rest = [] \/ exists c, c ∈ cs /\ rest `prefix_of` notice_learned stub c).
Proof.
  intros Hcs (-> & Hns & Hp). rewrite Forall_forall in Hcs, Hns.
  destruct (read_stream ns p) as [f ->]; [apply Forall_forall; auto|]. exists (client_main f p).
  split_and!; [done|intros ->; apply client_main_nil|]. destruct Hp as [->|(c & Hc & Hp)]; [left; apply client_main_nil|].
  right. exists c. split; [done|]. rewrite <- (app_nil_r (notice_learned stub c)), <- (client_main_nil f).
  rewrite <- (read_whole f c) by auto. apply client_main_mono; [lia|]. rewrite app_nil_r. done.
Qed.
End Server.

(** ** Properties *)

Definition streams (s : Notifier) : list (list Z) := option_list (send_done_sock s) ++ closed_socks s.

Lemma acknowledged_elem cs ds i c :
  cs !! i = Some c -> ds !! i = Some true -> c ∈ acknowledged cs ds.
Proof.
  revert ds i. induction cs as [|c' cs IH]; intros [|d ds] [|i] Hc Hd; try done; cbn in *.
  - injection Hc as ->. injection Hd as ->. set_solver.
  - apply elem_of_app. right. by eapply IH.
Qed.

(** C40: Any sequence of completion notices over sockets that break, write and read in
    pieces: every notice is settled after at most two attempts, it is acknowledged whenever
    the second connection works, an acknowledged notice is read whole by the server on one
    of the connections, and of every connection the server reads nothing but notices that
    were sent, except for a part of one notice at the end of a connection that was given up.
    *)
Theorem acknowledged_notices_are_read `{Env} stub cs :
  0 <= worker_tp_rank (src_info_ stub) < 0xffff -> Forall (fun c => notice_ok stub c /\ notice_fits c) cs ->
  exists s ds, deliver_all stub cs new_notifier = (s, Ok ds) /\
    Forall2 (fun c d => net_works (no_retry c) -> d = true) cs ds /\
    (forall i c, cs !! i = Some c -> ds !! i = Some true ->
       exists l before after, l ∈ streams s /\ client_main (length l) l = before ++ notice_learned stub c ++ after) /\
    forall l, l ∈ streams s -> exists ns rest, Forall (.∈ cs) ns /\
      client_main (length l) l = flat_map (notice_learned stub) ns ++ rest /\
      (send_done_sock s = Some l -> rest = []) /\ (rest = [] \/ exists c, c ∈ cs /\ rest `prefix_of` notice_learned stub c).
Proof.
  intros Hrank [Hok Hfit]%Forall_and.
  destruct (deliver_all_keeps stub cs cs [] new_notifier) as (s & ds & Hall & Hds & acked & Hs & Hacked);
    [by split; cbn; try (intros ? ?%elem_of_nil)|by apply Forall_forall|done|].
  exists s, ds. split_and!; [done..| |].
  - intros i c Hc Hd. destruct (nt_acked _ _ _ _ Hs c) as (l & ns & p & Hin & Hl & Hwhere).
    { apply Hacked. eapply (acknowledged_elem cs ds); eauto. }
    destruct (stream_learned stub Hrank cs l ns p Hfit Hl) as (rest & Hr & _).
    apply list_elem_of_split in Hin as (n1 & n2 & ->). rewrite flat_map_app in Hr. cbn [flat_map] in Hr.
    rewrite <- !app_assoc in Hr. eexists l, _, _. split; [|exact Hr]. unfold streams.
    destruct Hwhere as [Hcl|[-> _]]; set_solver.
  - intros l Hl. destruct (decide (send_done_sock s = Some l)) as [E|Hne].
    + destruct (nt_open _ _ _ _ Hs l E) as [ns Hns].
      destruct (stream_learned stub Hrank cs l ns [] Hfit Hns) as (rest & Hr & Hn & _). specialize (Hn eq_refl) as ->.
      exists ns, []. split_and!; [apply Hns|done..|by left].
    + destruct (nt_closed _ _ _ _ Hs l) as (ns & p & Hns).
      { unfold streams in Hl. destruct (send_done_sock s) as [l0|]; set_solver. }
      destruct (stream_learned stub Hrank cs l ns p Hfit Hns) as (rest & Hr & _ & Hrest).
      exists ns, rest. split_and!; [apply Hns|done..].
Qed.

(** A first attempt whose connection breaks in the middle of the notice, and a peer that
    takes ten bytes at a time. *)
Definition broken_net : Net := mkNet true true (fun off n => if off =? 0 then Z.min 20 n else -1) (fun _ n => n).
Definition slow_net : Net := mkNet true true (fun _ n => Z.min 10 n) (fun _ n => Z.min 1 n).

Definition sample_stub : Stub := mkStub "d" 0 (one_tensor_worker 4 3 64 16 4) 0 1 true.
Definition sample_notices : list Notice :=
  let t := example_task [[1]] [[2]] 5 4 true in
  [mkNotice {[ 0%nat := OK ]} [t] slow_net slow_net; mkNotice {[ 0%nat := FAILED ]} [t] broken_net slow_net].

Lemma broken_net_ok : net_ok broken_net.
Proof. split; cbn; intros; [destruct (_ =? _)|]; lia. Qed.

Lemma slow_net_ok : net_ok slow_net.
Proof. split; cbn; lia. Qed.

Lemma slow_net_works : net_works slow_net.
Proof. split_and!; [done..|]. cbn. lia. Qed.

Lemma sample_notices_ok : Forall (fun c => notice_ok sample_stub c /\ notice_fits c) sample_notices.
Proof.
  pose proof broken_net_ok. pose proof slow_net_ok.
  assert (Hfits : forall st n1 n2, notice_fits (mkNotice st [example_task [[1]] [[2]] 5 4 true] n1 n2)).
  { intros. split; [done|]. by apply Forall_singleton. }
  apply Forall_cons; split; [|apply Forall_singleton]; (split; [split|apply Hfits]); done.
Qed.

Lemma acknowledged_notices_are_read_witness :
  exists s ds, @deliver_all debug_env sample_stub sample_notices new_notifier = (s, Ok ds) /\ ds = [true; true].
Proof.
  destruct (@acknowledged_notices_are_read debug_env sample_stub sample_notices) as (s & ds & Hrun & Hds & _).
  - done.
  - apply sample_notices_ok.
  - exists s, ds. split; [exact Hrun|]. inversion Hds as [|c d cs1 ds1 H1 Htl]; subst.
    inversion Htl as [|c2 d2 cs2 ds2 H2 Hnil]; subst. inversion Hnil; subst.
    rewrite (H1 slow_net_works), (H2 slow_net_works). done.
Defined.

(** The broken connection carries the first notice and twenty bytes of the second, of which
    the server makes nothing; the second connection carries the second notice. *)
Example broken_connection_is_replaced :
  match @deliver_all debug_env sample_stub sample_notices new_notifier with
  | (s, Ok ds) =>
      ds = [true; true] /\
      (fun l => client_main (length l) l) <$> streams s =
        [(fun head => (head, 3, [mkIoRet [114] 9 (Some 500)])) <$> [SEND_DONE_REQ; SAVE_DONE2_REQ];
         (fun head => (head, 3, [mkIoRet [114] 9 None])) <$> [SEND_DONE_REQ; SAVE_DONE2_REQ]]
  | _ => False
  end.
Proof. vm_compute. by split. Qed.
