(* ===== verification/ThreadPool.v ===== *)
(** The thread pool of [include/utils/thread_pool.h], as a transition system: the workers, the
    queue under its lock, and the condition variable, whose notifications happen after the
    lock is released.  A task is a number; whatever it throws is kept by its packaged_task.
    Waking up, looking at the queue and running a task are separate steps, so that spawns,
    notifications and other workers interleave with them. *)

From S2P Require Import Prelude.
From S2P Require Import Common.

(** ** State *)

(** A worker is about to take the lock, blocked in [wait], running a task, or has returned. *)
Inductive WState := Checking | Waiting | Busy (t : Z) | Exited.

#[export] Instance WState_eq_dec : EqDecision WState.
Proof. solve_decision. Defined.

(** [notifies_] and [notify_all_]: notifications that are still to be made.  The last three
    fields record what was spawned, taken from the queue and finished, in order. *)
Record Pool := mkPool {
  workers_ : list WState;
  tasks_ : list Z;
  stop_ : bool;
  notifies_ : nat;
  notify_all_ : bool;
  spawned_ : list Z;
  taken_ : list Z;
  ran_ : list Z;
}.

Definition new_pool (threads : nat) : Pool := mkPool (replicate threads Checking) [] false 0 false [] [] [].

Definition set_worker (i : nat) (w : WState) (p : Pool) : Pool :=
  mkPool (<[i := w]> (workers_ p)) (tasks_ p) (stop_ p) (notifies_ p) (notify_all_ p) (spawned_ p) (taken_ p) (ran_ p).

(** ** Operations *)

(** The part of [spawn] under the lock. *)
Definition spawn (t : Z) (p : Pool) : res Pool :=
  if stop_ p then Err RuntimeError
  else Ok (mkPool (workers_ p) (tasks_ p ++ [t]) (stop_ p) (S (notifies_ p)) (notify_all_ p)
             (spawned_ p ++ [t]) (taken_ p) (ran_ p)).

(** A worker that holds the lock: the predicate of [wait], the exit test and the pop. *)
Definition check (i : nat) (p : Pool) : Pool :=
  if stop_ p || negb (bool_decide (tasks_ p = [])) then
    match tasks_ p with
    | [] => set_worker i Exited p
    | t :: ts =>
        mkPool (<[i := Busy t]> (workers_ p)) ts (stop_ p) (notifies_ p) (notify_all_ p)
          (spawned_ p) (taken_ p ++ [t]) (ran_ p)
    end
  else set_worker i Waiting p.

(** [task()] returns. *)
Definition finish (i : nat) (t : Z) (p : Pool) : Pool :=
  mkPool (<[i := Checking]> (workers_ p)) (tasks_ p) (stop_ p) (notifies_ p) (notify_all_ p)
    (spawned_ p) (taken_ p) (ran_ p ++ [t]).

(** The destructor, up to its [notify_all]. *)
Definition shut_down (p : Pool) : Pool :=
  mkPool (workers_ p) (tasks_ p) true (notifies_ p) true (spawned_ p) (taken_ p) (ran_ p).

Definition wake (w : WState) : WState := match w with Waiting => Checking | w => w end.

(** ** Steps *)

(** Steps the pool takes by itself. *)
Inductive internal_step : Pool -> Pool -> Prop :=
| step_check i p : workers_ p !! i = Some Checking -> internal_step p (check i p)
| step_finish i t p : workers_ p !! i = Some (Busy t) -> internal_step p (finish i t p)
| step_notify_wake i p n :
    notifies_ p = S n -> workers_ p !! i = Some Waiting ->
    internal_step p (mkPool (<[i := Checking]> (workers_ p)) (tasks_ p) (stop_ p) n (notify_all_ p)
                       (spawned_ p) (taken_ p) (ran_ p))
| step_notify_none p n :
    notifies_ p = S n -> Waiting ∉ workers_ p ->
    internal_step p (mkPool (workers_ p) (tasks_ p) (stop_ p) n (notify_all_ p) (spawned_ p) (taken_ p) (ran_ p))
| step_notify_all p :
    notify_all_ p = true ->
    internal_step p (mkPool (wake <$> workers_ p) (tasks_ p) (stop_ p) (notifies_ p) false
                       (spawned_ p) (taken_ p) (ran_ p)).

(** Steps of the outside, and wake-ups without a notification. *)
Inductive pool_step : Pool -> Pool -> Prop :=
| step_internal p p' : internal_step p p' -> pool_step p p'
| step_spawn t p p' : spawn t p = Ok p' -> pool_step p p'
| step_shut_down p : pool_step p (shut_down p)
| step_spurious i p : workers_ p !! i = Some Waiting -> pool_step p (set_worker i Checking p).

Definition pool_reachable (threads : nat) (p : Pool) : Prop := rtc pool_step (new_pool threads) p.

(** Tasks that are being run. *)
Definition task_of (w : WState) : option Z := match w with Busy t => Some t | _ => None end.
Definition busy (p : Pool) : list Z := omap task_of (workers_ p).

Definition is_awake (w : WState) : Prop := match w with Checking | Busy _ => True | _ => False end.

(** ** Invariant *)
Record pool_ok (threads : nat) (p : Pool) : Prop := {
  po_threads : length (workers_ p) = threads;
  po_fifo : spawned_ p = taken_ p ++ tasks_ p;
  po_ran : taken_ p ≡ₚ ran_ p ++ busy p;
  po_exited : Exited ∈ workers_ p -> stop_ p = true /\ tasks_ p = [];
  po_awake : tasks_ p <> [] -> (0 < notifies_ p)%nat \/ notify_all_ p = true \/ Exists is_awake (workers_ p);
  po_stop : stop_ p = true -> Waiting ∈ workers_ p -> notify_all_ p = true;
}.

Definition busy_of (w : WState) : list Z := match w with Busy t => [t] | _ => [] end.

Lemma busy_split (ws : list WState) i w w' :
  ws !! i = Some w ->
  exists u v, omap task_of ws = u ++ busy_of w ++ v /\
    omap task_of (<[i := w']> ws) = u ++ busy_of w' ++ v.
Proof.
  intros Hi. pose proof (take_drop_middle _ _ _ Hi) as Hs.
  exists (omap task_of (take i ws)), (omap task_of (drop (S i) ws)). split.
  - rewrite <- Hs at 1. rewrite omap_app. cbn [omap list_omap]. by destruct w.
  - rewrite insert_take_drop by (by eapply lookup_lt_Some). rewrite omap_app. cbn [omap list_omap]. by destruct w'.
Qed.

Lemma elem_insert (ws : list WState) i w x : x ∈ <[i := w]> ws -> x = w \/ x ∈ ws.
Proof.
  intros [j Hj]%list_elem_of_lookup. destruct (decide (i = j)) as [<-|Hne].
  - left. destruct (decide (i < length ws)%nat) as [Hlt|Hge].
    + rewrite list_lookup_insert_eq in Hj by done. by injection Hj.
    + rewrite list_insert_ge in Hj by lia. apply lookup_lt_Some in Hj. lia.
  - right. rewrite list_lookup_insert_ne in Hj by done. by eapply list_elem_of_lookup_2.
Qed.

Lemma exists_insert (P : WState -> Prop) (ws : list WState) i w :
  (i < length ws)%nat -> P w -> Exists P (<[i := w]> ws).
Proof.
  intros Hi Hw. apply Exists_exists. exists w. split; [|done]. eapply list_elem_of_lookup_2. by apply list_lookup_insert_eq.
Qed.

Lemma new_pool_ok threads : pool_ok threads (new_pool threads).
Proof.
  split; cbn; try done.
  - by rewrite length_replicate.
  - unfold busy. cbn. induction threads; [done|]. cbn. done.
  - intros [? _]%elem_of_replicate. done.
Qed.

(** A pool with work to do has a worker that has not returned. *)
Lemma not_exited threads p : pool_ok threads p -> tasks_ p <> [] -> Exited ∉ workers_ p.
Proof. intros Hok Ht Hin. by destruct (po_exited _ _ Hok Hin). Qed.

Lemma busy_same (ws : list WState) i w w' :
  ws !! i = Some w -> busy_of w = busy_of w' -> omap task_of (<[i := w']> ws) = omap task_of ws.
Proof. intros Hi Hb. destruct (busy_split ws i w w' Hi) as (u & v & -> & ->). by rewrite Hb. Qed.

(** Replacing an idle worker by a worker that is awake. *)
Lemma set_awake_ok threads p i w ns na :
  pool_ok threads p -> workers_ p !! i = Some w -> busy_of w = [] ->
  (stop_ p = true -> Waiting ∈ workers_ p -> Waiting ∈ <[i := Checking]> (workers_ p) -> na = true) ->
  pool_ok threads (mkPool (<[i := Checking]> (workers_ p)) (tasks_ p) (stop_ p) ns na (spawned_ p) (taken_ p) (ran_ p)).
Proof.
  intros [Hn Hf Hr He Ha Hs] Hi Hb Hst. split; cbn; try done.
  - by rewrite length_insert.
  - unfold busy. cbn. by rewrite (busy_same _ _ w).
  - intros [|Hin]%elem_insert; [done|]. by apply He.
  - intros _. right. right. apply exists_insert; [by eapply lookup_lt_Some|done].
  - intros Hst' Hin. destruct (elem_insert _ _ _ _ Hin) as [|Hw]; [done|]. by apply Hst.
Qed.

Lemma check_ok threads i p :
  pool_ok threads p -> workers_ p !! i = Some Checking -> pool_ok threads (check i p).
Proof.
  intros [Hn Hf Hr He Ha Hs] Hi. pose proof (lookup_lt_Some _ _ _ Hi) as Hlt. unfold check.
  destruct (tasks_ p) as [|t ts] eqn:Ht.
  - rewrite bool_decide_eq_true_2, orb_false_r by done. destruct (stop_ p) eqn:Est.
    + split; cbn; rewrite ?Ht, ?Est; try done.
      * by rewrite length_insert.
      * unfold busy. cbn. by rewrite (busy_same _ _ Checking).
      * intros _ [|Hin]%elem_insert; [done|]. by apply Hs.
    + split; cbn; rewrite ?Ht, ?Est; try done.
      * by rewrite length_insert.
      * unfold busy. cbn. by rewrite (busy_same _ _ Checking).
      * intros [|Hin]%elem_insert; [done|]. by destruct (He Hin).
  - rewrite bool_decide_eq_false_2, orb_true_r by done. split; cbn.
    + by rewrite length_insert.
    + by rewrite Hf, <- app_assoc.
    + unfold busy in *. cbn. destruct (busy_split _ _ _ (Busy t) Hi) as (u & v & Eu & ->). rewrite Eu in Hr. cbn in *.
      rewrite Hr. solve_Permutation.
    + intros [|Hin]%elem_insert; [done|]. by destruct (He Hin).
    + intros _. right. right. by apply exists_insert.
    + intros Hst [|Hin]%elem_insert; [done|]. by apply Hs.
Qed.

Lemma pool_finish_ok threads i t p :
  pool_ok threads p -> workers_ p !! i = Some (Busy t) -> pool_ok threads (finish i t p).
Proof.
  intros [Hn Hf Hr He Ha Hs] Hi. split; cbn; try done.
  - by rewrite length_insert.
  - unfold busy in *. cbn. destruct (busy_split _ _ _ Checking Hi) as (u & v & Eu & ->). rewrite Eu in Hr. cbn in *.
    rewrite Hr. solve_Permutation.
  - intros [|Hin]%elem_insert; [done|]. by apply He.
  - intros _. right. right. apply exists_insert; [by eapply lookup_lt_Some|done].
  - intros Hst [|Hin]%elem_insert; [done|]. by apply Hs.
Qed.

(** Without a waiting or a returned worker, one is awake. *)
Lemma all_awake (ws : list WState) : ws <> [] -> Waiting ∉ ws -> Exited ∉ ws -> Exists is_awake ws.
Proof. destruct ws as [|[] ws]; intros H H1 H2; try done; try (by constructor); set_solver. Qed.

Lemma elem_wake w (ws : list WState) : w ∈ wake <$> ws -> w <> Waiting /\ (w = Exited -> Exited ∈ ws).
Proof. intros (v & -> & Hv)%list_elem_of_fmap. destruct v; cbn; split; try done; intros; set_solver. Qed.

Lemma busy_wake (ws : list WState) : omap task_of (wake <$> ws) = omap task_of ws.
Proof. induction ws as [|[] ws IH]; csimpl; rewrite ?IH; done. Qed.

Lemma internal_step_ok threads p p' : (0 < threads)%nat -> pool_ok threads p -> internal_step p p' -> pool_ok threads p'.
Proof.
  intros Hpos Hok Hst. pose proof Hok as [Hn Hf Hr He Ha Hs].
  assert (workers_ p <> []) as Hne by (intros E; rewrite E in Hn; simpl in Hn; lia).
  destruct Hst as [i p Hi|i t p Hi|i p n Hno Hi|p n Hno Hw|p Hall].
  - by apply check_ok.
  - by apply pool_finish_ok.
  - apply (set_awake_ok threads p i Waiting); auto.
  - split; cbn; try done. intros Ht. right. right. apply all_awake; [done|done|by eapply not_exited].
  - split; cbn; try done.
    + by rewrite length_fmap.
    + unfold busy. cbn. by rewrite busy_wake.
    + intros [_ Hx]%elem_wake. apply He. by apply Hx.
    + intros Ht. right. right. apply all_awake.
      * by destruct (workers_ p).
      * by intros [? _]%elem_wake.
      * intros [_ Hx]%elem_wake. by apply (not_exited _ _ Hok Ht), Hx.
    + by intros _ [? _]%elem_wake.
Qed.

Lemma pool_step_ok threads p p' : (0 < threads)%nat -> pool_ok threads p -> pool_step p p' -> pool_ok threads p'.
Proof.
  intros Hpos Hok Hps. destruct Hps as [q q' Hst|t q q' Hsp|q|i q Hi].
  - by eapply internal_step_ok.
  - unfold spawn in Hsp. destruct (stop_ q) eqn:Est; [done|]. injection Hsp as <-.
    destruct Hok as [Hn Hf Hr He Ha Hs]. split; cbn; try done.
    + by rewrite Hf, <- app_assoc.
    + intros Hin. destruct (He Hin). congruence.
    + intros _. left. lia.
  - destruct Hok as [Hn Hf Hr He Ha Hs]. split; cbn; try done.
    + intros Hin. split; [done|]. by apply He.
    + intros Ht. right. by left.
  - apply (set_awake_ok threads q i Waiting); try done. intros Hst Hw _. by apply (po_stop _ _ Hok).
Qed.

Lemma pool_reachable_ok threads p : (0 < threads)%nat -> pool_reachable threads p -> pool_ok threads p.
Proof.
  intros Hpos Hr. assert (forall q, pool_ok threads q -> rtc pool_step q p -> pool_ok threads p) as Hgen.
  { intros q Hq Hqp. induction Hqp as [|q q' p Hst _ IH]; [done|].
    apply IH; [done|]. by eapply pool_step_ok. }
  apply (Hgen (new_pool threads)); [apply new_pool_ok|done].
Qed.

(** ** Termination *)
Definition weight (w : WState) : nat := match w with Checking => 2 | Waiting => 1 | Busy _ => 3 | Exited => 0 end.
Definition weights (ws : list WState) : nat := sum_list_with weight ws.

Definition measure (p : Pool) : nat :=
  4 * length (tasks_ p) + weights (workers_ p) + 2 * notifies_ p +
  (if notify_all_ p then S (length (workers_ p)) else 0).

Lemma weights_insert (ws : list WState) i w w' :
  ws !! i = Some w -> (weights (<[i := w']> ws) + weight w = weights ws + weight w')%nat.
Proof.
  intros Hi. unfold weights. rewrite insert_take_drop by (by eapply lookup_lt_Some).
  rewrite <- (take_drop_middle _ _ _ Hi) at 3. rewrite !sum_list_with_app. simpl. lia.
Qed.

Lemma weights_wake (ws : list WState) : (weights (wake <$> ws) <= weights ws + length ws)%nat.
Proof. unfold weights. induction ws as [|[] ws IH]; csimpl; lia. Qed.

Lemma internal_decreases p p' : internal_step p p' -> (measure p' < measure p)%nat.
Proof.
  intros [i q Hi|i t q Hi|i q n Hno Hi|q n Hno Hw|q Hall]; unfold measure.
  - unfold check. destruct (tasks_ q) as [|t ts] eqn:Ht.
    + destruct (_ || _); cbn [tasks_ workers_ notifies_ notify_all_ set_worker]; rewrite Ht, length_insert;
        [pose proof (weights_insert _ _ _ Exited Hi)|pose proof (weights_insert _ _ _ Waiting Hi)]; cbn [weight] in *; lia.
    + rewrite bool_decide_eq_false_2, orb_true_r by done. cbn [tasks_ workers_ notifies_ notify_all_ length].
      rewrite length_insert. pose proof (weights_insert _ _ _ (Busy t) Hi). cbn [weight] in *. lia.
  - cbn [tasks_ workers_ notifies_ notify_all_ finish]. rewrite length_insert.
    pose proof (weights_insert _ _ _ Checking Hi). cbn [weight] in *. lia.
  - cbn [tasks_ workers_ notifies_ notify_all_]. rewrite length_insert, Hno.
    pose proof (weights_insert _ _ _ Checking Hi). cbn [weight] in *. lia.
  - cbn [tasks_ workers_ notifies_ notify_all_]. rewrite Hno. lia.
  - cbn [tasks_ workers_ notifies_ notify_all_]. rewrite Hall. pose proof (weights_wake (workers_ q)). lia.
Qed.

(** A run of the pool by itself. *)
Lemma internal_run_bounded n p p' : nsteps internal_step n p p' -> (n + measure p' <= measure p)%nat.
Proof.
  induction 1 as [p|n p q p' Hst _ IH]; [lia|]. pose proof (internal_decreases p q Hst). lia.
Qed.

Lemma stuck_pool threads p :
  pool_ok threads p -> (forall p', ~ internal_step p p') ->
  (forall w, w ∈ workers_ p -> w = Waiting \/ w = Exited) /\ tasks_ p = [] /\ busy p = [] /\
  (stop_ p = true -> Forall (fun w => w = Exited) (workers_ p)).
Proof.
  intros Hok Hstuck. pose proof Hok as [Hn Hf Hr He Ha Hs].
  assert (forall w, w ∈ workers_ p -> w = Waiting \/ w = Exited) as Hidle.
  { intros w [i Hi]%list_elem_of_lookup. destruct w as [| |t|]; auto; exfalso;
      [by apply (Hstuck _ (step_check i p Hi))|by apply (Hstuck _ (step_finish i t p Hi))]. }
  assert (notify_all_ p = false) as Hall.
  { destruct (notify_all_ p) eqn:E; [|done]. exfalso. by apply (Hstuck _ (step_notify_all p E)). }
  assert (notifies_ p = 0%nat) as Hno.
  { destruct (notifies_ p) as [|n] eqn:E; [done|]. exfalso. destruct (decide (Waiting ∈ workers_ p)) as [Hw|Hw].
    - apply list_elem_of_lookup in Hw as [i Hi]. by apply (Hstuck _ (step_notify_wake i p n E Hi)).
    - by apply (Hstuck _ (step_notify_none p n E Hw)). }
  split_and!; [done| | |].
  - destruct (tasks_ p) as [|t ts] eqn:Ht; [done|]. exfalso. destruct Ha as [|[|Hex]]; [done|lia|congruence|].
    apply Exists_exists in Hex as (w & Hw & Haw). by destruct (Hidle w Hw) as [->| ->].
  - unfold busy. clear -Hidle. induction (workers_ p) as [|w ws IH]; [done|]. csimpl.
    destruct (Hidle w) as [->| ->]; [by constructor|..]; cbn; apply IH; intros; apply Hidle; by constructor.
  - intros Hst. apply Forall_forall. intros w Hw. destruct (Hidle w Hw) as [->|]; [|done]. by rewrite Hs in Hall.
Qed.

(** With one worker the tasks run in the order they were spawned. *)
Definition in_order (p : Pool) : Prop := taken_ p = ran_ p ++ busy p.

Lemma single_in_order p p' :
  pool_ok 1 p -> in_order p -> pool_step p p' -> in_order p'.
Proof.
  intros Hok Ho Hst. pose proof (po_threads _ _ Hok) as Hn.
  assert (forall q i w, length (workers_ q) = 1%nat -> workers_ q !! i = Some w -> i = 0%nat /\ workers_ q = [w]) as H1.
  { intros q i w Hq Hi. destruct (workers_ q) as [|a [|]]; try done. destruct i; [by injection Hi as ->|done]. }
  unfold in_order, busy in *. destruct Hst as [q q' Hst|t q q' Hsp|q|i q Hi].
  - destruct Hst as [i p Hi|i t p Hi|i p n Hno Hi|p n Hno Hw|p Hall]; try (destruct (H1 _ _ _ Hn Hi) as [-> Hw]).
    + unfold check. rewrite Hw in Ho. cbn in Ho. destruct (tasks_ p); [destruct (_ || _)|rewrite bool_decide_eq_false_2, orb_true_r by done];
        cbn; rewrite Hw; cbn; rewrite Ho; by rewrite ?app_nil_r.
    + cbn. rewrite Hw in *. cbn in *. by rewrite Ho, app_nil_r.
    + cbn. rewrite Hw in *. cbn in *. done.
    + done.
    + cbn. by rewrite busy_wake.
  - unfold spawn in Hsp. destruct (stop_ q); [done|]. injection Hsp as <-. done.
  - done.
  - destruct (H1 _ _ _ Hn Hi) as [-> Hw]. cbn. rewrite Hw in *. done.
Qed.

Lemma single_order p : pool_reachable 1 p -> in_order p.
Proof.
  intros Hreach. assert (forall q, pool_ok 1 q -> in_order q -> rtc pool_step q p -> in_order p) as Hgen.
  { intros q Hq Ho Hqp. clear Hreach. induction Hqp as [|q q' p Hst _ IH]; [done|].
    apply IH; [eapply pool_step_ok; [|exact Hq|exact Hst]; lia|by eapply single_in_order]. }
  apply (Hgen (new_pool 1)); [apply new_pool_ok|done|done].
Qed.

(** By itself the pool spawns nothing and is not shut down. *)
Lemma internal_keeps threads p p' :
  (0 < threads)%nat -> pool_ok threads p -> rtc internal_step p p' ->
  pool_ok threads p' /\ spawned_ p' = spawned_ p /\ stop_ p' = stop_ p.
Proof.
  intros Hpos Hok Hrun. induction Hrun as [|q q' p' Hq _ IH]; [done|].
  destruct IH as (Hok' & -> & ->); [by eapply internal_step_ok|]. split; [done|].
  destruct Hq as [i q Hi|i t q Hi|i q n Hno Hi|q n Hno Hw|q Hall]; try done.
  unfold check. destruct (_ || _); [|done]. by destruct (tasks_ q).
Qed.

(** C35: The thread pool, in every state reached by any interleaving of spawning, shutdown,
    waking (spurious wake-ups included) and working threads: tasks are taken in the order
    they were spawned, each task is waiting, running or done exactly once, a pool of one
    thread runs them in order, every schedule of the steps the pool takes by itself ends,
    and then every spawned task has run and, after shutdown, every worker has exited. *)
Theorem thread_pool_runs_every_task threads p :
  (0 < threads)%nat -> pool_reachable threads p ->
  spawned_ p = taken_ p ++ tasks_ p /\ taken_ p ≡ₚ ran_ p ++ busy p /\
  (threads = 1%nat -> spawned_ p = ran_ p ++ busy p ++ tasks_ p) /\
  (forall n p', nsteps internal_step n p p' -> (n <= measure p)%nat) /\
  (forall p', rtc internal_step p p' -> (forall q, ~ internal_step p' q) ->
     ran_ p' ≡ₚ spawned_ p /\ tasks_ p' = [] /\
     (stop_ p = true -> Forall (fun w => w = Exited) (workers_ p'))).
Proof.
  intros Hpos Hreach. pose proof (pool_reachable_ok _ _ Hpos Hreach) as Hok. split_and!.
  - apply (po_fifo _ _ Hok).
  - apply (po_ran _ _ Hok).
  - intros ->. rewrite (po_fifo _ _ Hok), (single_order p Hreach). by rewrite <- app_assoc.
  - intros n p' Hn. pose proof (internal_run_bounded _ _ _ Hn). lia.
  - intros p' Hrun Hstuck.
    assert (pool_ok threads p' /\ spawned_ p' = spawned_ p /\ stop_ p' = stop_ p) as (Hok' & Hsp & Hst).
    { by apply (internal_keeps threads). }
    destruct (stuck_pool _ _ Hok' Hstuck) as (_ & Ht & Hb & Hx). split_and!; [|done|by rewrite <- Hst].
    rewrite <- Hsp, (po_fifo _ _ Hok'), Ht, app_nil_r, (po_ran _ _ Hok'), Hb. by rewrite app_nil_r.
Qed.

(** ** Example *)

(** One worker; a task is spawned before it first looks at the queue. *)
Definition one_task : Pool := mkPool [Checking] [7] false 1 false [7] [] [].

Lemma thread_pool_runs_every_task_witness :
  spawned_ one_task = ran_ one_task ++ busy one_task ++ tasks_ one_task /\
  forall p', rtc internal_step one_task p' -> (forall q, ~ internal_step p' q) -> ran_ p' ≡ₚ [7].
Proof.
  destruct (thread_pool_runs_every_task 1 one_task) as (_ & _ & H1 & _ & Hrun).
  - lia.
  - eapply rtc_l; [|apply rtc_refl]. by apply (step_spawn 7).
  - split; [by apply H1|]. intros p' Hr Hs. by apply (Hrun p').
Defined.
