(* ===== verification/Step.v ===== *)
(** Layer readiness of a step ([src/semaphore.cpp], [src/step.cpp], the barrier of
    [src/context.cpp]): the main thread records one event per layer and flushes, one
    thread waits for the events in order, and any number of send threads wait for the
    layers.  Every interleaving is a sequence of the actions below.  Send stubs are created
    for the layers from 0 to the number of layers of the context ([create_or_get] in
    [src/client.cpp]), so the layer loops of all threads have the same bounds. *)

From S2P Require Import Prelude.
From S2P Require Import Common.

(** ** Semaphores *)
Record SyncSemaphore := mkSem { ready_ : Z }.

(** [wait(cond)] returns when [ready_ > cond]. *)
Definition wait_passes (s : SyncSemaphore) (cond : Z) : bool := cond <? ready_ s.

(** [release()]. *)
Definition release (s : SyncSemaphore) : SyncSemaphore := mkSem (u32 (ready_ s + 1)).

(** [release(cond)]: the semaphore and the value returned. *)
Definition release_to (s : SyncSemaphore) (cond : Z) : SyncSemaphore * Z :=
  let s' := if ready_ s <? cond then mkSem cond else s in (s', ready_ s').

(** ** Barriers *)

(** [NoCudaBarrier] or a [CudaEventBarrier] with so many events. *)
Inductive ICUDABarrier :=
| NoCudaBarrier
| CudaEventBarrier (events : Z).

(** [wait(layer_idx)] either returns once the event has completed or throws from [at()]. *)
Definition barrier_wait (b : ICUDABarrier) (layer_idx : Z) : bool :=
  match b with
  | NoCudaBarrier => true
  | CudaEventBarrier events => layer_idx <? events
  end.

(** ** Threads *)

(** Where the thread that runs [StepGuard::wait_layers] is. *)
Inductive WaitPc :=
| WInit                (* before [notify_layer_ready(0)] *)
| WRecord (i : Z)      (* in [record_signal_.wait(i)] *)
| WBarrier (i : Z)     (* in [cu_barrier_->wait(i)] *)
| WNotify (i : Z)      (* before [notify_layer_ready(i + 1)] *)
| WDone                (* returned *)
| WThrown              (* the barrier threw *)
| WAborted.            (* an assertion failed *)

(** A send thread inside the layer loop of [do_send]. *)
Inductive SendPc :=
| Sending (i : Z)      (* in [wait_layer_ready(i)] *)
| Sent                 (* past the loop *)
| SendFailed.          (* [send_data] threw *)

(** What has happened, oldest first: [EAttach], [ERecord] and [EFlush] by the main thread,
    [EBarrier i] when the wait of layer [i]'s event returned, [ESend j i] when sender [j]
    sent layer [i], [EThrow j i] when its [send_data] of layer [i] threw. *)
Inductive event :=
| EAttach
| ERecord
| EFlush
| EBarrier (i : Z)
| ESend (j : nat) (i : Z)
| EThrow (j : nat) (i : Z).

#[export] Instance event_eq_dec : EqDecision event.
Proof. solve_decision. Defined.

Record StepState := mkStepState {
  data_signal_ : SyncSemaphore;      (* of the [Step] *)
  record_signal_ : SyncSemaphore;    (* of the [StepGuard] *)
  wait_pc : WaitPc;
  flushed : bool;                    (* [last_step_guard_] has been reset *)
  attached : nat;                    (* holders of the step that have not submitted yet *)
  queued : nat;                      (* batches not yet picked up by a send thread *)
  senders : list SendPc;
  log : list event;
}.

Definition init_step : StepState := mkStepState (mkSem 0) (mkSem 0) WInit false 0 0 [] [].

Inductive action :=
| Attach               (* [start_send] or [start_send_substep] takes the current step *)
| Submit               (* ... and hands a batch with it to the manager, maybe later *)
| RecordOne            (* [notify_event_record] *)
| Flush                (* [flush_send] *)
| WaitThread           (* the next atomic operation of [wait_layers] *)
| Start                (* a send thread picks a batch up *)
| SendLayer (j : nat)  (* sender [j] passes its wait and sends the layer *)
| SendThrow (j : nat). (* sender [j] passes its wait and [send_data] throws *)

Section Step.
Context `{Env} (num_layers : Z) (barrier : ICUDABarrier).

Definition at_layer (i : Z) : SendPc := if i <? num_layers then Sending i else Sent.

(** After a notification that returned [val] where [expected] was set: the thread stops
    when somebody else already released more, which must then be everything. *)
Definition after_notify (val expected : Z) (next : WaitPc) : WaitPc :=
  if expected <? val then
    if negb ndebug && negb (val =? num_layers) then WAborted else WDone
  else next.

(** The next operation of [wait_layers]; [None] while it blocks. *)
Definition wait_thread (s : StepState) : option StepState :=
  let '(mkStepState data rec pc fl at_ q snd lg) := s in
  match pc with
  | WInit =>
      let '(data', val) := release_to data 0 in
      Some (mkStepState data' rec
              (after_notify val 0 (if 0 <? num_layers then WRecord 0 else WDone)) fl at_ q snd lg)
  | WRecord i =>
      if wait_passes rec i then Some (mkStepState data rec (WBarrier i) fl at_ q snd lg) else None
  | WBarrier i =>
      if barrier_wait barrier i
      then Some (mkStepState data rec (WNotify i) fl at_ q snd (lg ++ [EBarrier i]))
      else Some (mkStepState data rec WThrown fl at_ q snd lg)
  | WNotify i =>
      let '(data', val) := release_to data (u32 (i + 1)) in
      Some (mkStepState data' rec
              (after_notify val (u32 (i + 1))
                 (if u32 (i + 1) <? num_layers then WRecord (u32 (i + 1)) else WDone)) fl at_ q snd lg)
  | WDone | WThrown | WAborted => None
  end.

(** Sender [j] passes [wait_layer_ready]. *)
Definition sender_at (s : StepState) (j : nat) : option Z :=
  match senders s !! j with
  | Some (Sending i) => if wait_passes (data_signal_ s) i then Some i else None
  | _ => None
  end.

Definition act (a : action) (s : StepState) : option StepState :=
  let '(mkStepState data rec pc fl at_ q snd lg) := s in
  match a with
  | Attach => if fl then None else Some (mkStepState data rec pc fl (S at_) q snd (lg ++ [EAttach]))
  | Submit =>
      match at_ with
      | O => None
      | S at' => Some (mkStepState data rec pc fl at' (S q) snd lg)
      end
  | RecordOne =>
      if fl then None else Some (mkStepState data (release rec) pc fl at_ q snd (lg ++ [ERecord]))
  | Flush =>
      if fl then None
      else Some (mkStepState data (release_to rec num_layers).1 pc true at_ q snd (lg ++ [EFlush]))
  | WaitThread => wait_thread s
  | Start =>
      match q with
      | O => None
      | S q' => Some (mkStepState data rec pc fl at_ q' (snd ++ [at_layer 0]) lg)
      end
  | SendLayer j =>
      match sender_at s j with
      | Some i => Some (mkStepState data rec pc fl at_ q (<[j := at_layer (u32 (i + 1))]> snd)
                          (lg ++ [ESend j i]))
      | None => None
      end
  | SendThrow j =>
      match sender_at s j with
      | Some i => Some (mkStepState data rec pc fl at_ q (<[j := SendFailed]> snd)
                          (lg ++ [EThrow j i]))
      | None => None
      end
  end.

(** ** Reachability *)
Definition steps (s s' : StepState) : Prop := exists a, act a s = Some s'.

Inductive reachable : StepState -> Prop :=
| reach_init : reachable init_step
| reach_step s s' : reachable s -> steps s s' -> reachable s'.

(** ** Specification *)

(** The events of the layers before [i] have been waited for. *)
Definition layer_done (lg : list event) (i : Z) : Prop := EBarrier i ∈ lg.

(** Number of recorded events. *)
Definition records (lg : list event) : Z := vsize (filter (fun e => e = ERecord) lg).

(** In every prefix, a layer is sent only after its event was waited for, and an event is
    waited for only when it has been recorded or the step has been flushed. *)
Definition ordered (lg : list event) : Prop :=
  forall pre e post, lg = pre ++ e :: post ->
    match e with
    | ESend _ i | EThrow _ i => layer_done pre i
    | EBarrier i => i < records pre \/ EFlush ∈ pre
    | EAttach | ERecord | EFlush => EFlush ∉ pre
    end.

(** The layers whose events were waited for, the layers sender [j] sent, those its
    [send_data] threw on, in order; and how many batches took the step. *)
Definition waited (lg : list event) : list Z :=
  omap (fun e => match e with EBarrier i => Some i | _ => None end) lg.

Definition layers_sent (j : nat) (lg : list event) : list Z :=
  omap (fun e => match e with ESend j' i => if decide (j' = j) then Some i else None | _ => None end) lg.

Definition layers_thrown (j : nat) (lg : list event) : list Z :=
  omap (fun e => match e with EThrow j' i => if decide (j' = j) then Some i else None | _ => None end) lg.

Definition attaches (lg : list event) : nat := length (filter (fun e => e = EAttach) lg).

(** Sender [j] is at layer [i] having sent the layers before it, or has sent every layer, or
    [send_data] threw on a layer after it had sent all before. *)
Definition sent_so_far (lg : list event) (j : nat) (sp : SendPc) : Prop :=
  match sp with
  | Sending i => layers_sent j lg = seqZ 0 i /\ layers_thrown j lg = []
  | Sent => layers_sent j lg = seqZ 0 num_layers /\ layers_thrown j lg = []
  | SendFailed => exists i, 0 <= i < num_layers /\ layers_sent j lg = seqZ 0 i /\ layers_thrown j lg = [i]
  end.

(** ** Invariant *)

(** Layers the wait thread has announced, by its position. *)
Definition announced (pc : WaitPc) (data : Z) : Prop :=
  match pc with
  | WInit => data = 0
  | WRecord i | WBarrier i | WNotify i => data = i /\ 0 <= i < num_layers
  | WDone => data = num_layers
  | WThrown => 0 <= data < num_layers /\ barrier_wait barrier data = false
  | WAborted => False
  end.

(** The event of the layer in hand. *)
Definition in_hand (pc : WaitPc) (lg : list event) : Prop :=
  match pc with
  | WBarrier i => i < records lg \/ EFlush ∈ lg
  | WNotify i => EBarrier i ∈ lg
  | _ => True
  end.

Definition sender_ok (sp : SendPc) : Prop :=
  match sp with Sending i => 0 <= i < num_layers | _ => True end.

Record inv (s : StepState) : Prop := {
  inv_announced : announced (wait_pc s) (ready_ (data_signal_ s));
  inv_done : forall i, 0 <= i < ready_ (data_signal_ s) -> layer_done (log s) i;
  inv_hand : in_hand (wait_pc s) (log s);
  inv_records : flushed s = false -> ready_ (record_signal_ s) <= records (log s);
  inv_record_nonneg : 0 <= ready_ (record_signal_ s);
  inv_flushed : flushed s = true <-> EFlush ∈ log s;
  inv_flush_ready : flushed s = true -> num_layers <= ready_ (record_signal_ s);
  inv_senders : Forall sender_ok (senders s);
  inv_ordered : ordered (log s);
}.

(** What the log says of each thread. *)
Record log_inv (s : StepState) : Prop := {
  li_waited : waited (log s) = seqZ 0 (match wait_pc s with WNotify i => i + 1 | _ => ready_ (data_signal_ s) end);
  li_sent : forall j sp, senders s !! j = Some sp -> sent_so_far (log s) j sp;
  li_unborn : forall j, (length (senders s) <= j)%nat -> layers_sent j (log s) = [] /\ layers_thrown j (log s) = [];
  li_attached : attaches (log s) = (attached s + queued s + length (senders s))%nat;
}.

Hypothesis layers_range : 0 <= num_layers < W32.

(** ** The log only grows *)
Lemma records_app lg e :
  records (lg ++ [e]) = records lg + (if decide (e = ERecord) then 1 else 0).
Proof.
  unfold records, vsize. rewrite filter_app, length_app, Nat2Z.inj_add.
  rewrite filter_cons, filter_nil. by destruct (decide _).
Qed.

Lemma records_mono lg e : records lg <= records (lg ++ [e]).
Proof. rewrite records_app. destruct (decide _); lia. Qed.

Lemma ordered_snoc lg e :
  ordered lg ->
  match e with
  | ESend _ i | EThrow _ i => layer_done lg i
  | EBarrier i => i < records lg \/ EFlush ∈ lg
  | EAttach | ERecord | EFlush => EFlush ∉ lg
  end -> ordered (lg ++ [e]).
Proof.
  intros Ho He pre e' post Hlg.
  destruct post as [|x post' _] using rev_ind.
  - apply app_inj_tail in Hlg as [-> ->]. exact He.
  - rewrite app_comm_cons, app_assoc in Hlg. apply app_inj_tail in Hlg as [-> _].
    by apply (Ho pre e' post').
Qed.

Lemma layer_done_snoc lg e i : layer_done lg i -> layer_done (lg ++ [e]) i.
Proof. unfold layer_done. set_solver. Qed.

Lemma in_hand_snoc pc lg e : in_hand pc lg -> in_hand pc (lg ++ [e]).
Proof. pose proof (records_mono lg e). destruct pc; simpl; set_solver by lia. Qed.

Lemma at_layer_ok i : 0 <= i -> sender_ok (at_layer i).
Proof. intros. unfold at_layer. case_match; simpl; [lia|done]. Qed.

Lemma u32_next i : 0 <= i < num_layers -> u32 (i + 1) = i + 1.
Proof. intros. apply u32_small. lia. Qed.

Lemma announced_range pc data : announced pc data -> 0 <= data <= num_layers.
Proof. destruct pc; simpl; intros; naive_solver lia. Qed.

(** The sender at layer [i] passes its wait only when the layer is announced. *)
Lemma sender_at_spec s j i :
  sender_at s j = Some i -> senders s !! j = Some (Sending i) /\ i < ready_ (data_signal_ s).
Proof.
  unfold sender_at, wait_passes. destruct (senders s !! j) as [[]|]; try done.
  destruct (Z.ltb_spec i0 (ready_ (data_signal_ s))); intros; simplify_eq; done.
Qed.

(** ** Preservation *)
Lemma inv_init : inv init_step.
Proof.
  split; simpl; try done; try lia.
  - set_solver.
  - intros pre ? post Heq. by destruct pre.
Qed.

Lemma inv_notify data rec i fl at_ q snd lg :
  inv (mkStepState data rec (WNotify i) fl at_ q snd lg) ->
  exists next, wait_thread (mkStepState data rec (WNotify i) fl at_ q snd lg) =
    Some (mkStepState (mkSem (i + 1)) rec next fl at_ q snd lg) /\
  next = (if i + 1 <? num_layers then WRecord (i + 1) else WDone).
Proof.
  intros [[Hd Hi] _ _ _ _ _ _ _ _]. simpl in *. subst i.
  unfold release_to. rewrite u32_next by lia.
  destruct (Z.ltb_spec (ready_ data) (ready_ data + 1)); [|lia]. simpl.
  unfold after_notify. rewrite Z.ltb_irrefl. eauto.
Qed.

Lemma inv_wait_thread s s' : inv s -> wait_thread s = Some s' -> inv s'.
Proof.
  intros HI Hw. destruct s as [data rec pc fl at_ q snd lg].
  destruct pc as [|i|i|i| | |]; try done.
  - destruct HI as [Ha Hdone Hh Hr Hn Hf Hfr Hs Ho]. simpl in *.
    unfold release_to in Hw. rewrite Ha in Hw. simpl in Hw. unfold after_notify in Hw.
    destruct (Z.ltb_spec 0 (ready_ data)); [lia|].
    injection Hw as <-. split; simpl; try done; case_match; simpl; try done; lia.
  - destruct HI as [Ha Hdone Hh Hr Hn Hf Hfr Hs Ho]. simpl in *.
    unfold wait_passes in Hw. destruct (Z.ltb_spec i (ready_ rec)); [|done].
    injection Hw as <-. split; simpl; try done.
    destruct fl; [right; by apply Hf|left]. specialize (Hr eq_refl). lia.
  - destruct HI as [Ha Hdone Hh Hr Hn Hf Hfr Hs Ho]. simpl in *.
    destruct (barrier_wait barrier i) eqn:Hb; injection Hw as <-; split; simpl; try done.
    + intros. by apply layer_done_snoc, Hdone.
    + set_solver.
    + intros. pose proof (records_mono lg (EBarrier i)). specialize (Hr ltac:(done)). lia.
    + rewrite Hf. set_solver.
    + by apply ordered_snoc.
    + destruct Ha as [-> ?]. done.
  - destruct (inv_notify _ _ _ _ _ _ _ _ HI) as (next & Hw' & ->).
    rewrite Hw' in Hw. injection Hw as <-.
    destruct HI as [[Hd Hi] Hdone Hh Hr Hn Hf Hfr Hs Ho]. simpl in *.
    split; simpl; try done.
    + destruct (Z.ltb_spec (i + 1) num_layers); simpl; lia.
    + intros k Hk. destruct (decide (k = i)) as [->|]; [done|]. apply Hdone. lia.
    + by destruct (i + 1 <? num_layers).
Qed.

(** Logging an event of the main thread's attaching or of a sender. *)
Lemma inv_logged data rec pc fl at_ q snd lg e :
  inv (mkStepState data rec pc fl at_ q snd lg) ->
  match e with EAttach | ESend _ _ | EThrow _ _ => True | _ => False end ->
  match e with ESend _ i | EThrow _ i => layer_done lg i | _ => EFlush ∉ lg end ->
  inv (mkStepState data rec pc fl at_ q snd (lg ++ [e])).
Proof.
  intros [Hn Hd Hh Hr Hp Hf Hfr Hs Ho] He Hord; split; simpl in *; try done.
  - intros. by apply layer_done_snoc, Hd.
  - by apply in_hand_snoc.
  - intros. pose proof (records_mono lg e). specialize (Hr ltac:(done)). lia.
  - rewrite Hf. destruct e; set_solver.
  - apply ordered_snoc; [done|]. by destruct e.
Qed.

(** A sender that passes its wait is at a layer whose event was waited for. *)
Lemma inv_sender_at s j i : inv s -> sender_at s j = Some i -> 0 <= i < num_layers /\ layer_done (log s) i.
Proof.
  intros HI [Hj Hi]%sender_at_spec. pose proof (Forall_lookup_1 _ _ _ _ (inv_senders _ HI) Hj) as Hok. simpl in Hok.
  split; [done|]. apply (inv_done _ HI). lia.
Qed.

Lemma inv_act a s s' : inv s -> act a s = Some s' -> inv s'.
Proof.
  intros HI Ha. destruct s as [data rec pc fl at_ q snd lg].
  destruct a; simpl in Ha; [| | | |by eapply inv_wait_thread| | |].
  - destruct fl; [done|]. injection Ha as <-.
    apply (inv_logged _ _ _ _ _ _ _ _ EAttach); [by destruct HI; split|done|].
    simpl. by rewrite <- (inv_flushed _ HI).
  - destruct at_; [done|]. injection Ha as <-. destruct HI; split; done.
  - destruct fl; [done|]. injection Ha as <-.
    destruct HI as [Hn Hd Hh Hr Hp Hf Hfr Hs Ho]; split; simpl in *; try done.
    + intros. by apply layer_done_snoc, Hd.
    + by apply in_hand_snoc.
    + intros _. rewrite records_app, decide_True by done. specialize (Hr eq_refl).
      pose proof (Z.mod_le (ready_ rec + 1) W32). unfold u32, W32 in *. lia.
    + apply u32_range.
    + rewrite Hf. set_solver.
    + apply ordered_snoc; [done|]. by rewrite <- Hf.
  - destruct fl; [done|]. injection Ha as <-.
    destruct HI as [Hn Hd Hh Hr Hp Hf Hfr Hs Ho]; split; simpl in *; try done.
    + intros. by apply layer_done_snoc, Hd.
    + by apply in_hand_snoc.
    + unfold release_to. simpl. case_match; simpl; lia.
    + split; [set_solver|done].
    + intros _. unfold release_to. simpl.
      destruct (Z.ltb_spec (ready_ rec) num_layers); simpl; lia.
    + apply ordered_snoc; [done|]. by rewrite <- Hf.
  - destruct q; [done|]. injection Ha as <-. destruct HI; split; try done; simpl in *.
    apply Forall_app. split; [done|]. apply Forall_singleton, at_layer_ok. lia.
  - destruct (sender_at _ _) as [i|] eqn:Hat; [|done]. injection Ha as <-.
    destruct (inv_sender_at _ _ _ HI Hat) as (Hr & Hd). simpl in *.
    apply (inv_logged _ _ _ _ _ _ _ _ (ESend j i)); [|done|done].
    destruct HI; split; try done; simpl in *. apply Forall_insert; [done|]. rewrite u32_next by done. apply at_layer_ok. lia.
  - destruct (sender_at _ _) as [i|] eqn:Hat; [|done]. injection Ha as <-.
    destruct (inv_sender_at _ _ _ HI Hat) as (Hr & Hd). simpl in *.
    apply (inv_logged _ _ _ _ _ _ _ _ (EThrow j i)); [|done|done].
    destruct HI; split; try done; simpl in *. by apply Forall_insert.
Qed.

Lemma inv_reachable s : reachable s -> inv s.
Proof. induction 1 as [|s s' _ IH [a Ha]]; eauto using inv_init, inv_act. Qed.

(** ** What every thread has done *)
Definition of_sender (j : nat) (e : event) : bool :=
  match e with ESend j' _ | EThrow j' _ => bool_decide (j' = j) | _ => false end.

Lemma layers_quiet j lg e :
  of_sender j e = false -> layers_sent j (lg ++ [e]) = layers_sent j lg /\ layers_thrown j (lg ++ [e]) = layers_thrown j lg.
Proof.
  intros He. unfold layers_sent, layers_thrown. rewrite !omap_app.
  destruct e; cbn in *; rewrite ?app_nil_r; try done; apply bool_decide_eq_false in He;
    by rewrite decide_False, !app_nil_r.
Qed.

Lemma layers_sent_own j i lg :
  layers_sent j (lg ++ [ESend j i]) = layers_sent j lg ++ [i] /\ layers_thrown j (lg ++ [ESend j i]) = layers_thrown j lg.
Proof. unfold layers_sent, layers_thrown. rewrite !omap_app. cbn. by rewrite decide_True, app_nil_r. Qed.

Lemma layers_thrown_own j i lg :
  layers_sent j (lg ++ [EThrow j i]) = layers_sent j lg /\ layers_thrown j (lg ++ [EThrow j i]) = layers_thrown j lg ++ [i].
Proof. unfold layers_sent, layers_thrown. rewrite !omap_app. cbn. by rewrite decide_True, app_nil_r. Qed.

Lemma sent_so_far_quiet j lg e sp : of_sender j e = false -> sent_so_far lg j sp -> sent_so_far (lg ++ [e]) j sp.
Proof. intros He. destruct (layers_quiet j lg e He) as [E1 E2]. unfold sent_so_far. by rewrite E1, E2. Qed.

Lemma at_layer_sent j i lg :
  0 <= i <= num_layers -> layers_sent j lg = seqZ 0 i -> layers_thrown j lg = [] -> sent_so_far lg j (at_layer i).
Proof.
  intros Hi Hs Ht. unfold at_layer. destruct (Z.ltb_spec i num_layers); simpl; [done|].
  by replace num_layers with i by lia.
Qed.

(** An event that is no sender's: the senders' part of the log stays. *)
Lemma senders_quiet snd lg e :
  (forall j, of_sender j e = false) ->
  (forall j sp, snd !! j = Some sp -> sent_so_far lg j sp) ->
  (forall j, (length snd <= j)%nat -> layers_sent j lg = [] /\ layers_thrown j lg = []) ->
  (forall j sp, snd !! j = Some sp -> sent_so_far (lg ++ [e]) j sp) /\
  (forall j, (length snd <= j)%nat -> layers_sent j (lg ++ [e]) = [] /\ layers_thrown j (lg ++ [e]) = []).
Proof.
  intros He Hs Hu. split; [intros j sp Hj; by apply sent_so_far_quiet, Hs|].
  intros j Hj. destruct (layers_quiet j lg e (He j)) as [-> ->]. by apply Hu.
Qed.

Lemma attaches_app lg e : attaches (lg ++ [e]) = (attaches lg + if decide (e = EAttach) then 1 else 0)%nat.
Proof. unfold attaches. rewrite filter_app, length_app, filter_cons, filter_nil. by destruct (decide _). Qed.

Lemma waited_app lg e : waited (lg ++ [e]) = waited lg ++ match e with EBarrier i => [i] | _ => [] end.
Proof. unfold waited. rewrite omap_app. by destruct e. Qed.

(** Sender [j] moves on, having logged [e]. *)
Lemma sender_logged data rec pc fl at_ q snd lg j sp sp' e :
  log_inv (mkStepState data rec pc fl at_ q snd lg) -> snd !! j = Some sp ->
  (forall j', j' <> j -> of_sender j' e = false) -> of_sender j e = true -> sent_so_far (lg ++ [e]) j sp' ->
  log_inv (mkStepState data rec pc fl at_ q (<[j := sp']> snd) (lg ++ [e])).
Proof.
  intros [Hw Hs Hu Hat] Hj Hother Hown Hsp. pose proof (lookup_lt_Some _ _ _ Hj) as Hlt. simpl in *.
  split; simpl; rewrite ?length_insert.
  - rewrite waited_app. destruct e; try done; by rewrite app_nil_r.
  - intros k sp'' Hk. destruct (decide (k = j)) as [->|Hne].
    + rewrite list_lookup_insert_eq in Hk by done. by injection Hk as <-.
    + rewrite list_lookup_insert_ne in Hk by done. apply sent_so_far_quiet; auto.
  - intros k Hk. destruct (layers_quiet k lg e) as [-> ->]; [apply Hother; lia|by apply Hu].
  - rewrite attaches_app, Hat. destruct (decide _) as [->|]; [done|lia].
Qed.

Lemma log_inv_wait_thread s s' : inv s -> log_inv s -> wait_thread s = Some s' -> log_inv s'.
Proof.
  intros HI HL Hw. destruct s as [data rec pc fl at_ q snd lg]. pose proof (inv_announced _ HI) as Ha.
  destruct pc as [|i|i|i| | |]; try done.
  - destruct HL as [Hwt Hs Hu Hat]. simpl in *. unfold release_to in Hw. rewrite Ha in Hw. simpl in Hw.
    unfold after_notify in Hw. rewrite Ha in Hw. injection Hw as <-. split; simpl; try done. rewrite Ha in *. by destruct (0 <? num_layers).
  - destruct HL as [Hwt Hs Hu Hat]. simpl in *. case_match; [|done]. by injection Hw as <-.
  - destruct HL as [Hwt Hs Hu Hat]. simpl in *. destruct Ha as [Hd Hr].
    destruct (barrier_wait barrier i); injection Hw as <-; [|by split].
    destruct (senders_quiet snd lg (EBarrier i)) as [Hs' Hu']; [done..|]. split; simpl; try done.
    + by rewrite waited_app, Hwt, Hd, seqZ_app, (seqZ_cons (0 + i)) by lia.
    + rewrite attaches_app, Hat. simpl. lia.
  - destruct (inv_notify _ _ _ _ _ _ _ _ HI) as (next & Hw' & ->). rewrite Hw' in Hw. injection Hw as <-.
    destruct HL as [Hwt Hs Hu Hat]. split; simpl in *; try done. by destruct (i + 1 <? num_layers).
Qed.

Lemma log_inv_act a s s' : inv s -> log_inv s -> act a s = Some s' -> log_inv s'.
Proof.
  intros HI HL Ha. pose proof HL as [Hw Hs Hu Hat]. destruct s as [data rec pc fl at_ q snd lg]. simpl in Hw, Hs, Hu, Hat.
  destruct a; simpl in Ha; [| | | |by eapply log_inv_wait_thread| | |].
  - destruct fl; [done|]. injection Ha as <-. destruct (senders_quiet snd lg EAttach) as [? ?]; [done..|].
    split; simpl; try done; [by rewrite waited_app, app_nil_r|]. rewrite attaches_app, Hat. simpl. lia.
  - destruct at_; [done|]. injection Ha as <-. split; simpl; try done. lia.
  - destruct fl; [done|]. injection Ha as <-. destruct (senders_quiet snd lg ERecord) as [? ?]; [done..|].
    split; simpl; try done; [by rewrite waited_app, app_nil_r|]. rewrite attaches_app, Hat. simpl. lia.
  - destruct fl; [done|]. injection Ha as <-. destruct (senders_quiet snd lg EFlush) as [? ?]; [done..|].
    split; simpl; try done; [by rewrite waited_app, app_nil_r|]. rewrite attaches_app, Hat. simpl. lia.
  - destruct q; [done|]. injection Ha as <-. split; simpl; rewrite ?length_app; simpl; try done; [|intros; apply Hu; lia|lia].
    intros j sp [Hj|[Hj E]]%lookup_app_Some; [by apply Hs|]. apply list_lookup_singleton_Some in E as [Hz <-].
    destruct (Hu j) as [E1 E2]; [lia|]. by apply at_layer_sent; [lia|rewrite E1|].
  - destruct (sender_at _ _) as [i|] eqn:Hi; [|done]. injection Ha as <-.
    destruct (inv_sender_at _ _ _ HI Hi) as [Hr _]. apply sender_at_spec in Hi as [Hj _]. simpl in Hj.
    destruct (Hs _ _ Hj) as [Hls Hlt]. destruct (layers_sent_own j i lg) as [E1 E2].
    eapply sender_logged; [done|done|..]; simpl; try (by intros; apply bool_decide_eq_false; congruence); [by apply bool_decide_eq_true|].
    rewrite u32_next by done. apply at_layer_sent; [lia| |by rewrite E2].
    by rewrite E1, Hls, seqZ_app, (seqZ_cons (0 + i)) by lia.
  - destruct (sender_at _ _) as [i|] eqn:Hi; [|done]. injection Ha as <-.
    destruct (inv_sender_at _ _ _ HI Hi) as [Hr _]. apply sender_at_spec in Hi as [Hj _]. simpl in Hj.
    destruct (Hs _ _ Hj) as [Hls Hlt]. destruct (layers_thrown_own j i lg) as [E1 E2].
    eapply sender_logged; [done|done|..]; simpl; try (by intros; apply bool_decide_eq_false; congruence); [by apply bool_decide_eq_true|].
    exists i. by rewrite E1, E2, Hls, Hlt.
Qed.

Lemma log_inv_reachable s : reachable s -> log_inv s.
Proof.
  induction 1 as [|s s' Hr IH [a Ha]]; [by split|]. eapply log_inv_act; [by apply inv_reachable|done|done].
Qed.

(** ** Progress after a flush *)

(** Everybody is through: every layer's event was waited for in order and announced, every
    batch that took the step was picked up, and every send thread has sent every layer in
    order, or its [send_data] threw and it had sent all layers before that one. *)
Definition finished_sender (sp : SendPc) : bool :=
  match sp with Sending _ => false | _ => true end.

Record complete (s : StepState) : Prop := {
  cp_waited : wait_pc s = WDone /\ ready_ (data_signal_ s) = num_layers /\ waited (log s) = seqZ 0 num_layers;
  cp_picked : attached s = 0%nat /\ queued s = 0%nat /\ length (senders s) = attaches (log s);
  cp_sent : forall j sp, senders s !! j = Some sp -> finished_sender sp = true /\ sent_so_far (log s) j sp;
}.

(** [P] is reached on every schedule: no schedule stops or runs forever before it. *)
Inductive always_reaches (P : StepState -> Prop) (s : StepState) : Prop :=
| reached : P s -> always_reaches P s
| reach_next : (exists s', steps s s') ->
    (forall s', steps s s' -> always_reaches P s') -> always_reaches P s.

(** Operations left to each thread. *)
Definition wait_left (pc : WaitPc) : Z :=
  match pc with
  | WInit => 3 * num_layers + 1
  | WRecord i => 3 * (num_layers - i)
  | WBarrier i => 3 * (num_layers - i) - 1
  | WNotify i => 3 * (num_layers - i) - 2
  | WDone | WThrown | WAborted => 0
  end.

Definition send_left (sp : SendPc) : Z :=
  match sp with Sending i => num_layers - i | Sent | SendFailed => 0 end.

Definition work_left (s : StepState) : Z :=
  wait_left (wait_pc s) + Z.of_nat (attached s) * (num_layers + 2) +
  Z.of_nat (queued s) * (num_layers + 1) + foldr Z.add 0 (send_left <$> senders s).

Lemma at_layer_left i : 0 <= i -> 0 <= send_left (at_layer i) <= Z.max 0 (num_layers - i).
Proof. intros. unfold at_layer. destruct (Z.ltb_spec i num_layers); simpl; lia. Qed.

Lemma wait_left_nonneg pc data : announced pc data -> 0 <= wait_left pc.
Proof. destruct pc; simpl; lia. Qed.

Lemma sum_left_app l l' :
  foldr Z.add 0 (send_left <$> l ++ l') =
  foldr Z.add 0 (send_left <$> l) + foldr Z.add 0 (send_left <$> l').
Proof. induction l as [|x l IH]; csimpl; [done|]. rewrite IH. lia. Qed.

Lemma sum_left_insert l j sp sp' :
  l !! j = Some sp ->
  foldr Z.add 0 (send_left <$> <[j := sp']> l) =
  foldr Z.add 0 (send_left <$> l) + send_left sp' - send_left sp.
Proof.
  revert j. induction l as [|x l IH]; intros [|j] Hj; csimpl in *; simplify_eq; [lia|].
  rewrite (IH j Hj). lia.
Qed.

Lemma sum_left_nonneg l : Forall sender_ok l -> 0 <= foldr Z.add 0 (send_left <$> l).
Proof. induction 1 as [|[] l]; csimpl in *; lia. Qed.

Lemma work_left_nonneg s : inv s -> 0 <= work_left s.
Proof.
  intros HI. unfold work_left.
  pose proof (wait_left_nonneg _ _ (inv_announced _ HI)).
  pose proof (sum_left_nonneg _ (inv_senders _ HI)). lia.
Qed.

Lemma wait_thread_works s s' :
  inv s -> wait_thread s = Some s' -> work_left s' < work_left s.
Proof.
  intros HI Hw. destruct s as [data rec pc fl at_ q snd lg]. unfold work_left.
  destruct pc as [|i|i|i| | |]; try done.
  - pose proof (inv_announced _ HI) as Ha. simpl in *.
    unfold release_to in Hw. rewrite Ha in Hw. simpl in Hw. unfold after_notify in Hw.
    rewrite Ha in Hw. injection Hw as <-. simpl. case_match; simpl; lia.
  - simpl in Hw. case_match; [|done]. injection Hw as <-. simpl. lia.
  - pose proof (inv_announced _ HI) as Ha. simpl in *.
    case_match; injection Hw as <-; simpl; lia.
  - pose proof (inv_announced _ HI) as Ha. simpl in Ha.
    destruct (inv_notify _ _ _ _ _ _ _ _ HI) as (next & Hw' & ->).
    rewrite Hw' in Hw. injection Hw as <-. simpl. case_match; simpl; lia.
Qed.

(** After the flush every operation of any thread is one of finitely many. *)
Lemma flushed_act_works a s s' :
  inv s -> flushed s = true -> act a s = Some s' ->
  flushed s' = true /\ work_left s' < work_left s.
Proof.
  intros HI Hf Ha. destruct s as [data rec pc fl at_ q snd lg]. simpl in Hf. subst fl.
  destruct a; simpl in Ha; try done.
  - destruct at_; [done|]. injection Ha as <-. unfold work_left; simpl. lia.
  - split; [|by apply wait_thread_works]. clear HI.
    destruct pc; simpl in Ha; repeat case_match; simplify_eq; done.
  - destruct q; [done|]. injection Ha as <-. unfold work_left; simpl.
    rewrite sum_left_app. simpl. pose proof (at_layer_left 0). lia.
  - destruct (sender_at _ _) as [i|] eqn:Hat; [|done]. injection Ha as <-.
    apply sender_at_spec in Hat as [Hj _]. simpl in Hj. unfold work_left; simpl.
    rewrite (sum_left_insert _ _ _ _ Hj). simpl.
    pose proof (Forall_lookup_1 _ _ _ _ (inv_senders _ HI) Hj) as Hok. simpl in Hok.
    rewrite u32_next by lia. pose proof (at_layer_left (i + 1)). lia.
  - destruct (sender_at _ _) as [i|] eqn:Hat; [|done]. injection Ha as <-.
    apply sender_at_spec in Hat as [Hj _]. simpl in Hj. unfold work_left; simpl.
    rewrite (sum_left_insert _ _ _ _ Hj). simpl.
    pose proof (Forall_lookup_1 _ _ _ _ (inv_senders _ HI) Hj) as Hok. simpl in Hok. lia.
Qed.

(** ... and somebody can always move until everybody is through. *)
Lemma wait_thread_moves s :
  inv s -> flushed s = true -> (forall i, 0 <= i < num_layers -> barrier_wait barrier i = true) ->
  wait_pc s = WDone \/ exists s', wait_thread s = Some s'.
Proof.
  intros HI Hf Hb. pose proof (inv_announced _ HI) as Ha. pose proof (inv_flush_ready _ HI Hf).
  destruct s as [data rec pc fl at_ q snd lg]. simpl in *.
  destruct pc; simpl in *; [eauto| | | |by left| |done]; right; eauto.
  - unfold wait_passes. destruct (Z.ltb_spec i (ready_ rec)); [eauto|lia].
  - case_match; eauto.
  - destruct Ha as [Hr Hno]. rewrite Hb in Hno by lia. done.
Qed.

Lemma sender_moves s j i :
  inv s -> wait_pc s = WDone -> senders s !! j = Some (Sending i) -> sender_at s j = Some i.
Proof.
  intros HI Hpc Hj. unfold sender_at, wait_passes. rewrite Hj.
  pose proof (inv_announced _ HI) as Ha. rewrite Hpc in Ha. simpl in Ha. rewrite Ha.
  pose proof (Forall_lookup_1 _ _ _ _ (inv_senders _ HI) Hj) as Hok. simpl in Hok.
  destruct (Z.ltb_spec i num_layers); [done|lia].
Qed.

Lemma flushed_moves s :
  inv s -> log_inv s -> flushed s = true -> (forall i, 0 <= i < num_layers -> barrier_wait barrier i = true) ->
  complete s \/ exists s', steps s s'.
Proof.
  intros HI HL Hf Hb. destruct (wait_thread_moves s HI Hf Hb) as [Hpc|[s' Hs']].
  2: { right. exists s', WaitThread. by destruct s. }
  pose proof (fun j i => sender_moves s j i HI Hpc) as Hsend. pose proof (inv_announced _ HI) as Hann.
  destruct s as [data rec pc fl at_ q snd lg]. simpl in *. subst pc.
  destruct at_ as [|at']; [|right; eexists; by exists Submit].
  destruct q as [|q']; [|right; eexists; by exists Start].
  destruct (forallb finished_sender snd) eqn:Hall.
  { left. destruct HL as [Hw Hs _ Hat]. simpl in *. rewrite Hann in Hw. split; simpl; [done|done|].
    intros j sp Hj. split; [|by apply Hs]. rewrite forallb_forall in Hall. apply Hall, list_elem_of_In.
    by eapply list_elem_of_lookup_2. }
  right.
  apply not_true_iff_false in Hall. rewrite forallb_forall in Hall.
  assert (exists j i, snd !! j = Some (Sending i)) as (j & i & Hj).
  { destruct (decide (Exists (fun sp => finished_sender sp = false) snd)) as [HE|HE].
    - apply Exists_exists in HE as (sp & [j Hj]%list_elem_of_lookup & Hsp).
      destruct sp; [|done..]. eauto.
    - exfalso. apply Hall. intros sp Hin. apply not_false_iff_true. intros Hsp. apply HE.
      apply Exists_exists. exists sp. split; [by apply list_elem_of_In|done]. }
  eexists. exists (SendLayer j). simpl. by rewrite (Hsend j i Hj).
Qed.

Lemma flushed_completes s :
  inv s -> log_inv s -> flushed s = true -> (forall i, 0 <= i < num_layers -> barrier_wait barrier i = true) ->
  always_reaches complete s.
Proof.
  intros HI HL Hf Hb. remember (Z.to_nat (work_left s)) as n eqn:Hn.
  revert s HI HL Hf Hn. induction n as [n IH] using lt_wf_ind. intros s HI HL Hf ->.
  destruct (flushed_moves s HI HL Hf Hb) as [|Hmove]; [by apply reached|].
  apply reach_next; [done|]. intros s' [a Ha].
  destruct (flushed_act_works _ _ _ HI Hf Ha) as [Hf' Hlt].
  pose proof (inv_act _ _ _ HI Ha) as HI'. pose proof (work_left_nonneg _ HI').
  eapply IH; [|exact HI'|by apply (log_inv_act a s)|exact Hf'|reflexivity]. lia.
Qed.

(** ** Theorems *)

(** C24: In every interleaving of the engine's thread, the thread of wait_layers and any
    number of sending threads, a layer is sent only after the record of that layer was
    signalled (one by one or by the flush) and its CUDA event was waited for; the assertion
    of wait_layers on a value that is already higher never fails. *)
Theorem layer_sent_only_after_its_event s :
  reachable s -> ordered (log s) /\ wait_pc s <> WAborted.
Proof.
  intros Hr. pose proof (inv_reachable s Hr) as HI. split; [apply HI|].
  intros Hpc. pose proof (inv_announced _ HI) as Ha. by rewrite Hpc in Ha.
Qed.

(** C25: Once a step has been flushed, and if its barrier's waits return for every layer,
    every schedule of the remaining work ends, without deadlock, in a state where
    wait_layers has waited for the event of every layer in order and announced them all,
    every batch that was attached to the step was picked up by a sending thread, and each of
    these has sent the layers 0, 1, ... to the last, once each and in this order - or, if a
    send threw, exactly the layers before that one. *)
Theorem flushed_step_completes s :
  reachable s -> flushed s = true ->
  (forall i, 0 <= i < num_layers -> barrier_wait barrier i = true) ->
  always_reaches complete s.
Proof. intros Hr. apply flushed_completes; [by apply inv_reachable|by apply log_inv_reachable]. Qed.
End Step.

(** Two layers, two events; the second layer's event is released by the flush. *)
Definition sample_schedule : list action :=
  [WaitThread; Attach; RecordOne; Submit; WaitThread; Start; WaitThread; WaitThread;
   SendLayer 0; Flush; WaitThread].

Definition run (n : Z) (b : ICUDABarrier) (l : list action) (s : StepState) : option StepState :=
  foldl (fun o a => s' ← o; @act debug_env n b a s') (Some s) l.

Lemma run_reachable n b l s s' :
  @reachable debug_env n b s -> run n b l s = Some s' -> @reachable debug_env n b s'.
Proof.
  unfold run. revert s. induction l as [|a l IH]; intros s Hr Hrun; simpl in Hrun;
    [by simplify_eq|].
  destruct (act n b a s) as [s1|] eqn:Ha.
  - apply (IH s1); [|done]. eapply reach_step; [done|]. by exists a.
  - exfalso. clear -Hrun. by induction l.
Qed.

Definition sample_state : StepState :=
  mkStepState (mkSem 1) (mkSem 2) (WBarrier 1) true 0 0 [Sending 1]
    [EAttach; ERecord; EBarrier 0; ESend 0 0; EFlush].

Lemma layer_sent_only_after_its_event_witness :
  ordered (log sample_state) /\ wait_pc sample_state <> WAborted.
Proof.
  apply (@layer_sent_only_after_its_event debug_env 2 (CudaEventBarrier 2)).
  - vm_compute. split; congruence.
  - apply (run_reachable _ _ sample_schedule init_step); [apply reach_init|reflexivity].
Defined.

Lemma flushed_step_completes_witness :
  @always_reaches debug_env 2 (CudaEventBarrier 2) (complete 2) sample_state.
Proof.
  apply (@flushed_step_completes debug_env 2 (CudaEventBarrier 2)).
  - vm_compute. split; congruence.
  - apply (run_reachable _ _ sample_schedule init_step); [apply reach_init|reflexivity].
  - reflexivity.
  - intros i Hi. simpl. lia.
Defined.
