(* ===== verification/Context.v ===== *)
(** What a process knows of its own caches and how it puts them on the network:
    [src/context.cpp] ([Context] and its setters), the constructors of
    [src/barex_protocol.cpp] (network card, memory pool, registered tensors) and
    [gdrcpy_mmap] of [src/gdr.cpp].

    The build is the one with [ENABLE_RDMA].  The transport library, CUDA, the GDRCopy library
    and the host are third-party: their answers are the fields of [Node].  Functions that
    change the context or the pool table run in a monad of state and errors, because an
    exception leaves behind what was changed before it. *)

From Stdlib Require Import Ascii.
From stdpp Require Import gmap pretty.
From S2P Require Import Prelude.
From S2P Require Import StateM.
From S2P Require Import Common.
From S2P Require Import CppString.
From S2P Require Import EnvCfg.
From S2P Require Import Step.
From S2P Require Import Channel.
From S2P Require Import CopyKernel.
From S2P Require Import TcpWire.
From S2P Require Import Rdma.
From S2P Require Import StagedServer.

(** ** The worker record *)

(** [WorkerInfo::WorkerInfo(id, w_id)]. *)
Definition new_WorkerInfo (id : string) (w_id : Z) : WorkerInfo := {|
  inst_id := id; worker_id := w_id; engine_tp_size := 1; worker_tp_rank := 0;
  block_sizes := [16 * 1024]; token_sizes := [1024];
  layer_num_blocks := 1; num_layers := 1; transfer_protocols := 0;
  attn_kernel_blk_ntpb := 0; indexer_blk_ntpb := 0; attn_pack_size := 1;
  addr := ""; num_kv_heads := -1; num_gdn_layers := 3;
  hybrid_indexer_token_size := 0; gdn_conv_elem_size := 1;
  gdn_ssm_elem_size := 1; conv_state_shape := []; ssm_state_shape := [];
  gdn_conv_channel_dims := []; num_ple_layers := 0; ple_block_group := 0;
  ple_conv_elem_size := 1; ple_conv_state_shape := [];
  ple_conv_channel_dims := []; kda_conv_dim_first := false;
  hybrid_attn_token_size := 0; kda_page_stride := 0 |}.

(** The fields that only the sender of a hybrid model reads. *)
Record ModelParams := mkModelParams {
  p_num_kv_heads : Z;
  p_num_gdn_layers : Z;
  p_hybrid_indexer_token_size : Z;
  p_gdn_conv_elem_size : Z;
  p_gdn_ssm_elem_size : Z;
  p_conv_state_shape : list Z;
  p_ssm_state_shape : list Z;
  p_gdn_conv_channel_dims : list Z;
  p_kda_conv_dim_first : bool;
  p_hybrid_attn_token_size : Z;
  p_kda_page_stride : Z;
  p_num_ple_layers : Z;
  p_ple_block_group : Z;
  p_ple_conv_elem_size : Z;
  p_ple_conv_state_shape : list Z;
  p_ple_conv_channel_dims : list Z;
}.

Definition model_params (w : WorkerInfo) : ModelParams :=
  mkModelParams (num_kv_heads w) (num_gdn_layers w) (hybrid_indexer_token_size w)
    (gdn_conv_elem_size w) (gdn_ssm_elem_size w) (conv_state_shape w) (ssm_state_shape w)
    (gdn_conv_channel_dims w) (kda_conv_dim_first w) (hybrid_attn_token_size w)
    (kda_page_stride w) (num_ple_layers w) (ple_block_group w) (ple_conv_elem_size w)
    (ple_conv_state_shape w) (ple_conv_channel_dims w).

(** A worker record with the given serialized part and model parameters. *)
Definition assemble (id : string) (wid tp rank : Z) (bs ts : list Z) (nblocks nlayers protos attn indexer
    pack : Z) (a : string) (p : ModelParams) : WorkerInfo :=
  mkWorkerInfo id wid tp rank bs ts nblocks nlayers protos attn indexer pack a
    (p_num_kv_heads p) (p_num_gdn_layers p) (p_hybrid_indexer_token_size p)
    (p_gdn_conv_elem_size p) (p_gdn_ssm_elem_size p) (p_conv_state_shape p) (p_ssm_state_shape p)
    (p_gdn_conv_channel_dims p) (p_num_ple_layers p) (p_ple_block_group p) (p_ple_conv_elem_size p)
    (p_ple_conv_state_shape p) (p_ple_conv_channel_dims p) (p_kda_conv_dim_first p)
    (p_hybrid_attn_token_size p) (p_kda_page_stride p).

Definition with_tp (tp rank : Z) (w : WorkerInfo) : WorkerInfo :=
  assemble (inst_id w) (worker_id w) tp rank (block_sizes w) (token_sizes w) (layer_num_blocks w)
    (num_layers w) (transfer_protocols w) (attn_kernel_blk_ntpb w) (indexer_blk_ntpb w) (attn_pack_size w)
    (addr w) (model_params w).
Definition with_pack (pack : Z) (w : WorkerInfo) : WorkerInfo :=
  assemble (inst_id w) (worker_id w) (engine_tp_size w) (worker_tp_rank w) (block_sizes w) (token_sizes w)
    (layer_num_blocks w) (num_layers w) (transfer_protocols w) (attn_kernel_blk_ntpb w)
    (indexer_blk_ntpb w) pack (addr w) (model_params w).
Definition with_blocks (bs ts : list Z) (nblocks attn indexer : Z) (w : WorkerInfo) : WorkerInfo :=
  assemble (inst_id w) (worker_id w) (engine_tp_size w) (worker_tp_rank w) bs ts nblocks (num_layers w)
    (transfer_protocols w) attn indexer (attn_pack_size w) (addr w) (model_params w).
Definition with_layers (n : Z) (w : WorkerInfo) : WorkerInfo :=
  assemble (inst_id w) (worker_id w) (engine_tp_size w) (worker_tp_rank w) (block_sizes w) (token_sizes w)
    (layer_num_blocks w) n (transfer_protocols w) (attn_kernel_blk_ntpb w) (indexer_blk_ntpb w)
    (attn_pack_size w) (addr w) (model_params w).
Definition with_model (p : ModelParams) (w : WorkerInfo) : WorkerInfo :=
  assemble (inst_id w) (worker_id w) (engine_tp_size w) (worker_tp_rank w) (block_sizes w) (token_sizes w)
    (layer_num_blocks w) (num_layers w) (transfer_protocols w) (attn_kernel_blk_ntpb w)
    (indexer_blk_ntpb w) (attn_pack_size w) (addr w) p.
Definition with_addr (a : string) (w : WorkerInfo) : WorkerInfo :=
  assemble (inst_id w) (worker_id w) (engine_tp_size w) (worker_tp_rank w) (block_sizes w) (token_sizes w)
    (layer_num_blocks w) (num_layers w) (transfer_protocols w) (attn_kernel_blk_ntpb w)
    (indexer_blk_ntpb w) (attn_pack_size w) a (model_params w).
Definition with_protocols (protos : Z) (w : WorkerInfo) : WorkerInfo :=
  assemble (inst_id w) (worker_id w) (engine_tp_size w) (worker_tp_rank w) (block_sizes w) (token_sizes w)
    (layer_num_blocks w) (num_layers w) protos (attn_kernel_blk_ntpb w) (indexer_blk_ntpb w)
    (attn_pack_size w) (addr w) (model_params w).

(** ** Data *)
Record LayerInfo := mkLayerInfo {
  li_token_size : Z;
  li_block_size : Z;
  layer_addr : Z;
}.

(** A network card, and [memp_t]: a registered region and the keys of its registration. *)
Record XDevice := mkXDevice { x_type : Kind; x_name : string }.
Record memp_t := mkMemp {
  m_buf : Z;
  m_len : Z;
  m_keys : option (Z * Z);   (* mr->lkey, mr->rkey *)
  m_gpu : Z;
}.

(** A GDRCopy mapping: [mapped] device bytes from [mapped_at] are seen from [cpu_base], the
    tensor from [cpu_ptr]. *)
Record GdrMemDesc := mkGdr {
  cpu_ptr : Z;
  cpu_base : Z;
  mapped_at : Z;
  mapped : Z;
}.

Record BarexCtx := mkBarexCtx {
  bx_device : Z;
  bx_is_server : bool;
  bx_nic : XDevice;
  bx_pool : string;
  bx_reserved : gmap Z Z;
  bx_layer_mrs : list (list memp_t);
  bx_layer_gdrcpy_mem : list (list (option GdrMemDesc));
  bx_layer_blk_sizes : list Z;   (* of a [CliBarexCtx] *)
}.

#[export] Instance Kind_countable : Countable Kind.
Proof.
  refine (inj_countable' (fun k => match k with RDMA_DIRECT => true | TCP => false end)
    (fun b : bool => if b then RDMA_DIRECT else TCP) _). by intros [].
Defined.

Record Context := mkContext {
  device_id_ : Z;
  worker_info_ : WorkerInfo;
  transfer_protos_ : Z;
  all_layer_infos_ : list (list LayerInfo);
  layer_data_address_ : list (list Z);
  cuda_barrier_ : ICUDABarrier;   (* of Step: its events are known by their number *)
  protocol_ctxs_ : gmap Kind BarexCtx;
}.

Definition set_worker (w : WorkerInfo) (c : Context) : Context :=
  mkContext (device_id_ c) w (transfer_protos_ c) (all_layer_infos_ c) (layer_data_address_ c)
    (cuda_barrier_ c) (protocol_ctxs_ c).

(** [MpManager::GPUCtx]. *)
Record GPUCtx := mkGPUCtx { lovely_nic : XDevice; mp_name : string }.

(** What a process changes: its context, the table of pools, the number of registrations. *)
Record World := mkWorld {
  the_ctx : Context;
  mp_map : gmap Z GPUCtx;
  mr_count : Z;
}.

(** ** State and errors *)
Abbreviation M := (ST World).
Definition update_ctx (f : Context -> Context) : M unit := fun w =>
  (Ok tt, mkWorld (f (the_ctx w)) (mp_map w) (mr_count w)).

(** An exception that leaves a [noexcept] function ends the process. *)
Definition noexcept {A} (r : res A) : res A :=
  match r with
  | Err e => Err (if is_exception e then AssertFailed else e)
  | Ok a => Ok a
  end.

(** [for (auto x : l) out.push_back(f(x))]. *)
Fixpoint mapR {A B} (f : A -> res B) (l : list A) : res (list B) :=
  match l with
  | [] => Ok []
  | x :: l => let* y := f x in let* ys := mapR f l in Ok (y :: ys)
  end.

(** Asking [XDeviceManager] for the cards of a transport may throw or fail. *)
Inductive Devices := Threw | Failed | Found (all_nic_devs : list XDevice).

(** ** The host and its libraries

    [xdevices]: what [XDeviceManager] says of the cards of a transport.  [affinity_line]: the first line of the affinity file, [None] when it
    cannot be opened.  [reg_user_mr n]: the answer to the [n]-th registration of an address
    range on a GPU.  [gdr_map]: where GDRCopy maps a pinned range, [None] when GDRCopy is
    missing, pinning or mapping fails.  [outward_ip]: the local address of a socket connected
    outward.  Keys are 32-bit numbers. *)
Class Node := {
  getenv : string -> option string;
  affinity_line : option string;
  xdevices : Kind -> Devices;
  new_mempool : string -> XDevice -> bool;
  reg_user_mr : Z -> Z -> Z -> Z -> option memp_t;
  gdr_map : Z -> Z -> option Z;
  new_threadpool : Z -> string -> bool;
  new_xcontext : XDevice -> string -> bool;
  new_connector : Z -> bool;
  new_listener : Z -> Z -> bool;
  listen_ok : Z -> bool;
  outward_ip : option string;
  reg_user_mr_keys n a l gpu out lkey rkey :
    reg_user_mr n a l gpu = Some out -> m_keys out = Some (lkey, rkey) -> in32 rkey;
}.

Section Operations.
Context `{Env} `{Node}.

(** ** Choosing a network card *)

(** The parts of [line] between commas, from [start]; an empty last part is dropped. *)
Fixpoint split_from (fuel : nat) (line : string) (start : nat) : res (list string) :=
  match fuel with
  | O => Err OutOfFuel
  | S fuel =>
      match find ","%char line start with
      | Some stop =>
          let* part := substr line start (stop - start) in
          let* parts := split_from fuel line (S stop) in
          Ok (part :: parts)
      | None =>
          if (start <? String.length line)%nat then
            let* part := substr_from line start in Ok [part]
          else Ok []
      end
  end.
Definition split_commas (line : string) : res (list string) :=
  split_from (S (String.length line)) line 0.

Definition load_nic_affinity : res (list string) :=
  match affinity_line with
  | None => Err RuntimeError
  | Some line => split_commas line
  end.
Definition get_nic_affinity : res (list string) := noexcept load_nic_affinity.

Definition parse_cuda_visible_devs : res (list Z) :=
  match getenv "CUDA_VISIBLE_DEVICES" with
  | None | Some "" => Ok []
  | Some line => let* parts := split_commas line in mapR stoi parts
  end.
Definition get_cuda_visible_devs : res (list Z) := noexcept parse_cuda_visible_devs.

(** [s.find(target) != npos]. *)
Definition contains (target s : string) : bool :=
  match String.index 0 target s with Some _ => true | None => false end.

Definition choose_nic (nic_devs : list XDevice) (gpu_dev : Z) : res XDevice := noexcept (
  assert: (0 <=? gpu_dev);
  assert: (negb (vsize nic_devs =? 0));
  let override :=
    match env_nic_name getenv with
    | Some target => List.find (fun d => contains target (x_name d)) nic_devs
    | None => None
    end in
  match override with
  | Some d => Ok d
  | None =>
      let* cuda_visible_env := get_cuda_visible_devs in
      let* real_gpu_rank :=
        if vsize cuda_visible_env =? 0 then Ok gpu_dev else vec_at cuda_visible_env gpu_dev in
      let* affinity := get_nic_affinity in
      let* lovely_nic := vec_at affinity real_gpu_rank in
      match List.find (fun d => String.eqb (x_name d) lovely_nic) nic_devs with
      | Some d => Ok d
      | None => if vsize nic_devs <=? u32 gpu_dev then vec_idx nic_devs 0 else vec_idx nic_devs gpu_dev
      end
  end).

(** [MpManager::get_gpu_ctx]: the pool of a GPU is made at its first use and kept. *)
Definition get_gpu_ctx (gpu_id : Z) (kind : Kind) : M GPUCtx := fun w =>
  match mp_map w !! gpu_id with
  | Some g => (Ok g, w)
  | None =>
      let made : res GPUCtx :=
        match xdevices kind with
        | Threw => Err RuntimeError
        | Failed => Err AssertFailed
        | Found all_nic_devs =>
            let* _ := rtassert (negb (vsize all_nic_devs =? 0)) in
            let* nic := match kind with
                        | RDMA_DIRECT => choose_nic all_nic_devs gpu_id
                        | TCP => vec_idx all_nic_devs 0
                        end in
            let mpname := "mp-" +:+ pretty gpu_id in
            let* _ := rtassert (new_mempool mpname nic) in
            Ok (mkGPUCtx nic mpname)
        end in
      match made with
      | Ok g => (Ok g, mkWorld (the_ctx w) (<[gpu_id := g]> (mp_map w)) (mr_count w))
      | Err e => (Err e, w)
      end
  end.

(** [mp_reserve]: buffer counts by size; a size named twice keeps its last count. *)
Definition mp_reserve : res (gmap Z Z) :=
  let* reserve_vec := env_reserve getenv in
  Ok (foldl (fun (m : gmap Z Z) e => <[e.1 := e.2]> m) ∅ reserve_vec).

(** ** Registering the tensors *)
Definition GPU_PAGE : Z := 2 ^ 16.

(** [do_mmap]: the pages around the tensor are pinned and mapped. *)
Definition do_mmap (raw_ptr size : Z) : option GdrMemDesc :=
  let aligned_gpu_ptr := raw_ptr - raw_ptr mod GPU_PAGE in
  let end_ := u64 (raw_ptr + size + (GPU_PAGE - 1)) in
  let aligned_gpu_end := end_ - end_ mod GPU_PAGE in
  let aligned_size := u64 (aligned_gpu_end - aligned_gpu_ptr) in
  match gdr_map aligned_gpu_ptr aligned_size with
  | None => None
  | Some base => Some (mkGdr (base + (raw_ptr - aligned_gpu_ptr)) base aligned_gpu_ptr aligned_size)
  end.

(** One tensor of [BarexCtx::BarexCtx]: the region, and the mapping slot that RDMA adds. *)
Definition register_mr (kind : Kind) (gpu nblocks : Z) (info : LayerInfo)
    : M (memp_t * option (option GdrMemDesc)) := fun w =>
  let layer_blk_p := layer_addr info in
  let layer_blk_size := u64 (li_block_size info * nblocks) in
  match kind with
  | RDMA_DIRECT =>
      let w' := mkWorld (the_ctx w) (mp_map w) (mr_count w + 1) in
      let r :=
        match reg_user_mr (mr_count w) layer_blk_p layer_blk_size gpu with
        | None => Err AssertFailed
        | Some out =>
            let* _ := rtassert (m_gpu out =? gpu) in
            let* _ := rtassert (m_buf out =? layer_blk_p) in
            let* _ := rtassert (m_len out =? layer_blk_size) in
            let* crc := env_crc getenv in
            Ok (out, Some (if crc =? 0 then None else do_mmap layer_blk_p layer_blk_size))
        end in
      (r, w')
  | TCP => (Ok (mkMemp layer_blk_p layer_blk_size None gpu, None), w)
  end.

Definition LAYER_NUM_MAX : Z := 65536.

(** The size limit of a registered region. *)
Definition max_mr_size : res Z :=
  let dflt := 1024 * 1024 * 1024 in
  match getenv "ACCL_MAX_USER_MR_GB" with
  | None => Ok dflt
  | Some max_mr_gb_str =>
      let* n := atoi max_mr_gb_str in
      Ok (if 0 <? n then u64 (dflt * n) else dflt)
  end.

Definition make_BarexCtx (tp_name : string) (tpcnt : Z) (kind : Kind) (is_server : bool) : M BarexCtx :=
  let! ctx := gets the_ctx in
  let! g := get_gpu_ctx (device_id_ ctx) kind in
  let! reserved := lift mp_reserve in
  let layer_infos := all_layer_infos_ ctx in
  let! first := lift (vec_idx layer_infos 0) in
  let! _ := lift (rtassert (u64 (vsize layer_infos * vsize first) <=? LAYER_NUM_MAX)) in
  let! max_size := lift max_mr_size in
  let nblocks := layer_num_blocks (worker_info_ ctx) in
  let! _ := lift (forM (block_sizes (worker_info_ ctx)) (fun block_size _ =>
    rtassert (u64 (block_size * nblocks) <=? max_size)) tt) in
  let! layers := smap (smap (register_mr kind (device_id_ ctx) nblocks)) layer_infos in
  let! _ := lift (rtassert (new_threadpool tpcnt tp_name)) in
  let! _ := lift (rtassert (new_xcontext (lovely_nic g) (mp_name g))) in
  sret (mkBarexCtx (device_id_ ctx) is_server (lovely_nic g) (mp_name g) reserved
    ((fun l : list (memp_t * option (option GdrMemDesc)) => l.*1) <$> layers)
    ((fun l : list (memp_t * option (option GdrMemDesc)) => omap snd l) <$> layers) []).

Definition make_CliBarexCtx (tp_name : string) (tpcnt : Z) (kind : Kind) : M BarexCtx :=
  let! b := make_BarexCtx tp_name tpcnt kind false in
  let! ctx := gets the_ctx in
  let layer_blocks := layer_num_blocks (worker_info_ ctx) in
  let sizes := (fun block_size => u64 (layer_blocks * block_size)) <$> block_sizes (worker_info_ ctx) in
  let! n := lift (env_conn_tpsize getenv) in
  let! _ := lift (rtassert (new_connector n)) in
  sret (mkBarexCtx (bx_device b) (bx_is_server b) (bx_nic b) (bx_pool b) (bx_reserved b)
    (bx_layer_mrs b) (bx_layer_gdrcpy_mem b) sizes).

(** ** Protocol contexts *)
Definition check_support (kind : Kind) : bool :=
  match xdevices kind with
  | Found all_nic_devs => negb (vsize all_nic_devs =? 0)
  | Threw | Failed => false
  end.

(** [BarexProtoContext::init]. *)
Definition proto_init (name_prefix : string) (is_server : bool) (kind : Kind) : M BarexCtx :=
  let! tpcnt := lift (env_ctx_tpsize getenv) in
  if is_server then make_BarexCtx (name_prefix +:+ "tp") tpcnt kind true
  else make_CliBarexCtx (name_prefix +:+ "tp") tpcnt kind.

Definition add_protocol (kind : Kind) (b : BarexCtx) (c : Context) : Context :=
  mkContext (device_id_ c) (worker_info_ c) (set_support (transfer_protos_ c) kind)
    (all_layer_infos_ c) (layer_data_address_ c) (cuda_barrier_ c)
    (match protocol_ctxs_ c !! kind with Some _ => protocol_ctxs_ c | None => <[kind := b]> (protocol_ctxs_ c) end).

(** [register_protocol] of a fresh [BarexProtoContext], which is never initialized before. *)
Definition register_protocol (name_prefix : string) (is_server : bool) (kind : Kind) : M unit :=
  if negb (check_support kind) then lift (Err RuntimeError) else
  let! b := rethrow (proto_init name_prefix is_server kind) in
  let! ctx := gets the_ctx in
  let! _ := lift (cassert (bool_decide (protocol_ctxs_ ctx !! kind = None))) in
  update_ctx (add_protocol kind b).

(** ** Setters *)
Definition new_Context (inst : string) (worker : Z) : Context :=
  mkContext (-1) (new_WorkerInfo inst worker) 0 [] [] NoCudaBarrier ∅.

Definition set_tp (tp_size worker_tp_rank : Z) (c : Context) : Context :=
  set_worker (with_tp tp_size worker_tp_rank (worker_info_ c)) c.

Definition set_block_params (bsizes tsizes : list Z) (nblocks indexer : Z) (c : Context) : res Context :=
  let* _ := rtassert (vsize bsizes =? vsize tsizes) in
  let* _ := forM (zip bsizes tsizes) (fun bt _ =>
    let* r := umod bt.1 bt.2 in rtassert (r =? 0)) tt in
  let w := worker_info_ c in
  let* attn := env_attn_kernel_blk_size getenv in
  let* attn :=
    if attn =? -1 then
      let pack := if attn_pack_size w =? 0 then 1 else attn_pack_size w in
      let* b := vec_idx bsizes 0 in
      let* t := vec_idx tsizes 0 in
      let* q := udiv b t in
      let* r := umod q pack in
      let* _ := rtassert (r =? 0) in
      Ok (u32 (q / pack))
    else Ok attn in
  Ok (set_worker (with_blocks bsizes tsizes nblocks attn indexer w) c).

Definition set_layer_info (device_id : Z) (infos : list (list LayerInfo)) (c : Context) : Context :=
  mkContext (device_id mod 256) (with_layers (u32 (vsize infos)) (worker_info_ c)) (transfer_protos_ c)
    infos ((fun l : list LayerInfo => layer_addr <$> l) <$> infos) (cuda_barrier_ c) (protocol_ctxs_ c).

(** [None] is a null pointer. *)
Definition set_cuda_barrier (barrier : option ICUDABarrier) (c : Context) : res Context :=
  match barrier with
  | None => Err RuntimeError
  | Some b => Ok (mkContext (device_id_ c) (worker_info_ c) (transfer_protos_ c) (all_layer_infos_ c)
                    (layer_data_address_ c) b (protocol_ctxs_ c))
  end.

(** The parameters of [create_context]. *)
Record CreateArgs := mkCreateArgs {
  a_inst_name : string;
  a_tp_size : Z;
  a_worker_id : Z;
  a_worker_tp_rank : Z;
  a_device_id : Z;
  a_block_sizes : list Z;
  a_token_sizes : list Z;
  a_layer_num_blocks : Z;
  a_indexer_blk_ntpb : Z;
  a_layers : list (list Z);
  a_attn_pack_size : Z;
  a_model : ModelParams;
}.

(** The tensors of one layer: the [i]-th address gets the [i]-th sizes. *)
Definition layer_infos_of (bsizes tsizes : list Z) (layer : list Z) : res (list LayerInfo) :=
  forM layer (fun tensor_addr infos =>
    let* t := vec_idx tsizes (vsize infos) in
    let* b := vec_idx bsizes (vsize infos) in
    Ok (infos ++ [mkLayerInfo t b tensor_addr])) [].

Definition create_context (a : CreateArgs) : res Context :=
  assert: (vsize (a_block_sizes a) =? vsize (a_token_sizes a));
  let* _ := forM (zip (a_block_sizes a) (a_token_sizes a)) (fun bt _ => cassertM (divides_b bt.2 bt.1)) tt in
  let context := set_tp (a_tp_size a) (a_worker_tp_rank a) (new_Context (a_inst_name a) (a_worker_id a)) in
  let pack := if a_attn_pack_size a =? 0 then 1 else a_attn_pack_size a in
  let context := set_worker (with_pack pack (worker_info_ context)) context in
  let* infos := mapR (layer_infos_of (a_block_sizes a) (a_token_sizes a)) (a_layers a) in
  let* context := set_block_params (a_block_sizes a) (a_token_sizes a) (a_layer_num_blocks a)
                    (a_indexer_blk_ntpb a) context in
  let context := set_layer_info (a_device_id a) infos context in
  Ok (set_worker (with_model (a_model a) (worker_info_ context)) context).

End Operations.

(** ** Lemmas on the monad *)
Lemma rbind_inv {A B} (m : res A) (f : A -> res B) b :
  rbind m f = Ok b -> exists a, m = Ok a /\ f a = Ok b.
Proof. destruct m; [eauto|done]. Qed.

Lemma rtassert_inv b u : rtassert b = Ok u -> b = true.
Proof. by destruct b. Qed.

(** Computations that leave the context alone, whatever their outcome. *)
Definition quiet {A} (m : M A) : Prop := forall w, the_ctx (m w).2 = the_ctx w.

Lemma quiet_bind {A B} (m : M A) (f : A -> M B) : quiet m -> (forall a, quiet (f a)) -> quiet (sbind m f).
Proof.
  intros Hm Hf w. unfold sbind. specialize (Hm w). destruct (m w) as [[a|e] w1]; simpl in *; [|done].
  by rewrite Hf.
Qed.
Lemma quiet_lift {A} (r : res A) : quiet (lift r).
Proof. done. Qed.
Lemma quiet_gets {A} (f : World -> A) : quiet (gets f).
Proof. done. Qed.
Lemma quiet_ret {A} (a : A) : quiet (sret a).
Proof. done. Qed.
Lemma quiet_map {A B} (f : A -> M B) l : (forall a, quiet (f a)) -> quiet (smap f l).
Proof.
  intros Hf. induction l as [|x l IH]; [done|]. simpl. apply quiet_bind; [done|]. intros y.
  apply quiet_bind; [done|]. intros ys. apply quiet_ret.
Qed.
Lemma quiet_rethrow {A} (m : M A) : quiet m -> quiet (rethrow m).
Proof. intros Hm w. unfold rethrow. specialize (Hm w). by destruct (m w) as [[a|e] w1]. Qed.

Create HintDb quiet_db.
#[export] Hint Resolve quiet_bind quiet_lift quiet_gets quiet_ret quiet_map quiet_rethrow : quiet_db.

(** Take a successful run apart, one statement at a time. *)
Ltac run_inv H :=
  match type of H with
  | sbind _ _ _ = (Ok _, _) =>
      let a := fresh "a" in let w1 := fresh "w" in let H1 := fresh H in
      apply sbind_inv in H as (a & w1 & H1 & H); try (cbn [lift gets sret] in H1; simplify_eq)
  end.

Section ContextLemmas.
Context `{Env} `{Node}.

Lemma quiet_get_gpu_ctx gpu kind : quiet (get_gpu_ctx gpu kind).
Proof.
  intros w. unfold get_gpu_ctx. destruct (mp_map w !! gpu); [done|]. cbv zeta.
  by match goal with |- context [match ?made with Ok _ => _ | Err _ => _ end] => destruct made end.
Qed.

Lemma quiet_register_mr kind gpu n info : quiet (register_mr kind gpu n info).
Proof. by intros w; destruct kind. Qed.

Hint Resolve quiet_get_gpu_ctx quiet_register_mr : quiet_db.

Lemma quiet_make_BarexCtx name n kind srv : quiet (make_BarexCtx name n kind srv).
Proof. unfold make_BarexCtx. repeat (apply quiet_bind; [auto with quiet_db|intros ?]). auto with quiet_db. Qed.

Lemma quiet_proto_init name srv kind : quiet (proto_init name srv kind).
Proof.
  unfold proto_init. apply quiet_bind; [auto with quiet_db|intros ?]. destruct srv; [apply quiet_make_BarexCtx|].
  unfold make_CliBarexCtx. apply quiet_bind; [apply quiet_make_BarexCtx|intros ?].
  repeat (apply quiet_bind; [auto with quiet_db|intros ?]). auto with quiet_db.
Qed.

(** ** The invariant of a context *)

(** A block holds whole tokens. *)
Definition whole_tokens (b t : Z) : Prop := 0 < t /\ b mod t = 0.

Record wf_context (c : Context) : Prop := {
  wc_worker : wf_worker (worker_info_ c);
  wc_worker_id : in32 (worker_id (worker_info_ c));
  wc_published : 0 <= transfer_protocols (worker_info_ c) < 256;
  wc_sizes : Forall2 whole_tokens (block_sizes (worker_info_ c)) (token_sizes (worker_info_ c));
  wc_pack : 0 < attn_pack_size (worker_info_ c);
  wc_device : -1 <= device_id_ c < 256;
  wc_layers : 0 <= device_id_ c -> num_layers (worker_info_ c) = u32 (vsize (all_layer_infos_ c));
  wc_addresses : layer_data_address_ c = (fun l : list LayerInfo => layer_addr <$> l) <$> all_layer_infos_ c;
  wc_protos : 0 <= transfer_protos_ c < 256;
  wc_supported k : is_support (transfer_protos_ c) k = true <-> is_Some (protocol_ctxs_ c !! k);
}.

Record typed_model (p : ModelParams) : Prop := {
  tm_u32 : Forall in32 [p_num_gdn_layers p; p_hybrid_indexer_token_size p; p_gdn_conv_elem_size p;
    p_gdn_ssm_elem_size p; p_hybrid_attn_token_size p; p_num_ple_layers p; p_ple_block_group p;
    p_ple_conv_elem_size p];
  tm_u64 : Forall (Forall in64) [p_conv_state_shape p; p_ssm_state_shape p; p_gdn_conv_channel_dims p;
    p_ple_conv_state_shape p; p_ple_conv_channel_dims p; [p_kda_page_stride p]];
  tm_int : - 2 ^ 31 <= p_num_kv_heads p < 2 ^ 31;
}.

(** Decided on all the bytes. *)
Lemma is_support_set p k k' :
  0 <= p < 256 -> is_support (set_support p k) k' = true <-> is_support p k' = true \/ k' = k.
Proof.
  intros Hp.
  assert (Hall : forallb (fun p => eqb (is_support (set_support p k) k') (is_support p k' || bool_decide (k' = k)))
    (seqZ 0 256) = true) by (destruct k, k'; vm_compute; reflexivity).
  rewrite forallb_forall in Hall. specialize (Hall p). rewrite <- list_elem_of_In, elem_of_seqZ in Hall.
  apply eqb_prop in Hall as ->; [|lia]. rewrite orb_true_iff, bool_decide_eq_true. done.
Qed.

Lemma set_support_byte p k : 0 <= set_support p k < 256.
Proof. unfold set_support. apply Z.mod_pos_bound. lia. Qed.

Lemma wf_new_Context inst worker : in32 worker -> wf_context (new_Context inst worker).
Proof.
  intros Hw. constructor; try done; try lia; [| |].
  - constructor; cbn; rewrite ?Forall_cons, ?Forall_nil; unfold in32, in64, W32, W64; lia.
  - by repeat constructor.
  - intros k. cbn. rewrite lookup_empty, is_Some_alt. by destruct k.
Qed.

(** Updating the worker record only matters where its fields are read. *)
Lemma wf_set_worker w c :
  wf_context c -> wf_worker w -> in32 (worker_id w) -> 0 <= transfer_protocols w < 256 ->
  Forall2 whole_tokens (block_sizes w) (token_sizes w) -> 0 < attn_pack_size w ->
  num_layers w = num_layers (worker_info_ c) -> wf_context (set_worker w c).
Proof. intros [] H1 H2 H3 H4 H5 Hn. constructor; cbn; try done. by rewrite Hn. Qed.

Lemma wf_set_tp tp rank c : in32 tp -> in32 rank -> wf_context c -> wf_context (set_tp tp rank c).
Proof.
  intros ?? Hc. pose proof Hc as []. destruct wc_worker0. by apply wf_set_worker.
Qed.

Lemma wf_set_pack pack c :
  in32 pack -> 0 < pack -> wf_context c -> wf_context (set_worker (with_pack pack (worker_info_ c)) c).
Proof. intros ?? Hc. pose proof Hc as []. destruct wc_worker0. by apply wf_set_worker. Qed.

Lemma wf_set_address a c : wf_context c -> wf_context (set_worker (with_addr a (worker_info_ c)) c).
Proof. intros Hc. pose proof Hc as []. destruct wc_worker0. by apply wf_set_worker. Qed.

Lemma wf_publish c :
  wf_context c -> wf_context (set_worker (with_protocols (transfer_protos_ c) (worker_info_ c)) c).
Proof. intros Hc. pose proof Hc as []. destruct wc_worker0. by apply wf_set_worker. Qed.

Lemma wf_set_model p c :
  typed_model p -> wf_context c -> wf_context (set_worker (with_model p (worker_info_ c)) c).
Proof.
  intros [H32 H64 Hi] Hc. pose proof Hc as []. destruct wc_worker0.
  rewrite !Forall_cons in H32. rewrite !Forall_cons in H64. apply wf_set_worker; try done.
  destruct H32 as (? & ? & ? & ? & ? & ? & ? & ? & _), H64 as (? & ? & ? & ? & ? & [? _] & _).
  by constructor.
Qed.

Lemma wf_set_layer_info dev infos c : wf_context c -> wf_context (set_layer_info dev infos c).
Proof.
  intros []. pose proof (Z.mod_pos_bound dev 256). destruct wc_worker0.
  constructor; cbn; try done; [|lia].
  constructor; cbn; try done. apply Z.mod_pos_bound. by unfold W32.
Qed.

Lemma wf_set_cuda_barrier b c c' : set_cuda_barrier b c = Ok c' -> wf_context c -> wf_context c'.
Proof. destruct b as [b|]; [|done]. intros [= <-] []. by constructor. Qed.

Lemma wf_add_protocol k b c : wf_context c -> wf_context (add_protocol k b c).
Proof.
  intros []. constructor; cbn; try done; [apply set_support_byte|]. intros k'.
  rewrite is_support_set, wc_supported0 by done. destruct (protocol_ctxs_ c !! k) eqn:E.
  - split; [|by left]. intros [Hk| ->]; [done|]. by rewrite E.
  - destruct (decide (k' = k)) as [->|]; [rewrite lookup_insert_eq; split; [intros _; eexists; reflexivity|by right]|].
    rewrite lookup_insert_ne by done. naive_solver.
Qed.

Lemma wf_register_protocol name srv k w :
  wf_context (the_ctx w) -> wf_context (the_ctx (register_protocol name srv k w).2).
Proof.
  intros Hc. unfold register_protocol. destruct (negb _); [done|]. unfold sbind at 1.
  pose proof (quiet_rethrow _ (quiet_proto_init name srv k) w) as Hq.
  destruct (rethrow _ w) as [[b|e] w1]; cbn [snd] in Hq; [|by rewrite <- Hq in Hc].
  unfold sbind, gets, lift, update_ctx. destruct (cassert _) as [[]|e]; cbn; rewrite Hq; [by apply wf_add_protocol|done].
Qed.

Lemma forM_zip_inv {A} (f : A -> res unit) l :
  forM l (fun x _ => f x) tt = Ok tt -> Forall (fun x => f x = Ok tt) l.
Proof.
  induction l as [|x l IH]; [constructor|]. cbn [forM]. intros ([] & Hx & Hl)%rbind_inv. constructor; auto.
Qed.

Lemma wf_set_block_params bs ts n ix c c' :
  Forall in64 bs -> Forall in64 ts -> in32 n -> in32 ix ->
  set_block_params bs ts n ix c = Ok c' -> wf_context c -> wf_context c'.
Proof.
  intros Hbs Hts Hn Hix Hr Hc. unfold set_block_params in Hr.
  apply rbind_inv in Hr as ([] & Hlen%rtassert_inv & Hr). apply rbind_inv in Hr as ([] & Hz & Hr).
  apply rbind_inv in Hr as (attn & Ha & Hr). apply rbind_inv in Hr as (attn' & Hattn & [= <-]).
  pose proof Hc as []. destruct wc_worker0. apply wf_set_worker; try done; cbn.
  - constructor; cbn; try done. destruct (Z.eqb_spec attn (-1)).
    + repeat apply rbind_inv in Hattn as (? & _ & Hattn). injection Hattn as <-.
      apply Z.mod_pos_bound. by unfold W32.
    + injection Hattn as <-. apply env_posint_range in Ha. unfold in32, W32. lia.
  - apply Z.eqb_eq in Hlen. unfold vsize in Hlen. apply forM_zip_inv in Hz. clear - Hts Hz Hlen.
    revert ts Hlen Hts Hz. induction bs as [|b bs IH]; intros [|t ts] Hlen Hts Hz; try (cbn in Hlen; lia); [constructor|].
    cbn [zip_with zip] in Hz. apply Forall_cons in Hz as [Hbt Hz], Hts as [Ht Hts].
    constructor; [|apply IH; [cbn in Hlen; lia|done|done]]. apply rbind_inv in Hbt as (r & Hr & Hr0%rtassert_inv).
    unfold umod in Hr. cbn [fst snd] in Hr. destruct (Z.eqb_spec t 0); [done|]. injection Hr as <-. apply Z.eqb_eq in Hr0.
    unfold in64 in Ht. split; lia.
Qed.

(** ** Creating a context *)

(** Arguments of their C++ types. *)
Record typed_args (a : CreateArgs) : Prop := {
  ta_u32 : Forall in32 [a_tp_size a; a_worker_id a; a_worker_tp_rank a; a_layer_num_blocks a;
    a_indexer_blk_ntpb a; a_attn_pack_size a];
  ta_block_sizes : Forall in64 (a_block_sizes a);
  ta_token_sizes : Forall in64 (a_token_sizes a);
  ta_layers : Forall (Forall in64) (a_layers a);
  ta_model : typed_model (a_model a);
}.

(** The [j]-th tensor of a layer has the [j]-th block size. *)
Definition layer_fits (bs : list Z) (layer : list LayerInfo) : Prop :=
  forall j info, layer !! j = Some info -> bs !! j = Some (li_block_size info).

Lemma vec_idx_inv {A} (v : list A) n x : vec_idx v (Z.of_nat n) = Ok x -> v !! n = Some x.
Proof.
  unfold vec_idx. destruct (Z.ltb_spec (Z.of_nat n) 0); [done|]. rewrite Nat2Z.id.
  destruct (v !! n); [by intros [= ->]|done].
Qed.

Lemma layer_infos_of_spec bs ts layer infos :
  layer_infos_of bs ts layer = Ok infos -> layer_fits bs infos /\ layer_addr <$> infos = layer.
Proof.
  unfold layer_infos_of.
  assert (Hgen : forall acc, layer_fits bs acc -> forM layer (fun tensor_addr infos =>
    let* t := vec_idx ts (vsize infos) in let* b := vec_idx bs (vsize infos) in
    Ok (infos ++ [mkLayerInfo t b tensor_addr])) acc = Ok infos ->
    layer_fits bs infos /\ layer_addr <$> infos = (layer_addr <$> acc) ++ layer).
  { induction layer as [|a layer IH]; intros acc Hacc; cbn [forM].
    - intros [= <-]. by rewrite app_nil_r.
    - intros (acc' & (t & _ & (b & Hb & [= <-])%rbind_inv)%rbind_inv & Hr)%rbind_inv.
      apply IH in Hr as [Hf ->].
      + split; [done|]. by rewrite fmap_app, <- app_assoc.
      + apply vec_idx_inv in Hb. intros j info [Hj|[Hlen Hj]]%lookup_app_Some; [by apply Hacc|].
        apply list_lookup_singleton_Some in Hj as [Hj <-]. cbn. by replace j with (length acc) by lia. }
  intros Hr. by apply (Hgen []) in Hr.
Qed.

Lemma mapR_inv {A B} (f : A -> res B) l ys : mapR f l = Ok ys -> Forall2 (fun x y => f x = Ok y) l ys.
Proof.
  revert ys. induction l as [|x l IH]; intros ys; cbn [mapR]; [by intros [= <-]|].
  intros (y & Hy & (ys' & Hys & [= <-])%rbind_inv)%rbind_inv. constructor; auto.
Qed.

(** What [create_context] establishes. *)
Record created (a : CreateArgs) (c : Context) : Prop := {
  cr_wf : wf_context c;
  cr_inst : inst_id (worker_info_ c) = a_inst_name a;
  cr_worker_id : worker_id (worker_info_ c) = a_worker_id a;
  cr_block_sizes : block_sizes (worker_info_ c) = a_block_sizes a;
  cr_blocks : layer_num_blocks (worker_info_ c) = a_layer_num_blocks a;
  cr_device : device_id_ c = a_device_id a mod 256;
  cr_addresses : layer_data_address_ c = a_layers a;
  cr_fits : Forall (layer_fits (a_block_sizes a)) (all_layer_infos_ c);
  cr_protocols : protocol_ctxs_ c = ∅;
}.

Lemma create_context_created a c : typed_args a -> create_context a = Ok c -> created a c.
Proof.
  intros [H32 Hbs Hts Hly Hm] Hr. rewrite !Forall_cons in H32. destruct H32 as (? & ? & ? & ? & ? & ? & _).
  unfold create_context in Hr. apply rbind_inv in Hr as ([] & _ & Hr). apply rbind_inv in Hr as ([] & _ & Hr).
  cbv zeta in Hr. apply rbind_inv in Hr as (infos & Hinfos & Hr). apply rbind_inv in Hr as (c1 & Hc1 & [= <-]).
  assert (Hwf : wf_context c1).
  { eapply wf_set_block_params; [..|exact Hc1|]; try done. apply wf_set_pack; [| |by apply wf_set_tp, wf_new_Context].
    all: destruct (Z.eqb_spec (a_attn_pack_size a) 0); unfold in32, W32 in *; lia. }
  apply mapR_inv in Hinfos.
  unfold set_block_params in Hc1. repeat apply rbind_inv in Hc1 as (? & _ & Hc1). injection Hc1 as <-.
  constructor; try done.
  - by apply wf_set_model, wf_set_layer_info.
  - cbn. clear - Hinfos. induction Hinfos as [|l infos ls infoss Hl _ IH]; [done|]. cbn. rewrite IH. f_equal.
    by apply layer_infos_of_spec in Hl as [_ <-].
  - cbn. clear - Hinfos. induction Hinfos as [|l infos ls infoss Hl _ IH]; constructor; [|done].
    by apply layer_infos_of_spec in Hl as [? _].
Qed.

(** ** The registered tensors *)

(** A region registered for a tensor of [nblocks] blocks; over RDMA, what the network card
    answered to the registration of the tensor on the GPU [gpu]. *)
Definition covers (kind : Kind) (gpu nblocks : Z) (info : LayerInfo) (mr : memp_t) : Prop :=
  m_buf mr = layer_addr info /\ m_len mr = u64 (li_block_size info * nblocks) /\
  (forall lkey rkey, m_keys mr = Some (lkey, rkey) -> in32 rkey) /\
  (kind = RDMA_DIRECT ->
   exists n, reg_user_mr n (layer_addr info) (u64 (li_block_size info * nblocks)) gpu = Some mr).

Lemma register_mr_covers kind gpu n info w r w' :
  register_mr kind gpu n info w = (Ok r, w') -> covers kind gpu n info r.1.
Proof.
  unfold register_mr. destruct kind; [|by intros [= <- _]].
  destruct (reg_user_mr _ _ _ _) as [out|] eqn:Hreg; [|done]. intros [Hr _]%pair_equal_spec.
  apply rbind_inv in Hr as (? & _ & Hr). apply rbind_inv in Hr as (? & Hb%rtassert_inv%Z.eqb_eq & Hr).
  apply rbind_inv in Hr as (? & Hl%rtassert_inv%Z.eqb_eq & Hr). apply rbind_inv in Hr as (? & _ & [= <-]).
  split_and!; [done|done|intros lkey rkey; by eapply reg_user_mr_keys|]. intros _. by exists (mr_count w).
Qed.

Lemma make_BarexCtx_mrs name tpcnt kind srv w b w' :
  make_BarexCtx name tpcnt kind srv w = (Ok b, w') ->
  bx_is_server b = srv /\ bx_device b = device_id_ (the_ctx w) /\
  Forall2 (Forall2 (covers kind (device_id_ (the_ctx w)) (layer_num_blocks (worker_info_ (the_ctx w)))))
    (all_layer_infos_ (the_ctx w)) (bx_layer_mrs b).
Proof.
  unfold make_BarexCtx. intros Hr.
  apply sbind_inv in Hr as (ctx & w0 & [= <- <-] & Hr). apply sbind_inv in Hr as (g & w1 & _ & Hr).
  do 5 (apply sbind_inv in Hr as (? & ? & _ & Hr)). apply sbind_inv in Hr as (layers & w2 & Hl & Hr).
  do 2 (apply sbind_inv in Hr as (? & ? & _ & Hr)). injection Hr as <- _. cbn. split_and!; [done|done|].
  apply Forall2_fmap_r. eapply smap_inv; [|exact Hl]. intros layer wl rs wl' Hrs.
  apply Forall2_fmap_r. eapply smap_inv; [|exact Hrs]. intros info ? r ? Hr. by eapply register_mr_covers.
Qed.

(** The device bytes of the caches of a context. *)
Definition cache_region (c : Context) (a : Z) : Prop :=
  exists i layer j info, all_layer_infos_ c !! i = Some layer /\ layer !! j = Some info /\
    layer_addr info <= a < layer_addr info + u64 (li_block_size info * layer_num_blocks (worker_info_ c)).

(** A successful registration: the context of the protocol is there, and nothing but the
    protocols of the context changed. *)
Lemma register_protocol_inv name srv k w w' :
  register_protocol name srv k w = (Ok tt, w') -> protocol_ctxs_ (the_ctx w) !! k = None ->
  exists b w1, proto_init name srv k w = (Ok b, w1) /\ the_ctx w' = add_protocol k b (the_ctx w) /\
    protocol_ctxs_ (the_ctx w') !! k = Some b.
Proof.
  unfold register_protocol. destruct (negb _); [done|]. intros Hr Hk.
  apply sbind_inv in Hr as (b & w1 & Hi & Hr). apply sbind_inv in Hr as (ctx & w2 & [= <- <-] & Hr).
  apply sbind_inv in Hr as (? & w3 & [= _ <-] & [= <-]).
  pose proof (quiet_rethrow _ (quiet_proto_init name srv k) w) as Hq. rewrite Hi in Hq. cbn [snd] in Hq.
  exists b, w1. unfold rethrow in Hi. destruct (proto_init name srv k w) as [[b'|e] w'']; [|by destruct (is_exception e)].
  injection Hi as -> ->. split_and!; [done|cbn; by rewrite Hq|].
  cbn. rewrite Hq, Hk. apply lookup_insert_eq.
Qed.

(** ** GDRCopy, cards and pools *)

(** The mapped pages hold the whole tensor, and its first byte is seen at [cpu_ptr]. *)
Lemma do_mmap_covers raw size d :
  0 <= raw -> 0 <= size -> raw + size + GPU_PAGE < W64 -> do_mmap raw size = Some d ->
  mapped_at d <= raw /\ raw + size <= mapped_at d + mapped d /\ cpu_ptr d - cpu_base d = raw - mapped_at d.
Proof.
  unfold do_mmap, GPU_PAGE, W64. intros ???. rewrite (u64_small (raw + size + _)) by (unfold W64; lia).
  pose proof (Z.mod_pos_bound raw (2 ^ 16)). pose proof (Z.mod_pos_bound (raw + size + (2 ^ 16 - 1)) (2 ^ 16)).
  rewrite u64_small.
  2: { pose proof (Z.div_mod raw (2 ^ 16)). pose proof (Z.div_mod (raw + size + (2 ^ 16 - 1)) (2 ^ 16)).
       unfold W64. lia. }
  destruct (gdr_map _ _); [|done]. intros [= <-]. cbn. lia.
Qed.

(** The pool of a GPU is looked up by GPU alone: a second transport on the same GPU is given
    the card of the first. *)
Lemma second_transport_shares_card w gpu g w1 kind :
  get_gpu_ctx gpu RDMA_DIRECT w = (Ok g, w1) -> get_gpu_ctx gpu kind w1 = (Ok g, w1).
Proof.
  unfold get_gpu_ctx at 1. destruct (mp_map w !! gpu) as [g'|] eqn:E.
  - intros [= -> <-]. unfold get_gpu_ctx. by rewrite E.
  - cbv zeta. match goal with |- context [match ?made with Ok _ => _ | Err _ => _ end] => destruct made end; [|done].
    intros [= -> <-]. unfold get_gpu_ctx. cbn. by rewrite lookup_insert_eq.
Qed.

(** Without the affinity file no card is chosen: the failure leaves a [noexcept] function,
    and the fallback to the card of the same index is never reached. *)
Lemma missing_affinity_file_ends_process devs gpu :
  affinity_line = None -> env_nic_name getenv = None -> getenv "CUDA_VISIBLE_DEVICES" = None ->
  0 <= gpu -> devs <> [] -> choose_nic devs gpu = Err AssertFailed.
Proof.
  intros Ha Hn Hv Hg Hd. unfold choose_nic, get_cuda_visible_devs, get_nic_affinity, parse_cuda_visible_devs, load_nic_affinity.
  rewrite Hn, Hv, Ha, !cassert_true; [done| |by apply Z.leb_le]. by destruct devs.
Qed.

End ContextLemmas.
