(* ===== verification/Gdr.v ===== *)
(** GDRCopy mappings of device memory: [src/gdr.cpp] and [include/utils/gdr.h].

    The library is loaded at run time and is third-party: its answers are the fields of
    [GdrLib], each a function of the calls made so far.  The objects that own a pinned range or a
    mapping give it back in their destructors, which also run while an exception passes; the
    mutex of [GDRHandle] is not recursive, so taking it twice in one thread is undefined. *)

From stdpp Require Import gmap.
From S2P Require Import Prelude.
From S2P Require Import StateM.
From S2P Require Import Common.
From S2P Require Import Context.

(** ** Calls into the library, with their results *)
Inductive GdrCall :=
| COpen (g : option Z)
| CClose (g : Z)
| CPin (g addr size res h : Z)
| CUnpin (g h : Z)
| CInfo (g h res : Z)
| CMap (g h size res va : Z)
| CUnmap (g h va size : Z).

Class GdrLib := {
  dlopen_gdrapi : bool;
  dlsym : string -> bool;
  gdr_open : list GdrCall -> option Z;
  gdr_pin_buffer : list GdrCall -> Z -> Z -> Z -> Z * Z;       (* result, handle *)
  gdr_get_info : list GdrCall -> Z -> Z -> Z * (Z * Z);        (* result, va, page size *)
  gdr_map_ : list GdrCall -> Z -> Z -> Z -> Z * Z;             (* result, address *)
  gdr_runtime_version : Z * Z;
  gdr_driver_version : Z -> Z * Z;
}.

(** ** State

    The function pointers that are not null, [g_handle], the [once_flag], whether the mutex of
    [g_handle] is held, and the calls so far. *)
Record Gdr := mkGdrState {
  syms : gset string;
  g_handle : option Z;
  inited : bool;
  mtx : bool;
  log : list GdrCall;
}.

Definition set_syms (x : gset string) (s : Gdr) : Gdr := mkGdrState x (g_handle s) (inited s) (mtx s) (log s).
Definition set_handle (x : option Z) (s : Gdr) : Gdr := mkGdrState (syms s) x (inited s) (mtx s) (log s).
Definition set_inited (s : Gdr) : Gdr := mkGdrState (syms s) (g_handle s) true (mtx s) (log s).
Definition set_mtx (b : bool) (s : Gdr) : Gdr := mkGdrState (syms s) (g_handle s) (inited s) b (log s).
Definition add_call (c : GdrCall) (s : Gdr) : Gdr := mkGdrState (syms s) (g_handle s) (inited s) (mtx s) (log s ++ [c]).

Abbreviation G := (ST Gdr).

(** A live [MmapHandle] and a live [GdrMemDesc]. *)
Record MmapHandle := mkMmap { mm_handle : Z; mm_ptr : Z; mm_size : Z }.
Record MemDesc := mkDesc { desc_cpu_ptr : Z; desc_handle : Z; desc_mm : MmapHandle }.

Section Operations.
Context `{Env} `{GdrLib}.

(** [RTCHECK] throws. *)
Definition gdr_check (b : bool) : G unit := if b then sret tt else lift (Err RuntimeError).

(** [RTCHECK(gdr_internal_f)]. *)
Definition check_sym (f : string) : G unit :=
  let! present := gets syms in gdr_check (bool_decide (f ∈ present)).

Definition lock : G unit := fun s => if mtx s then (Err Undefined, s) else (Ok tt, set_mtx true s).
Definition unlock : G unit := modify (set_mtx false).

(** The scope of [auto guard = std::lock_guard<std::mutex>(self.mtx)]. *)
Definition guarded {A} (m : G A) : G A := let! _ := lock in scoped m unlock.

(** ** Loading *)
Definition load_sym (f : string) : G unit :=
  modify (fun s => set_syms (if dlsym f then {[f]} ∪ syms s else syms s ∖ {[f]}) s).

Definition sym_names : list string :=
  ["gdr_open"; "gdr_close"; "gdr_pin_buffer"; "gdr_unpin_buffer"; "gdr_get_info"; "gdr_map"; "gdr_unmap";
   "gdr_runtime_get_version"; "gdr_driver_get_version"].

Definition load_syms : G unit := if dlopen_gdrapi then siter load_sym sym_names else sret tt.

(** ** [GDRHandle] *)
Definition close_handle (g : Z) : G unit :=
  let! present := gets syms in
  if bool_decide ("gdr_close" ∈ present) then modify (add_call (CClose g)) else sret tt.

Definition unmap (g : Z) (mm : MmapHandle) : G unit :=
  let! present := gets syms in
  if bool_decide ("gdr_unmap" ∈ present)
  then guarded (modify (add_call (CUnmap g (mm_handle mm) (mm_ptr mm) (mm_size mm)))) else sret tt.

Definition unpin_buffer (g h : Z) : G unit :=
  let! present := gets syms in
  if bool_decide ("gdr_unpin_buffer" ∈ present) then guarded (modify (add_call (CUnpin g h))) else sret tt.

(** [GDRMHandle::~GDRMHandle] and [MmapHandle::~MmapHandle] reach the library through
    [g_handle]. *)
Definition destroy_pin (h : Z) : G unit :=
  let! gh := gets g_handle in
  match gh with Some g => unpin_buffer g h | None => lift (Err Undefined) end.
Definition destroy_map (mm : MmapHandle) : G unit :=
  let! gh := gets g_handle in
  match gh with Some g => unmap g mm | None => lift (Err Undefined) end.

(** The pinned range is owned by [mh] as soon as it is pinned, and the lock is held until
    [pin_buffer] is left. *)
Definition pin_buffer (g addr size : Z) : G Z :=
  let! _ := check_sym "gdr_pin_buffer" in
  guarded (
    let! l := gets log in
    let '(res, h) := gdr_pin_buffer l g addr size in
    let! _ := modify (add_call (CPin g addr size res h)) in
    let! _ := gdr_check (res =? 0) in
    on_unwind (
      let! _ := check_sym "gdr_get_info" in
      let! l := gets log in
      let '(res, (va, page_size)) := gdr_get_info l g h in
      let! _ := modify (add_call (CInfo g h res)) in
      let! _ := gdr_check (res =? 0) in
      let! _ := gdr_check ((va =? addr) && (page_size =? GPU_PAGE)) in
      sret h)
      (destroy_pin h)).

Definition map_handle (g h size : Z) : G MmapHandle :=
  let! _ := check_sym "gdr_map" in
  guarded (
    let! l := gets log in
    let '(res, cpu_ptr) := gdr_map_ l g h size in
    let! _ := modify (add_call (CMap g h size res cpu_ptr)) in
    let! _ := gdr_check (res =? 0) in
    sret (mkMmap h cpu_ptr size)).

(** ** Opening *)
Definition version_ok (lib drv : Z * Z) : bool :=
  negb ((lib.1 <? 2) || ((lib.1 =? 2) && (lib.2 <? 1)) || (drv.1 <? 2) || ((drv.1 =? 2) && (drv.2 <? 1))).

Definition wrap_gdr_open : G Z :=
  let! _ := check_sym "gdr_open" in
  let! l := gets log in
  let rh := gdr_open l in
  let! _ := modify (add_call (COpen rh)) in
  match rh with
  | None => lift (Err RuntimeError)
  | Some rh =>
      on_unwind (
        let! _ := check_sym "gdr_runtime_get_version" in
        let! _ := check_sym "gdr_driver_get_version" in
        let! _ := gdr_check (version_ok gdr_runtime_version (gdr_driver_version rh)) in
        sret rh)
        (close_handle rh)
  end.

(** [init]: assigning [g_handle] closes what it held. *)
Definition init : G unit :=
  let! _ := load_syms in
  let! g := wrap_gdr_open in
  let! old := gets g_handle in
  let! _ := modify (set_handle (Some g)) in
  match old with Some g' => close_handle g' | None => sret tt end.

(** [gdrcpy_init]: [call_once] sets its flag when [init] returns; an exception leaves it unset. *)
Definition gdrcpy_init : G unit :=
  let! done := gets inited in
  if done : bool then sret tt
  else scatch (let! _ := init in modify set_inited) (sret tt).

(** ** Mapping *)
Definition gdr_do_mmap (g raw_ptr size : Z) : G MemDesc :=
  let! gh := gets g_handle in
  let! _ := lift (cassert (bool_decide (is_Some gh))) in
  let aligned_gpu_ptr := raw_ptr - raw_ptr mod GPU_PAGE in
  let end_ := u64 (raw_ptr + size + (GPU_PAGE - 1)) in
  let aligned_gpu_end := end_ - end_ mod GPU_PAGE in
  let aligned_size := u64 (aligned_gpu_end - aligned_gpu_ptr) in
  let! mh := pin_buffer g aligned_gpu_ptr aligned_size in
  let! mm := on_unwind (map_handle g mh aligned_size) (destroy_pin mh) in
  sret (mkDesc (mm_ptr mm + (raw_ptr - aligned_gpu_ptr)) mh mm).

Definition gdrcpy_mmap (gpu_ptr size : Z) : G (option MemDesc) :=
  let! _ := gdrcpy_init in
  let! gh := gets g_handle in
  match gh with
  | None => sret None
  | Some g => scatch (let! d := gdr_do_mmap g gpu_ptr size in sret (Some d)) (sret None)
  end.

(** [GdrMemDesc::~GdrMemDesc]: the members are destroyed in reverse order. *)
Definition destroy_desc (d : MemDesc) : G unit :=
  let! _ := destroy_map (desc_mm d) in
  destroy_pin (desc_handle d).

(** The end of [g_handle] when the process exits. *)
Definition destroy_g_handle : G unit :=
  let! gh := gets g_handle in
  let! _ := modify (set_handle None) in
  match gh with Some g => close_handle g | None => sret tt end.

(** ** A process that maps tensors and drops mappings, in any order *)
Inductive Op := Mmap (gpu_ptr size : Z) | Drop (i : nat).

Definition do_op (o : Op) (live : list MemDesc) : G (list MemDesc) :=
  match o with
  | Mmap p n => let! d := gdrcpy_mmap p n in sret (live ++ option_list d)
  | Drop i =>
      match live !! i with
      | Some d => let! _ := destroy_desc d in sret (delete i live)
      | None => sret live
      end
  end.

Fixpoint do_ops (os : list Op) (live : list MemDesc) : G (list MemDesc) :=
  match os with
  | [] => sret live
  | o :: os => let! live := do_op o live in do_ops os live
  end.
End Operations.

Definition start : Gdr := mkGdrState ∅ None false false [].

(** ** What the library allows

    [drv_step]: the effect of a call on the library, [None] when the call breaks its rules: one
    handle at a time, ranges pinned under an open handle, known handles only, a range mapped at
    most once, unmapped before it is unpinned, and nothing pinned when the handle is closed. *)
Record Drv := mkDrv {
  opened : option Z;
  pinned : gmap Z Z;            (* handle to device address *)
  mapped_ : gmap Z (Z * Z);     (* handle to address and size *)
}.

Definition drv_step (d : Drv) (c : GdrCall) : option Drv :=
  match c with
  | COpen None => Some d
  | COpen (Some g) => guard (opened d = None);; Some (mkDrv (Some g) (pinned d) (mapped_ d))
  | CClose g => guard (opened d = Some g /\ pinned d = ∅);; Some (mkDrv None (pinned d) (mapped_ d))
  | CPin g a n res h =>
      guard (opened d = Some g);;
      if res =? 0 then guard (pinned d !! h = None);; Some (mkDrv (opened d) (<[h := a]> (pinned d)) (mapped_ d)) else Some d
  | CUnpin g h =>
      guard (opened d = Some g /\ is_Some (pinned d !! h) /\ mapped_ d !! h = None);;
      Some (mkDrv (opened d) (delete h (pinned d)) (mapped_ d))
  | CInfo g h _ => guard (opened d = Some g /\ is_Some (pinned d !! h));; Some d
  | CMap g h n res va =>
      guard (opened d = Some g /\ is_Some (pinned d !! h) /\ mapped_ d !! h = None);;
      if res =? 0 then Some (mkDrv (opened d) (pinned d) (<[h := (va, n)]> (mapped_ d))) else Some d
  | CUnmap g h va n =>
      guard (opened d = Some g /\ mapped_ d !! h = Some (va, n));;
      Some (mkDrv (opened d) (pinned d) (delete h (mapped_ d)))
  end.

Fixpoint replay (l : list GdrCall) (d : Drv) : option Drv :=
  match l with
  | [] => Some d
  | c :: l => d' ← drv_step d c; replay l d'
  end.

Definition replays (l : list GdrCall) (d : Drv) : Prop := replay l (mkDrv None ∅ ∅) = Some d.

(** Documented behaviour of the library: the handle of a new pinning is not in use, a pinned
    range is reported at the address it was pinned at and with the GPU's page size, and the
    library exports its interface. *)
Class GdrLaws `{GdrLib} := {
  pin_fresh l d g a n h : replays l d -> gdr_pin_buffer l g a n = (0, h) -> pinned d !! h = None;
  info_of_pin l d g h a : replays l d -> pinned d !! h = Some a -> gdr_get_info l g h = (0, (a, GPU_PAGE));
  exports f : f ∈ sym_names -> dlsym f = true;
}.

(** ** Replaying calls *)
Lemma replay_snoc l c d d1 d2 : replay l d = Some d1 -> drv_step d1 c = Some d2 -> replay (l ++ [c]) d = Some d2.
Proof.
  revert d. induction l as [|c' l IH]; intros d; cbn [replay app].
  - intros [= ->] ->. done.
  - intros (d' & Hc & Hr)%bind_Some Hd. apply bind_Some. eauto.
Qed.

Lemma replays_call s c d d' : replays (log s) d -> drv_step d c = Some d' -> replays (log (add_call c s)) d'.
Proof. apply replay_snoc. Qed.

(** A call that the library's rules allow. *)
Ltac allowed :=
  cbn [drv_step]; repeat (rewrite option_guard_True by (first [done | split_and?; eauto; done])); try done.

(** ** Operations at rest

    With every function pointer present and the mutex free, each operation is its calls. *)
Definition all_syms (s : Gdr) : Prop := forall f, f ∈ sym_names -> f ∈ syms s.

Section Rest.
Context `{Env} `{GdrLaws}.

Lemma has_sym s f : all_syms s -> bool_decide (f ∈ sym_names) = true -> bool_decide (f ∈ syms s) = true.
Proof. intros Hs Hf%bool_decide_eq_true. by apply bool_decide_eq_true, Hs. Qed.

Lemma check_sym_ok s f : all_syms s -> bool_decide (f ∈ sym_names) = true -> check_sym f s = (Ok tt, s).
Proof. intros Hs Hf. unfold check_sym, sbind, gets. by rewrite has_sym. Qed.

Lemma relock s c : mtx s = false -> set_mtx false (add_call c (set_mtx true s)) = add_call c s.
Proof. by destruct s; cbn; intros ->. Qed.

Lemma destroy_pin_eq s g h :
  all_syms s -> mtx s = false -> g_handle s = Some g -> destroy_pin h s = (Ok tt, add_call (CUnpin g h) s).
Proof.
  intros Hs Hm Hg. unfold destroy_pin, sbind, gets. rewrite Hg. unfold unpin_buffer, sbind, gets.
  rewrite has_sym by done. unfold guarded, lock, sbind. rewrite Hm. cbn. by rewrite relock.
Qed.

Lemma destroy_map_eq s g mm :
  all_syms s -> mtx s = false -> g_handle s = Some g ->
  destroy_map mm s = (Ok tt, add_call (CUnmap g (mm_handle mm) (mm_ptr mm) (mm_size mm)) s).
Proof.
  intros Hs Hm Hg. unfold destroy_map, sbind, gets. rewrite Hg. unfold unmap, sbind, gets.
  rewrite has_sym by done. unfold guarded, lock, sbind. rewrite Hm. cbn. by rewrite relock.
Qed.

Lemma map_handle_eq s g h n :
  all_syms s -> mtx s = false ->
  map_handle g h n s =
    let '(res, va) := gdr_map_ (log s) g h n in
    ((if res =? 0 then Ok (mkMmap h va n) else Err RuntimeError), add_call (CMap g h n res va) s).
Proof.
  intros Hs Hm. unfold map_handle, check_sym, sbind, gets. rewrite has_sym by done. cbn.
  unfold guarded, lock, sbind. rewrite Hm. cbn. unfold scoped, on_unwind, sbind, gets. cbn.
  destruct (gdr_map_ (log s) g h n) as [res va]. cbn. destruct (res =? 0); cbn; by rewrite relock.
Qed.

Lemma pin_buffer_eq s g a n d :
  all_syms s -> mtx s = false -> replays (log s) d -> opened d = Some g ->
  pin_buffer g a n s =
    let '(res, h) := gdr_pin_buffer (log s) g a n in
    if res =? 0 then (Ok h, add_call (CInfo g h 0) (add_call (CPin g a n 0 h) s))
    else (Err RuntimeError, add_call (CPin g a n res h) s).
Proof.
  intros Hs Hm Hd Hg. unfold pin_buffer. erewrite sbind_ok by (by apply check_sym_ok).
  unfold guarded. erewrite sbind_ok by (unfold lock; by rewrite Hm). unfold scoped, sbind at 1, on_unwind at 1.
  erewrite sbind_ok by done. cbn [log set_mtx].
  destruct (gdr_pin_buffer (log s) g a n) as [res h] eqn:Hp. erewrite sbind_ok by done.
  destruct (Z.eqb_spec res 0) as [->|]; [|cbn; by rewrite relock].
  erewrite sbind_ok by done. unfold on_unwind. erewrite sbind_ok by (by apply check_sym_ok).
  assert (Hr : replays (log s ++ [CPin g a n 0 h]) (mkDrv (opened d) (<[h := a]> (pinned d)) (mapped_ d))).
  { eapply replay_snoc; [exact Hd|]. pose proof (pin_fresh _ _ _ _ _ _ Hd Hp). allowed. }
  erewrite sbind_ok by done. cbn [log add_call set_mtx].
  rewrite (info_of_pin _ _ g h a Hr) by apply lookup_insert_eq. cbn. rewrite Z.eqb_refl. cbn.
  by destruct s; cbn in *; subst.
Qed.

Definition aligned (p : Z) : Z := p - p mod GPU_PAGE.
Definition aligned_len (p n : Z) : Z :=
  let e := u64 (p + n + (GPU_PAGE - 1)) in u64 (e - e mod GPU_PAGE - aligned p).

(** A mapping is made with three calls; when it fails nothing stays pinned. *)
Lemma gdr_do_mmap_eq s g p n d :
  all_syms s -> mtx s = false -> replays (log s) d -> opened d = Some g -> g_handle s = Some g ->
  gdr_do_mmap g p n s =
    let '(res, h) := gdr_pin_buffer (log s) g (aligned p) (aligned_len p n) in
    if res =? 0 then
      let s1 := add_call (CInfo g h 0) (add_call (CPin g (aligned p) (aligned_len p n) 0 h) s) in
      let '(res, va) := gdr_map_ (log s1) g h (aligned_len p n) in
      let s2 := add_call (CMap g h (aligned_len p n) res va) s1 in
      if res =? 0 then (Ok (mkDesc (va + (p - aligned p)) h (mkMmap h va (aligned_len p n))), s2)
      else (Err RuntimeError, add_call (CUnpin g h) s2)
    else (Err RuntimeError, add_call (CPin g (aligned p) (aligned_len p n) res h) s).
Proof.
  intros Hs Hm Hd Ho Hg. unfold gdr_do_mmap. erewrite sbind_ok by (unfold gets; by rewrite Hg).
  erewrite sbind_ok by (unfold lift, cassert; by destruct ndebug). cbv zeta.
  fold (aligned p). fold (aligned_len p n). unfold sbind at 1. rewrite (pin_buffer_eq _ _ _ _ d) by done.
  destruct (gdr_pin_buffer _ _ _ _) as [res h]. destruct (Z.eqb_spec res 0) as [->|]; [|done].
  unfold sbind at 1, on_unwind. rewrite map_handle_eq by done.
  destruct (gdr_map_ _ _ _ _) as [res va]. destruct (res =? 0); [done|]. cbn [is_exception].
  unfold sbind. by rewrite (destroy_pin_eq _ g).
Qed.

Lemma destroy_desc_eq s g x :
  all_syms s -> mtx s = false -> g_handle s = Some g -> 
  destroy_desc x s = (Ok tt, add_call (CUnpin g (desc_handle x))
    (add_call (CUnmap g (mm_handle (desc_mm x)) (mm_ptr (desc_mm x)) (mm_size (desc_mm x))) s)).
Proof.
  intros Hs Hm Hg. unfold destroy_desc. erewrite sbind_ok by (by apply destroy_map_eq). by apply destroy_pin_eq.
Qed.
End Rest.

(** ** Ownership

    What the library holds is what the live mappings own. *)
Definition entry (x : MemDesc) : Z * (Z * Z) := (desc_handle x, (mm_ptr (desc_mm x), mm_size (desc_mm x))).

Record owned (live : list MemDesc) (d : Drv) : Prop := {
  ow_nodup : NoDup (desc_handle <$> live);
  ow_same : Forall (fun x => mm_handle (desc_mm x) = desc_handle x) live;
  ow_pinned : dom (pinned d) = list_to_set (desc_handle <$> live);
  ow_mapped : mapped_ d = list_to_map (entry <$> live);
  ow_open : opened d = None -> live = [];
}.

Lemma entry_keys live : (entry <$> live).*1 = desc_handle <$> live.
Proof. by rewrite <- list_fmap_compose. Qed.

Lemma owned_perm live live' d : live ≡ₚ live' -> owned live d -> owned live' d.
Proof.
  intros Hp [Hn Hs Hpin Hmap Ho]. split.
  - by rewrite <- Hp.
  - by rewrite <- Hp.
  - by rewrite Hpin, Hp.
  - rewrite Hmap. apply list_to_map_proper; [by rewrite entry_keys|by rewrite Hp].
  - intros Hx. apply Ho in Hx. subst. by apply Permutation_nil_l in Hp.
Qed.

Lemma owned_add live d x a :
  owned live d -> pinned d !! desc_handle x = None -> mm_handle (desc_mm x) = desc_handle x -> is_Some (opened d) ->
  owned (x :: live) (mkDrv (opened d) (<[desc_handle x := a]> (pinned d)) (<[desc_handle x := (entry x).2]> (mapped_ d))).
Proof.
  intros [Hn Hs Hpin Hmap Ho] Hx Hsame [g Hg]. apply not_elem_of_dom in Hx. rewrite Hpin, elem_of_list_to_set in Hx. split; cbn.
  - by constructor.
  - by constructor.
  - by rewrite dom_insert_L, Hpin.
  - by rewrite Hmap.
  - by rewrite Hg.
Qed.

Lemma owned_remove live d x :
  owned (x :: live) d -> owned live (mkDrv (opened d) (delete (desc_handle x) (pinned d)) (delete (desc_handle x) (mapped_ d))).
Proof.
  intros [Hn Hs Hpin Hmap Ho]. apply NoDup_cons in Hn as [Hx Hn]. inversion Hs; subst. split; cbn; [done|done| | |].
  - rewrite dom_delete_L, Hpin. cbn. set_solver.
  - rewrite Hmap. cbn. apply delete_insert_id, not_elem_of_list_to_map. by rewrite entry_keys.
  - intros Hy. by apply Ho in Hy.
Qed.

(** A mapping of [n] bytes from [p]: the pages around them are pinned and mapped, and [cpu_ptr]
    shows [p]. *)
Record serves (d : Drv) (x : MemDesc) (p n : Z) : Prop := {
  sv_pinned : pinned d !! desc_handle x = Some (aligned p);
  sv_ptr : desc_cpu_ptr x = mm_ptr (desc_mm x) + (p - aligned p);
  sv_size : mm_size (desc_mm x) = aligned_len p n;
}.

Lemma serves_weaken d d' x p n :
  pinned d' !! desc_handle x = pinned d !! desc_handle x -> serves d x p n -> serves d' x p n.
Proof. intros Hd [H1 H2 H3]. split; [by rewrite Hd|done|done]. Qed.

Record inv (R : Z -> Z -> Prop) (live : list MemDesc) (s : Gdr) : Prop := {
  iv_drv : exists d, replays (log s) d /\ opened d = g_handle s /\ owned live d /\
    Forall (fun x => exists p n, R p n /\ serves d x p n) live;
  iv_mtx : mtx s = false;
  iv_syms : syms s = ∅ \/ all_syms s;
  iv_open : g_handle s <> None -> all_syms s;
  iv_init : inited s = false -> g_handle s = None;
}.

Section Process.
Context `{Env} `{GdrLaws}.

Lemma load_sym_spec l s : (forall f, f ∈ l -> dlsym f = true) -> 
  exists x, siter load_sym l s = (Ok tt, set_syms x s) /\ forall f, f ∈ x <-> f ∈ l \/ f ∈ syms s.
Proof.
  revert s. induction l as [|f l IH]; intros s Hl; cbn [siter].
  - exists (syms s). split; [by destruct s|]. set_solver.
  - erewrite sbind_ok by (unfold load_sym, modify; rewrite (Hl f) by set_solver; reflexivity).
    edestruct IH as (x & -> & Hx); [intros; apply Hl; set_solver|]. exists x. split; [done|].
    intros f'. rewrite Hx. cbn. set_solver.
Qed.

(** Loading leaves every pointer set, or all of them null. *)
Lemma load_syms_spec s : (syms s = ∅ \/ all_syms s) ->
  exists x, load_syms s = (Ok tt, set_syms x s) /\ (x = ∅ \/ forall f, f ∈ sym_names -> f ∈ x).
Proof.
  intros Hs. unfold load_syms. destruct dlopen_gdrapi.
  - destruct (load_sym_spec sym_names s exports) as (x & Hx & Hin). exists x. split; [done|]. right. set_solver.
  - exists (syms s). split; [by destruct s|]. destruct Hs; [by left|by right].
Qed.

(** Opening the library: with a handle, or with everything given back. *)
Lemma wrap_gdr_open_spec s d :
  replays (log s) d -> opened d = None -> pinned d = ∅ -> (syms s = ∅ \/ all_syms s) ->
  exists r cs, wrap_gdr_open s = (r, mkGdrState (syms s) (g_handle s) (inited s) (mtx s) (log s ++ cs)) /\
    match r with
    | Ok g => all_syms s /\ replays (log s ++ cs) (mkDrv (Some g) (pinned d) (mapped_ d))
    | Err e => e = RuntimeError /\ replays (log s ++ cs) d
    end.
Proof.
  intros Hd Ho Hp [Hs|Hs]; unfold wrap_gdr_open.
  { exists (Err RuntimeError), []. rewrite app_nil_r. split; [|done]. unfold check_sym, sbind, gets.
    rewrite bool_decide_eq_false_2 by (rewrite Hs; set_solver). by destruct s. }
  erewrite sbind_ok by (by apply check_sym_ok). erewrite sbind_ok by done. erewrite sbind_ok by done.
  destruct (gdr_open (log s)) as [g|].
  2: { exists (Err RuntimeError), [COpen None]. split; [done|]. split; [done|]. by eapply replay_snoc. }
  assert (Hg : replays (log s ++ [COpen (Some g)]) (mkDrv (Some g) (pinned d) (mapped_ d))).
  { eapply replay_snoc; [exact Hd|]. allowed. }
  unfold on_unwind. do 2 (erewrite sbind_ok by (by apply check_sym_ok)). destruct (version_ok _ _).
  { exists (Ok g), [COpen (Some g)]. done. }
  exists (Err RuntimeError), ([COpen (Some g)] ++ [CClose g]). cbn [gdr_check sbind lift is_exception]. split.
  - unfold close_handle, sbind, gets. rewrite has_sym by done. unfold lift, modify, add_call. cbn. by rewrite <- app_assoc.
  - split; [done|]. rewrite app_assoc. eapply replay_snoc; [exact Hg|]. allowed. destruct d; cbn in *. by subst.
Qed.

Lemma gdrcpy_init_inv R live s : inv R live s -> exists s', gdrcpy_init s = (Ok tt, s') /\ inv R live s'.
Proof.
  intros Hi. unfold gdrcpy_init. erewrite sbind_ok by done. destruct (inited s) eqn:Hin; [by exists s|].
  destruct Hi as [(d & Hd & Ho & How & Hsv) Hm Hsy Hop Hnn]. specialize (Hnn Hin). rewrite Hnn in Ho.
  assert (live = []) as -> by by apply (ow_open _ _ How).
  assert (Hp : pinned d = ∅) by (apply dom_empty_inv_L; by rewrite (ow_pinned _ _ How)).
  unfold scatch. unfold init. destruct (load_syms_spec s Hsy) as (x & Hx & Hxs).
  unfold sbind at 1 2. rewrite Hx. unfold sbind at 1.
  destruct (wrap_gdr_open_spec (set_syms x s) d) as (r & cs & Hr & Hpost); [done|done|done| |].
  { cbn. destruct Hxs; [by left|by right]. }
  cbn in Hr. rewrite Hr. destruct r as [g|e].
  - destruct Hpost as [Hall Hrep]. erewrite sbind_ok by done. cbn. rewrite Hnn. cbn. eexists. split; [done|]. split; cbn; try done.
    exists (mkDrv (Some g) (pinned d) (mapped_ d)). split_and!; [done|done| |done]. destruct How. by split.
  - destruct Hpost as [-> Hrep]. cbn. eexists. split; [done|]. split; cbn; try done. exists d. by rewrite Ho, Hnn.
Qed.

Lemma gdrcpy_mmap_inv (R : Z -> Z -> Prop) live s p n :
  R p n -> inv R live s -> exists r s', gdrcpy_mmap p n s = (Ok r, s') /\ inv R (live ++ option_list r) s'.
Proof.
  intros HR Hi. unfold gdrcpy_mmap. destruct (gdrcpy_init_inv R live s Hi) as (s' & Hs' & Hi').
  rewrite (sbind_ok _ _ _ _ _ Hs'). clear s Hi Hs'. rename s' into s. erewrite sbind_ok by done.
  destruct (g_handle s) as [g|] eqn:Hg; [|exists None, s; cbn; by rewrite app_nil_r].
  destruct Hi' as [(d & Hd & Ho & How & Hsv) Hm Hsy Hop Hnn]. rewrite Hg in Ho.
  assert (Hall : all_syms s) by (apply Hop; by rewrite Hg).
  unfold scatch, sbind at 1. rewrite (gdr_do_mmap_eq s g p n d) by done.
  destruct (gdr_pin_buffer _ _ _ _) as [res h] eqn:Hpin. destruct (Z.eqb_spec res 0) as [->|Hres].
  2: { exists None. eexists. split; [done|]. cbn. rewrite app_nil_r. split; cbn; try done. exists d. rewrite Hg. split_and!; try done.
       eapply replay_snoc; [exact Hd|]. allowed. by rewrite (proj2 (Z.eqb_neq _ _)). }
  pose proof (pin_fresh _ _ _ _ _ _ Hd Hpin) as Hf. set (a := aligned p) in *. set (k := aligned_len p n) in *.
  set (d1 := mkDrv (opened d) (<[h := a]> (pinned d)) (mapped_ d)).
  assert (Hd1 : replays (log (add_call (CInfo g h 0) (add_call (CPin g a k 0 h) s))) d1).
  { eapply replays_call; [eapply replays_call; [exact Hd|allowed]|]. cbn. rewrite lookup_insert_eq. allowed. }
  assert (Hmf : mapped_ d !! h = None).
  { rewrite (ow_mapped _ _ How). apply not_elem_of_list_to_map. rewrite entry_keys.
    apply not_elem_of_dom in Hf. by rewrite (ow_pinned _ _ How), elem_of_list_to_set in Hf. }
  cbv zeta. destruct (gdr_map_ _ _ _ _) as [res va]. destruct (Z.eqb_spec res 0) as [->|Hres].
  - eexists (Some _), _. split; [done|]. cbn [option_list].
    set (x := mkDesc (va + (p - a)) h (mkMmap h va k)). split; cbn; try done.
    exists (mkDrv (opened d) (<[h := a]> (pinned d)) (<[h := (va, k)]> (mapped_ d))). rewrite Hg. split_and!; try done.
    + eapply replay_snoc; [exact Hd1|]. cbn. rewrite lookup_insert_eq, Hmf. allowed.
    + eapply owned_perm; [apply Permutation_cons_append|]. apply (owned_add live d x a); try done; by rewrite Ho.
    + apply Forall_app. split.
      * eapply Forall_impl; [exact Hsv|]. intros y (p' & n' & HR' & Hy). exists p', n'. split; [done|].
        apply (serves_weaken d); [|done]. cbn. rewrite lookup_insert_ne; [done|]. intros ->. apply sv_pinned in Hy. by rewrite Hf in Hy.
      * constructor; [|done]. exists p, n. split; [done|]. split; cbn; [by rewrite lookup_insert_eq|done|done].
  - exists None. eexists. split; [done|]. cbn [option_list]. rewrite app_nil_r. split; cbn; try done. exists d. rewrite Hg. split_and!; try done.
    eapply (replay_snoc _ _ _ d1).
    + eapply replay_snoc; [exact Hd1|]. cbn. rewrite lookup_insert_eq, Hmf. allowed. by rewrite (proj2 (Z.eqb_neq _ _)).
    + cbn. rewrite lookup_insert_eq, Hmf. allowed. rewrite delete_insert_id by done. by destruct d.
Qed.

Lemma drop_inv R live s i x :
  inv R live s -> live !! i = Some x -> exists s', destroy_desc x s = (Ok tt, s') /\ inv R (delete i live) s'.
Proof.
  intros [(d & Hd & Ho & How & Hsv) Hm Hsy Hop Hnn] Hx.
  destruct (g_handle s) as [g|] eqn:Hg; [|by rewrite (ow_open _ _ How) in Hx].
  assert (Hall : all_syms s) by (by apply Hop). assert (Hperm : live ≡ₚ x :: delete i live) by (by apply delete_Permutation).
  apply (owned_perm _ _ _ Hperm) in How. pose proof (ow_same _ _ How) as Hsame. apply Forall_cons in Hsame as [Hsame _].
  assert (Hpx : is_Some (pinned d !! desc_handle x)).
  { apply elem_of_dom. rewrite (ow_pinned _ _ How). cbn. set_solver. }
  assert (Hmx : mapped_ d !! desc_handle x = Some (mm_ptr (desc_mm x), mm_size (desc_mm x))).
  { rewrite (ow_mapped _ _ How). cbn. apply lookup_insert_eq. }
  eexists. split; [by apply destroy_desc_eq|]. split; cbn; try done; [|by rewrite Hg].
  exists (mkDrv (opened d) (delete (desc_handle x) (pinned d)) (delete (desc_handle x) (mapped_ d))). rewrite Hg. split_and!; try done.
  - eapply (replay_snoc _ _ _ (mkDrv (opened d) (pinned d) (delete (desc_handle x) (mapped_ d)))).
    + eapply replay_snoc; [exact Hd|]. cbn. rewrite Hsame. allowed.
    + cbn. rewrite lookup_delete_eq. allowed.
  - by apply owned_remove.
  - pose proof (ow_nodup _ _ How) as Hn. apply NoDup_cons in Hn as [Hn _]. rewrite Hperm in Hsv. apply Forall_cons in Hsv as [_ Hsv].
    apply Forall_forall. intros y Hy. rewrite Forall_forall in Hsv. destruct (Hsv y Hy) as (p & n & HR & Hs). exists p, n. split; [done|].
    revert Hs. apply serves_weaken. cbn. rewrite lookup_delete_ne; [done|]. intros He. apply Hn. rewrite He. by apply list_elem_of_fmap_2.
Qed.

Lemma do_ops_inv (R : Z -> Z -> Prop) os live s :
  (forall p n, Mmap p n ∈ os -> R p n) -> inv R live s ->
  exists live' s', do_ops os live s = (Ok live', s') /\ inv R live' s'.
Proof.
  revert live s. induction os as [|o os IH]; intros live s HR Hi; cbn [do_ops]; [by exists live, s|].
  assert (exists live1 s1, do_op o live s = (Ok live1, s1) /\ inv R live1 s1) as (live1 & s1 & Ho & Hi1).
  { destruct o as [p n|i]; cbn [do_op].
    - destruct (gdrcpy_mmap_inv R live s p n) as (r & s1 & Hr & Hs1); [apply HR; set_solver|done|].
      rewrite (sbind_ok _ _ _ _ _ Hr). eauto.
    - destruct (live !! i) as [x|] eqn:Hx; [|by exists live, s]. destruct (drop_inv R live s i x Hi Hx) as (s1 & Hs1 & Hi1).
      rewrite (sbind_ok _ _ _ _ _ Hs1). by exists (delete i live), s1. }
  rewrite (sbind_ok _ _ _ _ _ Ho). apply IH; [|done]. intros p n Hp. apply HR. set_solver.
Qed.

Lemma start_inv R : inv R [] start.
Proof. split; cbn; try done; [|by left]. exists (mkDrv None ∅ ∅). split_and!; try done. split; cbn; try done. constructor. Qed.

(** Releasing the library when nothing is mapped leaves nothing open. *)
Lemma exit_closes R s : inv R [] s -> exists s', destroy_g_handle s = (Ok tt, s') /\ replays (log s') (mkDrv None ∅ ∅).
Proof.
  intros [(d & Hd & Ho & [_ _ Hp Hmap _] & _) Hm Hsy Hop Hnn]. unfold destroy_g_handle. erewrite sbind_ok by done. erewrite sbind_ok by done.
  apply dom_empty_inv_L in Hp. cbn in Hmap. destruct d as [o pin ma]. cbn in *. subst. destruct (g_handle s) as [g|] eqn:Hg.
  - unfold close_handle. erewrite sbind_ok by done. rewrite has_sym; [|by apply Hop|done]. eexists. split; [done|]. cbn.
    eapply replay_snoc; [exact Hd|]. allowed.
  - eexists. split; [done|]. done.
Qed.

(** C21: GDRCopy mappings: in whatever order tensors are mapped and mappings dropped, and
    wherever opening, pinning or mapping fails, for a library that reports a pinned range as
    it was pinned: every operation returns with the lock free, the calls into the library
    keep its rules (nothing is unpinned while mapped, released twice or used unopened), and
    the library holds exactly the ranges of the live mappings, each on the pages of a tensor
    that was asked for; when none is left, the exit closes the library with nothing pinned.
    *)
Theorem mappings_own_what_is_pinned os :
  exists live s d,
    do_ops os [] start = (Ok live, s) /\ mtx s = false /\ replays (log s) d /\
    NoDup (desc_handle <$> live) /\ dom (pinned d) = list_to_set (desc_handle <$> live) /\
    mapped_ d = list_to_map (entry <$> live) /\
    Forall (fun x => exists p n, Mmap p n ∈ os /\ serves d x p n) live /\
    (live = [] -> exists s', destroy_g_handle s = (Ok tt, s') /\ replays (log s') (mkDrv None ∅ ∅)).
Proof.
  destruct (do_ops_inv (fun p n => Mmap p n ∈ os) os [] start) as (live & s & Hr & Hi); [done|apply start_inv|].
  pose proof (fun E : live = [] => exit_closes _ s (eq_rect live (fun l => inv _ l s) Hi [] E)) as Hx.
  destruct Hi as [(d & Hd & Ho & [Hn Hs Hp Hm _] & Hsv) Hmtx _ _ _]. by exists live, s, d.
Qed.
End Process.

(** A live mapping is what [do_mmap] of a context gives for the tensor, when its [gdr_map] answers
    with the address of the mapping. *)
Lemma serves_context_mapping `{Node} d x p n :
  serves d x p n -> gdr_map (aligned p) (aligned_len p n) = Some (mm_ptr (desc_mm x)) ->
  do_mmap p n = Some (mkGdr (desc_cpu_ptr x) (mm_ptr (desc_mm x)) (aligned p) (mm_size (desc_mm x))).
Proof.
  intros [_ Hp Hs] Hg. unfold do_mmap. cbv zeta. fold (aligned p). fold (aligned_len p n). rewrite Hg. by rewrite Hp, Hs.
Qed.

(** When the library does not report a range the way it was pinned, the handle is destroyed
    inside the scope of the lock guard, and its destructor takes the same lock again. *)
Lemma failed_info_locks_twice `{GdrLib} s g a n h res va page :
  all_syms s -> mtx s = false -> g_handle s = Some g ->
  gdr_pin_buffer (log s) g a n = (0, h) ->
  gdr_get_info (log s ++ [CPin g a n 0 h]) g h = (res, (va, page)) ->
  res <> 0 \/ va <> a \/ page <> GPU_PAGE -> (pin_buffer g a n s).1 = Err Undefined.
Proof.
  intros Hs Hm Hg Hp Hi Hbad. unfold pin_buffer. erewrite sbind_ok by (by apply check_sym_ok).
  unfold guarded. erewrite sbind_ok by (unfold lock; by rewrite Hm). unfold scoped, sbind at 1, on_unwind at 1.
  erewrite sbind_ok by done. cbn [log set_mtx]. rewrite Hp. erewrite sbind_ok by done. erewrite sbind_ok by done.
  unfold on_unwind. erewrite sbind_ok by (by apply check_sym_ok). erewrite sbind_ok by done. cbn [log add_call set_mtx]. rewrite Hi.
  erewrite sbind_ok by done. set (s1 := add_call (CInfo g h res) _).
  assert (Hd : destroy_pin h s1 = (Err Undefined, s1)).
  { unfold destroy_pin. erewrite sbind_ok by (unfold gets; cbn; by rewrite Hg). unfold unpin_buffer.
    erewrite sbind_ok by done. by rewrite has_sym. }
  destruct (Z.eqb_spec res 0) as [->|]; cbn [gdr_check].
  2: { unfold sbind, lift; cbn [is_exception]; by rewrite Hd. }
  erewrite sbind_ok by done. assert ((va =? a) && (page =? GPU_PAGE) = false) as ->.
  { apply andb_false_iff. destruct Hbad as [|[|]]; [done|left; by apply Z.eqb_neq|right; by apply Z.eqb_neq]. }
  unfold gdr_check, sbind, lift. cbn [is_exception]. by rewrite Hd.
Qed.

(** ** Example *)
Definition held (l : list GdrCall) : gmap Z Z :=
  match replay l (mkDrv None ∅ ∅) with Some d => pinned d | None => ∅ end.

Definition sample_gdr : GdrLib := {|
  dlopen_gdrapi := true;
  dlsym _ := true;
  gdr_open _ := Some 1;
  gdr_pin_buffer l _ _ _ := (0, fresh (dom (held l)));
  gdr_get_info l _ h := (0, (default 0 (held l !! h), GPU_PAGE));
  gdr_map_ l _ _ n := if n =? GPU_PAGE then (0, 2 ^ 40) else (1, 0);
  gdr_runtime_version := (2, 4);
  gdr_driver_version _ := (2, 4);
|}.

Lemma sample_gdr_laws : @GdrLaws sample_gdr.
Proof.
  split; [| |done].
  - intros l d g a n h Hd [= <-]. unfold held. rewrite Hd. apply not_elem_of_dom, is_fresh.
  - intros l d g h a Hd Ha. cbn. unfold held. by rewrite Hd, Ha.
Qed.

(** Three tensors are asked for, the middle one cannot be mapped; both mappings are dropped. *)
Definition sample_ops : list Op := [Mmap 65636 50; Mmap 100 70000; Mmap 400000 10; Drop 0; Drop 0].
Definition sample_env : Env := {|
  ndebug := true; env_bf162fp8_conversion := false; env_pad_last_attn_block := false; env_cache_shape := 0 |}.

Lemma mappings_own_what_is_pinned_witness :
  exists s s', @do_ops sample_env sample_gdr sample_ops [] start = (Ok [], s) /\ length (log s) = 15%nat /\
    destroy_g_handle s = (Ok tt, s') /\ replays (log s') (mkDrv None ∅ ∅).
Proof.
  destruct (@mappings_own_what_is_pinned sample_env sample_gdr sample_gdr_laws sample_ops)
    as (live & s & d & Hr & _ & _ & _ & _ & _ & _ & Hx).
  assert (Hl : (@do_ops sample_env sample_gdr sample_ops [] start).1 = Ok [] /\
    length (log (@do_ops sample_env sample_gdr sample_ops [] start).2) = 15%nat) by (split; vm_compute; reflexivity).
  rewrite Hr in Hl. cbn [fst snd] in Hl. destruct Hl as [[= ->] Hl]. destruct (Hx eq_refl) as (s' & Hs & Hrep).
  exists s, s'. auto.
Defined.
