(* ===== verification/Startup.v ===== *)
(** Starting a process: the three servers ([RDMAServer], [TCPServer], [RDMAStagedServer]:
    [start_server]), [create_transfer_server] of [src/server.cpp], [KvTransferClient::create]
    of [src/client.cpp] and the initialisation functions of [kvtransfer_pybind.cpp].

    The buffers that the servers allocate ahead of time on their worker threads and the
    monitor are left out. *)

From Stdlib Require Import Ascii.
From stdpp Require Import gmap.
From S2P Require Import Prelude.
From S2P Require Import StateM.
From S2P Require Import Common.
From S2P Require Import CppString.
From S2P Require Import WorkerCodec.
From S2P Require Import EnvCfg.
From S2P Require Import Step.
From S2P Require Import Channel.
From S2P Require Import CopyKernel.
From S2P Require Import TcpWire.
From S2P Require Import Rdma.
From S2P Require Import StagedServer.
From S2P Require Import Context.

#[local] Arguments String.append !_ _ / : simpl nomatch.

(** ** Servers *)
Inductive ServerKind := KRDMA | KStaged | KTCP.

Inductive Server :=
| RDMAServer (handles : list RDMAMemHandle) (ip : string) (port : Z)
| StagedServer (handles : list RDMAMemHandle) (s : RDMAStagedServer) (ip : string) (port : Z)
| TCPServer (info : TCPInfo) (num_layers : Z) (ip : string) (port : Z).

Section Startup.
Context `{Env} `{Node}.

Definition INET_ADDRSTRLEN : nat := 16.

(** [get_ip] into a buffer of [INET_ADDRSTRLEN] characters. *)
Definition get_ip : res string :=
  match getenv "VLLM_HOST_IP" with
  | None | Some "" => match outward_ip with Some ip => Ok ip | None => Err AssertFailed end
  | Some vllm_host_ip => Ok (String.substring 0 (INET_ADDRSTRLEN - 1) vllm_host_ip)
  end.

(** Address and port of the server, written to the worker record; [bad] is how a port that
    is not positive is reported. *)
Definition publish_endpoint (bad : cpp_err) : M (string * Z) :=
  let! ip := lift get_ip in
  let! base := lift (env_port_base getenv) in
  let! ctx := gets the_ctx in
  let port := to_i32 (u32 (base + worker_id (worker_info_ ctx))) in
  let! _ := lift (if 0 <? port then Ok tt else Err bad) in
  let! _ := update_ctx (fun c => set_worker (with_addr (ip +:+ String ":" (dec port)) (worker_info_ c)) c) in
  sret (ip, port).

Definition open_listener (port : Z) : res unit :=
  let* n := env_conn_tpsize getenv in
  let* _ := rtassert (new_listener n port) in
  rtassert (listen_ok port).

(** [get_protocol_ctx<BarexProtoContext>(proto)->barex_ctx()]. *)
Definition server_barex_ctx (k : Kind) (ctx : Context) : res BarexCtx :=
  match protocol_ctxs_ ctx !! k with
  | None => Err RuntimeError
  | Some b => if bx_is_server b then Ok b else Err Undefined
  end.

Definition rkey_of (mr : memp_t) : res Z :=
  match m_keys mr with Some (_, rkey) => Ok rkey | None => Err Undefined end.

(** The handle of one layer: arrays of [MAX_CACHE_NUM_PER_LAYER] entries, filled from the left. *)
Definition layer_handle (b : BarexCtx) (layer_ptr : list (list Z)) (layer_idx : Z) : res RDMAMemHandle :=
  let* mrs := vec_idx (bx_layer_mrs b) layer_idx in
  let* ptrs := vec_idx layer_ptr layer_idx in
  let* _ := rtassert (vsize ptrs <=? MAX_CACHE_NUM_PER_LAYER) in
  let* _ := rtassert (vsize ptrs =? vsize mrs) in
  let* rkeys := mapR rkey_of mrs in
  Ok (mkHandle (vec_resize 0 MAX_CACHE_NUM_PER_LAYER ptrs) (vec_resize 0 MAX_CACHE_NUM_PER_LAYER rkeys)).

Definition layer_handles (b : BarexCtx) (layer_ptr : list (list Z)) : res (list RDMAMemHandle) :=
  let* handles := mapR (layer_handle b layer_ptr) (seqZ 0 (vsize layer_ptr)) in
  let* _ := rtassert (vsize handles =? vsize layer_ptr) in
  Ok handles.

(** [RDMAServer::start_server]. *)
Definition start_rdma : M Server :=
  if negb (check_support RDMA_DIRECT) then lift (Err RuntimeError) else
  let! _ := register_protocol "KVTServer" true RDMA_DIRECT in
  let! ctx := gets the_ctx in
  let! barex_ctx := lift (server_barex_ctx RDMA_DIRECT ctx) in
  let! handles := lift (layer_handles barex_ctx (layer_data_address_ ctx)) in
  let! e := publish_endpoint AssertFailed in
  let! _ := lift (open_listener e.2) in
  sret (RDMAServer handles e.1 e.2).

(** [TCPServer::start_server]. *)
Definition start_tcp : M Server :=
  if negb (check_support TCP) then lift (Err RuntimeError) else
  let! _ := register_protocol "KVTServer" true TCP in
  let! ctx := gets the_ctx in
  let winfo := worker_info_ ctx in
  let sizes := (fun block_size => u64 (block_size * layer_num_blocks winfo)) <$> block_sizes winfo in
  let! _ := lift (server_barex_ctx TCP ctx) in
  let! ptrs := lift (mapR (fun tensor_ptrs =>
    let* _ := rtassert (vsize tensor_ptrs <=? MAX_CACHE_NUM_PER_LAYER) in Ok tensor_ptrs)
    (layer_data_address_ ctx)) in
  let! e := publish_endpoint RuntimeError in
  let! _ := lift (open_listener e.2) in
  sret (TCPServer (mkTCPInfo ptrs sizes) (num_layers winfo) e.1 e.2).

(** [RDMAStagedServer::start_server]. *)
Definition start_staged : M Server :=
  if negb (check_support RDMA_DIRECT) then lift (Err RuntimeError) else
  let! _ := register_protocol "KVTServer" true RDMA_DIRECT in
  let! ctx := gets the_ctx in
  let winfo := worker_info_ ctx in
  let! _ := lift (rtassert (vsize (block_sizes winfo) =? 1)) in
  let! block_size := lift (vec_idx (block_sizes winfo) 0) in
  let layer_blk_size := u64 (block_size * layer_num_blocks winfo) in
  let! barex_ctx := lift (server_barex_ctx RDMA_DIRECT ctx) in
  let! handles := lift (layer_handles barex_ctx (layer_data_address_ ctx)) in
  let! gpu_ptrs := lift (mapR (fun tensor_ptrs =>
    match tensor_ptrs with [] => Err AssertFailed | p :: _ => Ok p end) (layer_data_address_ ctx)) in
  let! e := publish_endpoint AssertFailed in
  let! _ := lift (open_listener e.2) in
  sret (StagedServer handles (mkStagedServer gpu_ptrs layer_blk_size ∅ ∅) e.1 e.2).

(** [create_transfer_server]: the kind of server, not started yet. *)
Definition create_transfer_server (k : Kind) : res ServerKind :=
  match k with
  | TCP => Ok KTCP
  | RDMA_DIRECT => let* staged := EnvCfg.env_rdma_staged getenv in Ok (if staged then KStaged else KRDMA)
  end.

Definition start_server (k : ServerKind) : M Server :=
  match k with KRDMA => start_rdma | KStaged => start_staged | KTCP => start_tcp end.

(** ** Clients *)

(** [KvTransferClient::create], which registers the protocols of the context. *)
Definition client_create (protocols : list Kind) : M unit :=
  match protocols with
  | [] =>
      let! _ := if check_support RDMA_DIRECT then register_protocol "KVTClient" false RDMA_DIRECT else sret tt in
      let! ctx := gets the_ctx in
      lift (match as_vector (transfer_protos_ ctx) with [] => Err RuntimeError | _ => Ok tt end)
  | _ => let! _ := smap (register_protocol "KVTClient" false) protocols in sret tt
  end.

(** What [create_channel] reads of a context. *)
Definition channel_env (staged : bool) (c : Context) : ChannelEnv :=
  mkChannelEnv true staged (transfer_protos_ c) (fun k => bool_decide (is_Some (protocol_ctxs_ c !! k))).

(** ** Initialisation *)
Inductive ServerState := Created (k : ServerKind) | Started (s : Server).

(** The globals of the process. *)
Record Globals := mkGlobals {
  KV_CLIENT : option Context;
  KV_SERVER : option ServerState;
  KV_SERVER_CTX : option Context;
  g_mp_map : gmap Z GPUCtx;
  g_mr_count : Z;
}.

Definition publish_protocols (c : Context) : Context :=
  set_worker (with_protocols (transfer_protos_ c) (worker_info_ c)) c.

(** [create_transfer_server(p)] and [start_server] on a fresh context: the outcome, the server
    made, the world. *)
Definition make_server (p : Kind) (w : World) : res Server * option ServerKind * World :=
  match create_transfer_server p with
  | Err e => (Err e, None, w)
  | Ok k => let '(r, w) := start_server k w in (r, Some k, w)
  end.

Definition init_kv_transfer_server (a : CreateArgs) (protocols : list Kind) (g : Globals) : res unit * Globals :=
  match KV_SERVER g with
  | Some _ => (Ok tt, g)
  | None =>
      match create_context a with
      | Err e => (Err e, g)
      | Ok context =>
          if 1 <? vsize protocols then (Err RuntimeError, g) else
          let w := mkWorld context (g_mp_map g) (g_mr_count g) in
          let left srv w := mkGlobals (KV_CLIENT g) srv (Some (the_ctx w)) (mp_map w) (mr_count w) in
          match protocols with
          | [] =>
              let supported := get_library_support_protocols true in
              let p := if is_support supported RDMA_DIRECT then RDMA_DIRECT else TCP in
              match make_server p w with
              | (Ok s, _, w) =>
                  (Ok tt, left (Some (Started s)) (mkWorld (publish_protocols (the_ctx w)) (mp_map w) (mr_count w)))
              | (Err e, _, w) => (Err (if is_exception e then RuntimeError else e), left None w)
              end
          | p :: _ =>
              match make_server p w with
              | (Ok s, _, w) =>
                  (Ok tt, left (Some (Started s)) (mkWorld (publish_protocols (the_ctx w)) (mp_map w) (mr_count w)))
              | (Err e, k, w) => (Err e, left (Created <$> k) w)
              end
          end
      end
  end.

(** [naming] is the outcome of connecting to the naming service. *)
Definition init_kv_transfer_client (a : CreateArgs) (events : list Z) (naming : res unit)
    (protocols : list Kind) (g : Globals) : res unit * Globals :=
  match KV_CLIENT g with
  | Some _ => (Ok tt, g)
  | None =>
      match (let* context := create_context a in
             let* context := set_cuda_barrier (Some (CudaEventBarrier (vsize events))) context in
             let* _ := naming in Ok context) with
      | Err e => (Err e, g)
      | Ok context =>
          let '(r, w) := client_create protocols (mkWorld context (g_mp_map g) (g_mr_count g)) in
          let client := match r with Ok _ => Some (publish_protocols (the_ctx w)) | Err _ => None end in
          (r, mkGlobals client (KV_SERVER g) (KV_SERVER_CTX g) (mp_map w) (mr_count w))
      end
  end.

(** Which side's record is asked for; [None] is the empty text. *)
Inductive InfoKind := KClient | KServer | KAny.
Definition current_worker_info (kind : InfoKind) (g : Globals) : option (res string) :=
  let ctx := match kind with
             | KClient => KV_CLIENT g
             | KServer => KV_SERVER_CTX g
             | KAny => match KV_CLIENT g with Some c => Some c | None => KV_SERVER_CTX g end
             end in
  (fun c => to_string (worker_info_ c)) <$> ctx.

Definition new_globals : Globals := mkGlobals None None None ∅ 0.

(** ** Every context the process holds is well formed *)

Definition keeps {A} (m : M A) : Prop := forall w, wf_context (the_ctx w) -> wf_context (the_ctx (m w).2).

Lemma keeps_quiet {A} (m : M A) : quiet m -> keeps m.
Proof. intros Hm w. by rewrite Hm. Qed.

Lemma ctx_keeps_bind {A B} (m : M A) (f : A -> M B) : keeps m -> (forall a, keeps (f a)) -> keeps (sbind m f).
Proof.
  intros Hm Hf w Hw. unfold sbind. specialize (Hm w Hw). destruct (m w) as [[a|e] w1]; [|done]. by apply Hf.
Qed.

Lemma keeps_map {A B} (f : A -> M B) l : (forall a, keeps (f a)) -> keeps (smap f l).
Proof.
  intros Hf. induction l as [|x l IH]; [by apply keeps_quiet|]. cbn [smap].
  apply ctx_keeps_bind; [done|]. intros y. apply ctx_keeps_bind; [done|]. intros ys. by apply keeps_quiet.
Qed.

Lemma keeps_register name srv k : keeps (register_protocol name srv k).
Proof. intros w. apply wf_register_protocol. Qed.

Lemma keeps_update f : (forall c, wf_context c -> wf_context (f c)) -> keeps (update_ctx f).
Proof. intros Hf w. apply Hf. Qed.

Lemma ctx_keeps_lift {A} (r : res A) : keeps (lift r).
Proof. apply keeps_quiet, quiet_lift. Qed.
Lemma keeps_gets {A} (f : World -> A) : keeps (gets f).
Proof. apply keeps_quiet, quiet_gets. Qed.
Lemma ctx_keeps_ret {A} (a : A) : keeps (sret a).
Proof. apply keeps_quiet, quiet_ret. Qed.

Create HintDb keeps_db.
Hint Resolve keeps_register ctx_keeps_lift keeps_gets ctx_keeps_ret keeps_map keeps_update wf_set_address : keeps_db.

Ltac keeps_step := repeat (apply ctx_keeps_bind; [auto with keeps_db|intros ?]); auto with keeps_db.

Lemma keeps_endpoint bad : keeps (publish_endpoint bad).
Proof. unfold publish_endpoint. keeps_step. Qed.
Hint Resolve keeps_endpoint : keeps_db.

Lemma keeps_start_server k : keeps (start_server k).
Proof.
  destruct k; cbn [start_server]; unfold start_rdma, start_tcp, start_staged;
    (destruct (negb _); [apply ctx_keeps_lift|]); keeps_step.
Qed.

Lemma keeps_client_create protocols : keeps (client_create protocols).
Proof.
  destruct protocols; cbn [client_create]; [|keeps_step].
  apply ctx_keeps_bind; [destruct (check_support _); auto with keeps_db|intros ?]. keeps_step.
Qed.

(** What holds of the globals; the record of a client, and of a server that was started,
    names its protocols. *)
Definition published (c : Context) : Prop := transfer_protocols (worker_info_ c) = transfer_protos_ c.

Record wf_globals (g : Globals) : Prop := {
  wg_client c : KV_CLIENT g = Some c -> wf_context c /\ published c;
  wg_server c : KV_SERVER_CTX g = Some c -> wf_context c;
  wg_started s : KV_SERVER g = Some (Started s) -> exists c, KV_SERVER_CTX g = Some c /\ published c;
}.

Lemma make_server_wf p w : wf_context (the_ctx w) -> wf_context (the_ctx (make_server p w).2).
Proof.
  intros Hw. unfold make_server. destruct (create_transfer_server p) as [k|]; [|done].
  pose proof (keeps_start_server k w Hw) as Hk. by destruct (start_server k w).
Qed.

Lemma init_server_wf a protocols g :
  typed_args a -> wf_globals g -> wf_globals (init_kv_transfer_server a protocols g).2.
Proof.
  intros Ha Hg. unfold init_kv_transfer_server. destruct (KV_SERVER g); [done|].
  destruct (create_context a) as [c|] eqn:Hc; [|done]. apply create_context_created in Hc as [Hwf]; [|done].
  destruct (1 <? vsize protocols); [done|]. cbv zeta.
  pose proof (fun p => make_server_wf p (mkWorld c (g_mp_map g) (g_mr_count g)) Hwf) as Hw.
  destruct Hg as [Hcl _ _].
  destruct protocols as [|p0 ps];
    match goal with |- context [make_server ?p _] => specialize (Hw p) end;
    (destruct (make_server _ _) as [[[s|e] k] w]; cbn [snd] in Hw |- *; constructor; cbn; try done);
    try (intros c' [= <-]; try done; by apply wf_publish); try (intros s' [= <-]; eexists; by split).
  by destruct k.
Qed.

Lemma init_client_wf a events naming protocols g :
  typed_args a -> wf_globals g -> wf_globals (init_kv_transfer_client a events naming protocols g).2.
Proof.
  intros Ha Hg. unfold init_kv_transfer_client. destruct (KV_CLIENT g); [done|].
  destruct (create_context a) as [c|] eqn:Hc; [|done]. apply create_context_created in Hc as [Hwf]; [|done].
  cbn [rbind set_cuda_barrier]. destruct naming; [|done]. cbn [rbind].
  match goal with |- context [client_create _ ?w0] => pose proof (keeps_client_create protocols w0) as Hw end.
  destruct (client_create _ _) as [r w]. cbn [snd the_ctx] in Hw.
  destruct Hg as [_ Hs Hst]. constructor; cbn; [|done|done].
  intros c'. destruct r; [|done]. intros [= <-]. split; [|done]. apply wf_publish, Hw. by destruct Hwf.
Qed.

(** The calls of the embedding program. *)
Inductive init_call :=
| InitServer (a : CreateArgs) (protocols : list Kind)
| InitClient (a : CreateArgs) (events : list Z) (naming : res unit) (protocols : list Kind).

Definition args_of (c : init_call) : CreateArgs :=
  match c with InitServer a _ | InitClient a _ _ _ => a end.

Definition run_init (g : Globals) (c : init_call) : Globals :=
  match c with
  | InitServer a protocols => (init_kv_transfer_server a protocols g).2
  | InitClient a events naming protocols => (init_kv_transfer_client a events naming protocols g).2
  end.

Lemma init_calls_wf calls g :
  Forall (fun c => typed_args (args_of c)) calls -> wf_globals g -> wf_globals (foldl run_init g calls).
Proof.
  intros Hc. revert g. induction Hc as [|c calls Hc _ IH]; intros g Hg; [done|]. apply IH.
  destruct c; [by apply init_server_wf|by apply init_client_wf].
Qed.

Lemma wf_new_globals : wf_globals new_globals.
Proof. by constructor. Qed.

(** ** What a started server shows of its caches *)

(** A handle names the tensors of a layer and the keys of the regions [mrs] registered for
    them. *)
Definition handle_serves (layer : list LayerInfo) (mrs : list memp_t) (h : RDMAMemHandle) : Prop :=
  vsize layer <= MAX_CACHE_NUM_PER_LAYER /\ (Forall in64 (layer_addr <$> layer) -> handle_ok h) /\
  forall j info mr, layer !! j = Some info -> mrs !! j = Some mr -> exists lkey rkey,
    m_keys mr = Some (lkey, rkey) /\ h_ptrs h !! j = Some (layer_addr info) /\ h_rkeys h !! j = Some rkey.

(** The regions of the tensors are registered in the server's protocol context [b], and the
    handles name them. *)
Definition mrs_cover (c : Context) (b : BarexCtx) : Prop :=
  protocol_ctxs_ c !! RDMA_DIRECT = Some b /\
  Forall2 (Forall2 (covers RDMA_DIRECT (device_id_ c) (layer_num_blocks (worker_info_ c))))
    (all_layer_infos_ c) (bx_layer_mrs b).

Definition handles_serve (c : Context) (handles : list RDMAMemHandle) : Prop :=
  exists b, mrs_cover c b /\
    Forall2 (fun lm h => handle_serves lm.1 lm.2 h) (zip (all_layer_infos_ c) (bx_layer_mrs b)) handles.

(** What the memory a server gives access to has to do with the caches of its context. *)
Definition exposes (s : Server) (c : Context) : Prop :=
  match s with
  | RDMAServer handles _ _ => handles_serve c handles
  | TCPServer info n _ _ =>
      vsize (ptrs info) = vsize (all_layer_infos_ c) /\ n = num_layers (worker_info_ c) /\
      forall a, tcp_region info a <-> cache_region c a
  | StagedServer handles srv _ _ => handles_serve c handles /\ forall a, staged_region srv a <-> cache_region c a
  end.

Definition endpoint (s : Server) : string * Z :=
  match s with RDMAServer _ ip port | StagedServer _ _ ip port | TCPServer _ _ ip port => (ip, port) end.

Definition endpoint_text (e : string * Z) : string := e.1 +:+ String ":" (dec e.2).

Lemma endpoint_inv bad w e w' :
  publish_endpoint bad w = (Ok e, w') ->
  get_ip = Ok e.1 /\ 0 < e.2 < 2 ^ 31 /\
  the_ctx w' = set_worker (with_addr (endpoint_text e) (worker_info_ (the_ctx w))) (the_ctx w).
Proof.
  unfold publish_endpoint. intros Hr. apply sbind_inv in Hr as (ip & w1 & [= Hip <-] & Hr).
  apply sbind_inv in Hr as (base & w1 & [= Hb <-] & Hr). apply sbind_inv in Hr as (ctx & w1 & [= <- <-] & Hr).
  cbv zeta in Hr. set (port := to_i32 _) in Hr. apply sbind_inv in Hr as (? & w1 & [= Hp <-] & Hr).
  apply sbind_inv in Hr as (? & w1 & [= _ <-] & [= <- <-]). split_and!; [exact Hip| | |reflexivity]; cbn [snd].
  - destruct (Z.ltb_spec 0 port); [done|done].
  - unfold port, to_i32, u32. pose proof (Z.mod_pos_bound (base + worker_id (worker_info_ (the_ctx w))) W32).
    unfold W32 in *. destruct (Z.ltb_spec ((base + worker_id (worker_info_ (the_ctx w))) mod 2 ^ 32) (2 ^ 31)); lia.
Qed.

(** The context after [start_server]: one protocol more, and an address. *)
Definition opened (k : Kind) (b : BarexCtx) (e : string * Z) (c : Context) : Context :=
  set_worker (with_addr (endpoint_text e) (worker_info_ c)) (add_protocol k b c).

Lemma registered a k w w' :
  created a (the_ctx w) -> register_protocol "KVTServer" true k w = (Ok tt, w') ->
  exists b, server_barex_ctx k (the_ctx w') = Ok b /\ the_ctx w' = add_protocol k b (the_ctx w) /\
    protocol_ctxs_ (the_ctx w') !! k = Some b /\
    Forall2 (Forall2 (covers k (device_id_ (the_ctx w)) (layer_num_blocks (worker_info_ (the_ctx w)))))
      (all_layer_infos_ (the_ctx w)) (bx_layer_mrs b).
Proof.
  intros Hc Hr. apply register_protocol_inv in Hr as (b & w1 & Hi & Hw & Hk).
  2: { rewrite (cr_protocols _ _ Hc). apply lookup_empty. }
  unfold proto_init in Hi. apply sbind_inv in Hi as (n & w2 & [= _ <-] & Hi).
  apply make_BarexCtx_mrs in Hi as (Hs & _ & Hm). exists b. split_and!; [|done|done|done].
  unfold server_barex_ctx. by rewrite Hk, Hs.
Qed.

Lemma layer_handle_serves k gpu n b layers i h :
  Forall2 (Forall2 (covers k gpu n)) layers (bx_layer_mrs b) ->
  layer_handle b ((fun l : list LayerInfo => layer_addr <$> l) <$> layers) (Z.of_nat i) = Ok h ->
  exists layer mrs, layers !! i = Some layer /\ bx_layer_mrs b !! i = Some mrs /\ handle_serves layer mrs h.
Proof.
  intros Hm Hr. unfold layer_handle in Hr. apply rbind_inv in Hr as (mrs & Hmrs%vec_idx_inv & Hr).
  apply rbind_inv in Hr as (ps & Hps%vec_idx_inv & Hr). apply rbind_inv in Hr as (? & Hle%rtassert_inv & Hr).
  apply rbind_inv in Hr as (? & _ & Hr). apply rbind_inv in Hr as (rkeys & Hk%mapR_inv & [= <-]).
  rewrite list_lookup_fmap in Hps. destruct (layers !! i) as [layer|] eqn:Hl; [|done]. injection Hps as <-.
  exists layer, mrs. split; [done|]. split; [done|]. apply Z.leb_le in Hle. unfold vsize in Hle. rewrite length_fmap in Hle.
  pose proof (Forall2_lookup_lr _ _ _ _ _ _ Hm Hl Hmrs) as Hcov. split; [done|]. split.
  { intros Hin. unfold handle_ok, vsize, vec_resize. cbn. rewrite !length_resize. split_and!; [done|done| |].
    - by apply Forall_resize.
    - apply Forall_resize; [done|]. apply Forall_lookup. intros j rkey Hj.
      destruct (Forall2_lookup_r _ _ _ _ _ Hk Hj) as (mr & Hmr & Hk').
      destruct (Forall2_lookup_r _ _ _ _ _ Hcov Hmr) as (info & _ & _ & _ & Ht & _).
      unfold rkey_of in Hk'. destruct (m_keys mr) as [[lk rk]|] eqn:E; [|done]. injection Hk' as <-. by eapply Ht. }
  intros j info mr Hj Hmr. destruct (Forall2_lookup_l _ _ _ _ _ Hk Hmr) as (rkey & Hrk & Hk').
  assert (exists lkey, m_keys mr = Some (lkey, rkey)) as [lkey Hkeys].
  { unfold rkey_of in Hk'. destruct (m_keys mr) as [[lk rk]|]; [|done]. injection Hk' as ->. by exists lk. }
  exists lkey, rkey. split_and!; [done| |]; cbn; unfold vec_resize.
  all: pose proof (lookup_lt_Some _ _ _ Hj); pose proof (Forall2_length _ _ _ Hcov); pose proof (Forall2_length _ _ _ Hk).
  - rewrite lookup_resize by (unfold MAX_CACHE_NUM_PER_LAYER in *; rewrite ?length_fmap; lia).
    by rewrite list_lookup_fmap, Hj.
  - by rewrite lookup_resize by (unfold MAX_CACHE_NUM_PER_LAYER in *; lia).
Qed.

Lemma layer_handles_serve k gpu n b layers handles :
  Forall2 (Forall2 (covers k gpu n)) layers (bx_layer_mrs b) ->
  layer_handles b ((fun l : list LayerInfo => layer_addr <$> l) <$> layers) = Ok handles ->
  Forall2 (fun lm h => handle_serves lm.1 lm.2 h) (zip layers (bx_layer_mrs b)) handles.
Proof.
  intros Hm Hr. unfold layer_handles in Hr. apply rbind_inv in Hr as (hs & Hh & Hr).
  apply rbind_inv in Hr as (? & _ & [= ->]). apply mapR_inv in Hh. pose proof (Forall2_length _ _ _ Hm) as Hlm.
  apply Forall2_same_length_lookup. split.
  - apply Forall2_length in Hh. rewrite length_seqZ in Hh. unfold vsize in Hh. rewrite length_fmap in Hh.
    rewrite length_zip. lia.
  - intros i [layer mrs] h [Hl Hmrs]%lookup_zip_Some Hi. destruct (Forall2_lookup_r _ _ _ _ _ Hh Hi) as (z & Hz & Hz').
    apply lookup_seqZ in Hz as [-> _]. replace (0 + Z.of_nat i) with (Z.of_nat i) in Hz' by lia. cbn in Hl, Hmrs.
    destruct (layer_handle_serves _ _ _ _ _ _ _ Hm Hz') as (layer' & mrs' & Hl' & Hm' & Hs). by simplify_eq.
Qed.

(** The tensors of a TCP server are the caches of a context whose layers have its sizes. *)
Lemma tcp_region_caches c a :
  wf_context c -> Forall (layer_fits (block_sizes (worker_info_ c))) (all_layer_infos_ c) ->
  tcp_region (mkTCPInfo (layer_data_address_ c)
    ((fun b => u64 (b * layer_num_blocks (worker_info_ c))) <$> block_sizes (worker_info_ c))) a <-> cache_region c a.
Proof.
  intros Hwf Hfit. rewrite (wc_addresses _ Hwf). unfold tcp_region, cache_region. cbn. split.
  - intros (i & ps & j & base & cap & Hi & Hj & Hcap & Ha). rewrite list_lookup_fmap in Hi.
    destruct (all_layer_infos_ c !! i) as [layer|] eqn:Hl; [|done]. injection Hi as <-.
    rewrite list_lookup_fmap in Hj. destruct (layer !! j) as [info|] eqn:Hj'; [|done]. injection Hj as <-.
    pose proof (Forall_lookup_1 _ _ _ _ Hfit Hl j info Hj') as Hb. rewrite list_lookup_fmap, Hb in Hcap.
    injection Hcap as <-. by exists i, layer, j, info.
  - intros (i & layer & j & info & Hl & Hj & Ha).
    pose proof (Forall_lookup_1 _ _ _ _ Hfit Hl j info Hj) as Hb.
    exists i, (layer_addr <$> layer), j, (layer_addr info), (u64 (li_block_size info * layer_num_blocks (worker_info_ c))).
    rewrite !list_lookup_fmap, Hl, Hb, Hj. done.
Qed.

(** With one size there is one tensor per layer. *)
Lemma staged_region_caches c b gpu_ptrs a :
  wf_context c -> Forall (layer_fits (block_sizes (worker_info_ c))) (all_layer_infos_ c) ->
  block_sizes (worker_info_ c) = [b] ->
  mapR (fun tensor_ptrs => match tensor_ptrs with [] => Err AssertFailed | p :: _ => Ok p end)
    (layer_data_address_ c) = Ok gpu_ptrs ->
  staged_region (mkStagedServer gpu_ptrs (u64 (b * layer_num_blocks (worker_info_ c))) ∅ ∅) a <-> cache_region c a.
Proof.
  intros Hwf Hfit Hb Hp%mapR_inv. rewrite (wc_addresses _ Hwf), Forall2_fmap_l in Hp. rewrite Hb in Hfit.
  unfold staged_region, cache_region. cbn. split.
  - intros (i & base & Hi & Ha). destruct (Forall2_lookup_r _ _ _ _ _ Hp Hi) as (layer & Hl & Hbase).
    destruct layer as [|info layer]; [done|]. injection Hbase as <-.
    pose proof (Forall_lookup_1 _ _ _ _ Hfit Hl 0%nat info eq_refl) as [= Hsz].
    exists i, (info :: layer), 0%nat, info. by rewrite <- Hsz.
  - intros (i & layer & j & info & Hl & Hj & Ha). destruct (Forall2_lookup_l _ _ _ _ _ Hp Hl) as (base & Hi & Hbase).
    pose proof (Forall_lookup_1 _ _ _ _ Hfit Hl j info Hj) as Hsz.
    apply list_lookup_singleton_Some in Hsz as [-> Hsz]. destruct layer as [|info' layer]; [done|].
    injection Hj as ->. injection Hbase as <-. exists i, (layer_addr info). by rewrite Hsz.
Qed.

(** A context keeps its tensors and sizes when a server is opened on it. *)
Lemma created_opened a k b e c :
  created a c -> wf_context (opened k b e c) /\
  Forall (layer_fits (block_sizes (worker_info_ (opened k b e c)))) (all_layer_infos_ (opened k b e c)).
Proof.
  intros Hc. split.
  - apply (wf_set_address _ (add_protocol k b c)), wf_add_protocol, (cr_wf _ _ Hc).
  - cbn. rewrite (cr_block_sizes _ _ Hc). apply (cr_fits _ _ Hc).
Qed.

Lemma mapR_id {A} (P : A -> bool) (l ys : list A) :
  mapR (fun x => let* _ := rtassert (P x) in Ok x) l = Ok ys -> ys = l.
Proof.
  intros Hr%mapR_inv. induction Hr as [|x y l ys Hx _ IH]; [done|]. rewrite IH.
  by apply rbind_inv in Hx as (? & _ & [= ->]).
Qed.

(** A server was opened on the context of [w]. *)
Definition opens (w : World) (s : Server) (w' : World) : Prop :=
  exists k b, the_ctx w' = opened k b (endpoint s) (the_ctx w) /\ get_ip = Ok (endpoint s).1 /\
    0 < (endpoint s).2 < 2 ^ 31 /\ exposes s (the_ctx w').

Section Opening.
Context (a : CreateArgs) (w : World) (Hc : created a (the_ctx w)).

Lemma start_rdma_opens s w' : start_rdma w = (Ok s, w') -> opens w s w'.
Proof.
  unfold start_rdma. destruct (negb _); [done|]. intros Hr. pose proof (wc_addresses _ (cr_wf _ _ Hc)) as Haddr.
  apply sbind_inv in Hr as ([] & w1 & Hreg & Hr). destruct (registered _ _ _ _ Hc Hreg) as (b & Hb & Hw1 & Hpb & Hcov).
  apply sbind_inv in Hr as (ctx & w2 & [= <- <-] & Hr).
  apply sbind_inv in Hr as (bx & w2 & [= Hbx <-] & Hr). rewrite Hb in Hbx. injection Hbx as <-.
  apply sbind_inv in Hr as (hs & w2 & [= Hh <-] & Hr). apply sbind_inv in Hr as (e & w2 & He & Hr).
  apply sbind_inv in Hr as ([] & w3 & [= _ <-] & [= <- <-]). apply endpoint_inv in He as (Hip & Hport & Hw2).
  exists RDMA_DIRECT, b. rewrite Hw2, Hw1. destruct e as [ip port].
  split; [done|]; split; [done|]; split; [exact Hport|].
  exists b. rewrite Hw1 in Hpb, Hh. split; [by split|].
  cbn. eapply layer_handles_serve; [done|]. cbn in Hh. rewrite Haddr in Hh. exact Hh.
Qed.

Lemma start_staged_opens s w' : start_staged w = (Ok s, w') -> opens w s w'.
Proof.
  unfold start_staged. destruct (negb _); [done|]. intros Hr. pose proof (wc_addresses _ (cr_wf _ _ Hc)) as Haddr.
  apply sbind_inv in Hr as ([] & w1 & Hreg & Hr). destruct (registered _ _ _ _ Hc Hreg) as (b & Hb & Hw1 & Hpb & Hcov).
  apply sbind_inv in Hr as (ctx & w2 & [= <- <-] & Hr). cbv zeta in Hr.
  apply sbind_inv in Hr as ([] & w2 & [= Hone%rtassert_inv <-] & Hr).
  apply sbind_inv in Hr as (bs & w2 & [= Hbs <-] & Hr).
  apply sbind_inv in Hr as (bx & w2 & [= Hbx <-] & Hr). rewrite Hb in Hbx. injection Hbx as <-.
  apply sbind_inv in Hr as (hs & w2 & [= Hh <-] & Hr). apply sbind_inv in Hr as (gp & w2 & [= Hgp <-] & Hr).
  apply sbind_inv in Hr as (e & w2 & He & Hr). apply sbind_inv in Hr as ([] & w3 & [= _ <-] & [= <- <-]).
  apply endpoint_inv in He as (Hip & Hport & Hw2). exists RDMA_DIRECT, b. rewrite Hw2, Hw1. destruct e as [ip port].
  split; [done|]; split; [done|]; split; [exact Hport|]. rewrite Hw1 in *. cbn in Hh, Hgp, Hone, Hbs. split.
  - exists b. split; [by split|]. cbn. eapply layer_handles_serve; [done|]. rewrite Haddr in Hh. exact Hh.
  - intros x. destruct (created_opened a RDMA_DIRECT b (ip, port) _ Hc) as [Hwf Hfit].
    apply (staged_region_caches (opened RDMA_DIRECT b (ip, port) (the_ctx w))); try done. cbn.
    apply Z.eqb_eq in Hone. apply (vec_idx_inv _ 0) in Hbs.
    destruct (block_sizes _) as [|b0 [|]]; [done| |unfold vsize in Hone; cbn in Hone; lia]. by injection Hbs as ->.
Qed.

Lemma start_tcp_opens s w' : start_tcp w = (Ok s, w') -> opens w s w'.
Proof.
  unfold start_tcp. destruct (negb _); [done|]. intros Hr. pose proof (wc_addresses _ (cr_wf _ _ Hc)) as Haddr.
  apply sbind_inv in Hr as ([] & w1 & Hreg & Hr). destruct (registered _ _ _ _ Hc Hreg) as (b & _ & Hw1 & _ & _).
  apply sbind_inv in Hr as (ctx & w2 & [= <- <-] & Hr). cbv zeta in Hr.
  apply sbind_inv in Hr as (bx & w2 & [= _ <-] & Hr).
  apply sbind_inv in Hr as (ps & w2 & [= Hps%mapR_id <-] & Hr). apply sbind_inv in Hr as (e & w2 & He & Hr).
  apply sbind_inv in Hr as ([] & w3 & [= _ <-] & [= <- <-]). apply endpoint_inv in He as (Hip & Hport & Hw2).
  exists TCP, b. rewrite Hw2, Hw1. destruct e as [ip port].
  split; [done|]; split; [done|]; split; [exact Hport|]. rewrite Hw1 in *. cbn in Hps. subst ps. split_and!; cbn.
  - rewrite Haddr. unfold vsize. by rewrite length_fmap.
  - done.
  - intros x. destruct (created_opened a TCP b (ip, port) _ Hc) as [Hwf Hfit].
    exact (tcp_region_caches (opened TCP b (ip, port) (the_ctx w)) x Hwf Hfit).
Qed.

Lemma start_server_opens k s w' : start_server k w = (Ok s, w') -> opens w s w'.
Proof. destruct k; [apply start_rdma_opens|apply start_staged_opens|apply start_tcp_opens]. Qed.

End Opening.

(** What a successful initialisation of a server leaves behind. *)
Record started (a : CreateArgs) (s : Server) (c : Context) : Prop := {
  st_wf : wf_context c;
  st_published : published c;
  st_exposes : exposes s c;
  st_ip : get_ip = Ok (endpoint s).1;
  st_port : 0 < (endpoint s).2 < 2 ^ 31;
  st_addr : addr (worker_info_ c) = endpoint_text (endpoint s);
  st_inst : inst_id (worker_info_ c) = a_inst_name a;
  st_block_sizes : block_sizes (worker_info_ c) = a_block_sizes a;
  st_device : 0 <= device_id_ c;
  st_addresses : layer_data_address_ c = a_layers a;
  st_fits : Forall (layer_fits (block_sizes (worker_info_ c))) (all_layer_infos_ c);
}.

Lemma exposes_publish s c : exposes s c -> exposes s (publish_protocols c).
Proof. by destruct s. Qed.

Lemma init_server_started a protocols g g' :
  typed_args a -> KV_SERVER g = None -> init_kv_transfer_server a protocols g = (Ok tt, g') ->
  exists s c, KV_SERVER g' = Some (Started s) /\ KV_SERVER_CTX g' = Some c /\ started a s c.
Proof.
  intros Ha Hs Hr. unfold init_kv_transfer_server in Hr. rewrite Hs in Hr.
  destruct (create_context a) as [c0|] eqn:Hc; [|done]. apply create_context_created in Hc; [|done].
  destruct (1 <? vsize protocols); [done|]. cbv zeta in Hr.
  assert (exists p k s w', make_server p (mkWorld c0 (g_mp_map g) (g_mr_count g)) = (Ok s, k, w') /\
    KV_SERVER g' = Some (Started s) /\ KV_SERVER_CTX g' = Some (publish_protocols (the_ctx w')))
    as (p & k & s & w' & Hm & HS & HC).
  { destruct protocols as [|p ps];
      match type of Hr with context [make_server ?p ?w] => destruct (make_server p w) as [[[s|e] k] w'] eqn:Hm end;
      try done; injection Hr as <-; eauto 10. }
  unfold make_server in Hm. destruct (create_transfer_server p) as [k'|]; [|done].
  destruct (start_server k' _) as [r w1] eqn:Hst. injection Hm as -> _ ->.
  destruct (start_server_opens a (mkWorld c0 (g_mp_map g) (g_mr_count g)) Hc _ _ _ Hst) as (kd & b & Hw' & Hip & Hport & Hex).
  exists s, (publish_protocols (the_ctx w')). split_and!; [done|done|].
  destruct (created_opened a kd b (endpoint s) _ Hc) as [Hwf Hfit]. cbn [the_ctx] in Hw'.
  rewrite Hw' in *. constructor; try done; cbn; try apply Hc.
  - by apply wf_publish.
  - rewrite (cr_device _ _ Hc). apply Z.mod_pos_bound. lia.
Qed.

Lemma handles_serve_ok c handles :
  wf_context c -> Forall (Forall in64) (layer_data_address_ c) -> handles_serve c handles -> Forall handle_ok handles.
Proof.
  intros Hwf Hin (b & _ & Hex). apply Forall_lookup. intros i h Hh.
  destruct (Forall2_lookup_r _ _ _ _ _ Hex Hh) as ([layer mrs] & [Hly _]%lookup_zip_Some & _ & Hok & _). cbn in Hly.
  apply Hok, (Forall_lookup_1 _ _ i _ Hin). rewrite (wc_addresses _ Hwf), list_lookup_fmap. by rewrite Hly.
Qed.

(** ** A client reads the record of a server *)

(** The client has as many layers and tensors as the server. *)
Definition same_layout (cli : CliCtx) (d : WorkerInfo) : Prop :=
  vsize (layer_mrs cli) = num_layers d /\
  exists l rest, layer_mrs cli = l :: rest /\ vsize l = vsize (block_sizes d).

Definition sizes_of (d : WorkerInfo) : list Z := (fun b => u64 (layer_num_blocks d * b)) <$> block_sizes d.

Lemma connect_endpoint cli d e :
  addr d = endpoint_text e -> no_char ":"%char e.1 = true -> 0 <= e.2 < 2 ^ 31 -> same_layout cli d ->
  connect cli d new_channel = Ok (set_target e.1 e.2 (sizes_of d) (num_layers d) new_channel).
Proof.
  destruct e as [ip port]. cbn [fst snd]. intros Ha Hip Hport [Hn (l & rest & Hl & Hsz)].
  unfold connect. rewrite Ha. unfold endpoint_text. cbn [fst snd]. rewrite find_hit by done. cbn [rbind].
  change (substr (ip +:+ String ":" (dec port)) 0 (String.length ip))
    with (substr ("" +:+ ip +:+ String ":" (dec port)) (String.length "") (String.length ip)).
  rewrite substr_mid. cbn [rbind].
  assert (Hsub : substr (ip +:+ String ":" (dec port)) (String.length ip + 1)
                   (String.length (ip +:+ String ":" (dec port))) = Ok (dec port)).
  { change (String ":" (dec port)) with (":" +:+ dec port). rewrite <- sapp_assoc, !slength_app.
    change 1%nat with (String.length ":"). rewrite <- slength_app. apply substr_rest. lia. }
  rewrite Hsub. cbn [rbind]. rewrite stoi_dec by done. cbn [rbind]. cbv zeta.
  rewrite cassert_true by (cbn; by apply Z.eqb_eq). cbn [rbind].
  rewrite Hl, cassertM_true; [done|]. f_equal. apply Z.eqb_eq. cbn. unfold vsize in *. rewrite length_fmap. lia.
Qed.

(** ** Protocols of a client *)
Lemma register_supports name srv k w w' :
  wf_context (the_ctx w) -> register_protocol name srv k w = (Ok tt, w') ->
  is_support (transfer_protos_ (the_ctx w')) k = true /\
  forall k', is_support (transfer_protos_ (the_ctx w)) k' = true -> is_support (transfer_protos_ (the_ctx w')) k' = true.
Proof.
  intros Hwf. unfold register_protocol. destruct (negb _); [done|]. intros Hr.
  apply sbind_inv in Hr as (b & w1 & Hi & Hr). apply sbind_inv in Hr as (ctx & w2 & [= <- <-] & Hr).
  apply sbind_inv in Hr as (? & w3 & [= _ <-] & [= <-]).
  pose proof (quiet_rethrow _ (quiet_proto_init name srv k) w) as Hq. rewrite Hi in Hq. cbn [snd] in Hq.
  cbn. rewrite Hq. pose proof (wc_protos _ Hwf). split; [|intros k' Hk']; apply is_support_set; auto.
Qed.

Lemma smap_register_supports name srv ks w r w' :
  wf_context (the_ctx w) -> smap (register_protocol name srv) ks w = (Ok r, w') ->
  Forall (fun k => is_support (transfer_protos_ (the_ctx w')) k = true) ks /\
  forall k, is_support (transfer_protos_ (the_ctx w)) k = true -> is_support (transfer_protos_ (the_ctx w')) k = true.
Proof.
  revert w r. induction ks as [|k ks IH]; intros w r Hwf; cbn [smap]; [by intros [= _ <-]|].
  intros ([] & w1 & Hk & (r' & w2 & Hks & [= _ <-])%sbind_inv)%sbind_inv.
  pose proof (wf_register_protocol name srv k w Hwf) as Hwf1. rewrite Hk in Hwf1.
  destruct (register_supports _ _ _ _ _ Hwf Hk) as [Hk1 Hmono1]. destruct (IH _ _ Hwf1 Hks) as [Hall Hmono].
  split; [constructor; auto|auto].
Qed.

Lemma client_create_supports protocols w w' :
  wf_context (the_ctx w) -> client_create protocols w = (Ok tt, w') ->
  Forall (fun k => is_support (transfer_protos_ (the_ctx w')) k = true) protocols /\
  as_vector (transfer_protos_ (the_ctx w')) <> [].
Proof.
  intros Hwf Hr. destruct protocols as [|k ks]; cbn [client_create] in Hr.
  - split; [constructor|]. apply sbind_inv in Hr as ([] & w1 & _ & Hr).
    apply sbind_inv in Hr as (ctx & w2 & [= <- <-] & [= Hv <-]). intros E. by rewrite E in Hv.
  - apply sbind_inv in Hr as (r & w1 & Hs & [= <-]).
    apply smap_register_supports in Hs as [Hall _]; [|done]. split; [done|].
    apply Forall_cons in Hall as [Hk _]. unfold as_vector. destruct k; rewrite Hk; [by destruct (is_support _ TCP)|done].
Qed.

End Startup.

(** ** Theorems *)

(** C38: Whatever sequence of init_kv_transfer_client and init_kv_transfer_server calls a
    process makes, and whether they succeed or fail: the contexts it keeps are well formed
    (every field in the range of its C++ type, block sizes whole numbers of tokens, the
    layer count and addresses those of the registered layers, a protocol marked exactly when
    its context exists), and a client's and a started server's record lists exactly the
    registered protocols. If the instance name and the address contain no comma and respect
    their length limits, the record can be written and is read back as its serialized
    fields, the local-only ones at their defaults. *)
Theorem process_contexts_are_typed `{Env} `{Node} (calls : list init_call) (c : Context.Context) :
  Forall (fun call => typed_args (args_of call)) calls ->
  let g := foldl run_init new_globals calls in
  KV_CLIENT g = Some c \/ KV_SERVER_CTX g = Some c ->
  wf_context c /\
  (KV_CLIENT g = Some c -> published c) /\
  (forall s, KV_SERVER_CTX g = Some c -> KV_SERVER g = Some (Started s) -> published c) /\
  (no_char ","%char (inst_id (worker_info_ c)) = true -> no_char ","%char (addr (worker_info_ c)) = true ->
   slen (inst_id (worker_info_ c)) <= MAX_INSTANCE_NAME_LEN -> slen (addr (worker_info_ c)) <= MAX_ADDRESS_LEN ->
   exists text, to_string (worker_info_ c) = Ok text /\ from_string text = Ok (wire_view (worker_info_ c))).
Proof.
  intros Hcalls g Hc. destruct (init_calls_wf calls new_globals Hcalls wf_new_globals) as [Hcl Hsrv Hst]. fold g in Hcl, Hsrv, Hst.
  assert (Hwf : wf_context c) by (destruct Hc as [Hc|Hc]; [by apply Hcl|by apply Hsrv]).
  split_and!; [done|intros Hk; by apply Hcl| |].
  - intros s Hk Hs. destruct (Hst s Hs) as (c' & Hc' & Hp). by simplify_eq.
  - intros Hi Ha Hli Hla. destruct Hwf. destruct (worker_text (worker_info_ c)) as (text & Ht & Hf & _); [by constructor|done|done|].
    by exists text.
Qed.

(** When init_kv_transfer_server succeeds, the server's context holds the caller's cache
    addresses and block sizes, the published record carries the address and port the server
    listens on and the registered protocols, and what the started server (RDMA, TCP or
    staged) exposes or writes to is exactly the memory of the registered caches. *)
Theorem started_server_exposes_caches `{Env} `{Node} (a : CreateArgs) (protocols : list Kind) (g g' : Globals) :
  typed_args a -> KV_SERVER g = None -> init_kv_transfer_server a protocols g = (Ok tt, g') ->
  exists s c, KV_SERVER g' = Some (Started s) /\ KV_SERVER_CTX g' = Some c /\
    layer_data_address_ c = a_layers a /\ block_sizes (worker_info_ c) = a_block_sizes a /\
    addr (worker_info_ c) = endpoint_text (endpoint s) /\ published c /\
    match s with
    | RDMAServer handles _ _ => handles_serve c handles
    | TCPServer info n _ _ =>
        vsize (ptrs info) = vsize (all_layer_infos_ c) /\ n = num_layers (worker_info_ c) /\
        forall x, tcp_region info x <-> cache_region c x
    | StagedServer handles srv _ _ => handles_serve c handles /\ forall x, staged_region srv x <-> cache_region c x
    end.
Proof.
  intros Ha Hs Hr. destruct (init_server_started _ _ _ _ Ha Hs Hr) as (s & c & HS & HC & []).
  exists s, c. by split_and!.
Qed.

(** C20: Start-up to connection: when init_kv_transfer_server succeeds over RDMA, a client
    that reads the text of current_worker_info connects to the server's address and port,
    and the server's reply to its memory-handle request is read as the handles of the
    server. For every tensor, the handle holds the tensor's address and the remote key of
    the very memory region that the network card returned when the server registered that
    tensor, which its protocol context keeps at the tensor's place; the region starts at the
    tensor, its length is the block size times the number of blocks (a 64-bit product), and
    the size the client assumes for the tensor is that length. For an instance name without
    a comma, an address without comma and colon, fewer than 2^32 layers, and a client with
    the server's numbers of layers and tensors. *)
Theorem client_learns_server_memory `{Env} `{Node} (a : CreateArgs) (protocols : list Kind) (g g' : Globals)
    (handles : list RDMAMemHandle) (ip : string) (port : Z) (text : string) (cli : CliCtx) (reqid : Z) :
  typed_args a -> KV_SERVER g = None -> init_kv_transfer_server a protocols g = (Ok tt, g') ->
  KV_SERVER g' = Some (Started (RDMAServer handles ip port)) ->
  current_worker_info KServer g' = Some (Ok text) ->
  no_char ","%char (a_inst_name a) = true -> no_char ","%char ip = true -> no_char ":"%char ip = true ->
  in64 reqid -> vsize (a_layers a) < W32 -> vsize (layer_mrs cli) = vsize (a_layers a) ->
  (exists l rest, layer_mrs cli = l :: rest /\ vsize l = vsize (a_block_sizes a)) ->
  exists c b d ch reply,
    KV_SERVER_CTX g' = Some c /\ protocol_ctxs_ c !! RDMA_DIRECT = Some b /\ from_string text = Ok d /\ connect cli d new_channel = Ok ch /\
    ip_ ch = ip /\ port_ ch = port /\ dst_layer_num_ ch = vsize (a_layers a) /\
    resp_mem_handles handles (rpc_header MEM_HANDLES_REQ_MAGIC reqid) = Ok reply /\
    read_mem_handles reqid reply = Ok handles /\
    forall i layer j info, all_layer_infos_ c !! i = Some layer -> layer !! j = Some info ->
      exists h mrs mr n lkey rkey, handles !! i = Some h /\ bx_layer_mrs b !! i = Some mrs /\ mrs !! j = Some mr /\
        reg_user_mr n (layer_addr info) (u64 (li_block_size info * layer_num_blocks (worker_info_ c))) (device_id_ c) = Some mr /\
        m_buf mr = layer_addr info /\ m_len mr = u64 (li_block_size info * layer_num_blocks (worker_info_ c)) /\
        m_keys mr = Some (lkey, rkey) /\ h_ptrs h !! j = Some (layer_addr info) /\ h_rkeys h !! j = Some rkey /\
        dst_layer_blk_sizes_ ch !! j = Some (m_len mr).
Proof.
  intros Ha Hs Hr HS' Htext Hinst Hcomma Hcolon Hreq Hmany Hcli Hlay.
  destruct (init_server_started _ _ _ _ Ha Hs Hr) as (s & c & HS & HC & Hst). rewrite HS in HS'. injection HS' as ->.
  pose proof Hst as [Hwf Hpub Hex Hip Hport Haddr Hi Hbs Hdev Hadr Hfit]. cbn in Hex, Hport.
  unfold current_worker_info in Htext. rewrite HC in Htext. cbn in Htext. injection Htext as Htext.
  destruct (to_string_lengths _ _ Htext) as [Hl1 Hl2].
  destruct (worker_text (worker_info_ c)) as (text' & Ht & Hf & _); [|done|done|].
  { pose proof Hwf as []. constructor; try done; [by rewrite Hi|]. rewrite Haddr. unfold endpoint_text. cbn.
    rewrite no_char_app, Hcomma. cbn. by apply no_char_dec. }
  rewrite Ht in Htext. injection Htext as ->.
  assert (Hn : num_layers (worker_info_ c) = vsize (a_layers a)).
  { rewrite (wc_layers _ Hwf Hdev), <- Hadr, (wc_addresses _ Hwf). rewrite <- Hadr, (wc_addresses _ Hwf) in Hmany.
    unfold vsize in *. rewrite length_fmap in *. apply Z.mod_small. lia. }
  pose proof Hex as (b & [Hpb Hcov] & Hhs). exists c, b, (wire_view (worker_info_ c)).
  exists (set_target ip port (sizes_of (wire_view (worker_info_ c))) (num_layers (worker_info_ c)) new_channel).
  assert (Hok : Forall handle_ok handles) by (eapply handles_serve_ok; [done| |done]; rewrite Hadr; apply Ha).
  destruct (resp_mem_handles handles (rpc_header MEM_HANDLES_REQ_MAGIC reqid)) as [reply|] eqn:Hreply.
  2: { unfold resp_mem_handles in Hreply. by rewrite cassert_true in Hreply by done. }
  exists reply. split_and!; try done.
  - apply (connect_endpoint cli (wire_view (worker_info_ c)) (ip, port)); [done|done|cbn; lia|]. split; [cbn; by rewrite Hn|].
    cbn. by rewrite Hbs.
  - by apply read_mem_handles_spec.
  - intros i layer j info Hly Hj. destruct (Forall2_lookup_l _ _ _ _ _ Hcov Hly) as (mrs & Hmrs & Hcl).
    destruct (Forall2_lookup_l _ _ _ _ _ Hcl Hj) as (mr & Hmr & Hb & Hlen & _ & Hreg).
    destruct (Hreg eq_refl) as [n Hnr].
    assert (zip (all_layer_infos_ c) (bx_layer_mrs b) !! i = Some (layer, mrs)) as Hz by (by apply lookup_zip_Some).
    destruct (Forall2_lookup_l _ _ _ _ _ Hhs Hz)
      as (h & Hh & _ & _ & Hsv). destruct (Hsv j info mr Hj Hmr) as (lkey & rkey & Hrk & Hp & Hk).
    exists h, mrs, mr, n, lkey, rkey. split_and!; try done.
    cbn. unfold sizes_of. cbn. rewrite list_lookup_fmap, (Forall_lookup_1 _ _ _ _ Hfit Hly j info Hj).
    rewrite Hlen. cbn. do 2 f_equal. lia.
Qed.

(** A client created with its protocols can open a channel for each of them. *)
Theorem client_protocols_have_channels `{Env} `{Node} (a : CreateArgs) (events : list Z) (naming : res unit)
    (protocols : list Kind) (staged : bool) (g g' : Globals) :
  typed_args a -> KV_CLIENT g = None -> init_kv_transfer_client a events naming protocols g = (Ok tt, g') ->
  exists c, KV_CLIENT g' = Some c /\ as_vector (transfer_protocols (worker_info_ c)) <> [] /\
    Forall (fun k => is_support (transfer_protocols (worker_info_ c)) k = true) protocols /\
    forall k, is_support (transfer_protocols (worker_info_ c)) k = true ->
      exists ch, create_channel (channel_env staged c) k = Ok ch.
Proof.
  intros Ha Hk Hr. unfold init_kv_transfer_client in Hr. rewrite Hk in Hr.
  destruct (create_context a) as [c0|] eqn:Hc; [|done]. apply create_context_created in Hc as [Hwf]; [|done].
  cbn [rbind set_cuda_barrier] in Hr. destruct naming; [|done]. cbn [rbind] in Hr.
  set (w0 := mkWorld (mkContext _ _ _ _ _ _ _) _ _) in Hr.
  assert (Hw0 : wf_context (the_ctx w0)) by by (destruct Hwf; constructor).
  pose proof (keeps_client_create protocols w0 Hw0) as Hw. destruct (client_create protocols w0) as [r w] eqn:Hcl.
  injection Hr as -> <-. destruct (client_create_supports _ _ _ Hw0 Hcl) as [Hall Hne]. cbn [snd] in Hw.
  exists (publish_protocols (the_ctx w)). split_and!; [done|done|done|]. intros k Hk'. unfold create_channel, channel_env.
  assert (Hin : is_Some (protocol_ctxs_ (publish_protocols (the_ctx w)) !! k)) by (by apply (wc_supported _ Hw)).
  cbn [transfer_protos has_protocol_ctx Channel.env_rdma_staged enable_rdma]. rewrite (bool_decide_eq_true_2 _ Hin).
  replace (is_support _ k) with true by (symmetry; exact Hk'). destruct k, staged; cbn; eauto.
Qed.

(** ** Witnesses *)

(** A host with two RDMA cards and one TCP device. *)
Definition sample_getenv (name : string) : option string :=
  if String.eqb name "VLLM_HOST_IP" then Some "10.0.0.7"
  else if String.eqb name "CUDA_VISIBLE_DEVICES" then Some "4,5" else None.

#[local] Program Instance sample_node : Node := {|
  getenv := sample_getenv;
  affinity_line := Some "mlx5_0,mlx5_0,mlx5_0,mlx5_0,mlx5_1,mlx5_1";
  xdevices k := match k with
                | RDMA_DIRECT => Found [mkXDevice RDMA_DIRECT "mlx5_0"; mkXDevice RDMA_DIRECT "mlx5_1"]
                | TCP => Found [mkXDevice TCP "eth0"]
                end;
  new_mempool _ _ := true;
  reg_user_mr n a l gpu := Some (mkMemp a l (Some (u32 n, u32 (1000 + n))) gpu);
  gdr_map _ _ := None;
  new_threadpool _ _ := true; new_xcontext _ _ := true; new_connector _ := true;
  new_listener _ _ := true; listen_ok _ := true; outward_ip := None |}.
Next Obligation. intros n a l gpu out lkey rkey Ho Hk. simplify_eq/=. by apply Z.mod_pos_bound. Qed.

Definition sample_args : CreateArgs :=
  mkCreateArgs "decode" 1 3 0 0 [64; 32] [16; 8] 4 0 [[4096; 8192]; [12288; 16384]] 1
    (model_params (new_WorkerInfo "" 0)).

Lemma sample_args_typed : typed_args sample_args.
Proof.
  constructor; [..|constructor]; cbn; rewrite ?Forall_cons, ?Forall_nil; unfold in32, in64, W32, W64;
    split_and?; rewrite ?Forall_cons, ?Forall_nil; lia.
Qed.

#[local] Existing Instance debug_env.

Definition sample_server : Globals := (init_kv_transfer_server sample_args [RDMA_DIRECT] new_globals).2.

Example sample_server_runs :
  init_kv_transfer_server sample_args [RDMA_DIRECT] new_globals = (Ok tt, sample_server) /\
  KV_SERVER sample_server = Some (Started (RDMAServer
    [mkHandle [4096; 8192] [1000; 1001]; mkHandle [12288; 16384] [1002; 1003]] "10.0.0.7" 31221)) /\
  current_worker_info KServer sample_server =
    Some (Ok "decode,3,1,0,64|32,16|8,4,2,1,4,0,1,0,10.0.0.7:31221") /\
  (lovely_nic <$> g_mp_map sample_server !! 0) = Some (mkXDevice RDMA_DIRECT "mlx5_1").
Proof. split_and!; vm_compute; reflexivity. Qed.

Definition sample_calls : list init_call :=
  [InitServer sample_args [RDMA_DIRECT]; InitClient sample_args [7; 8] (Ok tt) [RDMA_DIRECT; TCP]].

Lemma sample_calls_typed : Forall (fun call => typed_args (args_of call)) sample_calls.
Proof. apply Forall_cons; split; [apply sample_args_typed|]. apply Forall_singleton, sample_args_typed. Qed.

Definition some_ctx (o : option Context.Context) : Context.Context :=
  match o with Some c => c | None => new_Context "" 0 end.

Lemma process_contexts_are_typed_witness :
  wf_context (some_ctx (KV_CLIENT (foldl run_init new_globals sample_calls))).
Proof.
  refine (proj1 (process_contexts_are_typed sample_calls _ sample_calls_typed _)).
  left. vm_compute. reflexivity.
Defined.

Lemma started_server_exposes_caches_witness :
  exists s c, KV_SERVER sample_server = Some (Started s) /\ KV_SERVER_CTX sample_server = Some c /\
    layer_data_address_ c = [[4096; 8192]; [12288; 16384]].
Proof.
  destruct (started_server_exposes_caches sample_args [RDMA_DIRECT] new_globals sample_server sample_args_typed
    eq_refl (proj1 sample_server_runs)) as (s & c & HS & HC & Ha & _).
  exists s, c. split_and!; [exact HS|exact HC|exact Ha].
Defined.

Definition sample_cli : CliCtx := mkCliCtx [[(100, 1); (200, 2)]; [(300, 3); (400, 4)]] [] [256; 128].

Lemma client_learns_server_memory_witness :
  exists d ch, from_string "decode,3,1,0,64|32,16|8,4,2,1,4,0,1,0,10.0.0.7:31221" = Ok d /\
    connect sample_cli d new_channel = Ok ch /\ ip_ ch = "10.0.0.7" /\ port_ ch = 31221.
Proof.
  destruct sample_server_runs as (Hrun & Hsrv & Htext & _).
  destruct (client_learns_server_memory sample_args [RDMA_DIRECT] new_globals sample_server _ "10.0.0.7" 31221 _
    sample_cli 99 sample_args_typed eq_refl Hrun Hsrv Htext)
    as (c & b & d & ch & reply & _ & _ & Hd & Hch & Hip & Hport & _).
  1, 2, 3: reflexivity.
  - unfold in64, W64. lia.
  - reflexivity.
  - reflexivity.
  - exists [(100, 1); (200, 2)], [[(300, 3); (400, 4)]]. split; reflexivity.
  - exists d, ch. split_and!; [exact Hd|exact Hch|exact Hip|exact Hport].
Defined.

Definition sample_client : Globals :=
  (init_kv_transfer_client sample_args [7; 8] (Ok tt) [RDMA_DIRECT; TCP] new_globals).2.

Lemma client_protocols_have_channels_witness :
  exists c, KV_CLIENT sample_client = Some c /\ exists ch, create_channel (channel_env false c) TCP = Ok ch.
Proof.
  destruct (client_protocols_have_channels sample_args [7; 8] (Ok tt) [RDMA_DIRECT; TCP] false new_globals sample_client
    sample_args_typed eq_refl) as (c & Hc & _ & Hall & Hch); [vm_compute; reflexivity|].
  exists c. split; [exact Hc|]. apply Hch. apply Forall_cons in Hall as [_ Hall]. by apply Forall_cons in Hall as [Htcp _].
Defined.

(** ** Failures *)

(** The same host without RDMA. *)
Definition tcp_only_node : Node := {|
  getenv := sample_getenv; affinity_line := None;
  xdevices k := match k with RDMA_DIRECT => Failed | TCP => Found [mkXDevice TCP "eth0"] end;
  new_mempool _ _ := true; reg_user_mr _ _ _ _ := None; gdr_map _ _ := None;
  new_threadpool _ _ := true; new_xcontext _ _ := true; new_connector _ := true;
  new_listener _ _ := true; listen_ok _ := true; outward_ip := None;
  reg_user_mr_keys n a l gpu out lkey rkey H := ltac:(discriminate H) |}.

(** A start that failed for a named protocol leaves the server pointer set: asking again
    reports success without a server. *)
Example failed_start_blocks_retry :
  let init := @init_kv_transfer_server debug_env tcp_only_node sample_args in
  let g1 := (init [RDMA_DIRECT] new_globals).2 in
  (init [RDMA_DIRECT] new_globals).1 = Err RuntimeError /\ KV_SERVER g1 = Some (Created KRDMA) /\
  init [TCP] g1 = (Ok tt, g1).
Proof. split_and!; vm_compute; reflexivity. Qed.

(** Without a named protocol only RDMA is tried, although TCP would work; and the record of
    the server that did not start is still reported. *)
Example next_protocol_is_not_tried :
  let init := @init_kv_transfer_server debug_env tcp_only_node sample_args in
  (init [] new_globals).1 = Err RuntimeError /\ (init [TCP] new_globals).1 = Ok tt /\
  current_worker_info KServer (init [] new_globals).2 = Some (Ok "decode,3,1,0,64|32,16|8,4,2,0,4,0,1,0").
Proof. split_and!; vm_compute; reflexivity. Qed.

(** [VLLM_HOST_IP] is cut to fifteen characters. *)
Example long_host_name_is_cut :
  @get_ip {| getenv := fun n => if String.eqb n "VLLM_HOST_IP" then Some "node-17.cluster.local" else None;
    affinity_line := None; xdevices _ := Failed; new_mempool _ _ := true; reg_user_mr _ _ _ _ := None;
    gdr_map _ _ := None; new_threadpool _ _ := true; new_xcontext _ _ := true; new_connector _ := true;
    new_listener _ _ := true; listen_ok _ := true; outward_ip := None;
    reg_user_mr_keys n a l gpu out lkey rkey H := ltac:(discriminate H) |} = Ok "node-17.cluster".
Proof. reflexivity. Qed.
