(* ===== verification/TargetMgr.v ===== *)
(** The table of send targets ([src/client.cpp], [KvTransferClient::TargetMgr]): a list of
    stubs in least-recently-used order, indexed by destination, with the jobs of the send
    pool that point into it.

    List nodes are identified by their allocation number, which is what the iterators of
    [target_map_] and the [target] captured by a job hold; following one to a node that
    is no longer in the list is undefined behaviour.  The manager thread and the pool
    threads interleave at the granularity of the actions at the end of the file; the
    in-flight counters are taken to be sequentially consistent. *)

From stdpp Require Import gmap.
From S2P Require Import Prelude.
From S2P Require Import Common.

Definition INT_MAX : Z := 2 ^ 31 - 1.

(** ** Data *)

(** [KvSendStub] as far as the manager and the factory see it; [stub_info] is the address
    given with the request, for which the factory makes a naming client of its own. *)
Record SendStub := mkSendStub {
  dstid : string;
  dstworkerid : Z;
  stub_start_layer : Z;
  stub_num_layers : Z;
  stub_info : option WorkerInfo;
}.

(** [KvSendStubFactory::create_stub]. *)
Definition create_stub (inst_id : string) (worker_id start_layer num_layers : Z)
    (worker_info : option WorkerInfo) : SendStub :=
  mkSendStub inst_id worker_id start_layer num_layers worker_info.

Record Target := mkTarget {
  node : nat;
  inflycnt : Z;
  thread_hint : Z;
  stub : SendStub;
}.

Definition target_key (t : Target) : string * Z := (dstid (stub t), dstworkerid (stub t)).

Record BatchSendTask := mkBatch {
  batch_step : option nat;
  batch_tasks : list ReqSendTask;
  batch_substepid : Z;
}.

(** A task of the send pool, with the thread it was given to. *)
Record Job := mkJob {
  job_target : nat;
  job_hint : Z;
  job_batch : BatchSendTask;
}.

Record TargetMgr := mkMgr {
  targets_ : list Target;
  target_map_ : gmap string (list (option nat));
  thread_hint_ : Z;
  next_node : nat;
  pool : list Job;
}.

Definition empty_mgr : TargetMgr := mkMgr [] ∅ 0 0 [].

(** ** Operations *)
Section Mgr.
Context `{Env} (ctx_num_layers : Z).

(** [peek]: the iterator of the target, [None] for [targets_.end()]. *)
Definition peek (m : TargetMgr) (inst_id : string) (worker_id : Z) : option nat :=
  match target_map_ m !! inst_id with
  | None => None
  | Some iters =>
      if vsize iters <=? worker_id then None
      else match iters !! Z.to_nat worker_id with Some (Some it) => Some it | _ => None end
  end.

(** [targets_.splice(targets_.begin(), targets_, it)]. *)
Definition splice_front (it : nat) (ts : list Target) : res (list Target) :=
  match list_find (fun t => node t = it) ts with
  | Some (i, t) => Ok (t :: delete i ts)
  | None => Err Undefined
  end.

(** [get]. *)
Definition get (m : TargetMgr) (inst_id : string) (worker_id : Z)
    : res (TargetMgr * option nat) :=
  match peek m inst_id worker_id with
  | None => Ok (m, None)
  | Some it =>
      let* ts := splice_front it (targets_ m) in
      Ok (mkMgr ts (target_map_ m) (thread_hint_ m) (next_node m) (pool m), Some it)
  end.

(** [create]. *)
Definition create (m : TargetMgr) (inst_id : string) (worker_id start_layer num_layers : Z)
    (worker_info : option WorkerInfo) : res (TargetMgr * nat) :=
  let newiter := next_node m in
  let ts := mkTarget newiter 0 0
              (create_stub inst_id worker_id start_layer num_layers worker_info)
              :: targets_ m in
  let iters := default [] (target_map_ m !! inst_id) in
  let iters := if vsize iters <=? worker_id
               then vec_resize None (u32 (worker_id + 1)) iters else iters in
  let* _ := cassertM (let* o := vec_at iters worker_id in
                      Ok (match o with None => true | Some _ => false end)) in
  let* _ := vec_idx iters worker_id in
  Ok (mkMgr ts (<[inst_id := <[Z.to_nat worker_id := Some newiter]> iters]> (target_map_ m))
        (thread_hint_ m) (S newiter) (pool m), newiter).

(** [create_or_get]. *)
Definition create_or_get (m : TargetMgr) (r : RequestInfo) : res (TargetMgr * nat) :=
  let* '(m, o) := get m (dst_inst_id r) (dst_worker_id r) in
  match o with
  | Some it => Ok (m, it)
  | None => create m (dst_inst_id r) (dst_worker_id r) 0 ctx_num_layers (dst_worker_info r)
  end.

(** [try_pop_map]. *)
Definition try_pop_map (m : TargetMgr) (dstid_ : string) (dwid : Z) : res (TargetMgr * Z) :=
  match target_map_ m !! dstid_ with
  | None => Ok (m, 0)
  | Some iters =>
      if vsize iters <=? dwid then Ok (m, 0) else
      let* o := vec_idx iters dwid in
      assert: bool_decide (is_Some o);
      let iters := <[Z.to_nat dwid := None]> iters in
      if existsb (fun o => bool_decide (is_Some o)) iters
      then Ok (mkMgr (targets_ m) (<[dstid_ := iters]> (target_map_ m)) (thread_hint_ m)
                 (next_node m) (pool m), 1)
      else Ok (mkMgr (targets_ m) (delete dstid_ (target_map_ m)) (thread_hint_ m)
                 (next_node m) (pool m), 2)
  end.

(** One iteration of the loop of [shrink]; [None] is the [break]. *)
Definition shrink_round (m : TargetMgr) : res (option TargetMgr) :=
  match last (targets_ m) with
  | None => Err Undefined
  | Some t =>
      assert: (0 <=? inflycnt t);
      if 0 <? inflycnt t then Ok None else
      let* '(m, popret) := try_pop_map m (dstid (stub t)) (dstworkerid (stub t)) in
      Ok (Some (mkMgr (removelast (targets_ m)) (target_map_ m) (thread_hint_ m)
                  (next_node m) (pool m)))
  end.

(** [shrink]: every iteration removes a target. *)
Fixpoint shrink_loop (fuel : nat) (cap : Z) (m : TargetMgr) : res TargetMgr :=
  if cap <? vsize (targets_ m) then
    match fuel with
    | O => Err OutOfFuel
    | S fuel =>
        let* o := shrink_round m in
        match o with
        | None => Ok m
        | Some m => shrink_loop fuel cap m
        end
    end
  else Ok m.

Definition shrink (cap : Z) (m : TargetMgr) : res TargetMgr :=
  shrink_loop (length (targets_ m)) cap m.

(** [try_shrink]. *)
Definition try_shrink (cap : Z) (m : TargetMgr) : res TargetMgr :=
  if vsize (targets_ m) <=? cap then Ok m else shrink cap m.

(** Access to [*target]. *)
Definition deref (it : nat) (ts : list Target) : res Target :=
  match list_find (fun t => node t = it) ts with
  | Some (_, t) => Ok t
  | None => Err Undefined
  end.

Definition store (t : Target) (ts : list Target) : list Target :=
  (fun t' => if decide (node t' = node t) then t else t') <$> ts.

#[local] Arguments store : simpl never.

(** [std::atomic<int>]: arithmetic on the counter wraps. *)
Definition fetch_add (c d : Z) : Z := to_i32 (u32 (c + d)).

(** The body of the inner loop of [do_submit]. *)
Definition submit_one (step : nat) (substepid : Z) (m : TargetMgr) (b : BatchSendTask)
    : res TargetMgr :=
  assert: negb (bool_decide (is_Some (batch_step b)));
  let b := mkBatch (Some step) (batch_tasks b) substepid in
  assert: (0 <? vsize (batch_tasks b));
  match batch_tasks b with
  | [] => Err Undefined
  | front :: _ =>
      let* '(m, it) := create_or_get m (req front) in
      let* t := deref it (targets_ m) in
      let cnt := inflycnt t in
      let* '(hint, mgr_hint) :=
        if cnt =? 0
        then (* signed overflow *)
          if thread_hint_ m =? INT_MAX then Err Undefined
          else Ok (thread_hint_ m + 1, thread_hint_ m + 1)
        else Ok (thread_hint t, thread_hint_ m) in
      let t := mkTarget (node t) (fetch_add cnt 1) hint (stub t) in
      Ok (mkMgr (store t (targets_ m)) (target_map_ m) mgr_hint (next_node m)
            (pool m ++ [mkJob it hint b]))
  end.

(** [do_submit], given the iteration order of the unordered map. *)
Definition do_submit (step : nat) (substepid cap : Z)
    (tasks : list (string * list (Z * BatchSendTask))) (m : TargetMgr) : res TargetMgr :=
  let* m := forM tasks (fun '(_, workers_task) m =>
    assert: (0 <? vsize workers_task);
    forM workers_task (fun '(_, worker_tasks) m => submit_one step substepid m worker_tasks) m) m in
  try_shrink cap m.

(** The end of a pool task: [send_batch] has returned (it is [noexcept]). *)
Definition finish_job (k : nat) (m : TargetMgr) : res TargetMgr :=
  match pool m !! k with
  | None => Ok m
  | Some j =>
      let* t := deref (job_target j) (targets_ m) in
      let ncnt := inflycnt t in
      assert: (0 <? ncnt);
      let t := mkTarget (node t) (fetch_add ncnt (-1)) (thread_hint t) (stub t) in
      Ok (mkMgr (store t (targets_ m)) (target_map_ m) (thread_hint_ m) (next_node m)
            (delete k (pool m)))
  end.

(** ** Specification: a least-recently-used list *)

(** Destinations with their number of batches in flight, most recently used first. *)
Definition lru := list (string * Z * Z).

(** Use a destination: it moves to the front, or enters there. *)
Definition lru_touch (k : string * Z) (l : lru) : lru :=
  match list_find (fun e => e.1 = k) l with
  | Some (i, e) => e :: delete i l
  | None => (k, 0) :: l
  end.

(** Submit a batch to a destination. *)
Definition lru_submit (l : lru) (k : string * Z) : lru :=
  match lru_touch k l with
  | [] => []
  | (k, n) :: l => (k, n + 1) :: l
  end.

(** Evict from the old end while there are too many and the oldest is idle. *)
Fixpoint lru_evict (cap : Z) (old_first : lru) : lru :=
  match old_first with
  | [] => []
  | (k, n) :: rest =>
      if (cap <? vsize old_first) && (n =? 0) then lru_evict cap rest else old_first
  end.

Definition lru_shrink (cap : Z) (l : lru) : lru := reverse (lru_evict cap (reverse l)).

(** What the table holds. *)
Definition entry (t : Target) : string * Z * Z := (target_key t, inflycnt t).
Definition abs (m : TargetMgr) : lru := entry <$> targets_ m.

(** ** Invariant *)

(** Batches a target has in the pool. *)
Definition jobs_of (it : nat) (js : list Job) : Z :=
  vsize (filter (fun j => job_target j = it) js).

(** The destination of a batch is that of its first request. *)
Definition batch_dest (b : BatchSendTask) : option (string * Z) :=
  match batch_tasks b with
  | [] => None
  | front :: _ => Some (dst_inst_id (req front), dst_worker_id (req front))
  end.

(** A job runs on the thread of its target, which is the target of its destination. *)
Definition job_ok (t : Target) (j : Job) : Prop :=
  job_hint j = thread_hint t /\ batch_dest (job_batch j) = Some (target_key t).

Record mgr_inv (m : TargetMgr) : Prop := {
  (* nodes are distinct and below the allocation counter, keys are distinct *)
  inv_nodes : NoDup (node <$> targets_ m);
  inv_fresh : Forall (fun t => (node t < next_node m)%nat) (targets_ m);
  inv_keys : NoDup (target_key <$> targets_ m);
  inv_range : Forall (fun t => 0 <= dstworkerid (stub t) < W32 - 1) (targets_ m);
  (* the index points to exactly the targets of the list *)
  inv_index : forall inst wid it, 0 <= wid ->
    peek m inst wid = Some it <->
    exists t, t ∈ targets_ m /\ node t = it /\ target_key t = (inst, wid);
  (* and has no empty rows *)
  inv_rows : forall inst iters, target_map_ m !! inst = Some iters -> Exists is_Some iters;
  (* counters count the jobs in the pool, and jobs point to targets of the list *)
  inv_count : Forall (fun t => inflycnt t = jobs_of (node t) (pool m)) (targets_ m);
  inv_jobs : Forall (fun j => exists t, t ∈ targets_ m /\ node t = job_target j /\
                                job_ok t j) (pool m);
  inv_hint : 0 <= thread_hint_ m <= INT_MAX;
}.

(** What [do_submit] relies on: a batch without a step whose first task is of the destination
    ([batch_of] of the client says it of every task). *)
Definition batch_for (k : string * Z) (b : BatchSendTask) : Prop :=
  batch_step b = None /\
  exists front rest, batch_tasks b = front :: rest /\
    (dst_inst_id (req front), dst_worker_id (req front)) = k.

(** The worker ids for which [targets.resize(worker_id + 1)] does not wrap to zero. *)
Definition wid_ok (wid : Z) : Prop := 0 <= wid < W32 - 1.

(** ** Lists of targets *)
Lemma node_inj ts t t' :
  NoDup (node <$> ts) -> t ∈ ts -> t' ∈ ts -> node t = node t' -> t = t'.
Proof.
  intros Hnd [i Hi]%list_elem_of_lookup [j Hj]%list_elem_of_lookup Heq.
  assert (i = j) as ->; [|congruence].
  eapply NoDup_lookup; [exact Hnd|rewrite list_lookup_fmap, Hi; done|].
  rewrite list_lookup_fmap, Hj. simpl. by rewrite Heq.
Qed.

Lemma find_node ts t :
  NoDup (node <$> ts) -> t ∈ ts ->
  exists i, list_find (fun t' => node t' = node t) ts = Some (i, t) /\ ts !! i = Some t.
Proof.
  intros Hnd Hin. destruct (list_find_elem_of (fun t' => node t' = node t) ts t Hin eq_refl)
    as [[i t'] Hf].
  exists i. pose proof Hf as (Hi & Hn & _)%list_find_Some.
  assert (t' = t) as ->; [|done].
  apply (node_inj ts); eauto using list_elem_of_lookup_2.
Qed.

Lemma deref_in ts t : NoDup (node <$> ts) -> t ∈ ts -> deref (node t) ts = Ok t.
Proof. intros Hnd Hin. unfold deref. by destruct (find_node ts t Hnd Hin) as (i & -> & _). Qed.

Lemma store_nodes t ts : node <$> store t ts = node <$> ts.
Proof.
  unfold store. rewrite <- list_fmap_compose. apply list_fmap_ext. intros ? t' _. simpl.
  by case_decide.
Qed.

Lemma elem_of_store t ts t' :
  t' ∈ store t ts <->
  (t' = t /\ node t ∈ node <$> ts) \/ (t' ∈ ts /\ node t' <> node t).
Proof.
  unfold store. rewrite !list_elem_of_fmap. split.
  - intros (t0 & -> & Hin). case_decide as Hd; [left|by right].
    split; [done|]. exists t0. done.
  - intros [[-> (t0 & Heq & Hin)]|[Hin Hn]].
    + exists t0. by rewrite decide_True by done.
    + exists t'. by rewrite decide_False by done.
Qed.

(** Updating the counter or the hint of a target keeps its key. *)
Lemma store_keys t ts :
  (forall t', t' ∈ ts -> node t' = node t -> target_key t' = target_key t) ->
  target_key <$> store t ts = target_key <$> ts.
Proof.
  intros Hk. unfold store. rewrite <- list_fmap_compose. apply list_fmap_ext.
  intros i t' Hi. simpl. case_decide; [|done]. symmetry.
  by apply Hk; [eapply list_elem_of_lookup_2|].
Qed.

(** ** The index *)
Definition row (m : TargetMgr) (inst : string) : list (option nat) :=
  default [] (target_map_ m !! inst).

Lemma peek_row m inst wid :
  0 <= wid -> peek m inst wid = mjoin (row m inst !! Z.to_nat wid).
Proof.
  intros Hw. unfold peek, row. destruct (target_map_ m !! inst) as [iters|]; simpl; [|done].
  destruct (Z.leb_spec (vsize iters) wid) as [Hle|Hlt].
  - rewrite lookup_ge_None_2; [done|]. unfold vsize in Hle. lia.
  - by destruct (iters !! Z.to_nat wid) as [[]|].
Qed.

Lemma grown_row (l : list (option nat)) n i :
  (length l <= n)%nat -> mjoin (resize n None l !! i) = mjoin (l !! i).
Proof.
  intros Hn. destruct (decide (i < length l)%nat).
  - by rewrite lookup_resize by lia.
  - rewrite (lookup_ge_None_2 l) by lia. destruct (decide (i < n)%nat).
    + by rewrite lookup_resize_new by lia.
    + by rewrite lookup_resize_old by lia.
Qed.

(** A row long enough for [wid], with the same targets. *)
Lemma resized_row (l : list (option nat)) wid :
  wid_ok wid ->
  let l' := if vsize l <=? wid then vec_resize None (u32 (wid + 1)) l else l in
  (Z.to_nat wid < length l')%nat /\ forall i, mjoin (l' !! i) = mjoin (l !! i).
Proof.
  intros [? ?]. simpl. unfold vsize, vec_resize. rewrite u32_small by lia.
  destruct (Z.leb_spec (Z.of_nat (length l)) wid).
  - rewrite length_resize. split; [lia|]. intros i. apply grown_row. lia.
  - split; [lia|done].
Qed.

Lemma row_insert m inst l inst' ts h n js :
  row (mkMgr ts (<[inst := l]> (target_map_ m)) h n js) inst' =
  if decide (inst' = inst) then l else row m inst'.
Proof.
  unfold row. simpl. case_decide as Hd.
  - subst. by rewrite lookup_insert_eq.
  - by rewrite lookup_insert_ne by done.
Qed.

Lemma row_delete m inst inst' ts h n js :
  row (mkMgr ts (delete inst (target_map_ m)) h n js) inst' =
  if decide (inst' = inst) then [] else row m inst'.
Proof.
  unfold row. simpl. case_decide as Hd.
  - subst. by rewrite lookup_delete_eq.
  - by rewrite lookup_delete_ne by done.
Qed.

Lemma mjoin_insert (l : list (option nat)) i o j :
  (i < length l)%nat ->
  mjoin (<[i := o]> l !! j) = if decide (j = i) then o else mjoin (l !! j).
Proof.
  intros Hi. case_decide as Hd.
  - subst. by rewrite list_lookup_insert_eq.
  - by rewrite list_lookup_insert_ne.
Qed.

(** ** Creating and finding targets *)
Lemma inv_perm m ts :
  mgr_inv m -> ts ≡ₚ targets_ m ->
  mgr_inv (mkMgr ts (target_map_ m) (thread_hint_ m) (next_node m) (pool m)).
Proof.
  intros HI Hp. destruct HI. split; simpl; try done.
  - by rewrite Hp.
  - by rewrite Hp.
  - by rewrite Hp.
  - by rewrite Hp.
  - intros inst wid it Hw. unfold peek in *. simpl. rewrite (inv_index0 inst wid it Hw).
    by setoid_rewrite Hp.
  - by rewrite Hp.
  - eapply Forall_impl; [done|]. simpl. intros j (t & ? & ?). exists t. by rewrite Hp.
Qed.

Lemma lru_find ts i t :
  NoDup (target_key <$> ts) -> ts !! i = Some t ->
  list_find (fun e => e.1 = target_key t) (entry <$> ts) = Some (i, entry t).
Proof.
  intros Hnd Hi. apply list_find_Some. rewrite list_lookup_fmap, Hi. split; [done|].
  split; [done|]. intros j e Hj Hlt Heq.
  rewrite list_lookup_fmap in Hj. destruct (ts !! j) as [t'|] eqn:Hj'; [|done].
  injection Hj as <-. assert (i = j); [|lia].
  eapply NoDup_lookup; [exact Hnd|rewrite list_lookup_fmap, Hi; done|].
  rewrite list_lookup_fmap, Hj'. simpl. f_equal. exact Heq.
Qed.

Lemma lru_find_none ts k :
  (forall t, t ∈ ts -> target_key t <> k) ->
  list_find (fun e => e.1 = k) (entry <$> ts) = None.
Proof.
  intros Hk. apply list_find_None, Forall_forall.
  intros e (t & -> & Ht)%list_elem_of_fmap. simpl. by apply Hk.
Qed.

(** [get] either misses, or moves the target to the front. *)
Lemma get_spec m inst wid :
  mgr_inv m -> wid_ok wid ->
  (get m inst wid = Ok (m, None) /\ peek m inst wid = None /\
   forall t, t ∈ targets_ m -> target_key t <> (inst, wid)) \/
  exists t m', get m inst wid = Ok (m', Some (node t)) /\ mgr_inv m' /\
    head (targets_ m') = Some t /\ target_key t = (inst, wid) /\
    abs m' = lru_touch (inst, wid) (abs m) /\ pool m' = pool m /\
    thread_hint_ m' = thread_hint_ m.
Proof.
  intros HI [Hw _]. pose proof (inv_index _ HI inst wid) as Hix. unfold get.
  destruct (peek m inst wid) as [it|] eqn:Hp.
  - right. destruct (proj1 (Hix it Hw) eq_refl) as (t & Hin & <- & Hk).
    destruct (find_node _ _ (inv_nodes _ HI) Hin) as (i & Hf & Hi).
    unfold splice_front. rewrite Hf. simpl.
    eexists t, _. split; [done|]. split.
    { apply inv_perm; [done|]. symmetry. by apply delete_Permutation. }
    simpl. split; [done|]. split; [done|]. split; [|done].
    unfold abs, lru_touch. simpl.
    rewrite <- Hk, (lru_find _ i t (inv_keys _ HI) Hi). by rewrite list_fmap_delete.
  - left. split; [done|]. split; [done|]. intros t Ht Hk.
    assert (None = Some (node t)) as [=]. apply Hix; [done|]. by exists t.
Qed.

(** ** Counting jobs *)
Lemma jobs_of_cons it j js :
  jobs_of it (j :: js) = (if decide (job_target j = it) then 1 else 0) + jobs_of it js.
Proof. unfold jobs_of, vsize. rewrite filter_cons. case_decide; simpl; lia. Qed.

Lemma jobs_of_snoc it js j :
  jobs_of it (js ++ [j]) = jobs_of it js + (if decide (job_target j = it) then 1 else 0).
Proof.
  unfold jobs_of, vsize. rewrite filter_app, filter_cons, filter_nil, length_app.
  case_decide; simpl; lia.
Qed.

Lemma jobs_of_range it js : 0 <= jobs_of it js <= vsize js.
Proof.
  unfold vsize. induction js as [|j js IH]; [done|]. rewrite jobs_of_cons.
  case_decide; simpl length; lia.
Qed.

Lemma jobs_of_none it js : (forall j, j ∈ js -> job_target j <> it) -> jobs_of it js = 0.
Proof.
  induction js as [|j js IH]; intros Hno; [done|]. rewrite jobs_of_cons, decide_False.
  - apply IH. set_solver.
  - apply Hno. set_solver.
Qed.

Lemma jobs_of_delete it js k j :
  js !! k = Some j ->
  jobs_of it (delete k js) = jobs_of it js - (if decide (job_target j = it) then 1 else 0).
Proof.
  revert k. induction js as [|j' js IH]; intros [|k] Hk; simplify_eq/=.
  - rewrite jobs_of_cons. lia.
  - rewrite !jobs_of_cons, (IH k Hk). lia.
Qed.

Lemma jobs_of_elem it js j : j ∈ js -> job_target j = it -> 0 < jobs_of it js.
Proof.
  intros [k Hk]%list_elem_of_lookup Heq. pose proof (jobs_of_delete it js k j Hk) as Hd.
  rewrite decide_True in Hd by done. pose proof (jobs_of_range it (delete k js)). lia.
Qed.

Lemma jobs_of_fresh m it :
  mgr_inv m -> (next_node m <= it)%nat -> jobs_of it (pool m) = 0.
Proof.
  intros HI Hn. apply jobs_of_none. intros j Hj Heq.
  destruct (proj1 (Forall_forall _ _) (inv_jobs _ HI) _ Hj) as (t' & Hin & Hj' & _).
  pose proof (proj1 (Forall_forall _ _) (inv_fresh _ HI) _ Hin). simpl in *. lia.
Qed.

(** A new target whose iterator is stored in a row with the old targets. *)
Lemma inv_add m t inst wid l :
  mgr_inv m -> wid_ok wid ->
  (forall t', t' ∈ targets_ m -> target_key t' <> (inst, wid)) ->
  node t = next_node m -> inflycnt t = 0 -> target_key t = (inst, wid) ->
  (Z.to_nat wid < length l)%nat -> (forall i, mjoin (l !! i) = mjoin (row m inst !! i)) ->
  mgr_inv (mkMgr (t :: targets_ m)
    (<[inst := <[Z.to_nat wid := Some (node t)]> l]> (target_map_ m))
    (thread_hint_ m) (S (node t)) (pool m)).
Proof.
  intros HI Hw Hno Hn Hc Hk Hlen Hl. destruct HI as [Hnd Hfr Hks Hrg Hix Hrow Hct Hjb Hh].
  assert (forall t', t' ∈ targets_ m -> (node t' < node t)%nat) as Hlt.
  { intros t' Ht'. rewrite Hn. by apply (proj1 (Forall_forall _ _) Hfr). }
  split; simpl; try done.
  - apply NoDup_cons. split; [|done]. intros (t' & Heq & Ht')%list_elem_of_fmap.
    specialize (Hlt _ Ht'). lia.
  - constructor; [lia|]. apply Forall_forall. intros t' Ht'. specialize (Hlt _ Ht'). lia.
  - apply NoDup_cons. split; [|done]. intros (t' & Heq & Ht')%list_elem_of_fmap.
    apply (Hno t' Ht'). congruence.
  - constructor; [|done]. injection Hk as _ ->. apply Hw.
  - intros inst' wid' it Hw'. specialize (Hix inst' wid' it Hw').
    rewrite peek_row, row_insert in * by done. setoid_rewrite elem_of_cons.
    destruct (decide ((inst', wid') = (inst, wid))) as [[= -> ->]|Hne].
    + rewrite decide_True, mjoin_insert, decide_True by done. split.
      * intros [= <-]. exists t. auto.
      * intros (t' & [->|Ht'] & Ht1 & Ht2); [by rewrite Ht1|]. by destruct (Hno t' Ht').
    + transitivity (mjoin (row m inst' !! Z.to_nat wid') = Some it).
      * case_decide as Hd; [subst inst'|done]. rewrite mjoin_insert by done.
        rewrite decide_False, Hl by (intros Heq; apply Hne; f_equal; destruct Hw; lia). done.
      * rewrite Hix. split; intros (t' & Ht1 & Ht2 & Ht3); exists t'; [auto|].
        destruct Ht1 as [->|Ht1]; [congruence|auto].
  - intros inst' iters Hlk. destruct (decide (inst' = inst)) as [->|Hd].
    + rewrite lookup_insert_eq in Hlk. injection Hlk as <-.
      apply Exists_exists. exists (Some (node t)). split; [|eauto].
      by apply list_elem_of_insert.
    + rewrite lookup_insert_ne in Hlk by done. eauto.
  - constructor; [|done]. rewrite Hc. symmetry. apply jobs_of_none. intros j Hj Heq.
    destruct (proj1 (Forall_forall _ _) Hjb j Hj) as (t' & Ht' & Hn' & _).
    specialize (Hlt _ Ht'). lia.
  - apply (Forall_impl _ _ _ Hjb). intros j (t' & Ht' & ?). exists t'. set_solver.
Qed.

(** [create] after a miss puts a new idle target in front. *)
Lemma create_spec m inst wid n info :
  mgr_inv m -> wid_ok wid -> peek m inst wid = None ->
  (forall t, t ∈ targets_ m -> target_key t <> (inst, wid)) ->
  exists t m', create m inst wid 0 n info = Ok (m', node t) /\ mgr_inv m' /\
    targets_ m' = t :: targets_ m /\ target_key t = (inst, wid) /\ inflycnt t = 0 /\
    pool m' = pool m /\ thread_hint_ m' = thread_hint_ m.
Proof.
  intros HI Hw Hp Hno. unfold create.
  set (l := if _ <=? _ then _ else _).
  destruct (resized_row (row m inst) wid Hw) as [Hlen Hl]. fold l in Hlen, Hl.
  change (if vsize (row m inst) <=? wid then _ else _) with l in Hlen, Hl.
  pose proof Hp as Hp'. rewrite peek_row in Hp' by apply Hw. rewrite <- Hl in Hp'.
  destruct (lookup_lt_is_Some_2 l _ Hlen) as [o Ho].
  assert (o = None) as -> by (by rewrite Ho in Hp').
  rewrite cassertM_true; [|by rewrite (vec_at_Some l wid None) by (apply Hw || done)].
  simpl. rewrite (vec_idx_Some l wid None) by (apply Hw || done). simpl.
  eexists (mkTarget (next_node m) 0 0 (create_stub inst wid 0 n info)), _.
  split; [done|]. split; [|done].
  exact (inv_add m (mkTarget (next_node m) 0 0 (create_stub inst wid 0 n info)) inst wid l
           HI Hw Hno eq_refl eq_refl eq_refl Hlen Hl).
Qed.

(** [create_or_get] brings the destination to the front of the list. *)
Lemma create_or_get_spec m r :
  mgr_inv m -> wid_ok (dst_worker_id r) ->
  exists t m', create_or_get m r = Ok (m', node t) /\ mgr_inv m' /\
    head (targets_ m') = Some t /\ target_key t = (dst_inst_id r, dst_worker_id r) /\
    abs m' = lru_touch (dst_inst_id r, dst_worker_id r) (abs m) /\ pool m' = pool m /\
    thread_hint_ m' = thread_hint_ m.
Proof.
  intros HI Hw. unfold create_or_get.
  destruct (get_spec m (dst_inst_id r) (dst_worker_id r) HI Hw)
    as [(-> & Hp & Hno)|(t & m' & -> & ?)]; simpl; [|by exists t, m'].
  destruct (create_spec m _ _ ctx_num_layers (dst_worker_info r) HI Hw Hp Hno)
    as (t & m' & -> & HI' & Hts & Hk & Hc & ?).
  exists t, m'. split_and!; try done; [by rewrite Hts| |tauto|tauto].
  unfold abs, lru_touch. rewrite Hts, lru_find_none by done. csimpl. f_equal.
  unfold entry. by rewrite Hk, Hc.
Qed.

(** ** Counters *)

(** A target is rewritten together with the pool. *)
Lemma inv_store m t t' h js :
  mgr_inv m -> t ∈ targets_ m -> node t' = node t -> target_key t' = target_key t ->
  inflycnt t' = jobs_of (node t) js ->
  (forall it, it <> node t -> jobs_of it js = jobs_of it (pool m)) ->
  (forall j, j ∈ js -> job_target j = node t /\ job_ok t' j \/
                       job_target j <> node t /\ j ∈ pool m) ->
  0 <= h <= INT_MAX ->
  mgr_inv (mkMgr (store t' (targets_ m)) (target_map_ m) h (next_node m) js).
Proof.
  intros HI Hin Hn Hk Hc Hoth Hjs Hh. destruct HI as [Hnd Hfr Hks Hrg Hix Hrow Hct Hjb _].
  assert (node t' ∈ node <$> targets_ m) as Hn'.
  { apply list_elem_of_fmap. exists t. done. }
  assert (forall t0, t0 ∈ targets_ m -> node t0 = node t' -> target_key t0 = target_key t')
    as Hsame.
  { intros t0 H0 Heq. rewrite (node_inj (targets_ m) t0 t); congruence. }
  rewrite !Forall_forall in *.
  split; simpl; rewrite ?Forall_forall; try done.
  - by rewrite store_nodes.
  - intros t0 [[-> _]|[H0 _]]%elem_of_store; [rewrite Hn|]; auto.
  - by rewrite store_keys.
  - intros t0 [[-> _]|[H0 _]]%elem_of_store; [|auto].
    injection Hk as _ ->. auto.
  - intros inst wid it Hw. unfold peek in *. simpl. rewrite (Hix inst wid it Hw).
    setoid_rewrite elem_of_store. split.
    + intros (t0 & H0 & <- & Hk0). destruct (decide (node t0 = node t')) as [Heq|Hne].
      * exists t'. rewrite <- Hk0, Heq. symmetry in Heq. split_and!; [auto|done|].
        symmetry. by apply Hsame.
      * exists t0. auto.
    + intros (t0 & [[-> _]|[H0 _]] & <- & Hk0); [exists t|exists t0]; [|auto].
      split_and!; congruence.
  - intros t0 [[-> _]|[H0 Hne]]%elem_of_store; [by rewrite Hn|].
    rewrite Hoth by congruence. auto.
  - intros j Hj. setoid_rewrite elem_of_store.
    destruct (Hjs j Hj) as [[Ht Hhint]|[Hne Hj']].
    + exists t'. split_and!; [auto|congruence|done].
    + destruct (Hjb j Hj') as (t0 & H0 & Hn0 & Hh0). exists t0.
      split_and!; [|done..]. right. split; congruence.
Qed.

Lemma store_head t t' ts :
  NoDup (node <$> t :: ts) -> node t' = node t -> store t' (t :: ts) = t' :: ts.
Proof.
  intros [Hno _]%NoDup_cons Hn. unfold store. csimpl. rewrite decide_True by done. f_equal.
  rewrite <- (list_fmap_id ts) at 2. apply list_fmap_ext. intros i t0 Hi. simpl.
  case_decide as Hd; [|done]. exfalso. apply Hno. apply list_elem_of_fmap.
  exists t0. split; [congruence|]. by eapply list_elem_of_lookup_2.
Qed.

Lemma fetch_add_small c d : 0 <= c + d <= INT_MAX -> fetch_add c d = c + d.
Proof.
  intros Hr. unfold fetch_add, INT_MAX in *. rewrite u32_small by (unfold W32; lia).
  unfold to_i32. destruct (Z.ltb_spec (c + d) (2 ^ 31)); [done|lia].
Qed.

Lemma target_count m t :
  mgr_inv m -> t ∈ targets_ m -> inflycnt t = jobs_of (node t) (pool m).
Proof. intros HI Hin. by apply (proj1 (Forall_forall _ _) (inv_count _ HI)). Qed.

Lemma job_target_ok m t j :
  mgr_inv m -> t ∈ targets_ m -> j ∈ pool m -> job_target j = node t -> job_ok t j.
Proof.
  intros HI Hin Hj Heq.
  destruct (proj1 (Forall_forall _ _) (inv_jobs _ HI) j Hj) as (t0 & Ht0 & Hn0 & Hok).
  rewrite (node_inj (targets_ m) t t0); [done|apply HI|done..|congruence].
Qed.

Lemma job_ok_same t t' j :
  thread_hint t' = thread_hint t -> job_ok t j -> target_key t' = target_key t -> job_ok t' j.
Proof. unfold job_ok. by intros -> ? ->. Qed.

(** Submitting a batch: the destination is in front with one more batch in flight, the
    batch is in the pool, and batches of a busy target stay on one thread. *)
Lemma submit_one_spec step sub m k b :
  mgr_inv m -> wid_ok k.2 -> batch_for k b ->
  vsize (pool m) < INT_MAX -> thread_hint_ m < INT_MAX ->
  exists m', submit_one step sub m b = Ok m' /\ mgr_inv m' /\
    abs m' = lru_submit (abs m) k /\
    (thread_hint_ m' <= thread_hint_ m + 1) /\
    exists it h, pool m' = pool m ++ [mkJob it h (mkBatch (Some step) (batch_tasks b) sub)].
Proof.
  intros HI Hw (Hstep & front & rest & Hts & <-) Hpool Hhint. unfold submit_one.
  rewrite Hstep. rewrite (cassert_true (negb _)) by done. simpl.
  rewrite Hts. rewrite cassert_true by (apply Z.ltb_lt; unfold vsize; simpl; lia). simpl.
  destruct (create_or_get_spec m (req front) HI Hw)
    as (t & m1 & -> & HI1 & Hhd & Hk & Habs & Hp1 & Hh1). simpl.
  destruct (targets_ m1) as [|t0 ts] eqn:Hts1; simplify_eq/=.
  assert (t ∈ targets_ m1) as Hin by (rewrite Hts1; set_solver).
  pose proof (deref_in _ _ (inv_nodes _ HI1) Hin) as Hd. rewrite Hts1 in Hd. rewrite Hd.
  simpl. pose proof (target_count m1 t HI1 Hin) as Hc.
  pose proof (jobs_of_range (node t) (pool m1)) as Hr. pose proof (inv_hint _ HI1) as Hih.
  rewrite Hp1 in Hc, Hr.
  assert (exists h mh, (if inflycnt t =? 0 then
              if thread_hint_ m1 =? INT_MAX then Err Undefined
              else Ok (thread_hint_ m1 + 1, thread_hint_ m1 + 1)
            else Ok (thread_hint t, thread_hint_ m1)) = Ok (h, mh) /\
          0 <= mh <= INT_MAX /\ mh <= thread_hint_ m1 + 1 /\
          (0 < inflycnt t -> h = thread_hint t)) as (h & mh & -> & Hmh & Hmh' & Hh).
  { destruct (Z.eqb_spec (inflycnt t) 0); [|by eexists _, _; split_and!; [done|lia..|]].
    destruct (Z.eqb_spec (thread_hint_ m1) INT_MAX); [lia|].
    eexists _, _. split_and!; [done|lia..]. }
  simpl. rewrite fetch_add_small by lia. eexists. split; [done|].
  set (t' := mkTarget _ _ _ _). rewrite <- Hts1. split; [|split; [|split]].
  - apply (inv_store m1 t); try done; rewrite ?Hp1.
    + rewrite jobs_of_snoc, decide_True by done. simpl. lia.
    + intros it Hne. rewrite jobs_of_snoc, decide_False by (simpl; congruence). lia.
    + intros j [Hj| ->%list_elem_of_singleton]%elem_of_app.
      2: { left. split; [done|]. split; [done|]. unfold batch_dest. simpl. by rewrite <- Hk. }
      destruct (decide (job_target j = node t)) as [Heq|]; [left|by right].
      split; [done|]. apply (job_ok_same t); [| |done].
      * simpl. apply Hh. rewrite Hc. eauto using jobs_of_elem.
      * by apply (job_target_ok m1); [..|rewrite Hp1|].
  - unfold abs in *. simpl. rewrite Hts1 in *.
    rewrite store_head by (done || (rewrite <- Hts1; apply HI1)).
    unfold lru_submit. rewrite <- Habs. csimpl. done.
  - rewrite Hh1 in Hmh'. simpl. lia.
  - simpl. rewrite Hp1. eauto.
Qed.

(** A finished batch leaves the pool and the counter of its target. *)
Lemma finish_job_spec m k j :
  mgr_inv m -> vsize (pool m) <= INT_MAX -> pool m !! k = Some j ->
  exists m', finish_job k m = Ok m' /\ mgr_inv m' /\ pool m' = delete k (pool m) /\
    (abs m').*1 = (abs m).*1.
Proof.
  intros HI Hpool Hj. unfold finish_job. rewrite Hj.
  assert (j ∈ pool m) as Hin by eauto using list_elem_of_lookup_2.
  destruct (proj1 (Forall_forall _ _) (inv_jobs _ HI) j Hin) as (t & Ht & Hn & Hh).
  rewrite <- Hn, (deref_in _ t (inv_nodes _ HI) Ht). simpl.
  pose proof (target_count m t HI Ht) as Hc.
  pose proof (jobs_of_elem (node t) (pool m) j Hin (eq_sym Hn)).
  pose proof (jobs_of_range (node t) (pool m)).
  rewrite cassert_true by (apply Z.ltb_lt; lia). simpl. rewrite fetch_add_small by lia.
  eexists. split; [done|]. set (t' := mkTarget _ _ _ _). split; [|split; [done|]].
  - apply (inv_store m t); try done; [| | |by apply HI].
    + rewrite (jobs_of_delete _ _ _ _ Hj), decide_True by done. simpl. lia.
    + intros it Hne. rewrite (jobs_of_delete _ _ _ _ Hj), decide_False by congruence. lia.
    + intros j' Hj'. assert (j' ∈ pool m) as Hin'.
      { eapply elem_of_submseteq; [exact Hj'|]. apply submseteq_delete. }
      destruct (decide (job_target j' = node t)) as [Heq|]; [left|by right].
      split; [done|]. apply (job_ok_same t); [done| |done]. by apply (job_target_ok m).
  - unfold abs. simpl. rewrite <- !list_fmap_compose.
    apply (store_keys t'). intros t0 Ht0 Heq. rewrite (node_inj (targets_ m) t0 t); try done.
    apply HI.
Qed.

(** ** Eviction *)
Lemma inv_remove m ts t map' :
  mgr_inv m -> targets_ m = ts ++ [t] -> inflycnt t = 0 ->
  (forall inst wid, 0 <= wid ->
     peek (mkMgr ts map' (thread_hint_ m) (next_node m) (pool m)) inst wid =
     if decide ((inst, wid) = target_key t) then None else peek m inst wid) ->
  (forall inst iters, map' !! inst = Some iters -> Exists is_Some iters) ->
  mgr_inv (mkMgr ts map' (thread_hint_ m) (next_node m) (pool m)).
Proof.
  intros HI Hts Hc Hpk Hrows. pose proof (target_count m t HI) as Hct'.
  destruct HI as [Hnd Hfr Hks Hrg Hix Hrow Hct Hjb Hh]. rewrite Hts in *.
  rewrite !Forall_app, !Forall_singleton in *. rewrite fmap_app in Hnd; rewrite fmap_app in Hks.
  apply NoDup_app in Hnd as (Hnd & Hndt & _). apply NoDup_app in Hks as (Hks & Hkt & _).
  split; simpl; try done; try tauto.
  - intros inst wid it Hw. rewrite Hpk by done. specialize (Hix inst wid it Hw).
    setoid_rewrite elem_of_app in Hix. setoid_rewrite list_elem_of_singleton in Hix.
    case_decide as Hd.
    + split; [done|]. intros (t' & Hin & _ & Hk). exfalso.
      apply (Hkt (target_key t')); [by apply list_elem_of_fmap_2|].
      rewrite Hk, Hd. csimpl. set_solver.
    + rewrite Hix. split; intros (t' & Hin & ? & ?); exists t'; [|auto].
      destruct Hin as [|Heq]; [done|]. subst. done.
  - apply Forall_forall. intros j Hj.
    destruct (proj1 (Forall_forall _ _) Hjb j Hj) as (t' & Hin & Hn & ?). exists t'.
    apply elem_of_app in Hin as [|Heq%list_elem_of_singleton]; [done|]. subst t'.
    pose proof (jobs_of_elem (node t) (pool m) j Hj (eq_sym Hn)) as Hpos.
    rewrite <- Hct', Hc in Hpos by set_solver. lia.
Qed.

Lemma existsb_Exists (l : list (option nat)) :
  existsb (fun o => bool_decide (is_Some o)) l = true <-> Exists is_Some l.
Proof.
  rewrite existsb_exists, Exists_exists. setoid_rewrite list_elem_of_In.
  by setoid_rewrite bool_decide_eq_true.
Qed.

Lemma existsb_none (l : list (option nat)) i :
  existsb (fun o => bool_decide (is_Some o)) l = false -> mjoin (l !! i) = None.
Proof.
  intros Hf%not_true_iff_false. rewrite existsb_Exists in Hf.
  destruct (l !! i) as [[it|]|] eqn:Hi; [|done..]. exfalso. apply Hf.
  apply Exists_exists. exists (Some it). split; [by eapply list_elem_of_lookup_2|eauto].
Qed.

(** Forgetting an indexed target clears its entry and drops an empty row. *)
Lemma try_pop_map_spec m inst wid it :
  wid_ok wid -> peek m inst wid = Some it ->
  (forall inst iters, target_map_ m !! inst = Some iters -> Exists is_Some iters) ->
  exists map' r, try_pop_map m inst wid =
      Ok (mkMgr (targets_ m) map' (thread_hint_ m) (next_node m) (pool m), r) /\
    (forall ts h n js inst' wid', 0 <= wid' ->
       peek (mkMgr ts map' h n js) inst' wid' =
       if decide ((inst', wid') = (inst, wid)) then None else peek m inst' wid') /\
    (forall inst iters, map' !! inst = Some iters -> Exists is_Some iters).
Proof.
  intros [Hw _] Hp Hrows. unfold try_pop_map.
  pose proof Hp as Hp'. unfold peek in Hp'.
  destruct (target_map_ m !! inst) as [iters|] eqn:Hm; [|done].
  destruct (Z.leb_spec (vsize iters) wid) as [|Hlt]; [done|].
  destruct (iters !! Z.to_nat wid) as [[it'|]|] eqn:Hi; simplify_eq.
  rewrite (vec_idx_Some iters wid (Some it)) by done. simpl.
  rewrite cassert_true by done. simpl. unfold vsize in Hlt.
  assert (row m inst = iters) as Hrow by (unfold row; by rewrite Hm).
  assert (forall inst' wid', 0 <= wid' -> (inst', wid') <> (inst, wid) -> inst' = inst ->
    Z.to_nat wid' <> Z.to_nat wid) as Hne.
  { intros inst' wid' Hw' Hne -> Heq. apply Hne. f_equal. lia. }
  destruct (existsb _ _) eqn:Hex; eexists _, _; (split; [done|]); split.
  - intros ts h n js inst' wid' Hw'. rewrite !peek_row, row_insert by done.
    case_decide as Hd; case_decide as Hd'; simplify_eq; rewrite ?mjoin_insert by lia.
    + by rewrite decide_True.
    + by rewrite decide_False by eauto.
    + done.
  - intros inst' iters' Hlk. destruct (decide (inst' = inst)) as [->|].
    + rewrite lookup_insert_eq in Hlk. simplify_eq. by apply existsb_Exists.
    + rewrite lookup_insert_ne in Hlk by done. eauto.
  - intros ts h n js inst' wid' Hw'. rewrite !peek_row, row_delete by done.
    case_decide as Hd; case_decide as Hd'; simplify_eq; try done.
    simpl. pose proof (existsb_none _ (Z.to_nat wid') Hex) as Hno.
    rewrite mjoin_insert, decide_False in Hno by (lia || eauto). done.
  - intros inst' iters' Hlk. destruct (decide (inst' = inst)) as [->|].
    + by rewrite lookup_delete_eq in Hlk.
    + rewrite lookup_delete_ne in Hlk by done. eauto.
Qed.

Lemma shrink_round_spec m ts t :
  mgr_inv m -> targets_ m = ts ++ [t] ->
  if 0 <? inflycnt t then shrink_round m = Ok None
  else exists m', shrink_round m = Ok (Some m') /\ mgr_inv m' /\ targets_ m' = ts /\
    pool m' = pool m /\ thread_hint_ m' = thread_hint_ m.
Proof.
  intros HI Hts. unfold shrink_round. rewrite Hts, last_snoc.
  assert (t ∈ targets_ m) as Hin by (rewrite Hts; set_solver).
  pose proof (target_count m t HI Hin) as Hc.
  pose proof (jobs_of_range (node t) (pool m)).
  rewrite cassert_true by (apply Z.leb_le; lia). simpl.
  destruct (Z.ltb_spec 0 (inflycnt t)); [done|].
  pose proof (proj1 (Forall_forall _ _) (inv_range _ HI) t Hin) as Hw. simpl in Hw.
  destruct (try_pop_map_spec m (dstid (stub t)) (dstworkerid (stub t)) (node t))
    as (map' & r & -> & Hpk & Hrows); [done| |apply HI|].
  { apply (inv_index _ HI); [lia|]. by exists t. }
  simpl. rewrite Hts, removelast_last. eexists. split; [done|].
  split; [|done]. apply (inv_remove m ts t); try done; [lia|].
  intros inst wid Hw'. apply Hpk. done.
Qed.

Lemma lru_shrink_snoc cap l k n :
  lru_shrink cap (l ++ [(k, n)]) =
  if (cap <? vsize l + 1) && (n =? 0) then lru_shrink cap l else l ++ [(k, n)].
Proof.
  unfold lru_shrink. rewrite reverse_snoc. cbn [lru_evict].
  replace (vsize ((k, n) :: reverse l)) with (vsize l + 1)
    by (unfold vsize; simpl; rewrite length_reverse; lia).
  destruct (_ && _); [done|]. by rewrite reverse_cons, reverse_involutive.
Qed.

Lemma lru_shrink_small cap l : vsize l <= cap -> lru_shrink cap l = l.
Proof.
  destruct l as [|[k n] l _] using rev_ind; [done|]. unfold vsize.
  rewrite length_app, lru_shrink_snoc. simpl. intros Hle.
  destruct (Z.ltb_spec cap (vsize l + 1)); [unfold vsize in *; lia|done].
Qed.

Lemma vsize_abs m : vsize (abs m) = vsize (targets_ m).
Proof. unfold vsize, abs. by rewrite length_fmap. Qed.

Lemma shrink_loop_spec cap fuel m :
  0 <= cap -> mgr_inv m -> (length (targets_ m) <= fuel)%nat ->
  exists m', shrink_loop fuel cap m = Ok m' /\ mgr_inv m' /\
    abs m' = lru_shrink cap (abs m) /\ pool m' = pool m /\ thread_hint_ m' = thread_hint_ m.
Proof.
  intros Hcap. revert m. induction fuel as [|fuel IH]; intros m HI Hf; cbn [shrink_loop];
    (destruct (Z.ltb_spec cap (vsize (targets_ m))) as [Hlt|Hge];
      [|exists m; by rewrite lru_shrink_small by (rewrite vsize_abs; lia)]).
  { unfold vsize in Hlt. lia. }
  destruct (targets_ m) as [|t ts _] eqn:Hts using rev_ind; [unfold vsize in Hlt; simpl in Hlt; lia|].
  pose proof (shrink_round_spec m ts t HI Hts) as Hr.
  assert (t ∈ targets_ m) as Hin by (rewrite Hts; set_solver).
  pose proof (target_count m t HI Hin) as Hc.
  pose proof (jobs_of_range (node t) (pool m)).
  assert (abs m = (entry <$> ts) ++ [(target_key t, inflycnt t)]) as Habs
    by (unfold abs; by rewrite Hts, fmap_app).
  rewrite Habs, lru_shrink_snoc.
  replace (vsize (entry <$> ts) + 1) with (vsize (ts ++ [t]))
    by (unfold vsize; rewrite length_app, length_fmap; simpl; lia).
  destruct (Z.ltb_spec cap (vsize (ts ++ [t]))); [simpl|lia].
  destruct (Z.ltb_spec 0 (inflycnt t)), (Z.eqb_spec (inflycnt t) 0); try lia.
  - rewrite Hr. by exists m.
  - destruct Hr as (m' & -> & HI' & Hts' & Hp' & Hh'). simpl.
    rewrite length_app in Hf. simpl in Hf.
    destruct (IH m' HI') as (m2 & -> & HI2 & Habs2 & Hp2 & Hh2); [rewrite Hts'; lia|].
    exists m2. unfold abs in Habs2. rewrite Hts' in Habs2.
    split_and!; [done..| |]; congruence.
Qed.

Lemma try_shrink_spec cap m :
  0 <= cap -> mgr_inv m ->
  exists m', try_shrink cap m = Ok m' /\ mgr_inv m' /\
    abs m' = lru_shrink cap (abs m) /\ pool m' = pool m /\ thread_hint_ m' = thread_hint_ m.
Proof.
  intros Hcap HI. unfold try_shrink. destruct (Z.leb_spec (vsize (targets_ m)) cap).
  - exists m. by rewrite lru_shrink_small by (rewrite vsize_abs; lia).
  - unfold shrink. by apply shrink_loop_spec.
Qed.

(** ** Submissions *)

(** The batches of a step with their destinations, in iteration order. *)
Definition to_inst (inst : string) (ws : list (Z * BatchSendTask))
    : list ((string * Z) * BatchSendTask) := map (fun wb => ((inst, wb.1), wb.2)) ws.

Definition submissions (tasks : list (string * list (Z * BatchSendTask)))
    : list ((string * Z) * BatchSendTask) :=
  flat_map (fun iw => to_inst iw.1 iw.2) tasks.

Definition tasks_ok (tasks : list (string * list (Z * BatchSendTask))) : Prop :=
  Forall (fun '(inst, ws) => ws <> [] /\
    Forall (fun '(wid, b) => wid_ok wid /\ batch_for (inst, wid) b) ws) tasks.

(** [b] as it reaches a stub. *)
Definition stamped (step : nat) (sub : Z) (b : BatchSendTask) : BatchSendTask :=
  mkBatch (Some step) (batch_tasks b) sub.

Definition submitted (step : nat) (sub : Z) (l : list ((string * Z) * BatchSendTask))
    (m : TargetMgr) (r : res TargetMgr) : Prop :=
  exists m', r = Ok m' /\ mgr_inv m' /\ abs m' = foldl lru_submit (abs m) l.*1 /\
    thread_hint_ m' <= thread_hint_ m + vsize l /\
    exists js, pool m' = pool m ++ js /\ job_batch <$> js = stamped step sub <$> l.*2.

Lemma submitted_app step sub l1 l2 m m1 r :
  submitted step sub l1 m (Ok m1) -> submitted step sub l2 m1 r ->
  submitted step sub (l1 ++ l2) m r.
Proof.
  intros (m1' & [= <-] & HI1 & Ha1 & Hh1 & js1 & Hp1 & Hj1)
    (m' & -> & HI' & Ha' & Hh' & js & Hp' & Hj').
  exists m'. split_and!; [done..| | |].
  - by rewrite fmap_app, foldl_app, <- Ha1.
  - unfold vsize in *. rewrite length_app. lia.
  - exists (js1 ++ js). rewrite Hp', Hp1, app_assoc, !fmap_app, Hj1, Hj'. done.
Qed.

(** Room for [n] more batches. *)
Definition room (n : Z) (m : TargetMgr) : Prop :=
  vsize (pool m) + n <= INT_MAX /\ thread_hint_ m + n <= INT_MAX.

Lemma submitted_room step sub l m m1 n :
  submitted step sub l m (Ok m1) -> room (vsize l + n) m -> room n m1.
Proof.
  intros (m1' & [= <-] & _ & _ & Hh & js & Hp & Hj) [Hr1 Hr2]. split; [|lia].
  rewrite Hp. unfold vsize in *. rewrite length_app.
  apply (f_equal length) in Hj. rewrite !length_fmap in Hj. lia.
Qed.

Lemma submit_workers step sub inst ws m :
  mgr_inv m -> room (vsize ws) m ->
  Forall (fun '(wid, b) => wid_ok wid /\ batch_for (inst, wid) b) ws ->
  submitted step sub (to_inst inst ws) m
    (forM ws (fun '(_, b) m => submit_one step sub m b) m).
Proof.
  intros HI Hroom Hws. revert m HI Hroom.
  induction Hws as [|[wid b] ws [Hw Hb] _ IH]; intros m HI Hroom; csimpl.
  { exists m. split_and!; try done; [unfold vsize; simpl; lia|]. exists []. by rewrite app_nil_r. }
  assert (1 <= vsize ((wid, b) :: ws)) by (unfold vsize; simpl; lia).
  destruct (submit_one_spec step sub m (inst, wid) b HI Hw Hb)
    as (m1 & Hs & HI1 & Ha1 & Hh1 & it & h & Hp1); [destruct Hroom; lia..|].
  assert (submitted step sub [((inst, wid), b)] m (Ok m1)) as Hone.
  { exists m1. split_and!; [done..| |].
    - unfold vsize. simpl. lia.
    - by eexists. }
  rewrite Hs. simpl. change (_ :: ?l) with ([((inst, wid), b)] ++ l).
  eapply submitted_app; [exact Hone|]. apply IH; [done|].
  eapply submitted_room; [exact Hone|].
  replace (vsize _ + vsize ws) with (vsize ((wid, b) :: ws)); [done|].
  unfold vsize. simpl length. lia.
Qed.

Lemma submit_all step sub tasks m :
  mgr_inv m -> tasks_ok tasks -> room (vsize (submissions tasks)) m ->
  submitted step sub (submissions tasks) m
    (forM tasks (fun '(_, workers_task) m =>
       assert: (0 <? vsize workers_task);
       forM workers_task (fun '(_, b) m => submit_one step sub m b) m) m).
Proof.
  intros HI Hts. revert m HI.
  induction Hts as [|[inst ws] tasks [Hne Hws] _ IH]; intros m HI Hroom; cbn [forM].
  { exists m. split_and!; try done; [unfold vsize; simpl; lia|].
    exists []. by rewrite app_nil_r. }
  assert (0 < vsize ws) by (unfold vsize; destruct ws; simpl; [done|lia]).
  assert (vsize (submissions ((inst, ws) :: tasks)) =
    vsize (to_inst inst ws) + vsize (submissions tasks)) as Hn
    by (unfold vsize; simpl; rewrite length_app; lia).
  assert (vsize (to_inst inst ws) = vsize ws) as Hw
    by (unfold vsize, to_inst; by rewrite length_map).
  rewrite cassert_true by (by apply Z.ltb_lt). cbn [rbind].
  destruct (submit_workers step sub inst ws m) as (m1 & Hok & Hrest); [done| |done|].
  { destruct Hroom. split; pose proof (Nat2Z.is_nonneg (length (submissions tasks)));
      unfold vsize in *; lia. }
  rewrite Hok. cbn [rbind submissions flat_map].
  assert (submitted step sub (to_inst inst ws) m (Ok m1)) as Hone by (by exists m1).
  eapply submitted_app; [exact Hone|]. apply IH; [apply Hrest|].
  eapply submitted_room; [exact Hone|]. by rewrite <- Hn.
Qed.

(** ** Interleavings

    The manager thread submits and evicts, the pool threads finish jobs in any order. *)
Inductive mgr_reachable : TargetMgr -> Prop :=
| mgr_start : mgr_reachable empty_mgr
| mgr_submit m step sub k b m' :
    mgr_reachable m -> wid_ok k.2 -> batch_for k b -> room 1 m ->
    submit_one step sub m b = Ok m' -> mgr_reachable m'
| mgr_evict m m' :
    mgr_reachable m -> targets_ m <> [] -> shrink_round m = Ok (Some m') -> mgr_reachable m'
| mgr_finish m k j m' :
    mgr_reachable m -> pool m !! k = Some j -> finish_job k m = Ok m' -> mgr_reachable m'.

Lemma empty_mgr_inv : mgr_inv empty_mgr.
Proof.
  split; simpl; try constructor; try done.
  by intros (t & ?%elem_of_nil & _).
Qed.

Lemma mgr_reachable_inv m : mgr_reachable m -> mgr_inv m /\ vsize (pool m) <= INT_MAX.
Proof.
  induction 1 as [|m step sub k b m' _ [HI Hp] Hw Hb [Hr1 Hr2] Hs
                 |m m' _ [HI Hp] Hne Hs|m k j m' _ [HI Hp] Hk Hs].
  - split; [apply empty_mgr_inv|done].
  - destruct (submit_one_spec step sub m k b HI Hw Hb)
      as (m1 & Hs1 & HI1 & _ & _ & it & h & Hp1); [lia..|].
    rewrite Hs1 in Hs. simplify_eq. split; [done|].
    rewrite Hp1. unfold vsize in *. rewrite length_app. simpl. lia.
  - destruct (targets_ m) as [|t ts _] eqn:Hts using rev_ind; [done|].
    pose proof (shrink_round_spec m ts t HI Hts) as Hr. case_match; [congruence|].
    destruct Hr as (m1 & Hs1 & HI1 & _ & Hp1 & _). rewrite Hs1 in Hs. simplify_eq.
    by rewrite Hp1.
  - destruct (finish_job_spec m k j HI Hp Hk) as (m1 & Hs1 & HI1 & Hp1 & _).
    rewrite Hs1 in Hs. simplify_eq. split; [done|]. rewrite Hp1.
    unfold vsize in *. rewrite length_delete by eauto. lia.
Qed.

(** ** Theorems *)

(** C27: TargetMgr::do_submit with the intrusive list and the per-instance index implements
    a least-recently-used table: it succeeds, keeps the invariant that list and index agree,
    the table becomes the abstract one (each destination moved or added to the front with
    one more job in flight, then idle entries dropped from the back down to the capacity),
    and the jobs handed to the pool are the batches in order, stamped with the step. For
    worker ids below 2^32-1 (client.cpp resizes a vector to worker_id + 1, a 32-bit sum) and
    as long as the in-flight counts and the thread hint, which are ints, have room for the
    batches. *)
Theorem do_submit_refines_lru step sub cap tasks m :
  mgr_inv m -> tasks_ok tasks -> 0 <= cap -> room (vsize (submissions tasks)) m ->
  exists m' js, do_submit step sub cap tasks m = Ok m' /\ mgr_inv m' /\
    abs m' = lru_shrink cap (foldl lru_submit (abs m) (submissions tasks).*1) /\
    pool m' = pool m ++ js /\ job_batch <$> js = stamped step sub <$> (submissions tasks).*2.
Proof.
  intros HI Hts Hcap Hroom. unfold do_submit.
  destruct (submit_all step sub tasks m HI Hts Hroom)
    as (m1 & -> & HI1 & Ha1 & _ & js & Hp1 & Hj1).
  simpl. destruct (try_shrink_spec cap m1 Hcap HI1) as (m2 & -> & HI2 & Ha2 & Hp2 & _).
  exists m2, js. split_and!; [done..| | |done]; congruence.
Qed.

(** C28: In every reachable state of the target manager a job of the send pool can run to
    its end: its target is still in the list and belongs to the destination of its batch,
    and two jobs for the same destination use the same target and the same pool thread, so
    they run in order. Worker ids are below 2^32-1. *)
Theorem pool_jobs_have_live_targets m :
  mgr_reachable m ->
  (forall k j, pool m !! k = Some j ->
     (exists m', finish_job k m = Ok m') /\
     exists t, deref (job_target j) (targets_ m) = Ok t /\
       batch_dest (job_batch j) = Some (target_key t)) /\
  (forall j j', j ∈ pool m -> j' ∈ pool m ->
     batch_dest (job_batch j) = batch_dest (job_batch j') ->
     job_target j = job_target j' /\ job_hint j = job_hint j').
Proof.
  intros [HI Hp]%mgr_reachable_inv. pose proof (inv_jobs _ HI) as Hj. rewrite Forall_forall in Hj.
  split.
  - intros k j Hk. destruct (finish_job_spec m k j HI Hp Hk) as (m' & Hf & _).
    split; [by exists m'|].
    destruct (Hj j ltac:(eauto using list_elem_of_lookup_2)) as (t & Ht & <- & _ & Hd).
    exists t. split; [|done]. apply deref_in; [apply HI|done].
  - intros j j' Hin Hin' Hd.
    destruct (Hj j Hin) as (t & Ht & <- & Hh & Hk).
    destruct (Hj j' Hin') as (t' & Ht' & <- & Hh' & Hk').
    assert (t = t') as ->; [|split; congruence].
    rewrite Hk, Hk' in Hd. injection Hd as Heq1 Heq2.
    apply (node_inj (targets_ m)); [apply HI|done..|].
    assert (peek m (dstid (stub t)) (dstworkerid (stub t)) = Some (node t)) as Hp1.
    { apply (inv_index _ HI); [|by exists t].
      by apply (proj1 (Forall_forall _ _) (inv_range _ HI) t). }
    assert (peek m (dstid (stub t)) (dstworkerid (stub t)) = Some (node t')) as Hp2.
    { apply (inv_index _ HI); [|by exists t'; rewrite Heq1, Heq2].
      by apply (proj1 (Forall_forall _ _) (inv_range _ HI) t). }
    congruence.
Qed.
End Mgr.

(** ** Examples *)
Definition sample_request (inst : string) (wid : Z) : ReqSendTask :=
  mkReqSendTask 0 (mkRequestInfo inst wid None "r" [[1]] [[2]]) 0 16 true.

Definition sample_batch (inst : string) (wid : Z) : BatchSendTask :=
  mkBatch None [sample_request inst wid] 0.

Definition sample_tasks : list (string * list (Z * BatchSendTask)) :=
  [("d0"%string, [(1, sample_batch "d0" 1); (0, sample_batch "d0" 0)]);
   ("d1"%string, [(2, sample_batch "d1" 2)])].

Lemma sample_batch_for inst wid : batch_for (inst, wid) (sample_batch inst wid).
Proof. split; [done|]. by eexists _, _. Qed.

Lemma sample_tasks_ok : tasks_ok sample_tasks.
Proof. repeat constructor; simpl; try done; apply sample_batch_for. Qed.

Lemma do_submit_refines_lru_witness :
  exists m' js, @do_submit debug_env 2 7 0 1 sample_tasks empty_mgr = Ok m' /\ mgr_inv m' /\
    abs m' = [("d1"%string, 2, 1); ("d0"%string, 0, 1); ("d0"%string, 1, 1)] /\
    pool m' = [] ++ js /\
    job_batch <$> js = stamped 7 0 <$> (submissions sample_tasks).*2.
Proof.
  apply (@do_submit_refines_lru debug_env 2 7 0 1 sample_tasks empty_mgr).
  - apply empty_mgr_inv.
  - apply sample_tasks_ok.
  - lia.
  - split; reflexivity || (vm_compute; congruence).
Defined.

Definition one_job : TargetMgr :=
  mkMgr [mkTarget 0 1 1 (create_stub "d0" 1 0 2 None)] {["d0"%string := [None; Some 0%nat]]} 1 1
    [mkJob 0 1 (stamped 7 0 (sample_batch "d0" 1))].

Lemma pool_jobs_have_live_targets_witness :
  (forall k j, pool one_job !! k = Some j ->
     (exists m', @finish_job debug_env k one_job = Ok m') /\
     exists t, deref (job_target j) (targets_ one_job) = Ok t /\
       batch_dest (job_batch j) = Some (target_key t)) /\
  (forall j j', j ∈ pool one_job -> j' ∈ pool one_job ->
     batch_dest (job_batch j) = batch_dest (job_batch j') ->
     job_target j = job_target j' /\ job_hint j = job_hint j').
Proof.
  apply (@pool_jobs_have_live_targets debug_env 2).
  apply (mgr_submit 2 empty_mgr 7 0 ("d0"%string, 1) (sample_batch "d0" 1)).
  - apply mgr_start.
  - vm_compute. split; congruence.
  - apply sample_batch_for.
  - split; vm_compute; congruence.
  - reflexivity.
Defined.
