(* ===== verification/Client.v ===== *)
(** The client ([src/client.cpp], [KvTransferClient]; [update_send] of [include/common.h]):
    requests and their delta sends, the tasks collected for the next step, the steps, and
    the coordination of the main thread with the thread that adds substeps.

    Objects behind shared pointers (requests, steps) live in stores and are named by their
    index.  [KvTransferException] and the parse errors of a worker record are raised before
    anything has changed, and every other failure ends the process, so a failed call has no
    state to describe. *)

From stdpp Require Import gmap list_tactics.
From S2P Require Import Prelude.
From S2P Require Import Common.
From S2P Require Import WorkerCodec.
From S2P Require Import Planner.
From S2P Require Import Step.
From S2P Require Import TargetMgr.

Definition UINT32_MAX : Z := W32 - 1.

(** ** Data *)

(** A request and its debug-only bookkeeping. *)
Record ReqCell := mkReqCell {
  cell_info : RequestInfo;
  last_seen_ : Z;
  has_last_ : bool;
}.

Record ReqMeta := mkReqMeta {
  dst_inst : string;
  dst_worker : Z;
  reqid : string;
  meta_seen_tokens : Z;
  meta_new_tokens : Z;
  src_block_ids : BlockIds;
  dst_block_ids : BlockIds;
  meta_worker_info : option WorkerInfo;
}.

Record StepMetas := mkStepMetas {
  metas_stepid : Z;
  metas_substepid : Z;
  metas_ : list ReqMeta;
}.

(** The entries of the unordered map are listed in order of insertion; the manager takes
    them in any order. *)
Record StepTasks := mkStepTasks {
  tasks : list (string * list (Z * BatchSendTask));
  stepid_ : Z;
  substepid_ : Z;
}.

Definition no_tasks : StepTasks := mkStepTasks [] 0 0.

Definition tasks_empty (st : StepTasks) : bool :=
  match tasks st with [] => true | _ => false end.

(** A [Step] with the record signal of its guard. *)
Record StepObj := mkStepObj {
  step_idx : Z;
  step_data : SyncSemaphore;
  guard_record : SyncSemaphore;
}.

Record Client := mkClient {
  heap : list ReqCell;
  steps_ : list StepObj;
  reqs_ : gmap string (list nat);
  targets_tasks_buf_ : StepTasks;
  waiting : list nat;                     (* guards given to [single_thd_] *)
  submits : list (nat * StepTasks);       (* what [mgr_.submit] got, in order *)
  coord_step_id_ : Z;
  last_step_guard_ : option nat;
  pending_step_metas_ : list StepMetas;
}.

Definition new_client : Client := mkClient [] [] ∅ no_tasks [] [] 0 None [].

Definition set_heap (h : list ReqCell) (c : Client) : Client :=
  mkClient h (steps_ c) (reqs_ c) (targets_tasks_buf_ c) (waiting c) (submits c)
    (coord_step_id_ c) (last_step_guard_ c) (pending_step_metas_ c).
Definition set_steps (s : list StepObj) (c : Client) : Client :=
  mkClient (heap c) s (reqs_ c) (targets_tasks_buf_ c) (waiting c) (submits c)
    (coord_step_id_ c) (last_step_guard_ c) (pending_step_metas_ c).
Definition set_reqs (r : gmap string (list nat)) (c : Client) : Client :=
  mkClient (heap c) (steps_ c) r (targets_tasks_buf_ c) (waiting c) (submits c)
    (coord_step_id_ c) (last_step_guard_ c) (pending_step_metas_ c).
Definition set_buf (b : StepTasks) (c : Client) : Client :=
  mkClient (heap c) (steps_ c) (reqs_ c) b (waiting c) (submits c)
    (coord_step_id_ c) (last_step_guard_ c) (pending_step_metas_ c).
Definition add_waiting (g : nat) (c : Client) : Client :=
  mkClient (heap c) (steps_ c) (reqs_ c) (targets_tasks_buf_ c) (waiting c ++ [g]) (submits c)
    (coord_step_id_ c) (last_step_guard_ c) (pending_step_metas_ c).
Definition set_coord (id : Z) (g : option nat) (p : list StepMetas) (c : Client) : Client :=
  mkClient (heap c) (steps_ c) (reqs_ c) (targets_tasks_buf_ c) (waiting c) (submits c) id g p.

(** [TargetMgr::submit]: queued for the manager thread. *)
Definition submit (step : nat) (st : StepTasks) (c : Client) : Client :=
  mkClient (heap c) (steps_ c) (reqs_ c) (targets_tasks_buf_ c) (waiting c)
    (submits c ++ [(step, st)]) (coord_step_id_ c) (last_step_guard_ c)
    (pending_step_metas_ c).

Section Client.
Context `{Env} (ctx_num_layers : Z).

(** ** Tasks *)

(** [RequestInfo::update_send]. *)
Definition update_send (c : ReqCell) (seen new_tokens : Z) (has_last : bool) : res ReqCell :=
  if ndebug then Ok c else
  assert: negb (has_last_ c);
  let last_seen := if last_seen_ c =? UINT32_MAX then seen else last_seen_ c in
  assert: (last_seen =? seen);
  Ok (mkReqCell (cell_info c) (u32 (last_seen + new_tokens)) has_last).

(** Append a task to the batch of its worker, which is created at the end if missing. *)
Fixpoint add_to_worker (wid : Z) (t : ReqSendTask) (ws : list (Z * BatchSendTask))
    : res (list (Z * BatchSendTask)) :=
  match ws with
  | [] => Ok [(wid, mkBatch None [t] 0)]
  | (w, b) :: rest =>
      if w =? wid then
        assert: negb (bool_decide (is_Some (batch_step b)));
        Ok ((w, mkBatch (batch_step b) (batch_tasks b ++ [t]) (batch_substepid b)) :: rest)
      else let* rest := add_to_worker wid t rest in Ok ((w, b) :: rest)
  end.

(** The same for the row of its instance, [steptasks.tasks[inst]]. *)
Fixpoint add_to_inst (inst : string) (wid : Z) (t : ReqSendTask)
    (l : list (string * list (Z * BatchSendTask)))
    : res (list (string * list (Z * BatchSendTask))) :=
  match l with
  | [] => let* ws := add_to_worker wid t [] in Ok [(inst, ws)]
  | (i, ws) :: rest =>
      if bool_decide (i = inst)
      then let* ws := add_to_worker wid t ws in Ok ((i, ws) :: rest)
      else let* rest := add_to_inst inst wid t rest in Ok ((i, ws) :: rest)
  end.

(** [add_send_task]; [p] is the request. *)
Definition add_send_task (h : list ReqCell) (st : StepTasks) (p : nat) (seen new_tokens : Z)
    (has_last : bool) : res (list ReqCell * StepTasks) :=
  match h !! p with
  | None => Err Undefined
  | Some c =>
      let* c' := update_send c seen new_tokens has_last in
      let r := cell_info c in
      let* l := add_to_inst (dst_inst_id r) (dst_worker_id r)
                  (mkReqSendTask p r seen new_tokens has_last) (tasks st) in
      Ok (<[p := c']> h, mkStepTasks l (stepid_ st) (substepid_ st))
  end.

(** [std::make_shared<RequestInfo>(...)]. *)
Definition new_cell (r : RequestInfo) : ReqCell := mkReqCell r UINT32_MAX false.

(** One round of [create_step_tasks]. *)
Definition add_meta (m : ReqMeta) (s : list ReqCell * StepTasks)
    : res (list ReqCell * StepTasks) :=
  let '(h, st) := s in
  let* _ := rtassert (0 <? meta_new_tokens m) in
  let r := mkRequestInfo (dst_inst m) (dst_worker m) (meta_worker_info m) (reqid m)
             (src_block_ids m) (dst_block_ids m) in
  add_send_task (h ++ [new_cell r]) st (length h) (meta_seen_tokens m) (meta_new_tokens m) true.

(** [create_step_tasks]. *)
Definition create_step_tasks (h : list ReqCell) (stepid substepid : Z) (metas : list ReqMeta)
    : res (list ReqCell * StepTasks) :=
  forM metas add_meta (h, mkStepTasks [] stepid substepid).

(** ** Sending without a running step *)

(** [start_req_send]: a step of its own, all layers ready from the start. *)
Definition start_req_send (metas : list ReqMeta) (stepid substepid : Z) (c : Client)
    : res Client :=
  let* '(h, st) := create_step_tasks (heap c) stepid substepid metas in
  let c := set_heap h c in
  if tasks_empty st then Ok c else
  let step := length (steps_ c) in
  let obj := mkStepObj stepid (release_to (mkSem 0) ctx_num_layers).1 (mkSem 0) in
  Ok (submit step st (set_steps (steps_ c ++ [obj]) c)).

(** ** Collecting tasks for the next step *)

(** [parse_worker_info]. *)
Definition parse_worker_info (s : option string) : res (option WorkerInfo) :=
  match s with
  | None => Ok None
  | Some s => let* w := from_string s in Ok (Some w)
  end.

(** The check of the step against the tasks collected so far. *)
Definition check_buf (buf : StepTasks) (stepid substepid : Z) : res StepTasks :=
  if tasks_empty buf then Ok (mkStepTasks (tasks buf) stepid substepid)
  else let* _ := rtassert (stepid_ buf =? stepid) in
       let* _ := rtassert (substepid_ buf =? substepid) in
       Ok buf.

(** [submit_req_send]. *)
Definition submit_req_send (inst : string) (wid : Z) (rid : string) (seen new_tokens : Z)
    (has_last : bool) (src dst : BlockIds) (info : option string) (stepid substepid : Z)
    (c : Client) : res Client :=
  assert: (substepid =? 0);
  let* _ := rtassert (0 <? new_tokens) in
  let* winfo := parse_worker_info info in
  let* buf := check_buf (targets_tasks_buf_ c) stepid substepid in
  let p := length (heap c) in
  let r := mkRequestInfo inst wid winfo rid src dst in
  let* '(h, buf) := add_send_task (heap c ++ [new_cell r]) buf p seen new_tokens has_last in
  let c := set_buf buf (set_heap h c) in
  Ok (if has_last then c
      else set_reqs (<[rid := default [] (reqs_ c !! rid) ++ [p]]> (reqs_ c)) c).

(** [submit_delta_send]. *)
Definition submit_delta_send (rid : string) (seen new_tokens : Z) (has_last : bool)
    (stepid substepid : Z) (c : Client) : res Client :=
  assert: (substepid =? 0);
  let* buf := check_buf (targets_tasks_buf_ c) stepid substepid in
  let c := set_buf buf c in
  match reqs_ c !! rid with
  | None => Ok c
  | Some ps =>
      let* _ := if new_tokens <=? 0 then cassert has_last else Ok tt in
      let* '(h, buf) := forM ps (fun p '(h, buf) =>
        add_send_task h buf p seen new_tokens has_last) (heap c, buf) in
      let c := set_buf buf (set_heap h c) in
      Ok (if has_last then set_reqs (delete rid (reqs_ c)) c else c)
  end.

(** ** Substeps *)
Inductive Action :=
| kReturn                    (* nothing to do, or left pending *)
| kAttachCurrent (step : nat)
| kNewFreeze.

(** Pending substeps are of one step, in increasing order. *)
Definition check_pending (stepid substepid : Z) (pending : list StepMetas) : res unit :=
  match last pending with
  | None => Ok tt
  | Some meta =>
      let* _ := rtassert (metas_stepid meta =? stepid) in
      rtassert (metas_substepid meta <? substepid)
  end.

(** The part of [start_send_substep] under [coord_lock_]. *)
Definition substep_locked (stepid substepid : Z) (metas : list ReqMeta) (c : Client)
    : res (Client * Action) :=
  if stepid <? coord_step_id_ c then Ok (c, kNewFreeze)
  else if coord_step_id_ c <? stepid then
    let* _ := check_pending stepid substepid (pending_step_metas_ c) in
    Ok (set_coord (coord_step_id_ c) (last_step_guard_ c)
          (pending_step_metas_ c ++ [mkStepMetas stepid substepid metas]) c, kReturn)
  else match last_step_guard_ c with
       | Some step => Ok (c, kAttachCurrent step)
       | None => Ok (c, kNewFreeze)
       end.

(** The part after the lock has been released. *)
Definition substep_send (stepid substepid : Z) (metas : list ReqMeta) (a : Action) (c : Client)
    : res Client :=
  match a with
  | kReturn => Ok c
  | kNewFreeze => start_req_send metas stepid substepid c
  | kAttachCurrent step =>
      let* '(h, st) := create_step_tasks (heap c) stepid substepid metas in
      assert: negb (tasks_empty st);
      Ok (submit step st (set_heap h c))
  end.

(** [start_send_substep]. *)
Definition start_send_substep (stepid substepid : Z) (metas : list ReqMeta) (c : Client)
    : res Client :=
  match metas with
  | [] => Ok c
  | _ => let* '(c, a) := substep_locked stepid substepid metas c in
         substep_send stepid substepid metas a c
  end.

(** ** Steps *)
Definition EMPTY_STEP_ID : Z := 9223372036854775807.

(** [start_send] up to the lock: the step, its waiting thread and the collected tasks. *)
Definition start_begin (stepid : Z) (c : Client) : res (Client * nat) :=
  let step := length (steps_ c) in
  let c := add_waiting step (set_steps (steps_ c ++ [mkStepObj stepid (mkSem 0) (mkSem 0)]) c) in
  let tmp_tasks := targets_tasks_buf_ c in
  let c := set_buf no_tasks c in
  if tasks_empty tmp_tasks then Ok (c, step) else
  assert: (substepid_ tmp_tasks =? 0);
  Ok (submit step tmp_tasks c, step).

(** The part of [start_send] under [coord_lock_]. *)
Definition start_locked (stepid : Z) (step : nat) (c : Client)
    : res (Client * list StepMetas) :=
  assert: negb (bool_decide (is_Some (last_step_guard_ c)));
  Ok (set_coord stepid (Some step) [] c, pending_step_metas_ c).

(** The substeps that had arrived early. *)
Definition start_pending (stepid : Z) (step : nat) (ms : list StepMetas) (c : Client)
    : res Client :=
  let* '(_, c) := forM ms (fun m '(substepid, c) =>
    assert: (metas_stepid m =? stepid);
    assert: (substepid <? metas_substepid m);
    let* '(h, st) := create_step_tasks (heap c) (metas_stepid m) (metas_substepid m) (metas_ m) in
    assert: negb (tasks_empty st);
    Ok (metas_substepid m, submit step st (set_heap h c))) (0, c) in
  Ok c.

(** [start_send]. *)
Definition start_send (stepid sched_tokens : Z) (c : Client) : res (Client * Z) :=
  if (sched_tokens =? 0) && tasks_empty (targets_tasks_buf_ c) then Ok (c, EMPTY_STEP_ID) else
  let* '(c, step) := start_begin stepid c in
  let* '(c, ms) := start_locked stepid step c in
  let* c := start_pending stepid step ms c in
  Ok (c, stepid).

(** The guard of the current step, if it is step [step_id]. *)
Definition current_guard (step_id : Z) (c : Client) : res (nat * StepObj) :=
  match last_step_guard_ c with
  | None => Err RuntimeError
  | Some g =>
      match steps_ c !! g with
      | None => Err Undefined
      | Some o => if step_idx o =? step_id then Ok (g, o) else Err RuntimeError
      end
  end.

(** [notify_event_record]. *)
Definition notify_event_record (step_id : Z) (c : Client) : res Client :=
  assert: tasks_empty (targets_tasks_buf_ c);
  let* '(g, o) := current_guard step_id c in
  Ok (set_steps (<[g := mkStepObj (step_idx o) (step_data o) (release (guard_record o))]> (steps_ c)) c).

(** [flush_send]. *)
Definition flush_send (step_id : Z) (c : Client) : res Client :=
  assert: tasks_empty (targets_tasks_buf_ c);
  let* '(g, o) := current_guard step_id c in
  let c := set_steps (<[g := mkStepObj (step_idx o) (step_data o)
                          (release_to (guard_record o) ctx_num_layers).1]> (steps_ c)) c in
  assert: (match pending_step_metas_ c with [] => true | _ => false end);
  Ok (set_coord (coord_step_id_ c) None (pending_step_metas_ c) c).

(** ** Specification *)

(** What a task asks for: the request, the tokens and whether they are the last. *)
Definition view : Type := RequestInfo * Z * Z * bool.

Definition task_view (t : ReqSendTask) : view :=
  (req t, seen_tokens t, new_tokens t, reach_last_token t).

Definition meta_request (m : ReqMeta) : RequestInfo :=
  mkRequestInfo (dst_inst m) (dst_worker m) (meta_worker_info m) (reqid m)
    (src_block_ids m) (dst_block_ids m).

Definition meta_view (m : ReqMeta) : view :=
  (meta_request m, meta_seen_tokens m, meta_new_tokens m, true).

(** The tasks of a row of workers, of a step, of all steps handed to the manager. *)
Definition row_views (ws : list (Z * BatchSendTask)) : list view :=
  flat_map (fun wb => task_view <$> batch_tasks wb.2) ws.

Definition views (l : list (string * list (Z * BatchSendTask))) : list view :=
  flat_map (fun iw => row_views iw.2) l.

Definition submitted_views (l : list (nat * StepTasks)) : list view :=
  flat_map (fun s => views (tasks s.2)) l.

Definition metas_views (l : list StepMetas) : list view :=
  flat_map (fun m => meta_view <$> metas_ m) l.

(** ** Grouping tasks by destination *)

(** Every task of the batch is for the destination [k]. *)
Definition batch_of (k : string * Z) (b : BatchSendTask) : Prop :=
  batch_step b = None /\ batch_tasks b <> [] /\
  Forall (fun t => (dst_inst_id (req t), dst_worker_id (req t)) = k) (batch_tasks b).

(** One batch per worker of an instance, one row per instance. *)
Definition row_ok (inst : string) (ws : list (Z * BatchSendTask)) : Prop :=
  NoDup ws.*1 /\ Forall (fun '(wid, b) => wid_ok wid /\ batch_of (inst, wid) b) ws.

Definition grouped (l : list (string * list (Z * BatchSendTask))) : Prop :=
  NoDup l.*1 /\ Forall (fun '(inst, ws) => ws <> [] /\ row_ok inst ws) l.

#[export] Instance grouped_proper : Proper ((≡ₚ) ==> iff) grouped.
Proof. intros l l' Hl. unfold grouped. by rewrite Hl. Qed.

Lemma batch_of_for k b : batch_of k b -> batch_for k b.
Proof.
  intros (Hs & Hne & Hk). split; [done|]. destruct (batch_tasks b) as [|t ts]; [done|].
  apply Forall_inv in Hk. by exists t, ts.
Qed.

Lemma grouped_tasks_ok l : grouped l -> tasks_ok l.
Proof.
  intros [_ Hl]. unfold tasks_ok. eapply Forall_impl; [exact Hl|]. intros [inst ws] [Hne [_ Hws]]. split; [done|].
  eapply Forall_impl; [exact Hws|]. intros [wid b] [Hw Hb]. split; [done|by apply batch_of_for].
Qed.

Lemma grouped_nil : grouped [].
Proof. split; constructor. Qed.

Lemma add_to_worker_spec inst wid t ws :
  wid_ok wid -> (dst_inst_id (req t), dst_worker_id (req t)) = (inst, wid) -> row_ok inst ws ->
  exists ws', add_to_worker wid t ws = Ok ws' /\ ws' <> [] /\ row_ok inst ws' /\
    (forall w, w ∈ ws'.*1 -> w ∈ ws.*1 \/ w = wid) /\ row_views ws' ≡ₚ row_views ws ++ [task_view t].
Proof.
  intros Hw Hk. induction ws as [|[w b] ws IH]; intros [Hnd Hws]; simpl.
  { eexists. split; [done|]. split; [done|]. split; [|split; [set_solver|done]].
    split; [apply NoDup_singleton|]. apply Forall_singleton. split; [done|]. split_and!; [done|done|by apply Forall_singleton]. }
  apply Forall_cons in Hws as [[Hw' Hb] Hws]. rewrite fmap_cons in Hnd. apply NoDup_cons in Hnd as [Hn Hnd]. simpl in Hn.
  destruct (Z.eqb_spec w wid) as [->|Hne].
  - destruct Hb as (Hs & Hne & Hb). rewrite cassert_true by (by rewrite Hs). simpl.
    eexists. split; [done|]. split; [done|]. split; [|split; [set_solver|]].
    + split; [by apply NoDup_cons|]. constructor; [|done]. split; [done|]. split_and!; [done|by destruct (batch_tasks b)|].
      apply Forall_app. split; [done|by apply Forall_singleton].
    + simpl. rewrite fmap_app, <- !app_assoc. apply Permutation_app_head. csimpl.
      apply Permutation_cons_append.
  - destruct IH as (ws' & -> & _ & [Hnd' Hok] & Hin & Hv); [done|]. simpl.
    eexists. split; [done|]. split; [done|]. split; [|split; [set_solver|]].
    + split; [|by constructor]. csimpl. apply NoDup_cons. split; [|done]. intros [?|?]%Hin; done.
    + simpl. by rewrite Hv, app_assoc.
Qed.

Lemma add_to_inst_spec inst wid t l :
  wid_ok wid -> (dst_inst_id (req t), dst_worker_id (req t)) = (inst, wid) -> grouped l ->
  exists l', add_to_inst inst wid t l = Ok l' /\ l' <> [] /\ grouped l' /\
    (forall i, i ∈ l'.*1 -> i ∈ l.*1 \/ i = inst) /\ views l' ≡ₚ views l ++ [task_view t].
Proof.
  intros Hw Hk. induction l as [|[i ws] l IH]; intros [Hnd Hl]; cbn [add_to_inst].
  { destruct (add_to_worker_spec inst wid t [] Hw Hk) as (ws' & -> & Hne & Hok & _ & Hv);
      [split; constructor|]. simpl.
    eexists. split; [done|]. split; [done|]. split; [|split; [set_solver|]].
    - split; [apply NoDup_singleton|by apply Forall_singleton].
    - simpl. by rewrite app_nil_r, Hv. }
  apply Forall_cons in Hl as [[Hne Hws] Hl]. rewrite fmap_cons in Hnd. apply NoDup_cons in Hnd as [Hn Hnd]. simpl in Hn.
  case_bool_decide as Hi.
  - subst i. destruct (add_to_worker_spec inst wid t ws Hw Hk Hws) as (ws' & -> & Hne' & Hok & _ & Hv).
    simpl. eexists. split; [done|]. split; [done|]. split; [|split; [set_solver|]].
    + split; [by apply NoDup_cons|by constructor].
    + simpl. rewrite Hv, <- !app_assoc. apply Permutation_app_head, Permutation_app_comm.
  - destruct IH as (l' & -> & _ & [Hnd' Hok] & Hin & Hv); [done|]. simpl.
    eexists. split; [done|]. split; [done|]. split; [|split; [set_solver|]].
    + split; [|by constructor]. csimpl. apply NoDup_cons. split; [|done]. intros [?|?]%Hin; done.
    + simpl. by rewrite Hv, app_assoc.
Qed.

(** ** Requests *)
Definition heap_ok (h : list ReqCell) : Prop :=
  Forall (fun c => wid_ok (dst_worker_id (cell_info c))) h.

Lemma update_send_info c seen n last :
  wpr (update_send c seen n last) (fun c' => cell_info c' = cell_info c).
Proof. unfold update_send. destruct ndebug; [done|]. by do 2 (apply wpr_bind, wpr_assert). Qed.

(** A new request accepts any first step. *)
Lemma update_send_fresh r seen n last :
  exists c', update_send (new_cell r) seen n last = Ok c' /\ cell_info c' = r.
Proof.
  unfold update_send. destruct ndebug eqn:Hd; [by eexists|]. simpl.
  rewrite cassert_true by done. simpl. rewrite cassert_true by apply Z.eqb_refl. simpl. eauto.
Qed.

Lemma add_send_task_spec h st p c seen n last :
  heap_ok h -> h !! p = Some c -> grouped (tasks st) ->
  wpr (add_send_task h st p seen n last) (fun '(h', st') =>
    heap_ok h' /\ length h' = length h /\ (forall q, cell_info <$> h' !! q = cell_info <$> h !! q) /\
    grouped (tasks st') /\ tasks st' <> [] /\
    views (tasks st') ≡ₚ views (tasks st) ++ [(cell_info c, seen, n, last)] /\
    stepid_ st' = stepid_ st /\ substepid_ st' = substepid_ st).
Proof.
  intros Hh Hp Hok. unfold add_send_task. rewrite Hp.
  apply wpr_bind. eapply wpr_mono; [apply update_send_info|]. intros c' Hc'. simpl.
  pose proof (Forall_lookup_1 _ _ _ _ Hh Hp) as Hw. simpl in Hw.
  destruct (add_to_inst_spec (dst_inst_id (cell_info c)) (dst_worker_id (cell_info c))
    (mkReqSendTask p (cell_info c) seen n last) (tasks st) Hw eq_refl Hok)
    as (l' & -> & Hne & Hok' & _ & Hv). simpl.
  split_and!; try done.
  - apply Forall_insert; [done|]. by rewrite Hc'.
  - by rewrite length_insert.
  - intros q. destruct (decide (q = p)) as [->|].
    + rewrite list_lookup_insert_eq by eauto using lookup_lt_Some. rewrite Hp. simpl. by rewrite Hc'.
    + by rewrite list_lookup_insert_ne.
Qed.

(** The batches of a list of metas: one task per meta, each under its destination. *)
Lemma add_meta_spec m h st :
  heap_ok h -> grouped (tasks st) -> 0 < meta_new_tokens m -> wid_ok (dst_worker m) ->
  exists h' st', add_meta m (h, st) = Ok (h', st') /\ heap_ok h' /\
    (forall q, (q < length h)%nat -> cell_info <$> h' !! q = cell_info <$> h !! q) /\
    (length h <= length h')%nat /\
    grouped (tasks st') /\ tasks st' <> [] /\
    views (tasks st') ≡ₚ views (tasks st) ++ [meta_view m].
Proof.
  intros Hh Hok Hn Hw. unfold add_meta. fold (meta_request m).
  rewrite (proj2 (Z.ltb_lt 0 _)) by done. simpl.
  assert (heap_ok (h ++ [new_cell (meta_request m)])) as Hh'.
  { apply Forall_app. split; [done|]. by constructor. }
  assert ((h ++ [new_cell (meta_request m)]) !! length h = Some (new_cell (meta_request m))) as Hp.
  { by rewrite lookup_app_r, Nat.sub_diag by lia. }
  pose proof (add_send_task_spec _ st _ _ (meta_seen_tokens m) (meta_new_tokens m) true Hh' Hp Hok)
    as Hs. revert Hs. unfold add_send_task. rewrite Hp.
  destruct (update_send_fresh (meta_request m) (meta_seen_tokens m) (meta_new_tokens m) true)
    as (c' & -> & Hc'). simpl.
  destruct (add_to_inst_spec (dst_inst m) (dst_worker m)
    (mkReqSendTask (length h) (meta_request m) (meta_seen_tokens m) (meta_new_tokens m) true)
    (tasks st) Hw eq_refl Hok) as (l' & -> & _). simpl.
  intros (Hh2 & Hlen & Hinfo & Hok' & Hne & Hv & _). eexists _, _.
  split_and!; try done.
  - intros q Hq. by rewrite Hinfo, lookup_app_l.
  - rewrite Hlen, length_app. lia.
Qed.

Definition metas_ok (ms : list ReqMeta) : Prop :=
  Forall (fun m => 0 < meta_new_tokens m /\ wid_ok (dst_worker m)) ms.

Lemma add_metas_spec ms h st :
  heap_ok h -> grouped (tasks st) -> metas_ok ms ->
  exists h' st', forM ms add_meta (h, st) = Ok (h', st') /\ heap_ok h' /\
    (length h <= length h')%nat /\ (ms <> [] \/ tasks st <> [] -> tasks st' <> []) /\
    grouped (tasks st') /\ views (tasks st') ≡ₚ views (tasks st) ++ (meta_view <$> ms).
Proof.
  intros Hh Hok Hms. revert h st Hh Hok.
  induction Hms as [|m ms [Hn Hw] _ IH]; intros h st Hh Hok; cbn [forM].
  { exists h, st. rewrite app_nil_r. split_and!; try done. tauto. }
  destruct (add_meta_spec m h st Hh Hok Hn Hw) as (h1 & st1 & -> & Hh1 & _ & Hl1 & Hok1 & Hne1 & Hv1).
  cbn [rbind]. destruct (IH h1 st1 Hh1 Hok1) as (h2 & st2 & -> & Hh2 & Hl2 & Hne2 & Hok2 & Hv2).
  exists h2, st2. split_and!; try done; [lia|auto|].
  rewrite Hv2, Hv1. csimpl. by rewrite <- app_assoc.
Qed.

Lemma create_step_tasks_spec h sid ssid ms :
  heap_ok h -> metas_ok ms ->
  exists h' st, create_step_tasks h sid ssid ms = Ok (h', st) /\ heap_ok h' /\
    (length h <= length h')%nat /\ (ms <> [] -> tasks_empty st = false) /\
    grouped (tasks st) /\ views (tasks st) ≡ₚ (meta_view <$> ms).
Proof.
  intros Hh Hms.
  destruct (add_metas_spec ms h (mkStepTasks [] sid ssid) Hh) as (h' & st & Heq & ? & ? & Hne & ? & ?);
    [apply grouped_nil|done|].
  exists h', st. split_and!; try done. intros Hms'. unfold tasks_empty.
  destruct (tasks st); [|done]. by destruct Hne; [left|].
Qed.

(** ** Threads

    The main thread makes the calls one after the other; the substep thread interleaves
    with it at the lock.  [start_req_send] may be called by any thread at any time.
    [received] collects what the callers asked for. *)
Inductive MainPc :=
| MLock (stepid : Z) (step : nat)
| MPending (stepid : Z) (step : nat) (ms : list StepMetas).

Record SubPc := mkSubPc {
  sub_stepid : Z;
  sub_substepid : Z;
  sub_metas : list ReqMeta;
  sub_action : Action;
}.

Record System := mkSystem {
  client : Client;
  main : option MainPc;
  sub : option SubPc;
}.

(** The tasks a delta send adds. *)
Definition delta_views (rid : string) (seen n : Z) (last : bool) (c : Client) : list view :=
  match reqs_ c !! rid with
  | None => []
  | Some ps => omap (fun p => (fun ce => (cell_info ce, seen, n, last)) <$> heap c !! p) ps
  end.

Inductive sys_step : System -> list view -> System -> Prop :=
| s_req c c' sb inst wid rid seen n last src dst info winfo sid ssid :
    submit_req_send inst wid rid seen n last src dst info sid ssid c = Ok c' ->
    parse_worker_info info = Ok winfo -> wid_ok wid ->
    sys_step (mkSystem c None sb) [(mkRequestInfo inst wid winfo rid src dst, seen, n, last)]
      (mkSystem c' None sb)
| s_delta c c' sb rid seen n last sid ssid :
    submit_delta_send rid seen n last sid ssid c = Ok c' ->
    sys_step (mkSystem c None sb) (delta_views rid seen n last c) (mkSystem c' None sb)
| s_begin c c' sb sid step :
    start_begin sid c = Ok (c', step) ->
    sys_step (mkSystem c None sb) [] (mkSystem c' (Some (MLock sid step)) sb)
| s_lock c c' sb sid step ms :
    start_locked sid step c = Ok (c', ms) ->
    sys_step (mkSystem c (Some (MLock sid step)) sb) []
      (mkSystem c' (Some (MPending sid step ms)) sb)
| s_pending c c' sb sid step ms :
    start_pending sid step ms c = Ok c' ->
    sys_step (mkSystem c (Some (MPending sid step ms)) sb) [] (mkSystem c' None sb)
| s_record c c' sb sid :
    notify_event_record sid c = Ok c' ->
    sys_step (mkSystem c None sb) [] (mkSystem c' None sb)
| s_flush c c' sb sid :
    flush_send sid c = Ok c' ->
    sys_step (mkSystem c None sb) [] (mkSystem c' None sb)
| s_direct c c' mn sb sid ssid ms :
    metas_ok ms -> start_req_send ms sid ssid c = Ok c' ->
    sys_step (mkSystem c mn sb) (meta_view <$> ms) (mkSystem c' mn sb)
| s_sub_lock c c' mn sid ssid ms a :
    ms <> [] -> metas_ok ms -> substep_locked sid ssid ms c = Ok (c', a) ->
    sys_step (mkSystem c mn None) (meta_view <$> ms)
      (mkSystem c' mn (Some (mkSubPc sid ssid ms a)))
| s_sub_send c c' mn sid ssid ms a :
    substep_send sid ssid ms a c = Ok c' ->
    sys_step (mkSystem c mn (Some (mkSubPc sid ssid ms a))) [] (mkSystem c' mn None).

Inductive sys_reachable : System -> list view -> Prop :=
| sys_start : sys_reachable (mkSystem new_client None None) []
| sys_next s vs s' received :
    sys_reachable s received -> sys_step s vs s' -> sys_reachable s' (received ++ vs).

(** Where the tasks are that have been asked for. *)
Definition main_views (mn : option MainPc) : list view :=
  match mn with Some (MPending _ _ ms) => metas_views ms | _ => [] end.

Definition sub_views (sb : option SubPc) : list view :=
  match sb with
  | Some p => match sub_action p with kReturn => [] | _ => meta_view <$> sub_metas p end
  | None => []
  end.

Definition accounted (s : System) : list view :=
  submitted_views (submits (client s)) ++ views (tasks (targets_tasks_buf_ (client s))) ++
  metas_views (pending_step_metas_ (client s)) ++ main_views (main s) ++ sub_views (sub s).

Record client_inv (s : System) : Prop := {
  ci_heap : heap_ok (heap (client s));
  ci_reqs : map_Forall (fun _ ps => Forall (fun p => (p < length (heap (client s)))%nat) ps)
              (reqs_ (client s));
  ci_buf : grouped (tasks (targets_tasks_buf_ (client s)));
  ci_submits : Forall (fun x => grouped (tasks x.2) /\ tasks x.2 <> []) (submits (client s));
  ci_pending : Forall (fun m => metas_ok (metas_ m) /\ metas_ m <> [])
                 (pending_step_metas_ (client s));
  ci_main : match main s with
            | Some (MPending _ _ ms) => Forall (fun m => metas_ok (metas_ m) /\ metas_ m <> []) ms
            | _ => True
            end;
  ci_sub : match sub s with
           | Some p => metas_ok (sub_metas p) /\ sub_metas p <> []
           | None => True
           end;
}.

(** ** No task is lost *)
Lemma submitted_views_snoc l x :
  submitted_views (l ++ [x]) = submitted_views l ++ views (tasks x.2).
Proof. unfold submitted_views. rewrite flat_map_app. simpl. by rewrite app_nil_r. Qed.

Lemma metas_views_snoc l m :
  metas_views (l ++ [m]) = metas_views l ++ (meta_view <$> metas_ m).
Proof. unfold metas_views. rewrite flat_map_app. simpl. by rewrite app_nil_r. Qed.

Lemma views_empty st : tasks_empty st = true -> views (tasks st) = [].
Proof. unfold tasks_empty. by destruct (tasks st). Qed.

Lemma nonempty_tasks st : tasks_empty st = false -> tasks st <> [].
Proof. unfold tasks_empty. by destruct (tasks st). Qed.

(** [s'] keeps the invariant and accounts for [vs] more. *)
Definition keeps (s : System) (vs : list view) (s' : System) : Prop :=
  client_inv s' /\ accounted s' ≡ₚ accounted s ++ vs.

(** Tasks are queued for the manager that were elsewhere before. *)
Lemma queue_submits c mn sb step st h :
  client_inv (mkSystem c mn sb) -> heap_ok h -> (length (heap c) <= length h)%nat ->
  grouped (tasks st) -> tasks st <> [] ->
  client_inv (mkSystem (submit step st (set_heap h c)) mn sb).
Proof.
  intros [Hh Hr Hb Hs Hp Hm Hsb] Hh' Hlen Hok Hne. split; simpl in *; try done.
  - intros rid ps Hps. specialize (Hr rid ps Hps). eapply Forall_impl; [exact Hr|]. simpl. lia.
  - apply Forall_app. split; [done|]. by constructor.
Qed.

Lemma accounted_submit c mn sb step st h vs :
  views (tasks st) ≡ₚ vs ->
  accounted (mkSystem (submit step st (set_heap h c)) mn sb) ≡ₚ accounted (mkSystem c mn sb) ++ vs.
Proof.
  intros Hv. unfold accounted. simpl. rewrite submitted_views_snoc. simpl. rewrite Hv.
  solve_Permutation.
Qed.

Lemma start_req_send_keeps c mn sb ms sid ssid :
  client_inv (mkSystem c mn sb) -> metas_ok ms ->
  exists c', start_req_send ms sid ssid c = Ok c' /\
    keeps (mkSystem c mn sb) (meta_view <$> ms) (mkSystem c' mn sb).
Proof.
  intros HI Hms. unfold start_req_send.
  destruct (create_step_tasks_spec (heap c) sid ssid ms) as (h & st & -> & Hh & Hl & He & Hok & Hv);
    [apply HI|done|]. simpl. destruct (tasks_empty st) eqn:Het; (eexists; split; [done|]).
  - destruct ms as [|m ms]; [|specialize (He ltac:(done)); congruence]. split; [|unfold accounted; simpl; solve_Permutation].
    destruct HI as [? Hr ?????]. split; simpl in *; try done.
    intros rid ps Hps. eapply Forall_impl; [by apply (Hr rid)|]. simpl. lia.
  - split; [|by apply accounted_submit].
    destruct (queue_submits c mn sb (length (steps_ c)) st h HI Hh Hl Hok (nonempty_tasks _ Het)). by split.
Qed.

Lemma substep_send_keeps c mn sid ssid ms a :
  client_inv (mkSystem c mn (Some (mkSubPc sid ssid ms a))) ->
  exists c', substep_send sid ssid ms a c = Ok c' /\
    keeps (mkSystem c mn (Some (mkSubPc sid ssid ms a))) [] (mkSystem c' mn None).
Proof.
  intros HI. pose proof (ci_sub _ HI) as [Hms Hne]. simpl in Hms, Hne.
  assert (client_inv (mkSystem c mn None)) as HI' by (by destruct HI).
  destruct a as [|step|]; simpl.
  - eexists. split; [done|]. split; [done|]. by rewrite app_nil_r.
  - destruct (create_step_tasks_spec (heap c) sid ssid ms) as (h & st & -> & Hh & Hl & He & Hok & Hv);
      [apply HI|done|]. simpl. rewrite cassert_true by (by rewrite He). simpl.
    eexists. split; [done|]. split; [by apply queue_submits; auto using nonempty_tasks|].
    rewrite (accounted_submit c mn None step st h _ Hv). unfold accounted. simpl. solve_Permutation.
  - destruct (start_req_send_keeps c mn None ms sid ssid HI' Hms) as (c' & -> & HI'' & Hv).
    eexists. split; [done|]. split; [done|]. rewrite Hv. unfold accounted. simpl. solve_Permutation.
Qed.

Lemma substep_locked_keeps c c' mn sid ssid ms a :
  client_inv (mkSystem c mn None) -> metas_ok ms -> ms <> [] ->
  substep_locked sid ssid ms c = Ok (c', a) ->
  keeps (mkSystem c mn None) (meta_view <$> ms) (mkSystem c' mn (Some (mkSubPc sid ssid ms a))).
Proof.
  intros HI Hms Hne. unfold substep_locked.
  destruct (sid <? coord_step_id_ c).
  { intros [= <- <-]. split; [by destruct HI|]. unfold accounted. simpl. solve_Permutation. }
  destruct (coord_step_id_ c <? sid).
  - destruct (check_pending _ _ _); [|done]. intros [= <- <-]. split.
    + destruct HI as [Hh Hr Hb Hs Hp Hm Hsb]. split; simpl in *; try done.
      apply Forall_app. split; [done|]. by constructor.
    + unfold accounted. simpl. rewrite metas_views_snoc. simpl. solve_Permutation.
  - destruct (last_step_guard_ c); intros [= <- <-]; (split; [by destruct HI|]);
      unfold accounted; simpl; solve_Permutation.
Qed.

Lemma check_buf_spec buf sid ssid buf' :
  check_buf buf sid ssid = Ok buf' -> tasks buf' = tasks buf.
Proof.
  unfold check_buf, rtassert. destruct (tasks_empty buf); [by intros [= <-]|].
  repeat case_match; simpl; by intros [= <-].
Qed.

Lemma submit_req_send_keeps c c' sb inst wid rid seen n last src dst info winfo sid ssid :
  client_inv (mkSystem c None sb) -> wid_ok wid -> parse_worker_info info = Ok winfo ->
  submit_req_send inst wid rid seen n last src dst info sid ssid c = Ok c' ->
  keeps (mkSystem c None sb) [(mkRequestInfo inst wid winfo rid src dst, seen, n, last)]
    (mkSystem c' None sb).
Proof.
  intros HI Hw Hinfo. unfold submit_req_send. rewrite Hinfo.
  destruct (cassert _); [|done]. destruct (rtassert _); [|done]. simpl.
  destruct (check_buf _ _ _) as [buf|] eqn:Hbuf; [|done]. simpl.
  apply check_buf_spec in Hbuf.
  set (r := mkRequestInfo _ _ _ _ _ _).
  assert (heap_ok (heap c ++ [new_cell r])) as Hh.
  { apply Forall_app. split; [apply HI|]. by constructor. }
  assert ((heap c ++ [new_cell r]) !! length (heap c) = Some (new_cell r)) as Hp
    by (by rewrite lookup_app_r, Nat.sub_diag by lia).
  assert (grouped (tasks buf)) as Hok by (rewrite Hbuf; apply HI).
  pose proof (add_send_task_spec _ buf _ _ seen n last Hh Hp Hok) as Hs.
  destruct (add_send_task _ _ _ _ _ _) as [[h buf']|]; [|done]. simpl in Hs |- *.
  destruct Hs as (Hh' & Hlen & _ & Hok' & _ & Hv & _). intros [= <-].
  rewrite length_app in Hlen. simpl in Hlen.
  assert (client_inv (mkSystem (set_buf buf' (set_heap h c)) None sb)) as HI'.
  { destruct HI as [? Hr Hb Hsu Hpe Hm Hsb]. split; simpl in *; try done.
    intros rid' ps Hps. specialize (Hr rid' ps Hps). eapply Forall_impl; [exact Hr|]. simpl. lia. }
  split.
  - destruct last; [done|]. destruct HI' as [? Hr Hb Hsu Hpe Hm Hsb]. split; simpl in *; try done.
    apply map_Forall_insert_2; [|done]. apply Forall_app. split; [|constructor; [lia|constructor]].
    destruct (reqs_ c !! rid) as [ps|] eqn:Hrid; [|constructor]. by apply (Hr rid ps).
  - assert (forall x, accounted (mkSystem (set_buf buf' x) None sb) =
      accounted (mkSystem (if last then set_buf buf' x else
        set_reqs (<[rid := default [] (reqs_ c !! rid) ++ [length (heap c)]]> (reqs_ c))
          (set_buf buf' x)) None sb)) as <- by (by destruct last).
    unfold accounted. simpl. rewrite Hv, Hbuf. solve_Permutation.
Qed.

Lemma delta_loop ps h buf seen n last :
  heap_ok h -> grouped (tasks buf) -> Forall (fun p => (p < length h)%nat) ps ->
  wpr (forM ps (fun p '(h, buf) => add_send_task h buf p seen n last) (h, buf)) (fun '(h', buf') =>
    heap_ok h' /\ length h' = length h /\ grouped (tasks buf') /\
    views (tasks buf') ≡ₚ views (tasks buf) ++
      omap (fun p => (fun ce => (cell_info ce, seen, n, last)) <$> h !! p) ps).
Proof.
  revert h buf. induction ps as [|p ps IH]; intros h buf Hh Hok Hps; cbn [forM].
  { simpl. by rewrite app_nil_r. }
  apply Forall_cons in Hps as [Hp Hps].
  destruct (lookup_lt_is_Some_2 h p Hp) as [ce Hce].
  apply wpr_bind. eapply wpr_mono; [by apply (add_send_task_spec h buf p ce)|].
  intros [h1 buf1] (Hh1 & Hl1 & Hi1 & Hok1 & _ & Hv1 & _). eapply wpr_mono.
  { apply IH; [done..|]. by rewrite Hl1. }
  intros [h2 buf2] (Hh2 & Hl2 & Hok2 & Hv2). split_and!; [done|congruence|done|].
  rewrite Hv2, Hv1. simpl. rewrite Hce. simpl. rewrite <- app_assoc. apply Permutation_app_head. simpl.
  constructor. erewrite list_omap_ext; [done|]. apply Forall_Forall2_diag, Forall_forall.
  intros q _. specialize (Hi1 q). destruct (h1 !! q), (h !! q); simplify_eq/=; [|done].
  by rewrite Hi1.
Qed.

Lemma submit_delta_send_keeps c c' sb rid seen n last sid ssid :
  client_inv (mkSystem c None sb) ->
  submit_delta_send rid seen n last sid ssid c = Ok c' ->
  keeps (mkSystem c None sb) (delta_views rid seen n last c) (mkSystem c' None sb).
Proof.
  intros HI. unfold submit_delta_send, delta_views.
  destruct (cassert _); [|done]. simpl.
  destruct (check_buf _ _ _) as [buf|] eqn:Hbuf; [|done]. simpl.
  apply check_buf_spec in Hbuf.
  assert (grouped (tasks buf)) as Hok by (rewrite Hbuf; apply HI).
  destruct (reqs_ c !! rid) as [ps|] eqn:Hrid.
  2: { intros [= <-]. split; [by destruct HI|].
       unfold accounted. simpl. rewrite Hbuf. solve_Permutation. }
  destruct (if n <=? 0 then _ else _); [|done]. simpl.
  pose proof (delta_loop ps (heap c) buf seen n last (ci_heap _ HI) Hok (ci_reqs _ HI rid ps Hrid)) as Hs.
  destruct (forM _ _ _) as [[h buf']|]; [|done]. simpl in Hs |- *.
  destruct Hs as (Hh' & Hlen & Hok' & Hv). intros [= <-].
  assert (client_inv (mkSystem (set_buf buf' (set_heap h c)) None sb)) as HI'.
  { destruct HI as [? Hr Hb Hsu Hpe Hm Hsb]. split; simpl in *; try done. by rewrite Hlen. }
  split.
  - destruct last; [|done]. destruct HI' as [? Hr Hb Hsu Hpe Hm Hsb]. split; simpl in *; try done.
    by apply map_Forall_delete.
  - destruct last; unfold accounted; simpl; rewrite Hv, Hbuf; solve_Permutation.
Qed.

Lemma start_begin_keeps c c' sb sid step :
  client_inv (mkSystem c None sb) -> start_begin sid c = Ok (c', step) ->
  keeps (mkSystem c None sb) [] (mkSystem c' (Some (MLock sid step)) sb).
Proof.
  intros HI. unfold start_begin. simpl.
  destruct HI as [Hh Hr Hb Hs Hp Hm Hsb]. simpl in *.
  destruct (tasks_empty (targets_tasks_buf_ c)) eqn:He.
  - intros [= <- <-]. split; [split; simpl; try done; apply grouped_nil|].
    unfold accounted. simpl. rewrite (views_empty _ He). solve_Permutation.
  - destruct (cassert _); [|done]. intros [= <- <-]. split.
    + split; simpl; try done; [apply grouped_nil|]. apply Forall_app. split; [done|].
      constructor; [|constructor]. auto using nonempty_tasks.
    + unfold accounted. simpl. rewrite submitted_views_snoc. simpl. solve_Permutation.
Qed.

Lemma start_locked_keeps c c' sb sid step ms :
  client_inv (mkSystem c (Some (MLock sid step)) sb) -> start_locked sid step c = Ok (c', ms) ->
  keeps (mkSystem c (Some (MLock sid step)) sb) []
    (mkSystem c' (Some (MPending sid step ms)) sb).
Proof.
  intros [Hh Hr Hb Hs Hp Hm Hsb]. unfold start_locked. destruct (cassert _); [|done].
  intros [= <- <-]. split; [by split|]. unfold accounted. simpl. solve_Permutation.
Qed.

Lemma start_pending_keeps c c' sb sid step ms :
  client_inv (mkSystem c (Some (MPending sid step ms)) sb) ->
  start_pending sid step ms c = Ok c' ->
  keeps (mkSystem c (Some (MPending sid step ms)) sb) [] (mkSystem c' None sb).
Proof.
  unfold start_pending. generalize 0 at 1 as ssid. revert c.
  induction ms as [|m ms IH]; intros c ssid HI; cbn [forM rbind].
  { intros [= <-]. split; [by destruct HI|]. by rewrite app_nil_r. }
  pose proof (ci_main _ HI) as Hm. simpl in Hm. apply Forall_cons in Hm as [[Hms Hne] Hrest].
  do 2 (destruct (cassert _); [cbn [rbind]|done]).
  destruct (create_step_tasks_spec (heap c) (metas_stepid m) (metas_substepid m) (metas_ m))
    as (h & st & -> & Hh & Hl & He & Hok & Hv); [apply HI|done|]. cbn [rbind].
  rewrite cassert_true by (by rewrite He). cbn [rbind]. intros Hc'.
  assert (client_inv (mkSystem c (Some (MPending sid step ms)) sb)) as HI1 by (by destruct HI).
  eapply IH in Hc' as [HI' Hv'].
  - split; [done|]. rewrite Hv'. rewrite (accounted_submit _ _ _ _ _ _ _ Hv).
    unfold accounted. simpl. solve_Permutation.
  - apply queue_submits; auto using nonempty_tasks.
Qed.

Lemma main_call_keeps c c' sb :
  client_inv (mkSystem c None sb) ->
  heap c' = heap c -> reqs_ c' = reqs_ c -> targets_tasks_buf_ c' = targets_tasks_buf_ c ->
  submits c' = submits c -> pending_step_metas_ c' = pending_step_metas_ c ->
  keeps (mkSystem c None sb) [] (mkSystem c' None sb).
Proof.
  intros [] Hh Hr Hb Hs Hp. split.
  - split; simpl in *; rewrite ?Hh, ?Hr, ?Hb, ?Hs, ?Hp; done.
  - unfold accounted. simpl. rewrite Hb, Hs, Hp. solve_Permutation.
Qed.

Lemma sys_step_keeps s vs s' : client_inv s -> sys_step s vs s' -> keeps s vs s'.
Proof.
  intros HI. destruct 1 as [| | | | |c c' sb sid Hs|c c' sb sid Hs|c c' mn sb sid ssid ms Hms Hs| |c c' mn sid ssid ms a Hs].
  - by eapply submit_req_send_keeps.
  - by eapply submit_delta_send_keeps.
  - by eapply start_begin_keeps.
  - by eapply start_locked_keeps.
  - by eapply start_pending_keeps.
  - unfold notify_event_record in Hs. destruct (cassert _); [|done]. simpl in Hs.
    destruct (current_guard _ _) as [[g o]|]; [|done]. simplify_eq/=. by apply main_call_keeps.
  - unfold flush_send in Hs. destruct (cassert _); [|done]. simpl in Hs.
    destruct (current_guard _ _) as [[g o]|]; [|done]. simpl in Hs.
    destruct (cassert _); [|done]. simplify_eq/=. by apply main_call_keeps.
  - destruct (start_req_send_keeps c mn sb ms sid ssid HI Hms) as (c2 & Hs2 & Hk). rewrite Hs2 in Hs. by simplify_eq.
  - by eapply substep_locked_keeps.
  - destruct (substep_send_keeps c mn sid ssid ms a HI) as (c2 & Hs2 & Hk).
    rewrite Hs2 in Hs. by simplify_eq.
Qed.

Lemma new_client_inv : client_inv (mkSystem new_client None None).
Proof. split; simpl; try done; try apply grouped_nil; constructor. Qed.

Lemma sys_reachable_inv s received :
  sys_reachable s received -> client_inv s /\ accounted s ≡ₚ received.
Proof.
  induction 1 as [|s vs s' received _ [HI Hv] Hs]; [split; [apply new_client_inv|done]|].
  destruct (sys_step_keeps s vs s' HI Hs) as [HI' Hv']. split; [done|]. by rewrite Hv', Hv.
Qed.

(** ** Theorems *)

(** C26: In every interleaving of the engine's thread (submit_req_send, submit_delta_send,
    start_send split at its lock, notify_event_record, flush_send), the disagg thread
    (start_send_substep split at its lock) and start_req_send called by any thread at any
    time, the tasks asked for are, counted with multiplicity, exactly those buffered,
    pending, in progress or handed to the target manager: none is lost or sent twice. Each
    hand-over has at most one row per instance and one batch per worker, and every task of a
    batch is for the instance and worker of that batch, with at least one task in each. For
    worker ids below 2^32-1 and substeps that bring new tokens. *)
Theorem every_task_is_accounted_for s received :
  sys_reachable s received ->
  accounted s ≡ₚ received /\
  (main s = None -> sub s = None -> tasks (targets_tasks_buf_ (client s)) = [] ->
   pending_step_metas_ (client s) = [] -> submitted_views (submits (client s)) ≡ₚ received) /\
  forall step st l, (step, st) ∈ submits (client s) -> l ≡ₚ tasks st -> grouped l /\ tasks_ok l /\ l <> [].
Proof.
  intros [HI Hv]%sys_reachable_inv. split; [done|]. split.
  - intros Hm Hs Hb Hp. rewrite <- Hv. unfold accounted. rewrite Hm, Hs, Hb, Hp. simpl.
    by rewrite app_nil_r.
  - intros step st l Hin Hl.
    destruct (proj1 (Forall_forall _ _) (ci_submits _ HI) _ Hin) as [Hok Hne].
    rewrite <- Hl in Hok. split_and!; [done|by apply grouped_tasks_ok|]. intros ->. apply Permutation_nil in Hl. done.
Qed.
End Client.

(** ** Examples *)
Definition unwrap {A} (d : A) (r : res A) : A := match r with Ok a => a | Err _ => d end.

Definition sample_meta : ReqMeta := mkReqMeta "d1" 2 "late" 0 8 [[5]] [[6]] None.

(** A request for step 1, an early substep of step 1, and the start of step 1. *)
Definition sample1 : Client :=
  Eval vm_compute in
    unwrap new_client (@submit_req_send debug_env "d0" 1 "r" 0 16 false [[1]] [[2]] None 1 0 new_client).
Definition sample2 : Client :=
  Eval vm_compute in (unwrap (new_client, kReturn) (substep_locked 1 1 [sample_meta] sample1)).1.
Definition sample3 : Client * nat :=
  Eval vm_compute in unwrap (new_client, 0%nat) (@start_begin debug_env 1 sample2).
Definition sample4 : Client * list StepMetas :=
  Eval vm_compute in unwrap (new_client, []) (@start_locked debug_env 1 0 sample3.1).
Definition sample5 : Client :=
  Eval vm_compute in unwrap new_client (@start_pending debug_env 1 0 sample4.2 sample4.1).

Definition sample_views : list view :=
  [(mkRequestInfo "d0" 1 None "r" [[1]] [[2]], 0, 16, false); meta_view sample_meta].

Lemma sample_reachable : @sys_reachable debug_env 2 (mkSystem sample5 None None) sample_views.
Proof.
  assert (wid_ok 1) by (vm_compute; split; congruence).
  assert (metas_ok [sample_meta]) by (repeat constructor; vm_compute; congruence).
  apply (sys_next 2 (mkSystem sample4.1 (Some (MPending 1 0 sample4.2)) None) [] _ sample_views);
    [|by apply (s_pending 2)].
  apply (sys_next 2 (mkSystem sample3.1 (Some (MLock 1 0)) None) [] _ sample_views);
    [|by apply (s_lock 2)].
  apply (sys_next 2 (mkSystem sample2 None None) [] _ sample_views); [|by apply (s_begin 2)].
  apply (sys_next 2 (mkSystem sample2 None (Some (mkSubPc 1 1 [sample_meta] kReturn))) [] _
           sample_views); [|by apply (s_sub_send 2)].
  apply (sys_next 2 (mkSystem sample1 None None) [meta_view sample_meta] _ [_]);
    [|by apply (s_sub_lock 2 _ _ _ _ _ [sample_meta])].
  apply (sys_next 2 (mkSystem new_client None None) [_] _ []); [apply sys_start|].
  by apply (s_req 2 _ _ _ _ _ _ _ _ _ _ _ None None 1 0).
Qed.

Lemma every_task_is_accounted_for_witness :
  let s := mkSystem sample5 None None in
  accounted s ≡ₚ sample_views /\
  (main s = None -> sub s = None -> tasks (targets_tasks_buf_ (client s)) = [] ->
   pending_step_metas_ (client s) = [] -> submitted_views (submits (client s)) ≡ₚ sample_views) /\
  forall step st l, (step, st) ∈ submits (client s) -> l ≡ₚ tasks st -> grouped l /\ tasks_ok l /\ l <> [].
Proof. apply (@every_task_is_accounted_for debug_env 2), sample_reachable. Defined.

(** [flush_send] asserts that nothing is pending, but a substep of the next step may arrive
    while the current one runs. *)
Example early_substep_fails_flush :
  (let* '(c, _) := @start_send debug_env 1 1 new_client in
   let* c := @start_send_substep debug_env 2 2 1 [sample_meta] c in
   @flush_send debug_env 2 1 c) = Err AssertFailed.
Proof. reflexivity. Qed.
