(* ===== verification/Bindings.v ===== *)
(** The request functions of the Python module ([kvtransfer_pybind.cpp]): every call goes to the
    one client of the process, and the property [ReqMeta.dst_worker_info] carries a worker as
    text.  (The init functions are in the file on start-up.) *)

From stdpp Require Import gmap.
From S2P Require Import Prelude.
From S2P Require Import Common.
From S2P Require Import WorkerCodec.
From S2P Require Import Step.
From S2P Require Import TargetMgr.
From S2P Require Import Client.

(** ** [ReqMeta.dst_worker_info] *)
Inductive PyObject := PyNone | PyStr (s : string) | PyOther.

(** [py::type_error] is an exception. *)
Definition parse_py_worker_info (o : PyObject) : res (option WorkerInfo) :=
  match o with
  | PyNone => Ok None
  | PyStr s => let* w := from_string s in Ok (Some w)
  | PyOther => Err InvalidArgument
  end.

Definition get_py_worker_info (w : option WorkerInfo) : res PyObject :=
  match w with
  | None => Ok PyNone
  | Some w => let* s := to_string w in Ok (PyStr s)
  end.

Definition set_dst_worker_info (o : PyObject) (m : ReqMeta) : res ReqMeta :=
  let* w := parse_py_worker_info o in
  Ok (mkReqMeta (dst_inst m) (dst_worker m) (reqid m) (meta_seen_tokens m) (meta_new_tokens m)
        (src_block_ids m) (dst_block_ids m) w).

(** ** Calls

    [KVTransferException] is an exception of its own class, raised as the others are. *)
Definition with_client {A} (f : Client -> res A) (c : option Client) : res A :=
  match c with
  | None => Err RuntimeError
  | Some c => f c
  end.

Inductive PyCall :=
| AddTarget
| StartReqSend (metas : list ReqMeta) (stepid substepid : Z)
| SubmitReqSend2 (inst : string) (wid : Z) (rid : string) (seen new_tokens : Z) (has_last : bool)
    (src dst : BlockIds) (info : option string) (stepid substepid : Z)
| SubmitDeltaSend (rid : string) (seen new_tokens : Z) (has_last : bool) (stepid substepid : Z)
| StartSend (stepid sched_tokens : Z)
| StartSendSubstep (stepid substepid : Z) (metas : list ReqMeta)
| NotifyEventRecord (stepid : Z)
| FlushSend (stepid : Z).

Section Calls.
Context `{Env} (num_layers : Z).

(** [KvTransferClient::add_target] is [RTASSERT(false)]; [start_req_send] asserts that there is a
    client, the others throw. *)
Definition py_call (k : PyCall) (c : option Client) : res (option Client) :=
  match k with
  | AddTarget => with_client (fun _ => Err AssertFailed) c
  | StartReqSend metas stepid substepid =>
      let* _ := rtassert (bool_decide (is_Some c)) in
      with_client (fun c => let* c := start_req_send num_layers metas stepid substepid c in Ok (Some c)) c
  | SubmitReqSend2 inst wid rid seen n last src dst info stepid substepid =>
      with_client (fun c => let* c := submit_req_send inst wid rid seen n last src dst info stepid substepid c in Ok (Some c)) c
  | SubmitDeltaSend rid seen n last stepid substepid =>
      with_client (fun c => let* c := submit_delta_send rid seen n last stepid substepid c in Ok (Some c)) c
  | StartSend stepid sched_tokens =>
      with_client (fun c => let* '(c, _) := start_send stepid sched_tokens c in Ok (Some c)) c
  | StartSendSubstep stepid substepid metas =>
      with_client (fun c => let* c := start_send_substep num_layers stepid substepid metas c in Ok (Some c)) c
  | NotifyEventRecord stepid =>
      with_client (fun c => let* c := notify_event_record stepid c in Ok (Some c)) c
  | FlushSend stepid =>
      with_client (fun c => let* c := flush_send num_layers stepid c in Ok (Some c)) c
  end.

Definition py_calls (ks : list PyCall) (c : option Client) : res (option Client) := forM ks py_call c.

(** ** A worker's text *)
Lemma to_string_wire_view w : attn_pack_size w <> 0 -> to_string (wire_view w) = to_string w.
Proof. intros Hp. unfold wire_view, view_with. by rewrite (proj2 (Z.eqb_neq _ _) Hp). Qed.

(** A text that a worker wrote is read back as the worker, and given out again as it was. *)
Lemma worker_info_property w s m :
  wf_wire w -> attn_pack_size w <> 0 -> to_string w = Ok s ->
  exists m', set_dst_worker_info (PyStr s) m = Ok m' /\ meta_worker_info m' = Some (wire_view w) /\
    get_py_worker_info (meta_worker_info m') = Ok (PyStr s).
Proof.
  intros Hw Hp Hs. destruct (to_string_lengths _ _ Hs) as [Hi Ha]. destruct (worker_text w Hw Hi Ha) as (s' & Hs' & Hr & _).
  rewrite Hs in Hs'. injection Hs' as <-. unfold set_dst_worker_info, parse_py_worker_info. rewrite Hr. cbn. eexists. split; [done|].
  split; [done|]. cbn. by rewrite to_string_wire_view, Hs.
Qed.

(** ** Steps *)
(** Before the client is made every call fails, and only [start_req_send] ends the process. *)
Lemma calls_need_client k :
  py_call k None = Err (match k with StartReqSend _ _ _ => AssertFailed | _ => RuntimeError end).
Proof. by destruct k. Qed.

Lemma notified_steps c g sid k o :
  tasks_empty (targets_tasks_buf_ c) = true -> last_step_guard_ c = Some g -> steps_ c !! g = Some o -> step_idx o = sid ->
  ready_ (guard_record o) + Z.of_nat k < W32 -> 0 <= ready_ (guard_record o) ->
  py_calls (replicate k (NotifyEventRecord sid)) (Some c) =
    Ok (Some (set_steps (<[g := mkStepObj sid (step_data o) (mkSem (ready_ (guard_record o) + Z.of_nat k))]> (steps_ c)) c)).
Proof.
  unfold py_calls. revert c o. induction k as [|k IH]; intros c o Hb Hg Ho Hid Hlt Hnn; cbn [replicate forM].
  - rewrite Z.add_0_r. rewrite list_insert_id; [by destruct c|]. rewrite Ho. f_equal. destruct o as [i d [r]]; cbn in *. by subst.
  - cbn [py_call with_client]. unfold notify_event_record. rewrite cassert_true by done. cbn [rbind]. unfold current_guard.
    rewrite Hg, Ho, Hid, Z.eqb_refl. cbn [rbind].
    assert (Hl : (g < length (steps_ c))%nat) by (by eapply lookup_lt_Some).
    assert (Hr : release (guard_record o) = mkSem (ready_ (guard_record o) + 1)) by (unfold release; by rewrite u32_small by lia).
    rewrite Hr. rewrite (IH _ (mkStepObj sid (step_data o) (mkSem (ready_ (guard_record o) + 1)))); try done; cbn [guard_record ready_]; try lia.
    + unfold set_steps. cbn. rewrite list_insert_insert_eq. replace (ready_ (guard_record o) + 1 + Z.of_nat k) with (ready_ (guard_record o) + Z.of_nat (S k)) by lia. done.
    + cbn. rewrite list_lookup_insert_eq by done. by rewrite Hid.
Qed.

(** Between steps: nothing collected, no current step, no early substeps. *)
Definition between_steps (c : Client) : Prop :=
  targets_tasks_buf_ c = no_tasks /\ last_step_guard_ c = None /\ pending_step_metas_ c = [].

(** A request is submitted. *)
Lemma submitted_request c inst wid rid seen n last src dst sid :
  between_steps c -> 0 < n ->
  exists h rs p, submit_req_send inst wid rid seen n last src dst None sid 0 c =
    Ok (mkClient h (steps_ c) rs
          (mkStepTasks [(inst, [(wid, mkBatch None [mkReqSendTask p (mkRequestInfo inst wid None rid src dst) seen n last] 0)])] sid 0)
          (Client.waiting c) (submits c) (coord_step_id_ c) None []).
Proof.
  intros (Hb & Hg & Hp) Hn. unfold submit_req_send. rewrite cassert_true by done. cbn [rbind]. unfold rtassert.
  rewrite (proj2 (Z.ltb_lt _ _)) by done. cbn [rbind parse_worker_info]. unfold check_buf. rewrite Hb. cbn [tasks_empty no_tasks tasks rbind].
  unfold add_send_task. rewrite list_lookup_middle by done.
  destruct (update_send_fresh (mkRequestInfo inst wid None rid src dst) seen n last) as (c' & -> & Hc').
  cbn [rbind new_cell cell_info add_to_inst add_to_worker tasks dst_inst_id dst_worker_id stepid_ substepid_].
  destruct last; do 3 eexists; unfold set_reqs, set_buf, set_heap; cbn; by rewrite Hg, Hp.
Qed.

Lemma started_step c sid sched :
  tasks_empty (targets_tasks_buf_ c) = false -> substepid_ (targets_tasks_buf_ c) = 0 ->
  last_step_guard_ c = None -> pending_step_metas_ c = [] ->
  start_send sid sched c =
    Ok (mkClient (heap c) (steps_ c ++ [mkStepObj sid (mkSem 0) (mkSem 0)]) (reqs_ c) no_tasks (Client.waiting c ++ [length (steps_ c)])
          (submits c ++ [(length (steps_ c), targets_tasks_buf_ c)]) sid (Some (length (steps_ c))) [], sid).
Proof.
  intros Hb Hs Hg Hp. unfold start_send. rewrite Hb, andb_false_r. unfold start_begin. cbn. rewrite Hb, cassert_true by (by rewrite Hs).
  cbn [rbind]. unfold start_locked. rewrite cassert_true; [|cbn; by rewrite Hg]. cbn. by rewrite Hp.
Qed.

(** A whole step through the module, in either build: the request is submitted, the step started,
    some layers recorded and the step flushed.  Every call returns, the manager was given
    exactly this request under its destination, every layer of the step counts as recorded, and
    the client is ready for the next step. *)
Theorem engine_step_runs c inst wid rid seen n last src dst sid sched k :
  between_steps c -> 0 < n -> 0 <= num_layers < W32 -> Z.of_nat k < W32 ->
  exists c' st g,
    py_calls ([SubmitReqSend2 inst wid rid seen n last src dst None sid 0; StartSend sid sched]
      ++ replicate k (NotifyEventRecord sid) ++ [FlushSend sid]) (Some c) = Ok (Some c') /\
    between_steps c' /\ submits c' = submits c ++ [(g, st)] /\
    views (tasks st) = [(mkRequestInfo inst wid None rid src dst, seen, n, last)] /\
    steps_ c' = steps_ c ++ [mkStepObj sid (mkSem 0) (mkSem (Z.max (Z.of_nat k) num_layers))] /\ g = length (steps_ c).
Proof.
  intros Hbs Hn HL Hk. destruct (submitted_request c inst wid rid seen n last src dst sid Hbs Hn) as (h & rs & p & Hsub).
  unfold py_calls. cbn [app forM]. cbn [py_call with_client]. rewrite Hsub. cbn [rbind py_call with_client].
  rewrite started_step by done. cbn [rbind heap steps_ reqs_ Client.waiting submits targets_tasks_buf_].
  set (c1 := mkClient _ _ _ _ _ _ sid _ _). set (g := length (steps_ c)) in *.
  assert (Hg : last_step_guard_ c1 = Some g) by reflexivity.
  assert (Ho : steps_ c1 !! g = Some (mkStepObj sid (mkSem 0) (mkSem 0))) by (cbn; by rewrite list_lookup_middle).
  rewrite forM_app. pose proof (notified_steps c1 g sid k _ eq_refl Hg Ho eq_refl) as Hnot. unfold py_calls in Hnot.
  rewrite Hnot by (cbn; lia). cbn [rbind forM py_call with_client]. unfold flush_send. rewrite cassert_true by done. cbn [rbind].
  unfold current_guard. cbn [last_step_guard_ set_steps c1 set_coord submit set_buf steps_ add_waiting].
  rewrite list_lookup_insert_eq by (rewrite length_app; cbn; lia). cbn [step_idx]. rewrite Z.eqb_refl. cbn [rbind].
  rewrite cassert_true by done. cbn [rbind]. do 3 eexists. split; [done|]. split_and!; try done. cbn.
  rewrite list_insert_insert_eq. rewrite insert_app_r_alt by lia. rewrite Nat.sub_diag. cbn. do 3 f_equal.
  rewrite Z.add_0_l. destruct (Z.ltb_spec (Z.of_nat k) num_layers); f_equal; lia.
Qed.
End Calls.

Lemma engine_step_runs_witness :
  exists c' st, @py_calls debug_env 2 ([SubmitReqSend2 "d1" 2 "r" 0 8 true [[5]] [[6]] None 4 0; StartSend 4 8]
      ++ replicate 1 (NotifyEventRecord 4) ++ [FlushSend 4]) (Some new_client) = Ok (Some c') /\
    submits c' = [(O, st)] /\ views (tasks st) = [(mkRequestInfo "d1" 2 None "r" [[5]] [[6]], 0, 8, true)].
Proof.
  destruct (@engine_step_runs debug_env 2 new_client "d1" 2 "r" 0 8 true [[5]] [[6]] 4 8 1) as (c' & st & g & H1 & _ & H2 & H3 & _ & ->);
    [done|lia|unfold W32; lia|unfold W32; lia|]. exists c', st. auto.
Defined.
